(* ===== verification/_CoqProject ===== *)
-Q . S2P
Prelude.v
KcpBase.v
Kcp.v
KcpRecv.v
KcpSend.v
KcpAck.v
KcpInput.v
KcpFlush.v
KcpNet.v
Links.v
MemoryStream.v
Dispatcher.v
Inet.v
UvHeap.v
UvTimer.v
HiDict.v
Sds.v
RedisReader.v
RedisParse.v
RedisSafe.v
RedisReply.v
RedisFormat.v
Async.v
AsyncQueue.v
AsyncCommand.v
AsyncReply.v
AsyncSub.v
Adler.v
CrcTable.v
Crc.v
Inftrees.v
BitRev.v
Canon.v
InftreesFill.v
InftreesSort.v
InftreesSpec.v
InftreesThm.v
InfFixed.v
Inflate.v
Bits.v
InfDecode.v
InfCopy.v
TreesTables.v
TreesCodes.v
TreesHuff.v
TreesHeap.v
TreesCombine.v
TreesStart.v
TreesLens.v
TreesLimit.v
Trees.v
TreesEmit.v
TreesBlock.v
InfItems.v
InfFast.v
InfBlock.v
InfCodes.v
InfHeader.v
TreesTally.v
InfStored.v
TreesStored.v
TreesRuns.v
InfLens.v
InfDynamic.v
TreesDyn.v
TreesBuild.v
TreesScan.v
TreesFlush.v
TreesFreq.v
TreesChoose.v
DeflateBlock.v
DeflateRound.v
UvNet.v
UvServer.v
ServerApp.v
