(* ===== verification/Prelude.v ===== *)
(** * GEngine: a verification library

    GEngine is a C++ framework for game servers ([src/libs]) on top of bundled C
    libraries ([src/3rd]).  This library models its own network and message code
    and the C code that code stands on, and proves what makes them correct.  This
    file is its root: it documents the whole and holds what the components share.

    ** The program and its model

    A server process is a [serverapp].  Its [uv_service] owns a TCP and a UDP
    server and a table of sessions; libuv calls back when bytes arrive, the
    framing code of [uv_packet] cuts them into messages, [serverapp] turns a
    message into a [packet] and [networkinterface] dispatches it to the receivers
    registered for its id.  KCP is the reliable protocol over UDP that is bundled
    for the game traffic, hiredis the client of the database.

    - KCP, [src/3rd/kcp/src/ikcp.c] and [ikcp.h].  [KcpBase]: constants, codec,
      serial arithmetic, the records [IKCPSEG] and [IKCPCB].  [Kcp]: one
      definition per C function, in the order of the source.  [KcpRecv],
      [KcpSend], [KcpAck], [KcpInput], [KcpFlush]: theorems about the receiver,
      fragmentation, acknowledgements, [ikcp_input], and [ikcp_flush] with
      [ikcp_update] and [ikcp_check].  [KcpNet]: two control blocks and a
      network between them.
    - Linked lists, the [IQUEUE] macros of [ikcp.h] and [QUEUE] of libuv's
      [queue.h]: [Links].
    - Messages, [src/libs/server]: [MemoryStream] ([memorystream.h], [packet.h],
      [packet.cpp]), [Dispatcher] ([dispatcher.h], [eventinterface.h],
      [networkinterface.h]), [ServerApp] ([serverapp.cpp]).
    - Network, [src/libs/network]: [UvNet] (framing, sessions, accept, close, the
      destructors, and the read requests of libuv that drive them), [UvServer]
      (connections, start-up, send buffers, UDP).  These sources compile on Windows
      only, so the libuv they run on is [src/win] ([stream.c], [tcp.c],
      [handle.c], [handle-inl.h]).
    - libuv, [src/3rd/libuv-v1.19.2]: [Inet] ([inet.c], [uv_ip4_addr],
      [uv_ip6_addr]), [UvHeap] ([heap-inl.h]), [UvTimer] ([unix/timer.c]).
    - hiredis, [src/3rd/hiredis]: [Sds] ([sds.c]), [RedisReader] ([read.c]) with
      [RedisParse] and [RedisSafe], [RedisReply] (reply objects) and
      [RedisFormat] (command builders) of [hiredis.c], [HiDict] ([dict.c]).  [Async]:
      asynchronous contexts ([async.c] and what it uses of [hiredis.c] and [net.c]),
      one definition per function; [AsyncQueue], [AsyncCommand], [AsyncReply] and
      [AsyncSub]: theorems about the queues and the end of a context, commands,
      replies, and subscriptions.
    - zlib, [src/3rd/zip]: [Adler] ([adler32.c]), [CrcTable] ([crc32.h]) and [Crc]
      ([crc32.c]), which the checksums of tile map data use.
    - The decoder of zlib.  [Inftrees] ([inftrees.c]) and [InfFixed]
      ([inffixed.h]): the tables, with [BitRev], [Canon], [InftreesFill],
      [InftreesSort], [InftreesSpec] and [InftreesThm] about canonical codes and
      the tables built for them.  [Inflate]: the block modes of [inflate.c] and
      [inffast.c] as a machine, with [Bits], [InfDecode], [InfCopy], [InfItems],
      [InfFast], [InfBlock], [InfCodes], [InfHeader], [InfStored], [InfLens] and
      [InfDynamic] about the steps by which it reads each part of a block.
    - The encoder of zlib, [trees.c] and the flushing of [deflate.c].
      [TreesTables]: static trees, [gen_codes], [bi_reverse].  [TreesHuff]:
      [build_tree] and what it calls.  [Trees]: bit output, tally, runs of code
      lengths, the three kinds of block.  [TreesFlush]: [_tr_flush_block] and the
      stream.  [TreesHeap], [TreesCombine], [TreesStart], [TreesLens] and
      [TreesLimit] lead to [TreesBuild]: [build_tree] yields a complete code of
      limited length for the symbols used.  [TreesCodes], [TreesEmit],
      [TreesBlock], [TreesTally], [TreesStored], [TreesRuns], [TreesDyn],
      [TreesScan], [TreesFreq] and [TreesChoose] say what is written and counted;
      [DeflateBlock] is one block and [DeflateRound] a whole stream, read back by
      the decoder.

    State is passed explicitly: a C or C++ object is a record, a call returns the
    changed record.  A call that can fail an assertion, abort or touch memory it
    must not touch returns an [outcome]; callbacks, the operating system and the
    allocator are arguments.  Where pointers matter (receivers, sessions, reply
    objects, heap nodes, list links, hash entries) there is a store indexed by
    addresses, and a freed or null address crashes.  Integers are [Z] with every
    conversion of the source written out ([u32], [i32], ...); where the width of
    [long] matters it is a parameter or said in the file.

    ** What the theorems show

    - End to end: a KCP receiver delivers a prefix of what was sent over a network
      that loses, duplicates and reorders ([KcpNet]); a packet given to the
      server reaches exactly its receivers ([ServerApp]); a redis command is
      parsed back by the reader ([RedisFormat]); replies that arrive in pieces reach
      the callbacks of their commands in order ([AsyncReply]).
    - Refinement of an abstract specification: the KCP reorder buffer and a map,
      the dispatcher and lists of receivers, the timer heap and a set, the hash
      table and a finite map, intrusive lists and lists, the incremental redis
      parser and a parser on byte lists.
    - Safety on every input: [ikcp_input], [ikcp_flush], the redis reader and the
      address parsers stay inside their buffers, return documented codes and keep
      their invariants.
    - Equivalence of optimised code with a plain definition: checksums that work on
      words or defer remainders and sums or bits, loops that stop early and filters.
    - Round trips of codecs, packets, addresses, quoted strings, replies, and of
      deflate and inflate: whatever is tallied is restored from the bits of the
      blocks, whichever trees and kinds of block the encoder chooses
      ([DeflateRound]).
    - Error paths and, where the code does not do what it means to, theorems that
      say what it does instead (framing, closing, connecting, sending).  What a
      destructor frees or a callback clears is part of them, so memory that was
      never initialised is visible.

    ** Bounds and fuel

    A loop that is not structural takes fuel, and a theorem about it gives the
    fuel that is enough and shows the result is [Ok], so [OutOfFuel] is never
    reached: [ikcp_input] takes the length of the datagram, KCP's list
    loops the length of the list, the heap loops the number of nodes, the path
    of a heap 32 steps for a 32-bit count, the redis reader the number of bytes,
    [dispatch] the length of the list; a context of hiredis takes more than the
    number of replies to process and of callbacks to complete; the read loop of a
    TCP handle takes the number of bytes that have arrived; the loops of zlib take
    the size of their array or of the code they count, and [inflate] a number of
    steps whose existence is proved.  [uv__run_timers] has no bound of its own,
    as its callbacks may add timers: its fuel is an argument, enough is proved
    for callbacks that leave the timers alone and no fuel is enough when they
    restart them at once.  Sizes are bounded in the hypotheses where the code
    stores them in an [int] (below 2^30 bytes in hiredis, 2^32 timers).

    ** Not modelled

    The rest of libuv (polling, threads, file system, its write, accept and connect
    requests), protobuf, MySQL headers, tinyxml and tmxparser, which the server
    libraries do not call; of zlib the headers and trailers of its formats, the
    string matching of [deflate.c] (the literals and matches of a block are
    arbitrary here), the window update between two calls of [inflate], the zip
    files and [infback.c];
    code generated from [.proto] files; log output ([ikcp_log], [ikcp_qprint]);
    variable-argument formatting ([sdscatvprintf], [redisvFormatCommand]), which
    is defined by [vsnprintf]; opening sockets and blocking contexts of
    hiredis ([net.c], [hiredis.c]); the five server executables and the tests, which only
    construct objects; allocation failure, except in KCP, where the allocator is
    a parameter. *)

From Stdlib Require Export ZArith Lia.
From stdpp Require Export sorting numbers option gmap list.

#[export] Set Default Proof Using "Type".
#[export] Set Default Goal Selector "!".
Open Scope Z_scope.

(** ** Machine integers

    A C object of an integer type is a [Z]; every conversion the source performs
    (explicitly or through the usual arithmetic conversions) is written out with
    one of the wrap functions below. *)

Definition wrapu (w z : Z) : Z := z `mod` 2 ^ w.
Definition wraps (w z : Z) : Z := (z + 2 ^ (w - 1)) `mod` 2 ^ w - 2 ^ (w - 1).

Definition u8 (z : Z) : Z := z `mod` 2 ^ 8.
Definition u16 (z : Z) : Z := z `mod` 2 ^ 16.
Definition u32 (z : Z) : Z := z `mod` 2 ^ 32.
Definition u64 (z : Z) : Z := z `mod` 2 ^ 64.
Definition i8 (z : Z) : Z := (z + 2 ^ 7) `mod` 2 ^ 8 - 2 ^ 7.
Definition i32 (z : Z) : Z := (z + 2 ^ 31) `mod` 2 ^ 32 - 2 ^ 31.
Definition i64 (z : Z) : Z := (z + 2 ^ 63) `mod` 2 ^ 64 - 2 ^ 63.

#[global] Arguments u8 z : simpl never.
#[global] Arguments u16 z : simpl never.
#[global] Arguments u32 z : simpl never.
#[global] Arguments u64 z : simpl never.
#[global] Arguments i32 z : simpl never.
#[global] Arguments i64 z : simpl never.

Definition is_u8 (z : Z) : Prop := 0 <= z < 2 ^ 8.
Definition is_u16 (z : Z) : Prop := 0 <= z < 2 ^ 16.
Definition is_u32 (z : Z) : Prop := 0 <= z < 2 ^ 32.
Definition is_i32 (z : Z) : Prop := - 2 ^ 31 <= z < 2 ^ 31.

#[export] Instance is_u8_dec z : Decision (is_u8 z).
Proof. unfold is_u8. apply _. Defined.
#[export] Instance is_u16_dec z : Decision (is_u16 z).
Proof. unfold is_u16. apply _. Defined.
#[export] Instance is_u32_dec z : Decision (is_u32 z).
Proof. unfold is_u32. apply _. Defined.
#[export] Instance is_i32_dec z : Decision (is_i32 z).
Proof. unfold is_i32. apply _. Defined.

(** [by_decide] proves a closed decidable proposition by evaluating its decision
    procedure. *)
Ltac by_decide := apply (bool_decide_unpack _); vm_compute; exact I.

(** [mword] replaces every occurrence of the wrap functions by the quotient and
    remainder equations [lia] understands, and calls it. *)
Ltac mword_unfold :=
  unfold is_u8, is_u16, is_u32, is_i32, u8, u16, u32, u64, i8, i32, i64 in *;
  change (2 ^ 7) with 128 in *; change (2 ^ 8) with 256 in *;
  change (2 ^ 16) with 65536 in *; change (2 ^ 31) with 2147483648 in *;
  change (2 ^ 32) with 4294967296 in *;
  change (2 ^ 63) with 9223372036854775808 in *;
  change (2 ^ 64) with 18446744073709551616 in *.
Ltac mword := mword_unfold; Z.div_mod_to_equations; lia.

Lemma u32_range z : is_u32 (u32 z).
Proof. mword. Qed.
Lemma u16_range z : is_u16 (u16 z).
Proof. mword. Qed.
Lemma u8_range z : is_u8 (u8 z).
Proof. mword. Qed.
Lemma i32_range z : is_i32 (i32 z).
Proof. mword. Qed.
Lemma u32_small z : is_u32 z -> u32 z = z.
Proof. mword. Qed.
Lemma u16_small z : is_u16 z -> u16 z = z.
Proof. mword. Qed.
Lemma u8_small z : is_u8 z -> u8 z = z.
Proof. mword. Qed.
Lemma i32_small z : is_i32 z -> i32 z = z.
Proof. mword. Qed.
Lemma u64_small z : 0 <= z < 2 ^ 64 -> u64 z = z.
Proof. mword. Qed.
Lemma i32_u32 z : i32 (u32 z) = i32 z.
Proof. mword. Qed.
Lemma u32_u32 z : u32 (u32 z) = u32 z.
Proof. mword. Qed.

Lemma i32_u32_small z : 0 <= z < 2 ^ 31 -> i32 (u32 z) = z.
Proof. mword. Qed.

Create HintDb mword.
#[export] Hint Resolve u32_range u16_range u8_range i32_range : mword.
Create Rewrite HintDb mword.
#[export] Hint Rewrite u32_small u16_small u8_small i32_small using (mword_unfold; lia) : mword.
#[export] Hint Rewrite i32_u32 u32_u32 : mword.

(** ** Outcomes

    What a C call can do besides returning: fail an [assert], call [abort],
    dereference a null pointer, or access memory outside of the object it is
    given.  [OutOfFuel] is not a behaviour of the code: it marks a loop whose
    bound was too small, and the theorems show that it is never returned. *)

Inductive crash : Type :=
| AssertFailed
| Aborted
| NullDeref
| OutOfBounds
| DoubleFree
| InvalidFree
| UseAfterFree
| OutOfFuel.

Inductive outcome (A : Type) : Type :=
| Ok (a : A)
| Crash (c : crash).
Arguments Ok {_} _.
Arguments Crash {_} _.

#[export] Instance outcome_ret : MRet outcome := fun A a => Ok a.
#[export] Instance outcome_bind : MBind outcome := fun A B f m =>
  match m with Ok a => f a | Crash c => Crash c end.
#[export] Instance crash_eq_dec : EqDecision crash.
Proof. solve_decision. Defined.
#[export] Instance outcome_eq_dec {A} `{EqDecision A} : EqDecision (outcome A).
Proof. solve_decision. Defined.

(** [assert(b)] *)
Definition c_assert (b : bool) : outcome unit := if b then Ok tt else Crash AssertFailed.

Lemma bind_Ok {A B} (m : outcome A) (f : A -> outcome B) (b : B) :
  m ≫= f = Ok b <-> exists a, m = Ok a /\ f a = Ok b.
Proof. destruct m; simpl; split; naive_solver. Qed.

Lemma bind_Crash {A B} (m : outcome A) (f : A -> outcome B) c :
  m ≫= f = Crash c <-> m = Crash c \/ exists a, m = Ok a /\ f a = Crash c.
Proof. destruct m; simpl; split; naive_solver. Qed.

(** [inv_ok H] opens a hypothesis [m ≫= f = Ok b] step by step. *)
Ltac inv_ok H :=
  repeat match type of H with
  | (_ ≫= _) = Ok _ =>
      let x := fresh "x" in let Hx := fresh "Hx" in
      apply bind_Ok in H; destruct H as (x & Hx & H)
  end.

(** ** Bytes and memory

    A byte is a [Z] in [0, 256); a memory object is the list of its bytes. *)

Definition is_byte (z : Z) : Prop := 0 <= z < 256.
Abbreviation is_bytes := (Forall is_byte).

#[export] Instance is_byte_dec z : Decision (is_byte z).
Proof. unfold is_byte. apply _. Defined.

(** [zlen l]: the number of bytes of an object, as a C size. *)
Definition zlen {A} (l : list A) : Z := Z.of_nat (length l).
#[global] Arguments zlen {A} l : simpl never.

(** Read [n] bytes at offset [off] of [l]; any access outside of [l] crashes. *)
Definition read_at (l : list Z) (off n : Z) : outcome (list Z) :=
  if bool_decide (0 <= off /\ 0 <= n /\ off + n <= zlen l)
  then Ok (take (Z.to_nat n) (drop (Z.to_nat off) l))
  else Crash OutOfBounds.

(** Overwrite the bytes at [off] of [l] with [src]. *)
Definition write_at (l : list Z) (off : Z) (src : list Z) : outcome (list Z) :=
  if bool_decide (0 <= off /\ off + zlen src <= zlen l)
  then Ok (take (Z.to_nat off) l ++ src ++ drop (Z.to_nat (off + zlen src)) l)
  else Crash OutOfBounds.

(** Elements of an array by a signed index. *)
Definition elem_at {X} (l : list X) (i : Z) : outcome X :=
  if i <? 0 then Crash OutOfBounds
  else match l !! Z.to_nat i with Some x => Ok x | None => Crash OutOfBounds end.
Definition elem_set {X} (l : list X) (i : Z) (x : X) : outcome (list X) :=
  if (0 <=? i) && (i <? zlen l) then Ok (<[Z.to_nat i := x]> l) else Crash OutOfBounds.

Lemma zlen_nonneg {A} (l : list A) : 0 <= zlen l.
Proof. unfold zlen; lia. Qed.
Lemma zlen_app {A} (l k : list A) : zlen (l ++ k) = zlen l + zlen k.
Proof. unfold zlen. rewrite length_app. lia. Qed.
(** A list cut at a length given as a [Z]. *)
Lemma zlen_split {A} (l : list A) n : 0 <= n <= zlen l -> exists l1 l2, l = l1 ++ l2 /\ zlen l1 = n /\ zlen l2 = zlen l - n.
Proof.
  intros Hn. exists (take (Z.to_nat n) l), (drop (Z.to_nat n) l). split; [by rewrite take_drop|]. unfold zlen in *. rewrite length_take, length_drop. lia.
Qed.

(** Numbers that have no bit in common. *)
Lemma land_disjoint a b k : 0 <= k -> 0 <= a < 2 ^ k -> Z.land a (b * 2 ^ k) = 0.
Proof.
  intros Hk Ha. apply Z.bits_inj_0. intros i. rewrite Z.land_spec. destruct (Z.ltb_spec i k) as [Hi|Hi].
  - rewrite (Z.mul_pow2_bits_low b k i) by done. apply andb_false_r.
  - rewrite <- (Z.mod_small a (2 ^ k)), Z.mod_pow2_bits_high by lia. done.
Qed.

Lemma lor_join a b k : 0 <= k -> 0 <= a < 2 ^ k -> Z.lor a (Z.shiftl b k) = a + b * 2 ^ k.
Proof.
  intros Hk Ha. pose proof (land_disjoint a b k Hk Ha). rewrite Z.shiftl_mul_pow2 by done. by rewrite <- Z.lxor_lor, <- Z.add_nocarry_lxor.
Qed.

Lemma zlen_cons {A} (x : A) l : zlen (x :: l) = 1 + zlen l.
Proof. unfold zlen. simpl length. lia. Qed.
Lemma zlen_nil {A} : zlen (@nil A) = 0.
Proof. reflexivity. Qed.
Lemma zlen_take {A} (n : Z) (l : list A) :
  0 <= n <= zlen l -> zlen (take (Z.to_nat n) l) = n.
Proof. unfold zlen. rewrite length_take. lia. Qed.
Lemma zlen_drop {A} (n : Z) (l : list A) :
  0 <= n <= zlen l -> zlen (drop (Z.to_nat n) l) = zlen l - n.
Proof. unfold zlen. rewrite length_drop. lia. Qed.
Lemma length_zlen {A} (l : list A) : length l = Z.to_nat (zlen l).
Proof. unfold zlen. lia. Qed.

Lemma elem_at_lookup {X} (l : list X) i x : 0 <= i -> l !! Z.to_nat i = Some x -> elem_at l i = Ok x.
Proof. intros Hi Hl. unfold elem_at. rewrite (proj2 (Z.ltb_ge i 0)) by done. by rewrite Hl. Qed.
Lemma elem_set_in {X} (l : list X) i x : 0 <= i < zlen l -> elem_set l i x = Ok (<[Z.to_nat i := x]> l).
Proof. intros Hi. unfold elem_set. rewrite (proj2 (Z.leb_le 0 i)), (proj2 (Z.ltb_lt i _)) by lia. done. Qed.
Lemma zlen_insert {X} (l : list X) i x : zlen (<[i := x]> l) = zlen l.
Proof. unfold zlen. by rewrite length_insert. Qed.
Lemma lookup_insert_Z {X} (l : list X) i j x : 0 <= i < zlen l -> 0 <= j ->
  <[Z.to_nat i := x]> l !! Z.to_nat j = if decide (i = j) then Some x else l !! Z.to_nat j.
Proof.
  intros Hi Hj. unfold zlen in Hi. destruct (decide (i = j)) as [->|Hne].
  - apply list_lookup_insert_eq. lia.
  - apply list_lookup_insert_ne. lia.
Qed.

Create Rewrite HintDb zlen.
#[export] Hint Rewrite @zlen_app @zlen_cons @zlen_nil : zlen.

Lemma read_at_Ok l off n bs :
  read_at l off n = Ok bs <->
  (0 <= off /\ 0 <= n /\ off + n <= zlen l)
  /\ bs = take (Z.to_nat n) (drop (Z.to_nat off) l).
Proof. unfold read_at. case_bool_decide; naive_solver. Qed.

Lemma read_at_len l off n bs : read_at l off n = Ok bs -> zlen bs = n.
Proof.
  intros [Hb ->]%read_at_Ok. rewrite zlen_take; [done|].
  rewrite zlen_drop; lia.
Qed.

Lemma read_at_bytes l off n bs : is_bytes l -> read_at l off n = Ok bs -> is_bytes bs.
Proof. intros Hl [_ ->]%read_at_Ok. by apply Forall_take, Forall_drop. Qed.

Lemma read_at_app l k n : n = zlen k -> read_at (l ++ k) (zlen l) n = Ok k.
Proof.
  intros ->. apply read_at_Ok. rewrite zlen_app.
  pose proof (zlen_nonneg l). pose proof (zlen_nonneg k).
  split; [lia|]. unfold zlen. rewrite !Nat2Z.id, drop_app_length. by rewrite take_ge.
Qed.

Lemma read_at_mid pre mid post off n :
  off = zlen pre -> n = zlen mid -> read_at (pre ++ mid ++ post) off n = Ok mid.
Proof.
  intros -> ->. apply read_at_Ok. rewrite !zlen_app.
  pose proof (zlen_nonneg pre). pose proof (zlen_nonneg mid). pose proof (zlen_nonneg post).
  split; [lia|]. unfold zlen. by rewrite !Nat2Z.id, drop_app_length, take_app_length.
Qed.

(** Little-endian encodings of fixed width. *)
Fixpoint le_encode (n : nat) (z : Z) : list Z :=
  match n with
  | O => []
  | S n => z `mod` 256 :: le_encode n (z `div` 256)
  end.

Fixpoint le_decode (l : list Z) : Z :=
  match l with
  | [] => 0
  | b :: l => b + 256 * le_decode l
  end.

Lemma length_le_encode n z : length (le_encode n z) = n.
Proof. revert z; induction n; intros; simpl; auto. Qed.

Lemma zlen_le_encode n z : zlen (le_encode n z) = Z.of_nat n.
Proof. unfold zlen. by rewrite length_le_encode. Qed.

Lemma le_encode_bytes n z : is_bytes (le_encode n z).
Proof.
  revert z; induction n; intros z; simpl; [constructor|].
  constructor; [apply Z.mod_pos_bound; lia|apply IHn].
Qed.

Lemma le_decode_encode n z : le_decode (le_encode n z) = z `mod` 256 ^ Z.of_nat n.
Proof.
  revert z; induction n as [|n IH]; intros z.
  - simpl. by rewrite Z.mod_1_r.
  - simpl. rewrite IH.
    replace (Z.of_nat (S n)) with (1 + Z.of_nat n) by lia.
    rewrite Z.pow_add_r by lia. change (256 ^ 1) with 256.
    rewrite (Z.rem_mul_r z 256 (256 ^ Z.of_nat n)); lia.
Qed.

Lemma le_encode_decode l : is_bytes l -> le_encode (length l) (le_decode l) = l.
Proof.
  induction 1 as [|b l Hb _ IH]; simpl; [done|].
  unfold is_byte in Hb. f_equal.
  - rewrite Z.mul_comm, Z.mod_add by lia. by apply Z.mod_small.
  - rewrite Z.mul_comm, Z.div_add by lia. by rewrite Z.div_small, Z.add_0_l.
Qed.

Lemma le_decode_range l : is_bytes l -> 0 <= le_decode l < 256 ^ zlen l.
Proof.
  induction 1 as [|b l Hb _ IH]; [vm_compute; split; congruence|].
  unfold is_byte in Hb. simpl le_decode. rewrite zlen_cons, Z.pow_add_r by (unfold zlen; lia).
  change (256 ^ 1) with 256. lia.
Qed.

(** ** Record updates

    [r <| f := v |>] is [r] with field [f] replaced, as in a C assignment
    [r->f = v].  A record type is made updatable by an [Eta] instance that
    rebuilds it from its projections. *)

Class Eta (R : Type) := eta : R -> R.
Class Setter {R T : Type} (proj : R -> T) := set_field : (T -> T) -> R -> R.
Arguments set_field {R T} proj {_} f r.

Ltac solve_setter :=
  lazymatch goal with
  | |- @Setter ?R ?T ?proj =>
      let e := constr:(_ : Eta R) in
      let e := eval red in e in
      let upd := fresh "upd" in let r := fresh "r" in
      unfold Setter; intros upd r;
      let t := eval cbv beta in (e r) in
      lazymatch eval pattern (proj r) in t with
      | ?g _ => let res := eval cbv beta in (g (upd (proj r))) in exact res
      end
  end.
#[export] Hint Extern 1 (Setter _) => solve_setter : typeclass_instances.

Declare Scope record_scope.
Notation "r <| f := v |>" := (set_field f (fun _ => v) r)
  (at level 1, f constr at level 0, v constr at level 99, left associativity) : record_scope.
Open Scope record_scope.

(** ** Sorted lists *)

Lemma StronglySorted_weaken {A} (R R' : A -> A -> Prop) (l : list A) :
  (forall x y, x ∈ l -> y ∈ l -> R x y -> R' x y) ->
  StronglySorted R l -> StronglySorted R' l.
Proof.
  intros HR Hs. induction Hs as [|a l Hs IH Hf]; [constructor|].
  constructor.
  - apply IH. intros x y Hx Hy. apply HR; by right.
  - rewrite Forall_forall in *. intros x Hx. apply HR; [by left|by right|auto].
Qed.

Lemma StronglySorted_snoc {A} (R : A -> A -> Prop) (l : list A) (x : A) :
  StronglySorted R (l ++ [x]) <-> StronglySorted R l /\ Forall (fun y => R y x) l.
Proof.
  rewrite StronglySorted_app, Forall_forall. setoid_rewrite list_elem_of_singleton.
  split; [naive_solver|]. intros [? ?]. repeat split; [naive_solver|done|].
  repeat constructor.
Qed.

Lemma StronglySorted_reverse {A} (R : A -> A -> Prop) (l : list A) :
  StronglySorted R (reverse l) <-> StronglySorted (fun x y => R y x) l.
Proof.
  induction l as [|a l IH]; [by split; constructor|].
  rewrite reverse_cons, StronglySorted_snoc, IH, Forall_reverse, StronglySorted_cons. tauto.
Qed.

Lemma Exists_reverse {A} (P : A -> Prop) (l : list A) : Exists P (reverse l) <-> Exists P l.
Proof. rewrite !Exists_exists. by setoid_rewrite elem_of_reverse. Qed.

Lemma sublist_Forall {A} (P : A -> Prop) (l' l : list A) :
  l' `sublist_of` l -> Forall P l -> Forall P l'.
Proof. rewrite !Forall_forall. intros Hs HP x Hx. by eapply HP, elem_of_sublist. Qed.

Lemma list_filter_all {A} (P : A -> Prop) `{!forall x, Decision (P x)} (l : list A) :
  Forall P l -> filter P l = l.
Proof. induction 1 as [|x l Hx _ IH]; [done|]. rewrite filter_cons_True by done. by rewrite IH. Qed.
