(* ===== verification/KcpBase.v ===== *)
(** * KCP: constants, integer codec, serial arithmetic and data model

    The lowest layer of [src/3rd/kcp/src/ikcp.c]: the protocol constants, the
    little-endian encoders and decoders, the 32-bit helpers and the two records
    [IKCPSEG] and [IKCPCB] of [ikcp.h]. *)

From S2P Require Import Prelude.

(** ** Constants (KCP BASIC) *)
Definition IKCP_RTO_NDL : Z := 30.
Definition IKCP_RTO_MIN : Z := 100.
Definition IKCP_RTO_DEF : Z := 200.
Definition IKCP_RTO_MAX : Z := 60000.
Definition IKCP_CMD_PUSH : Z := 81.
Definition IKCP_CMD_ACK : Z := 82.
Definition IKCP_CMD_WASK : Z := 83.
Definition IKCP_CMD_WINS : Z := 84.
Definition IKCP_ASK_SEND : Z := 1.
Definition IKCP_ASK_TELL : Z := 2.
Definition IKCP_WND_SND : Z := 32.
Definition IKCP_WND_RCV : Z := 128.
Definition IKCP_MTU_DEF : Z := 1400.
Definition IKCP_ACK_FAST : Z := 3.
Definition IKCP_INTERVAL : Z := 100.
Definition IKCP_OVERHEAD : Z := 24.
Definition IKCP_DEADLINK : Z := 20.
Definition IKCP_THRESH_INIT : Z := 2.
Definition IKCP_THRESH_MIN : Z := 2.
Definition IKCP_PROBE_INIT : Z := 7000.
Definition IKCP_PROBE_LIMIT : Z := 120000.

(** ** The integer codec

    An encoder receives the bytes written so far (the object between the start
    of the buffer and the pointer [p]) and returns them with the new bytes at
    the end, as the C code returns the advanced pointer.  A decoder receives the
    memory object and the offset of [p] in it, and returns the value and the new
    offset. *)

Definition ikcp_encode8u (p : list Z) (c : Z) : list Z := p ++ [u8 c].
Definition ikcp_decode8u (m : list Z) (p : Z) : outcome (Z * Z) :=
  b ← read_at m p 1; Ok (le_decode b, p + 1).

(** The [#else] branches: a native store on a little-endian machine. *)
Definition ikcp_encode16u (p : list Z) (w : Z) : list Z := p ++ le_encode 2 w.
Definition ikcp_decode16u (m : list Z) (p : Z) : outcome (Z * Z) :=
  b ← read_at m p 2; Ok (le_decode b, p + 2).
Definition ikcp_encode32u (p : list Z) (l : Z) : list Z := p ++ le_encode 4 l.
Definition ikcp_decode32u (m : list Z) (p : Z) : outcome (Z * Z) :=
  b ← read_at m p 4; Ok (le_decode b, p + 4).

(** The [IWORDS_BIG_ENDIAN] branches: explicit shifts and masks. *)
Definition ikcp_encode16u_be (p : list Z) (w : Z) : list Z :=
  p ++ [Z.land w 255; u8 (Z.shiftr w 8)].
Definition ikcp_encode32u_be (p : list Z) (l : Z) : list Z :=
  p ++ [u8 (Z.land (Z.shiftr l 0) 255); u8 (Z.land (Z.shiftr l 8) 255);
        u8 (Z.land (Z.shiftr l 16) 255); u8 (Z.land (Z.shiftr l 24) 255)].
Definition ikcp_decode16u_be (m : list Z) (p : Z) : outcome (Z * Z) :=
  b ← read_at m p 2;
  match b with
  | [b0; b1] => Ok (u16 (b0 + Z.shiftl b1 8), p + 2)
  | _ => Crash OutOfBounds
  end.
Definition ikcp_decode32u_be (m : list Z) (p : Z) : outcome (Z * Z) :=
  b ← read_at m p 4;
  match b with
  | [b0; b1; b2; b3] =>
      let l := b3 in
      let l := u32 (b2 + u32 (Z.shiftl l 8)) in
      let l := u32 (b1 + u32 (Z.shiftl l 8)) in
      let l := u32 (b0 + u32 (Z.shiftl l 8)) in
      Ok (l, p + 4)
  | _ => Crash OutOfBounds
  end.

(** ** 32-bit helpers *)
Definition _imin_ (a b : Z) : Z := if a <=? b then a else b.
Definition _imax_ (a b : Z) : Z := if a >=? b then a else b.
Definition _ibound_ (lower middle upper : Z) : Z := _imin_ (_imax_ lower middle) upper.
(** [(IINT32)(later - earlier)] on [IUINT32] operands. *)
Definition _itimediff (later earlier : Z) : Z := i32 (u32 (later - earlier)).

(** ** Data model (ikcp.h)

    [struct IKCPSEG].  The intrusive [node] links a segment into one of the four
    queues; the queues are modelled as lists (see [IQueue.v] for the pointer
    macros and their refinement to lists).  [data] is the payload allocated
    after the header. *)
Record IKCPSEG := mkSeg {
  seg_conv : Z; seg_cmd : Z; seg_frg : Z; seg_wnd : Z; seg_ts : Z; seg_sn : Z;
  seg_una : Z; seg_len : Z; seg_resendts : Z; seg_rto : Z; seg_fastack : Z;
  seg_xmit : Z; seg_data : list Z }.

#[export] Instance eta_IKCPSEG : Eta IKCPSEG := fun s =>
  mkSeg (seg_conv s) (seg_cmd s) (seg_frg s) (seg_wnd s) (seg_ts s) (seg_sn s)
    (seg_una s) (seg_len s) (seg_resendts s) (seg_rto s) (seg_fastack s)
    (seg_xmit s) (seg_data s).

(** [struct IKCPCB].  [acklist] is the array of (sn, ts) pairs, of which the
    first [ackcount] are meaningful and for which [ackblock] pairs are
    allocated; [buffer] is the size in bytes of the scratch buffer; [output] and
    [writelog] record whether the callback pointers are set. *)
Record IKCPCB := mkKcp {
  conv : Z; mtu : Z; mss : Z; state : Z;
  snd_una : Z; snd_nxt : Z; rcv_nxt : Z;
  ts_recent : Z; ts_lastack : Z; ssthresh : Z;
  rx_rttval : Z; rx_srtt : Z; rx_rto : Z; rx_minrto : Z;
  snd_wnd : Z; rcv_wnd : Z; rmt_wnd : Z; cwnd : Z; probe : Z;
  current : Z; interval : Z; ts_flush : Z; xmit : Z;
  nrcv_buf : Z; nsnd_buf : Z;
  nrcv_que : Z; nsnd_que : Z;
  nodelay : Z; updated : Z;
  ts_probe : Z; probe_wait : Z;
  dead_link : Z; incr : Z;
  snd_queue : list IKCPSEG;
  rcv_queue : list IKCPSEG;
  snd_buf : list IKCPSEG;
  rcv_buf : list IKCPSEG;
  acklist : list (Z * Z);
  ackcount : Z;
  ackblock : Z;
  buffer : Z;
  fastresend : Z;
  nocwnd : Z; stream : Z;
  logmask : Z;
  output : bool;
  writelog : bool }.

#[export] Instance eta_IKCPCB : Eta IKCPCB := fun k =>
  mkKcp (conv k) (mtu k) (mss k) (state k) (snd_una k) (snd_nxt k) (rcv_nxt k)
    (ts_recent k) (ts_lastack k) (ssthresh k) (rx_rttval k) (rx_srtt k) (rx_rto k)
    (rx_minrto k) (snd_wnd k) (rcv_wnd k) (rmt_wnd k) (cwnd k) (probe k) (current k)
    (interval k) (ts_flush k) (xmit k) (nrcv_buf k) (nsnd_buf k) (nrcv_que k)
    (nsnd_que k) (nodelay k) (updated k) (ts_probe k) (probe_wait k) (dead_link k)
    (incr k) (snd_queue k) (rcv_queue k) (snd_buf k) (rcv_buf k) (acklist k)
    (ackcount k) (ackblock k) (buffer k) (fastresend k) (nocwnd k) (stream k)
    (logmask k) (output k) (writelog k).

(** ** Memory allocation and platform

    [ikcp_malloc] calls the hook or [malloc].  A call of the library runs in an
    allocator that says, for each request size, whether the request succeeds and
    what the fresh memory holds. *)
Record allocator := {
  alloc_ok : Z -> bool;                (* does a request of this many bytes succeed? *)
  alloc_junk : Z -> list Z;            (* contents of that many fresh bytes *)
  alloc_pairs : Z -> list (Z * Z) }.   (* ... of that many (IUINT32, IUINT32) pairs *)

(** [malloc] is documented to return as many bytes as requested. *)
Definition allocator_ok (m : allocator) : Prop :=
  (forall n, 0 <= n -> zlen (alloc_junk m n) = n) /\
  (forall n, 0 <= n -> zlen (alloc_pairs m n) = n).

(** [sizeof(IKCPSEG)] on a 64-bit target: two links, twelve 32-bit fields and
    [data[1]], padded to 8 bytes. *)
Definition SIZEOF_IKCPSEG : Z := 72.

(** The data models the sources are built for differ in the width of [long]:
    64-bit Windows (LLP64) has a 32-bit [long], other 64-bit systems (LP64) have
    a 64-bit one. *)
Inductive abi := LLP64 | LP64.
Definition long_of (a : abi) (z : Z) : Z :=
  match a with LLP64 => i32 z | LP64 => i64 z end.

(** ** Lemmas *)

Lemma ikcp_encode32u_endian p l : is_u32 l -> ikcp_encode32u_be p l = ikcp_encode32u p l.
Proof.
  intros Hl. unfold ikcp_encode32u_be, ikcp_encode32u. f_equal. cbn [le_encode].
  change 255 with (Z.ones 8). rewrite !Z.land_ones, !Z.shiftr_div_pow2 by lia.
  repeat f_equal; mword.
Qed.

Lemma ikcp_encode16u_endian p w : is_u16 w -> ikcp_encode16u_be p w = ikcp_encode16u p w.
Proof.
  intros Hw. unfold ikcp_encode16u_be, ikcp_encode16u. f_equal. cbn [le_encode].
  change 255 with (Z.ones 8). rewrite !Z.land_ones, !Z.shiftr_div_pow2 by lia.
  repeat f_equal; mword.
Qed.

Lemma ikcp_decode32u_endian m p :
  is_bytes m -> ikcp_decode32u_be m p = ikcp_decode32u m p.
Proof.
  intros Hm. unfold ikcp_decode32u_be, ikcp_decode32u.
  destruct (read_at m p 4) as [b|] eqn:E; simpl; [|done].
  pose proof (read_at_len _ _ _ _ E) as Hlen.
  pose proof (read_at_bytes _ _ _ _ Hm E) as Hb.
  destruct b as [|b0 [|b1 [|b2 [|b3 [|]]]]]; unfold zlen in Hlen; simpl in Hlen; try lia.
  rewrite !Forall_cons in Hb. unfold is_byte in Hb. simpl.
  rewrite !Z.shiftl_mul_pow2 by lia. repeat f_equal. mword.
Qed.

(** Decoding at a position where a value was encoded returns it (truncated to
    its width) and moves past it. *)
Lemma decode8u_at pre post p v : p = zlen pre ->
  ikcp_decode8u (pre ++ [u8 v] ++ post) p = Ok (u8 v, p + 1).
Proof.
  intros Hp. unfold ikcp_decode8u. rewrite (read_at_mid pre [u8 v]) by done.
  cbn. do 2 f_equal. lia.
Qed.

Lemma decode16u_at pre post p v : p = zlen pre ->
  ikcp_decode16u (pre ++ le_encode 2 v ++ post) p = Ok (u16 v, p + 2).
Proof.
  intros Hp. unfold ikcp_decode16u. rewrite read_at_mid by done.
  cbv [mbind outcome_bind]. by rewrite le_decode_encode.
Qed.

Lemma decode32u_at pre post p v : p = zlen pre ->
  ikcp_decode32u (pre ++ le_encode 4 v ++ post) p = Ok (u32 v, p + 4).
Proof.
  intros Hp. unfold ikcp_decode32u. rewrite read_at_mid by done.
  cbv [mbind outcome_bind]. by rewrite le_decode_encode.
Qed.

(** ** Serial arithmetic *)

(** On numbers less than half the circle apart, the 32-bit difference is the
    true difference. *)
Lemma itimediff_exact a b :
  - 2 ^ 31 <= a - b < 2 ^ 31 -> _itimediff (u32 a) (u32 b) = a - b.
Proof. unfold _itimediff. intros. mword. Qed.

Lemma itimediff_range a b : is_i32 (_itimediff a b).
Proof. apply i32_range. Qed.

Lemma itimediff_refl a : _itimediff a a = 0.
Proof. unfold _itimediff. rewrite Z.sub_diag. reflexivity. Qed.

(** The later operand is recovered by adding the difference back. *)
Lemma itimediff_add a b : is_u32 a -> u32 (b + _itimediff a b) = a.
Proof. unfold _itimediff. intros. mword. Qed.

Lemma itimediff_inj a b c :
  is_u32 a -> is_u32 b -> _itimediff a c = _itimediff b c -> a = b.
Proof. unfold _itimediff. intros. mword. Qed.

(** The difference of two differences is the difference, when it does not leave
    the half circle. *)
Lemma itimediff_shift a b c :
  is_i32 (_itimediff a c - _itimediff b c) ->
  _itimediff a b = _itimediff a c - _itimediff b c.
Proof. unfold _itimediff. intros. mword. Qed.

Lemma imin_spec a b : _imin_ a b = Z.min a b.
Proof. unfold _imin_. destruct (Z.leb_spec a b); lia. Qed.
Lemma imax_spec a b : _imax_ a b = Z.max a b.
Proof. unfold _imax_. destruct (Z.geb_spec a b); lia. Qed.
Lemma ibound_spec l m u : _ibound_ l m u = Z.min (Z.max l m) u.
Proof. unfold _ibound_. by rewrite imin_spec, imax_spec. Qed.
