(* ===== verification/Kcp.v ===== *)
(** * KCP: the operations of [src/3rd/kcp/src/ikcp.c]

    One definition per C function, in the order of the source.  The control
    block is passed and returned explicitly; a call that can fail an assertion,
    abort, or touch memory outside of an object returns an [outcome].  Datagrams
    handed to the [output] callback are returned as a list in the order of the
    calls (the callback is assumed not to re-enter the control block; its return
    value is ignored by [ikcp_flush], as in the source).  Log lines are not
    modelled, the log mask test is. *)

From S2P Require Import Prelude KcpBase.

(** ** Segments and allocation *)

(** A fresh segment holding [data]; the fields the C code leaves unassigned at
    this point are 0 here and are assigned before they are read. *)
Definition new_seg (frg : Z) (data : list Z) : IKCPSEG :=
  mkSeg 0 0 frg 0 0 0 0 (zlen data) 0 0 0 0 data.

Definition ikcp_segment_new (m : allocator) (size : Z) : option (list Z) :=
  if alloc_ok m (u64 (SIZEOF_IKCPSEG + size)) then Some (alloc_junk m size) else None.

Definition ikcp_canlog (k : IKCPCB) (mask : Z) : bool :=
  if (Z.land mask (logmask k) =? 0) || negb (writelog k) then false else true.

(** [ikcp_output]: the datagram given to the callback, if any. *)
Definition ikcp_output (k : IKCPCB) (data : list Z) (size : Z) : outcome (list (list Z)) :=
  c_assert (output k) ;;
  if size =? 0 then Ok [] else (d ← read_at data 0 size; Ok [d]).

(** ** Creation and release *)

Definition ikcp_create (m : allocator) (sizeof_cb : Z) (conv0 : Z) : option IKCPCB :=
  if negb (alloc_ok m sizeof_cb) then None else
  let mtu0 := IKCP_MTU_DEF in
  let bufsize := u32 (u32 (mtu0 + IKCP_OVERHEAD) * 3) in
  if negb (alloc_ok m bufsize) then None else
  Some (mkKcp conv0 mtu0 (u32 (mtu0 - IKCP_OVERHEAD)) 0
          0 0 0
          0 0 IKCP_THRESH_INIT
          0 0 IKCP_RTO_DEF IKCP_RTO_MIN
          IKCP_WND_SND IKCP_WND_RCV IKCP_WND_RCV 0 0
          0 IKCP_INTERVAL IKCP_INTERVAL 0
          0 0 0 0
          0 0
          0 0
          IKCP_DEADLINK 0
          [] [] [] []
          [] 0 0
          bufsize
          0 0 0 0
          false false).

(** The objects [ikcp_release] frees, in order. *)
Inductive freed := FSeg (s : IKCPSEG) | FBuffer | FAcklist | FKcp.

Fixpoint release_queue (q : list IKCPSEG) : list freed :=
  match q with
  | [] => []
  | s :: q => FSeg s :: release_queue q
  end.

Definition ikcp_release (k : IKCPCB) : list freed :=
  release_queue (snd_buf k) ++ release_queue (rcv_buf k) ++
  release_queue (snd_queue k) ++ release_queue (rcv_queue k) ++
  (if buffer k =? 0 then [] else [FBuffer]) ++
  (if ackblock k =? 0 then [] else [FAcklist]) ++ [FKcp].

Definition ikcp_setoutput (k : IKCPCB) (out : bool) : IKCPCB := k <| output := out |>.

(** ** Receiving *)

Fixpoint peek_loop (q : list IKCPSEG) (length : Z) : Z :=
  match q with
  | [] => length
  | s :: q =>
      let length := i32 (u32 (length + seg_len s)) in
      if seg_frg s =? 0 then length else peek_loop q length
  end.

Definition ikcp_peeksize (k : IKCPCB) : Z :=
  match rcv_queue k with
  | [] => -1
  | s :: _ =>
      if seg_frg s =? 0 then i32 (seg_len s)
      else if nrcv_que k <? u32 (seg_frg s + 1) then -1
      else peek_loop (rcv_queue k) 0
  end.

(** "merge fragment": copies the payloads of the segments up to and including
    the first one with [frg == 0]; returns the length, the bytes copied, the
    segments left behind and the new [nrcv_que]. *)
Fixpoint recv_merge (ispeek dst : bool) (q : list IKCPSEG) (len : Z) (out : list Z) (nque : Z)
    : outcome (Z * list Z * list IKCPSEG * Z) :=
  match q with
  | [] => Ok (len, out, [], nque)
  | s :: q' =>
      d ← (if dst then read_at (seg_data s) 0 (seg_len s) else Ok []);
      let out := out ++ d in
      let len := i32 (u32 (len + seg_len s)) in
      let fragment := i32 (seg_frg s) in
      let nque := if ispeek then nque else u32 (nque - 1) in
      if fragment =? 0 then Ok (len, out, q', nque)
      else recv_merge ispeek dst q' len out nque
  end.

(** "move available data from rcv_buf -> rcv_queue" (shared by [ikcp_recv] and
    [ikcp_parse_data]); [buf] is the remaining [rcv_buf]. *)
Fixpoint recv_move (buf : list IKCPSEG) (k : IKCPCB) : IKCPCB :=
  match buf with
  | [] => k
  | s :: buf' =>
      if (seg_sn s =? rcv_nxt k) && (nrcv_que k <? rcv_wnd k) then
        recv_move buf'
          (k <| rcv_buf := buf' |> <| nrcv_buf := u32 (nrcv_buf k - 1) |>
             <| rcv_queue := rcv_queue k ++ [s] |> <| nrcv_que := u32 (nrcv_que k + 1) |>
             <| rcv_nxt := u32 (rcv_nxt k + 1) |>)
      else k
  end.

(** [ikcp_recv kcp buffer len]: the new control block, the return value and the
    bytes copied to [buffer] (when it is not null, [dst = true]). *)
Definition ikcp_recv (k : IKCPCB) (dst : bool) (len : Z) : outcome (IKCPCB * Z * list Z) :=
  let ispeek := len <? 0 in
  match rcv_queue k with
  | [] => Ok (k, -1, [])
  | _ =>
      let len := if len <? 0 then i32 (- len) else len in
      let peeksize := ikcp_peeksize k in
      if peeksize <? 0 then Ok (k, -2, []) else
      if peeksize >? len then Ok (k, -3, []) else
      let recover := nrcv_que k >=? rcv_wnd k in
      r ← recv_merge ispeek dst (rcv_queue k) 0 [] (nrcv_que k);
      let '(len, out, rest, nque) := r in
      let k := if ispeek then k else k <| rcv_queue := rest |> <| nrcv_que := nque |> in
      c_assert (len =? peeksize) ;;
      let k := recv_move (rcv_buf k) k in
      let k := if (nrcv_que k <? rcv_wnd k) && recover
               then k <| probe := Z.lor (probe k) IKCP_ASK_TELL |> else k in
      Ok (k, len, out)
  end.

(** ** Sending *)

(** Streaming mode: extend the last queued segment.  Returns the control block,
    what is left of the user's buffer and of its length. *)
Definition send_stream (m : allocator) (k : IKCPCB) (buf : option (list Z)) (len : Z)
    : outcome (IKCPCB * option (list Z) * Z) :=
  match last (snd_queue k) with
  | None => Ok (k, buf, len)
  | Some old =>
      if seg_len old <? mss k then
        let capacity := i32 (u32 (mss k - seg_len old)) in
        let extend := if len <? capacity then len else capacity in
        match ikcp_segment_new m (i32 (u32 (seg_len old + extend))) with
        | None => Crash AssertFailed
        | Some junk =>
            d0 ← read_at (seg_data old) 0 (seg_len old);
            r ← (match buf with
                 | Some b => d1 ← read_at b 0 extend; Ok (d0 ++ d1, Some (drop (Z.to_nat extend) b))
                 | None => d1 ← read_at junk (seg_len old) extend; Ok (d0 ++ d1, None)
                 end);
            let '(data, buf) := r in
            let seg := (new_seg 0 data) <| seg_len := u32 (seg_len old + extend) |> in
            Ok (k <| snd_queue := take (length (snd_queue k) - 1) (snd_queue k) ++ [seg] |>,
                buf, i32 (len - extend))
        end
      else Ok (k, buf, len)
  end.

(** The fragment loop; [n] iterations remain and [i] have been done. *)
Fixpoint send_fragments (m : allocator) (n : nat) (i count : Z) (k : IKCPCB)
    (buf : option (list Z)) (len : Z) : outcome (IKCPCB * Z) :=
  match n with
  | O => Ok (k, 0)
  | S n =>
      let size := if len >? i32 (mss k) then i32 (mss k) else len in
      match ikcp_segment_new m size with
      | None => Crash AssertFailed
      | Some junk =>
          data ← (match buf with
                  | Some b => if len >? 0 then read_at b 0 size else Ok junk
                  | None => Ok junk
                  end);
          let frg := if stream k =? 0 then u32 (count - i - 1) else 0 in
          let seg := (new_seg frg data) <| seg_len := u32 size |> in
          let k := k <| snd_queue := snd_queue k ++ [seg] |>
                     <| nsnd_que := u32 (nsnd_que k + 1) |> in
          send_fragments m n (i + 1) count k
            (match buf with Some b => Some (drop (Z.to_nat size) b) | None => None end)
            (i32 (len - size))
      end
  end.

Definition send_count (k : IKCPCB) (len : Z) : Z :=
  if len <=? i32 (mss k) then 1
  else i32 (u32 (len + mss k - 1) `div` mss k).

Definition ikcp_send (m : allocator) (k : IKCPCB) (buf : option (list Z)) (len : Z)
    : outcome (IKCPCB * Z) :=
  c_assert (mss k >? 0) ;;
  if len <? 0 then Ok (k, -1) else
  r ← (if stream k =? 0 then Ok (k, buf, len) else send_stream m k buf len);
  let '(k, buf, len) := r in
  if negb (stream k =? 0) && (len <=? 0) then Ok (k, 0) else
  let count := send_count k len in
  if u32 count >=? IKCP_WND_RCV then Ok (k, -2) else
  let count := if count =? 0 then 1 else count in
  send_fragments m (Z.to_nat count) 0 count k buf len.

(** ** Acknowledgements *)

(** [ikcp_update_ack]: signed arithmetic is written with the wrap of its type
    ([int] for [IINT32] operands, the platform's [long] for [delta]). *)
Definition ikcp_update_ack (A : abi) (k : IKCPCB) (rtt : Z) : IKCPCB :=
  let k :=
    if rx_srtt k =? 0 then
      k <| rx_srtt := rtt |> <| rx_rttval := Z.quot rtt 2 |>
    else
      let delta := i32 (rtt - rx_srtt k) in
      let delta := if delta <? 0 then long_of A (- delta) else delta in
      let k := k <| rx_rttval :=
                 i32 (Z.quot (long_of A (i32 (3 * rx_rttval k) + delta)) 4) |> in
      let k := k <| rx_srtt := Z.quot (i32 (i32 (7 * rx_srtt k) + rtt)) 8 |> in
      if rx_srtt k <? 1 then k <| rx_srtt := 1 |> else k in
  let rto := i32 (u32 (rx_srtt k + _imax_ (interval k) (u32 (i32 (4 * rx_rttval k))))) in
  k <| rx_rto := i32 (_ibound_ (u32 (rx_minrto k)) (u32 rto) IKCP_RTO_MAX) |>.

Definition ikcp_shrink_buf (k : IKCPCB) : IKCPCB :=
  match snd_buf k with
  | s :: _ => k <| snd_una := seg_sn s |>
  | [] => k <| snd_una := snd_nxt k |>
  end.

(** The loop of [ikcp_parse_ack]: the list without the acknowledged segment, and
    whether one was deleted. *)
Fixpoint ack_loop (sn : Z) (l : list IKCPSEG) : list IKCPSEG * bool :=
  match l with
  | [] => ([], false)
  | s :: l' =>
      if sn =? seg_sn s then (l', true)
      else if _itimediff sn (seg_sn s) <? 0 then (l, false)
      else let '(r, b) := ack_loop sn l' in (s :: r, b)
  end.

Definition ikcp_parse_ack (k : IKCPCB) (sn : Z) : IKCPCB :=
  if (_itimediff sn (snd_una k) <? 0) || (_itimediff sn (snd_nxt k) >=? 0) then k else
  let '(l, deleted) := ack_loop sn (snd_buf k) in
  let k := k <| snd_buf := l |> in
  if deleted then k <| nsnd_buf := u32 (nsnd_buf k - 1) |> else k.

Fixpoint una_loop (una : Z) (l : list IKCPSEG) (n : Z) : list IKCPSEG * Z :=
  match l with
  | [] => ([], n)
  | s :: l' =>
      if _itimediff una (seg_sn s) >? 0 then una_loop una l' (u32 (n - 1)) else (l, n)
  end.

Definition ikcp_parse_una (k : IKCPCB) (una : Z) : IKCPCB :=
  let '(l, n) := una_loop una (snd_buf k) (nsnd_buf k) in
  k <| snd_buf := l |> <| nsnd_buf := n |>.

Fixpoint fastack_loop (sn : Z) (l : list IKCPSEG) : list IKCPSEG :=
  match l with
  | [] => []
  | s :: l' =>
      if _itimediff sn (seg_sn s) <? 0 then l
      else (if negb (sn =? seg_sn s) then s <| seg_fastack := u32 (seg_fastack s + 1) |> else s)
           :: fastack_loop sn l'
  end.

Definition ikcp_parse_fastack (k : IKCPCB) (sn : Z) : IKCPCB :=
  if (_itimediff sn (snd_una k) <? 0) || (_itimediff sn (snd_nxt k) >=? 0) then k
  else k <| snd_buf := fastack_loop sn (snd_buf k) |>.

(** [for (newblock = 8; newblock < newsize; newblock <<= 1);] — [newsize] is a
    32-bit count plus one, so 32 doublings are enough. *)
Fixpoint newblock_loop (fuel : nat) (newblock newsize : Z) : Z :=
  match fuel with
  | O => newblock
  | S fuel => if newblock <? newsize then newblock_loop fuel (Z.shiftl newblock 1) newsize
              else newblock
  end.

Definition ikcp_ack_push (m : allocator) (k : IKCPCB) (sn ts : Z) : outcome IKCPCB :=
  let newsize := u32 (ackcount k + 1) in
  k ← (if newsize >? ackblock k then
         let newblock := newblock_loop 32 8 newsize in
         if negb (alloc_ok m (newblock * 4 * 2)) then Crash Aborted else
         let fresh := alloc_pairs m newblock in
         let n := Z.to_nat (ackcount k) in
         if bool_decide (ackcount k <= zlen (acklist k)) then
           Ok (k <| acklist := take n (acklist k) ++ drop n fresh |>
                 <| ackblock := u32 newblock |>)
         else Crash OutOfBounds
       else Ok k);
  if ackcount k <? zlen (acklist k) then
    Ok (k <| acklist := <[Z.to_nat (ackcount k) := (sn, ts)]> (acklist k) |>
          <| ackcount := u32 (ackcount k + 1) |>)
  else Crash OutOfBounds.

Definition ikcp_ack_get (k : IKCPCB) (p : Z) : outcome (Z * Z) :=
  match acklist k !! Z.to_nat p with
  | Some x => Ok x
  | None => Crash OutOfBounds
  end.

(** ** Input *)

(** The backwards search of [ikcp_parse_data] over the reversed [rcv_buf]:
    [None] when the sequence number is already there ([repeat]). *)
Fixpoint rcv_insert (newseg : IKCPSEG) (l : list IKCPSEG) : option (list IKCPSEG) :=
  match l with
  | [] => Some [newseg]
  | s :: l' =>
      if seg_sn s =? seg_sn newseg then None
      else if _itimediff (seg_sn newseg) (seg_sn s) >? 0 then Some (newseg :: l)
      else match rcv_insert newseg l' with
           | Some r => Some (s :: r)
           | None => None
           end
  end.

Definition ikcp_parse_data (k : IKCPCB) (newseg : IKCPSEG) : IKCPCB :=
  let sn := seg_sn newseg in
  if (_itimediff sn (u32 (rcv_nxt k + rcv_wnd k)) >=? 0) || (_itimediff sn (rcv_nxt k) <? 0)
  then k else
  let k :=
    match rcv_insert newseg (reverse (rcv_buf k)) with
    | Some r => k <| rcv_buf := reverse r |> <| nrcv_buf := u32 (nrcv_buf k + 1) |>
    | None => k
    end in
  recv_move (rcv_buf k) k.

(** The fields of a segment header as [ikcp_input] decodes them. *)
Record header := mkHdr {
  h_conv : Z; h_cmd : Z; h_frg : Z; h_wnd : Z; h_ts : Z; h_sn : Z; h_una : Z; h_len : Z }.

(** The eight decoder calls after the [conv] check; [p] is the offset of the
    header, [conv] its first word. *)
Definition decode_header (data : list Z) (p conv : Z) : outcome (header * Z) :=
  '(cmd, p) ← ikcp_decode8u data p;
  '(frg, p) ← ikcp_decode8u data p;
  '(wnd, p) ← ikcp_decode16u data p;
  '(ts, p) ← ikcp_decode32u data p;
  '(sn, p) ← ikcp_decode32u data p;
  '(una, p) ← ikcp_decode32u data p;
  '(len, p) ← ikcp_decode32u data p;
  Ok (mkHdr conv cmd frg wnd ts sn una len, p).

Definition valid_cmd (cmd : Z) : bool :=
  (cmd =? IKCP_CMD_PUSH) || (cmd =? IKCP_CMD_ACK) ||
  (cmd =? IKCP_CMD_WASK) || (cmd =? IKCP_CMD_WINS).

(** The body of [cmd == IKCP_CMD_PUSH]; [p] is the offset of the payload. *)
Definition input_push (m : allocator) (k : IKCPCB) (h : header) (data : list Z) (p : Z)
    : outcome IKCPCB :=
  if _itimediff (h_sn h) (u32 (rcv_nxt k + rcv_wnd k)) <? 0 then
    k ← ikcp_ack_push m k (h_sn h) (h_ts h);
    if _itimediff (h_sn h) (rcv_nxt k) >=? 0 then
      match ikcp_segment_new m (i32 (h_len h)) with
      | None => Crash NullDeref
      | Some _ =>
          payload ← (if h_len h >? 0 then read_at data p (h_len h) else Ok []);
          Ok (ikcp_parse_data k
                (mkSeg (h_conv h) (h_cmd h) (h_frg h) (h_wnd h) (h_ts h) (h_sn h) (h_una h)
                   (h_len h) 0 0 0 0 payload))
      end
    else Ok k
  else Ok k.

(** One accepted segment: [rmt_wnd], [una] and the command.  [ack] carries
    [flag] and [maxack] ([None] while [flag == 0]). *)
Definition input_segment (A : abi) (m : allocator) (k : IKCPCB) (ack : option Z)
    (h : header) (data : list Z) (p : Z) : outcome (IKCPCB * option Z) :=
  let k := k <| rmt_wnd := h_wnd h |> in
  let k := ikcp_shrink_buf (ikcp_parse_una k (h_una h)) in
  if h_cmd h =? IKCP_CMD_ACK then
    let k := if _itimediff (current k) (h_ts h) >=? 0
             then ikcp_update_ack A k (_itimediff (current k) (h_ts h)) else k in
    let k := ikcp_shrink_buf (ikcp_parse_ack k (h_sn h)) in
    Ok (k, match ack with
           | None => Some (h_sn h)
           | Some maxack => if _itimediff (h_sn h) maxack >? 0 then Some (h_sn h) else ack
           end)
  else if h_cmd h =? IKCP_CMD_PUSH then
    k ← input_push m k h data p; Ok (k, ack)
  else if h_cmd h =? IKCP_CMD_WASK then
    Ok (k <| probe := Z.lor (probe k) IKCP_ASK_TELL |>, ack)
  else Ok (k, ack).

(** [long size] minus an [IUINT32] stored back into [long]: in LLP64 the
    subtraction is done in 32-bit unsigned arithmetic. *)
Definition size_sub (A : abi) (size len : Z) : Z := long_of A (size - len).

Inductive loop_exit := LoopBreak (k : IKCPCB) (ack : option Z) | LoopReturn (k : IKCPCB) (code : Z).

Fixpoint input_loop (A : abi) (m : allocator) (fuel : nat) (k : IKCPCB) (ack : option Z)
    (data : list Z) (p size : Z) : outcome loop_exit :=
  match fuel with
  | O => Crash OutOfFuel
  | S fuel =>
      if size <? IKCP_OVERHEAD then Ok (LoopBreak k ack) else
      '(cv, p) ← ikcp_decode32u data p;
      if negb (cv =? conv k) then Ok (LoopReturn k (-1)) else
      '(h, p) ← decode_header data p cv;
      let size := size_sub A size IKCP_OVERHEAD in
      if size <? long_of A (h_len h) then Ok (LoopReturn k (-2)) else
      if negb (valid_cmd (h_cmd h)) then Ok (LoopReturn k (-3)) else
      '(k, ack) ← input_segment A m k ack h data p;
      input_loop A m fuel k ack data (p + h_len h) (size_sub A size (h_len h))
  end.

(** The congestion window update at the end of [ikcp_input]; [una0] is
    [snd_una] on entry. *)
Definition input_cwnd (k : IKCPCB) (una0 : Z) : IKCPCB :=
  if _itimediff (snd_una k) una0 >? 0 then
    if cwnd k <? rmt_wnd k then
      let ms := mss k in
      let k :=
        if cwnd k <? ssthresh k then
          k <| cwnd := u32 (cwnd k + 1) |> <| incr := u32 (incr k + ms) |>
        else
          let k := if incr k <? ms then k <| incr := ms |> else k in
          let k := k <| incr := u32 (incr k + (u32 (u32 (ms * ms) `div` incr k + ms `div` 16))) |> in
          if u32 (u32 (cwnd k + 1) * ms) <=? incr k then k <| cwnd := u32 (cwnd k + 1) |> else k in
      if cwnd k >? rmt_wnd k then
        k <| cwnd := rmt_wnd k |> <| incr := u32 (rmt_wnd k * ms) |>
      else k
    else k
  else k.

(** [ikcp_input kcp data size]; the iterations consume at least
    [IKCP_OVERHEAD] bytes each, so the length of [data] bounds their number. *)
Definition ikcp_input (A : abi) (m : allocator) (k : IKCPCB) (data : option (list Z)) (size : Z)
    : outcome (IKCPCB * Z) :=
  let una := snd_una k in
  match data with
  | None => Ok (k, -1)
  | Some data =>
      if i32 size <? IKCP_OVERHEAD then Ok (k, -1) else
      r ← input_loop A m (S (length data)) k None data 0 size;
      match r with
      | LoopReturn k code => Ok (k, code)
      | LoopBreak k ack =>
          let k := match ack with Some maxack => ikcp_parse_fastack k maxack | None => k end in
          Ok (input_cwnd k una, 0)
      end
  end.

(** ** Flushing *)

Definition ikcp_encode_seg (ptr : list Z) (seg : IKCPSEG) : list Z :=
  let ptr := ikcp_encode32u ptr (seg_conv seg) in
  let ptr := ikcp_encode8u ptr (u8 (seg_cmd seg)) in
  let ptr := ikcp_encode8u ptr (u8 (seg_frg seg)) in
  let ptr := ikcp_encode16u ptr (u16 (seg_wnd seg)) in
  let ptr := ikcp_encode32u ptr (seg_ts seg) in
  let ptr := ikcp_encode32u ptr (seg_sn seg) in
  let ptr := ikcp_encode32u ptr (seg_una seg) in
  let ptr := ikcp_encode32u ptr (seg_len seg) in
  ptr.

Definition ikcp_wnd_unused (k : IKCPCB) : Z :=
  if nrcv_que k <? rcv_wnd k then i32 (u32 (rcv_wnd k - nrcv_que k)) else 0.

(** The scratch buffer during a flush: the bytes between [buffer] and [ptr], and
    the datagrams output so far. *)
Record wire := mkWire { w_ptr : list Z; w_out : list (list Z) }.

(** [size = ptr - buffer; if (size + need > mtu) { ikcp_output(...); ptr = buffer; }] *)
Definition flush_room (k : IKCPCB) (need : Z) (w : wire) : outcome wire :=
  let size := i32 (zlen (w_ptr w)) in
  if i32 (size + need) >? i32 (mtu k) then
    d ← ikcp_output k (w_ptr w) size; Ok (mkWire [] (w_out w ++ d))
  else Ok w.

(** Writing behind [ptr] must stay inside of the allocated [buffer]. *)
Definition flush_write (k : IKCPCB) (w : wire) (ptr : list Z) : outcome wire :=
  if zlen ptr <=? buffer k then Ok (mkWire ptr (w_out w)) else Crash OutOfBounds.

(** "flush acknowledges": entry [i] of [count]. *)
Fixpoint flush_acks (k : IKCPCB) (seg : IKCPSEG) (n : nat) (i : Z) (w : wire)
    : outcome (wire * IKCPSEG) :=
  match n with
  | O => Ok (w, seg)
  | S n =>
      w ← flush_room k IKCP_OVERHEAD w;
      '(sn, ts) ← ikcp_ack_get k i;
      let seg := seg <| seg_sn := sn |> <| seg_ts := ts |> in
      w ← flush_write k w (ikcp_encode_seg (w_ptr w) seg);
      flush_acks k seg n (i + 1) w
  end.

(** "probe window size (if remote window size equals zero)" *)
Definition flush_probe (k : IKCPCB) : IKCPCB :=
  if rmt_wnd k =? 0 then
    if probe_wait k =? 0 then
      let k := k <| probe_wait := IKCP_PROBE_INIT |> in
      k <| ts_probe := u32 (current k + probe_wait k) |>
    else if _itimediff (current k) (ts_probe k) >=? 0 then
      let k := if probe_wait k <? IKCP_PROBE_INIT then k <| probe_wait := IKCP_PROBE_INIT |> else k in
      let k := k <| probe_wait := u32 (probe_wait k + probe_wait k `div` 2) |> in
      let k := if probe_wait k >? IKCP_PROBE_LIMIT then k <| probe_wait := IKCP_PROBE_LIMIT |> else k in
      let k := k <| ts_probe := u32 (current k + probe_wait k) |> in
      k <| probe := Z.lor (probe k) IKCP_ASK_SEND |>
    else k
  else k <| ts_probe := 0 |> <| probe_wait := 0 |>.

(** "flush window probing commands", for the probe bit [bit] and command [cmd]. *)
Definition flush_cmd (k : IKCPCB) (bit cmd : Z) (w : wire) (seg : IKCPSEG)
    : outcome (wire * IKCPSEG) :=
  if negb (Z.land (probe k) bit =? 0) then
    let seg := seg <| seg_cmd := cmd |> in
    w ← flush_room k IKCP_OVERHEAD w;
    w ← flush_write k w (ikcp_encode_seg (w_ptr w) seg);
    Ok (w, seg)
  else Ok (w, seg).

(** "move data from snd_queue to snd_buf"; [q] is the remaining [snd_queue]. *)
Fixpoint flush_move (k : IKCPCB) (win wnd : Z) (q : list IKCPSEG) : IKCPCB :=
  match q with
  | [] => k
  | s :: q' =>
      if _itimediff (snd_nxt k) (u32 (snd_una k + win)) <? 0 then
        let newseg :=
          mkSeg (conv k) IKCP_CMD_PUSH (seg_frg s) wnd (current k) (snd_nxt k) (rcv_nxt k)
            (seg_len s) (current k) (u32 (rx_rto k)) 0 0 (seg_data s) in
        flush_move
          (k <| snd_queue := q' |> <| snd_buf := snd_buf k ++ [newseg] |>
             <| nsnd_que := u32 (nsnd_que k - 1) |> <| nsnd_buf := u32 (nsnd_buf k + 1) |>
             <| snd_nxt := u32 (snd_nxt k + 1) |>) win wnd q'
      else k
  end.

(** The transmission decision for one segment of [snd_buf]: the updated segment
    and why it is sent ([None]: not sent). *)
Inductive send_reason := FirstSend | Timeout | FastResend.

Definition flush_decide (k : IKCPCB) (resent rtomin : Z) (s : IKCPSEG)
    : IKCPSEG * option send_reason :=
  let cur := current k in
  if seg_xmit s =? 0 then
    let s := s <| seg_xmit := u32 (seg_xmit s + 1) |> <| seg_rto := u32 (rx_rto k) |> in
    (s <| seg_resendts := u32 (cur + seg_rto s + rtomin) |>, Some FirstSend)
  else if _itimediff cur (seg_resendts s) >=? 0 then
    let s := s <| seg_xmit := u32 (seg_xmit s + 1) |> in
    let s := if nodelay k =? 0 then s <| seg_rto := u32 (seg_rto s + rx_rto k) |>
             else s <| seg_rto := u32 (seg_rto s + Z.quot (rx_rto k) 2) |> in
    (s <| seg_resendts := u32 (cur + seg_rto s) |>, Some Timeout)
  else if seg_fastack s >=? resent then
    let s := s <| seg_xmit := u32 (seg_xmit s + 1) |> <| seg_fastack := 0 |> in
    (s <| seg_resendts := u32 (cur + seg_rto s) |>, Some FastResend)
  else (s, None).

(** The bytes of one data segment: header, then [len] bytes of payload. *)
Definition flush_data (k : IKCPCB) (s : IKCPSEG) (w : wire) : outcome wire :=
  let need := i32 (u32 (IKCP_OVERHEAD + seg_len s)) in
  w ← flush_room k need w;
  w ← flush_write k w (ikcp_encode_seg (w_ptr w) s);
  if seg_len s >? 0 then
    d ← read_at (seg_data s) 0 (seg_len s);
    flush_write k w (w_ptr w ++ d)
  else Ok w.

(** "flush data segments": the loop over [snd_buf].  [xm] is [kcp->xmit], [st]
    [kcp->state]; [change] and [lost] are the local counters. *)
Fixpoint flush_segments (k : IKCPCB) (resent rtomin wnd : Z) (l : list IKCPSEG)
    (w : wire) (xm st change lost : Z) : outcome (list IKCPSEG * wire * Z * Z * Z * Z) :=
  match l with
  | [] => Ok ([], w, xm, st, change, lost)
  | s :: l =>
      let '(s, reason) := flush_decide k resent rtomin s in
      let xm := match reason with Some Timeout => u32 (xm + 1) | _ => xm end in
      let lost := match reason with Some Timeout => 1 | _ => lost end in
      let change := match reason with Some FastResend => change + 1 | _ => change end in
      '(s, w, st) ←
        (match reason with
         | None => Ok (s, w, st)
         | Some _ =>
             let s := s <| seg_ts := current k |> <| seg_wnd := wnd |>
                        <| seg_una := rcv_nxt k |> in
             w ← flush_data k s w;
             Ok (s, w, if seg_xmit s >=? dead_link k then u32 (-1) else st)
         end);
      '(l, w, xm, st, change, lost) ← flush_segments k resent rtomin wnd l w xm st change lost;
      Ok (s :: l, w, xm, st, change, lost)
  end.

(** "update ssthresh" and the two window resets after it; [win] is the local
    [cwnd]. *)
Definition flush_cwnd (k : IKCPCB) (resent win change lost : Z) : IKCPCB :=
  let k :=
    if negb (change =? 0) then
      let inflight := u32 (snd_nxt k - snd_una k) in
      let k := k <| ssthresh := inflight `div` 2 |> in
      let k := if ssthresh k <? IKCP_THRESH_MIN then k <| ssthresh := IKCP_THRESH_MIN |> else k in
      let k := k <| cwnd := u32 (ssthresh k + resent) |> in
      k <| incr := u32 (cwnd k * mss k) |>
    else k in
  let k :=
    if negb (lost =? 0) then
      let k := k <| ssthresh := win `div` 2 |> in
      let k := if ssthresh k <? IKCP_THRESH_MIN then k <| ssthresh := IKCP_THRESH_MIN |> else k in
      k <| cwnd := 1 |> <| incr := mss k |>
    else k in
  if cwnd k <? 1 then k <| cwnd := 1 |> <| incr := mss k |> else k.

(** The header template [seg] of [ikcp_flush]. *)
Definition flush_template (k : IKCPCB) : IKCPSEG :=
  mkSeg (conv k) IKCP_CMD_ACK 0 (u32 (ikcp_wnd_unused k)) 0 0 (rcv_nxt k) 0 0 0 0 0 [].

(** "calculate window size": the local [cwnd] of [ikcp_flush]. *)
Definition flush_window (k : IKCPCB) : Z :=
  let win := _imin_ (snd_wnd k) (rmt_wnd k) in
  if nocwnd k =? 0 then _imin_ (cwnd k) win else win.

Definition ikcp_flush (k : IKCPCB) : outcome (IKCPCB * list (list Z)) :=
  if updated k =? 0 then Ok (k, []) else
  let seg := flush_template k in
  '(w, seg) ← flush_acks k seg (Z.to_nat (i32 (ackcount k))) 0 (mkWire [] []);
  let k := flush_probe (k <| ackcount := 0 |>) in
  '(w, seg) ← flush_cmd k IKCP_ASK_SEND IKCP_CMD_WASK w seg;
  '(w, seg) ← flush_cmd k IKCP_ASK_TELL IKCP_CMD_WINS w seg;
  let k := k <| probe := 0 |> in
  let win := flush_window k in
  let k := flush_move k win (seg_wnd seg) (snd_queue k) in
  let resent := if fastresend k >? 0 then u32 (fastresend k) else 4294967295 in
  let rtomin := if nodelay k =? 0 then u32 (Z.shiftr (rx_rto k) 3) else 0 in
  '(l, w, xm, st, change, lost) ←
    flush_segments k resent rtomin (seg_wnd seg) (snd_buf k) w (xmit k) (state k) 0 0;
  let k := k <| snd_buf := l |> <| xmit := xm |> <| state := st |> in
  let size := i32 (zlen (w_ptr w)) in
  last ← (if size >? 0 then ikcp_output k (w_ptr w) size else Ok []);
  Ok (flush_cwnd k resent win change lost, w_out w ++ last).

(** ** Clock *)

Definition ikcp_update (k : IKCPCB) (cur : Z) : outcome (IKCPCB * list (list Z)) :=
  let k := k <| current := cur |> in
  let k := if updated k =? 0 then k <| updated := 1 |> <| ts_flush := current k |> else k in
  let slap := _itimediff (current k) (ts_flush k) in
  let '(k, slap) := if (slap >=? 10000) || (slap <? -10000)
                    then (k <| ts_flush := current k |>, 0) else (k, slap) in
  if slap >=? 0 then
    let k := k <| ts_flush := u32 (ts_flush k + interval k) |> in
    let k := if _itimediff (current k) (ts_flush k) >=? 0
             then k <| ts_flush := u32 (current k + interval k) |> else k in
    ikcp_flush k
  else Ok (k, []).

(** The loop of [ikcp_check]: [None] when a segment is due ("return current"),
    otherwise the smallest [diff]. *)
Fixpoint check_loop (cur : Z) (l : list IKCPSEG) (tm_packet : Z) : option Z :=
  match l with
  | [] => Some tm_packet
  | s :: l =>
      let diff := _itimediff (seg_resendts s) cur in
      if diff <=? 0 then None
      else check_loop cur l (if diff <? tm_packet then diff else tm_packet)
  end.

Definition ikcp_check (k : IKCPCB) (cur : Z) : Z :=
  if updated k =? 0 then cur else
  let tsf := ts_flush k in
  let tsf := if (_itimediff cur tsf >=? 10000) || (_itimediff cur tsf <? -10000)
             then cur else tsf in
  if _itimediff cur tsf >=? 0 then cur else
  let tm_flush := _itimediff tsf cur in
  match check_loop cur (snd_buf k) 2147483647 with
  | None => cur
  | Some tm_packet =>
      let minimal := u32 (if tm_packet <? tm_flush then tm_packet else tm_flush) in
      let minimal := if minimal >=? interval k then interval k else minimal in
      u32 (cur + minimal)
  end.

(** ** Configuration *)

Definition ikcp_setmtu (m : allocator) (k : IKCPCB) (mtu0 : Z) : IKCPCB * Z :=
  if (mtu0 <? 50) || (mtu0 <? IKCP_OVERHEAD) then (k, -1) else
  let bufsize := u32 (u32 (mtu0 + IKCP_OVERHEAD) * 3) in
  if negb (alloc_ok m bufsize) then (k, -2) else
  let k := k <| mtu := mtu0 |> in
  let k := k <| mss := u32 (mtu k - IKCP_OVERHEAD) |> in
  (k <| buffer := bufsize |>, 0).

Definition clamp_interval (iv : Z) : Z :=
  if iv >? 5000 then 5000 else if iv <? 10 then 10 else iv.

Definition ikcp_interval (k : IKCPCB) (iv : Z) : IKCPCB * Z :=
  (k <| interval := clamp_interval iv |>, 0).

Definition ikcp_nodelay (k : IKCPCB) (nd iv resend nc : Z) : IKCPCB * Z :=
  let k := if nd >=? 0 then
             let k := k <| nodelay := nd |> in
             if negb (nd =? 0) then k <| rx_minrto := IKCP_RTO_NDL |>
             else k <| rx_minrto := IKCP_RTO_MIN |>
           else k in
  let k := if iv >=? 0 then k <| interval := clamp_interval iv |> else k in
  let k := if resend >=? 0 then k <| fastresend := resend |> else k in
  let k := if nc >=? 0 then k <| nocwnd := nc |> else k in
  (k, 0).

Definition ikcp_wndsize (k : IKCPCB) (sndwnd rcvwnd : Z) : IKCPCB * Z :=
  let k := if sndwnd >? 0 then k <| snd_wnd := sndwnd |> else k in
  let k := if rcvwnd >? 0 then k <| rcv_wnd := _imax_ rcvwnd IKCP_WND_RCV |> else k in
  (k, 0).

Definition ikcp_waitsnd (k : IKCPCB) : Z := i32 (u32 (nsnd_buf k + nsnd_que k)).

Definition ikcp_getconv (ptr : list Z) : outcome Z :=
  '(c, _) ← ikcp_decode32u ptr 0; Ok c.
