(* ===== verification/KcpRecv.v ===== *)
(** * KCP receiver: the reorder buffer and the delivery queue

    Invariant of [rcv_buf]/[rcv_queue], its preservation by [recv_move],
    [ikcp_parse_data] and [ikcp_recv], and the refinement of [ikcp_parse_data]
    to a finite map from sequence numbers to segments. *)

From S2P Require Import Prelude KcpBase Kcp.

(** ** Offsets from [rcv_nxt] *)

(** The position of a segment relative to the next expected number. *)
Definition off (nxt : Z) (s : IKCPSEG) : Z := _itimediff (seg_sn s) nxt.

(** The reorder buffer holds distinct sequence numbers at or after [nxt], in
    increasing order. *)
Definition rcvbuf_wf (nxt : Z) (l : list IKCPSEG) : Prop :=
  Forall (fun s => is_u32 (seg_sn s) /\ 0 <= off nxt s) l /\
  StronglySorted (fun a b => off nxt a < off nxt b) l.

#[export] Instance rcvbuf_wf_dec nxt l : Decision (rcvbuf_wf nxt l).
Proof. unfold rcvbuf_wf. apply _. Defined.

Record rcv_wf (k : IKCPCB) : Prop := {
  rcv_nxt_u32 : is_u32 (rcv_nxt k);
  rcv_wnd_ok : 0 < rcv_wnd k < 2 ^ 31;
  nrcv_buf_len : nrcv_buf k = zlen (rcv_buf k);
  nrcv_que_len : nrcv_que k = zlen (rcv_queue k);
  nrcv_que_small : nrcv_que k < 2 ^ 31;
  rcv_buf_wf : rcvbuf_wf (rcv_nxt k) (rcv_buf k) }.

Lemma off_next nxt s : 0 < off nxt s -> off (u32 (nxt + 1)) s = off nxt s - 1.
Proof. unfold off, _itimediff. intros. mword. Qed.

Lemma off_zero nxt s : is_u32 nxt -> is_u32 (seg_sn s) -> off nxt s = 0 <-> seg_sn s = nxt.
Proof. unfold off, _itimediff. intros. split; mword. Qed.

Lemma off_diff nxt a b :
  0 <= off nxt a -> 0 <= off nxt b ->
  _itimediff (seg_sn a) (seg_sn b) = off nxt a - off nxt b.
Proof.
  intros Ha Hb. pose proof (itimediff_range (seg_sn a) nxt).
  pose proof (itimediff_range (seg_sn b) nxt).
  apply itimediff_shift. unfold off in *. mword_unfold; lia.
Qed.

Lemma off_range nxt s : is_i32 (off nxt s).
Proof. apply itimediff_range. Qed.

(** Distinct numbers in half a circle: the buffer cannot exceed 2^31 segments. *)
Lemma rcvbuf_len nxt l : rcvbuf_wf nxt l -> zlen l <= 2 ^ 31.
Proof.
  intros [Hall Hs].
  assert (forall lo, Forall (fun s => lo <= off nxt s) l -> lo <= 2 ^ 31 -> zlen l <= 2 ^ 31 - lo)
    as Hgen.
  { clear Hall. induction Hs as [|s l Hs IH Hf]; intros lo Hlo Hb; [rewrite zlen_nil; lia|].
    apply Forall_cons in Hlo as [Hlo _]. pose proof (off_range nxt s). rewrite zlen_cons.
    enough (zlen l <= 2 ^ 31 - (lo + 1)) by lia. apply IH; [|mword_unfold; lia].
    eapply Forall_impl; [exact Hf|]. simpl. lia. }
  rewrite <- (Z.sub_0_r (2 ^ 31)). apply Hgen; [|lia].
  eapply Forall_impl; [exact Hall|]. simpl. tauto.
Qed.

(** Delivering the head moves every other segment one step closer. *)
Lemma rcvbuf_wf_next nxt s l :
  is_u32 nxt -> rcvbuf_wf nxt (s :: l) -> seg_sn s = nxt -> rcvbuf_wf (u32 (nxt + 1)) l.
Proof.
  intros Hn [Hall Hsort] Hs. apply Forall_cons in Hall as [[Hu _] Hall].
  apply StronglySorted_inv in Hsort as [Hsort Hhd].
  assert (Hz : off nxt s = 0) by (apply off_zero; auto).
  rewrite Forall_forall in Hall, Hhd. split.
  - apply Forall_forall. intros x Hx. destruct (Hall x Hx) as [? _].
    specialize (Hhd x Hx). split; [done|]. rewrite off_next; lia.
  - eapply StronglySorted_weaken; [|exact Hsort]. simpl. intros x y Hx Hy Hxy.
    pose proof (Hhd x Hx). pose proof (Hhd y Hy). rewrite !off_next; lia.
Qed.

(** The insertion of [ikcp_parse_data], on the reversed buffer. *)
Definition rbuf_wf (nxt : Z) (l : list IKCPSEG) : Prop :=
  Forall (fun s => is_u32 (seg_sn s) /\ 0 <= off nxt s) l /\
  StronglySorted (fun a b => off nxt b < off nxt a) l.

Lemma rbuf_wf_reverse nxt l : rbuf_wf nxt (reverse l) <-> rcvbuf_wf nxt l.
Proof. unfold rbuf_wf, rcvbuf_wf. by rewrite StronglySorted_reverse, Forall_reverse. Qed.

Lemma rcv_insert_None nxt n l :
  rbuf_wf nxt l -> 0 <= off nxt n -> is_u32 (seg_sn n) ->
  rcv_insert n l = None <-> Exists (fun s => seg_sn s = seg_sn n) l.
Proof.
  intros [Hall Hs] Hn Hu. induction Hs as [|s l Hs IH Hf]; simpl.
  - split; [done|]. by intros ?%Exists_nil.
  - apply Forall_cons in Hall as [[Hsu Hso] Hall]. rewrite Exists_cons.
    destruct (Z.eqb_spec (seg_sn s) (seg_sn n)) as [|Hne]; [naive_solver|].
    rewrite (off_diff nxt) by done.
    destruct (Z.gtb_spec (off nxt n - off nxt s) 0) as [Hgt|Hle].
    + split; [done|]. intros [|Hex]; [done|]. exfalso.
      apply Exists_exists in Hex as (x & Hx & Heq). rewrite Forall_forall in Hf.
      specialize (Hf x Hx). unfold off in *. rewrite Heq in Hf. lia.
    + destruct (rcv_insert n l); naive_solver.
Qed.

(** The new segment is put in, everything else is kept, and the order with it. *)
Lemma rcv_insert_Some nxt n l r :
  rbuf_wf nxt l -> 0 <= off nxt n -> is_u32 (seg_sn n) ->
  rcv_insert n l = Some r -> r ≡ₚ n :: l /\ rbuf_wf nxt r.
Proof.
  intros [Hall Hs] Hn Hu. revert r.
  induction Hs as [|s l Hs IH Hf]; simpl; intros r Hr.
  { simplify_eq. split; [done|].
    split; [by apply Forall_singleton|]. apply StronglySorted_cons. split; constructor. }
  apply Forall_cons in Hall as [[Hsu Hso] Hall].
  destruct (Z.eqb_spec (seg_sn s) (seg_sn n)) as [|Hne]; [done|].
  rewrite (off_diff nxt) in Hr by done.
  destruct (Z.gtb_spec (off nxt n - off nxt s) 0) as [Hgt|Hle].
  - simplify_eq. split; [done|]. split; [by rewrite !Forall_cons|].
    constructor; [by constructor|]. constructor; [lia|].
    eapply Forall_impl; [exact Hf|]. simpl. lia.
  - destruct (rcv_insert n l) as [r'|] eqn:E; [|done]. simplify_eq.
    destruct (IH Hall r' eq_refl) as [Hp [Hall' Hs']]. split.
    + rewrite Hp. apply Permutation_swap.
    + split; [by constructor|]. constructor; [done|]. rewrite Hp. constructor; [|done].
      assert (off nxt n <> off nxt s); [|lia].
      intros He. apply Hne. symmetry. by apply (itimediff_inj _ _ nxt).
Qed.

(** ** Draining the reorder buffer *)

(** The consecutive sequence numbers [n, n+1, ...]. *)
Fixpoint sn_seq (n : Z) (len : nat) : list Z :=
  match len with O => [] | S len => n :: sn_seq (u32 (n + 1)) len end.

Lemma sn_seq_shift n len : is_u32 n -> sn_seq n len = (fun i => u32 (n + Z.of_nat i)) <$> seq 0 len.
Proof.
  revert n. induction len as [|len IH]; intros n Hn; [done|]. simpl. f_equal.
  - rewrite Z.add_0_r. symmetry. by apply u32_small.
  - rewrite IH by apply u32_range. rewrite <- fmap_S_seq, <- list_fmap_compose.
    apply list_fmap_ext. intros i x _. unfold compose. mword.
Qed.

(** What [recv_move] does: a prefix [d] of the buffer with consecutive numbers
    starting at [rcv_nxt] goes to the end of the queue, nothing else moves, and
    it stops only when the queue is full or the next number is missing. *)
Record moved (k k' : IKCPCB) (d : list IKCPSEG) : Prop := {
  moved_buf : rcv_buf k = d ++ rcv_buf k';
  moved_queue : rcv_queue k' = rcv_queue k ++ d;
  moved_sns : seg_sn <$> d = sn_seq (rcv_nxt k) (length d);
  moved_nxt : rcv_nxt k' = u32 (rcv_nxt k + zlen d);
  moved_stop : rcv_wnd k <= nrcv_que k' \/
               match rcv_buf k' with [] => True | s :: _ => seg_sn s <> rcv_nxt k' end }.

(** The step of [recv_move] that delivers the head [s] of the buffer. *)
Definition deliver (k : IKCPCB) (s : IKCPSEG) (buf : list IKCPSEG) : IKCPCB :=
  k <| rcv_buf := buf |> <| nrcv_buf := u32 (nrcv_buf k - 1) |>
    <| rcv_queue := rcv_queue k ++ [s] |> <| nrcv_que := u32 (nrcv_que k + 1) |>
    <| rcv_nxt := u32 (rcv_nxt k + 1) |>.

Lemma deliver_wf k s buf :
  rcv_wf k -> rcv_buf k = s :: buf -> seg_sn s = rcv_nxt k -> nrcv_que k < rcv_wnd k ->
  rcv_wf (deliver k s buf).
Proof.
  intros [Hn Hw Hb Hq Hqs Hwf] Hbuf Hs Hroom. rewrite Hbuf in *.
  pose proof (rcvbuf_len _ _ Hwf) as Hlen. rewrite zlen_cons in Hb, Hlen.
  pose proof (zlen_nonneg buf). pose proof (zlen_nonneg (rcv_queue k)).
  split; simpl; [apply u32_range|done|mword| | mword|].
  - rewrite zlen_app, <- Hq. unfold zlen; simpl. mword.
  - by apply (rcvbuf_wf_next _ s).
Qed.

Lemma moved_nil k :
  rcv_wf k ->
  (rcv_wnd k <= nrcv_que k \/
   match rcv_buf k with [] => True | s :: _ => seg_sn s <> rcv_nxt k end) ->
  moved k k [].
Proof.
  intros Hwf Hst. split; [done|by rewrite app_nil_r|done| |done].
  rewrite zlen_nil, Z.add_0_r. symmetry. apply u32_small, Hwf.
Qed.

Lemma recv_move_spec k :
  rcv_wf k -> rcv_wf (recv_move (rcv_buf k) k) /\ exists d, moved k (recv_move (rcv_buf k) k) d.
Proof.
  remember (rcv_buf k) as buf eqn:Hb. symmetry in Hb. revert k Hb.
  induction buf as [|s buf IH]; intros k Hb Hwf.
  { cbn [recv_move]. split; [done|]. exists []. apply moved_nil; [done|]. rewrite Hb; auto. }
  cbn [recv_move]. destruct (Z.eqb_spec (seg_sn s) (rcv_nxt k)) as [Hs|Hs];
    destruct (Z.ltb_spec (nrcv_que k) (rcv_wnd k)) as [Hr|Hr]; cbn [andb];
    try (split; [done|]; exists []; apply moved_nil; [done|]; rewrite Hb; auto).
  fold (deliver k s buf).
  destruct (IH (deliver k s buf) eq_refl) as [Hwf' [d [Hmb Hmq Hms Hmn Hst]]];
    [by apply deliver_wf|].
  split; [exact Hwf'|]. exists (s :: d). split.
  - rewrite Hb. simpl. f_equal. exact Hmb.
  - rewrite Hmq. simpl. by rewrite <- app_assoc.
  - simpl. f_equal; [done|]. exact Hms.
  - rewrite Hmn, zlen_cons. simpl. mword.
  - exact Hst.
Qed.

(** ** [ikcp_parse_data] *)

(** Is the sequence number in the receive window? *)
Definition in_window (k : IKCPCB) (sn : Z) : bool :=
  negb ((_itimediff sn (u32 (rcv_nxt k + rcv_wnd k)) >=? 0) || (_itimediff sn (rcv_nxt k) <? 0)).

Lemma in_window_spec k sn :
  rcv_wf k -> is_u32 sn ->
  in_window k sn = true <-> 0 <= _itimediff sn (rcv_nxt k) < rcv_wnd k.
Proof.
  intros [Hn Hw _ _ _ _] Hsn. unfold in_window.
  rewrite negb_true_iff, orb_false_iff, Z.geb_leb, Z.leb_gt, Z.ltb_ge.
  unfold _itimediff. split; mword.
Qed.

(** The buffer step of [ikcp_parse_data] (before the move). *)
Definition parse_insert (k : IKCPCB) (s : IKCPSEG) : IKCPCB :=
  match rcv_insert s (reverse (rcv_buf k)) with
  | Some r => k <| rcv_buf := reverse r |> <| nrcv_buf := u32 (nrcv_buf k + 1) |>
  | None => k
  end.

Lemma parse_data_unfold k s :
  ikcp_parse_data k s =
  if in_window k (seg_sn s)
  then recv_move (rcv_buf (parse_insert k s)) (parse_insert k s) else k.
Proof. unfold ikcp_parse_data, in_window, parse_insert. by destruct (_ || _). Qed.

Lemma parse_insert_wf k s :
  rcv_wf k -> is_u32 (seg_sn s) -> in_window k (seg_sn s) = true -> rcv_wf (parse_insert k s).
Proof.
  intros Hwf Hu Hin. pose proof Hwf as [Hn Hw Hb Hq Hqs Hbuf].
  apply in_window_spec in Hin as [Hlo Hhi]; [|done..]. unfold parse_insert.
  destruct (rcv_insert s (reverse (rcv_buf k))) as [r|] eqn:E; [|done].
  apply rcv_insert_Some with (nxt := rcv_nxt k) in E as [Hp Hr]; [|by apply rbuf_wf_reverse|done..].
  rewrite <- (reverse_involutive r) in Hr. apply rbuf_wf_reverse in Hr.
  assert (Hlen : zlen (reverse r) = zlen (rcv_buf k) + 1).
  { unfold zlen. rewrite reverse_Permutation, Hp, reverse_Permutation. simpl. lia. }
  pose proof (rcvbuf_len _ _ Hr). pose proof (zlen_nonneg (rcv_buf k)).
  split; simpl; try done. mword.
Qed.

Lemma parse_data_wf k s : rcv_wf k -> is_u32 (seg_sn s) -> rcv_wf (ikcp_parse_data k s).
Proof.
  intros Hwf Hu. rewrite parse_data_unfold.
  destruct (in_window k (seg_sn s)) eqn:Hin; [|done].
  by apply recv_move_spec, parse_insert_wf.
Qed.

(** ** Refinement: the reorder buffer is a finite map

    The abstract receiver keeps the undelivered segments in a map from sequence
    numbers to segments; accepting a segment adds it unless its number is taken,
    and then the run of segments starting at [nxt] is moved to the queue while
    there is room. *)
Record areceiver := mkARcv {
  a_nxt : Z; a_wnd : Z; a_buf : gmap Z IKCPSEG; a_queue : list IKCPSEG }.

Definition rcv_abs (k : IKCPCB) : areceiver :=
  mkARcv (rcv_nxt k) (rcv_wnd k)
    (list_to_map ((fun s => (seg_sn s, s)) <$> rcv_buf k)) (rcv_queue k).

Fixpoint a_drain (fuel : nat) (a : areceiver) : areceiver :=
  match fuel with
  | O => a
  | S fuel =>
      match a_buf a !! a_nxt a with
      | Some s =>
          if zlen (a_queue a) <? a_wnd a
          then a_drain fuel (mkARcv (u32 (a_nxt a + 1)) (a_wnd a) (delete (a_nxt a) (a_buf a))
                               (a_queue a ++ [s]))
          else a
      | None => a
      end
  end.

Definition a_accept (a : areceiver) (s : IKCPSEG) : areceiver :=
  if bool_decide (0 <= _itimediff (seg_sn s) (a_nxt a) < a_wnd a) then
    let a := match a_buf a !! seg_sn s with
             | Some _ => a
             | None => mkARcv (a_nxt a) (a_wnd a) (<[seg_sn s := s]> (a_buf a)) (a_queue a)
             end in
    a_drain (size (a_buf a)) a
  else a.

Definition bufmap (l : list IKCPSEG) : gmap Z IKCPSEG :=
  list_to_map ((fun s => (seg_sn s, s)) <$> l).

Lemma bufmap_keys l : ((fun s => (seg_sn s, s)) <$> l).*1 = seg_sn <$> l.
Proof. by rewrite <- list_fmap_compose. Qed.

Lemma rcvbuf_nodup nxt l : rcvbuf_wf nxt l -> NoDup (seg_sn <$> l).
Proof.
  intros [_ Hs]. induction Hs as [|s l Hs IH Hf]; csimpl; constructor; [|done].
  intros (x & Heq & Hx)%list_elem_of_fmap. rewrite Forall_forall in Hf.
  specialize (Hf x Hx). unfold off in Hf. rewrite Heq in Hf. lia.
Qed.

Lemma bufmap_None l sn : bufmap l !! sn = None <-> ~ Exists (fun s => seg_sn s = sn) l.
Proof.
  unfold bufmap. rewrite <- not_elem_of_list_to_map, bufmap_keys, list_elem_of_fmap.
  rewrite Exists_exists. naive_solver.
Qed.

Lemma bufmap_size nxt l : rcvbuf_wf nxt l -> size (bufmap l) = length l.
Proof.
  intros Hwf. unfold bufmap. rewrite map_size_list_to_map; [by rewrite length_fmap|].
  rewrite bufmap_keys. by eapply rcvbuf_nodup.
Qed.

Lemma bufmap_perm nxt l l' : rcvbuf_wf nxt l -> l ≡ₚ l' -> bufmap l = bufmap l'.
Proof.
  intros Hwf Hp. unfold bufmap. apply list_to_map_proper; [|by apply Permutation_map].
  rewrite bufmap_keys. by eapply rcvbuf_nodup.
Qed.

(** Only the head of the buffer can carry the expected number. *)
Lemma bufmap_next nxt l :
  is_u32 nxt -> rcvbuf_wf nxt l ->
  bufmap l !! nxt = match l with s :: _ => if seg_sn s =? nxt then Some s else None | [] => None end.
Proof.
  intros Hn [Hall Hs]. destruct l as [|s l]; [done|].
  destruct (Z.eqb_spec (seg_sn s) nxt) as [Heq|Hne].
  { unfold bufmap. csimpl. rewrite Heq. apply lookup_insert_eq. }
  apply bufmap_None. rewrite Exists_exists. intros (x & Hx & Heq).
  apply StronglySorted_inv in Hs as [_ Hf]. rewrite Forall_forall in Hall, Hf.
  destruct (Hall s) as [_ Hso]; [by left|]. destruct (Hall x Hx) as [Hxu _].
  assert (off nxt x = 0) as Hx0 by (by apply off_zero).
  apply elem_of_cons in Hx as [->|Hx]; [done|]. specialize (Hf x Hx). simpl in Hf. lia.
Qed.

Lemma rcv_abs_drain k :
  rcv_wf k -> a_drain (length (rcv_buf k)) (rcv_abs k) = rcv_abs (recv_move (rcv_buf k) k).
Proof.
  remember (rcv_buf k) as buf eqn:Hb. symmetry in Hb. revert k Hb.
  induction buf as [|s buf IH]; intros k Hb Hwf; [done|].
  pose proof (rcv_buf_wf _ Hwf) as Hbw. pose proof (rcv_nxt_u32 _ Hwf) as Hn. cbn [length a_drain recv_move].
  change (a_buf (rcv_abs k)) with (bufmap (rcv_buf k)).
  change (a_nxt (rcv_abs k)) with (rcv_nxt k).
  rewrite (bufmap_next (rcv_nxt k)) by done. rewrite Hb at 1.
  destruct (Z.eqb_spec (seg_sn s) (rcv_nxt k)) as [Hs|Hs]; cbn [andb]; [|done].
  change (zlen (a_queue (rcv_abs k)) <? a_wnd (rcv_abs k)) with (zlen (rcv_queue k) <? rcv_wnd k).
  rewrite <- (nrcv_que_len _ Hwf).
  destruct (Z.ltb_spec (nrcv_que k) (rcv_wnd k)) as [Hr|Hr]; [|done].
  fold (deliver k s buf).
  rewrite <- (IH (deliver k s buf)); [|done|by apply deliver_wf].
  f_equal. unfold rcv_abs. simpl. f_equal. rewrite Hb. unfold bufmap. csimpl. rewrite Hs.
  apply delete_insert_id. apply (bufmap_None buf). rewrite Exists_exists. intros (x & Hx & Heq).
  rewrite Hb in Hbw. apply rcvbuf_nodup in Hbw. csimpl in Hbw.
  apply NoDup_cons in Hbw as [Hbw _]. apply Hbw. apply list_elem_of_fmap. exists x. by rewrite Heq.
Qed.

Lemma rcv_abs_insert k s :
  rcv_wf k -> is_u32 (seg_sn s) -> 0 <= _itimediff (seg_sn s) (rcv_nxt k) ->
  rcv_abs (parse_insert k s) =
  match bufmap (rcv_buf k) !! seg_sn s with
  | Some _ => rcv_abs k
  | None => mkARcv (rcv_nxt k) (rcv_wnd k) (<[seg_sn s := s]> (bufmap (rcv_buf k))) (rcv_queue k)
  end.
Proof.
  intros Hwf Hu Ho. pose proof (rcv_buf_wf _ Hwf) as Hbw.
  pose proof (proj2 (rbuf_wf_reverse _ _) Hbw) as Hrw. unfold parse_insert.
  destruct (rcv_insert s (reverse (rcv_buf k))) as [r|] eqn:E.
  - assert (bufmap (rcv_buf k) !! seg_sn s = None) as ->.
    { apply bufmap_None. rewrite <- (reverse_involutive (rcv_buf k)), Exists_reverse.
      rewrite <- (rcv_insert_None (rcv_nxt k)) by done. congruence. }
    apply rcv_insert_Some with (nxt := rcv_nxt k) in E as [Hp Hr]; [|done..].
    unfold rcv_abs. simpl. f_equal.
    transitivity (bufmap (s :: rcv_buf k)); [|done]. apply (bufmap_perm (rcv_nxt k)).
    + rewrite <- (reverse_involutive r) in Hr. by apply rbuf_wf_reverse.
    + by rewrite reverse_Permutation, Hp, reverse_Permutation.
  - destruct (bufmap (rcv_buf k) !! seg_sn s) eqn:E2; [done|]. exfalso.
    apply bufmap_None in E2. apply E2.
    apply (rcv_insert_None (rcv_nxt k)) in E; [|done..]. by rewrite Exists_reverse in E.
Qed.

(** ** Messages in the delivery queue *)

(** A segment as it is received: the payload has the length the header says. *)
Definition seg_ok (s : IKCPSEG) : Prop :=
  is_u32 (seg_frg s) /\ is_u32 (seg_sn s) /\ is_u32 (seg_len s) /\ seg_len s = zlen (seg_data s).

(** The first message of a queue: the segments up to the first [frg == 0]. *)
Fixpoint first_message (q : list IKCPSEG) : list IKCPSEG * list IKCPSEG :=
  match q with
  | [] => ([], [])
  | s :: q' =>
      if seg_frg s =? 0 then ([s], q')
      else let '(m, r) := first_message q' in (s :: m, r)
  end.

Definition payload (l : list IKCPSEG) : list Z := concat (seg_data <$> l).

Lemma payload_cons s l : payload (s :: l) = seg_data s ++ payload l.
Proof. done. Qed.
Lemma payload_nil : payload [] = [].
Proof. done. Qed.
Lemma payload_app l k : payload (l ++ k) = payload l ++ payload k.
Proof. unfold payload. by rewrite fmap_app, concat_app. Qed.

Lemma first_message_app q m r : first_message q = (m, r) -> q = m ++ r.
Proof.
  revert m r. induction q as [|s q IH]; simpl; intros m r H; [by simplify_eq|].
  destruct (seg_frg s =? 0); [by simplify_eq|].
  destruct (first_message q) as [m' r'] eqn:E. simplify_eq. simpl. f_equal. by apply IH.
Qed.

Lemma frg_zero s : seg_ok s -> (i32 (seg_frg s) =? 0) = (seg_frg s =? 0).
Proof. intros [H _]. apply eq_bool_prop_intro. rewrite !Is_true_true, !Z.eqb_eq. split; mword. Qed.

(** [recv_merge] copies exactly the payload of the first message, and its length
    is what [peek_loop] computed: the final assertion of [ikcp_recv] holds. *)
Lemma recv_merge_spec ispeek dst q m r len out nque :
  Forall seg_ok q -> first_message q = (m, r) ->
  exists nque', recv_merge ispeek dst q len out nque =
    Ok (peek_loop q len, (if dst then out ++ payload m else out), r, nque') /\
    nque' = (if ispeek then nque else if decide (m = []) then nque else u32 (nque - zlen m)).
Proof.
  intros Hq. revert m r len out nque. induction Hq as [|s q Hs Hq IH]; simpl; intros m r len out nque Hm.
  { simplify_eq. exists nque. rewrite decide_True by done. unfold payload. simpl. rewrite app_nil_r.
    by destruct ispeek, dst. }
  pose proof Hs as (_ & _ & Hlu & Hlen).
  assert (Hread : (if dst then read_at (seg_data s) 0 (seg_len s) else Ok []) =
                  Ok (if dst then seg_data s else [])).
  { destruct dst; [|done]. apply read_at_Ok. rewrite Hlen. pose proof (zlen_nonneg (seg_data s)).
    split; [lia|]. unfold zlen. rewrite Nat2Z.id. simpl. by rewrite take_ge. }
  rewrite Hread. cbn [mbind outcome_bind]. rewrite (frg_zero s Hs).
  destruct (seg_frg s =? 0).
  - simplify_eq. eexists. split; [by destruct dst; unfold payload; simpl; rewrite ?app_nil_r|done].
  - destruct (first_message q) as [m' r'] eqn:E. simplify_eq.
    destruct (IH m' r (i32 (u32 (len + seg_len s))) (out ++ (if dst then seg_data s else []))
                (if ispeek then nque else u32 (nque - 1)) eq_refl) as (n' & -> & Hn').
    exists n'. split.
    + repeat f_equal. destruct dst; [|by rewrite app_nil_r].
      unfold payload. simpl. by rewrite app_assoc.
    + rewrite (decide_False (P := s :: m' = [])) by done. rewrite Hn'. destruct ispeek; [done|].
      rewrite zlen_cons. case_decide as Hd; [subst; rewrite zlen_nil; f_equal; lia|mword].
Qed.

Lemma peeksize_loop k :
  Forall seg_ok (rcv_queue k) -> ikcp_peeksize k <> -1 -> ikcp_peeksize k = peek_loop (rcv_queue k) 0.
Proof.
  unfold ikcp_peeksize. destruct (rcv_queue k) as [|s q] eqn:E; [done|].
  intros [Hs _]%Forall_cons. destruct (Z.eqb_spec (seg_frg s) 0) as [H0|H0].
  - intros _. simpl. rewrite H0. simpl. by rewrite i32_u32.
  - by destruct (_ <? _).
Qed.

(** The queue length after removing a message of length [zlen m]. *)
Lemma rcv_wf_dequeue k m r :
  rcv_wf k -> rcv_queue k = m ++ r ->
  rcv_wf (k <| rcv_queue := r |> <| nrcv_que := u32 (nrcv_que k - zlen m) |>).
Proof.
  intros [Hn Hw Hb Hq Hqs Hbuf] Hr. rewrite Hr, zlen_app in Hq.
  pose proof (zlen_nonneg m). pose proof (zlen_nonneg r).
  split; simpl; try done; mword.
Qed.

(** ** The receiver invariant *)

Record rcv_inv (k : IKCPCB) : Prop := {
  inv_rcv_wf : rcv_wf k;
  inv_rcv_queue : Forall seg_ok (rcv_queue k);
  inv_rcv_buf : Forall seg_ok (rcv_buf k) }.

Lemma recv_move_inv k : rcv_inv k -> rcv_inv (recv_move (rcv_buf k) k).
Proof.
  intros [Hwf Hq Hb]. destruct (recv_move_spec k Hwf) as [Hwf' [d [Hmb Hmq _ _ _]]].
  rewrite Hmb, Forall_app in Hb. destruct Hb as [Hd Hb].
  split; [done| |done]. rewrite Hmq. by apply Forall_app.
Qed.

Lemma parse_insert_inv k s :
  rcv_inv k -> seg_ok s -> in_window k (seg_sn s) = true -> rcv_inv (parse_insert k s).
Proof.
  intros [Hwf Hq Hb] Hs Hin. pose proof Hs as (_ & Hu & _).
  pose proof (proj1 (in_window_spec _ _ Hwf Hu) Hin) as [Hlo _].
  split; [by apply parse_insert_wf| |]; unfold parse_insert;
    destruct (rcv_insert s (reverse (rcv_buf k))) as [r|] eqn:E; simpl; try done.
  apply rcv_insert_Some with (nxt := rcv_nxt k) in E as [Hp _]; [| |done..].
  - rewrite Forall_reverse, Hp. constructor; [done|]. by rewrite Forall_reverse.
  - apply rbuf_wf_reverse, Hwf.
Qed.

Lemma parse_data_inv k s : rcv_inv k -> seg_ok s -> rcv_inv (ikcp_parse_data k s).
Proof.
  intros Hk Hs. rewrite parse_data_unfold.
  destruct (in_window k (seg_sn s)) eqn:Hin; [|done].
  by apply recv_move_inv, parse_insert_inv.
Qed.

(** The state a message of length [n] is taken from: the guards of [ikcp_recv]. *)
Definition recv_ready (k : IKCPCB) (len : Z) : Prop :=
  0 <= ikcp_peeksize k <= (if len <? 0 then i32 (- len) else len).

Lemma recv_ready_nonempty k len : recv_ready k len -> rcv_queue k <> [].
Proof. unfold recv_ready, ikcp_peeksize. intros H Hq. rewrite Hq in H. lia. Qed.

(** The control block after the merge loop. *)
Definition recv_taken (k : IKCPCB) (ispeek : bool) (m r : list IKCPSEG) : IKCPCB :=
  if ispeek then k else k <| rcv_queue := r |> <| nrcv_que := u32 (nrcv_que k - zlen m) |>.

(** The part of [ikcp_recv] after the merge: move, and ask for a window
    announcement when the queue was full and has room again. *)
Definition recv_finish (k : IKCPCB) (recover : bool) : IKCPCB :=
  let k := recv_move (rcv_buf k) k in
  if (nrcv_que k <? rcv_wnd k) && recover
  then k <| probe := Z.lor (probe k) IKCP_ASK_TELL |> else k.

Lemma first_message_nonempty q m r : first_message q = (m, r) -> q <> [] -> m <> [].
Proof.
  destruct q as [|s q]; [done|]. simpl. intros H _. destruct (seg_frg s =? 0); [by simplify_eq|].
  destruct (first_message q). by simplify_eq.
Qed.

Lemma ikcp_recv_ready k dst len m r :
  rcv_inv k -> recv_ready k len -> first_message (rcv_queue k) = (m, r) ->
  ikcp_recv k dst len =
    Ok (recv_finish (recv_taken k (len <? 0) m r) (nrcv_que k >=? rcv_wnd k),
        ikcp_peeksize k, if dst then payload m else []).
Proof.
  intros [Hwf Hq _] Hr Hm. pose proof (recv_ready_nonempty _ _ Hr) as Hne.
  assert (Hp : ikcp_peeksize k = peek_loop (rcv_queue k) 0)
    by (apply peeksize_loop; [done|unfold recv_ready in Hr; lia]).
  destruct (recv_merge_spec (len <? 0) dst (rcv_queue k) m r 0 [] (nrcv_que k) Hq Hm)
    as (nque' & Hmerge & Hn').
  rewrite decide_False in Hn' by (by eapply first_message_nonempty).
  unfold ikcp_recv. destruct (rcv_queue k) as [|s q] eqn:E; [done|]. unfold recv_ready in Hr.
  destruct (Z.ltb_spec (ikcp_peeksize k) 0); [lia|].
  destruct (Z.gtb_spec (ikcp_peeksize k) (if len <? 0 then i32 (- len) else len)); [lia|].
  rewrite Hmerge. cbn [mbind outcome_bind]. rewrite Hp, Z.eqb_refl. cbn [c_assert].
  subst nque'. unfold recv_taken, recv_finish.
  destruct (len <? 0); repeat f_equal; destruct dst; done.
Qed.

Lemma recv_finish_inv k b : rcv_inv k -> rcv_inv (recv_finish k b).
Proof.
  intros Hk. unfold recv_finish. apply recv_move_inv in Hk as [[Hn Hw Hb Hq Hqs Hbuf] Hqq Hbb].
  destruct (_ && _); [|done].
  split; [split|..]; done.
Qed.

Lemma recv_taken_inv k b m r :
  rcv_inv k -> rcv_queue k = m ++ r -> rcv_inv (recv_taken k b m r).
Proof.
  intros [Hwf Hq Hb] Hr. unfold recv_taken. destruct b; [done|].
  split; [by apply rcv_wf_dequeue| |done]. simpl. rewrite Hr, Forall_app in Hq. tauto.
Qed.

Lemma peek_loop_sum q m r len :
  Forall seg_ok q -> first_message q = (m, r) ->
  0 <= len -> len + zlen (payload m) < 2 ^ 31 -> peek_loop q len = len + zlen (payload m).
Proof.
  intros Hq. revert m r len. induction Hq as [|s q Hs Hq IH]; simpl; intros m r len Hm Hl Hb.
  { simplify_eq. rewrite payload_nil, zlen_nil. lia. }
  destruct Hs as (_ & _ & Hlu & Hlen). destruct (seg_frg s =? 0).
  - simplify_eq. rewrite payload_cons, payload_nil, app_nil_r in *.
    rewrite <- Hlen in *. apply i32_u32_small. unfold is_u32 in Hlu. lia.
  - destruct (first_message q) as [m' r'] eqn:E. simplify_eq.
    rewrite payload_cons, zlen_app in *.
    pose proof (zlen_nonneg (payload m')). pose proof (zlen_nonneg (seg_data s)).
    assert (Hstep : i32 (u32 (len + seg_len s)) = len + zlen (seg_data s))
      by (rewrite Hlen; apply i32_u32_small; lia).
    rewrite Hstep, (IH m' r) by (done || lia). lia.
Qed.

(** ** Main results *)

(** C4: [ikcp_parse_data] implements the abstract reorder buffer: for every
    control block that satisfies the receiver invariant and every segment, the
    abstraction of the result is the abstract acceptance of the segment
    (duplicate and out-of-window segments are dropped, the run that starts at
    [rcv_nxt] is delivered while the queue has room). *)
Theorem parse_data_refines k s :
  rcv_wf k -> is_u32 (seg_sn s) ->
  rcv_abs (ikcp_parse_data k s) = a_accept (rcv_abs k) s.
Proof.
  intros Hwf Hu. rewrite parse_data_unfold. unfold a_accept. cbn [a_nxt a_wnd rcv_abs].
  pose proof (in_window_spec k (seg_sn s) Hwf Hu) as Hin.
  destruct (in_window k (seg_sn s)) eqn:E.
  - rewrite bool_decide_true by (by apply Hin).
    pose proof (parse_insert_wf k s Hwf Hu E) as Hwf'.
    rewrite <- rcv_abs_drain by done.
    rewrite <- (bufmap_size (rcv_nxt (parse_insert k s)) (rcv_buf (parse_insert k s))) by apply Hwf'.
    change (bufmap (rcv_buf (parse_insert k s))) with (a_buf (rcv_abs (parse_insert k s))).
    rewrite rcv_abs_insert by (done || by apply Hin). simpl. done.
  - by rewrite bool_decide_false by (rewrite <- Hin; congruence).
Qed.

Definition seg_at (sn : Z) : IKCPSEG := mkSeg 7 81 0 128 0 sn 0 1 0 0 0 0 [65].
Definition kcp0 : IKCPCB :=
  mkKcp 7 1400 1376 0 0 0 4294967295 0 0 2 0 0 200 100 32 128 128 0 0 0 100 100 0
    1 0 0 0 0 0 0 0 20 0 [] [] [] [seg_at 0] [] 0 0 4272 0 0 0 0 false false.

(** Witness for C1 at the wrap-around: 0 is waiting, 4294967295 arrives, both
    are delivered. *)
Lemma parse_data_refines_witness :
  rcv_abs (ikcp_parse_data kcp0 (seg_at 4294967295)) =
    a_accept (rcv_abs kcp0) (seg_at 4294967295)
  /\ seg_sn <$> rcv_queue (ikcp_parse_data kcp0 (seg_at 4294967295)) = [4294967295; 0].
Proof.
  split; [|vm_compute; reflexivity].
  apply parse_data_refines.
  - split; by_decide.
  - by_decide.
Defined.

(** What [ikcp_parse_data] delivers, and where it comes from. *)
Lemma parse_data_delivers k s :
  rcv_inv k -> seg_ok s ->
  exists d,
    rcv_queue (ikcp_parse_data k s) = rcv_queue k ++ d /\
    seg_sn <$> d = sn_seq (rcv_nxt k) (length d) /\
    rcv_nxt (ikcp_parse_data k s) = u32 (rcv_nxt k + zlen d) /\
    (forall x, x ∈ d ++ rcv_buf (ikcp_parse_data k s) -> x = s \/ x ∈ rcv_buf k).
Proof.
  intros Hk Hs. rewrite parse_data_unfold.
  destruct (in_window k (seg_sn s)) eqn:Hin.
  - pose proof (parse_insert_inv k s Hk Hs Hin) as Hk'.
    destruct (recv_move_spec _ (inv_rcv_wf _ Hk')) as [_ [d [Hmb Hmq Hms Hmn _]]].
    assert (Hfields : rcv_queue (parse_insert k s) = rcv_queue k /\
                      rcv_nxt (parse_insert k s) = rcv_nxt k)
      by (unfold parse_insert; by destruct (rcv_insert _ _)).
    destruct Hfields as [Hq Hn]. rewrite Hq, Hn in *.
    exists d. do 3 (split; [done|]). intros x Hx. rewrite <- Hmb in Hx.
    unfold parse_insert in Hx. destruct (rcv_insert s (reverse (rcv_buf k))) as [r|] eqn:E; [|auto].
    pose proof Hs as (_ & Hu & _). pose proof (inv_rcv_wf _ Hk) as Hwf.
    apply rcv_insert_Some with (nxt := rcv_nxt k) in E as [Hp _];
      [|apply rbuf_wf_reverse, Hwf|by apply (in_window_spec k)|done].
    simpl in Hx. rewrite elem_of_reverse, Hp, elem_of_cons, elem_of_reverse in Hx. done.
  - exists []. rewrite app_nil_r, zlen_nil, Z.add_0_r. repeat split; try done.
    + symmetry. apply u32_small, (rcv_nxt_u32 _ (inv_rcv_wf _ Hk)).
    + by right.
Qed.

(** Delivery is in order and without gaps or duplicates.  Whatever segment
    arrives, [ikcp_parse_data] keeps the receiver invariant, and the segments it
    appends to [rcv_queue] carry exactly the numbers [rcv_nxt], [rcv_nxt + 1],
    ... (modulo 2^32), each of them either the new segment or one that was
    waiting; [rcv_nxt] advances by their number. *)
Theorem parse_data_in_order k s :
  rcv_inv k -> seg_ok s ->
  rcv_inv (ikcp_parse_data k s) /\
  exists d,
    rcv_queue (ikcp_parse_data k s) = rcv_queue k ++ d /\
    seg_sn <$> d = sn_seq (rcv_nxt k) (length d) /\
    rcv_nxt (ikcp_parse_data k s) = u32 (rcv_nxt k + zlen d) /\
    (forall x, x ∈ d -> x = s \/ x ∈ rcv_buf k).
Proof.
  intros Hk Hs. split; [by apply parse_data_inv|].
  destruct (parse_data_delivers k s Hk Hs) as (d & H1 & H2 & H3 & H4).
  exists d. do 3 (split; [done|]). intros x Hx. apply H4, elem_of_app. by left.
Qed.

#[export] Instance seg_ok_dec s : Decision (seg_ok s).
Proof. unfold seg_ok. apply _. Defined.

Lemma kcp0_inv : rcv_inv kcp0.
Proof. split; [split|..]; by_decide. Qed.

Lemma parse_data_in_order_witness :
  rcv_inv (ikcp_parse_data kcp0 (seg_at 4294967295)) /\
  exists d,
    rcv_queue (ikcp_parse_data kcp0 (seg_at 4294967295)) = rcv_queue kcp0 ++ d /\
    seg_sn <$> d = sn_seq (rcv_nxt kcp0) (length d) /\
    rcv_nxt (ikcp_parse_data kcp0 (seg_at 4294967295)) = u32 (rcv_nxt kcp0 + zlen d) /\
    (forall x, x ∈ d -> x = seg_at 4294967295 \/ x ∈ rcv_buf kcp0).
Proof. apply parse_data_in_order; [exact kcp0_inv|by_decide]. Defined.

(** C5: [ikcp_recv] on every branch.  It never crashes (its assertion
    [len == peeksize] cannot fail), keeps the invariant, and: returns -1 on an
    empty queue, -2 when [ikcp_peeksize] is negative, -3 when the buffer is too
    small, in all three cases without changing anything; otherwise it returns
    [ikcp_peeksize] and copies the payload of exactly the first message, which
    (with [len >= 0]) leaves the queue. *)
Theorem ikcp_recv_total k dst len :
  rcv_inv k ->
  exists k' c out, ikcp_recv k dst len = Ok (k', c, out) /\ rcv_inv k' /\
  ((c = -1 /\ rcv_queue k = [] /\ k' = k /\ out = []) \/
   (c = -2 /\ rcv_queue k <> [] /\ ikcp_peeksize k < 0 /\ k' = k /\ out = []) \/
   (c = -3 /\ 0 <= ikcp_peeksize k /\ ~ recv_ready k len /\ k' = k /\ out = []) \/
   (recv_ready k len /\ c = ikcp_peeksize k /\
    exists m r d, rcv_queue k = m ++ r /\ first_message (rcv_queue k) = (m, r) /\ m <> [] /\
      out = (if dst then payload m else []) /\
      rcv_queue k' = (if len <? 0 then m else []) ++ r ++ d /\
      seg_sn <$> d = sn_seq (rcv_nxt k) (length d))).
Proof.
  intros Hk. destruct (decide (recv_ready k len)) as [Hr|Hr].
  - destruct (first_message (rcv_queue k)) as [m r] eqn:Hm.
    pose proof (first_message_app _ _ _ Hm) as Happ.
    pose proof (recv_taken_inv k (len <? 0) m r Hk Happ) as Htk.
    rewrite (ikcp_recv_ready k dst len m r) by done.
    eexists _, _, _. split; [done|]. split; [by apply recv_finish_inv|]. do 3 right.
    do 2 (split; [done|]). pose proof (recv_ready_nonempty _ _ Hr) as Hne.
    destruct (recv_move_spec _ (inv_rcv_wf _ Htk)) as [_ [d [_ Hmq Hms _ _]]].
    exists m, r, d. split; [done|]. split; [done|].
    split; [by eapply first_message_nonempty|]. split; [done|].
    unfold recv_finish. destruct (_ && _); simpl; rewrite Hmq; unfold recv_taken in *;
      destruct (len <? 0); simpl; rewrite ?Happ, <- ?app_assoc; split; done.
  - unfold ikcp_recv, recv_ready in *.
    destruct (rcv_queue k) as [|s q] eqn:E.
    { eexists _, _, _. split; [done|]. split; [done|]. by left. }
    destruct (Z.ltb_spec (ikcp_peeksize k) 0) as [Hp|Hp].
    { eexists _, _, _. split; [done|]. split; [done|]. right; left. done. }
    destruct (Z.gtb_spec (ikcp_peeksize k) (if len <? 0 then i32 (- len) else len)); [|lia].
    eexists _, _, _. split; [done|]. split; [done|]. do 2 right; left. done.
Qed.

(** A control block with the two fragments of one message queued. *)
Definition frag (sn frg : Z) (data : list Z) : IKCPSEG :=
  mkSeg 7 81 frg 128 0 sn 0 (zlen data) 0 0 0 0 data.
Definition kcp1 : IKCPCB :=
  kcp0 <| rcv_queue := [frag 5 1 [72; 105]; frag 6 0 [33]] |> <| nrcv_que := 2 |>.

Lemma ikcp_recv_total_witness :
  exists k' c out, ikcp_recv kcp1 true 100 = Ok (k', c, out) /\ rcv_inv k' /\
  ((c = -1 /\ rcv_queue kcp1 = [] /\ k' = kcp1 /\ out = []) \/
   (c = -2 /\ rcv_queue kcp1 <> [] /\ ikcp_peeksize kcp1 < 0 /\ k' = kcp1 /\ out = []) \/
   (c = -3 /\ 0 <= ikcp_peeksize kcp1 /\ ~ recv_ready kcp1 100 /\ k' = kcp1 /\ out = []) \/
   (recv_ready kcp1 100 /\ c = ikcp_peeksize kcp1 /\
    exists m r d, rcv_queue kcp1 = m ++ r /\ first_message (rcv_queue kcp1) = (m, r) /\ m <> [] /\
      out = (if true then payload m else []) /\
      rcv_queue k' = (if 100 <? 0 then m else []) ++ r ++ d /\
      seg_sn <$> d = sn_seq (rcv_nxt kcp1) (length d))).
Proof. apply ikcp_recv_total. split; [split|..]; by_decide. Defined.
