(* ===== verification/KcpSend.v ===== *)
(** * KCP sender: fragmentation

    [ikcp_send] splits a message into segments that [ikcp_recv] puts together
    again, byte for byte; in stream mode it extends the last queued segment, also
    when it then rejects the message. *)

From S2P Require Import Prelude KcpBase Kcp KcpRecv.

(** ** Fragmentation *)

(** The [frg] fields of a message of [n] segments: [n - 1, ..., 1, 0]. *)
Fixpoint countdown (n : nat) : list Z :=
  match n with O => [] | S n => Z.of_nat n :: countdown n end.

(** A segment fit for sending: its payload has the length of the header and fits
    into one datagram. *)
Definition out_ok (ms : Z) (s : IKCPSEG) : Prop :=
  seg_len s = zlen (seg_data s) /\ seg_len s <= ms.

#[export] Instance out_ok_dec ms s : Decision (out_ok ms s).
Proof. unfold out_ok. apply _. Defined.

(** [k] with the segments [segs] appended to [snd_queue]. *)
Definition enqueued (k : IKCPCB) (segs : list IKCPSEG) : IKCPCB :=
  k <| snd_queue := snd_queue k ++ segs |> <| nsnd_que := u32 (nsnd_que k + zlen segs) |>.

Lemma enqueued_app k a b : enqueued (enqueued k a) b = enqueued k (a ++ b).
Proof.
  unfold enqueued. cbn. rewrite zlen_app, <- app_assoc.
  replace (u32 (u32 (nsnd_que k + zlen a) + zlen b)) with (u32 (nsnd_que k + (zlen a + zlen b)))
    by mword. done.
Qed.

Definition alloc_all (m : allocator) : Prop := allocator_ok m /\ forall n, alloc_ok m n = true.

Lemma read_at_prefix l n : 0 <= n <= zlen l -> read_at l 0 n = Ok (take (Z.to_nat n) l).
Proof. intros H. apply read_at_Ok. split; [lia|]. done. Qed.

(** The loop condition: [n] more segments are what the rest of the message
    needs. *)
Definition frag_need (ms len : Z) (n : nat) : Prop :=
  (0 < n)%nat /\ len <= Z.of_nat n * ms /\ (n = 1%nat \/ (Z.of_nat n - 1) * ms < len).

Lemma frag_need_next ms len n :
  0 < ms -> frag_need ms len (S (S n)) -> ms < len /\ frag_need ms (len - ms) (S n).
Proof. unfold frag_need. intros Hms (_ & Hle & [?|Hlt]); [lia|]. split; [nia|]. split; [lia|]. nia. Qed.

(** One iteration: the segment cut off the front of the buffer. *)
Definition cut_seg (k : IKCPCB) (frg size : Z) (b : list Z) : IKCPSEG :=
  (new_seg frg (take (Z.to_nat size) b)) <| seg_len := u32 size |>.

Lemma cut_seg_ok k frg size b :
  0 <= size <= zlen b -> size <= mss k -> mss k < 2 ^ 31 -> out_ok (mss k) (cut_seg k frg size b).
Proof.
  intros Hs Hm Hm'. split; simpl.
  - rewrite zlen_take by lia. mword.
  - mword.
Qed.

Lemma send_fragments_step m n i count k b len :
  alloc_all m -> 0 < mss k < 2 ^ 31 -> len = zlen b -> len < 2 ^ 31 ->
  let size := if len >? mss k then mss k else len in
  let frg := if stream k =? 0 then u32 (count - i - 1) else 0 in
  send_fragments m (S n) i count k (Some b) len =
  send_fragments m n (i + 1) count (enqueued k [cut_seg k frg size b])
    (Some (drop (Z.to_nat size) b)) (len - size).
Proof.
  intros [[Hj _] Ha] Hm Hl Hlt size frg. pose proof (zlen_nonneg b).
  assert (Hsz : 0 <= size <= len) by (subst size; destruct (Z.gtb_spec len (mss k)); lia).
  cbn [send_fragments]. rewrite (i32_small (mss k)) by (mword_unfold; lia). fold size.
  unfold ikcp_segment_new. rewrite Ha. 
  assert (Hd : (if len >? 0 then read_at b 0 size else Ok (alloc_junk m size)) =
               Ok (take (Z.to_nat size) b)).
  { destruct (Z.gtb_spec len 0); [by rewrite read_at_prefix by lia|].
    assert (size = 0) as -> by lia. f_equal.
    specialize (Hj 0 ltac:(lia)). unfold zlen in Hj. destruct (alloc_junk m 0); [done|simpl in Hj; lia]. }
  rewrite Hd. cbn [mbind outcome_bind]. rewrite (i32_small (len - size)) by (mword_unfold; lia).
  done.
Qed.

(** What the fragment loop appends: [n] segments whose payloads concatenate to
    the message, numbered down to 0 (all 0 in stream mode). *)
Record fragments_of (k : IKCPCB) (b : list Z) (n : nat) (segs : list IKCPSEG) : Prop := {
  frags_length : length segs = n;
  frags_payload : payload segs = b;
  frags_frg : seg_frg <$> segs = if stream k =? 0 then countdown n else replicate n 0;
  frags_ok : Forall (out_ok (mss k)) segs }.

Lemma send_fragments_spec m n i count k b :
  alloc_all m -> 0 < mss k < 2 ^ 31 -> zlen b < 2 ^ 31 ->
  frag_need (mss k) (zlen b) n -> count = i + Z.of_nat n -> 0 <= i -> count < 2 ^ 31 ->
  exists segs, send_fragments m n i count k (Some b) (zlen b) = Ok (enqueued k segs, 0) /\
               fragments_of k b n segs.
Proof.
  intros Ha Hm. revert i k b Hm.
  induction n as [|n IH]; intros i k b Hm Hlt Hneed Hc Hi Hcb; [destruct Hneed; lia|].
  rewrite send_fragments_step by done.
  set (size := if zlen b >? mss k then mss k else zlen b).
  set (frg := if stream k =? 0 then u32 (count - i - 1) else 0).
  pose proof (zlen_nonneg b) as Hb0.
  assert (Hsz : 0 <= size <= zlen b /\ size <= mss k)
    by (subst size; destruct (Z.gtb_spec (zlen b) (mss k)); lia).
  set (s := cut_seg k frg size b).
  assert (Hs : out_ok (mss k) s) by (apply cut_seg_ok; lia).
  assert (Hfrg : seg_frg s = if stream k =? 0 then Z.of_nat n else 0).
  { subst s frg. simpl. destruct (stream k =? 0); [mword|done]. }
  destruct n as [|n].
  - exists [s]. split; [done|]. assert (size = zlen b) as Hsize.
    { subst size. destruct Hneed as (_ & Hle & _). destruct (Z.gtb_spec (zlen b) (mss k)); lia. }
    split; [done| | |by apply Forall_singleton].
    + unfold payload, s, cut_seg. simpl. rewrite app_nil_r, Hsize. apply take_ge. unfold zlen. lia.
    + change (seg_frg <$> [s]) with [seg_frg s]. rewrite Hfrg. by destruct (stream k =? 0).
  - apply frag_need_next in Hneed as [Hlen Hneed]; [|lia].
    assert (size = mss k) as Hsize
      by (subst size; destruct (Z.gtb_spec (zlen b) (mss k)); lia).
    assert (Hrest : zlen (drop (Z.to_nat size) b) = zlen b - size) by (apply zlen_drop; lia).
    destruct (IH (i + 1) (enqueued k [s]) (drop (Z.to_nat size) b)) as (segs & Hrun & [Hl Hp Hf Ho]);
      [done|lia|rewrite Hrest, Hsize; exact Hneed|lia|lia|lia|].
    rewrite Hrest in Hrun. rewrite Hrun, enqueued_app.
    exists (s :: segs). split; [done|]. split.
    + simpl. by rewrite Hl.
    + rewrite payload_cons, Hp. unfold s. simpl. by rewrite take_drop.
    + rewrite fmap_cons, Hf, Hfrg. simpl. by destruct (stream k =? 0).
    + by constructor.
Qed.

(** The number of segments [ikcp_send] computes. *)
Lemma send_count_need k len :
  0 < mss k < 2 ^ 31 -> 0 <= len < 2 ^ 31 -> mss k + len < 2 ^ 32 ->
  1 <= send_count k len < 2 ^ 31 /\ frag_need (mss k) len (Z.to_nat (send_count k len)).
Proof.
  intros Hm Hl Hs. unfold send_count, frag_need. rewrite (i32_small (mss k)) by (mword_unfold; lia).
  destruct (Z.leb_spec len (mss k)) as [Hle|Hgt]; [split; [lia|]; nia|].
  rewrite (u32_small (len + mss k - 1)) by (mword_unfold; lia).
  assert (Hdiv : 1 <= (len + mss k - 1) `div` mss k < 2 ^ 31).
  { split; [apply Z.div_le_lower_bound; lia|].
    apply Z.div_lt_upper_bound; [lia|]. nia. }
  rewrite (i32_small (_ `div` _)) by (mword_unfold; lia). split; [done|].
  rewrite Z2Nat.id by lia.
  pose proof (Z.div_mod (len + mss k - 1) (mss k) ltac:(lia)) as Hdm.
  pose proof (Z.mod_pos_bound (len + mss k - 1) (mss k) ltac:(lia)) as Hmb.
  split; [lia|]. split; [lia|]. right. lia.
Qed.

(** ** Stream mode: extending the last segment *)

Record snd_queue_ok (k : IKCPCB) : Prop := {
  sq_len : nsnd_que k = zlen (snd_queue k);
  sq_small : nsnd_que k < 2 ^ 31;
  sq_ok : Forall (out_ok (mss k)) (snd_queue k) }.

Lemma last_split {A} (l : list A) (x : A) :
  last l = Some x -> l = take (length l - 1) l ++ [x].
Proof.
  intros H. apply last_Some in H as [l' ->]. rewrite length_app. simpl.
  replace (length l' + 1 - 1)%nat with (length l') by lia. by rewrite take_app_length.
Qed.

(** How much of [b] goes into the last segment. *)
Definition stream_room (k : IKCPCB) (b : list Z) : Z :=
  match last (snd_queue k) with
  | Some old => Z.min (zlen b) (mss k - seg_len old)
  | None => 0
  end.

Lemma send_stream_spec m k b :
  alloc_all m -> 0 < mss k < 2 ^ 31 -> zlen b < 2 ^ 31 -> snd_queue_ok k ->
  exists q, let n := stream_room k b in
    send_stream m k (Some b) (zlen b) =
      Ok (k <| snd_queue := q |>, Some (drop (Z.to_nat n) b), zlen b - n) /\
    0 <= n <= zlen b /\
    length q = length (snd_queue k) /\ Forall (out_ok (mss k)) q /\
    payload q = payload (snd_queue k) ++ take (Z.to_nat n) b.
Proof.
  intros [_ Ha] Hm Hb [Hql Hqs Hqo]. pose proof (zlen_nonneg b). unfold send_stream, stream_room.
  destruct (last (snd_queue k)) as [old|] eqn:E.
  2:{ exists (snd_queue k). simpl. rewrite app_nil_r, Z.sub_0_r, drop_0.
      split; [by destruct k|]. split; [lia|done]. }
  pose proof (last_split _ _ E) as Hsplit. rewrite Hsplit, Forall_app, Forall_singleton in Hqo.
  destruct Hqo as [Hinit [Hol Hom]]. pose proof (zlen_nonneg (seg_data old)).
  destruct (Z.ltb_spec (seg_len old) (mss k)) as [Hlt|Hge].
  2:{ exists (snd_queue k). cbv zeta. replace (Z.min (zlen b) (mss k - seg_len old)) with 0 by lia.
      rewrite app_nil_r, Z.sub_0_r, drop_0. split; [by destruct k|]. split; [lia|].
      split; [done|]. split; [|done]. rewrite Hsplit, Forall_app, Forall_singleton. done. }
  rewrite (i32_u32_small (mss k - seg_len old)) by lia.
  remember (Z.min (zlen b) (mss k - seg_len old)) as n eqn:Hn.
  assert ((if zlen b <? mss k - seg_len old then zlen b else mss k - seg_len old) = n) as ->
    by (destruct (Z.ltb_spec (zlen b) (mss k - seg_len old)); lia).
  unfold ikcp_segment_new. rewrite Ha. rewrite (read_at_prefix (seg_data old)) by lia.
  cbn [mbind outcome_bind]. rewrite read_at_prefix by lia. cbn [mbind outcome_bind].
  rewrite (i32_small (zlen b - n)) by (mword_unfold; lia).
  rewrite (take_ge (seg_data old)) by (unfold zlen in Hol; lia).
  set (seg := set_field seg_len _ _).
  exists (take (length (snd_queue k) - 1) (snd_queue k) ++ [seg]). split; [done|]. split; [lia|].
  assert (Hlen : length (snd_queue k) <> 0%nat) by (by destruct (snd_queue k)).
  split; [rewrite length_app, length_take; simpl; lia|]. split.
  - rewrite Forall_app, Forall_singleton. split; [done|]. subst seg. split; simpl.
    + rewrite zlen_app, zlen_take by lia. mword.
    + mword.
  - rewrite Hsplit at 3. rewrite !payload_app, <- app_assoc. f_equal.
    unfold payload, seg. simpl. by rewrite !app_nil_r.
Qed.

(** ** Message mode *)

Lemma send_message_spec m k b :
  alloc_all m -> stream k = 0 -> 0 < mss k < 2 ^ 31 -> zlen b < 2 ^ 31 ->
  (zlen b <= 127 * mss k ->
   exists segs, ikcp_send m k (Some b) (zlen b) = Ok (enqueued k segs, 0) /\
     payload segs = b /\ seg_frg <$> segs = countdown (length segs) /\
     (0 < length segs <= 127)%nat /\ Forall (out_ok (mss k)) segs) /\
  (127 * mss k < zlen b -> ikcp_send m k (Some b) (zlen b) = Ok (k, -2)).
Proof.
  intros Ha Hst Hm Hb. pose proof (zlen_nonneg b) as Hb0.
  destruct (send_count_need k (zlen b)) as [Hc Hneed]; [done|lia|lia|].
  assert (Hsend : ikcp_send m k (Some b) (zlen b) =
    if u32 (send_count k (zlen b)) >=? IKCP_WND_RCV then Ok (k, -2)
    else send_fragments m (Z.to_nat (send_count k (zlen b))) 0 (send_count k (zlen b)) k (Some b) (zlen b)).
  { unfold ikcp_send. destruct (Z.gtb_spec (mss k) 0); [|lia]. cbn [c_assert mbind outcome_bind].
    destruct (Z.ltb_spec (zlen b) 0); [lia|]. rewrite Hst. cbn [Z.eqb negb andb mbind outcome_bind].
    rewrite Hst. cbn [Z.eqb negb andb].
    destruct (Z.eqb_spec (send_count k (zlen b)) 0); [lia|done]. }
  rewrite Hsend, u32_small by (mword_unfold; lia). unfold IKCP_WND_RCV.
  destruct Hneed as (Hn0 & Hn1 & Hn2). rewrite Z2Nat.id in Hn1, Hn2 by lia.
  split; intros Hlen.
  - destruct (Z.geb_spec (send_count k (zlen b)) 128); [nia|].
    destruct (send_fragments_spec m (Z.to_nat (send_count k (zlen b))) 0 (send_count k (zlen b)) k b)
      as (segs & -> & [Hl Hp Hf Ho]); try done; try lia.
    { split; [lia|]. rewrite Z2Nat.id by lia. done. }
    exists segs. split; [done|]. rewrite Hst in Hf. cbn [Z.eqb] in Hf. rewrite Hl.
    repeat split; try done; lia.
  - destruct (Z.geb_spec (send_count k (zlen b)) 128); [done|]. nia.
Qed.

(** ** Main results *)

(** [ikcp_send] in message mode.  With working allocation, a message of at
    most [127 * mss] bytes is accepted: the segments appended to [snd_queue]
    concatenate to the message, are numbered [count-1 .. 0], and none exceeds
    [mss]; a longer message is rejected with -2 and nothing changes. *)
Theorem ikcp_send_message m k b :
  alloc_all m -> stream k = 0 -> 0 < mss k < 2 ^ 31 -> zlen b < 2 ^ 31 ->
  (zlen b <= 127 * mss k ->
   exists segs, ikcp_send m k (Some b) (zlen b) = Ok (enqueued k segs, 0) /\
     payload segs = b /\ seg_frg <$> segs = countdown (length segs) /\
     (0 < length segs <= 127)%nat /\ Forall (out_ok (mss k)) segs) /\
  (127 * mss k < zlen b -> ikcp_send m k (Some b) (zlen b) = Ok (k, -2)).
Proof. intros. by apply send_message_spec. Qed.

Definition mem_ok : allocator :=
  {| alloc_ok _ := true; alloc_junk n := replicate (Z.to_nat n) 170;
     alloc_pairs n := replicate (Z.to_nat n) (0, 0) |}.

Lemma mem_ok_all : alloc_all mem_ok.
Proof.
  split; [split; intros n Hn; unfold zlen; simpl; rewrite length_replicate; lia|done].
Qed.

(** A control block with the smallest segment size, 26 bytes. *)
Definition kcp_small : IKCPCB := kcp0 <| mtu := 50 |> <| mss := 26 |> <| buffer := 222 |>.

Lemma ikcp_send_message_witness :
  (zlen (replicate 60 65) <= 127 * mss kcp_small ->
   exists segs, ikcp_send mem_ok kcp_small (Some (replicate 60 65)) (zlen (replicate 60 65))
                = Ok (enqueued kcp_small segs, 0) /\
     payload segs = replicate 60 65 /\ seg_frg <$> segs = countdown (length segs) /\
     (0 < length segs <= 127)%nat /\ Forall (out_ok (mss kcp_small)) segs) /\
  (127 * mss kcp_small < zlen (replicate 60 65) ->
   ikcp_send mem_ok kcp_small (Some (replicate 60 65)) (zlen (replicate 60 65)) = Ok (kcp_small, -2)).
Proof. apply ikcp_send_message; [exact mem_ok_all|reflexivity|by_decide|by_decide]. Defined.

(** ** Sending and receiving *)

Lemma first_message_countdown segs r :
  segs <> [] -> seg_frg <$> segs = countdown (length segs) ->
  first_message (segs ++ r) = (segs, r).
Proof.
  induction segs as [|s segs IH]; [done|]. intros _ Hf. csimpl in Hf. simplify_eq Hf. intros Hs Hf'.
  simpl. rewrite Hs. destruct segs as [|s' segs]; [done|].
  destruct (Z.eqb_spec (Z.of_nat (length (s' :: segs))) 0) as [H0|_]; [simpl in H0; lia|].
  by rewrite IH.
Qed.

(** What the network preserves of a segment for reassembly. *)
Definition same_fragment (a b : IKCPSEG) : Prop :=
  seg_frg a = seg_frg b /\ seg_len a = seg_len b /\ seg_data a = seg_data b.

Lemma same_fragment_payload a b : Forall2 same_fragment a b -> payload a = payload b.
Proof.
  induction 1 as [|x y a b (_ & _ & Hd) _ IH]; [done|]. by rewrite !payload_cons, Hd, IH.
Qed.

Lemma same_fragment_frg a b : Forall2 same_fragment a b -> seg_frg <$> a = seg_frg <$> b.
Proof. induction 1 as [|x y a b (Hf & _) _ IH]; [done|]. csimpl. by rewrite Hf, IH. Qed.

Lemma recv_ready_message k segs r :
  rcv_inv k -> rcv_queue k = segs ++ r -> segs <> [] -> (length segs <= 127)%nat ->
  seg_frg <$> segs = countdown (length segs) -> zlen (payload segs) < 2 ^ 31 ->
  ikcp_peeksize k = zlen (payload segs) /\ recv_ready k (zlen (payload segs)).
Proof.
  intros [Hwf Hq _] Hr Hne Hlen Hf Hb. pose proof (zlen_nonneg (payload segs)) as Hp0.
  assert (Hfm : first_message (rcv_queue k) = (segs, r))
    by (rewrite Hr; by apply first_message_countdown).
  assert (Hpk : ikcp_peeksize k = zlen (payload segs)).
  { unfold ikcp_peeksize. destruct (rcv_queue k) as [|s0 q] eqn:E; [by destruct segs|].
    destruct segs as [|s segs]; [done|]. injection Hr as -> Hq'. csimpl in Hf. simplify_eq Hf.
    intros Hs Hf'. pose proof Hq as [(_ & _ & Hlu & Hsl) _]%Forall_cons. rewrite Hs.
    destruct (Z.eqb_spec (Z.of_nat (length segs)) 0) as [H0|H0].
    { destruct segs; [|simpl in H0; lia]. rewrite payload_cons, payload_nil, app_nil_r, <- Hsl in *.
      apply i32_small. mword_unfold; lia. }
    rewrite (nrcv_que_len _ Hwf), E, Hq', zlen_cons, zlen_app. pose proof (zlen_nonneg r).
    rewrite u32_small by (mword_unfold; simpl in Hlen; lia).
    destruct (Z.ltb_spec (1 + (zlen segs + zlen r)) (Z.of_nat (length segs) + 1));
      [unfold zlen in *; lia|].
    rewrite <- Hq'. rewrite (peek_loop_sum (s :: q) (s :: segs) r); [lia|done|done|lia|lia]. }
  split; [done|]. unfold recv_ready. rewrite Hpk. destruct (Z.ltb_spec (zlen (payload segs)) 0); lia.
Qed.

(** C6: round trip of a message.  Any message of at most [127 * mss] bytes is
    accepted by [ikcp_send], and a receiver whose delivery queue starts with
    (copies of) the segments it produced gets the message back from [ikcp_recv],
    byte for byte, with its length. *)
Theorem send_recv_roundtrip m k b :
  alloc_all m -> stream k = 0 -> 0 < mss k < 2 ^ 31 -> zlen b < 2 ^ 31 -> zlen b <= 127 * mss k ->
  exists segs, ikcp_send m k (Some b) (zlen b) = Ok (enqueued k segs, 0) /\
  forall kr got r, rcv_inv kr -> rcv_queue kr = got ++ r -> Forall2 same_fragment segs got ->
  exists kr', ikcp_recv kr true (zlen b) = Ok (kr', zlen b, b).
Proof.
  intros Ha Hst Hm Hb Hlen. destruct (send_message_spec m k b Ha Hst Hm Hb) as [Hok _].
  destruct (Hok Hlen) as (segs & Hs & Hp & Hf & Hl & _). exists segs. split; [done|].
  intros kr got r Hkr Hq Hsame.
  pose proof (Forall2_length _ _ _ Hsame) as Hlg.
  rewrite (same_fragment_payload _ _ Hsame) in Hp. rewrite (same_fragment_frg _ _ Hsame), Hlg in Hf.
  assert (Hne : got <> []) by (intros ->; simpl in Hlg; lia).
  destruct (recv_ready_message kr got r) as [Hpk Hrd]; [done..|lia|done|by rewrite Hp|].
  rewrite Hp in Hpk, Hrd. rewrite (ikcp_recv_ready kr true (zlen b) got r); [|done..|].
  - rewrite Hpk, Hp. by eexists.
  - rewrite Hq. by apply first_message_countdown.
Qed.

Lemma send_recv_roundtrip_witness :
  exists segs, ikcp_send mem_ok kcp_small (Some (replicate 60 65)) (zlen (replicate 60 65))
               = Ok (enqueued kcp_small segs, 0) /\
  forall kr got r, rcv_inv kr -> rcv_queue kr = got ++ r -> Forall2 same_fragment segs got ->
  exists kr', ikcp_recv kr true (zlen (replicate 60 65)) = Ok (kr', zlen (replicate 60 65), replicate 60 65).
Proof.
  apply send_recv_roundtrip; [exact mem_ok_all|reflexivity|by_decide|by_decide|by_decide].
Defined.

(** [ikcp_send] in stream mode, after the last segment has been extended. *)
Lemma send_stream_unfold m k b :
  alloc_all m -> stream k <> 0 -> 0 < mss k < 2 ^ 31 -> zlen b < 2 ^ 31 -> snd_queue_ok k ->
  exists q, let n := stream_room k b in let b' := drop (Z.to_nat n) b in
    let k1 := k <| snd_queue := q |> in let c := send_count k (zlen b') in
    0 <= n <= zlen b /\ zlen b' = zlen b - n /\ Forall (out_ok (mss k)) q /\
    payload q = payload (snd_queue k) ++ take (Z.to_nat n) b /\
    ikcp_send m k (Some b) (zlen b) =
      (if zlen b' <=? 0 then Ok (k1, 0) else if c >=? 128 then Ok (k1, -2)
       else send_fragments m (Z.to_nat c) 0 c k1 (Some b') (zlen b')) /\
    (0 < zlen b' -> 1 <= c < 2 ^ 31 /\ frag_need (mss k) (zlen b') (Z.to_nat c)).
Proof.
  intros Ha Hst Hm Hb Hq. pose proof (zlen_nonneg b) as Hb0.
  destruct (send_stream_spec m k b Ha Hm Hb Hq) as (q & Hrun & Hn & _ & Hqo & Hqp).
  exists q. cbv zeta in *. remember (stream_room k b) as n eqn:Hn0. clear Hn0.
  assert (Hb' : zlen (drop (Z.to_nat n) b) = zlen b - n) by (apply zlen_drop; lia).
  assert (Hneed : 0 < zlen b - n -> 1 <= send_count k (zlen b - n) < 2 ^ 31 /\
                  frag_need (mss k) (zlen b - n) (Z.to_nat (send_count k (zlen b - n))))
    by (intros; apply send_count_need; lia).
  rewrite Hb'. do 4 (split; [done|]). split; [|done].
  unfold ikcp_send. destruct (Z.gtb_spec (mss k) 0); [|lia]. cbn [c_assert mbind outcome_bind].
  destruct (Z.ltb_spec (zlen b) 0); [lia|].
  destruct (Z.eqb_spec (stream k) 0); [done|]. rewrite Hrun. cbn [mbind outcome_bind].
  set (k1 := set_field snd_queue _ k). change (stream k1) with (stream k).
  change (send_count k1) with (send_count k).
  destruct (Z.eqb_spec (stream k) 0); [done|]. cbn [negb andb].
  destruct (Z.leb_spec (zlen b - n) 0) as [Hz|Hz]; [done|]. specialize (Hneed Hz) as [Hc _].
  rewrite u32_small by (mword_unfold; lia). unfold IKCP_WND_RCV.
  destruct (Z.geb_spec (send_count k (zlen b - n)) 128); [done|].
  destruct (Z.eqb_spec (send_count k (zlen b - n)) 0); [lia|done].
Qed.

(** [ikcp_send] in stream mode neither loses, reorders nor duplicates bytes:
    the payload of [snd_queue] is extended by exactly the user's bytes, and no
    segment exceeds [mss]. *)
Theorem ikcp_send_stream m k b :
  alloc_all m -> stream k <> 0 -> 0 < mss k < 2 ^ 31 -> zlen b <= 127 * mss k -> zlen b < 2 ^ 31 ->
  snd_queue_ok k ->
  exists k', ikcp_send m k (Some b) (zlen b) = Ok (k', 0) /\
    payload (snd_queue k') = payload (snd_queue k) ++ b /\
    Forall (out_ok (mss k)) (snd_queue k') /\ mss k' = mss k.
Proof.
  intros Ha Hst Hm Hlen Hb Hq.
  destruct (send_stream_unfold m k b Ha Hst Hm Hb Hq) as (q & Hn & Hb' & Hqo & Hqp & -> & Hneed).
  cbv zeta in *. set (n := stream_room k b) in *. set (b' := drop (Z.to_nat n) b) in *.
  destruct (Z.leb_spec (zlen b') 0) as [Hz|Hz].
  { eexists. split; [done|]. simpl. split; [|done]. rewrite Hqp, take_ge by (unfold zlen in *; lia). done. }
  destruct (Hneed Hz) as [Hc Hneed']. pose proof Hneed' as (Hn0 & Hn1 & Hn2).
  rewrite Z2Nat.id in Hn1, Hn2 by lia.
  destruct (Z.geb_spec (send_count k (zlen b')) 128); [nia|].
  set (k1 := set_field snd_queue _ k).
  destruct (send_fragments_spec m (Z.to_nat (send_count k (zlen b'))) 0 (send_count k (zlen b')) k1 b')
    as (segs & -> & [_ Hsp _ Hso]); try done; try lia.
  eexists. split; [done|]. simpl. rewrite payload_app, Hqp, Hsp, <- app_assoc. unfold b'.
  rewrite take_drop. split; [done|]. by rewrite Forall_app.
Qed.

(** A stream-mode control block with 20 bytes queued. *)
Definition kcp_stream : IKCPCB :=
  kcp_small <| stream := 1 |> <| snd_queue := [new_seg 0 (replicate 20 1)] |> <| nsnd_que := 1 |>.

Lemma ikcp_send_stream_witness :
  exists k', ikcp_send mem_ok kcp_stream (Some (replicate 60 65)) (zlen (replicate 60 65)) = Ok (k', 0) /\
    payload (snd_queue k') = payload (snd_queue kcp_stream) ++ replicate 60 65 /\
    Forall (out_ok (mss kcp_stream)) (snd_queue k') /\ mss k' = mss kcp_stream.
Proof.
  apply ikcp_send_stream; [exact mem_ok_all|discriminate|by_decide..|].
  split; by_decide.
Defined.

(** In stream mode a rejected message is not left out entirely: when the
    last queued segment has room and the rest is still too long, [ikcp_send]
    returns -2 although a non-empty prefix of the message has been queued. *)
Theorem ikcp_send_stream_partial m k b :
  alloc_all m -> stream k <> 0 -> 0 < mss k < 2 ^ 31 -> zlen b < 2 ^ 31 -> snd_queue_ok k ->
  0 < stream_room k b -> 127 * mss k < zlen b - stream_room k b ->
  exists k', ikcp_send m k (Some b) (zlen b) = Ok (k', -2) /\
    payload (snd_queue k') = payload (snd_queue k) ++ take (Z.to_nat (stream_room k b)) b.
Proof.
  intros Ha Hst Hm Hb Hq Hroom Hlong.
  destruct (send_stream_unfold m k b Ha Hst Hm Hb Hq) as (q & Hn & Hb' & Hqo & Hqp & -> & Hneed).
  cbv zeta in *. rewrite Hb' in *.
  destruct (Z.leb_spec (zlen b - stream_room k b) 0) as [Hz|Hz]; [lia|].
  destruct (Hneed Hz) as [Hc (Hn0 & Hn1 & Hn2)]. rewrite Z2Nat.id in Hn1, Hn2 by lia.
  destruct (Z.geb_spec (send_count k (zlen b - stream_room k b)) 128); [|nia].
  eexists. split; [done|]. exact Hqp.
Qed.

Lemma ikcp_send_stream_partial_witness :
  exists k', ikcp_send mem_ok kcp_stream (Some (replicate 3400 65)) (zlen (replicate 3400 65)) = Ok (k', -2) /\
    payload (snd_queue k') = payload (snd_queue kcp_stream)
      ++ take (Z.to_nat (stream_room kcp_stream (replicate 3400 65))) (replicate 3400 65).
Proof.
  apply ikcp_send_stream_partial; [exact mem_ok_all|discriminate|by_decide|by_decide| |by_decide..].
  split; by_decide.
Defined.
