(* ===== verification/KcpAck.v ===== *)
(** * KCP acknowledgements: the send buffer, the ack list and the RTO

    Invariant of [snd_buf] and its preservation by every operation that removes
    or appends segments; the early exits of [ikcp_parse_ack], [ikcp_parse_una]
    and [ikcp_parse_fastack] lose nothing; the growing array of pending
    acknowledgements; the bounds of the retransmission timeout. *)

From S2P Require Import Prelude KcpBase Kcp KcpRecv KcpSend.

(** ** The send buffer

    Segments in flight carry distinct increasing numbers in
    [snd_una, snd_nxt), the first of them is [snd_una] (or the buffer is empty
    and [snd_una = snd_nxt]), and at most [2^16] numbers are in flight. *)
Definition inflight (k : IKCPCB) : Z := _itimediff (snd_nxt k) (snd_una k).

Definition una_exact (k : IKCPCB) : Prop :=
  snd_una k = match snd_buf k with s :: _ => seg_sn s | [] => snd_nxt k end.

(** The invariant without the exactness of [snd_una], which holds again after
    [ikcp_shrink_buf]. *)
Record snd_wf0 (k : IKCPCB) : Prop := {
  snd_una_u32 : is_u32 (snd_una k);
  snd_nxt_u32 : is_u32 (snd_nxt k);
  snd_inflight : 0 <= inflight k < 2 ^ 16;
  nsnd_buf_len : nsnd_buf k = zlen (snd_buf k);
  snd_buf_wf : rcvbuf_wf (snd_una k) (snd_buf k);
  snd_buf_hi : Forall (fun s => off (snd_una k) s < inflight k) (snd_buf k) }.

Record snd_wf (k : IKCPCB) : Prop := {
  snd_wf_0 : snd_wf0 k;
  snd_una_exact : una_exact k }.

#[export] Instance una_exact_dec k : Decision (una_exact k).
Proof. unfold una_exact. apply _. Defined.

Lemma off_lt_trans nxt l s : rcvbuf_wf nxt (s :: l) -> Forall (fun x => off nxt s < off nxt x) l.
Proof. intros [_ Hs]. by apply StronglySorted_inv in Hs as [_ ?]. Qed.

Lemma rcvbuf_wf_tail nxt s l : rcvbuf_wf nxt (s :: l) -> rcvbuf_wf nxt l.
Proof. intros [[_ ?]%Forall_cons [? _]%StronglySorted_inv]. done. Qed.

Lemma rcvbuf_wf_sublist nxt l l' : l' `sublist_of` l -> rcvbuf_wf nxt l -> rcvbuf_wf nxt l'.
Proof.
  induction 1 as [|x l1 l2 Hsub IH|x l1 l2 Hsub IH]; [done| |].
  - intros Hwf. destruct (IH (rcvbuf_wf_tail _ _ _ Hwf)) as [Hall Hs].
    pose proof (off_lt_trans _ _ _ Hwf) as Hlt. destruct Hwf as [[Hx _]%Forall_cons _].
    split; [by constructor|]. constructor; [done|]. by eapply sublist_Forall.
  - intros Hwf. apply IH. by eapply rcvbuf_wf_tail.
Qed.

(** Removing segments from the buffer keeps the invariant. *)
Lemma snd_wf0_sublist k l :
  snd_wf0 k -> l `sublist_of` snd_buf k ->
  snd_wf0 (k <| snd_buf := l |> <| nsnd_buf := zlen l |>).
Proof.
  intros [Hu Hn Hi Hl Hw Hh] Hsub. split; try done; cbn.
  - by eapply rcvbuf_wf_sublist.
  - by eapply sublist_Forall.
Qed.

(** Moving the reference point of the offsets forward to [una'] inside of the
    window, when no segment is left behind. *)
Lemma off_rebase una una' s :
  0 <= _itimediff una' una <= off una s -> off una' s = off una s - _itimediff una' una.
Proof.
  intros H. unfold off in *. apply itimediff_shift.
  pose proof (itimediff_range (seg_sn s) una). mword_unfold; lia.
Qed.

Lemma rcvbuf_wf_rebase una una' l :
  0 <= _itimediff una' una -> Forall (fun s => _itimediff una' una <= off una s) l ->
  rcvbuf_wf una l -> rcvbuf_wf una' l.
Proof.
  intros Hd Hall [Hu Hs]. rewrite Forall_forall in Hall, Hu. split.
  - apply Forall_forall. intros s Hin. destruct (Hu s Hin). specialize (Hall s Hin).
    split; [done|]. rewrite (off_rebase una); lia.
  - eapply StronglySorted_weaken; [|exact Hs]. simpl. intros x y Hx Hy Hxy.
    pose proof (Hall x Hx). pose proof (Hall y Hy). rewrite !(off_rebase una una'); lia.
Qed.

(** The first segment is the closest one. *)
Lemma head_min una s l :
  rcvbuf_wf una (s :: l) -> Forall (fun x => off una s <= off una x) (s :: l).
Proof.
  intros Hwf. constructor; [done|]. eapply Forall_impl; [exact (off_lt_trans _ _ _ Hwf)|].
  simpl. lia.
Qed.

Lemma shrink_una k :
  snd_wf0 k -> let k' := ikcp_shrink_buf k in
  0 <= _itimediff (snd_una k') (snd_una k) <= inflight k /\
  inflight k' = inflight k - _itimediff (snd_una k') (snd_una k) /\
  Forall (fun s => _itimediff (snd_una k') (snd_una k) <= off (snd_una k) s) (snd_buf k).
Proof.
  intros [Hu Hn Hi Hl Hw Hh]. unfold ikcp_shrink_buf, inflight in *.
  destruct (snd_buf k) as [|s l] eqn:E; cbn.
  - rewrite itimediff_refl. split; [lia|]. split; [lia|constructor].
  - pose proof Hw as [Hall Hs]. apply Forall_cons in Hall as [[Hsu Hso] _].
    apply Forall_cons in Hh as [Hh _]. split; [unfold off in *; lia|]. split.
    + unfold off in *. apply itimediff_shift. mword_unfold. lia.
    + by apply head_min.
Qed.

(** [ikcp_shrink_buf] makes [snd_una] exact and keeps everything else. *)
Lemma shrink_wf k : snd_wf0 k -> snd_wf (ikcp_shrink_buf k).
Proof.
  intros Hk. pose proof (shrink_una k Hk) as (Hd & Hi' & Hmin). cbn zeta in *.
  pose proof Hk as [Hu Hn Hi Hl Hw Hh].
  assert (Hfld : snd_buf (ikcp_shrink_buf k) = snd_buf k /\ nsnd_buf (ikcp_shrink_buf k) = nsnd_buf k /\
                 snd_nxt (ikcp_shrink_buf k) = snd_nxt k)
    by (unfold ikcp_shrink_buf; by destruct (snd_buf k) eqn:E; cbn; rewrite ?E).
  destruct Hfld as (Hb & Hn' & Hx).
  split; [split|]; rewrite ?Hb, ?Hn', ?Hx; try done.
  - unfold ikcp_shrink_buf. destruct (snd_buf k) as [|s l] eqn:E; cbn; [done|].
    destruct Hw as [[[? _] _]%Forall_cons _]. done.
  - lia.
  - apply (rcvbuf_wf_rebase (snd_una k)); [lia|done|done].
  - rewrite Forall_forall in *. intros s Hs. specialize (Hmin s Hs). specialize (Hh s Hs).
    rewrite (off_rebase (snd_una k)); lia.
  - unfold una_exact. rewrite Hb, Hx. unfold ikcp_shrink_buf.
    by destruct (snd_buf k).
Qed.

(** ** [ikcp_parse_una] *)

Lemma una_loop_split una l n :
  exists d r n', una_loop una l n = (r, n') /\ l = d ++ r /\
    Forall (fun s => 0 < _itimediff una (seg_sn s)) d /\
    match r with [] => True | s :: _ => _itimediff una (seg_sn s) <= 0 end /\
    (n = zlen l -> n < 2 ^ 32 -> n' = zlen r).
Proof.
  revert n. induction l as [|s l IH]; intros n.
  { exists [], [], n. repeat split; [constructor|auto]. }
  cbn [una_loop]. destruct (Z.gtb_spec (_itimediff una (seg_sn s)) 0) as [Hgt|Hle].
  - destruct (IH (u32 (n - 1))) as (d & r & n' & -> & -> & Hd & Hr & Hn).
    exists (s :: d), r, n'. split; [done|]. split; [done|]. split; [constructor; [lia|done]|].
    split; [done|]. intros -> Hlt. apply Hn; rewrite zlen_cons in *;
      pose proof (zlen_nonneg (d ++ r)); mword.
  - exists [], (s :: l), n. repeat split; [constructor|lia|auto].
Qed.

(** In an ordered buffer the loop removes exactly the segments before [una]; the
    acknowledged number may be stale by anything up to half the number circle
    (less the window). *)
Lemma una_loop_filter u0 una l n :
  rcvbuf_wf u0 l -> Forall (fun s => off u0 s < 2 ^ 16) l -> - 2 ^ 31 + 2 ^ 16 <= _itimediff una u0 ->
  fst (una_loop una l n) = filter (fun s => _itimediff una (seg_sn s) <= 0) l.
Proof.
  intros Hwf Hhi Hlo. revert n. induction l as [|s l IH]; intros n; [done|].
  pose proof (off_lt_trans _ _ _ Hwf) as Hlt. pose proof (rcvbuf_wf_tail _ _ _ Hwf) as Hwf'.
  apply Forall_cons in Hhi as [Hs Hhi]. cbn [una_loop].
  assert (Hdiff : forall x, 0 <= off u0 x < 2 ^ 16 ->
                  _itimediff una (seg_sn x) = _itimediff una u0 - off u0 x).
  { intros x Hx. unfold off in *. apply itimediff_shift.
    pose proof (itimediff_range una u0). mword_unfold; lia. }
  destruct Hwf as [[[_ Hso] Hall]%Forall_cons _].
  destruct (Z.gtb_spec (_itimediff una (seg_sn s)) 0) as [Hgt|Hle].
  - rewrite filter_cons_False by lia. by apply IH.
  - rewrite filter_cons_True by lia. cbn [fst]. f_equal. symmetry. apply list_filter_all.
    rewrite Forall_forall in Hlt, Hall, Hhi. apply Forall_forall. intros x Hx.
    specialize (Hlt x Hx). specialize (Hhi x Hx). simpl in *.
    rewrite (Hdiff s) in Hle by lia. rewrite (Hdiff x) by lia. lia.
Qed.

Lemma zlen_snd_buf k : snd_wf0 k -> zlen (snd_buf k) <= 2 ^ 31.
Proof. intros Hk. eapply rcvbuf_len, Hk. Qed.

Lemma parse_una_sublist k una :
  snd_wf0 k -> exists r, ikcp_parse_una k una = k <| snd_buf := r |> <| nsnd_buf := zlen r |> /\
                         r `sublist_of` snd_buf k.
Proof.
  intros Hk. pose proof (zlen_snd_buf k Hk). unfold ikcp_parse_una.
  destruct (una_loop_split una (snd_buf k) (nsnd_buf k)) as (d & r & n' & -> & Hl & _ & _ & Hn).
  exists r. rewrite Hn by (rewrite ?(nsnd_buf_len k Hk); lia). split; [done|].
  rewrite Hl. by apply sublist_inserts_l.
Qed.

Lemma parse_una_wf k una : snd_wf0 k -> snd_wf0 (ikcp_parse_una k una).
Proof.
  intros Hk. destruct (parse_una_sublist k una Hk) as (r & -> & Hr). by apply snd_wf0_sublist.
Qed.

Lemma parse_una_filter k una :
  snd_wf0 k -> - 2 ^ 31 + 2 ^ 16 <= _itimediff una (snd_una k) ->
  snd_buf (ikcp_parse_una k una) = filter (fun s => _itimediff una (seg_sn s) <= 0) (snd_buf k).
Proof.
  intros Hk Hlo. rewrite <- (una_loop_filter (snd_una k) una (snd_buf k) (nsnd_buf k)); try apply Hk; try done.
  - unfold ikcp_parse_una. by destruct (una_loop _ _ _).
  - eapply Forall_impl; [apply (snd_buf_hi k Hk)|]. intros s Hs. simpl in Hs.
    pose proof (snd_inflight k Hk). lia.
Qed.

(** ** [ikcp_parse_ack] *)

Lemma ack_loop_spec sn u0 l :
  is_u32 sn -> 0 <= _itimediff sn u0 -> rcvbuf_wf u0 l ->
  fst (ack_loop sn l) = filter (fun s => seg_sn s <> sn) l /\
  zlen l = zlen (fst (ack_loop sn l)) + (if snd (ack_loop sn l) then 1 else 0).
Proof.
  intros Hsn Ho. induction l as [|s l IH]; intros Hwf; [done|].
  pose proof (off_lt_trans _ _ _ Hwf) as Hlt. pose proof (rcvbuf_wf_tail _ _ _ Hwf) as Hwf'.
  specialize (IH Hwf') as [IH1 IH2]. destruct Hwf as [[[Hsu Hso] Hall]%Forall_cons _].
  rewrite Forall_forall in Hlt, Hall. cbn [ack_loop].
  assert (Hd : forall x, 0 <= off u0 x -> _itimediff sn (seg_sn x) = _itimediff sn u0 - off u0 x).
  { intros x Hx. unfold off in *. apply itimediff_shift.
    pose proof (itimediff_range sn u0). pose proof (itimediff_range (seg_sn x) u0). mword_unfold; lia. }
  destruct (Z.eqb_spec sn (seg_sn s)) as [Heq|Hne].
  { rewrite filter_cons_False by auto. cbn [fst snd]. rewrite zlen_cons. split; [|lia].
    symmetry. apply list_filter_all, Forall_forall. intros x Hx Hc.
    specialize (Hlt x Hx). unfold off in Hlt. rewrite Hc, Heq in Hlt. lia. }
  rewrite (Hd s) by done. destruct (Z.ltb_spec (_itimediff sn u0 - off u0 s) 0) as [Hl|Hg].
  - cbn [fst snd]. split; [|lia]. rewrite filter_cons_True by auto. f_equal.
    symmetry. apply list_filter_all, Forall_forall. intros x Hx Hc.
    specialize (Hlt x Hx). unfold off in *. rewrite Hc in Hlt. lia.
  - destruct (ack_loop sn l) as [r b]. cbn [fst snd] in *. rewrite filter_cons_True by auto.
    split; [by f_equal|]. rewrite !zlen_cons. lia.
Qed.

(** A number outside of [snd_una, snd_nxt) is not in the buffer. *)
Lemma ack_outside k sn :
  snd_wf0 k -> _itimediff sn (snd_una k) < 0 \/ 0 <= _itimediff sn (snd_nxt k) ->
  filter (fun s => seg_sn s <> sn) (snd_buf k) = snd_buf k.
Proof.
  intros [Hu Hn Hi Hl [Hall _] Hh] Hout. apply list_filter_all.
  rewrite Forall_forall in *. intros s Hs Hc.
  destruct (Hall s Hs) as [_ Ho]. specialize (Hh s Hs). unfold off, inflight in *. subst sn.
  assert (_itimediff (seg_sn s) (snd_nxt k) =
          _itimediff (seg_sn s) (snd_una k) - _itimediff (snd_nxt k) (snd_una k)) as Hd; [|lia].
  apply itimediff_shift. mword_unfold; lia.
Qed.

Lemma parse_ack_buf k sn :
  snd_wf0 k -> is_u32 sn ->
  ikcp_parse_ack k sn =
    k <| snd_buf := filter (fun s => seg_sn s <> sn) (snd_buf k) |>
      <| nsnd_buf := zlen (filter (fun s => seg_sn s <> sn) (snd_buf k)) |>.
Proof.
  intros Hk Hsn. pose proof Hk as [Hu Hn Hi Hl Hw Hh]. unfold ikcp_parse_ack.
  destruct (Z.ltb_spec (_itimediff sn (snd_una k)) 0) as [Hlo|Hlo]; cbn [orb].
  2: destruct (Z.geb_spec (_itimediff sn (snd_nxt k)) 0) as [Hhi|Hhi].
  3:{ destruct (ack_loop_spec sn (snd_una k) (snd_buf k) Hsn Hlo Hw) as [Hf Hz].
      pose proof (zlen_snd_buf k Hk). pose proof (zlen_nonneg (fst (ack_loop sn (snd_buf k)))).
      destruct (ack_loop sn (snd_buf k)) as [r b]. cbn [fst snd] in *. subst r.
      destruct b; cbn.
      - replace (u32 (nsnd_buf k - 1)) with (zlen (filter (fun s => seg_sn s <> sn) (snd_buf k)))
          by (rewrite Hl; mword). done.
      - replace (zlen (filter (fun s => seg_sn s <> sn) (snd_buf k))) with (nsnd_buf k) by lia.
        by destruct k. }
  - rewrite ack_outside by auto. rewrite <- Hl. by destruct k.
  - rewrite ack_outside by auto. rewrite <- Hl. by destruct k.
Qed.

Lemma parse_ack_wf k sn : snd_wf0 k -> is_u32 sn -> snd_wf0 (ikcp_parse_ack k sn).
Proof.
  intros Hk Hsn. rewrite parse_ack_buf by done. apply snd_wf0_sublist; [done|].
  apply sublist_filter.
Qed.

(** ** [ikcp_parse_fastack] *)

(** The reference definition: every segment sent before [sn] counts one more
    acknowledgement that overtook it. *)
Definition skip_count (sn : Z) (s : IKCPSEG) : IKCPSEG :=
  if 0 <? _itimediff sn (seg_sn s) then s <| seg_fastack := u32 (seg_fastack s + 1) |> else s.

Lemma fastack_loop_map u0 sn l :
  is_u32 sn -> 0 <= _itimediff sn u0 -> rcvbuf_wf u0 l ->
  fastack_loop sn l = skip_count sn <$> l.
Proof.
  intros Hsn Ho. induction l as [|s l IH]; intros Hwf; [done|].
  pose proof (off_lt_trans _ _ _ Hwf) as Hlt. pose proof (rcvbuf_wf_tail _ _ _ Hwf) as Hwf'.
  destruct Hwf as [[[Hsu Hso] Hall]%Forall_cons _]. cbn [fastack_loop].
  assert (Hd : forall x, 0 <= off u0 x -> _itimediff sn (seg_sn x) = _itimediff sn u0 - off u0 x).
  { intros x Hx. unfold off in *. apply itimediff_shift.
    pose proof (itimediff_range sn u0). pose proof (itimediff_range (seg_sn x) u0). mword_unfold; lia. }
  assert (Hid : Forall (fun x => off u0 x > _itimediff sn u0) l -> skip_count sn <$> l = l).
  { intros Hf. rewrite <- (list_fmap_id l) at 2. apply list_fmap_ext. intros i x Hx%list_elem_of_lookup_2.
    rewrite Forall_forall in Hf, Hall. specialize (Hf x Hx). destruct (Hall x Hx).
    unfold skip_count. rewrite (Hd x) by done.
    destruct (Z.ltb_spec 0 (_itimediff sn u0 - off u0 x)); [lia|done]. }
  rewrite fmap_cons. unfold skip_count at 1. rewrite (Hd s) by done.
  destruct (Z.ltb_spec (_itimediff sn u0 - off u0 s) 0) as [Hl|Hg].
  - destruct (Z.ltb_spec 0 (_itimediff sn u0 - off u0 s)); [lia|]. rewrite Hid; [done|].
    eapply Forall_impl; [exact Hlt|]. simpl. lia.
  - rewrite IH by done. f_equal.
    destruct (Z.eqb_spec sn (seg_sn s)) as [->|Hne]; cbn [negb].
    + destruct (Z.ltb_spec 0 (_itimediff (seg_sn s) u0 - off u0 s)); [unfold off in *; lia|done].
    + destruct (Z.ltb_spec 0 (_itimediff sn u0 - off u0 s)); [done|]. exfalso. apply Hne.
      apply (itimediff_inj _ _ u0); [done|done|]. unfold off in *. lia.
Qed.

(** Operations that change neither the numbers nor the counters of the buffer. *)
Lemma snd_wf0_same_sns k l :
  snd_wf0 k -> seg_sn <$> l = seg_sn <$> snd_buf k -> snd_wf0 (k <| snd_buf := l |>).
Proof.
  intros [Hu Hn Hi Hl [Hw Hs] Hh] He.
  assert (Hf : forall P : Z -> Prop, Forall (fun s => P (seg_sn s)) l <->
                                     Forall (fun s => P (seg_sn s)) (snd_buf k)).
  { intros P. change (fun s => P (seg_sn s)) with (P ∘ seg_sn). rewrite <- !Forall_fmap. by rewrite He. }
  assert (Hlen : zlen l = zlen (snd_buf k)).
  { unfold zlen. rewrite <- (length_fmap seg_sn l), He. by rewrite length_fmap. }
  split; cbn; try done; [congruence| |].
  - split.
    + apply (Hf (fun n => is_u32 n /\ 0 <= _itimediff n (snd_una k))). exact Hw.
    + revert Hs. clear -He. remember (snd_buf k) as b eqn:E. clear E. revert b He.
      induction l as [|x l IH]; intros [|y b] He Hs; try done; csimpl in He.
      injection He as Hxy He. apply StronglySorted_inv in Hs as [Hs Hlt].
      constructor; [by eapply IH|]. unfold off in *. rewrite Hxy.
      change (fun b0 => _itimediff (seg_sn y) (snd_una k) < _itimediff (seg_sn b0) (snd_una k))
        with ((fun n => _itimediff (seg_sn y) (snd_una k) < _itimediff n (snd_una k)) ∘ seg_sn) in *.
      apply Forall_fmap. rewrite He. by apply Forall_fmap.
  - apply (Hf (fun n => _itimediff n (snd_una k) < inflight k)). exact Hh.
Qed.

Lemma una_exact_same_sns k l :
  una_exact k -> seg_sn <$> l = seg_sn <$> snd_buf k -> una_exact (k <| snd_buf := l |>).
Proof.
  unfold una_exact. cbn. intros -> He.
  destruct l, (snd_buf k); csimpl in He; congruence.
Qed.

Lemma snd_wf_same_sns k l :
  snd_wf k -> seg_sn <$> l = seg_sn <$> snd_buf k -> snd_wf (k <| snd_buf := l |>).
Proof. intros [Hk He] Hs. split; [by apply snd_wf0_same_sns|by apply una_exact_same_sns]. Qed.

Lemma parse_fastack_buf k sn :
  snd_wf0 k -> is_u32 sn -> 0 <= _itimediff sn (snd_una k) -> _itimediff sn (snd_nxt k) < 0 ->
  ikcp_parse_fastack k sn = k <| snd_buf := skip_count sn <$> snd_buf k |>.
Proof.
  intros Hk Hsn Hlo Hhi. unfold ikcp_parse_fastack.
  destruct (Z.ltb_spec (_itimediff sn (snd_una k)) 0); [lia|].
  destruct (Z.geb_spec (_itimediff sn (snd_nxt k)) 0); [lia|]. cbn [orb].
  by rewrite (fastack_loop_map (snd_una k)) by (done || apply Hk).
Qed.

Lemma skip_count_sn sn (l : list IKCPSEG) : seg_sn <$> (skip_count sn <$> l) = seg_sn <$> l.
Proof.
  rewrite <- list_fmap_compose. apply list_fmap_ext. intros i x _. unfold compose, skip_count.
  by destruct (0 <? _).
Qed.

Lemma parse_fastack_wf k sn : snd_wf k -> is_u32 sn -> snd_wf (ikcp_parse_fastack k sn).
Proof.
  intros Hk Hsn. destruct (decide (0 <= _itimediff sn (snd_una k) /\ _itimediff sn (snd_nxt k) < 0)) as [[Hlo Hhi]|Hout].
  - rewrite parse_fastack_buf by (done || apply Hk). apply snd_wf_same_sns; [done|].
    apply skip_count_sn.
  - unfold ikcp_parse_fastack. destruct (Z.ltb_spec (_itimediff sn (snd_una k)) 0); [done|].
    destruct (Z.geb_spec (_itimediff sn (snd_nxt k)) 0); [done|]. lia.
Qed.

(** ** Moving queued segments into the window *)

(** One step of [flush_move]: the queued segment [s] gets the next number. *)
Definition launch (k : IKCPCB) (wnd : Z) (s : IKCPSEG) : IKCPSEG :=
  mkSeg (conv k) IKCP_CMD_PUSH (seg_frg s) wnd (current k) (snd_nxt k) (rcv_nxt k)
    (seg_len s) (current k) (u32 (rx_rto k)) 0 0 (seg_data s).

Definition launched (k : IKCPCB) (wnd : Z) (s : IKCPSEG) (q : list IKCPSEG) : IKCPCB :=
  k <| snd_queue := q |> <| snd_buf := snd_buf k ++ [launch k wnd s] |>
    <| nsnd_que := u32 (nsnd_que k - 1) |> <| nsnd_buf := u32 (nsnd_buf k + 1) |>
    <| snd_nxt := u32 (snd_nxt k + 1) |>.

Lemma inflight_next k :
  0 <= inflight k < 2 ^ 16 -> _itimediff (u32 (snd_nxt k + 1)) (snd_una k) = inflight k + 1.
Proof. unfold inflight, _itimediff. intros. mword. Qed.

Lemma launched_wf k wnd s q :
  snd_wf k -> inflight k < 2 ^ 16 - 1 -> snd_wf (launched k wnd s q).
Proof.
  intros [Hk He] Hroom. pose proof Hk as [Hu Hn Hi Hl [Hw Hs] Hh].
  pose proof (inflight_next k Hi) as Hnext.
  assert (Hoff : off (snd_una k) (launch k wnd s) = inflight k) by done.
  split; [split|]; unfold inflight in *; cbn; rewrite ?Hnext.
  - done.
  - apply u32_range.
  - lia.
  - rewrite zlen_app, Hl. pose proof (zlen_snd_buf k Hk). pose proof (zlen_nonneg (snd_buf k)).
    change (zlen [_]) with 1. mword.
  - split.
    + rewrite Forall_app, Forall_singleton. split; [done|]. rewrite Hoff. cbn. split; [done|lia].
    + apply StronglySorted_snoc. split; [done|]. rewrite Hoff. exact Hh.
  - rewrite Forall_app, Forall_singleton, Hoff. split; [|lia].
    eapply Forall_impl; [exact Hh|]. simpl. lia.
  - unfold una_exact in *. cbn. rewrite He. by destruct (snd_buf k).
Qed.

(** What [flush_move] did: the prefix [q] of [snd_queue] went, fragment by
    fragment, to the end of [snd_buf], numbered from [snd_nxt] on. *)
Record launched_all (k k' : IKCPCB) (win : Z) (q new : list IKCPSEG) : Prop := {
  la_queue : snd_queue k = q ++ snd_queue k';
  la_buf : snd_buf k' = snd_buf k ++ new;
  la_frag : Forall2 same_fragment q new;
  la_sns : seg_sn <$> new = sn_seq (snd_nxt k) (length q);
  la_fresh : Forall (fun s => seg_xmit s = 0 /\ seg_cmd s = IKCP_CMD_PUSH /\ seg_conv s = conv k) new;
  la_nque : nsnd_que k = zlen (snd_queue k) -> nsnd_que k < 2 ^ 31 -> nsnd_que k' = zlen (snd_queue k');
  la_nxt : snd_nxt k' = u32 (snd_nxt k + zlen q);
  la_inflight : inflight k' = inflight k + zlen q;
  la_window : q = [] \/ inflight k' <= win;
  la_stop : snd_queue k' = [] \/ win <= inflight k' }.

Lemma flush_window_test k win :
  0 <= inflight k < 2 ^ 16 -> 0 <= win < 2 ^ 16 ->
  (_itimediff (snd_nxt k) (u32 (snd_una k + win)) <? 0) = (inflight k <? win).
Proof.
  intros Hi Hw. apply eq_bool_prop_intro. rewrite !Is_true_true, !Z.ltb_lt.
  unfold inflight, _itimediff in *. split; mword.
Qed.

Lemma flush_move_spec k win wnd :
  snd_wf k -> 0 <= win < 2 ^ 16 ->
  let k' := flush_move k win wnd (snd_queue k) in
  snd_wf k' /\ exists q new, launched_all k k' win q new.
Proof.
  remember (snd_queue k) as sq eqn:Hq. symmetry in Hq. revert k Hq.
  induction sq as [|s sq IH]; intros k Hq Hk Hwin; cbn [flush_move].
  { split; [done|]. exists [], []. split; rewrite ?app_nil_r, ?zlen_nil, ?Z.add_0_r; auto.
    symmetry. apply u32_small, Hk. }
  rewrite flush_window_test by (done || apply Hk).
  destruct (Z.ltb_spec (inflight k) win) as [Hlt|Hge].
  2:{ split; [done|]. exists [], []. split; rewrite ?app_nil_r, ?zlen_nil, ?Z.add_0_r; auto.
      symmetry. apply u32_small, Hk. }
  fold (launch k wnd s) (launched k wnd s sq).
  assert (Hk1 : snd_wf (launched k wnd s sq)) by (apply launched_wf; [done|lia]).
  assert (Hi1 : inflight (launched k wnd s sq) = inflight k + 1)
    by exact (inflight_next k (snd_inflight k (snd_wf_0 k Hk))).
  destruct (IH (launched k wnd s sq) eq_refl Hk1 Hwin) as (Hk' & q & new & [H1 H2 H3 H4 H5 H6 Hx H7 H8 H9]).
  split; [exact Hk'|]. exists (s :: q), (launch k wnd s :: new).
  rewrite Hi1 in H7. pose proof (zlen_nonneg q).
  split; [| | | | | | | | |exact H9].
  - rewrite Hq. cbn. f_equal. exact H1.
  - rewrite H2. cbn. by rewrite <- app_assoc.
  - by constructor.
  - cbn [length sn_seq]. rewrite fmap_cons. f_equal. exact H4.
  - constructor; [done|exact H5].
  - intros Hn Hs. apply H6; cbn; rewrite Hn, Hq, zlen_cons in *; pose proof (zlen_nonneg sq); mword.
  - rewrite Hx, zlen_cons. cbn. mword.
  - rewrite H7, zlen_cons. lia.
  - right. destruct H8 as [->|H8]; [|done]. rewrite H7, zlen_nil. lia.
Qed.

(** ** The list of pending acknowledgements *)

(** The meaningful part of the array. *)
Definition pending (k : IKCPCB) : list (Z * Z) := take (Z.to_nat (ackcount k)) (acklist k).

Record ack_wf (k : IKCPCB) : Prop := {
  ackcount_ok : 0 <= ackcount k <= ackblock k;
  ackblock_len : ackblock k = zlen (acklist k);
  ackblock_small : ackblock k <= 2 ^ 30;
  ack_u32 : Forall (fun p => is_u32 (fst p) /\ is_u32 (snd p)) (pending k) }.

Lemma newblock_loop_spec fuel b n :
  0 < b -> n <= b * 2 ^ Z.of_nat fuel ->
  n <= newblock_loop fuel b n /\ b <= newblock_loop fuel b n /\
  (newblock_loop fuel b n = b \/ newblock_loop fuel b n < 2 * n).
Proof.
  revert b. induction fuel as [|fuel IH]; intros b Hb Hn.
  { cbn. rewrite Z.mul_1_r in Hn. lia. }
  cbn [newblock_loop]. destruct (Z.ltb_spec b n) as [Hlt|Hge]; [|lia].
  rewrite Z.shiftl_mul_pow2 by lia. change (2 ^ 1) with 2.
  rewrite Nat2Z.inj_succ, Z.pow_succ_r in Hn by lia.
  destruct (IH (b * 2)) as (H1 & H2 & H3); [lia|lia|]. lia.
Qed.

(** The array as [ikcp_ack_push] enlarges it, when it is full. *)
Lemma ack_push_spec m k sn ts :
  alloc_all m -> ack_wf k -> is_u32 sn -> is_u32 ts -> ackcount k < 2 ^ 28 ->
  exists al ab, let k' := k <| acklist := al |> <| ackblock := ab |> <| ackcount := ackcount k + 1 |> in
    ikcp_ack_push m k sn ts = Ok k' /\ ack_wf k' /\ pending k' = pending k ++ [(sn, ts)].
Proof.
  intros [[_ Hp] Ha] [Hc Hb Hs Hu] Hsn Hts Hsmall. unfold ikcp_ack_push.
  rewrite (u32_small (ackcount k + 1)) by (mword_unfold; lia).
  assert (Hgrow : exists al ab,
    (if ackcount k + 1 >? ackblock k then
       if negb (alloc_ok m (newblock_loop 32 8 (ackcount k + 1) * 4 * 2)) then Crash Aborted
       else if bool_decide (ackcount k <= zlen (acklist k))
            then Ok (k <| acklist := take (Z.to_nat (ackcount k)) (acklist k) ++
                                     drop (Z.to_nat (ackcount k)) (alloc_pairs m (newblock_loop 32 8 (ackcount k + 1))) |>
                       <| ackblock := u32 (newblock_loop 32 8 (ackcount k + 1)) |>)
            else Crash OutOfBounds
     else Ok k) = Ok (k <| acklist := al |> <| ackblock := ab |>) /\
    ab = zlen al /\ ackcount k < ab <= 2 ^ 30 /\ take (Z.to_nat (ackcount k)) al = pending k).
  { destruct (Z.gtb_spec (ackcount k + 1) (ackblock k)) as [Hgt|Hle].
    - destruct (newblock_loop_spec 32 8 (ackcount k + 1)) as (H1 & H2 & H3); [lia|lia|].
      rewrite Ha. cbn [negb]. rewrite bool_decide_true by lia.
      set (nb := newblock_loop 32 8 (ackcount k + 1)) in *. clearbody nb.
      assert (Hlen : zlen (take (Z.to_nat (ackcount k)) (acklist k) ++
                     drop (Z.to_nat (ackcount k)) (alloc_pairs m nb)) = nb).
      { rewrite zlen_app, zlen_take, zlen_drop by (rewrite ?Hp; lia). rewrite Hp; lia. }
      eexists _, nb. rewrite (u32_small nb) by (mword_unfold; lia). split; [done|].
      split; [by rewrite Hlen|]. split; [lia|].
      rewrite take_app_le by (rewrite length_take, length_zlen; lia). by rewrite take_take, Nat.min_id.
    - exists (acklist k), (ackblock k). split; [by destruct k|]. split; [done|]. split; [lia|done]. }
  destruct Hgrow as (al & ab & -> & Hab & Hcnt & Htk). cbn [mbind outcome_bind]. cbn.
  destruct (Z.ltb_spec (ackcount k) (zlen al)) as [Hlt|]; [|lia].
  exists (<[Z.to_nat (ackcount k) := (sn, ts)]> al), ab.
  rewrite (u32_small (ackcount k + 1)) by (mword_unfold; lia). split; [done|].
  assert (Hpend : take (Z.to_nat (ackcount k + 1)) (<[Z.to_nat (ackcount k) := (sn, ts)]> al) =
                  pending k ++ [(sn, ts)]).
  { replace (Z.to_nat (ackcount k + 1)) with (S (Z.to_nat (ackcount k))) by lia.
    erewrite take_S_r; [|apply list_lookup_insert_eq; rewrite length_zlen; lia].
    by rewrite take_insert_ge, Htk by lia. }
  split; [|exact Hpend]. split; cbn; [lia| |lia|].
  - rewrite Hab. unfold zlen. by rewrite length_insert.
  - unfold pending at 1. cbn. rewrite Hpend, Forall_app, Forall_singleton. done.
Qed.

Lemma ack_get_pending k i p :
  pending k !! i = Some p -> ikcp_ack_get k (Z.of_nat i) = Ok p.
Proof.
  unfold pending, ikcp_ack_get. intros [Hl _]%lookup_take_Some. by rewrite Nat2Z.id, Hl.
Qed.

(** ** The retransmission timeout *)

Lemma ibound_range lo x hi : lo <= hi -> lo <= _ibound_ lo x hi <= hi.
Proof. rewrite ibound_spec. lia. Qed.

(** Only the three timing fields change. *)
Lemma update_ack_frame A k rtt :
  ikcp_update_ack A k rtt =
  k <| rx_srtt := rx_srtt (ikcp_update_ack A k rtt) |>
    <| rx_rttval := rx_rttval (ikcp_update_ack A k rtt) |>
    <| rx_rto := rx_rto (ikcp_update_ack A k rtt) |>.
Proof.
  unfold ikcp_update_ack. destruct (rx_srtt k =? 0); [done|]. cbv zeta.
  destruct (_ <? 1); done.
Qed.

Lemma update_ack_rto A k rtt :
  0 <= rx_minrto k <= IKCP_RTO_MAX ->
  rx_minrto k <= rx_rto (ikcp_update_ack A k rtt) <= IKCP_RTO_MAX.
Proof.
  intros Hmin. unfold IKCP_RTO_MAX in *.
  assert (Hb : forall x, rx_minrto k <= i32 (_ibound_ (u32 (rx_minrto k)) x 60000) <= 60000).
  { intros x. rewrite (u32_small (rx_minrto k)) by (mword_unfold; lia).
    pose proof (ibound_range (rx_minrto k) x 60000 ltac:(lia)).
    rewrite i32_small by (mword_unfold; lia). done. }
  unfold ikcp_update_ack. destruct (rx_srtt k =? 0); [apply Hb|]. cbv zeta.
  destruct (_ <? 1); apply Hb.
Qed.

(** ** Main results *)

Lemma shrink_buf_same k : snd_buf (ikcp_shrink_buf k) = snd_buf k.
Proof. unfold ikcp_shrink_buf. destruct (snd_buf k) eqn:E; cbn; by rewrite E. Qed.

Lemma shrink_nxt k : snd_nxt (ikcp_shrink_buf k) = snd_nxt k.
Proof. unfold ikcp_shrink_buf. by destruct (snd_buf k). Qed.
Lemma parse_una_nxt k una : snd_nxt (ikcp_parse_una k una) = snd_nxt k.
Proof. unfold ikcp_parse_una. by destruct (una_loop _ _ _). Qed.
Lemma parse_ack_nxt k sn : snd_nxt (ikcp_parse_ack k sn) = snd_nxt k.
Proof.
  unfold ikcp_parse_ack. destruct (_ || _); [done|]. by destruct (ack_loop _ _) as [? []].
Qed.

(** C7: the acknowledgement of number [sn] with cumulative acknowledgement [una]
    removes from the send buffer exactly the segment [sn] and the segments before
    [una] (the loops' early exits lose nothing), leaves [snd_una] at the oldest
    segment in flight or at [snd_nxt], and keeps the sender invariant. *)
Theorem ikcp_ack_exact k una sn :
  snd_wf k -> is_u32 sn -> - 2 ^ 31 + 2 ^ 16 <= _itimediff una (snd_una k) ->
  let k1 := ikcp_shrink_buf (ikcp_parse_una k una) in
  let k2 := ikcp_shrink_buf (ikcp_parse_ack k1 sn) in
  snd_wf k2 /\
  snd_buf k2 = filter (fun s => seg_sn s <> sn /\ _itimediff una (seg_sn s) <= 0) (snd_buf k) /\
  snd_una k2 = match snd_buf k2 with s :: _ => seg_sn s | [] => snd_nxt k end.
Proof.
  intros [Hk He] Hsn Hlo k1 k2.
  assert (Hk1 : snd_wf k1) by (apply shrink_wf, parse_una_wf, Hk).
  assert (Hk2 : snd_wf k2) by (apply shrink_wf, parse_ack_wf; [apply Hk1|done]).
  assert (Hb1 : snd_buf k1 = filter (fun s => _itimediff una (seg_sn s) <= 0) (snd_buf k))
    by (subst k1; rewrite shrink_buf_same; by apply parse_una_filter).
  split; [done|]. split.
  - subst k2. rewrite shrink_buf_same, parse_ack_buf by (done || apply Hk1). cbn.
    by rewrite Hb1, list_filter_filter.
  - rewrite (snd_una_exact k2 Hk2). destruct (snd_buf k2); [|done].
    subst k2 k1. by rewrite !shrink_nxt, parse_ack_nxt, shrink_nxt, parse_una_nxt.
Qed.

(** Five segments in flight across the wrap of the number circle. *)
Definition sent (sn : Z) : IKCPSEG := mkSeg 7 81 0 128 0 sn 0 1 100 200 0 1 [65].
Definition kcp_flight : IKCPCB :=
  kcp0 <| snd_una := 4294967294 |> <| snd_nxt := 3 |> <| nsnd_buf := 5 |>
       <| snd_buf := [sent 4294967294; sent 4294967295; sent 0; sent 1; sent 2] |>.

Lemma kcp_flight_wf : snd_wf kcp_flight.
Proof. split; [split|]; by_decide. Qed.

Lemma ikcp_ack_exact_witness :
  let k1 := ikcp_shrink_buf (ikcp_parse_una kcp_flight 0) in
  let k2 := ikcp_shrink_buf (ikcp_parse_ack k1 1) in
  snd_wf k2 /\
  snd_buf k2 = filter (fun s => seg_sn s <> 1 /\ _itimediff 0 (seg_sn s) <= 0) (snd_buf kcp_flight) /\
  snd_una k2 = match snd_buf k2 with s :: _ => seg_sn s | [] => snd_nxt kcp_flight end.
Proof. apply ikcp_ack_exact; [exact kcp_flight_wf|by_decide|by_decide]. Defined.

(** [ikcp_parse_fastack] counts, for every segment in flight with a number
    before [sn], one acknowledgement that overtook it, and touches nothing else;
    an out-of-window [sn] changes nothing; the sender invariant is kept. *)
Theorem ikcp_fastack_exact k sn :
  snd_wf k -> is_u32 sn ->
  snd_wf (ikcp_parse_fastack k sn) /\
  (0 <= _itimediff sn (snd_una k) -> _itimediff sn (snd_nxt k) < 0 ->
   ikcp_parse_fastack k sn = k <| snd_buf := skip_count sn <$> snd_buf k |>) /\
  (_itimediff sn (snd_una k) < 0 \/ 0 <= _itimediff sn (snd_nxt k) -> ikcp_parse_fastack k sn = k).
Proof.
  intros Hk Hsn. split; [by apply parse_fastack_wf|]. split.
  - intros. apply parse_fastack_buf; [apply Hk|done..].
  - intros Hout. unfold ikcp_parse_fastack.
    destruct (Z.ltb_spec (_itimediff sn (snd_una k)) 0); [done|].
    destruct (Z.geb_spec (_itimediff sn (snd_nxt k)) 0); [done|lia].
Qed.

Lemma ikcp_fastack_exact_witness :
  snd_wf (ikcp_parse_fastack kcp_flight 0) /\
  (0 <= _itimediff 0 (snd_una kcp_flight) -> _itimediff 0 (snd_nxt kcp_flight) < 0 ->
   ikcp_parse_fastack kcp_flight 0 = kcp_flight <| snd_buf := skip_count 0 <$> snd_buf kcp_flight |>) /\
  (_itimediff 0 (snd_una kcp_flight) < 0 \/ 0 <= _itimediff 0 (snd_nxt kcp_flight) ->
   ikcp_parse_fastack kcp_flight 0 = kcp_flight).
Proof. apply ikcp_fastack_exact; [exact kcp_flight_wf|by_decide]. Defined.

(** A pending acknowledgement is never lost or reordered: with working
    allocation [ikcp_ack_push] appends its pair to the pending ones, growing the
    array when it is full, without an access outside of it. *)
Theorem ikcp_ack_push_appends m k sn ts :
  alloc_all m -> ack_wf k -> is_u32 sn -> is_u32 ts -> ackcount k < 2 ^ 28 ->
  exists k', ikcp_ack_push m k sn ts = Ok k' /\ ack_wf k' /\
    pending k' = pending k ++ [(sn, ts)] /\ ackcount k' = ackcount k + 1 /\
    (forall i p, pending k' !! i = Some p -> ikcp_ack_get k' (Z.of_nat i) = Ok p).
Proof.
  intros Hm Hk Hsn Hts Hc. destruct (ack_push_spec m k sn ts Hm Hk Hsn Hts Hc) as (al & ab & H1 & H2 & H3).
  eexists. split; [exact H1|]. split; [exact H2|]. split; [exact H3|]. split; [done|].
  intros i p. apply ack_get_pending.
Qed.

Definition kcp_acks : IKCPCB :=
  kcp0 <| acklist := (fun i => (Z.of_nat i, 9)) <$> seq 0 8 |> <| ackcount := 8 |> <| ackblock := 8 |>.

Lemma ikcp_ack_push_appends_witness :
  exists k', ikcp_ack_push mem_ok kcp_acks 77 9 = Ok k' /\ ack_wf k' /\
    pending k' = pending kcp_acks ++ [(77, 9)] /\ ackcount k' = ackcount kcp_acks + 1 /\
    (forall i p, pending k' !! i = Some p -> ikcp_ack_get k' (Z.of_nat i) = Ok p).
Proof.
  apply ikcp_ack_push_appends; [exact mem_ok_all| |by_decide..].
  split; by_decide.
Defined.

(** C8: the retransmission timeout is bounded on every platform and for every
    round trip time a peer can make the code compute: whatever the estimator
    does, [rx_minrto <= rx_rto <= 60000] afterwards, and nothing but the three
    timing fields changes. *)
Theorem ikcp_update_ack_bounds A k rtt :
  0 <= rx_minrto k <= IKCP_RTO_MAX ->
  rx_minrto k <= rx_rto (ikcp_update_ack A k rtt) <= IKCP_RTO_MAX /\
  ikcp_update_ack A k rtt =
    k <| rx_srtt := rx_srtt (ikcp_update_ack A k rtt) |>
      <| rx_rttval := rx_rttval (ikcp_update_ack A k rtt) |>
      <| rx_rto := rx_rto (ikcp_update_ack A k rtt) |>.
Proof. intros. split; [by apply update_ack_rto|apply update_ack_frame]. Qed.

Lemma ikcp_update_ack_bounds_witness :
  rx_minrto kcp0 <= rx_rto (ikcp_update_ack LLP64 kcp0 2147483647) <= IKCP_RTO_MAX /\
  ikcp_update_ack LLP64 kcp0 2147483647 =
    kcp0 <| rx_srtt := rx_srtt (ikcp_update_ack LLP64 kcp0 2147483647) |>
      <| rx_rttval := rx_rttval (ikcp_update_ack LLP64 kcp0 2147483647) |>
      <| rx_rto := rx_rto (ikcp_update_ack LLP64 kcp0 2147483647) |>.
Proof. apply ikcp_update_ack_bounds. by_decide. Defined.
