(* ===== verification/KcpInput.v ===== *)
(** * KCP input: the invariant of a control block and [ikcp_input]

    The invariant of the whole control block, what a segment looks like on the
    wire, and the proof that [ikcp_input] survives every datagram on a platform
    with a 64-bit [long]. *)

From S2P Require Import Prelude KcpBase Kcp KcpRecv KcpSend KcpAck.

(** ** The invariant of a control block *)

Record mtu_ok (k : IKCPCB) : Prop := {
  mtu_range : 50 <= mtu k <= 2 ^ 29;
  mss_mtu : mss k = mtu k - IKCP_OVERHEAD;
  buffer_size : buffer k = (mtu k + IKCP_OVERHEAD) * 3 }.

Record wnd_ok (k : IKCPCB) : Prop := {
  rmt_wnd_ok : 0 <= rmt_wnd k < 2 ^ 16;
  snd_wnd_ok : 0 <= snd_wnd k;
  cwnd_ok : 0 <= cwnd k;
  minrto_ok : 0 <= rx_minrto k <= IKCP_RTO_MAX }.

Record kcp_inv (k : IKCPCB) : Prop := {
  inv_rcv : rcv_inv k;
  inv_snd : snd_wf k;
  inv_ack : ack_wf k;
  inv_mtu : mtu_ok k;
  inv_wnd : wnd_ok k;
  inv_queue : snd_queue_ok k;
  inv_buf : Forall (out_ok (mss k)) (snd_buf k) }.

(** ** Frames

    Each part of the invariant mentions few fields.  [reframe] proves a part for
    a control block that agrees with another one on them. *)
Ltac reframe H := destruct H; constructor; assumption.

Lemma rcv_inv_frame k k' :
  rcv_nxt k' = rcv_nxt k -> rcv_wnd k' = rcv_wnd k -> nrcv_buf k' = nrcv_buf k ->
  nrcv_que k' = nrcv_que k -> rcv_buf k' = rcv_buf k -> rcv_queue k' = rcv_queue k ->
  rcv_inv k -> rcv_inv k'.
Proof.
  intros H1 H2 H3 H4 H5 H6 [[]]. split; [split|..]; rewrite ?H1, ?H2, ?H3, ?H4, ?H5, ?H6; assumption.
Qed.

Lemma snd_wf_frame k k' :
  snd_una k' = snd_una k -> snd_nxt k' = snd_nxt k -> nsnd_buf k' = nsnd_buf k ->
  snd_buf k' = snd_buf k -> snd_wf k -> snd_wf k'.
Proof.
  intros H1 H2 H3 H4 [[] He]. unfold inflight in *.
  split; [split|]; unfold inflight, una_exact in *; rewrite ?H1, ?H2, ?H3, ?H4; assumption.
Qed.

Lemma ack_wf_frame k k' :
  ackcount k' = ackcount k -> ackblock k' = ackblock k -> acklist k' = acklist k ->
  ack_wf k -> ack_wf k'.
Proof.
  intros H1 H2 H3 []. split; unfold pending in *; rewrite ?H1, ?H2, ?H3; assumption.
Qed.

(** The send side changed, everything else did not. *)
Lemma kcp_inv_snd k k' u x n b :
  kcp_inv k -> k' = k <| snd_una := u |> <| snd_nxt := x |> <| nsnd_buf := n |> <| snd_buf := b |> ->
  snd_wf k' -> Forall (out_ok (mss k)) b -> kcp_inv k'.
Proof.
  intros [Hr Hs Ha Hm Hw Hq Hb] -> Hs' Hb'. split.
  - by apply (rcv_inv_frame k).
  - done.
  - by apply (ack_wf_frame k).
  - reframe Hm.
  - reframe Hw.
  - reframe Hq.
  - done.
Qed.

(** Removing segments from the send buffer and re-establishing [snd_una]. *)
Lemma kcp_inv_shrink k k1 r :
  kcp_inv k -> k1 = k <| snd_buf := r |> <| nsnd_buf := zlen r |> -> r `sublist_of` snd_buf k ->
  kcp_inv (ikcp_shrink_buf k1).
Proof.
  intros Hk -> Hr.
  apply (kcp_inv_snd k _ (match r with [] => snd_nxt k | s :: _ => seg_sn s end) (snd_nxt k) (zlen r) r);
    [done| | |].
  - unfold ikcp_shrink_buf. cbn. by destruct r, k.
  - apply shrink_wf, snd_wf0_sublist; [apply Hk|done].
  - eapply sublist_Forall; [exact Hr|apply Hk].
Qed.

Lemma kcp_inv_una k una : kcp_inv k -> kcp_inv (ikcp_shrink_buf (ikcp_parse_una k una)).
Proof.
  intros Hk. destruct (parse_una_sublist k una) as (r & Heq & Hr); [apply Hk|].
  by eapply kcp_inv_shrink.
Qed.

Lemma kcp_inv_ack k sn :
  kcp_inv k -> is_u32 sn -> kcp_inv (ikcp_shrink_buf (ikcp_parse_ack k sn)).
Proof.
  intros Hk Hsn. eapply kcp_inv_shrink; [exact Hk|apply parse_ack_buf; [apply Hk|done]|].
  apply sublist_filter.
Qed.

Lemma skip_count_out ms sn l : Forall (out_ok ms) l -> Forall (out_ok ms) (skip_count sn <$> l).
Proof.
  rewrite Forall_fmap. intros Hl. eapply Forall_impl; [exact Hl|]. intros s Hs. unfold compose, skip_count. by destruct (0 <? _).
Qed.

Lemma kcp_inv_fastack k sn : kcp_inv k -> is_u32 sn -> kcp_inv (ikcp_parse_fastack k sn).
Proof.
  intros Hk Hsn. destruct (decide (0 <= _itimediff sn (snd_una k) /\ _itimediff sn (snd_nxt k) < 0)) as [[Hlo Hhi]|Hout].
  - pose proof (parse_fastack_wf k sn (inv_snd k Hk) Hsn) as Hw.
    pose proof (parse_fastack_buf k sn (snd_wf_0 k (inv_snd k Hk)) Hsn Hlo Hhi) as Heq.
    rewrite Heq in *.
    apply (kcp_inv_snd k _ (snd_una k) (snd_nxt k) (nsnd_buf k) (skip_count sn <$> snd_buf k));
      [done|by destruct k|done|]. apply skip_count_out, Hk.
  - unfold ikcp_parse_fastack. destruct (Z.ltb_spec (_itimediff sn (snd_una k)) 0); [done|].
    destruct (Z.geb_spec (_itimediff sn (snd_nxt k)) 0); [done|]. lia.
Qed.

(** Timing and congestion fields. *)
Lemma kcp_inv_timing k a b c :
  kcp_inv k -> kcp_inv (k <| rx_srtt := a |> <| rx_rttval := b |> <| rx_rto := c |>).
Proof.
  intros [Hr Hs Ha Hm Hw Hq Hb]. split.
  - by apply (rcv_inv_frame k).
  - by apply (snd_wf_frame k).
  - by apply (ack_wf_frame k).
  - reframe Hm.
  - reframe Hw.
  - reframe Hq.
  - done.
Qed.

Lemma kcp_inv_windows k p r c i s :
  kcp_inv k -> 0 <= r < 2 ^ 16 -> 0 <= c ->
  kcp_inv (k <| rmt_wnd := r |> <| cwnd := c |> <| incr := i |> <| ssthresh := s |> <| probe := p |>).
Proof.
  intros [Hr Hs Ha Hm Hw Hq Hb] Hwnd Hc. split.
  - by apply (rcv_inv_frame k).
  - by apply (snd_wf_frame k).
  - by apply (ack_wf_frame k).
  - reframe Hm.
  - destruct Hw. by split.
  - reframe Hq.
  - done.
Qed.

(** The receive side changed, everything else did not. *)
Lemma kcp_inv_rcv k k' a b c d e :
  kcp_inv k ->
  k' = k <| rcv_nxt := a |> <| nrcv_buf := b |> <| nrcv_que := c |> <| rcv_buf := d |> <| rcv_queue := e |> ->
  rcv_inv k' -> kcp_inv k'.
Proof.
  intros [Hr Hs Ha Hm Hw Hq Hb] -> Hr'. split.
  - done.
  - by apply (snd_wf_frame k).
  - by apply (ack_wf_frame k).
  - reframe Hm.
  - reframe Hw.
  - reframe Hq.
  - done.
Qed.

Definition rcv_part (k k' : IKCPCB) : IKCPCB :=
  k <| rcv_nxt := rcv_nxt k' |> <| nrcv_buf := nrcv_buf k' |> <| nrcv_que := nrcv_que k' |>
    <| rcv_buf := rcv_buf k' |> <| rcv_queue := rcv_queue k' |>.

Lemma recv_move_frame buf k : recv_move buf k = rcv_part k (recv_move buf k).
Proof.
  revert k. induction buf as [|s buf IH]; intros k; cbn [recv_move]; [by destruct k|].
  destruct (_ && _); [|by destruct k]. rewrite IH at 1. by destruct k.
Qed.

Lemma parse_data_frame k s : ikcp_parse_data k s = rcv_part k (ikcp_parse_data k s).
Proof.
  rewrite parse_data_unfold. destruct (in_window _ _); [|by destruct k].
  rewrite recv_move_frame at 1. unfold parse_insert. by destruct (rcv_insert _ _), k.
Qed.

Lemma kcp_inv_data k s : kcp_inv k -> seg_ok s -> kcp_inv (ikcp_parse_data k s).
Proof.
  intros Hk Hs. eapply kcp_inv_rcv; [exact Hk|apply parse_data_frame|].
  apply parse_data_inv; [apply Hk|done].
Qed.

Lemma kcp_inv_acklist k al ab ac :
  kcp_inv k -> let k' := k <| acklist := al |> <| ackblock := ab |> <| ackcount := ac |> in
  ack_wf k' -> kcp_inv k'.
Proof.
  intros [Hr Hs Ha Hm Hw Hq Hb] k' Ha'. split.
  - by apply (rcv_inv_frame k).
  - by apply (snd_wf_frame k).
  - done.
  - reframe Hm.
  - reframe Hw.
  - reframe Hq.
  - done.
Qed.

Lemma input_cwnd_inv k una : kcp_inv k -> kcp_inv (input_cwnd k una).
Proof.
  intros Hk. pose proof (rmt_wnd_ok k (inv_wnd k Hk)) as Hr. pose proof (cwnd_ok k (inv_wnd k Hk)) as Hc.
  assert (Hgen : forall k', k' = k <| cwnd := cwnd k' |> <| incr := incr k' |> -> 0 <= cwnd k' -> kcp_inv k').
  { intros k' -> Hc'.
    pose proof (kcp_inv_windows k (probe k) (rmt_wnd k) (cwnd k') (incr k') (ssthresh k) Hk Hr Hc') as H.
    by destruct k. }
  assert (Hu : forall z, 0 <= u32 z) by (intros z; apply u32_range).
  unfold input_cwnd. destruct (_ >? 0); [|done]. destruct (cwnd k <? rmt_wnd k); [|done]. cbv zeta.
  destruct (cwnd k <? ssthresh k).
  - destruct (_ >? _); apply Hgen; solve [reflexivity | cbn; lia | cbn; apply Hu].
  - destruct (incr k <? mss k);
      (destruct (_ <=? _); destruct (_ >? _); apply Hgen; solve [reflexivity | cbn; lia | cbn; apply Hu]).
Qed.

(** ** The wire format *)

(** The header of a segment as it is encoded. *)
Definition header_bytes (s : IKCPSEG) : list Z :=
  le_encode 4 (seg_conv s) ++ [u8 (seg_cmd s)] ++ [u8 (seg_frg s)] ++ le_encode 2 (u16 (seg_wnd s)) ++
  le_encode 4 (seg_ts s) ++ le_encode 4 (seg_sn s) ++ le_encode 4 (seg_una s) ++ le_encode 4 (seg_len s).

Lemma u8_u8 z : u8 (u8 z) = u8 z.
Proof. mword. Qed.

Lemma encode_seg_app ptr s : ikcp_encode_seg ptr s = ptr ++ header_bytes s.
Proof.
  unfold ikcp_encode_seg, header_bytes, ikcp_encode32u, ikcp_encode16u, ikcp_encode8u.
  by rewrite !u8_u8, <- !app_assoc.
Qed.

Lemma zlen_header s : zlen (header_bytes s) = IKCP_OVERHEAD.
Proof. unfold header_bytes. rewrite !zlen_app, !zlen_le_encode. done. Qed.

Lemma header_is_bytes s : is_bytes (header_bytes s).
Proof.
  unfold header_bytes. rewrite !Forall_app, !Forall_singleton.
  repeat split; try apply le_encode_bytes; apply u8_range.
Qed.

(** What the peer decodes. *)
Definition header_of (s : IKCPSEG) : header :=
  mkHdr (u32 (seg_conv s)) (u8 (seg_cmd s)) (u8 (seg_frg s)) (u16 (seg_wnd s)) (u32 (seg_ts s))
    (u32 (seg_sn s)) (u32 (seg_una s)) (u32 (seg_len s)).

Lemma decode_conv_at pre s post p :
  p = zlen pre -> ikcp_decode32u (pre ++ header_bytes s ++ post) p = Ok (u32 (seg_conv s), p + 4).
Proof. intros ->. unfold header_bytes. rewrite <- app_assoc. by apply decode32u_at. Qed.

Lemma bind_ok {A B} (a : A) (f : A -> outcome B) m : m = Ok a -> m ≫= f = f a.
Proof. by intros ->. Qed.

(** The decoders on a list that is known to hold the value at the offset. *)
Lemma decode8u_in l pre v post p :
  l = pre ++ [u8 v] ++ post -> p = zlen pre -> ikcp_decode8u l p = Ok (u8 v, p + 1).
Proof. intros ->. apply decode8u_at. Qed.
Lemma decode16u_in l pre v post p :
  l = pre ++ le_encode 2 v ++ post -> p = zlen pre -> ikcp_decode16u l p = Ok (u16 v, p + 2).
Proof. intros ->. apply decode16u_at. Qed.
Lemma decode32u_in l pre v post p :
  l = pre ++ le_encode 4 v ++ post -> p = zlen pre -> ikcp_decode32u l p = Ok (u32 v, p + 4).
Proof. intros ->. apply decode32u_at. Qed.

Ltac field lem pre v :=
  erewrite bind_ok;
  [|eapply (lem _ pre v);
    [rewrite <- !app_assoc; reflexivity
    |repeat rewrite ?zlen_app, ?zlen_le_encode, ?zlen_cons, ?zlen_nil; lia]]; cbv beta iota.

Lemma decode_header_at pre s post p :
  p = zlen pre ->
  decode_header (pre ++ header_bytes s ++ post) (p + 4) (u32 (seg_conv s)) = Ok (header_of s, p + 24).
Proof.
  intros Hp. unfold decode_header, header_bytes.
  field decode8u_in (pre ++ le_encode 4 (seg_conv s)) (seg_cmd s).
  field decode8u_in (pre ++ le_encode 4 (seg_conv s) ++ [u8 (seg_cmd s)]) (seg_frg s).
  let pre3 := constr:(pre ++ le_encode 4 (seg_conv s) ++ [u8 (seg_cmd s)] ++ [u8 (seg_frg s)]) in
  let pre5 := constr:(pre3 ++ le_encode 2 (u16 (seg_wnd s)) ++ le_encode 4 (seg_ts s)) in
  field decode16u_in pre3 (u16 (seg_wnd s));
  field decode32u_in (pre3 ++ le_encode 2 (u16 (seg_wnd s))) (seg_ts s);
  field decode32u_in pre5 (seg_sn s);
  field decode32u_in (pre5 ++ le_encode 4 (seg_sn s)) (seg_una s);
  field decode32u_in (pre5 ++ le_encode 4 (seg_sn s) ++ le_encode 4 (seg_una s)) (seg_len s).
  unfold header_of. rewrite (u16_small (u16 (seg_wnd s))) by apply u16_range. do 2 f_equal. lia.
Qed.

(** ** Decoding any bytes *)

Lemma read_le_ok data p n :
  is_bytes data -> 0 <= p -> 0 <= n -> p + n <= zlen data ->
  exists b, read_at data p n = Ok b /\ 0 <= le_decode b < 256 ^ n.
Proof.
  intros Hb Hp Hn Hle. eexists. split; [by apply read_at_Ok|].
  pose proof (le_decode_range (take (Z.to_nat n) (drop (Z.to_nat p) data))) as Hr.
  rewrite zlen_take in Hr by (rewrite zlen_drop; lia).
  by apply Hr, Forall_take, Forall_drop.
Qed.

Lemma decode8u_ok data p :
  is_bytes data -> 0 <= p -> p + 1 <= zlen data ->
  exists v, ikcp_decode8u data p = Ok (v, p + 1) /\ is_u8 v.
Proof.
  intros Hb Hp Hle. destruct (read_le_ok data p 1) as (b & Hr & Hv); [done|lia..|].
  exists (le_decode b). unfold ikcp_decode8u. by rewrite Hr.
Qed.
Lemma decode16u_ok data p :
  is_bytes data -> 0 <= p -> p + 2 <= zlen data ->
  exists v, ikcp_decode16u data p = Ok (v, p + 2) /\ is_u16 v.
Proof.
  intros Hb Hp Hle. destruct (read_le_ok data p 2) as (b & Hr & Hv); [done|lia..|].
  exists (le_decode b). unfold ikcp_decode16u. by rewrite Hr.
Qed.
Lemma decode32u_ok data p :
  is_bytes data -> 0 <= p -> p + 4 <= zlen data ->
  exists v, ikcp_decode32u data p = Ok (v, p + 4) /\ is_u32 v.
Proof.
  intros Hb Hp Hle. destruct (read_le_ok data p 4) as (b & Hr & Hv); [done|lia..|].
  exists (le_decode b). unfold ikcp_decode32u. by rewrite Hr.
Qed.

Record header_ok (h : header) : Prop := {
  h_cmd_ok : is_u8 (h_cmd h); h_frg_ok : is_u8 (h_frg h); h_wnd_ok : is_u16 (h_wnd h);
  h_ts_ok : is_u32 (h_ts h); h_sn_ok : is_u32 (h_sn h); h_una_ok : is_u32 (h_una h);
  h_len_ok : is_u32 (h_len h) }.

Ltac decode_step lem :=
  match goal with
  | Hb : is_bytes ?data |- context [_ ≫= _] =>
      let v := fresh "v" in let Hv := fresh "Hv" in let E := fresh "E" in
      edestruct (lem data) as (v & E & Hv); [exact Hb| | |erewrite (bind_ok _ _ _ E)]; [lia|lia|]
  end; cbv beta iota.

Lemma decode_header_ok data p cv :
  is_bytes data -> 0 <= p -> p + 24 <= zlen data ->
  exists h, decode_header data (p + 4) cv = Ok (h, p + 24) /\ header_ok h.
Proof.
  intros Hb Hp Hle. unfold decode_header.
  decode_step decode8u_ok. decode_step decode8u_ok. decode_step decode16u_ok.
  decode_step decode32u_ok. decode_step decode32u_ok. decode_step decode32u_ok.
  decode_step decode32u_ok.
  eexists. split; [do 2 f_equal; lia|]. by split.
Qed.

(** ** One segment *)

Lemma input_push_ok m k h data p :
  alloc_all m -> kcp_inv k -> header_ok h -> ackcount k < 2 ^ 28 ->
  0 <= p -> p + h_len h <= zlen data ->
  exists k', input_push m k h data p = Ok k' /\ kcp_inv k' /\ ackcount k' <= ackcount k + 1.
Proof.
  intros Hm Hk Hh Hc Hp Hle. unfold input_push.
  destruct (_ <? 0); [|exists k; split; [done|split; [done|lia]]].
  destruct (ack_push_spec m k (h_sn h) (h_ts h) Hm (inv_ack k Hk) (h_sn_ok h Hh) (h_ts_ok h Hh) Hc)
    as (al & ab & Hpush & Hwf & _).
  rewrite Hpush. cbn [mbind outcome_bind].
  assert (Hk1 : kcp_inv (k <| acklist := al |> <| ackblock := ab |> <| ackcount := ackcount k + 1 |>))
    by (by apply kcp_inv_acklist).
  set (k1 := k <| acklist := al |> <| ackblock := ab |> <| ackcount := ackcount k + 1 |>) in *.
  destruct (_ >=? 0); [|exists k1; split; [done|split; [done|cbn; lia]]].
  unfold ikcp_segment_new. destruct Hm as [_ Ha]. rewrite Ha.
  pose proof (h_len_ok h Hh) as Hlen. unfold is_u32 in Hlen.
  assert (Hpay : exists b, (if h_len h >? 0 then read_at data p (h_len h) else Ok []) = Ok b /\
                           zlen b = h_len h).
  { destruct (Z.gtb_spec (h_len h) 0) as [Hgt|Hle0].
    - eexists. split; [by apply read_at_Ok; split; [lia|]|].
      rewrite zlen_take by (rewrite zlen_drop; lia). done.
    - exists []. split; [done|]. rewrite zlen_nil. lia. }
  destruct Hpay as (b & Hread & Hb). rewrite Hread. cbn [mbind outcome_bind].
  eexists. split; [done|]. rewrite parse_data_frame. split; [|cbn; lia].
  rewrite <- parse_data_frame. apply kcp_inv_data; [done|].
  destruct Hh. split; [|split; [done|split; [done|by symmetry]]]. cbn. mword_unfold; lia.
Qed.

Lemma kcp_inv_rmt_wnd k w : kcp_inv k -> is_u16 w -> kcp_inv (k <| rmt_wnd := w |>).
Proof.
  intros Hk Hw.
  pose proof (kcp_inv_windows k (probe k) w (cwnd k) (incr k) (ssthresh k) Hk Hw
                (cwnd_ok k (inv_wnd k Hk))) as H. by destruct k.
Qed.

Lemma kcp_inv_probe k p : kcp_inv k -> kcp_inv (k <| probe := p |>).
Proof.
  intros Hk. pose proof (inv_wnd k Hk) as Hw.
  pose proof (kcp_inv_windows k p (rmt_wnd k) (cwnd k) (incr k) (ssthresh k) Hk
                (rmt_wnd_ok k Hw) (cwnd_ok k Hw)) as H. by destruct k.
Qed.

Lemma kcp_inv_update_ack A k rtt : kcp_inv k -> kcp_inv (ikcp_update_ack A k rtt).
Proof. intros Hk. rewrite update_ack_frame. by apply kcp_inv_timing. Qed.

Lemma shrink_acks k : ackcount (ikcp_shrink_buf k) = ackcount k.
Proof. unfold ikcp_shrink_buf. by destruct (snd_buf k). Qed.
Lemma una_acks k una : ackcount (ikcp_parse_una k una) = ackcount k.
Proof. unfold ikcp_parse_una. by destruct (una_loop _ _ _). Qed.
Lemma parse_ack_acks k sn : ackcount (ikcp_parse_ack k sn) = ackcount k.
Proof. unfold ikcp_parse_ack. destruct (_ || _); [done|]. by destruct (ack_loop _ _) as [? []]. Qed.

Lemma input_segment_ok A m k ack h data p :
  alloc_all m -> kcp_inv k -> header_ok h -> ackcount k < 2 ^ 28 ->
  (forall sn, ack = Some sn -> is_u32 sn) -> 0 <= p -> p + h_len h <= zlen data ->
  exists k' ack', input_segment A m k ack h data p = Ok (k', ack') /\ kcp_inv k' /\
    ackcount k' <= ackcount k + 1 /\ (forall sn, ack' = Some sn -> is_u32 sn).
Proof.
  intros Hm Hk Hh Hc Hack Hp Hle. unfold input_segment.
  set (k0 := ikcp_shrink_buf (ikcp_parse_una (k <| rmt_wnd := h_wnd h |>) (h_una h))).
  assert (Hk0 : kcp_inv k0) by (apply kcp_inv_una, kcp_inv_rmt_wnd; [done|apply Hh]).
  assert (Hc0 : ackcount k0 = ackcount k) by (subst k0; by rewrite shrink_acks, una_acks).
  clearbody k0. cbv zeta. destruct (h_cmd h =? IKCP_CMD_ACK).
  { assert (Hk1 : kcp_inv (if _itimediff (current k0) (h_ts h) >=? 0 then
                   ikcp_update_ack A k0 (_itimediff (current k0) (h_ts h)) else k0))
      by (destruct (_ >=? 0); [by apply kcp_inv_update_ack|done]).
    eexists _, _. split; [done|]. split; [apply kcp_inv_ack; [done|apply Hh]|]. split.
    - rewrite shrink_acks, parse_ack_acks. destruct (_ >=? 0); [rewrite update_ack_frame; cbn|]; lia.
    - intros sn. pose proof (h_sn_ok h Hh). destruct ack as [mx|]; [destruct (_ >? 0)|]; naive_solver. }
  destruct (h_cmd h =? IKCP_CMD_PUSH).
  { destruct (input_push_ok m k0 h data p) as (k1 & -> & Hk1 & Hc1); [done..|lia|done|done|].
    eexists _, _. split; [done|]. split; [done|]. split; [lia|done]. }
  destruct (h_cmd h =? IKCP_CMD_WASK).
  - eexists _, _. split; [done|]. split; [by apply kcp_inv_probe|]. split; [cbn; lia|done].
  - eexists _, _. split; [done|]. split; [done|]. split; [lia|done].
Qed.

(** ** The loop *)

Lemma long_of_LP64 z : - 2 ^ 63 <= z < 2 ^ 63 -> long_of LP64 z = z.
Proof. intros. cbn. mword. Qed.

Definition exit_ok (r : loop_exit) : Prop :=
  match r with
  | LoopBreak k ack => kcp_inv k /\ forall sn, ack = Some sn -> is_u32 sn
  | LoopReturn k c => kcp_inv k /\ (c = -1 \/ c = -2 \/ c = -3)
  end.

Lemma input_loop_ok m data fuel k ack p size :
  alloc_all m -> is_bytes data -> zlen data < 2 ^ 31 ->
  kcp_inv k -> (forall sn, ack = Some sn -> is_u32 sn) ->
  0 <= p -> 0 <= size -> p + size = zlen data -> size < Z.of_nat fuel -> ackcount k + size < 2 ^ 28 ->
  exists r, input_loop LP64 m fuel k ack data p size = Ok r /\ exit_ok r.
Proof.
  intros Hm Hb Hsz. revert k ack p size.
  induction fuel as [|fuel IH]; intros k ack p size Hk Hack Hp Hs Hps Hf Hc; [lia|].
  cbn [input_loop]. unfold IKCP_OVERHEAD, size_sub.
  destruct (Z.ltb_spec size 24) as [Hlt|Hge]; [by eexists|].
  destruct (decode32u_ok data p) as (cv & Ecv & Hcv); [done|lia|lia|].
  rewrite (bind_ok _ _ _ Ecv). cbv beta iota.
  destruct (cv =? conv k); cbn [negb]; [|eexists; split; [done|split; [done|lia]]].
  destruct (decode_header_ok data p cv) as (h & Eh & Hh); [done|lia|lia|].
  rewrite (bind_ok _ _ _ Eh). cbv beta iota.
  pose proof (h_len_ok h Hh) as Hlen. unfold is_u32 in Hlen.
  rewrite !long_of_LP64 by lia.
  destruct (Z.ltb_spec (size - 24) (h_len h)); [eexists; split; [done|split; [done|lia]]|].
  destruct (valid_cmd (h_cmd h)); cbn [negb]; [|eexists; split; [done|split; [done|lia]]].
  destruct (input_segment_ok LP64 m k ack h data (p + 24)) as (k' & ack' & E & Hk' & Hc' & Hack');
    [done|done|done|lia|done|lia|lia|].
  rewrite (bind_ok _ _ _ E). cbv beta iota. apply IH; try done; lia.
Qed.

Lemma ikcp_input_ok m k data :
  alloc_all m -> kcp_inv k -> is_bytes data -> zlen data < 2 ^ 31 -> ackcount k + zlen data < 2 ^ 28 ->
  exists k' c, ikcp_input LP64 m k (Some data) (zlen data) = Ok (k', c) /\ kcp_inv k' /\
    (c = 0 \/ c = -1 \/ c = -2 \/ c = -3).
Proof.
  intros Hm Hk Hb Hsz Hc. pose proof (zlen_nonneg data). unfold ikcp_input.
  destruct (_ <? IKCP_OVERHEAD); [eexists _, _; split; [done|split; [done|lia]]|].
  destruct (input_loop_ok m data (S (length data)) k None 0 (zlen data)) as ([k' ack|k' c] & -> & Hr);
    try done; try lia; [unfold zlen; lia| |]; cbn [mbind outcome_bind]; destruct Hr as [Hk' Hr].
  - eexists _, _. split; [done|]. split; [|by left]. apply input_cwnd_inv.
    destruct ack as [sn|]; [|done]. by apply kcp_inv_fastack; [|apply Hr].
  - eexists _, _. split; [done|]. split; [done|]. lia.
Qed.

(** ** Main results *)

(** C2: [ikcp_input] survives every datagram (64-bit [long]).  Whatever bytes
    arrive, with working allocation the call returns (it terminates within the
    fuel the length of the datagram gives, reads nothing outside of it and
    dereferences no null pointer), its result is 0, -1, -2 or -3, and the
    invariant of the control block holds afterwards. *)
Theorem ikcp_input_safe m k data :
  alloc_all m -> kcp_inv k -> is_bytes data -> zlen data < 2 ^ 31 -> ackcount k + zlen data < 2 ^ 28 ->
  exists k' c, ikcp_input LP64 m k (Some data) (zlen data) = Ok (k', c) /\ kcp_inv k' /\
    (c = 0 \/ c = -1 \/ c = -2 \/ c = -3).
Proof. intros. by apply ikcp_input_ok. Qed.

Definition kcp_fresh : IKCPCB :=
  mkKcp 7 1400 1376 0 0 0 0 0 0 2 0 0 200 100 32 128 128 0 0 0 100 100 0
    0 0 0 0 0 0 0 0 20 0 [] [] [] [] [] 0 0 4272 0 0 0 0 false false.

Lemma kcp_fresh_inv : kcp_inv kcp_fresh.
Proof.
  split; [split; [split|..]|split; [split|]|split|split|split|split|]; by_decide.
Qed.

(** A push segment of three bytes followed by a header that promises more than
    there is. *)
Definition datagram : list Z :=
  header_bytes (mkSeg 7 81 0 128 5 0 0 3 0 0 0 0 []) ++ [1; 2; 3] ++
  header_bytes (mkSeg 7 81 0 128 5 1 0 9 0 0 0 0 []) ++ [4].

Lemma ikcp_input_safe_witness :
  exists k' c, ikcp_input LP64 mem_ok kcp_fresh (Some datagram) (zlen datagram) = Ok (k', c) /\
    kcp_inv k' /\ (c = 0 \/ c = -1 \/ c = -2 \/ c = -3).
Proof. apply ikcp_input_safe; [exact mem_ok_all|exact kcp_fresh_inv|by_decide..]. Defined.

(** With a 32-bit [long] (64-bit Windows) the length check
    [(long)size < (long)len] compares with a negative number when the top bit of
    [len] is set, and [memcpy] then reads outside of the datagram: one 25-byte
    datagram crashes an idle endpoint.  With a 64-bit [long] the same datagram is
    rejected with -2 and changes nothing. *)
Theorem ikcp_input_llp64_overread :
  exists data, zlen data = 25 /\ is_bytes data /\
    ikcp_input LLP64 mem_ok kcp_fresh (Some data) (zlen data) = Crash OutOfBounds /\
    ikcp_input LP64 mem_ok kcp_fresh (Some data) (zlen data) = Ok (kcp_fresh, -2).
Proof.
  exists (header_bytes (mkSeg 7 81 0 128 0 0 0 4294967295 0 0 0 0 []) ++ [0]).
  split; [by_decide|]. split; [by_decide|]. split; vm_compute; reflexivity.
Qed.
