(* ===== verification/KcpFlush.v ===== *)
(** * KCP flush: datagrams, windows and the clock

    [ikcp_flush] never writes outside of its scratch buffer, hands datagrams of
    at most [mtu] bytes to the callback, and these are exactly the encodings of
    the acknowledgements, probes and data segments it decides to send;
    [ikcp_update] and [ikcp_check] agree on when a flush is due. *)

From S2P Require Import Prelude KcpBase Kcp KcpRecv KcpSend KcpAck KcpInput.

(** ** Segments on the wire *)

Definition seg_bytes (s : IKCPSEG) : list Z := header_bytes s ++ seg_data s.

(** The bytes of one datagram. *)
Definition pack (g : list IKCPSEG) : list Z := concat (seg_bytes <$> g).

Lemma pack_app g h : pack (g ++ h) = pack g ++ pack h.
Proof. unfold pack. by rewrite fmap_app, concat_app. Qed.
Lemma pack_one s : pack [s] = seg_bytes s.
Proof. unfold pack. cbn. by rewrite app_nil_r. Qed.

(** The scratch buffer holds whole segments, at most [mtu] bytes of them, and so
    does every datagram output; together they carry the segments [ss]. *)
Definition datagram_ok (mt : Z) (d : list Z) : Prop := 0 < zlen d <= mt.

Record packs (mt : Z) (w : wire) (ss : list IKCPSEG) : Prop := {
  packs_bound : zlen (w_ptr w) <= mt;
  packs_out : Forall (datagram_ok mt) (w_out w);
  packs_segs : exists groups cur, concat groups ++ cur = ss /\
    w_out w = pack <$> groups /\ w_ptr w = pack cur }.

(** A segment that fits: its header says how much payload there is. *)
Definition fits (mt : Z) (s : IKCPSEG) : Prop :=
  seg_len s = zlen (seg_data s) /\ IKCP_OVERHEAD + seg_len s <= mt.

Lemma zlen_seg_bytes s : zlen (seg_bytes s) = IKCP_OVERHEAD + zlen (seg_data s).
Proof. unfold seg_bytes. by rewrite zlen_app, zlen_header. Qed.

Section wire.
Variable k : IKCPCB.
Hypothesis Hmtu : mtu_ok k.
Hypothesis Hout : output k = true.

Lemma output_all d : ikcp_output k d (zlen d) = Ok (if zlen d =? 0 then [] else [d]).
Proof using Hout.
  unfold ikcp_output. rewrite Hout. cbn [c_assert mbind outcome_bind].
  destruct (zlen d =? 0); [done|]. pose proof (zlen_nonneg d).
  rewrite read_at_prefix by lia. cbn. rewrite take_ge; [done|]. unfold zlen. lia.
Qed.

(** Making room: afterwards [need] more bytes fit under the MTU. *)
Lemma flush_room_ok need w ss :
  packs (mtu k) w ss -> 0 <= need <= mtu k ->
  exists w', flush_room k need w = Ok w' /\ packs (mtu k) w' ss /\ zlen (w_ptr w') + need <= mtu k.
Proof using Hmtu Hout.
  intros [Hb Ho (gs & cur & Hss & Hg & Hc)] Hn. pose proof (mtu_range k Hmtu).
  pose proof (zlen_nonneg (w_ptr w)). unfold flush_room.
  rewrite (i32_small (zlen (w_ptr w))), (i32_small (mtu k)), i32_small by (mword_unfold; lia).
  destruct (Z.gtb_spec (zlen (w_ptr w) + need) (mtu k)) as [Hgt|Hle].
  - rewrite output_all. cbn [mbind outcome_bind]. eexists. split; [done|].
    destruct (Z.eqb_spec (zlen (w_ptr w)) 0) as [Hz|Hz].
    + lia.
    + split; [|cbn [w_ptr]; rewrite zlen_nil; lia]. split; cbn [w_ptr w_out].
      * rewrite zlen_nil. lia.
      * rewrite Forall_app, Forall_singleton. split; [done|]. split; [lia|done].
      * exists (gs ++ [cur]), []. rewrite concat_app, fmap_app. cbn. rewrite !app_nil_r.
        split; [done|]. split; [by rewrite Hg, Hc|done].
  - exists w. split; [done|]. split; [|done]. split; [done|done|]. by exists gs, cur.
Qed.

Lemma flush_write_ok w ptr : zlen ptr <= mtu k -> flush_write k w ptr = Ok (mkWire ptr (w_out w)).
Proof using Hmtu.
  intros Hp. unfold flush_write. pose proof (mtu_range k Hmtu). rewrite (buffer_size k Hmtu).
  unfold IKCP_OVERHEAD. destruct (Z.leb_spec (zlen ptr) ((mtu k + 24) * 3)); [done|lia].
Qed.

Lemma packs_snoc w ss s :
  packs (mtu k) w ss -> zlen (w_ptr w) + zlen (seg_bytes s) <= mtu k ->
  packs (mtu k) (mkWire (w_ptr w ++ seg_bytes s) (w_out w)) (ss ++ [s]).
Proof using Type.
  intros [Hb Ho (gs & cur & Hss & Hg & Hc)] Hle. split; cbn [w_ptr w_out]; [by rewrite zlen_app|done|].
  exists gs, (cur ++ [s]). rewrite app_assoc, Hss, pack_app, pack_one, Hc. done.
Qed.

(** Writing a header without payload (acknowledgements and probes). *)
Lemma flush_header_ok w ss s :
  packs (mtu k) w ss -> seg_data s = [] ->
  exists w', (w ← flush_room k IKCP_OVERHEAD w; flush_write k w (ikcp_encode_seg (w_ptr w) s)) = Ok w' /\
    packs (mtu k) w' (ss ++ [s]).
Proof using Hmtu Hout.
  intros Hw Hd. pose proof (mtu_range k Hmtu).
  destruct (flush_room_ok IKCP_OVERHEAD w ss Hw) as (w1 & -> & Hw1 & Hroom); [unfold IKCP_OVERHEAD; lia|].
  cbn [mbind outcome_bind]. rewrite encode_seg_app.
  assert (Hb : header_bytes s = seg_bytes s) by (unfold seg_bytes; by rewrite Hd, app_nil_r).
  rewrite flush_write_ok by (rewrite zlen_app, zlen_header; lia).
  eexists. split; [done|]. rewrite Hb. apply packs_snoc; [done|].
  rewrite zlen_seg_bytes, Hd, zlen_nil. lia.
Qed.

Lemma flush_data_ok w ss s :
  packs (mtu k) w ss -> fits (mtu k) s ->
  exists w', flush_data k s w = Ok w' /\ packs (mtu k) w' (ss ++ [s]).
Proof using Hmtu Hout.
  intros Hw [Hlen Hfit]. pose proof (mtu_range k Hmtu). pose proof (zlen_nonneg (seg_data s)).
  unfold flush_data, IKCP_OVERHEAD in *. rewrite (i32_u32_small (24 + seg_len s)) by lia.
  destruct (flush_room_ok (24 + seg_len s) w ss Hw) as (w1 & -> & Hw1 & Hroom); [lia|].
  cbn [mbind outcome_bind]. rewrite encode_seg_app.
  pose proof (zlen_header s) as Hzh. unfold IKCP_OVERHEAD in Hzh.
  rewrite flush_write_ok by (rewrite zlen_app; lia). cbn [mbind outcome_bind w_ptr w_out].
  destruct (Z.gtb_spec (seg_len s) 0) as [Hgt|Hle].
  - rewrite read_at_prefix by lia. cbn [mbind outcome_bind].
    rewrite (take_ge (seg_data s)) by (unfold zlen in Hlen; lia).
    rewrite flush_write_ok by (rewrite !zlen_app; lia). cbn [w_out].
    eexists. split; [done|]. rewrite <- app_assoc. apply (packs_snoc w1 ss s Hw1).
    rewrite zlen_seg_bytes. unfold IKCP_OVERHEAD. lia.
  - eexists. split; [done|].
    assert (seg_data s = []) as Hnil
      by (apply length_zero_iff_nil; rewrite Hlen in Hle; unfold zlen in Hle; lia).
    replace (header_bytes s) with (seg_bytes s) by (unfold seg_bytes; by rewrite Hnil, app_nil_r).
    apply (packs_snoc w1 ss s Hw1). rewrite zlen_seg_bytes. unfold IKCP_OVERHEAD. lia.
Qed.
End wire.

(** ** Acknowledgements and probes *)

(** The header [ikcp_flush] sends for one pending acknowledgement. *)
Definition ack_seg (k : IKCPCB) (p : Z * Z) : IKCPSEG :=
  (flush_template k) <| seg_sn := fst p |> <| seg_ts := snd p |>.

(** The running template: everything but number and timestamp is as set up. *)
Definition template_of (k : IKCPCB) (seg : IKCPSEG) : Prop :=
  seg = ack_seg k (seg_sn seg, seg_ts seg).

Lemma flush_acks_ok k n i seg w ss :
  mtu_ok k -> output k = true -> template_of k seg -> packs (mtu k) w ss ->
  (i + n)%nat = length (pending k) ->
  exists w' seg', flush_acks k seg n (Z.of_nat i) w = Ok (w', seg') /\ template_of k seg' /\
    packs (mtu k) w' (ss ++ (ack_seg k <$> drop i (pending k))).
Proof.
  intros Hm Ho. revert i seg w ss. induction n as [|n IH]; intros i seg w ss Ht Hw Hi.
  { exists w, seg. split; [done|]. split; [done|]. rewrite drop_ge by lia. cbn. by rewrite app_nil_r. }
  cbn [flush_acks]. destruct (lookup_lt_is_Some_2 (pending k) i) as [[sn ts] Hp]; [lia|].
  set (seg1 := seg <| seg_sn := sn |> <| seg_ts := ts |>).
  assert (Hseg1 : seg1 = ack_seg k (sn, ts)) by (subst seg1; rewrite Ht; done).
  destruct (flush_header_ok k Hm Ho w ss seg1 Hw) as (w1 & Hrun & Hw1); [by rewrite Hseg1|].
  destruct (flush_room k IKCP_OVERHEAD w) as [w0|c]; [|done]. cbn [mbind outcome_bind] in *.
  rewrite (ack_get_pending k i (sn, ts) Hp). cbn [mbind outcome_bind]. fold seg1. rewrite Hrun.
  cbn [mbind outcome_bind].
  replace (Z.of_nat i + 1) with (Z.of_nat (S i)) by lia.
  destruct (IH (S i) seg1 w1 (ss ++ [seg1])) as (w' & seg' & -> & Ht' & Hw'); [by rewrite Hseg1|done|lia|].
  exists w', seg'. split; [done|]. split; [done|].
  rewrite (drop_S _ _ _ Hp), fmap_cons, cons_middle, app_assoc, <- Hseg1. done.
Qed.

(** The probe commands, as they are sent. *)
Definition probe_seg (cmd : Z) (seg : IKCPSEG) : IKCPSEG := seg <| seg_cmd := cmd |>.

Lemma flush_cmd_ok k bit cmd w ss seg :
  mtu_ok k -> output k = true -> seg_data seg = [] -> packs (mtu k) w ss ->
  exists w', let on := negb (Z.land (probe k) bit =? 0) in
    flush_cmd k bit cmd w seg = Ok (w', if on then probe_seg cmd seg else seg) /\
    packs (mtu k) w' (ss ++ if on then [probe_seg cmd seg] else []).
Proof.
  intros Hm Ho Hd Hw. unfold flush_cmd. destruct (negb _).
  - destruct (flush_header_ok k Hm Ho w ss (probe_seg cmd seg) Hw) as (w1 & Hrun & Hw1); [done|].
    destruct (flush_room k IKCP_OVERHEAD w) as [w0|c]; [|done]. cbn [mbind outcome_bind] in *.
    fold (probe_seg cmd seg). rewrite Hrun. exists w1. done.
  - exists w. cbn zeta. rewrite app_nil_r. done.
Qed.

(** A control segment: a header with the given command and no payload. *)
Record control (k : IKCPCB) (s : IKCPSEG) : Prop := {
  ct_cmd : seg_cmd s = IKCP_CMD_WASK \/ seg_cmd s = IKCP_CMD_WINS;
  ct_rest : (seg_conv s, seg_frg s, seg_len s, seg_data s) = (conv k, 0, 0, []) }.

(** [flush_probe] changes the probe timer and the probe flags only. *)
Lemma flush_probe_frame k :
  flush_probe k = k <| probe_wait := probe_wait (flush_probe k) |>
                    <| ts_probe := ts_probe (flush_probe k) |> <| probe := probe (flush_probe k) |>.
Proof.
  unfold flush_probe. destruct (rmt_wnd k =? 0); [|by destruct k]. destruct (probe_wait k =? 0); [by destruct k|].
  destruct (_ >=? 0); [|by destruct k]. cbv zeta. destruct (probe_wait k <? _); destruct (_ >? _); by destruct k.
Qed.

(** ** Data segments *)

(** What a transmission changes of a segment: neither its number nor its
    content. *)
Record resent_as (s s' : IKCPSEG) : Prop := {
  ra_frag : same_fragment s s';
  ra_sn : seg_sn s' = seg_sn s;
  ra_conv : seg_conv s' = seg_conv s;
  ra_cmd : seg_cmd s' = seg_cmd s }.

Lemma flush_decide_same k resent rtomin s :
  resent_as s (fst (flush_decide k resent rtomin s)) /\
  (seg_xmit s = 0 -> snd (flush_decide k resent rtomin s) = Some FirstSend).
Proof.
  unfold flush_decide. destruct (Z.eqb_spec (seg_xmit s) 0) as [H0|H0]; [done|].
  split; [|done]. destruct (_ >=? 0).
  - by destruct (nodelay k =? 0).
  - by destruct (_ >=? _).
Qed.

(** The result of the data loop: the buffer [l'] the segments [sent] are taken
    from, in order; a segment that was never sent before is among them. *)
Record flushed (l l' sent : list IKCPSEG) : Prop := {
  fl_same : Forall2 resent_as l l';
  fl_sent : sent `sublist_of` l';
  fl_first : Forall2 (fun s s' => seg_xmit s = 0 -> s' ∈ sent) l l' }.

Lemma flush_segments_ok k resent rtomin wnd l w ss xm st change lost :
  mtu_ok k -> output k = true -> Forall (out_ok (mss k)) l -> packs (mtu k) w ss ->
  exists l' w' xm' st' change' lost' sent,
    flush_segments k resent rtomin wnd l w xm st change lost = Ok (l', w', xm', st', change', lost') /\
    packs (mtu k) w' (ss ++ sent) /\ flushed l l' sent.
Proof.
  intros Hm Ho Hl. revert w ss xm st change lost.
  induction Hl as [|s l Hs Hl IH]; intros w ss xm st change lost Hw.
  { eexists [], w, _, _, _, _, []. split; [done|]. rewrite app_nil_r. split; [done|]. split; constructor. }
  cbn [flush_segments]. destruct (flush_decide_same k resent rtomin s) as [Hsame Hfirst].
  destruct (flush_decide k resent rtomin s) as [s1 reason]. cbn [fst snd] in *.
  destruct reason as [why|].
  - set (s2 := s1 <| seg_ts := current k |> <| seg_wnd := wnd |> <| seg_una := rcv_nxt k |>).
    assert (Hs2 : resent_as s s2) by (destruct Hsame as [(?&?&?) ? ? ?]; split; [split; [|split]|..]; done).
    assert (Hfit : fits (mtu k) s2).
    { destruct Hs2 as [(_ & Hlen & Hd) _ _ _]. destruct Hs as [Hz Hms].
      rewrite (mss_mtu k Hm) in Hms. split; [congruence|]. rewrite <- Hlen. lia. }
    destruct (flush_data_ok k Hm Ho w ss s2 Hw Hfit) as (w1 & -> & Hw1). cbn [mbind outcome_bind].
    match goal with |- context [flush_segments k resent rtomin wnd l w1 ?x ?y ?z ?t] =>
      destruct (IH w1 (ss ++ [s2]) x y z t Hw1) as (l' & w' & xm' & st' & ch' & lo' & sent & -> & Hw' & [H1 H2 H3])
    end.
    cbn [mbind outcome_bind]. eexists (s2 :: l'), w', _, _, _, _, (s2 :: sent). split; [done|].
    split; [by rewrite cons_middle, app_assoc|]. split.
    + by constructor.
    + by constructor.
    + constructor; [by left|]. eapply Forall2_impl; [exact H3|]. simpl. intros x y Hxy ?. right. auto.
  - cbn [mbind outcome_bind].
    destruct (IH w ss xm st change lost Hw) as (l' & w' & xm' & st' & ch' & lo' & sent & -> & Hw' & [H1 H2 H3]).
    cbn [mbind outcome_bind]. eexists (s1 :: l'), w', _, _, _, _, sent. split; [done|].
    split; [done|]. split; [by constructor|by constructor|].
    constructor; [|done]. intros H0. specialize (Hfirst H0). done.
Qed.

(** ** The invariant through a flush *)

(** Fields no part of the invariant mentions. *)
Lemma kcp_inv_misc k pw tp pr xm st cu up tf :
  kcp_inv k ->
  kcp_inv (k <| probe_wait := pw |> <| ts_probe := tp |> <| probe := pr |> <| xmit := xm |> <| state := st |>
             <| current := cu |> <| updated := up |> <| ts_flush := tf |>).
Proof.
  intros [Hr Hs Ha Hm Hw Hq Hb]. split.
  - by apply (rcv_inv_frame k).
  - by apply (snd_wf_frame k).
  - by apply (ack_wf_frame k).
  - reframe Hm.
  - reframe Hw.
  - reframe Hq.
  - done.
Qed.

Lemma kcp_inv_clear k : kcp_inv k -> kcp_inv (k <| ackcount := 0 |>).
Proof.
  intros Hk. pose proof (inv_ack k Hk) as [H1 H2 H3 H4].
  pose proof (kcp_inv_acklist k (acklist k) (ackblock k) 0 Hk) as H. cbn zeta in H.
  replace (k <| ackcount := 0 |>) with
    (k <| acklist := acklist k |> <| ackblock := ackblock k |> <| ackcount := 0 |>) by (by destruct k).
  apply H. split; cbn; [lia|done|done|constructor].
Qed.

Definition snd_part (k k' : IKCPCB) : IKCPCB :=
  k <| snd_queue := snd_queue k' |> <| snd_buf := snd_buf k' |> <| nsnd_que := nsnd_que k' |>
    <| nsnd_buf := nsnd_buf k' |> <| snd_nxt := snd_nxt k' |>.

Lemma flush_move_frame k win wnd q : flush_move k win wnd q = snd_part k (flush_move k win wnd q).
Proof.
  revert k. induction q as [|s q IH]; intros k; cbn [flush_move]; [by destruct k|].
  destruct (_ <? 0); [|by destruct k]. rewrite IH at 1. by destruct k.
Qed.

Lemma same_fragment_out ms q new :
  Forall2 same_fragment q new -> Forall (out_ok ms) q -> Forall (out_ok ms) new.
Proof.
  induction 1 as [|x y q new (_ & Hl & Hd) _ IH]; [done|].
  intros [[Hx1 Hx2] Hq]%Forall_cons. constructor; [|by apply IH].
  split; congruence.
Qed.

Lemma kcp_inv_move k win wnd :
  kcp_inv k -> 0 <= win < 2 ^ 16 ->
  let k' := flush_move k win wnd (snd_queue k) in
  kcp_inv k' /\ exists q new, launched_all k k' win q new.
Proof.
  intros Hk Hwin k'. destruct (flush_move_spec k win wnd (inv_snd k Hk) Hwin) as (Hs' & q & new & Hla).
  fold k' in Hs', Hla. split; [|by exists q, new].
  pose proof (flush_move_frame k win wnd (snd_queue k)) as Hf. fold k' in Hf.
  destruct Hk as [Hr Hs Ha Hm Hw [Hq1 Hq2 Hq3] Hb]. destruct Hla as [L1 L2 L3 L4 L5 L6 Ln L7 L8 L9].
  rewrite L1, Forall_app in Hq3. destruct Hq3 as [Hq3 Hq4].
  assert (Hms : mss k' = mss k) by (rewrite Hf; done).
  split.
  - rewrite Hf. by apply (rcv_inv_frame k).
  - done.
  - rewrite Hf. by apply (ack_wf_frame k).
  - rewrite Hf. reframe Hm.
  - rewrite Hf. reframe Hw.
  - split; [by apply L6| |by rewrite Hms].
    rewrite L6 by done. rewrite Hq1, L1, zlen_app in Hq2. pose proof (zlen_nonneg q). lia.
  - rewrite Hms, L2, Forall_app. split; [done|]. by eapply same_fragment_out.
Qed.

Lemma resent_sns l l' : Forall2 resent_as l l' -> seg_sn <$> l' = seg_sn <$> l.
Proof. induction 1 as [|x y l l' [] _ IH]; [done|]. csimpl. congruence. Qed.

Lemma resent_out ms l l' : Forall2 resent_as l l' -> Forall (out_ok ms) l -> Forall (out_ok ms) l'.
Proof. intros H. apply same_fragment_out. eapply Forall2_impl; [exact H|]. by intros x y []. Qed.

Lemma kcp_inv_resent k l :
  kcp_inv k -> Forall2 resent_as (snd_buf k) l -> kcp_inv (k <| snd_buf := l |>).
Proof.
  intros Hk Hl. apply (kcp_inv_snd k _ (snd_una k) (snd_nxt k) (nsnd_buf k) l);
    [done|by destruct k| |].
  - apply snd_wf_same_sns; [apply Hk|]. by apply resent_sns.
  - eapply resent_out; [done|apply Hk].
Qed.

Lemma flush_cwnd_frame k resent win change lost :
  let k' := flush_cwnd k resent win change lost in
  k' = k <| cwnd := cwnd k' |> <| incr := incr k' |> <| ssthresh := ssthresh k' |> /\
  1 <= cwnd k'.
Proof.
  intros k'. assert (Hu : forall z, 0 <= u32 z) by (intros z; apply u32_range).
  subst k'. unfold flush_cwnd. cbv zeta.
  destruct (negb (change =? 0)); destruct (negb (lost =? 0));
    repeat match goal with |- context [if ?b then _ else _] =>
      lazymatch b with context [if _ then _ else _] => fail | _ => destruct b eqn:? end end;
    cbn in *; (split; [by destruct k|cbn; lia]).
Qed.

Lemma kcp_inv_cwnd k resent win change lost : kcp_inv k -> kcp_inv (flush_cwnd k resent win change lost).
Proof.
  intros Hk. destruct (flush_cwnd_frame k resent win change lost) as [Hf Hc]. cbn zeta in *.
  set (k' := flush_cwnd k resent win change lost) in *. clearbody k'.
  pose proof (inv_wnd k Hk) as Hw.
  pose proof (kcp_inv_windows k (probe k) (rmt_wnd k) (cwnd k') (incr k') (ssthresh k') Hk
                (rmt_wnd_ok k Hw) ltac:(lia)) as H.
  rewrite Hf. by destruct k.
Qed.

Lemma flush_window_range k : wnd_ok k -> 0 <= flush_window k < 2 ^ 16.
Proof.
  intros []. unfold flush_window. destruct (nocwnd k =? 0); rewrite !imin_spec; lia.
Qed.

Lemma flush_window_bound k :
  flush_window k <= rmt_wnd k /\ flush_window k <= snd_wnd k /\
  (nocwnd k = 0 -> flush_window k <= cwnd k).
Proof.
  unfold flush_window. destruct (Z.eqb_spec (nocwnd k) 0); rewrite !imin_spec; lia.
Qed.

(** ** The whole flush *)

(** What one flush does.  [groups] are the datagrams as lists of segments:
    first the pending acknowledgements, then the probes, then the data segments
    [sent], which are taken from the new send buffer; [q] is the part of the
    send queue that entered the window. *)
Definition pushed (k : IKCPCB) (s : IKCPSEG) : Prop :=
  seg_cmd s = IKCP_CMD_PUSH /\ seg_conv s = conv k.

(** What a flush does not touch: the configuration and the receive side. *)
Definition untouched (k : IKCPCB) :=
  (conv k, output k, mtu k, mss k, stream k, (rcv_nxt k, rcv_wnd k, nrcv_buf k, nrcv_que k),
   rcv_buf k, rcv_queue k).

Record flush_effect (k k' : IKCPCB) (outs : list (list Z)) : Prop := {
  fe_datagrams : Forall (datagram_ok (mtu k)) outs;
  fe_content : exists groups probes sent,
    outs = pack <$> groups /\
    concat groups = (ack_seg k <$> pending k) ++ probes ++ sent /\
    Forall (control k) probes /\
    sent `sublist_of` snd_buf k' /\
    Forall (fun s => s ∈ sent) (drop (length (snd_buf k)) (snd_buf k'));
  fe_acks : pending k' = [];
  fe_queue : exists q, snd_queue k = q ++ snd_queue k' /\
    Forall2 same_fragment (snd_buf k ++ q) (snd_buf k') /\
    seg_sn <$> snd_buf k' = (seg_sn <$> snd_buf k) ++ sn_seq (snd_nxt k) (length q) /\
    snd_nxt k' = u32 (snd_nxt k + zlen q) /\ inflight k' = inflight k + zlen q /\
    (q = [] \/ inflight k' <= flush_window k) /\
    (snd_queue k' = [] \/ flush_window k <= inflight k');
  fe_cmds : Forall (pushed k) (snd_buf k) -> Forall (pushed k) (snd_buf k');
  fe_frame : untouched k' = untouched k }.

Lemma resent_fragments l0 l l' :
  Forall2 same_fragment l0 l -> Forall2 resent_as l l' -> Forall2 same_fragment l0 l'.
Proof.
  intros Hf. revert l'. induction Hf as [|x y l0 l (?&?&?) Hf IH]; intros l' Hr.
  { apply Forall2_nil_inv_l in Hr as ->. constructor. }
  apply Forall2_cons_inv_l in Hr as (z & l1 & [(?&?&?) _ _ _] & Hr & ->).
  constructor; [|by apply IH]. split; [congruence|]. split; congruence.
Qed.

Lemma first_sent (l l' sent : list IKCPSEG) n :
  Forall2 (fun s s' => seg_xmit s = 0 -> s' ∈ sent) l l' ->
  Forall (fun s => seg_xmit s = 0) (drop n l) -> Forall (fun s => s ∈ sent) (drop n l').
Proof.
  intros H Hd. apply (Forall2_drop _ _ _ n) in H.
  induction H as [|x y a b Hxy _ IH]; [constructor|]. apply Forall_cons in Hd as [? ?]. constructor; auto.
Qed.

Lemma resent_pushed k l l' : Forall2 resent_as l l' -> Forall (pushed k) l -> Forall (pushed k) l'.
Proof.
  induction 1 as [|x y l l' [_ _ Hc Hm] _ IH]; [done|]. intros [[? ?] Hl]%Forall_cons.
  constructor; [split; congruence|by apply IH].
Qed.

(** The final output of what is left in the buffer. *)
Lemma flush_last k w ss :
  mtu_ok k -> output k = true -> packs (mtu k) w ss ->
  exists last groups,
    (if i32 (zlen (w_ptr w)) >? 0 then ikcp_output k (w_ptr w) (i32 (zlen (w_ptr w))) else Ok []) = Ok last /\
    w_out w ++ last = pack <$> groups /\ concat groups = ss /\ Forall (datagram_ok (mtu k)) (w_out w ++ last).
Proof.
  intros Hm Ho [Hb Hok (gs & cur & Hss & Hg & Hc)]. pose proof (mtu_range k Hm).
  pose proof (zlen_nonneg (w_ptr w)).
  rewrite i32_small by (mword_unfold; lia). destruct (Z.gtb_spec (zlen (w_ptr w)) 0) as [Hgt|Hle].
  - rewrite output_all by done. destruct (Z.eqb_spec (zlen (w_ptr w)) 0); [lia|].
    exists [w_ptr w], (gs ++ [cur]). split; [done|]. rewrite fmap_app, concat_app, Hg, Hc. cbn.
    rewrite app_nil_r. split; [done|]. split; [done|].
    rewrite <- Hg, <- Hc, Forall_app, Forall_singleton. split; [done|]. split; [lia|done].
  - exists [], gs. rewrite !app_nil_r. split; [done|]. split; [done|]. split; [|done].
    destruct cur as [|s cur]; [by rewrite <- Hss, app_nil_r|]. exfalso.
    rewrite Hc in Hle. change (s :: cur) with ([s] ++ cur) in Hle.
    rewrite pack_app, pack_one, zlen_app, zlen_seg_bytes in Hle.
    pose proof (zlen_nonneg (seg_data s)). pose proof (zlen_nonneg (pack cur)). unfold IKCP_OVERHEAD in Hle. lia.
Qed.

(** The state after the acknowledgements and probes were written. *)
Definition flush_mid (k : IKCPCB) : IKCPCB := (flush_probe (k <| ackcount := 0 |>)) <| probe := 0 |>.

Lemma flush_mid_frame k :
  flush_mid k = k <| ackcount := 0 |> <| probe_wait := probe_wait (flush_mid k) |>
                  <| ts_probe := ts_probe (flush_mid k) |> <| probe := 0 |>.
Proof.
  unfold flush_mid. pose proof (flush_probe_frame (k <| ackcount := 0 |>)) as H.
  set (k1 := flush_probe _) in *. clearbody k1. rewrite H. reflexivity.
Qed.

Lemma kcp_inv_mid k : kcp_inv k -> kcp_inv (flush_mid k).
Proof.
  intros Hk%kcp_inv_clear. rewrite flush_mid_frame. set (km := flush_mid k). clearbody km.
  pose proof (kcp_inv_misc _ (probe_wait km) (ts_probe km) 0 (xmit k) (state k)
                (current k) (updated k) (ts_flush k) Hk) as H. by destruct k.
Qed.

(** Acknowledgements and probes. *)
Lemma flush_control_ok k :
  kcp_inv k -> output k = true ->
  exists w seg probes,
    ('(w, seg) ← flush_acks k (flush_template k) (Z.to_nat (i32 (ackcount k))) 0 (mkWire [] []);
     let k := flush_probe (k <| ackcount := 0 |>) in
     '(w, seg) ← flush_cmd k IKCP_ASK_SEND IKCP_CMD_WASK w seg;
     flush_cmd k IKCP_ASK_TELL IKCP_CMD_WINS w seg) = Ok (w, seg) /\
    packs (mtu k) w ((ack_seg k <$> pending k) ++ probes) /\
    Forall (control k) probes.
Proof.
  intros Hk Ho. pose proof (inv_ack k Hk) as [Ha1 Ha2 Ha3 Ha4]. pose proof (inv_mtu k Hk) as Hm.
  assert (Hlen : length (pending k) = Z.to_nat (ackcount k)).
  { unfold pending. rewrite length_take, length_zlen. lia. }
  rewrite i32_small by (mword_unfold; lia). change 0 with (Z.of_nat 0) at 2.
  destruct (flush_acks_ok k (Z.to_nat (ackcount k)) 0 (flush_template k) (mkWire [] []) [])
    as (w & seg & -> & Ht & Hw); [done|done|done| |lia|].
  { pose proof (mtu_range k Hm). split; [cbn; rewrite zlen_nil; lia|constructor|]. by exists [], []. }
  cbn [mbind outcome_bind]. rewrite drop_0 in Hw. cbn [app] in Hw.
  set (k1 := flush_probe (k <| ackcount := 0 |>)).
  assert (Hf : mtu_ok k1 /\ output k1 = true /\ mtu k1 = mtu k).
  { subst k1. rewrite flush_probe_frame. split; [|done]. reframe Hm. }
  destruct Hf as (Hm1 & Ho1 & Heq). rewrite <- Heq in *.
  assert (Hrest : (seg_conv seg, seg_frg seg, seg_len seg, seg_data seg) = (conv k, 0, 0, []))
    by (by rewrite Ht).
  assert (Hd : seg_data seg = []) by congruence.
  destruct (flush_cmd_ok k1 IKCP_ASK_SEND IKCP_CMD_WASK w (ack_seg k <$> pending k) seg Hm1 Ho1)
    as (w1 & Hr1 & Hw1); [done|done|].
  cbn zeta in Hr1, Hw1. rewrite Hr1. cbn [mbind outcome_bind].
  match type of Hr1 with _ = Ok (_, ?sg) => set (seg1 := sg) in *; set (p1 := if negb _ then [probe_seg _ _] else []) in Hw1 end.
  assert (Hd1 : seg_data seg1 = []) by (subst seg1; destruct (negb _); done).
  destruct (flush_cmd_ok k1 IKCP_ASK_TELL IKCP_CMD_WINS w1 _ seg1 Hm1 Ho1 Hd1 Hw1) as (w2 & Hr2 & Hw2).
  cbn zeta in Hr2, Hw2. rewrite Hr2.
  match type of Hr2 with _ = Ok (_, ?sg) => set (seg2 := sg) in *; set (p2 := if negb _ then [probe_seg _ _] else []) in Hw2 end.
  exists w2, seg2, (p1 ++ p2). split; [done|]. split; [by rewrite app_assoc|].
  apply Forall_app. subst p1 p2. split.
  - case (negb (Z.land (probe k1) IKCP_ASK_SEND =? 0)); [|constructor]. apply Forall_singleton.
    split; [by left|]. exact Hrest.
  - case (negb (Z.land (probe k1) IKCP_ASK_TELL =? 0)); [|constructor]. apply Forall_singleton.
    split; [by right|]. subst seg1. by case (negb (Z.land (probe k1) IKCP_ASK_SEND =? 0)).
Qed.

Lemma flush_cwnd_snd k resent win change lost :
  let k' := flush_cwnd k resent win change lost in
  snd_buf k' = snd_buf k /\ snd_queue k' = snd_queue k /\ inflight k' = inflight k /\
  pending k' = pending k /\ untouched k' = untouched k /\ snd_nxt k' = snd_nxt k.
Proof.
  intros k'. destruct (flush_cwnd_frame k resent win change lost) as [Hf _]. fold k' in Hf.
  clearbody k'. rewrite Hf. done.
Qed.

Lemma flush_unfold k :
  updated k <> 0 ->
  ikcp_flush k =
    '(w, seg) ←
      ('(w, seg) ← flush_acks k (flush_template k) (Z.to_nat (i32 (ackcount k))) 0 (mkWire [] []);
       let k := flush_probe (k <| ackcount := 0 |>) in
       '(w, seg) ← flush_cmd k IKCP_ASK_SEND IKCP_CMD_WASK w seg;
       flush_cmd k IKCP_ASK_TELL IKCP_CMD_WINS w seg);
    let k := flush_mid k in
    let win := flush_window k in
    let k := flush_move k win (seg_wnd seg) (snd_queue k) in
    let resent := if fastresend k >? 0 then u32 (fastresend k) else 4294967295 in
    let rtomin := if nodelay k =? 0 then u32 (Z.shiftr (rx_rto k) 3) else 0 in
    '(l, w, xm, st, change, lost) ←
      flush_segments k resent rtomin (seg_wnd seg) (snd_buf k) w (xmit k) (state k) 0 0;
    let k := k <| snd_buf := l |> <| xmit := xm |> <| state := st |> in
    last ← (let size := i32 (zlen (w_ptr w)) in
            if size >? 0 then ikcp_output k (w_ptr w) size else Ok []);
    Ok (flush_cwnd k resent win change lost, w_out w ++ last).
Proof.
  intros Hu. unfold ikcp_flush, flush_mid. destruct (Z.eqb_spec (updated k) 0); [done|].
  destruct (flush_acks _ _ _ _ _) as [[w1 s1]|]; [|done]. cbn [mbind outcome_bind].
  destruct (flush_cmd _ IKCP_ASK_SEND _ _ _) as [[w2 s2]|]; [|done]. cbn [mbind outcome_bind].
  destruct (flush_cmd _ IKCP_ASK_TELL _ _ _) as [[w3 s3]|]; done.
Qed.

Lemma ikcp_flush_ok k :
  kcp_inv k -> output k = true -> updated k <> 0 ->
  exists k' outs, ikcp_flush k = Ok (k', outs) /\ kcp_inv k' /\ flush_effect k k' outs.
Proof.
  intros Hk Ho Hu. rewrite (flush_unfold k Hu).
  destruct (flush_control_ok k Hk Ho) as (w & seg & probes & -> & Hw & Hpr).
  cbn [mbind outcome_bind]. cbv zeta.
  pose proof (flush_mid_frame k) as Hfm. pose proof (kcp_inv_mid k Hk) as Hkm.
  set (km := flush_mid k) in *. clearbody km.
  assert (Hwin : flush_window km = flush_window k) by (rewrite Hfm; done). rewrite Hwin.
  destruct (kcp_inv_move km (flush_window k) (seg_wnd seg) Hkm) as (Hk2 & q & new & Hla);
    [apply flush_window_range, Hk|].
  pose proof (flush_move_frame km (flush_window k) (seg_wnd seg) (snd_queue km)) as Hf2.
  set (k2 := flush_move km (flush_window k) (seg_wnd seg) (snd_queue km)) in *. clearbody k2.
  assert (Hmt : mtu k2 = mtu k) by (rewrite Hf2, Hfm; done).
  assert (Ho2 : output k2 = true) by (rewrite Hf2, Hfm; done).
  rewrite <- Hmt in Hw.
  match goal with |- context [flush_segments k2 ?rs ?rt ?wn ?l w ?xm ?st 0 0] =>
    destruct (flush_segments_ok k2 rs rt wn l w _ xm st 0 0 (inv_mtu _ Hk2) Ho2 (inv_buf _ Hk2) Hw)
      as (l' & w' & xm' & st' & ch' & lo' & sent & -> & Hw' & [Fs Fsub Ffirst]) end.
  cbn [mbind outcome_bind].
  set (k3 := k2 <| snd_buf := l' |> <| xmit := xm' |> <| state := st' |>).
  assert (Hk3 : kcp_inv k3).
  { pose proof (kcp_inv_misc _ (probe_wait k2) (ts_probe k2) (probe k2) xm' st' (current k2) (updated k2)
                  (ts_flush k2) (kcp_inv_resent k2 l' Hk2 Fs)) as H. by destruct k2. }
  destruct (flush_last k3 w' _ (inv_mtu _ Hk3) Ho2 Hw') as (lst & groups & -> & Hgr & Hcat & Hdg).
  cbn [mbind outcome_bind]. eexists _, _. split; [done|]. split; [by apply kcp_inv_cwnd|].
  match goal with |- flush_effect _ (flush_cwnd k3 ?rs ?win ?c ?l) _ =>
    destruct (flush_cwnd_snd k3 rs win c l) as (Eb & Eq & Ei & Ep & Eu & En) end.
  change (snd_nxt k3) with (snd_nxt k2) in En.
  change (untouched k3) with (untouched k2) in Eu.
  rewrite Hfm in Hla. destruct Hla as [L1 L2 L3 L4 L5 L6 Ln L7 L8 L9]. cbn in L1, L2, L4, Ln, L7.
  change (inflight k3) with (inflight k2) in Ei. change (snd_queue k3) with (snd_queue k2) in Eq.
  change (snd_buf k3) with l' in Eb.
  split.
  - rewrite <- Hmt. exact Hdg.
  - exists groups, probes, sent. split; [done|]. split; [by rewrite Hcat, app_assoc|]. split; [done|].
    rewrite Eb. split; [done|]. eapply first_sent; [exact Ffirst|].
    rewrite L2, drop_app_length. eapply Forall_impl; [exact L5|]. by intros s [].
  - rewrite Ep. unfold pending, k3. cbn. rewrite Hf2, Hfm. done.
  - exists q. rewrite Eb, Eq, Ei, En. split; [exact L1|]. split.
    { eapply resent_fragments; [|exact Fs]. rewrite L2. apply Forall2_app; [|done].
      apply Forall_Forall2_diag, Forall_true. done. }
    split; [by rewrite (resent_sns _ _ Fs), L2, fmap_app, L4|]. done.
  - intros Hp. rewrite Eb. eapply resent_pushed; [exact Fs|]. rewrite L2, Forall_app. split; [done|].
    eapply Forall_impl; [exact L5|]. by intros s (_ & ? & ?).
  - rewrite Eu, Hf2, Hfm. done.
Qed.

(** ** The clock *)

Lemma check_loop_spec cur l t :
  is_i32 t ->
  match check_loop cur l t with
  | None => Exists (fun s => _itimediff (seg_resendts s) cur <= 0) l
  | Some m => m <= t /\ Forall (fun s => 0 < _itimediff (seg_resendts s) cur /\
                                         m <= _itimediff (seg_resendts s) cur) l /\
              (m = t \/ Exists (fun s => m = _itimediff (seg_resendts s) cur) l)
  end.
Proof.
  revert t. induction l as [|s l IH]; intros t Ht; cbn [check_loop].
  { split; [lia|]. split; [constructor|by left]. }
  destruct (Z.leb_spec (_itimediff (seg_resendts s) cur) 0) as [Hd|Hd]; [by constructor|].
  assert (Hmin : (if _itimediff (seg_resendts s) cur <? t then _itimediff (seg_resendts s) cur else t) =
                 Z.min (_itimediff (seg_resendts s) cur) t)
    by (destruct (Z.ltb_spec (_itimediff (seg_resendts s) cur) t); lia).
  rewrite Hmin. pose proof (itimediff_range (seg_resendts s) cur) as Hr.
  specialize (IH (Z.min (_itimediff (seg_resendts s) cur) t)).
  destruct (check_loop _ _ _) as [m|]; [|by constructor; apply IH; mword_unfold; lia].
  destruct IH as (H1 & H2 & H3); [mword_unfold; lia|]. split; [lia|]. split.
  - constructor; [lia|done].
  - destruct H3 as [H3|H3]; [|by right; right].
    destruct (Z.min_spec (_itimediff (seg_resendts s) cur) t) as [[? Hm]|[? Hm]]; [right; left; lia|left; lia].
Qed.

(** Between [cur] and [cur + d], a moment [e] after [cur]. *)
Lemma itimediff_later a cur e :
  is_u32 cur -> 0 <= e -> 0 <= _itimediff a cur - e -> _itimediff (u32 (cur + e)) a = e - _itimediff a cur.
Proof. unfold _itimediff. intros. mword. Qed.

(** [ikcp_update] before [ts_flush] only records the time. *)
Lemma ikcp_update_early k cur :
  updated k <> 0 -> -10000 <= _itimediff cur (ts_flush k) < 0 ->
  ikcp_update k cur = Ok (k <| current := cur |>, []).
Proof.
  intros Hu Hd. unfold ikcp_update.
  change (updated (k <| current := cur |>)) with (updated k).
  destruct (Z.eqb_spec (updated k) 0); [done|].
  change (ts_flush (k <| current := cur |>)) with (ts_flush k).
  change (current (k <| current := cur |>)) with cur.
  destruct (Z.geb_spec (_itimediff cur (ts_flush k)) 10000); [lia|].
  destruct (Z.ltb_spec (_itimediff cur (ts_flush k)) (-10000)); [lia|]. cbn [orb].
  destruct (Z.geb_spec (_itimediff cur (ts_flush k)) 0); [lia|done].
Qed.

(** What [ikcp_check] computes when it does not answer "now". *)
Lemma ikcp_check_later k cur :
  updated k <> 0 -> is_u32 cur -> 0 < interval k <= 5000 ->
  let d := _itimediff (ikcp_check k cur) cur in
  0 <= d <= interval k /\
  (0 < d -> d <= _itimediff (ts_flush k) cur <= 10000 /\
            Forall (fun s => d <= _itimediff (seg_resendts s) cur) (snd_buf k)).
Proof.
  intros Hu Hc Hi d. subst d. unfold ikcp_check. destruct (Z.eqb_spec (updated k) 0); [done|].
  assert (Hnow : 0 <= _itimediff cur cur <= interval k /\
    (0 < _itimediff cur cur -> _itimediff cur cur <= _itimediff (ts_flush k) cur <= 10000 /\
       Forall (fun s => _itimediff cur cur <= _itimediff (seg_resendts s) cur) (snd_buf k))).
  { rewrite itimediff_refl. split; [lia|]. lia. }
  assert (Hge : (_itimediff cur cur >=? 0) = true) by (by rewrite itimediff_refl).
  destruct (Z.geb_spec (_itimediff cur (ts_flush k)) 10000) as [H1|H1]; cbn [orb];
    [rewrite Hge; exact Hnow|].
  destruct (Z.ltb_spec (_itimediff cur (ts_flush k)) (-10000)) as [H2|H2];
    [rewrite Hge; exact Hnow|].
  destruct (Z.geb_spec (_itimediff cur (ts_flush k)) 0) as [H3|H3]; [done|].
  assert (Hneg : _itimediff (ts_flush k) cur = - _itimediff cur (ts_flush k))
    by (unfold _itimediff in *; mword).
  pose proof (check_loop_spec cur (snd_buf k) 2147483647 ltac:(by_decide)) as Hl.
  destruct (check_loop _ _ _) as [m|]; [|done]. destruct Hl as (Hm1 & Hm2 & Hm3).
  assert (Hmpos : 0 < m).
  { destruct Hm3 as [->|Hm3]; [lia|]. rewrite Exists_exists in Hm3. destruct Hm3 as (s & Hs & ->).
    rewrite Forall_forall in Hm2. apply Hm2 in Hs. lia. }
  set (x := if m <? _itimediff (ts_flush k) cur then m else _itimediff (ts_flush k) cur).
  assert (Hx : x = Z.min m (_itimediff (ts_flush k) cur))
    by (subst x; destruct (Z.ltb_spec m (_itimediff (ts_flush k) cur)); lia).
  rewrite (u32_small x) by (mword_unfold; lia).
  set (y := if x >=? interval k then interval k else x).
  assert (Hy : y = Z.min x (interval k)) by (subst y; destruct (Z.geb_spec x (interval k)); lia).
  assert (Hd : _itimediff (u32 (cur + y)) cur = y) by (clearbody y; unfold _itimediff; mword).
  rewrite Hd. split; [lia|]. intros _. split; [lia|].
  eapply Forall_impl; [exact Hm2|]. simpl. lia.
Qed.

(** [ikcp_update] records the time, and flushes when it is due. *)
Lemma ikcp_update_cases k cur :
  exists k1, k1 = k <| current := cur |> <| updated := updated k1 |> <| ts_flush := ts_flush k1 |> /\
    updated k1 <> 0 /\ (ikcp_update k cur = ikcp_flush k1 \/ ikcp_update k cur = Ok (k1, [])).
Proof.
  assert (Hup : exists up tf, (if updated (k <| current := cur |>) =? 0
      then k <| current := cur |> <| updated := 1 |> <| ts_flush := current (k <| current := cur |>) |>
      else k <| current := cur |>) = k <| current := cur |> <| updated := up |> <| ts_flush := tf |> /\ up <> 0).
  { cbn. destruct (Z.eqb_spec (updated k) 0).
    - exists 1, cur. split; [by destruct k|done].
    - exists (updated k), (ts_flush k). split; [by destruct k|done]. }
  destruct Hup as (up & tf & Hk1 & Hne). unfold ikcp_update. rewrite Hk1. cbn.
  destruct (_ || _); cbn.
  - destruct (_itimediff cur (u32 (cur + interval k)) >=? 0);
      (eexists; split; [|split; [|left; reflexivity]]; done).
  - destruct (_itimediff cur tf >=? 0); cbn.
    + destruct (_itimediff cur (u32 (tf + interval k)) >=? 0);
        (eexists; split; [|split; [|left; reflexivity]]; done).
    + eexists. split; [|split; [|right; reflexivity]]; done.
Qed.

Lemma kcp_inv_clock k cur up tf :
  kcp_inv k -> kcp_inv (k <| current := cur |> <| updated := up |> <| ts_flush := tf |>).
Proof.
  intros Hk.
  pose proof (kcp_inv_misc k (probe_wait k) (ts_probe k) (probe k) (xmit k) (state k) cur up tf Hk) as H.
  by destruct k.
Qed.

Lemma ikcp_update_ok k cur :
  kcp_inv k -> output k = true ->
  exists k' outs, ikcp_update k cur = Ok (k', outs) /\ kcp_inv k' /\ Forall (datagram_ok (mtu k)) outs.
Proof.
  intros Hk Ho. destruct (ikcp_update_cases k cur) as (k1 & Hk1 & Hu & Hcase).
  assert (Hi : kcp_inv k1) by (rewrite Hk1; by apply kcp_inv_clock).
  destruct Hcase as [->| ->].
  - destruct (ikcp_flush_ok k1) as (k' & outs & H1 & H2 & []); [done|by rewrite Hk1|done|].
    exists k', outs. split; [done|]. split; [done|]. by rewrite Hk1 in fe_datagrams0.
  - exists k1, []. split; [done|]. split; [done|constructor].
Qed.

(** ** Main results *)

(** C3: one flush.  On a control block that satisfies the invariant and has an
    output callback, [ikcp_flush] returns without writing outside of its buffer,
    keeps the invariant, and: every datagram is non-empty and at most [mtu] bytes
    long; together the datagrams are the encodings of all pending
    acknowledgements, the probes and the segments sent, whole segments each; the
    segments sent are segments of the new send buffer and include every segment
    that just entered it; the acknowledgement list is empty afterwards; queued
    segments enter the buffer in order, with consecutive numbers, without loss of
    a byte, only as far as the window allows, and as far as it allows. *)
Theorem ikcp_flush_correct k :
  kcp_inv k -> output k = true -> updated k <> 0 ->
  exists k' outs, ikcp_flush k = Ok (k', outs) /\ kcp_inv k' /\ flush_effect k k' outs.
Proof. intros. by apply ikcp_flush_ok. Qed.

(** Seventy bytes queued in three segments behind the smallest MTU, one
    acknowledgement pending. *)
Definition kcp_out : IKCPCB :=
  kcp_fresh <| mtu := 50 |> <| mss := 26 |> <| buffer := 222 |> <| updated := 1 |> <| output := true |>
    <| nocwnd := 1 |> <| acklist := replicate 8 (9, 3) |> <| ackcount := 1 |> <| ackblock := 8 |>
    <| snd_queue := [new_seg 2 (replicate 26 65); new_seg 1 (replicate 26 66); new_seg 0 (replicate 18 67)] |>
    <| nsnd_que := 3 |>.

Lemma kcp_out_inv : kcp_inv kcp_out.
Proof.
  split; [split; [split|..]|split; [split|]|split|split|split|split|]; by_decide.
Qed.

Lemma ikcp_flush_correct_witness :
  exists k' outs, ikcp_flush kcp_out = Ok (k', outs) /\ kcp_inv k' /\ flush_effect kcp_out k' outs.
Proof. apply ikcp_flush_correct; [exact kcp_out_inv|reflexivity|discriminate]. Defined.

(** Lowering the MTU while longer segments are queued is not safe: after
    [ikcp_setmtu] returned 0, [ikcp_flush] copies a segment that no longer fits
    behind the scratch buffer that was allocated for the new MTU. *)
Theorem ikcp_setmtu_flush_overflow :
  exists k k', kcp_inv k /\ output k = true /\ updated k <> 0 /\
    ikcp_setmtu mem_ok k 50 = (k', 0) /\ ikcp_flush k' = Crash OutOfBounds.
Proof.
  exists (kcp_fresh <| updated := 1 |> <| output := true |> <| nocwnd := 1 |>
            <| snd_queue := [new_seg 0 (replicate 1000 65)] |> <| nsnd_que := 1 |>).
  eexists. split; [|split; [done|split; [done|split; [reflexivity|vm_compute; reflexivity]]]].
  split; [split; [split|..]|split; [split|]|split|split|split|split|]; by_decide.
Qed.

(** C9: sleeping until the time [ikcp_check] returns is safe: that time is at
    most [interval] away; at every moment before it [ikcp_update] would not have
    flushed (it would only have recorded the time) and no segment in flight
    would have been due for retransmission. *)
Theorem ikcp_check_sound k cur :
  updated k <> 0 -> is_u32 cur -> 0 < interval k <= 5000 ->
  let d := _itimediff (ikcp_check k cur) cur in
  0 <= d <= interval k /\
  forall e, 0 <= e < d ->
    ikcp_update k (u32 (cur + e)) = Ok (k <| current := u32 (cur + e) |>, []) /\
    Forall (fun s => _itimediff (u32 (cur + e)) (seg_resendts s) < 0) (snd_buf k).
Proof.
  intros Hu Hc Hi d. destruct (ikcp_check_later k cur Hu Hc Hi) as [Hd Hlater]. fold d in Hd, Hlater.
  split; [done|]. intros e He. destruct (Hlater ltac:(lia)) as [Ht Hall]. split.
  - apply ikcp_update_early; [done|]. rewrite itimediff_later by (done || lia). lia.
  - eapply Forall_impl; [exact Hall|]. intros s Hs. cbn in Hs.
    rewrite itimediff_later by (done || lia). lia.
Qed.

Definition kcp_waiting : IKCPCB :=
  kcp_flight <| updated := 1 |> <| ts_flush := 40 |>
    <| snd_buf := [(sent 4294967294) <| seg_resendts := 25 |>] |>.

Lemma ikcp_check_sound_witness :
  let d := _itimediff (ikcp_check kcp_waiting 4294967290) 4294967290 in
  0 <= d <= interval kcp_waiting /\
  forall e, 0 <= e < d ->
    ikcp_update kcp_waiting (u32 (4294967290 + e)) =
      Ok (kcp_waiting <| current := u32 (4294967290 + e) |>, []) /\
    Forall (fun s => _itimediff (u32 (4294967290 + e)) (seg_resendts s) < 0) (snd_buf kcp_waiting).
Proof. apply ikcp_check_sound; [discriminate|by_decide|by_decide]. Defined.
