(* ===== verification/KcpNet.v ===== *)
(** * KCP end to end: messages over an unreliable network

    Two control blocks exchange datagrams over a network that may lose,
    duplicate, delay and reorder them.  The messages the receiver reads are a
    prefix of the messages the sender sent. *)

From S2P Require Import Prelude KcpBase Kcp KcpRecv KcpSend KcpAck KcpInput KcpFlush.

(** ** Views: what the operations leave alone *)

(** The configuration and the receive side of a control block. *)
Definition rcv_view (k : IKCPCB) :=
  (conv k, output k, (rcv_nxt k, rcv_wnd k, nrcv_buf k, nrcv_que k), rcv_buf k, rcv_queue k).

Lemma rcv_view_shrink k : rcv_view (ikcp_shrink_buf k) = rcv_view k.
Proof. unfold ikcp_shrink_buf. by destruct (snd_buf k). Qed.
Lemma rcv_view_una k una : rcv_view (ikcp_parse_una k una) = rcv_view k.
Proof. unfold ikcp_parse_una. by destruct (una_loop _ _ _). Qed.
Lemma rcv_view_ack k sn : rcv_view (ikcp_parse_ack k sn) = rcv_view k.
Proof. unfold ikcp_parse_ack. destruct (_ || _); [done|]. by destruct (ack_loop _ _) as [? []]. Qed.
Lemma rcv_view_update_ack A k rtt : rcv_view (ikcp_update_ack A k rtt) = rcv_view k.
Proof. rewrite update_ack_frame. done. Qed.
Lemma rcv_view_fastack k sn : rcv_view (ikcp_parse_fastack k sn) = rcv_view k.
Proof. unfold ikcp_parse_fastack. by destruct (_ || _). Qed.

Lemma input_cwnd_frame k una :
  input_cwnd k una = k <| cwnd := cwnd (input_cwnd k una) |> <| incr := incr (input_cwnd k una) |>.
Proof.
  unfold input_cwnd. destruct (_ >? 0); [|by destruct k]. destruct (cwnd k <? rmt_wnd k); [|by destruct k].
  cbv zeta. destruct (cwnd k <? ssthresh k).
  - destruct (_ >? _); done.
  - destruct (incr k <? mss k); destruct (_ <=? _); destruct (_ >? _); done.
Qed.

Lemma rcv_view_cwnd k una : rcv_view (input_cwnd k una) = rcv_view k.
Proof. by rewrite input_cwnd_frame. Qed.

(** The send side after an input: the queue and the next number are as before,
    and every segment in flight was in flight before. *)
Record snd_kept (k k' : IKCPCB) : Prop := {
  sk_conf : (conv k', output k', mtu k', mss k', stream k') = (conv k, output k, mtu k, mss k, stream k);
  sk_nxt : snd_nxt k' = snd_nxt k;
  sk_queue : snd_queue k' = snd_queue k;
  sk_buf : forall s', s' ∈ snd_buf k' -> exists s, s ∈ snd_buf k /\ resent_as s s' }.

Lemma resent_refl s : resent_as s s.
Proof. split; [by split|done..]. Qed.

Lemma resent_trans a b c : resent_as a b -> resent_as b c -> resent_as a c.
Proof.
  intros [(?&?&?) ? ? ?] [(?&?&?) ? ? ?]. split; [split; [|split]|..]; congruence.
Qed.

Lemma snd_kept_trans a b c : snd_kept a b -> snd_kept b c -> snd_kept a c.
Proof.
  intros [A1 A2 A3 A4] [B1 B2 B3 B4]. split; [congruence..|].
  intros s Hs. destruct (B4 s Hs) as (s1 & Hs1 & H1). destruct (A4 s1 Hs1) as (s2 & Hs2 & H2).
  exists s2. split; [done|]. by eapply resent_trans.
Qed.

Lemma snd_kept_sublist k k' :
  (conv k', output k', mtu k', mss k', stream k') = (conv k, output k, mtu k, mss k, stream k) ->
  snd_nxt k' = snd_nxt k -> snd_queue k' = snd_queue k -> (forall s, s ∈ snd_buf k' -> s ∈ snd_buf k) ->
  snd_kept k k'.
Proof. intros H1 H2 H3 H4. split; try done. intros s Hs. exists s. split; [auto|apply resent_refl]. Qed.

Lemma snd_kept_refl k : snd_kept k k.
Proof. by apply snd_kept_sublist. Qed.

Lemma snd_kept_shrink k : snd_kept k (ikcp_shrink_buf k).
Proof.
  apply snd_kept_sublist; try (unfold ikcp_shrink_buf; by destruct (snd_buf k)).
  intros s. by rewrite shrink_buf_same.
Qed.

Lemma snd_kept_una k una : snd_kept k (ikcp_parse_una k una).
Proof.
  unfold ikcp_parse_una.
  destruct (una_loop_split una (snd_buf k) (nsnd_buf k)) as (d & r & n & -> & Hl & _).
  apply snd_kept_sublist; try done. cbn. rewrite Hl. intros s Hs. apply elem_of_app. by right.
Qed.

Lemma ack_loop_sub sn l s : s ∈ fst (ack_loop sn l) -> s ∈ l.
Proof.
  induction l as [|x l IH]; cbn [ack_loop]; [done|]. destruct (sn =? seg_sn x); [by right|].
  destruct (_ <? 0); [done|]. destruct (ack_loop sn l) as [r b]. cbn [fst] in *.
  intros [->|Hs]%elem_of_cons; [by left|right; auto].
Qed.

Lemma snd_kept_ack k sn : snd_kept k (ikcp_parse_ack k sn).
Proof.
  unfold ikcp_parse_ack. destruct (_ || _); [apply snd_kept_refl|].
  pose proof (ack_loop_sub sn (snd_buf k)) as Hsub. destruct (ack_loop _ _) as [r b]. cbn [fst] in Hsub.
  destruct b; by apply snd_kept_sublist.
Qed.

Lemma fastack_loop_sub sn l s' : s' ∈ fastack_loop sn l -> exists s, s ∈ l /\ resent_as s s'.
Proof.
  induction l as [|x l IH]; cbn [fastack_loop]; [by intros ?%elem_of_nil|].
  destruct (_ <? 0).
  { intros Hs. exists s'. split; [done|apply resent_refl]. }
  intros [->|Hs]%elem_of_cons.
  - exists x. split; [by left|]. destruct (negb _); [|apply resent_refl]. split; [by split|done..].
  - destruct (IH Hs) as (s & ? & ?). exists s. split; [by right|done].
Qed.

Lemma snd_kept_fastack k sn : snd_kept k (ikcp_parse_fastack k sn).
Proof.
  unfold ikcp_parse_fastack. destruct (_ || _); [apply snd_kept_refl|]. split; try done.
  intros s'. apply fastack_loop_sub.
Qed.

Lemma snd_kept_frame k k' :
  (conv k', output k', mtu k', mss k', stream k') = (conv k, output k, mtu k, mss k, stream k) ->
  snd_nxt k' = snd_nxt k -> snd_queue k' = snd_queue k -> snd_buf k' = snd_buf k -> snd_kept k k'.
Proof. intros H1 H2 H3 H4. apply snd_kept_sublist; try done. intros s. by rewrite H4. Qed.

Lemma snd_kept_update_ack A k rtt : snd_kept k (ikcp_update_ack A k rtt).
Proof. rewrite update_ack_frame. by apply snd_kept_frame. Qed.
Lemma snd_kept_cwnd k una : snd_kept k (input_cwnd k una).
Proof. rewrite input_cwnd_frame. by apply snd_kept_frame. Qed.
Lemma snd_kept_data k s : snd_kept k (ikcp_parse_data k s).
Proof. rewrite parse_data_frame. by apply snd_kept_frame. Qed.

Lemma ack_push_frame m k sn ts k' :
  ikcp_ack_push m k sn ts = Ok k' ->
  k' = k <| acklist := acklist k' |> <| ackblock := ackblock k' |> <| ackcount := ackcount k' |>.
Proof.
  unfold ikcp_ack_push. destruct (_ >? _).
  - destruct (negb _); [done|]. destruct (bool_decide _); [|done]. cbn [mbind outcome_bind]. cbn.
    destruct (_ <? _); [|done]. intros [= <-]. done.
  - cbn [mbind outcome_bind]. destruct (_ <? _); [|done]. intros [= <-]. by destruct k.
Qed.

Create HintDb kept.
#[export] Hint Resolve snd_kept_shrink snd_kept_una snd_kept_ack snd_kept_fastack snd_kept_refl
  snd_kept_update_ack snd_kept_cwnd snd_kept_data : kept.

Lemma snd_kept_push m k h data p k' : input_push m k h data p = Ok k' -> snd_kept k k'.
Proof.
  unfold input_push. destruct (_ <? 0); [|intros [= <-]; auto with kept].
  destruct (ikcp_ack_push _ _ _ _) as [k1|] eqn:E; [|done]. cbn [mbind outcome_bind].
  apply ack_push_frame in E.
  assert (H1 : snd_kept k k1) by (rewrite E; by apply snd_kept_frame).
  destruct (_ >=? 0); [|intros [= <-]; done]. destruct (ikcp_segment_new _ _); [|done].
  destruct (if _ >? _ then _ else _) as [b|]; [|done]. cbn [mbind outcome_bind]. intros [= <-].
  eapply snd_kept_trans; [exact H1|]. auto with kept.
Qed.

Lemma snd_kept_segment A m k ack h data p k' ack' :
  input_segment A m k ack h data p = Ok (k', ack') -> snd_kept k k'.
Proof.
  unfold input_segment. cbv zeta.
  set (k0 := ikcp_shrink_buf (ikcp_parse_una (k <| rmt_wnd := h_wnd h |>) (h_una h))).
  assert (H0 : snd_kept k k0).
  { eapply snd_kept_trans; [|apply snd_kept_shrink]. eapply snd_kept_trans; [|apply snd_kept_una].
    by apply snd_kept_frame. }
  clearbody k0. destruct (_ =? _).
  { intros [= <- _]. eapply snd_kept_trans; [exact H0|]. eapply snd_kept_trans; [|apply snd_kept_shrink].
    eapply snd_kept_trans; [|apply snd_kept_ack]. destruct (_ >=? 0); auto with kept. }
  destruct (_ =? _).
  { destruct (input_push _ _ _ _ _) as [k1|] eqn:E; [|done]. intros [= <- _].
    eapply snd_kept_trans; [exact H0|]. by eapply snd_kept_push. }
  destruct (_ =? _); intros [= <- _]; [|done].
  eapply snd_kept_trans; [exact H0|]. by apply snd_kept_frame.
Qed.

Lemma snd_kept_loop A m fuel k ack data p size r :
  input_loop A m fuel k ack data p size = Ok r ->
  match r with LoopBreak k' _ | LoopReturn k' _ => snd_kept k k' end.
Proof.
  revert k ack p size. induction fuel as [|fuel IH]; intros k ack p size; cbn [input_loop]; [done|].
  destruct (size <? _); [intros [= <-]; auto with kept|].
  destruct (ikcp_decode32u data p) as [[cv p1]|]; [|done]. cbn [mbind outcome_bind].
  destruct (negb _); [intros [= <-]; auto with kept|].
  destruct (decode_header data p1 cv) as [[h p2]|]; [|done]. cbn [mbind outcome_bind].
  destruct (_ <? _); [intros [= <-]; auto with kept|].
  destruct (negb _); [intros [= <-]; auto with kept|].
  destruct (input_segment A m k ack h data p2) as [[k1 ack1]|] eqn:E; [|done]. cbn [mbind outcome_bind].
  intros Hr. apply IH in Hr. apply snd_kept_segment in E.
  destruct r; by eapply snd_kept_trans.
Qed.

Lemma snd_kept_input A m k data size k' c :
  ikcp_input A m k data size = Ok (k', c) -> snd_kept k k'.
Proof.
  unfold ikcp_input. destruct data as [data|]; [|intros [= <- _]; auto with kept].
  destruct (_ <? _); [intros [= <- _]; auto with kept|].
  destruct (input_loop _ _ _ _ _ _ _ _) as [r|] eqn:E; [|done]. cbn [mbind outcome_bind].
  apply snd_kept_loop in E. destruct r as [k1 ack|k1 c1]; intros [= <- _]; [|done].
  eapply snd_kept_trans; [exact E|]. destruct ack as [mx|]; [|auto with kept].
  eapply snd_kept_trans; [apply snd_kept_fastack|auto with kept].
Qed.

(** ** The log of a connection

    The sender's log lists the segments that ever entered the send buffer, in
    order; the [i]-th one carries the number [i] (for the first [2^30] segments
    of a connection; see [log_small] below). *)

Definition matches (log : list IKCPSEG) (s : IKCPSEG) : Prop :=
  exists i t, log !! i = Some t /\ seg_sn s = Z.of_nat i /\ same_fragment t s.

Definition log_small (log : list IKCPSEG) : Prop := zlen log <= 2 ^ 30.

Lemma matches_app log ext s : matches log s -> matches (log ++ ext) s.
Proof.
  intros (i & t & Hi & H). exists i, t. split; [|done]. by apply lookup_app_l_Some.
Qed.

Lemma matches_resent log s s' : resent_as s s' -> matches log s -> matches log s'.
Proof.
  intros [(?&?&?) Hsn _ _] (i & t & Hi & Hs & (?&?&?)). exists i, t.
  split; [done|]. split; [congruence|]. split; [congruence|]. split; congruence.
Qed.

(** What the receiver holds, relative to the log: what was ever queued
    ([consumed] by the user, or still in [rcv_queue]) is a prefix of the log, the
    next expected number is its length, and the reorder buffer holds copies of
    logged segments. *)
Record hist (log consumed : list IKCPSEG) (k : IKCPCB) : Prop := {
  hi_prefix : (length (consumed ++ rcv_queue k) <= length log)%nat;
  hi_same : Forall2 same_fragment (take (length (consumed ++ rcv_queue k)) log) (consumed ++ rcv_queue k);
  hi_nxt : rcv_nxt k = zlen (consumed ++ rcv_queue k);
  hi_buf : Forall (matches log) (rcv_buf k) }.

Lemma hist_view log c k k' : rcv_view k' = rcv_view k -> hist log c k -> hist log c k'.
Proof.
  intros [= _ _ H1 H2 H3 H4 H5 H6] [A1 A2 A3 A4]. split; rewrite ?H5, ?H6, ?H1; done.
Qed.

Lemma hist_log log ext c k : hist log c k -> hist (log ++ ext) c k.
Proof.
  intros [A1 A2 A3 A4]. split.
  - rewrite (length_app log). lia.
  - by rewrite take_app_le.
  - done.
  - eapply Forall_impl; [exact A4|]. intros s. apply matches_app.
Qed.

(** Consecutively numbered copies of logged segments extend the prefix. *)
Lemma extend_prefix log got d :
  log_small log -> (length got <= length log)%nat -> Forall2 same_fragment (take (length got) log) got ->
  seg_sn <$> d = sn_seq (zlen got) (length d) -> Forall (matches log) d ->
  (length (got ++ d) <= length log)%nat /\ Forall2 same_fragment (take (length (got ++ d)) log) (got ++ d).
Proof.
  intros Hlog. revert got. induction d as [|x d IH]; intros got Hlen Hgot Hsn Hm.
  { by rewrite app_nil_r. }
  apply Forall_cons in Hm as [(i & t & Hi & Hx & Hsame) Hm]. csimpl in Hsn. injection Hsn as Hx' Hsn.
  assert (i = length got) as -> by (unfold zlen in *; lia).
  pose proof (lookup_lt_Some _ _ _ Hi) as Hlt.
  rewrite cons_middle, app_assoc. apply IH; [rewrite length_app; simpl; lia| | |done].
  - rewrite length_app. simpl. rewrite Nat.add_1_r. rewrite (take_S_r _ _ _ Hi).
    apply Forall2_app; [done|]. by constructor.
  - rewrite zlen_app. change (zlen [x]) with 1. rewrite Hsn. f_equal.
    unfold log_small, zlen in *. mword.
Qed.

Lemma hist_deliver log c c' k k' d :
  log_small log -> hist log c k -> c' ++ rcv_queue k' = (c ++ rcv_queue k) ++ d ->
  seg_sn <$> d = sn_seq (rcv_nxt k) (length d) -> rcv_nxt k' = u32 (rcv_nxt k + zlen d) ->
  Forall (matches log) (d ++ rcv_buf k') -> hist log c' k'.
Proof.
  intros Hlog [A1 A2 A3 A4] Hq Hs Hn [Hd Hb]%Forall_app. rewrite A3 in Hs.
  destruct (extend_prefix log (c ++ rcv_queue k) d Hlog A1 A2 Hs Hd) as [H1 H2].
  rewrite <- Hq in H1, H2. split; [done|done| |done].
  rewrite Hn, A3, Hq, (zlen_app _ d). apply u32_small.
  rewrite Hq, length_app in H1. unfold log_small, zlen in *. mword_unfold. lia.
Qed.

Lemma hist_data log c k s :
  log_small log -> rcv_inv k -> seg_ok s -> matches log s -> hist log c k -> hist log c (ikcp_parse_data k s).
Proof.
  intros Hlog Hk Hs Hm Hh. destruct (parse_data_delivers k s Hk Hs) as (d & H1 & H2 & H3 & H4).
  eapply hist_deliver; [done|exact Hh|by rewrite H1, app_assoc|done..|].
  apply Forall_forall. intros x Hx. destruct (H4 x Hx) as [->|Hx']; [done|]. pose proof (hi_buf _ _ _ Hh) as Hb.
  rewrite Forall_forall in Hb. by apply Hb.
Qed.

(** ** A datagram of the sender arrives *)

(** A segment the sender may put on the wire. *)
Record good (cv : Z) (log : list IKCPSEG) (s : IKCPSEG) : Prop := {
  g_conv : seg_conv s = cv;
  g_cmd : valid_cmd (seg_cmd s) = true;
  g_frg : is_u8 (seg_frg s);
  g_len : seg_len s = zlen (seg_data s);
  g_small : seg_len s < 2 ^ 31;
  g_bytes : is_bytes (seg_data s);
  g_push : seg_cmd s = IKCP_CMD_PUSH -> matches log s }.

Lemma good_app cv log ext s : good cv log s -> good cv (log ++ ext) s.
Proof. intros []. split; try done. intros. by apply matches_app; auto. Qed.

Lemma valid_cmd_cases c : valid_cmd c = true ->
  c = IKCP_CMD_PUSH \/ c = IKCP_CMD_ACK \/ c = IKCP_CMD_WASK \/ c = IKCP_CMD_WINS.
Proof. unfold valid_cmd. rewrite !orb_true_iff, !Z.eqb_eq. tauto. Qed.

Lemma good_header cv log s :
  log_small log -> good cv log s ->
  h_cmd (header_of s) = seg_cmd s /\ h_frg (header_of s) = seg_frg s /\
  h_len (header_of s) = seg_len s /\ (seg_cmd s = IKCP_CMD_PUSH -> h_sn (header_of s) = seg_sn s).
Proof.
  intros Hlog []. pose proof (zlen_nonneg (seg_data s)). cbn. split; [|split; [|split]].
  - apply valid_cmd_cases in g_cmd0. unfold IKCP_CMD_PUSH, IKCP_CMD_ACK, IKCP_CMD_WASK, IKCP_CMD_WINS in *.
    apply u8_small. mword_unfold. lia.
  - by apply u8_small.
  - apply u32_small. mword_unfold. lia.
  - intros Hp. destruct (g_push0 Hp) as (i & t & Hi & -> & _). apply lookup_lt_Some in Hi.
    apply u32_small. unfold log_small, zlen in *. mword_unfold. lia.
Qed.

Lemma header_of_ok s : header_ok (header_of s).
Proof. split; cbn; eauto with mword. Qed.

Lemma hist_push m log c cv k s pre post k' :
  log_small log -> good cv log s -> seg_cmd s = IKCP_CMD_PUSH -> kcp_inv k -> hist log c k ->
  input_push m k (header_of s) (pre ++ seg_bytes s ++ post) (zlen pre + 24) = Ok k' ->
  hist log c k' /\ conv k' = conv k.
Proof.
  intros Hlog Hg Hp Hk Hh. destruct (good_header cv log s Hlog Hg) as (Hc & Hf & Hl & Hsn). specialize (Hsn Hp).
  unfold input_push. destruct (_ <? 0); [|by intros [= <-]].
  destruct (ikcp_ack_push _ _ _ _) as [k1|] eqn:E; [|done]. cbn [mbind outcome_bind].
  apply ack_push_frame in E.
  assert (Hh1 : hist log c k1) by (apply (hist_view _ _ k); [rewrite E; done|done]).
  assert (Hr1 : rcv_inv k1) by (rewrite E; apply (rcv_inv_frame k); (done || apply Hk)).
  assert (Hcv : conv k1 = conv k) by (rewrite E; done).
  destruct (_ >=? 0); [|by intros [= <-]]. destruct (ikcp_segment_new _ _); [|done].
  assert (Hread : (if h_len (header_of s) >? 0
                   then read_at (pre ++ seg_bytes s ++ post) (zlen pre + 24) (h_len (header_of s))
                   else Ok []) = Ok (seg_data s)).
  { rewrite Hl, (g_len _ _ _ Hg). destruct (Z.gtb_spec (zlen (seg_data s)) 0) as [Hgt|Hle].
    - unfold seg_bytes. rewrite <- app_assoc, app_assoc. apply read_at_mid; [|done].
      rewrite zlen_app, zlen_header. done.
    - destruct (seg_data s) as [|b bs]; [done|]. rewrite zlen_cons in Hle. pose proof (zlen_nonneg bs). lia. }
  rewrite Hread. cbn [mbind outcome_bind]. intros [= <-].
  set (ns := mkSeg _ _ _ _ _ _ _ _ _ _ _ _ _).
  assert (Hns : seg_ok ns).
  { pose proof (header_of_ok s) as []. split; [|split; [done|split; [done|]]].
    - cbn in *. mword_unfold. lia.
    - change (seg_len ns) with (h_len (header_of s)). rewrite Hl. apply (g_len _ _ _ Hg). }
  split.
  - apply hist_data; try done. destruct (g_push _ _ _ Hg Hp) as (i & t & Hi & Hs & (Ha & Hb & Hd)).
    exists i, t. split; [done|]. split; [exact (eq_trans Hsn Hs)|]. split; [|split].
    + exact (eq_trans Ha (eq_sym Hf)).
    + exact (eq_trans Hb (eq_sym Hl)).
    + done.
  - rewrite parse_data_frame. done.
Qed.

Lemma rcv_view_conv k k' : rcv_view k' = rcv_view k -> conv k' = conv k.
Proof. by intros [= H]. Qed.

Lemma hist_segment m log c cv k ack s pre post k' ack' :
  log_small log -> good cv log s -> kcp_inv k -> hist log c k ->
  input_segment LP64 m k ack (header_of s) (pre ++ seg_bytes s ++ post) (zlen pre + 24) = Ok (k', ack') ->
  hist log c k' /\ conv k' = conv k.
Proof.
  intros Hlog Hg Hk Hh. unfold input_segment. cbv zeta.
  set (k0 := ikcp_shrink_buf (ikcp_parse_una (k <| rmt_wnd := h_wnd (header_of s) |>) (h_una (header_of s)))).
  assert (Hk0 : kcp_inv k0) by (apply kcp_inv_una, kcp_inv_rmt_wnd; [done|apply header_of_ok]).
  assert (Hv0 : rcv_view k0 = rcv_view k) by (subst k0; by rewrite rcv_view_shrink, rcv_view_una).
  clearbody k0. destruct (good_header cv log s Hlog Hg) as (Hc & _).
  assert (Hview : forall k1, rcv_view k1 = rcv_view k0 -> hist log c k1 /\ conv k1 = conv k).
  { intros k1 H1. rewrite Hv0 in H1. split; [by apply (hist_view _ _ k)|by apply rcv_view_conv]. }
  rewrite Hc. destruct (_ =? IKCP_CMD_ACK).
  { intros [= <- _]. apply Hview. rewrite rcv_view_shrink, rcv_view_ack.
    destruct (_ >=? 0); [apply rcv_view_update_ack|done]. }
  destruct (Z.eqb_spec (seg_cmd s) IKCP_CMD_PUSH) as [Hp|_].
  { destruct (input_push _ _ _ _ _) as [k1|] eqn:E; [|done]. intros [= <- _].
    apply hist_push with (log := log) (c := c) (cv := cv) in E; try done.
    - destruct E as [? ->]. split; [done|]. by apply rcv_view_conv.
    - by apply (hist_view _ _ k). }
  destruct (_ =? IKCP_CMD_WASK); intros [= <- _]; by apply Hview.
Qed.

Lemma hist_loop m log c cv g fuel k ack pre r :
  log_small log -> alloc_all m -> is_u32 cv -> Forall (good cv log) g -> kcp_inv k -> conv k = cv ->
  hist log c k -> (forall sn, ack = Some sn -> is_u32 sn) ->
  zlen (pre ++ pack g) < 2 ^ 31 -> ackcount k + zlen (pack g) < 2 ^ 28 ->
  input_loop LP64 m fuel k ack (pre ++ pack g) (zlen pre) (zlen (pack g)) = Ok r ->
  match r with LoopBreak k' _ | LoopReturn k' _ => hist log c k' end.
Proof.
  intros Hlog Hm Hcv Hg. revert fuel k ack pre.
  induction Hg as [|s g Hs Hg IH]; intros [|fuel] k ack pre Hk Hc Hh Ha Hz Hac; cbn [input_loop]; try done.
  { change (pack []) with (@nil Z). rewrite zlen_nil. unfold IKCP_OVERHEAD. cbn. by intros [= <-]. }
  assert (Hpk : pack (s :: g) = seg_bytes s ++ pack g) by done. rewrite Hpk in *.
  pose proof (good_header cv log s Hlog Hs) as (Ec & _ & El & _).
  pose proof (g_len _ _ _ Hs) as Hlen. pose proof (zlen_nonneg (seg_data s)) as Hd0.
  pose proof (zlen_nonneg (pack g)) as Hg0. pose proof (zlen_nonneg pre) as Hp0.
  pose proof (zlen_seg_bytes s) as Hsb. rewrite !zlen_app in *. unfold IKCP_OVERHEAD, size_sub in *.
  destruct (Z.ltb_spec (zlen (seg_bytes s) + zlen (pack g)) 24); [lia|].
  assert (Hdata : pre ++ seg_bytes s ++ pack g = pre ++ header_bytes s ++ (seg_data s ++ pack g))
    by (unfold seg_bytes; by rewrite <- app_assoc).
  rewrite Hdata at 1. rewrite decode_conv_at by done. cbn [mbind outcome_bind].
  rewrite (g_conv _ _ _ Hs), (u32_small cv) by done. rewrite Hc, Z.eqb_refl. cbn [negb].
  rewrite Hdata at 1. pose proof (decode_header_at pre s (seg_data s ++ pack g) (zlen pre) eq_refl) as Hdh.
  rewrite (g_conv _ _ _ Hs), (u32_small cv) in Hdh by done. rewrite Hdh. cbn [mbind outcome_bind].
  rewrite El, !long_of_LP64 by lia.
  destruct (Z.ltb_spec (zlen (seg_bytes s) + zlen (pack g) - 24) (seg_len s)); [lia|].
  rewrite Ec, (g_cmd _ _ _ Hs). cbn [negb].
  destruct (input_segment_ok LP64 m k ack (header_of s) (pre ++ seg_bytes s ++ pack g) (zlen pre + 24))
    as (k1 & ack1 & E & Hk1 & Hac1 & Ha1);
    [done|done|apply header_of_ok|lia|done|lia|rewrite El, !zlen_app; lia|].
  rewrite E. cbn [mbind outcome_bind].
  apply (hist_segment m log c cv) in E as [Hh1 Hc1]; try done. intros Hrun.
  apply (IH fuel k1 ack1 (pre ++ seg_bytes s)); try done.
  - congruence.
  - rewrite !zlen_app. lia.
  - lia.
  - rewrite <- app_assoc, <- Hrun. f_equal; [rewrite zlen_app; lia|lia].
Qed.

Lemma hist_input m log c g k k' code :
  log_small log -> alloc_all m -> is_u32 (conv k) -> Forall (good (conv k) log) g -> kcp_inv k ->
  hist log c k -> zlen (pack g) < 2 ^ 31 -> ackcount k + zlen (pack g) < 2 ^ 28 ->
  ikcp_input LP64 m k (Some (pack g)) (zlen (pack g)) = Ok (k', code) -> hist log c k'.
Proof.
  intros Hlog Hm Hcv Hg Hk Hh Hz Ha. unfold ikcp_input. destruct (_ <? _); [by intros [= <- _]|].
  destruct (input_loop _ _ _ _ _ _ _ _) as [r|] eqn:E; [|done]. cbn [mbind outcome_bind].
  apply (hist_loop m log c (conv k) g _ k None [] r) in E; try done.
  destruct r as [k1 ack|k1 c1]; intros [= <- _]; [|done].
  apply (hist_view _ _ k1); [|done]. rewrite rcv_view_cwnd.
  destruct ack; [apply rcv_view_fastack|done].
Qed.

(** ** Reading *)

(** The fragments of one message, as [ikcp_send] queues them. *)
Record message (segs : list IKCPSEG) (b : list Z) : Prop := {
  msg_payload : payload segs = b;
  msg_frg : seg_frg <$> segs = countdown (length segs);
  msg_len : (0 < length segs <= 127)%nat }.

Lemma Forall2_sf_sym a b : Forall2 same_fragment a b -> Forall2 same_fragment b a.
Proof. intros H. apply Forall2_flip. eapply Forall2_impl; [exact H|]. intros x y (?&?&?). by repeat split. Qed.

(** A readable queue that continues the stream of messages [f :: fr] starts with
    the whole message [f]. *)
Lemma next_message k len (f : list IKCPSEG) fr b :
  rcv_inv k -> recv_ready k len -> message f b ->
  Forall2 same_fragment (take (length (rcv_queue k)) (f ++ fr)) (rcv_queue k) ->
  exists m r, first_message (rcv_queue k) = (m, r) /\ Forall2 same_fragment f m.
Proof.
  intros [Hwf Hq _] Hr [Hp Hf Hl] Hs. pose proof (recv_ready_nonempty _ _ Hr) as Hne.
  assert (Hlen : (length f <= length (rcv_queue k))%nat).
  { unfold recv_ready, ikcp_peeksize in Hr. pose proof (nrcv_que_len k Hwf) as Hn.
    destruct (rcv_queue k) as [|s q] eqn:E; [done|]. destruct f as [|t f]; [simpl in Hl; lia|].
    cbn in Hs. apply Forall2_cons in Hs as [(Hfrg & _) _]. csimpl in Hf. injection Hf as Ht _.
    rewrite Hfrg in Ht. rewrite Ht in Hr. destruct (Z.eqb_spec (Z.of_nat (length f)) 0) as [Hz|Hz].
    - simpl. lia.
    - rewrite u32_small in Hr by (mword_unfold; simpl in Hl; lia).
      destruct (Z.ltb_spec (nrcv_que k) (Z.of_nat (length f) + 1)); [lia|].
      unfold zlen in Hn. simpl in *. lia. }
  assert (Hpre : Forall2 same_fragment f (take (length f) (rcv_queue k))).
  { apply (Forall2_take _ _ _ (length f)) in Hs. rewrite take_take, Nat.min_l in Hs by done.
    by rewrite take_app_length in Hs. }
  exists (take (length f) (rcv_queue k)), (drop (length f) (rcv_queue k)). split; [|done].
  rewrite <- (take_drop (length f) (rcv_queue k)) at 1.
  apply first_message_countdown.
  - intros Hnil. apply (f_equal length) in Hnil. rewrite length_take in Hnil. simpl in Hnil. lia.
  - rewrite <- (same_fragment_frg _ _ Hpre), Hf. f_equal. exact (Forall2_length _ _ _ Hpre).
Qed.

(** What [ikcp_recv] does to the receive side. *)
Lemma recv_effect k len k' n out :
  rcv_inv k -> ikcp_recv k true len = Ok (k', n, out) ->
  (n < 0 /\ k' = k) \/
  (0 <= n /\ recv_ready k len /\ exists m r d, first_message (rcv_queue k) = (m, r) /\ out = payload m /\
     rcv_queue k' = (if len <? 0 then m else []) ++ r ++ d /\ seg_sn <$> d = sn_seq (rcv_nxt k) (length d) /\
     rcv_nxt k' = u32 (rcv_nxt k + zlen d) /\ rcv_buf k = d ++ rcv_buf k').
Proof.
  intros Hk Hrun. destruct (decide (recv_ready k len)) as [Hr|Hr].
  - right. destruct (first_message (rcv_queue k)) as [m r] eqn:Hm.
    pose proof (first_message_app _ _ _ Hm) as Happ.
    rewrite (ikcp_recv_ready k true len m r Hk Hr Hm) in Hrun. injection Hrun as <- <- <-.
    split; [unfold recv_ready in Hr; lia|]. split; [done|]. exists m, r.
    pose proof (recv_taken_inv k (len <? 0) m r Hk Happ) as Htk.
    destruct (recv_move_spec _ (inv_rcv_wf _ Htk)) as [_ [d [Hmb Hmq Hms Hmn _]]].
    exists d. split; [done|]. split; [done|].
    assert (Hfin : forall kk, rcv_queue (recv_finish kk (nrcv_que k >=? rcv_wnd k)) = rcv_queue (recv_move (rcv_buf kk) kk) /\
      rcv_nxt (recv_finish kk (nrcv_que k >=? rcv_wnd k)) = rcv_nxt (recv_move (rcv_buf kk) kk) /\
      rcv_buf (recv_finish kk (nrcv_que k >=? rcv_wnd k)) = rcv_buf (recv_move (rcv_buf kk) kk))
      by (intros kk; unfold recv_finish; by destruct (_ && _)).
    destruct (Hfin (recv_taken k (len <? 0) m r)) as (-> & -> & ->).
    unfold recv_taken in *. destruct (len <? 0); cbn in *.
    + split; [by rewrite Hmq, Happ, <- app_assoc|]. done.
    + done.
  - left. unfold ikcp_recv, recv_ready in *. destruct (rcv_queue k) as [|s q]; [injection Hrun as <- <- <-; split; [lia|done]|].
    destruct (Z.ltb_spec (ikcp_peeksize k) 0); [injection Hrun as <- <- <-; split; [lia|done]|].
    destruct (Z.gtb_spec (ikcp_peeksize k) (if len <? 0 then i32 (- len) else len));
      [injection Hrun as <- <- <-; split; [lia|done]|]. lia.
Qed.

Lemma recv_frame k dst len k' n out :
  ikcp_recv k dst len = Ok (k', n, out) ->
  k' = (rcv_part k k') <| probe := probe k' |>.
Proof.
  unfold ikcp_recv. destruct (rcv_queue k) as [|s q] eqn:Eq; [intros [= <- _ _]; by destruct k|].
  destruct (_ <? 0); [intros [= <- _ _]; by destruct k|].
  destruct (_ >? _); [intros [= <- _ _]; by destruct k|].
  destruct (recv_merge _ _ _ _ _ _) as [[[[l o] rest] nq]|]; [|done]. cbn [mbind outcome_bind].
  destruct (c_assert _); [|done]. cbn [mbind outcome_bind].
  set (k1 := if len <? 0 then k else _).
  assert (H1 : k1 = (rcv_part k k1) <| probe := probe k1 |>) by (subst k1; destruct (len <? 0); by destruct k).
  pose proof (recv_move_frame (rcv_buf k1) k1) as H2. set (k2 := recv_move (rcv_buf k1) k1) in *.
  clearbody k1 k2. intros [= <- _ _].
  assert (H3 : k2 = (rcv_part k k2) <| probe := probe k2 |>) by (rewrite H2, H1; done).
  destruct (_ && _); [|done].
  exact (f_equal (set_field probe (fun _ => Z.lor (probe k2) IKCP_ASK_TELL)) H3).
Qed.

Lemma kcp_inv_recv k dst len k' n out :
  kcp_inv k -> ikcp_recv k dst len = Ok (k', n, out) -> rcv_inv k' -> kcp_inv k'.
Proof.
  intros Hk Hrun Hr. apply recv_frame in Hrun.
  pose proof (kcp_inv_probe k (probe k') Hk) as Hk1.
  apply (kcp_inv_rcv _ k' (rcv_nxt k') (nrcv_buf k') (nrcv_que k') (rcv_buf k') (rcv_queue k') Hk1);
    [exact Hrun|done].
Qed.

Lemma recv_keeps_rcv_inv k dst len k' n out :
  rcv_inv k -> ikcp_recv k dst len = Ok (k', n, out) -> rcv_inv k'.
Proof.
  intros Hk Hrun. destruct (decide (recv_ready k len)) as [Hr|Hr].
  - destruct (first_message (rcv_queue k)) as [m r] eqn:Hm.
    rewrite (ikcp_recv_ready k dst len m r Hk Hr Hm) in Hrun. injection Hrun as <- _ _.
    apply recv_finish_inv, recv_taken_inv; [done|]. by apply first_message_app.
  - unfold ikcp_recv, recv_ready in *. destruct (rcv_queue k) as [|s q]; [by injection Hrun as <-|].
    destruct (Z.ltb_spec (ikcp_peeksize k) 0); [by injection Hrun as <-|].
    destruct (Z.gtb_spec (ikcp_peeksize k) (if len <? 0 then i32 (- len) else len));
      [by injection Hrun as <-|]. lia.
Qed.

(** ** Sending *)

Lemma enqueued_inv k segs :
  kcp_inv k -> Forall (out_ok (mss k)) segs -> nsnd_que k + zlen segs < 2 ^ 31 ->
  kcp_inv (enqueued k segs).
Proof.
  intros [Hr Hs Ha Hm Hw [Hq1 Hq2 Hq3] Hb] Ho Hn. pose proof (zlen_nonneg segs).
  pose proof (zlen_nonneg (snd_queue k)).
  assert (Hu : u32 (nsnd_que k + zlen segs) = nsnd_que k + zlen segs)
    by (apply u32_small; mword_unfold; lia).
  unfold enqueued. split.
  - by apply (rcv_inv_frame k).
  - by apply (snd_wf_frame k).
  - by apply (ack_wf_frame k).
  - reframe Hm.
  - reframe Hw.
  - split; cbn; rewrite ?Hu; [by rewrite zlen_app, Hq1|done|by apply Forall_app].
  - done.
Qed.

Lemma send_effect m k b k' :
  alloc_all m -> kcp_inv k -> stream k = 0 -> zlen b < 2 ^ 31 -> nsnd_que k + 127 < 2 ^ 31 ->
  ikcp_send m k (Some b) (zlen b) = Ok (k', 0) ->
  exists segs, k' = enqueued k segs /\ message segs b /\ kcp_inv k'.
Proof.
  intros Hm Hk Hst Hb Hn Hrun. pose proof (inv_mtu k Hk) as Hmt. pose proof (mtu_range k Hmt).
  assert (Hms : 0 < mss k < 2 ^ 31) by (rewrite (mss_mtu k Hmt); unfold IKCP_OVERHEAD; lia).
  destruct (send_message_spec m k b Hm Hst Hms Hb) as [Hok Hlong].
  destruct (Z.le_gt_cases (zlen b) (127 * mss k)) as [Hle|Hgt].
  - destruct (Hok Hle) as (segs & E & H1 & H2 & H3 & H4). rewrite E in Hrun. injection Hrun as <-.
    exists segs. split; [done|]. split; [by split|]. apply enqueued_inv; [done|done|]. unfold zlen. lia.
  - rewrite (Hlong Hgt) in Hrun. done.
Qed.

(** ** The system

    The sender [sysA], the receiver [sysB], the datagrams the sender ever gave
    to the network (delivery does not remove one, so it can be delivered again,
    late, or never), and the messages sent and read so far.  The platform has a
    64-bit [long] and allocation works. *)
Record system := mkSys {
  sysA : IKCPCB; sysB : IKCPCB; net : list (list Z); msgs_sent : list (list Z); msgs_read : list (list Z) }.

Inductive net_step (m : allocator) : system -> system -> Prop :=
| step_send a b nt ms mr msg a' :
    is_bytes msg -> zlen msg < 2 ^ 31 -> nsnd_que a + 127 < 2 ^ 31 ->
    ikcp_send m a (Some msg) (zlen msg) = Ok (a', 0) ->
    net_step m (mkSys a b nt ms mr) (mkSys a' b nt (ms ++ [msg]) mr)
| step_update_sender a b nt ms mr cur a' outs :
    ikcp_update a cur = Ok (a', outs) -> snd_nxt a' <= 2 ^ 30 ->
    net_step m (mkSys a b nt ms mr) (mkSys a' b (nt ++ outs) ms mr)
| step_input_sender a b nt ms mr data a' c :
    (* any bytes at all, not only what the receiver sends *)
    is_bytes data -> zlen data < 2 ^ 31 -> ackcount a + zlen data < 2 ^ 28 ->
    ikcp_input LP64 m a (Some data) (zlen data) = Ok (a', c) ->
    net_step m (mkSys a b nt ms mr) (mkSys a' b nt ms mr)
| step_deliver a b nt ms mr d b' c :
    d ∈ nt -> ackcount b + zlen d < 2 ^ 28 ->
    ikcp_input LP64 m b (Some d) (zlen d) = Ok (b', c) ->
    net_step m (mkSys a b nt ms mr) (mkSys a b' nt ms mr)
| step_update_receiver a b nt ms mr cur b' outs :
    ikcp_update b cur = Ok (b', outs) ->
    net_step m (mkSys a b nt ms mr) (mkSys a b' nt ms mr)
| step_recv a b nt ms mr len b' n out :
    ikcp_recv b true len = Ok (b', n, out) ->
    net_step m (mkSys a b nt ms mr)
      (mkSys a b' nt ms (if (0 <=? len) && (0 <=? n) then mr ++ [out] else mr)).

(** Two control blocks as [ikcp_create] makes them, with an output callback. *)
Definition sys_start (m : allocator) (s : system) : Prop :=
  exists k sz, ikcp_create m sz (conv k) = Some k /\ is_u32 (conv k) /\
    sysA s = ikcp_setoutput k true /\ sysB s = ikcp_setoutput k true /\
    net s = [] /\ msgs_sent s = [] /\ msgs_read s = [].

(** The invariant of the system. *)
Record sys_inv_for (s : system) (log consumed : list IKCPSEG) (frags : list (list IKCPSEG)) (j : nat)
    : Prop := {
  si_A : kcp_inv (sysA s);
  si_B : kcp_inv (sysB s);
  si_out : output (sysA s) = true /\ output (sysB s) = true;
  si_conv : conv (sysA s) = conv (sysB s) /\ is_u32 (conv (sysB s));
  si_stream : stream (sysA s) = 0;
  si_log : log_small log;
  si_nxt : snd_nxt (sysA s) = zlen log;
  si_flight : Forall (matches log) (snd_buf (sysA s)) /\ Forall (pushed (sysA s)) (snd_buf (sysA s));
  si_frags : log ++ snd_queue (sysA s) = concat frags;
  si_msgs : Forall2 message frags (msgs_sent s);
  si_bytes : Forall is_bytes (msgs_sent s);
  si_net : Forall (fun d => exists g, d = pack g /\ Forall (good (conv (sysB s)) log) g /\ zlen d < 2 ^ 31) (net s);
  si_hist : hist log consumed (sysB s);
  si_consumed : Forall2 same_fragment (concat (take j frags)) consumed;
  si_read : (j <= length frags)%nat /\ msgs_read s = take j (msgs_sent s) }.

Definition sys_inv (s : system) : Prop := exists log consumed frags j, sys_inv_for s log consumed frags j.

Lemma create_fresh m sz cv k :
  ikcp_create m sz cv = Some k -> k = kcp_fresh <| conv := cv |>.
Proof.
  unfold ikcp_create. destruct (negb _); [done|]. destruct (negb _); [done|]. intros [= <-]. reflexivity.
Qed.

Lemma fresh_inv cv out : kcp_inv (ikcp_setoutput (kcp_fresh <| conv := cv |>) out).
Proof.
  destruct kcp_fresh_inv as [Hr Hs Ha Hm Hw Hq Hb]. split.
  - by apply (rcv_inv_frame kcp_fresh).
  - by apply (snd_wf_frame kcp_fresh).
  - by apply (ack_wf_frame kcp_fresh).
  - reframe Hm.
  - reframe Hw.
  - reframe Hq.
  - done.
Qed.

Lemma sys_start_inv m s : sys_start m s -> sys_inv s.
Proof.
  intros (k & sz & Hc & Hu & HA & HB & Hn & Hs & Hr). pose proof (create_fresh _ _ _ _ Hc) as Hk.
  set (cv := conv k) in *. clearbody cv. subst k.
  exists [], [], [], O. split; rewrite ?HA, ?HB, ?Hn, ?Hs, ?Hr; try done; try apply fresh_inv.
Qed.

(** ** Preservation of the system invariant *)

Lemma countdown_u8 n : (n <= 127)%nat -> Forall is_u8 (countdown n).
Proof. induction n as [|n IH]; cbn; constructor; [mword_unfold; lia|apply IH; lia]. Qed.

(** What the messages say about the logged segments. *)
Lemma message_segs segs b :
  message segs b -> is_bytes b -> Forall (fun s => is_u8 (seg_frg s) /\ is_bytes (seg_data s)) segs.
Proof.
  intros [Hp Hf Hl] Hb. apply Forall_and. split.
  - change (fun s => is_u8 (seg_frg s)) with (is_u8 ∘ seg_frg). apply Forall_fmap. rewrite Hf.
    apply countdown_u8. lia.
  - subst b. unfold payload in Hb. rewrite Forall_concat, !Forall_fmap in Hb. exact Hb.
Qed.

Lemma frags_segs frags ms :
  Forall2 message frags ms -> Forall is_bytes ms ->
  Forall (fun s => is_u8 (seg_frg s) /\ is_bytes (seg_data s)) (concat frags).
Proof.
  induction 1 as [|f b frags ms Hm _ IH]; [constructor|]. intros [Hb Hbs]%Forall_cons. cbn.
  apply Forall_app. split; [by eapply message_segs|auto].
Qed.

Lemma net_send_inv m a b nt ms mr msg a' :
  alloc_all m -> sys_inv (mkSys a b nt ms mr) -> is_bytes msg -> zlen msg < 2 ^ 31 ->
  nsnd_que a + 127 < 2 ^ 31 -> ikcp_send m a (Some msg) (zlen msg) = Ok (a', 0) ->
  sys_inv (mkSys a' b nt (ms ++ [msg]) mr).
Proof.
  intros Hm (log & c & frags & j & []) Hbytes Hz Hn Hrun. cbn [sysA sysB net msgs_sent msgs_read] in *.
  destruct (send_effect m a msg a') as (segs & -> & Hmsg & Hk'); [done..|].
  exists log, c, (frags ++ [segs]), j. split; cbn; try done.
  - rewrite app_assoc, si_frags0, concat_app. cbn. by rewrite app_nil_r.
  - apply Forall2_app; [done|by constructor].
  - apply Forall_app. split; [done|by constructor].
  - by rewrite take_app_le by lia.
  - destruct si_read0 as [Hj Hr]. rewrite length_app. split; [lia|].
    rewrite take_app_le; [done|]. by rewrite <- (Forall2_length _ _ _ si_msgs0).
Qed.

(** The segments that just entered the window match the extended log. *)
Lemma matches_new log q new :
  log_small (log ++ q) -> Forall2 same_fragment q new -> seg_sn <$> new = sn_seq (zlen log) (length q) ->
  Forall (matches (log ++ q)) new.
Proof.
  intros Hl Hf. revert log Hl. induction Hf as [|x y q new Hxy _ IH]; intros log Hl Hs; [constructor|].
  csimpl in Hs. injection Hs as Hy Hs. unfold log_small in *. rewrite zlen_app, zlen_cons in Hl.
  pose proof (zlen_nonneg log). pose proof (zlen_nonneg q).
  constructor.
  - exists (length log), x. split; [by apply list_lookup_middle|]. split; [done|done].
  - rewrite cons_middle, app_assoc. apply IH.
    + rewrite !zlen_app. change (zlen [x]) with 1. lia.
    + rewrite Hs, zlen_app. change (zlen [x]) with 1. f_equal. mword.
Qed.

Lemma Forall_concat_groups {A B} (P : A -> Prop) (f : list A -> B) (Q : B -> Prop) (R : B -> Prop) groups :
  Forall P (concat groups) -> Forall Q (f <$> groups) ->
  (forall g, Forall P g -> Q (f g) -> R (f g)) -> Forall R (f <$> groups).
Proof.
  intros HP HQ HR. induction groups as [|g groups IH]; [constructor|]. cbn in *.
  apply Forall_app in HP as [? ?]. apply Forall_cons in HQ as [? ?]. constructor; auto.
Qed.

(** Everything a flush of the sender puts on the wire is good. *)
Lemma good_flush cv k k' log outs :
  kcp_inv k' -> flush_effect k k' outs -> conv k = cv -> conv k' = cv -> mtu_ok k ->
  Forall (matches log) (snd_buf k') -> Forall (pushed k') (snd_buf k') ->
  Forall (fun s => is_u8 (seg_frg s) /\ is_bytes (seg_data s)) log ->
  Forall (fun d => exists g, d = pack g /\ Forall (good cv log) g /\ zlen d < 2 ^ 31) outs.
Proof.
  intros Hk' [Hd (gs & pr & st & -> & Hcat & Hpr & Hsub & _) _ _ _ _] Hc Hc' Hmt Hm Hp Hfrg.
  pose proof (mtu_range k Hmt) as Hmr.
  assert (Hgood : Forall (good cv log) (concat gs)).
  { rewrite Hcat, !Forall_app. split; [|split].
    - apply Forall_fmap, Forall_forall. intros [sn ts] _. by split.
    - eapply Forall_impl; [exact Hpr|]. intros s [Hcmd [= E1 E2 E3 E4]].
      split; rewrite ?E1, ?E2, ?E3, ?E4; try done.
      + by destruct Hcmd as [->| ->].
      + by destruct Hcmd as [->| ->].
    - eapply sublist_Forall; [exact Hsub|]. rewrite Forall_forall in *. intros s Hs.
      destruct (Hp s Hs) as [Hcmd Hcv]. pose proof (inv_buf k' Hk') as Hb. rewrite Forall_forall in Hb.
      destruct (Hb s Hs) as [Hlen Hms]. destruct (Hm s Hs) as (i & t & Hi & Hsn & (Ef & El & Ed)) eqn:E.
      pose proof (Hfrg t (list_elem_of_lookup_2 _ _ _ Hi)) as [Hu Hby].
      pose proof (mtu_range k' (inv_mtu k' Hk')). rewrite (mss_mtu k' (inv_mtu k' Hk')) in Hms.
      unfold IKCP_OVERHEAD in Hms.
      split; try done; [congruence|by rewrite Hcmd|congruence|lia|congruence|]. by exists i, t. }
  eapply Forall_concat_groups; [exact Hgood|exact Hd|]. intros g Hg [_ Hz]. exists g.
  split; [done|]. split; [done|lia].
Qed.

Lemma net_frame cv log ext nt :
  Forall (fun d => exists g, d = pack g /\ Forall (good cv log) g /\ zlen d < 2 ^ 31) nt ->
  Forall (fun d => exists g, d = pack g /\ Forall (good cv (log ++ ext)) g /\ zlen d < 2 ^ 31) nt.
Proof.
  intros H. eapply Forall_impl; [exact H|]. intros d (g & -> & Hg & Hz). exists g.
  split; [done|]. split; [|done]. eapply Forall_impl; [exact Hg|]. intros s. apply good_app.
Qed.

(** A flush of the sender extends the log. *)
Lemma net_flush_inv a b nt ms mr a' outs :
  sys_inv (mkSys a b nt ms mr) -> updated a <> 0 -> ikcp_flush a = Ok (a', outs) -> snd_nxt a' <= 2 ^ 30 ->
  sys_inv (mkSys a' b (nt ++ outs) ms mr).
Proof.
  intros (log & c & frags & j & []) Hu Hrun Hlim. cbn [sysA sysB net msgs_sent msgs_read] in *. destruct si_out0 as [Ho1 Ho2].
  destruct (ikcp_flush_ok a si_A0 Ho1 Hu) as (a1 & outs1 & E & Hk' & Hfe). rewrite E in Hrun.
  injection Hrun as -> ->. pose proof Hfe as [_ _ _ (q & Hq & Hfr & Hsns & Hnxt & Hinf & Hwin & _) Hcmds Hfrm].
  injection Hfrm as Hcv Ho' _ _ Hst _ _ _ _ _ _.
  assert (Hq16 : 0 <= zlen q < 2 ^ 16).
  { pose proof (zlen_nonneg q). pose proof (snd_inflight a (snd_wf_0 a (inv_snd a si_A0))).
    pose proof (flush_window_range a (inv_wnd a si_A0)). destruct Hwin as [->|Hw]; [by split|lia]. }
  rewrite si_nxt0 in Hnxt, Hsns. unfold log_small in si_log0. pose proof (zlen_nonneg log).
  rewrite u32_small in Hnxt by (mword_unfold; lia). rewrite <- zlen_app in Hnxt.
  assert (Hlog : log_small (log ++ q)) by (unfold log_small; lia).
  destruct si_flight0 as [Hfl Hpu]. destruct si_conv0 as [Hc1 Hc2].
  assert (Hmatch : Forall (matches (log ++ q)) (snd_buf a')).
  { apply Forall2_app_inv_l in Hfr as (l1 & l2 & Hl1 & Hl2 & Hbuf). rewrite Hbuf, fmap_app in Hsns.
    apply app_inj_1 in Hsns as [Hs1 Hs2]; [|by rewrite !length_fmap, (Forall2_length _ _ _ Hl1)].
    rewrite Hbuf. apply Forall_app. split; [|by apply matches_new].
    clear -Hfl Hl1 Hs1. induction Hl1 as [|x y l l' Hxy _ IH]; [constructor|]. csimpl in Hs1.
    apply Forall_cons in Hfl as [(i & t & Hi & Hx & (?&?&?)) Hfl]. injection Hs1 as Hxs Hs1.
    constructor; [|by apply IH]. destruct Hxy as (?&?&?). exists i, t.
    split; [by apply lookup_app_l_Some|]. split; [congruence|]. split; [congruence|split; congruence]. }
  assert (Hpu' : Forall (pushed a') (snd_buf a')).
  { eapply Forall_impl; [exact (Hcmds Hpu)|]. intros s [? ?]. split; [done|congruence]. }
  assert (Hfrags : (log ++ q) ++ snd_queue a' = concat frags) by (by rewrite <- app_assoc, <- Hq).
  exists (log ++ q), c, frags, j. split; cbn; try done; try congruence.
  - split; congruence.
  - split; congruence.
  - apply Forall_app. split; [by apply net_frame|].
    apply (good_flush (conv b) a a'); try done; [congruence|apply si_A0|].
    pose proof (frags_segs frags ms si_msgs0 si_bytes0) as Hall. rewrite <- Hfrags in Hall.
    by apply Forall_app in Hall as [? _].
  - by apply hist_log.
Qed.

Lemma net_update_sender_inv a b nt ms mr cur a' outs :
  sys_inv (mkSys a b nt ms mr) -> ikcp_update a cur = Ok (a', outs) -> snd_nxt a' <= 2 ^ 30 ->
  sys_inv (mkSys a' b (nt ++ outs) ms mr).
Proof.
  intros Hs Hrun Hlim. destruct (ikcp_update_cases a cur) as (k1 & Hk1 & Hu & Hcase).
  assert (Hs1 : sys_inv (mkSys k1 b nt ms mr)).
  { rewrite Hk1. destruct Hs as (log & c & frags & j & []). exists log, c, frags, j.
    split; try done. by apply kcp_inv_clock. }
  destruct Hcase as [Hc|Hc]; rewrite Hc in Hrun.
  - by eapply net_flush_inv.
  - injection Hrun as <- <-. by rewrite app_nil_r.
Qed.

Lemma net_input_sender_inv m a b nt ms mr data a' c :
  alloc_all m -> sys_inv (mkSys a b nt ms mr) -> is_bytes data -> zlen data < 2 ^ 31 ->
  ackcount a + zlen data < 2 ^ 28 -> ikcp_input LP64 m a (Some data) (zlen data) = Ok (a', c) ->
  sys_inv (mkSys a' b nt ms mr).
Proof.
  intros Hm (log & cs & frags & j & []) Hb Hz Ha Hrun. cbn [sysA sysB net msgs_sent msgs_read] in *.
  destruct (ikcp_input_ok m a data) as (a1 & c1 & E & Hk' & _); [done..|]. rewrite E in Hrun.
  injection Hrun as -> ->. apply snd_kept_input in E as [Hconf Hn Hq Hbuf].
  injection Hconf as Hcv Ho _ _ Hst. destruct si_flight0 as [Hfl Hpu].
  destruct si_out0, si_conv0. exists log, cs, frags, j.
  split; cbn; try done; try congruence; try (split; congruence).
  - rewrite !Forall_forall in *. split; intros s' Hs'; destruct (Hbuf s' Hs') as (s & Hs & Hrs).
    + eapply matches_resent; [exact Hrs|auto].
    + destruct (Hpu s Hs). destruct Hrs. split; congruence.
Qed.

Lemma pack_bytes g : Forall (fun s => is_bytes (seg_data s)) g -> is_bytes (pack g).
Proof.
  induction 1 as [|s g Hs _ IH]; [constructor|]. change (pack (s :: g)) with (seg_bytes s ++ pack g).
  apply Forall_app. split; [|done]. apply Forall_app. split; [apply header_is_bytes|done].
Qed.

Lemma net_deliver_inv m a b nt ms mr d b' c :
  alloc_all m -> sys_inv (mkSys a b nt ms mr) -> d ∈ nt -> ackcount b + zlen d < 2 ^ 28 ->
  ikcp_input LP64 m b (Some d) (zlen d) = Ok (b', c) -> sys_inv (mkSys a b' nt ms mr).
Proof.
  intros Hm (log & cs & frags & j & []) Hd Ha Hrun. cbn [sysA sysB net msgs_sent msgs_read] in *.
  pose proof si_net0 as Hnet. rewrite Forall_forall in Hnet. destruct (Hnet d Hd) as (g & -> & Hg & Hz).
  assert (Hb : is_bytes (pack g)) by (apply pack_bytes; eapply Forall_impl; [exact Hg|]; by intros s []).
  destruct (ikcp_input_ok m b (pack g)) as (b1 & c1 & E & Hk' & _); [done..|]. rewrite E in Hrun.
  injection Hrun as -> ->. pose proof E as E'. apply snd_kept_input in E' as [Hconf _ _ _].
  injection Hconf as Hcv Ho _ _ _. destruct si_conv0 as [Hc1 Hc2].
  apply (hist_input m log cs g) in E; [|done..].
  destruct si_out0. exists log, cs, frags, j.
  split; cbn; try done; try congruence; try (split; congruence). by rewrite Hcv.
Qed.

Lemma net_update_receiver_inv a b nt ms mr cur b' outs :
  sys_inv (mkSys a b nt ms mr) -> ikcp_update b cur = Ok (b', outs) -> sys_inv (mkSys a b' nt ms mr).
Proof.
  intros Hs Hrun. destruct (ikcp_update_cases b cur) as (k1 & Hk1 & Hu & Hcase).
  assert (Hs1 : sys_inv (mkSys a k1 nt ms mr)).
  { rewrite Hk1. destruct Hs as (log & c & frags & j & []). exists log, c, frags, j.
    split; try done; [by apply kcp_inv_clock|]. by eapply hist_view; [|exact si_hist0]. }
  destruct Hcase as [Hc|Hc]; rewrite Hc in Hrun; [|by injection Hrun as <- _].
  destruct Hs1 as (log & c & frags & j & []). cbn [sysA sysB net msgs_sent msgs_read] in *. destruct si_out0 as [Ho1 Ho2].
  destruct (ikcp_flush_ok k1 si_B0 Ho2 Hu) as (b1 & outs1 & E & Hk' & [_ _ _ _ _ Hfrm]).
  rewrite E in Hrun. injection Hrun as -> _.
  assert (Hv : rcv_view b' = rcv_view k1) by (unfold rcv_view; unfold untouched in Hfrm; congruence).
  injection Hfrm as Hcv Ho _ _ _ _ _ _ _ _ _.
  destruct si_conv0. exists log, c, frags, j.
  split; cbn; try done; try congruence; try (split; congruence); [by rewrite Hcv|].
  by eapply hist_view.
Qed.

(** The receiver's queue continues the stream of messages. *)
Lemma queue_continues log c frags sq j k :
  hist log c k -> log ++ sq = concat frags -> Forall2 same_fragment (concat (take j frags)) c ->
  Forall2 same_fragment (take (length (rcv_queue k)) (concat (drop j frags))) (rcv_queue k).
Proof.
  intros [H1 H2 _ _] Hlog Hc. pose proof (Forall2_length _ _ _ Hc) as Hlen.
  apply (Forall2_drop _ _ _ (length c)) in H2. rewrite drop_app_length in H2.
  rewrite skipn_firstn_comm in H2. rewrite length_app in H1, H2.
  replace (length c + length (rcv_queue k) - length c)%nat with (length (rcv_queue k)) in H2 by lia.
  assert (Hdrop : drop (length c) (log ++ sq) = concat (drop j frags)).
  { rewrite Hlog, <- (take_drop j frags) at 1. rewrite concat_app, <- Hlen. apply drop_app_length. }
  rewrite drop_app_le in Hdrop by lia. rewrite <- Hdrop, take_app_le; [done|].
  rewrite length_drop. lia.
Qed.

Lemma net_recv_inv a b nt ms mr len b' n out :
  sys_inv (mkSys a b nt ms mr) -> ikcp_recv b true len = Ok (b', n, out) ->
  sys_inv (mkSys a b' nt ms (if (0 <=? len) && (0 <=? n) then mr ++ [out] else mr)).
Proof.
  intros (log & c & frags & j & []) Hrun. cbn [sysA sysB net msgs_sent msgs_read] in *. pose proof (inv_rcv b si_B0) as Hri.
  pose proof (recv_keeps_rcv_inv _ _ _ _ _ _ Hri Hrun) as Hri'.
  pose proof (kcp_inv_recv _ _ _ _ _ _ si_B0 Hrun Hri') as Hk'.
  pose proof (recv_frame _ _ _ _ _ _ Hrun) as Hf.
  assert (Hcv : conv b' = conv b) by (by rewrite Hf). assert (Ho : output b' = output b) by (by rewrite Hf).
  clear Hf. destruct si_read0 as [Hj Hmr]. destruct si_out0 as [Ho1 Ho2]. destruct si_conv0 as [Hc1 Hc2].
  destruct (recv_effect b len b' n out Hri Hrun) as
    [[Hn ->]|(Hn & Hr & m & r & d & Hm & -> & Hq & Hs & Hnx & Hbuf)].
  { exists log, c, frags, j. destruct (Z.leb_spec 0 n); [lia|]. rewrite andb_false_r. by split. }
  destruct (Z.leb_spec 0 n); [|lia]. rewrite andb_true_r.
  pose proof (first_message_app _ _ _ Hm) as Happ.
  assert (Hdb : Forall (matches log) (d ++ rcv_buf b')) by (rewrite <- Hbuf; apply si_hist0).
  destruct (Z.ltb_spec len 0) as [Hlt|Hge]; (destruct (Z.leb_spec 0 len); [try lia|try lia]).
  - exists log, c, frags, j. split; cbn; try done; try congruence; try (split; congruence).
    + by rewrite Hcv.
    + eapply hist_deliver; [done|exact si_hist0| |done..]. rewrite Hq, Happ. by rewrite <- !app_assoc.
  - pose proof (queue_continues log c frags (snd_queue a) j b si_hist0 si_frags0 si_consumed0) as Hcont.
    pose proof (recv_ready_nonempty _ _ Hr) as Hne.
    destruct (drop j frags) as [|f fr] eqn:Hdf.
    { cbn in Hcont. rewrite take_nil in Hcont. apply Forall2_nil_inv_l in Hcont. done. }
    assert (Hfj : frags !! j = Some f) by (by rewrite <- (Nat.add_0_r j), <- lookup_drop, Hdf).
    destruct (Forall2_lookup_l _ _ _ _ _ si_msgs0 Hfj) as (msg & Hmsg & Hfm). cbn in Hcont.
    destruct (next_message b len f (concat fr) msg Hri Hr Hfm Hcont) as (m' & r' & Hm' & Hsame).
    rewrite Hm in Hm'. injection Hm' as <- <-.
    assert (Hout : payload m = msg) by (rewrite <- (same_fragment_payload _ _ Hsame); apply Hfm).
    exists log, (c ++ m), frags, (S j). split; cbn; try done; try congruence; try (split; congruence).
    + by rewrite Hcv.
    + eapply hist_deliver; [done|exact si_hist0| |done..]. rewrite Hq, Happ. by rewrite <- !app_assoc.
    + rewrite (take_S_r _ _ _ Hfj), concat_app. cbn. rewrite app_nil_r. by apply Forall2_app.
    + split; [by apply lookup_lt_Some in Hfj|]. by rewrite (take_S_r _ _ _ Hmsg), Hmr, Hout.
Qed.

Lemma net_step_inv m s s' : alloc_all m -> sys_inv s -> net_step m s s' -> sys_inv s'.
Proof.
  intros Hm Hs Hstep. destruct Hstep.
  - by eapply net_send_inv.
  - by eapply net_update_sender_inv.
  - by eapply net_input_sender_inv.
  - by eapply net_deliver_inv.
  - by eapply net_update_receiver_inv.
  - by eapply net_recv_inv.
Qed.

(** ** Main results *)

Lemma net_reachable_inv m s0 s :
  alloc_all m -> sys_start m s0 -> rtc (net_step m) s0 s -> sys_inv s.
Proof.
  intros Hm H0 Hrun. apply sys_start_inv in H0. induction Hrun as [|x y z Hxy _ IH]; [done|].
  apply IH. by eapply net_step_inv.
Qed.

Lemma sys_inv_prefix s : sys_inv s -> msgs_read s `prefix_of` msgs_sent s.
Proof.
  intros (log & c & frags & j & []). destruct si_read0 as [_ ->].
  exists (drop j (msgs_sent s)). by rewrite take_drop.
Qed.

(** C1: reliable delivery.  Start from two control blocks as [ikcp_create] makes
    them and let the network do anything: lose, duplicate, delay and reorder the
    sender's datagrams, feed arbitrary bytes to the sender.  Within the first
    [2^30] segments, in every reachable state the messages [ikcp_recv] returned
    are, byte for byte and in order, a prefix of the messages [ikcp_send]
    accepted, and both control blocks satisfy their invariant. *)
Theorem kcp_reliable_delivery m s0 s :
  alloc_all m -> sys_start m s0 -> rtc (net_step m) s0 s ->
  msgs_read s `prefix_of` msgs_sent s /\ kcp_inv (sysA s) /\ kcp_inv (sysB s).
Proof.
  intros Hm H0 Hrun. pose proof (net_reachable_inv m s0 s Hm H0 Hrun) as Hs.
  split; [by apply sys_inv_prefix|]. destruct Hs as (log & c & frags & j & []). done.
Qed.

(** A run: one message is sent; the second flush puts it on the wire; the
    network delivers the datagram twice; the message is read. *)
Definition hello : list Z := [104; 101; 108; 108; 111].
Definition run_0 : IKCPCB := ikcp_setoutput kcp_fresh true.
Definition run_1 : IKCPCB := match ikcp_send mem_ok run_0 (Some hello) 5 with Ok (a, _) => a | _ => run_0 end.
Definition run_2 : IKCPCB := match ikcp_update run_1 0 with Ok (a, _) => a | _ => run_0 end.
Definition run_3 : IKCPCB := match ikcp_update run_2 100 with Ok (a, _) => a | _ => run_0 end.
Definition run_out : list (list Z) := match ikcp_update run_2 100 with Ok (_, d) => d | _ => [] end.
Definition run_d : list Z := default [] (head run_out).
Definition run_4 : IKCPCB :=
  match ikcp_input LP64 mem_ok run_0 (Some run_d) (zlen run_d) with Ok (b, _) => b | _ => run_0 end.
Definition run_5 : IKCPCB :=
  match ikcp_input LP64 mem_ok run_4 (Some run_d) (zlen run_d) with Ok (b, _) => b | _ => run_0 end.
Definition run_6 : IKCPCB := match ikcp_recv run_5 true 100 with Ok (b, _, _) => b | _ => run_0 end.

Lemma kcp_reliable_delivery_witness :
  let s := mkSys run_3 run_6 run_out [hello] [hello] in
  rtc (net_step mem_ok) (mkSys run_0 run_0 [] [] []) s /\
  (msgs_read s `prefix_of` msgs_sent s /\ kcp_inv (sysA s) /\ kcp_inv (sysB s)).
Proof.
  intros s.
  assert (Hrun : rtc (net_step mem_ok) (mkSys run_0 run_0 [] [] []) s).
  { eapply rtc_l; [apply (step_send _ run_0 run_0 [] [] [] hello run_1); [by_decide..|vm_compute; reflexivity]|].
    eapply rtc_l; [apply (step_update_sender _ run_1 run_0 [] _ _ 0 run_2 []); [vm_compute; reflexivity|by_decide]|].
    eapply rtc_l; [apply (step_update_sender _ run_2 run_0 [] _ _ 100 run_3 run_out); [vm_compute; reflexivity|by_decide]|].
    eapply rtc_l; [apply (step_deliver _ run_3 run_0 run_out _ _ run_d run_4 0);
                   [by_decide|by_decide|vm_compute; reflexivity]|].
    eapply rtc_l; [apply (step_deliver _ run_3 run_4 run_out _ _ run_d run_5 0);
                   [by_decide|by_decide|vm_compute; reflexivity]|].
    eapply rtc_l; [apply (step_recv _ run_3 run_5 run_out _ _ 100 run_6 5 hello); vm_compute; reflexivity|].
    apply rtc_refl. }
  split; [exact Hrun|].
  apply (kcp_reliable_delivery mem_ok (mkSys run_0 run_0 [] [] [])); [exact mem_ok_all| |exact Hrun].
  exists kcp_fresh, 400. split; [reflexivity|]. split; [by_decide|]. done.
Defined.
