(* ===== verification/Links.v ===== *)
(** * Intrusive circular lists

    The [IQUEUE] macros of [src/3rd/kcp/src/ikcp.h] and the [QUEUE] macros of
    libuv's [queue.h]: a list head and the nodes inside of the elements are pairs
    of pointers, linked in a circle.  Every macro is the sequence of its
    assignments on a store of such pairs; the theorems show that it does to the
    list of nodes behind a head what its name says, wherever it is applied. *)

From S2P Require Import Prelude.

(** ** State *)

(** [struct IQUEUEHEAD] and [QUEUE]. *)
Record IQUEUEHEAD := mkLink { lk_next : Z; lk_prev : Z }.
#[export] Instance eta_link : Eta IQUEUEHEAD := fun k => mkLink (lk_next k) (lk_prev k).

(** The store: the heads and nodes that exist, by address. *)
Abbreviation links := (gmap Z IQUEUEHEAD).

Definition next (m : links) (p : Z) : outcome Z :=
  match m !! p with Some k => Ok (lk_next k) | None => Crash NullDeref end.
Definition prev (m : links) (p : Z) : outcome Z :=
  match m !! p with Some k => Ok (lk_prev k) | None => Crash NullDeref end.
Definition set_next (m : links) (p v : Z) : outcome links :=
  match m !! p with Some k => Ok (<[p := k <| lk_next := v |>]> m) | None => Crash NullDeref end.
Definition set_prev (m : links) (p v : Z) : outcome links :=
  match m !! p with Some k => Ok (<[p := k <| lk_prev := v |>]> m) | None => Crash NullDeref end.

(** ** The macros of ikcp.h *)

Definition iqueue_init (m : links) (ptr : Z) : outcome links :=
  m ← set_next m ptr ptr;
  set_prev m ptr ptr.

Definition iqueue_add (m : links) (node head : Z) : outcome links :=
  m ← set_prev m node head;
  n ← next m head;
  m ← set_next m node n;
  n ← next m head;
  m ← set_prev m n node;
  set_next m head node.

Definition iqueue_add_tail (m : links) (node head : Z) : outcome links :=
  p ← prev m head;
  m ← set_prev m node p;
  m ← set_next m node head;
  p ← prev m head;
  m ← set_next m p node;
  set_prev m head node.

Definition iqueue_del (m : links) (entry : Z) : outcome links :=
  n ← next m entry;
  p ← prev m entry;
  m ← set_prev m n p;
  p ← prev m entry;
  n ← next m entry;
  m ← set_next m p n;
  m ← set_next m entry 0;
  set_prev m entry 0.

Definition iqueue_del_init (m : links) (entry : Z) : outcome links :=
  m ← iqueue_del m entry;
  iqueue_init m entry.

Definition iqueue_is_empty (m : links) (entry : Z) : outcome bool :=
  n ← next m entry;
  Ok (entry =? n).

(** [iqueue_foreach_entry]: the nodes [pos] takes, in order. *)
Fixpoint foreach_loop (fuel : nat) (m : links) (pos head : Z) : outcome (list Z) :=
  match fuel with
  | O => Crash OutOfFuel
  | S fuel =>
    if pos =? head then Ok []
    else n ← next m pos; rest ← foreach_loop fuel m n head; Ok (pos :: rest)
  end.

Definition iqueue_foreach_entry (fuel : nat) (m : links) (head : Z) : outcome (list Z) :=
  n ← next m head;
  foreach_loop fuel m n head.

Definition __iqueue_splice (m : links) (list head : Z) : outcome links :=
  first ← next m list;
  last ← prev m list;
  at_ ← next m head;
  m ← set_prev m first head;
  m ← set_next m head first;
  m ← set_next m last at_;
  set_prev m at_ last.

Definition iqueue_splice (m : links) (list head : Z) : outcome links :=
  e ← iqueue_is_empty m list;
  if (e : bool) then Ok m else __iqueue_splice m list head.

Definition iqueue_splice_init (m : links) (list head : Z) : outcome links :=
  m ← iqueue_splice m list head;
  iqueue_init m list.

(** ** The macros of libuv's queue.h *)

Definition QUEUE_EMPTY (m : links) (q : Z) : outcome bool :=
  n ← next m q;
  Ok (q =? n).

Definition QUEUE_HEAD (m : links) (q : Z) : outcome Z := next m q.

Definition QUEUE_INIT (m : links) (q : Z) : outcome links :=
  m ← set_next m q q;
  set_prev m q q.

(** [QUEUE_PREV_NEXT(q) = v] and [QUEUE_NEXT_PREV(q) = v] *)
Definition set_prev_next (m : links) (q v : Z) : outcome links := p ← prev m q; set_next m p v.
Definition set_next_prev (m : links) (q v : Z) : outcome links := n ← next m q; set_prev m n v.

Definition QUEUE_ADD (m : links) (h n : Z) : outcome links :=
  x ← next m n;
  m ← set_prev_next m h x;
  x ← prev m h;
  m ← set_next_prev m n x;
  x ← prev m n;
  m ← set_prev m h x;
  set_prev_next m h h.

Definition QUEUE_SPLIT (m : links) (h q n : Z) : outcome links :=
  x ← prev m h;
  m ← set_prev m n x;
  m ← set_prev_next m n n;
  m ← set_next m n q;
  x ← prev m q;
  m ← set_prev m h x;
  m ← set_prev_next m h h;
  set_prev m q n.

Definition QUEUE_MOVE (m : links) (h n : Z) : outcome links :=
  e ← QUEUE_EMPTY m h;
  if (e : bool) then QUEUE_INIT m n
  else q ← QUEUE_HEAD m h; QUEUE_SPLIT m h q n.

Definition QUEUE_INSERT_HEAD (m : links) (h q : Z) : outcome links :=
  x ← next m h;
  m ← set_next m q x;
  m ← set_prev m q h;
  m ← set_next_prev m q q;
  set_next m h q.

Definition QUEUE_INSERT_TAIL (m : links) (h q : Z) : outcome links :=
  m ← set_next m q h;
  x ← prev m h;
  m ← set_prev m q x;
  m ← set_prev_next m q q;
  set_prev m h q.

Definition QUEUE_REMOVE (m : links) (q : Z) : outcome links :=
  x ← next m q;
  m ← set_prev_next m q x;
  x ← prev m q;
  set_next_prev m q x.

(** ** Circles

    [n] and [p] are the fields of the nodes as functions; [chain n p L] says that
    neighbours in [L] point at each other. *)

Fixpoint chain (n p : Z -> Z) (L : list Z) : Prop :=
  match L with
  | x :: (y :: _) as L' => n x = y /\ p y = x /\ chain n p L'
  | _ => True
  end.

(** The circle of the head [h] and the nodes [l] behind it. *)
Definition circle (n p : Z -> Z) (h : Z) (l : list Z) : Prop := chain n p (h :: l ++ [h]) /\ NoDup (h :: l).

Definition upd (f : Z -> Z) (x v q : Z) : Z := if decide (q = x) then v else f q.

Lemma upd_eq f x v : upd f x v x = v.
Proof. unfold upd. by rewrite decide_True. Qed.
Lemma upd_ne f x v q : q <> x -> upd f x v q = f q.
Proof. intros. unfold upd. by rewrite decide_False. Qed.

Create Rewrite HintDb upd.
#[export] Hint Rewrite upd_eq : upd.
#[export] Hint Rewrite upd_ne using congruence : upd.

Section chains.
Implicit Types n p : Z -> Z.
Implicit Types l L : list Z.

Lemma chain_cons n p x y L : chain n p (x :: y :: L) <-> n x = y /\ p y = x /\ chain n p (y :: L).
Proof. done. Qed.

Lemma chain_app n p l x L : chain n p (l ++ x :: L) <-> chain n p (l ++ [x]) /\ chain n p (x :: L).
Proof.
  induction l as [|y l IH]; [cbn; destruct L; tauto|]. destruct l as [|z l]; cbn [Datatypes.app chain] in *; [cbn; tauto|].
  rewrite IH. tauto.
Qed.

Lemma chain_ext n p n' p' L : chain n p L -> (forall x, x ∈ removelast L -> n' x = n x) -> (forall x, x ∈ tail L -> p' x = p x) -> chain n' p' L.
Proof.
  induction L as [|x L IH]; [done|]. destruct L as [|y L]; [done|]. cbn [chain]. intros (Hn & Hp & Hc) En Ep. split_and!.
  - rewrite En; [done|]. cbn. by left.
  - rewrite Ep; [done|]. cbn. by left.
  - apply IH; [done| |]; intros z Hz; [apply En; by right|apply Ep; cbn; destruct L; [by apply not_elem_of_nil in Hz|by right]].
Qed.

(** The fields that matter in a chain with the last node set apart. *)
Lemma chain_ext_snoc n p n' p' x L y : chain n p (x :: L ++ [y]) -> (forall z, z ∈ x :: L -> n' z = n z) ->
  (forall z, z ∈ L ++ [y] -> p' z = p z) -> chain n' p' (x :: L ++ [y]).
Proof.
  intros Hc En Ep. apply (chain_ext n p); [done| |done]. intros z Hz. apply En.
  rewrite app_comm_cons, removelast_last in Hz. done.
Qed.

Lemma circle_first n p h l : circle n p h l -> exists L, l ++ [h] = n h :: L.
Proof. intros [Hc _]. destruct l as [|y l]; cbn in Hc; [exists []; by destruct Hc as [-> _]|]. exists (l ++ [h]). by destruct Hc as [-> _]. Qed.

Lemma chain_last n p x l y : chain n p (x :: l ++ [y]) -> exists L, x :: l = L ++ [p y] /\ chain n p (x :: l).
Proof.
  intros Hc. destruct l as [|z l _] using rev_ind; [exists []; cbn in Hc; by destruct Hc as (_ & -> & _)|].
  exists (x :: l). rewrite <- app_assoc in Hc. cbn [Datatypes.app] in Hc. rewrite app_comm_cons, chain_app in Hc.
  destruct Hc as [Hc (_ & -> & _)]. done.
Qed.

Lemma circle_last n p h l : circle n p h l -> exists L, h :: l = L ++ [p h].
Proof. intros [Hc _]. destruct (chain_last _ _ _ _ _ Hc) as (L & E & _). by exists L. Qed.

(** The last node of a list without repetition is not among the others. *)
Lemma nodup_last L x : NoDup (L ++ [x]) -> x ∉ L.
Proof. intros (_ & Hd & _)%NoDup_app H. apply (Hd _ H). by apply list_elem_of_singleton. Qed.

Lemma circle_next_in n p h l : circle n p h l -> n h ∈ h :: l.
Proof. intros (L & E)%circle_first. assert (n h ∈ l ++ [h]) as H by (rewrite E; by left). revert H. rewrite elem_of_app, list_elem_of_singleton, elem_of_cons. tauto. Qed.
Lemma circle_prev_in n p h l : circle n p h l -> p h ∈ h :: l.
Proof. intros (L & E)%circle_last. rewrite E, elem_of_app, list_elem_of_singleton. by right. Qed.

Lemma circle_rotate n p h l1 x l2 : circle n p h (l1 ++ x :: l2) -> circle n p x (l2 ++ h :: l1).
Proof.
  intros [Hc Hd]. split.
  - rewrite <- app_assoc in Hc. cbn [Datatypes.app] in Hc. rewrite app_comm_cons, chain_app in Hc. destruct Hc as [H1 H2].
    rewrite <- app_assoc. cbn [Datatypes.app]. rewrite (app_comm_cons l2), chain_app. split; [by rewrite <- app_comm_cons|done].
  - revert Hd. apply NoDup_Permutation_proper. rewrite <- !Permutation_middle. by rewrite (Permutation_app_comm l2), Permutation_swap.
Qed.

(** [iqueue_is_empty] *)
Lemma circle_empty n p h l : circle n p h l -> n h = h <-> l = [].
Proof.
  intros [Hc Hd]. destruct l as [|y l]; cbn in Hc; [naive_solver|]. destruct Hc as [-> _]. apply NoDup_cons in Hd as [Hd _].
  split; [intros ->; destruct Hd; by left|done].
Qed.

Lemma circle_single h n p : n h = h -> p h = h -> circle n p h [].
Proof. intros En Ep. split; [done|]. apply NoDup_singleton. Qed.

(** Changes outside of a circle. *)
Lemma circle_frame n p n' p' h l : circle n p h l -> (forall q, q ∈ h :: l -> n' q = n q /\ p' q = p q) -> circle n' p' h l.
Proof.
  intros [Hc Hd] He. split; [|done]. apply (chain_ext_snoc n p); [done| |]; intros z Hz; apply He; [done|].
  revert Hz. rewrite elem_of_app, list_elem_of_singleton, elem_of_cons. tauto.
Qed.

(** The nodes of a circle without repetition, from the head on and up to it. *)
Lemma circle_nodup n p h l : circle n p h l -> NoDup (l ++ [h]).
Proof. intros [_ Hd]. revert Hd. apply NoDup_Permutation_proper. symmetry. apply Permutation_cons_append. Qed.

Lemma in_snoc x l h : x ∈ l ++ [h] <-> x ∈ h :: l.
Proof. rewrite elem_of_app, list_elem_of_singleton, elem_of_cons. tauto. Qed.

Lemma circle_add n p h l x : circle n p h l -> x ∉ h :: l ->
  circle (upd (upd n x (n h)) h x) (upd (upd p x h) (n h) x) h (x :: l).
Proof.
  intros Hc Hx. destruct (circle_first _ _ _ _ Hc) as (L & EL). pose proof (circle_nodup _ _ _ _ Hc) as HdL.
  destruct Hc as [Hc Hd]. rewrite EL in Hc, HdL. apply NoDup_cons in HdL as [HnL _].
  assert (HxL : x ∉ n h :: L) by (by rewrite <- EL, in_snoc). rewrite not_elem_of_cons in HxL. destruct HxL as [Hxn HxL].
  apply not_elem_of_cons in Hx as [Hxh Hxl]. split.
  - cbn [Datatypes.app chain]. rewrite EL. destruct Hc as (_ & _ & Hc). split_and!; autorewrite with upd; try done.
    apply (chain_ext n p); [done| |]; intros z Hz.
    + rewrite <- EL, removelast_last in Hz. apply NoDup_cons in Hd as [Hd _]. rewrite !upd_ne; congruence.
    + cbn in Hz. rewrite !upd_ne; congruence.
  - apply NoDup_cons in Hd as [Hd1 Hd2]. constructor; [by rewrite not_elem_of_cons|by constructor].
Qed.

Lemma circle_add_tail n p h l x : circle n p h l -> x ∉ h :: l ->
  circle (upd (upd n x h) (p h) x) (upd (upd p x (p h)) h x) h (l ++ [x]).
Proof.
  intros Hc Hx. destruct (circle_last _ _ _ _ Hc) as (L & EL). destruct Hc as [Hc Hd].
  rewrite app_comm_cons, EL, <- app_assoc in Hc. cbn [Datatypes.app] in Hc. rewrite chain_app in Hc. destruct Hc as [Hc _].
  assert (HxL : x ∉ L ++ [p h]) by (by rewrite <- EL). rewrite in_snoc, not_elem_of_cons in HxL. destruct HxL as [Hxp HxL].
  assert (HpL : p h ∉ L). { rewrite EL in Hd. apply NoDup_app in Hd as (_ & Hd & _). intros H. apply (Hd _ H). by apply list_elem_of_singleton. }
  split.
  - replace (h :: (l ++ [x]) ++ [h]) with (L ++ p h :: [x; h]) by (rewrite <- app_assoc; cbn; rewrite app_comm_cons, EL, <- app_assoc; done).
    rewrite chain_app. split.
    + apply (chain_ext n p); [done| |]; intros z Hz; [rewrite removelast_last in Hz; rewrite !upd_ne; congruence|].
      rewrite <- EL in Hz. cbn in Hz. apply NoDup_cons in Hd as [Hd _]. apply not_elem_of_cons in Hx as [_ Hx]. rewrite !upd_ne; congruence.
    + apply not_elem_of_cons in Hx as [Hxh _]. cbn [chain]. split_and!; autorewrite with upd; done.
  - rewrite app_comm_cons. apply NoDup_app. split_and!; [done| |apply NoDup_singleton]. intros z Hz ->%list_elem_of_singleton. done.
Qed.

(** Removing the head of a circle leaves the circle of the others. *)
Lemma circle_del n p e a l : circle n p e (a :: l) -> circle (upd n (p e) a) (upd p a (p e)) a l.
Proof.
  intros Hc. destruct (circle_last _ _ _ _ Hc) as (L & EL). destruct L as [|e' L]; [done|]. cbn in EL. injection EL as <- EL.
  destruct Hc as [Hc Hd]. apply NoDup_cons in Hd as [_ Hd]. split; [|done].
  cbn [Datatypes.app] in Hc. rewrite chain_cons in Hc. destruct Hc as (_ & _ & Hc).
  rewrite app_comm_cons, EL, <- app_assoc in Hc. cbn [Datatypes.app] in Hc. rewrite chain_app in Hc. destruct Hc as [Hc _].
  rewrite app_comm_cons, EL, <- app_assoc. cbn [Datatypes.app]. rewrite chain_app.
  assert (HpL : p e ∉ L). { rewrite EL in Hd. apply NoDup_app in Hd as (_ & Hd & _). intros H. apply (Hd _ H). by apply list_elem_of_singleton. }
  split; [|cbn; autorewrite with upd; done].
  apply (chain_ext n p); [done| |]; intros z Hz; [rewrite removelast_last in Hz; rewrite upd_ne; congruence|].
  rewrite <- EL in Hz. cbn in Hz. apply NoDup_cons in Hd as [Hd _]. rewrite upd_ne; congruence.
Qed.

(** A circle seen from another node. *)
Lemma circle_turn n p a l h l1 l2 : circle n p a l -> a :: l = l2 ++ h :: l1 -> circle n p h (l1 ++ l2).
Proof.
  intros Hc E. destruct l2 as [|b l2]; cbn in E; simplify_eq; [by rewrite app_nil_r|]. by apply circle_rotate.
Qed.

(** Removing any node. *)
Lemma circle_del_at n p h l1 e l2 : circle n p h (l1 ++ e :: l2) -> circle (upd n (p e) (n e)) (upd p (n e) (p e)) h (l1 ++ l2).
Proof.
  intros Hc%circle_rotate. destruct (l2 ++ h :: l1) as [|a l] eqn:E; [by destruct l2|].
  assert (n e = a) as -> by (destruct Hc as [(-> & _) _]; done). eapply circle_turn; [by apply circle_del|done].
Qed.

(** A circle put into another one, behind its head. *)
Lemma circle_splice n p a la h lh : circle n p a la -> circle n p h lh -> la <> [] -> (forall z, z ∈ a :: la -> z ∉ h :: lh) ->
  circle (upd (upd n h (n a)) (p a) (n h)) (upd (upd p (n a) h) (n h) (p a)) h (la ++ lh).
Proof.
  intros Ha Hh Hne Hdis. destruct (circle_last _ _ _ _ Ha) as (L & EL). destruct L as [|a' la0]; [by destruct la|]. cbn in EL. injection EL as <- EL.
  destruct (circle_first _ _ _ _ Hh) as (Lh & ELh). pose proof (circle_nodup _ _ _ _ Hh) as Hdh.
  pose proof (circle_next_in _ _ _ _ Hh) as Hnh. destruct Ha as [Ha Hda], Hh as [Hh Hdh'].
  destruct la as [|f la]; [done|]. cbn [Datatypes.app] in Ha. rewrite chain_cons in Ha. destruct Ha as (-> & _ & Ha).
  rewrite app_comm_cons, EL, <- app_assoc in Ha. cbn [Datatypes.app] in Ha. rewrite chain_app in Ha. destruct Ha as [Ha _].
  rewrite ELh in Hh, Hdh. rewrite chain_cons in Hh. destruct Hh as (_ & _ & Hh). apply NoDup_cons in Hdh as [Hdh _].
  apply NoDup_cons in Hda as [_ Hda]. pose proof Hda as Hda'. rewrite EL in Hda'. apply NoDup_app in Hda' as (_ & Hpa & _).
  assert (Hpa' : p a ∉ la0) by (intros H; apply (Hpa _ H); by apply list_elem_of_singleton). clear Hpa.
  assert (Hf : f ∉ h :: lh) by (apply Hdis; right; by left).
  assert (Hz : p a ∉ h :: lh) by (apply Hdis; right; rewrite EL, elem_of_app, list_elem_of_singleton; by right).
  assert (HinL : forall z, z ∈ Lh -> z ∈ h :: lh) by (intros z Hz'; rewrite <- in_snoc, ELh; by right).
  apply not_elem_of_cons in Hf as [Hfh Hfl]. apply not_elem_of_cons in Hz as [Hzh Hzl]. split.
  - rewrite <- app_assoc, ELh. replace (h :: (f :: la) ++ n h :: Lh) with ((h :: la0) ++ p a :: n h :: Lh) by (rewrite EL, <- app_assoc; done).
    rewrite chain_app. split; [|rewrite chain_cons; split_and!; [by rewrite upd_eq|by rewrite upd_eq|]].
    + cbn [Datatypes.app]. rewrite <- EL, chain_cons. split_and!.
      * rewrite upd_ne by done. by rewrite upd_eq.
      * rewrite upd_ne, upd_eq; [done|]. intros E. apply elem_of_cons in Hnh as [?|?]; congruence.
      * rewrite <- EL in Ha. apply (chain_ext n p); [done| |]; intros z Hz.
        -- rewrite EL, removelast_last in Hz. rewrite !upd_ne; [done| |congruence]. intros ->. apply (Hdis h); [right; rewrite EL, elem_of_app; by left|by left].
        -- cbn in Hz. apply NoDup_cons in Hda as [Hda _]. rewrite !upd_ne; [done|congruence|]. intros ->. apply (Hdis (n h)); [right; by right|done].
    + apply (chain_ext n p); [done| |]; intros z Hz.
      * rewrite <- ELh, removelast_last in Hz. apply NoDup_cons in Hdh' as [Hdh' _]. rewrite !upd_ne; congruence.
      * cbn in Hz. rewrite !upd_ne; [done| |congruence]. intros ->. apply HinL in Hz. apply elem_of_cons in Hz as [?|?]; congruence.
  - apply NoDup_cons in Hdh' as [Hd1 Hd2]. constructor.
    + rewrite not_elem_of_app. split; [|done]. intros H. apply (Hdis h); [by right|by left].
    + apply NoDup_app. split_and!; [done| |done]. intros z Hz Hzl'. apply (Hdis z); by right.
Qed.

Lemma circle_prev_next n p h l : circle n p h l -> n (p h) = h.
Proof.
  intros Hc. destruct (circle_last _ _ _ _ Hc) as (L & EL). pose proof (circle_turn _ _ _ _ (p h) [] L Hc EL) as Hz. cbn in Hz.
  destruct L as [|h' L]; cbn in EL; [injection EL as E ->; destruct Hz as [(E' & _) _]; congruence|]. injection EL as <- E. by destruct Hz as [(-> & _) _].
Qed.

(** ... and at its end. *)
Lemma circle_append n p h lh x ln : circle n p h lh -> circle n p x ln -> ln <> [] -> (forall z, z ∈ x :: ln -> z ∉ h :: lh) ->
  circle (upd (upd n (p h) (n x)) (p x) h) (upd (upd p (n x) (p h)) h (p x)) h (lh ++ ln).
Proof.
  intros Hh Hx Hne Hdis. destruct (circle_last _ _ _ _ Hh) as (L & EL). pose proof (circle_turn _ _ _ _ (p h) [] L Hh EL) as Hz. cbn in Hz.
  pose proof (circle_prev_next _ _ _ _ Hh) as Hnz.
  pose proof (circle_splice n p x ln (p h) L Hx Hz Hne) as Hs. rewrite Hnz in Hs.
  assert (Hc : circle (upd (upd n (p h) (n x)) (p x) h) (upd (upd p (n x) (p h)) h (p x)) (p h) (ln ++ L)).
  { apply Hs. intros z Hz' Hin. apply (Hdis z Hz'). by rewrite EL, in_snoc. }
  destruct L as [|h' L]; cbn in EL.
  - injection EL as E ->. rewrite app_nil_r in Hc. cbn. rewrite <- E in Hc. by rewrite <- E.
  - injection EL as <- ->. apply (circle_turn _ _ _ _ h L (p h :: ln)) in Hc; [|done]. by rewrite <- app_assoc.
Qed.

(** The part of a circle from [q] on moved behind the head [x]. *)
Lemma circle_split n p h l1 q l2 x : circle n p h (l1 ++ q :: l2) -> x ∉ h :: l1 ++ q :: l2 ->
  let n' := upd (upd (upd n (p h) x) x q) (p q) h in
  let p' := upd (upd (upd p x (p h)) h (p q)) q x in
  circle n' p' h l1 /\ circle n' p' x (q :: l2).
Proof.
  intros [Hc Hd] Hx n' p'. rewrite <- app_assoc in Hc. cbn [Datatypes.app] in Hc. rewrite app_comm_cons, chain_app in Hc. destruct Hc as [H1 H2].
  cbn [Datatypes.app] in H1. destruct (chain_last _ _ _ _ _ H1) as (c0 & E0 & C0). destruct (chain_last _ _ _ _ _ H2) as (c1 & E1 & C1).
  rewrite app_comm_cons in Hd, Hx. apply NoDup_app in Hd as (Hd0 & Hdis & Hd1). apply not_elem_of_app in Hx as [Hx0 Hx1].
  assert (Hz : p q ∈ h :: l1 /\ p q ∉ c0).
  { rewrite E0 in Hd0 |- *. split; [rewrite elem_of_app, list_elem_of_singleton; by right|by apply nodup_last]. }
  assert (Hl : p h ∈ q :: l2 /\ p h ∉ c1).
  { rewrite E1 in Hd1 |- *. split; [rewrite elem_of_app, list_elem_of_singleton; by right|by apply nodup_last]. }
  assert (Hhq : h <> q) by (intros ->; apply (Hdis q); by left).
  assert (Hxh : x <> h /\ x <> q) by (rewrite !not_elem_of_cons in Hx0, Hx1; tauto).
  assert (Hxz : x <> p q /\ x <> p h) by (split; intros ->; tauto). assert (Hlz : p h <> p q) by (intros E; apply (Hdis (p q)); [tauto|rewrite <- E; tauto]).
  assert (Hin0 : forall z, z ∈ h :: l1 -> z <> x /\ z <> q /\ z <> p h) by (intros z Hz'; split_and!; intros ->; [done|apply (Hdis q); [done|by left]|apply (Hdis (p h)); tauto]).
  assert (Hin1 : forall z, z ∈ q :: l2 -> z <> x /\ z <> h /\ z <> p q) by (intros z Hz'; split_and!; intros ->; [done|apply (Hdis h); [by left|done]|apply (Hdis (p q)); tauto]).
  split; split.
  - rewrite app_comm_cons, E0, <- app_assoc. cbn [Datatypes.app]. rewrite chain_app, <- E0. split.
    + apply (chain_ext n p); [done| |]; intros z Hz'; [rewrite E0, removelast_last in Hz'|cbn in Hz'].
      * destruct (Hin0 z) as (? & ? & ?); [rewrite E0, elem_of_app; by left|]. unfold n'. rewrite !upd_ne; [done|..]; (tauto || (intros ->; tauto)).
      * destruct (Hin0 z) as (? & ? & ?); [by right|]. apply NoDup_cons in Hd0 as [Hd0 _]. unfold p'. rewrite !upd_ne; [done|..]; (tauto || (intros ->; tauto)).
    + unfold n', p'. cbn. autorewrite with upd. done.
  - done.
  - cbn [Datatypes.app]. rewrite chain_cons. split_and!.
    + unfold n'. rewrite upd_ne by tauto. apply upd_eq.
    + unfold p'. apply upd_eq.
    + rewrite app_comm_cons, E1, <- app_assoc. cbn [Datatypes.app]. rewrite chain_app, <- E1. split.
      * apply (chain_ext n p); [done| |]; intros z Hz'; [rewrite E1, removelast_last in Hz'|cbn in Hz'].
        -- destruct (Hin1 z) as (? & ? & ?); [rewrite E1, elem_of_app; by left|]. unfold n'. rewrite !upd_ne; [done|..]; (tauto || (intros ->; tauto)).
        -- destruct (Hin1 z) as (? & ? & ?); [by right|]. apply NoDup_cons in Hd1 as [Hd1 _]. unfold p'. rewrite !upd_ne; [done|..]; (tauto || (intros ->; tauto)).
      * cbn. unfold n', p'. rewrite (upd_ne _ (p q)), (upd_ne _ x), upd_eq, (upd_ne _ q), (upd_ne _ h), upd_eq by (destruct Hxh, Hxz; congruence). done.
  - by constructor.
Qed.
End chains.

(** ** The store *)

Definition nx (m : links) (q : Z) : Z := from_option lk_next 0 (m !! q).
Definition pv (m : links) (q : Z) : Z := from_option lk_prev 0 (m !! q).
Definition alloc (m : links) (q : Z) : Prop := is_Some (m !! q).

(** [eff m0 m n p]: [m] has the objects of [m0], with the fields [n] and [p]. *)
Record eff (m0 m : links) (n p : Z -> Z) : Prop := {
  eff_alloc : forall q, alloc m q <-> alloc m0 q;
  eff_n : forall q, nx m q = n q;
  eff_p : forall q, pv m q = p q }.

Lemma eff_refl m : eff m m (nx m) (pv m).
Proof. done. Qed.

Section eff.
Context {m0 m : links} {n p : Z -> Z} (He : eff m0 m n p).

Lemma next_eff x : alloc m0 x -> next m x = Ok (n x).
Proof using He. intros [k E]%(eff_alloc _ _ _ _ He). unfold next. rewrite <- (eff_n _ _ _ _ He). unfold nx. by rewrite E. Qed.
Lemma prev_eff x : alloc m0 x -> prev m x = Ok (p x).
Proof using He. intros [k E]%(eff_alloc _ _ _ _ He). unfold prev. rewrite <- (eff_p _ _ _ _ He). unfold pv. by rewrite E. Qed.

Lemma set_next_eff x v : alloc m0 x -> exists m', set_next m x v = Ok m' /\ eff m0 m' (upd n x v) p.
Proof using He.
  intros [k E]%(eff_alloc _ _ _ _ He). unfold set_next. rewrite E. eexists. split; [done|].
  split; intros q; rewrite <- ?(eff_alloc _ _ _ _ He), <- ?(eff_p _ _ _ _ He); unfold alloc, nx, pv, upd; rewrite lookup_insert;
    repeat case_decide; subst; rewrite ?E; try done. apply (eff_n _ _ _ _ He).
Qed.
Lemma set_prev_eff x v : alloc m0 x -> exists m', set_prev m x v = Ok m' /\ eff m0 m' n (upd p x v).
Proof using He.
  intros [k E]%(eff_alloc _ _ _ _ He). unfold set_prev. rewrite E. eexists. split; [done|].
  split; intros q; rewrite <- ?(eff_alloc _ _ _ _ He), <- ?(eff_n _ _ _ _ He); unfold alloc, nx, pv, upd; rewrite lookup_insert;
    repeat case_decide; subst; rewrite ?E; try done. apply (eff_p _ _ _ _ He).
Qed.

Lemma eff_same q : n q = nx m0 q -> p q = pv m0 q -> m !! q = m0 !! q.
Proof using He.
  intros En Ep. pose proof (eff_alloc _ _ _ _ He q) as Ha. rewrite <- (eff_n _ _ _ _ He) in En. rewrite <- (eff_p _ _ _ _ He) in Ep.
  unfold alloc, nx, pv in *. destruct (m !! q) as [[a b]|], (m0 !! q) as [[c d]|]; cbn in *; [congruence| | |done].
  - by destruct (proj1 Ha) as [? [=]].
  - by destruct (proj2 Ha) as [? [=]].
Qed.
End eff.

(** [run] executes a macro assignment by assignment; the addresses it uses must be
    known to be allocated. *)
Ltac run_one := first
  [ match goal with H : eff ?m0 ?m _ _ |- context [next ?m ?x] => rewrite (next_eff H x) by eauto end
  | match goal with H : eff ?m0 ?m _ _ |- context [prev ?m ?x] => rewrite (prev_eff H x) by eauto end
  | match goal with H : eff ?m0 ?m _ _ |- context [set_next ?m ?x ?v] =>
      let m' := fresh "m" in let H' := fresh "He" in destruct (set_next_eff H x v) as (m' & -> & H'); [by eauto|clear H] end
  | match goal with H : eff ?m0 ?m _ _ |- context [set_prev ?m ?x ?v] =>
      let m' := fresh "m" in let H' := fresh "He" in destruct (set_prev_eff H x v) as (m' & -> & H'); [by eauto|clear H] end ];
  cbn [mbind outcome_bind]; autorewrite with upd.
Ltac run m := pose proof (eff_refl m); repeat run_one.

(** The head [h] and the nodes [l] of a list in the store. *)
Definition ring (m : links) (h : Z) (l : list Z) : Prop := circle (nx m) (pv m) h l /\ Forall (alloc m) (h :: l).

(** Nothing but the nodes [ns] was changed. *)
Definition untouched (m m' : links) (ns : list Z) : Prop := forall q, q ∉ ns -> m' !! q = m !! q.

Section rings.
Implicit Types m : links.

Lemma ring_alloc m h l q : ring m h l -> q ∈ h :: l -> alloc m q.
Proof. intros [_ Ha] Hq. rewrite Forall_forall in Ha. by apply Ha. Qed.
Lemma ring_head m h l : ring m h l -> alloc m h /\ alloc m (nx m h) /\ alloc m (pv m h) /\ nx m h ∈ h :: l /\ pv m h ∈ h :: l.
Proof.
  intros Hr. pose proof (circle_next_in _ _ _ _ (proj1 Hr)). pose proof (circle_prev_in _ _ _ _ (proj1 Hr)).
  split_and!; try done; eapply ring_alloc; try done. by left.
Qed.

(** A circle of the new fields is a ring of the new store. *)
Lemma ring_intro m0 m n p h l : eff m0 m n p -> circle n p h l -> (forall q, q ∈ h :: l -> alloc m0 q) -> ring m h l.
Proof.
  intros He Hc Ha. split.
  - apply (circle_frame n p); [done|]. intros q _. split; [apply (eff_n _ _ _ _ He)|apply (eff_p _ _ _ _ He)].
  - apply Forall_forall. intros q Hq. apply (eff_alloc _ _ _ _ He), Ha, Hq.
Qed.

Lemma ring_untouched m m' ns h l : ring m h l -> untouched m m' ns -> (forall q, q ∈ h :: l -> q ∉ ns) -> ring m' h l.
Proof.
  intros [Hc Ha] Hu Hd. assert (Hq : forall q, q ∈ h :: l -> m' !! q = m !! q) by (intros q Hq; by apply Hu, Hd). split.
  - apply (circle_frame (nx m) (pv m)); [done|]. intros q Hin. unfold nx, pv. by rewrite Hq.
  - rewrite Forall_forall in *. intros q Hin. unfold alloc. rewrite Hq by done. by apply Ha.
Qed.

(** Fields that agree with the first store outside of [ns]. *)
Lemma untouched_intro m0 m n p ns : eff m0 m n p -> (forall q, q ∉ ns -> n q = nx m0 q /\ p q = pv m0 q) -> untouched m0 m ns.
Proof. intros He Hn q Hq. destruct (Hn q Hq). by apply (eff_same He). Qed.

(** The fields [n] and [p] only differ from the first ones at the nodes named. *)
Ltac untouch :=
  let z := fresh "z" in let Hz := fresh "Hz" in
  eapply untouched_intro; [done|]; intros z Hz; rewrite !upd_ne; [done|..]; intros ->; set_solver.

Lemma iqueue_init_ring m x : alloc m x -> exists m', iqueue_init m x = Ok m' /\ ring m' x [] /\ untouched m m' [x].
Proof.
  intros Hx. unfold iqueue_init. run m. eexists. split; [done|]. split.
  - eapply ring_intro; [done|apply circle_single; apply upd_eq|]. intros q. by rewrite list_elem_of_singleton; intros ->.
  - by untouch.
Qed.

Lemma iqueue_add_ring m h l x : ring m h l -> alloc m x -> x ∉ h :: l -> exists m', iqueue_add m x h = Ok m' /\ ring m' h (x :: l) /\ untouched m m' (x :: h :: l).
Proof.
  intros Hr Hx Hin. destruct (ring_head _ _ _ Hr) as (Hh & Hn & Hp & Hn' & Hp'). assert (x <> h /\ x <> nx m h) as [? ?] by (split; intros ->; set_solver).
  unfold iqueue_add. run m.
  eexists. split; [done|]. split.
  - eapply ring_intro; [done|by apply circle_add, Hin; apply Hr|]. intros q [->|Hq]%elem_of_cons; [done|].
    apply elem_of_cons in Hq as [->|Hq]; [done|]. apply (ring_alloc _ _ _ _ Hr). by right.
  - by untouch.
Qed.

(** The nodes of a grown ring are allocated. *)
Lemma grown_alloc m h l x l' : ring m h l -> alloc m x -> h :: l' ≡ₚ x :: h :: l -> forall q, q ∈ h :: l' -> alloc m q.
Proof. intros Hr Hx E q. rewrite E. intros [->|Hq]%elem_of_cons; [done|by apply (ring_alloc _ _ _ _ Hr)]. Qed.

Lemma iqueue_add_tail_ring m h l x : ring m h l -> alloc m x -> x ∉ h :: l -> exists m',
  iqueue_add_tail m x h = Ok m' /\ ring m' h (l ++ [x]) /\ untouched m m' (x :: h :: l).
Proof.
  intros Hr Hx Hin. destruct (ring_head _ _ _ Hr) as (Hh & Hn & Hp & Hn' & Hp'). assert (x <> h /\ x <> pv m h) as [? ?] by (split; intros ->; set_solver).
  unfold iqueue_add_tail. run m. eexists. split; [done|]. split; [|by untouch].
  eapply ring_intro; [done|by apply circle_add_tail, Hin; apply Hr|]. apply (grown_alloc m h l x); [done|done|].
  rewrite app_comm_cons. symmetry. apply Permutation_cons_append.
Qed.

(** What is left of a ring when the node [e] is gone. *)
Lemma del_circle m m' n p h l1 e l2 : ring m h (l1 ++ e :: l2) -> eff m m' n p ->
  (forall q, q <> e -> n q = upd (nx m) (pv m e) (nx m e) q /\ p q = upd (pv m) (nx m e) (pv m e) q) -> ring m' h (l1 ++ l2).
Proof.
  intros Hr He Hq. assert (Hsub : forall q, q ∈ h :: l1 ++ l2 -> q ∈ h :: l1 ++ e :: l2) by set_solver.
  eapply ring_intro; [done| |intros q Hin; by apply (ring_alloc _ _ _ _ Hr), Hsub].
  eapply circle_frame; [apply circle_del_at, Hr|]. intros q Hin. apply Hq. intros ->.
  destruct Hr as [[_ Hd] _]. rewrite app_comm_cons in Hd, Hin. apply NoDup_app in Hd as (_ & Hd1 & Hd2). apply NoDup_cons in Hd2 as [Hd2 _].
  apply elem_of_app in Hin as [Hin|Hin]; [apply (Hd1 _ Hin); by left|done].
Qed.

(** The neighbours of a node of a ring. *)
Lemma neighbours m h l1 e l2 : ring m h (l1 ++ e :: l2) ->
  alloc m e /\ alloc m (nx m e) /\ alloc m (pv m e) /\ e <> nx m e /\ e <> pv m e /\ nx m e ∈ h :: l1 ++ l2 /\ pv m e ∈ h :: l1 ++ l2.
Proof.
  intros Hr. pose proof (circle_rotate _ _ _ _ _ _ (proj1 Hr)) as Hc. assert (Hne : l2 ++ h :: l1 <> []) by (by destruct l2).
  pose proof (circle_empty _ _ _ _ Hc) as Hem. pose proof (circle_next_in _ _ _ _ Hc) as Hn. pose proof (circle_prev_in _ _ _ _ Hc) as Hp.
  assert (Hen : e <> nx m e) by naive_solver.
  assert (Hep : e <> pv m e).
  { destruct (circle_last _ _ _ _ Hc) as (L & EL). destruct L as [|a L]; [by injection EL|]. injection EL as <- EL. destruct Hc as [_ Hd].
    rewrite EL in Hd. apply NoDup_cons in Hd as [Hd _]. intros E. apply Hd. rewrite elem_of_app, list_elem_of_singleton. by right. }
  assert (Hin : forall q, q ∈ e :: l2 ++ h :: l1 -> alloc m q) by (intros q Hq; apply (ring_alloc _ _ _ _ Hr); set_solver).
  split_and!; [apply Hin; by left|by apply Hin|by apply Hin|done|done|set_solver|set_solver].
Qed.

Lemma iqueue_del_ring m h l1 e l2 : ring m h (l1 ++ e :: l2) -> exists m',
  iqueue_del m e = Ok m' /\ ring m' h (l1 ++ l2) /\ m' !! e = Some (mkLink 0 0) /\ untouched m m' (h :: l1 ++ e :: l2).
Proof.
  intros Hr. destruct (neighbours _ _ _ _ _ Hr) as (Ha & Hn & Hp & Hne & Hpe & Hni & Hpi).
  unfold iqueue_del. run m. eexists. split; [done|]. split_and!.
  - eapply del_circle; [done..|]. intros q Hq. by rewrite !(upd_ne _ e).
  - match goal with H : eff _ ?m' _ _ |- _ => pose proof (proj2 (eff_alloc _ _ _ _ H e) Ha) as [[a b] E]; pose proof (eff_n _ _ _ _ H e) as En; pose proof (eff_p _ _ _ _ H e) as Ep end.
    unfold nx, pv in En, Ep. rewrite E in En, Ep |- *. cbn in En, Ep. rewrite upd_eq in En, Ep. by rewrite En, Ep.
  - by untouch.
Qed.

Lemma iqueue_is_empty_ring m h l : ring m h l -> iqueue_is_empty m h = Ok (bool_decide (l = [])).
Proof.
  intros Hr. destruct (ring_head _ _ _ Hr) as (Hh & _). unfold iqueue_is_empty. run m. f_equal.
  pose proof (circle_empty _ _ _ _ (proj1 Hr)). destruct (Z.eqb_spec h (nx m h)); case_bool_decide; naive_solver.
Qed.

Lemma foreach_loop_ring m h pre l fuel : ring m h (pre ++ l) -> (length l < fuel)%nat -> exists x L,
  l ++ [h] = x :: L /\ foreach_loop fuel m x h = Ok l.
Proof.
  revert pre l. induction fuel as [|fuel IH]; intros pre l Hr Hf; [lia|]. destruct l as [|y l]; cbn in Hf |- *.
  { exists h, []. by rewrite Z.eqb_refl. }
  exists y, (l ++ [h]). split; [done|]. pose proof Hr as [Hc Ha].
  assert (Hyh : y <> h) by (destruct Hc as [_ Hd]; intros ->; apply NoDup_cons in Hd as [Hd _]; set_solver).
  rewrite (proj2 (Z.eqb_neq _ _) Hyh), (next_eff (eff_refl m)) by (apply (ring_alloc _ _ _ _ Hr); set_solver). cbn [mbind outcome_bind].
  destruct (IH (pre ++ [y]) l) as (x & L & EL & E); [by rewrite <- app_assoc|lia|].
  assert (nx m y = x) as ->; [|by rewrite E]. destruct Hc as [Hc _]. rewrite <- app_assoc in Hc. cbn [Datatypes.app] in Hc. rewrite EL in Hc.
  rewrite app_comm_cons, chain_app in Hc. by destruct Hc as [_ (-> & _)].
Qed.

Lemma iqueue_foreach_ring m h l fuel : ring m h l -> (length l < fuel)%nat -> iqueue_foreach_entry fuel m h = Ok l.
Proof.
  intros Hr Hf. destruct (foreach_loop_ring m h [] l fuel Hr Hf) as (x & L & EL & E). unfold iqueue_foreach_entry.
  rewrite (next_eff (eff_refl m)) by apply (ring_head _ _ _ Hr). cbn [mbind outcome_bind].
  destruct (circle_first _ _ _ _ (proj1 Hr)) as (L' & EL'). rewrite EL' in EL. by injection EL as -> _.
Qed.

(** Two lists that share no node. *)
Definition apart (l l' : list Z) : Prop := forall q, q ∈ l -> q ∉ l'.

Lemma iqueue_splice_init_ring m a la h lh : ring m a la -> ring m h lh -> apart (a :: la) (h :: lh) -> exists m',
  iqueue_splice_init m a h = Ok m' /\ ring m' a [] /\ ring m' h (la ++ lh) /\ untouched m m' (a :: la ++ h :: lh).
Proof.
  intros Ha Hh Hd. destruct (ring_head _ _ _ Ha) as (Aa & An & Ap & Ina & Ipa). destruct (ring_head _ _ _ Hh) as (Ah & Ahn & Ahp & Inh & Iph).
  unfold iqueue_splice_init, iqueue_splice. rewrite (iqueue_is_empty_ring _ _ _ Ha). cbn [mbind outcome_bind]. case_bool_decide as Hla.
  { subst la. cbn [mbind outcome_bind]. destruct (iqueue_init_ring m a Aa) as (m' & -> & Hr & Hu). exists m'. split_and!; [done|done| |].
    - eapply ring_untouched; [done..|]. intros q Hq. rewrite list_elem_of_singleton. intros ->. by apply (Hd a); [left|].
    - intros q Hq. apply Hu. set_solver. }
  assert (Hnn : nx m a <> nx m h) by (intros E; apply (Hd (nx m a)); [done|by rewrite E]).
  assert (Hpp : pv m a <> h) by (intros E; apply (Hd (pv m a)); [done|rewrite E; by left]).
  unfold __iqueue_splice. run m.
  match goal with H : eff m ?m2 _ _ |- _ => assert (Hr2 : ring m2 h (la ++ lh)); [|assert (Hu2 : untouched m m2 (a :: la ++ h :: lh))] end.
  { eapply ring_intro; [done| |].
    - apply circle_splice; [apply Ha|apply Hh|done|done].
    - intros q [->|[Hq|Hq]%elem_of_app]%elem_of_cons; [done|apply (ring_alloc _ _ _ _ Ha); by right|apply (ring_alloc _ _ _ _ Hh); by right]. }
  { by untouch. }
  match goal with H : eff m ?m2 _ _ |- _ => destruct (iqueue_init_ring m2 a) as (m' & -> & Hr & Hu); [by apply (eff_alloc _ _ _ _ H)|] end.
  exists m'. split_and!; [done|done| |].
  - eapply ring_untouched; [done..|]. intros q Hq. rewrite list_elem_of_singleton. intros ->. destruct Ha as [[_ Hda] _]. apply NoDup_cons in Hda as [Hda _].
    apply elem_of_cons in Hq as [->|[Hq|Hq]%elem_of_app]; [apply (Hd h); by left|done|apply (Hd a); [by left|by right]].
  - intros q Hq. rewrite Hu by set_solver. by apply Hu2.
Qed.

Lemma ring_rotate m h l1 x l2 : ring m h (l1 ++ x :: l2) -> ring m x (l2 ++ h :: l1).
Proof.
  intros Hr. split; [apply circle_rotate, Hr|]. apply Forall_forall. intros q Hq. apply (ring_alloc _ _ _ _ Hr). set_solver.
Qed.

(** A node is added behind any node of a list, as [ikcp_parse_data] does. *)
Lemma iqueue_add_at m h l1 y l2 x : ring m h (l1 ++ y :: l2) -> alloc m x -> x ∉ h :: l1 ++ y :: l2 -> exists m',
  iqueue_add m x y = Ok m' /\ ring m' h (l1 ++ y :: x :: l2) /\ untouched m m' (x :: h :: l1 ++ y :: l2).
Proof.
  intros Hr Hx Hin. destruct (iqueue_add_ring m y (l2 ++ h :: l1) x) as (m' & E & Hr' & Hu); [by apply ring_rotate|done|set_solver|].
  exists m'. split; [done|]. split; [by apply (ring_rotate m' y (x :: l2) h l1)|]. intros q Hq. apply Hu. set_solver.
Qed.

Lemma QUEUE_INSERT_TAIL_ring m h l x : ring m h l -> alloc m x -> x ∉ h :: l -> exists m',
  QUEUE_INSERT_TAIL m h x = Ok m' /\ ring m' h (l ++ [x]) /\ untouched m m' (x :: h :: l).
Proof.
  intros Hr Hx Hin. destruct (ring_head _ _ _ Hr) as (Hh & Hn & Hp & Hn' & Hp'). assert (x <> h /\ x <> pv m h) as [? ?] by (split; intros ->; set_solver).
  unfold QUEUE_INSERT_TAIL, set_prev_next. run m. eexists. split; [done|]. split; [|by untouch].
  eapply ring_intro; [done|by apply circle_add_tail, Hin; apply Hr|]. apply (grown_alloc m h l x); [done|done|].
  rewrite app_comm_cons. symmetry. apply Permutation_cons_append.
Qed.

Lemma QUEUE_INSERT_HEAD_ring m h l x : ring m h l -> alloc m x -> x ∉ h :: l -> exists m',
  QUEUE_INSERT_HEAD m h x = Ok m' /\ ring m' h (x :: l) /\ untouched m m' (x :: h :: l).
Proof.
  intros Hr Hx Hin. destruct (ring_head _ _ _ Hr) as (Hh & Hn & Hp & Hn' & Hp'). assert (x <> h /\ x <> nx m h) as [? ?] by (split; intros ->; set_solver).
  unfold QUEUE_INSERT_HEAD, set_next_prev. run m. eexists. split; [done|]. split; [|by untouch].
  eapply ring_intro; [done|by apply circle_add, Hin; apply Hr|]. apply (grown_alloc m h l x); [done|done|]. apply Permutation_swap.
Qed.

Lemma QUEUE_REMOVE_ring m h l1 e l2 : ring m h (l1 ++ e :: l2) -> exists m',
  QUEUE_REMOVE m e = Ok m' /\ ring m' h (l1 ++ l2) /\ untouched m m' (h :: l1 ++ l2).
Proof.
  intros Hr. destruct (neighbours _ _ _ _ _ Hr) as (Ha & Hn & Hp & Hne & Hpe & Hni & Hpi).
  unfold QUEUE_REMOVE, set_prev_next, set_next_prev. run m. eexists. split; [done|]. split; [|by untouch].
  eapply del_circle; [done..|]. done.
Qed.

Lemma QUEUE_EMPTY_ring m h l : ring m h l -> QUEUE_EMPTY m h = Ok (bool_decide (l = [])).
Proof. apply iqueue_is_empty_ring. Qed.

(** [QUEUE_ADD] also works with an empty list [n], whose head it leaves behind. *)
Lemma QUEUE_ADD_ring m h lh n ln : ring m h lh -> ring m n ln -> apart (n :: ln) (h :: lh) -> exists m',
  QUEUE_ADD m h n = Ok m' /\ ring m' h (lh ++ ln) /\ untouched m m' (n :: ln ++ h :: lh).
Proof.
  intros Hh Hn Hd. destruct (ring_head _ _ _ Hn) as (An & Ann & Anp & Inn & Inp). destruct (ring_head _ _ _ Hh) as (Ah & Ahn & Ahp & Ihn & Ihp).
  assert (Hnh : n <> h) by (intros ->; apply (Hd h); by left).
  assert (Hnp : n <> pv m h) by (intros E; apply (Hd n); [by left|by rewrite E]).
  assert (Hnn : h <> nx m n) by (intros E; apply (Hd (nx m n)); [done|rewrite <- E; by left]).
  assert (Hpn : pv m h <> nx m n) by (intros E; apply (Hd (nx m n)); [done|by rewrite <- E]).
  unfold QUEUE_ADD, set_prev_next, set_next_prev. destruct (decide (ln = [])) as [->|Hne].
  - assert (nx m n = n /\ pv m n = n) as [E1 E2] by (destruct Hn as [[(-> & -> & _) _] _]; done).
    rewrite app_nil_r. run m. rewrite E1 in *. repeat run_one. rewrite upd_eq in *. repeat run_one.
    eexists. split; [done|]. split; [|by untouch].
    pose proof (circle_prev_next _ _ _ _ (proj1 Hh)) as Hpn'.
    eapply ring_intro; [done| |intros q Hq; by apply (ring_alloc _ _ _ _ Hh)]. apply (circle_frame (nx m) (pv m)); [apply Hh|]. intros q Hq.
    assert (q <> n) by (intros ->; apply (Hd n); [by left|done]).
    split; [destruct (decide (q = pv m h)) as [->|]|destruct (decide (q = h)) as [->|]]; autorewrite with upd; done.
  - assert (Hs : n <> nx m n) by (intros E; symmetry in E; apply (circle_empty _ _ _ _ (proj1 Hn)) in E; done).
    assert (Hph : pv m n <> h) by (intros E; apply (Hd (pv m n)); [done|rewrite E; by left]).
    run m. eexists. split; [done|]. split; [|by untouch]. eapply ring_intro; [done| |].
    + by apply circle_append; [apply Hh|apply Hn|..].
    + intros q [->|[Hq|Hq]%elem_of_app]%elem_of_cons; [done|apply (ring_alloc _ _ _ _ Hh); by right|apply (ring_alloc _ _ _ _ Hn); by right].
Qed.

Lemma QUEUE_SPLIT_ring m h l1 q l2 x : ring m h (l1 ++ q :: l2) -> alloc m x -> x ∉ h :: l1 ++ q :: l2 -> exists m',
  QUEUE_SPLIT m h q x = Ok m' /\ ring m' h l1 /\ ring m' x (q :: l2) /\ untouched m m' (x :: h :: l1 ++ q :: l2).
Proof.
  intros Hr Hx Hin. destruct (ring_head _ _ _ Hr) as (Hh & _ & Hp & _ & Hpi). destruct (neighbours _ _ _ _ _ Hr) as (Hq & _ & Hpq & _ & Hqp & _ & Hpqi).
  assert (Hxn : x <> h /\ x <> q /\ x <> pv m h /\ x <> pv m q) by (split_and!; intros ->; set_solver). destruct Hxn as (? & ? & ? & ?).
  assert (Hqh : q <> h) by (destruct Hr as [[_ Hd] _]; intros ->; apply NoDup_cons in Hd as [Hd _]; set_solver).
  unfold QUEUE_SPLIT, set_prev_next. run m. eexists. split; [done|].
  destruct (circle_split _ _ _ _ _ _ x (proj1 Hr) Hin) as [C1 C2]. split_and!; [| |by untouch].
  - eapply ring_intro; [done|exact C1|]. intros z Hz. apply (ring_alloc _ _ _ _ Hr). set_solver.
  - eapply ring_intro; [done|exact C2|]. intros z [->|Hz]%elem_of_cons; [done|]. apply (ring_alloc _ _ _ _ Hr). set_solver.
Qed.

Lemma QUEUE_MOVE_ring m h l x : ring m h l -> alloc m x -> x ∉ h :: l -> exists m',
  QUEUE_MOVE m h x = Ok m' /\ ring m' h [] /\ ring m' x l /\ untouched m m' (x :: h :: l).
Proof.
  intros Hr Hx Hin. unfold QUEUE_MOVE. rewrite (QUEUE_EMPTY_ring _ _ _ Hr). cbn [mbind outcome_bind]. case_bool_decide as Hl.
  - subst l. destruct (iqueue_init_ring m x Hx) as (m' & E & Hr' & Hu). exists m'. split_and!; [done| |done|].
    + eapply ring_untouched; [done..|]. set_solver.
    + intros q Hq. apply Hu. set_solver.
  - destruct l as [|q l]; [done|]. unfold QUEUE_HEAD. rewrite (next_eff (eff_refl m)) by apply (ring_head _ _ _ Hr). cbn [mbind outcome_bind].
    assert (nx m h = q) as -> by (destruct Hr as [[(-> & _) _] _]; done). by apply (QUEUE_SPLIT_ring m h [] q l x).
Qed.
End rings.

(** ** Claims *)

(** The lists of KCP.  The [IQUEUE] macros refine lists: on the list [l] behind
    the head [h], [iqueue_is_empty] tells whether [l] is empty, a loop over the
    entries visits exactly [l] in order and ends, [iqueue_add_tail] appends a
    node, [iqueue_add] behind any node of the list inserts there, [iqueue_del]
    takes any node out and clears its links; other lists in the store are not
    touched. *)
Theorem iqueue_refines_list (m : links) (h : Z) (l : list Z) :
  ring m h l ->
  iqueue_is_empty m h = Ok (bool_decide (l = [])) /\
  iqueue_foreach_entry (S (length l)) m h = Ok l /\
  (forall x, alloc m x -> x ∉ h :: l -> exists m', iqueue_add_tail m x h = Ok m' /\ ring m' h (l ++ [x]) /\ untouched m m' (x :: h :: l)) /\
  (forall x, alloc m x -> x ∉ h :: l -> exists m', iqueue_add m x h = Ok m' /\ ring m' h (x :: l) /\ untouched m m' (x :: h :: l)) /\
  (forall l1 y l2 x, l = l1 ++ y :: l2 -> alloc m x -> x ∉ h :: l -> exists m',
     iqueue_add m x y = Ok m' /\ ring m' h (l1 ++ y :: x :: l2) /\ untouched m m' (x :: h :: l)) /\
  (forall l1 e l2, l = l1 ++ e :: l2 -> exists m',
     iqueue_del m e = Ok m' /\ ring m' h (l1 ++ l2) /\ m' !! e = Some (mkLink 0 0) /\ untouched m m' (h :: l)).
Proof.
  intros Hr. split_and!; [by apply iqueue_is_empty_ring|apply iqueue_foreach_ring; [done|lia]| | | |].
  - intros x Hx Hin. by apply iqueue_add_tail_ring.
  - intros x Hx Hin. by apply iqueue_add_ring.
  - intros l1 y l2 x -> Hx Hin. by apply iqueue_add_at.
  - intros l1 e l2 ->. by apply iqueue_del_ring.
Qed.

Definition four_nodes : links := list_to_map ((fun q => (q, mkLink 7 7)) <$> [1; 2; 3; 4]).

(** The list [2; 3] behind the head 1. *)
Lemma two_nodes : exists m, (m ← iqueue_init four_nodes 1; m ← iqueue_add_tail m 2 1; iqueue_add_tail m 3 1) = Ok m /\ ring m 1 [2; 3] /\ alloc m 4.
Proof.
  destruct (iqueue_init_ring four_nodes 1) as (m1 & -> & H1 & U1); [by eexists|]. cbn [mbind outcome_bind].
  destruct (iqueue_add_tail_ring m1 1 [] 2 H1) as (m2 & -> & H2 & U2); [unfold alloc; rewrite U1; [by eexists|set_solver]|set_solver|]. cbn [mbind outcome_bind].
  destruct (iqueue_add_tail_ring m2 1 [2] 3 H2) as (m3 & -> & H3 & U3); [unfold alloc; rewrite U2, U1; [by eexists|set_solver..]|set_solver|].
  exists m3. split_and!; [done|exact H3|]. unfold alloc. rewrite U3, U2, U1; [by eexists|set_solver..].
Qed.

Lemma iqueue_refines_list_witness : exists m, (m ← iqueue_init four_nodes 1; m ← iqueue_add_tail m 2 1; iqueue_add_tail m 3 1) = Ok m /\
  iqueue_foreach_entry 3 m 1 = Ok [2; 3] /\ (exists m', iqueue_add m 4 2 = Ok m' /\ ring m' 1 [2; 4; 3]) /\ exists m', iqueue_del m 2 = Ok m' /\ ring m' 1 [3].
Proof.
  destruct two_nodes as (m & E & Hr & H4). exists m. split; [exact E|].
  destruct (iqueue_refines_list m 1 [2; 3] Hr) as (_ & Hf & _ & _ & Ha & Hd). split; [exact Hf|]. split.
  - destruct (Ha [] 2 [3] 4 eq_refl H4) as (m' & E' & Hr' & _); [set_solver|]. exists m'. split; [exact E'|exact Hr'].
  - destruct (Hd [] 2 [3] eq_refl) as (m' & E' & Hr' & _). exists m'. split; [exact E'|exact Hr'].
Defined.

(** C33: the lists of libuv.  The [QUEUE] macros refine lists: [QUEUE_INSERT_HEAD] and
    [QUEUE_INSERT_TAIL] add a node at the ends, [QUEUE_REMOVE] takes any node out,
    [QUEUE_SPLIT] cuts the list in two, [QUEUE_MOVE] moves all of it to another
    head and leaves the first one empty, and [QUEUE_ADD] appends another list, an
    empty one included; nothing outside of the lists involved is touched. *)
Theorem queue_refines_list (m : links) (h : Z) (l : list Z) :
  ring m h l ->
  (forall x, alloc m x -> x ∉ h :: l ->
     (exists m', QUEUE_INSERT_HEAD m h x = Ok m' /\ ring m' h (x :: l) /\ untouched m m' (x :: h :: l)) /\
     (exists m', QUEUE_INSERT_TAIL m h x = Ok m' /\ ring m' h (l ++ [x]) /\ untouched m m' (x :: h :: l)) /\
     (exists m', QUEUE_MOVE m h x = Ok m' /\ ring m' h [] /\ ring m' x l /\ untouched m m' (x :: h :: l)) /\
     (forall l1 q l2, l = l1 ++ q :: l2 -> exists m', QUEUE_SPLIT m h q x = Ok m' /\ ring m' h l1 /\ ring m' x (q :: l2) /\ untouched m m' (x :: h :: l))) /\
  (forall l1 q l2, l = l1 ++ q :: l2 -> exists m', QUEUE_REMOVE m q = Ok m' /\ ring m' h (l1 ++ l2) /\ untouched m m' (h :: l1 ++ l2)) /\
  (forall n ln, ring m n ln -> apart (n :: ln) (h :: l) -> exists m', QUEUE_ADD m h n = Ok m' /\ ring m' h (l ++ ln) /\ untouched m m' (n :: ln ++ h :: l)).
Proof.
  intros Hr. split_and!; [intros x Hx Hin; split_and!| |].
  - by apply QUEUE_INSERT_HEAD_ring.
  - by apply QUEUE_INSERT_TAIL_ring.
  - by apply QUEUE_MOVE_ring.
  - intros l1 q l2 ->. by apply QUEUE_SPLIT_ring.
  - intros l1 q l2 ->. by apply QUEUE_REMOVE_ring.
  - intros n ln Hn Hd. by apply QUEUE_ADD_ring.
Qed.

Lemma queue_refines_list_witness : exists m, (m ← iqueue_init four_nodes 1; m ← iqueue_add_tail m 2 1; iqueue_add_tail m 3 1) = Ok m /\
  (exists m', QUEUE_MOVE m 1 4 = Ok m' /\ ring m' 1 [] /\ ring m' 4 [2; 3]) /\ exists m', QUEUE_REMOVE m 3 = Ok m' /\ ring m' 1 [2].
Proof.
  destruct two_nodes as (m & E & Hr & H4). exists m. split; [exact E|].
  destruct (queue_refines_list m 1 [2; 3] Hr) as (Hi & Hd & _). split.
  - destruct (Hi 4 H4) as (_ & _ & (m' & E' & H1 & H2 & _) & _); [set_solver|]. exists m'. split; [exact E'|]. split; [exact H1|exact H2].
  - destruct (Hd [2] 3 [] eq_refl) as (m' & E' & Hr' & _). exists m'. split; [exact E'|exact Hr'].
Defined.
