(* ===== verification/MemoryStream.v ===== *)
(** * memorystream and packet

    The byte buffer of [src/libs/server/include/memorystream.h] and the message
    format built on it ([packet.h], [packet.cpp]): a 24-byte head (id, version,
    timestamp, body length, extra) followed by the body. *)

From S2P Require Import Prelude.

(** ** memorystream

    [m_data] is the [std::vector<char>] (its elements, not its capacity: an
    access at or behind [size()] is out of bounds), [m_length] the number of
    bytes written.  [size_t] has 64 bits; allocation succeeds. *)
Record memorystream := mkMs { m_data : list Z; m_length : Z }.

#[export] Instance eta_memorystream : Eta memorystream := fun m => mkMs (m_data m) (m_length m).

(** Both constructors: [reserve] does not change the elements. *)
Definition memorystream_new (size : Z) : memorystream := mkMs [] 0.

Definition ms_clear (m : memorystream) : memorystream := mkMs [] 0.
Definition ms_empty (m : memorystream) : bool := bool_decide (m_data m = []).
Definition ms_size (m : memorystream) : Z := zlen (m_data m).
Definition ms_length (m : memorystream) : Z := m_length m.

(** [std::vector::resize] value-initialises the new elements. *)
Definition vector_resize (l : list Z) (n : Z) : list Z :=
  take (Z.to_nat n) l ++ replicate (Z.to_nat n - length l) 0.

Definition ms_resize (m : memorystream) (n : Z) : memorystream :=
  if ms_size m <? n then m <| m_data := vector_resize (m_data m) n |> else m.

Definition ms_reserve (m : memorystream) (size : Z) : memorystream := m.

(** [append(const void* data, size_t size)]; [None] is a null [data]. *)
Definition ms_append (m : memorystream) (data : option (list Z)) (size : Z) : outcome memorystream :=
  match data with
  | None => Ok m
  | Some d =>
      let total := u64 (m_length m + size) in
      let buf := if zlen (m_data m) <? total then vector_resize (m_data m) total else m_data m in
      src ← read_at d 0 size;
      buf ← write_at buf (m_length m) src;
      Ok (mkMs buf total)
  end.

(** [append<T>(T value)] with the bytes of [value]. *)
Definition ms_append_value (m : memorystream) (bytes : list Z) : outcome memorystream :=
  ms_append m (Some bytes) (zlen bytes).

(** [append(const std::string&)]: the terminating NUL is appended too. *)
Definition ms_append_string (m : memorystream) (str : list Z) : outcome memorystream :=
  ms_append m (Some (str ++ [0])) (zlen str + 1).

(** [read<T>(size_t offset)]: the [sizeof(T)] bytes at [offset]. *)
Definition ms_read_value (m : memorystream) (sizeof_T offset : Z) : outcome (list Z) :=
  c_assert (sizeof_T <=? u64 (m_length m - offset)) ;;
  read_at (m_data m) offset sizeof_T.

(** [read(char* dest, size_t offset, size_t len)]: the code and the bytes copied. *)
Definition ms_read (m : memorystream) (offset len : Z) : outcome (Z * list Z) :=
  if offset >=? m_length m then Ok (1, [])
  else if (len >? m_length m) || (u64 (offset + len) >? m_length m) then Ok (2, [])
  else b ← read_at (m_data m) offset len; Ok (0, b).

(** [read(std::string& dest, size_t offset, size_t len)]: the code and what is
    assigned to [dest] ([None]: unchanged). *)
Definition ms_read_string (m : memorystream) (offset len : Z) : outcome (Z * option (list Z)) :=
  if offset >? m_length m then Ok (1, None)
  else if (len >? m_length m) || (u64 (offset + len) >? m_length m) then Ok (2, None)
  else b ← read_at (m_data m) offset (u64 (len + 1)); Ok (0, Some b).

(** ** packet *)

Definition PACKET_ID_OFFSET : Z := 0.
Definition PACKET_VERSION_OFFSET : Z := 4.
Definition PACKET_TIMESTAMP_OFFSET : Z := 8.
Definition PACKET_BODY_LENGTH_OFFSET : Z := 16.
Definition PACKET_EXTRA_OFFSET : Z := 20.
Definition PACKET_BODY_OFFSET : Z := 24.
Definition PACKET_HEAD_LENGTH : Z := 24.
Definition PACKET_VERSION : Z := 1.

Record packet := mkPacket { stream_of : memorystream; m_index : Z }.

#[export] Instance eta_packet : Eta packet := fun p => mkPacket (stream_of p) (m_index p).

Definition packet_new (size : Z) : packet := mkPacket (memorystream_new size) 0.

(** [packet(std::string& data)] does not initialise [m_index]: [junk] is what
    the memory held. *)
Definition packet_of_string (junk : Z) (data : list Z) : outcome packet :=
  m ← ms_append_string (ms_clear (memorystream_new 0)) data; Ok (mkPacket m junk).

Definition packet_of_data (data : option (list Z)) (length : Z) : outcome packet :=
  m ← ms_append (ms_clear (memorystream_new length)) data length; Ok (mkPacket m 0).

(** The bytes of an [int] and of a 64-bit [time_t]. *)
Definition int_bytes (z : Z) : list Z := le_encode 4 z.
Definition time_bytes (t : Z) : list Z := le_encode 8 t.

(** [packet(int id, const char* body, size_t bodylength, int extra)], called at
    time [now]. *)
Definition packet_make (now id : Z) (body : option (list Z)) (bodylength extra : Z) : outcome packet :=
  let m := ms_clear (memorystream_new (u64 (PACKET_HEAD_LENGTH + bodylength))) in
  m ← ms_append_value m (int_bytes id);
  m ← ms_append_value m (int_bytes PACKET_VERSION);
  m ← ms_append_value m (time_bytes now);
  m ← ms_append_value m (int_bytes bodylength);
  m ← ms_append_value m (int_bytes extra);
  m ← ms_append m body bodylength;
  Ok (mkPacket m 0).

Definition is_valid (p : packet) : bool := ms_length (stream_of p) >=? PACKET_HEAD_LENGTH.

Definition read_int (p : packet) (offset : Z) : outcome Z :=
  b ← ms_read_value (stream_of p) 4 offset; Ok (i32 (le_decode b)).

Definition packet_id (p : packet) : outcome Z :=
  if ms_length (stream_of p) <=? PACKET_ID_OFFSET then Ok 0 else read_int p PACKET_ID_OFFSET.
Definition packet_version (p : packet) : outcome Z :=
  if ms_length (stream_of p) <=? PACKET_VERSION_OFFSET then Ok 0 else read_int p PACKET_VERSION_OFFSET.
Definition packet_time (p : packet) : outcome Z :=
  if ms_length (stream_of p) <=? PACKET_TIMESTAMP_OFFSET then Ok 0
  else b ← ms_read_value (stream_of p) 8 PACKET_TIMESTAMP_OFFSET; Ok (i64 (le_decode b)).
Definition packet_bodylength (p : packet) : outcome Z :=
  if ms_length (stream_of p) <=? PACKET_BODY_LENGTH_OFFSET then Ok 0
  else b ← ms_read_value (stream_of p) 4 PACKET_BODY_LENGTH_OFFSET; Ok (u32 (le_decode b)).
Definition packet_extra (p : packet) : outcome Z :=
  if ms_length (stream_of p) <=? PACKET_EXTRA_OFFSET then Ok 0 else read_int p PACKET_EXTRA_OFFSET.

(** [body(std::string& data)]: the return value and the new contents of [data]
    ([None]: unchanged). *)
Definition packet_body (p : packet) : outcome (Z * option (list Z)) :=
  if ms_length (stream_of p) <=? PACKET_BODY_OFFSET then Ok (0, None) else
  len ← packet_bodylength p;
  if ms_length (stream_of p) <? len then Ok (0, None) else
  '(r, data) ← ms_read_string (stream_of p) PACKET_BODY_OFFSET len;
  if negb (r =? 0) then Ok (0, Some []) else Ok (len, data).

(** The cursor. *)
Definition packet_read_value (p : packet) (sizeof_T : Z) : outcome (list Z * packet) :=
  b ← ms_read_value (stream_of p) sizeof_T (m_index p);
  Ok (b, p <| m_index := u64 (m_index p + sizeof_T) |>).

Definition packet_read (p : packet) (len : Z) : outcome (Z * list Z * packet) :=
  '(r, b) ← ms_read (stream_of p) (m_index p) len;
  Ok (r, b, if r =? 0 then p <| m_index := u64 (m_index p + len) |> else p).

Definition packet_read_string (p : packet) (len : Z) : outcome (Z * option (list Z) * packet) :=
  '(r, b) ← ms_read_string (stream_of p) (m_index p) len;
  if r =? 0 then Ok (r, b, p <| m_index := u64 (m_index p + u64 (len + 1)) |>)
  else Ok (r, Some [], p).

(** ** Invariant and contents *)

Record ms_wf (m : memorystream) : Prop := {
  ms_len : 0 <= m_length m <= zlen (m_data m);
  ms_small : zlen (m_data m) < 2 ^ 62 }.

Definition ms_content (m : memorystream) : list Z := take (Z.to_nat (m_length m)) (m_data m).

Lemma zlen_content m : ms_wf m -> zlen (ms_content m) = m_length m.
Proof. intros [? ?]. unfold ms_content. by rewrite zlen_take. Qed.

Lemma zlen_resize l n : 0 <= n -> zlen (vector_resize l n) = n.
Proof. intros. unfold vector_resize, zlen. rewrite length_app, length_take, length_replicate. lia. Qed.

(** Growing keeps the elements. *)
Lemma resize_prefix l n : zlen l <= n -> take (length l) (vector_resize l n) = l.
Proof.
  intros H. unfold vector_resize. rewrite (take_ge l) by (unfold zlen in H; lia).
  apply take_app_length.
Qed.

Lemma write_at_Ok l off src :
  0 <= off -> off + zlen src <= zlen l ->
  write_at l off src = Ok (take (Z.to_nat off) l ++ src ++ drop (Z.to_nat (off + zlen src)) l).
Proof. intros. unfold write_at. by rewrite bool_decide_true by lia. Qed.

Lemma take_write {A} (n : nat) (l src rest : list A) :
  (n <= length l)%nat -> take (n + length src) (take n l ++ src ++ rest) = take n l ++ src.
Proof.
  intros H. rewrite app_assoc. apply take_app_length'.
  rewrite length_app, length_take. lia.
Qed.

Lemma append_spec m d size :
  ms_wf m -> 0 <= size <= zlen d -> m_length m + size < 2 ^ 62 ->
  exists m', ms_append m (Some d) size = Ok m' /\ ms_wf m' /\
    m_length m' = m_length m + size /\
    ms_content m' = ms_content m ++ take (Z.to_nat size) d /\
    zlen (m_data m') = Z.max (zlen (m_data m)) (m_length m + size).
Proof.
  intros [Hl Hs] Hsz Hb. unfold ms_append.
  rewrite u64_small by (mword_unfold; lia).
  assert (Hread : read_at d 0 size = Ok (take (Z.to_nat size) d)) by (apply read_at_Ok; split; [lia|done]).
  rewrite Hread. cbn [mbind outcome_bind].
  remember (if zlen (m_data m) <? m_length m + size then vector_resize (m_data m) (m_length m + size)
            else m_data m) as buf eqn:Hbuf.
  assert (Hmax : zlen buf = Z.max (zlen (m_data m)) (m_length m + size)).
  { subst buf. destruct (Z.ltb_spec (zlen (m_data m)) (m_length m + size)); [rewrite zlen_resize|]; lia. }
  assert (Hbl : m_length m + size <= zlen buf < 2 ^ 62).
  { subst buf. destruct (Z.ltb_spec (zlen (m_data m)) (m_length m + size)); [rewrite zlen_resize|]; lia. }
  assert (Hpre : take (Z.to_nat (m_length m)) buf = ms_content m).
  { subst buf. unfold ms_content. destruct (Z.ltb_spec (zlen (m_data m)) (m_length m + size)); [|done].
    rewrite <- (resize_prefix (m_data m) (m_length m + size)) at 2 by lia.
    rewrite take_take. f_equal. unfold zlen in *. lia. }
  assert (Hsrc : zlen (take (Z.to_nat size) d) = size) by (apply zlen_take; lia).
  rewrite write_at_Ok by lia. cbn [mbind outcome_bind]. eexists. split; [done|].
  assert (Hlen : zlen (take (Z.to_nat (m_length m)) buf ++ take (Z.to_nat size) d ++
                 drop (Z.to_nat (m_length m + zlen (take (Z.to_nat size) d))) buf) = zlen buf).
  { rewrite !zlen_app, Hsrc, zlen_take, zlen_drop by lia. lia. }
  split; [split; cbn; lia|]. split; [done|]. split; [|cbn; lia]. unfold ms_content at 1. cbn.
  replace (Z.to_nat (m_length m + size)) with (Z.to_nat (m_length m) + length (take (Z.to_nat size) d))%nat
    by (unfold zlen in Hsrc; lia).
  rewrite take_write by (unfold zlen in Hbl; lia). by rewrite Hpre.
Qed.

Lemma append_value_spec m b :
  ms_wf m -> m_length m + zlen b < 2 ^ 62 ->
  exists m', ms_append_value m b = Ok m' /\ ms_wf m' /\
    m_length m' = m_length m + zlen b /\ ms_content m' = ms_content m ++ b /\
    zlen (m_data m') = Z.max (zlen (m_data m)) (m_length m + zlen b).
Proof.
  intros Hm Hb. pose proof (zlen_nonneg b).
  destruct (append_spec m b (zlen b) Hm) as (m' & H1 & H2 & H3 & H4 & H5); [lia|done|].
  exists m'. split; [done|]. split; [done|]. split; [done|]. split; [|done].
  rewrite H4, take_ge; [done|]. unfold zlen. lia.
Qed.

(** Reading inside of the contents. *)
Lemma read_value_spec m n offset :
  ms_wf m -> 0 <= offset -> 0 <= n -> offset + n <= m_length m ->
  ms_read_value m n offset = read_at (ms_content m) offset n.
Proof.
  intros Hm Ho Hn Hle. pose proof (zlen_content m Hm) as Hc. destruct Hm as [Hl Hs].
  unfold ms_read_value. rewrite u64_small by (mword_unfold; lia).
  destruct (Z.leb_spec n (m_length m - offset)); [|lia]. cbn [c_assert mbind outcome_bind].
  transitivity (Ok (take (Z.to_nat n) (drop (Z.to_nat offset) (m_data m)))).
  - apply read_at_Ok. split; [lia|done].
  - symmetry. apply read_at_Ok. split; [lia|]. unfold ms_content.
    rewrite skipn_firstn_comm, take_take. f_equal. lia.
Qed.

Lemma memorystream_read' m offset len :
  ms_wf m -> 0 <= offset < 2 ^ 64 -> 0 <= len < 2 ^ 64 ->
  ms_read m offset len =
    Ok (if offset >=? m_length m then (1, [])
        else if offset + len >? m_length m then (2, [])
        else (0, take (Z.to_nat len) (drop (Z.to_nat offset) (ms_content m)))).
Proof.
  intros Hm Ho Hl. pose proof (zlen_content m Hm) as Hc. destruct Hm as [Hm Hs].
  unfold ms_read. destruct (Z.geb_spec offset (m_length m)) as [H1|H1]; [done|].
  destruct (Z.gtb_spec len (m_length m)) as [H2|H2]; cbn [orb].
  { destruct (Z.gtb_spec (offset + len) (m_length m)); [done|lia]. }
  rewrite u64_small by (mword_unfold; lia).
  destruct (Z.gtb_spec (offset + len) (m_length m)) as [H3|H3]; [done|].
  assert (Hread : read_at (m_data m) offset len = Ok (take (Z.to_nat len) (drop (Z.to_nat offset) (ms_content m)))).
  { apply read_at_Ok. split; [lia|]. unfold ms_content. rewrite skipn_firstn_comm, take_take. f_equal. lia. }
  by rewrite Hread.
Qed.

(** ** The packet head *)

Definition packet_head (now id bodylength extra : Z) : list Z :=
  int_bytes id ++ int_bytes PACKET_VERSION ++ time_bytes now ++ int_bytes bodylength ++ int_bytes extra.

Lemma zlen_head now id bl extra : zlen (packet_head now id bl extra) = 24.
Proof. unfold packet_head, int_bytes, time_bytes. by rewrite !zlen_app, !zlen_le_encode. Qed.

(** A packet that holds the given fields. *)
Record holds (p : packet) (now id extra : Z) (body : list Z) : Prop := {
  holds_wf : ms_wf (stream_of p);
  holds_content : ms_content (stream_of p) = packet_head now id (zlen body) extra ++ body }.

Lemma holds_length p now id extra body :
  holds p now id extra body -> m_length (stream_of p) = 24 + zlen body.
Proof. intros [Hm Hc]. rewrite <- (zlen_content _ Hm), Hc, zlen_app, zlen_head. done. Qed.

(** Reading back a field from known contents. *)
Lemma read_field p now id extra body pre v post off n :
  holds p now id extra body ->
  packet_head now id (zlen body) extra ++ body = pre ++ v ++ post -> off = zlen pre -> n = zlen v ->
  ms_read_value (stream_of p) n off = Ok v.
Proof.
  intros [Hm Hc] Heq Ho Hn. pose proof (zlen_content _ Hm) as Hlen. rewrite Hc, Heq, !zlen_app in Hlen.
  pose proof (zlen_nonneg pre). pose proof (zlen_nonneg v). pose proof (zlen_nonneg post).
  rewrite read_value_spec by (done || lia). rewrite Hc, Heq. by apply read_at_mid.
Qed.

Ltac head_field pre v :=
  match goal with
  | |- context [ms_read_value _ _ _] =>
      erewrite (read_field _ _ _ _ _ pre v); [|eassumption
        |unfold packet_head; rewrite <- !app_assoc; reflexivity
        |unfold int_bytes, time_bytes; repeat rewrite ?zlen_app, ?zlen_le_encode; reflexivity
        |unfold int_bytes, time_bytes; rewrite zlen_le_encode; reflexivity]
  end; cbn [mbind outcome_bind].

Lemma holds_accessors p now id extra body :
  holds p now id extra body -> is_i32 id -> is_i32 extra -> - 2 ^ 63 <= now < 2 ^ 63 -> zlen body < 2 ^ 31 ->
  is_valid p = true /\ packet_id p = Ok id /\ packet_version p = Ok 1 /\ packet_time p = Ok now /\
  packet_bodylength p = Ok (zlen body) /\ packet_extra p = Ok extra.
Proof.
  intros Hp Hid Hex Hnow Hb. pose proof (holds_length _ _ _ _ _ Hp) as Hlen. pose proof (zlen_nonneg body).
  assert (Hgt : forall z, z < 24 -> (ms_length (stream_of p) <=? z) = false)
    by (intros z Hz; unfold ms_length; apply Z.leb_gt; lia).
  split; [unfold is_valid, ms_length, PACKET_HEAD_LENGTH; apply Z.geb_le; lia|].
  unfold packet_id, packet_version, packet_time, packet_bodylength, packet_extra, read_int.
  rewrite !Hgt by (vm_compute; reflexivity).
  assert (H4 : forall z, is_i32 z -> i32 (le_decode (int_bytes z)) = z)
    by (intros z Hz; unfold int_bytes; rewrite le_decode_encode; change (256 ^ Z.of_nat 4) with (2 ^ 32); mword).
  split; [|split; [|split; [|split]]].
  - head_field (@nil Z) (int_bytes id). by rewrite H4.
  - head_field (int_bytes id) (int_bytes PACKET_VERSION). done.
  - head_field (int_bytes id ++ int_bytes PACKET_VERSION) (time_bytes now).
    unfold time_bytes. rewrite le_decode_encode. change (256 ^ Z.of_nat 8) with (2 ^ 64). f_equal. mword.
  - head_field (int_bytes id ++ int_bytes PACKET_VERSION ++ time_bytes now) (int_bytes (zlen body)).
    unfold int_bytes. rewrite le_decode_encode. change (256 ^ Z.of_nat 4) with (2 ^ 32). f_equal. mword.
  - head_field (int_bytes id ++ int_bytes PACKET_VERSION ++ time_bytes now ++ int_bytes (zlen body)) (int_bytes extra).
    by rewrite H4.
Qed.

Lemma packet_make_holds now id extra body :
  zlen body < 2 ^ 31 ->
  exists p, packet_make now id (Some body) (zlen body) extra = Ok p /\ holds p now id extra body /\
    zlen (m_data (stream_of p)) = m_length (stream_of p) /\ m_index p = 0.
Proof.
  intros Hb. unfold packet_make. pose proof (zlen_nonneg body).
  assert (H0 : ms_wf (ms_clear (memorystream_new (u64 (PACKET_HEAD_LENGTH + zlen body)))))
    by (split; by_decide).
  assert (Hlen0 : m_length (ms_clear (memorystream_new (u64 (PACKET_HEAD_LENGTH + zlen body)))) = 0) by done.
  assert (Hd0 : zlen (m_data (ms_clear (memorystream_new (u64 (PACKET_HEAD_LENGTH + zlen body))))) = 0) by done.
  assert (Hc0 : ms_content (ms_clear (memorystream_new (u64 (PACKET_HEAD_LENGTH + zlen body)))) = []) by done.
  set (m0 := ms_clear _) in *. clearbody m0.
  assert (Hi : forall z, zlen (int_bytes z) = 4) by (intros; apply zlen_le_encode).
  assert (Ht : zlen (time_bytes now) = 8) by apply zlen_le_encode.
  destruct (append_value_spec m0 (int_bytes id) H0) as (m1 & -> & W1 & L1 & C1 & D1); [rewrite Hi; lia|].
  cbn [mbind outcome_bind]. rewrite Hi, Hlen0 in L1, D1.
  destruct (append_value_spec m1 (int_bytes PACKET_VERSION) W1) as (m2 & -> & W2 & L2 & C2 & D2); [rewrite Hi; lia|].
  cbn [mbind outcome_bind]. rewrite Hi in L2, D2.
  destruct (append_value_spec m2 (time_bytes now) W2) as (m3 & -> & W3 & L3 & C3 & D3); [rewrite Ht; lia|].
  cbn [mbind outcome_bind]. rewrite Ht in L3, D3.
  destruct (append_value_spec m3 (int_bytes (zlen body)) W3) as (m4 & -> & W4 & L4 & C4 & D4); [rewrite Hi; lia|].
  cbn [mbind outcome_bind]. rewrite Hi in L4, D4.
  destruct (append_value_spec m4 (int_bytes extra) W4) as (m5 & -> & W5 & L5 & C5 & D5); [rewrite Hi; lia|].
  cbn [mbind outcome_bind]. rewrite Hi in L5, D5.
  destruct (append_spec m5 body (zlen body) W5) as (m6 & -> & W6 & L6 & C6 & D6); [lia|lia|].
  cbn [mbind outcome_bind]. eexists. split; [done|]. cbn [stream_of m_index]. split; [|split; [lia|done]].
  split; [done|]. cbn [stream_of].
  rewrite C6, C5, C4, C3, C2, C1, Hc0, take_ge by (unfold zlen; lia). unfold packet_head.
  by rewrite <- !app_assoc.
Qed.

(** ** Main results *)

(** [append] extends the contents by exactly the given bytes, whatever was
    written before and however long the underlying vector is. *)
Theorem memorystream_append m d size :
  ms_wf m -> 0 <= size <= zlen d -> m_length m + size < 2 ^ 62 ->
  exists m', ms_append m (Some d) size = Ok m' /\ ms_wf m' /\
    m_length m' = m_length m + size /\ ms_content m' = ms_content m ++ take (Z.to_nat size) d.
Proof.
  intros Hm Hs Hb. destruct (append_spec m d size Hm Hs Hb) as (m' & ? & ? & ? & ? & _). by exists m'.
Qed.

Definition ms_example : memorystream := mkMs [1; 2; 3; 0; 0] 3.

Lemma memorystream_append_witness :
  exists m', ms_append ms_example (Some [7; 8; 9; 10]) 4 = Ok m' /\ ms_wf m' /\
    m_length m' = m_length ms_example + 4 /\
    ms_content m' = ms_content ms_example ++ take (Z.to_nat 4) [7; 8; 9; 10].
Proof. apply memorystream_append; [split; by_decide|by_decide|by_decide]. Defined.

(** [read(char*, offset, len)] on every branch, for all [size_t] arguments:
    1 when the offset is at or behind the end, 2 when the range sticks out, and
    otherwise 0 with exactly the bytes of the contents; it never accesses memory
    outside of the vector. *)
Theorem memorystream_read m offset len :
  ms_wf m -> 0 <= offset < 2 ^ 64 -> 0 <= len < 2 ^ 64 ->
  ms_read m offset len =
    Ok (if offset >=? m_length m then (1, [])
        else if offset + len >? m_length m then (2, [])
        else (0, take (Z.to_nat len) (drop (Z.to_nat offset) (ms_content m)))).
Proof. apply memorystream_read'. Qed.

Lemma memorystream_read_witness :
  ms_read ms_example 1 2 =
    Ok (if 1 >=? m_length ms_example then (1, [])
        else if 1 + 2 >? m_length ms_example then (2, [])
        else (0, take (Z.to_nat 2) (drop (Z.to_nat 1) (ms_content ms_example)))).
Proof. apply memorystream_read; [split; by_decide|by_decide|by_decide]. Defined.

(** [body()] on a packet whose vector holds just its contents. *)
Lemma holds_body p now id extra body :
  holds p now id extra body -> zlen (m_data (stream_of p)) = m_length (stream_of p) ->
  packet_bodylength p = Ok (zlen body) -> zlen body < 2 ^ 31 ->
  packet_body p = if bool_decide (body = []) then Ok (0, None) else Crash OutOfBounds.
Proof.
  intros Hh Hfull Hbl Hb. pose proof (holds_length _ _ _ _ _ Hh) as Hlen. pose proof (zlen_nonneg body).
  unfold packet_body, ms_length, PACKET_BODY_OFFSET. destruct (bool_decide_reflect (body = [])) as [->|Hne].
  { destruct (Z.leb_spec (m_length (stream_of p)) 24); [done|]. change (zlen (@nil Z)) with 0 in Hlen. lia. }
  assert (0 < zlen body) by (destruct body; [done|unfold zlen; cbn; lia]).
  destruct (Z.leb_spec (m_length (stream_of p)) 24); [lia|]. rewrite Hbl. cbn [mbind outcome_bind].
  destruct (Z.ltb_spec (m_length (stream_of p)) (zlen body)); [lia|]. unfold ms_read_string.
  destruct (Z.gtb_spec 24 (m_length (stream_of p))); [lia|].
  destruct (Z.gtb_spec (zlen body) (m_length (stream_of p))); [lia|]. cbn [orb].
  rewrite !u64_small by (mword_unfold; lia).
  destruct (Z.gtb_spec (24 + zlen body) (m_length (stream_of p))); [lia|].
  assert (Hr : read_at (m_data (stream_of p)) 24 (zlen body + 1) = Crash OutOfBounds).
  { unfold read_at. rewrite bool_decide_false; [done|]. lia. }
  by rewrite Hr.
Qed.

(** Reading the head and then the body with the cursor. *)
Lemma holds_cursor p now id extra body :
  holds p now id extra body -> m_index p = 0 ->
  exists p1 p2, packet_read p PACKET_HEAD_LENGTH = Ok (0, packet_head now id (zlen body) extra, p1) /\
    packet_read p1 (zlen body) = Ok (if bool_decide (body = []) then 1 else 0, body, p2).
Proof.
  intros Hh Hi. pose proof (holds_length _ _ _ _ _ Hh) as Hlen. pose proof (zlen_nonneg body).
  destruct Hh as [Hw Hc]. pose proof Hw as [Hl Hs]. unfold packet_read. rewrite Hi.
  rewrite memorystream_read' by (done || unfold PACKET_HEAD_LENGTH; lia). unfold PACKET_HEAD_LENGTH.
  destruct (Z.geb_spec 0 (m_length (stream_of p))); [lia|]. destruct (Z.gtb_spec (0 + 24) (m_length (stream_of p))); [lia|].
  cbn [mbind outcome_bind Z.eqb]. eexists _, (if bool_decide (body = []) then _ else _). split.
  { assert (E : take (Z.to_nat 24) (drop (Z.to_nat 0) (ms_content (stream_of p))) = packet_head now id (zlen body) extra).
    { rewrite Hc. change (Z.to_nat 0) with 0%nat. rewrite drop_0. apply take_app_length'. by rewrite length_zlen, zlen_head. }
    by rewrite E. }
  set (p1 := p <| m_index := _ |>). assert (Hp1 : m_index p1 = 24) by (cbn; mword).
  change (stream_of p1) with (stream_of p). rewrite Hp1. rewrite memorystream_read' by (done || lia).
  destruct (bool_decide_reflect (body = [])) as [->|Hne].
  { change (zlen (@nil Z)) with 0 in Hlen. destruct (Z.geb_spec 24 (m_length (stream_of p))); [done|lia]. }
  assert (0 < zlen body) by (destruct body; [done|unfold zlen; cbn; lia]).
  destruct (Z.geb_spec 24 (m_length (stream_of p))); [lia|].
  destruct (Z.gtb_spec (24 + zlen body) (m_length (stream_of p))); [lia|]. cbn [mbind outcome_bind Z.eqb].
  assert (E : take (Z.to_nat (zlen body)) (drop (Z.to_nat 24) (ms_content (stream_of p))) = body).
  { rewrite Hc. rewrite drop_app_length' by (by rewrite length_zlen, zlen_head). apply take_ge. unfold zlen. lia. }
  by rewrite E.
Qed.

(** C18: round trip of a packet. A packet built from its fields, and the packet
    that [on_tcpreceive] builds from its bytes, are valid and the accessors of the
    head return the fields; reading with the cursor, first a head's length and
    then the body's, returns the body (with the code 1 when there is none). The
    accessor [body()] does not: for an empty body it returns 0, and for every other
    one it reads a byte behind the vector. *)
Theorem packet_roundtrip now id extra body :
  is_i32 id -> is_i32 extra -> - 2 ^ 63 <= now < 2 ^ 63 -> zlen body < 2 ^ 31 ->
  exists p q, packet_make now id (Some body) (zlen body) extra = Ok p /\
    packet_of_data (Some (m_data (stream_of p))) (ms_length (stream_of p)) = Ok q /\
    forall r, r = p \/ r = q ->
      is_valid r = true /\ packet_id r = Ok id /\ packet_version r = Ok 1 /\ packet_time r = Ok now /\
      packet_bodylength r = Ok (zlen body) /\ packet_extra r = Ok extra /\
      (exists head r1 r2, packet_read r PACKET_HEAD_LENGTH = Ok (0, head, r1) /\
        packet_read r1 (zlen body) = Ok (if bool_decide (body = []) then 1 else 0, body, r2)) /\
      packet_body r = if bool_decide (body = []) then Ok (0, None) else Crash OutOfBounds.
Proof.
  intros Hid Hex Hnow Hb. destruct (packet_make_holds now id extra body Hb) as (p & Hp & Hh & Hfull & Hidx).
  pose proof (holds_length _ _ _ _ _ Hh) as Hlen. pose proof (zlen_nonneg body). pose proof Hh as [Hm Hc].
  assert (H0 : ms_wf (ms_clear (memorystream_new (ms_length (stream_of p))))) by (split; by_decide).
  destruct (append_spec _ (m_data (stream_of p)) (ms_length (stream_of p)) H0) as (m & Hr & W & L & C & D);
    [destruct Hm; unfold ms_length; lia|unfold ms_length; cbn; lia|].
  assert (Hq : holds (mkPacket m 0) now id extra body).
  { split; [done|]. cbn [stream_of]. rewrite C, <- Hc. done. }
  assert (Hqf : zlen (m_data m) = m_length m).
  { rewrite D, L. change (zlen (m_data (ms_clear _))) with 0. change (m_length (ms_clear _)) with 0. unfold ms_length. lia. }
  exists p, (mkPacket m 0). split; [done|]. split; [unfold packet_of_data; by rewrite Hr|].
  intros r Hor. assert (Hrh : holds r now id extra body /\ zlen (m_data (stream_of r)) = m_length (stream_of r) /\ m_index r = 0)
    by (destruct Hor; by subst). destruct Hrh as (Hrh & Hrf & Hri).
  destruct (holds_accessors r now id extra body Hrh Hid Hex Hnow Hb) as (?&?&?&?&?&?).
  do 6 (split; [done|]). split; [|by eapply holds_body].
  destruct (holds_cursor r now id extra body Hrh Hri) as (r1 & r2 & E1 & E2). by eexists _, r1, r2.
Qed.

Lemma packet_roundtrip_witness :
  exists p q, packet_make 1530000000 (-7) (Some [104; 105]) (zlen [104; 105]) 3 = Ok p /\
    packet_of_data (Some (m_data (stream_of p))) (ms_length (stream_of p)) = Ok q /\
    forall r, r = p \/ r = q ->
      is_valid r = true /\ packet_id r = Ok (-7) /\ packet_version r = Ok 1 /\ packet_time r = Ok 1530000000 /\
      packet_bodylength r = Ok (zlen [104; 105]) /\ packet_extra r = Ok 3 /\
      (exists head r1 r2, packet_read r PACKET_HEAD_LENGTH = Ok (0, head, r1) /\
        packet_read r1 (zlen [104; 105]) = Ok (0, [104; 105], r2)) /\
      packet_body r = Crash OutOfBounds.
Proof. apply packet_roundtrip; by_decide. Defined.

(** The assertion of [read<T>] compares unsigned numbers: with a cursor
    behind the end the difference wraps around, the assertion passes and the
    bytes are read from outside of the vector.  [packet(std::string&)] leaves the
    cursor uninitialised, so any such value can be there. *)
Theorem packet_cursor_unchecked junk data sizeof_T :
  zlen data < 2 ^ 31 -> zlen data + 1 < junk < 2 ^ 64 - 2 ^ 16 -> 0 < sizeof_T <= 2 ^ 16 ->
  exists p, packet_of_string junk data = Ok p /\ packet_read_value p sizeof_T = Crash OutOfBounds.
Proof.
  intros Hb Hj Hs. pose proof (zlen_nonneg data).
  assert (H0 : ms_wf (ms_clear (memorystream_new 0))) by (split; by_decide).
  destruct (append_spec _ (data ++ [0]) (zlen data + 1) H0) as (m & Hm & W & L & C & D);
    [rewrite zlen_app; change (zlen [0]) with 1; lia|cbn; lia|].
  change (zlen (m_data (ms_clear (memorystream_new 0)))) with 0 in D.
  change (m_length (ms_clear (memorystream_new 0))) with 0 in L, D.
  exists (mkPacket m junk). split; [unfold packet_of_string, ms_append_string; by rewrite Hm|].
  unfold packet_read_value, ms_read_value. cbn [stream_of m_index]. rewrite L.
  assert (Hw : u64 (0 + (zlen data + 1) - junk) = 2 ^ 64 + (zlen data + 1 - junk)).
  { unfold u64. rewrite <- (Z.mod_add _ 1) by done. rewrite Z.mod_small; lia. }
  rewrite Hw. destruct (Z.leb_spec sizeof_T (2 ^ 64 + (zlen data + 1 - junk))) as [_|Hbad].
  - cbn [c_assert mbind outcome_bind]. unfold read_at. rewrite bool_decide_false; [done|]. lia.
  - exfalso. lia.
Qed.

Lemma packet_cursor_unchecked_witness :
  exists p, packet_of_string 14757395258967641292 [104; 105] = Ok p /\
            packet_read_value p 4 = Crash OutOfBounds.
Proof. apply packet_cursor_unchecked; by_decide. Defined.
