(* ===== verification/Dispatcher.v ===== *)
(** * dispatcher, eventinterface, networkinterface

    The message registry of [src/libs/server/include/dispatcher.h] and its two
    instances, [eventinterface.h] and [networkinterface.h]: receivers are heap
    objects, the registry maps a message id to a list of pointers to them. *)

From S2P Require Import Prelude.

(** ** The receiver interface

    [class ireceiver]: [equals], and what [invoke] decides (whether the method is
    called for a message [id]).  The laws are what the dispatcher relies on. *)
Class ireceiver (R : Type) := {
  equals : R -> R -> bool;
  accepts : R -> Z -> bool }.

Class ireceiver_laws (R : Type) `{ireceiver R} := {
  equals_refl : forall r, equals r r = true;
  equals_sym : forall r s, equals r s = equals s r;
  equals_trans : forall r s t, equals r s = true -> equals s t = true -> equals r t = true }.

(** [eventinterface::receiver<T>] and [networkinterface::receiver<T>] have the
    same fields: the type [T] (as its [typeid]), the object (0 is null), the
    message id and the member function.  They are different classes. *)
Record event_receiver := mkEvent { er_type : Z; er_object : Z; er_id : Z; er_receiver : Z }.
Record network_receiver := mkNetwork { nr_type : Z; nr_object : Z; nr_id : Z; nr_receiver : Z }.

Definition event_is_type (r : event_receiver) (type : Z) : bool := er_type r =? type.
Definition event_equals (r other : event_receiver) : bool :=
  if negb (event_is_type other (er_type r)) then false
  else (er_object r =? er_object other) && (er_id r =? er_id other) && (er_receiver r =? er_receiver other).
Definition event_accepts (r : event_receiver) (id : Z) : bool := (id =? er_id r) && negb (er_object r =? 0).

Definition network_is_type (r : network_receiver) (type : Z) : bool := nr_type r =? type.
Definition network_equals (r other : network_receiver) : bool :=
  if negb (network_is_type other (nr_type r)) then false
  else (nr_object r =? nr_object other) && (nr_id r =? nr_id other) && (nr_receiver r =? nr_receiver other).
Definition network_accepts (r : network_receiver) (id : Z) : bool := (id =? nr_id r) && negb (nr_object r =? 0).

#[export] Instance event_ireceiver : ireceiver event_receiver :=
  {| equals := event_equals; accepts := event_accepts |}.
#[export] Instance network_ireceiver : ireceiver network_receiver :=
  {| equals := network_equals; accepts := network_accepts |}.

Lemma event_equals_eq r s : event_equals r s = true <-> r = s.
Proof.
  destruct r as [t o i f], s as [t' o' i' f']. unfold event_equals, event_is_type. cbn.
  destruct (Z.eqb_spec t' t); cbn; [|naive_solver].
  rewrite !andb_true_iff, !Z.eqb_eq. naive_solver.
Qed.

Lemma network_equals_eq r s : network_equals r s = true <-> r = s.
Proof.
  destruct r as [t o i f], s as [t' o' i' f']. unfold network_equals, network_is_type. cbn.
  destruct (Z.eqb_spec t' t); cbn; [|naive_solver].
  rewrite !andb_true_iff, !Z.eqb_eq. naive_solver.
Qed.

Lemma eq_bool_iff' a b : (a = true <-> b = true) -> a = b.
Proof. destruct a, b; naive_solver. Qed.

#[export] Instance event_laws : ireceiver_laws event_receiver.
Proof.
  split; cbn; [intros r; by apply event_equals_eq| |].
  - intros r s. apply eq_bool_iff'. by rewrite !event_equals_eq.
  - intros r s t. rewrite !event_equals_eq. congruence.
Qed.
#[export] Instance network_laws : ireceiver_laws network_receiver.
Proof.
  split; cbn; [intros r; by apply network_equals_eq| |].
  - intros r s. apply eq_bool_iff'. by rewrite !network_equals_eq.
  - intros r s t. rewrite !network_equals_eq. congruence.
Qed.

(** ** dispatcher

    [heap] holds the live receiver objects by address; a list node carries its
    own identity (an iterator points to a node), and the pointer it stores. *)
Record dispatcher (R : Type) := mkDispatcher {
  heap : gmap Z R; m_receivers : gmap Z (list (Z * Z)); next_node : Z }.
Arguments mkDispatcher {R} _ _ _.
Arguments heap {R} _.
Arguments m_receivers {R} _.
Arguments next_node {R} _.

Section dispatcher.
Context {R : Type} `{ireceiver R}.

Definition dispatcher_new : dispatcher R := mkDispatcher ∅ ∅ 0.

(** Dereference a pointer to a receiver. *)
Definition deref (h : gmap Z R) (p : Z) : outcome R :=
  match h !! p with Some r => Ok r | None => Crash UseAfterFree end.

(** The search loop of [listen]: is there a registered receiver equal to [r]? *)
Fixpoint exists_equal (h : gmap Z R) (l : list (Z * Z)) (r : R) : outcome bool :=
  match l with
  | [] => Ok false
  | (_, p) :: l => x ← deref h p; if equals x r then Ok true else exists_equal h l r
  end.

(** [listen(id, receiver)]; [receiver = 0] is null. *)
Definition listen (d : dispatcher R) (id receiver : Z) : outcome (dispatcher R * bool) :=
  if receiver =? 0 then Ok (d, false) else
  let m := match m_receivers d !! id with
           | None => <[id := []]> (m_receivers d)
           | Some _ => m_receivers d
           end in
  let l : list (Z * Z) := default [] (m !! id) in
  r ← deref (heap d) receiver;
  found ← exists_equal (heap d) l r;
  if (found : bool) then Ok (mkDispatcher (heap d) m (next_node d), false)
  else Ok (mkDispatcher (heap d) (<[id := l ++ [(next_node d, receiver)]]> m) (next_node d + 1), true).

(** The loop of [unlisten]: the list without the first receiver equal to [r],
    and the pointer that was erased. *)
Fixpoint erase_equal (h : gmap Z R) (l : list (Z * Z)) (r : R) : outcome (list (Z * Z) * option Z) :=
  match l with
  | [] => Ok ([], None)
  | (n, p) :: l =>
      x ← deref h p;
      if equals x r then Ok (l, Some p)
      else '(l', e) ← erase_equal h l r; Ok ((n, p) :: l', e)
  end.

(** [SAFE_DELETE(p)] *)
Definition safe_delete (h : gmap Z R) (p : Z) : outcome (gmap Z R) :=
  if p =? 0 then Ok h else
  match h !! p with Some _ => Ok (delete p h) | None => Crash DoubleFree end.

(** [unlisten(id, receiver)]; the caller passes a receiver by address, only its
    value matters ([None]: null). *)
Definition unlisten (d : dispatcher R) (id : Z) (receiver : option R) : outcome (dispatcher R) :=
  match receiver with
  | None => Ok d
  | Some r =>
      match m_receivers d !! id with
      | None => Ok d
      | Some l =>
          '(l, e) ← erase_equal (heap d) l r;
          h ← match e with Some p => safe_delete (heap d) p | None => Ok (heap d) end;
          Ok (mkDispatcher h (<[id := l]> (m_receivers d)) (next_node d))
      end
  end.

(** [clear]: delete every receiver of every list. *)
Fixpoint delete_all (h : gmap Z R) (l : list Z) : outcome (gmap Z R) :=
  match l with
  | [] => Ok h
  | p :: l => h ← safe_delete h p; delete_all h l
  end.

Definition clear (d : dispatcher R) : outcome (dispatcher R) :=
  h ← delete_all (heap d) (map_to_list (m_receivers d) ≫= fun kl : Z * list (Z * Z) => kl.2.*2);
  Ok (mkDispatcher h ∅ (next_node d)).

(** The interface functions: [listen] allocates the receiver ([fresh] is the
    address [new] returns) and frees it when it is already registered. *)
Definition interface_listen (fresh : Z) (d : dispatcher R) (id : Z) (r : R) : outcome (dispatcher R * bool) :=
  let d := mkDispatcher (<[fresh := r]> (heap d)) (m_receivers d) (next_node d) in
  '(d, ok) ← listen d id fresh;
  if (ok : bool) then Ok (d, true)
  else h ← safe_delete (heap d) fresh; Ok (mkDispatcher h (m_receivers d) (next_node d), false).

Definition interface_unlisten (d : dispatcher R) (id : Z) (r : R) : outcome (dispatcher R) :=
  unlisten d id (Some r).

(** [dispatch]: the iterator is the identity of a node of the list [id].  A call
    may change the registry and the application's state ([S]).  After each call
    the node must still be in the list, or incrementing the iterator is a use
    after free. *)
Section dispatch.
Context {S : Type} (call : R -> Z -> dispatcher R * S -> outcome (dispatcher R * S)).

Fixpoint after_node (n : Z) (l : list (Z * Z)) : option (list (Z * Z)) :=
  match l with
  | [] => None
  | (m, p) :: l => if m =? n then Some l else after_node n l
  end.

Fixpoint dispatch_loop (fuel : nat) (id n p : Z) (w : dispatcher R * S) : outcome (dispatcher R * S) :=
  match fuel with
  | O => Crash OutOfFuel
  | Datatypes.S fuel =>
      r ← deref (heap w.1) p;
      w ← (if accepts r id then call r id w else Ok w);
      match m_receivers w.1 !! id with
      | None => Crash UseAfterFree
      | Some l =>
          match after_node n l with
          | None => Crash UseAfterFree
          | Some [] => Ok w
          | Some ((n', p') :: _) => dispatch_loop fuel id n' p' w
          end
      end
  end.

Definition dispatch (fuel : nat) (id : Z) (w : dispatcher R * S) : outcome (dispatcher R * S) :=
  match m_receivers w.1 !! id with
  | None => Ok w
  | Some [] => Ok w
  | Some ((n, p) :: _) => dispatch_loop fuel id n p w
  end.
End dispatch.
End dispatcher.

(** ** Invariant and abstraction *)

Section proofs.
Context {R : Type} `{Hlaws : ireceiver_laws R}.

(** The registered pointers are exactly the live receivers: each is owned by
    one node of one list (no dangling pointer, no leak, no double ownership),
    and no list holds two equal receivers. *)
Record dispatcher_wf (d : dispatcher R) : Prop := {
  wf_live : forall id l n p, m_receivers d !! id = Some l -> (n, p) ∈ l ->
    p <> 0 /\ is_Some (heap d !! p) /\ n < next_node d;
  wf_owner : forall id1 l1 n1 id2 l2 n2 p, m_receivers d !! id1 = Some l1 -> (n1, p) ∈ l1 ->
    m_receivers d !! id2 = Some l2 -> (n2, p) ∈ l2 -> id1 = id2 /\ n1 = n2;
  wf_nodes : forall id l, m_receivers d !! id = Some l -> NoDup l.*1;
  wf_owned : forall p, is_Some (heap d !! p) -> exists id l n, m_receivers d !! id = Some l /\ (n, p) ∈ l }.

(** The receivers of a list. *)
Definition receivers_of (h : gmap Z R) (l : list (Z * Z)) : list R := omap (fun np : Z * Z => h !! np.2) l.

(** The abstract registry: the receivers registered for each id, in order. *)
Definition registry (d : dispatcher R) : gmap Z (list R) := receivers_of (heap d) <$> m_receivers d.

Lemma receivers_cons h n p l r : h !! p = Some r -> receivers_of h ((n, p) :: l) = r :: receivers_of h l.
Proof. intros Hp. unfold receivers_of. csimpl. by rewrite Hp. Qed.

(** The receivers of a list depend only on the heap at its pointers. *)
Lemma receivers_ext h h' l :
  (forall n p, (n, p) ∈ l -> h !! p = h' !! p) -> receivers_of h l = receivers_of h' l.
Proof.
  induction l as [|[n p] l IH]; intros Heq; [done|]. unfold receivers_of in *. csimpl.
  rewrite (Heq n p) by (by left). destruct (h' !! p); [f_equal|]; apply IH; intros ? ? ?;
    eapply Heq; by right.
Qed.

Lemma exists_equal_spec h l r :
  (forall n p, (n, p) ∈ l -> is_Some (h !! p)) ->
  exists_equal h l r = Ok (existsb (fun x => equals x r) (receivers_of h l)).
Proof.
  induction l as [|[n p] l IH]; intros Hl; [done|]. cbn [exists_equal].
  destruct (Hl n p) as [x Hx]; [by left|]. unfold deref. rewrite Hx. cbn [mbind outcome_bind].
  rewrite (receivers_cons _ _ _ _ _ Hx). cbn [existsb]. destruct (equals x r); [done|].
  apply IH. intros ? ? ?. eapply Hl. by right.
Qed.

(** Removing the first receiver equal to [r]. *)
Fixpoint remove_equal (r : R) (l : list R) : list R :=
  match l with
  | [] => []
  | x :: l => if equals x r then l else x :: remove_equal r l
  end.

Lemma erase_equal_spec h l r :
  (forall n p, (n, p) ∈ l -> is_Some (h !! p)) -> NoDup l.*1 ->
  (forall n1 n2 p, (n1, p) ∈ l -> (n2, p) ∈ l -> n1 = n2) ->
  exists l' e, erase_equal h l r = Ok (l', e) /\
    receivers_of h l' = remove_equal r (receivers_of h l) /\
    match e with
    | None => l' = l
    | Some p => exists n x, (n, p) ∈ l /\ h !! p = Some x /\ equals x r = true /\
                  (forall n' p', (n', p') ∈ l' <-> (n', p') ∈ l /\ p' <> p) /\ NoDup l'.*1
    end.
Proof.
  induction l as [|[n p] l IH]; intros Hl Hnd Hown; [by exists [], None|]. cbn [erase_equal].
  csimpl in Hnd. apply NoDup_cons in Hnd as [Hn Hnd].
  destruct (Hl n p) as [x Hx]; [by left|]. unfold deref. rewrite Hx. cbn [mbind outcome_bind].
  rewrite (receivers_cons _ _ _ _ _ Hx). cbn [remove_equal].
  assert (Hnp : forall n', (n', p) ∉ l).
  { intros n' Hin. apply Hn. rewrite (Hown n n' p); [|by left|by right].
    apply list_elem_of_fmap. by exists (n', p). }
  destruct (equals x r) eqn:E.
  - exists l, (Some p). split; [done|]. split; [done|]. exists n, x. split; [by left|].
    do 2 (split; [done|]). split; [|done]. intros n' p'. rewrite elem_of_cons. split.
    + intros Hin. split; [by right|]. intros ->. by apply (Hnp n').
    + intros [[[= -> ->]|Hin] Hne]; done.
  - destruct IH as (l' & e & -> & Hrec & He); [intros; eapply Hl; by right|done
      |intros ? ? ? ? ?; eapply Hown; by right|].
    cbn [mbind outcome_bind]. eexists _, e. split; [done|].
    split; [rewrite (receivers_cons _ _ _ _ _ Hx); by rewrite Hrec|].
    destruct e as [q|]; [|by subst]. destruct He as (m & y & Hin & Hy & Heq & Hiff & Hnd').
    exists m, y. split; [by right|]. do 2 (split; [done|]).
    assert (Hpq : p <> q) by (intros ->; by apply (Hnp m)). split.
    + intros n' p'. rewrite !elem_of_cons, Hiff. naive_solver.
    + csimpl. apply NoDup_cons. split; [|done]. intros ([n' p'] & Hn' & Hin')%list_elem_of_fmap.
      apply Hn. apply Hiff in Hin' as [Hin' _]. apply list_elem_of_fmap. by exists (n', p').
Qed.

Lemma registry_lookup (d : dispatcher R) id : registry d !! id = receivers_of (heap d) <$> m_receivers d !! id.
Proof. unfold registry. apply lookup_fmap. Qed.

Lemma live_list d id l : dispatcher_wf d -> m_receivers d !! id = Some l ->
  forall n p, (n, p) ∈ l -> is_Some (heap d !! p).
Proof. intros Hd Hl n p Hin. by destruct (wf_live d Hd id l n p Hl Hin) as (_ & ? & _). Qed.

(** ** listen *)

(** A receiver that is not registered may leave the heap without a trace. *)
Lemma registry_heap d h nn :
  dispatcher_wf d -> (forall p, is_Some (heap d !! p) -> h !! p = heap d !! p) ->
  registry (mkDispatcher h (m_receivers d) nn) = registry d.
Proof.
  intros Hd Hh. apply map_eq. intros id. rewrite !registry_lookup. cbn.
  destruct (m_receivers d !! id) as [l|] eqn:E; [|done]. cbn. f_equal.
  apply receivers_ext. intros n p Hin. apply Hh. by eapply live_list.
Qed.

(** The empty list [listen] creates changes nothing. *)
Lemma wf_create d id :
  dispatcher_wf d -> m_receivers d !! id = None ->
  dispatcher_wf (mkDispatcher (heap d) (<[id := []]> (m_receivers d)) (next_node d)).
Proof.
  intros [W1 W2 W3 W4] Hnone. split; cbn.
  - intros id' l n p [[-> <-]|[Hne Hl]]%lookup_insert_Some; [by intros ?%elem_of_nil|eauto].
  - intros id1 l1 n1 id2 l2 n2 p [[-> <-]|[Hne1 Hl1]]%lookup_insert_Some Hin1; [by apply elem_of_nil in Hin1|].
    intros [[-> <-]|[Hne2 Hl2]]%lookup_insert_Some Hin2; [by apply elem_of_nil in Hin2|]. eauto.
  - intros id' l [[-> <-]|[Hne Hl]]%lookup_insert_Some; [constructor|eauto].
  - intros p Hp. destruct (W4 p Hp) as (id' & l & n & Hl & Hin). exists id', l, n.
    split; [|done]. rewrite lookup_insert_ne; [done|]. intros ->. congruence.
Qed.

(** Appending a node that owns a fresh receiver. *)
Lemma wf_append d id l fresh r :
  dispatcher_wf d -> default [] (m_receivers d !! id) = l -> heap d !! fresh = None -> fresh <> 0 ->
  dispatcher_wf (mkDispatcher (<[fresh := r]> (heap d)) (<[id := l ++ [(next_node d, fresh)]]> (m_receivers d))
                   (next_node d + 1)).
Proof.
  intros [W1 W2 W3 W4] Hl Hfresh Hnz.
  assert (Hold : forall n p, (n, p) ∈ l -> m_receivers d !! id = Some l).
  { intros n p Hin. destruct (m_receivers d !! id); cbn in Hl; subst; [done|by apply elem_of_nil in Hin]. }
  assert (Hfr : forall id' l' n, m_receivers d !! id' = Some l' -> (n, fresh) ∉ l').
  { intros id' l' n Hl' Hin. destruct (W1 id' l' n fresh Hl' Hin) as (_ & [x Hx] & _). congruence. }
  assert (Hcase : forall id' l' n p, <[id := l ++ [(next_node d, fresh)]]> (m_receivers d) !! id' = Some l' ->
    (n, p) ∈ l' -> (exists l0, m_receivers d !! id' = Some l0 /\ (n, p) ∈ l0) \/ (id' = id /\ n = next_node d /\ p = fresh)).
  { intros id' l' n p [[<- <-]|[Hne Hl']]%lookup_insert_Some Hin; [|left; by exists l'].
    apply elem_of_app in Hin as [Hin|Hin]; [left; exists l; eauto|].
    apply list_elem_of_singleton in Hin. right. naive_solver. }
  split; cbn.
  - intros id' l' n p Hl' Hin. destruct (Hcase _ _ _ _ Hl' Hin) as [(l0 & H0 & Hin0)|(-> & -> & ->)].
    + destruct (W1 _ _ _ _ H0 Hin0) as (Hp & Hs & Hn). split; [done|]. split; [|lia].
      rewrite lookup_insert_ne; [done|]. intros ->. by destruct (Hfr _ _ _ H0 Hin0).
    + split; [done|]. split; [rewrite lookup_insert_eq; eauto|lia].
  - intros id1 l1 n1 id2 l2 n2 p H1 Hin1 H2 Hin2.
    destruct (Hcase _ _ _ _ H1 Hin1) as [(l0 & H0 & Hin0)|(-> & -> & ->)];
      destruct (Hcase _ _ _ _ H2 Hin2) as [(l3 & H3 & Hin3)|(-> & -> & Hp)]; subst; try done; eauto.
    + by destruct (Hfr _ _ _ H0 Hin0).
    + by destruct (Hfr _ _ _ H3 Hin3).
  - intros id' l' [[<- <-]|[Hne Hl']]%lookup_insert_Some; [|eauto].
    rewrite fmap_app. apply NoDup_app. split; [|split; [|apply NoDup_singleton]].
    + destruct (m_receivers d !! id) as [l0|] eqn:E; cbn in Hl; subst; [eauto|constructor].
    + intros n ([n' p] & -> & Hin)%list_elem_of_fmap. csimpl. intros Hn%list_elem_of_singleton.
      destruct (W1 _ _ _ _ (Hold _ _ Hin) Hin) as (_ & _ & Hlt). cbn in Hn. lia.
  - intros p Hp. destruct (decide (p = fresh)) as [->|Hne].
    + exists id, (l ++ [(next_node d, fresh)]), (next_node d). rewrite lookup_insert_eq. split; [done|].
      apply elem_of_app. right. by left.
    + rewrite lookup_insert_ne in Hp by done. destruct (W4 p Hp) as (id' & l' & n & Hl' & Hin).
      destruct (decide (id' = id)) as [->|Hid].
      * exists id, (l ++ [(next_node d, fresh)]), n. rewrite lookup_insert_eq. split; [done|].
        apply elem_of_app. left. rewrite Hl' in Hl. cbn in Hl. by subst.
      * exists id', l', n. rewrite lookup_insert_ne by done. done.
Qed.

(** The list [listen] searches: created empty when the id is new. *)
Lemma listen_list (d : dispatcher R) (h : gmap Z R) id :
  dispatcher_wf d -> (forall p, is_Some (heap d !! p) -> h !! p = heap d !! p) ->
  let l := default [] (m_receivers d !! id) in
  (forall n p, (n, p) ∈ l -> is_Some (h !! p)) /\
  receivers_of h l = default [] (registry d !! id).
Proof.
  intros Hd Hh l. assert (Hlive : forall n p, (n, p) ∈ l -> is_Some (heap d !! p)).
  { subst l. destruct (m_receivers d !! id) as [l|] eqn:E; [|by intros ?? ?%elem_of_nil].
    by eapply live_list. }
  split; [intros n p Hin; rewrite Hh; eauto|].
  transitivity (receivers_of (heap d) l).
  - apply receivers_ext. eauto.
  - rewrite registry_lookup. subst l. by destruct (m_receivers d !! id).
Qed.

(** [erase_equal] frees exactly the node it removes. *)
Lemma wf_erase d id l l' (e : option Z) :
  dispatcher_wf d -> m_receivers d !! id = Some l ->
  match e with
  | None => l' = l
  | Some p => exists n, (n, p) ∈ l /\ (forall n' p', (n', p') ∈ l' <-> (n', p') ∈ l /\ p' <> p) /\ NoDup l'.*1
  end ->
  dispatcher_wf (mkDispatcher (match e with Some p => delete p (heap d) | None => heap d end)
                   (<[id := l']> (m_receivers d)) (next_node d)).
Proof.
  intros [W1 W2 W3 W4] Hl He. destruct e as [p|].
  2: { subst l'. rewrite insert_id by done. by split. }
  destruct He as (n & Hin & Hiff & Hnd).
  assert (Hcase : forall id' k m q, <[id := l']> (m_receivers d) !! id' = Some k -> (m, q) ∈ k ->
    exists k0, m_receivers d !! id' = Some k0 /\ (m, q) ∈ k0 /\ q <> p).
  { intros id' k m q [[<- <-]|[Hne Hk]]%lookup_insert_Some Hk'.
    - apply Hiff in Hk' as [??]. by exists l.
    - exists k. do 2 (split; [done|]). intros ->. by destruct (W2 _ _ _ _ _ _ _ Hk Hk' Hl Hin). }
  split; cbn.
  - intros id' k m q Hk Hmq. destruct (Hcase _ _ _ _ Hk Hmq) as (k0 & Hk0 & Hin0 & Hne).
    destruct (W1 _ _ _ _ Hk0 Hin0) as (? & ? & ?). split; [done|]. split; [|done].
    by rewrite lookup_delete_ne.
  - intros id1 l1 n1 id2 l2 n2 q H1 Hin1 H2 Hin2.
    destruct (Hcase _ _ _ _ H1 Hin1) as (? & ? & ? & _), (Hcase _ _ _ _ H2 Hin2) as (? & ? & ? & _). eauto.
  - intros id' k [[<- <-]|[Hne Hk]]%lookup_insert_Some; eauto.
  - intros q [x [Hne Hq]%lookup_delete_Some]. destruct (W4 q) as (id' & k & m & Hk & Hmq); [eauto|].
    destruct (decide (id' = id)) as [->|Hid].
    + exists id, l', m. rewrite lookup_insert_eq. split; [done|]. apply Hiff. split; [congruence|done].
    + exists id', k, m. by rewrite lookup_insert_ne.
Qed.

(** Deleting each pointer of a duplicate-free list of live pointers succeeds. *)
Lemma delete_all_ok l : forall h : gmap Z R,
  NoDup l -> Forall (fun p => p <> 0 /\ is_Some (h !! p)) l ->
  exists h', delete_all h l = Ok h' /\ forall p, h' !! p = if bool_decide (p ∈ l) then None else h !! p.
Proof.
  induction l as [|p l IH]; intros h Hnd Hl; [by exists h|].
  apply NoDup_cons in Hnd as [Hp Hnd]. apply Forall_cons in Hl as [[Hnz [x Hx]] Hl].
  cbn [delete_all]. unfold safe_delete. rewrite (proj2 (Z.eqb_neq p 0)) by done. rewrite Hx. cbn [mbind outcome_bind].
  destruct (IH (delete p h)) as (h' & -> & Hh'); [done| |].
  { rewrite Forall_forall in *. intros q Hq. destruct (Hl q Hq). split; [done|].
    rewrite lookup_delete_ne; [done|]. by intros ->. }
  exists h'. split; [done|]. intros q. rewrite Hh'. destruct (decide (q = p)) as [->|Hne].
  - rewrite (bool_decide_eq_false_2 (p ∈ l)) by done. rewrite bool_decide_eq_true_2 by (by left).
    by rewrite lookup_delete_eq.
  - rewrite lookup_delete_ne by done. by rewrite (bool_decide_ext (q ∈ l) (q ∈ p :: l)) by (rewrite elem_of_cons; naive_solver).
Qed.

(** The pointers of a well-formed dispatcher: no address twice, all live. *)
Lemma all_pointers (d : dispatcher R) :
  dispatcher_wf d ->
  let l := map_to_list (m_receivers d) ≫= fun kl : Z * list (Z * Z) => kl.2.*2 in
  NoDup l /\ (forall p, p ∈ l <-> exists id l n, m_receivers d !! id = Some l /\ (n, p) ∈ l).
Proof.
  intros Hd l. assert (Hiff : forall p, p ∈ l <-> exists id l n, m_receivers d !! id = Some l /\ (n, p) ∈ l).
  { intros p. subst l. rewrite list_elem_of_bind. split.
    - intros ([id k] & ([n q] & -> & Hin)%list_elem_of_fmap & Hk). apply elem_of_map_to_list in Hk.
      by exists id, k, n.
    - intros (id & k & n & Hk & Hin). exists (id, k). split; [|by apply elem_of_map_to_list].
      apply list_elem_of_fmap. by exists (n, p). }
  split; [|done]. subst l. apply NoDup_bind; [| |apply NoDup_map_to_list].
  - intros [id1 k1] [id2 k2] p Hk1%elem_of_map_to_list Hk2%elem_of_map_to_list
      ([n1 ?] & -> & Hin1)%list_elem_of_fmap ([n2 ?] & Hp & Hin2)%list_elem_of_fmap. cbn in *. subst.
    destruct (wf_owner d Hd _ _ _ _ _ _ _ Hk1 Hin1 Hk2 Hin2) as [-> _]. by simplify_map_eq.
  - intros [id k] Hk%elem_of_map_to_list. cbn. apply NoDup_fmap_2_strong.
    2: { apply (NoDup_fmap_1 fst). by eapply wf_nodes. }
    intros [n1 p1] [n2 p2] Hin1 Hin2 Hp. cbn in Hp. subst p2. f_equal.
    by destruct (wf_owner d Hd _ _ _ _ _ _ _ Hk Hin1 Hk Hin2).
Qed.

(** ** The operations implement the registry *)

Lemma interface_listen_spec (fresh : Z) (d : dispatcher R) (id : Z) (r : R) :
  dispatcher_wf d -> heap d !! fresh = None -> fresh <> 0 ->
  let old := default [] (registry d !! id) in
  let known := existsb (fun x => equals x r) old in
  exists d', interface_listen fresh d id r = Ok (d', negb known) /\ dispatcher_wf d' /\
    default [] (registry d' !! id) = (if known then old else old ++ [r]) /\
    (forall id', id' <> id -> registry d' !! id' = registry d !! id') /\
    heap d' = (if known then heap d else <[fresh := r]> (heap d)).
Proof.
  intros Hd Hf Hnz old known. unfold interface_listen, listen. cbn [heap m_receivers next_node].
  rewrite (proj2 (Z.eqb_neq fresh 0)) by done.
  assert (Hh : forall p, is_Some (heap d !! p) -> <[fresh := r]> (heap d) !! p = heap d !! p).
  { intros p [x Hx]. rewrite lookup_insert_ne; [done|]. by intros ->; congruence. }
  destruct (listen_list d (<[fresh := r]> (heap d)) id Hd Hh) as [Hlive Hrec].
  set (m := match m_receivers d !! id with None => _ | Some _ => _ end).
  assert (Hm : default [] (m !! id) = default [] (m_receivers d !! id)).
  { subst m. destruct (m_receivers d !! id) eqn:E; [by rewrite E|]. by rewrite lookup_insert_eq. }
  rewrite Hm. unfold deref at 1. rewrite lookup_insert_eq. cbn [mbind outcome_bind].
  rewrite (exists_equal_spec _ _ _ Hlive), Hrec. cbn [mbind outcome_bind]. fold old known.
  set (l := default [] (m_receivers d !! id)) in *.
  assert (Hwm : dispatcher_wf (mkDispatcher (heap d) m (next_node d))).
  { subst m. destruct (m_receivers d !! id) eqn:E; [by destruct d|]. by apply wf_create. }
  destruct known eqn:Ek; cbn [mbind outcome_bind negb heap m_receivers next_node].
  - unfold safe_delete. rewrite (proj2 (Z.eqb_neq fresh 0)) by done. rewrite lookup_insert_eq.
    cbn [mbind outcome_bind]. rewrite delete_insert_id by done. eexists. split; [done|].
    split; [done|]. split.
    + rewrite registry_lookup. cbn. subst m. unfold old. rewrite registry_lookup.
      destruct (m_receivers d !! id) eqn:E; [by rewrite E|]. by rewrite lookup_insert_eq.
    + split; [|done]. intros id' Hne. rewrite !registry_lookup. cbn. subst m.
      destruct (m_receivers d !! id); [done|]. by rewrite lookup_insert_ne.
  - eexists. split; [done|]. replace (<[id := l ++ [(next_node d, fresh)]]> m)
      with (<[id := l ++ [(next_node d, fresh)]]> (m_receivers d)).
    2: { subst m. destruct (m_receivers d !! id); [done|]. by rewrite insert_insert_eq. }
    split; [by apply wf_append|]. split.
    + rewrite registry_lookup. cbn. rewrite lookup_insert_eq. cbn.
      unfold receivers_of. rewrite omap_app. fold (receivers_of (<[fresh := r]> (heap d)) l).
      rewrite Hrec. csimpl. by rewrite lookup_insert_eq.
    + split; [|done]. intros id' Hne. rewrite !registry_lookup. cbn. rewrite lookup_insert_ne by done.
      destruct (m_receivers d !! id') as [k|] eqn:E; [|done]. cbn. f_equal.
      apply receivers_ext. intros n p Hin. apply Hh. by eapply live_list.
Qed.

(** C15: listening is a set insertion on the registry of an id, in order, and it
    neither leaks nor dangles: on a well-formed dispatcher,
    [interface_listen fresh id r] returns [false] and changes nothing when an
    equal receiver is registered, and otherwise appends [r] to the list of [id];
    no other id changes, and the result is well-formed again. *)
Theorem interface_listen_refines (fresh : Z) (d : dispatcher R) (id : Z) (r : R) :
  dispatcher_wf d -> heap d !! fresh = None -> fresh <> 0 ->
  let old := default [] (registry d !! id) in
  let known := existsb (fun x => equals x r) old in
  exists d', interface_listen fresh d id r = Ok (d', negb known) /\ dispatcher_wf d' /\
    default [] (registry d' !! id) = (if known then old else old ++ [r]) /\
    (forall id', id' <> id -> registry d' !! id' = registry d !! id') /\
    heap d' = (if known then heap d else <[fresh := r]> (heap d)).
Proof. apply interface_listen_spec. Qed.

Lemma interface_unlisten_spec (d : dispatcher R) (id : Z) (r : R) :
  dispatcher_wf d ->
  exists d', interface_unlisten d id r = Ok d' /\ dispatcher_wf d' /\
    registry d' = alter (remove_equal r) id (registry d).
Proof.
  intros Hd. unfold interface_unlisten, unlisten.
  destruct (m_receivers d !! id) as [l|] eqn:E.
  2: { eexists. split; [done|]. split; [done|]. apply map_eq. intros id'.
       destruct (decide (id' = id)) as [->|Hne]; [|by rewrite lookup_alter_ne].
       by rewrite lookup_alter_eq, registry_lookup, E. }
  pose proof (live_list d id l Hd E) as Hlive.
  destruct (erase_equal_spec (heap d) l r Hlive) as (l' & e & -> & Hrec & He).
  { by eapply wf_nodes. }
  { intros n1 n2 p H1 H2. by destruct (wf_owner d Hd _ _ _ _ _ _ _ E H1 E H2). }
  cbn [mbind outcome_bind].
  assert (Hdel : exists h, match e with Some p => safe_delete (heap d) p | None => Ok (heap d) end = Ok h /\
    h = match e with Some p => delete p (heap d) | None => heap d end).
  { destruct e as [p|]; [|by eexists]. destruct He as (n & x & Hin & Hx & _).
    unfold safe_delete. destruct (wf_live d Hd _ _ _ _ E Hin) as (Hnz & _).
    rewrite (proj2 (Z.eqb_neq p 0)) by done. rewrite Hx. by eexists. }
  destruct Hdel as (h & -> & Hh). cbn [mbind outcome_bind]. eexists. split; [done|]. subst h.
  split; [apply (wf_erase d id l l' e Hd E); destruct e; naive_solver|].
  apply map_eq. intros id'. rewrite registry_lookup. cbn.
  assert (Hkeep : forall k, (forall n p, e = Some p -> (n, p) ∉ k) ->
    receivers_of (match e with Some p => delete p (heap d) | None => heap d end) k = receivers_of (heap d) k).
  { intros k Hk. apply receivers_ext. intros n p Hin. destruct e as [q|]; [|done].
    rewrite lookup_delete_ne; [done|]. intros ->. by apply (Hk n p). }
  destruct (decide (id' = id)) as [->|Hne].
  - rewrite lookup_insert_eq, lookup_alter_eq, registry_lookup, E. cbn. f_equal. rewrite Hkeep; [done|].
    intros n p ->. destruct He as (? & ? & _ & _ & _ & Hiff & _). rewrite Hiff. by intros [_ ?].
  - rewrite lookup_insert_ne, lookup_alter_ne, registry_lookup by done.
    destruct (m_receivers d !! id') as [k|] eqn:Ek; [|done]. cbn. f_equal. apply Hkeep.
    intros n p -> Hin. destruct He as (n0 & ? & Hin0 & _).
    by destruct (wf_owner d Hd _ _ _ _ _ _ _ Ek Hin E Hin0).
Qed.

(** C16: unlistening removes the first equal receiver of the id's list and frees
    exactly that object: [interface_unlisten] never crashes on a well-formed
    dispatcher, its effect on the registry is [remove_equal r] at [id], and the
    result is well-formed. *)
Theorem interface_unlisten_refines (d : dispatcher R) (id : Z) (r : R) :
  dispatcher_wf d ->
  exists d', interface_unlisten d id r = Ok d' /\ dispatcher_wf d' /\
    registry d' = alter (remove_equal r) id (registry d).
Proof. apply interface_unlisten_spec. Qed.

(** [clear] frees every receiver exactly once: on a well-formed dispatcher it
    returns, no receiver object is left, and no list. *)
Theorem clear_frees (d : dispatcher R) :
  dispatcher_wf d ->
  exists d', clear d = Ok d' /\ heap d' = ∅ /\ m_receivers d' = ∅ /\ dispatcher_wf d'.
Proof.
  intros Hd. destruct (all_pointers d Hd) as [Hnd Hiff]. unfold clear.
  destruct (delete_all_ok _ (heap d) Hnd) as (h & -> & Hh).
  { rewrite Forall_forall. intros p (id & l & n & Hl & Hin)%Hiff.
    by destruct (wf_live d Hd _ _ _ _ Hl Hin) as (? & ? & _). }
  cbn [mbind outcome_bind]. eexists. split; [done|]. cbn.
  assert (h = ∅) as ->.
  { apply map_eq. intros p. rewrite Hh, lookup_empty. case_bool_decide as Hp; [done|].
    destruct (heap d !! p) eqn:E; [|done]. destruct Hp. apply Hiff. eapply wf_owned; eauto. }
  repeat split; try set_solver; cbn.
  all: try (intros * H; by rewrite lookup_empty in H). intros p [x Hx]. by rewrite lookup_empty in Hx.
Qed.

Lemma after_node_app n p pre post :
  n ∉ pre.*1 -> after_node n (pre ++ (n, p) :: post) = Some post.
Proof.
  induction pre as [|[m q] pre IH]; cbn; intros Hn; [by rewrite Z.eqb_refl|].
  apply not_elem_of_cons in Hn as [Hne Hn]. rewrite (proj2 (Z.eqb_neq m n)) by done. auto.
Qed.

Lemma after_node_None n l : n ∉ l.*1 -> after_node n l = None.
Proof.
  induction l as [|[m q] l IH]; cbn; intros Hn; [done|].
  apply not_elem_of_cons in Hn as [Hne Hn]. rewrite (proj2 (Z.eqb_neq m n)) by done. auto.
Qed.

Section dispatch_proofs.
Context {S : Type} (call : R -> Z -> dispatcher R * S -> outcome (dispatcher R * S)).

(** One call on the application's state. *)
Definition invoke_on (f : R -> S -> S) (id : Z) (s : S) (r : R) : S := if accepts r id then f r s else s.

Lemma dispatch_loop_calls (f : R -> S -> S) d id pre n p post s :
  dispatcher_wf d -> (forall r s, call r id (d, s) = Ok (d, f r s)) ->
  m_receivers d !! id = Some (pre ++ (n, p) :: post) ->
  dispatch_loop call (Datatypes.S (length post)) id n p (d, s)
    = Ok (d, foldl (invoke_on f id) s (receivers_of (heap d) ((n, p) :: post))).
Proof.
  intros Hd Hcall. revert pre n p s. induction post as [|[n' p'] post IH]; intros pre n p s Hl.
  all: pose proof (wf_nodes d Hd id _ Hl) as Hnd; rewrite fmap_app in Hnd; csimpl in Hnd;
    apply NoDup_app in Hnd as (_ & Hn & _);
    assert (Hnpre : n ∉ pre.*1) by (intros ?; eapply Hn; [done|by left]);
    destruct (live_list d id _ Hd Hl n p) as [r Hr]; [apply elem_of_app; right; by left|];
    cbn [dispatch_loop fst]; unfold deref; rewrite Hr; cbn [mbind outcome_bind];
    rewrite (receivers_cons _ _ _ _ _ Hr); cbn [foldl];
    unfold invoke_on at 2; destruct (accepts r id); rewrite ?Hcall; cbn [mbind outcome_bind fst];
    rewrite Hl, (after_node_app n p pre _ Hnpre).
  1,2: done.
  all: cbn [length]; apply (IH (pre ++ [(n, p)])); by rewrite <- app_assoc.
Qed.

Lemma dispatch_spec (f : R -> S -> S) (d : dispatcher R) (id : Z) (s : S) :
  dispatcher_wf d -> (forall r s, call r id (d, s) = Ok (d, f r s)) ->
  dispatch call (length (default [] (m_receivers d !! id))) id (d, s)
    = Ok (d, foldl (invoke_on f id) s (default [] (registry d !! id))).
Proof.
  intros Hd Hcall. rewrite registry_lookup. unfold dispatch. cbn [fst].
  destruct (m_receivers d !! id) as [[|[n p] l]|] eqn:E; [done| |done].
  by apply (dispatch_loop_calls f d id []).
Qed.

(** C17: dispatching delivers a message to exactly the receivers registered for
    its id, once each, in the order of registration: when the callbacks leave the
    dispatcher alone, [dispatch] terminates (the list's length is enough fuel)
    and folds them over the application's state. *)
Theorem dispatch_delivers (f : R -> S -> S) (d : dispatcher R) (id : Z) (s : S) :
  dispatcher_wf d -> (forall r s, call r id (d, s) = Ok (d, f r s)) ->
  dispatch call (length (default [] (m_receivers d !! id))) id (d, s)
    = Ok (d, foldl (invoke_on f id) s (default [] (registry d !! id))).
Proof. apply dispatch_spec. Qed.
End dispatch_proofs.
End proofs.

(** A receiver may not unlisten itself from its own callback: when the first
    receiver registered for [id] does, [dispatch] increments an iterator to the
    list node [unlisten] has just erased, whatever the rest of the registry is. *)
Theorem dispatch_self_unlisten {R S : Type} `{ireceiver_laws R} (d : dispatcher R) (id n p : Z)
    (l : list (Z * Z)) (r : R) (s : S) (fuel : nat) :
  dispatcher_wf d -> m_receivers d !! id = Some ((n, p) :: l) -> heap d !! p = Some r ->
  accepts r id = true -> (0 < fuel)%nat ->
  dispatch (fun r id '(d, s) => d' ← interface_unlisten d id r; Ok (d', s)) fuel id (d, s)
    = Crash UseAfterFree.
Proof.
  intros Hd Hl Hr Ha Hf. unfold dispatch. cbn [fst]. rewrite Hl. destruct fuel as [|fuel]; [lia|].
  cbn [dispatch_loop fst]. unfold deref. rewrite Hr. cbn [mbind outcome_bind]. rewrite Ha.
  unfold interface_unlisten, unlisten. rewrite Hl. cbn [erase_equal]. unfold deref. rewrite Hr.
  cbn [mbind outcome_bind]. rewrite equals_refl. cbn [mbind outcome_bind]. unfold safe_delete.
  destruct (wf_live d Hd id _ n p Hl) as (Hnz & _); [by left|].
  rewrite (proj2 (Z.eqb_neq p 0)) by done. rewrite Hr. cbn [mbind outcome_bind fst m_receivers].
  rewrite lookup_insert_eq. pose proof (wf_nodes d Hd id _ Hl) as Hnd. csimpl in Hnd.
  apply NoDup_cons in Hnd as [Hn _]. by rewrite after_node_None.
Qed.

(** ** Witnesses *)

Definition ev1 : event_receiver := mkEvent 1 100 7 5.
Definition ev2 : event_receiver := mkEvent 1 200 7 5.
Definition one_receiver : dispatcher event_receiver := mkDispatcher {[ 16 := ev1 ]} {[ 7 := [(0, 16)] ]} 1.

Lemma empty_wf : dispatcher_wf (dispatcher_new : dispatcher event_receiver).
Proof.
  split; cbn; [intros * H; by rewrite lookup_empty in H..|]. intros p [x Hx]. by rewrite lookup_empty in Hx.
Qed.

Lemma one_receiver_wf : dispatcher_wf one_receiver.
Proof.
  apply (wf_append dispatcher_new 7 [] 16 ev1); [apply empty_wf|done..].
Qed.

Lemma interface_listen_refines_witness :
  exists d', interface_listen 32 one_receiver 7 ev2 = Ok (d', true) /\ dispatcher_wf d' /\
    default [] (registry d' !! 7) = [ev1; ev2] /\
    (forall id', id' <> 7 -> registry d' !! id' = registry one_receiver !! id') /\
    heap d' = <[32 := ev2]> (heap one_receiver).
Proof.
  assert (E : default [] (registry one_receiver !! 7) = [ev1]) by (vm_compute; reflexivity).
  pose proof (interface_listen_refines 32 one_receiver 7 ev2 one_receiver_wf) as H.
  rewrite E in H. apply H; [by vm_compute|done].
Defined.

Lemma interface_unlisten_refines_witness :
  exists d', interface_unlisten one_receiver 7 ev1 = Ok d' /\ dispatcher_wf d' /\
    registry d' = alter (remove_equal ev1) 7 (registry one_receiver).
Proof. apply (interface_unlisten_refines one_receiver 7 ev1 one_receiver_wf). Defined.

Lemma clear_frees_witness :
  exists d', clear one_receiver = Ok d' /\ heap d' = ∅ /\ m_receivers d' = ∅ /\ dispatcher_wf d'.
Proof. apply (clear_frees one_receiver one_receiver_wf). Defined.

Lemma dispatch_delivers_witness :
  dispatch (fun r _ '(d, s) => Ok (d, s ++ [er_object r])) 1 7 (one_receiver, [])
    = Ok (one_receiver, [100]).
Proof.
  assert (E : default [] (registry one_receiver !! 7) = [ev1]) by (vm_compute; reflexivity).
  assert (E' : default [] (m_receivers one_receiver !! 7) = [(0, 16)]) by (vm_compute; reflexivity).
  pose proof (dispatch_delivers (fun r _ '(d, s) => Ok (d, s ++ [er_object r])) (fun r s => s ++ [er_object r])
    one_receiver 7 [] one_receiver_wf) as H.
  rewrite E, E' in H. by apply H.
Defined.

Lemma dispatch_self_unlisten_witness :
  dispatch (fun r id '(d, s) => d' ← interface_unlisten d id r; Ok (d', s)) 1 7 (one_receiver, tt)
    = Crash UseAfterFree.
Proof. apply (dispatch_self_unlisten one_receiver 7 0 16 [] ev1 tt 1 one_receiver_wf); by vm_compute || lia. Defined.
