(* ===== verification/Inet.v ===== *)
(** * inet_pton and inet_ntop

    The address conversions of the bundled libuv ([inet.c]) and the two functions
    of [uv-common.c] GEngine calls, [uv_ip4_addr] and [uv_ip6_addr].  A C string is
    the list of its bytes before the terminating NUL; the destination arrays keep
    their bounds, so an access outside of one would be a crash. *)

From S2P Require Import Prelude.

(** The values of the constants on Windows, the platform of GEngine's network code. *)
Definition UV_EINVAL : Z := -4071.
Definition UV_ENOSPC : Z := -4055.
Definition UV_EAFNOSUPPORT : Z := -4089.
Definition AF_INET : Z := 2.
Definition AF_INET6 : Z := 23.
Definition UV__INET_ADDRSTRLEN : Z := 16.
Definition UV__INET6_ADDRSTRLEN : Z := 46.

(** [strchr(s, c)] for a [c] that is not NUL, as an index. *)
Fixpoint strchr (s : list Z) (c : Z) : option nat :=
  match s with
  | [] => None
  | x :: s => if x =? c then Some O else S <$> strchr s c
  end.

Definition DOT : Z := 46.
Definition COLON : Z := 58.
Definition PERCENT : Z := 37.
Definition digits : list Z := [48; 49; 50; 51; 52; 53; 54; 55; 56; 57].
Definition xdigits_l : list Z := digits ++ [97; 98; 99; 100; 101; 102].
Definition xdigits_u : list Z := digits ++ [65; 66; 67; 68; 69; 70].

(** Array accesses. *)
Definition array_get (a : list Z) (i : nat) : outcome Z :=
  match a !! i with Some x => Ok x | None => Crash OutOfBounds end.
Definition array_set (a : list Z) (i : nat) (x : Z) : outcome (list Z) :=
  if (i <? length a)%nat then Ok (<[i := x]> a) else Crash OutOfBounds.

(** ** Parsing *)

(** The loop of [inet_pton4]; [tp] is an index into [tmp]. *)
Fixpoint pton4_loop (src : list Z) (saw_digit : bool) (octets : Z) (tp : nat) (tmp : list Z)
  : outcome (option (Z * list Z)) :=
  match src with
  | [] => Ok (Some (octets, tmp))
  | ch :: src =>
      match strchr digits ch with
      | Some d =>
          x ← array_get tmp tp;
          let nw := u32 (x * 10 + Z.of_nat d) in
          if saw_digit && (x =? 0) then Ok None
          else if nw >? 255 then Ok None
          else
            tmp ← array_set tmp tp (u8 nw);
            if negb saw_digit then
              if octets + 1 >? 4 then Ok None
              else pton4_loop src true (octets + 1) tp tmp
            else pton4_loop src saw_digit octets tp tmp
      | None =>
          if (ch =? DOT) && saw_digit then
            if octets =? 4 then Ok None
            else
              tmp ← array_set tmp (S tp) 0;
              pton4_loop src false octets (S tp) tmp
          else Ok None
      end
  end.

(** [inet_pton4(src, dst)]: the code and the four bytes copied to [dst]; [junk]
    stands for what the array [tmp] holds before it is written. *)
Definition inet_pton4 (junk : Z) (src : list Z) : outcome (Z * list Z) :=
  tmp ← array_set (replicate 4 junk) 0 0;
  r ← pton4_loop src false 0 0 tmp;
  match r with
  | None => Ok (UV_EINVAL, [])
  | Some (octets, tmp) => if octets <? 4 then Ok (UV_EINVAL, []) else Ok (0, tmp)
  end.

(** The state of [inet_pton6]: [tp] and [colonp] are indices into [tmp]. *)
Record pton6_state := mkP6 {
  p6_tmp : list Z; p6_tp : nat; p6_colonp : option nat; p6_curtok : list Z; p6_seen : Z; p6_val : Z }.
#[export] Instance eta_pton6 : Eta pton6_state := fun s =>
  mkP6 (p6_tmp s) (p6_tp s) (p6_colonp s) (p6_curtok s) (p6_seen s) (p6_val s).

(** [*tp++ = val >> 8; *tp++ = val] *)
Definition p6_store (st : pton6_state) : outcome pton6_state :=
  tmp ← array_set (p6_tmp st) (p6_tp st) (Z.land (Z.shiftr (p6_val st) 8) 255);
  tmp ← array_set tmp (S (p6_tp st)) (Z.land (p6_val st) 255);
  Ok (mkP6 tmp (S (S (p6_tp st))) (p6_colonp st) (p6_curtok st) 0 0).

Definition xdigit (ch : Z) : option nat :=
  match strchr xdigits_l ch with Some d => Some d | None => strchr xdigits_u ch end.

(** [memcpy(dst + off, bytes)]. *)
Fixpoint array_copy (a : list Z) (off : nat) (bytes : list Z) : outcome (list Z) :=
  match bytes with
  | [] => Ok a
  | b :: bytes => a ← array_set a off b; array_copy a (S off) bytes
  end.

Fixpoint pton6_loop (junk : Z) (src : list Z) (st : pton6_state) : outcome (option pton6_state) :=
  match src with
  | [] => Ok (Some st)
  | ch :: src =>
      match xdigit ch with
      | Some d =>
          let val := Z.lor (u32 (Z.shiftl (p6_val st) 4)) (Z.of_nat d) in
          if p6_seen st + 1 >? 4 then Ok None
          else pton6_loop junk src (st <| p6_val := val |> <| p6_seen := p6_seen st + 1 |>)
      | None =>
          if ch =? COLON then
            let st := st <| p6_curtok := src |> in
            if p6_seen st =? 0 then
              match p6_colonp st with
              | Some _ => Ok None
              | None => pton6_loop junk src (st <| p6_colonp := Some (p6_tp st) |>)
              end
            else match src with
            | [] => Ok None
            | _ =>
                if (16 <? p6_tp st + 2)%nat then Ok None
                else st ← p6_store st; pton6_loop junk src st
            end
          else if (ch =? DOT) && (p6_tp st + 4 <=? 16)%nat then
            '(err, b) ← inet_pton4 junk (p6_curtok st);
            if err =? 0 then
              tmp ← array_copy (p6_tmp st) (p6_tp st) b;
              Ok (Some (st <| p6_tmp := tmp |> <| p6_tp := (p6_tp st + 4)%nat |> <| p6_seen := 0 |>))
            else Ok None
          else Ok None
      end
  end.

(** [for (i = 1; i <= n; i++) { endp[-i] = colonp[n-i]; colonp[n-i] = 0; }] *)
Fixpoint p6_shift (todo i n colonp : nat) (tmp : list Z) : outcome (list Z) :=
  match todo with
  | O => Ok tmp
  | S todo =>
      x ← array_get tmp (colonp + (n - i));
      tmp ← array_set tmp (16 - i) x;
      tmp ← array_set tmp (colonp + (n - i)) 0;
      p6_shift todo (S i) n colonp tmp
  end.

Definition inet_pton6 (junk : Z) (src : list Z) : outcome (Z * list Z) :=
  (* a leading "::" *)
  match (match src with
         | c :: src' =>
             if c =? COLON then
               match src' with c' :: _ => if c' =? COLON then Some src' else None | [] => None end
             else Some src
         | [] => Some src
         end) with
  | None => Ok (UV_EINVAL, [])
  | Some src =>
      r ← pton6_loop junk src (mkP6 (replicate 16 0) 0 None src 0 0);
      match r with
      | None => Ok (UV_EINVAL, [])
      | Some st =>
          r ← (if negb (p6_seen st =? 0) then
                 if (16 <? p6_tp st + 2)%nat then Ok None
                 else st ← p6_store st; Ok (Some st)
               else Ok (Some st));
          match r with
          | None => Ok (UV_EINVAL, [])
          | Some st =>
              match p6_colonp st with
              | Some colonp =>
                  let n := (p6_tp st - colonp)%nat in
                  if (p6_tp st =? 16)%nat then Ok (UV_EINVAL, [])
                  else tmp ← p6_shift n 1 n colonp (p6_tmp st); Ok (0, tmp)
              | None => if negb (p6_tp st =? 16)%nat then Ok (UV_EINVAL, []) else Ok (0, p6_tmp st)
              end
          end
      end
  end.

(** [uv_inet_pton(af, src, dst)] for a [dst] that is not null; [None] is a null
    [src].  The scope of an IPv6 address (from ['%']) is cut off. *)
Definition uv_inet_pton (junk af : Z) (src : option (list Z)) : outcome (Z * list Z) :=
  match src with
  | None => Ok (UV_EINVAL, [])
  | Some src =>
      if af =? AF_INET then inet_pton4 junk src
      else if af =? AF_INET6 then
        match strchr src PERCENT with
        | Some len =>
            if Z.of_nat len >? UV__INET6_ADDRSTRLEN - 1 then Ok (UV_EINVAL, [])
            else inet_pton6 junk (take len src)
        | None => inet_pton6 junk src
        end
      else Ok (UV_EAFNOSUPPORT, [])
  end.

(** [htons] on a little-endian machine. *)
Definition htons (port : Z) : Z := Z.lor (Z.shiftl (u8 port) 8) (u8 (Z.shiftr port 8)).

Record sockaddr_in := mkSin { sin_family : Z; sin_port : Z; sin_addr : list Z }.
Record sockaddr_in6 := mkSin6 { sin6_family : Z; sin6_port : Z; sin6_addr : list Z; sin6_scope_id : Z }.

(** [uv_ip4_addr(ip, port, addr)] *)
Definition uv_ip4_addr (junk : Z) (ip : list Z) (port : Z) : outcome (Z * sockaddr_in) :=
  '(r, a) ← uv_inet_pton junk AF_INET (Some ip);
  Ok (r, mkSin AF_INET (htons port) (if r =? 0 then a else replicate 4 0)).

(** [uv_ip6_addr(ip, port, addr)]; [if_nametoindex] is the operating system's. *)
Definition uv_ip6_addr (junk : Z) (if_nametoindex : list Z -> Z) (ip : list Z) (port : Z)
  : outcome (Z * sockaddr_in6) :=
  let '(ip, scope) :=
    match strchr ip PERCENT with
    | Some n => (take (Nat.min n 39) ip, if_nametoindex (drop (S n) ip))
    | None => (ip, 0)
    end in
  '(r, a) ← uv_inet_pton junk AF_INET6 (Some ip);
  Ok (r, mkSin6 AF_INET6 (htons port) (if r =? 0 then a else replicate 16 0) scope).

(** ** Printing *)

(** The digits [sprintf] writes for an unsigned number in base [b] ([%u], [%x]). *)
Fixpoint fmt_digits (fuel : nat) (b n : Z) (acc : list Z) : list Z :=
  match fuel with
  | O => acc
  | S fuel =>
      let acc := nth (Z.to_nat (n `mod` b)) xdigits_l 0 :: acc in
      if n `div` b =? 0 then acc else fmt_digits fuel b (n `div` b) acc
  end.
Definition fmt_u (n : Z) : list Z := fmt_digits 10 10 n [].
Definition fmt_x (n : Z) : list Z := fmt_digits 8 16 n [].

(** [inet_ntop4(src, dst, size)]: the code and the string written to [dst]. *)
Definition inet_ntop4 (src : list Z) (size : Z) : outcome (Z * list Z) :=
  a ← array_get src 0; b ← array_get src 1; c ← array_get src 2; d ← array_get src 3;
  let tmp := fmt_u a ++ [DOT] ++ fmt_u b ++ [DOT] ++ fmt_u c ++ [DOT] ++ fmt_u d in
  if zlen tmp >=? size then Ok (UV_ENOSPC, []) else Ok (0, tmp).

(** The words of an address. *)
Definition words_of (src : list Z) : outcome (list Z) :=
  let fix go (todo i : nat) (words : list Z) : outcome (list Z) :=
    match todo with
    | O => Ok words
    | S todo =>
        w ← array_get words (i / 2);
        b ← array_get src i;
        words ← array_set words (i / 2) (Z.lor w (u32 (Z.shiftl b ((1 - Z.of_nat (i mod 2)) * 8))));
        go todo (S i) words
    end in
  go 16%nat 0%nat (replicate 8 0).

(** The search for the longest run of zero words: [best] and [cur] are pairs
    (base, length), [base] -1 for none. *)
Definition better (best cur : Z * Z) : Z * Z :=
  if (best.1 =? -1) || (cur.2 >? best.2) then cur else best.
Fixpoint best_run (i : Z) (words : list Z) (best cur : Z * Z) : Z * Z :=
  match words with
  | [] => if negb (cur.1 =? -1) then better best cur else best
  | w :: words =>
      if w =? 0 then best_run (i + 1) words best (if cur.1 =? -1 then (i, 1) else (cur.1, cur.2 + 1))
      else if negb (cur.1 =? -1) then best_run (i + 1) words (better best cur) (-1, cur.2)
      else best_run (i + 1) words best cur
  end.
Definition best_zeros (words : list Z) : Z * Z :=
  let best := best_run 0 words (-1, 0) (-1, 0) in
  if negb (best.1 =? -1) && (best.2 <? 2) then (-1, best.2) else best.

(** The formatting loop; [all] are all the words, [src] the address. *)
Fixpoint format6 (src all : list Z) (best : Z * Z) (i : Z) (words : list Z) (out : list Z)
  : outcome (Z * list Z) :=
  match words with
  | [] => Ok (0, out)
  | w :: words =>
      if negb (best.1 =? -1) && (i >=? best.1) && (i <? best.1 + best.2) then
        format6 src all best (i + 1) words (if i =? best.1 then out ++ [COLON] else out)
      else
        let out := if negb (i =? 0) then out ++ [COLON] else out in
        if (i =? 6) && (best.1 =? 0) &&
           ((best.2 =? 6) || ((best.2 =? 7) && negb (nth 7 all 0 =? 1)) ||
            ((best.2 =? 5) && (nth 5 all 0 =? 65535))) then
          '(err, s) ← inet_ntop4 (drop 12 src) (UV__INET6_ADDRSTRLEN - zlen out);
          if negb (err =? 0) then Ok (err, []) else Ok (0, out ++ s)
        else format6 src all best (i + 1) words (out ++ fmt_x w)
  end.

(** [inet_ntop6(src, dst, size)]; [tmp] has 46 bytes. *)
Definition inet_ntop6 (src : list Z) (size : Z) : outcome (Z * list Z) :=
  words ← words_of src;
  let best := best_zeros words in
  '(err, out) ← format6 src words best 0 words [];
  if negb (err =? 0) then Ok (err, []) else
  let out := if negb (best.1 =? -1) && (best.1 + best.2 =? 8) then out ++ [COLON] else out in
  if zlen out + 1 >? UV__INET6_ADDRSTRLEN then Crash OutOfBounds else
  if zlen out + 1 >? size then Ok (UV_ENOSPC, []) else Ok (0, out).

Definition uv_inet_ntop (af : Z) (src : list Z) (size : Z) : outcome (Z * list Z) :=
  if af =? AF_INET then inet_ntop4 src size
  else if af =? AF_INET6 then inet_ntop6 src size
  else Ok (UV_EAFNOSUPPORT, []).

Example ntop6_1 : inet_ntop6 [32;1;13;184;0;0;0;0;0;0;0;0;0;0;0;1] 46 = Ok (0, [50;48;48;49;58;100;98;56;58;58;49]).
Proof. reflexivity. Qed.
Example pton6_1 : inet_pton6 7 [50;48;48;49;58;100;98;56;58;58;49] = Ok (0, [32;1;13;184;0;0;0;0;0;0;0;0;0;0;0;1]).
Proof. reflexivity. Qed.
Example ntop6_2 : inet_ntop6 [0;0;0;0;0;0;0;0;0;0;255;255;1;2;3;4] 46 = Ok (0, [58;58;102;102;102;102;58;49;46;50;46;51;46;52]).
Proof. reflexivity. Qed.

(** ** Parsing is memory safe *)

Lemma strchr_lookup s c d : strchr s c = Some d -> s !! d = Some c.
Proof.
  revert d. induction s as [|x s IH]; intros d; [done|]. cbn.
  destruct (Z.eqb_spec x c); [by intros [= <-]; subst|]. intros (k & Hk & ->)%fmap_Some. by apply IH.
Qed.

Lemma strchr_lt s c d : strchr s c = Some d -> (d < length s)%nat.
Proof. intros H%strchr_lookup. by apply lookup_lt_Some in H. Qed.

Lemma array_get_ok a i : (i < length a)%nat -> exists x, array_get a i = Ok x /\ a !! i = Some x.
Proof. intros Hi. destruct (lookup_lt_is_Some_2 a i Hi) as [x Hx]. exists x. unfold array_get. by rewrite Hx. Qed.

Lemma array_set_ok a i x : (i < length a)%nat -> array_set a i x = Ok (<[i := x]> a).
Proof. intros Hi. unfold array_set. by rewrite (proj2 (Nat.ltb_lt _ _) Hi). Qed.

(** What the loop of [inet_pton4] keeps: [tp] is the octet being read. *)
Record pton4_inv (saw : bool) (octets : Z) (tp : nat) (tmp : list Z) : Prop := {
  p4_len : length tmp = 4%nat;
  p4_tp : (tp < 4)%nat;
  p4_octets : octets = Z.of_nat tp + (if saw then 1 else 0);
  p4_bytes : is_bytes (take (S tp) tmp) }.

Lemma insert_bytes tmp tp x :
  (tp < length tmp)%nat -> is_bytes (take tp tmp) -> is_byte x -> is_bytes (take (S tp) (<[tp := x]> tmp)).
Proof.
  intros Hlt Hb Hx. rewrite (take_S_r _ _ x) by (by rewrite list_lookup_insert_eq).
  rewrite take_insert_ge by lia. apply Forall_app. split; [done|by apply Forall_singleton].
Qed.

Lemma take_bytes_S tmp tp : is_bytes (take (S tp) tmp) -> is_bytes (take tp tmp).
Proof. intros H. replace (take tp tmp) with (take tp (take (S tp) tmp)); [by apply Forall_take|]. rewrite take_take. f_equal. lia. Qed.

Lemma pton4_loop_safe src : forall saw octets tp tmp, pton4_inv saw octets tp tmp ->
  pton4_loop src saw octets tp tmp = Ok None \/
  exists o t, pton4_loop src saw octets tp tmp = Ok (Some (o, t)) /\ length t = 4%nat /\ (4 <= o -> is_bytes t) /\
    Forall (fun c => strchr digits c <> None \/ c = DOT) src.
Proof.
  induction src as [|ch src IH]; intros saw octets tp tmp [I1 I2 I3 I4]; cbn [pton4_loop].
  { right. exists octets, tmp. do 2 (split; [done|]). split; [|constructor]. intros Ho.
    assert (tp = 3%nat) as -> by (destruct saw; lia). by rewrite take_ge in I4 by lia. }
  assert (Hcons : forall P saw o tp' t, P -> pton4_inv saw o tp' t ->
    (P -> strchr digits ch <> None \/ ch = DOT) ->
    pton4_loop src saw o tp' t = Ok None \/
    exists o' t', pton4_loop src saw o tp' t = Ok (Some (o', t')) /\ length t' = 4%nat /\ (4 <= o' -> is_bytes t') /\
      Forall (fun c => strchr digits c <> None \/ c = DOT) (ch :: src)).
  { intros P saw' o tp' t HP Hinv Hch. destruct (IH saw' o tp' t Hinv) as [->|(o' & t' & -> & ? & ? & ?)]; [by left|].
    right. exists o', t'. do 3 (split; [done|]). constructor; auto. }
  destruct (strchr digits ch) as [d|] eqn:Ed.
  - destruct (array_get_ok tmp tp) as (x & -> & Hx); [lia|]. cbn [mbind outcome_bind].
    destruct (saw && (x =? 0)); [by left|]. destruct (Z.gtb_spec (u32 (x * 10 + Z.of_nat d)) 255) as [|Hnw]; [by left|].
    rewrite array_set_ok by lia. cbn [mbind outcome_bind].
    assert (Hinv : pton4_inv true (Z.of_nat tp + 1) tp (<[tp := u8 (u32 (x * 10 + Z.of_nat d))]> tmp)).
    { split; [by rewrite length_insert|done|done|]. apply insert_bytes; [lia|by apply take_bytes_S|apply u8_range]. }
    destruct saw; cbn [negb].
    + subst octets. apply (Hcons True); [done|done|]. intros _. left. congruence.
    + destruct (Z.gtb_spec (octets + 1) 4); [by left|]. subst octets. rewrite Z.add_0_r.
      apply (Hcons True); [done|done|]. intros _. left. congruence.
  - destruct ((ch =? DOT) && saw) eqn:Edot; [|by left]. apply andb_true_iff in Edot as [Ech%Z.eqb_eq ->].
    destruct (Z.eqb_spec octets 4); [by left|]. rewrite array_set_ok by lia. cbn [mbind outcome_bind].
    apply (Hcons True); [done| |by right]. split; [by rewrite length_insert|lia|lia|].
    apply insert_bytes; [lia|done|unfold is_byte; lia].
Qed.

Lemma inet_pton4_total junk src :
  exists r b, inet_pton4 junk src = Ok (r, b) /\
    (r = UV_EINVAL \/ r = 0 /\ length b = 4%nat /\ is_bytes b /\
       Forall (fun c => strchr digits c <> None \/ c = DOT) src).
Proof.
  unfold inet_pton4. rewrite array_set_ok by (cbn; lia). cbn [mbind outcome_bind].
  destruct (pton4_loop_safe src false 0 0 (<[0%nat := 0]> (replicate 4 junk))) as [E|(o & t & E & Hl & Hb & Hs)].
  { split; [by rewrite length_insert, length_replicate|lia|done|]. cbn. apply Forall_singleton. unfold is_byte. lia. }
  - rewrite E. cbn [mbind outcome_bind]. eexists _, _. split; [done|]. by left.
  - rewrite E. cbn [mbind outcome_bind]. destruct (Z.ltb_spec o 4); eexists _, _; (split; [done|]); [by left|].
    right. auto.
Qed.

(** The state of [inet_pton6]: its array and its pointers are in bounds. *)
Record p6_inv (st : pton6_state) : Prop := {
  p6i_len : length (p6_tmp st) = 16%nat;
  p6i_tp : (p6_tp st <= 16)%nat;
  p6i_colonp : forall c, p6_colonp st = Some c -> (c <= p6_tp st)%nat;
  p6i_bytes : is_bytes (p6_tmp st) }.

Lemma land_255_byte z : is_byte (Z.land z 255).
Proof. change 255 with (Z.ones 8). rewrite Z.land_ones by lia. unfold is_byte. apply Z.mod_pos_bound. lia. Qed.

Lemma p6_store_ok st : p6_inv st -> (p6_tp st + 2 <= 16)%nat ->
  exists st', p6_store st = Ok st' /\ p6_inv st' /\ p6_colonp st' = p6_colonp st /\
    p6_tp st' = (p6_tp st + 2)%nat /\ p6_seen st' = 0.
Proof.
  intros [I1 I2 I3 I4] Htp. unfold p6_store. rewrite array_set_ok by lia. cbn [mbind outcome_bind].
  rewrite array_set_ok by (rewrite length_insert; lia). cbn [mbind outcome_bind]. eexists. split; [done|].
  split; [|split; [done|split; [cbn; lia|done]]]. split; cbn.
  - by rewrite !length_insert.
  - lia.
  - intros c Hc. specialize (I3 c Hc). lia.
  - do 2 (apply Forall_insert; [|apply land_255_byte]). done.
Qed.

Lemma array_copy_ok bytes : forall a off, (off + length bytes <= length a)%nat -> is_bytes a -> is_bytes bytes ->
  exists a', array_copy a off bytes = Ok a' /\ length a' = length a /\ is_bytes a'.
Proof.
  induction bytes as [|b bytes IH]; intros a off Hlen Ha Hb; [by exists a|]. cbn [array_copy length] in *.
  apply Forall_cons in Hb as [Hb Hbs]. rewrite array_set_ok by lia. cbn [mbind outcome_bind].
  destruct (IH (<[off := b]> a) (S off)) as (a' & -> & Hl & Hba); [rewrite length_insert; lia|by apply Forall_insert|done|].
  exists a'. split; [done|]. by rewrite Hl, length_insert.
Qed.

Lemma pton6_loop_safe junk src : forall st, p6_inv st ->
  pton6_loop junk src st = Ok None \/ exists st', pton6_loop junk src st = Ok (Some st') /\ p6_inv st'.
Proof.
  induction src as [|ch src IH]; intros st Hst; cbn [pton6_loop]; [right; by exists st|].
  destruct (xdigit ch) as [d|].
  { destruct (p6_seen st + 1 >? 4); [by left|]. apply IH. destruct Hst. by split. }
  destruct (ch =? COLON).
  - assert (Hcur : p6_inv (st <| p6_curtok := src |>)) by (destruct Hst; by split).
    cbv zeta. destruct (_ =? 0).
    + cbn [p6_colonp set_field]. destruct (p6_colonp st); [by left|]. apply IH. destruct Hst as [? ? _ ?].
      split; cbn; [done|done| |done]. by intros c [= <-].
    + destruct src as [|c src]; [by left|]. destruct (Nat.ltb_spec 16 (p6_tp (st <| p6_curtok := c :: src |>) + 2)); [by left|].
      destruct (p6_store_ok _ Hcur) as (st' & -> & Hst' & _); [done|]. cbn [mbind outcome_bind]. by apply IH.
  - destruct ((ch =? DOT) && (p6_tp st + 4 <=? 16)%nat) eqn:E; [|by left].
    apply andb_true_iff in E as [_ E%Nat.leb_le].
    destruct (inet_pton4_total junk (p6_curtok st)) as (r & b & -> & Hr). cbn [mbind outcome_bind].
    destruct (Z.eqb_spec r 0); [|by left]. destruct Hr as [->|(_ & Hl & Hb & _)]; [done|].
    destruct Hst as [I1 I2 I3 I4].
    destruct (array_copy_ok b (p6_tmp st) (p6_tp st)) as (a' & -> & Hla & Hba); [lia|done|done|].
    cbn [mbind outcome_bind]. right. eexists. split; [done|]. split; cbn; [lia|lia| |done].
    intros c Hc. specialize (I3 c Hc). lia.
Qed.

Lemma p6_shift_ok n c todo : forall i tmp, (c + n <= 16)%nat -> length tmp = 16%nat -> is_bytes tmp ->
  (1 <= i)%nat -> (i + todo = S n)%nat ->
  exists tmp', p6_shift todo i n c tmp = Ok tmp' /\ length tmp' = 16%nat /\ is_bytes tmp'.
Proof.
  induction todo as [|todo IH]; intros i tmp Hcn Hl Hb Hi Hsum; [by exists tmp|]. cbn [p6_shift].
  destruct (array_get_ok tmp (c + (n - i))) as (x & -> & Hx); [lia|]. cbn [mbind outcome_bind].
  rewrite array_set_ok by lia. cbn [mbind outcome_bind]. rewrite array_set_ok by (rewrite length_insert; lia).
  cbn [mbind outcome_bind]. apply IH; [done|by rewrite !length_insert| |lia|lia].
  apply Forall_insert; [|unfold is_byte; lia]. apply Forall_insert; [done|].
  by eapply Forall_lookup_1.
Qed.

Lemma p6_init s : p6_inv (mkP6 (replicate 16 0) 0 None s 0 0).
Proof. split; [done|cbn; lia|done|]. apply Forall_replicate. unfold is_byte. lia. Qed.

(** The end of [inet_pton6], after its loop. *)
Lemma inet_pton6_total junk src :
  exists r b, inet_pton6 junk src = Ok (r, b) /\ (r = UV_EINVAL \/ r = 0 /\ length b = 16%nat /\ is_bytes b).
Proof.
  unfold inet_pton6. set (start := match src with [] => _ | _ => _ end). clearbody start.
  destruct start as [s|]; [|eexists _, _; split; [done|by left]].
  destruct (pton6_loop_safe junk s (mkP6 (replicate 16 0) 0 None s 0 0)) as [->|(st & -> & Hst)].
  { apply p6_init. }
  { eexists _, _; split; [done|by left]. }
  cbn [mbind outcome_bind].
  assert (Hend : forall st, p6_inv st -> exists r b,
    (match p6_colonp st with
     | Some colonp =>
         let n := (p6_tp st - colonp)%nat in
         if (p6_tp st =? 16)%nat then Ok (UV_EINVAL, [])
         else tmp ← p6_shift n 1 n colonp (p6_tmp st); Ok (0, tmp)
     | None => if negb (p6_tp st =? 16)%nat then Ok (UV_EINVAL, []) else Ok (0, p6_tmp st)
     end) = Ok (r, b) /\ (r = UV_EINVAL \/ r = 0 /\ length b = 16%nat /\ is_bytes b)).
  { clear. intros st [I1 I2 I3 I4]. destruct (p6_colonp st) as [c|]; cbv zeta; destruct (Nat.eqb_spec (p6_tp st) 16);
      cbn [negb]; try (eexists _, _; split; [done|by left]).
    - specialize (I3 c eq_refl).
      destruct (p6_shift_ok (p6_tp st - c) c (p6_tp st - c) 1 (p6_tmp st)) as (t & -> & Hl & Hb); [lia|done|done|lia|lia|].
      eexists _, _. split; [done|]. by right.
    - eexists _, _. split; [done|]. by right. }
  destruct (negb (p6_seen st =? 0)); cbn [mbind outcome_bind]; [|by apply Hend].
  destruct (Nat.ltb_spec 16 (p6_tp st + 2)); [eexists _, _; split; [done|by left]|].
  destruct (p6_store_ok st Hst) as (st' & -> & Hst' & _); [done|]. by apply Hend.
Qed.

(** C19: parsing an address is memory safe and total: for every string and every
    address family [uv_inet_pton] returns 0 with 4 or 16 bytes, [UV_EINVAL] or
    [UV_EAFNOSUPPORT], and never touches memory outside of its arrays. *)
Theorem uv_inet_pton_safe (junk af : Z) (src : option (list Z)) :
  exists r b, uv_inet_pton junk af src = Ok (r, b) /\
    (r = UV_EINVAL \/ r = UV_EAFNOSUPPORT /\ af <> AF_INET /\ af <> AF_INET6 \/
     r = 0 /\ is_bytes b /\ (af = AF_INET /\ length b = 4%nat \/ af = AF_INET6 /\ length b = 16%nat)).
Proof.
  unfold uv_inet_pton. destruct src as [src|]; [|eexists _, _; split; [done|by left]].
  destruct (Z.eqb_spec af AF_INET).
  { destruct (inet_pton4_total junk src) as (r & b & -> & Hr). eexists _, _. split; [done|]. naive_solver. }
  destruct (Z.eqb_spec af AF_INET6); [|eexists _, _; split; [done|naive_solver]].
  assert (H6 : forall s, exists r b, inet_pton6 junk s = Ok (r, b) /\
    (r = UV_EINVAL \/ r = UV_EAFNOSUPPORT /\ af <> AF_INET /\ af <> AF_INET6 \/
     r = 0 /\ is_bytes b /\ (af = AF_INET /\ length b = 4%nat \/ af = AF_INET6 /\ length b = 16%nat))).
  { intros s. destruct (inet_pton6_total junk s) as (r & b & -> & Hr). eexists _, _. split; [done|]. naive_solver. }
  destruct (strchr src PERCENT) as [k|]; [|apply H6].
  destruct (Z.of_nat k >? _); [eexists _, _; split; [done|by left]|apply H6].
Qed.

(** ** No string is an address of both families *)

Lemma digit_or_dot_not_colon c : strchr digits c <> None \/ c = DOT -> (c =? COLON) = false.
Proof.
  intros H. apply Z.eqb_neq. intros ->. destruct H as [H|H]; [|discriminate]. by vm_compute in H.
Qed.

Lemma pton6_loop_digits junk src : forall st, p6_inv st -> p6_colonp st = None -> p6_tp st = 0%nat ->
  Forall (fun c => strchr digits c <> None \/ c = DOT) src ->
  pton6_loop junk src st = Ok None \/
  exists st', pton6_loop junk src st = Ok (Some st') /\ p6_inv st' /\ p6_colonp st' = None /\
    (p6_tp st' = 0%nat \/ p6_tp st' = 4%nat /\ p6_seen st' = 0).
Proof.
  induction src as [|ch src IH]; intros st Hst Hc Htp Hsrc; cbn [pton6_loop].
  { right. exists st. auto. }
  apply Forall_cons in Hsrc as [Hch Hsrc]. destruct (xdigit ch) as [d|].
  { destruct (p6_seen st + 1 >? 4); [by left|]. apply IH; [destruct Hst; by split|done..]. }
  rewrite (digit_or_dot_not_colon ch Hch).
  destruct ((ch =? DOT) && (p6_tp st + 4 <=? 16)%nat); [|by left].
  destruct (inet_pton4_total junk (p6_curtok st)) as (r & b & -> & Hr). cbn [mbind outcome_bind].
  destruct (Z.eqb_spec r 0); [|by left]. destruct Hr as [->|(_ & Hl & Hb & _)]; [done|].
  destruct Hst as [I1 I2 I3 I4].
  destruct (array_copy_ok b (p6_tmp st) (p6_tp st)) as (a' & -> & Hla & Hba); [lia|done|done|].
  cbn [mbind outcome_bind]. right. eexists. split; [done|]. split; [|split; [done|]].
  - split; cbn; [lia|lia| |done]. intros c Hc'. congruence.
  - right. cbn. split; [lia|done].
Qed.

Lemma strchr_none s c x : Forall (fun y => strchr digits y <> None \/ y = DOT) s -> x <> DOT -> strchr digits x = None ->
  c = x -> strchr s c = None.
Proof.
  intros Hs Hx Hd ->. induction Hs as [|y s Hy Hs IH]; [done|]. cbn.
  destruct (Z.eqb_spec y x); [|by rewrite IH]. subst. naive_solver.
Qed.

(** A string that parses as an IPv4 address is no IPv6 address. *)
Lemma ip4_not_ip6 junk1 junk2 src b :
  inet_pton4 junk1 src = Ok (0, b) -> uv_inet_pton junk2 AF_INET6 (Some src) = Ok (UV_EINVAL, []).
Proof.
  intros H4. destruct (inet_pton4_total junk1 src) as (r & b' & E & [->|(-> & _ & _ & Hs)]).
  { rewrite E in H4. discriminate. }
  unfold uv_inet_pton. change (AF_INET6 =? AF_INET) with false. change (AF_INET6 =? AF_INET6) with true. cbv iota.
  rewrite (strchr_none src PERCENT PERCENT) by done.
  unfold inet_pton6.
  set (start := match src with [] => _ | _ => _ end).
  assert (start = Some src) as ->.
  { subst start. destruct Hs as [|c s Hc Hs]; [done|]. by rewrite (digit_or_dot_not_colon c Hc). }
  destruct (pton6_loop_digits junk2 src (mkP6 (replicate 16 0) 0 None src 0 0)) as [->|(st & -> & Hst & Hcol & Htp)].
  { apply p6_init. }
  1-4: done.
  cbn [mbind outcome_bind]. destruct (Z.eqb_spec (p6_seen st) 0) as [E0|E0]; cbn [negb mbind outcome_bind].
  - rewrite Hcol. destruct Htp as [-> |[-> _]]; done.
  - destruct Htp as [Htp|[_ Htp]]; [|done]. rewrite Htp. cbn [Nat.ltb Nat.leb Nat.add].
    destruct (p6_store_ok st Hst) as (st' & -> & Hst' & Hc' & Htp' & _); [lia|]. cbn [mbind outcome_bind].
    rewrite Hc', Hcol, Htp', Htp. done.
Qed.

(** ** Printing and parsing IPv4 addresses *)

Lemma strchr_digit d : 0 <= d < 10 -> strchr digits (48 + d) = Some (Z.to_nat d).
Proof.
  intros Hd. assert (H : forallb (fun d => bool_decide (strchr digits (48 + d) = Some (Z.to_nat d))) (seqZ 0 10) = true)
    by (vm_compute; reflexivity).
  rewrite forallb_forall in H. apply (bool_decide_eq_true (strchr digits (48 + d) = _)), H.
  apply list_elem_of_In, elem_of_seqZ. lia.
Qed.

(** [%u] of a byte: one to three digits, no leading zero. *)
Definition octet_digits (n : Z) (l : list Z) : Prop :=
  (exists a, l = [48 + a] /\ n = a /\ 0 <= a < 10) \/
  (exists a b, l = [48 + a; 48 + b] /\ n = 10 * a + b /\ 1 <= a < 10 /\ 0 <= b < 10) \/
  (exists a b c, l = [48 + a; 48 + b; 48 + c] /\ n = 100 * a + 10 * b + c /\ 1 <= a < 10 /\ 0 <= b < 10 /\ 0 <= c < 10).

Definition octet_digits_b (n : Z) (l : list Z) : bool :=
  match l with
  | [x] => bool_decide (n = x - 48 /\ 0 <= x - 48 < 10)
  | [x; y] => bool_decide (n = 10 * (x - 48) + (y - 48) /\ 1 <= x - 48 < 10 /\ 0 <= y - 48 < 10)
  | [x; y; z] => bool_decide (n = 100 * (x - 48) + 10 * (y - 48) + (z - 48) /\
      1 <= x - 48 < 10 /\ 0 <= y - 48 < 10 /\ 0 <= z - 48 < 10)
  | _ => false
  end.

Lemma fmt_u_octet n : is_byte n -> octet_digits n (fmt_u n).
Proof.
  intros Hn. assert (H : forallb (fun n => octet_digits_b n (fmt_u n)) (seqZ 0 256) = true) by (vm_compute; reflexivity).
  rewrite forallb_forall in H. specialize (H n). unfold is_byte in Hn.
  assert (Hb : octet_digits_b n (fmt_u n) = true) by (apply H, list_elem_of_In, elem_of_seqZ; lia).
  clear H. unfold octet_digits. destruct (fmt_u n) as [|x [|y [|z [|? ?]]]]; cbn in Hb; try discriminate;
    apply bool_decide_eq_true in Hb.
  - left. exists (x - 48). split; [f_equal; lia|lia].
  - right; left. exists (x - 48), (y - 48). split; [repeat f_equal; lia|lia].
  - right; right. exists (x - 48), (y - 48), (z - 48). split; [repeat f_equal; lia|lia].
Qed.

Lemma fmt_u_octet_len n : is_byte n -> 1 <= zlen (fmt_u n) <= 3.
Proof. intros [(? & -> & _)|[(? & ? & -> & _)|(? & ? & ? & -> & _)]]%fmt_u_octet; unfold zlen; cbn; lia. Qed.

(** One more digit of an octet. *)
Lemma pton4_digit d src saw octets tp tmp x :
  0 <= d < 10 -> tmp !! tp = Some x -> 0 <= x * 10 + d < 256 -> (saw = true -> x <> 0) -> (saw = false -> octets < 4) ->
  pton4_loop ((48 + d) :: src) saw octets tp tmp =
    pton4_loop src true (if saw then octets else octets + 1) tp (<[tp := x * 10 + d]> tmp).
Proof.
  intros Hd Hx Hr Hs Ho. cbn [pton4_loop]. rewrite strchr_digit by done. unfold array_get. rewrite Hx.
  cbn [mbind outcome_bind]. rewrite Z2Nat.id by lia. rewrite (u32_small (x * 10 + d)) by (unfold is_u32; lia).
  assert ((saw && (x =? 0)) = false) as ->.
  { destruct saw; [|done]. by apply Z.eqb_neq, Hs. }
  destruct (Z.gtb_spec (x * 10 + d) 255); [lia|].
  rewrite array_set_ok by (by eapply lookup_lt_Some). cbn [mbind outcome_bind].
  rewrite u8_small by (unfold is_u8; lia). destruct saw; cbn [negb]; [done|].
  destruct (Z.gtb_spec (octets + 1) 4); [specialize (Ho eq_refl); lia|done].
Qed.

Lemma pton4_octet n src octets tp tmp :
  is_byte n -> tmp !! tp = Some 0 -> octets < 4 ->
  pton4_loop (fmt_u n ++ src) false octets tp tmp = pton4_loop src true (octets + 1) tp (<[tp := n]> tmp).
Proof.
  intros Hn Hx Ho. assert (Hlt : (tp < length tmp)%nat) by (by eapply lookup_lt_Some).
  unfold is_byte in Hn.
  destruct (fmt_u_octet n Hn) as [(a & -> & -> & Ha)|[(a & b & -> & -> & Ha & Hb)|(a & b & c & -> & -> & Ha & Hb & Hc)]];
    cbn [app]; rewrite (pton4_digit a _ _ _ _ _ 0) by (done || lia); rewrite Z.add_0_l; [done| |].
  - rewrite (pton4_digit b _ true _ _ _ a) by (rewrite ?list_lookup_insert_eq by done; done || lia).
    rewrite list_insert_insert_eq. do 2 f_equal. lia.
  - rewrite (pton4_digit b _ true _ _ _ a) by (rewrite ?list_lookup_insert_eq by done; done || lia).
    rewrite list_insert_insert_eq.
    rewrite (pton4_digit c _ true _ _ _ (a * 10 + b)) by (rewrite ?list_lookup_insert_eq by done; done || lia).
    rewrite list_insert_insert_eq. do 2 f_equal. lia.
Qed.

Lemma pton4_dot src octets tp tmp :
  octets < 4 -> (S tp < length tmp)%nat ->
  pton4_loop (DOT :: src) true octets tp tmp = pton4_loop src false octets (S tp) (<[S tp := 0]> tmp).
Proof.
  intros Ho Hl. cbn [pton4_loop]. change (strchr digits DOT) with (@None nat). cbn iota.
  change ((DOT =? DOT) && true) with true. cbn iota. rewrite (proj2 (Z.eqb_neq octets 4)) by lia.
  by rewrite array_set_ok.
Qed.

Lemma pton4_dotted junk a b c d :
  is_byte a -> is_byte b -> is_byte c -> is_byte d ->
  inet_pton4 junk (fmt_u a ++ [DOT] ++ fmt_u b ++ [DOT] ++ fmt_u c ++ [DOT] ++ fmt_u d) = Ok (0, [a; b; c; d]).
Proof.
  intros Ha Hb Hc Hd. unfold inet_pton4. rewrite array_set_ok by (cbn; lia). cbn [mbind outcome_bind].
  rewrite pton4_octet by done. cbn [app]. rewrite pton4_dot by (done || (cbn; lia)).
  rewrite pton4_octet by done. cbn [app]. rewrite pton4_dot by (done || (cbn; lia)).
  rewrite pton4_octet by done. cbn [app]. rewrite pton4_dot by (done || (cbn; lia)).
  rewrite <- (app_nil_r (fmt_u d)). by rewrite pton4_octet.
Qed.

(** Printing and parsing IPv4 addresses are inverse: for every address and a
    destination of [UV__INET_ADDRSTRLEN] bytes [inet_ntop4] succeeds, and
    [inet_pton4] reads the address back. *)
Theorem ntop4_pton4_roundtrip (junk : Z) (a b c d size : Z) :
  is_byte a -> is_byte b -> is_byte c -> is_byte d -> UV__INET_ADDRSTRLEN <= size ->
  exists s, inet_ntop4 [a; b; c; d] size = Ok (0, s) /\ inet_pton4 junk s = Ok (0, [a; b; c; d]).
Proof.
  intros Ha Hb Hc Hd Hs. unfold inet_ntop4. cbn [array_get lookup list_lookup mbind outcome_bind].
  pose proof (fmt_u_octet_len a Ha). pose proof (fmt_u_octet_len b Hb).
  pose proof (fmt_u_octet_len c Hc). pose proof (fmt_u_octet_len d Hd).
  eexists. rewrite !zlen_app, !zlen_cons, !zlen_nil. unfold UV__INET_ADDRSTRLEN in Hs.
  destruct (Z.geb_spec (zlen (fmt_u a) + (1 + 0 + (zlen (fmt_u b) + (1 + 0 + (zlen (fmt_u c) + (1 + 0 + zlen (fmt_u d))))))) size);
    [lia|]. split; [done|]. by apply pton4_dotted.
Qed.

Lemma ntop4_pton4_roundtrip_witness :
  exists s, inet_ntop4 [127; 0; 0; 1] 16 = Ok (0, s) /\ inet_pton4 5 s = Ok (0, [127; 0; 0; 1]).
Proof. apply (ntop4_pton4_roundtrip 5 127 0 0 1 16); by_decide. Defined.
