(* ===== verification/UvHeap.v ===== *)
(** * The binary heap of libuv

    [heap-inl.h] as it is written: nodes that point at their children and at
    their parent, pointers to pointer fields, paths computed from the number of
    elements.  The abstract view of a heap is a numbering [a] of its nodes from 1
    on, in which the children of node [i] are the nodes [2 * i] and [2 * i + 1];
    the operations are shown to refine insertion into and removal from a set
    whose least element is at the root. *)

From S2P Require Import Prelude.

(** ** State *)

(** [struct heap_node]; a pointer is an address, 0 the null pointer. *)
Record heap_node := mkNode { hn_left : Z; hn_right : Z; hn_parent : Z }.
#[export] Instance eta_heap_node : Eta heap_node := fun x => mkNode (hn_left x) (hn_right x) (hn_parent x).

(** [struct heap], with the nodes its pointers lead to. *)
Record heap := mkHeap { nodes : gmap Z heap_node; h_min : Z; nelts : Z }.
#[export] Instance eta_heap : Eta heap := fun h => mkHeap (nodes h) (h_min h) (nelts h).

Definition node (h : heap) (p : Z) : outcome heap_node :=
  match nodes h !! p with Some x => Ok x | None => Crash NullDeref end.

(** [*p = x] *)
Definition put (h : heap) (p : Z) (x : heap_node) : outcome heap :=
  match nodes h !! p with
  | Some _ => Ok (h <| nodes := <[p := x]> (nodes h) |>)
  | None => Crash NullDeref
  end.

Definition set_left (h : heap) (p v : Z) : outcome heap := x ← node h p; put h p (x <| hn_left := v |>).
Definition set_right (h : heap) (p v : Z) : outcome heap := x ← node h p; put h p (x <| hn_right := v |>).
Definition set_parent (h : heap) (p v : Z) : outcome heap := x ← node h p; put h p (x <| hn_parent := v |>).

(** [if (p != NULL) p->parent = v;] *)
Definition set_parent_of (h : heap) (p v : Z) : outcome heap :=
  if p =? 0 then Ok h else set_parent h p v.

(** A [struct heap_node**]: the address of [heap->min] or of a child field. *)
Inductive slot := Root | LeftOf (p : Z) | RightOf (p : Z).

Definition load (h : heap) (s : slot) : outcome Z :=
  match s with
  | Root => Ok (h_min h)
  | LeftOf p => x ← node h p; Ok (hn_left x)
  | RightOf p => x ← node h p; Ok (hn_right x)
  end.

Definition store (h : heap) (s : slot) (v : Z) : outcome heap :=
  match s with
  | Root => Ok (h <| h_min := v |>)
  | LeftOf p => set_left h p v
  | RightOf p => set_right h p v
  end.

(** ** Operations *)

Definition heap_init (h : heap) : heap := h <| h_min := 0 |> <| nelts := 0 |>.

Definition heap_min (h : heap) : Z := h_min h.

(** The first part of [heap_node_swap]: the two nodes are exchanged and the nodes
    below them linked to their new parents. *)
Definition swap_links (h : heap) (parent child : Z) : outcome heap :=
  t ← node h parent;
  c ← node h child;
  h ← put h parent c;
  h ← put h child t;
  h ← set_parent h parent child;
  c ← node h child;
  '(h, sibling) ← (if hn_left c =? child
                   then h ← set_left h child parent; Ok (h, hn_right c)
                   else h ← set_right h child parent; Ok (h, hn_left c));
  h ← set_parent_of h sibling child;
  p ← node h parent;
  h ← set_parent_of h (hn_left p) parent;
  p ← node h parent;
  set_parent_of h (hn_right p) parent.

(** The link from above, [up] or the root, to [old] is set to [new]. *)
Definition replace_child (h : heap) (up old new : Z) : outcome heap :=
  if up =? 0 then Ok (h <| h_min := new |>)
  else
    g ← node h up;
    if hn_left g =? old then set_left h up new else set_right h up new.

Definition heap_node_swap (h : heap) (parent child : Z) : outcome heap :=
  h ← swap_links h parent child;
  c ← node h child;
  replace_child h (hn_parent c) parent child.

(** [for (k = 0, n = ...; n >= 2; k += 1, n /= 2) path = (path << 1) | (n & 1);]
    with [k] as a [nat]. *)
Fixpoint path_loop (fuel : nat) (path : Z) (k : nat) (n : Z) : outcome (Z * nat) :=
  match fuel with
  | O => Crash OutOfFuel
  | S fuel =>
    if n >=? 2
    then path_loop fuel (Z.lor (u32 (Z.shiftl path 1)) (Z.land n 1)) (S k) (n `div` 2)
    else Ok (path, k)
  end.

(** A number of 32 bits is halved at most 31 times before it is below two. *)
Definition path_fuel : nat := 32.

(** [while (k > 0)]: the slots [parent] and [child] at the end of the path. *)
Fixpoint walk (h : heap) (parent child : slot) (path : Z) (k : nat) : outcome (slot * slot) :=
  match k with
  | O => Ok (parent, child)
  | S k =>
    p ← load h child;
    _ ← node h p;
    walk h child (if Z.land path 1 =? 0 then LeftOf p else RightOf p) (Z.shiftr path 1) k
  end.

Section order.
Variable less_than : Z -> Z -> bool.

(** [while (x->parent != NULL && less_than(x, x->parent)) heap_node_swap(...)] *)
Fixpoint sift_up (fuel : nat) (h : heap) (x : Z) : outcome heap :=
  match fuel with
  | O => Crash OutOfFuel
  | S fuel =>
    n ← node h x;
    if negb (hn_parent n =? 0) && less_than x (hn_parent n)
    then h ← heap_node_swap h (hn_parent n) x; sift_up fuel h x
    else Ok h
  end.

Definition heap_insert (h : heap) (newnode : Z) : outcome heap :=
  h ← set_left h newnode 0;
  h ← set_right h newnode 0;
  h ← set_parent h newnode 0;
  '(path, k) ← path_loop path_fuel 0 0 (u32 (1 + nelts h));
  '(parent, child) ← walk h Root Root path k;
  p ← load h parent;
  h ← set_parent h newnode p;
  h ← store h child newnode;
  let h := h <| nelts := u32 (nelts h + 1) |> in
  sift_up (S (Z.to_nat (nelts h))) h newnode.

(** The loop that walks down the subtree. *)
Definition smallest_of (h : heap) (child : Z) : outcome Z :=
  n ← node h child;
  let smallest := if negb (hn_left n =? 0) && less_than (hn_left n) child then hn_left n else child in
  Ok (if negb (hn_right n =? 0) && less_than (hn_right n) smallest then hn_right n else smallest).

Fixpoint sift_down (fuel : nat) (h : heap) (child : Z) : outcome heap :=
  match fuel with
  | O => Crash OutOfFuel
  | S fuel =>
    smallest ← smallest_of h child;
    if smallest =? child then Ok h
    else h ← heap_node_swap h child smallest; sift_down fuel h child
  end.

(** The part of [heap_remove] that puts [child] into the place of [x]. *)
Definition heap_replace (h : heap) (x child : Z) : outcome heap :=
  n ← node h x;
  h ← set_left h child (hn_left n);
  n ← node h x;
  h ← set_right h child (hn_right n);
  n ← node h x;
  h ← set_parent h child (hn_parent n);
  c ← node h child;
  h ← set_parent_of h (hn_left c) child;
  c ← node h child;
  h ← set_parent_of h (hn_right c) child;
  n ← node h x;
  replace_child h (hn_parent n) x child.

Definition heap_remove (h : heap) (x : Z) : outcome heap :=
  if nelts h =? 0 then Ok h else
  '(path, k) ← path_loop path_fuel 0 0 (nelts h);
  '(_, max) ← walk h Root Root path k;
  let h := h <| nelts := u32 (nelts h - 1) |> in
  child ← load h max;
  h ← store h max 0;
  if child =? x then
    Ok (if child =? h_min h then h <| h_min := 0 |> else h)
  else
    h ← heap_replace h x child;
    h ← sift_down (S (Z.to_nat (nelts h))) h child;
    sift_up (S (Z.to_nat (nelts h))) h child.

Definition heap_dequeue (h : heap) : outcome heap := heap_remove h (h_min h).
End order.

(** ** Memory, field by field *)

Definition alloc (h : heap) (p : Z) : Prop := is_Some (nodes h !! p).
Definition Lf (h : heap) (p : Z) : Z := from_option hn_left 0 (nodes h !! p).
Definition Rf (h : heap) (p : Z) : Z := from_option hn_right 0 (nodes h !! p).
Definition Pf (h : heap) (p : Z) : Z := from_option hn_parent 0 (nodes h !! p).

(** [h'] has the fields [L], [R], [P] and the objects of [h]. *)
Record mem (h h' : heap) (L R P : Z -> Z) : Prop := {
  mem_alloc : forall q, alloc h' q <-> alloc h q;
  mem_L : forall q, Lf h' q = L q;
  mem_R : forall q, Rf h' q = R q;
  mem_P : forall q, Pf h' q = P q }.

(** The function [f] with the value [v] at [p]. *)
Definition upd (f : Z -> Z) (p v q : Z) : Z := if decide (q = p) then v else f q.

Lemma node_Ok h p : alloc h p -> node h p = Ok (mkNode (Lf h p) (Rf h p) (Pf h p)).
Proof. intros [[l r u] E]. unfold node, Lf, Rf, Pf. by rewrite E. Qed.

Lemma mem_refl h : mem h h (Lf h) (Rf h) (Pf h).
Proof. by split. Qed.

Lemma mem_trans h h1 h2 L R P L' R' P' : mem h h1 L R P -> mem h1 h2 L' R' P' -> mem h h2 L' R' P'.
Proof. intros [] []. split; naive_solver. Qed.

Lemma mem_nodes h h' q : (alloc h' q <-> alloc h q) -> Lf h' q = Lf h q -> Rf h' q = Rf h q -> Pf h' q = Pf h q ->
  nodes h' !! q = nodes h !! q.
Proof.
  unfold alloc, Lf, Rf, Pf. destruct (nodes h' !! q) as [[]|], (nodes h !! q) as [[]|]; cbn; intros [H1 H2]; [congruence| | |done].
  - by destruct H1 as [? [=]].
  - by destruct H2 as [? [=]].
Qed.

Lemma put_spec h p x : alloc h p -> exists h', put h p x = Ok h' /\
  mem h h' (upd (Lf h) p (hn_left x)) (upd (Rf h) p (hn_right x)) (upd (Pf h) p (hn_parent x)) /\
  h_min h' = h_min h /\ nelts h' = nelts h.
Proof.
  intros [y E]. unfold put. rewrite E. eexists. split; [done|]. split; [|done].
  split; intros q; unfold alloc, Lf, Rf, Pf, upd; cbn; rewrite lookup_insert; repeat case_decide; simplify_eq; try done.
Qed.

(** [mem_from Hx] rewrites the fields of a heap into those of the one before. *)
Lemma mem_ext h h' L R P L' R' P' : mem h h' L R P ->
  (forall q, L q = L' q) -> (forall q, R q = R' q) -> (forall q, P q = P' q) -> mem h h' L' R' P'.
Proof. intros [] HL HR HP. split; intros q; [done|rewrite <- HL|rewrite <- HR|rewrite <- HP]; done. Qed.

Lemma upd_same f p q : upd f p (f p) q = f q.
Proof. unfold upd. by case_decide; subst. Qed.

Lemma set_left_spec h p v : alloc h p -> exists h', set_left h p v = Ok h' /\
  mem h h' (upd (Lf h) p v) (Rf h) (Pf h) /\ h_min h' = h_min h /\ nelts h' = nelts h.
Proof.
  intros H. unfold set_left. rewrite node_Ok by done. cbn [mbind outcome_bind].
  edestruct (put_spec h p) as (h' & -> & Hm & Hr); [done|]. exists h'. split; [done|]. split; [|done].
  eapply mem_ext; [exact Hm|done|apply upd_same..].
Qed.

Lemma set_right_spec h p v : alloc h p -> exists h', set_right h p v = Ok h' /\
  mem h h' (Lf h) (upd (Rf h) p v) (Pf h) /\ h_min h' = h_min h /\ nelts h' = nelts h.
Proof.
  intros H. unfold set_right. rewrite node_Ok by done. cbn [mbind outcome_bind].
  edestruct (put_spec h p) as (h' & -> & Hm & Hr); [done|]. exists h'. split; [done|]. split; [|done].
  eapply mem_ext; [exact Hm|apply upd_same|done|apply upd_same].
Qed.

Lemma set_parent_spec h p v : alloc h p -> exists h', set_parent h p v = Ok h' /\
  mem h h' (Lf h) (Rf h) (upd (Pf h) p v) /\ h_min h' = h_min h /\ nelts h' = nelts h.
Proof.
  intros H. unfold set_parent. rewrite node_Ok by done. cbn [mbind outcome_bind].
  edestruct (put_spec h p) as (h' & -> & Hm & Hr); [done|]. exists h'. split; [done|]. split; [|done].
  eapply mem_ext; [exact Hm|apply upd_same|apply upd_same|done].
Qed.

Lemma set_parent_of_spec h p v : (p <> 0 -> alloc h p) -> exists h', set_parent_of h p v = Ok h' /\
  mem h h' (Lf h) (Rf h) (if decide (p = 0) then Pf h else upd (Pf h) p v) /\ h_min h' = h_min h /\ nelts h' = nelts h.
Proof.
  intros H. unfold set_parent_of. destruct (Z.eqb_spec p 0) as [Hp|Hp]; destruct (decide (p = 0)); try done.
  - exists h. split; [done|]. split; [apply mem_refl|done].
  - apply set_parent_spec; auto.
Qed.

(** ** The numbering of a heap *)

(** [rep h a]: the nodes of [h] are [a 1, ..., a (nelts h)]; the node number [i]
    has number [i / 2] for its parent and [2 * i] and [2 * i + 1] for its
    children, so that the tree is complete. *)
Record rep (h : heap) (a : Z -> Z) : Prop := {
  rep_nelts : 0 <= nelts h;
  rep_min : h_min h = a 1;
  rep_alloc : forall i, 1 <= i <= nelts h -> a i <> 0 /\ alloc h (a i);
  rep_L : forall i, 1 <= i <= nelts h -> Lf h (a i) = a (2 * i);
  rep_R : forall i, 1 <= i <= nelts h -> Rf h (a i) = a (2 * i + 1);
  rep_P : forall i, 1 <= i <= nelts h -> Pf h (a i) = a (i `div` 2);
  rep_out : forall i, ~ (1 <= i <= nelts h) -> a i = 0;
  rep_inj : forall i j, 1 <= i <= nelts h -> 1 <= j <= nelts h -> a i = a j -> i = j }.

Definition in_heap (h : heap) (a : Z -> Z) (x : Z) : Prop := exists i, 1 <= i <= nelts h /\ a i = x.

(** The nodes that are not in the heap keep their contents. *)
Definition frame (h h' : heap) (P : Z -> Prop) : Prop := forall q, ~ P q -> nodes h' !! q = nodes h !! q.

Definition exchange (a : Z -> Z) (i j k : Z) : Z := if decide (k = i) then a j else if decide (k = j) then a i else a k.

Section rep.
Context {h : heap} {a : Z -> Z} (Hrep : rep h a).

Lemma rep_node i : 1 <= i <= nelts h -> node h (a i) = Ok (mkNode (a (2 * i)) (a (2 * i + 1)) (a (i `div` 2))).
Proof using Hrep.
  intros Hi. destruct (rep_alloc _ _ Hrep i Hi) as [_ Ha]. rewrite node_Ok by done.
  by rewrite (rep_L _ _ Hrep), (rep_R _ _ Hrep), (rep_P _ _ Hrep).
Qed.

Lemma rep_null i : a i = 0 <-> ~ (1 <= i <= nelts h).
Proof using Hrep. split; [|apply (rep_out _ _ Hrep)]. intros E Hi. by destruct (rep_alloc _ _ Hrep i Hi). Qed.

Lemma rep_eq i j : 1 <= i <= nelts h -> a i = a j -> i = j.
Proof using Hrep.
  intros Hi E. destruct (decide (1 <= j <= nelts h)) as [Hj|Hj]; [by apply (rep_inj _ _ Hrep)|].
  rewrite (rep_out _ _ Hrep j Hj) in E. by apply rep_null in E.
Qed.
End rep.

(** ** Swapping a node with its parent *)

(** [fields] rewrites the fields of a changed heap into those of the first one,
    [allocs] does the same for the objects. *)
Ltac fields := repeat match goal with
  | M : mem _ ?h _ _ _ |- context [Lf ?h _] => rewrite (mem_L _ _ _ _ _ M)
  | M : mem _ ?h _ _ _ |- context [Rf ?h _] => rewrite (mem_R _ _ _ _ _ M)
  | M : mem _ ?h _ _ _ |- context [Pf ?h _] => rewrite (mem_P _ _ _ _ _ M)
  end.
Ltac allocs := repeat match goal with
  | M : mem _ ?h _ _ _ |- alloc ?h _ => apply (mem_alloc _ _ _ _ _ M)
  end.

(** Case analysis on a decision of the goal. *)
Ltac goal_decide E := match goal with |- context [decide ?P] => destruct (decide P) as [E|E] end.

(** [swapped L p c]: the field [L] after the two nodes were copied. *)
Definition swapped (f : Z -> Z) (p c q : Z) : Z := if decide (q = c) then f p else if decide (q = p) then f c else f q.

Lemma copy_spec h p c : alloc h p -> alloc h c -> p <> c -> exists h',
  (t ← node h p; n ← node h c; h1 ← put h p n; put h1 c t) = Ok h' /\
  mem h h' (swapped (Lf h) p c) (swapped (Rf h) p c) (swapped (Pf h) p c) /\ h_min h' = h_min h /\ nelts h' = nelts h.
Proof.
  intros Hp Hc Hne. rewrite !node_Ok by done. cbn [mbind outcome_bind].
  edestruct (put_spec h p) as (h1 & -> & M1 & Em1 & En1); [done|]. cbn [mbind outcome_bind].
  edestruct (put_spec h1 c) as (h2 & -> & M2 & Em2 & En2); [by allocs|]. exists h2.
  split; [done|]. split; [|by rewrite Em2, En2].
  split; intros q; [by rewrite (mem_alloc _ _ _ _ _ M2), (mem_alloc _ _ _ _ _ M1)|..];
    fields; cbn; unfold upd, swapped; case_decide; fields; unfold upd; repeat case_decide; by simplify_eq.
Qed.

(** Fields at the nodes of a heap, as functions of their numbers. *)
Section at_number.
Context {h : heap} {a : Z -> Z} (Hrep : rep h a).
Implicit Types f : Z -> Z.

Lemma upd_at f y v x : 1 <= x <= nelts h -> upd f (a y) v (a x) = if decide (x = y) then v else f (a x).
Proof using Hrep. intros Hx. unfold upd. repeat case_decide; simplify_eq; try done. by apply (rep_eq Hrep) in H; [|done]. Qed.

Lemma cond_upd_at P `{!Decision P} f y v x : 1 <= x <= nelts h ->
  (if decide P then upd f (a y) v else f) (a x) = if decide (P /\ x = y) then v else f (a x).
Proof using Hrep.
  intros Hx. destruct (decide P); [|by rewrite decide_False by tauto]. rewrite upd_at by done.
  by repeat (case_decide; try tauto).
Qed.

Lemma swapped_at f y z x : 1 <= x <= nelts h ->
  swapped f (a y) (a z) (a x) = if decide (x = z) then f (a y) else if decide (x = y) then f (a z) else f (a x).
Proof using Hrep.
  intros Hx. unfold swapped. repeat case_decide; simplify_eq; try done;
    match goal with E : a _ = a _ |- _ => apply (rep_eq Hrep) in E; done end.
Qed.

Lemma upd_of_at f y v x : 1 <= x <= nelts h ->
  (if decide (a y = 0) then f else upd f (a y) v) (a x) = if decide (x = y) then v else f (a x).
Proof using Hrep.
  intros Hx. case_decide as E; [|by apply upd_at]. apply (rep_null Hrep) in E. case_decide; [subst; done|done].
Qed.

Lemma alloc_at x : a x <> 0 -> alloc h (a x).
Proof using Hrep. intros Hx. rewrite (rep_null Hrep) in Hx. apply (rep_alloc _ _ Hrep). lia. Qed.
End at_number.

(** The numbers after a swap of [i] and [j]. *)
Definition renumber (i j k : Z) : Z := if decide (k = i) then j else if decide (k = j) then i else k.

Lemma exchange_renumber a i j k : exchange a i j k = a (renumber i j k).
Proof. unfold exchange, renumber. by repeat case_decide. Qed.

Lemma swap_links_spec h a i j : rep h a -> 2 <= j <= nelts h -> i = j `div` 2 -> exists h',
  swap_links h (a i) (a j) = Ok h' /\
  (forall x, 1 <= x <= nelts h ->
     Lf h' (a x) = (if decide (x = j) then if decide (j = 2 * i) then a i else a (2 * i) else a (2 * renumber i j x)) /\
     Rf h' (a x) = (if decide (x = j) then if decide (j = 2 * i) then a (2 * i + 1) else a i else a (2 * renumber i j x + 1)) /\
     Pf h' (a x) = if decide (x = 2 * j \/ x = 2 * j + 1) then a i
       else if decide (x = i \/ x <> j /\ (x = 2 * i \/ x = 2 * i + 1)) then a j else a (renumber i j x `div` 2)) /\
  h_min h' = h_min h /\ nelts h' = nelts h /\
  frame h h' (in_heap h a) /\ (forall q, alloc h' q <-> alloc h q).
Proof.
  intros Hr Hj Eij. set (p := a i). set (c := a j).
  assert (Hi : 1 <= i < j /\ (j = 2 * i \/ j = 2 * i + 1)) by (Z.div_mod_to_equations; lia).
  destruct (rep_alloc _ _ Hr i) as [Hp0 Hp]; [lia|]. destruct (rep_alloc _ _ Hr j) as [Hc0 Hc]; [lia|].
  assert (Hpc : p <> c) by (intros E; apply (rep_eq Hr) in E; lia).
  unfold swap_links.
  destruct (copy_spec h p c Hp Hc Hpc) as (h1 & E1 & M1 & Em1 & En1).
  rewrite !node_Ok in * by done. cbn [mbind outcome_bind] in *.
  destruct (put h p _) as [h0|]; [|done]. cbn [mbind outcome_bind] in *. rewrite E1. clear E1 h0. cbn [mbind outcome_bind].
  destruct (set_parent_spec h1 p c) as (h2 & -> & M2 & Em2 & En2); [by allocs|]. cbn [mbind outcome_bind].
  rewrite node_Ok by (by allocs). cbn [mbind outcome_bind hn_left hn_right hn_parent].
  set (even := bool_decide (j = 2 * i)). set (s := if even then j + 1 else j - 1).
  match goal with |- exists h', (?m ≫= _) = _ /\ _ => assert (exists h3, m = Ok (h3, a s) /\
    mem h2 h3 (if even then upd (Lf h2) c p else Lf h2) (if even then Rf h2 else upd (Rf h2) c p) (Pf h2) /\
    h_min h3 = h_min h2 /\ nelts h3 = nelts h2) as (h3 & -> & M3 & Em3 & En3) end.
  { assert (Lf h2 c = a (2 * i) /\ Rf h2 c = a (2 * i + 1)) as [-> ->].
    { fields. unfold c, p. rewrite !(swapped_at Hr) by lia. rewrite !decide_True by done.
      by rewrite (rep_L _ _ Hr), (rep_R _ _ Hr) by lia. }
    unfold s, even. destruct (Z.eqb_spec (a (2 * i)) c) as [E|E].
    - unfold c in E. symmetry in E. apply (rep_eq Hr) in E; [|lia]. rewrite bool_decide_true by done. rewrite E.
      destruct (set_left_spec h2 c p) as (h3 & -> & Hs); [by allocs|]. exists h3. rewrite <- E. by split.
    - assert (j <> 2 * i) by (intros E'; apply E; unfold c; by rewrite <- E').
      rewrite bool_decide_false by done. destruct (set_right_spec h2 c p) as (h3 & -> & Hs); [by allocs|].
      exists h3. replace (j - 1) with (2 * i) by lia. by split. }
  cbn [mbind outcome_bind].
  destruct (set_parent_of_spec h3 (a s) c) as (h4 & -> & M4 & Em4 & En4); [intros; allocs; by apply (alloc_at Hr)|]. cbn [mbind outcome_bind].
  rewrite node_Ok by (by allocs). cbn [mbind outcome_bind hn_left hn_right hn_parent].
  assert (Hs : j = 2 * i /\ s = 2 * i + 1 \/ j = 2 * i + 1 /\ s = 2 * i) by (unfold s, even; case_bool_decide; lia).
  assert (HL : forall x, 1 <= x <= nelts h -> Lf h4 (a x) =
    if decide (x = j) then if even then p else a (2 * i) else a (2 * renumber i j x)).
  { intros x Hx. fields. transitivity ((if even then upd (swapped (Lf h) p c) c p else swapped (Lf h) p c) (a x)).
    - destruct even; unfold upd; repeat case_decide; try done; by fields.
    - unfold p, c, renumber. destruct even; rewrite ?(upd_at Hr), (swapped_at Hr) by lia;
        repeat case_decide; simplify_eq; try lia; done || (apply (rep_L _ _ Hr); lia). }
  assert (HR : forall x, 1 <= x <= nelts h -> Rf h4 (a x) =
    if decide (x = j) then if even then a (2 * i + 1) else p else a (2 * renumber i j x + 1)).
  { intros x Hx. fields. transitivity ((if even then swapped (Rf h) p c else upd (swapped (Rf h) p c) c p) (a x)).
    - destruct even; unfold upd; repeat case_decide; try done; by fields.
    - unfold p, c, renumber. destruct even; rewrite ?(upd_at Hr), (swapped_at Hr) by lia;
        repeat case_decide; simplify_eq; try lia; done || (apply (rep_R _ _ Hr); lia). }
  change (Lf h4 p) with (Lf h4 (a i)). assert (Hri : renumber i j i = j) by (unfold renumber; by rewrite decide_True).
  rewrite (HL i), Hri, decide_False by lia.
  destruct (set_parent_of_spec h4 (a (2 * j)) p) as (h5 & -> & M5 & Em5 & En5); [intros; allocs; by apply (alloc_at Hr)|]. cbn [mbind outcome_bind].
  rewrite node_Ok by (by allocs). cbn [mbind outcome_bind hn_left hn_right hn_parent].
  replace (Rf h5 p) with (a (2 * j + 1)).
  2: { rewrite (mem_R _ _ _ _ _ M5). unfold p. by rewrite HR, Hri, decide_False by lia. }
  destruct (set_parent_of_spec h5 (a (2 * j + 1)) p) as (h6 & -> & M6 & Em6 & En6); [intros; allocs; by apply (alloc_at Hr)|].
  exists h6. split; [done|]. split; [intros x Hx; split_and!|].
  - rewrite (mem_L _ _ _ _ _ M6), (mem_L _ _ _ _ _ M5), HL by done. unfold even. clear. repeat case_decide; try case_bool_decide; done.
  - rewrite (mem_R _ _ _ _ _ M6), (mem_R _ _ _ _ _ M5), HR by done. unfold even. clear. repeat case_decide; try case_bool_decide; done.
  - fields. rewrite (upd_of_at Hr) by done. fields. rewrite (upd_of_at Hr) by done. fields.
    rewrite (upd_of_at Hr) by done. fields. unfold p, c, renumber. rewrite (upd_at Hr) by done. fields. unfold p, c. rewrite (swapped_at Hr) by done.
    clearbody s. clear - Hj Hi Hs Hx Hr. repeat (case_decide; try (exfalso; lia); try done); apply (rep_P _ _ Hr); lia.
  - assert (Hal : forall q, alloc h6 q <-> alloc h q).
    { intros q. by rewrite (mem_alloc _ _ _ _ _ M6), (mem_alloc _ _ _ _ _ M5), (mem_alloc _ _ _ _ _ M4),
        (mem_alloc _ _ _ _ _ M3), (mem_alloc _ _ _ _ _ M2), (mem_alloc _ _ _ _ _ M1). }
    split; [congruence|]. split; [congruence|]. split; [|done].
    intros q Hq. assert (Hout : forall x, a x <> 0 -> q <> a x).
    { intros x Hx ->. apply Hq. exists x. rewrite (rep_null Hr) in Hx. split; [lia|done]. }
    assert (Hu : forall f y v, a y <> 0 -> upd f (a y) v q = f q) by (intros f y v Hy; unfold upd; by rewrite decide_False by auto).
    assert (Hd : forall f y v, (if decide (a y = 0) then f else upd f (a y) v) q = f q) by (intros f y v; destruct (decide (a y = 0)); [done|by apply Hu]).
    assert (Hsw : forall f, swapped f p c q = f q) by (intros f; unfold swapped, p, c; by rewrite !decide_False by auto).
    apply mem_nodes; [done|fields..].
    + destruct even; unfold c; rewrite ?Hu by done; fields; by rewrite Hsw.
    + destruct even; unfold c; rewrite ?Hu by done; fields; by rewrite Hsw.
    + rewrite Hd. fields. rewrite Hd. fields. rewrite Hd. fields. unfold p. rewrite Hu by done. fields. by rewrite Hsw.
Qed.

(** What a store to the slot of node [n] changes. *)
Definition is_left (n : Z) : Prop := n <> 1 /\ n `mod` 2 = 0.
Definition is_right (n : Z) : Prop := n <> 1 /\ n `mod` 2 <> 0.
#[export] Instance is_left_dec n : Decision (is_left n).
Proof. unfold is_left. apply _. Defined.
#[export] Instance is_right_dec n : Decision (is_right n).
Proof. unfold is_right. apply _. Defined.

(** Such changes only touch nodes of the heap. *)
Lemma child_frame {h0} h h' a n L R (P : Z -> Prop) : rep h0 a -> 1 <= n <= nelts h0 + 1 -> (forall x, in_heap h0 a x -> P x) ->
  mem h h' (if decide (is_left n) then upd (Lf h) (a (n `div` 2)) L else Lf h)
           (if decide (is_right n) then upd (Rf h) (a (n `div` 2)) R else Rf h) (Pf h) -> frame h h' P.
Proof.
  intros Hr Hn HP M q Hq. assert (Hne : n <> 1 -> q <> a (n `div` 2)).
  { intros H ->. apply Hq, HP. exists (n `div` 2). split; [Z.div_mod_to_equations; lia|done]. }
  apply mem_nodes; [apply (mem_alloc _ _ _ _ _ M)|rewrite (mem_L _ _ _ _ _ M)|rewrite (mem_R _ _ _ _ _ M)|apply (mem_P _ _ _ _ _ M)];
    (match goal with |- context [decide ?P] => destruct (decide P) as [[? _]|] end; [unfold upd; by rewrite decide_False by auto|done]).
Qed.

Lemma replace_child_spec h h1 a j c : rep h a -> 1 <= j <= nelts h -> (forall q, alloc h1 q <-> alloc h q) ->
  (j <> 1 -> Lf h1 (a (j `div` 2)) = a (2 * (j `div` 2))) -> exists h',
  replace_child h1 (a (j `div` 2)) (a j) c = Ok h' /\
  mem h1 h' (if decide (is_left j) then upd (Lf h1) (a (j `div` 2)) c else Lf h1)
            (if decide (is_right j) then upd (Rf h1) (a (j `div` 2)) c else Rf h1) (Pf h1) /\
  h_min h' = (if decide (j = 1) then c else h_min h1) /\ nelts h' = nelts h1.
Proof.
  intros Hr Hj Hal HL. unfold replace_child, is_left, is_right.
  destruct (Z.eqb_spec (a (j `div` 2)) 0) as [E|E]; rewrite (rep_null Hr) in E.
  - assert (j = 1) as -> by (Z.div_mod_to_equations; lia). exists (h1 <| h_min := c |>). split; [done|].
    by rewrite !decide_False by lia.
  - assert (Hj1 : j <> 1) by (Z.div_mod_to_equations; lia). destruct (rep_alloc _ _ Hr (j `div` 2)) as [_ Hga]; [lia|].
    rewrite node_Ok by (by apply Hal). cbn [mbind outcome_bind hn_left]. rewrite HL by done. rewrite (decide_False (P := j = 1)) by done.
    destruct (Z.eqb_spec (a (2 * (j `div` 2))) (a j)) as [E'|E'].
    + symmetry in E'. apply (rep_eq Hr) in E'; [|lia]. rewrite decide_True, decide_False by (Z.div_mod_to_equations; lia).
      apply set_left_spec. by apply Hal.
    + assert (j <> 2 * (j `div` 2)) by congruence. rewrite decide_False, decide_True by (Z.div_mod_to_equations; lia).
      apply set_right_spec. by apply Hal.
Qed.

(** The numbering that a relinked heap has. *)
Lemma heap_node_swap_spec h a j : rep h a -> 2 <= j <= nelts h -> exists h',
  heap_node_swap h (a (j `div` 2)) (a j) = Ok h' /\ rep h' (exchange a (j `div` 2) j) /\ nelts h' = nelts h /\
  frame h h' (in_heap h a) /\ (forall q, alloc h' q <-> alloc h q).
Proof.
  intros Hr Hj. set (i := j `div` 2). assert (Hi : 1 <= i < j /\ (j = 2 * i \/ j = 2 * i + 1)) by (unfold i; Z.div_mod_to_equations; lia).
  destruct (rep_alloc _ _ Hr i) as [Hp0 Hp]; [lia|]. destruct (rep_alloc _ _ Hr j) as [Hc0 Hc]; [lia|].
  unfold heap_node_swap. destruct (swap_links_spec h a i j Hr Hj eq_refl) as (h1 & -> & HF & Em & En & Hfr & Hal).
  cbn [mbind outcome_bind]. rewrite node_Ok by (by apply Hal). cbn [mbind outcome_bind hn_left hn_right hn_parent].
  clearbody i.
  assert (Pf h1 (a j) = a (i `div` 2)) as ->.
  { destruct (HF j) as (_ & _ & ->); [lia|]. unfold renumber. clear - Hj Hi. repeat (case_decide; try (exfalso; lia)); done. }
  destruct (replace_child_spec h h1 a i (a j) Hr) as (h2 & -> & M2 & Em2 & En2); [lia|done| |].
  { intros Hi1. destruct (HF (i `div` 2)) as (-> & _ & _); [Z.div_mod_to_equations; lia|].
    unfold renumber. rewrite !decide_False by (Z.div_mod_to_equations; lia). done. }
  exists h2. split; [done|].
  assert (Hal2 : forall q, alloc h2 q <-> alloc h q) by (intros q; by rewrite (mem_alloc _ _ _ _ _ M2)).
  split; [|split; [congruence|split; [|done]]].
  - assert (Hg : i = 2 * (i `div` 2) + i `mod` 2 /\ 0 <= i `mod` 2 < 2) by (Z.div_mod_to_equations; lia).
    unfold is_left, is_right in M2. set (g := i `div` 2) in *. clearbody g.
    assert (Hin : forall x, 1 <= x <= nelts h -> 1 <= renumber i j x <= nelts h) by (intros x Hx; unfold renumber; repeat case_decide; lia).
    split; rewrite ?En2, ?En; [apply (rep_nelts _ _ Hr)|..].
    + rewrite Em2, Em, (rep_min _ _ Hr). unfold exchange. clear - Hi. repeat (case_decide; try (exfalso; lia)); done.
    + intros x Hx. rewrite exchange_renumber, Hal2. apply (rep_alloc _ _ Hr); auto.
    + intros x Hx. rewrite !exchange_renumber, (mem_L _ _ _ _ _ M2). pose proof (Hin x Hx) as Hx'. destruct (HF _ Hx') as (HL & _ & _).
      rewrite (cond_upd_at Hr), HL by done. clear - Hi Hj Hg Hx. unfold renumber. repeat (case_decide; try (exfalso; lia)); subst; try done; f_equal; lia.
    + intros x Hx. rewrite !exchange_renumber, (mem_R _ _ _ _ _ M2). pose proof (Hin x Hx) as Hx'. destruct (HF _ Hx') as (_ & HR & _).
      rewrite (cond_upd_at Hr), HR by done. clear - Hi Hj Hg Hx. unfold renumber. repeat (case_decide; try (exfalso; lia)); subst; try done; f_equal; lia.
    + intros x Hx. rewrite !exchange_renumber, (mem_P _ _ _ _ _ M2). pose proof (Hin x Hx) as Hx'. destruct (HF _ Hx') as (_ & _ & ->).
      clear - Hi Hj Hg Hx. unfold renumber. Z.div_mod_to_equations.
      repeat (case_decide; try (exfalso; lia)); subst; try done; f_equal; lia.
    + intros x Hx. rewrite exchange_renumber. apply (rep_out _ _ Hr). unfold renumber. repeat case_decide; lia.
    + intros x y Hx Hy. rewrite !exchange_renumber. intros E. apply (rep_eq Hr) in E; [|auto]. revert E. unfold renumber. clear -Hi Hx Hy. repeat case_decide; lia.
  - intros q Hq. rewrite <- Hfr by done. apply (child_frame h1 h2 a i (a j) (a j) (in_heap h a) Hr); [lia|done..].
Qed.

(** ** Paths *)

(** The number of the node at the end of a path from node [i]. *)
Fixpoint descend (i path : Z) (k : nat) : Z :=
  match k with O => i | S k => descend (2 * i + path `mod` 2) (path `div` 2) k end.

Lemma lor_bit p n : 0 <= p -> Z.lor (2 * p) (n `mod` 2) = 2 * p + n `mod` 2.
Proof.
  intros Hp. assert (n `mod` 2 = 0 \/ n `mod` 2 = 1) as [->| ->] by (Z.div_mod_to_equations; lia).
  - by rewrite Z.lor_0_r, Z.add_0_r.
  - by destruct p.
Qed.

Lemma land_1 n : Z.land n 1 = n `mod` 2.
Proof. exact (Z.land_ones n 1 ltac:(lia)). Qed.

(** Computing a path from the number of a node leads back to it. *)
Lemma path_loop_spec fuel path k n : 1 <= n < 2 ^ Z.of_nat fuel -> 0 <= path < 2 ^ Z.of_nat k -> n * 2 ^ Z.of_nat k < 2 ^ 32 ->
  exists path' k', path_loop fuel path k n = Ok (path', k') /\ 0 <= path' /\ descend 1 path' k' = descend n path k.
Proof.
  revert path k n. induction fuel as [|fuel IH]; intros path k n Hn Hp Hb; [cbn in Hn; lia|]. cbn [path_loop].
  destruct (Z.geb_spec n 2) as [H2|H2]; [|exists path, k; split_and!; [done|lia|]; by replace n with 1 by lia].
  rewrite Z.shiftl_mul_pow2, Z.mul_comm by done. change (2 ^ 1) with 2.
  assert (Hk : 0 < 2 ^ Z.of_nat k) by (apply Z.pow_pos_nonneg; lia).
  rewrite u32_small by (unfold is_u32; nia). rewrite land_1, lor_bit by lia.
  rewrite Nat2Z.inj_succ, Z.pow_succ_r in Hn by lia.
  assert (Hd : n = 2 * (n `div` 2) + n `mod` 2 /\ 0 <= n `mod` 2 < 2) by (Z.div_mod_to_equations; lia).
  destruct (IH (2 * path + n `mod` 2) (S k) (n `div` 2)) as (p' & k' & E & Hp' & Hd');
    rewrite ?Nat2Z.inj_succ, ?Z.pow_succ_r by lia; [nia..|].
  exists p', k'. split_and!; [done|done|]. rewrite Hd'. cbn [descend].
  replace ((2 * path + n `mod` 2) `mod` 2) with (n `mod` 2) by (Z.div_mod_to_equations; lia).
  replace ((2 * path + n `mod` 2) `div` 2) with path by (Z.div_mod_to_equations; lia). f_equal. lia.
Qed.

Lemma descend_ge i path k : 1 <= i -> 0 <= path -> i <= descend i path k.
Proof.
  revert i path. induction k as [|k IH]; intros i path Hi Hp; cbn [descend]; [lia|].
  transitivity (2 * i + path `mod` 2); [|apply IH]; Z.div_mod_to_equations; lia.
Qed.

(** The slot that holds the node number [i]. *)
Definition slot_at (a : Z -> Z) (i : Z) : slot :=
  if i =? 1 then Root else if i `mod` 2 =? 0 then LeftOf (a (i `div` 2)) else RightOf (a (i `div` 2)).

Lemma load_at h a i : rep h a -> 1 <= i <= nelts h + 1 -> load h (slot_at a i) = Ok (a i).
Proof.
  intros Hr Hi. unfold slot_at. destruct (Z.eqb_spec i 1) as [->|H1]; [cbn; by rewrite (rep_min _ _ Hr)|].
  destruct (Z.eqb_spec (i `mod` 2) 0); cbn [load]; rewrite (rep_node Hr) by (Z.div_mod_to_equations; lia);
    cbn; do 2 f_equal; Z.div_mod_to_equations; lia.
Qed.

Lemma walk_spec h a : rep h a -> forall k i path parent,
  1 <= i -> 0 <= path -> descend i path k <= nelts h + 1 ->
  walk h parent (slot_at a i) path k = Ok (match k with O => parent | S _ => slot_at a (descend i path k `div` 2) end, slot_at a (descend i path k)).
Proof.
  intros Hr. induction k as [|k IH]; intros i path parent Hi Hp Hd; [done|]. cbn [walk descend] in *.
  assert (Hge : 2 * i <= descend (2 * i + path `mod` 2) (path `div` 2) k).
  { transitivity (2 * i + path `mod` 2); [|apply descend_ge]; Z.div_mod_to_equations; lia. }
  rewrite (load_at _ _ _ Hr) by lia. cbn [mbind outcome_bind]. rewrite (rep_node Hr) by lia. cbn [mbind outcome_bind].
  assert ((if Z.land path 1 =? 0 then LeftOf (a i) else RightOf (a i)) = slot_at a (2 * i + path `mod` 2)) as ->.
  { rewrite land_1. unfold slot_at. rewrite (proj2 (Z.eqb_neq _ 1)) by (Z.div_mod_to_equations; lia).
    replace ((2 * i + path `mod` 2) `mod` 2) with (path `mod` 2) by (Z.div_mod_to_equations; lia).
    by replace ((2 * i + path `mod` 2) `div` 2) with i by (Z.div_mod_to_equations; lia). }
  rewrite Z.shiftr_div_pow2 by done. change (2 ^ 1) with 2. rewrite IH; [|Z.div_mod_to_equations; lia..|done].
  destruct k; [|done]. cbn [descend]. do 3 f_equal. Z.div_mod_to_equations; lia.
Qed.

(** The walk from the root to the node number [n]. *)
Lemma walk_root h a n : rep h a -> 1 <= n <= nelts h + 1 -> n < 2 ^ 32 -> exists path k,
  path_loop path_fuel 0 0 n = Ok (path, k) /\
  walk h Root Root path k = Ok (if decide (n = 1) then Root else slot_at a (n `div` 2), slot_at a n).
Proof.
  intros Hr Hn Hb. destruct (path_loop_spec path_fuel 0 0 n) as (path & k & E & Hp & Hd); [change (2 ^ Z.of_nat path_fuel) with (2 ^ 32); lia|done|change (2 ^ Z.of_nat 0) with 1; lia|].
  exists path, k. split; [done|]. cbn [descend] in Hd. change Root with (slot_at a 1) at 2. rewrite (walk_spec _ _ Hr), Hd by lia.
  destruct k; cbn [descend] in Hd; [by subst|]. rewrite decide_False; [done|].
  pose proof (descend_ge (2 * 1 + path `mod` 2) (path `div` 2) k). Z.div_mod_to_equations. lia.
Qed.

(** ** Linking, unlinking and replacing nodes *)

Lemma rep_frame h h' a : rep h a -> frame h h' (fun q => ~ in_heap h a q) -> h_min h' = h_min h -> nelts h' = nelts h -> rep h' a.
Proof.
  intros Hr Hf Em En. assert (Hq : forall i, 1 <= i <= nelts h -> nodes h' !! a i = nodes h !! a i).
  { intros i Hi. apply Hf. intros H. apply H. by exists i. }
  split; rewrite ?Em, ?En; [apply (rep_nelts _ _ Hr)|apply (rep_min _ _ Hr)| | | | |apply (rep_out _ _ Hr)|apply (rep_inj _ _ Hr)];
    intros i Hi; unfold alloc, Lf, Rf, Pf; rewrite Hq by done; by apply Hr.
Qed.

Lemma store_at h a n v : rep h a -> 1 <= n <= nelts h + 1 -> exists h', store h (slot_at a n) v = Ok h' /\
  mem h h' (if decide (is_left n) then upd (Lf h) (a (n `div` 2)) v else Lf h)
           (if decide (is_right n) then upd (Rf h) (a (n `div` 2)) v else Rf h) (Pf h) /\
  h_min h' = (if decide (n = 1) then v else h_min h) /\ nelts h' = nelts h.
Proof.
  intros Hr Hn. unfold slot_at. destruct (Z.eqb_spec n 1) as [->|H1].
  { exists (h <| h_min := v |>). split; [done|]. rewrite decide_False, decide_False by (by intros [? _]). split; [split; done|done]. }
  destruct (rep_alloc _ _ Hr (n `div` 2)) as [_ Ha]; [Z.div_mod_to_equations; lia|]. rewrite (decide_False (P := n = 1)) by done.
  destruct (Z.eqb_spec (n `mod` 2) 0) as [E|E].
  - rewrite decide_True, decide_False by (done || by intros [_ ?]). by apply set_left_spec.
  - rewrite decide_False, decide_True by (done || by intros [_ ?]). by apply set_right_spec.
Qed.

(** A node whose links are prepared is linked into the first free place. *)
Lemma link_node_spec h a x : rep h a -> x <> 0 -> alloc h x -> ~ in_heap h a x ->
  Lf h x = 0 -> Rf h x = 0 -> Pf h x = a ((nelts h + 1) `div` 2) -> exists h',
  store h (slot_at a (nelts h + 1)) x = Ok h' /\ nelts h' = nelts h /\
  rep (h' <| nelts := nelts h + 1 |>) (upd a (nelts h + 1) x) /\
  frame h h' (in_heap h a) /\ (forall q, alloc h' q <-> alloc h q).
Proof.
  intros Hr Hx0 Hx Hnin HL HR HP. set (n := nelts h + 1) in *.
  pose proof (rep_nelts _ _ Hr) as Hn.
  destruct (store_at h a n x Hr) as (h' & -> & M & Em & En); [lia|]. exists h'. split; [done|]. split; [done|].
  assert (Hne : forall i, a i <> x).
  { intros i E. apply Hnin. exists i. split; [|done]. destruct (decide (1 <= i <= nelts h)); [done|].
    rewrite (rep_out _ _ Hr i) in E by done. congruence. }
  assert (Hn2 : n = 2 * (n `div` 2) + n `mod` 2 /\ 0 <= n `mod` 2 < 2) by (Z.div_mod_to_equations; lia).
  assert (Hold : forall i, i <> n -> upd a n x i = a i) by (intros i Hi; unfold upd; by rewrite decide_False).
  assert (Hnew : upd a n x n = x) by (unfold upd; by rewrite decide_True).
  split; [|split; [apply (child_frame h h' a n x x _ Hr); [lia|done..]|apply (mem_alloc _ _ _ _ _ M)]].
  set (g := n `div` 2) in *. clearbody g. assert (En' : n = nelts h + 1) by done. clearbody n.
  split; unfold alloc; cbn [nelts h_min nodes set_field].
  - lia.
  - rewrite Em. goal_decide E; [by rewrite <- E, Hnew|]. rewrite Hold by done. apply (rep_min _ _ Hr).
  - intros i Hi. change (upd a n x i <> 0 /\ alloc h' (upd a n x i)). rewrite (mem_alloc _ _ _ _ _ M).
    destruct (decide (i = n)) as [->|Hi']; [by rewrite Hnew|]. rewrite Hold by done. apply (rep_alloc _ _ Hr). lia.
  - intros i Hi. change (Lf h' (upd a n x i) = upd a n x (2 * i)). rewrite (mem_L _ _ _ _ _ M).
    destruct (decide (i = n)) as [->|Hi'].
    + rewrite Hnew, Hold, (rep_out _ _ Hr (2 * n)) by lia. goal_decide Hd; [|done]. unfold upd. rewrite decide_False; [done|]. intros E. by apply (Hne g).
    + rewrite Hold by done. rewrite (cond_upd_at Hr) by lia. rewrite (rep_L _ _ Hr) by lia. unfold is_left. goal_decide E.
      * unfold upd. rewrite decide_True; [done|lia].
      * rewrite Hold; [done|lia].
  - intros i Hi. change (Rf h' (upd a n x i) = upd a n x (2 * i + 1)). rewrite (mem_R _ _ _ _ _ M).
    destruct (decide (i = n)) as [->|Hi'].
    + rewrite Hnew, Hold, (rep_out _ _ Hr (2 * n + 1)) by lia. goal_decide Hd; [|done]. unfold upd. rewrite decide_False; [done|]. intros E. by apply (Hne g).
    + rewrite Hold by done. rewrite (cond_upd_at Hr) by lia. rewrite (rep_R _ _ Hr) by lia. unfold is_right. goal_decide E.
      * unfold upd. rewrite decide_True; [done|lia].
      * rewrite Hold; [done|lia].
  - intros i Hi. change (Pf h' (upd a n x i) = upd a n x (i `div` 2)). rewrite (mem_P _ _ _ _ _ M).
    rewrite (Hold (i `div` 2)) by (Z.div_mod_to_equations; lia). destruct (decide (i = n)) as [->|Hi'].
    + rewrite Hnew, HP. f_equal. Z.div_mod_to_equations; lia.
    + rewrite Hold by done. apply (rep_P _ _ Hr). lia.
  - intros i Hi. rewrite Hold by lia. apply (rep_out _ _ Hr). lia.
  - intros i j Hi Hj. destruct (decide (i = n)) as [->|Hi'], (decide (j = n)) as [->|Hj'];
      rewrite ?Hnew, ?Hold by done; intros E; [done|by destruct (Hne j)|by destruct (Hne i)|apply (rep_inj _ _ Hr); [lia|lia|done]].
Qed.

(** The last node is unlinked. *)
Lemma unlink_spec h a : rep h a -> 1 <= nelts h -> exists h',
  store h (slot_at a (nelts h)) 0 = Ok h' /\ nelts h' = nelts h /\
  rep (h' <| nelts := nelts h - 1 |>) (upd a (nelts h) 0) /\
  frame h h' (in_heap h a) /\ (forall q, alloc h' q <-> alloc h q).
Proof.
  intros Hr Hn. destruct (store_at h a (nelts h) 0 Hr) as (h' & -> & M & Em & En); [lia|]. exists h'. split; [done|]. split; [done|].
  remember (nelts h) as n eqn:En'. assert (Hn2 : n = 2 * (n `div` 2) + n `mod` 2 /\ 0 <= n `mod` 2 < 2) by (Z.div_mod_to_equations; lia).
  assert (Hold : forall i, i <> n -> upd a n 0 i = a i) by (intros i Hi; unfold upd; by rewrite decide_False).
  split; [|split; [apply (child_frame h h' a n 0 0 _ Hr); [lia|done..]|apply (mem_alloc _ _ _ _ _ M)]].
  set (g := n `div` 2) in *. clearbody g.
  split; unfold alloc; cbn [nelts h_min nodes set_field].
  - lia.
  - rewrite Em. goal_decide E; [by rewrite E; unfold upd; rewrite decide_True|]. rewrite Hold by done. apply (rep_min _ _ Hr).
  - intros i Hi. change (upd a n 0 i <> 0 /\ alloc h' (upd a n 0 i)). rewrite (mem_alloc _ _ _ _ _ M), Hold by lia.
    apply (rep_alloc _ _ Hr). lia.
  - intros i Hi. change (Lf h' (upd a n 0 i) = upd a n 0 (2 * i)). rewrite (mem_L _ _ _ _ _ M), Hold, (cond_upd_at Hr), (rep_L _ _ Hr) by lia.
    unfold is_left. goal_decide E; [unfold upd; rewrite decide_True; [done|lia]|rewrite Hold; [done|lia]].
  - intros i Hi. change (Rf h' (upd a n 0 i) = upd a n 0 (2 * i + 1)). rewrite (mem_R _ _ _ _ _ M), Hold, (cond_upd_at Hr), (rep_R _ _ Hr) by lia.
    unfold is_right. goal_decide E; [unfold upd; rewrite decide_True; [done|lia]|rewrite Hold; [done|lia]].
  - intros i Hi. change (Pf h' (upd a n 0 i) = upd a n 0 (i `div` 2)). rewrite (mem_P _ _ _ _ _ M), !Hold by (Z.div_mod_to_equations; lia).
    apply (rep_P _ _ Hr). lia.
  - intros i Hi. unfold upd. goal_decide Hd; [done|]. apply (rep_out _ _ Hr). lia.
  - intros i j Hi Hj. rewrite !Hold by lia. apply (rep_inj _ _ Hr); lia.
Qed.

(** A node outside of the heap takes the place of the node number [j]. *)
Lemma heap_replace_spec h a j c : rep h a -> 1 <= j <= nelts h -> c <> 0 -> alloc h c -> ~ in_heap h a c -> exists h',
  heap_replace h (a j) c = Ok h' /\ rep h' (upd a j c) /\ nelts h' = nelts h /\
  frame h h' (fun q => in_heap h a q \/ q = c) /\ (forall q, alloc h' q <-> alloc h q).
Proof.
  intros Hr Hj Hc0 Hc Hnin. destruct (rep_alloc _ _ Hr j Hj) as [Hx0 Hx].
  assert (Hne : forall i, a i <> c).
  { intros i E. apply Hnin. exists i. split; [|done]. destruct (decide (1 <= i <= nelts h)); [done|].
    rewrite (rep_out _ _ Hr i) in E by done. congruence. }
  assert (Huc : forall f v i, upd f c v (a i) = f (a i)) by (intros f v i; unfold upd; by rewrite decide_False).
  assert (Hcu : forall f i v, upd f (a i) v c = f c) by (intros f i v; unfold upd; rewrite decide_False; [done|]; intros E; by apply (Hne i)).
  assert (Hcc : forall f v, upd f c v c = v) by (intros f v; unfold upd; by rewrite decide_True).
  unfold heap_replace. rewrite (rep_node Hr) by done. cbn [mbind outcome_bind hn_left].
  destruct (set_left_spec h c (a (2 * j)) Hc) as (h1 & -> & M1 & Em1 & En1). cbn [mbind outcome_bind].
  rewrite node_Ok by (by allocs). cbn [mbind outcome_bind hn_right]. fields. rewrite (rep_R _ _ Hr) by done.
  destruct (set_right_spec h1 c (a (2 * j + 1))) as (h2 & -> & M2 & Em2 & En2); [by allocs|]. cbn [mbind outcome_bind].
  rewrite node_Ok by (by allocs). cbn [mbind outcome_bind hn_parent]. fields. rewrite (rep_P _ _ Hr) by done.
  destruct (set_parent_spec h2 c (a (j `div` 2))) as (h3 & -> & M3 & Em3 & En3); [by allocs|]. cbn [mbind outcome_bind].
  rewrite node_Ok by (by allocs). cbn [mbind outcome_bind hn_left].
  assert (Lf h3 c = a (2 * j)) as -> by (fields; apply Hcc).
  destruct (set_parent_of_spec h3 (a (2 * j)) c) as (h4 & -> & M4 & Em4 & En4); [intros; allocs; by apply (alloc_at Hr)|]. cbn [mbind outcome_bind].
  rewrite node_Ok by (by allocs). cbn [mbind outcome_bind hn_right].
  assert (Rf h4 c = a (2 * j + 1)) as -> by (fields; apply Hcc).
  destruct (set_parent_of_spec h4 (a (2 * j + 1)) c) as (h5 & -> & M5 & Em5 & En5); [intros; allocs; by apply (alloc_at Hr)|]. cbn [mbind outcome_bind].
  rewrite node_Ok by (by allocs). cbn [mbind outcome_bind hn_parent].
  assert (HL : forall i, 1 <= i <= nelts h -> Lf h5 (a i) = a (2 * i)).
  { intros i Hi. fields. rewrite Huc. by apply (rep_L _ _ Hr). }
  assert (HR : forall i, 1 <= i <= nelts h -> Rf h5 (a i) = a (2 * i + 1)).
  { intros i Hi. fields. rewrite Huc. fields. by apply (rep_R _ _ Hr). }
  assert (HP : forall i, 1 <= i <= nelts h -> Pf h5 (a i) = if decide (i = 2 * j \/ i = 2 * j + 1) then c else a (i `div` 2)).
  { intros i Hi. fields. rewrite (upd_of_at Hr) by done. fields. rewrite (upd_of_at Hr) by done. fields. rewrite Huc. fields.
    rewrite (rep_P _ _ Hr) by done. clear. repeat (case_decide; try tauto). }
  assert (Hc5 : Lf h5 c = a (2 * j) /\ Rf h5 c = a (2 * j + 1) /\ Pf h5 c = a (j `div` 2)).
  { split_and!; fields; [apply Hcc|apply Hcc|]. goal_decide Hd; rewrite ?Hcu; fields; goal_decide Hd'; rewrite ?Hcu; fields; apply Hcc. }
  assert (Hal5 : forall q, alloc h5 q <-> alloc h q).
  { intros q. by rewrite (mem_alloc _ _ _ _ _ M5), (mem_alloc _ _ _ _ _ M4), (mem_alloc _ _ _ _ _ M3), (mem_alloc _ _ _ _ _ M2), (mem_alloc _ _ _ _ _ M1). }
  rewrite HP, decide_False by lia.
  assert (Hfr : frame h h5 (fun q => in_heap h a q \/ q = c)).
  { intros q Hq. assert (Hout : forall i, a i <> 0 -> q <> a i).
    { intros i Hi ->. apply Hq. left. exists i. rewrite (rep_null Hr) in Hi. split; [lia|done]. }
    assert (Hu : forall f v, upd f c v q = f q) by (intros f v; unfold upd; rewrite decide_False; tauto).
    assert (Hd : forall f y v, (if decide (a y = 0) then f else upd f (a y) v) q = f q).
    { intros f y v. destruct (decide (a y = 0)); [done|]. unfold upd. rewrite decide_False; auto. }
    apply mem_nodes; [done|fields..]; rewrite ?Hd; fields; rewrite ?Hd; fields; rewrite ?Hu; fields; done. }
  clear M5 M4 M3 M2 M1.
  destruct (replace_child_spec h h5 a j c Hr Hj Hal5) as (h' & -> & M & Em & En).
  { intros Hj1. apply HL. Z.div_mod_to_equations; lia. }
  exists h'. split; [done|]. assert (Hal : forall q, alloc h' q <-> alloc h q) by (intros q; by rewrite (mem_alloc _ _ _ _ _ M)).
  split; [|split; [congruence|split; [|done]]].
  2: { intros q Hq. rewrite <- Hfr by done. apply (child_frame h5 h' a j c c (fun q => in_heap h a q \/ q = c) Hr); [lia|by left|done|done]. }
  assert (Hg : j = 2 * (j `div` 2) + j `mod` 2 /\ 0 <= j `mod` 2 < 2) by (Z.div_mod_to_equations; lia).
  assert (Ecg : forall P `{!Decision P} f y v, (if decide P then upd f (a y) v else f) c = f c) by (intros P ? f y v; destruct (decide P); auto).
  assert (Hold : forall i, i <> j -> upd a j c i = a i) by (intros i Hi; unfold upd; by rewrite decide_False).
  assert (Hnew : upd a j c j = c) by (unfold upd; by rewrite decide_True).
  unfold is_left, is_right in M. assert (En' : nelts h' = nelts h) by congruence. split; rewrite ?En'.
  - apply (rep_nelts _ _ Hr).
  - rewrite Em. clear - Em5 Em4 Em3 Em2 Em1 Hr Hold Hnew. goal_decide E; [by rewrite <- E at 1; rewrite E|].
    rewrite Hold by done. rewrite <- (rep_min _ _ Hr). congruence.
  - intros i Hi. rewrite Hal. destruct (decide (i = j)) as [->|Hij]; [by rewrite Hnew|]. rewrite Hold by done. by apply (rep_alloc _ _ Hr).
  - intros i Hi. rewrite (mem_L _ _ _ _ _ M). destruct (decide (i = j)) as [->|Hij].
    + rewrite Hnew, Ecg, Hold by lia. apply Hc5.
    + rewrite Hold, (cond_upd_at Hr), HL by done. goal_decide E; [|by rewrite Hold by lia]. replace (2 * i) with j by lia. done.
  - intros i Hi. rewrite (mem_R _ _ _ _ _ M). destruct (decide (i = j)) as [->|Hij].
    + rewrite Hnew, Ecg, Hold by lia. apply Hc5.
    + rewrite Hold, (cond_upd_at Hr), HR by done. goal_decide E; [|by rewrite Hold by lia]. replace (2 * i + 1) with j by lia. done.
  - intros i Hi. rewrite (mem_P _ _ _ _ _ M). destruct (decide (i = j)) as [->|Hij].
    + rewrite Hnew, Hold by (Z.div_mod_to_equations; lia). apply Hc5.
    + rewrite Hold, HP by done. goal_decide E; [replace (i `div` 2) with j by (Z.div_mod_to_equations; lia); done|rewrite Hold; [done|Z.div_mod_to_equations; lia]].
  - intros i Hi. rewrite Hold by lia. by apply (rep_out _ _ Hr).
  - intros i k Hi Hk. destruct (decide (i = j)) as [->|Hij], (decide (k = j)) as [->|Hkj];
      rewrite ?Hnew, ?Hold by done; intros E; [done|by destruct (Hne k)|by destruct (Hne i)|by apply (rep_inj _ _ Hr)].
Qed.

(** ** Order *)

(** What a heap promises to its clients depends on [less_than] only through this
    interface: a strict weak order. *)
Class strict_weak (less_than : Z -> Z -> bool) : Prop := {
  less_asym : forall x y, less_than x y = true -> less_than y x = false;
  not_less_trans : forall x y z, less_than y x = false -> less_than z y = false -> less_than z x = false }.

Section sift.
Context (less_than : Z -> Z -> bool) `{!strict_weak less_than}.

(** [x] may stand above [y]. *)
Definition leq (x y : Z) : Prop := less_than y x = false.

Lemma leq_trans y x z : leq x y -> leq y z -> leq x z.
Proof using Type*. apply not_less_trans. Qed.
Lemma less_leq x y : less_than x y = true -> leq x y.
Proof using Type*. apply less_asym. Qed.

Definition ordered (a : Z -> Z) (n : Z) : Prop := forall i, 2 <= i <= n -> leq (a (i `div` 2)) (a i).

(** Ordered except for the node number [j]. *)
Definition hole (a : Z -> Z) (n j : Z) : Prop :=
  (forall i, 2 <= i <= n -> i <> j -> i `div` 2 <> j -> leq (a (i `div` 2)) (a i)) /\
  (forall i, 2 <= i <= n -> i `div` 2 = j -> 2 <= j -> leq (a (j `div` 2)) (a i)).
Definition below (a : Z -> Z) (n j : Z) : Prop := forall i, 2 <= i <= n -> i `div` 2 = j -> leq (a j) (a i).

Lemma ordered_hole a n j : ordered a n -> 1 <= j <= n -> hole a n j.
Proof using Type*.
  intros Ho Hj. split; [intros i Hi _ _; by apply Ho|]. intros i Hi <- Hj2. apply (leq_trans (a (i `div` 2))); apply Ho; lia.
Qed.

Lemma hole_ordered a n j : hole a n j -> below a n j -> (2 <= j -> leq (a (j `div` 2)) (a j)) -> ordered a n.
Proof using Type.
  intros [Ho _] Hb Hup i Hi. destruct (decide (i = j)) as [->|Hij]; [by apply Hup; lia|].
  destruct (decide (i `div` 2 = j)) as [E|E]; [rewrite E; by apply Hb|by apply Ho].
Qed.

Lemma ordered_root a n i : ordered a n -> 1 <= i <= n -> leq (a 1) (a i).
Proof using Type*.
  intros Ho Hi. revert Hi. induction (Z.lt_wf 0 i) as [i _ IH]. intros Hi. destruct (decide (i = 1)) as [->|H1].
  - unfold leq. destruct (less_than (a 1) (a 1)) eqn:E; [|done]. rewrite <- E. by apply less_asym.
  - apply (leq_trans (a (i `div` 2))); [apply IH|apply Ho; lia]; Z.div_mod_to_equations; lia.
Qed.

(** [refit h a h']: the operation moved nodes of the heap [h], and [h'] is ordered. *)
Record refit (h : heap) (a : Z -> Z) (h' : heap) (a' : Z -> Z) : Prop := {
  rf_rep : rep h' a';
  rf_nelts : nelts h' = nelts h;
  rf_in : forall q, in_heap h' a' q <-> in_heap h a q;
  rf_frame : frame h h' (in_heap h a);
  rf_alloc : forall q, alloc h' q <-> alloc h q }.

Lemma refit_refl h a : rep h a -> refit h a h a.
Proof using Type. intros Hr. by split. Qed.

Lemma refit_trans h a h1 a1 h2 a2 : refit h a h1 a1 -> refit h1 a1 h2 a2 -> refit h a h2 a2.
Proof using Type.
  intros [? En Hi Hf Ha] [? En2 Hi2 Hf2 Ha2]. split; [done|congruence|naive_solver|intros q Hq|naive_solver].
  rewrite Hf2 by (by rewrite Hi). by apply Hf.
Qed.

Lemma swap_refit h a j : rep h a -> 2 <= j <= nelts h -> exists h',
  heap_node_swap h (a (j `div` 2)) (a j) = Ok h' /\ refit h a h' (exchange a (j `div` 2) j).
Proof using Type.
  intros Hr Hj. destruct (heap_node_swap_spec h a j Hr Hj) as (h' & E & Hr' & En & Hf & Ha). exists h'. split; [done|].
  split; try done. assert (Hi : 1 <= j `div` 2 <= nelts h) by (Z.div_mod_to_equations; lia). set (i := j `div` 2) in *.
  intros q. unfold in_heap. rewrite En. split; intros (k & Hk & <-); exists (renumber i j k);
    (split; [unfold renumber; repeat case_decide; lia|]); rewrite ?exchange_renumber; [done|f_equal].
  unfold renumber. clearbody i. clear -Hi Hj Hk. repeat (case_decide; try lia).
Qed.

Lemma sift_up_spec fuel h a j : rep h a -> 1 <= j <= nelts h -> (Z.to_nat j < fuel)%nat -> hole a (nelts h) j -> below a (nelts h) j ->
  exists h' a', sift_up less_than fuel h (a j) = Ok h' /\ refit h a h' a' /\ ordered a' (nelts h').
Proof using Type*.
  revert h a j. induction fuel as [|fuel IH]; intros h a j Hr Hj Hf Hh Hb; [lia|]. cbn [sift_up].
  rewrite (rep_node Hr) by done. cbn [mbind outcome_bind hn_parent].
  destruct (Z.eqb_spec (a (j `div` 2)) 0) as [E|E]; rewrite (rep_null Hr) in E; cbn [negb andb].
  { exists h, a. split_and!; [done|by apply refit_refl|]. apply (hole_ordered a _ j); [done|done|]. intros Hj2. Z.div_mod_to_equations; lia. }
  assert (Hj2 : 2 <= j) by (Z.div_mod_to_equations; lia).
  destruct (less_than (a j) (a (j `div` 2))) eqn:El.
  2: { exists h, a. split_and!; [done|by apply refit_refl|]. by apply (hole_ordered a _ j). }
  destruct (swap_refit h a j Hr) as (h1 & -> & H1); [lia|]. cbn [mbind outcome_bind].
  set (i := j `div` 2) in *. set (a1 := exchange a i j) in *.
  assert (Hi : 1 <= i < j /\ j `div` 2 = i) by (unfold i; Z.div_mod_to_equations; lia).
  assert (Ei : a1 i = a j) by (unfold a1, exchange; by rewrite decide_True).
  assert (Ej : a1 j = a i) by (unfold a1, exchange; rewrite decide_False, decide_True; [done..|lia]).
  assert (Eo : forall k, k <> i -> k <> j -> a1 k = a k) by (intros k Hki Hkj; unfold a1, exchange; by rewrite !decide_False).
  clearbody a1. rewrite <- Ei.
  destruct (IH h1 a1 i) as (h2 & a2 & -> & H2 & Ho); rewrite ?(rf_nelts _ _ _ _ H1); [apply H1|lia|lia| | |].
  - destruct Hh as [Hh1 Hh2]. split.
    + intros k Hk Hki Hkp. destruct (decide (k = j)) as [->|Hkj]; [lia|]. rewrite (Eo k) by done.
      destruct (decide (k `div` 2 = j)) as [E'|E']; [rewrite E', Ej; apply (Hh2 k); [done|done|lia]|].
      rewrite Eo by done. by apply Hh1.
    + intros k Hk Hki Hi2. rewrite (Eo (i `div` 2)) by (Z.div_mod_to_equations; lia).
      assert (Hup : leq (a (i `div` 2)) (a i)) by (apply Hh1; [lia|lia|Z.div_mod_to_equations; lia]).
      destruct (decide (k = j)) as [->|Hkj]; [by rewrite Ej|]. rewrite Eo by (done || Z.div_mod_to_equations; lia).
      apply (leq_trans (a i)); [done|]. rewrite <- Hki. apply Hh1; [done|done|lia].
  - intros k Hk Hki. rewrite Ei. destruct (decide (k = j)) as [->|Hkj]; [rewrite Ej; by apply less_leq|].
    rewrite Eo by (done || Z.div_mod_to_equations; lia). apply (leq_trans (a i)); [by apply less_leq|]. rewrite <- Hki. apply Hh; [done|done|lia].
  - exists h2, a2. split_and!; [done|by eapply refit_trans|done].
Qed.

(** The smallest of a node and its children. *)
Lemma smallest_spec h a j : rep h a -> 1 <= j <= nelts h -> exists c,
  smallest_of less_than h (a j) = Ok (a c) /\ (c = j \/ 2 <= c <= nelts h /\ c `div` 2 = j /\ leq (a c) (a j)) /\
  forall i, 2 <= i <= nelts h -> i `div` 2 = j -> leq (a c) (a i).
Proof using Type*.
  intros Hr Hj. unfold smallest_of. rewrite (rep_node Hr) by done. cbn [mbind outcome_bind hn_left hn_right].
  assert (Hnull : forall i, 1 <= i -> negb (a i =? 0) = bool_decide (i <= nelts h)).
  { intros i Hi. destruct (Z.eqb_spec (a i) 0) as [E|E]; rewrite (rep_null Hr) in E; case_bool_decide; lia || done. }
  rewrite !Hnull by lia.
  assert (Hself : forall i, leq (a i) (a i)).
  { intros i. unfold leq. destruct (less_than (a i) (a i)) eqn:E; [|done]. rewrite <- E. by apply less_asym. }
  assert (Hch : forall i, i `div` 2 = j -> i = 2 * j \/ i = 2 * j + 1) by (intros i; Z.div_mod_to_equations; lia).
  assert (Hpar : (2 * j) `div` 2 = j /\ (2 * j + 1) `div` 2 = j) by (Z.div_mod_to_equations; lia).
  destruct (bool_decide (2 * j <= nelts h) && less_than (a (2 * j)) (a j)) eqn:El.
  - apply andb_true_iff in El as [H2j%bool_decide_eq_true Hl].
    destruct (bool_decide (2 * j + 1 <= nelts h) && less_than (a (2 * j + 1)) (a (2 * j))) eqn:Er.
    + apply andb_true_iff in Er as [Hrj%bool_decide_eq_true Hlr]. exists (2 * j + 1). split; [done|]. apply less_leq in Hlr.
      split; [right; split_and!; [lia|lia|apply Hpar|]|].
      * apply (leq_trans (a (2 * j))); [done|by apply less_leq].
      * intros i Hi [->| ->]%Hch; done.
    + exists (2 * j). split; [done|]. split; [right; split_and!; [lia|lia|apply Hpar|by apply less_leq]|].
      intros i Hi [->| ->]%Hch; [done|]. rewrite bool_decide_true in Er by lia. by cbn in Er.
  - assert (Hlj : 2 * j <= nelts h -> leq (a j) (a (2 * j))) by (intros H; rewrite bool_decide_true in El by done; by cbn in El).
    destruct (bool_decide (2 * j + 1 <= nelts h) && less_than (a (2 * j + 1)) (a j)) eqn:Er.
    + apply andb_true_iff in Er as [Hrj%bool_decide_eq_true Hlr%less_leq]. exists (2 * j + 1). split; [done|].
      split; [right; split_and!; [lia|lia|apply Hpar|done]|].
      intros i Hi [->| ->]%Hch; [|done]. apply (leq_trans (a j)); [done|by apply Hlj; lia].
    + exists j. split; [done|]. split; [by left|]. intros i Hi [->| ->]%Hch; [by apply Hlj; lia|].
      rewrite bool_decide_true in Er by lia. by cbn in Er.
Qed.

Lemma sift_down_spec fuel h a j : rep h a -> 1 <= j <= nelts h -> (Z.to_nat (nelts h - j) < fuel)%nat -> hole a (nelts h) j ->
  exists h' a' j', sift_down less_than fuel h (a j) = Ok h' /\ refit h a h' a' /\ 1 <= j' <= nelts h' /\ a' j' = a j /\
    hole a' (nelts h') j' /\ below a' (nelts h') j'.
Proof using Type*.
  revert h a j. induction fuel as [|fuel IH]; intros h a j Hr Hj Hf Hh; [lia|]. cbn [sift_down].
  destruct (smallest_spec h a j Hr Hj) as (c & -> & Hc & Hmin). cbn [mbind outcome_bind].
  destruct (Z.eqb_spec (a c) (a j)) as [E|E].
  { apply (rep_eq Hr) in E; [|lia]. subst c. exists h, a, j. split; [done|]. split; [by apply refit_refl|]. by repeat (split; [done|]). }
  destruct Hc as [->|(Hc & Hcj & Hle)]; [done|].
  destruct (swap_refit h a c Hr Hc) as (h1 & E1 & H1). rewrite Hcj in E1, H1. rewrite E1. cbn [mbind outcome_bind].
  set (a1 := exchange a j c) in *. assert (Hjc : 1 <= j < c) by (Z.div_mod_to_equations; lia).
  assert (Ej : a1 j = a c) by (unfold a1, exchange; by rewrite decide_True).
  assert (Ec : a1 c = a j) by (unfold a1, exchange; rewrite decide_False, decide_True; [done..|lia]).
  assert (Eo : forall k, k <> j -> k <> c -> a1 k = a k) by (intros k Hki Hkj; unfold a1, exchange; by rewrite !decide_False).
  clearbody a1. rewrite <- Ec. destruct Hh as [Hh1 Hh2].
  destruct (IH h1 a1 c) as (h2 & a2 & j' & -> & H2 & Hj' & Ej' & Hh' & Hb'); rewrite ?(rf_nelts _ _ _ _ H1); [apply H1|lia|lia| |].
  - split.
    + intros k Hk Hkc Hkp. destruct (decide (k = j)) as [->|Hkj].
      * rewrite Ej, Eo by (Z.div_mod_to_equations; lia). apply Hh2; [lia|done|lia].
      * rewrite (Eo k) by done. destruct (decide (k `div` 2 = j)) as [E'|E']; [rewrite E', Ej; by apply Hmin|].
        rewrite Eo by done. by apply Hh1.
    + intros k Hk Hkc _. rewrite Hcj, Ej, Eo by (Z.div_mod_to_equations; lia). rewrite <- Hkc. apply Hh1; [done|Z.div_mod_to_equations; lia|lia].
  - exists h2, a2, j'. split_and!; [done|by eapply refit_trans|lia|lia|done..].
Qed.

(** ** Abstract specification *)

(** The heap holds the set [S] of nodes. *)
Definition holds (h : heap) (S : gset Z) : Prop :=
  exists a, rep h a /\ ordered a (nelts h) /\ forall q, q ∈ S <-> in_heap h a q.

Lemma in_heap_seq h a q : rep h a -> in_heap h a q <-> q ∈ a <$> seqZ 1 (nelts h).
Proof using Type.
  intros Hr. rewrite list_elem_of_fmap. setoid_rewrite elem_of_seqZ. unfold in_heap.
  split; intros (i & Hi); exists i; [destruct Hi; split; [done|lia]|destruct Hi as [-> ?]; split; [lia|done]].
Qed.

Lemma holds_size h S : holds h S -> nelts h = Z.of_nat (size S).
Proof using Type.
  intros (a & Hr & _ & HS). assert (S = list_to_set (a <$> seqZ 1 (nelts h))) as ->.
  { apply set_eq. intros q. by rewrite HS, (in_heap_seq _ _ _ Hr), elem_of_list_to_set. }
  rewrite size_list_to_set, length_fmap, length_seqZ; [pose proof (rep_nelts _ _ Hr); lia|].
  apply NoDup_fmap_2_strong; [|apply NoDup_seqZ]. intros i j Hi Hj. rewrite elem_of_seqZ in Hi, Hj. apply (rep_inj _ _ Hr); lia.
Qed.

Lemma store_nelts h s v m : store (h <| nelts := m |>) s v = h' ← store h s v; Ok (h' <| nelts := m |>).
Proof using Type.
  destruct s as [|p|p]; [done|..]; unfold store, set_left, set_right, node, put; cbn; destruct (nodes h !! p) as [x|] eqn:E; cbn; rewrite ?E; done.
Qed.

Lemma load_nelts h s m : load (h <| nelts := m |>) s = load h s.
Proof using Type. by destruct s. Qed.

Lemma holds_empty h : holds h ∅ <-> h_min h = 0 /\ nelts h = 0.
Proof using Type.
  split.
  - intros Hh. pose proof (holds_size _ _ Hh) as En. destruct Hh as (a & Hr & _). change (nelts h = 0) in En.
    split; [|done]. rewrite (rep_min _ _ Hr). apply (rep_out _ _ Hr). lia.
  - intros [Em En]. exists (fun _ => 0). split; [split; rewrite ?En; intros; done || lia|].
    split; [intros i Hi; lia|]. intros q. unfold in_heap. split; [by intros ?%elem_of_empty|]. intros (i & Hi & _). lia.
Qed.

Lemma min_spec h S : holds h S -> if decide (S = ∅) then heap_min h = 0 else heap_min h ∈ S /\ heap_min h <> 0 /\ forall y, y ∈ S -> leq (heap_min h) y.
Proof using Type*.
  intros Hh. case_decide as E; [subst; by apply holds_empty in Hh as [? _]|]. pose proof (holds_size _ _ Hh) as En.
  destruct Hh as (a & Hr & Ho & HS). unfold heap_min. rewrite (rep_min _ _ Hr).
  assert (1 <= nelts h).
  { destruct (decide (size S = 0%nat)) as [E0|]; [|lia]. apply size_empty_inv in E0. by rewrite leibniz_equiv_iff in E0. }
  split; [apply HS; exists 1; split; [lia|done]|]. split; [apply (rep_alloc _ _ Hr); lia|].
  intros y (i & Hi & <-)%HS. apply (ordered_root a (nelts h)); [done|lia].
Qed.

(** Preparing the links of the node to insert. *)
Lemma clear_links h x : alloc h x -> exists h',
  (h1 ← set_left h x 0; h2 ← set_right h1 x 0; set_parent h2 x 0) = Ok h' /\
  mem h h' (upd (Lf h) x 0) (upd (Rf h) x 0) (upd (Pf h) x 0) /\ h_min h' = h_min h /\ nelts h' = nelts h.
Proof using Type.
  intros Hx. destruct (set_left_spec h x 0 Hx) as (h1 & -> & M1 & Em1 & En1). cbn [mbind outcome_bind].
  destruct (set_right_spec h1 x 0) as (h2 & -> & M2 & Em2 & En2); [by allocs|]. cbn [mbind outcome_bind].
  destruct (set_parent_spec h2 x 0) as (h3 & -> & M3 & Em3 & En3); [by allocs|]. exists h3. split; [done|].
  split; [|split; congruence]. split; intros q; fields; unfold upd; fields; [|done..].
  by rewrite (mem_alloc _ _ _ _ _ M3), (mem_alloc _ _ _ _ _ M2), (mem_alloc _ _ _ _ _ M1).
Qed.

Lemma insert_spec h S x : holds h S -> x ∉ S -> x <> 0 -> alloc h x -> Z.of_nat (size S) + 1 < 2 ^ 32 -> exists h',
  heap_insert less_than h x = Ok h' /\ holds h' ({[x]} ∪ S) /\ frame h h' (.∈ {[x]} ∪ S) /\ (forall q, alloc h' q <-> alloc h q).
Proof using Type*.
  intros Hh HxS Hx0 Hx Hb. pose proof (holds_size _ _ Hh) as Esz. destruct Hh as (a & Hr & Ho & HS). pose proof (rep_nelts _ _ Hr) as Hn.
  assert (Hnin : ~ in_heap h a x) by (by rewrite <- HS).
  unfold heap_insert. destruct (clear_links h x Hx) as (h1 & E1 & M1 & Em1 & En1).
  destruct (set_left h x 0) as [h01|]; [|done]. cbn [mbind outcome_bind] in *.
  destruct (set_right h01 x 0) as [h02|]; [|done]. cbn [mbind outcome_bind] in *. rewrite E1. clear E1 h01 h02. cbn [mbind outcome_bind].
  assert (Hf1 : frame h h1 (eq x)).
  { intros q Hq. apply mem_nodes; [apply (mem_alloc _ _ _ _ _ M1)|fields..]; unfold upd; by rewrite decide_False by congruence. }
  assert (Hr1 : rep h1 a) by (apply (rep_frame h); [done| |done|done]; intros q Hq; apply Hf1; intros ->; tauto).
  rewrite u32_small by (unfold is_u32; lia). rewrite (Z.add_comm 1).
  destruct (walk_root h1 a (nelts h1 + 1) Hr1) as (path & k & -> & Hw); [lia|lia|]. cbn [mbind outcome_bind]. rewrite Hw. clear Hw. cbn [mbind outcome_bind].
  match goal with |- context [load h1 ?s] => assert (load h1 s = Ok (a ((nelts h1 + 1) `div` 2))) as -> end.
  { case_decide as E; [|apply (load_at _ _ _ Hr1); Z.div_mod_to_equations; lia]. cbn. rewrite (rep_min _ _ Hr1), E.
    by rewrite !(rep_out _ _ Hr1) by (Z.div_mod_to_equations; lia). }
  cbn [mbind outcome_bind]. destruct (set_parent_spec h1 x (a ((nelts h1 + 1) `div` 2))) as (h2 & -> & M2 & Em2 & En2); [by allocs|]. cbn [mbind outcome_bind].
  assert (Hf2 : frame h h2 (eq x)).
  { intros q Hq. rewrite <- Hf1 by done. apply mem_nodes; [apply (mem_alloc _ _ _ _ _ M2)|apply (mem_L _ _ _ _ _ M2)|apply (mem_R _ _ _ _ _ M2)|].
    rewrite (mem_P _ _ _ _ _ M2). unfold upd. by rewrite decide_False by congruence. }
  assert (Hr2 : rep h2 a) by (apply (rep_frame h); [done| |congruence|congruence]; intros q Hq; apply Hf2; intros ->; tauto).
  assert (Hin2 : forall q, in_heap h2 a q <-> q ∈ S) by (intros q; rewrite HS; unfold in_heap; by replace (nelts h2) with (nelts h) by congruence).
  assert (Hal2 : forall q, alloc h2 q <-> alloc h q) by (intros q; by rewrite (mem_alloc _ _ _ _ _ M2), (mem_alloc _ _ _ _ _ M1)).
  assert (Hux : forall f v, upd f x v x = v) by (intros f v; unfold upd; by rewrite decide_True).
  destruct (link_node_spec h2 a x Hr2 Hx0) as (h3 & E3 & En3 & Hr3 & Hf3 & Hal3);
    [by apply Hal2|by rewrite Hin2|fields; apply Hux|fields; apply Hux|rewrite (mem_P _ _ _ _ _ M2), Hux; by rewrite En2|].
  rewrite En2 in E3. rewrite E3. cbn [mbind outcome_bind]. rewrite En3, u32_small by (unfold is_u32; lia).
  set (n := nelts h2 + 1) in *. set (a3 := upd a n x) in *.
  assert (En : n = nelts h + 1) by (unfold n; congruence). clearbody n.
  assert (Hold : forall i, i <> n -> a3 i = a i) by (intros i Hi; unfold a3, upd; by rewrite decide_False).
  assert (Hnew : a3 n = x) by (unfold a3, upd; by rewrite decide_True). clearbody a3.
  destruct (sift_up_spec (Datatypes.S (Z.to_nat n)) (h3 <| nelts := n |>) a3 n Hr3) as (h' & a' & E' & Hrf & Ho'); cbn [nelts set_field]; [lia|lia| | |].
  { split; intros i Hi; [|Z.div_mod_to_equations; lia]. intros Hin Hip. rewrite !Hold by done. apply Ho. lia. }
  { intros i Hi E. Z.div_mod_to_equations; lia. }
  rewrite Hnew in E'. exists h'. split; [exact E'|].
  assert (Hin3 : forall q, in_heap (h3 <| nelts := n |>) a3 q <-> q ∈ {[x]} ∪ S).
  { intros q. rewrite elem_of_union, elem_of_singleton, HS. unfold in_heap. cbn [nelts set_field]. split.
    - intros (i & Hi & <-). destruct (decide (i = n)) as [->|Hi']; [by left|]. right. exists i. split; [lia|]. by rewrite Hold.
    - intros [->|(i & Hi & <-)]; [exists n; split; [lia|done]|]. exists i. split; [lia|]. rewrite Hold; [done|lia]. }
  split; [|split].
  - exists a'. split; [apply Hrf|]. split; [done|]. intros q. by rewrite (rf_in _ _ _ _ Hrf), Hin3.
  - intros q Hq. rewrite (rf_frame _ _ _ _ Hrf) by (by rewrite Hin3). rewrite <- Hf2 by set_solver. apply Hf3. rewrite Hin2. set_solver.
  - intros q. rewrite (rf_alloc _ _ _ _ Hrf). by rewrite <- Hal2, <- Hal3.
Qed.

(** The heap without its last node, which stays allocated outside of it. *)
Lemma unlinked h (S : gset Z) a : rep h a -> ordered a (nelts h) -> (forall q, q ∈ S <-> in_heap h a q) -> 1 <= nelts h -> exists h1,
  store (h <| nelts := nelts h - 1 |>) (slot_at a (nelts h)) 0 = Ok h1 /\ nelts h1 = nelts h - 1 /\ rep h1 (upd a (nelts h) 0) /\
  ordered (upd a (nelts h) 0) (nelts h1) /\ (forall q, in_heap h1 (upd a (nelts h) 0) q <-> q ∈ S ∖ {[a (nelts h)]}) /\
  frame h h1 (.∈ S) /\ (forall q, alloc h1 q <-> alloc h q).
Proof using Type.
  intros Hr Ho HS Hn. destruct (unlink_spec h a Hr Hn) as (h1 & E & En & Hr1 & Hf & Hal). rewrite store_nelts, E. cbn [mbind outcome_bind].
  assert (Hold : forall i, i <> nelts h -> upd a (nelts h) 0 i = a i) by (intros i Hi; unfold upd; by rewrite decide_False).
  exists (h1 <| nelts := nelts h - 1 |>). split_and!; [done|done|done| | | |exact Hal].
  - intros i Hi. cbn [nelts set_field] in Hi. rewrite !Hold by (Z.div_mod_to_equations; lia). apply Ho. lia.
  - intros q. rewrite elem_of_difference, elem_of_singleton, HS. unfold in_heap. cbn [nelts set_field]. split.
    + intros (i & Hi & <-). rewrite Hold by lia. split; [exists i; split; [lia|done]|]. intros E'. apply (rep_eq Hr) in E'; lia.
    + intros [(i & Hi & <-) Hne]. exists i. assert (i <> nelts h) by (intros ->; done). split; [lia|by apply Hold].
  - intros q Hq. apply Hf. by rewrite <- HS.
Qed.

Lemma remove_spec h S x : holds h S -> x ∈ S -> Z.of_nat (size S) < 2 ^ 32 -> exists h',
  heap_remove less_than h x = Ok h' /\ holds h' (S ∖ {[x]}) /\ frame h h' (.∈ S) /\ (forall q, alloc h' q <-> alloc h q).
Proof using Type*.
  intros Hh HxS Hb. pose proof (holds_size _ _ Hh) as Esz. destruct Hh as (a & Hr & Ho & HS).
  destruct (proj1 (HS x) HxS) as (j & Hj & <-). unfold heap_remove. rewrite (proj2 (Z.eqb_neq _ _)) by lia.
  destruct (walk_root h a (nelts h) Hr) as (path & k & -> & Hw); [lia|lia|]. cbn [mbind outcome_bind]. rewrite Hw. clear Hw. cbn [mbind outcome_bind].
  rewrite u32_small by (unfold is_u32; lia). rewrite load_nelts, (load_at _ _ _ Hr) by lia. cbn [mbind outcome_bind].
  destruct (unlinked h S a Hr Ho HS) as (h1 & -> & En1 & Hr1 & Ho1 & Hin1 & Hf1 & Hal1); [lia|]. cbn [mbind outcome_bind].
  set (n := nelts h) in *. set (a1 := upd a n 0) in *.
  assert (Hold : forall i, i <> n -> a1 i = a i) by (intros i Hi; unfold a1, upd; by rewrite decide_False).
  destruct (rep_alloc _ _ Hr n) as [Hc0 Hc]; [unfold n; lia|].
  destruct (Z.eqb_spec (a n) (a j)) as [E|E].
  { exists h1. rewrite (proj2 (Z.eqb_neq _ _)).
    - split; [done|]. split; [|split; done]. exists a1. split_and!; [done|done|]. intros q. by rewrite Hin1, E.
    - rewrite (rep_min _ _ Hr1). unfold a1, upd. case_decide as E1; [done|]. intros E'. apply (rep_eq Hr) in E'; [lia|unfold n; lia]. }
  assert (Hjn : 1 <= j < n) by (assert (j <> n) by congruence; unfold n in *; lia).
  destruct (heap_replace_spec h1 a1 j (a n) Hr1) as (h2 & E2 & Hr2 & En2 & Hf2 & Hal2); [lia|done|by apply Hal1|rewrite Hin1; set_solver|].
  rewrite Hold in E2 by lia. rewrite E2. cbn [mbind outcome_bind]. set (a2 := upd a1 j (a n)) in *.
  assert (Hold2 : forall i, i <> n -> i <> j -> a2 i = a i) by (intros i Hi Hi'; unfold a2, upd; rewrite decide_False by done; by apply Hold).
  assert (Hnew : a2 j = a n) by (unfold a2, upd; by rewrite decide_True). clearbody a2.
  assert (Hh2 : hole a2 (nelts h2) j).
  { destruct (ordered_hole a n j Ho) as [Hh1 Hh2]; [lia|]. split; intros i Hi Hij Hip; rewrite !Hold2 by (Z.div_mod_to_equations; lia).
    - apply Hh1; [lia|done|done].
    - apply Hh2; [lia|done|done]. }
  destruct (sift_down_spec (Datatypes.S (Z.to_nat (nelts h2))) h2 a2 j Hr2) as (h3 & a3 & j' & E3 & Hrf3 & Hj' & Ej' & Hh3 & Hb3); [lia|lia|done|].
  rewrite Hnew in E3, Ej'. rewrite E3. cbn [mbind outcome_bind]. rewrite <- Ej'.
  destruct (sift_up_spec (Datatypes.S (Z.to_nat (nelts h3))) h3 a3 j') as (h4 & a4 & E4 & Hrf4 & Ho4); [apply Hrf3|done|lia|done|done|].
  exists h4. split; [done|]. pose proof (refit_trans _ _ _ _ _ _ Hrf3 Hrf4) as Hrf.
  assert (Hin2 : forall q, in_heap h2 a2 q <-> q ∈ S ∖ {[a j]}).
  { intros q. rewrite elem_of_difference, elem_of_singleton, HS. unfold in_heap. rewrite En2, En1. fold n. split.
    - intros (i & Hi & <-). destruct (decide (i = j)) as [->|Hi'].
      + rewrite Hnew. split; [exists n; split; [lia|done]|done].
      + rewrite Hold2 by lia. split; [exists i; split; [lia|done]|]. intros E'. apply (rep_eq Hr) in E'; [lia|unfold n in *; lia].
    - intros [(i & Hi & <-) Hne]. assert (i <> j) by (intros ->; done). destruct (decide (i = n)) as [->|Hi'].
      + exists j. split; [lia|done].
      + exists i. split; [lia|by apply Hold2]. }
  split; [|split].
  - exists a4. split; [apply Hrf|]. split; [done|]. intros q. by rewrite (rf_in _ _ _ _ Hrf), Hin2.
  - intros q Hq. rewrite (rf_frame _ _ _ _ Hrf) by (rewrite Hin2; set_solver). rewrite <- Hf1 by done. apply Hf2.
    rewrite Hin1. intros [?|Heq]; [set_solver|]. apply Hq. rewrite Heq. apply HS. exists n. split; [unfold n in *; lia|done].
  - intros q. by rewrite (rf_alloc _ _ _ _ Hrf), Hal2, Hal1.
Qed.
End sift.

(** The order only matters between the nodes of the heap. *)
Lemma holds_ext lt lt' h S : (forall x y, x ∈ S -> y ∈ S -> lt x y = lt' x y) -> holds lt h S -> holds lt' h S.
Proof.
  intros Hext (a & Hr & Ho & HS). exists a. split_and!; [done| |done]. intros i Hi. unfold leq. rewrite <- Hext; [by apply Ho|..];
    apply HS; [exists i|exists (i `div` 2)]; (split; [Z.div_mod_to_equations; lia|done]).
Qed.

(** ** Claims *)

(** C29: the heap refines a set.  On a heap that holds the set [S] under a strict weak
    order, [heap_min] is the null pointer or a least element of [S];
    [heap_insert] of an allocated node terminates and gives a heap of [S] and
    the node; [heap_remove] of any node of [S], not only the least one,
    terminates and gives a heap of the rest.  In each case the tree is complete,
    all its pointers are consistent, every parent is at most its children and no
    memory outside of the heap is changed. *)
Theorem heap_refines_set (less_than : Z -> Z -> bool) `{!strict_weak less_than} (h : heap) (S : gset Z) :
  holds less_than h S -> Z.of_nat (size S) + 1 < 2 ^ 32 ->
  (if decide (S = ∅) then heap_min h = 0
   else heap_min h ∈ S /\ forall y, y ∈ S -> less_than y (heap_min h) = false) /\
  (forall x, x ∉ S -> x <> 0 -> alloc h x -> exists h', heap_insert less_than h x = Ok h' /\
     holds less_than h' ({[x]} ∪ S) /\ frame h h' (.∈ {[x]} ∪ S)) /\
  (forall x, x ∈ S -> exists h', heap_remove less_than h x = Ok h' /\
     holds less_than h' (S ∖ {[x]}) /\ frame h h' (.∈ S)).
Proof.
  intros Hh Hb. split_and!.
  - pose proof (min_spec less_than h S Hh) as Hm. case_decide; [done|]. split; [apply Hm|]. intros y Hy. by apply Hm.
  - intros x Hx Hx0 Hal. destruct (insert_spec less_than h S x) as (h' & E & Hh' & Hf & _); [done..|]. by exists h'.
  - intros x Hx. destruct (remove_spec less_than h S x) as (h' & E & Hh' & Hf & _); [done|done|lia|]. by exists h'.
Qed.

#[export] Instance ltb_strict_weak : strict_weak Z.ltb.
Proof. split; intros *; rewrite ?Z.ltb_lt, !Z.ltb_ge; lia. Qed.

Definition free_nodes : heap := mkHeap (list_to_map ((fun p => (p, mkNode 7 7 7)) <$> [1; 2; 3; 4])) 9 9.

Lemma heap_refines_set_witness :
  exists h, (h1 ← heap_insert Z.ltb (heap_init free_nodes) 3; heap_insert Z.ltb h1 1) = Ok h /\
    heap_min h = 1 /\ (exists h', heap_insert Z.ltb h 2 = Ok h' /\ holds Z.ltb h' {[2; 1; 3]}) /\
    (exists h', heap_remove Z.ltb h 1 = Ok h' /\ holds Z.ltb h' {[3]}).
Proof.
  destruct (insert_spec Z.ltb (heap_init free_nodes) ∅ 3) as (h1 & E1 & H1 & _ & A1); [by apply holds_empty|set_solver|done|by eexists|done|].
  rewrite E1. cbn [mbind outcome_bind].
  destruct (insert_spec Z.ltb h1 ({[3]} ∪ ∅) 1) as (h2 & E2 & H2 & _ & A2); [done|set_solver|done|apply A1; by eexists|done|].
  exists h2. split; [exact E2|].
  replace ({[1]} ∪ ({[3]} ∪ ∅)) with ({[1; 3]} : gset Z) in H2 by set_solver.
  destruct (heap_refines_set Z.ltb h2 {[1; 3]} H2) as (Hm & Hi & Hr); [done|].
  rewrite decide_False in Hm by set_solver. destruct Hm as [Hm1 Hm2]. split_and!.
  - apply elem_of_union in Hm1 as [?%elem_of_singleton|E%elem_of_singleton]; [done|]. specialize (Hm2 1 ltac:(set_solver)). by rewrite E in Hm2.
  - destruct (Hi 2) as (h' & E & Hh & _); [set_solver|done|apply A2, A1; by eexists|]. exists h'. split; [exact E|].
    by replace ({[2; 1; 3]} : gset Z) with ({[2]} ∪ {[1; 3]} : gset Z) by set_solver.
  - destruct (Hr 1) as (h' & E & Hh & _); [set_solver|]. exists h'. split; [exact E|].
    by replace ({[3]} : gset Z) with ({[1; 3]} ∖ {[1]} : gset Z) by set_solver.
Defined.
