(* ===== verification/UvTimer.v ===== *)
(** * Timers of libuv

    [unix/timer.c] on top of the heap: starting, stopping and repeating timers,
    the timeout the loop may sleep for, and [uv__run_timers], which calls what is
    due.  A handle is the address of its heap node ([container_of] is the
    identity); the callback of a timer may do anything to the loop. *)

From S2P Require Import Prelude Inet UvHeap.

(** ** State *)

Definition UV__HANDLE_ACTIVE : Z := 0x4000.
Definition UV__HANDLE_REF : Z := 0x2000.
Definition INT_MAX : Z := 2 ^ 31 - 1.

(** [uv_timer_t], less the heap node; a callback is a function pointer. *)
Record uv_timer_t := mkTimer {
  flags : Z; timer_cb : Z; timeout : Z; repeat_ : Z; start_id : Z }.
#[export] Instance eta_timer : Eta uv_timer_t := fun t =>
  mkTimer (flags t) (timer_cb t) (timeout t) (repeat_ t) (start_id t).

(** The part of [uv_loop_t] the timers use. *)
Record uv_loop_t := mkLoop {
  time : Z; timer_counter : Z; active_handles : Z; timer_heap : heap;
  timers : gmap Z uv_timer_t; handle_queue : list Z }.
#[export] Instance eta_loop : Eta uv_loop_t := fun l =>
  mkLoop (time l) (timer_counter l) (active_handles l) (timer_heap l) (timers l) (handle_queue l).

Definition deref (l : uv_loop_t) (h : Z) : outcome uv_timer_t :=
  match timers l !! h with Some t => Ok t | None => Crash NullDeref end.

Definition set_timer (l : uv_loop_t) (h : Z) (t : uv_timer_t) : uv_loop_t := l <| timers := <[h := t]> (timers l) |>.

Definition uv__is_active (t : uv_timer_t) : bool := negb (Z.land (flags t) UV__HANDLE_ACTIVE =? 0).
Definition uv__has_ref (t : uv_timer_t) : bool := negb (Z.land (flags t) UV__HANDLE_REF =? 0).

(** [uv__handle_start] and [uv__handle_stop]; their assertions on the closing
    flag, which is 0 on unix, always hold. *)
Definition uv__handle_start (l : uv_loop_t) (h : Z) : outcome uv_loop_t :=
  t ← deref l h;
  if uv__is_active t then Ok l else
  let l := set_timer l h (t <| flags := Z.lor (flags t) UV__HANDLE_ACTIVE |>) in
  Ok (if uv__has_ref t then l <| active_handles := u32 (active_handles l + 1) |> else l).

Definition uv__handle_stop (l : uv_loop_t) (h : Z) : outcome uv_loop_t :=
  t ← deref l h;
  if negb (uv__is_active t) then Ok l else
  let l := set_timer l h (t <| flags := Z.ldiff (flags t) UV__HANDLE_ACTIVE |>) in
  Ok (if uv__has_ref t then l <| active_handles := u32 (active_handles l - 1) |> else l).

(** [timer_less_than]; an address that is no timer is read as zeroes, which the
    heap operations never do. *)
Definition timer_key (l : gmap Z uv_timer_t) (h : Z) : Z * Z :=
  match l !! h with Some t => (timeout t, start_id t) | None => (0, 0) end.

Definition timer_less_than (l : gmap Z uv_timer_t) (ha hb : Z) : bool :=
  let '(ta, ia) := timer_key l ha in
  let '(tb, ib) := timer_key l hb in
  if ta <? tb then true else if tb <? ta then false
  else if ia <? ib then true else if ib <? ia then false else false.

(** ** Operations *)

(** [uv_timer_init] on an object of the program, whose fields hold [junk]. *)
Definition uv_timer_init (l : uv_loop_t) (h : Z) (junk : uv_timer_t) (node : heap_node) : uv_loop_t * Z :=
  let l := l <| handle_queue := handle_queue l ++ [h] |> in
  let l := l <| timer_heap := (timer_heap l) <| nodes := <[h := node]> (nodes (timer_heap l)) |> |> in
  (set_timer l h (junk <| flags := UV__HANDLE_REF |> <| timer_cb := 0 |> <| repeat_ := 0 |>), 0).

Definition uv_timer_stop (l : uv_loop_t) (h : Z) : outcome (uv_loop_t * Z) :=
  t ← deref l h;
  if negb (uv__is_active t) then Ok (l, 0) else
  hp ← heap_remove (timer_less_than (timers l)) (timer_heap l) h;
  l ← uv__handle_stop (l <| timer_heap := hp |>) h;
  Ok (l, 0).

Definition uv_timer_start (l : uv_loop_t) (h cb timeout_ repeat0 : Z) : outcome (uv_loop_t * Z) :=
  if cb =? 0 then Ok (l, UV_EINVAL) else
  t ← deref l h;
  '(l, _) ← (if uv__is_active t then uv_timer_stop l h else Ok (l, 0));
  let clamped := u64 (time l + timeout_) in
  let clamped := if clamped <? timeout_ then 2 ^ 64 - 1 else clamped in
  t ← deref l h;
  let l := set_timer l h (t <| timer_cb := cb |> <| timeout := clamped |> <| repeat_ := repeat0 |> <| start_id := timer_counter l |>) in
  let l := l <| timer_counter := u64 (timer_counter l + 1) |> in
  hp ← heap_insert (timer_less_than (timers l)) (timer_heap l) h;
  l ← uv__handle_start (l <| timer_heap := hp |>) h;
  Ok (l, 0).

Definition uv_timer_again (l : uv_loop_t) (h : Z) : outcome (uv_loop_t * Z) :=
  t ← deref l h;
  if timer_cb t =? 0 then Ok (l, UV_EINVAL) else
  if repeat_ t =? 0 then Ok (l, 0) else
  '(l, _) ← uv_timer_stop l h;
  t ← deref l h;
  '(l, _) ← uv_timer_start l h (timer_cb t) (repeat_ t) (repeat_ t);
  Ok (l, 0).

Definition uv_timer_set_repeat (l : uv_loop_t) (h repeat0 : Z) : outcome uv_loop_t :=
  t ← deref l h;
  Ok (set_timer l h (t <| repeat_ := repeat0 |>)).

Definition uv_timer_get_repeat (l : uv_loop_t) (h : Z) : outcome Z :=
  t ← deref l h;
  Ok (repeat_ t).

Definition uv__timer_close (l : uv_loop_t) (h : Z) : outcome uv_loop_t :=
  '(l, _) ← uv_timer_stop l h;
  Ok l.

Definition uv__next_timeout (l : uv_loop_t) : outcome Z :=
  let heap_node := heap_min (timer_heap l) in
  if heap_node =? 0 then Ok (-1) else
  t ← deref l heap_node;
  if timeout t <=? time l then Ok 0 else
  let diff := u64 (timeout t - time l) in
  Ok (i32 (if diff >? INT_MAX then INT_MAX else diff)).

(** [uv__run_timers]; [call cb h] is the effect of the callback [cb] of the timer
    [h] on the loop and on the rest of the program. *)
Section run.
Context {W : Type} (call : Z -> Z -> uv_loop_t -> W -> outcome (uv_loop_t * W)).

Fixpoint uv__run_timers (fuel : nat) (l : uv_loop_t) (w : W) : outcome (uv_loop_t * W) :=
  match fuel with
  | O => Crash OutOfFuel
  | S fuel =>
    let heap_node := heap_min (timer_heap l) in
    if heap_node =? 0 then Ok (l, w) else
    t ← deref l heap_node;
    if timeout t >? time l then Ok (l, w) else
    '(l, _) ← uv_timer_stop l heap_node;
    '(l, _) ← uv_timer_again l heap_node;
    t ← deref l heap_node;
    '(l, w) ← call (timer_cb t) heap_node l w;
    uv__run_timers fuel l w
  end.
End run.

(** ** Flags and order *)

Lemma land_active_lor f : Z.land (Z.lor f UV__HANDLE_ACTIVE) UV__HANDLE_ACTIVE <> 0.
Proof. rewrite Z.land_lor_distr_l. intros E%Z.lor_eq_0_iff. by destruct E. Qed.

Lemma ldiff_active f : Z.land (Z.ldiff f UV__HANDLE_ACTIVE) UV__HANDLE_ACTIVE = 0.
Proof. apply Z.bits_inj'. intros n Hn. rewrite Z.land_spec, Z.ldiff_spec, Z.bits_0. by destruct (Z.testbit f n), (Z.testbit UV__HANDLE_ACTIVE n). Qed.

Lemma ldiff_inactive f : Z.land f UV__HANDLE_ACTIVE = 0 -> Z.ldiff f UV__HANDLE_ACTIVE = f.
Proof.
  intros E. apply Z.bits_inj'. intros n Hn. rewrite Z.ldiff_spec. pose proof (Z.land_spec f UV__HANDLE_ACTIVE n) as H.
  rewrite E, Z.bits_0 in H. by destruct (Z.testbit f n), (Z.testbit UV__HANDLE_ACTIVE n).
Qed.

(** The timer [t] out of the heap, and in it. *)
Definition stopped (t : uv_timer_t) : uv_timer_t := t <| flags := Z.ldiff (flags t) UV__HANDLE_ACTIVE |>.
Definition started (t : uv_timer_t) : uv_timer_t := t <| flags := Z.lor (flags t) UV__HANDLE_ACTIVE |>.

Lemma is_active_stopped t : uv__is_active (stopped t) = false.
Proof. unfold uv__is_active, stopped. cbn [flags set_field]. by rewrite ldiff_active. Qed.

Lemma is_active_started t : uv__is_active (started t) = true.
Proof. unfold uv__is_active, started. cbn [flags set_field]. by rewrite (proj2 (Z.eqb_neq _ _) (land_active_lor _)). Qed.

Lemma stopped_inactive t : uv__is_active t = false -> stopped t = t.
Proof.
  unfold uv__is_active, stopped. intros E. apply negb_false_iff, Z.eqb_eq in E. destruct t as [fl cb ti re id]. cbn in *.
  by rewrite ldiff_inactive.
Qed.

#[export] Instance timer_less_than_weak l : strict_weak (timer_less_than l).
Proof.
  split; intros *; unfold timer_less_than; destruct (timer_key l x) as [tx ix], (timer_key l y) as [ty iy]; [|destruct (timer_key l z) as [tz iz]];
    repeat match goal with |- context [?a <? ?b] => destruct (Z.ltb_spec a b) end; intros; (done || lia).
Qed.

Lemma less_than_ext l l' x y : timer_key l x = timer_key l' x -> timer_key l y = timer_key l' y -> timer_less_than l x y = timer_less_than l' x y.
Proof. unfold timer_less_than. by intros -> ->. Qed.

Lemma less_than_false l x y tx ty : timer_less_than l y x = false -> l !! x = Some tx -> l !! y = Some ty -> timeout tx <= timeout ty.
Proof.
  unfold timer_less_than, timer_key. intros E Ex Ey. rewrite Ex, Ey in E.
  destruct (Z.ltb_spec (timeout ty) (timeout tx)); [done|lia].
Qed.

(** ** Invariant *)

(** [timers_ok l S]: the loop [l] with the set [S] of active timers. *)
Record timers_ok (l : uv_loop_t) (S : gset Z) : Prop := {
  ok_heap : holds (timer_less_than (timers l)) (timer_heap l) S;
  ok_active : forall h, h ∈ S <-> exists t, timers l !! h = Some t /\ uv__is_active t = true;
  ok_alloc : forall h t, timers l !! h = Some t -> h <> 0 /\ alloc (timer_heap l) h;
  ok_size : Z.of_nat (size (timers l)) + 1 < 2 ^ 32;
  ok_time : 0 <= time l < 2 ^ 64;
  ok_timer : forall h t, timers l !! h = Some t -> 0 <= repeat_ t < 2 ^ 64;
  ok_started : forall h t, h ∈ S -> timers l !! h = Some t -> timer_cb t <> 0 /\ 0 <= timeout t < 2 ^ 64 }.

Lemma ok_in {l S h} : timers_ok l S -> h ∈ S -> exists t, timers l !! h = Some t /\ uv__is_active t = true.
Proof. intros Hl. apply Hl. Qed.

Lemma ok_in_size {l S} : timers_ok l S -> Z.of_nat (size S) + 1 < 2 ^ 32.
Proof.
  intros Hl. pose proof (ok_size _ _ Hl). assert (S ⊆ dom (timers l)) as Hs%subseteq_size.
  { intros h (t & E & _)%(ok_in Hl). apply elem_of_dom. by exists t. }
  rewrite size_dom in Hs. lia.
Qed.

Lemma deref_Ok l h t : timers l !! h = Some t -> deref l h = Ok t.
Proof. unfold deref. by intros ->. Qed.

Lemma size_insert_same (m : gmap Z uv_timer_t) h t t' : m !! h = Some t -> size (<[h := t']> m) = size m.
Proof. intros E. apply map_size_insert_Some. by exists t. Qed.

(** Changing timers outside of the heap keeps the heap. *)
Lemma holds_insert m h t hp S : h ∉ S -> holds (timer_less_than m) hp S -> holds (timer_less_than (<[h := t]> m)) hp S.
Proof.
  intros Hh. apply holds_ext. intros x y Hx Hy. apply less_than_ext; unfold timer_key; by rewrite lookup_insert_ne by (intros ->; done).
Qed.

(** A change of one timer together with the heap keeps the invariant. *)
Lemma ok_update l S h t l' S' t' : timers_ok l S -> timers l !! h = Some t ->
  timers l' = <[h := t']> (timers l) -> time l' = time l -> holds (timer_less_than (timers l')) (timer_heap l') S' ->
  (forall q, alloc (timer_heap l') q <-> alloc (timer_heap l) q) ->
  (h ∈ S' <-> uv__is_active t' = true) -> (forall x, x <> h -> x ∈ S' <-> x ∈ S) -> 0 <= repeat_ t' < 2 ^ 64 ->
  (uv__is_active t' = true -> timer_cb t' <> 0 /\ 0 <= timeout t' < 2 ^ 64) -> timers_ok l' S'.
Proof.
  intros Hl E Et Etime Hh Hal Hin Hother Hrep Hst.
  assert (Hlk : forall x y, timers l' !! x = Some y -> x = h /\ y = t' \/ x <> h /\ timers l !! x = Some y).
  { intros x y. rewrite Et. destruct (decide (x = h)) as [->|Hne]; [rewrite lookup_insert_eq; naive_solver|rewrite lookup_insert_ne by done; auto]. }
  split; rewrite ?Etime; [done| | | |apply Hl| |].
  - intros x. rewrite Et. destruct (decide (x = h)) as [->|Hne].
    + rewrite Hin, lookup_insert_eq. naive_solver.
    + rewrite lookup_insert_ne, Hother by done. apply Hl.
  - intros x y [[-> ->]|[_ Ex]]%Hlk; rewrite Hal; by eapply (ok_alloc _ _ Hl).
  - rewrite Et, (size_insert_same _ _ t) by done. apply Hl.
  - intros x y [[-> ->]|[_ Ex]]%Hlk; [done|by apply (ok_timer _ _ Hl x)].
  - intros x y Hx [[-> ->]|[Hne Ex]]%Hlk; [by apply Hst, Hin|]. apply (ok_started _ _ Hl x); [by apply Hother|done].
Qed.

Lemma stop_spec l S h t : timers_ok l S -> timers l !! h = Some t -> exists l', uv_timer_stop l h = Ok (l', 0) /\
  timers_ok l' (S ∖ {[h]}) /\ timers l' = <[h := stopped t]> (timers l) /\ time l' = time l /\ timer_counter l' = timer_counter l /\
  (forall q, alloc (timer_heap l') q <-> alloc (timer_heap l) q).
Proof.
  intros Hl E. unfold uv_timer_stop. rewrite (deref_Ok _ _ _ E). cbn [mbind outcome_bind].
  destruct (uv__is_active t) eqn:Ea; cbn [negb].
  2: { assert (h ∉ S) by (intros (t' & E' & ?)%(ok_in Hl); congruence). exists l. rewrite stopped_inactive by done.
       rewrite insert_id by done. replace (S ∖ {[h]}) with S by set_solver. done. }
  assert (Hh : h ∈ S) by (apply Hl; by exists t). pose proof (ok_in_size Hl).
  destruct (remove_spec _ _ S h (ok_heap _ _ Hl) Hh) as (hp & -> & Hhp & _ & Hal); [lia|]. cbn [mbind outcome_bind].
  unfold uv__handle_stop. rewrite (deref_Ok _ h t) by exact E. cbn [mbind outcome_bind]. rewrite Ea. cbn [negb].
  eexists. split; [done|]. set (l' := if uv__has_ref t then _ else _).
  assert (timers l' = <[h := stopped t]> (timers l) /\ timer_heap l' = hp /\ time l' = time l /\ timer_counter l' = timer_counter l) as (Et & Eh & Etime & Ec)
    by (subst l'; by destruct (uv__has_ref t)).
  split_and!; [|done|done|done|by rewrite Eh]. clearbody l'. apply (ok_update l S h t l' _ (stopped t)); [done..| | | | | |]; rewrite ?Et, ?Eh, ?is_active_stopped.
  - apply holds_insert; [set_solver|done].
  - done.
  - set_solver.
  - set_solver.
  - by apply (ok_timer _ _ Hl h t).
  - done.
Qed.

(** Addition that stops at the largest time. *)
Definition saturated (a b : Z) : Z := Z.min (a + b) (2 ^ 64 - 1).

Lemma clamped_spec now d : 0 <= now < 2 ^ 64 -> 0 <= d < 2 ^ 64 ->
  (if u64 (now + d) <? d then 2 ^ 64 - 1 else u64 (now + d)) = saturated now d.
Proof.
  intros Hn Hd. unfold saturated. destruct (Z.lt_ge_cases (now + d) (2 ^ 64)) as [H|H].
  - unfold u64. rewrite Z.mod_small by lia. destruct (Z.ltb_spec (now + d) d); lia.
  - assert (u64 (now + d) = now + d - 2 ^ 64) as -> by (unfold u64; Z.div_mod_to_equations; lia).
    destruct (Z.ltb_spec (now + d - 2 ^ 64) d); lia.
Qed.

(** The timer [t] as [uv_timer_start] leaves it. *)
Definition armed (t : uv_timer_t) (now id cb d rep : Z) : uv_timer_t :=
  mkTimer (Z.lor (Z.ldiff (flags t) UV__HANDLE_ACTIVE) UV__HANDLE_ACTIVE) cb (saturated now d) rep id.

Lemma start_spec l S h t cb d rep : timers_ok l S -> timers l !! h = Some t -> cb <> 0 -> 0 <= d < 2 ^ 64 -> 0 <= rep < 2 ^ 64 ->
  exists l', uv_timer_start l h cb d rep = Ok (l', 0) /\ timers_ok l' ({[h]} ∪ S) /\
    timers l' = <[h := armed t (time l) (timer_counter l) cb d rep]> (timers l) /\ time l' = time l /\
    timer_counter l' = u64 (timer_counter l + 1).
Proof.
  intros Hl E Hcb Hd Hrep. unfold uv_timer_start. rewrite (proj2 (Z.eqb_neq _ _) Hcb), (deref_Ok _ _ _ E). cbn [mbind outcome_bind].
  match goal with |- context [if uv__is_active t then ?a else ?b] => assert (exists l1, (if uv__is_active t then a else b) = Ok (l1, 0) /\
    timers_ok l1 (S ∖ {[h]}) /\ timers l1 = <[h := stopped t]> (timers l) /\ time l1 = time l /\ timer_counter l1 = timer_counter l /\
    (forall q, alloc (timer_heap l1) q <-> alloc (timer_heap l) q)) as (l1 & -> & Hl1 & Et1 & Etime1 & Ec1 & Hal1) end.
  { destruct (uv__is_active t) eqn:Ea; [by apply stop_spec|]. exists l. split; [done|].
    assert (h ∉ S) by (intros (t' & E' & ?)%(ok_in Hl); congruence). rewrite stopped_inactive by done.
    rewrite insert_id by done. by replace (S ∖ {[h]}) with S by set_solver. }
  cbn [mbind outcome_bind]. rewrite (deref_Ok l1 h (stopped t)) by (by rewrite Et1, lookup_insert_eq). cbn [mbind outcome_bind].
  rewrite Etime1, clamped_spec, Ec1 by (done || apply Hl).
  set (t1 := (stopped t) <| timer_cb := cb |> <| timeout := _ |> <| repeat_ := rep |> <| start_id := _ |>).
  assert (Est : started t1 = armed t (time l) (timer_counter l) cb d rep) by done.
  match goal with |- context [heap_insert (timer_less_than ?m) ?hp h] => change m with (<[h := t1]> (timers l1)); change hp with (timer_heap l1) end.
  pose proof (ok_in_size Hl1) as Hsz. assert (E1 : timers l1 !! h = Some (stopped t)) by (by rewrite Et1, lookup_insert_eq).
  destruct (insert_spec (timer_less_than (<[h := t1]> (timers l1))) (timer_heap l1) (S ∖ {[h]}) h) as (hp & -> & Hhp & _ & Hal);
    [apply holds_insert; [set_solver|apply Hl1]|set_solver|apply (ok_alloc _ _ Hl1 h _ E1)..|done|].
  cbn [mbind outcome_bind]. unfold uv__handle_start. rewrite (deref_Ok _ h t1) by apply lookup_insert_eq. cbn [mbind outcome_bind].
  replace (uv__is_active t1) with false by (symmetry; apply (is_active_stopped t)). eexists. split; [done|].
  set (l' := if uv__has_ref t1 then _ else _).
  assert (timers l' = <[h := started t1]> (<[h := t1]> (timers l1)) /\ timer_heap l' = hp /\ time l' = time l1 /\ timer_counter l' = u64 (timer_counter l1 + 1))
    as (Et & Eh & Etime & Ec) by (subst l'; by destruct (uv__has_ref t1)).
  clearbody l'. rewrite Et1, !insert_insert_eq, Est in Et. rewrite Ec1 in Ec. split; [|by rewrite Etime].
  apply (ok_update l S h t l' _ (armed t (time l) (timer_counter l) cb d rep)); [done|done|done|by rewrite Etime|..]; rewrite ?Eh, <- ?Est, ?is_active_started.
  - replace ({[h]} ∪ S) with ({[h]} ∪ S ∖ {[h]}) by (apply set_eq; intros x; destruct (decide (x = h)); set_solver).
    revert Hhp. apply holds_ext. intros x y _ _.
    apply less_than_ext; rewrite Et; unfold timer_key; rewrite Et1, insert_insert_eq, !lookup_insert; by case_decide.
  - intros q. by rewrite Hal.
  - set_solver.
  - set_solver.
  - done.
  - intros _. split; [done|]. cbn. unfold saturated. pose proof (ok_time _ _ Hl). lia.
Qed.

(** ** Running timers *)

(** The timer [t] after it fired. *)
Definition fired_timer (l : uv_loop_t) (t : uv_timer_t) : uv_timer_t :=
  if repeat_ t =? 0 then stopped t
  else armed (stopped t) (time l) (timer_counter l) (timer_cb t) (repeat_ t) (repeat_ t).

Lemma fire_spec l S h t : timers_ok l S -> h ∈ S -> timers l !! h = Some t -> exists l',
  ('(l, _) ← uv_timer_stop l h; '(l, _) ← uv_timer_again l h; Ok l) = Ok l' /\
  timers_ok l' (if repeat_ t =? 0 then S ∖ {[h]} else S) /\
  timers l' = <[h := fired_timer l t]> (timers l) /\ time l' = time l.
Proof.
  intros Hl Hh E. destruct (stop_spec l S h t Hl E) as (l1 & -> & Hl1 & Et1 & Etime1 & Ec1 & _). cbn [mbind outcome_bind].
  assert (E1 : timers l1 !! h = Some (stopped t)) by (by rewrite Et1, lookup_insert_eq).
  destruct (ok_started _ _ Hl h t Hh E) as [Hcb _]. pose proof (ok_timer _ _ Hl h t E) as Hrep.
  unfold uv_timer_again. rewrite (deref_Ok _ _ _ E1). cbn [mbind outcome_bind].
  change (timer_cb (stopped t)) with (timer_cb t). change (repeat_ (stopped t)) with (repeat_ t). rewrite (proj2 (Z.eqb_neq _ _) Hcb).
  unfold fired_timer. destruct (repeat_ t =? 0) eqn:Er; [by exists l1|].
  destruct (stop_spec l1 _ h _ Hl1 E1) as (l2 & -> & Hl2 & Et2 & Etime2 & Ec2 & _). cbn [mbind outcome_bind].
  rewrite stopped_inactive in Et2 by apply is_active_stopped. rewrite insert_id in Et2 by done.
  assert (E2 : timers l2 !! h = Some (stopped t)) by (by rewrite Et2). rewrite (deref_Ok _ _ _ E2). cbn [mbind outcome_bind].
  change (timer_cb (stopped t)) with (timer_cb t). change (repeat_ (stopped t)) with (repeat_ t).
  destruct (start_spec l2 _ h _ (timer_cb t) (repeat_ t) (repeat_ t) Hl2 E2 Hcb Hrep Hrep) as (l3 & -> & Hl3 & Et3 & Etime3 & _).
  cbn [mbind outcome_bind]. exists l3. split; [done|].
  replace ({[h]} ∪ ((S ∖ {[h]}) ∖ {[h]})) with S in Hl3 by (apply set_eq; intros x; destruct (decide (x = h)); set_solver).
  split; [done|]. split; [|congruence]. rewrite Et3, Et2, Et1, insert_insert_eq. by rewrite Etime2, Etime1, Ec2, Ec1.
Qed.

(** The next timer to run. *)
Lemma next_timer l S : timers_ok l S ->
  if decide (S = ∅) then heap_min (timer_heap l) = 0
  else exists t, heap_min (timer_heap l) ∈ S /\ heap_min (timer_heap l) <> 0 /\ timers l !! heap_min (timer_heap l) = Some t /\
    forall y, y ∈ S -> timer_less_than (timers l) y (heap_min (timer_heap l)) = false.
Proof.
  intros Hl. pose proof (min_spec _ _ _ (ok_heap _ _ Hl)) as Hm. case_decide; [done|]. destruct Hm as (Hin & Hne & Hle).
  destruct (ok_in Hl Hin) as (t & E & _). by exists t.
Qed.

(** A timer that is due. *)
Definition due (l : uv_loop_t) (h : Z) : Prop := exists t, timers l !! h = Some t /\ timeout t <= time l.
#[export] Instance due_dec l h : Decision (due l h).
Proof.
  unfold due. destruct (timers l !! h) as [t|]; [|right; by intros (? & ? & _)].
  destruct (decide (timeout t <= time l)); [left; by exists t|right; intros (? & [= <-] & ?); done].
Defined.
Definition cb_of (l : uv_loop_t) (h : Z) : Z := from_option timer_cb 0 (timers l !! h).

(** One round of [uv__run_timers]. *)
Lemma run_step {W} (call : Z -> Z -> uv_loop_t -> W -> outcome (uv_loop_t * W)) fuel l w S : timers_ok l S ->
  (uv__run_timers call (Datatypes.S fuel) l w = Ok (l, w) /\ forall h, h ∈ S -> ~ due l h) \/
  exists h t l', h ∈ S /\ timers l !! h = Some t /\ timeout t <= time l /\
    (forall y, y ∈ S -> timer_less_than (timers l) y h = false) /\
    timers_ok l' (if repeat_ t =? 0 then S ∖ {[h]} else S) /\ timers l' = <[h := fired_timer l t]> (timers l) /\ time l' = time l /\
    uv__run_timers call (Datatypes.S fuel) l w = '(l, w) ← call (timer_cb t) h l' w; uv__run_timers call fuel l w.
Proof.
  intros Hl. pose proof (next_timer l S Hl) as Hm. cbn [uv__run_timers]. case_decide as HS.
  { left. rewrite Hm. split; [done|]. rewrite HS. set_solver. }
  destruct Hm as (t & Hin & Hne & E & Hle). set (h := heap_min (timer_heap l)) in *. rewrite (proj2 (Z.eqb_neq _ _) Hne), (deref_Ok _ _ _ E). cbn [mbind outcome_bind].
  destruct (Z.gtb_spec (timeout t) (time l)) as [Hgt|Hdue].
  { left. split; [done|]. intros x Hx (tx & Ex & Hdx). pose proof (less_than_false _ _ _ _ _ (Hle x Hx) E Ex). lia. }
  right. destruct (fire_spec l S h t Hl Hin E) as (l' & Efire & Hl' & Et' & Etime'). exists h, t, l'. split_and!; try done.
  destruct (uv_timer_stop l h) as [[l1 r1]|]; [|done]. cbn [mbind outcome_bind] in *.
  destruct (uv_timer_again l1 h) as [[l2 r2]|]; [|done]. cbn [mbind outcome_bind] in *. injection Efire as ->.
  rewrite (deref_Ok l' h (fired_timer l t)) by (by rewrite Et', lookup_insert_eq). cbn [mbind outcome_bind].
  by replace (timer_cb (fired_timer l t)) with (timer_cb t) by (unfold fired_timer; by destruct (repeat_ t =? 0)).
Qed.

(** Fired timers are not due again. *)
Lemma fired_not_due l S t h : timers_ok l S -> timers l !! h = Some t -> time l < 2 ^ 64 - 1 -> uv__is_active (fired_timer l t) = true ->
  time l < timeout (fired_timer l t).
Proof.
  intros Hl E Hn. unfold fired_timer. destruct (Z.eqb_spec (repeat_ t) 0); [by rewrite is_active_stopped|]. intros _. cbn. unfold saturated.
  pose proof (ok_timer _ _ Hl h t E). lia.
Qed.

Section passive.
Context {W : Type} (effect : Z -> Z -> W -> W).

(** Callbacks that leave the timers alone. *)
Definition passive (cb h : Z) (l : uv_loop_t) (w : W) : outcome (uv_loop_t * W) := Ok (l, effect cb h w).

(** The effects of the callbacks of the timers [hs]. *)
Definition calls (l : uv_loop_t) (hs : list Z) (w : W) : W := fold_left (fun w h => effect (cb_of l h) h w) hs w.

Lemma calls_ext l l' hs w : (forall h, cb_of l h = cb_of l' h) -> calls l hs w = calls l' hs w.
Proof. intros He. unfold calls. revert w. induction hs as [|h hs IH]; intros w; [done|]. cbn. by rewrite IH, He. Qed.

(** What a timer that fired looks like, apart from its number. *)
Definition rearmed (l : uv_loop_t) (t t' : uv_timer_t) : Prop :=
  flags t' = flags (fired_timer l t) /\ timer_cb t' = timer_cb t /\ timeout t' = timeout (fired_timer l t) /\ repeat_ t' = repeat_ t.

Lemma rearmed_time l l' t t' : time l' = time l -> rearmed l' t t' -> rearmed l t t'.
Proof using Type. intros E. unfold rearmed, fired_timer. rewrite E. by destruct (repeat_ t =? 0). Qed.

Lemma run_passive fuel l S w : timers_ok l S -> time l < 2 ^ 64 - 1 -> (size (filter (due l) S) < fuel)%nat ->
  exists l' S' hs, uv__run_timers passive fuel l w = Ok (l', calls l hs w) /\ NoDup hs /\ (forall h, h ∈ hs <-> h ∈ S /\ due l h) /\
    StronglySorted (fun x y => timer_less_than (timers l) y x = false) hs /\
    timers_ok l' S' /\ time l' = time l /\ (forall h, h ∈ S' -> ~ due l' h) /\
    (forall h t, timers l !! h = Some t -> exists t', timers l' !! h = Some t' /\ if decide (h ∈ hs) then rearmed l t t' else t' = t).
Proof using Type.
  revert l S w. induction fuel as [|fuel IH]; intros l S w Hl Hn Hf; [lia|].
  destruct (run_step passive fuel l w S Hl) as [[E Hno]|(h & t & l1 & Hh & E & Hd & Hle & Hl1 & Et1 & Etime1 & ->)].
  { exists l, S, []. split_and!; try done; [constructor|intros h; split; [by intros ?%not_elem_of_nil|naive_solver]|constructor|].
    intros h t Et. exists t. split; [done|]. rewrite decide_False; [done|apply not_elem_of_nil]. }
  set (S1 := if repeat_ t =? 0 then S ∖ {[h]} else S) in *.
  change (passive (timer_cb t) h l1 w) with (Ok (l1, effect (timer_cb t) h w)). cbn [mbind outcome_bind].
  assert (Hh1 : ~ (h ∈ S1 /\ due l1 h)).
  { intros [Hin (t1 & E1 & Hd1)]. destruct (ok_in Hl1 Hin) as (t1' & E1' & Ha). rewrite Et1, lookup_insert_eq in E1, E1'. simplify_eq.
    pose proof (fired_not_due l S t h Hl E Hn Ha). lia. }
  assert (Hsame : forall x, x <> h -> timers l1 !! x = timers l !! x) by (intros x Hx; by rewrite Et1, lookup_insert_ne).
  assert (HS1 : forall x, x <> h -> x ∈ S1 <-> x ∈ S) by (intros x Hx; unfold S1; destruct (repeat_ t =? 0); set_solver).
  assert (Hdue : forall x, x <> h -> due l1 x <-> due l x) by (intros x Hx; unfold due; by rewrite Hsame, Etime1).
  destruct (IH l1 S1 (effect (timer_cb t) h w) Hl1) as (l2 & S2 & hs & -> & Hnd & Hin & Hso & Hl2 & Etime2 & Hno & Hfin); [by rewrite Etime1| |].
  { assert (filter (due l1) S1 ⊆ filter (due l) S ∖ {[h]}) as Hsub%subseteq_size.
    { intros x [Hdx Hx]%elem_of_filter. assert (x <> h) by (intros ->; tauto).
      apply elem_of_difference. rewrite elem_of_filter, elem_of_singleton. split; [|done]. split; [by apply Hdue|by apply HS1]. }
    rewrite size_difference in Hsub by (apply singleton_subseteq_l, elem_of_filter; split; [by exists t|done]).
    rewrite size_singleton in Hsub. assert (0 < size (filter (due l) S))%nat; [|lia].
    apply Nat.neq_0_lt_0. intros E0%size_empty_inv. apply (not_elem_of_empty (C := gset Z) h), E0, elem_of_filter. split; [by exists t|done]. }
  assert (Hhs : h ∉ hs) by (by rewrite Hin).
  exists l2, S2, (h :: hs). split_and!; try done.
  - f_equal. f_equal. cbn. unfold cb_of at 2. rewrite E. cbn. apply calls_ext. intros x. unfold cb_of. rewrite Et1, lookup_insert.
    case_decide; [subst|done]. rewrite E. cbn. unfold fired_timer. by destruct (repeat_ t =? 0).
  - by constructor.
  - intros x. rewrite elem_of_cons, Hin. destruct (decide (x = h)) as [->|Hx].
    + split; [intros _; split; [done|by exists t]|by left].
    + rewrite HS1, Hdue by done. naive_solver.
  - constructor.
    + revert Hso. apply StronglySorted_weaken. intros x y Hx Hy Hxy. rewrite <- Hxy. apply less_than_ext; unfold timer_key; rewrite Hsame; congruence.
    + apply Forall_forall. intros x Hx. apply Hle. apply Hin in Hx as [Hx Hdx]. apply HS1; [intros ->; tauto|done].
  - congruence.
  - intros x tx Ex. destruct (decide (x = h)) as [->|Hx].
    + simplify_eq. destruct (Hfin h (fired_timer l t)) as (t' & E' & Ht'); [by rewrite Et1, lookup_insert_eq|]. exists t'. split; [done|].
      rewrite decide_False in Ht' by done. subst t'. rewrite decide_True by (by left). unfold rearmed, fired_timer. by destruct (repeat_ t =? 0).
    + destruct (Hfin x tx) as (t' & E' & Ht'); [by rewrite Hsame|]. exists t'. split; [done|].
      destruct (decide (x ∈ hs)); [rewrite decide_True by (by right); by apply (rearmed_time l l1)|].
      rewrite decide_False; [done|]. intros [?|?]%elem_of_cons; done.
Qed.
End passive.

(** ** Initialisation *)

(** A loop without timers at the time [now], as [uv_loop_init] leaves it. *)
Definition empty_loop (now : Z) : uv_loop_t := mkLoop now 0 0 (heap_init (mkHeap ∅ 0 0)) ∅ [].

Lemma empty_ok now : 0 <= now < 2 ^ 64 -> timers_ok (empty_loop now) ∅.
Proof.
  intros Hn. split; try done; [by apply holds_empty|]. intros h. split; [by intros ?%elem_of_empty|intros (t & E & _); cbn in E; by rewrite lookup_empty in E].
Qed.

Lemma init_spec l S h junk node : timers_ok l S -> timers l !! h = None -> h <> 0 -> Z.of_nat (size (timers l)) + 2 < 2 ^ 32 ->
  timers_ok (uv_timer_init l h junk node).1 S /\
  timers (uv_timer_init l h junk node).1 !! h = Some (junk <| flags := UV__HANDLE_REF |> <| timer_cb := 0 |> <| repeat_ := 0 |>).
Proof.
  intros Hl E Hh Hsz. cbn [uv_timer_init fst]. set (t := junk <| flags := UV__HANDLE_REF |> <| timer_cb := 0 |> <| repeat_ := 0 |>).
  set (l' := (set_timer _ h t)). assert (Et : timers l' = <[h := t]> (timers l)) by done.
  assert (Hnin : h ∉ S) by (intros (t' & E' & _)%(ok_in Hl); congruence). split; [|rewrite Et; apply lookup_insert_eq].
  assert (Hlk : forall x y, timers l' !! x = Some y -> x = h /\ y = t \/ x <> h /\ timers l !! x = Some y).
  { intros x y. rewrite Et. destruct (decide (x = h)) as [->|Hne]; [rewrite lookup_insert_eq; naive_solver|rewrite lookup_insert_ne by done; auto]. }
  split; [| | | |apply Hl| |].
  - rewrite Et. apply holds_insert; [done|]. destruct (ok_heap _ _ Hl) as (a & Hr & Ho & HS). exists a. split_and!; [|done|done].
    apply (rep_frame (timer_heap l)); [done| |done|done]. intros q Hq. cbn. rewrite lookup_insert_ne; [done|]. intros <-. apply Hq. by rewrite <- HS.
  - intros x. rewrite Et. destruct (decide (x = h)) as [->|Hne]; [rewrite lookup_insert_eq|by rewrite lookup_insert_ne, (ok_active _ _ Hl) by done].
    split; [done|]. intros (t' & [= <-] & Ha). by vm_compute in Ha.
  - intros x y Ex. unfold alloc. cbn. rewrite lookup_insert. apply Hlk in Ex as [[-> ->]|[Hne Ex]].
    + by rewrite decide_True.
    + rewrite decide_False by done. by apply (ok_alloc _ _ Hl x y).
  - rewrite Et, map_size_insert_None by done. lia.
  - intros x y [[-> ->]|[_ Ex]]%Hlk; [done|by apply (ok_timer _ _ Hl x)].
  - intros x y Hx [[-> ->]|[Hne Ex]]%Hlk; [done|]. by apply (ok_started _ _ Hl x).
Qed.

(** ** Claims *)

(** C30: running timers.  If the callbacks leave the timers alone, [uv__run_timers]
    terminates and calls exactly the timers that are active and due, each once,
    in the order of their time and, at the same time, of their start; afterwards
    the fired timers are stopped or, when they repeat, due [repeat]
    milliseconds from now, all others are as they were, and nothing active is
    due. *)
Theorem timers_run_in_order {W : Type} (effect : Z -> Z -> W -> W) (fuel : nat) (l : uv_loop_t) (S : gset Z) (w : W) :
  timers_ok l S -> time l < 2 ^ 64 - 1 -> (size S < fuel)%nat ->
  exists l' S' hs, uv__run_timers (passive effect) fuel l w = Ok (l', calls effect l hs w) /\
    NoDup hs /\ (forall h, h ∈ hs <-> h ∈ S /\ due l h) /\
    StronglySorted (fun x y => timer_less_than (timers l) y x = false) hs /\
    timers_ok l' S' /\ (forall h, h ∈ S' -> ~ due l' h) /\
    (forall h t, timers l !! h = Some t -> exists t', timers l' !! h = Some t' /\
       if decide (h ∈ hs)
       then uv__is_active t' = negb (repeat_ t =? 0) /\ (repeat_ t <> 0 -> timeout t' = saturated (time l) (repeat_ t)) /\
            timer_cb t' = timer_cb t /\ repeat_ t' = repeat_ t
       else t' = t).
Proof.
  intros Hl Hn Hf. destruct (run_passive effect fuel l S w Hl Hn) as (l' & S' & hs & E & Hnd & Hin & Hso & Hl' & _ & Hno & Hfin).
  { eapply Nat.le_lt_trans; [|exact Hf]. apply subseteq_size. intros x. by rewrite elem_of_filter; intros [_ ?]. }
  exists l', S', hs. split_and!; try done. intros h t Et. destruct (Hfin h t Et) as (t' & E' & Ht'). exists t'. split; [done|].
  case_decide; [|done]. destruct Ht' as (Hfl & Hcb & Hti & Hre). split_and!; [| |done|done].
  - unfold uv__is_active. rewrite Hfl. change (uv__is_active (fired_timer l t) = negb (repeat_ t =? 0)). unfold fired_timer.
    destruct (repeat_ t =? 0); [apply is_active_stopped|]. apply (is_active_started (stopped (stopped t))).
  - intros Hr. rewrite Hti. unfold fired_timer. by rewrite (proj2 (Z.eqb_neq _ _) Hr).
Qed.

(** Three timers of the callback 5: due at 10, due at 10 and repeating, not due. *)
Definition three_timers : outcome uv_loop_t :=
  let fresh := mkTimer 0 0 0 0 0 in let n := mkNode 0 0 0 in
  let '(l, _) := uv_timer_init (empty_loop 0) 1 fresh n in
  let '(l, _) := uv_timer_init l 2 fresh n in
  let '(l, _) := uv_timer_init l 3 fresh n in
  '(l, _) ← uv_timer_start l 2 5 10 7;
  '(l, _) ← uv_timer_start l 3 5 90 0;
  '(l, _) ← uv_timer_start l 1 5 10 0;
  Ok (l <| time := 12 |>).

Lemma set_time_ok l S now : timers_ok l S -> 0 <= now < 2 ^ 64 -> timers_ok (l <| time := now |>) S.
Proof. intros [] ?. by split. Qed.

Lemma three_timers_ok : exists l, three_timers = Ok l /\ timers_ok l {[1; 2; 3]} /\ time l = 12.
Proof.
  unfold three_timers. set (fresh := mkTimer 0 0 0 0 0). set (n := mkNode 0 0 0).
  destruct (init_spec (empty_loop 0) ∅ 1 fresh n) as [H1 _]; [by apply empty_ok|done..|]. cbn [uv_timer_init fst] in H1 |- *.
  match type of H1 with timers_ok ?l _ => destruct (init_spec l ∅ 2 fresh n) as [H2 _]; [done..|] end. cbn [uv_timer_init fst] in H2 |- *.
  match type of H2 with timers_ok ?l _ => destruct (init_spec l ∅ 3 fresh n) as [H3 _]; [done..|] end.
  cbn [uv_timer_init fst] in H3 |- *.
  match type of H3 with timers_ok ?l _ => destruct (start_spec l ∅ 2 (fresh <| flags := UV__HANDLE_REF |>) 5 10 7 H3) as (l4 & -> & H4 & E4 & T4 & _); [done..|] end.
  cbn [mbind outcome_bind].
  destruct (start_spec l4 _ 3 (fresh <| flags := UV__HANDLE_REF |>) 5 90 0 H4) as (l5 & -> & H5 & E5 & T5 & _); [by rewrite E4|done..|]. cbn [mbind outcome_bind].
  destruct (start_spec l5 _ 1 (fresh <| flags := UV__HANDLE_REF |>) 5 10 0 H5) as (l6 & -> & H6 & E6 & T6 & _); [by rewrite E5, E4|done..|]. cbn [mbind outcome_bind].
  eexists. split; [done|]. split; [|done]. apply set_time_ok; [|done].
  by replace ({[1; 2; 3]} : gset Z) with ({[1]} ∪ ({[3]} ∪ ({[2]} ∪ ∅)) : gset Z) by set_solver.
Qed.

Lemma timers_run_in_order_witness :
  exists l, three_timers = Ok l /\ exists l' hs, uv__run_timers (passive (fun _ h w => w ++ [h])) 4 l [] = Ok (l', calls (fun _ h w => w ++ [h]) l hs []) /\
    NoDup hs /\ (forall h, h ∈ hs <-> h ∈ ({[1; 2; 3]} : gset Z) /\ due l h).
Proof.
  destruct three_timers_ok as (l & E & Hl & Ht). exists l. split; [exact E|].
  destruct (timers_run_in_order (fun _ h w => w ++ [h]) 4 l {[1; 2; 3]} [] Hl) as (l' & S' & hs & E' & H1 & H2 & _); [by rewrite Ht|by vm_compute; repeat constructor|].
  exists l', hs. split_and!; assumption.
Defined.

(** On this loop the repeating timer, started first, runs before the other one. *)
Example three_timers_run : (l ← three_timers; '(_, w) ← uv__run_timers (passive (fun _ h w => w ++ [h])) 4 l []; Ok w) = Ok [2; 1].
Proof. by vm_compute. Qed.

(** C31: starvation.  As long as some timer is due and every callback starts its timer
    again with a timeout of 0, [uv__run_timers] never returns, for any bound on
    its rounds: the documentation of [uv_timer_start] says that such a timer
    fires on the next iteration of the loop. *)
Theorem run_timers_starves {W : Type} (fuel : nat) (l : uv_loop_t) (S : gset Z) (h : Z) (w : W) :
  timers_ok l S -> h ∈ S -> due l h ->
  uv__run_timers (fun cb h l w => '(l, _) ← uv_timer_start l h cb 0 0; Ok (l, w)) fuel l w = Crash OutOfFuel.
Proof.
  revert l S h. induction fuel as [|fuel IH]; intros l S h Hl Hh Hd; [done|].
  set (call := fun (cb h : Z) (l : uv_loop_t) (w : W) => '(l, _) ← uv_timer_start l h cb 0 0; Ok (l, w)) in *.
  destruct (run_step call fuel l w S Hl) as [[_ Hno]|(x & t & l1 & Hx & E & Hdx & _ & Hl1 & Et1 & Etime1 & ->)]; [by destruct (Hno h)|].
  destruct (ok_started _ _ Hl x t Hx E) as [Hcb _].
  destruct (start_spec l1 _ x (fired_timer l t) (timer_cb t) 0 0 Hl1) as (l2 & E2 & Hl2 & Et2 & Etime2 & _); [by rewrite Et1, lookup_insert_eq|done..|].
  change (call (timer_cb t) x l1 w) with ('(l, _) ← uv_timer_start l1 x (timer_cb t) 0 0; Ok (l, w)). rewrite E2. cbn [mbind outcome_bind]. apply (IH l2 _ x Hl2); [set_solver|].
  eexists. rewrite Et2, lookup_insert_eq. split; [done|]. cbn. unfold saturated. rewrite Etime2. pose proof (ok_time _ _ Hl1). lia.
Qed.

Lemma run_timers_starves_witness : exists l, three_timers = Ok l /\
  uv__run_timers (fun cb h l w => '(l, _) ← uv_timer_start l h cb 0 0; Ok (l, w)) 1000 l tt = Crash OutOfFuel.
Proof.
  destruct three_timers_ok as (l & E & Hl & Ht). exists l. split; [exact E|].
  apply (run_timers_starves 1000 l {[1; 2; 3]} 1 tt Hl); [set_solver|]. vm_compute in E. injection E as <-.
  eexists. split; [reflexivity|]. by vm_compute.
Defined.

(** The time to sleep.  [uv__next_timeout] returns -1 exactly when no timer is
    active; otherwise it returns the number of milliseconds until the first
    timer is due, at least 0 and at most [INT_MAX], so that no timer is due
    before the loop wakes up. *)
Theorem next_timeout_exact (l : uv_loop_t) (S : gset Z) : timers_ok l S ->
  exists r, uv__next_timeout l = Ok r /\
    if decide (S = ∅) then r = -1
    else 0 <= r <= INT_MAX /\ (forall h t, h ∈ S -> timers l !! h = Some t -> time l + r <= Z.max (time l) (timeout t)) /\
      (r < INT_MAX -> exists h, h ∈ S /\ due (l <| time := time l + r |>) h).
Proof.
  intros Hl. pose proof (next_timer l S Hl) as Hm. unfold uv__next_timeout. case_decide as HS.
  { rewrite Hm. by exists (-1). }
  destruct Hm as (t & Hin & Hne & E & Hle). set (h := heap_min (timer_heap l)) in *.
  rewrite (proj2 (Z.eqb_neq _ _) Hne), (deref_Ok _ _ _ E). cbn [mbind outcome_bind].
  assert (Hmin : forall x tx, x ∈ S -> timers l !! x = Some tx -> timeout t <= timeout tx).
  { intros x tx Hx Ex. exact (less_than_false _ _ _ _ _ (Hle x Hx) E Ex). }
  destruct (ok_started _ _ Hl h t Hin E) as [_ Ht]. pose proof (ok_time _ _ Hl) as Hn. unfold INT_MAX in *.
  destruct (Z.leb_spec (timeout t) (time l)) as [Hd|Hd].
  - exists 0. split; [done|]. split; [lia|]. split; [intros x tx Hx Ex; lia|]. intros _. exists h. split; [done|]. exists t. split; [done|]. cbn. lia.
  - unfold u64. rewrite Z.mod_small by lia. eexists. split; [done|]. destruct (Z.gtb_spec (timeout t - time l) (2 ^ 31 - 1)) as [Hg|Hg];
      rewrite i32_small by (unfold is_i32; lia).
    + split; [lia|]. split; [intros x tx Hx Ex; pose proof (Hmin x tx Hx Ex); lia|lia].
    + split; [lia|]. split; [intros x tx Hx Ex; pose proof (Hmin x tx Hx Ex); lia|]. intros _. exists h. split; [done|]. exists t. split; [done|]. cbn. lia.
Qed.

Lemma next_timeout_exact_witness : exists l, three_timers = Ok l /\ exists r, uv__next_timeout (l <| time := 4 |>) = Ok r /\ 0 <= r <= INT_MAX.
Proof.
  destruct three_timers_ok as (l & E & Hl & Ht). exists l. split; [exact E|].
  pose proof (set_time_ok l _ 4 Hl ltac:(lia)) as H4. destruct (next_timeout_exact _ _ H4) as (r & Er & Hr).
  exists r. destruct (decide (_ = ∅)) as [E0|_]; [by vm_compute in E0|]. split; [exact Er|apply Hr].
Defined.

(** Starting and stopping a timer.  [uv_timer_start] with a callback returns 0,
    makes the timer active whether or not it was, due [timeout] milliseconds from
    now (at most at 2^64 - 1: the addition cannot wrap around), numbered by the
    counter of the loop, which is incremented; [uv_timer_stop] returns 0 and makes it
    inactive.  Both change no other timer and keep the heap of the active timers.
    Without a callback, [uv_timer_start] returns [UV_EINVAL] and does nothing. *)
Theorem timer_start_stop (l : uv_loop_t) (S : gset Z) (h : Z) (t : uv_timer_t) (cb d rep : Z) :
  timers_ok l S -> timers l !! h = Some t -> 0 <= d < 2 ^ 64 -> 0 <= rep < 2 ^ 64 ->
  (if decide (cb = 0) then uv_timer_start l h cb d rep = Ok (l, UV_EINVAL)
   else exists l' t', uv_timer_start l h cb d rep = Ok (l', 0) /\ timers_ok l' ({[h]} ∪ S) /\ timers l' = <[h := t']> (timers l) /\
     timer_cb t' = cb /\ timeout t' = Z.min (time l + d) (2 ^ 64 - 1) /\ repeat_ t' = rep /\ start_id t' = timer_counter l /\
     timer_counter l' = u64 (timer_counter l + 1)) /\
  exists l' t', uv_timer_stop l h = Ok (l', 0) /\ timers_ok l' (S ∖ {[h]}) /\ timers l' = <[h := t']> (timers l) /\
    timeout t' = timeout t /\ repeat_ t' = repeat_ t /\ timer_cb t' = timer_cb t.
Proof.
  intros Hl E Hd Hrep. split.
  - case_decide as Hcb; [by subst|]. destruct (start_spec l S h t cb d rep Hl E Hcb Hd Hrep) as (l' & E' & Hl' & Et & _ & Ec).
    exists l', (armed t (time l) (timer_counter l) cb d rep). by split_and!.
  - destruct (stop_spec l S h t Hl E) as (l' & E' & Hl' & Et & _). exists l', (stopped t). by split_and!.
Qed.

Lemma timer_start_stop_witness : exists l, three_timers = Ok l /\ exists l' t', uv_timer_start l 3 5 (2 ^ 64 - 1) 0 = Ok (l', 0) /\
  timers_ok l' {[1; 2; 3]} /\ timers l' !! 3 = Some t' /\ timeout t' = 2 ^ 64 - 1.
Proof.
  destruct three_timers_ok as (l & E & Hl & Ht). exists l. split; [exact E|].
  assert (E3 : timers l !! 3 = Some (mkTimer 0x6000 5 90 0 1)) by (vm_compute in E; injection E as <-; reflexivity).
  destruct (timer_start_stop l {[1; 2; 3]} 3 _ 5 (2 ^ 64 - 1) 0 Hl E3) as [H _]; [lia|lia|]. destruct (decide (5 = 0)); [done|].
  destruct H as (l' & t' & E' & Hl' & Et & _ & Hti & _). exists l', t'. split; [exact E'|].
  replace ({[3]} ∪ {[1; 2; 3]} : gset Z) with ({[1; 2; 3]} : gset Z) in Hl' by (clear; set_solver). split; [exact Hl'|].
  split; [by rewrite Et, lookup_insert_eq|]. by rewrite Hti, Ht.
Defined.
