(* ===== verification/HiDict.v ===== *)
(** * The hash table of hiredis

    [hiredis/dict.c]: a table of chains of entries that doubles when it is full.
    Entries are objects of a store, linked by their [next] pointers; the functions
    of a [dictType] are arguments, and what they do to the rest of the program is
    a change of a world [W].  The table is shown to implement a finite map, for
    every hash function. *)

From S2P Require Import Prelude.

Definition DICT_OK : Z := 0.
Definition DICT_ERR : Z := 1.
Definition DICT_HT_INITIAL_SIZE : Z := 4.
Definition LONG_MAX : Z := 2 ^ 63 - 1.

(** [dictGenHashFunction]: the hash of the bytes of a key. *)
Definition dictGenHashFunction (buf : list Z) : Z :=
  fold_left (fun hash c => u32 (u32 (u32 (Z.shiftl hash 5) + hash) + c)) buf 5381.

(** [_dictNextPower] *)
Fixpoint next_power_loop (fuel : nat) (i size : Z) : outcome Z :=
  match fuel with
  | O => Crash OutOfFuel
  | S fuel => if i >=? size then Ok i else next_power_loop fuel (u64 (i * 2)) size
  end.

Definition _dictNextPower (size : Z) : outcome Z :=
  if size >=? LONG_MAX then Ok LONG_MAX else next_power_loop 63 DICT_HT_INITIAL_SIZE size.

Section dict.
Context {K V W : Type} `{EqDecision K}.

(** ** State *)

(** [dictEntry]; a pointer is an address, 0 the null pointer. *)
Record dictEntry := mkEntry { e_key : K; e_val : V; e_next : Z }.

(** [dictType]; [privdata] is part of the functions. *)
Record dictType := mkType {
  hashFunction : K -> Z;
  keyDup : option (K -> W -> K * W);
  valDup : option (V -> W -> V * W);
  keyCompare : option (K -> K -> bool);
  keyDestructor : option (K -> W -> W);
  valDestructor : option (V -> W -> W) }.

(** [dict] with the entries on the heap; [brk] is the next free address.  The null
    table is the empty one. *)
Record dict := mkDict {
  table : list Z; d_size : Z; sizemask : Z; used : Z; entries : gmap Z dictEntry; brk : Z }.
#[local] Instance eta_dict : Eta dict := fun d =>
  mkDict (table d) (d_size d) (sizemask d) (used d) (entries d) (brk d).
#[local] Instance eta_entry : Eta dictEntry := fun e => mkEntry (e_key e) (e_val e) (e_next e).

Context (ty : dictType).

(** ** Macros *)

Definition dictFreeEntryVal (e : dictEntry) (w : W) : W :=
  match valDestructor ty with Some f => f (e_val e) w | None => w end.
Definition dictFreeEntryKey (e : dictEntry) (w : W) : W :=
  match keyDestructor ty with Some f => f (e_key e) w | None => w end.
Definition dup_key (k : K) (w : W) : K * W := match keyDup ty with Some f => f k w | None => (k, w) end.
Definition dup_val (v : V) (w : W) : V * W := match valDup ty with Some f => f v w | None => (v, w) end.
Definition dictCompareHashKeys (k1 k2 : K) : bool :=
  match keyCompare ty with Some f => f k1 k2 | None => bool_decide (k1 = k2) end.
Definition dictHashKey (k : K) : Z := u32 (hashFunction ty k).

Definition entry (E : gmap Z dictEntry) (p : Z) : outcome dictEntry :=
  match E !! p with Some e => Ok e | None => Crash NullDeref end.
Definition slot_get (t : list Z) (i : Z) : outcome Z :=
  if i <? 0 then Crash OutOfBounds else
  match t !! Z.to_nat i with Some p => Ok p | None => Crash OutOfBounds end.
Definition slot_set (t : list Z) (i v : Z) : outcome (list Z) :=
  if i <? 0 then Crash OutOfBounds else
  match t !! Z.to_nat i with Some _ => Ok (<[Z.to_nat i := v]> t) | None => Crash OutOfBounds end.

(** ** Operations *)

Definition _dictReset (d : dict) : dict :=
  d <| table := [] |> <| d_size := 0 |> <| sizemask := 0 |> <| used := 0 |>.

(** [dictCreate], with the heap of entries of the program. *)
Definition dictCreate (E : gmap Z dictEntry) (b : Z) : dict := _dictReset (mkDict [] 0 0 0 E b).

(** The inner loop of [dictExpand]: the chain at [he] is moved to the new table. *)
Fixpoint rehash_chain (fuel : nat) (mask he : Z) (E : gmap Z dictEntry) (t : list Z) (u : Z) : outcome (gmap Z dictEntry * list Z * Z) :=
  match fuel with
  | O => Crash OutOfFuel
  | S fuel =>
    if he =? 0 then Ok (E, t, u) else
    e ← entry E he;
    let h := u32 (Z.land (dictHashKey (e_key e)) mask) in
    head ← slot_get t h;
    t ← slot_set t h he;
    rehash_chain fuel mask (e_next e) (<[he := e <| e_next := head |>]> E) t (u64 (u - 1))
  end.

(** The outer loop, from slot [i] on; [n] is the number of slots from there. *)
Fixpoint rehash_loop (n : nat) (old : list Z) (i mask : Z) (E : gmap Z dictEntry) (t : list Z) (u : Z) : outcome (gmap Z dictEntry * list Z * Z) :=
  match n with
  | O => Ok (E, t, u)
  | S n =>
    if u >? 0 then
      he ← slot_get old i;
      '(E, t, u) ← rehash_chain (S (size E)) mask he E t u;
      rehash_loop n old (i + 1) mask E t u
    else Ok (E, t, u)
  end.

Definition dictExpand (d : dict) (sz : Z) : outcome (dict * Z) :=
  realsize ← _dictNextPower sz;
  if used d >? sz then Ok (d, DICT_ERR) else
  '(E, t, u) ← rehash_loop (Z.to_nat (d_size d)) (table d) 0 (realsize - 1) (entries d) (replicate (Z.to_nat realsize) 0) (used d);
  _ ← c_assert (u =? 0);
  Ok (mkDict t realsize (realsize - 1) (used d) E (brk d), DICT_OK).

Definition _dictExpandIfNeeded (d : dict) : outcome (dict * Z) :=
  if d_size d =? 0 then dictExpand d DICT_HT_INITIAL_SIZE
  else if used d =? d_size d then dictExpand d (u64 (d_size d * 2))
  else Ok (d, DICT_OK).

(** The search of a chain for a key. *)
Fixpoint find_loop (fuel : nat) (E : gmap Z dictEntry) (key : K) (he : Z) : outcome Z :=
  match fuel with
  | O => Crash OutOfFuel
  | S fuel =>
    if he =? 0 then Ok 0 else
    e ← entry E he;
    if dictCompareHashKeys key (e_key e) then Ok he else find_loop fuel E key (e_next e)
  end.

Definition chain_fuel (d : dict) : nat := S (size (entries d)).

Definition _dictKeyIndex (d : dict) (key : K) : outcome (dict * Z) :=
  '(d, r) ← _dictExpandIfNeeded d;
  if r =? DICT_ERR then Ok (d, -1) else
  let h := u32 (Z.land (dictHashKey key) (sizemask d)) in
  he ← slot_get (table d) h;
  he ← find_loop (chain_fuel d) (entries d) key he;
  Ok (d, if he =? 0 then i32 h else -1).

Definition dictAdd (d : dict) (key : K) (val : V) (w : W) : outcome (dict * W * Z) :=
  '(d, index) ← _dictKeyIndex d key;
  if index =? -1 then Ok (d, w, DICT_ERR) else
  let p := brk d in
  head ← slot_get (table d) index;
  t ← slot_set (table d) index p;
  let '(k, w) := dup_key key w in
  let '(v, w) := dup_val val w in
  Ok (d <| table := t |> <| entries := <[p := mkEntry k v head]> (entries d) |> <| brk := p + 1 |> <| used := u64 (used d + 1) |>, w, DICT_OK).

Definition dictFind (d : dict) (key : K) : outcome Z :=
  if d_size d =? 0 then Ok 0 else
  let h := u32 (Z.land (dictHashKey key) (sizemask d)) in
  he ← slot_get (table d) h;
  find_loop (chain_fuel d) (entries d) key he.

Definition dictReplace (d : dict) (key : K) (val : V) (w : W) : outcome (dict * W * Z) :=
  '(d, w, r) ← dictAdd d key val w;
  if r =? DICT_OK then Ok (d, w, 1) else
  p ← dictFind d key;
  auxentry ← entry (entries d) p;
  let '(v, w) := dup_val val w in
  let d := d <| entries := <[p := auxentry <| e_val := v |>]> (entries d) |> in
  Ok (d, dictFreeEntryVal auxentry w, 0).

(** [free(de)] *)
Definition free_entry (d : dict) (p : Z) : dict := d <| entries := delete p (entries d) |>.

Fixpoint delete_loop (fuel : nat) (d : dict) (w : W) (key : K) (h prevde de : Z) : outcome (dict * W * Z) :=
  match fuel with
  | O => Crash OutOfFuel
  | S fuel =>
    if de =? 0 then Ok (d, w, DICT_ERR) else
    e ← entry (entries d) de;
    if dictCompareHashKeys key (e_key e) then
      d ← (if negb (prevde =? 0) then
             pe ← entry (entries d) prevde;
             Ok (d <| entries := <[prevde := pe <| e_next := e_next e |>]> (entries d) |>)
           else t ← slot_set (table d) h (e_next e); Ok (d <| table := t |>));
      let w := dictFreeEntryKey e w in
      let w := dictFreeEntryVal e w in
      let d := free_entry d de in
      Ok (d <| used := u64 (used d - 1) |>, w, DICT_OK)
    else delete_loop fuel d w key h de (e_next e)
  end.

Definition dictDelete (d : dict) (key : K) (w : W) : outcome (dict * W * Z) :=
  if d_size d =? 0 then Ok (d, w, DICT_ERR) else
  let h := u32 (Z.land (dictHashKey key) (sizemask d)) in
  de ← slot_get (table d) h;
  delete_loop (chain_fuel d) d w key h 0 de.

Fixpoint clear_chain (fuel : nat) (d : dict) (w : W) (he : Z) : outcome (dict * W) :=
  match fuel with
  | O => Crash OutOfFuel
  | S fuel =>
    if he =? 0 then Ok (d, w) else
    e ← entry (entries d) he;
    let w := dictFreeEntryKey e w in
    let w := dictFreeEntryVal e w in
    let d := free_entry d he in
    clear_chain fuel (d <| used := u64 (used d - 1) |>) w (e_next e)
  end.

Fixpoint clear_loop (n : nat) (i : Z) (d : dict) (w : W) : outcome (dict * W) :=
  match n with
  | O => Ok (d, w)
  | S n =>
    if used d >? 0 then
      he ← slot_get (table d) i;
      '(d, w) ← clear_chain (chain_fuel d) d w he;
      clear_loop n (i + 1) d w
    else Ok (d, w)
  end.

Definition _dictClear (d : dict) (w : W) : outcome (dict * W * Z) :=
  '(d, w) ← clear_loop (Z.to_nat (d_size d)) 0 d w;
  Ok (_dictReset d, w, DICT_OK).

(** [dictRelease]: the heap that is left. *)
Definition dictRelease (d : dict) (w : W) : outcome (gmap Z dictEntry * W) :=
  '(d, w, _) ← _dictClear d w;
  Ok (entries d, w).

(** [dictIterator] *)
Record dictIterator := mkIter { it_index : Z; it_entry : Z; it_next : Z }.
Definition dictGetIterator : dictIterator := mkIter (-1) 0 0.

Fixpoint next_loop (fuel : nat) (d : dict) (it : dictIterator) : outcome (dictIterator * Z) :=
  match fuel with
  | O => Crash OutOfFuel
  | S fuel =>
    '(it, stop) ← (if it_entry it =? 0 then
                     let index := i32 (it_index it + 1) in
                     if index >=? i32 (d_size d) then Ok (mkIter index (it_entry it) (it_next it), true)
                     else p ← slot_get (table d) index; Ok (mkIter index p (it_next it), false)
                   else Ok (mkIter (it_index it) (it_next it) (it_next it), false));
    if (stop : bool) then Ok (it, 0) else
    if it_entry it =? 0 then next_loop fuel d it
    else e ← entry (entries d) (it_entry it); Ok (mkIter (it_index it) (it_entry it) (e_next e), it_entry it)
  end.

Definition dictNext (d : dict) (it : dictIterator) : outcome (dictIterator * Z) :=
  next_loop (S (S (length (table d)))) d it.
End dict.

(** ** Chains *)

Section chains.
Context {K V W : Type} `{Countable K}.
Abbreviation entry_t := (dictEntry (K := K) (V := V)).
(** An element of a table: its address, key and value. *)
Abbreviation item := (Z * (K * V))%type.
Implicit Types (E : gmap Z entry_t) (l : list item) (C : list (list item)) (t : list Z).

#[local] Instance zlen_perm A : Proper (Permutation ==> eq) (@zlen A).
Proof. intros l1 l2 Hp. unfold zlen. by rewrite Hp. Qed.

(** [is_chain E p l]: the chain of entries at [p] holds [l]. *)
Fixpoint is_chain E (p : Z) (l : list item) : Prop :=
  match l with
  | [] => p = 0
  | (x, (k, v)) :: l => p = x /\ x <> 0 /\ exists n, E !! x = Some (mkEntry k v n) /\ is_chain E n l
  end.

Lemma entry_ok E x e : E !! x = Some e -> entry E x = Ok e.
Proof. intros Ex. unfold entry. by rewrite Ex. Qed.

Lemma is_chain_ext E E' p l : (forall q, q ∈ l.*1 -> E' !! q = E !! q) -> is_chain E p l -> is_chain E' p l.
Proof.
  revert p. induction l as [|[x [k v]] l IH]; intros p He; [done|]. cbn. intros (-> & Hx & n & E1 & Hc).
  split_and!; [done|done|]. exists n. split; [rewrite He; [done|by left]|]. apply IH; [|done]. intros q Hq. apply He. by right.
Qed.

Lemma chain_lookup E p l q : is_chain E p l -> q ∈ l.*1 -> is_Some (E !! q) /\ q <> 0.
Proof.
  revert p. induction l as [|[x [k v]] l IH]; intros p; [by intros _ ?%not_elem_of_nil|]. cbn. intros (-> & Hx & n & E1 & Hc) [->|Hq]%elem_of_cons; [by eauto|by eapply IH].
Qed.

Lemma chain_item E p l x k v : is_chain E p l -> (x, (k, v)) ∈ l -> exists n, E !! x = Some (mkEntry k v n).
Proof.
  revert p. induction l as [|[y [k' v']] l IH]; intros p; [by intros _ ?%not_elem_of_nil|]. cbn. intros (-> & Hx & n & E1 & Hc) [[= -> -> ->]|Hq]%elem_of_cons; [by eauto|by eapply IH].
Qed.

Lemma chain_size E p l : is_chain E p l -> NoDup l.*1 -> (length l <= size E)%nat.
Proof.
  intros Hc Hd. rewrite <- size_dom, <- (length_fmap fst l). rewrite <- (size_list_to_set (C := gset Z)) by done. apply subseteq_size.
  intros q Hq%elem_of_list_to_set. apply elem_of_dom. by eapply chain_lookup.
Qed.

Lemma chains_ext E E' t C : (forall q, q ∈ (concat C).*1 -> E' !! q = E !! q) -> Forall2 (is_chain E) t C -> Forall2 (is_chain E') t C.
Proof.
  intros He Hf. induction Hf as [|p l t C Hc _ IH]; [done|]. cbn in He. rewrite fmap_app in He. constructor.
  - eapply is_chain_ext; [|done]. intros q Hq. apply He, elem_of_app. by left.
  - apply IH. intros q Hq. apply He, elem_of_app. by right.
Qed.

(** Replacing one list in a list of lists. *)
Lemma concat_insert C i l : C !! i = Some l -> exists R, concat C ≡ₚ l ++ R /\ forall l', concat (<[i := l']> C) ≡ₚ l' ++ R.
Proof.
  intros Hi. exists (concat (take i C) ++ concat (drop (S i) C)). pose proof (lookup_lt_Some _ _ _ Hi).
  assert (Hmid : forall l' : list item, concat (take i C ++ l' :: drop (S i) C) ≡ₚ l' ++ concat (take i C) ++ concat (drop (S i) C)).
  { intros l'. rewrite concat_app. cbn. rewrite !app_assoc. by rewrite (Permutation_app_comm (concat (take i C))). }
  split; [rewrite <- Hmid; by rewrite take_drop_middle|]. intros l'. rewrite insert_take_drop by done. apply Hmid.
Qed.

Lemma elem_concat C i l (it : item) : C !! i = Some l -> it ∈ l -> it ∈ concat C.
Proof. intros Hi Hit. destruct (concat_insert C i l Hi) as (R & -> & _). apply elem_of_app. by left. Qed.

Lemma addr_concat C i l q : C !! i = Some l -> q ∈ l.*1 -> q ∈ (concat C).*1.
Proof. intros Hi (it & -> & Hit)%list_elem_of_fmap. apply list_elem_of_fmap. exists it. split; [done|]. by eapply elem_concat. Qed.

Lemma chains_apart C i j l l' q : NoDup (concat C).*1 -> C !! i = Some l -> C !! j = Some l' -> i <> j -> q ∈ l'.*1 -> q ∉ l.*1.
Proof.
  intros Hd Hi Hj Hij Hq Hq'. destruct (concat_insert C i l Hi) as (R & E & Hins). rewrite E, fmap_app in Hd.
  apply NoDup_app in Hd as (_ & Hd & _). apply (Hd q Hq'). rewrite <- (Hins []). apply (addr_concat _ j l'); [|done]. by rewrite list_lookup_insert_ne.
Qed.

Context (ty : dictType (K := K) (V := V) (W := W)).

(** What a table relies on: the comparison decides equality of keys, and a copied
    key is equal to the key. *)
Class dict_laws : Prop := {
  compare_eq : forall k1 k2, dictCompareHashKeys ty k1 k2 = bool_decide (k1 = k2);
  dup_key_same : forall k w, (dup_key ty k w).1 = k }.

Definition slot_of (mask : Z) (k : K) : Z := u32 (Z.land (dictHashKey ty k) mask).

(** The table [t] holds the chains [C], every key in its slot. *)
Record table_ok E t (mask : Z) C : Prop := {
  to_chains : Forall2 (is_chain E) t C;
  to_slots : forall i l, C !! i = Some l -> Forall (fun it : item => slot_of mask it.2.1 = Z.of_nat i) l;
  to_nodup : NoDup (concat C).*1 }.

(** A table of [2 ^ n] slots. *)
Definition power_of_two (n : Z) (t : list Z) (mask : Z) : Prop := 0 <= n <= 31 /\ zlen t = 2 ^ n /\ mask = 2 ^ n - 1.

Lemma slot_range n t mask k : power_of_two n t mask -> 0 <= slot_of mask k < zlen t.
Proof.
  intros (Hn & -> & ->). unfold slot_of, dictHashKey. replace (2 ^ n - 1) with (Z.ones n) by (rewrite Z.ones_equiv; lia).
  rewrite Z.land_ones by lia. pose proof (u32_range (hashFunction ty k)) as Hu. unfold is_u32 in Hu.
  assert (0 < 2 ^ n <= 2 ^ 31) by (split; [apply Z.pow_pos_nonneg; lia|apply Z.pow_le_mono_r; lia]).
  pose proof (Z.mod_pos_bound (u32 (hashFunction ty k)) (2 ^ n) ltac:(lia)). rewrite u32_small by (unfold is_u32; lia). done.
Qed.

Lemma slot_lookup n E t mask C k : power_of_two n t mask -> table_ok E t mask C -> exists p l,
  slot_get t (slot_of mask k) = Ok p /\ t !! Z.to_nat (slot_of mask k) = Some p /\ C !! Z.to_nat (slot_of mask k) = Some l /\ is_chain E p l /\
  (forall v, slot_set t (slot_of mask k) v = Ok (<[Z.to_nat (slot_of mask k) := v]> t)).
Proof.
  intros Hp Ht. pose proof (slot_range n t mask k Hp) as Hr. destruct (lookup_lt_is_Some_2 t (Z.to_nat (slot_of mask k))) as [p Ep]; [unfold zlen in Hr; lia|].
  destruct (Forall2_lookup_l _ _ _ _ _ (to_chains _ _ _ _ Ht) Ep) as (l & El & Hc). exists p, l.
  unfold slot_get, slot_set. rewrite (proj2 (Z.ltb_ge _ _)), Ep by lia. done.
Qed.

(** A key that is in the table is in the chain of its slot. *)
Lemma slot_elem E t mask C l it : table_ok E t mask C -> it ∈ concat C -> C !! Z.to_nat (slot_of mask it.2.1) = Some l -> it ∈ l.
Proof.
  intros Ht Hin El. apply list_elem_of_In, in_concat in Hin as (l' & Hl' & Hit). apply list_elem_of_In in Hl', Hit.
  apply list_elem_of_lookup in Hl' as (i & Ei). pose proof (to_slots _ _ _ _ Ht i l' Ei) as Hs. rewrite Forall_forall in Hs.
  rewrite (Hs it Hit), Nat2Z.id in El. by simplify_eq.
Qed.

Lemma slot_all n E t mask C k l : power_of_two n t mask -> table_ok E t mask C -> C !! Z.to_nat (slot_of mask k) = Some l ->
  Forall (fun it : item => slot_of mask it.2.1 = slot_of mask k) l.
Proof.
  intros Hp Ht El. pose proof (slot_range n t mask k Hp). eapply Forall_impl; [by apply (to_slots _ _ _ _ Ht)|]. cbn. intros it ->. lia.
Qed.

(** Changing the chain of one slot. *)
Lemma table_update n E t mask C k l E' p' l' : power_of_two n t mask -> table_ok E t mask C -> C !! Z.to_nat (slot_of mask k) = Some l ->
  is_chain E' p' l' -> Forall (fun it : item => slot_of mask it.2.1 = slot_of mask k) l' ->
  (forall q, q ∈ (concat C).*1 -> q ∉ l.*1 -> E' !! q = E !! q) -> NoDup (concat (<[Z.to_nat (slot_of mask k) := l']> C)).*1 ->
  table_ok E' (<[Z.to_nat (slot_of mask k) := p']> t) mask (<[Z.to_nat (slot_of mask k) := l']> C).
Proof.
  intros Hp Ht El Hc Hs He Hd. pose proof (slot_range n t mask k Hp) as Hr. set (i := Z.to_nat (slot_of mask k)) in *.
  pose proof (to_nodup _ _ _ _ Ht) as Hd0. split; [| |done].
  - apply Forall2_lookup. intros j. destruct (decide (j = i)) as [->|Hj].
    + pose proof (lookup_lt_Some _ _ _ El) as Hlt. pose proof (Forall2_length _ _ _ (to_chains _ _ _ _ Ht)) as Hlen.
      rewrite !list_lookup_insert_eq by lia. by constructor.
    + rewrite !list_lookup_insert_ne by done. pose proof (proj1 (Forall2_lookup _ _ _) (to_chains _ _ _ _ Ht) j) as Hj'.
      destruct (t !! j) as [p|], (C !! j) as [lj|] eqn:Ej; inversion_clear Hj'; constructor.
      eapply is_chain_ext; [|done]. intros q Hq. apply He; [by eapply addr_concat|]. by eapply (chains_apart C i j).
  - intros j lj Ej. destruct (decide (j = i)) as [->|Hj].
    + pose proof (lookup_lt_Some _ _ _ El) as Hlt. rewrite list_lookup_insert_eq in Ej by lia. injection Ej as <-.
      eapply Forall_impl; [exact Hs|]. cbn. intros it ->. unfold i. lia.
    + rewrite list_lookup_insert_ne in Ej by done. by apply (to_slots _ _ _ _ Ht).
Qed.

(** ** Rehashing *)

Lemma rehash_chain_spec fuel n mask : forall l p E t u C, is_chain E p l -> power_of_two n t mask -> table_ok E t mask C ->
  NoDup (l.*1 ++ (concat C).*1) -> (length l < fuel)%nat -> zlen l <= u < 2 ^ 64 -> exists E' t' C',
  rehash_chain ty fuel mask p E t u = Ok (E', t', u - zlen l) /\ power_of_two n t' mask /\ table_ok E' t' mask C' /\
  concat C' ≡ₚ l ++ concat C /\ (forall q, q ∉ l.*1 -> E' !! q = E !! q) /\ dom E' = dom E.
Proof using Type.
  induction fuel as [|fuel IH]; intros l p E t u C Hc Hp Ht Hd Hf Hu; [lia|]. cbn [rehash_chain].
  destruct l as [|[x [k v]] l]; cbn [is_chain] in Hc.
  { subst p. cbn. exists E, t, C. by rewrite Z.sub_0_r. }
  destruct Hc as (-> & Hx & m & Ex & Hc). rewrite (proj2 (Z.eqb_neq _ _) Hx). unfold entry at 1. rewrite Ex. cbn [mbind outcome_bind e_key e_next].
  destruct (slot_lookup n E t mask C k Hp Ht) as (hd & lh & Eg & Et & EC & Hch & Es). unfold slot_of in Eg, Es. rewrite Eg. cbn [mbind outcome_bind].
  rewrite Es. cbn [mbind outcome_bind]. fold (slot_of mask k) in *. clear Eg Es.
  destruct (concat_insert C _ lh EC) as (R & EP & Hins). change (NoDup (x :: l.*1 ++ (concat C).*1)) in Hd. apply NoDup_cons in Hd as [Hxn Hd].
  rewrite not_elem_of_app in Hxn. destruct Hxn as [Hxl HxC].
  set (E1 := <[x := mkEntry k v hd]> E). change (<[x := _]> E) with E1.
  assert (HE1 : forall q, q <> x -> E1 !! q = E !! q) by (intros q Hq; unfold E1; by rewrite lookup_insert_ne).
  assert (HP : concat (<[Z.to_nat (slot_of mask k) := (x, (k, v)) :: lh]> C) ≡ₚ (x, (k, v)) :: concat C) by (rewrite Hins, EP; done).
  rewrite zlen_cons in Hu |- *. pose proof (zlen_nonneg l). rewrite u64_small by lia.
  destruct (IH l m E1 (<[Z.to_nat (slot_of mask k) := x]> t) (u - 1) (<[Z.to_nat (slot_of mask k) := (x, (k, v)) :: lh]> C))
    as (E' & t' & C' & Er & Hp' & Ht' & EP' & He' & Es').
  - eapply is_chain_ext; [|exact Hc]. intros q Hq. apply HE1. congruence.
  - destruct Hp as (? & ? & ?). split; [done|]. split; [|done]. unfold zlen. by rewrite length_insert.
  - apply (table_update n E t mask C k lh); [done|done|done| | | |].
    + cbn. split_and!; [done|done|]. exists hd. unfold E1. rewrite lookup_insert_eq. split; [done|].
      eapply is_chain_ext; [|exact Hch]. intros q Hq. apply HE1. intros ->. apply HxC. by eapply addr_concat.
    + constructor; [done|]. by eapply slot_all.
    + intros q Hq _. apply HE1. congruence.
    + rewrite HP. constructor; [done|apply Ht].
  - rewrite HP. cbn. apply NoDup_app. apply NoDup_app in Hd as (? & Hdis & ?). split_and!; [done| |by constructor].
    intros q Hq [->|Hq']%elem_of_cons; [done|]. by apply (Hdis q).
  - cbn in Hf. lia.
  - lia.
  - exists E', t', C'. split_and!; [|done|done| | |].
    + rewrite Er. do 2 f_equal. lia.
    + rewrite EP', HP. symmetry. apply Permutation_middle.
    + intros q Hq. cbn in Hq. apply not_elem_of_cons in Hq as [Hqx Hq]. rewrite He' by done. by apply HE1.
    + rewrite Es'. unfold E1. by rewrite dom_insert_lookup_L.
Qed.

Lemma rehash_loop_spec n mask old : forall k i E t u C D, Forall2 (is_chain E) (drop i old) D -> length old = (i + k)%nat ->
  power_of_two n t mask -> table_ok E t mask C -> NoDup ((concat D).*1 ++ (concat C).*1) -> u = zlen (concat D) -> u < 2 ^ 64 -> exists E' t' C',
  rehash_loop ty k old (Z.of_nat i) mask E t u = Ok (E', t', 0) /\ power_of_two n t' mask /\ table_ok E' t' mask C' /\
  concat C' ≡ₚ concat D ++ concat C /\ dom E' = dom E.
Proof using Type.
  induction k as [|k IH]; intros i E t u C D HD Hk Hp Ht Hd Hu Hb; cbn [rehash_loop].
  { rewrite drop_ge in HD by lia. inversion HD; subst. cbn. by exists E, t, C. }
  destruct (Z.gtb_spec u 0) as [Hpos|Hz].
  2: { assert (concat D = []) as E0 by (apply nil_length_inv; unfold zlen in Hu; lia). exists E, t, C. rewrite E0 in Hu |- *. by subst u. }
  destruct (lookup_lt_is_Some_2 old i) as [p Ep]; [lia|]. rewrite (drop_S _ p i Ep) in HD. inversion HD as [|? l ? D' Hc HD']; subst.
  unfold slot_get. rewrite (proj2 (Z.ltb_ge _ _)), Nat2Z.id, Ep by lia. cbn [mbind outcome_bind]. cbn [concat] in *.
  rewrite fmap_app, <- app_assoc in Hd. apply NoDup_app in Hd as (Hdl & Hdis & Hd).
  assert (HdlC : NoDup (l.*1 ++ (concat C).*1)).
  { apply NoDup_app. split_and!; [done| |apply Ht]. intros q Hq Hq'. apply (Hdis q Hq), elem_of_app. by right. }
  rewrite zlen_app in Hpos, Hb |- *. pose proof (zlen_nonneg (concat D')).
  destruct (rehash_chain_spec (S (size E)) n mask l p E t (zlen l + zlen (concat D')) C Hc Hp Ht HdlC) as (E1 & t1 & C1 & -> & Hp1 & Ht1 & EP1 & He1 & Hdom1);
    [pose proof (chain_size _ _ _ Hc Hdl); lia|lia|]. cbn [mbind outcome_bind].
  replace (zlen l + zlen (concat D') - zlen l) with (zlen (concat D')) by lia.
  destruct (IH (S i) E1 t1 (zlen (concat D')) C1 D') as (E' & t' & C' & Er & Hp' & Ht' & EP' & Hdom'); [|lia|done|done| |done|pose proof (zlen_nonneg l); lia|].
  - eapply chains_ext; [|exact HD']. intros q Hq. apply He1. intros Hq'. apply (Hdis q Hq'), elem_of_app. by left.
  - apply NoDup_app in Hd as (Hd1 & Hd2 & _). rewrite EP1, fmap_app. apply NoDup_app. split_and!; [done| |done].
    intros q Hq [Hq'|Hq']%elem_of_app; [apply (Hdis q Hq'), elem_of_app; by left|by apply (Hd2 q)].
  - exists E', t', C'. rewrite Z.add_1_r, <- Nat2Z.inj_succ. split_and!; [done|done|done| |].
    + rewrite EP', EP1. rewrite !app_assoc. by rewrite (Permutation_app_comm (concat D')).
    + by rewrite Hdom'.
Qed.

(** ** The table as a finite map *)

Abbreviation dict_t := (dict (K := K) (V := V)).

(** The invariant of a table with the chains [C]: no entry is lost or shared. *)
Record dict_ok (d : dict_t) C : Prop := {
  dk_shape : (d_size d = 0 /\ table d = []) \/ exists n, 2 <= n /\ d_size d = 2 ^ n /\ power_of_two n (table d) (sizemask d);
  dk_table : table_ok (entries d) (table d) (sizemask d) C;
  dk_used : used d = zlen (concat C);
  dk_small : used d <= 2 ^ 31;
  dk_keys : NoDup (concat C).*2.*1;
  dk_heap : dom (entries d) = list_to_set (concat C).*1;
  dk_fresh : 0 < brk d /\ Forall (fun q => q < brk d) (concat C).*1 }.

Definition map_of C : gmap K V := list_to_map (concat C).*2.

(** [holds d mp]: the table is well formed and its contents are the map [mp]. *)
Definition holds (d : dict_t) (mp : gmap K V) : Prop := exists C, dict_ok d C /\ mp = map_of C.

Lemma map_of_Some C k v : NoDup (concat C).*2.*1 -> map_of C !! k = Some v <-> exists x, (x, (k, v)) ∈ concat C.
Proof.
  intros Hd. unfold map_of. rewrite <- elem_of_list_to_map by done. rewrite list_elem_of_fmap. split.
  - intros ([x kv] & -> & Hin). by exists x.
  - intros (x & Hin). by exists (x, (k, v)).
Qed.

Lemma map_of_perm C C' : NoDup (concat C).*2.*1 -> concat C' ≡ₚ concat C -> map_of C' = map_of C.
Proof. intros Hd EP. unfold map_of. apply list_to_map_proper; [by rewrite EP|by rewrite EP]. Qed.

Lemma map_of_cons C R x k v : NoDup (concat C).*2.*1 -> concat C ≡ₚ (x, (k, v)) :: R ->
  map_of C = <[k := v]> (list_to_map R.*2) /\ (list_to_map R.*2 : gmap K V) !! k = None.
Proof.
  intros Hd EP. rewrite EP in Hd. cbn in Hd. apply NoDup_cons in Hd as [Hk Hd]. split; [|by apply not_elem_of_list_to_map].
  unfold map_of. rewrite (list_to_map_proper _ ((k, v) :: R.*2)); [done| |by rewrite EP]. rewrite EP. cbn. by constructor.
Qed.

Lemma dict_ok_create : dict_ok (dictCreate ∅ 1) [].
Proof.
  split; [by left|split; [apply Forall2_nil_2|done|apply NoDup_nil_2]|done|done|apply NoDup_nil_2|done|split; [done|apply Forall_nil_2]].
Qed.

Lemma next_power_loop_spec j : forall fuel i, (j < fuel)%nat -> 0 < i -> i * 2 ^ Z.of_nat j < 2 ^ 62 ->
  next_power_loop fuel i (i * 2 ^ Z.of_nat j) = Ok (i * 2 ^ Z.of_nat j).
Proof.
  induction j as [|j IH]; intros [|fuel] i Hf Hi Hb; try lia; cbn [next_power_loop].
  - rewrite Z.mul_1_r, (proj2 (Z.geb_le _ _)) by lia. done.
  - rewrite Nat2Z.inj_succ, Z.pow_succ_r in Hb |- * by lia. assert (1 <= 2 ^ Z.of_nat j) by (apply Z.pow_le_mono_r with (b := 0); lia).
    rewrite Z.geb_leb, (proj2 (Z.leb_gt _ _)) by nia. rewrite u64_small by nia. rewrite Z.mul_assoc. apply IH; nia.
Qed.

Lemma _dictNextPower_pow n : 2 <= n <= 31 -> _dictNextPower (2 ^ n) = Ok (2 ^ n).
Proof.
  intros Hn. assert (2 ^ n <= 2 ^ 31) by (apply Z.pow_le_mono_r; lia). unfold _dictNextPower, LONG_MAX. rewrite Z.geb_leb, (proj2 (Z.leb_gt _ _)) by lia.
  replace (2 ^ n) with (DICT_HT_INITIAL_SIZE * 2 ^ Z.of_nat (Z.to_nat (n - 2))).
  - apply next_power_loop_spec; [lia|done|]. replace (Z.of_nat (Z.to_nat (n - 2))) with (n - 2) by lia. unfold DICT_HT_INITIAL_SIZE.
    change 4 with (2 ^ 2). rewrite <- Z.pow_add_r by lia. apply Z.pow_lt_mono_r; lia.
  - unfold DICT_HT_INITIAL_SIZE. change 4 with (2 ^ 2). rewrite <- Z.pow_add_r by lia. f_equal. lia.
Qed.

Lemma concat_replicate_nil m : concat (replicate m ([] : list item)) = [].
Proof. by induction m. Qed.

Lemma empty_table E mask m : table_ok E (replicate m 0) mask (replicate m []).
Proof.
  split; [| |rewrite concat_replicate_nil; constructor].
  - by apply Forall2_replicate.
  - intros i l [-> _]%lookup_replicate. constructor.
Qed.

(** [dictExpand] to a power of two that is large enough keeps the contents. *)
Lemma dictExpand_spec d C n : dict_ok d C -> 2 <= n <= 31 -> used d <= 2 ^ n -> exists d' C',
  dictExpand ty d (2 ^ n) = Ok (d', DICT_OK) /\ dict_ok d' C' /\ concat C' ≡ₚ concat C /\ d_size d' = 2 ^ n /\ used d' = used d.
Proof.
  intros Hd Hn Hu. unfold dictExpand. rewrite _dictNextPower_pow by done. cbn [mbind outcome_bind]. rewrite Z.gtb_ltb, (proj2 (Z.ltb_ge _ _)) by lia.
  assert (2 ^ n <= 2 ^ 31) by (apply Z.pow_le_mono_r; lia). assert (0 < 2 ^ n) by (apply Z.pow_pos_nonneg; lia).
  pose proof (dk_table _ _ Hd) as Ht. destruct (rehash_loop_spec n (2 ^ n - 1) (table d) (Z.to_nat (d_size d)) 0 (entries d) (replicate (Z.to_nat (2 ^ n)) 0) (used d) (replicate (Z.to_nat (2 ^ n)) []) C)
    as (E' & t' & C' & Er & Hp & Ht' & EP & Hdom).
  - apply Ht.
  - destruct (dk_shape _ _ Hd) as [[-> ->]|(m & _ & -> & _ & Hl & _)]; [done|]. unfold zlen in Hl. lia.
  - split; [lia|]. split; [|done]. unfold zlen. rewrite length_replicate. lia.
  - apply empty_table.
  - rewrite concat_replicate_nil. cbn. rewrite app_nil_r. apply Ht.
  - apply Hd.
  - lia.
  - change (Z.of_nat 0) with 0 in Er. rewrite Er. cbn [mbind outcome_bind c_assert]. rewrite concat_replicate_nil, app_nil_r in EP.
    eexists _, C'. split; [done|]. split; [|done]. split; cbn.
    + right. exists n. split; [lia|]. by split.
    + done.
    + rewrite EP. apply Hd.
    + apply Hd.
    + rewrite EP. apply Hd.
    + rewrite Hdom, (dk_heap _ _ Hd). apply list_to_set_perm_L. by rewrite EP.
    + rewrite EP. apply Hd.
Qed.

Lemma dict_size d C : dict_ok d C -> d_size d <> 0 -> exists n, 2 <= n /\ d_size d = 2 ^ n /\ power_of_two n (table d) (sizemask d).
Proof. intros Hd Hs. by destruct (dk_shape _ _ Hd) as [[? _]|?]. Qed.

Lemma _dictExpandIfNeeded_spec d C : dict_ok d C -> used d < 2 ^ 31 -> exists d' C',
  _dictExpandIfNeeded ty d = Ok (d', DICT_OK) /\ dict_ok d' C' /\ concat C' ≡ₚ concat C /\ d_size d' <> 0 /\ used d' = used d.
Proof.
  intros Hd Hu. unfold _dictExpandIfNeeded. destruct (Z.eqb_spec (d_size d) 0) as [Es|Es].
  - destruct (dictExpand_spec d C 2 Hd) as (d' & C' & Er & Hd' & EP & Es' & Eu); [lia| |exists d', C'; split_and!; try done; by rewrite Es'].
    destruct (dk_shape _ _ Hd) as [[_ Et]|(n & Hn & E' & _)]; [|exfalso; rewrite E' in Es; by apply (Z.pow_nonzero 2 n) in Es; lia].
    pose proof (to_chains _ _ _ _ (dk_table _ _ Hd)) as Hf. rewrite Et in Hf. inversion Hf; subst. rewrite (dk_used _ _ Hd). change (0 <= 4). lia.
  - destruct (Z.eqb_spec (used d) (d_size d)) as [Eu|Eu]; [|by exists d, C].
    destruct (dict_size d C Hd Es) as (n & Hn & E2 & _). assert (n <= 30).
    { destruct (Z.le_gt_cases n 30); [done|]. assert (2 ^ 31 <= 2 ^ n) by (apply Z.pow_le_mono_r; lia). lia. }
    assert (2 ^ n <= 2 ^ 30) by (apply Z.pow_le_mono_r; lia). assert (0 < 2 ^ n) by (apply Z.pow_pos_nonneg; lia). rewrite u64_small by lia.
    rewrite E2, Z.mul_comm, <- Z.pow_succ_r by lia.
    destruct (dictExpand_spec d C (Z.succ n) Hd) as (d' & C' & Er & Hd' & EP & Es' & Eu'); [lia|rewrite Eu, E2, Z.pow_succ_r; lia|].
    exists d', C'. split_and!; try done. rewrite Es'. apply Z.pow_nonzero; lia.
Qed.

(** ** Searching *)

Context {laws : dict_laws}.
#[local] Set Default Proof Using "All".

Lemma find_loop_spec E k : forall fuel l p, is_chain E p l -> (length l < fuel)%nat -> exists q,
  find_loop ty fuel E k p = Ok q /\ ((q = 0 /\ k ∉ l.*2.*1) \/ (q <> 0 /\ exists v, (q, (k, v)) ∈ l)).
Proof.
  induction fuel as [|fuel IH]; intros l p Hc Hf; [lia|]. cbn [find_loop]. destruct l as [|[x [k' v]] l]; cbn [is_chain] in Hc.
  { subst p. exists 0. split; [done|]. left. split; [done|apply not_elem_of_nil]. }
  destruct Hc as (-> & Hx & n & Ex & Hc). rewrite (proj2 (Z.eqb_neq _ _) Hx). unfold entry. rewrite Ex. cbn [mbind outcome_bind e_key e_next].
  rewrite compare_eq. case_bool_decide as Ek.
  - subst k'. exists x. split; [done|]. right. split; [done|]. exists v. by left.
  - destruct (IH l n Hc) as (q & -> & Hq); [cbn in Hf; lia|]. exists q. split; [done|]. destruct Hq as [[-> Hk]|[Hq0 (v' & Hin)]].
    + left. split; [done|]. cbn. by apply not_elem_of_cons.
    + right. split; [done|]. exists v'. by right.
Qed.

Lemma chain_nodup d C i l : dict_ok d C -> C !! i = Some l -> NoDup l.*1.
Proof.
  intros Hd Hi. destruct (concat_insert C i l Hi) as (R & EP & _). pose proof (to_nodup _ _ _ _ (dk_table _ _ Hd)) as Hn.
  rewrite EP, fmap_app in Hn. by apply NoDup_app in Hn as (? & _).
Qed.

(** The search for a key in the chain of its slot. *)
Lemma search_spec d C k : dict_ok d C -> d_size d <> 0 -> exists p l q,
  slot_get (table d) (slot_of (sizemask d) k) = Ok p /\ C !! Z.to_nat (slot_of (sizemask d) k) = Some l /\ is_chain (entries d) p l /\
  find_loop ty (chain_fuel d) (entries d) k p = Ok q /\
  ((q = 0 /\ map_of C !! k = None) \/ (q <> 0 /\ exists v, (q, (k, v)) ∈ l /\ map_of C !! k = Some v)).
Proof.
  intros Hd Hs. destruct (dict_size d C Hd Hs) as (n & Hn & E2 & Hp). pose proof (dk_table _ _ Hd) as Ht.
  destruct (slot_lookup n _ _ _ C k Hp Ht) as (p & l & Eg & _ & El & Hc & _). exists p, l.
  destruct (find_loop_spec (entries d) k (chain_fuel d) l p Hc) as (q & Ef & Hq).
  { pose proof (chain_size _ _ _ Hc (chain_nodup d C _ l Hd El)). unfold chain_fuel. lia. }
  exists q. split_and!; try done. destruct Hq as [[-> Hk]|[Hq (v & Hin)]].
  - left. split; [done|]. apply eq_None_not_Some. intros [v (x & Hin)%map_of_Some]; [|apply Hd]. apply Hk.
    apply list_elem_of_fmap. exists (k, v). split; [done|]. apply list_elem_of_fmap. exists (x, (k, v)). split; [done|]. by eapply (slot_elem _ _ _ C l (x, (k, v)) Ht Hin).
  - right. split; [done|]. exists v. split; [done|]. apply map_of_Some; [apply Hd|]. exists q. by eapply elem_concat.
Qed.

Lemma slot_int n (d : dict_t) k : power_of_two n (table d) (sizemask d) -> i32 (slot_of (sizemask d) k) = slot_of (sizemask d) k.
Proof.
  intros Hp. pose proof (slot_range _ _ _ k Hp) as Hr. destruct Hp as (Hn & Hl & _). rewrite Hl in Hr. assert (2 ^ n <= 2 ^ 31) by (apply Z.pow_le_mono_r; lia).
  apply i32_small. unfold is_i32. lia.
Qed.

Lemma dictFind_spec d C k : dict_ok d C -> exists q, dictFind ty d k = Ok q /\
  ((q = 0 /\ map_of C !! k = None) \/ (q <> 0 /\ exists v n, entries d !! q = Some (mkEntry k v n) /\ map_of C !! k = Some v)).
Proof.
  intros Hd. unfold dictFind. destruct (Z.eqb_spec (d_size d) 0) as [Es|Es].
  - exists 0. split; [done|]. left. split; [done|]. destruct (dk_shape _ _ Hd) as [[_ Et]|(n & Hn & E' & _)].
    + pose proof (to_chains _ _ _ _ (dk_table _ _ Hd)) as Hf. rewrite Et in Hf. by inversion Hf.
    + exfalso. rewrite E' in Es. apply (Z.pow_nonzero 2 n) in Es; lia.
  - destruct (search_spec d C k Hd Es) as (p & l & q & Eg & El & Hc & Ef & Hq). unfold slot_of in Eg. rewrite Eg. cbn [mbind outcome_bind].
    exists q. split; [done|]. destruct Hq as [Hq|(Hq & v & Hin & Em)]; [by left|]. right. split; [done|].
    destruct (chain_item _ _ _ _ _ _ Hc Hin) as (n & En). by exists v, n.
Qed.

Lemma _dictKeyIndex_spec d C k : dict_ok d C -> used d < 2 ^ 31 -> exists d' C' i,
  _dictKeyIndex ty d k = Ok (d', i) /\ dict_ok d' C' /\ concat C' ≡ₚ concat C /\ used d' = used d /\ d_size d' <> 0 /\
  match map_of C !! k with Some _ => i = -1 | None => i = slot_of (sizemask d') k end.
Proof.
  intros Hd Hu. unfold _dictKeyIndex. destruct (_dictExpandIfNeeded_spec d C Hd Hu) as (d' & C' & -> & Hd' & EP & Es & Eu). cbn [mbind outcome_bind].
  change (DICT_OK =? DICT_ERR) with false. cbn [negb]. destruct (search_spec d' C' k Hd' Es) as (p & l & q & Eg & El & Hc & Ef & Hq).
  fold (slot_of (sizemask d') k). rewrite Eg. cbn [mbind outcome_bind]. rewrite Ef. cbn [mbind outcome_bind].
  exists d', C'. eexists. split; [done|]. split_and!; try done. rewrite <- (map_of_perm C C') by (done || apply Hd).
  destruct (dict_size d' C' Hd' Es) as (n & _ & _ & Hp). destruct Hq as [[-> ->]|(Hq & v & _ & ->)].
  - cbn. by eapply slot_int.
  - by rewrite (proj2 (Z.eqb_neq _ _) Hq).
Qed.

(** ** Adding *)

(** A new entry at the head of the chain of its key. *)
Lemma dict_ok_push d C k v p : dict_ok d C -> d_size d <> 0 -> map_of C !! k = None -> used d < 2 ^ 31 ->
  slot_get (table d) (slot_of (sizemask d) k) = Ok p -> exists C',
  dict_ok (mkDict (<[Z.to_nat (slot_of (sizemask d) k) := brk d]> (table d)) (d_size d) (sizemask d) (u64 (used d + 1))
    (<[brk d := mkEntry k v p]> (entries d)) (brk d + 1)) C' /\ concat C' ≡ₚ (brk d, (k, v)) :: concat C.
Proof.
  intros Hd Hs Hk Hu Eg. destruct (dict_size d C Hd Hs) as (n & Hn & E2 & Hp). pose proof (dk_table _ _ Hd) as Ht.
  destruct (slot_lookup n _ _ _ C k Hp Ht) as (p' & l & Eg' & _ & El & Hc & _). rewrite Eg in Eg'. injection Eg' as <-.
  destruct (concat_insert C _ l El) as (R & EP & Hins). destruct (dk_fresh _ _ Hd) as [Hb Hfr]. rewrite Forall_forall in Hfr.
  assert (HP : concat (<[Z.to_nat (slot_of (sizemask d) k) := (brk d, (k, v)) :: l]> C) ≡ₚ (brk d, (k, v)) :: concat C) by (rewrite Hins, EP; done).
  assert (Hnew : brk d ∉ (concat C).*1) by (intros Hq%Hfr; lia).
  assert (Hins' : forall q, q ∈ (concat C).*1 -> <[brk d := mkEntry k v p]> (entries d) !! q = entries d !! q).
  { intros q Hq. apply lookup_insert_ne. congruence. }
  eexists. split; [|exact HP]. split; cbn [table d_size sizemask used entries brk].
  - right. exists n. split_and!; [done|done|]. destruct Hp as (? & ? & ?). split; [done|]. split; [|done]. unfold zlen. by rewrite length_insert.
  - apply (table_update n (entries d) _ _ _ _ l); try done.
    + cbn. split_and!; [done|lia|]. exists p. split; [apply lookup_insert_eq|]. eapply is_chain_ext; [|exact Hc].
      intros q Hq. apply Hins'. by eapply addr_concat.
    + constructor; [done|]. by eapply slot_all.
    + intros q Hq _. by apply Hins'.
    + rewrite HP. cbn. constructor; [done|apply Ht].
  - rewrite HP, zlen_cons, <- (dk_used _ _ Hd). pose proof (zlen_nonneg (concat C)) as Hz. rewrite <- (dk_used _ _ Hd) in Hz. rewrite u64_small; lia.
  - pose proof (zlen_nonneg (concat C)) as Hz. rewrite <- (dk_used _ _ Hd) in Hz. rewrite u64_small; lia.
  - rewrite HP. cbn. constructor; [|apply Hd]. by eapply not_elem_of_list_to_map.
  - rewrite dom_insert_L, (dk_heap _ _ Hd). symmetry. etrans; [apply list_to_set_perm_L; by rewrite HP|done].
  - split; [lia|]. rewrite HP. cbn. constructor; [lia|]. apply Forall_forall. intros q Hq%Hfr. lia.
Qed.

Lemma dictAdd_spec d C k v w : dict_ok d C -> used d < 2 ^ 31 -> exists d' C',
  dict_ok d' C' /\ match map_of C !! k with
  | None => let kw := dup_key ty k w in let vw := dup_val ty v kw.2 in
            dictAdd ty d k v w = Ok (d', vw.2, DICT_OK) /\ map_of C' = <[k := vw.1]> (map_of C)
  | Some _ => dictAdd ty d k v w = Ok (d', w, DICT_ERR) /\ map_of C' = map_of C
  end.
Proof.
  intros Hd Hu. unfold dictAdd. destruct (_dictKeyIndex_spec d C k Hd Hu) as (d1 & C1 & i & -> & Hd1 & EP & Eu & Es & Hi). cbn [mbind outcome_bind].
  assert (EM : map_of C1 = map_of C) by (apply map_of_perm; [apply Hd|done]). destruct (map_of C !! k) as [v0|] eqn:Ek; [subst i; by exists d1, C1|].
  destruct (dict_size d1 C1 Hd1 Es) as (n & _ & _ & Hp). pose proof (slot_range n _ _ k Hp). rewrite (proj2 (Z.eqb_neq i (-1))) by lia. subst i.
  destruct (slot_lookup n _ _ _ C1 k Hp (dk_table _ _ Hd1)) as (p & l & Eg & _ & _ & _ & Est). rewrite Eg. cbn [mbind outcome_bind]. rewrite Est. cbn [mbind outcome_bind].
  destruct (dup_key ty k w) as [k' w1] eqn:Edk. pose proof (dup_key_same k w) as Ek'. rewrite Edk in Ek'. cbn in Ek'. subst k'.
  destruct (dup_val ty v w1) as [v' w2] eqn:Edv. cbn. rewrite Edv. cbn.
  destruct (dict_ok_push d1 C1 k v' p Hd1 Es) as (C' & Hd' & EP'); [by rewrite EM|lia|done|].
  eexists _, C'. split; [exact Hd'|]. split; [done|]. rewrite <- EM. eapply map_of_cons; [apply Hd'|done].
Qed.

(** ** Replacing *)

Lemma chain_set_val E p l1 l2 x k v v' n : is_chain E p (l1 ++ (x, (k, v)) :: l2) -> NoDup (l1 ++ (x, (k, v)) :: l2).*1 -> E !! x = Some (mkEntry k v n) ->
  is_chain (<[x := mkEntry k v' n]> E) p (l1 ++ (x, (k, v')) :: l2).
Proof.
  intros Hc Hd Ex. revert p Hc. induction l1 as [|[y [ky vy]] l1 IH]; intros p; cbn in *; apply NoDup_cons in Hd as [Hn Hd].
  - intros (-> & Hx & n' & E1 & Hc). rewrite Ex in E1. injection E1 as <-. split_and!; [done|done|]. exists n. rewrite lookup_insert_eq. split; [done|].
    eapply is_chain_ext; [|exact Hc]. intros q Hq. apply lookup_insert_ne. congruence.
  - intros (-> & Hy & n' & E1 & Hc). split_and!; [done|done|]. exists n'. rewrite lookup_insert_ne; [|set_solver]. split; [done|]. by apply IH.
Qed.

(** An item of a chain, with the rest of the table. *)
Lemma item_split C i l x k v : C !! i = Some l -> (x, (k, v)) ∈ l -> exists l1 l2 R, l = l1 ++ (x, (k, v)) :: l2 /\
  concat C ≡ₚ (x, (k, v)) :: R /\ (forall v', concat (<[i := l1 ++ (x, (k, v')) :: l2]> C) ≡ₚ (x, (k, v')) :: R) /\ concat (<[i := l1 ++ l2]> C) ≡ₚ R.
Proof.
  intros Hi (l1 & l2 & ->)%list_elem_of_split. destruct (concat_insert C i _ Hi) as (R & EP & Hins). exists l1, l2, ((l1 ++ l2) ++ R).
  split_and!; [done| | |].
  - by rewrite EP, <- Permutation_middle.
  - intros v'. by rewrite Hins, <- Permutation_middle.
  - by rewrite Hins.
Qed.

Lemma dict_ok_set d C k v x v' n : dict_ok d C -> d_size d <> 0 -> entries d !! x = Some (mkEntry k v n) -> x ∈ (concat C).*1 -> map_of C !! k = Some v ->
  exists C', dict_ok (mkDict (table d) (d_size d) (sizemask d) (used d) (<[x := mkEntry k v' n]> (entries d)) (brk d)) C' /\ map_of C' = <[k := v']> (map_of C).
Proof.
  intros Hd Hs Ex Hx Hk. destruct (dict_size d C Hd Hs) as (m & Hm & E2 & Hp). pose proof (dk_table _ _ Hd) as Ht.
  destruct (slot_lookup m _ _ _ C k Hp Ht) as (p & l & _ & Et & El & Hc & _). assert (Hin : (x, (k, v)) ∈ l).
  { apply list_elem_of_fmap in Hx as ([x' [k' v0]] & -> & Hin). apply list_elem_of_In, in_concat in Hin as (l' & Hl' & Hin').
    apply list_elem_of_In in Hl', Hin'. apply list_elem_of_lookup in Hl' as (i & Ei).
    destruct (Forall2_lookup_r _ _ _ _ _ (to_chains _ _ _ _ Ht) Ei) as (p' & _ & Hc'). destruct (chain_item _ _ _ _ _ _ Hc' Hin') as (n' & En).
    cbn in Ex. rewrite Ex in En. injection En as <- <- <-. eapply (slot_elem _ _ _ C l (x', (k, v)) Ht); [by apply (elem_concat C i l')|exact El]. }
  pose proof (chain_nodup d C _ l Hd El) as Hdl. destruct (item_split C _ l x k v El Hin) as (l1 & l2 & R & -> & EP & HP & _). specialize (HP v').
  eexists. split.
  2: { destruct (map_of_cons _ R x k v' ltac:(rewrite HP; pose proof (dk_keys _ _ Hd) as Hnd; by rewrite EP in Hnd) HP) as [-> _].
       destruct (map_of_cons C R x k v (dk_keys _ _ Hd) EP) as [-> _]. by rewrite insert_insert_eq. }
  split; cbn [table d_size sizemask used entries brk].
  - right. by exists m.
  - rewrite <- (list_insert_id (table d) _ p Et) at 1. apply (table_update m (entries d) _ _ _ _ (l1 ++ (x, (k, v)) :: l2)); try done.
    + by apply (chain_set_val _ _ _ _ _ _ v).
    + pose proof (slot_all m _ _ _ C k _ Hp Ht El) as Ha. rewrite Forall_app, Forall_cons in Ha |- *. done.
    + intros q _ Hq. apply lookup_insert_ne. intros ->. apply Hq. rewrite fmap_app. apply elem_of_app. right. by left.
    + pose proof (to_nodup _ _ _ _ Ht) as Hnd. rewrite EP in Hnd. by rewrite HP.
  - rewrite HP. rewrite (dk_used _ _ Hd), EP. by rewrite !zlen_cons.
  - apply Hd.
  - pose proof (dk_keys _ _ Hd) as Hnd. rewrite EP in Hnd. by rewrite HP.
  - rewrite dom_insert_lookup_L by done. rewrite (dk_heap _ _ Hd). apply list_to_set_perm_L. by rewrite HP, EP.
  - pose proof (dk_fresh _ _ Hd) as Hf. rewrite EP in Hf. by rewrite HP.
Qed.

Lemma heap_elem d C x e : dict_ok d C -> entries d !! x = Some e -> x ∈ (concat C).*1.
Proof. intros Hd Ex. apply (elem_of_list_to_set (C := gset Z)). rewrite <- (dk_heap _ _ Hd). apply elem_of_dom. by eexists. Qed.

Lemma heap_sized d C x e : dict_ok d C -> entries d !! x = Some e -> d_size d <> 0.
Proof.
  intros Hd Ex Es. pose proof (heap_elem d C x e Hd Ex) as Hx. destruct (dk_shape _ _ Hd) as [[_ Et]|(n & Hn & E' & _)].
  - pose proof (to_chains _ _ _ _ (dk_table _ _ Hd)) as Hf. rewrite Et in Hf. inversion Hf; subst. by apply not_elem_of_nil in Hx.
  - rewrite E' in Es. apply (Z.pow_nonzero 2 n) in Es; lia.
Qed.

Lemma dictReplace_spec d C k v w : dict_ok d C -> used d < 2 ^ 31 -> exists d' C',
  dict_ok d' C' /\ match map_of C !! k with
  | None => let kw := dup_key ty k w in let vw := dup_val ty v kw.2 in
            dictReplace ty d k v w = Ok (d', vw.2, 1) /\ map_of C' = <[k := vw.1]> (map_of C)
  | Some v0 => let vw := dup_val ty v w in exists old, e_key old = k /\ e_val old = v0 /\
            dictReplace ty d k v w = Ok (d', dictFreeEntryVal ty old vw.2, 0) /\ map_of C' = <[k := vw.1]> (map_of C)
  end.
Proof.
  intros Hd Hu. unfold dictReplace. destruct (dictAdd_spec d C k v w Hd Hu) as (d1 & C1 & Hd1 & Hadd). destruct (map_of C !! k) as [v0|] eqn:Ek.
  2: { destruct Hadd as [-> EM]. cbn [mbind outcome_bind]. by exists d1, C1. }
  destruct Hadd as [-> EM]. cbn [mbind outcome_bind]. change (DICT_ERR =? DICT_OK) with false. cbn iota.
  destruct (dictFind_spec d1 C1 k Hd1) as (q & -> & Hq). cbn [mbind outcome_bind]. rewrite EM, Ek in Hq.
  destruct Hq as [[_ ?]|(Hq & v1 & n & Eq & [= <-])]; [done|]. unfold entry. rewrite Eq. cbn [mbind outcome_bind].
  destruct (dup_val ty v w) as [v' w'] eqn:Edv. cbn.
  destruct (dict_ok_set d1 C1 k v0 q v' n Hd1) as (C' & Hd' & EM'); [by eapply heap_sized|done|by eapply heap_elem|by rewrite EM|].
  eexists _, C'. split; [exact Hd'|]. exists (mkEntry k v0 n). rewrite EM', EM. done.
Qed.

(** ** Deleting *)

(** The entry before the one that is deleted. *)
Definition prev_of (prev : Z) (l1 : list item) : Z := default prev (last l1.*1).

Lemma delete_loop_spec (d : dict_t) w k h x v : forall fuel l1 l2 p prev, is_chain (entries d) p (l1 ++ (x, (k, v)) :: l2) -> k ∉ l1.*2.*1 ->
  (length l1 < fuel)%nat -> exists n, entries d !! x = Some (mkEntry k v n) /\
  delete_loop ty fuel d w k h prev p =
    (d1 ← (if negb (prev_of prev l1 =? 0) then
             pe ← entry (entries d) (prev_of prev l1);
             Ok (mkDict (table d) (d_size d) (sizemask d) (used d) (<[prev_of prev l1 := mkEntry (e_key pe) (e_val pe) n]> (entries d)) (brk d))
           else t ← slot_set (table d) h n; Ok (mkDict t (d_size d) (sizemask d) (used d) (entries d) (brk d)));
     Ok (mkDict (table d1) (d_size d1) (sizemask d1) (u64 (used d1 - 1)) (delete x (entries d1)) (brk d1),
         dictFreeEntryVal ty (mkEntry k v n) (dictFreeEntryKey ty (mkEntry k v n) w), DICT_OK)).
Proof.
  induction fuel as [|fuel IH]; intros l1 l2 p prev Hc Hk Hf; [lia|]. cbn [delete_loop]. destruct l1 as [|[y [ky vy]] l1]; cbn [is_chain app] in Hc.
  - destruct Hc as (-> & Hx & n & Ex & Hc). exists n. split; [done|]. rewrite (proj2 (Z.eqb_neq _ _) Hx). rewrite (entry_ok _ _ _ Ex). cbn [mbind outcome_bind e_key e_next].
    rewrite compare_eq, bool_decide_true by done. done.
  - destruct Hc as (-> & Hy & n & Ey & Hc). rewrite (proj2 (Z.eqb_neq _ _) Hy). rewrite (entry_ok _ _ _ Ey). cbn [mbind outcome_bind e_key e_next].
    cbn in Hk. apply not_elem_of_cons in Hk as [Hky Hk]. rewrite compare_eq, bool_decide_false by done.
    destruct (IH l1 l2 n y Hc Hk) as (n' & Ex & ->); [cbn in Hf; lia|]. exists n'. split; [done|].
    assert (prev_of prev ((y, (ky, vy)) :: l1) = prev_of y l1) as -> by (unfold prev_of; cbn; rewrite last_cons; by destruct (last l1.*1)). done.
Qed.

Lemma delete_loop_none (d : dict_t) w k h : forall fuel l p prev, is_chain (entries d) p l -> k ∉ l.*2.*1 -> (length l < fuel)%nat ->
  delete_loop ty fuel d w k h prev p = Ok (d, w, DICT_ERR).
Proof.
  induction fuel as [|fuel IH]; intros l p prev Hc Hk Hf; [lia|]. cbn [delete_loop]. destruct l as [|[y [ky vy]] l]; cbn [is_chain] in Hc; [by subst p|].
  destruct Hc as (-> & Hy & n & Ey & Hc). rewrite (proj2 (Z.eqb_neq _ _) Hy). rewrite (entry_ok _ _ _ Ey). cbn [mbind outcome_bind e_key e_next].
  cbn in Hk. apply not_elem_of_cons in Hk as [Hky Hk]. rewrite compare_eq, bool_decide_false by done. apply (IH l); [done|done|cbn in Hf; lia].
Qed.

(** Unlinking an entry from the middle of a chain. *)
Lemma chain_unlink E l2 x k v n : forall l1 p, is_chain E p (l1 ++ (x, (k, v)) :: l2) -> NoDup (l1 ++ (x, (k, v)) :: l2).*1 -> E !! x = Some (mkEntry k v n) ->
  match last l1.*1 with
  | None => p = x /\ is_chain (delete x E) n l2
  | Some pr => pr <> 0 /\ exists pe, E !! pr = Some pe /\ is_chain (delete x (<[pr := mkEntry (e_key pe) (e_val pe) n]> E)) p (l1 ++ l2)
  end.
Proof.
  induction l1 as [|[y [ky vy]] l1 IH]; intros p Hc Hd Ex; cbn [app is_chain] in Hc; cbn in Hd; apply NoDup_cons in Hd as [Hy Hd].
  - destruct Hc as (-> & _ & n' & Ex' & Hc). rewrite Ex in Ex'. injection Ex' as <-. cbn. split; [done|]. eapply is_chain_ext; [|exact Hc].
    intros q Hq. apply lookup_delete_ne. congruence.
  - destruct Hc as (-> & Hy0 & m & Ey & Hc). specialize (IH m Hc Hd Ex). cbn. rewrite last_cons. assert (Hyx : y <> x) by (intros ->; apply Hy; rewrite fmap_app; apply elem_of_app; right; by left).
    destruct (last l1.*1) as [pr|] eqn:El; cbn.
    + destruct IH as (Hpr & pe & Epr & IH). split; [done|]. exists pe. split; [done|]. split_and!; [done|done|]. exists m. split; [|done].
      rewrite lookup_delete_ne by done. rewrite lookup_insert_ne; [done|]. intros ->. apply Hy. rewrite fmap_app. apply elem_of_app. left.
      by apply last_Some_elem_of.
    + destruct IH as (-> & IH). split; [done|]. exists (mkEntry ky vy x). split; [done|]. split_and!; [done|done|]. exists n.
      assert (l1 = []) as -> by (destruct l1; [done|]; by rewrite fmap_cons, last_cons in El; destruct (last l1.*1)). cbn in *.
      rewrite lookup_delete_ne, lookup_insert_eq by done. split; [done|]. eapply is_chain_ext; [|exact IH].
      intros q Hq. destruct (decide (q = x)) as [->|Hqx]; [by rewrite !lookup_delete_eq|]. rewrite !lookup_delete_ne by done.
      apply lookup_insert_ne. intros <-. apply Hy. by right.
Qed.

(** Taking an item out of the chain of its key. *)
Lemma dict_ok_pop d C k l1 l2 x v p' E' : dict_ok d C -> d_size d <> 0 -> C !! Z.to_nat (slot_of (sizemask d) k) = Some (l1 ++ (x, (k, v)) :: l2) ->
  is_chain E' p' (l1 ++ l2) -> dom E' = dom (entries d) ∖ {[x]} -> (forall q, q ∉ (l1 ++ (x, (k, v)) :: l2).*1 -> E' !! q = entries d !! q) ->
  let C' := <[Z.to_nat (slot_of (sizemask d) k) := l1 ++ l2]> C in
  dict_ok (mkDict (<[Z.to_nat (slot_of (sizemask d) k) := p']> (table d)) (d_size d) (sizemask d) (u64 (used d - 1)) E' (brk d)) C' /\
  map_of C' = delete k (map_of C).
Proof.
  intros Hd Hs El Hc Hdom He C'. destruct (dict_size d C Hd Hs) as (m & Hm & E2 & Hp). pose proof (dk_table _ _ Hd) as Ht.
  destruct (item_split C _ _ x k v El) as (l1' & l2' & R & El' & EP & _ & HP); [apply elem_of_app; right; by left|].
  assert (HC' : concat C' ≡ₚ R).
  { destruct (concat_insert C _ _ El) as (R' & EP' & Hins). unfold C'. rewrite Hins. rewrite EP, <- Permutation_middle in EP'. by apply Permutation_cons_inv in EP'. }
  clear HP El'. pose proof (to_nodup _ _ _ _ Ht) as Hnd. pose proof (dk_keys _ _ Hd) as Hkd. pose proof (dk_fresh _ _ Hd) as [Hb Hfr]. pose proof (dk_used _ _ Hd) as Hu. pose proof (dk_small _ _ Hd). pose proof (zlen_nonneg R).
  pose proof (map_of_cons C R x k v Hkd EP) as [EM Hk]. rewrite EP in Hnd, Hkd, Hfr, Hu. cbn in Hnd, Hkd, Hfr.
  apply NoDup_cons in Hnd as [Hx Hnd]. apply NoDup_cons in Hkd as [Hkx Hkd]. apply Forall_cons in Hfr as [Hxb Hfr]. split.
  2: { rewrite EM, delete_insert_id by done. unfold map_of. apply list_to_map_proper; by rewrite HC'. }
  split; cbn [table d_size sizemask used entries brk].
  - right. exists m. split_and!; [done|done|]. destruct Hp as (? & ? & ?). split; [done|]. split; [|done]. unfold zlen. by rewrite length_insert.
  - apply (table_update m (entries d) _ _ _ _ (l1 ++ (x, (k, v)) :: l2)); try done.
    + pose proof (slot_all m _ _ _ C k _ Hp Ht El) as Ha. rewrite Forall_app, Forall_cons in Ha. apply Forall_app. by destruct Ha as (? & _ & ?).
    + intros q _ Hq. by apply He.
    + fold C'. by rewrite HC'.
  - rewrite HC'. rewrite zlen_cons in Hu. rewrite u64_small; lia.
  - rewrite zlen_cons in Hu. rewrite u64_small; lia.
  - by rewrite HC'.
  - rewrite Hdom, (dk_heap _ _ Hd). rewrite (list_to_set_perm_L (concat C).*1 (x :: R.*1)) by (by rewrite EP). rewrite (list_to_set_perm_L (concat C').*1 R.*1) by (by rewrite HC').
    cbn. assert (x ∉ (list_to_set R.*1 : gset Z)) by (by rewrite elem_of_list_to_set). set_solver.
  - split; [done|]. by rewrite HC'.
Qed.

Lemma dom_frame (E : gmap Z entry_t) pr pe x : is_Some (E !! pr) -> dom (delete x (<[pr := pe]> E)) = dom E ∖ {[x]}.
Proof. intros Hp. by rewrite dom_delete_L, dom_insert_lookup_L. Qed.

(** What a deletion does to the chains. *)
Definition deleted (d d' : dict_t) C C' k v : Prop :=
  dict_ok d' C' /\ map_of C' = delete k (map_of C) /\ d_size d' = d_size d /\ length (table d') = length (table d) /\
  exists i l1 l2 x, C !! i = Some (l1 ++ (x, (k, v)) :: l2) /\ C' = <[i := l1 ++ l2]> C.

Lemma dictDelete_spec d C k w : dict_ok d C ->
  match map_of C !! k with
  | None => dictDelete ty d k w = Ok (d, w, DICT_ERR)
  | Some v => exists d' C' old, e_key old = k /\ e_val old = v /\
      dictDelete ty d k w = Ok (d', dictFreeEntryVal ty old (dictFreeEntryKey ty old w), DICT_OK) /\ deleted d d' C C' k v
  end.
Proof.
  intros Hd. unfold dictDelete. destruct (Z.eqb_spec (d_size d) 0) as [Es|Es].
  { destruct (map_of C !! k) as [v|] eqn:Ek; [|done]. destruct (dictFind_spec d C k Hd) as (q & _ & [[_ En]|(_ & v' & n & Eq & _)]); [congruence|].
    by destruct (heap_sized d C q _ Hd Eq). }
  destruct (dict_size d C Hd Es) as (m & Hm & E2 & Hp). destruct (search_spec d C k Hd Es) as (p & l & q & Eg & El & Hc & _ & Hq). fold (slot_of (sizemask d) k). rewrite Eg. cbn [mbind outcome_bind].
  pose proof (chain_nodup d C _ l Hd El) as Hdl. pose proof (chain_size _ _ _ Hc Hdl) as Hsz.
  destruct Hq as [[_ Hk]|(Hq & v & Hin & Hk)]; rewrite Hk.
  { apply (delete_loop_none _ _ _ _ _ l); [done| |unfold chain_fuel; lia]. intros Hin. apply list_elem_of_fmap in Hin as ([k' v'] & -> & Hin).
    apply list_elem_of_fmap in Hin as ([x kv] & E' & Hin). cbn in E'. subst kv. assert (map_of C !! k' = Some v') by (apply map_of_Some; [apply Hd|]; exists x; by eapply elem_concat). cbn in Hk. congruence. }
  apply list_elem_of_split in Hin as (l1 & l2 & ->).
  assert (Hk1 : k ∉ l1.*2.*1).
  { pose proof (dk_keys _ _ Hd) as Hnd. destruct (concat_insert C _ _ El) as (R & EP & _). rewrite EP, <- app_assoc, !fmap_app in Hnd. apply NoDup_app in Hnd as (_ & Hnd & _).
    intros Hin. apply (Hnd k Hin). apply elem_of_app. left. cbn. by left. }
  destruct (delete_loop_spec d w k (slot_of (sizemask d) k) q v (chain_fuel d) l1 l2 p 0 Hc Hk1) as (n & Ex & ->).
  { rewrite length_app in Hsz. unfold chain_fuel. lia. }
  pose proof (chain_unlink _ l2 q k v n l1 p Hc Hdl Ex) as Hun. unfold prev_of. destruct (last l1.*1) as [pr|] eqn:El1; cbn [from_option]; unfold id.
  - destruct Hun as (Hpr & pe & Epe & Hun). rewrite (proj2 (Z.eqb_neq _ _) Hpr), (entry_ok _ _ _ Epe). cbn [negb mbind outcome_bind].
    destruct (slot_lookup m _ _ _ C k Hp (dk_table _ _ Hd)) as (p0 & l0 & Eg0 & Et & _). rewrite Eg in Eg0. injection Eg0 as <-.
    destruct (dict_ok_pop d C k l1 l2 q v p _ Hd Es El Hun) as [Hd' EM]; [apply dom_frame; by eexists| |].
    { intros z Hz. rewrite lookup_delete_ne, lookup_insert_ne; [done| |]; intros ->; apply Hz; rewrite fmap_app; apply elem_of_app; [left; by apply last_Some_elem_of|right; by left]. }
    rewrite (list_insert_id (table d) _ p Et) in Hd'. eexists _, _, (mkEntry k v n). split_and!; [done|done|done|]. split; [exact Hd'|]. split_and!; try done. by eexists _, _, _, _.
  - destruct Hun as (-> & Hun). cbn [negb Z.eqb]. destruct (slot_lookup m _ _ _ C k Hp (dk_table _ _ Hd)) as (p0 & l0 & _ & _ & _ & _ & Est). rewrite Est. cbn [mbind outcome_bind].
    assert (l1 = []) as -> by (destruct l1; [done|]; rewrite fmap_cons, last_cons in El1; by destruct (last l1.*1)). cbn [app] in *.
    destruct (dict_ok_pop d C k [] l2 q v n _ Hd Es El Hun) as [Hd' EM]; [by rewrite dom_delete_L| |].
    { intros z Hz. apply lookup_delete_ne. intros ->. apply Hz. by left. }
    eexists _, _, (mkEntry k v n). split_and!; [done|done|done|]. split; [exact Hd'|]. split_and!; [done|done|cbn; apply length_insert|]. by eexists _, [], _, _.
Qed.

(** ** Clearing *)

Definition free_item (w : W) (it : item) : W :=
  dictFreeEntryVal ty (mkEntry it.2.1 it.2.2 0) (dictFreeEntryKey ty (mkEntry it.2.1 it.2.2 0) w).

Lemma clear_chain_spec : forall fuel l (d : dict_t) w he, is_chain (entries d) he l -> NoDup l.*1 -> (length l < fuel)%nat -> zlen l <= used d < 2 ^ 64 ->
  exists E', clear_chain ty fuel d w he = Ok (mkDict (table d) (d_size d) (sizemask d) (used d - zlen l) E' (brk d), foldl free_item w l) /\
  dom E' = dom (entries d) ∖ list_to_set l.*1 /\ forall q, q ∉ l.*1 -> E' !! q = entries d !! q.
Proof.
  induction fuel as [|fuel IH]; intros l d w he Hc Hd Hf Hu; [lia|]. cbn [clear_chain]. destruct l as [|[x [k v]] l]; cbn [is_chain] in Hc.
  { subst he. exists (entries d). rewrite Z.sub_0_r. split_and!; [by destruct d|set_solver|done]. }
  destruct Hc as (-> & Hx & n & Ex & Hc). cbn in Hd. apply NoDup_cons in Hd as [Hxn Hd]. rewrite (proj2 (Z.eqb_neq _ _) Hx), (entry_ok _ _ _ Ex). cbn [mbind outcome_bind e_key e_next].
  rewrite zlen_cons in Hu |- *. pose proof (zlen_nonneg l). cbn in Hf.
  destruct (IH l (mkDict (table d) (d_size d) (sizemask d) (u64 (used d - 1)) (delete x (entries d)) (brk d)) (free_item w (x, (k, v))) n) as (E' & Er & Hdom & He); cbn [used entries table d_size sizemask brk] in *.
  - eapply is_chain_ext; [|exact Hc]. intros q Hq. apply lookup_delete_ne. congruence.
  - done.
  - lia.
  - rewrite u64_small; lia.
  - exists E'. split_and!.
    + etrans; [exact Er|]. rewrite u64_small by lia. cbn [foldl]. do 3 f_equal. lia.
    + rewrite Hdom, dom_delete_L. cbn. set_solver.
    + intros q Hq. cbn in Hq. apply not_elem_of_cons in Hq as [Hqx Hq]. rewrite He by done. by apply lookup_delete_ne.
Qed.

Lemma clear_loop_spec : forall n i D (d : dict_t) w, Forall2 (is_chain (entries d)) (drop i (table d)) D -> length (table d) = (i + n)%nat ->
  NoDup (concat D).*1 -> used d = zlen (concat D) -> used d < 2 ^ 64 ->
  exists E', clear_loop ty n (Z.of_nat i) d w = Ok (mkDict (table d) (d_size d) (sizemask d) 0 E' (brk d), foldl free_item w (concat D)) /\
  dom E' = dom (entries d) ∖ list_to_set (concat D).*1.
Proof.
  induction n as [|n IH]; intros i D d w HD Hn Hd Hu Hb; cbn [clear_loop].
  { rewrite drop_ge in HD by lia. inversion HD; subst. cbn in *. exists (entries d). split; [destruct d; cbn in *; by subst|set_solver]. }
  destruct (Z.gtb_spec (used d) 0) as [Hpos|Hz].
  2: { assert (concat D = []) as E0 by (apply nil_length_inv; unfold zlen in Hu; lia). exists (entries d). rewrite E0 in Hu |- *. cbn in Hu. split; [destruct d; cbn in *; by subst|set_solver]. }
  destruct (lookup_lt_is_Some_2 (table d) i) as [p Ep]; [lia|]. rewrite (drop_S _ p i Ep) in HD. inversion HD as [|? l ? D' Hc HD']; subst.
  unfold slot_get. rewrite (proj2 (Z.ltb_ge _ _)), Nat2Z.id, Ep by lia. cbn [mbind outcome_bind]. cbn [concat] in *. rewrite fmap_app in Hd. apply NoDup_app in Hd as (Hdl & Hdis & Hd).
  rewrite zlen_app in Hu. pose proof (zlen_nonneg l). pose proof (zlen_nonneg (concat D')).
  destruct (clear_chain_spec (chain_fuel d) l d w p Hc Hdl) as (E1 & -> & Hdom1 & He1); [pose proof (chain_size _ _ _ Hc Hdl); unfold chain_fuel; lia|lia|].
  cbn [mbind outcome_bind]. rewrite Z.add_1_r, <- Nat2Z.inj_succ. edestruct (IH (S i) D' (mkDict (table d) (d_size d) (sizemask d) (used d - zlen l) E1 (brk d))) as (E' & Er & Hdom); cbn [used entries table d_size sizemask brk] in *.
  - eapply chains_ext; [|exact HD']. intros q Hq. apply He1. intros Hq'. by apply (Hdis q).
  - lia.
  - done.
  - lia.
  - lia.
  - exists E'. rewrite foldl_app. split; [exact Er|]. rewrite Hdom, Hdom1, fmap_app, list_to_set_app_L. set_solver.
Qed.

Lemma _dictClear_spec d C w : dict_ok d C -> exists d', _dictClear ty d w = Ok (d', foldl free_item w (concat C), DICT_OK) /\ dict_ok d' [] /\ entries d' = ∅.
Proof.
  intros Hd. unfold _dictClear. pose proof (dk_small _ _ Hd). pose proof (dk_table _ _ Hd) as Ht.
  destruct (clear_loop_spec (Z.to_nat (d_size d)) 0 C d w) as (E' & Er & Hdom); [apply Ht| |apply Ht|apply Hd|lia|].
  { destruct (dk_shape _ _ Hd) as [[-> ->]|(m & _ & -> & _ & Hl & _)]; [done|]. unfold zlen in Hl. lia. }
  change (Z.of_nat 0) with 0 in Er. rewrite Er. cbn [mbind outcome_bind]. assert (E' = ∅) as ->.
  { apply (dom_empty_inv_L (D := gset Z)). rewrite Hdom, (dk_heap _ _ Hd). set_solver. }
  eexists. split; [done|]. split; [|done].
  split; [by left|split; [apply Forall2_nil_2|done|apply NoDup_nil_2]|done|done|apply NoDup_nil_2|done|split; [apply Hd|apply Forall_nil_2]].
Qed.

(** ** Iterating *)

(** [iter_at d C it rest]: the iterator has the items [rest] of the table before it. *)
Definition iter_at (d : dict_t) C (it : dictIterator) (rest : list item) : Prop := exists l,
  rest = l ++ concat (drop (Z.to_nat (it_index it + 1)) C) /\ -1 <= it_index it < zlen (table d) /\
  (if it_entry it =? 0 then l = []
   else 0 <= it_index it /\ is_chain (entries d) (it_next it) l /\ exists l0, C !! Z.to_nat (it_index it) = Some (l0 ++ l)).

Lemma iter_start d C : iter_at d C dictGetIterator (concat C).
Proof. exists []. split_and!; [done|done|cbn; pose proof (zlen_nonneg (table d)); lia|done]. Qed.

Definition next_result (d : dict_t) C (rest : list item) (r : outcome (dictIterator * Z)) : Prop :=
  match rest with
  | [] => exists it', r = Ok (it', 0)
  | (x, _) :: rest => x <> 0 /\ exists it', r = Ok (it', x) /\ iter_at d C it' rest
  end.

(** The chain at [p] is the rest of slot [idx]. *)
Lemma next_chain d C idx p l0 l rest : is_chain (entries d) p l -> C !! Z.to_nat idx = Some (l0 ++ l) -> 0 <= idx < zlen (table d) -> p <> 0 ->
  rest = l ++ concat (drop (Z.to_nat (idx + 1)) C) ->
  next_result d C rest (e ← entry (entries d) p; Ok (mkIter idx p (e_next e), p)).
Proof.
  intros Hc Ei Hi Hp ->. destruct l as [|[x [k v]] l]; cbn [is_chain] in Hc; [done|]. destruct Hc as (-> & _ & n & Ex & Hc). rewrite (entry_ok _ _ _ Ex).
  cbn. split; [done|]. eexists. split; [done|]. exists l. cbn. rewrite (proj2 (Z.eqb_neq _ _) Hp). split_and!; try done; try lia. exists (l0 ++ [(x, (k, v))]). by rewrite <- app_assoc.
Qed.

Lemma next_loop_spec d C : dict_ok d C -> d_size d = zlen (table d) -> zlen (table d) < 2 ^ 31 -> forall fuel it rest, iter_at d C it rest ->
  zlen (table d) - it_index it + (if it_entry it =? 0 then 0 else 1) <= Z.of_nat fuel -> next_result d C rest (next_loop fuel d it).
Proof.
  intros Hd Hsz Hb. pose proof (to_chains _ _ _ _ (dk_table _ _ Hd)) as Hf. pose proof (Forall2_length _ _ _ Hf) as Hlen.
  induction fuel as [|fuel IH]; intros it rest (l & -> & Hi & Hl) Hfu; [destruct (it_entry it =? 0); lia|]. cbn [next_loop]. destruct (it_entry it =? 0) eqn:Ee.
  - subst l. cbn [app]. rewrite i32_small by (unfold is_i32; lia). rewrite (i32_small (d_size d)) by (unfold is_i32; pose proof (zlen_nonneg (table d)); lia).
    destruct (Z.geb_spec (it_index it + 1) (d_size d)) as [Hge|Hlt]; cbn [mbind outcome_bind].
    + rewrite drop_ge by (unfold zlen in *; lia). cbn. by eexists.
    + destruct (lookup_lt_is_Some_2 (table d) (Z.to_nat (it_index it + 1))) as [p Ep]; [unfold zlen in *; lia|].
      destruct (Forall2_lookup_l _ _ _ _ _ Hf Ep) as (l & El & Hc). unfold slot_get. rewrite (proj2 (Z.ltb_ge _ _)), Ep by lia. cbn [mbind outcome_bind it_entry it_index].
      rewrite (drop_S _ l _ El). cbn [concat]. replace (S (Z.to_nat (it_index it + 1))) with (Z.to_nat (it_index it + 1 + 1)) by lia.
      destruct (Z.eqb_spec p 0) as [->|Hp]; [|apply (next_chain d C _ p [] l); [done|done|lia|done|done]].
      apply IH; [|cbn; lia]. exists []. cbn. split_and!; try lia; [|done]. destruct l as [|[x [k v]] l]; [done|]. cbn in Hc. by destruct Hc as (-> & ? & _).
  - destruct Hl as (Hi0 & Hc & l0 & El). cbn [mbind outcome_bind it_entry it_index]. destruct (Z.eqb_spec (it_next it) 0) as [E0|Hp]; [|apply (next_chain d C _ _ l0 l); [done|done|lia|done|done]].
    apply IH; [|cbn; rewrite E0; cbn; lia]. exists []. cbn. rewrite E0. cbn. split_and!; try lia; [|done].
    destruct l as [|[x [k v]] l]; [done|]. cbn in Hc. destruct Hc as (? & ? & _). congruence.
Qed.

Lemma sized_table d C : dict_ok d C -> d_size d = zlen (table d).
Proof. intros Hd. destruct (dk_shape _ _ Hd) as [[-> ->]|(m & _ & -> & _ & -> & _)]; done. Qed.

Lemma dictNext_spec d C it rest : dict_ok d C -> d_size d < 2 ^ 31 -> iter_at d C it rest -> next_result d C rest (dictNext d it).
Proof.
  intros Hd Hb Hit. pose proof (sized_table d C Hd) as Hs. rewrite Hs in Hb. apply (next_loop_spec d C Hd Hs Hb _ _ _ Hit).
  destruct Hit as (l & _ & Hi & Hl). unfold zlen in *. destruct (it_entry it =? 0); [lia|]. destruct Hl as [? _]. lia.
Qed.

Lemma chain_suffix E p l0 l : is_chain E p (l0 ++ l) -> exists n, is_chain E n l.
Proof. revert p. induction l0 as [|[x [k v]] l0 IH]; intros p; cbn; [by eexists|]. intros (_ & _ & n & _ & Hc). by eapply IH. Qed.

Lemma chain_head E E' p p' l : is_chain E p l -> is_chain E' p' l -> p = p'.
Proof. destruct l as [|[x [k v]] l]; cbn; [congruence|]. intros (-> & _) (-> & _). done. Qed.

(** Deleting an item that is not before the iterator leaves what is before it. *)
Lemma iter_delete d d' C C' k v it rest : deleted d d' C C' k v -> iter_at d C it rest -> (forall x, (x, (k, v)) ∉ rest) -> iter_at d' C' it rest.
Proof.
  intros (Hd' & _ & _ & Hlen & i & l1 & l2 & x & Ei & ->) (l & -> & Hi & Hl) Hx. specialize (Hx x). rewrite not_elem_of_app in Hx. destruct Hx as [Hxl Hxr].
  assert (Hle : (i < Z.to_nat (it_index it + 1))%nat).
  { destruct (decide (i < Z.to_nat (it_index it + 1))%nat) as [|Hge]; [done|]. exfalso. apply Hxr. apply (elem_concat _ (i - Z.to_nat (it_index it + 1)) (l1 ++ (x, (k, v)) :: l2)).
    - rewrite lookup_drop. rewrite <- Ei. f_equal. lia.
    - apply elem_of_app. right. by left. }
  exists l. rewrite drop_insert_lt by lia. split; [done|]. split; [unfold zlen in *; lia|]. destruct (it_entry it =? 0); [done|]. destruct Hl as (Hi0 & Hc & l0 & El).
  assert (Hsuf : exists l0', <[i := l1 ++ l2]> C !! Z.to_nat (it_index it) = Some (l0' ++ l)).
  { destruct (decide (i = Z.to_nat (it_index it))) as [->|Hne]; [|rewrite list_lookup_insert_ne by done; by exists l0].
    rewrite list_lookup_insert_eq by (by eapply lookup_lt_Some). rewrite Ei in El. injection El as El. apply app_eq_inv in El as [(m & E1 & E2)|(m & E1 & E2)].
    - exfalso. apply Hxl. rewrite E2. apply elem_of_app. right. by left.
    - destruct m as [|y m]; cbn in E2; [exfalso; apply Hxl; rewrite <- E2; by left|]. injection E2 as <- ->. exists (l1 ++ m). by rewrite app_assoc. }
  split_and!; [done| |done]. destruct Hsuf as (l0' & El'). destruct (Forall2_lookup_r _ _ _ _ _ (to_chains _ _ _ _ (dk_table _ _ Hd')) El') as (p' & _ & Hc').
  destruct (chain_suffix _ _ _ _ Hc') as (n & Hn). by rewrite (chain_head _ _ _ _ _ Hc Hn).
Qed.

(** A client's loop: every entry that the iterator returns is visited, and deleted
    where [del] says so. *)
Fixpoint each (fuel : nat) (del : K -> bool) (d : dict_t) (w : W) (it : dictIterator) : outcome (dict_t * W * list (K * V)) :=
  match fuel with
  | O => Crash OutOfFuel
  | S fuel =>
    '(it, p) ← dictNext d it;
    if p =? 0 then Ok (d, w, []) else
    e ← entry (entries d) p;
    '(d, w) ← (if del (e_key e) then '(d, w, _) ← dictDelete ty d (e_key e) w; Ok (d, w) else Ok (d, w));
    '(d, w, l) ← each fuel del d w it;
    Ok (d, w, (e_key e, e_val e) :: l)
  end.

Definition drop_key (del : K -> bool) (m : gmap K V) (it : item) : gmap K V := if del it.2.1 then delete it.2.1 m else m.

Lemma iter_incl d C it rest x : iter_at d C it rest -> x ∈ rest -> x ∈ concat C.
Proof.
  intros (l & -> & Hi & Hl) [Hin|Hin]%elem_of_app.
  - destruct (it_entry it =? 0); [subst; by apply not_elem_of_nil in Hin|]. destruct Hl as (_ & _ & l0 & El). eapply elem_concat; [done|]. apply elem_of_app. by right.
  - rewrite <- (take_drop (Z.to_nat (it_index it + 1)) C), concat_app. apply elem_of_app. by right.
Qed.

Lemma item_entry d C x k v : dict_ok d C -> (x, (k, v)) ∈ concat C -> exists n, entries d !! x = Some (mkEntry k v n).
Proof.
  intros Hd Hin. apply list_elem_of_In, in_concat in Hin as (l & Hl & Hin). apply list_elem_of_In in Hl, Hin. apply list_elem_of_lookup in Hl as (i & Ei).
  destruct (Forall2_lookup_r _ _ _ _ _ (to_chains _ _ _ _ (dk_table _ _ Hd)) Ei) as (p & _ & Hc). by eapply chain_item.
Qed.

Lemma each_spec del : forall rest fuel d C w it, dict_ok d C -> d_size d < 2 ^ 31 -> iter_at d C it rest -> NoDup rest.*2 -> (length rest < fuel)%nat ->
  exists d' C' w', each fuel del d w it = Ok (d', w', rest.*2) /\ dict_ok d' C' /\ map_of C' = foldl (drop_key del) (map_of C) rest.
Proof.
  induction rest as [|[x [k v]] rest IH]; intros [|fuel] d C w it Hd Hs Hit Hnd Hf; cbn in Hf; try lia; cbn [each]; pose proof (dictNext_spec d C it _ Hd Hs Hit) as Hn.
  { destruct Hn as (it' & ->). by exists d, C, w. }
  destruct Hn as (Hx & it' & -> & Hit'). assert (Hin : (x, (k, v)) ∈ concat C) by (eapply iter_incl; [exact Hit|by left]).
  destruct (item_entry d C x k v Hd Hin) as (n & Ex). cbn [mbind outcome_bind]. rewrite (proj2 (Z.eqb_neq _ _) Hx), (entry_ok _ _ _ Ex). cbn [mbind outcome_bind e_key e_val].
  cbn in Hnd. apply NoDup_cons in Hnd as [Hkv Hnd]. cbn [foldl]. unfold drop_key at 2. cbn [fst snd]. destruct (del k).
  - pose proof (dictDelete_spec d C k w Hd) as Hdel. rewrite (proj2 (map_of_Some C k v (dk_keys _ _ Hd))) in Hdel by (by eexists).
    destruct Hdel as (d1 & C1 & old & _ & _ & -> & Hdel). cbn [mbind outcome_bind].
    edestruct (IH fuel d1 C1) as (d' & C' & w' & -> & Hd' & EM); [apply Hdel|destruct Hdel as (_ & _ & -> & _); exact Hs| |done|lia|].
    + eapply iter_delete; [exact Hdel|exact Hit'|]. intros y Hy. apply Hkv. apply list_elem_of_fmap. by exists (y, (k, v)).
    + cbn [mbind outcome_bind]. exists d', C', w'. split_and!; [done|done|]. rewrite EM. by destruct Hdel as (_ & -> & _).
  - cbn [mbind outcome_bind]. edestruct (IH fuel d C w it') as (d' & C' & w' & -> & Hd' & EM); [done|done|exact Hit'|done|lia|]. cbn [mbind outcome_bind]. by exists d', C', w'.
Qed.

Lemma drop_keys_lookup del rest : forall (m : gmap K V) k, foldl (drop_key del) m rest !! k = if bool_decide (k ∈ rest.*2.*1) && del k then None else m !! k.
Proof.
  induction rest as [|[x [k' v]] rest IH]; intros m k; cbn [foldl]; [by rewrite bool_decide_false by apply not_elem_of_nil|]. rewrite IH. unfold drop_key. cbn.
  destruct (bool_decide_reflect (k ∈ rest.*2.*1)) as [Hin|Hin].
  - rewrite bool_decide_true by (by right). cbn. destruct (del k) eqn:Ek; [done|]. destruct (del k') eqn:Ek'; [|done]. apply lookup_delete_ne. congruence.
  - destruct (decide (k = k')) as [->|Hne].
    + rewrite bool_decide_true by left. cbn. destruct (del k'); [apply lookup_delete_eq|done].
    + rewrite bool_decide_false by (by apply not_elem_of_cons). cbn. destruct (del k'); [by apply lookup_delete_ne|done].
Qed.
End chains.

(** ** Properties *)

(** C32: A well-formed table behaves as a finite map, for every hash function: a lookup
    finds the entry of a key that is in the map and null otherwise; an addition of a
    new key adds the copied value, growing the table when it is full, and of a known
    key changes nothing and fails; a replacement sets the copied value first and then
    frees the old one; a deletion frees key and value of the entry and removes it, and
    fails for an unknown key; clearing frees every entry once and leaves no entry
    allocated.  The invariant holds of the resulting table each time. *)
Theorem dict_refines_map {K V W} `{Countable K} (ty : dictType (K := K) (V := V) (W := W)) `{!dict_laws ty} (d : dict) (mp : gmap K V) (k : K) (v : V) (w : W)
  (Hd : holds ty d mp) (Hu : used d < 2 ^ 31) :
  (exists p, dictFind ty d k = Ok p /\ match mp !! k with None => p = 0 | Some v => p <> 0 /\ exists n, entries d !! p = Some (mkEntry k v n) end) /\
  (let kw := dup_key ty k w in let vw := dup_val ty v kw.2 in exists d', match mp !! k with
   | None => dictAdd ty d k v w = Ok (d', vw.2, DICT_OK) /\ holds ty d' (<[k := vw.1]> mp)
   | Some _ => dictAdd ty d k v w = Ok (d', w, DICT_ERR) /\ holds ty d' mp end) /\
  (let kw := dup_key ty k w in exists d', match mp !! k with
   | None => let vw := dup_val ty v kw.2 in dictReplace ty d k v w = Ok (d', vw.2, 1) /\ holds ty d' (<[k := vw.1]> mp)
   | Some v0 => let vw := dup_val ty v w in exists old, e_key old = k /\ e_val old = v0 /\
     dictReplace ty d k v w = Ok (d', dictFreeEntryVal ty old vw.2, 0) /\ holds ty d' (<[k := vw.1]> mp) end) /\
  match mp !! k with
  | None => dictDelete ty d k w = Ok (d, w, DICT_ERR)
  | Some v0 => exists d' old, e_key old = k /\ e_val old = v0 /\
    dictDelete ty d k w = Ok (d', dictFreeEntryVal ty old (dictFreeEntryKey ty old w), DICT_OK) /\ holds ty d' (delete k mp) end /\
  (exists d' items, items.*2 ≡ₚ map_to_list mp /\ _dictClear ty d w = Ok (d', foldl (free_item ty) w items, DICT_OK) /\ holds ty d' ∅ /\ entries d' = ∅).
Proof.
  destruct Hd as (C & Hd & ->). split_and!.
  - destruct (dictFind_spec ty d C k Hd) as (q & -> & [[-> ->]|(Hq & v1 & n & Eq & ->)]); [by exists 0|]. exists q. split; [done|]. split; [done|]. by exists n.
  - destruct (dictAdd_spec ty d C k v w Hd Hu) as (d' & C' & Hd' & Hr). exists d'. destruct (map_of C !! k); destruct Hr as [-> <-]; (split; [done|]); by exists C'.
  - destruct (dictReplace_spec ty d C k v w Hd Hu) as (d' & C' & Hd' & Hr). exists d'. destruct (map_of C !! k).
    + destruct Hr as (old & ? & ? & -> & EM). exists old. split_and!; try done. by exists C'.
    + destruct Hr as [-> EM]. split; [done|]. by exists C'.
  - pose proof (dictDelete_spec ty d C k w Hd) as Hr. destruct (map_of C !! k); [|done]. destruct Hr as (d' & C' & old & ? & ? & -> & Hd' & EM & _).
    exists d', old. split_and!; try done. exists C'. by rewrite <- EM.
  - destruct (_dictClear_spec ty d C w Hd) as (d' & -> & Hd' & HE). exists d', (concat C). split_and!; try done; [|by exists []].
    unfold map_of. symmetry. apply map_to_list_to_map, Hd.
Qed.

(** An iteration returns every entry of the table exactly once, also when the
    client deletes the entry that was returned last, and what is left is the map
    without the deleted keys. *)
Theorem dict_iterates_all {K V W} `{Countable K} (ty : dictType (K := K) (V := V) (W := W)) `{!dict_laws ty} (d : dict) (mp : gmap K V) (del : K -> bool) (w : W) (fuel : nat)
  (Hd : holds ty d mp) (Hs : d_size d < 2 ^ 31) (Hf : (size mp < fuel)%nat) : exists d' w' l,
  each ty fuel del d w dictGetIterator = Ok (d', w', l) /\ l ≡ₚ map_to_list mp /\ holds ty d' (filter (fun kv => del kv.1 = false) mp).
Proof.
  destruct Hd as (C & Hd & ->). assert (HP : (concat C).*2 ≡ₚ map_to_list (map_of C)) by (unfold map_of; symmetry; apply map_to_list_to_map, Hd).
  destruct (each_spec ty del (concat C) fuel d C w dictGetIterator Hd Hs (iter_start ty d C)) as (d' & C' & w' & Er & Hd' & EM).
  - apply (NoDup_fmap_1 fst). apply Hd.
  - rewrite <- (length_fmap snd (concat C)), HP, length_map_to_list. done.
  - exists d', w', (concat C).*2. split_and!; [done|done|]. exists C'. split; [done|]. rewrite EM. apply map_eq. intros k. rewrite (drop_keys_lookup ty), map_lookup_filter.
    destruct (map_of C !! k) as [v|] eqn:Ek; cbn; [|by destruct (_ && _)].
    rewrite bool_decide_true by (apply map_of_Some in Ek as [x Hin]; [|apply Hd]; apply list_elem_of_fmap; exists (k, v); split; [done|]; apply list_elem_of_fmap; by exists (x, (k, v))).
    cbn. destruct (del k) eqn:Edel; [rewrite option_guard_False by congruence|rewrite option_guard_True by done]; done.
Qed.

(** A table from byte strings to integers whose freed values are recorded. *)
Definition byte_type : dictType (K := list Z) (V := Z) (W := list Z) :=
  mkType dictGenHashFunction None None None None (Some (fun v w => w ++ [v])).

#[local] Instance byte_laws : dict_laws byte_type.
Proof. by split. Qed.

Definition five_keys : outcome (dict (K := list Z) (V := Z) * list Z * Z) :=
  '(d, w, _) ← dictAdd byte_type (dictCreate ∅ 1) [97] 1 [];
  '(d, w, _) ← dictAdd byte_type d [98] 2 w;
  '(d, w, _) ← dictAdd byte_type d [99] 3 w;
  '(d, w, _) ← dictAdd byte_type d [101] 4 w;
  dictAdd byte_type d [97; 98] 5 w.

Lemma five_keys_hold : exists d, five_keys = Ok (d, [], DICT_OK) /\ d_size d = 8 /\ used d = 5 /\ holds byte_type d (<[[97; 98] := 5]> (<[[101] := 4]> (<[[99] := 3]> (<[[98] := 2]> {[[97] := 1]})))).
Proof.
  assert (Hadd : forall d mp k v, holds byte_type d mp -> used d < 2 ^ 31 -> mp !! k = None -> exists d', dictAdd byte_type d k v [] = Ok (d', [], DICT_OK) /\ holds byte_type d' (<[k := v]> mp)).
  { intros d mp k v (C & Hd & ->) Hu Hk. destruct (dictAdd_spec byte_type d C k v [] Hd Hu) as (d' & C' & Hd' & Hr). rewrite Hk in Hr. destruct Hr as [Er EM]. exists d'. split; [done|]. by exists C'. }
  assert (holds byte_type (dictCreate ∅ 1) ∅) as H0 by (exists []; split; [apply dict_ok_create|done]).
  destruct (Hadd _ _ [97] 1 H0 ltac:(done) ltac:(done)) as (d1 & E1 & H1). vm_compute in E1. injection E1 as <-.
  destruct (Hadd _ _ [98] 2 H1 ltac:(done) ltac:(done)) as (d2 & E2 & H2). vm_compute in E2. injection E2 as <-.
  destruct (Hadd _ _ [99] 3 H2 ltac:(done) ltac:(done)) as (d3 & E3 & H3). vm_compute in E3. injection E3 as <-.
  destruct (Hadd _ _ [101] 4 H3 ltac:(done) ltac:(done)) as (d4 & E4 & H4). vm_compute in E4. injection E4 as <-.
  destruct (Hadd _ _ [97; 98] 5 H4 ltac:(done) ltac:(done)) as (d5 & E5 & H5). vm_compute in E5. injection E5 as <-.
  eexists. split; [vm_compute; reflexivity|]. split_and!; [done|done|]. exact H5.
Qed.

Definition five_map : gmap (list Z) Z := <[[97; 98] := 5]> (<[[101] := 4]> (<[[99] := 3]> (<[[98] := 2]> {[[97] := 1]}))).

Lemma dict_refines_map_witness : exists d d', five_keys = Ok (d, [], DICT_OK) /\ dictReplace byte_type d [98] 9 [] = Ok (d', [2], 0) /\
  holds byte_type d' (<[[98] := 9]> five_map).
Proof.
  destruct five_keys_hold as (d & E & _ & Eu & Hh). exists d.
  assert (Hu : used d < 2 ^ 31) by (rewrite Eu; lia).
  destruct (dict_refines_map byte_type d five_map [98] 9 [] Hh Hu) as (_ & _ & (d' & Hr) & _).
  assert (five_map !! [98] = Some 2) as Ek by (vm_compute; reflexivity). rewrite Ek in Hr.
  destruct Hr as (old & _ & Ev & Er & Hd'). exists d'. split; [exact E|]. split; [|exact Hd'].
  rewrite Er. unfold dictFreeEntryVal. cbn. rewrite Ev. reflexivity.
Defined.

Lemma dict_iterates_all_witness : exists d d' w l, five_keys = Ok (d, [], DICT_OK) /\
  each byte_type 6 (fun k => (length k =? 1)%nat) d [] dictGetIterator = Ok (d', w, l) /\ holds byte_type d' {[[97; 98] := 5]}.
Proof.
  destruct five_keys_hold as (d & E & Es & _ & Hh). exists d.
  assert (Hs : d_size d < 2 ^ 31) by (rewrite Es; lia).
  destruct (dict_iterates_all byte_type d five_map (fun k => (length k =? 1)%nat) [] 6 Hh Hs) as (d' & w & l & Er & _ & Hd').
  { vm_compute. lia. }
  exists d', w, l. split; [exact E|]. split; [exact Er|].
  assert (filter (fun kv : list Z * Z => (length kv.1 =? 1)%nat = false) five_map = {[[97; 98] := 5]}) as <- by (vm_compute; reflexivity). exact Hd'.
Defined.
