(* ===== verification/Sds.v ===== *)
(** * sds

    The dynamic strings of [hiredis/sds.c]: a header with the length and the free
    space, and the buffer, whose bytes are all modelled, the terminating NUL and
    the unused ones included.  A C string argument is the list of its bytes before
    the NUL; allocation succeeds and [junk] stands for uninitialised bytes. *)

From S2P Require Import Prelude Inet.

Definition SDS_MAX_PREALLOC : Z := 1024 * 1024.

Record sds := mkSds { sh_len : Z; sh_free : Z; sh_buf : list Z }.
#[export] Instance eta_sds : Eta sds := fun s => mkSds (sh_len s) (sh_free s) (sh_buf s).

Definition sdslen (s : sds) : Z := u64 (sh_len s).
Definition sdsavail (s : sds) : Z := u64 (sh_free s).

Section sds.
Context (junk : Z).

(** [sdsnewlen(init, initlen)]; [None] is a null [init]. *)
Definition sdsnewlen (init : option (list Z)) (initlen : Z) : outcome sds :=
  let n := Z.to_nat (initlen + 1) in
  buf ← match init with
        | Some src =>
            if initlen =? 0 then Ok (replicate n junk)
            else src ← read_at src 0 initlen; write_at (replicate n junk) 0 src
        | None => Ok (replicate n 0)
        end;
  buf ← write_at buf initlen [0];
  Ok (mkSds (i32 initlen) 0 buf).

Definition sdsempty : outcome sds := sdsnewlen (Some [0]) 0.
Definition sdsnew (init : option (list Z)) : outcome sds :=
  match init with
  | None => sdsnewlen None 0
  | Some s => sdsnewlen (Some (s ++ [0])) (zlen s)
  end.
Definition sdsdup (s : sds) : outcome sds := sdsnewlen (Some (sh_buf s)) (sdslen s).

(** [strlen]: the index of the first NUL. *)
Fixpoint strlen (l : list Z) : outcome Z :=
  match l with
  | [] => Crash OutOfBounds
  | c :: l => if c =? 0 then Ok 0 else n ← strlen l; Ok (1 + n)
  end.

Definition sdsupdatelen (s : sds) : outcome sds :=
  reallen ← strlen (sh_buf s);
  Ok (mkSds (i32 reallen) (i32 (sh_free s + (sh_len s - i32 reallen))) (sh_buf s)).

Definition sdsclear (s : sds) : outcome sds :=
  buf ← write_at (sh_buf s) 0 [0];
  Ok (mkSds 0 (i32 (sh_free s + sh_len s)) buf).

(** [realloc] of the buffer to [n] bytes. *)
Definition resize (buf : list Z) (n : Z) : list Z :=
  take (Z.to_nat n) buf ++ replicate (Z.to_nat n - length buf) junk.

Definition sdsMakeRoomFor (s : sds) (addlen : Z) : outcome sds :=
  if sdsavail s >=? addlen then Ok s else
  let len := sdslen s in
  let newlen := u64 (len + addlen) in
  let newlen := if newlen <? SDS_MAX_PREALLOC then u64 (newlen * 2) else u64 (newlen + SDS_MAX_PREALLOC) in
  Ok (mkSds (sh_len s) (i32 (newlen - len)) (resize (sh_buf s) (newlen + 1))).

Definition sdsRemoveFreeSpace (s : sds) : sds := mkSds (sh_len s) 0 (resize (sh_buf s) (sh_len s + 1)).

Definition sdsAllocSize (s : sds) : Z := u64 (8 + sh_len s + sh_free s + 1).

Definition sdsIncrLen (s : sds) (incr : Z) : outcome sds :=
  c_assert (sh_free s >=? incr) ;;
  let len := i32 (sh_len s + incr) in
  let free := i32 (sh_free s - incr) in
  c_assert (free >=? 0) ;;
  buf ← write_at (sh_buf s) len [0];
  Ok (mkSds len free buf).

Definition sdsgrowzero (s : sds) (len : Z) : outcome sds :=
  let curlen := u64 (sh_len s) in
  if len <=? curlen then Ok s else
  s ← sdsMakeRoomFor s (u64 (len - curlen));
  buf ← write_at (sh_buf s) curlen (replicate (Z.to_nat (len - curlen + 1)) 0);
  let totlen := u64 (sh_len s + sh_free s) in
  Ok (mkSds (i32 len) (i32 (totlen - i32 len)) buf).

(** [sdscatlen(s, t, len)] *)
Definition sdscatlen (s : sds) (t : list Z) (len : Z) : outcome sds :=
  let curlen := sdslen s in
  s ← sdsMakeRoomFor s len;
  src ← read_at t 0 len;
  buf ← write_at (sh_buf s) curlen src;
  buf ← write_at buf (curlen + len) [0];
  Ok (mkSds (i32 (curlen + len)) (i32 (sh_free s - len)) buf).

Definition sdscat (s : sds) (t : list Z) : outcome sds := sdscatlen s (t ++ [0]) (zlen t).
Definition sdscatsds (s t : sds) : outcome sds := sdscatlen s (sh_buf t) (sdslen t).

Definition sdscpylen (s : sds) (t : list Z) (len : Z) : outcome sds :=
  let totlen := u64 (sh_free s + sh_len s) in
  s ← (if totlen <? len then sdsMakeRoomFor s (u64 (len - sh_len s)) else Ok s);
  let totlen := u64 (sh_free s + sh_len s) in
  src ← read_at t 0 len;
  buf ← write_at (sh_buf s) 0 src;
  buf ← write_at buf len [0];
  Ok (mkSds (i32 len) (i32 (totlen - len)) buf).
Definition sdscpy (s : sds) (t : list Z) : outcome sds := sdscpylen s (t ++ [0]) (zlen t).

(** ** Numbers

    The digits of [v], least significant first; the loops write them and reverse
    them in place. *)
Fixpoint rev_digits (fuel : nat) (v : Z) : list Z :=
  match fuel with
  | O => []
  | S fuel => (48 + v `mod` 10) :: (if v `div` 10 =? 0 then [] else rev_digits fuel (v `div` 10))
  end.
Definition sdsll2str (value : Z) : list Z :=
  let v := if value <? 0 then u64 (- value) else value in
  reverse (rev_digits 20 v ++ (if value <? 0 then [45] else [])).
Definition sdsull2str (v : Z) : list Z := reverse (rev_digits 20 v).
Definition sdsfromlonglong (value : Z) : outcome sds :=
  let p := sdsll2str value in sdsnewlen (Some p) (zlen p).

(** ** Substrings *)

(** [strchr(cset, c)] also finds the terminating NUL. *)
Definition in_cset (cset : list Z) (c : Z) : bool := (c =? 0) || bool_decide (c ∈ cset).

Fixpoint trim_front (cset : list Z) (sp : Z) (l : list Z) : Z :=
  match l with
  | [] => sp
  | c :: l => if in_cset cset c then trim_front cset (sp + 1) l else sp
  end.
(** [ep] moves down while it is above [start]; [l] are the bytes from [ep] down. *)
Fixpoint trim_back (cset : list Z) (ep : Z) (l : list Z) : Z :=
  match l with
  | [] => ep
  | c :: l => if (ep >? 0) && in_cset cset c then trim_back cset (ep - 1) l else ep
  end.

Definition sdstrim (s : sds) (cset : list Z) : outcome sds :=
  content ← read_at (sh_buf s) 0 (sdslen s);
  let sp := trim_front cset 0 content in
  let ep := trim_back cset (sdslen s - 1) (reverse content) in
  let len := if sp >? ep then 0 else ep - sp + 1 in
  moved ← read_at (sh_buf s) sp len;
  buf ← write_at (sh_buf s) 0 moved;
  buf ← write_at buf len [0];
  Ok (mkSds (i32 len) (i32 (sh_free s + (sh_len s - len))) buf).

Definition sdsrange (s : sds) (start stop : Z) : outcome sds :=
  let len := sdslen s in
  if len =? 0 then Ok s else
  let fix_index i := if i <? 0 then let i := i32 (u64 (len + i)) in if i <? 0 then 0 else i else i in
  let start := fix_index start in
  let stop := fix_index stop in
  let newlen := if start >? stop then 0 else stop - start + 1 in
  let '(start, newlen) :=
    if negb (newlen =? 0) then
      if start >=? i32 len then (start, 0)
      else if stop >=? i32 len then
        let stop := i32 (len - 1) in (start, if start >? stop then 0 else stop - start + 1)
      else (start, newlen)
    else (0, newlen) in
  buf ← (if negb (start =? 0) && negb (newlen =? 0)
         then moved ← read_at (sh_buf s) start newlen; write_at (sh_buf s) 0 moved
         else Ok (sh_buf s));
  buf ← write_at buf newlen [0];
  Ok (mkSds (i32 newlen) (i32 (sh_free s + (sh_len s - newlen))) buf).

(** ** Characters *)

Definition tolower (c : Z) : Z := if (65 <=? c) && (c <=? 90) then c + 32 else c.
Definition toupper (c : Z) : Z := if (97 <=? c) && (c <=? 122) then c - 32 else c.

(** A loop over the bytes of the string. *)
Definition sds_map (f : Z -> Z) (s : sds) : sds :=
  s <| sh_buf := (f <$> take (Z.to_nat (sh_len s)) (sh_buf s)) ++ drop (Z.to_nat (sh_len s)) (sh_buf s) |>.
Definition sdstolower : sds -> sds := sds_map tolower.
Definition sdstoupper : sds -> sds := sds_map toupper.

Fixpoint map_char (from to : list Z) (c : Z) : Z :=
  match from, to with
  | f :: from, t :: to => if c =? f then t else map_char from to c
  | _, _ => c
  end.
Definition sdsmapchars (s : sds) (from to : list Z) (setlen : nat) : sds :=
  sds_map (map_char (take setlen from) (take setlen to)) s.

(** [memcmp]: the difference at the first byte that differs. *)
Fixpoint memcmp (a b : list Z) : Z :=
  match a, b with
  | x :: a, y :: b => if x =? y then memcmp a b else x - y
  | _, _ => 0
  end.
Definition sdscmp (s1 s2 : sds) : outcome Z :=
  let l1 := sdslen s1 in let l2 := sdslen s2 in
  let minlen := if l1 <? l2 then l1 else l2 in
  b1 ← read_at (sh_buf s1) 0 minlen;
  b2 ← read_at (sh_buf s2) 0 minlen;
  let cmp := memcmp b1 b2 in
  if cmp =? 0 then Ok (i32 (l1 - l2)) else Ok cmp.

(** ** Splitting and joining *)

(** The loop of [sdssplitlen]; [slots] is the capacity of [tokens]. *)
Fixpoint split_loop (fuel : nat) (s sep : list Z) (j start slots : Z) (tokens : list sds)
  : outcome (list sds * Z * Z) :=
  match fuel with
  | O => Crash OutOfFuel
  | S fuel =>
      if negb (j <? zlen s - (zlen sep - 1)) then Ok (tokens, start, slots)
      else
        let slots := if slots <? zlen tokens + 2 then slots * 2 else slots in
        c ← read_at s j 1;
        here ← (if (zlen sep =? 1) && bool_decide (c = take 1 sep) then Ok true
                else b ← read_at s j (zlen sep); Ok (bool_decide (memcmp b sep = 0)));
        if (here : bool) then
          part ← read_at s start (j - start);
          token ← sdsnewlen (Some part) (j - start);
          if slots <=? zlen tokens then Crash OutOfBounds else
          split_loop fuel s sep (j + zlen sep) (j + zlen sep) slots (tokens ++ [token])
        else split_loop fuel s sep (j + 1) start slots tokens
  end.

(** [sdssplitlen(s, len, sep, seplen, &count)] with the lengths of the arguments;
    [None] is null. *)
Definition sdssplitlen (s sep : list Z) : outcome (option (list sds)) :=
  if zlen sep <? 1 then Ok None else
  if zlen s =? 0 then Ok (Some []) else
  '(tokens, start, slots) ← split_loop (S (length s)) s sep 0 0 5 [];
  part ← read_at s start (zlen s - start);
  token ← sdsnewlen (Some part) (zlen s - start);
  if slots <=? zlen tokens then Crash OutOfBounds else
  Ok (Some (tokens ++ [token])).

(** [sdsjoinsds(argv, argc, sep, seplen)] *)
Fixpoint join_loop (join : sds) (argv : list sds) (sep : list Z) : outcome sds :=
  match argv with
  | [] => Ok join
  | a :: argv =>
      join ← sdscatsds join a;
      join ← (if bool_decide (argv = []) then Ok join else sdscatlen join sep (zlen sep));
      join_loop join argv sep
  end.
Definition sdsjoinsds (argv : list sds) (sep : list Z) : outcome sds :=
  join ← sdsempty; join_loop join argv sep.

(** [sdsjoin(argv, argc, sep, seplen)] on C strings. *)
Fixpoint joinc_loop (join : sds) (argv : list (list Z)) (sep : list Z) : outcome sds :=
  match argv with
  | [] => Ok join
  | a :: argv =>
      join ← sdscat join a;
      join ← (if bool_decide (argv = []) then Ok join else sdscatlen join sep (zlen sep));
      joinc_loop join argv sep
  end.
Definition sdsjoin (argv : list (list Z)) (sep : list Z) : outcome sds :=
  join ← sdsempty; joinc_loop join argv sep.

(** ** Quoting

    [isprint] and [isspace] of the C locale. *)
Definition isprint (c : Z) : bool := (32 <=? c) && (c <=? 126).
Definition isspace (c : Z) : bool := (c =? 32) || ((9 <=? c) && (c <=? 13)).

Definition QUOTE : Z := 34.
Definition BACKSLASH : Z := 92.
Definition hexdigit (d : Z) : Z := if d <? 10 then 48 + d else 87 + d.

(** What [sdscatrepr] appends for one byte. *)
Definition repr_char (c : Z) : list Z :=
  if (c =? BACKSLASH) || (c =? QUOTE) then [BACKSLASH; c]
  else if c =? 10 then [BACKSLASH; 110]
  else if c =? 13 then [BACKSLASH; 114]
  else if c =? 9 then [BACKSLASH; 116]
  else if c =? 7 then [BACKSLASH; 97]
  else if c =? 8 then [BACKSLASH; 98]
  else if isprint c then [c]
  else [BACKSLASH; 120; hexdigit (c / 16); hexdigit (c mod 16)].

Fixpoint repr_loop (s : sds) (p : list Z) : outcome sds :=
  match p with
  | [] => Ok s
  | c :: p => s ← sdscat s (repr_char c); repr_loop s p
  end.
Definition sdscatrepr (s : sds) (p : list Z) : outcome sds :=
  s ← sdscatlen s [QUOTE; 0] 1;
  s ← repr_loop s p;
  sdscatlen s [QUOTE; 0] 1.

Definition is_hex_digit (c : Z) : bool :=
  ((48 <=? c) && (c <=? 57)) || ((97 <=? c) && (c <=? 102)) || ((65 <=? c) && (c <=? 70)).
Definition hex_digit_to_int (c : Z) : Z :=
  if (48 <=? c) && (c <=? 57) then c - 48
  else if (97 <=? c) && (c <=? 102) then c - 87
  else if (65 <=? c) && (c <=? 70) then c - 55
  else 0.

(** [*(p+n)]; [p] is the rest of the line with its NUL. *)
Definition peek (p : list Z) (n : nat) : outcome Z :=
  match p !! n with Some c => Ok c | None => Crash OutOfBounds end.

Definition escape_char (c : Z) : Z :=
  if c =? 110 then 10 else if c =? 114 then 13 else if c =? 116 then 9
  else if c =? 98 then 8 else if c =? 97 then 7 else c.

(** Is [p] at [\xHH]?  The tests stop at the first that fails. *)
Definition at_hex (p : list Z) : outcome bool :=
  c0 ← peek p 0;
  if negb (c0 =? BACKSLASH) then Ok false else
  c1 ← peek p 1;
  if negb (c1 =? 120) then Ok false else
  c2 ← peek p 2;
  if negb (is_hex_digit c2) then Ok false else
  c3 ← peek p 3; Ok (is_hex_digit c3).

(** One iteration of [while (!done)]: where to continue, the flags and the token,
    or [None] for [goto err].  [p] has its terminating NUL. *)
Record token_state := mkTok { tk_p : list Z; tk_inq : bool; tk_insq : bool; tk_done : bool; tk_cur : sds }.

Definition token_step (t : token_state) : outcome (option token_state) :=
  let p := tk_p t in
  c0 ← peek p 0;
  let advance (t : token_state) : outcome (option token_state) :=
    c ← peek (tk_p t) 0;
    if c =? 0 then Ok (Some t)
    else Ok (Some (mkTok (drop 1 (tk_p t)) (tk_inq t) (tk_insq t) (tk_done t) (tk_cur t))) in
  let append (p : list Z) (b : Z) : outcome (option token_state) :=
    cur ← sdscatlen (tk_cur t) [b] 1;
    advance (mkTok p (tk_inq t) (tk_insq t) false cur) in
  let close : outcome (option token_state) :=
    c1 ← peek p 1;
    if negb (c1 =? 0) && negb (isspace c1) then Ok None
    else advance (mkTok p (tk_inq t) (tk_insq t) true (tk_cur t)) in
  if tk_inq t then
    hex ← at_hex p;
    if (hex : bool) then
      c2 ← peek p 2; c3 ← peek p 3;
      append (drop 3 p) (u8 (hex_digit_to_int c2 * 16 + hex_digit_to_int c3))
    else
      escaped ← (if c0 =? BACKSLASH then c1 ← peek p 1; Ok (negb (c1 =? 0)) else Ok false);
      if (escaped : bool) then c1 ← peek p 1; append (drop 1 p) (escape_char c1)
      else if c0 =? QUOTE then close
      else if c0 =? 0 then Ok None
      else append p c0
  else if tk_insq t then
    escaped ← (if c0 =? BACKSLASH then c1 ← peek p 1; Ok (c1 =? 39) else Ok false);
    if (escaped : bool) then append (drop 1 p) 39
    else if c0 =? 39 then close
    else if c0 =? 0 then Ok None
    else append p c0
  else if (c0 =? 32) || (c0 =? 10) || (c0 =? 13) || (c0 =? 9) || (c0 =? 0) then
    advance (mkTok p false false true (tk_cur t))
  else if c0 =? QUOTE then advance (mkTok p true false false (tk_cur t))
  else if c0 =? 39 then advance (mkTok p false true false (tk_cur t))
  else append p c0.

Fixpoint token_loop (fuel : nat) (t : token_state) : outcome (option (list Z * sds)) :=
  if tk_done t then Ok (Some (tk_p t, tk_cur t)) else
  match fuel with
  | O => Crash OutOfFuel
  | S fuel =>
      r ← token_step t;
      match r with
      | None => Ok None
      | Some t => token_loop fuel t
      end
  end.

Fixpoint skip_blanks (p : list Z) : list Z :=
  match p with
  | c :: p' => if negb (c =? 0) && isspace c then skip_blanks p' else p
  | [] => []
  end.

(** The outer loop of [sdssplitargs]. *)
Fixpoint args_loop (fuel : nat) (p : list Z) (vector : list sds) : outcome (option (list sds)) :=
  match fuel with
  | O => Crash OutOfFuel
  | S fuel =>
      let p := skip_blanks p in
      c ← peek p 0;
      if c =? 0 then Ok (Some vector)
      else
        current ← sdsempty;
        r ← token_loop (S (length p)) (mkTok p false false false current);
        match r with
        | None => Ok None
        | Some (p, current) => args_loop fuel p (vector ++ [current])
        end
  end.

(** [sdssplitargs(line, &argc)] *)
Definition sdssplitargs (line : list Z) : outcome (option (list sds)) :=
  args_loop (S (length line)) (line ++ [0]) [].

(** ** Formatting *)

Inductive fmt_arg :=
| ArgStr (s : list Z)
| ArgSds (s : sds)
| ArgInt (z : Z)
| ArgUint (z : Z).

(** Append [str] at [i], growing the string when it is longer than the free
    space. *)
Definition fmt_append (s : sds) (i : Z) (str : list Z) : outcome (sds * Z) :=
  let l := zlen str in
  s ← (if sh_free s <? l then sdsMakeRoomFor s l else Ok s);
  buf ← write_at (sh_buf s) i str;
  Ok (mkSds (i32 (sh_len s + l)) (i32 (sh_free s - l)) buf, i + l).

(** [s[i++] = c]; room for one byte has been made. *)
Definition fmt_putc (s : sds) (i c : Z) : outcome (sds * Z) :=
  buf ← write_at (sh_buf s) i [c];
  Ok (mkSds (i32 (sh_len s + 1)) (i32 (sh_free s - 1)) buf, i + 1).

(** The loop of [sdscatfmt]; [f] is the rest of the format with its NUL.  A
    missing argument or one of the wrong type is undefined behaviour. *)
Fixpoint catfmt_loop (fuel : nat) (f : list Z) (args : list fmt_arg) (s : sds) (i : Z) : outcome (sds * Z) :=
  match fuel with
  | O => Crash OutOfFuel
  | S fuel =>
      c ← peek f 0;
      if c =? 0 then Ok (s, i) else
      s ← (if sh_free s =? 0 then sdsMakeRoomFor s 1 else Ok s);
      if c =? 37 then
        next ← peek f 1;
        let continue (r : outcome (sds * Z)) args := '(s, i) ← r; catfmt_loop fuel (drop 2 f) args s i in
        if next =? 115 then
          match args with ArgStr str :: args => continue (fmt_append s i str) args | _ => Crash AssertFailed end
        else if next =? 83 then
          match args with
          | ArgSds str :: args => b ← read_at (sh_buf str) 0 (sdslen str); continue (fmt_append s i b) args
          | _ => Crash AssertFailed
          end
        else if (next =? 105) || (next =? 73) then
          match args with ArgInt z :: args => continue (fmt_append s i (sdsll2str z)) args | _ => Crash AssertFailed end
        else if (next =? 117) || (next =? 85) || (next =? 84) then
          match args with ArgUint z :: args => continue (fmt_append s i (sdsull2str z)) args | _ => Crash AssertFailed end
        else continue (fmt_putc s i next) args
      else
        '(s, i) ← fmt_putc s i c;
        catfmt_loop fuel (drop 1 f) args s i
  end.

Definition sdscatfmt (s : sds) (fmt : list Z) (args : list fmt_arg) : outcome sds :=
  '(s, i) ← catfmt_loop (S (length fmt)) (fmt ++ [0]) args s (sdslen s);
  buf ← write_at (sh_buf s) i [0];
  Ok (s <| sh_buf := buf |>).
End sds.

(** The string itself. *)
Definition sds_content (s : sds) : list Z := take (Z.to_nat (sh_len s)) (sh_buf s).

Definition foo : list Z := [102; 111; 111].
Example sdstrim_1 : (s ← sdsnew 7 (Some ([120; 120] ++ foo ++ [121])); s ← sdstrim s [120; 121]; Ok (take 3 (sh_buf s), sh_len s, sh_free s))
  = Ok (foo, 3, 3).
Proof. reflexivity. Qed.
Example sdscatrepr_1 : (s ← sdsempty 7; s ← sdscatrepr 7 s [7; 10; 0; 102; 13]; Ok (take (Z.to_nat (sh_len s)) (sh_buf s)))
  = Ok [34; 92; 97; 92; 110; 92; 120; 48; 48; 102; 92; 114; 34].
Proof. reflexivity. Qed.
Example splitargs_1 : (r ← sdssplitargs 7 [32; 34; 97; 92; 120; 48; 48; 34; 32; 39; 98; 32; 39];
  Ok (option_map (map sds_content) r)) = Ok (Some [[97; 0]; [98; 32]]).
Proof. reflexivity. Qed.
Example splitlen_1 : (r ← sdssplitlen 7 ([102; 111; 111; 95; 45; 95] ++ foo) [95; 45; 95];
  Ok (option_map (map sds_content) r)) = Ok (Some [foo; foo]).
Proof. reflexivity. Qed.

(** ** What a string holds

    [sds_holds s c]: the header and the buffer are consistent and the content is
    [c]; the buffer is [c], the NUL, and as many bytes as the header says are
    free. *)
Definition sds_holds (s : sds) (c : list Z) : Prop :=
  exists rest, s = mkSds (zlen c) (zlen rest) (c ++ 0 :: rest) /\ zlen c + zlen rest < 2 ^ 31 - 1.

Lemma write_at_mid a b b' c off :
  off = zlen a -> zlen b = zlen b' -> write_at (a ++ b ++ c) off b' = Ok (a ++ b' ++ c).
Proof.
  intros -> Hb. unfold write_at. rewrite !zlen_app. pose proof (zlen_nonneg a). pose proof (zlen_nonneg c).
  rewrite bool_decide_eq_true_2 by lia. f_equal. unfold zlen in *. rewrite Nat2Z.id, take_app_length.
  f_equal. f_equal. rewrite <- Hb. rewrite <- Nat2Z.inj_add, Nat2Z.id. by rewrite app_assoc, drop_app_length' by (rewrite length_app; lia).
Qed.

Lemma write_at_0 b b' c : zlen b = zlen b' -> write_at (b ++ c) 0 b' = Ok (b' ++ c).
Proof. intros Hb. by apply (write_at_mid [] b b' c 0). Qed.

Lemma write_at_end a x y : write_at (a ++ [x]) (zlen a) [y] = Ok (a ++ [y]).
Proof. by apply (write_at_mid a [x] [y] [] (zlen a)). Qed.

(** A list is split at any of its lengths. *)
Lemma split_at (l : list Z) n : 0 <= n <= zlen l -> exists a b, l = a ++ b /\ zlen a = n.
Proof.
  intros Hn. exists (take (Z.to_nat n) l), (drop (Z.to_nat n) l). split; [by rewrite take_drop|]. by apply zlen_take.
Qed.

Lemma sds_holds_content s c : sds_holds s c -> sds_content s = c.
Proof. intros (rest & -> & _). unfold sds_content. cbn [sh_len sh_buf]. unfold zlen. by rewrite Nat2Z.id, take_app_length. Qed.

Lemma sds_holds_len s c : sds_holds s c -> sdslen s = zlen c /\ sh_len s = zlen c.
Proof.
  intros (rest & -> & Hb). pose proof (zlen_nonneg c). pose proof (zlen_nonneg rest).
  unfold sdslen. cbn [sh_len]. split; [|done]. mword.
Qed.

Lemma sds_holds_read s c n : sds_holds s c -> 0 <= n <= zlen c -> read_at (sh_buf s) 0 n = Ok (take (Z.to_nat n) c).
Proof.
  intros (rest & -> & Hb) Hn. cbn [sh_buf]. apply read_at_Ok. rewrite zlen_app, zlen_cons. pose proof (zlen_nonneg rest).
  split; [lia|]. cbn [Z.to_nat drop]. symmetry. apply take_app_le. unfold zlen in Hn. lia.
Qed.

Section proofs.
Context (junk : Z).

Lemma sdsnewlen_spec src n :
  0 <= n <= zlen src -> n < 2 ^ 31 - 1 ->
  sdsnewlen junk (Some src) n = Ok (mkSds n 0 (take (Z.to_nat n) src ++ [0])).
Proof.
  intros Hn Hb. unfold sdsnewlen. set (b := replicate _ junk).
  assert (Hbl : zlen b = n + 1) by (subst b; unfold zlen; rewrite length_replicate; lia).
  destruct (split_at b n) as (b1 & b2 & Eb & Hb1); [lia|]. rewrite Eb, zlen_app in Hbl.
  destruct b2 as [|x [|? ?]]; [unfold zlen in *; cbn in *; lia| |rewrite !zlen_cons in Hbl; pose proof (zlen_nonneg l); lia].
  assert (Hi : i32 n = n) by mword. rewrite Hi.
  destruct (Z.eqb_spec n 0) as [->|Hne].
  - cbn [mbind outcome_bind]. rewrite Eb.
    assert (b1 = []) as -> by (destruct b1; [done|rewrite zlen_cons in Hb1; pose proof (zlen_nonneg b1); lia]).
    exact (f_equal (fun r => r ≫= fun buf => Ok (mkSds 0 0 buf)) (write_at_end [] x 0)).
  - assert (Hr : read_at src 0 n = Ok (take (Z.to_nat n) src)) by (apply read_at_Ok; split; [lia|done]).
    rewrite Hr. cbn [mbind outcome_bind]. rewrite Eb.
    rewrite (write_at_0 b1) by (rewrite zlen_take; lia).
    cbn [mbind outcome_bind]. assert (Ht : zlen (take (Z.to_nat n) src) = n) by (apply zlen_take; lia).
    rewrite <- Ht at 2. rewrite write_at_end. done.
Qed.

Lemma sdsnewlen_holds src n :
  0 <= n <= zlen src -> n < 2 ^ 31 - 1 -> exists s, sdsnewlen junk (Some src) n = Ok s /\ sds_holds s (take (Z.to_nat n) src).
Proof.
  intros Hn Hb. rewrite sdsnewlen_spec by done. eexists. split; [done|]. exists []. rewrite zlen_take by done.
  split; [done|]. unfold zlen. cbn. lia.
Qed.

Lemma sdsempty_holds : exists s, sdsempty junk = Ok s /\ sds_holds s [].
Proof. apply (sdsnewlen_holds [0] 0); by vm_compute. Qed.

(** Room for [addlen] more bytes; the content stays. *)
Lemma make_room_at c x rest addlen :
  zlen c + zlen rest < 2 ^ 31 - 1 -> 0 <= addlen -> zlen c + addlen < 2 ^ 30 ->
  exists rest', sdsMakeRoomFor junk (mkSds (zlen c) (zlen rest) (c ++ x :: rest)) addlen
      = Ok (mkSds (zlen c) (zlen rest') (c ++ x :: rest')) /\
    addlen <= zlen rest' /\ zlen c + zlen rest' < 2 ^ 31 - 1.
Proof.
  intros Hb Ha Hc. pose proof (zlen_nonneg c). pose proof (zlen_nonneg rest).
  unfold sdsMakeRoomFor, sdsavail, sdslen. cbn [sh_free sh_len sh_buf].
  assert (u64 (zlen rest) = zlen rest) as -> by mword. assert (u64 (zlen c) = zlen c) as -> by mword.
  destruct (Z.geb_spec (zlen rest) addlen); [by exists rest|].
  assert (u64 (zlen c + addlen) = zlen c + addlen) as -> by mword.
  set (newlen := if _ <? _ then _ else _).
  assert (Hnew : zlen c + addlen <= newlen < 2 ^ 30 + 2 ^ 21).
  { subst newlen. unfold SDS_MAX_PREALLOC. destruct (Z.ltb_spec (zlen c + addlen) (1024 * 1024)); mword. }
  assert (Hi : i32 (newlen - zlen c) = newlen - zlen c) by mword. rewrite Hi.
  exists (rest ++ replicate (Z.to_nat (newlen + 1) - length (c ++ x :: rest)) junk).
  assert (Hl : zlen (rest ++ replicate (Z.to_nat (newlen + 1) - length (c ++ x :: rest)) junk) = newlen - zlen c).
  { rewrite zlen_app. unfold zlen in *. rewrite length_replicate, length_app. cbn [length]. lia. }
  rewrite Hl. split; [|lia]. f_equal. f_equal. unfold resize. rewrite take_ge.
  - by rewrite <- app_assoc.
  - rewrite length_app. cbn [length]. unfold zlen in *. lia.
Qed.

Lemma make_room s c addlen :
  sds_holds s c -> 0 <= addlen -> zlen c + addlen < 2 ^ 30 ->
  exists rest, sdsMakeRoomFor junk s addlen = Ok (mkSds (zlen c) (zlen rest) (c ++ 0 :: rest)) /\
    addlen <= zlen rest /\ zlen c + zlen rest < 2 ^ 31 - 1.
Proof. intros (rest & -> & Hb). by apply make_room_at. Qed.

(** Overwriting the free space right behind the content. *)
Lemma extend c rest src :
  zlen src <= zlen rest ->
  exists rest', (buf ← write_at (c ++ 0 :: rest) (zlen c) src; write_at buf (zlen c + zlen src) [0])
    = Ok ((c ++ src) ++ 0 :: rest') /\ zlen rest' = zlen rest - zlen src.
Proof.
  intros Hs. pose proof (zlen_nonneg src).
  destruct (split_at (0 :: rest) (zlen src)) as (a & b & E & Ha); [rewrite zlen_cons; lia|].
  assert (Hb : zlen b = 1 + zlen rest - zlen src).
  { assert (zlen (0 :: rest) = zlen (a ++ b)) by congruence. rewrite zlen_cons, zlen_app in *. lia. }
  destruct b as [|x rest']; [rewrite zlen_nil in Hb; lia|]. rewrite zlen_cons in Hb. exists rest'.
  rewrite E. split; [|lia].
  rewrite (write_at_mid c a src (x :: rest')) by done. cbn [mbind outcome_bind].
  rewrite app_assoc. apply (write_at_mid (c ++ src) [x] [0] rest'); [by rewrite zlen_app|done].
Qed.

Lemma catlen_holds s c t len src :
  sds_holds s c -> read_at t 0 len = Ok src -> zlen c + len < 2 ^ 30 ->
  exists s', sdscatlen junk s t len = Ok s' /\ sds_holds s' (c ++ src).
Proof.
  intros Hs Hr Hb. pose proof (read_at_len _ _ _ _ Hr) as Hl. pose proof (zlen_nonneg src). pose proof (zlen_nonneg c).
  unfold sdscatlen. destruct (sds_holds_len s c Hs) as [-> _].
  destruct (make_room s c len Hs) as (rest & -> & Hrest & Hsum); [lia|done|]. cbn [mbind outcome_bind].
  rewrite Hr. cbn [mbind outcome_bind sh_buf sh_free]. subst len.
  destruct (extend c rest src Hrest) as (rest' & E & Hl').
  destruct (write_at (c ++ 0 :: rest) (zlen c) src) as [buf|]; [|discriminate]. cbn [mbind outcome_bind] in E |- *.
  rewrite E. cbn [mbind outcome_bind].
  assert (i32 (zlen c + zlen src) = zlen c + zlen src) as -> by mword.
  assert (i32 (zlen rest - zlen src) = zlen rest - zlen src) as -> by mword.
  eexists. split; [done|]. exists rest'. rewrite zlen_app, Hl'. split; [done|]. lia.
Qed.

Lemma sdscat_holds s c t : sds_holds s c -> zlen c + zlen t < 2 ^ 30 ->
  exists s', sdscat junk s t = Ok s' /\ sds_holds s' (c ++ t).
Proof.
  intros Hs Hb. apply catlen_holds; [done| |done]. by apply (read_at_mid [] t [0]).
Qed.

(** ** Substrings *)

(** Replacing the content by something not longer. *)
Lemma shrink c rest m :
  zlen m <= zlen c ->
  exists rest', (buf ← write_at (c ++ 0 :: rest) 0 m; write_at buf (zlen m) [0]) = Ok (m ++ 0 :: rest') /\
    zlen rest' = zlen c + zlen rest - zlen m.
Proof.
  intros Hm. pose proof (zlen_nonneg m). pose proof (zlen_nonneg rest).
  destruct (split_at (c ++ 0 :: rest) (zlen m)) as (a & b & E & Ha); [rewrite zlen_app, zlen_cons; lia|].
  assert (Hb : zlen b = zlen c + 1 + zlen rest - zlen m).
  { assert (zlen (c ++ 0 :: rest) = zlen (a ++ b)) by congruence. rewrite !zlen_app, zlen_cons in *. lia. }
  rewrite E. rewrite (write_at_0 a m b) by done. cbn [mbind outcome_bind].
  destruct b as [|x rest']; [rewrite zlen_nil in Hb; lia|]. rewrite zlen_cons in Hb. exists rest'.
  split; [|lia]. by apply (write_at_mid m [x] [0] rest').
Qed.

Lemma shrink_holds c rest m :
  zlen m <= zlen c -> zlen c + zlen rest < 2 ^ 31 - 1 ->
  exists s, (buf ← write_at (c ++ 0 :: rest) 0 m; buf ← write_at buf (zlen m) [0];
     Ok (mkSds (i32 (zlen m)) (i32 (zlen rest + (zlen c - zlen m))) buf)) = Ok s /\ sds_holds s m.
Proof.
  intros Hm Hb. destruct (shrink c rest m Hm) as (rest' & E & Hl).
  destruct (write_at (c ++ 0 :: rest) 0 m) as [buf|]; [|discriminate]. cbn [mbind outcome_bind] in E |- *.
  rewrite E. cbn [mbind outcome_bind]. pose proof (zlen_nonneg m). pose proof (zlen_nonneg rest).
  assert (i32 (zlen m) = zlen m) as -> by mword.
  assert (i32 (zlen rest + (zlen c - zlen m)) = zlen rest') as -> by (rewrite Hl; mword).
  eexists. split; [done|]. exists rest'. split; [done|]. lia.
Qed.

(** The bytes from [start] to [stop], inclusive; negative indices count from the
    end. *)
Definition substring (start stop : Z) (c : list Z) : list Z :=
  let index i := if i <? 0 then Z.max 0 (zlen c + i) else i in
  take (Z.to_nat (index stop + 1 - index start)) (drop (Z.to_nat (index start)) c).

Lemma zlen_take_drop {X} (c : list X) i n : 0 <= i -> 0 <= n -> i + n <= zlen c ->
  zlen (take (Z.to_nat n) (drop (Z.to_nat i) c)) = n.
Proof. intros. apply zlen_take. rewrite zlen_drop; lia. Qed.

Lemma sdsrange_finish c rest start newlen :
  0 <= start -> 0 <= newlen -> newlen = 0 \/ start + newlen <= zlen c -> zlen c + zlen rest < 2 ^ 31 - 1 ->
  exists s, (buf ← (if negb (start =? 0) && negb (newlen =? 0)
         then moved ← read_at (c ++ 0 :: rest) start newlen; write_at (c ++ 0 :: rest) 0 moved
         else Ok (c ++ 0 :: rest));
     buf ← write_at buf newlen [0];
     Ok (mkSds (i32 newlen) (i32 (zlen rest + (zlen c - newlen))) buf)) = Ok s /\
    sds_holds s (take (Z.to_nat newlen) (drop (Z.to_nat start) c)).
Proof.
  intros Hs Hn Hle Hb. set (m := take _ _). assert (Hm : zlen m = newlen).
  { destruct Hle as [->|Hle]; [by subst m|]. by apply zlen_take_drop. }
  assert (Hmc : zlen m <= zlen c) by (pose proof (zlen_nonneg c); lia).
  destruct (shrink_holds c rest m) as (s & E & Hs'); [done|done|]. rewrite Hm in E.
  exists s. split; [|done]. rewrite <- E. pose proof (zlen_nonneg rest).
  assert (Hread : newlen <> 0 -> read_at (c ++ 0 :: rest) start newlen = Ok m).
  { intros Hne. destruct Hle as [?|Hle]; [done|]. apply read_at_Ok. rewrite zlen_app, zlen_cons. split; [lia|]. subst m.
    rewrite drop_app_le by (unfold zlen in *; lia). rewrite take_app_le; [done|]. rewrite length_drop. unfold zlen in *. lia. }
  destruct (Z.eqb_spec start 0) as [->|]; destruct (Z.eqb_spec newlen 0) as [->|]; cbn [negb andb];
    rewrite ?Hread by done; cbn [mbind outcome_bind]; try done.
  all: assert (Hid : exists d, c = m ++ d) by (subst m; first [exists c; done
    | exists (drop (Z.to_nat newlen) c); by rewrite drop_0, take_drop]).
  all: destruct Hid as [d Hd].
  all: assert (Hw : write_at (c ++ 0 :: rest) 0 m = Ok (c ++ 0 :: rest))
    by (rewrite Hd; rewrite <- !app_assoc; by apply write_at_0).
  all: rewrite Hw; done.
Qed.

Lemma index_bounds (c : list Z) i :
  is_i32 i -> zlen c < 2 ^ 31 - 1 ->
  (if i <? 0 then let i := i32 (u64 (zlen c + i)) in if i <? 0 then 0 else i else i)
    = (if i <? 0 then Z.max 0 (zlen c + i) else i).
Proof.
  intros Hi Hc. pose proof (zlen_nonneg c). destruct (Z.ltb_spec i 0); [|done].
  assert (i32 (u64 (zlen c + i)) = zlen c + i) as -> by mword. cbv zeta. destruct (Z.ltb_spec (zlen c + i) 0); lia.
Qed.

Lemma sdsrange_holds s c start stop :
  sds_holds s c -> is_i32 start -> is_i32 stop -> stop < 2 ^ 31 - 1 ->
  exists s', sdsrange s start stop = Ok s' /\ sds_holds s' (substring start stop c).
Proof.
  intros Hs Hi Hj Hj'. destruct (sds_holds_len s c Hs) as [Hlen _]. unfold sdsrange. rewrite Hlen.
  destruct Hs as (rest & -> & Hb). pose proof (zlen_nonneg c). pose proof (zlen_nonneg rest).
  destruct (Z.eqb_spec (zlen c) 0) as [E|Hne].
  { exists (mkSds (zlen c) (zlen rest) (c ++ 0 :: rest)). split; [done|]. exists rest.
    assert (c = []) as -> by (destruct c; [done|rewrite zlen_cons in E; pose proof (zlen_nonneg c); lia]).
    unfold substring. rewrite drop_nil, take_nil. split; [done|]. done. }
  rewrite !index_bounds by (done || lia). unfold substring.
  set (i := if start <? 0 then _ else _). set (j := if stop <? 0 then _ else _).
  assert (Hib : 0 <= i < 2 ^ 31) by (subst i; unfold is_i32 in Hi; destruct (start <? 0) eqn:?; lia).
  assert (Hjb : 0 <= j < 2 ^ 31 - 1) by (subst j; unfold is_i32 in Hj; destruct (stop <? 0) eqn:?; lia).
  clearbody i j. assert (i32 (zlen c) = zlen c) as -> by mword. assert (i32 (zlen c - 1) = zlen c - 1) as -> by mword.
  cbn [sh_buf sh_free sh_len].
  assert (Hend : forall a n, 0 <= a -> 0 <= n -> n = 0 \/ a + n <= zlen c ->
    take (Z.to_nat n) (drop (Z.to_nat a) c) = take (Z.to_nat (j + 1 - i)) (drop (Z.to_nat i) c) ->
    exists s', (buf ← (if negb (a =? 0) && negb (n =? 0)
         then moved ← read_at (c ++ 0 :: rest) a n; write_at (c ++ 0 :: rest) 0 moved
         else Ok (c ++ 0 :: rest));
     buf ← write_at buf n [0];
     Ok (mkSds (i32 n) (i32 (zlen rest + (zlen c - n))) buf)) = Ok s' /\
    sds_holds s' (take (Z.to_nat (j + 1 - i)) (drop (Z.to_nat i) c))).
  { intros a n Ha Hn Hle Heq. rewrite <- Heq. by apply sdsrange_finish. }
  destruct (Z.gtb_spec i j).
  { cbn [Z.eqb negb]. apply (Hend 0 0); [lia|lia|lia|]. replace (Z.to_nat (j + 1 - i)) with 0%nat by lia. done. }
  rewrite (proj2 (Z.eqb_neq (j - i + 1) 0)) by lia. cbn [negb]. destruct (Z.geb_spec i (zlen c)).
  { apply (Hend i 0); [lia|lia|lia|]. rewrite (drop_ge c (Z.to_nat i)) by (unfold zlen in *; lia). by rewrite !take_nil. }
  destruct (Z.geb_spec j (zlen c)).
  - destruct (Z.gtb_spec i (zlen c - 1)); [lia|]. apply (Hend i (zlen c - 1 - i + 1)); [lia|lia|lia|].
    rewrite !take_ge; [done|rewrite length_drop; unfold zlen in *; lia..].
  - apply (Hend i (j - i + 1)); [lia|lia|lia|]. do 2 f_equal. lia.
Qed.

(** ** Splitting and joining *)

(** The strings joined by a separator. *)
Fixpoint intercalate (sep : list Z) (l : list (list Z)) : list Z :=
  match l with
  | [] => []
  | [a] => a
  | a :: l => a ++ sep ++ intercalate sep l
  end.

Lemma intercalate_snoc sep l a : intercalate sep (l ++ [a]) = concat ((fun t => t ++ sep) <$> l) ++ a.
Proof.
  induction l as [|x l IH]; [done|]. csimpl. destruct (l ++ [a]) eqn:E; [by destruct l|].
  rewrite IH. by rewrite <- !app_assoc.
Qed.

Lemma memcmp_eq a : forall b, zlen a = zlen b -> memcmp a b = 0 -> a = b.
Proof.
  induction a as [|x a IH]; intros [|y b] Hl; cbn [memcmp]; try done.
  rewrite !zlen_cons in Hl. destruct (Z.eqb_spec x y); [|lia]. subst. intros. f_equal. apply IH; [lia|done].
Qed.

(** The state of the loop: the tokens and separators found so far, and the rest. *)
Lemma split_loop_spec s sep fuel : forall j start slots tokens done_part,
  0 < zlen sep -> zlen s < 2 ^ 30 -> 0 <= start <= j -> j <= zlen s -> (Z.to_nat (zlen s - j) < fuel)%nat ->
  zlen tokens + 1 <= slots -> Forall2 sds_holds tokens done_part ->
  s = concat ((fun t => t ++ sep) <$> done_part) ++ drop (Z.to_nat start) s ->
  exists tokens' start' slots' parts, split_loop junk fuel s sep j start slots tokens = Ok (tokens', start', slots') /\
    0 <= start' <= zlen s /\ zlen tokens' + 1 <= slots' /\ Forall2 sds_holds tokens' parts /\
    s = concat ((fun t => t ++ sep) <$> parts) ++ drop (Z.to_nat start') s.
Proof.
  induction fuel as [|fuel IH]; intros j start slots tokens parts Hsep Hs Hstart Hj Hfuel Hslots Hf2 Heq; [lia|].
  cbn [split_loop]. destruct (Z.ltb_spec j (zlen s - (zlen sep - 1))) as [Hlt|Hge]; cbn [negb].
  2: { exists tokens, start, slots, parts. split; [done|]. split; [lia|]. done. }
  set (slots' := if _ <? _ then _ else _).
  assert (Hslots' : zlen tokens + 2 <= slots').
  { subst slots'. pose proof (zlen_nonneg tokens). destruct (Z.ltb_spec slots (zlen tokens + 2)); lia. }
  assert (Hread : forall n, 0 <= n -> j + n <= zlen s -> read_at s j n = Ok (take (Z.to_nat n) (drop (Z.to_nat j) s))).
  { intros n Hn Hjn. apply read_at_Ok. split; [lia|done]. }
  rewrite (Hread 1), (Hread (zlen sep)) by lia. cbn [mbind outcome_bind].
  set (window := take (Z.to_nat (zlen sep)) (drop (Z.to_nat j) s)).
  assert (Hwl : zlen window = zlen sep) by (apply zlen_take_drop; lia).
  assert (Hhere : exists b, (if (zlen sep =? 1) && bool_decide (take (Z.to_nat 1) (drop (Z.to_nat j) s) = take 1 sep) then Ok true
                else Ok (bool_decide (memcmp window sep = 0))) = Ok b /\ (b = true -> window = sep)).
  { destruct ((zlen sep =? 1) && _) eqn:E.
    - exists true. split; [done|]. intros _. apply andb_true_iff in E as [E1%Z.eqb_eq E2%bool_decide_eq_true].
      subst window. rewrite E1. etrans; [exact E2|]. apply take_ge. unfold zlen in E1. lia.
    - eexists. split; [done|]. intros Hm%bool_decide_eq_true. by apply memcmp_eq. }
  destruct Hhere as (b & -> & Hb). cbn [mbind outcome_bind]. destruct b.
  - specialize (Hb eq_refl).
    assert (Hpart : read_at s start (j - start) = Ok (take (Z.to_nat (j - start)) (drop (Z.to_nat start) s))).
    { apply read_at_Ok. split; [lia|done]. }
    rewrite Hpart. cbn [mbind outcome_bind]. set (part := take _ (drop (Z.to_nat start) s)).
    assert (Hpl : zlen part = j - start) by (apply zlen_take_drop; lia).
    destruct (sdsnewlen_holds part (j - start)) as (token & -> & Htok); [lia|lia|].
    rewrite take_ge in Htok by (unfold zlen in Hpl; lia).
    cbn [mbind outcome_bind]. rewrite (proj2 (Z.leb_gt slots' (zlen tokens))) by lia.
    apply (IH _ _ _ _ (parts ++ [part])); [done|done|lia|lia|lia| | |].
    + rewrite zlen_app, zlen_cons, zlen_nil. lia.
    + apply Forall2_app; [done|]. by constructor.
    + rewrite fmap_app, concat_app. csimpl. rewrite app_nil_r, <- !app_assoc. rewrite Heq at 1. f_equal.
      rewrite <- (take_drop (Z.to_nat (j - start)) (drop (Z.to_nat start) s)). fold part. f_equal.
      rewrite drop_drop. replace (Z.to_nat start + Z.to_nat (j - start))%nat with (Z.to_nat j) by lia.
      rewrite <- (take_drop (Z.to_nat (zlen sep)) (drop (Z.to_nat j) s)). fold window. rewrite Hb. f_equal.
      rewrite drop_drop. f_equal. lia.
  - apply (IH _ _ _ _ parts); [done|done|lia|lia|lia|lia|done|done].
Qed.

Lemma sdssplitlen_spec s sep :
  0 < zlen sep -> 0 < zlen s -> zlen s < 2 ^ 30 ->
  exists tokens parts, sdssplitlen junk s sep = Ok (Some tokens) /\ Forall2 sds_holds tokens parts /\
    intercalate sep parts = s.
Proof.
  intros Hsep Hs Hb. unfold sdssplitlen. rewrite (proj2 (Z.ltb_ge (zlen sep) 1)) by lia.
  rewrite (proj2 (Z.eqb_neq (zlen s) 0)) by lia.
  destruct (split_loop_spec s sep (S (length s)) 0 0 5 [] [] Hsep Hb) as (tokens & start & slots & parts & -> & Hst & Hsl & Hf2 & Heq);
    [lia|lia|unfold zlen; lia|by vm_compute|constructor|done|].
  cbn [mbind outcome_bind]. set (last := drop (Z.to_nat start) s) in *.
  assert (Hll : zlen last = zlen s - start) by (apply zlen_drop; lia).
  assert (Hread : read_at s start (zlen s - start) = Ok last).
  { apply read_at_Ok. split; [lia|]. subst last. rewrite take_ge; [done|]. rewrite length_drop. unfold zlen. lia. }
  rewrite Hread. cbn [mbind outcome_bind].
  destruct (sdsnewlen_holds last (zlen s - start)) as (token & -> & Htok); [lia|lia|].
  rewrite take_ge in Htok by (unfold zlen in *; lia). cbn [mbind outcome_bind].
  rewrite (proj2 (Z.leb_gt slots (zlen tokens))) by lia. exists (tokens ++ [token]), (parts ++ [last]).
  split; [done|]. split; [apply Forall2_app; [done|by constructor]|]. by rewrite intercalate_snoc.
Qed.

Lemma join_loop_spec sep argv parts : forall join c,
  Forall2 sds_holds argv parts -> sds_holds join c -> zlen c + zlen (intercalate sep parts) < 2 ^ 30 ->
  exists s, join_loop junk join argv sep = Ok s /\ sds_holds s (c ++ intercalate sep parts).
Proof.
  intros join c Hf. revert join c. induction Hf as [|a p argv parts Ha Hf IH]; intros join c Hj Hb; cbn [join_loop].
  { exists join. split; [done|]. cbn. by rewrite app_nil_r. }
  unfold sdscatsds. destruct (sds_holds_len a p Ha) as [-> _].
  assert (Hcut : zlen (intercalate sep (p :: parts)) = zlen p + (if bool_decide (parts = []) then 0 else zlen sep + zlen (intercalate sep parts))).
  { destruct parts; cbn; [lia|]. rewrite !zlen_app. lia. }
  pose proof (zlen_nonneg p). pose proof (zlen_nonneg sep). pose proof (zlen_nonneg (intercalate sep parts)).
  destruct (catlen_holds join c (sh_buf a) (zlen p) p Hj) as (join1 & -> & Hj1).
  { rewrite (sds_holds_read a p (zlen p)) by (done || lia). by rewrite take_ge by (unfold zlen; lia). }
  { rewrite Hcut in Hb. destruct (bool_decide _); lia. }
  cbn [mbind outcome_bind]. rewrite Hcut in Hb.
  destruct Hf as [|b q argv parts Hbq Hf].
  - rewrite bool_decide_eq_true_2 by done. cbn [mbind outcome_bind join_loop]. by exists join1.
  - rewrite (bool_decide_eq_false_2 (b :: argv = [])) by done.
    rewrite (bool_decide_eq_false_2 (q :: parts = [])) in Hb by done.
    destruct (catlen_holds join1 (c ++ p) sep (zlen sep) sep Hj1) as (join2 & -> & Hj2).
    { by rewrite <- (app_nil_r sep) at 1; apply (read_at_mid [] sep []). }
    { rewrite zlen_app. lia. }
    cbn [mbind outcome_bind]. destruct (IH join2 ((c ++ p) ++ sep) Hj2) as (s & E & Hs); [rewrite !zlen_app; lia|].
    exists s. split; [done|]. cbn [intercalate] in *. by rewrite <- !app_assoc in Hs.
Qed.

(** ** Formatting *)

(** What a format and its arguments denote; [None] when an argument is missing or
    of the wrong type, or the format ends in a percent sign. *)
Fixpoint render (f : list Z) (args : list fmt_arg) : option (list Z) :=
  match f with
  | [] => Some []
  | c :: f =>
      if c =? 37 then
        match f with
        | [] => None
        | next :: f =>
            if next =? 115 then match args with ArgStr t :: args => (fun r => t ++ r) <$> render f args | _ => None end
            else if next =? 83 then match args with ArgSds t :: args => (fun r => sds_content t ++ r) <$> render f args | _ => None end
            else if (next =? 105) || (next =? 73) then
              match args with ArgInt z :: args => (fun r => sdsll2str z ++ r) <$> render f args | _ => None end
            else if (next =? 117) || (next =? 85) || (next =? 84) then
              match args with ArgUint z :: args => (fun r => sdsull2str z ++ r) <$> render f args | _ => None end
            else (fun r => next :: r) <$> render f args
        end
      else (fun r => c :: r) <$> render f args
  end.

Definition arg_ok (a : fmt_arg) : Prop :=
  match a with ArgSds t => exists c, sds_holds t c | _ => True end.

(** Writing behind the content, where the NUL need not be. *)
Lemma fmt_append_spec c x rest t :
  zlen c + zlen rest < 2 ^ 31 - 1 -> zlen c + zlen t < 2 ^ 30 ->
  exists x' rest', fmt_append junk (mkSds (zlen c) (zlen rest) (c ++ x :: rest)) (zlen c) t
      = Ok (mkSds (zlen (c ++ t)) (zlen rest') ((c ++ t) ++ x' :: rest'), zlen (c ++ t)) /\
    zlen (c ++ t) + zlen rest' < 2 ^ 31 - 1.
Proof.
  intros Hb Ht. pose proof (zlen_nonneg t). pose proof (zlen_nonneg c). unfold fmt_append. cbn [sh_free].
  assert (Hroom : exists rest', (if zlen rest <? zlen t then sdsMakeRoomFor junk (mkSds (zlen c) (zlen rest) (c ++ x :: rest)) (zlen t)
      else Ok (mkSds (zlen c) (zlen rest) (c ++ x :: rest))) = Ok (mkSds (zlen c) (zlen rest') (c ++ x :: rest')) /\
      zlen t <= zlen rest' /\ zlen c + zlen rest' < 2 ^ 31 - 1).
  { destruct (Z.ltb_spec (zlen rest) (zlen t)); [by apply make_room_at|by exists rest]. }
  destruct Hroom as (rest1 & -> & Hr1 & Hb1). cbn [mbind outcome_bind sh_buf sh_len sh_free].
  destruct (split_at (x :: rest1) (zlen t)) as (a & b & E & Ha); [rewrite zlen_cons; lia|].
  assert (Hbl : zlen b = 1 + zlen rest1 - zlen t).
  { assert (zlen (x :: rest1) = zlen (a ++ b)) by congruence. rewrite zlen_cons, zlen_app in *. lia. }
  destruct b as [|y rest']; [rewrite zlen_nil in Hbl; lia|]. rewrite zlen_cons in Hbl.
  rewrite E, (write_at_mid c a t (y :: rest')) by done. cbn [mbind outcome_bind]. rewrite zlen_app.
  assert (i32 (zlen c + zlen t) = zlen c + zlen t) as -> by mword.
  assert (i32 (zlen rest1 - zlen t) = zlen rest') as -> by (assert (zlen rest' = zlen rest1 - zlen t) as -> by lia; mword).
  exists y, rest'. rewrite <- app_assoc. split; [done|lia].
Qed.

(** Making room for one byte and writing it. *)
Lemma fmt_putc_spec c x rest ch :
  zlen c + zlen rest < 2 ^ 31 - 1 -> 0 < zlen rest ->
  exists x' rest', fmt_putc (mkSds (zlen c) (zlen rest) (c ++ x :: rest)) (zlen c) ch
      = Ok (mkSds (zlen (c ++ [ch])) (zlen rest') ((c ++ [ch]) ++ x' :: rest'), zlen (c ++ [ch])) /\
    zlen (c ++ [ch]) + zlen rest' < 2 ^ 31 - 1.
Proof.
  intros Hb Hr. destruct rest as [|y rest]; [unfold zlen in Hr; cbn in Hr; lia|]. unfold fmt_putc. cbn [sh_free sh_len sh_buf].
  rewrite (write_at_mid c [x] [ch] (y :: rest)) by done. cbn [mbind outcome_bind]. rewrite zlen_app. change (zlen [ch]) with 1.
  pose proof (zlen_nonneg c). pose proof (zlen_nonneg rest). rewrite zlen_cons in *.
  assert (i32 (zlen c + 1) = zlen c + 1) as -> by mword.
  assert (i32 (1 + zlen rest - 1) = zlen rest) as -> by mword.
  exists y, rest. rewrite <- app_assoc. split; [|lia]. repeat f_equal; lia.
Qed.

Lemma fmt_room c x rest :
  zlen c + zlen rest < 2 ^ 31 - 1 -> zlen c + 1 < 2 ^ 30 ->
  exists rest', (if sh_free (mkSds (zlen c) (zlen rest) (c ++ x :: rest)) =? 0
      then sdsMakeRoomFor junk (mkSds (zlen c) (zlen rest) (c ++ x :: rest)) 1
      else Ok (mkSds (zlen c) (zlen rest) (c ++ x :: rest))) = Ok (mkSds (zlen c) (zlen rest') (c ++ x :: rest')) /\
    0 < zlen rest' /\ zlen c + zlen rest' < 2 ^ 31 - 1.
Proof.
  intros Hb Hc. cbn [sh_free]. destruct (Z.eqb_spec (zlen rest) 0).
  - destruct (make_room_at c x rest 1) as (rest' & E & ? & ?); [done..|]. exists rest'. split; [done|]. lia.
  - exists rest. pose proof (zlen_nonneg rest). split; [done|]. lia.
Qed.

Lemma peek_0 c l : peek (c :: l) 0 = Ok c.
Proof. done. Qed.
Lemma peek_1 a b l : peek (a :: b :: l) 1 = Ok b.
Proof. done. Qed.

(** The loop writes what the format denotes. *)
Lemma catfmt_loop_spec fuel : forall f args c x rest r,
  (length f < fuel)%nat -> Forall (fun b => b <> 0) f -> Forall arg_ok args -> render f args = Some r ->
  zlen c + zlen rest < 2 ^ 31 - 1 -> zlen c + zlen r + 1 < 2 ^ 30 ->
  exists x' rest', catfmt_loop junk fuel (f ++ [0]) args (mkSds (zlen c) (zlen rest) (c ++ x :: rest)) (zlen c)
      = Ok (mkSds (zlen (c ++ r)) (zlen rest') ((c ++ r) ++ x' :: rest'), zlen (c ++ r)) /\
    zlen (c ++ r) + zlen rest' < 2 ^ 31 - 1.
Proof.
  induction fuel as [|fuel IH]; intros f args c x rest r Hf Hnz Hargs Hr Hb Hc; [lia|].
  destruct f as [|b f].
  { cbn [render] in Hr. injection Hr as <-. exists x, rest. by rewrite app_nil_r. }
  apply Forall_cons in Hnz as [Hb0 Hnz]. cbn [catfmt_loop Datatypes.app]. rewrite peek_0. cbn [mbind outcome_bind].
  rewrite (proj2 (Z.eqb_neq b 0)) by done. pose proof (zlen_nonneg r).
  destruct (fmt_room c x rest Hb) as (rest1 & -> & Hr1 & Hb1); [lia|]. cbn [mbind outcome_bind].
  assert (Hput : forall ch args' k r', (length k < fuel)%nat -> Forall (fun b => b <> 0) k -> Forall arg_ok args' ->
    render k args' = Some r' -> r = ch :: r' ->
    exists x' rest', ('(s, i) ← fmt_putc (mkSds (zlen c) (zlen rest1) (c ++ x :: rest1)) (zlen c) ch;
      catfmt_loop junk fuel (k ++ [0]) args' s i)
      = Ok (mkSds (zlen (c ++ r)) (zlen rest') ((c ++ r) ++ x' :: rest'), zlen (c ++ r)) /\
      zlen (c ++ r) + zlen rest' < 2 ^ 31 - 1).
  { intros ch args' k r' Hk Hkz Ha Hr' ->. destruct (fmt_putc_spec c x rest1 ch Hb1 Hr1) as (x2 & rest2 & -> & Hb2).
    cbn [mbind outcome_bind]. rewrite zlen_cons in Hc.
    destruct (IH k args' (c ++ [ch]) x2 rest2 r') as (x3 & rest3 & E & Hb3); try done; [rewrite zlen_app; change (zlen [ch]) with 1; lia|].
    rewrite <- (app_assoc c [ch] r') in E, Hb3. exists x3, rest3. exact (conj E Hb3). }
  assert (Happ : forall t args' k r', (length k < fuel)%nat -> Forall (fun b => b <> 0) k -> Forall arg_ok args' ->
    render k args' = Some r' -> r = t ++ r' ->
    exists x' rest', ('(s, i) ← fmt_append junk (mkSds (zlen c) (zlen rest1) (c ++ x :: rest1)) (zlen c) t;
      catfmt_loop junk fuel (k ++ [0]) args' s i)
      = Ok (mkSds (zlen (c ++ r)) (zlen rest') ((c ++ r) ++ x' :: rest'), zlen (c ++ r)) /\
      zlen (c ++ r) + zlen rest' < 2 ^ 31 - 1).
  { intros t args' k r' Hk Hkz Ha Hr' ->. rewrite zlen_app in *. pose proof (zlen_nonneg r').
    destruct (fmt_append_spec c x rest1 t Hb1) as (x2 & rest2 & -> & Hb2); [lia|].
    cbn [mbind outcome_bind].
    destruct (IH k args' (c ++ t) x2 rest2 r') as (x3 & rest3 & E & Hb3); try done; [rewrite zlen_app; lia|].
    rewrite <- (app_assoc c t r') in E, Hb3. exists x3, rest3. rewrite <- zlen_app. exact (conj E Hb3). }
  cbn [render] in Hr. destruct (b =? 37).
  2: { destruct (render f args) as [r'|] eqn:E; [|done]. injection Hr as <-.
       change (drop 1 (b :: f ++ [0])) with (f ++ [0]). apply (Hput b args f r'); try done. cbn in Hf. lia. }
  destruct f as [|next f]; [done|]. apply Forall_cons in Hnz as [Hn0 Hnz]. cbn [length] in Hf.
  cbn [Datatypes.app]. rewrite peek_1. cbn [mbind outcome_bind].
  change (drop 2 (b :: next :: f ++ [0])) with (f ++ [0]).
  repeat match type of Hr with
  | (if ?t then _ else _) = _ => destruct t
  end.
  1-4: destruct args as [|[ | | | ] args]; try done; apply Forall_cons in Hargs as [Ha Hargs];
    destruct (render f args) as [r'|] eqn:E; try done; injection Hr as <-.
  - apply (Happ s args f r'); try done. lia.
  - destruct Ha as [t Ht]. rewrite (sds_holds_content s t Ht) in *. destruct (sds_holds_len s t Ht) as [-> _].
    rewrite (sds_holds_read s t (zlen t) Ht) by (pose proof (zlen_nonneg t); lia). cbn [mbind outcome_bind].
    rewrite (take_ge t) by (unfold zlen; lia). apply (Happ t args f r'); try done. lia.
  - apply (Happ (sdsll2str z) args f r'); try done. lia.
  - apply (Happ (sdsull2str z) args f r'); try done. lia.
  - destruct (render f args) as [r'|] eqn:E; [|done]. injection Hr as <-. apply (Hput next args f r'); try done. lia.
Qed.

Lemma catfmt_holds s c f args r :
  sds_holds s c -> Forall (fun b => b <> 0) f -> Forall arg_ok args -> render f args = Some r ->
  zlen c + zlen r + 1 < 2 ^ 30 ->
  exists s', sdscatfmt junk s f args = Ok s' /\ sds_holds s' (c ++ r).
Proof.
  intros Hs Hf Ha Hr Hb. unfold sdscatfmt. destruct (sds_holds_len s c Hs) as [-> _]. destruct Hs as (rest & -> & Hsum).
  destruct (catfmt_loop_spec (S (length f)) f args c 0 rest r) as (x & rest' & -> & Hsum'); try done; [lia|].
  cbn [mbind outcome_bind sh_buf]. rewrite (write_at_mid (c ++ r) [x] [0] rest') by done. cbn [mbind outcome_bind].
  eexists. split; [done|]. by exists rest'.
Qed.

(** ** Quoting and splitting *)

Definition quoted (x : list Z) : list Z := QUOTE :: concat (repr_char <$> x) ++ [QUOTE].

(** The arguments of a command line, each quoted and behind a blank. *)
Definition command_line (xs : list (list Z)) : list Z := concat ((fun x => 32 :: quoted x) <$> xs).
Lemma command_line_cons x xs : command_line (x :: xs) = [32] ++ quoted x ++ command_line xs.
Proof. done. Qed.

(** A client that quotes strings one behind the other. *)
Fixpoint quote_all (s : sds) (xs : list (list Z)) : outcome sds :=
  match xs with
  | [] => Ok s
  | x :: xs => s ← sdscat junk s [32]; s ← sdscatrepr junk s x; quote_all s xs
  end.

Lemma zlen_repr_pos c : 0 < zlen (repr_char c).
Proof. unfold repr_char. repeat case_match; done. Qed.

Lemma repr_loop_holds x : forall s c,
  sds_holds s c -> zlen c + zlen (concat (repr_char <$> x)) < 2 ^ 30 ->
  exists s', repr_loop junk s x = Ok s' /\ sds_holds s' (c ++ concat (repr_char <$> x)).
Proof.
  induction x as [|b x IH]; intros s c Hs Hb; cbn [repr_loop]; csimpl.
  - exists s. by rewrite app_nil_r.
  - csimpl in Hb. rewrite zlen_app in Hb. pose proof (zlen_nonneg (concat (repr_char <$> x))).
    destruct (sdscat_holds s c (repr_char b) Hs) as (s1 & -> & Hs1); [lia|]. cbn [mbind outcome_bind].
    rewrite app_assoc. apply IH; [done|]. rewrite zlen_app. lia.
Qed.

Lemma catrepr_holds s c x :
  sds_holds s c -> zlen c + zlen (quoted x) < 2 ^ 30 ->
  exists s', sdscatrepr junk s x = Ok s' /\ sds_holds s' (c ++ quoted x).
Proof.
  intros Hs Hb. unfold quoted in Hb. rewrite zlen_cons, zlen_app in Hb. change (zlen [QUOTE]) with 1 in Hb.
  pose proof (zlen_nonneg (concat (repr_char <$> x))). unfold sdscatrepr.
  destruct (catlen_holds s c [QUOTE; 0] 1 [QUOTE] Hs) as (s1 & -> & Hs1); [done|lia|]. cbn [mbind outcome_bind].
  destruct (repr_loop_holds x s1 (c ++ [QUOTE]) Hs1) as (s2 & -> & Hs2); [rewrite zlen_app; change (zlen [QUOTE]) with 1; lia|].
  cbn [mbind outcome_bind].
  destruct (catlen_holds s2 _ [QUOTE; 0] 1 [QUOTE] Hs2) as (s3 & E & Hs3); [done|rewrite !zlen_app; change (zlen [QUOTE]) with 1; lia|].
  exists s3. split; [done|]. rewrite <- !app_assoc in Hs3. exact Hs3.
Qed.

Lemma quote_all_holds xs : forall s c,
  sds_holds s c -> zlen c + zlen (command_line xs) < 2 ^ 30 ->
  exists s', quote_all s xs = Ok s' /\ sds_holds s' (c ++ command_line xs).
Proof.
  induction xs as [|x xs IH]; intros s c Hs Hb; cbn [quote_all].
  - exists s. change (command_line []) with (@nil Z). by rewrite app_nil_r.
  - rewrite command_line_cons in *. rewrite !zlen_app in Hb. change (zlen [32]) with 1 in Hb. pose proof (zlen_nonneg (command_line xs)).
    pose proof (zlen_nonneg (quoted x)).
    destruct (sdscat_holds s c [32] Hs) as (s1 & -> & Hs1); [change (zlen [32]) with 1; lia|]. cbn [mbind outcome_bind].
    destruct (catrepr_holds s1 (c ++ [32]) x Hs1) as (s2 & -> & Hs2); [rewrite zlen_app; change (zlen [32]) with 1; lia|].
    cbn [mbind outcome_bind]. destruct (IH s2 ((c ++ [32]) ++ quoted x) Hs2) as (s3 & -> & Hs3).
    { rewrite !zlen_app. change (zlen [32]) with 1. lia. }
    exists s3. split; [done|]. rewrite <- !app_assoc in Hs3. exact Hs3.
Qed.

Lemma hexdigit_ok d : 0 <= d < 16 -> is_hex_digit (hexdigit d) = true /\ hex_digit_to_int (hexdigit d) = d /\ hexdigit d <> 0.
Proof.
  intros Hd. assert (d = 0 \/ d = 1 \/ d = 2 \/ d = 3 \/ d = 4 \/ d = 5 \/ d = 6 \/ d = 7 \/ d = 8 \/ d = 9 \/ d = 10 \/ d = 11
    \/ d = 12 \/ d = 13 \/ d = 14 \/ d = 15) as Hcases by lia.
  repeat destruct Hcases as [->|Hcases]; try (subst d; by vm_compute); by vm_compute.
Qed.

(** One step of the token loop reads back what [sdscatrepr] wrote for a byte. *)
Lemma token_step_repr cur d b k :
  is_byte b -> sds_holds cur d -> zlen d + 1 < 2 ^ 30 ->
  exists cur', token_step junk (mkTok (repr_char b ++ k) true false false cur) = Ok (Some (mkTok k true false false cur'))
    /\ sds_holds cur' (d ++ [b]).
Proof.
  intros Hb Hd Hl.
  assert (Hcat : exists cur', sdscatlen junk cur [b] 1 = Ok cur' /\ sds_holds cur' (d ++ [b])) by by apply catlen_holds.
  destruct Hcat as (cur' & Hcat & Hcur'). exists cur'. split; [|done]. unfold repr_char.
  destruct ((b =? BACKSLASH) || (b =? QUOTE)) eqn:E1.
  { assert (b = 92 \/ b = 34) as [-> | ->] by (unfold BACKSLASH, QUOTE in E1; lia); cbn -[sdscatlen]; by rewrite Hcat. }
  repeat match goal with |- context [if b =? ?n then [BACKSLASH; ?e] else _] =>
    destruct (Z.eqb_spec b n) as [->|]; [cbn -[sdscatlen]; by rewrite Hcat|] end.
  destruct (isprint b) eqn:E2.
  - unfold BACKSLASH, QUOTE, isprint in *. assert ((b =? 92) = false) as E92 by lia. assert ((b =? 34) = false) as E34 by lia.
    assert ((b =? 0) = false) as E0 by lia. unfold token_step, at_hex, BACKSLASH, QUOTE. cbn -[sdscatlen Z.eqb].
    rewrite E92. cbn -[sdscatlen Z.eqb]. by rewrite E34, E0, Hcat.
  - unfold is_byte in Hb.
    destruct (hexdigit_ok (b / 16)) as (H1 & H1' & H1z); [split; [apply Z.div_pos; lia|apply Z.div_lt_upper_bound; lia]|].
    destruct (hexdigit_ok (b mod 16)) as (H2 & H2' & H2z); [apply Z.mod_pos_bound; lia|].
    cbn -[sdscatlen hexdigit is_hex_digit hex_digit_to_int Z.div Z.modulo Z.mul].
    rewrite H1. cbn -[sdscatlen hexdigit is_hex_digit hex_digit_to_int Z.div Z.modulo Z.mul]. rewrite H2.
    cbn -[sdscatlen hexdigit is_hex_digit hex_digit_to_int Z.div Z.modulo Z.mul]. rewrite H1', H2'.
    assert (u8 (b / 16 * 16 + b mod 16) = b) as -> by mword. rewrite Hcat.
    cbn -[sdscatlen hexdigit is_hex_digit hex_digit_to_int Z.div Z.modulo Z.mul].
    by rewrite (proj2 (Z.eqb_neq (hexdigit (b mod 16)) 0)).
Qed.

Lemma token_loop_quoted x : forall fuel cur d k,
  (length x < fuel)%nat -> is_bytes x -> sds_holds cur d -> zlen d + zlen x < 2 ^ 30 -> (exists b k', k = b :: k' /\ (b = 0 \/ b = 32)) ->
  exists cur', token_loop junk fuel (mkTok (concat (repr_char <$> x) ++ QUOTE :: k) true false false cur) = Ok (Some (k, cur'))
    /\ sds_holds cur' (d ++ x).
Proof.
  induction x as [|b x IH]; intros fuel cur d k Hf Hx Hd Hl Hk; (destruct fuel as [|fuel]; [cbn in Hf; lia|]).
  - destruct Hk as (b & k' & -> & Hb). exists cur. rewrite app_nil_r. split; [|done].
    destruct fuel; destruct Hb as [-> | ->]; done.
  - apply Forall_cons in Hx as [Hb Hx]. csimpl. rewrite zlen_cons in Hl. pose proof (zlen_nonneg x). rewrite <- app_assoc.
    destruct (token_step_repr cur d b (concat (repr_char <$> x) ++ QUOTE :: k) Hb Hd) as (cur' & E & Hcur'); [lia|].
    cbn [token_loop tk_done]. rewrite E. cbn [mbind outcome_bind].
    destruct (IH fuel cur' (d ++ [b]) k) as (cur2 & E2 & Hc2); [cbn in Hf; lia|done|done|rewrite zlen_app; change (zlen [b]) with 1; lia|done|].
    exists cur2. rewrite <- app_assoc in Hc2. done.
Qed.

Lemma length_reprs x : (length x <= length (concat (repr_char <$> x)))%nat.
Proof.
  induction x as [|b x IH]; [done|]. csimpl. rewrite length_app. pose proof (zlen_repr_pos b). unfold zlen in *. lia.
Qed.

Lemma args_loop_line xs : forall fuel vector,
  (length xs < fuel)%nat -> Forall (fun x => is_bytes x /\ zlen x < 2 ^ 30) xs ->
  exists ts, args_loop junk fuel (command_line xs ++ [0]) vector = Ok (Some (vector ++ ts)) /\ Forall2 sds_holds ts xs.
Proof.
  induction xs as [|x xs IH]; intros fuel vector Hf Hxs; (destruct fuel as [|fuel]; [cbn in Hf; lia|]).
  { exists []. by rewrite app_nil_r. }
  apply Forall_cons in Hxs as [[Hx Hl] Hxs]. rewrite command_line_cons. unfold quoted. cbn [args_loop].
  set (k := command_line xs ++ [0]).
  assert (Hskip : skip_blanks (([32] ++ (QUOTE :: concat (repr_char <$> x) ++ [QUOTE]) ++ command_line xs) ++ [0])
    = QUOTE :: concat (repr_char <$> x) ++ QUOTE :: k).
  { change (skip_blanks (QUOTE :: ((concat (repr_char <$> x) ++ [QUOTE]) ++ command_line xs) ++ [0]) = QUOTE :: concat (repr_char <$> x) ++ QUOTE :: k).
    rewrite <- !app_assoc. done. }
  rewrite Hskip, peek_0. cbn [mbind outcome_bind]. change (QUOTE =? 0) with false. cbn iota.
  destruct sdsempty_holds as (cur & -> & Hcur). cbn [mbind outcome_bind token_loop tk_done].
  assert (Hhead : exists b k', k = b :: k' /\ (b = 0 \/ b = 32)).
  { destruct xs; [by exists 0, []; auto|]. subst k. rewrite command_line_cons. eexists 32, _. auto. }
  assert (Hstep : token_step junk (mkTok (QUOTE :: concat (repr_char <$> x) ++ QUOTE :: k) false false false cur)
    = Ok (Some (mkTok (concat (repr_char <$> x) ++ QUOTE :: k) true false false cur))) by done.
  rewrite Hstep. cbn [mbind outcome_bind].
  destruct (token_loop_quoted x (length (QUOTE :: concat (repr_char <$> x) ++ QUOTE :: k)) cur [] k) as (cur' & -> & Hc);
    [cbn [length]; rewrite length_app; pose proof (length_reprs x); lia|done|done|rewrite zlen_nil; lia|done|].
  cbn [mbind outcome_bind]. destruct (IH fuel (vector ++ [cur'])) as (ts & E & Hts); [cbn in Hf; lia|done|].
  exists (cur' :: ts). subst k. rewrite E, <- app_assoc. split; [done|]. constructor; done.
Qed.

Lemma repr_no_nul b : is_byte b -> Forall (fun z => z <> 0) (repr_char b).
Proof.
  intros Hb. unfold repr_char, BACKSLASH, QUOTE. unfold is_byte in Hb.
  destruct (hexdigit_ok (b / 16)) as (_ & _ & H1z); [split; [apply Z.div_pos; lia|apply Z.div_lt_upper_bound; lia]|].
  destruct (hexdigit_ok (b mod 16)) as (_ & _ & H2z); [apply Z.mod_pos_bound; lia|].
  repeat case_match; repeat constructor; try done; unfold isprint in *; lia.
Qed.

Lemma command_line_no_nul xs : Forall is_bytes xs -> Forall (fun z => z <> 0) (command_line xs).
Proof.
  induction 1 as [|x xs Hx Hxs IH]; [constructor|]. rewrite command_line_cons. unfold quoted.
  rewrite ?Forall_app, ?Forall_cons, ?Forall_nil. rewrite ?Forall_app, ?Forall_cons, ?Forall_nil. split_and!; try done.
  apply Forall_concat, Forall_fmap. eapply Forall_impl; [done|]. intros b. apply repr_no_nul.
Qed.

Lemma length_command_line xs : (length xs <= length (command_line xs))%nat.
Proof. induction xs as [|x xs IH]; [done|]. rewrite command_line_cons, !length_app. cbn [length]. lia. Qed.
End proofs.

(** ** Trimming *)
Lemma trim_front_spec cset l : forall sp, exists a b,
  l = a ++ b /\ trim_front cset sp l = sp + zlen a /\ Forall (fun c => in_cset cset c) a /\
  (forall c b', b = c :: b' -> in_cset cset c = false).
Proof.
  induction l as [|c l IH]; intros sp; cbn [trim_front].
  { exists [], []. rewrite zlen_nil. split_and!; [done|lia|constructor|done]. }
  destruct (in_cset cset c) eqn:E.
  - destruct (IH (sp + 1)) as (a & b & -> & -> & Ha & Hb). exists (c :: a), b. rewrite zlen_cons. split_and!; [done|lia| |done].
    constructor; [by rewrite E|done].
  - exists [], (c :: l). rewrite zlen_nil. split_and!; [done|lia|constructor|]. by intros ? ? [= <- <-].
Qed.

(** A list that is not wholly in the set is cut at its first byte outside. *)
Lemma trim_back_spec cset a x b : in_cset cset x = false ->
  Forall (fun c => in_cset cset c) b -> trim_back cset (zlen a + zlen b) (reverse (a ++ x :: b)) = zlen a.
Proof.
  intros Hx. revert b. refine (rev_ind _ _ _).
  - intros _. rewrite reverse_app, zlen_nil, Z.add_0_r. cbn. by rewrite Hx, andb_false_r.
  - intros y b IH [Hb Hy]%Forall_app. apply Forall_cons in Hy as [Hy _]. apply Is_true_true in Hy.
    rewrite (app_comm_cons b [y] x), app_assoc, reverse_snoc, zlen_app. cbn [trim_back].
    change (zlen [y]) with 1. rewrite Hy, (proj2 (Z.gtb_lt _ 0)) by (pose proof (zlen_nonneg a); pose proof (zlen_nonneg b); lia).
    cbn [andb]. replace (zlen a + (zlen b + 1) - 1) with (zlen a + zlen b) by lia. by apply IH.
Qed.

Lemma trim_back_all cset l : Forall (fun c => in_cset cset c) l -> forall ep, ep <= zlen l - 1 -> trim_back cset ep l <= 0.
Proof.
  induction 1 as [|c l Hc _ IH]; intros ep Hep; cbn [trim_back]; [rewrite zlen_nil in Hep; lia|].
  apply Is_true_true in Hc. rewrite Hc, andb_true_r. rewrite zlen_cons in Hep. destruct (Z.gtb_spec ep 0); [apply IH|]; lia.
Qed.

(** The longest suffix in the set. *)
Lemma last_outside cset l : Forall (fun c => in_cset cset c) l \/
  exists a x b, l = a ++ x :: b /\ in_cset cset x = false /\ Forall (fun c => in_cset cset c) b.
Proof.
  induction l as [|c l [IH|(a & x & b & -> & Hx & Hb)]].
  - by left.
  - destruct (in_cset cset c) eqn:E; [left; constructor; [by rewrite E|done]|]. right. by exists [], c, l.
  - right. by exists (c :: a), x, b.
Qed.

(** What is left of a string: nothing, or a part that begins and ends outside of
    the set. *)
Definition trimmed (cset c m : list Z) : Prop :=
  exists a b, c = a ++ m ++ b /\ Forall (fun c => in_cset cset c) a /\ Forall (fun c => in_cset cset c) b /\
    (forall x k, m = x :: k -> in_cset cset x = false) /\ (forall x k, m = k ++ [x] -> in_cset cset x = false).

Lemma sdstrim_part s a m b :
  sds_holds s (a ++ m ++ b) -> exists s', (moved ← read_at (sh_buf s) (zlen a) (zlen m);
  buf ← write_at (sh_buf s) 0 moved; buf ← write_at buf (zlen m) [0];
  Ok (mkSds (i32 (zlen m)) (i32 (sh_free s + (sh_len s - zlen m))) buf)) = Ok s' /\ sds_holds s' m.
Proof.
  intros (rest & -> & Hb). cbn [sh_buf sh_free sh_len]. pose proof (zlen_nonneg a). pose proof (zlen_nonneg b).
  assert (Hr : read_at ((a ++ m ++ b) ++ 0 :: rest) (zlen a) (zlen m) = Ok m).
  { rewrite <- !app_assoc. by apply read_at_mid. }
  rewrite Hr. cbn [mbind outcome_bind]. apply shrink_holds; [rewrite !zlen_app; lia|done].
Qed.

Lemma sdstrim_holds s c cset : sds_holds s c ->
  exists s' m, sdstrim s cset = Ok s' /\ sds_holds s' m /\ trimmed cset c m.
Proof.
  intros Hs. destruct (sds_holds_len s c Hs) as [Hl _]. unfold sdstrim. rewrite Hl, (sds_holds_read s c (zlen c) Hs) by (pose proof (zlen_nonneg c); lia).
  rewrite (take_ge c) by (unfold zlen; lia). cbn [mbind outcome_bind]. cbv zeta.
  destruct (trim_front_spec cset c 0) as (a & k & -> & -> & Ha & Hk). rewrite Z.add_0_l.
  destruct (last_outside cset k) as [Hall|(m & x & b & -> & Hx & Hb)].
  - assert (Hkn : k = []) by (destruct k as [|y k]; [done|]; apply Forall_cons in Hall as [Hy _]; by rewrite (Hk y k eq_refl) in Hy).
    subst k. rewrite app_nil_r in *. assert (Hrev : trim_back cset (zlen a - 1) (reverse a) <= 0).
    { apply trim_back_all; [by apply Forall_reverse|]. unfold zlen. rewrite length_reverse. lia. }
    set (len := if _ >? _ then 0 else _).
    assert (Hlen : len = 0).
    { subst len. destruct (decide (a = [])) as [->|Hne]; [done|]. assert (0 < zlen a) by (destruct a; [done|]; rewrite zlen_cons; pose proof (zlen_nonneg a); lia).
      by rewrite (proj2 (Z.gtb_lt _ _)) by lia. }
    rewrite Hlen. destruct (sdstrim_part s a [] []) as (s' & E & Hs'); [by rewrite app_nil_r|]. exists s', []. split; [done|]. split; [done|].
    exists a, []. rewrite app_nil_r. split_and!; [done|done|constructor|done|]. by intros ? [].
  - assert (Hback : trim_back cset (zlen (a ++ m ++ x :: b) - 1) (reverse (a ++ m ++ x :: b)) = zlen (a ++ m)).
    { rewrite (app_assoc a m). rewrite <- (trim_back_spec cset (a ++ m) x b Hx Hb). f_equal. rewrite (zlen_app (a ++ m)), zlen_cons. lia. }
    rewrite Hback. rewrite zlen_app. pose proof (zlen_nonneg m). 
    destruct (Z.gtb_spec (zlen a) (zlen a + zlen m)); [lia|].
    destruct (sdstrim_part s a (m ++ [x]) b) as (s' & E & Hs'); [by rewrite <- app_assoc|].
    exists s', (m ++ [x]). replace (zlen a + zlen m - zlen a + 1) with (zlen (m ++ [x])) by (rewrite zlen_app; change (zlen [x]) with 1; lia).
    split; [done|]. split; [done|]. exists a, b. rewrite <- app_assoc. split_and!; [done|done|done| |].
    + intros y k' E'. destruct m as [|z m]; injection E' as <- <-; [done|]. by apply (Hk z (m ++ x :: b)).
    + intros y k' E'. by apply app_inj_tail in E' as [_ <-].
Qed.

(** ** Claims *)

(** C20: Round trip of an argument list.  Strings quoted one behind the other with
    [sdscat] and [sdscatrepr] form a C string without a NUL inside, and
    [sdssplitargs] reads exactly the strings back, whatever bytes they hold. *)
Theorem sds_quote_split_roundtrip (junk : Z) (xs : list (list Z)) :
  Forall is_bytes xs -> zlen (command_line xs) < 2 ^ 30 ->
  exists line ts, (s ← sdsempty junk; quote_all junk s xs) = Ok line /\
    sds_holds line (command_line xs) /\ Forall (fun b => b <> 0) (command_line xs) /\
    sdssplitargs junk (sds_content line) = Ok (Some ts) /\ Forall2 sds_holds ts xs.
Proof.
  intros Hx Hl. destruct (sdsempty_holds junk) as (s & -> & Hs). cbn [mbind outcome_bind].
  destruct (quote_all_holds junk xs s [] Hs) as (line & -> & Hline); [by rewrite zlen_nil|]. exists line.
  rewrite (sds_holds_content _ _ Hline). unfold sdssplitargs.
  destruct (args_loop_line junk xs (S (length (command_line xs))) []) as (ts & E & Hts).
  - pose proof (length_command_line xs). lia.
  - clear -Hx Hl. induction Hx as [|x xs Hx _ IH]; constructor.
    + split; [done|]. rewrite command_line_cons in Hl. unfold quoted in Hl. rewrite !zlen_app in Hl.
      change (zlen [32]) with 1 in Hl. rewrite zlen_cons, zlen_app in Hl.
      pose proof (zlen_nonneg (command_line xs)). pose proof (length_reprs x). unfold zlen in *. cbn [length] in Hl. lia.
    + apply IH. rewrite command_line_cons, !zlen_app in Hl. pose proof (zlen_nonneg (quoted x)). change (zlen [32]) with 1 in Hl. lia.
  - exists ts. split_and!; [done|done|by apply command_line_no_nul|done|done].
Qed.

Lemma sds_quote_split_roundtrip_witness :
  exists line ts, (s ← sdsempty 7; quote_all 7 s [[0; 34; 92; 200]; [102; 111; 111]]) = Ok line /\
    sdssplitargs 7 (sds_content line) = Ok (Some ts) /\ Forall2 sds_holds ts [[0; 34; 92; 200]; [102; 111; 111]].
Proof.
  destruct (sds_quote_split_roundtrip 7 [[0; 34; 92; 200]; [102; 111; 111]]) as (line & ts & E & _ & _ & E' & H); [by_decide..|].
  exists line, ts. exact (conj E (conj E' H)).
Defined.

(** Splitting and joining.  [sdssplitlen] on a non-empty string and separator
    returns parts that, joined by the separator, are the string; [sdsjoinsds]
    with the same separator rebuilds it.  A null result is only for an empty
    separator. *)
Theorem sds_split_join_roundtrip (junk : Z) (s sep : list Z) :
  0 < zlen sep -> 0 < zlen s < 2 ^ 30 ->
  exists tokens parts t, sdssplitlen junk s sep = Ok (Some tokens) /\ Forall2 sds_holds tokens parts /\
    intercalate sep parts = s /\ sdsjoinsds junk tokens sep = Ok t /\ sds_holds t s.
Proof.
  intros Hsep Hs. destruct (sdssplitlen_spec junk s sep) as (tokens & parts & E & Hf & Hi); [lia..|].
  exists tokens, parts. unfold sdsjoinsds. destruct (sdsempty_holds junk) as (e & -> & He). cbn [mbind outcome_bind].
  destruct (join_loop_spec junk sep tokens parts e [] Hf He) as (t & E' & Ht); [rewrite Hi, zlen_nil; lia|].
  exists t. rewrite Hi in Ht. done.
Qed.

Lemma sds_split_join_roundtrip_witness :
  exists tokens parts t, sdssplitlen 7 [97; 44; 44; 98] [44] = Ok (Some tokens) /\ Forall2 sds_holds tokens parts /\
    intercalate [44] parts = [97; 44; 44; 98] /\ sdsjoinsds 7 tokens [44] = Ok t /\ sds_holds t [97; 44; 44; 98].
Proof. by apply (sds_split_join_roundtrip 7 [97; 44; 44; 98] [44]). Defined.

(** [sdsrange] keeps exactly the bytes between two inclusive indices, for
    negative indices (counted from the end), indices behind the end and empty
    ranges alike, and the header keeps describing the buffer. *)
Theorem sdsrange_substring (s : sds) (c : list Z) (start stop : Z) :
  sds_holds s c -> is_i32 start -> is_i32 stop -> stop < 2 ^ 31 - 1 ->
  exists s', sdsrange s start stop = Ok s' /\ sds_holds s' (substring start stop c).
Proof. apply sdsrange_holds. Qed.

Lemma sdsrange_substring_witness :
  exists s', sdsrange (mkSds 3 1 [102; 111; 111; 0; 7]) (-2) 9 = Ok s' /\ sds_holds s' [111; 111].
Proof.
  apply (sdsrange_substring (mkSds 3 1 [102; 111; 111; 0; 7]) [102; 111; 111]); [|by_decide..].
  exists [7]. by vm_compute.
Defined.

(** [sdscatfmt] appends exactly what its format denotes: with a format without
    NUL bytes and arguments of the types it names, every write is inside the
    buffer, and the content grows by the rendered bytes.  A percent sign at the
    end of the format takes the terminator for a conversion: with the format
    that is only a percent sign the call reads behind the format, for every
    string and argument list. *)
Theorem sdscatfmt_renders (junk : Z) (s : sds) (c f : list Z) (args : list fmt_arg) :
  sds_holds s c -> Forall (fun b => b <> 0) f ->
  (forall r, Forall arg_ok args -> render f args = Some r -> zlen c + zlen r + 1 < 2 ^ 30 ->
     exists s', sdscatfmt junk s f args = Ok s' /\ sds_holds s' (c ++ r)) /\
  (zlen c + 2 < 2 ^ 30 -> sdscatfmt junk s [37] args = Crash OutOfBounds).
Proof.
  intros Hs Hf. split; [intros r; by apply catfmt_holds|].
  intros Hc. unfold sdscatfmt. destruct (sds_holds_len s c Hs) as [-> _]. destruct Hs as (rest & -> & Hb).
  cbn [length Datatypes.app catfmt_loop]. rewrite peek_0. cbn [mbind outcome_bind Z.eqb].
  destruct (fmt_room junk c 0 rest Hb) as (rest1 & -> & Hr1 & Hb1); [lia|]. cbn [mbind outcome_bind]. rewrite peek_1.
  cbn [mbind outcome_bind]. destruct (fmt_putc_spec c 0 rest1 0 Hb1 Hr1) as (x2 & rest2 & E & _).
  change (0 =? 115) with false. cbn -[fmt_putc]. rewrite E. done.
Qed.

Lemma sdscatfmt_renders_witness :
  exists s', sdscatfmt 7 (mkSds 0 0 [0]) [37; 115; 61; 37; 105] [ArgStr [120]; ArgInt (-5)] = Ok s' /\
    sds_holds s' [120; 61; 45; 53].
Proof.
  refine (proj1 (sdscatfmt_renders 7 (mkSds 0 0 [0]) [] [37; 115; 61; 37; 105] [ArgStr [120]; ArgInt (-5)] _ _) [120; 61; 45; 53] _ _ _);
    [exists []; by vm_compute|by_decide|by repeat constructor|by vm_compute|by vm_compute].
Defined.

(** [sdstrim] cuts the bytes of the set off both ends and nothing else; the
    set it uses always contains NUL, because [strchr] finds the terminator of the
    set, so NUL bytes of a binary string are cut as well. *)
Theorem sdstrim_exact (s : sds) (c cset : list Z) :
  sds_holds s c -> exists s' m, sdstrim s cset = Ok s' /\ sds_holds s' m /\ trimmed cset c m /\
    (forall x k, m = x :: k -> x <> 0 /\ x ∉ cset) /\ (forall x k, m = k ++ [x] -> x <> 0 /\ x ∉ cset).
Proof.
  intros Hs. destruct (sdstrim_holds s c cset Hs) as (s' & m & E & Hs' & Ht). exists s', m. split; [done|]. split; [done|]. split; [done|].
  assert (Hout : forall x, in_cset cset x = false -> x <> 0 /\ x ∉ cset).
  { intros x [H1%Z.eqb_neq H2%bool_decide_eq_false]%orb_false_iff. done. }
  destruct Ht as (a & b & _ & _ & _ & H1 & H2). split; intros x k Hm; apply Hout; [by eapply H1|by eapply H2].
Qed.

Lemma sdstrim_exact_witness :
  exists s' m, sdstrim (mkSds 4 0 [120; 102; 120; 0; 0]) [120] = Ok s' /\ sds_holds s' m /\ trimmed [120] [120; 102; 120; 0] m.
Proof.
  destruct (sdstrim_exact (mkSds 4 0 [120; 102; 120; 0; 0]) [120; 102; 120; 0] [120]) as (s' & m & E & H & T & _);
    [exists []; by vm_compute|]. exists s', m. exact (conj E (conj H T)).
Defined.
