(* ===== verification/RedisReader.v ===== *)
(** * redisReader

    The incremental parser of redis replies in [hiredis/read.c]: a buffer that is
    fed chunks of bytes, a stack of nine read tasks, and callbacks that build the
    reply objects.  The buffer is an [sds]; pointers into it are indices.  A
    pointer to an object is a [Z], 0 is null. *)

From Stdlib Require Import String Ascii.
From S2P Require Import Prelude Inet Sds.

(** ** read.h *)

Definition REDIS_OK : Z := 0.
Definition REDIS_ERR : Z := -1.
Definition REDIS_ERR_PROTOCOL : Z := 4.
Definition REDIS_ERR_OOM : Z := 5.
Definition REDIS_REPLY_STRING : Z := 1.
Definition REDIS_REPLY_ARRAY : Z := 2.
Definition REDIS_REPLY_INTEGER : Z := 3.
Definition REDIS_REPLY_NIL : Z := 4.
Definition REDIS_REPLY_STATUS : Z := 5.
Definition REDIS_REPLY_ERROR : Z := 6.
Definition REDIS_READER_MAX_BUF : Z := 1024 * 16.

(** [t_parent] is the index of the parent task on the stack. *)
Record redisReadTask := mkTask {
  t_type : Z; t_elements : Z; t_idx : Z; t_obj : Z; t_parent : option Z
}.
#[export] Instance eta_task : Eta redisReadTask :=
  fun t => mkTask (t_type t) (t_elements t) (t_idx t) (t_obj t) (t_parent t).
#[export] Instance task_eq_dec : EqDecision redisReadTask.
Proof. solve_decision. Defined.

(** The callbacks work on a state of their own and get the task, its parent and,
    for [createString], the bytes of the string. *)
Record redisReplyObjectFunctions (W : Type) := mkFunctions {
  createString : option (redisReadTask -> option redisReadTask -> list Z -> W -> outcome (Z * W));
  createArray : option (redisReadTask -> option redisReadTask -> Z -> W -> outcome (Z * W));
  createInteger : option (redisReadTask -> option redisReadTask -> Z -> W -> outcome (Z * W));
  createNil : option (redisReadTask -> option redisReadTask -> W -> outcome (Z * W));
  freeObject : option (Z -> W -> outcome W)
}.
Arguments mkFunctions {W} _ _ _ _ _.
Arguments createString {W} _.
Arguments createArray {W} _.
Arguments createInteger {W} _.
Arguments createNil {W} _.
Arguments freeObject {W} _.

Record redisReader := mkReader {
  r_err : Z; r_errstr : list Z;
  r_buf : option sds; r_pos : Z; r_len : Z; r_maxbuf : Z;
  r_rstack : list redisReadTask; r_ridx : Z; r_reply : Z
}.
#[export] Instance eta_reader : Eta redisReader := fun r =>
  mkReader (r_err r) (r_errstr r) (r_buf r) (r_pos r) (r_len r) (r_maxbuf r) (r_rstack r) (r_ridx r) (r_reply r).

(** The bytes of a string constant. *)
Definition c_string (s : string) : list Z := (fun a => Z.of_N (N_of_ascii a)) <$> list_ascii_of_string s.

Definition DEPTH_ERROR : list Z := c_string "No support for nested multi bulk replies with depth > 7".

Definition OOM_ERROR : list Z := c_string "Out of memory".

(** [r->rstack[i]] *)
Definition get_task (r : redisReader) (i : Z) : outcome redisReadTask := elem_at (r_rstack r) i.
Definition set_task (r : redisReader) (i : Z) (t : redisReadTask) : outcome redisReader :=
  l ← elem_set (r_rstack r) i t; Ok (r <| r_rstack := l |>).

(** [r->buf[p]] and [n] bytes from there. *)
Definition buf_bytes (r : redisReader) : outcome (list Z) :=
  match r_buf r with Some s => Ok (sh_buf s) | None => Crash NullDeref end.
Definition buf_read (r : redisReader) (p n : Z) : outcome (list Z) :=
  b ← buf_bytes r; read_at b p n.

(** ** Lines *)

(** The inner loop of [seekNewline]: to the next carriage return, or to the
    bound. *)
Fixpoint skip_to_cr (fuel : nat) (b : list Z) (s pos bound : Z) : outcome Z :=
  if negb (pos <? bound) then Ok pos else
  match fuel with
  | O => Crash OutOfFuel
  | S fuel =>
      c ← elem_at b (s + pos);
      if c =? 13 then Ok pos else skip_to_cr fuel b s (pos + 1) bound
  end.

Fixpoint seek_loop (fuel : nat) (b : list Z) (s pos bound : Z) : outcome (option Z) :=
  if negb (pos <? bound) then Ok None else
  match fuel with
  | O => Crash OutOfFuel
  | S fuel' =>
      pos ← skip_to_cr fuel b s pos bound;
      c ← elem_at b (s + pos);
      if negb (c =? 13) then Ok None
      else
        c ← elem_at b (s + (pos + 1));
        if c =? 10 then Ok (Some (s + pos)) else seek_loop fuel' b s (pos + 1) bound
  end.

(** [seekNewline(s, len)] with [s] an index of the buffer [b]. *)
Definition seekNewline (b : list Z) (s len : Z) : outcome (option Z) :=
  let bound := i32 (u64 (len - 1)) in
  seek_loop (Z.to_nat bound) b s 0 bound.

(** The loop of [readLongLong]; signed overflow wraps around. *)
Fixpoint ll_loop (fuel : nat) (b : list Z) (s v mult : Z) : outcome Z :=
  match fuel with
  | O => Crash OutOfFuel
  | S fuel =>
      c ← elem_at b s;
      if c =? 13 then Ok (i64 (mult * v))
      else
        let dec := c - 48 in
        if (dec >=? 0) && (dec <? 10) then ll_loop fuel b (s + 1) (i64 (i64 (v * 10) + dec)) mult
        else Ok (-1)
  end.

Definition readLongLong (b : list Z) (s : Z) : outcome Z :=
  c ← elem_at b s;
  let '(mult, s) := if c =? 45 then (-1, s + 1) else if c =? 43 then (1, s + 1) else (1, s) in
  ll_loop (S (length b)) b s 0 mult.

(** [readBytes] and [readLine]: the index of the first byte, and the length of
    the line. *)
Definition readBytes (r : redisReader) (bytes : Z) : redisReader * option Z :=
  if u64 (r_len r - r_pos r) >=? bytes then (r <| r_pos := u64 (r_pos r + bytes) |>, Some (r_pos r)) else (r, None).

Definition readLine (r : redisReader) : outcome (redisReader * option (Z * Z)) :=
  b ← buf_bytes r;
  s ← seekNewline b (r_pos r) (u64 (r_len r - r_pos r));
  match s with
  | Some s =>
      let len := i32 (s - r_pos r) in
      Ok (r <| r_pos := u64 (r_pos r + (len + 2)) |>, Some (r_pos r, len))
  | None => Ok (r, None)
  end.

(** ** The task stack *)

Fixpoint next_task_loop (fuel : nat) (r : redisReader) : outcome redisReader :=
  if negb (r_ridx r >=? 0) then Ok r else
  match fuel with
  | O => Crash OutOfFuel
  | S fuel =>
      if r_ridx r =? 0 then Ok (r <| r_ridx := r_ridx r - 1 |>)
      else
        cur ← get_task r (r_ridx r);
        prv ← get_task r (r_ridx r - 1);
        c_assert (t_type prv =? REDIS_REPLY_ARRAY) ;;
        if t_idx cur =? i32 (t_elements prv - 1) then next_task_loop fuel (r <| r_ridx := r_ridx r - 1 |>)
        else
          c_assert (t_idx cur <? t_elements prv) ;;
          set_task r (r_ridx r) (cur <| t_type := -1 |> <| t_elements := -1 |> <| t_idx := i32 (t_idx cur + 1) |>)
  end.
Definition moveToNextTask (r : redisReader) : outcome redisReader :=
  next_task_loop (S (Z.to_nat (r_ridx r))) r.

Section reader.
Context {W : Type} (fn : option (redisReplyObjectFunctions W)).

Definition callback {T} (sel : redisReplyObjectFunctions W -> option T) : option T := fn ≫= sel.

Definition parent_of (r : redisReader) (t : redisReadTask) : outcome (option redisReadTask) :=
  match t_parent t with None => Ok None | Some i => p ← get_task r i; Ok (Some p) end.

(** ** Errors *)

Definition __redisReaderSetError (r : redisReader) (w : W) (type : Z) (str : list Z) : outcome (redisReader * W) :=
  '(r, w) ← match callback freeObject with
            | Some f => if negb (r_reply r =? 0) then w ← f (r_reply r) w; Ok (r <| r_reply := 0 |>, w) else Ok (r, w)
            | None => Ok (r, w)
            end;
  let r := match r_buf r with
           | Some _ => r <| r_buf := None |> <| r_pos := 0 |> <| r_len := 0 |>
           | None => r
           end in
  let r := r <| r_ridx := -1 |> in
  let len := zlen str in
  let len := if len <? 127 then len else 127 in
  Ok (r <| r_err := type |> <| r_errstr := take (Z.to_nat len) str |>, w).

(** What [chrtos] prints: the byte between quotes, escaped. *)
Definition chrtos (byte : Z) : list Z := [QUOTE] ++ repr_char byte ++ [QUOTE].

Definition __redisReaderSetErrorProtocolByte (r : redisReader) (w : W) (byte : Z) : outcome (redisReader * W) :=
  let cbuf := take 7 (chrtos byte) in
  let sbuf := take 127 (c_string "Protocol error, got " ++ cbuf ++ c_string " as reply type byte") in
  __redisReaderSetError r w REDIS_ERR_PROTOCOL sbuf.

Definition __redisReaderSetErrorOOM (r : redisReader) (w : W) : outcome (redisReader * W) :=
  __redisReaderSetError r w REDIS_ERR_OOM OOM_ERROR.

(** ** Items *)

(** The end of every item: an object that could not be made is an error, the
    root object is kept. *)
Definition finish_item (r : redisReader) (w : W) (obj : Z) : outcome (redisReader * W * Z) :=
  let r := if r_ridx r =? 0 then r <| r_reply := obj |> else r in
  r ← moveToNextTask r;
  Ok (r, w, REDIS_OK).
Definition out_of_memory (r : redisReader) (w : W) : outcome (redisReader * W * Z) :=
  '(r, w) ← __redisReaderSetErrorOOM r w; Ok (r, w, REDIS_ERR).

Definition create_string (r : redisReader) (w : W) (cur : redisReadTask) (p len default : Z) : outcome (Z * W) :=
  match callback createString with
  | Some f => parent ← parent_of r cur; str ← buf_read r p len; f cur parent str w
  | None => Ok (default, w)
  end.
Definition create_nil (r : redisReader) (w : W) (cur : redisReadTask) : outcome (Z * W) :=
  match callback createNil with
  | Some f => parent ← parent_of r cur; f cur parent w
  | None => Ok (REDIS_REPLY_NIL, w)
  end.

Definition processLineItem (r : redisReader) (w : W) : outcome (redisReader * W * Z) :=
  cur ← get_task r (r_ridx r);
  '(r, line) ← readLine r;
  match line with
  | None => Ok (r, w, REDIS_ERR)
  | Some (p, len) =>
      '(obj, w) ← (if t_type cur =? REDIS_REPLY_INTEGER then
                     match callback createInteger with
                     | Some f => parent ← parent_of r cur; b ← buf_bytes r; v ← readLongLong b p; f cur parent v w
                     | None => Ok (REDIS_REPLY_INTEGER, w)
                     end
                   else create_string r w cur p len (t_type cur));
      if obj =? 0 then out_of_memory r w else finish_item r w obj
  end.

Definition processBulkItem (r : redisReader) (w : W) : outcome (redisReader * W * Z) :=
  cur ← get_task r (r_ridx r);
  let p := r_pos r in
  b ← buf_bytes r;
  s ← seekNewline b p (u64 (r_len r - r_pos r));
  match s with
  | None => Ok (r, w, REDIS_ERR)
  | Some s =>
      let bytelen := u64 (s - r_pos r + 2) in
      len ← readLongLong b p;
      let done_at (bytelen : Z) (r : redisReader) (made : Z * W) : outcome (redisReader * W * Z) :=
        let '(obj, w) := made in
        if obj =? 0 then out_of_memory r w
        else finish_item (r <| r_pos := u64 (r_pos r + bytelen) |>) w obj in
      if len <? 0 then
        made ← create_nil r w cur; done_at bytelen r made
      else
        let bytelen := u64 (bytelen + i64 (len + 2)) in
        if u64 (r_pos r + bytelen) <=? r_len r then
          made ← create_string r w cur (s + 2) len REDIS_REPLY_STRING; done_at bytelen r made
        else Ok (r, w, REDIS_ERR)
  end.

Definition processMultiBulkItem (r : redisReader) (w : W) : outcome (redisReader * W * Z) :=
  cur ← get_task r (r_ridx r);
  if r_ridx r =? 8 then
    '(r, w) ← __redisReaderSetError r w REDIS_ERR_PROTOCOL DEPTH_ERROR;
    Ok (r, w, REDIS_ERR)
  else
    '(r, line) ← readLine r;
    match line with
    | None => Ok (r, w, REDIS_ERR)
    | Some (p, _) =>
        b ← buf_bytes r;
        elements ← readLongLong b p;
        let root := r_ridx r =? 0 in
        let set_root (obj : Z) (r : redisReader) := if root then r <| r_reply := obj |> else r in
        if elements =? -1 then
          '(obj, w) ← create_nil r w cur;
          if obj =? 0 then out_of_memory r w
          else r ← moveToNextTask r; Ok (set_root obj r, w, REDIS_OK)
        else
          '(obj, w) ← match callback createArray with
                      | Some f => parent ← parent_of r cur; f cur parent (i32 elements) w
                      | None => Ok (REDIS_REPLY_ARRAY, w)
                      end;
          if obj =? 0 then out_of_memory r w
          else if elements >? 0 then
            r ← set_task r (r_ridx r) (cur <| t_elements := i32 elements |> <| t_obj := obj |>);
            let parent := r_ridx r in
            let r := r <| r_ridx := parent + 1 |> in
            r ← set_task r (r_ridx r) (mkTask (-1) (-1) 0 0 (Some parent));
            Ok (set_root obj r, w, REDIS_OK)
          else r ← moveToNextTask r; Ok (set_root obj r, w, REDIS_OK)
    end.

Definition reply_type (c : Z) : option Z :=
  if c =? 45 then Some REDIS_REPLY_ERROR
  else if c =? 43 then Some REDIS_REPLY_STATUS
  else if c =? 58 then Some REDIS_REPLY_INTEGER
  else if c =? 36 then Some REDIS_REPLY_STRING
  else if c =? 42 then Some REDIS_REPLY_ARRAY
  else None.

Definition process_typed (r : redisReader) (w : W) : outcome (redisReader * W * Z) :=
  cur ← get_task r (r_ridx r);
  if (t_type cur =? REDIS_REPLY_ERROR) || (t_type cur =? REDIS_REPLY_STATUS) || (t_type cur =? REDIS_REPLY_INTEGER)
  then processLineItem r w
  else if t_type cur =? REDIS_REPLY_STRING then processBulkItem r w
  else if t_type cur =? REDIS_REPLY_ARRAY then processMultiBulkItem r w
  else Crash AssertFailed.

Definition processItem (r : redisReader) (w : W) : outcome (redisReader * W * Z) :=
  cur ← get_task r (r_ridx r);
  if t_type cur <? 0 then
    match readBytes r 1 with
    | (r, Some p) =>
        b ← buf_bytes r;
        c ← elem_at b p;
        match reply_type c with
        | Some type => r ← set_task r (r_ridx r) (cur <| t_type := type |>); process_typed r w
        | None => '(r, w) ← __redisReaderSetErrorProtocolByte r w c; Ok (r, w, REDIS_ERR)
        end
    | (r, None) => Ok (r, w, REDIS_ERR)
    end
  else process_typed r w.

(** ** The public operations *)

Definition redisReaderCreateWithFunctions (junk : Z) : outcome redisReader :=
  buf ← sdsempty junk;
  Ok (mkReader 0 [] (Some buf) 0 0 REDIS_READER_MAX_BUF (replicate 9 (mkTask 0 0 0 0 None)) (-1) 0).

(** What is left to free: the reply. *)
Definition redisReaderFree (r : redisReader) (w : W) : outcome W :=
  match callback freeObject with
  | Some f => if negb (r_reply r =? 0) then f (r_reply r) w else Ok w
  | None => Ok w
  end.

Definition redisReaderFeed (junk : Z) (r : redisReader) (buf : option (list Z)) : outcome (redisReader * Z) :=
  if negb (r_err r =? 0) then Ok (r, REDIS_ERR) else
  match buf with
  | Some bytes =>
      if zlen bytes >=? 1 then
        s ← match r_buf r with Some s => Ok s | None => Crash NullDeref end;
        '(r, s) ← (if (r_len r =? 0) && negb (r_maxbuf r =? 0) && (sdsavail s >? r_maxbuf r)
                   then s ← sdsempty junk; Ok (r <| r_pos := 0 |>, s)
                   else Ok (r, s));
        s ← sdscatlen junk s bytes (zlen bytes);
        Ok (r <| r_buf := Some s |> <| r_len := sdslen s |>, REDIS_OK)
      else Ok (r, REDIS_OK)
  | None => Ok (r, REDIS_OK)
  end.

(** [while (r->ridx >= 0) if (processItem(r) != REDIS_OK) break;] *)
Fixpoint items_loop (fuel : nat) (r : redisReader) (w : W) : outcome (redisReader * W) :=
  if negb (r_ridx r >=? 0) then Ok (r, w) else
  match fuel with
  | O => Crash OutOfFuel
  | S fuel =>
      '(r, w, res) ← processItem r w;
      if negb (res =? REDIS_OK) then Ok (r, w) else items_loop fuel r w
  end.

(** The status and [*reply]; [reply] says whether the caller passes a pointer for
    it. *)
Definition redisReaderGetReply (reply : bool) (r : redisReader) (w : W) : outcome (redisReader * W * Z * Z) :=
  if negb (r_err r =? 0) then Ok (r, w, REDIS_ERR, 0) else
  if r_len r =? 0 then Ok (r, w, REDIS_OK, 0) else
  r ← (if r_ridx r =? -1
       then r ← set_task r 0 (mkTask (-1) (-1) (-1) 0 None); Ok (r <| r_ridx := 0 |>)
       else Ok r);
  '(r, w) ← items_loop (S (Z.to_nat (u64 (r_len r - r_pos r)))) r w;
  if negb (r_err r =? 0) then Ok (r, w, REDIS_ERR, 0) else
  r ← (if r_pos r >=? 1024 then
         s ← match r_buf r with Some s => Ok s | None => Crash NullDeref end;
         s ← sdsrange s (i32 (r_pos r)) (-1);
         Ok (r <| r_buf := Some s |> <| r_pos := 0 |> <| r_len := sdslen s |>)
       else Ok r);
  if r_ridx r =? -1
  then Ok (r <| r_reply := 0 |>, w, REDIS_OK, if reply then r_reply r else 0)
  else Ok (r, w, REDIS_OK, 0).
End reader.
