(* ===== verification/RedisParse.v ===== *)
(** * redisReader: what it parses

    The reader of [RedisReader.v] refines a parser on the list of the bytes not
    yet read ([spec_item]); a chunk boundary is therefore invisible, whatever the
    callbacks are. *)

From S2P Require Import Prelude Inet Sds RedisReader.

(** ** Lines of a list *)

(** The index of the first carriage return that a newline follows. *)
Fixpoint find_crlf (l : list Z) : option Z :=
  match l with
  | [] => None
  | a :: l' =>
      if (a =? 13) && bool_decide (head l' = Some 10) then Some 0
      else (fun n => 1 + n) <$> find_crlf l'
  end.

(** The number a line holds: [readLongLong] on a list. *)
Fixpoint ll_value (l : list Z) (v mult : Z) : Z :=
  match l with
  | [] => -1
  | c :: l =>
      if c =? 13 then i64 (mult * v)
      else if (c - 48 >=? 0) && (c - 48 <? 10) then ll_value l (i64 (i64 (v * 10) + (c - 48))) mult
      else -1
  end.
Definition ll_parse (l : list Z) : Z :=
  match l with
  | [] => -1
  | c :: l' => if c =? 45 then ll_value l' 0 (-1) else if c =? 43 then ll_value l' 0 1 else ll_value l 0 1
  end.

Lemma find_crlf_bound l n : find_crlf l = Some n -> 0 <= n /\ n + 2 <= zlen l.
Proof.
  revert n. induction l as [|a l IH]; intros n; [done|]. cbn [find_crlf]. rewrite zlen_cons.
  destruct ((a =? 13) && bool_decide (head l = Some 10)) eqn:E.
  - intros [= <-]. apply andb_true_iff in E as [_ E%bool_decide_eq_true].
    destruct l; [done|]. rewrite zlen_cons. pose proof (zlen_nonneg l). lia.
  - intros (m & Hm & ->)%fmap_Some. apply IH in Hm. lia.
Qed.

Lemma find_crlf_app l k n : find_crlf l = Some n -> find_crlf (l ++ k) = Some n.
Proof.
  revert n. induction l as [|a l IH]; intros n; [done|]. cbn [find_crlf Datatypes.app].
  destruct ((a =? 13) && bool_decide (head l = Some 10)) eqn:E.
  - intros [= <-]. apply andb_true_iff in E as [-> E%bool_decide_eq_true].
    destruct l as [|b l]; [done|]. cbn in E. injection E as ->. done.
  - intros (m & Hm & ->)%fmap_Some. rewrite (IH m Hm). cbn [fmap option_fmap option_map].
    destruct l as [|b l]; [done|]. cbn [head Datatypes.app] in *. by rewrite E.
Qed.

Lemma find_crlf_no_cr x y : 13 ∉ x -> find_crlf (x ++ y) = (fun n => zlen x + n) <$> find_crlf y.
Proof.
  induction x as [|a x IH]; intros Hx.
  - change (zlen []) with 0. cbn. by destruct (find_crlf y).
  - apply not_elem_of_cons in Hx as [Ha Hx]. cbn [find_crlf Datatypes.app].
    rewrite (proj2 (Z.eqb_neq a 13)) by congruence. cbn [andb]. rewrite IH by done.
    rewrite zlen_cons. destruct (find_crlf y); cbn; [|done]. f_equal. lia.
Qed.

Lemma find_crlf_next a d z : d <> 10 -> find_crlf (a :: d :: z) = (fun n => 1 + n) <$> find_crlf (d :: z).
Proof. intros Hd. cbn [find_crlf head]. rewrite (bool_decide_eq_false_2 (Some d = Some 10)) by congruence. by rewrite andb_false_r. Qed.

(** The line up to the carriage return has one. *)
Lemma find_crlf_elem l n : find_crlf l = Some n -> 13 ∈ l.
Proof.
  revert n. induction l as [|a l IH]; intros n; [done|]. cbn [find_crlf].
  destruct (Z.eqb_spec a 13) as [->|]; [left|]. cbn [andb]. intros (m & Hm & ->)%fmap_Some. right. by eapply IH.
Qed.

Lemma ll_value_app l k : forall v mult, 13 ∈ l -> ll_value (l ++ k) v mult = ll_value l v mult.
Proof.
  induction l as [|c l IH]; intros v mult Hin; [by apply not_elem_of_nil in Hin|]. cbn [ll_value Datatypes.app].
  destruct (Z.eqb_spec c 13); [done|]. destruct (_ && _); [|done]. apply IH.
  apply elem_of_cons in Hin as [?|?]; [congruence|done].
Qed.

Lemma ll_parse_app l k : 13 ∈ l -> ll_parse (l ++ k) = ll_parse l.
Proof.
  destruct l as [|c l]; intros Hin; [by apply not_elem_of_nil in Hin|]. cbn [ll_parse Datatypes.app].
  assert (Hl : c <> 13 -> 13 ∈ l) by (intros; apply elem_of_cons in Hin as [?|?]; [congruence|done]).
  destruct (Z.eqb_spec c 45); [apply ll_value_app, Hl; lia|]. destruct (Z.eqb_spec c 43); [apply ll_value_app, Hl; lia|].
  by apply (ll_value_app (c :: l)).
Qed.

Lemma ll_value_range l : forall v mult, - 2 ^ 63 <= ll_value l v mult < 2 ^ 63.
Proof.
  induction l as [|c l IH]; intros v mult; cbn [ll_value]; [done|]. destruct (c =? 13); [mword|]. by destruct (_ && _).
Qed.
Lemma ll_parse_range l : - 2 ^ 63 <= ll_parse l < 2 ^ 63.
Proof. destruct l as [|c l]; cbn [ll_parse]; [done|]. repeat case_match; apply ll_value_range. Qed.

(** ** The scanners of the buffer *)

Lemma elem_at_app {X} (a b : list X) i : i = zlen a -> elem_at (a ++ b) i = match b with x :: _ => Ok x | [] => Crash OutOfBounds end.
Proof.
  intros ->. unfold elem_at. rewrite (proj2 (Z.ltb_ge _ 0) (zlen_nonneg a)). unfold zlen. rewrite Nat2Z.id.
  rewrite lookup_app_r by lia. rewrite Nat.sub_diag. by destruct b.
Qed.

Lemma skip_to_cr_spec fuel : forall pre x b s bound,
  zlen pre = s + (bound + 1 - zlen x) -> x <> [] -> (length x <= S fuel)%nat ->
  exists y z, x = y ++ z /\ (13 ∉ y) /\ skip_to_cr fuel (pre ++ x ++ b) s (bound + 1 - zlen x) bound = Ok (bound + 1 - zlen z) /\
    (exists c z', z = c :: z' /\ (z' = [] \/ c = 13)).
Proof.
  induction fuel as [|fuel IH]; intros pre x b s bound Hpre Hx Hf.
  - destruct x as [|c [|]]; [done| |cbn in Hf; lia]. exists [], [c]. split; [done|]. split; [apply not_elem_of_nil|].
    cbn [skip_to_cr]. change (zlen [c]) with 1. rewrite (proj2 (Z.ltb_ge _ _)) by lia. split; [done|]. exists c, []. auto.
  - destruct x as [|c x]; [done|]. cbn [skip_to_cr]. rewrite zlen_cons in *. pose proof (zlen_nonneg x).
    destruct (Z.ltb_spec (bound + 1 - (1 + zlen x)) bound) as [Hlt|Hge]; cbn [negb].
    + rewrite (elem_at_app pre ((c :: x) ++ b)) by lia. cbn [Datatypes.app mbind outcome_bind].
      destruct (Z.eqb_spec c 13) as [->|Hc].
      { exists [], (13 :: x). split; [done|]. split; [apply not_elem_of_nil|]. rewrite zlen_cons. split; [done|]. exists 13, x. auto. }
      destruct (IH (pre ++ [c]) x b s bound) as (y & z & -> & Hy & E & Hz).
      * rewrite zlen_app. change (zlen [c]) with 1. lia.
      * intros ->. rewrite zlen_nil in Hlt. lia.
      * cbn in Hf. lia.
      * exists (c :: y), z. split; [done|]. split; [by apply not_elem_of_cons|]. split; [|done].
        rewrite <- app_assoc in E. rewrite <- E. f_equal. lia.
    + assert (x = []) as -> by (apply length_zero_iff_nil; unfold zlen in *; lia).
      exists [], [c]. split; [done|]. split; [apply not_elem_of_nil|]. change (zlen [c]) with 1.
      rewrite zlen_nil. split; [done|]. exists c, []. auto.
Qed.

Lemma seek_loop_spec fuel : forall pre x t b s bound,
  zlen pre = s + (bound + 1 - zlen x) -> (length x <= S fuel)%nat -> t <> 10 ->
  seek_loop fuel (pre ++ x ++ t :: b) s (bound + 1 - zlen x) bound = Ok ((fun n => zlen pre + n) <$> find_crlf x).
Proof.
  induction fuel as [|fuel IH]; intros pre x t b s bound Hpre Hf Ht.
  - cbn [seek_loop]. rewrite (proj2 (Z.ltb_ge _ _)) by (unfold zlen; lia). cbn [negb]. destruct x as [|c [|]]; [done| |cbn in Hf; lia].
    cbn. by rewrite andb_false_r.
  - cbn [seek_loop]. destruct (Z.ltb_spec (bound + 1 - zlen x) bound) as [Hlt|Hge]; cbn [negb].
    2: { destruct x as [|c [|]]; [done|cbn; by rewrite andb_false_r|]. rewrite !zlen_cons in Hge. pose proof (zlen_nonneg l). lia. }
    destruct (skip_to_cr_spec (S fuel) pre x (t :: b) s bound) as (y & z & -> & Hy & -> & c & z' & -> & Hz');
      [done|intros ->; rewrite zlen_nil in Hlt; lia|lia|].
    cbn [mbind outcome_bind]. rewrite zlen_app in Hpre. rewrite find_crlf_no_cr by done.
    rewrite !zlen_cons in *. rewrite <- !app_assoc.
    assert (Hc : elem_at (pre ++ y ++ (c :: z') ++ t :: b) (s + (bound + 1 - (1 + zlen z'))) = Ok c).
    { rewrite app_assoc. rewrite (elem_at_app (pre ++ y)); [done|]. rewrite zlen_app. lia. }
    rewrite Hc. cbn [mbind outcome_bind]. destruct (Z.eqb_spec c 13) as [->|Hne]; cbn [negb].
    2: { destruct Hz' as [->|?]; [|done]. cbn. by rewrite andb_false_r. }
    assert (Hn : elem_at (pre ++ y ++ (13 :: z') ++ t :: b) (s + (bound + 1 - (1 + zlen z') + 1))
      = match z' ++ t :: b with x :: _ => Ok x | [] => Crash OutOfBounds end).
    { change ((13 :: z') ++ t :: b) with ([13] ++ z' ++ t :: b). rewrite !app_assoc, <- (app_assoc ((pre ++ y) ++ [13])).
      apply elem_at_app. rewrite !zlen_app. change (zlen [13]) with 1. lia. }
    rewrite Hn. destruct z' as [|d z']; cbn [Datatypes.app mbind outcome_bind].
    + rewrite (proj2 (Z.eqb_neq t 10)) by done. replace (bound + 1 - (1 + zlen []) + 1) with (bound + 1 - zlen (@nil Z)) by lia.
      specialize (IH (pre ++ y ++ [13]) [] t b s bound). rewrite <- !app_assoc in IH. cbn [Datatypes.app] in IH.
      rewrite IH; [done| |cbn; lia|done]. rewrite !zlen_app. change (zlen [13]) with 1. rewrite zlen_nil in *. lia.
    + destruct (Z.eqb_spec d 10) as [->|Hd].
      * change (find_crlf (13 :: 10 :: z')) with (Some 0). cbn [fmap option_fmap option_map]. f_equal. f_equal. lia.
      * replace (bound + 1 - (1 + zlen (d :: z')) + 1) with (bound + 1 - zlen (d :: z')) by lia.
        specialize (IH (pre ++ y ++ [13]) (d :: z') t b s bound). rewrite <- !app_assoc in IH. cbn [Datatypes.app] in IH.
        rewrite IH.
        -- rewrite (find_crlf_next 13 d z' Hd). destruct (find_crlf (d :: z')); cbn [fmap option_fmap option_map]; [|done].
           do 2 f_equal. rewrite !zlen_app. change (zlen [13]) with 1. lia.
        -- rewrite !zlen_app. change (zlen [13]) with 1. rewrite !zlen_cons in *. lia.
        -- rewrite length_app in Hf. cbn in *. lia.
        -- done.
Qed.

Lemma seekNewline_spec pre x t b :
  zlen x < 2 ^ 31 -> t <> 10 ->
  seekNewline (pre ++ x ++ t :: b) (zlen pre) (zlen x) = Ok ((fun n => zlen pre + n) <$> find_crlf x).
Proof.
  intros Hx Ht. unfold seekNewline. pose proof (zlen_nonneg x). assert (i32 (u64 (zlen x - 1)) = zlen x - 1) as -> by mword.
  pose proof (seek_loop_spec (Z.to_nat (zlen x - 1)) pre x t b (zlen pre) (zlen x - 1)) as Hs.
  replace (zlen x - 1 + 1 - zlen x) with 0 in Hs by lia. apply Hs; [lia| |done]. unfold zlen. lia.
Qed.

Lemma ll_loop_spec fuel : forall pre l b s v mult,
  s = zlen pre -> 13 ∈ l -> (length l <= fuel)%nat -> ll_loop fuel (pre ++ l ++ b) s v mult = Ok (ll_value l v mult).
Proof.
  induction fuel as [|fuel IH]; intros pre l b s v mult -> Hin Hf; (destruct l as [|c l]; [by apply not_elem_of_nil in Hin|]).
  { cbn in Hf. lia. }
  cbn [ll_loop ll_value]. rewrite (elem_at_app pre) by done. cbn [Datatypes.app mbind outcome_bind].
  destruct (Z.eqb_spec c 13); [done|]. destruct (_ && _); [|done].
  specialize (IH (pre ++ [c]) l b (zlen pre + 1)). rewrite <- app_assoc in IH. apply IH.
  - by rewrite zlen_app.
  - apply elem_of_cons in Hin as [?|?]; [congruence|done].
  - cbn in Hf. lia.
Qed.

Lemma readLongLong_spec pre l b : 13 ∈ l -> readLongLong (pre ++ l ++ b) (zlen pre) = Ok (ll_parse l).
Proof.
  intros Hin. unfold readLongLong. destruct l as [|c l]; [by apply not_elem_of_nil in Hin|].
  rewrite (elem_at_app pre) by done. cbn [Datatypes.app mbind outcome_bind ll_parse].
  assert (Hf : (length l < length (pre ++ c :: l ++ b))%nat) by (rewrite length_app; cbn; rewrite length_app; lia).
  assert (Hl : c <> 13 -> 13 ∈ l) by (intros; apply elem_of_cons in Hin as [?|?]; [congruence|done]).
  assert (Htail : forall mult, c <> 13 -> ll_loop (S (length (pre ++ c :: l ++ b))) (pre ++ c :: l ++ b) (zlen pre + 1) 0 mult = Ok (ll_value l 0 mult)).
  { intros mult Hc. pose proof (ll_loop_spec (S (length (pre ++ c :: l ++ b))) (pre ++ [c]) l b (zlen pre + 1) 0 mult) as E.
    rewrite <- app_assoc in E. apply E; [by rewrite zlen_app|by apply Hl|lia]. }
  destruct (Z.eqb_spec c 45); [apply Htail; lia|]. destruct (Z.eqb_spec c 43); [apply Htail; lia|].
  apply (ll_loop_spec _ pre (c :: l) b); [done|done|cbn; lia].
Qed.

(** ** The parser on a list

    The reader without its buffer. *)
Definition core (r : redisReader) : redisReader := r <| r_buf := None |> <| r_pos := 0 |> <| r_len := 0 |>.

(** What one item does: it is complete and [rest] is left, more bytes are needed,
    or the reader is in an erroneous state. *)
Inductive verdict (W : Type) :=
| Complete (k : redisReader) (w : W) (rest : list Z)
| More (k : redisReader) (w : W) (rest : list Z)
| Wrong (k : redisReader) (w : W).
Arguments Complete {W} _ _ _.
Arguments More {W} _ _ _.
Arguments Wrong {W} _ _.

Section spec.
Context {W : Type} (fn : option (redisReplyObjectFunctions W)).

Definition spec_oom (k : redisReader) (w : W) : outcome (verdict W) :=
  '(k, w, _) ← out_of_memory fn k w; Ok (Wrong k w).
Definition spec_finish (k : redisReader) (w : W) (obj : Z) (rest : list Z) : outcome (verdict W) :=
  '(k, w, _) ← finish_item k w obj; Ok (Complete k w rest).
Definition spec_made (k : redisReader) (made : Z * W) (rest : list Z) : outcome (verdict W) :=
  if made.1 =? 0 then spec_oom k made.2 else spec_finish k made.2 made.1 rest.

Definition spec_string (k : redisReader) (w : W) (cur : redisReadTask) (str : list Z) (default : Z) : outcome (Z * W) :=
  match callback fn createString with
  | Some f => parent ← parent_of k cur; f cur parent str w
  | None => Ok (default, w)
  end.

Definition spec_line (k : redisReader) (w : W) (cur : redisReadTask) (i : list Z) : outcome (verdict W) :=
  match find_crlf i with
  | None => Ok (More k w i)
  | Some n =>
      made ← (if t_type cur =? REDIS_REPLY_INTEGER then
                match callback fn createInteger with
                | Some f => parent ← parent_of k cur; f cur parent (ll_parse i) w
                | None => Ok (REDIS_REPLY_INTEGER, w)
                end
              else spec_string k w cur (take (Z.to_nat n) i) (t_type cur));
      spec_made k made (drop (Z.to_nat (n + 2)) i)
  end.

Definition spec_bulk (k : redisReader) (w : W) (cur : redisReadTask) (i : list Z) : outcome (verdict W) :=
  match find_crlf i with
  | None => Ok (More k w i)
  | Some n =>
      let len := ll_parse i in
      if len <? 0 then made ← create_nil fn k w cur; spec_made k made (drop (Z.to_nat (n + 2)) i)
      else if n + 2 + len + 2 <=? zlen i then
        made ← spec_string k w cur (take (Z.to_nat len) (drop (Z.to_nat (n + 2)) i)) REDIS_REPLY_STRING;
        spec_made k made (drop (Z.to_nat (n + 2 + len + 2)) i)
      else Ok (More k w i)
  end.

Definition set_root (root : bool) (obj : Z) (k : redisReader) : redisReader :=
  if root then k <| r_reply := obj |> else k.

(** An array of [elements] was made: go down to its first element, or on when it
    has none. *)
Definition enter_array (k : redisReader) (cur : redisReadTask) (obj elements : Z) : outcome redisReader :=
  if elements >? 0 then
    k ← set_task k (r_ridx k) (cur <| t_elements := i32 elements |> <| t_obj := obj |>);
    let parent := r_ridx k in
    let k := k <| r_ridx := parent + 1 |> in
    set_task k (r_ridx k) (mkTask (-1) (-1) 0 0 (Some parent))
  else moveToNextTask k.

Definition spec_multi (k : redisReader) (w : W) (cur : redisReadTask) (i : list Z) : outcome (verdict W) :=
  if r_ridx k =? 8 then
    '(k, w) ← __redisReaderSetError fn k w REDIS_ERR_PROTOCOL DEPTH_ERROR;
    Ok (Wrong k w)
  else
    match find_crlf i with
    | None => Ok (More k w i)
    | Some n =>
        let rest := drop (Z.to_nat (n + 2)) i in
        let root := r_ridx k =? 0 in
        if ll_parse i =? -1 then
          '(obj, w) ← create_nil fn k w cur;
          if obj =? 0 then spec_oom k w
          else k ← moveToNextTask k; Ok (Complete (set_root root obj k) w rest)
        else
          '(obj, w) ← match callback fn createArray with
                      | Some f => parent ← parent_of k cur; f cur parent (i32 (ll_parse i)) w
                      | None => Ok (REDIS_REPLY_ARRAY, w)
                      end;
          if obj =? 0 then spec_oom k w
          else k ← enter_array k cur obj (ll_parse i); Ok (Complete (set_root root obj k) w rest)
    end.

Definition spec_typed (k : redisReader) (w : W) (i : list Z) : outcome (verdict W) :=
  cur ← get_task k (r_ridx k);
  if (t_type cur =? REDIS_REPLY_ERROR) || (t_type cur =? REDIS_REPLY_STATUS) || (t_type cur =? REDIS_REPLY_INTEGER)
  then spec_line k w cur i
  else if t_type cur =? REDIS_REPLY_STRING then spec_bulk k w cur i
  else if t_type cur =? REDIS_REPLY_ARRAY then spec_multi k w cur i
  else Crash AssertFailed.

Definition spec_item (k : redisReader) (w : W) (i : list Z) : outcome (verdict W) :=
  cur ← get_task k (r_ridx k);
  if t_type cur <? 0 then
    match i with
    | [] => Ok (More k w [])
    | c :: i =>
        match reply_type c with
        | Some type => k ← set_task k (r_ridx k) (cur <| t_type := type |>); spec_typed k w i
        | None => '(k, w) ← __redisReaderSetErrorProtocolByte fn k w c; Ok (Wrong k w)
        end
    end
  else spec_typed k w i.

(** Items until the reply is complete. *)
Fixpoint spec_items (fuel : nat) (k : redisReader) (w : W) (i : list Z) : outcome (verdict W) :=
  if negb (r_ridx k >=? 0) then Ok (Complete k w i) else
  match fuel with
  | O => Crash OutOfFuel
  | S fuel =>
      v ← spec_item k w i;
      match v with
      | Complete k w i => spec_items fuel k w i
      | _ => Ok v
      end
  end.

(** ** The reader refines the parser *)

(** The reader holds the bytes [i] and no error. *)
Definition ready (r : redisReader) (i : list Z) : Prop :=
  exists s c, r_buf r = Some s /\ sds_holds s c /\ r_len r = zlen c /\ 0 <= r_pos r <= zlen c /\
    drop (Z.to_nat (r_pos r)) c = i /\ zlen c < 2 ^ 30 /\ r_err r = 0.

(** The reader is in an erroneous state. *)
Definition failed (r : redisReader) : Prop := r_err r <> 0 /\ r_buf r = None.

(** The result of an operation of the reader is the verdict of the parser. *)
Definition agrees (o : outcome (redisReader * W * Z)) (v : outcome (verdict W)) : Prop :=
  match v with
  | Crash e => o = Crash e
  | Ok (Complete k w i) => exists r, o = Ok (r, w, REDIS_OK) /\ core r = k /\ ready r i
  | Ok (More k w i) => exists r, o = Ok (r, w, REDIS_ERR) /\ core r = k /\ ready r i
  | Ok (Wrong k w) => exists r, o = Ok (r, w, REDIS_ERR) /\ core r = k /\ failed r
  end.

(** Operations on the stack do not see the buffer. *)
Definition lift (f : redisReader -> outcome redisReader) : Prop :=
  forall r, match f (core r) with
    | Crash e => f r = Crash e
    | Ok k => exists r', f r = Ok r' /\ core r' = k /\ r_buf r' = r_buf r /\ r_pos r' = r_pos r /\ r_len r' = r_len r /\ r_err r' = r_err r
    end.

Lemma set_task_lift t : lift (fun r => set_task r (r_ridx r) t).
Proof.
  intros []. unfold set_task. cbn. destruct (elem_set _ _ _); cbn; [|done]. eexists. split_and!; done.
Qed.

Lemma next_task_lift fuel : lift (next_task_loop fuel).
Proof.
  induction fuel as [|fuel IH]; intros r; cbn [next_task_loop]; change (r_ridx (core r)) with (r_ridx r).
  { destruct (r_ridx r >=? 0); cbn; [done|]. exists r. done. }
  destruct (r_ridx r >=? 0); cbn [negb]; [|by exists r].
  destruct (r_ridx r =? 0). { eexists. split_and!; done. }
  change (get_task (core r)) with (get_task r).
  destruct (get_task r (r_ridx r)) as [cur|]; cbn [mbind outcome_bind]; [|done].
  destruct (get_task r (r_ridx r - 1)) as [prv|]; cbn [mbind outcome_bind]; [|done].
  destruct (c_assert (t_type prv =? REDIS_REPLY_ARRAY)); cbn [mbind outcome_bind]; [|done].
  destruct (t_idx cur =? i32 (t_elements prv - 1)).
  - specialize (IH (r <| r_ridx := r_ridx r - 1 |>)). exact IH.
  - destruct (c_assert (t_idx cur <? t_elements prv)); cbn [mbind outcome_bind]; [|done]. apply (set_task_lift _ r).
Qed.

Lemma moveToNextTask_lift : lift moveToNextTask.
Proof. intros r. apply (next_task_lift _ r). Qed.

(** ** The buffer of a ready reader *)

Lemma ready_bytes r i : ready r i ->
  exists pre rest, buf_bytes r = Ok (pre ++ i ++ 0 :: rest) /\ zlen pre = r_pos r /\ r_len r = zlen pre + zlen i /\
    zlen pre + zlen i < 2 ^ 30.
Proof.
  intros (s & c & Hb & (rest & -> & Hr) & Hl & Hp & Hd & Hc & He). unfold buf_bytes. rewrite Hb.
  exists (take (Z.to_nat (r_pos r)) c), rest. cbn [sh_buf]. rewrite app_assoc, <- Hd, take_drop. split; [done|].
  rewrite zlen_take, zlen_drop by lia. split; [done|]. lia.
Qed.

Lemma ready_same r r' i :
  r_buf r' = r_buf r -> r_pos r' = r_pos r -> r_len r' = r_len r -> r_err r' = r_err r -> ready r i -> ready r' i.
Proof.
  intros E1 E2 E3 E4 (s & c & H). exists s, c. by rewrite E1, E2, E3, E4.
Qed.

Lemma ready_advance r i n : ready r i -> 0 <= n <= zlen i ->
  u64 (r_pos r + n) = r_pos r + n /\ ready (r <| r_pos := u64 (r_pos r + n) |>) (drop (Z.to_nat n) i).
Proof.
  intros (s & c & Hb & Hs & Hl & Hp & <- & Hc & He) Hn. rewrite zlen_drop in Hn by lia.
  assert (Hu : u64 (r_pos r + n) = r_pos r + n) by mword. split; [done|]. exists s, c. cbn. rewrite Hu.
  split_and!; [done..|lia|lia| |done|done]. rewrite drop_drop. f_equal. lia.
Qed.

Lemma buf_read_ready r i n : ready r i -> 0 <= n <= zlen i -> forall r', r_buf r' = r_buf r ->
  buf_read r' (r_pos r) n = Ok (take (Z.to_nat n) i).
Proof.
  intros Hr Hn r' E. destruct (ready_bytes r i Hr) as (pre & rest & Eb & Hp & _). unfold buf_read, buf_bytes in *. rewrite E.
  destruct (r_buf r) as [s|]; [|done]. injection Eb as ->. cbn [mbind outcome_bind].
  rewrite <- (take_drop (Z.to_nat n) i) at 1. rewrite <- app_assoc. apply read_at_mid; [done|]. symmetry. by apply zlen_take.
Qed.

(** The two scanners, from the cursor. *)
Lemma scan_ready r i : ready r i ->
  exists b, buf_bytes r = Ok b /\
    seekNewline b (r_pos r) (u64 (r_len r - r_pos r)) = Ok ((fun n => r_pos r + n) <$> find_crlf i) /\
    (13 ∈ i -> readLongLong b (r_pos r) = Ok (ll_parse i)) /\
    (forall c i', i = c :: i' -> elem_at b (r_pos r) = Ok c).
Proof.
  intros Hr. destruct (ready_bytes r i Hr) as (pre & rest & -> & Hp & Hl & Hb). eexists. split; [done|]. rewrite Hl, <- Hp.
  pose proof (zlen_nonneg pre). pose proof (zlen_nonneg i).
  assert (u64 (zlen pre + zlen i - zlen pre) = zlen i) as -> by mword. split_and!.
  - apply seekNewline_spec; lia.
  - intros. by apply readLongLong_spec.
  - intros c i' ->. by rewrite (elem_at_app pre).
Qed.

Lemma readLine_ready r i : ready r i ->
  readLine r = Ok (match find_crlf i with
                   | None => (r, None)
                   | Some n => (r <| r_pos := u64 (r_pos r + (n + 2)) |>, Some (r_pos r, n))
                   end).
Proof.
  intros Hr. unfold readLine. destruct (scan_ready r i Hr) as (b & -> & Hs & _). cbn [mbind outcome_bind]. rewrite Hs.
  destruct (ready_bytes r i Hr) as (pre & rest & _ & Hp & _ & Hb). pose proof (zlen_nonneg pre).
  destruct (find_crlf i) as [n|] eqn:E; cbn [fmap option_fmap option_map mbind outcome_bind]; [|done].
  apply find_crlf_bound in E. replace (r_pos r + n - r_pos r) with n by lia.
  assert (i32 n = n) as -> by mword. done.
Qed.

(** ** Each item agrees *)

Lemma set_error_agrees r w type str :
  match __redisReaderSetError fn (core r) w type str with
  | Crash e => __redisReaderSetError fn r w type str = Crash e
  | Ok (k, w') => exists r', __redisReaderSetError fn r w type str = Ok (r', w') /\ core r' = k /\ r_err r' = type /\ r_buf r' = None
  end.
Proof.
  unfold __redisReaderSetError. change (r_reply (core r)) with (r_reply r).
  assert (Hend : forall r', core (match r_buf r' with Some _ => r' <| r_buf := None |> <| r_pos := 0 |> <| r_len := 0 |> | None => r' end) = core r').
  { intros r'. by destruct (r_buf r'). }
  destruct (callback fn freeObject) as [f|]; [destruct (negb (r_reply r =? 0)); [destruct (f (r_reply r) w)|]|];
    cbn [mbind outcome_bind]; try done; (eexists; split; [reflexivity|]);
    destruct r as [? ? [b|]]; done.
Qed.

Lemma error_agrees r w type str : type <> 0 ->
  agrees ('(r, w) ← __redisReaderSetError fn r w type str; Ok (r, w, REDIS_ERR))
    ('(k, w) ← __redisReaderSetError fn (core r) w type str; Ok (Wrong k w)).
Proof.
  intros Ht. pose proof (set_error_agrees r w type str) as H. destruct (__redisReaderSetError fn (core r) w type str) as [[k w']|e].
  - destruct H as (r' & -> & Hk & He & Hb). exists r'. cbn. unfold failed. rewrite He. done.
  - by rewrite H.
Qed.

Lemma oom_agrees r w : agrees (out_of_memory fn r w) (spec_oom (core r) w).
Proof.
  unfold spec_oom, out_of_memory, __redisReaderSetErrorOOM. pose proof (error_agrees r w REDIS_ERR_OOM OOM_ERROR) as H.
  destruct (__redisReaderSetError fn (core r) w _ _) as [[]|]; by apply H.
Qed.

Lemma finish_agrees r w obj i : ready r i -> agrees (finish_item r w obj) (spec_finish (core r) w obj i).
Proof.
  intros Hr. unfold spec_finish, finish_item. cbv zeta. change (r_ridx (core r)) with (r_ridx r).
  set (r1 := if r_ridx r =? 0 then r <| r_reply := obj |> else r).
  assert (E : (if r_ridx r =? 0 then (core r) <| r_reply := obj |> else core r) = core r1) by (subst r1; by destruct (r_ridx r =? 0)).
  rewrite E. pose proof (moveToNextTask_lift r1) as H. destruct (moveToNextTask (core r1)) as [k|e]; cbn [mbind outcome_bind].
  - destruct H as (r' & -> & Hk & H1 & H2 & H3 & H4). exists r'. split_and!; [done|done|].
    apply (ready_same r1); [done..|]. subst r1. by destruct (r_ridx r =? 0).
  - by rewrite H.
Qed.

Lemma made_agrees r w obj i r' : ready r i -> core r' = core r ->
  agrees (if obj =? 0 then out_of_memory fn r' w else finish_item r w obj) (spec_made (core r) (obj, w) i).
Proof.
  intros Hr E. unfold spec_made. cbn [fst snd]. destruct (obj =? 0); [|by apply finish_agrees]. rewrite <- E. apply oom_agrees.
Qed.

Lemma create_string_agrees r i w cur p len default : ready r i -> p = r_pos r -> 0 <= len <= zlen i -> forall r',
  r_buf r' = r_buf r -> r_rstack r' = r_rstack r ->
  create_string fn r' w cur p len default = spec_string (core r) w cur (take (Z.to_nat len) i) default.
Proof.
  intros Hr -> Hn r' Eb Es. unfold create_string, spec_string. destruct (callback fn createString) as [f|]; [|done].
  assert (parent_of r' cur = parent_of (core r) cur) as ->.
  { unfold parent_of, get_task. rewrite Es. done. }
  destruct (parent_of (core r) cur); cbn [mbind outcome_bind]; [|done]. by rewrite (buf_read_ready r i len Hr Hn r' Eb).
Qed.

Lemma line_agrees r w i cur :
  ready r i -> get_task r (r_ridx r) = Ok cur -> agrees (processLineItem fn r w) (spec_line (core r) w cur i).
Proof.
  intros Hr Hcur. unfold processLineItem, spec_line. rewrite Hcur. cbn [mbind outcome_bind]. rewrite (readLine_ready r i Hr).
  destruct (find_crlf i) as [n|] eqn:E; cbn [mbind outcome_bind]; [|by exists r].
  pose proof (find_crlf_bound i n E) as Hn. destruct (ready_advance r i (n + 2) Hr) as [Hu Hr']; [lia|].
  set (r1 := r <| r_pos := u64 (r_pos r + (n + 2)) |>) in *.
  destruct (scan_ready r i Hr) as (b & Hb & _ & Hll & _).
  rewrite (create_string_agrees r i w cur (r_pos r) n (t_type cur) Hr) by (done || lia).
  assert (Hint : match callback fn createInteger with
     | Some f => parent ← parent_of r1 cur; b ← buf_bytes r1; v ← readLongLong b (r_pos r); f cur parent v w
     | None => Ok (REDIS_REPLY_INTEGER, w) end
   = match callback fn createInteger with
     | Some f => parent ← parent_of (core r) cur; f cur parent (ll_parse i) w
     | None => Ok (REDIS_REPLY_INTEGER, w) end).
  { destruct (callback fn createInteger) as [f|]; [|done]. change (parent_of r1 cur) with (parent_of (core r) cur).
    destruct (parent_of (core r) cur); cbn [mbind outcome_bind]; [|done]. change (buf_bytes r1) with (buf_bytes r).
    rewrite Hb. cbn [mbind outcome_bind]. rewrite Hll; [done|]. by eapply find_crlf_elem. }
  rewrite Hint. destruct (if t_type cur =? REDIS_REPLY_INTEGER then _ else _) as [[obj w']|e]; cbn [mbind outcome_bind]; [|done].
  change (core r) with (core r1). by apply made_agrees.
Qed.

Lemma bulk_agrees r w i cur :
  ready r i -> get_task r (r_ridx r) = Ok cur ->
  agrees (processBulkItem fn r w) (spec_bulk (core r) w cur i).
Proof.
  intros Hr Hcur. pose proof (ll_parse_range i) as Hll63. unfold processBulkItem, spec_bulk. rewrite Hcur. cbn [mbind outcome_bind].
  destruct (scan_ready r i Hr) as (b & -> & Hseek & Hll & _). cbn [mbind outcome_bind]. rewrite Hseek.
  destruct (find_crlf i) as [n|] eqn:E; cbn [fmap option_fmap option_map mbind outcome_bind]; [|by exists r].
  pose proof (find_crlf_bound i n E) as Hn. apply find_crlf_elem in E as Hin. rewrite (Hll Hin). cbn [mbind outcome_bind].
  destruct (ready_bytes r i Hr) as (pre & rest & _ & Hp & Hl & Hb). pose proof (zlen_nonneg pre).
  assert (u64 (r_pos r + n - r_pos r + 2) = n + 2) as -> by mword. cbv zeta.
  destruct (Z.ltb_spec (ll_parse i) 0) as [Hneg|Hpos].
  - change (create_nil fn r w cur) with (create_nil fn (core r) w cur).
    destruct (create_nil fn (core r) w cur) as [[obj w']|e]; cbn [mbind outcome_bind]; [|done].
    destruct (ready_advance r i (n + 2) Hr) as [Hu Hr']; [lia|]. change (core r) with (core (r <| r_pos := u64 (r_pos r + (n + 2)) |>)).
    by apply made_agrees.
  - assert (Hcond : (u64 (r_pos r + u64 (n + 2 + i64 (ll_parse i + 2))) <=? r_len r) = (n + 2 + ll_parse i + 2 <=? zlen i)).
    { assert (u64 (r_pos r + u64 (n + 2 + i64 (ll_parse i + 2))) = r_pos r + (n + 2 + (ll_parse i + 2))) as -> by mword.
      rewrite Hl, <- Hp. destruct (Z.leb_spec (n + 2 + ll_parse i + 2) (zlen i)); [apply Z.leb_le|apply Z.leb_gt]; lia. }
    rewrite Hcond. destruct (Z.leb_spec (n + 2 + ll_parse i + 2) (zlen i)) as [Hle|]; [|by exists r].
    assert (u64 (n + 2 + i64 (ll_parse i + 2)) = n + 2 + ll_parse i + 2) as -> by mword.
    destruct (ready_advance r i (n + 2) Hr) as [Hu Hr1]; [lia|].
    rewrite (create_string_agrees (r <| r_pos := u64 (r_pos r + (n + 2)) |>) _ w cur (r_pos r + n + 2) (ll_parse i) REDIS_REPLY_STRING Hr1);
      [|cbn [r_pos]; cbn; lia|rewrite zlen_drop; lia|done|done].
    change (core (r <| r_pos := u64 (r_pos r + (n + 2)) |>)) with (core r).
    destruct (spec_string (core r) w cur _ _) as [[obj w']|e]; cbn [mbind outcome_bind]; [|done].
    destruct (ready_advance r i (n + 2 + ll_parse i + 2) Hr) as [Hu2 Hr2]; [lia|].
    change (core r) with (core (r <| r_pos := u64 (r_pos r + (n + 2 + ll_parse i + 2)) |>)). by apply made_agrees.
Qed.

(** The end of an array header: the stack changes, then the root is kept. *)
Lemma root_agrees f root obj r w i : lift f -> ready r i ->
  agrees (r ← f r; Ok ((if root : bool then r <| r_reply := obj |> else r), w, REDIS_OK))
    (k ← f (core r); Ok (Complete (set_root root obj k) w i)).
Proof.
  intros Hf Hr. specialize (Hf r). destruct (f (core r)) as [k|e]; cbn [mbind outcome_bind].
  - destruct Hf as (r' & -> & <- & H1 & H2 & H3 & H4). eexists. split; [done|].
    destruct root; (split; [done|]); by apply (ready_same r).
  - by rewrite Hf.
Qed.

Lemma enter_array_lift cur obj elements : lift (fun r => enter_array r cur obj elements).
Proof.
  intros r. unfold enter_array. destruct (elements >? 0); [|apply moveToNextTask_lift].
  pose proof (set_task_lift (cur <| t_elements := i32 elements |> <| t_obj := obj |>) r) as H. cbv beta in H.
  change (r_ridx (core r)) with (r_ridx r) in *.
  destruct (set_task (core r) (r_ridx r) _) as [k|e]; cbn [mbind outcome_bind]; [|by rewrite H].
  destruct H as (r' & -> & <- & H1 & H2 & H3 & H4). cbn [mbind outcome_bind].
  pose proof (set_task_lift (mkTask (-1) (-1) 0 0 (Some (r_ridx r'))) (r' <| r_ridx := r_ridx r' + 1 |>)) as H.
  cbv beta in H. rewrite <- H1, <- H2, <- H3, <- H4. exact H.
Qed.

Lemma multi_agrees r w i cur :
  ready r i -> get_task r (r_ridx r) = Ok cur -> agrees (processMultiBulkItem fn r w) (spec_multi (core r) w cur i).
Proof.
  intros Hr Hcur. unfold processMultiBulkItem, spec_multi. rewrite Hcur. cbn [mbind outcome_bind].
  change (r_ridx (core r)) with (r_ridx r). destruct (r_ridx r =? 8); [by apply error_agrees|].
  rewrite (readLine_ready r i Hr).
  destruct (find_crlf i) as [n|] eqn:E; cbn [mbind outcome_bind]; [|by exists r].
  pose proof (find_crlf_bound i n E) as Hn. apply find_crlf_elem in E as Hin.
  destruct (ready_advance r i (n + 2) Hr) as [Hu Hr']; [lia|].
  destruct (scan_ready r i Hr) as (b & Hb & _ & Hll & _). specialize (Hll Hin).
  set (r1 := r <| r_pos := u64 (r_pos r + (n + 2)) |>) in *. change (buf_bytes r1) with (buf_bytes r). rewrite Hb.
  cbn [mbind outcome_bind]. rewrite Hll. cbn [mbind outcome_bind]. cbv zeta. change (r_ridx r1) with (r_ridx r).
  change (create_nil fn r1 w cur) with (create_nil fn (core r) w cur). change (parent_of r1 cur) with (parent_of (core r) cur).
  change (core r) with (core r1). destruct (ll_parse i =? -1).
  - destruct (create_nil fn (core r1) w cur) as [[obj w']|e]; cbn [mbind outcome_bind]; [|done].
    destruct (obj =? 0); [apply oom_agrees|]. apply (root_agrees moveToNextTask _ _ r1 w' _ moveToNextTask_lift Hr').
  - destruct (match callback fn createArray with Some f => _ | None => _ end) as [[obj w']|e]; cbn [mbind outcome_bind]; [|done].
    destruct (obj =? 0); [apply oom_agrees|].
    pose proof (root_agrees (fun r => enter_array r cur obj (ll_parse i)) (r_ridx r =? 0) obj r1 w' _ (enter_array_lift _ _ _) Hr') as H.
    cbv beta in H. revert H. generalize (enter_array (core r1) cur obj (ll_parse i)). intros v H.
    assert (Heq : (if ll_parse i >? 0
       then r2 ← set_task r1 (r_ridx r) (cur <| t_elements := i32 (ll_parse i) |> <| t_obj := obj |>);
            r3 ← set_task (r2 <| r_ridx := r_ridx r2 + 1 |>) (r_ridx r2 + 1) (mkTask (-1) (-1) 0 0 (Some (r_ridx r2)));
            Ok ((if r_ridx r =? 0 then r3 <| r_reply := obj |> else r3), w', REDIS_OK)
       else r2 ← moveToNextTask r1; Ok ((if r_ridx r =? 0 then r2 <| r_reply := obj |> else r2), w', REDIS_OK))
     = (r2 ← enter_array r1 cur obj (ll_parse i); Ok ((if r_ridx r =? 0 then r2 <| r_reply := obj |> else r2), w', REDIS_OK))).
    { unfold enter_array. change (r_ridx r1) with (r_ridx r). destruct (ll_parse i >? 0); [|done].
      by destruct (set_task r1 (r_ridx r) _). }
    change (r_ridx r1) with (r_ridx r) in H. rewrite <- Heq in H. exact H.
Qed.

Lemma typed_agrees r w i : ready r i -> agrees (process_typed fn r w) (spec_typed (core r) w i).
Proof.
  intros Hr. unfold process_typed, spec_typed. change (get_task (core r)) with (get_task r). change (r_ridx (core r)) with (r_ridx r).
  destruct (get_task r (r_ridx r)) as [cur|e] eqn:Hcur; cbn [mbind outcome_bind]; [|done].
  destruct ((t_type cur =? REDIS_REPLY_ERROR) || (t_type cur =? REDIS_REPLY_STATUS) || (t_type cur =? REDIS_REPLY_INTEGER)); [by apply line_agrees|].
  destruct (t_type cur =? REDIS_REPLY_STRING); [by apply bulk_agrees|].
  destruct (t_type cur =? REDIS_REPLY_ARRAY); [by apply multi_agrees|done].
Qed.

Lemma item_agrees r w i : ready r i -> agrees (processItem fn r w) (spec_item (core r) w i).
Proof.
  intros Hr. unfold processItem, spec_item. change (get_task (core r)) with (get_task r). change (r_ridx (core r)) with (r_ridx r).
  destruct (get_task r (r_ridx r)) as [cur|e]; cbn [mbind outcome_bind]; [|done].
  destruct (t_type cur <? 0); [|by apply typed_agrees].
  destruct (ready_bytes r i Hr) as (pre & rest & _ & Hp & Hl & Hb). pose proof (zlen_nonneg pre). pose proof (zlen_nonneg i).
  unfold readBytes. assert (u64 (r_len r - r_pos r) = zlen i) as -> by mword.
  destruct i as [|c i]; [by exists r|]. rewrite zlen_cons in *. pose proof (zlen_nonneg i).
  rewrite (proj2 (Z.geb_le (1 + zlen i) 1)) by lia. cbn [mbind outcome_bind].
  destruct (scan_ready r (c :: i) Hr) as (b & Eb & _ & _ & Hc).
  destruct (ready_advance r (c :: i) 1 Hr) as [Hu Hr1]; [rewrite zlen_cons; lia|]. set (r1 := r <| r_pos := u64 (r_pos r + 1) |>) in *.
  change (buf_bytes r1) with (buf_bytes r). rewrite Eb. cbn [mbind outcome_bind]. rewrite (Hc c i eq_refl). cbn [mbind outcome_bind].
  change (drop (Z.to_nat 1) (c :: i)) with i in Hr1. destruct (reply_type c) as [type|].
  - pose proof (set_task_lift (cur <| t_type := type |>) r1) as Hlift. cbv beta in Hlift. change (r_ridx (core r1)) with (r_ridx r) in Hlift.
    change (core r) with (core r1). change (r_ridx r1) with (r_ridx r).
    destruct (set_task (core r1) (r_ridx r) _) as [k|e]; cbn [mbind outcome_bind].
    + destruct Hlift as (r2 & E & <- & ? & ? & ? & ?). change (r_ridx r1) with (r_ridx r) in E. rewrite E. cbn [mbind outcome_bind].
      apply typed_agrees. by apply (ready_same r1).
    + change (r_ridx r1) with (r_ridx r) in Hlift. by rewrite Hlift.
  - unfold __redisReaderSetErrorProtocolByte. change (core r) with (core r1). by apply error_agrees.
Qed.

Lemma items_agrees fuel : forall r w i, ready r i ->
  match spec_items fuel (core r) w i with
  | Crash e => items_loop fn fuel r w = Crash e
  | Ok (Complete k w' i') | Ok (More k w' i') => exists r', items_loop fn fuel r w = Ok (r', w') /\ core r' = k /\ ready r' i'
  | Ok (Wrong k w') => exists r', items_loop fn fuel r w = Ok (r', w') /\ core r' = k /\ failed r'
  end.
Proof.
  induction fuel as [|fuel IH]; intros r w i Hr; cbn [spec_items items_loop]; change (r_ridx (core r)) with (r_ridx r);
    (destruct (r_ridx r >=? 0); cbn [negb]; [|by exists r]); [done|].
  pose proof (item_agrees r w i Hr) as H. destruct (spec_item (core r) w i) as [[k w' j|k w' j|k w']|e]; cbn [mbind outcome_bind].
  - destruct H as (r' & -> & <- & Hr'). cbn [mbind outcome_bind Z.eqb negb]. by apply IH.
  - destruct H as (r' & -> & <- & Hr'). by exists r'.
  - destruct H as (r' & -> & <- & Hr'). by exists r'.
  - by rewrite H.
Qed.

(** ** More bytes *)

(** The verdict when [j] follows the input. *)
Definition extend (j : list Z) (o : outcome (verdict W)) : outcome (verdict W) :=
  match o with Ok (Complete k w i) => Ok (Complete k w (i ++ j)) | _ => o end.

(** A verdict that does not ask for more, and consumes something. *)
Definition decided (i : list Z) (o : outcome (verdict W)) : Prop :=
  match o with
  | Ok (Complete _ _ i') => (length i' < length i)%nat
  | Ok (More _ _ _) => False
  | _ => True
  end.

Lemma drop_app_within (i j : list Z) n : n <= zlen i -> drop (Z.to_nat n) (i ++ j) = drop (Z.to_nat n) i ++ j.
Proof. intros. apply drop_app_le. unfold zlen in *. lia. Qed.
Lemma take_app_within (i j : list Z) n : n <= zlen i -> take (Z.to_nat n) (i ++ j) = take (Z.to_nat n) i.
Proof. intros. apply take_app_le. unfold zlen in *. lia. Qed.
Lemma length_drop_lt (i : list Z) n : 0 < n <= zlen i -> (length (drop (Z.to_nat n) i) < length i)%nat.
Proof. intros. rewrite length_drop. unfold zlen in *. lia. Qed.

Lemma spec_oom_app i k w j : spec_oom k w = extend j (spec_oom k w) /\ decided i (spec_oom k w).
Proof. unfold spec_oom. by destruct (out_of_memory fn k w) as [[[? ?] ?]|]. Qed.

Lemma spec_made_app (i : list Z) k made rest j : (length rest < length i)%nat ->
  spec_made k made (rest ++ j) = extend j (spec_made k made rest) /\ decided i (spec_made k made rest).
Proof.
  intros Hl. unfold spec_made, spec_finish. destruct (made.1 =? 0); [by apply spec_oom_app|].
  by destruct (finish_item k made.2 made.1) as [[[? ?] ?]|].
Qed.

Lemma spec_line_app k w cur i j :
  spec_line k w cur i = Ok (More k w i) \/
  spec_line k w cur (i ++ j) = extend j (spec_line k w cur i) /\ decided i (spec_line k w cur i).
Proof.
  unfold spec_line. destruct (find_crlf i) as [n|] eqn:E; [right|by left].
  pose proof (find_crlf_bound i n E). rewrite (find_crlf_app i j n E), (ll_parse_app i j) by (by eapply find_crlf_elem).
  rewrite take_app_within, drop_app_within by lia. destruct (if t_type cur =? REDIS_REPLY_INTEGER then _ else _); cbn [mbind outcome_bind]; [|done].
  apply spec_made_app, length_drop_lt. lia.
Qed.

Lemma spec_bulk_app k w cur i j :
  spec_bulk k w cur i = Ok (More k w i) \/
  spec_bulk k w cur (i ++ j) = extend j (spec_bulk k w cur i) /\ decided i (spec_bulk k w cur i).
Proof.
  unfold spec_bulk. destruct (find_crlf i) as [n|] eqn:E; [|by left].
  pose proof (find_crlf_bound i n E). rewrite (find_crlf_app i j n E), (ll_parse_app i j) by (by eapply find_crlf_elem).
  rewrite zlen_app. pose proof (zlen_nonneg j). cbv zeta.
  destruct (Z.ltb_spec (ll_parse i) 0).
  - right. rewrite drop_app_within by lia. destruct (create_nil fn k w cur); cbn [mbind outcome_bind]; [|done].
    apply spec_made_app, length_drop_lt. lia.
  - destruct (Z.leb_spec (n + 2 + ll_parse i + 2) (zlen i)); [right|by left].
    rewrite (proj2 (Z.leb_le (n + 2 + ll_parse i + 2) (zlen i + zlen j))) by lia.
    rewrite !drop_app_within, take_app_within by (rewrite ?zlen_drop; lia).
    destruct (spec_string k w cur _ _); cbn [mbind outcome_bind]; [|done]. apply spec_made_app, length_drop_lt. lia.
Qed.

Lemma spec_multi_app k w cur i j :
  spec_multi k w cur i = Ok (More k w i) \/
  spec_multi k w cur (i ++ j) = extend j (spec_multi k w cur i) /\ decided i (spec_multi k w cur i).
Proof.
  unfold spec_multi. destruct (r_ridx k =? 8).
  { right. by destruct (__redisReaderSetError fn k w _ _) as [[]|]. }
  destruct (find_crlf i) as [n|] eqn:E; [right|by left].
  pose proof (find_crlf_bound i n E) as Hn. rewrite (find_crlf_app i j n E), (ll_parse_app i j) by (by eapply find_crlf_elem).
  rewrite drop_app_within by lia. pose proof (length_drop_lt i (n + 2)) as Hl. cbv zeta.
  destruct (ll_parse i =? -1).
  - destruct (create_nil fn k w cur) as [[obj w']|]; cbn [mbind outcome_bind]; [|done].
    destruct (obj =? 0); [apply spec_oom_app|]. destruct (moveToNextTask k); cbn; [|done]. split; [done|]. apply Hl. lia.
  - destruct (match callback fn createArray with Some f => _ | None => _ end) as [[obj w']|]; cbn [mbind outcome_bind]; [|done].
    destruct (obj =? 0); [apply spec_oom_app|]. destruct (enter_array k cur obj _); cbn; [|done]. split; [done|]. apply Hl. lia.
Qed.

Lemma spec_typed_app k w i j :
  spec_typed k w i = Ok (More k w i) \/
  spec_typed k w (i ++ j) = extend j (spec_typed k w i) /\ decided i (spec_typed k w i).
Proof.
  unfold spec_typed. destruct (get_task k (r_ridx k)) as [cur|]; cbn [mbind outcome_bind]; [|by right].
  destruct (_ || _); [apply spec_line_app|]. destruct (_ =? _); [apply spec_bulk_app|].
  destruct (_ =? _); [apply spec_multi_app|by right].
Qed.

Lemma get_set_task k t k' : set_task k (r_ridx k) t = Ok k' -> get_task k' (r_ridx k') = Ok t /\ r_ridx k' = r_ridx k.
Proof.
  unfold set_task, get_task, elem_set, elem_at. destruct (_ && _) eqn:E; [|done]. intros [= <-]. cbn. split; [|done].
  apply andb_true_iff in E as [E1%Z.leb_le E2%Z.ltb_lt]. rewrite (proj2 (Z.ltb_ge _ _)) by done.
  rewrite list_lookup_insert_eq; [done|]. unfold zlen in E2. lia.
Qed.

Lemma reply_type_pos c type : reply_type c = Some type -> 0 <= type.
Proof. unfold reply_type. repeat case_match; by intros [= <-]. Qed.

Lemma spec_item_typed k w i cur : get_task k (r_ridx k) = Ok cur -> 0 <= t_type cur -> spec_item k w i = spec_typed k w i.
Proof. intros Hc Ht. unfold spec_item. rewrite Hc. cbn [mbind outcome_bind]. by rewrite (proj2 (Z.ltb_ge _ 0)). Qed.

Lemma spec_item_untyped k w i cur : get_task k (r_ridx k) = Ok cur -> t_type cur < 0 ->
  spec_item k w i =
    match i with
    | [] => Ok (More k w [])
    | c :: i =>
        match reply_type c with
        | Some type => k ← set_task k (r_ridx k) (cur <| t_type := type |>); spec_typed k w i
        | None => '(k, w) ← __redisReaderSetErrorProtocolByte fn k w c; Ok (Wrong k w)
        end
    end.
Proof. intros Hc Ht. unfold spec_item. rewrite Hc. cbn [mbind outcome_bind]. by rewrite (proj2 (Z.ltb_lt _ 0)). Qed.

(** An item that asks for more goes on where it was. *)
Lemma spec_item_app k w i j :
  (exists k' i', spec_item k w i = Ok (More k' w i') /\ r_ridx k' = r_ridx k /\ spec_item k w (i ++ j) = spec_item k' w (i' ++ j)) \/
  spec_item k w (i ++ j) = extend j (spec_item k w i) /\ decided i (spec_item k w i).
Proof.
  destruct (get_task k (r_ridx k)) as [cur|e] eqn:Hcur.
  2: { right. unfold spec_item. by rewrite Hcur. }
  destruct (Z.lt_ge_cases (t_type cur) 0) as [Hneg|Hpos].
  - destruct i as [|c i].
    { left. exists k, []. by rewrite (spec_item_untyped k w [] cur). }
    rewrite !(spec_item_untyped k w _ cur) by done. cbn [Datatypes.app].
    destruct (reply_type c) as [type|] eqn:Et; [|right; by destruct (__redisReaderSetErrorProtocolByte fn k w c) as [[]|]].
    destruct (set_task k (r_ridx k) _) as [k1|] eqn:Es; cbn [mbind outcome_bind]; [|by right].
    apply get_set_task in Es as [Hg Hi]. destruct (spec_typed_app k1 w i j) as [E|[E Hd]].
    + left. exists k1, i. rewrite E. split; [done|]. split; [done|]. symmetry. eapply spec_item_typed; [done|].
      by eapply reply_type_pos.
    + right. split; [done|]. unfold decided in *. destruct (spec_typed k1 w i) as [[]|]; cbn; try done. lia.
  - rewrite !(spec_item_typed k w _ cur) by done.
    destruct (spec_typed_app k w i j) as [E|E]; [left|by right]. exists k, i. rewrite E. split; [done|]. split; [done|].
    by rewrite (spec_item_typed k w _ cur).
Qed.

(** ** The loop *)

Lemma spec_items_fuel f : forall f' k w i, (length i < f)%nat -> (length i < f')%nat -> spec_items f k w i = spec_items f' k w i.
Proof.
  induction f as [|f IH]; intros [|f'] k w i Hf Hf'; [lia..|]. cbn [spec_items]. destruct (negb (r_ridx k >=? 0)); [done|].
  destruct (spec_item_app k w i []) as [(k' & i' & -> & _)|[_ Hd]]; [done|].
  destruct (spec_item k w i) as [[k' w' i'|?|?]|]; cbn [mbind outcome_bind]; try done. cbn in Hd. apply IH; lia.
Qed.

(** The loop on an input in two pieces. *)
Lemma spec_items_app f : forall k w i j f2, (length i < f)%nat -> (length (i ++ j) < f2)%nat ->
  match spec_items f k w i with
  | Ok (More k' w' i') => 0 <= r_ridx k' /\ forall f3, (length (i' ++ j) < f3)%nat -> spec_items f2 k w (i ++ j) = spec_items f3 k' w' (i' ++ j)
  | o => spec_items f2 k w (i ++ j) = extend j o
  end.
Proof.
  induction f as [|f IH]; intros k w i j f2 Hf Hf2; [lia|]. destruct f2 as [|f2]; [lia|]. cbn [spec_items].
  destruct (Z.geb_spec (r_ridx k) 0) as [Hidx|Hidx]; cbn [negb]; [|done].
  destruct (spec_item_app k w i j) as [(k' & i' & E & Hi & Ej)|[Ej Hd]].
  - rewrite E. cbn [mbind outcome_bind]. split; [lia|]. intros [|f3] Hf3; [lia|]. cbn [spec_items].
    rewrite Hi, (proj2 (Z.geb_le _ _)) by lia. cbn [negb]. rewrite Ej.
    destruct (spec_item_app k' w (i' ++ j) []) as [(k2 & i2 & -> & _)|[_ Hd]]; [done|].
    destruct (spec_item k' w (i' ++ j)) as [[k2 w2 i2|?|?]|] eqn:E2; cbn [mbind outcome_bind]; try done. cbn in Hd.
    apply spec_items_fuel; [|lia]. 
    destruct (spec_item_app k w (i ++ j) []) as [(k3 & i3 & E3 & _)|[_ Hd2]]; [by rewrite E3 in Ej|].
    rewrite Ej in Hd2. cbn in Hd2. lia.
  - rewrite Ej. destruct (spec_item k w i) as [[k' w' i'|?|?]|]; cbn [extend mbind outcome_bind]; try done. cbn in Hd.
    apply IH; rewrite ?length_app in *; lia.
Qed.

(** [redisReaderGetReply] on a list. *)
Definition start (k : redisReader) : outcome redisReader :=
  if r_ridx k =? -1 then k ← set_task k 0 (mkTask (-1) (-1) (-1) 0 None); Ok (k <| r_ridx := 0 |>) else Ok k.
Definition spec_get (k : redisReader) (w : W) (i : list Z) : outcome (verdict W) :=
  k ← start k; spec_items (S (length i)) k w i.

(** ** The index of the stack never falls below -1 *)

Lemma next_task_ridx f : forall r r', -1 <= r_ridx r -> next_task_loop f r = Ok r' -> -1 <= r_ridx r'.
Proof.
  induction f as [|f IH]; intros r r' Hr; cbn [next_task_loop]; (destruct (Z.geb_spec (r_ridx r) 0); cbn [negb]; [|by intros [= <-]]); [done|].
  destruct (Z.eqb_spec (r_ridx r) 0). { intros [= <-]. cbn. lia. }
  destruct (get_task r (r_ridx r)) as [cur|]; cbn [mbind outcome_bind]; [|done].
  destruct (get_task r (r_ridx r - 1)) as [prv|]; cbn [mbind outcome_bind]; [|done].
  destruct (c_assert (t_type prv =? REDIS_REPLY_ARRAY)); cbn [mbind outcome_bind]; [|done].
  destruct (t_idx cur =? i32 (t_elements prv - 1)). { apply IH. cbn. lia. }
  destruct (c_assert (t_idx cur <? t_elements prv)); cbn [mbind outcome_bind]; [|done].
  intros E%get_set_task. destruct E as [_ ->]. lia.
Qed.

Lemma move_ridx r r' : -1 <= r_ridx r -> moveToNextTask r = Ok r' -> -1 <= r_ridx r'.
Proof. apply next_task_ridx. Qed.

Definition above (o : outcome (verdict W)) : Prop :=
  match o with Ok (Complete k _ _) => -1 <= r_ridx k | _ => True end.

Lemma spec_made_ridx k made rest : -1 <= r_ridx k -> above (spec_made k made rest).
Proof.
  intros Hk. unfold spec_made, spec_oom, spec_finish, finish_item. destruct (made.1 =? 0).
  { by destruct (out_of_memory fn k made.2) as [[[? ?] ?]|]. }
  cbv zeta. destruct (moveToNextTask _) as [k'|] eqn:E; cbn; [|done]. eapply move_ridx; [|exact E]. by destruct (r_ridx k =? 0).
Qed.

Lemma enter_array_ridx k cur obj elements k' : -1 <= r_ridx k -> enter_array k cur obj elements = Ok k' -> -1 <= r_ridx k'.
Proof.
  intros Hk. unfold enter_array. destruct (elements >? 0); [|by apply move_ridx].
  destruct (set_task k (r_ridx k) _) as [k1|] eqn:E1; cbn [mbind outcome_bind]; [|done]. apply get_set_task in E1 as [_ E1].
  intros E2. apply get_set_task in E2 as [_ ->]. cbn. lia.
Qed.

Lemma spec_typed_ridx k w i : -1 <= r_ridx k -> above (spec_typed k w i).
Proof.
  intros Hk. unfold spec_typed. destruct (get_task k (r_ridx k)) as [cur|]; cbn [mbind outcome_bind]; [|done].
  destruct (_ || _); [|destruct (_ =? _); [|destruct (_ =? _); [|done]]].
  - unfold spec_line. destruct (find_crlf i); [|done]. destruct (if t_type cur =? REDIS_REPLY_INTEGER then _ else _); cbn [mbind outcome_bind]; [|done].
    by apply spec_made_ridx.
  - unfold spec_bulk. destruct (find_crlf i); [|done]. cbv zeta. destruct (ll_parse i <? 0).
    + destruct (create_nil fn k w cur); cbn [mbind outcome_bind]; [|done]. by apply spec_made_ridx.
    + destruct (_ <=? _); [|done]. destruct (spec_string k w cur _ _); cbn [mbind outcome_bind]; [|done]. by apply spec_made_ridx.
  - unfold spec_multi. destruct (r_ridx k =? 8). { by destruct (__redisReaderSetError fn k w _ _) as [[]|]. }
    destruct (find_crlf i); [|done]. cbv zeta. destruct (ll_parse i =? -1).
    + destruct (create_nil fn k w cur) as [[obj w']|]; cbn [mbind outcome_bind]; [|done].
      destruct (obj =? 0). { unfold spec_oom. by destruct (out_of_memory fn k w') as [[[? ?] ?]|]. }
      destruct (moveToNextTask k) eqn:E; cbn; [|done]. unfold set_root. apply move_ridx in E; [|done]. by destruct (r_ridx k =? 0).
    + destruct (match callback fn createArray with Some f => _ | None => _ end) as [[obj w']|]; cbn [mbind outcome_bind]; [|done].
      destruct (obj =? 0). { unfold spec_oom. by destruct (out_of_memory fn k w') as [[[? ?] ?]|]. }
      destruct (enter_array k cur obj _) eqn:E; cbn; [|done]. unfold set_root. apply enter_array_ridx in E; [|done]. by destruct (r_ridx k =? 0).
Qed.

Lemma spec_item_ridx k w i : -1 <= r_ridx k -> above (spec_item k w i).
Proof.
  intros Hk. destruct (get_task k (r_ridx k)) as [cur|e] eqn:Hcur; [|unfold spec_item; by rewrite Hcur].
  destruct (Z.lt_ge_cases (t_type cur) 0) as [Hneg|Hpos].
  - rewrite (spec_item_untyped k w i cur) by done. destruct i as [|c i]; [done|]. destruct (reply_type c) as [type|].
    + destruct (set_task k (r_ridx k) _) as [k1|] eqn:E; cbn [mbind outcome_bind]; [|done]. apply get_set_task in E as [_ E].
      apply spec_typed_ridx. lia.
    + by destruct (__redisReaderSetErrorProtocolByte fn k w c) as [[]|].
  - rewrite (spec_item_typed k w i cur) by done. by apply spec_typed_ridx.
Qed.

Lemma spec_items_ridx f : forall k w i k' w' i', -1 <= r_ridx k ->
  spec_items f k w i = Ok (Complete k' w' i') -> r_ridx k' = -1.
Proof.
  induction f as [|f IH]; intros k w i k' w' i' Hk; cbn [spec_items]; (destruct (Z.geb_spec (r_ridx k) 0); cbn [negb]; [|intros [= <- _ _]; lia]); [done|].
  pose proof (spec_item_ridx k w i Hk) as Ha. destruct (spec_item k w i) as [[k1 w1 i1|?|?]|]; cbn [mbind outcome_bind]; try done.
  by apply IH.
Qed.

Lemma start_lift : lift start.
Proof.
  intros r. unfold start. change (r_ridx (core r)) with (r_ridx r). destruct (r_ridx r =? -1); [|by exists r].
  unfold set_task. change (r_rstack (core r)) with (r_rstack r). destruct (elem_set _ _ _); cbn; [|done]. eexists. by split_and!.
Qed.

Lemma start_ridx k k' : -1 <= r_ridx k -> start k = Ok k' -> 0 <= r_ridx k' /\ start k' = Ok k'.
Proof.
  intros Hk. unfold start. destruct (Z.eqb_spec (r_ridx k) (-1)).
  - destruct (set_task k 0 _) as [k1|]; cbn; [|done]. intros [= <-]. cbn. done.
  - intros [= <-]. rewrite (proj2 (Z.eqb_neq _ _)) by done. split; [lia|done].
Qed.

(** ** The public operations *)

(** Discarding the bytes read. *)
Lemma discard_ready r i : ready r i ->
  exists r', (if r_pos r >=? 1024 then
         s ← match r_buf r with Some s => Ok s | None => Crash NullDeref end;
         s ← sdsrange s (i32 (r_pos r)) (-1);
         Ok (r <| r_buf := Some s |> <| r_pos := 0 |> <| r_len := sdslen s |>)
       else Ok r) = Ok r' /\ core r' = core r /\ ready r' i.
Proof.
  intros Hr. destruct (r_pos r >=? 1024); [|by exists r]. destruct Hr as (s & c & -> & Hs & Hl & Hp & Hd & Hc & He).
  cbn [mbind outcome_bind]. assert (i32 (r_pos r) = r_pos r) as -> by mword.
  destruct (sdsrange_holds s c (r_pos r) (-1) Hs) as (s' & -> & Hs'); [mword|done|done|]. cbn [mbind outcome_bind].
  assert (Hsub : substring (r_pos r) (-1) c = i).
  { unfold substring. rewrite (proj2 (Z.ltb_ge (r_pos r) 0)) by lia. rewrite Hd. cbn [Z.ltb].
    apply take_ge. rewrite <- Hd, length_drop. change (-1 <? 0) with true. cbn iota. unfold zlen in *. lia. }
  rewrite Hsub in Hs'. destruct (sds_holds_len s' i Hs') as [-> _]. eexists. split; [done|]. split; [done|].
  exists s', i. cbn. assert (zlen i <= zlen c) by (rewrite <- Hd, zlen_drop; lia). pose proof (zlen_nonneg i).
  split_and!; try done; lia.
Qed.

Lemma getreply_agrees r w i : ready r i -> r_len r <> 0 -> -1 <= r_ridx r ->
  match spec_get (core r) w i with
  | Crash e => redisReaderGetReply fn true r w = Crash e
  | Ok (Complete k w' i') => exists r', redisReaderGetReply fn true r w = Ok (r', w', REDIS_OK, r_reply k) /\
      core r' = k <| r_reply := 0 |> /\ ready r' i'
  | Ok (More k w' i') => exists r', redisReaderGetReply fn true r w = Ok (r', w', REDIS_OK, 0) /\ core r' = k /\ ready r' i'
  | Ok (Wrong k w') => exists r', redisReaderGetReply fn true r w = Ok (r', w', REDIS_ERR, 0) /\ core r' = k /\ failed r'
  end.
Proof.
  intros Hr Hl Hidx. unfold redisReaderGetReply, spec_get. assert (He : r_err r = 0) by (by destruct Hr as (? & ? & H); apply H).
  rewrite He, (proj2 (Z.eqb_neq _ _) Hl). cbn [Z.eqb negb]. pose proof (start_lift r) as Hst.
  change (if r_ridx r =? -1 then r ← set_task r 0 (mkTask (-1) (-1) (-1) 0 None); Ok (r <| r_ridx := 0 |>) else Ok r) with (start r).
  destruct (start (core r)) as [k0|e] eqn:Estart; cbn [mbind outcome_bind]; [|by rewrite Hst].
  destruct Hst as (r0 & -> & <- & H1 & H2 & H3 & H4). cbn [mbind outcome_bind].
  apply start_ridx in Estart as [Hidx0 _]; [|done]. change (r_ridx (core r0)) with (r_ridx r0) in Hidx0.
  assert (Hr0 : ready r0 i) by (by apply (ready_same r)).
  assert (Hfuel : Z.to_nat (u64 (r_len r0 - r_pos r0)) = length i).
  { destruct (ready_bytes r0 i Hr0) as (pre & rest & _ & Hp & Hl' & Hb). pose proof (zlen_nonneg pre). pose proof (zlen_nonneg i).
    assert (u64 (r_len r0 - r_pos r0) = zlen i) as -> by mword. unfold zlen. lia. }
  rewrite Hfuel. pose proof (items_agrees (S (length i)) r0 w i Hr0) as Hit. 
  pose proof (spec_items_ridx (S (length i)) (core r0) w i) as Hend. pose proof (spec_items_app (S (length i)) (core r0) w i [] (S (length (i ++ [])))) as Hmore.
  destruct (spec_items (S (length i)) (core r0) w i) as [[k w' i'|k w' i'|k w']|e].
  - destruct Hit as (r1 & -> & <- & Hr1). cbn [mbind outcome_bind]. assert (r_err r1 = 0) as -> by (by destruct Hr1 as (? & ? & H); apply H).
    cbn [Z.eqb negb]. destruct (discard_ready r1 i' Hr1) as (r2 & -> & Hc2 & Hr2). cbn [mbind outcome_bind].
    assert (Hi : r_ridx (core r1) = -1) by (apply (Hend _ w' i'); [change (r_ridx (core r0)) with (r_ridx r0); lia|done]).
    rewrite <- Hc2 in Hi. change (r_ridx r2 = -1) in Hi. rewrite Hi. cbn [Z.eqb Pos.eqb]. rewrite <- Hc2.
    eexists. split; [done|]. split; [done|]. by apply (ready_same r2).
  - destruct Hit as (r1 & -> & <- & Hr1). cbn [mbind outcome_bind]. assert (r_err r1 = 0) as -> by (by destruct Hr1 as (? & ? & H); apply H).
    cbn [Z.eqb negb]. destruct (discard_ready r1 i' Hr1) as (r2 & -> & Hc2 & Hr2). cbn [mbind outcome_bind].
    destruct Hmore as [Hi _]; [lia|lia|]. rewrite <- Hc2 in Hi. change (0 <= r_ridx r2) in Hi.
    rewrite (proj2 (Z.eqb_neq (r_ridx r2) (-1))) by lia. exists r2. done.
  - destruct Hit as (r1 & -> & Hc1 & He1 & Hb1). cbn [mbind outcome_bind]. rewrite (proj2 (Z.eqb_neq _ _) He1). by exists r1.
  - by rewrite Hit.
Qed.

Lemma feed_ready junk r i bs : ready r i -> bs <> [] -> r_len r + zlen bs < 2 ^ 30 ->
  exists r', redisReaderFeed junk r (Some bs) = Ok (r', REDIS_OK) /\ core r' = core r /\ ready r' (i ++ bs) /\ r_len r' <> 0.
Proof.
  intros (s & c & Hb & Hs & Hl & Hp & Hd & Hc & He) Hne Hbound. unfold redisReaderFeed. rewrite He. cbn [Z.eqb negb].
  assert (Hpos : 0 < zlen bs) by (destruct bs; [done|]; rewrite zlen_cons; pose proof (zlen_nonneg bs); lia).
  rewrite (proj2 (Z.geb_le _ _)) by lia. rewrite Hb. cbn [mbind outcome_bind].
  assert (Hcat : forall r0 s0 c0, sds_holds s0 c0 -> core r0 = core r -> r_err r0 = 0 -> zlen c0 <= zlen c -> 0 <= r_pos r0 <= zlen c0 ->
    drop (Z.to_nat (r_pos r0)) c0 = i ->
    exists r', (s ← sdscatlen junk s0 bs (zlen bs); Ok (r0 <| r_buf := Some s |> <| r_len := sdslen s |>, REDIS_OK)) = Ok (r', REDIS_OK) /\
      core r' = core r /\ ready r' (i ++ bs) /\ r_len r' <> 0).
  { intros r0 s0 c0 Hs0 Hcore Herr Hlen Hpos0 Hdrop. destruct (catlen_holds junk s0 c0 bs (zlen bs) bs Hs0) as (s1 & -> & Hs1).
    { rewrite <- (app_nil_r bs) at 1. by apply (read_at_mid [] bs []). } { lia. }
    cbn [mbind outcome_bind]. destruct (sds_holds_len s1 (c0 ++ bs) Hs1) as [-> _]. eexists. split; [done|].
    split; [exact Hcore|]. split; [|cbn; rewrite zlen_app; lia]. exists s1, (c0 ++ bs). cbn. rewrite zlen_app.
    split_and!; try done; [lia|lia| |lia]. rewrite drop_app_le by (unfold zlen in *; lia). by rewrite Hdrop. }
  destruct ((r_len r =? 0) && negb (r_maxbuf r =? 0) && (sdsavail s >? r_maxbuf r)) eqn:E.
  - assert (Hc0 : zlen c = 0) by lia. destruct (sdsempty_holds junk) as (s0 & -> & Hs0). cbn [mbind outcome_bind].
    apply (Hcat _ s0 []); [done|done|done|rewrite zlen_nil; lia|unfold zlen; cbn; lia|].
    rewrite drop_nil, <- Hd. destruct c; [by rewrite drop_nil|rewrite zlen_cons in Hc0; pose proof (zlen_nonneg c); lia].
  - cbn [mbind outcome_bind]. apply (Hcat r s c); done || lia.
Qed.

(** Feeding a chunk and asking for a reply. *)
Definition feed_get (junk : Z) (bs : list Z) (r : redisReader) (w : W) : outcome (redisReader * W * Z * Z) :=
  '(r, _) ← redisReaderFeed junk r (Some bs); redisReaderGetReply fn true r w.

(** What a caller can see of the result: all but how the buffer is laid out. *)
Definition unread (r : redisReader) : list Z :=
  match r_buf r with Some s => drop (Z.to_nat (r_pos r)) (sds_content s) | None => [] end.
Definition observe (o : outcome (redisReader * W * Z * Z)) : outcome (redisReader * list Z * W * Z * Z) :=
  '(r, w, status, reply) ← o; Ok (core r, unread r, w, status, reply).

Lemma ready_unread r i : ready r i -> unread r = i.
Proof. intros (s & c & Hb & Hs & _ & _ & <- & _). unfold unread. by rewrite Hb, (sds_holds_content s c Hs). Qed.

(** The verdict a caller sees. *)
Definition seen (v : outcome (verdict W)) : outcome (redisReader * list Z * W * Z * Z) :=
  v ← v;
  Ok (match v with
      | Complete k w i => (k <| r_reply := 0 |>, i, w, REDIS_OK, r_reply k)
      | More k w i => (k, i, w, REDIS_OK, 0)
      | Wrong k w => (k, [], w, REDIS_ERR, 0)
      end).

Lemma feed_get_seen junk bs r w i : ready r i -> bs <> [] -> r_len r + zlen bs < 2 ^ 30 -> -1 <= r_ridx r ->
  observe (feed_get junk bs r w) = seen (spec_get (core r) w (i ++ bs)) /\
  (forall r' w' reply, feed_get junk bs r w = Ok (r', w', REDIS_OK, reply) -> 0 <= r_ridx r' ->
     ready r' (unread r') /\ spec_get (core r) w (i ++ bs) = Ok (More (core r') w' (unread r'))).
Proof.
  intros Hr Hne Hb Hidx. unfold feed_get. destruct (feed_ready junk r i bs Hr Hne Hb) as (r1 & -> & Hc1 & Hr1 & Hl1).
  cbn [mbind outcome_bind]. assert (Hidx1 : -1 <= r_ridx r1) by (change (r_ridx r1) with (r_ridx (core r1)); by rewrite Hc1).
  pose proof (getreply_agrees r1 w (i ++ bs) Hr1 Hl1 Hidx1) as H. rewrite Hc1 in H.
  destruct (spec_get (core r) w (i ++ bs)) as [[k w' i'|k w' i'|k w']|e] eqn:E.
  - destruct H as (r2 & -> & Hc2 & Hr2). cbn. rewrite Hc2, (ready_unread _ _ Hr2). split; [done|].
    intros r' w2 reply [= <- <- <-] Hi. exfalso. change (r_ridx r2) with (r_ridx (core r2)) in Hi. rewrite Hc2 in Hi. cbn in Hi.
    unfold spec_get in E. destruct (start (core r)) as [k0|] eqn:Es; cbn [mbind outcome_bind] in E; [|done].
    apply start_ridx in Es as [Hk0 _]; [|done]. apply spec_items_ridx in E; lia.
  - destruct H as (r2 & -> & <- & Hr2). cbn. rewrite (ready_unread _ _ Hr2). split; [done|].
    intros r' w2 reply [= <- <- <-] Hi. by rewrite (ready_unread _ _ Hr2).
  - destruct H as (r2 & -> & <- & _ & Hb2). cbn. unfold unread. rewrite Hb2. done.
  - rewrite H. done.
Qed.

(** A parse that asked for more goes on with the next bytes. *)
Lemma spec_get_app k w i j k' w' i' : -1 <= r_ridx k -> spec_get k w i = Ok (More k' w' i') ->
  0 <= r_ridx k' /\ spec_get k w (i ++ j) = spec_get k' w' (i' ++ j).
Proof.
  intros Hk. unfold spec_get. destruct (start k) as [k0|] eqn:Es; cbn [mbind outcome_bind]; [|done]. intros E.
  pose proof (spec_items_app (S (length i)) k0 w i j (S (length (i ++ j)))) as H. rewrite E in H. destruct H as [Hk' H]; [lia|lia|].
  split; [done|]. assert (start k' = Ok k') as ->.
  { unfold start. by rewrite (proj2 (Z.eqb_neq _ _)) by lia. }
  apply H. lia.
Qed.

(** C21: chunks do not matter.  A reader that holds no error is fed a chunk and asked
    for a reply, and its reply is still incomplete; feeding it the next chunk then
    gives the same answer as feeding it both chunks at once: the same status and
    reply, the same effect on the objects the callbacks build, the same task
    stack, and the same bytes left.  This holds for every content and every set
    of callbacks, for errors and crashes too, as long as the buffer stays below
    2^30 bytes. *)
Theorem reader_chunk_independence (junk : Z) (a b : list Z) (r r1 : redisReader) (w w1 : W) (i : list Z) (reply : Z) :
  ready r i -> -1 <= r_ridx r -> a <> [] -> b <> [] -> r_len r + zlen (a ++ b) < 2 ^ 30 ->
  feed_get junk a r w = Ok (r1, w1, REDIS_OK, reply) -> 0 <= r_ridx r1 -> r_len r1 + zlen b < 2 ^ 30 ->
  observe (feed_get junk b r1 w1) = observe (feed_get junk (a ++ b) r w).
Proof.
  intros Hr Hidx Ha Hb Hlen E Hidx1 Hlen1. rewrite zlen_app in Hlen. pose proof (zlen_nonneg a). pose proof (zlen_nonneg b).
  destruct (feed_get_seen junk a r w i Hr Ha) as [_ H1]; [lia|done|]. destruct (H1 r1 w1 reply E Hidx1) as [Hr1 Hs1].
  destruct (spec_get_app (core r) w (i ++ a) b _ _ _ Hidx Hs1) as [_ Hab]. rewrite <- app_assoc in Hab.
  destruct (feed_get_seen junk (a ++ b) r w i Hr) as [-> _]; [by destruct a|rewrite zlen_app; lia|done|].
  destruct (feed_get_seen junk b r1 w1 (unread r1) Hr1 Hb Hlen1) as [-> _]; [lia|]. by rewrite Hab.
Qed.
End spec.

(** The reader as it is created. *)
Lemma created_ready junk : exists r, redisReaderCreateWithFunctions junk = Ok r /\ ready r [] /\ r_ridx r = -1 /\ r_len r = 0.
Proof.
  unfold redisReaderCreateWithFunctions. destruct (sdsempty_holds junk) as (s & -> & Hs). cbn [mbind outcome_bind].
  eexists. split; [done|]. split; [|done]. exists s, []. by split_and!.
Qed.

Lemma reader_chunk_independence_witness :
  exists r r1, redisReaderCreateWithFunctions 7 = Ok r /\
    feed_get (W := unit) None 7 [43; 79] r tt = Ok (r1, tt, REDIS_OK, 0) /\
    observe (feed_get None 7 [75; 13; 10] r1 tt) = observe (feed_get None 7 ([43; 79] ++ [75; 13; 10]) r tt).
Proof.
  destruct (created_ready 7) as (r & E & Hready & Hidx & Hlen). exists r. injection E as <-.
  eexists. split; [reflexivity|]. split; [reflexivity|].
  eapply (reader_chunk_independence None 7 [43; 79] [75; 13; 10]); [exact Hready|done|done|done|by vm_compute|reflexivity|by vm_compute|by vm_compute].
Defined.
