(* ===== verification/RedisSafe.v ===== *)
(** * redisReader: safety

    Whatever bytes it is fed, the reader reads nothing outside of its buffer, never
    leaves its stack of nine tasks and always answers; the one exception is the
    assertion that an array count which does not fit an [int] trips.  The callbacks
    are assumed to return; hiredis's own do, except on such a count
    ([RedisReply.reader_array_count]). *)

From S2P Require Import Prelude Inet Sds RedisReader RedisParse.

(** ** The callbacks

    What the reader relies on: every callback returns. *)
Class total_callbacks {W : Type} (fn : option (redisReplyObjectFunctions W)) : Prop := {
  total_string f : callback fn createString = Some f -> forall task parent str w, exists o w', f task parent str w = Ok (o, w');
  total_array f : callback fn createArray = Some f -> forall task parent n w, exists o w', f task parent n w = Ok (o, w');
  total_integer f : callback fn createInteger = Some f -> forall task parent n w, exists o w', f task parent n w = Ok (o, w');
  total_nil f : callback fn createNil = Some f -> forall task parent w, exists o w', f task parent w = Ok (o, w');
  total_free f : callback fn freeObject = Some f -> forall p w, exists w', f p w = Ok w'
}.

#[export] Instance total_no_callbacks {W : Type} : total_callbacks (W := W) None.
Proof. by split. Qed.

(** ** The task stack *)

Definition is_type (t : Z) : Prop :=
  t = REDIS_REPLY_STRING \/ t = REDIS_REPLY_ARRAY \/ t = REDIS_REPLY_INTEGER \/ t = REDIS_REPLY_STATUS \/ t = REDIS_REPLY_ERROR.

(** The stack; with [b], the index of a task is also below the number of elements
    of the array it is part of. *)
Record stack_ok (b : bool) (k : redisReader) : Prop := {
  st_ridx : -1 <= r_ridx k <= 8;
  st_length : length (r_rstack k) = 9%nat;
  st_parent : forall e t, 0 <= e <= r_ridx k -> get_task k e = Ok t -> t_parent t = if e =? 0 then None else Some (e - 1);
  st_array : forall e t, 0 <= e < r_ridx k -> get_task k e = Ok t -> t_type t = REDIS_REPLY_ARRAY;
  st_type : forall t, get_task k (r_ridx k) = Ok t -> t_type t < 0 \/ is_type (t_type t);
  st_idx : b = true -> forall e t p, 0 < e <= r_ridx k -> get_task k e = Ok t -> get_task k (e - 1) = Ok p ->
    0 <= t_idx t < t_elements p /\ t_elements p < 2 ^ 31
}.
Arguments st_ridx {_} _ _.
Arguments st_length {_} _ _.
Arguments st_parent {_} _ _.
Arguments st_array {_} _ _.
Arguments st_type {_} _ _.
Arguments st_idx {_} _ _.

Lemma get_task_ok k e : length (r_rstack k) = 9%nat -> 0 <= e <= 8 -> exists t, get_task k e = Ok t.
Proof.
  intros Hl He. unfold get_task, elem_at. rewrite (proj2 (Z.ltb_ge _ _)) by lia.
  destruct (lookup_lt_is_Some_2 (r_rstack k) (Z.to_nat e)) as [t ->]; [lia|]. eauto.
Qed.

Lemma set_task_total k e t : length (r_rstack k) = 9%nat -> 0 <= e <= 8 -> exists k', set_task k e t = Ok k' /\
  (forall e', get_task k' e' = if e' =? e then Ok t else get_task k e') /\ r_ridx k' = r_ridx k /\ length (r_rstack k') = 9%nat.
Proof.
  intros Hl He. unfold set_task, elem_set. rewrite (proj2 (Z.leb_le _ _)), (proj2 (Z.ltb_lt _ _)) by (unfold zlen; lia).
  eexists. split; [done|]. cbn. split; [|by rewrite length_insert]. intros e'. unfold get_task, elem_at. cbn.
  destruct (Z.ltb_spec e' 0); [by rewrite (proj2 (Z.eqb_neq e' e)) by lia|]. destruct (Z.eqb_spec e' e) as [->|].
  - rewrite list_lookup_insert_eq; [done|lia].
  - by rewrite list_lookup_insert_ne by lia.
Qed.

(** Replacing the top task by one of the same parent. *)
Lemma stack_set_top b k t t' : stack_ok b k -> 0 <= r_ridx k -> get_task k (r_ridx k) = Ok t -> t_parent t' = t_parent t ->
  (t_type t' < 0 \/ is_type (t_type t')) ->
  (b = true -> forall p, 0 < r_ridx k -> get_task k (r_ridx k - 1) = Ok p -> 0 <= t_idx t' < t_elements p) ->
  exists k', set_task k (r_ridx k) t' = Ok k' /\ stack_ok b k' /\ r_ridx k' = r_ridx k /\
  get_task k' (r_ridx k) = Ok t'.
Proof.
  intros [H1 H2 H3 H4 H5 H6] Hr Ht Hp Hty Hx. destruct (set_task_total k (r_ridx k) t' H2) as (k' & E & Hg & Hi & Hl); [lia|].
  exists k'. split; [done|]. split; [|split; [done|by rewrite Hg, Z.eqb_refl]]. split; rewrite ?Hi; try done.
  - intros e t0. rewrite Hg. destruct (Z.eqb_spec e (r_ridx k)) as [->|]; [|by apply H3]. intros He [= <-]. rewrite Hp. by apply H3.
  - intros e t0. rewrite Hg. intros He. rewrite (proj2 (Z.eqb_neq e (r_ridx k))) by lia. by apply H4.
  - intros t0. rewrite Hg, Z.eqb_refl. by intros [= <-].
  - intros Hb e t0 q He. rewrite !Hg. rewrite (proj2 (Z.eqb_neq (e - 1) (r_ridx k))) by lia.
    destruct (Z.eqb_spec e (r_ridx k)) as [->|]; [|by apply H6]. intros [= <-] Hq.
    split; [apply Hx; [done|lia|done]|]. by apply (H6 Hb (r_ridx k) t q).
Qed.

Lemma stack_top_idx b k t : stack_ok b k -> get_task k (r_ridx k) = Ok t ->
  b = true -> forall p, 0 < r_ridx k -> get_task k (r_ridx k - 1) = Ok p -> 0 <= t_idx t < t_elements p.
Proof. intros Hk Ht Hb p Hr Hp. apply (st_idx k Hk Hb (r_ridx k) t p); [lia|done|done]. Qed.

Lemma stack_pop b k : stack_ok b k -> 0 <= r_ridx k -> stack_ok b (k <| r_ridx := r_ridx k - 1 |>).
Proof.
  intros [H1 H2 H3 H4 H5 H6] Hr. split; cbn; [lia|done| | | |].
  - intros e t He. change (get_task k e = Ok t -> t_parent t = if e =? 0 then None else Some (e - 1)). apply H3. lia.
  - intros e t He. change (get_task k e = Ok t -> t_type t = REDIS_REPLY_ARRAY). apply H4. lia.
  - intros t. change (get_task k (r_ridx k - 1) = Ok t -> t_type t < 0 \/ is_type (t_type t)). intros Ht. right.
    destruct (Z.eq_dec (r_ridx k) 0) as [E|]; [rewrite E in Ht; by unfold get_task, elem_at in Ht|].
    rewrite (H4 (r_ridx k - 1) t) by (done || lia). by right; left.
  - intros Hb e t p He. change (get_task k e = Ok t -> get_task k (e - 1) = Ok p -> 0 <= t_idx t < t_elements p /\ t_elements p < 2 ^ 31).
    apply H6; [done|lia].
Qed.

Lemma stack_reply b k x : stack_ok b k -> stack_ok b (k <| r_reply := x |>).
Proof. intros [H1 H2 H3 H4 H5 H6]. by split. Qed.

(** A result that is fine: a good state or, when the counts are not known to fit,
    the assertion on the index. *)
Definition fine {A} (b : bool) (P : A -> Prop) (o : outcome A) : Prop :=
  match o with Ok a => P a | Crash c => c = AssertFailed /\ b = false end.

(** The next task has no type yet. *)
Definition fresh (k : redisReader) : Prop := forall t, get_task k (r_ridx k) = Ok t -> t_type t < 0.

Lemma next_task_fine b f : forall k, stack_ok b k -> r_ridx k < Z.of_nat f ->
  fine b (fun k => stack_ok b k /\ fresh k) (next_task_loop f k).
Proof.
  induction f as [|f IH]; intros k Hk Hf; cbn [next_task_loop].
  { destruct (Z.geb_spec (r_ridx k) 0) as [Hr|Hr]; cbn [negb]; [lia|]. split; [done|]. intros t. unfold get_task, elem_at.
    by rewrite (proj2 (Z.ltb_lt _ _)) by lia. }
  destruct (Z.geb_spec (r_ridx k) 0) as [Hr|Hr]; cbn [negb].
  2: { split; [done|]. intros t. unfold get_task, elem_at. by rewrite (proj2 (Z.ltb_lt _ _)) by lia. }
  destruct (Z.eqb_spec (r_ridx k) 0) as [E|Hne].
  { split; [by apply stack_pop|]. intros t. cbn. rewrite E. by unfold get_task, elem_at. }
  pose proof (st_ridx k Hk). destruct (get_task_ok k (r_ridx k) (st_length k Hk)) as [cur Hcur]; [lia|].
  destruct (get_task_ok k (r_ridx k - 1) (st_length k Hk)) as [prv Hprv]; [lia|].
  rewrite Hcur. cbn [mbind outcome_bind]. rewrite Hprv. cbn [mbind outcome_bind].
  rewrite (st_array k Hk (r_ridx k - 1) prv) by (done || lia). cbn [Z.eqb Pos.eqb REDIS_REPLY_ARRAY c_assert mbind outcome_bind].
  destruct (Z.eqb_spec (t_idx cur) (i32 (t_elements prv - 1))) as [|Hlast]; [apply IH; [by apply stack_pop|cbn; lia]|].
  destruct (Z.ltb_spec (t_idx cur) (t_elements prv)); cbn [c_assert mbind outcome_bind].
  - match goal with |- fine _ _ (set_task _ _ ?t') => destruct (stack_set_top b k cur t' Hk Hr Hcur) as (k' & -> & Hk' & Hi & Hg);
      [done|by left| |] end.
    { intros Hb p _ Hp. rewrite Hprv in Hp. injection Hp as <-.
      destruct (st_idx k Hk Hb (r_ridx k) cur prv) as [Hi1 Hi2]; [lia|done|done|]. cbn. mword. }
    split; [done|]. intros t. rewrite Hi, Hg. by intros [= <-].
  - split; [done|]. destruct b; [|done]. destruct (st_idx k Hk eq_refl (r_ridx k) cur prv); [lia|done|done|lia].
Qed.

Lemma move_fine b k : stack_ok b k -> fine b (fun k => stack_ok b k /\ fresh k) (moveToNextTask k).
Proof. intros Hk. apply next_task_fine; [done|]. pose proof (st_ridx k Hk). lia. Qed.

(** ** The counts

    A count is absurd when it is positive and zero or negative as an [int].  In
    the bytes a reader has to parse no count is: neither behind a star nor, when
    the star of an array was already consumed, at their beginning. *)
Definition absurd_count (i : list Z) : Prop := 0 < ll_parse i /\ i32 (ll_parse i) <= 0.
Definition typed_array (k : redisReader) : Prop := exists t, get_task k (r_ridx k) = Ok t /\ t_type t = REDIS_REPLY_ARRAY.
Definition counts_behind (i : list Z) : Prop := forall pre post, i = pre ++ [42] ++ post -> ~ absurd_count post.
Definition counts_fit (k : redisReader) (i : list Z) : Prop := counts_behind i /\ (typed_array k -> ~ absurd_count i).

Lemma counts_behind_app i j : counts_behind (i ++ j) -> counts_behind j.
Proof. intros H pre post ->. apply (H (i ++ pre)). by rewrite <- app_assoc. Qed.

Lemma counts_behind_drop i n : counts_behind i -> counts_behind (drop n i).
Proof. intros H. apply (counts_behind_app (take n i)). by rewrite take_drop. Qed.

Lemma fresh_counts k i : fresh k -> counts_behind i -> counts_fit k i.
Proof. intros Hf Hc. split; [done|]. intros (t & Ht & Hty). apply Hf in Ht. rewrite Hty in Ht. by unfold REDIS_REPLY_ARRAY in Ht. Qed.

Section safe.
Context {W : Type} (fn : option (redisReplyObjectFunctions W)) `{!total_callbacks fn}.
#[local] Set Default Proof Using "All".

(** A complete item leaves a fresh task and a rest of the bytes [i]. *)
Definition verdict_ok (b : bool) (i : list Z) (v : verdict W) : Prop :=
  match v with
  | Complete k _ rest => stack_ok b k /\ fresh k /\ exists n, rest = drop n i
  | More k _ _ => stack_ok b k
  | Wrong _ _ => True
  end.

Lemma set_error_total k w type str : exists k' w', __redisReaderSetError fn k w type str = Ok (k', w').
Proof.
  unfold __redisReaderSetError. destruct (callback fn freeObject) as [f|] eqn:E; [|by eexists _, _].
  destruct (negb (r_reply k =? 0)); [|by eexists _, _]. destruct (total_free f E (r_reply k) w) as [w' ->]. by eexists _, _.
Qed.

Lemma oom_fine b i k w : fine b (verdict_ok b i) (spec_oom fn k w).
Proof.
  unfold spec_oom, out_of_memory, __redisReaderSetErrorOOM. destruct (set_error_total k w REDIS_ERR_OOM OOM_ERROR) as (k' & w' & ->). done.
Qed.

Lemma made_fine b i n k made : stack_ok b k -> fine b (verdict_ok b i) (spec_made fn k made (drop n i)).
Proof.
  intros Hk. unfold spec_made, spec_finish, finish_item. destruct (made.1 =? 0); [apply oom_fine|]. cbv zeta.
  assert (Hk' : stack_ok b (if r_ridx k =? 0 then k <| r_reply := made.1 |> else k)) by (destruct (r_ridx k =? 0); [by apply stack_reply|done]).
  apply move_fine in Hk'. destruct (moveToNextTask _); [|done]. destruct Hk'. cbn. eauto.
Qed.

Lemma parent_of_ok b k t : stack_ok b k -> 0 <= r_ridx k -> get_task k (r_ridx k) = Ok t -> exists p, parent_of k t = Ok p.
Proof.
  intros Hk Hr Ht. unfold parent_of. pose proof (st_ridx k Hk). rewrite (st_parent k Hk (r_ridx k) t) by (done || lia). destruct (Z.eqb_spec (r_ridx k) 0); [eauto|].
  destruct (get_task_ok k (r_ridx k - 1) (st_length k Hk)) as [p ->]; [lia|]. cbn. eauto.
Qed.

Lemma create_string_ok b k w t str d : stack_ok b k -> 0 <= r_ridx k -> get_task k (r_ridx k) = Ok t -> exists made, spec_string fn k w t str d = Ok made.
Proof.
  intros Hk Hr Ht. unfold spec_string. destruct (callback fn createString) as [f|] eqn:E; [|eauto].
  destruct (parent_of_ok b k t Hk Hr Ht) as [p ->]. cbn. destruct (total_string f E t p str w) as (o & w' & ->). eauto.
Qed.

Lemma create_nil_ok b k w t : stack_ok b k -> 0 <= r_ridx k -> get_task k (r_ridx k) = Ok t -> exists made, create_nil fn k w t = Ok made.
Proof.
  intros Hk Hr Ht. unfold create_nil. destruct (callback fn createNil) as [f|] eqn:E; [|eauto].
  destruct (parent_of_ok b k t Hk Hr Ht) as [p ->]. cbn. destruct (total_nil f E t p w) as (o & w' & ->). eauto.
Qed.

Lemma line_fine b k w t i : stack_ok b k -> 0 <= r_ridx k -> get_task k (r_ridx k) = Ok t -> fine b (verdict_ok b i) (spec_line fn k w t i).
Proof.
  intros Hk Hr Ht. unfold spec_line. destruct (find_crlf i) as [n|]; [|done].
  assert (exists made, (if t_type t =? REDIS_REPLY_INTEGER then
                match callback fn createInteger with
                | Some f => parent ← parent_of k t; f t parent (ll_parse i) w
                | None => Ok (REDIS_REPLY_INTEGER, w)
                end
              else spec_string fn k w t (take (Z.to_nat n) i) (t_type t)) = Ok made) as [made ->].
  { destruct (t_type t =? REDIS_REPLY_INTEGER); [|by apply (create_string_ok b)].
    destruct (callback fn createInteger) as [f|] eqn:E; [|eauto]. destruct (parent_of_ok b k t Hk Hr Ht) as [p ->]. cbn.
    destruct (total_integer f E t p (ll_parse i) w) as (o & w' & ->). eauto. }
  by apply made_fine.
Qed.

Lemma bulk_fine b k w t i : stack_ok b k -> 0 <= r_ridx k -> get_task k (r_ridx k) = Ok t -> fine b (verdict_ok b i) (spec_bulk fn k w t i).
Proof.
  intros Hk Hr Ht. unfold spec_bulk. destruct (find_crlf i) as [n|]; [|done]. cbv zeta. destruct (ll_parse i <? 0).
  - destruct (create_nil_ok b k w t Hk Hr Ht) as [made ->]. by apply made_fine.
  - destruct (_ <=? _); [|done]. destruct (create_string_ok b k w t (take (Z.to_nat (ll_parse i)) (drop (Z.to_nat (n + 2)) i)) REDIS_REPLY_STRING Hk Hr Ht) as [made ->].
    by apply made_fine.
Qed.

Lemma enter_fine b k t obj n : stack_ok b k -> 0 <= r_ridx k < 8 -> get_task k (r_ridx k) = Ok t -> t_type t = REDIS_REPLY_ARRAY ->
  (b = true -> 0 < n -> 0 < i32 n) ->
  fine b (fun k => stack_ok b k /\ fresh k) (enter_array k t obj n).
Proof.
  intros Hk Hr Ht Hty Hn. unfold enter_array. destruct (Z.gtb_spec n 0) as [Hpos|]; [|by apply move_fine].
  destruct (stack_set_top b k t (t <| t_elements := i32 n |> <| t_obj := obj |>) Hk) as (k1 & -> & Hk1 & Hi1 & Hg1); [lia|done|done| | |].
  { right. right. left. exact Hty. }
  { exact (stack_top_idx b k t Hk Ht). }
  cbn [mbind outcome_bind]. cbv zeta. change (r_ridx (k1 <| r_ridx := r_ridx k1 + 1 |>)) with (r_ridx k1 + 1).
  destruct (set_task_total (k1 <| r_ridx := r_ridx k1 + 1 |>) (r_ridx k1 + 1) (mkTask (-1) (-1) 0 0 (Some (r_ridx k1)))) as (k2 & -> & Hg & Hi & Hl);
    [exact (st_length k1 Hk1)|lia|]. change (r_ridx (k1 <| r_ridx := r_ridx k1 + 1 |>)) with (r_ridx k1 + 1) in Hi.
  cbn [fine]. assert (Hf : fresh k2) by (intros t'; rewrite Hi, Hg, Z.eqb_refl; by intros [= <-]).
  split; [|done]. split; rewrite ?Hi; [lia|done| | | |].
  - intros e t' He. rewrite Hg. destruct (Z.eqb_spec e (r_ridx k1 + 1)) as [->|].
    + intros [= <-]. rewrite (proj2 (Z.eqb_neq _ 0)) by lia. cbn. f_equal. lia.
    + intros Ht'. apply (st_parent k1 Hk1 e t'); [lia|exact Ht'].
  - intros e t' He. rewrite Hg, (proj2 (Z.eqb_neq e (r_ridx k1 + 1))) by lia. intros Ht'.
    change (get_task k1 e = Ok t') in Ht'. destruct (Z.eq_dec e (r_ridx k1)) as [->|]; [|apply (st_array k1 Hk1 e t'); [lia|done]].
    rewrite Hi1, Hg1 in Ht'. by injection Ht' as <-.
  - intros t'. rewrite Hg, Z.eqb_refl. intros [= <-]. left. cbn. lia.
  - intros Hb e t' p He. rewrite !Hg. rewrite (proj2 (Z.eqb_neq (e - 1) (r_ridx k1 + 1))) by lia.
    destruct (Z.eqb_spec e (r_ridx k1 + 1)) as [->|].
    + intros [= <-] Hp. replace (r_ridx k1 + 1 - 1) with (r_ridx k) in Hp by lia. change (get_task k1 (r_ridx k) = Ok p) in Hp.
      rewrite Hg1 in Hp. injection Hp as <-. cbn. specialize (Hn Hb Hpos). split; [lia|mword].
    + intros Ht' Hp. apply (st_idx k1 Hk1 Hb e t' p); [lia|exact Ht'|exact Hp].
Qed.

Lemma multi_fine b k w t i : stack_ok b k -> 0 <= r_ridx k -> get_task k (r_ridx k) = Ok t -> t_type t = REDIS_REPLY_ARRAY ->
  (b = true -> ~ absurd_count i) ->
  fine b (verdict_ok b i) (spec_multi fn k w t i).
Proof.
  intros Hk Hr Ht Hty Hc. pose proof (st_ridx k Hk). unfold spec_multi. destruct (Z.eqb_spec (r_ridx k) 8).
  { destruct (set_error_total k w REDIS_ERR_PROTOCOL DEPTH_ERROR) as (k' & w' & ->). done. }
  destruct (find_crlf i) as [n0|]; [|done]. cbv zeta.
  assert (Hroot : forall (root : bool) obj o w' n, fine b (fun k => stack_ok b k /\ fresh k) o ->
    fine b (verdict_ok b i) (k ← o; Ok (Complete (W := W) (set_root root obj k) w' (drop n i)))).
  { intros root obj [k'|] w' n1 Ho; [|done]. cbn in *. unfold set_root. destruct Ho. destruct root; [|by eauto].
    split; [by apply stack_reply|]. by eauto. }
  destruct (ll_parse i =? -1).
  - destruct (create_nil_ok b k w t Hk Hr Ht) as [[obj w'] ->]. cbn [mbind outcome_bind]. destruct (obj =? 0); [apply oom_fine|].
    apply Hroot. by apply move_fine.
  - assert (exists made, match callback fn createArray with
        | Some f => parent ← parent_of k t; f t parent (i32 (ll_parse i)) w
        | None => Ok (REDIS_REPLY_ARRAY, w) end = Ok made) as [[obj w'] ->].
    { destruct (callback fn createArray) as [f|] eqn:E; [|eauto]. destruct (parent_of_ok b k t Hk Hr Ht) as [p ->]. cbn.
      destruct (total_array f E t p (i32 (ll_parse i)) w) as (o & w' & ->). eauto. }
    cbn [mbind outcome_bind]. destruct (obj =? 0); [apply oom_fine|]. apply Hroot. apply enter_fine; [done|lia|done|done|].
    intros Hb Hpos. specialize (Hc Hb). unfold absurd_count in Hc. lia.
Qed.

Lemma typed_fine b k w t i : stack_ok b k -> 0 <= r_ridx k -> get_task k (r_ridx k) = Ok t -> is_type (t_type t) ->
  (b = true -> t_type t = REDIS_REPLY_ARRAY -> ~ absurd_count i) -> fine b (verdict_ok b i) (spec_typed fn k w i).
Proof.
  intros Hk Hr Ht Hty Hc. unfold spec_typed. rewrite Ht. cbn [mbind outcome_bind].
  destruct (_ || _) eqn:E1; [by apply line_fine|]. destruct (Z.eqb_spec (t_type t) REDIS_REPLY_STRING); [by apply bulk_fine|].
  destruct (Z.eqb_spec (t_type t) REDIS_REPLY_ARRAY); [by apply multi_fine; auto|]. exfalso.
  apply orb_false_iff in E1 as [[E1%Z.eqb_neq E2%Z.eqb_neq]%orb_false_iff E3%Z.eqb_neq]. by destruct Hty as [|[|[|[|]]]].
Qed.

Lemma reply_type_is c type : reply_type c = Some type -> is_type type /\ (type = REDIS_REPLY_ARRAY -> c = 42).
Proof.
  unfold reply_type, is_type. intros E. split; [revert E; repeat case_match; intros [= <-]; auto 6|].
  intros ->. revert E. repeat case_match; try discriminate. by intros _; apply Z.eqb_eq.
Qed.

Lemma verdict_ok_cons b c i v : verdict_ok b i v -> verdict_ok b (c :: i) v.
Proof. destruct v; [|done|done]. intros (H1 & H2 & n & ->). split; [done|]. split; [done|]. by exists (S n). Qed.

Lemma fine_mono {X} b (P Q : X -> Prop) o : (forall x, P x -> Q x) -> fine b P o -> fine b Q o.
Proof. intros H. destruct o; cbn; auto. Qed.

Lemma item_fine b k w i : stack_ok b k -> 0 <= r_ridx k -> (b = true -> counts_fit k i) -> fine b (verdict_ok b i) (spec_item fn k w i).
Proof.
  intros Hk Hr Hc. pose proof (st_ridx k Hk). destruct (get_task_ok k (r_ridx k) (st_length k Hk)) as [t Ht]; [lia|].
  destruct (Z.lt_ge_cases (t_type t) 0) as [Hneg|Hpos].
  - rewrite (spec_item_untyped fn k w i t) by done. destruct i as [|c i]; [done|]. destruct (reply_type c) as [type|] eqn:E.
    + apply reply_type_is in E as [E Harr]. destruct (stack_set_top b k t (t <| t_type := type |>) Hk Hr Ht) as (k' & -> & Hk' & Hi & Hg);
        [done|by right|exact (stack_top_idx b k t Hk Ht)|].
      cbn [mbind outcome_bind]. rewrite <- Hi in Hg. apply (fine_mono b (verdict_ok b i)); [apply verdict_ok_cons|].
      apply (typed_fine b k' w (t <| t_type := type |>) i Hk'); [lia|exact Hg|done|]. intros Hb Hty.
      assert (c = 42) as -> by (apply Harr; exact Hty). destruct (Hc Hb) as [Hc1 _]. by apply (Hc1 [] i).
    + unfold __redisReaderSetErrorProtocolByte. match goal with |- context [__redisReaderSetError fn k w ?ty ?m] => destruct (set_error_total k w ty m) as (k' & w' & ->) end. done.
  - rewrite (spec_item_typed fn k w i t) by done. apply (typed_fine b k w t i); [done|done|exact Ht| |].
    + destruct (st_type k Hk t Ht); [lia|done].
    + intros Hb Hty. destruct (Hc Hb) as [_ Hc2]. apply Hc2. by exists t.
Qed.

Lemma items_fine b f : forall k w i, stack_ok b k -> (length i < f)%nat -> (b = true -> counts_fit k i) ->
  fine b (fun v => match v with Complete k _ _ => stack_ok b k | More k _ _ => stack_ok b k | Wrong _ _ => True end) (spec_items fn f k w i).
Proof.
  induction f as [|f IH]; intros k w i Hk Hf Hc; [lia|]. cbn [spec_items]. destruct (Z.geb_spec (r_ridx k) 0); cbn [negb]; [|done].
  assert (Hi : fine b (verdict_ok b i) (spec_item fn k w i)) by (apply item_fine; [done|lia|done]).
  destruct (spec_item_app fn k w i []) as [(k' & i' & E & _)|[_ Hd]].
  - rewrite E in *. exact Hi.
  - destruct (spec_item fn k w i) as [[k' w' i'|k' w' i'|k' w']|]; cbn [mbind outcome_bind]; try exact Hi. cbn in Hd, Hi.
    destruct Hi as (Hk' & Hf' & n & ->). apply IH; [done|lia|]. intros Hb. apply fresh_counts; [done|].
    apply counts_behind_drop. by destruct (Hc Hb).
Qed.

Lemma get_fine b k w i : stack_ok b k -> (b = true -> counts_fit k i) ->
  fine b (fun v => match v with Complete k _ _ => stack_ok b k | More k _ _ => stack_ok b k | Wrong _ _ => True end) (spec_get fn k w i).
Proof.
  intros Hk Hc. unfold spec_get, start. destruct (Z.eqb_spec (r_ridx k) (-1)) as [E|]; [|apply items_fine; [done|lia|done]].
  destruct (set_task_total k 0 (mkTask (-1) (-1) (-1) 0 None) (st_length k Hk)) as (k' & -> & Hg & Hi & Hl); [lia|].
  cbn [mbind outcome_bind]. apply items_fine; [|lia|].
  - split; cbn; [lia|done| | | |].
    + intros e t He. assert (e = 0) as -> by lia. change (get_task k' 0 = Ok t -> t_parent t = None). rewrite Hg. cbn. by intros [= <-].
    + lia.
    + intros t. change (get_task k' 0 = Ok t -> t_type t < 0 \/ is_type (t_type t)). rewrite Hg. cbn. intros [= <-]. left. cbn. lia.
    + lia.
  - intros Hb. apply fresh_counts; [|by destruct (Hc Hb)]. intros t.
    change (get_task k' 0 = Ok t -> t_type t < 0). rewrite Hg. cbn. by intros [= <-].
Qed.

(** ** Claim *)

(** The reader in use: ready with some bytes unread and a good stack, or in an
    erroneous state. With [b] no absurd count has led to its stack. *)
Definition reader_ok (b : bool) (r : redisReader) : Prop := r_err r <> 0 \/ (stack_ok b r /\ exists i, ready r i).

(** What [redisReaderGetReply] does with a chunk, for either kind of stack. *)
Lemma feed_get_fine b junk r w i bs :
  stack_ok b r -> ready r i -> bs <> [] -> r_len r + zlen bs < 2 ^ 30 -> (b = true -> counts_fit r (i ++ bs)) ->
  fine b (fun x => reader_ok b x.1.1.1) (feed_get fn junk bs r w).
Proof.
  intros Hst Hready Hne Hb Hc.
  unfold feed_get. destruct (feed_ready junk r i bs Hready Hne Hb) as (r1 & -> & Hc1 & Hr1 & Hl1). cbn [mbind outcome_bind].
  assert (Hst1 : stack_ok b (core r1)) by (rewrite Hc1; by destruct Hst).
  assert (Hcc : b = true -> counts_fit (core r1) (i ++ bs)) by (rewrite Hc1; exact Hc).
  pose proof (getreply_agrees fn r1 w (i ++ bs) Hr1 Hl1) as H. pose proof (get_fine b (core r1) w (i ++ bs) Hst1 Hcc) as Hf.
  assert (Hidx : -1 <= r_ridx r1) by (pose proof (st_ridx _ Hst1); change (r_ridx (core r1)) with (r_ridx r1) in *; lia).
  destruct (spec_get fn (core r1) w (i ++ bs)) as [[k w' i'|k w' i'|k w']|e].
  - destruct (H Hidx) as (r2 & -> & Hc2 & Hr2).
    right. split; [|eauto]. apply (stack_reply b k 0) in Hf. rewrite <- Hc2 in Hf. by destruct Hf.
  - destruct (H Hidx) as (r2 & -> & Hc2 & Hr2).
    right. split; [|eauto]. cbn in Hf. rewrite <- Hc2 in Hf. by destruct Hf.
  - destruct (H Hidx) as (r2 & -> & Hc2 & He2 & _). by left.
  - by rewrite (H Hidx).
Qed.

(** C22: the reader survives its input. With callbacks that return, take a reader
    that is erroneous or has a good stack, and a non-empty chunk. Whatever the
    bytes are, [redisReaderGetReply] terminates, and but for a failed assertion it
    returns a reader in such a state again: no byte outside of the buffer is read,
    the stack of nine tasks is never left, no null pointer is used. And when no
    count in the bytes to be parsed is positive but zero or negative as an [int]
    (a header such as [*4294967296]), and none has been before, no assertion
    fails either. The reader as it is created is in a good state. *)
Theorem reader_survives (junk : Z) (r : redisReader) (w : W) (bs : list Z) :
  bs <> [] -> r_len r + zlen bs < 2 ^ 30 ->
  (reader_ok false r ->
    match feed_get fn junk bs r w with
    | Ok (r', _, _, _) => reader_ok false r'
    | Crash c => c = AssertFailed
    end) /\
  (forall i, stack_ok true r -> ready r i -> counts_fit r (i ++ bs) ->
    exists r' w' status reply, feed_get fn junk bs r w = Ok (r', w', status, reply) /\ reader_ok true r') /\
  exists r0, redisReaderCreateWithFunctions junk = Ok r0 /\ ready r0 [] /\ stack_ok true r0.
Proof.
  intros Hne Hb. split; [|split].
  - intros [Herr|(Hst & i & Hready)].
    { unfold feed_get, redisReaderFeed. rewrite (proj2 (Z.eqb_neq _ _) Herr). cbn. unfold redisReaderGetReply.
      rewrite (proj2 (Z.eqb_neq _ _) Herr). cbn. by left. }
    pose proof (feed_get_fine false junk r w i bs Hst Hready Hne Hb) as Hf. specialize (Hf ltac:(done)).
    destruct (feed_get fn junk bs r w) as [[[[r' w'] st] o]|c]; [done|]. by destruct Hf.
  - intros i Hst Hready Hc. pose proof (feed_get_fine true junk r w i bs Hst Hready Hne Hb (fun _ => Hc)) as Hf.
    destruct (feed_get fn junk bs r w) as [[[[r' w'] st] o]|c]; [|by destruct Hf]. by exists r', w', st, o.
  - destruct (created_ready junk) as (r0 & E & Hready & Hidx & _). exists r0. split; [done|]. split; [done|].
    assert (length (r_rstack r0) = 9%nat) by (by injection E as <-).
    split; [lia|done|lia|lia| |lia]. rewrite Hidx. by intros t.
Qed.
End safe.

(** A nested array in two chunks, the second of which starts behind a star. *)
Lemma reader_survives_witness :
  exists r, redisReaderCreateWithFunctions 7 = Ok r /\
    exists r' w' status reply, feed_get (W := unit) None 7 [42; 50; 13; 10; 43; 65; 13; 10; 42] r tt = Ok (r', w', status, reply) /\
      reader_ok true r'.
Proof.
  destruct (created_ready 7) as (r & E & Hready & Hidx & Hlen). exists r. split; [exact E|].
  assert (Hn : ([42; 50; 13; 10; 43; 65; 13; 10; 42] : list Z) <> []) by discriminate.
  assert (Hl : r_len r + zlen [42; 50; 13; 10; 43; 65; 13; 10; 42] < 2 ^ 30) by (rewrite Hlen; by vm_compute).
  destruct (reader_survives (W := unit) None 7 r tt [42; 50; 13; 10; 43; 65; 13; 10; 42] Hn Hl) as (_ & H & r0 & E0 & Hr0 & Hs0).
  rewrite E in E0. injection E0 as <-.
  apply (H [] Hs0 Hr0). split.
  - intros pre post Hp. unfold absurd_count.
    repeat (destruct pre as [|? pre]; [cbn in Hp; (discriminate Hp || (injection Hp as <-; vm_compute; intros [? ?]; congruence))|
      cbn in Hp; injection Hp as _ Hp || discriminate Hp]).
  - intros (t & Ht & _). rewrite Hidx in Ht. discriminate Ht.
Defined.
