(* ===== verification/RedisReply.v ===== *)
(** * redisReply

    The reply objects of [hiredis/hiredis.c]: the default callbacks of the reader
    build a tree of objects on the heap, and a reply that is encoded, fed and
    parsed becomes the tree of the reply. *)

From S2P Require Import Prelude Inet Sds RedisReader RedisParse.

(** ** Objects *)

(** [rp_str] is the string with its NUL, [rp_element] the array of pointers; [None]
    is null. *)
Record redisReply := mkReply {
  rp_type : Z; rp_integer : Z; rp_len : Z; rp_str : option (list Z);
  rp_elements : Z; rp_element : option (list Z)
}.
#[export] Instance eta_reply : Eta redisReply := fun r =>
  mkReply (rp_type r) (rp_integer r) (rp_len r) (rp_str r) (rp_elements r) (rp_element r).

(** The objects by their addresses, and the next address [calloc] returns. *)
Record heap := mkHeap { objects : gmap Z redisReply; next : Z }.

Definition deref (h : heap) (p : Z) : outcome redisReply :=
  if p =? 0 then Crash NullDeref
  else match objects h !! p with Some o => Ok o | None => Crash UseAfterFree end.
Definition store (h : heap) (p : Z) (o : redisReply) : heap := mkHeap (<[p := o]> (objects h)) (next h).

Definition createReplyObject (type : Z) (h : heap) : Z * heap :=
  (next h, mkHeap (<[next h := mkReply type 0 0 None 0 None]> (objects h)) (next h + 1)).

(** [if (task->parent)]: the new object becomes an element of its parent. *)
Definition link (task : redisReadTask) (parent : option redisReadTask) (p : Z) (h : heap) : outcome heap :=
  match parent with
  | None => Ok h
  | Some t =>
      o ← deref h (t_obj t);
      c_assert (rp_type o =? REDIS_REPLY_ARRAY) ;;
      match rp_element o with
      | None => Crash NullDeref
      | Some l => l ← elem_set l (t_idx task) p; Ok (store h (t_obj t) (o <| rp_element := Some l |>))
      end
  end.

Definition createStringObject (task : redisReadTask) (parent : option redisReadTask) (str : list Z) (h : heap) : outcome (Z * heap) :=
  let '(r, h) := createReplyObject (t_type task) h in
  c_assert ((t_type task =? REDIS_REPLY_ERROR) || (t_type task =? REDIS_REPLY_STATUS) || (t_type task =? REDIS_REPLY_STRING)) ;;
  o ← deref h r;
  h ← link task parent r (store h r (o <| rp_str := Some (str ++ [0]) |> <| rp_len := i32 (zlen str) |>));
  Ok (r, h).

Definition createArrayObject (task : redisReadTask) (parent : option redisReadTask) (elements : Z) (h : heap) : outcome (Z * heap) :=
  let '(r, h) := createReplyObject REDIS_REPLY_ARRAY h in
  o ← deref h r;
  let o := if elements >? 0 then o <| rp_element := Some (replicate (Z.to_nat elements) 0) |> else o in
  h ← link task parent r (store h r (o <| rp_elements := u64 elements |>));
  Ok (r, h).

Definition createIntegerObject (task : redisReadTask) (parent : option redisReadTask) (value : Z) (h : heap) : outcome (Z * heap) :=
  let '(r, h) := createReplyObject REDIS_REPLY_INTEGER h in
  o ← deref h r;
  h ← link task parent r (store h r (o <| rp_integer := value |>));
  Ok (r, h).

Definition createNilObject (task : redisReadTask) (parent : option redisReadTask) (h : heap) : outcome (Z * heap) :=
  let '(r, h) := createReplyObject REDIS_REPLY_NIL h in
  h ← link task parent r h;
  Ok (r, h).

(** Taking an object off the heap: an object freed before is a double free. *)
Definition free_object (p : Z) (h : heap) : outcome heap :=
  match objects h !! p with
  | Some _ => Ok (mkHeap (delete p (objects h)) (next h))
  | None => Crash DoubleFree
  end.

(** The loop over the elements, [n] of them from index [j]. *)
Fixpoint free_elements (free : Z -> heap -> outcome heap) (l : list Z) (j : Z) (n : nat) (h : heap) : outcome heap :=
  match n with
  | O => Ok h
  | S n =>
      p ← elem_at l j;
      h ← (if p =? 0 then Ok h else free p h);
      free_elements free l (j + 1) n h
  end.

Fixpoint freeReplyObject (fuel : nat) (reply : Z) (h : heap) : outcome heap :=
  match fuel with
  | O => Crash OutOfFuel
  | S fuel =>
      if reply =? 0 then Ok h else
      r ← deref h reply;
      h ← (if rp_type r =? REDIS_REPLY_ARRAY then
             match rp_element r with
             | Some l => free_elements (freeReplyObject fuel) l 0 (Z.to_nat (rp_elements r)) h
             | None => Ok h
             end
           else Ok h);
      free_object reply h
  end.

(** [defaultFunctions]; replies nest nine deep at most. *)
Definition defaultFunctions : redisReplyObjectFunctions heap :=
  mkFunctions (Some createStringObject) (Some createArrayObject) (Some createIntegerObject)
    (Some createNilObject) (Some (freeReplyObject 10)).

Definition redisReaderCreate (junk : Z) : outcome redisReader := redisReaderCreateWithFunctions junk.

(** ** The protocol *)

#[warnings="-register-all"] Inductive reply :=
| RString (s : list Z)
| RStatus (s : list Z)
| RError (s : list Z)
| RInteger (z : Z)
| RNil
| RArray (l : list reply).

Definition CRLF : list Z := [13; 10].

(** What the server sends. *)
Fixpoint encode (v : reply) : list Z :=
  match v with
  | RString s => [36] ++ sdsll2str (zlen s) ++ CRLF ++ s ++ CRLF
  | RStatus s => [43] ++ s ++ CRLF
  | RError s => [45] ++ s ++ CRLF
  | RInteger z => [58] ++ sdsll2str z ++ CRLF
  | RNil => [36] ++ sdsll2str (-1) ++ CRLF
  | RArray l => [42] ++ sdsll2str (zlen l) ++ CRLF ++ concat (encode <$> l)
  end.

Example reader_1 :
  (r ← redisReaderCreate 7;
   '(r, _) ← redisReaderFeed 7 r (Some (encode (RArray [RString [104; 105]; RInteger (-5); RArray [RNil; RStatus [79; 75]]; RArray []])));
   '(r, h, status, p) ← redisReaderGetReply (Some defaultFunctions) true r (mkHeap ∅ 1);
   o ← deref h p; Ok (status, p, rp_element o, r_pos r)) = Ok (0, 1, Some [2; 3; 4; 7], 35).
Proof. vm_compute. reflexivity. Qed.

(** ** Numbers

    [readLongLong] reads back what [sdsll2str] prints. *)

Definition digits_value (ds : list Z) (v : Z) : Z := foldl (fun a c => a * 10 + (c - 48)) v ds.
Definition is_digit (c : Z) : Prop := 48 <= c < 58.

Lemma digits_value_affine ds v : digits_value ds v = v * 10 ^ zlen ds + digits_value ds 0.
Proof.
  revert v. induction ds as [|c ds IH]; intros v; cbn [digits_value foldl].
  { change (zlen (@nil Z)) with 0. lia. }
  unfold digits_value in IH. rewrite (IH (v * 10 + (c - 48))), (IH (0 * 10 + (c - 48))), zlen_cons, Z.pow_add_r by (pose proof (zlen_nonneg ds); lia).
  change (10 ^ 1) with 10. lia.
Qed.

Lemma digits_value_snoc ds c v : digits_value (ds ++ [c]) v = digits_value ds v * 10 + (c - 48).
Proof. unfold digits_value. by rewrite foldl_app. Qed.

Lemma i64_period z k : i64 (z + k * 2 ^ 64) = i64 z.
Proof. unfold i64. replace (z + k * 2 ^ 64 + 2 ^ 63) with (z + 2 ^ 63 + k * 2 ^ 64) by lia. by rewrite Z.mod_add. Qed.

Lemma i64_shift z : exists k, i64 z = z + k * 2 ^ 64.
Proof. exists (- ((z + 2 ^ 63) / 2 ^ 64)). unfold i64. rewrite Z.mod_eq by done. lia. Qed.

Lemma ll_value_digits ds k : forall v mult, Forall is_digit ds ->
  ll_value (ds ++ 13 :: k) v mult = i64 (mult * digits_value ds v).
Proof.
  induction ds as [|c ds IH]; intros v mult Hds; cbn [Datatypes.app ll_value]; [done|].
  apply Forall_cons in Hds as [Hc Hds]. unfold is_digit in Hc. rewrite (proj2 (Z.eqb_neq c 13)) by lia.
  rewrite (proj2 (Z.geb_le _ _)), (proj2 (Z.ltb_lt _ _)) by lia. cbn [andb]. rewrite IH by done.
  cbn [digits_value foldl]. rewrite (digits_value_affine ds (i64 _)). change (foldl _ ?x ds) with (digits_value ds x).
  rewrite (digits_value_affine ds (v * 10 + (c - 48))).
  destruct (i64_shift (i64 (v * 10) + (c - 48))) as [a ->], (i64_shift (v * 10)) as [b ->].
  rewrite <- (i64_period (mult * ((v * 10 + (c - 48)) * 10 ^ zlen ds + digits_value ds 0)) (mult * (a + b) * 10 ^ zlen ds)). f_equal. lia.
Qed.

Lemma rev_digits_spec fuel : forall v, 0 <= v < 10 ^ Z.of_nat (S fuel) ->
  Forall is_digit (rev_digits (S fuel) v) /\ digits_value (reverse (rev_digits (S fuel) v)) 0 = v /\
  zlen (rev_digits (S fuel) v) <= Z.of_nat (S fuel).
Proof.
  induction fuel as [|fuel IH]; intros v Hv.
  - cbn [rev_digits]. change (10 ^ Z.of_nat 1) with 10 in Hv. rewrite (Z.div_small v 10), (Z.mod_small v 10) by lia. cbn [Z.eqb].
    split_and!; [repeat constructor; lia| |done]. change (0 * 10 + (48 + v - 48) = v). lia.
  - change (rev_digits (S (S fuel)) v) with ((48 + v `mod` 10) :: (if v `div` 10 =? 0 then [] else rev_digits (S fuel) (v `div` 10))).
    assert (Hm : 0 <= v `mod` 10 < 10) by (apply Z.mod_pos_bound; lia). pose proof (Z.div_mod v 10).
    destruct (Z.eqb_spec (v `div` 10) 0) as [E|E].
    + split_and!; [repeat constructor; lia| |change (zlen [48 + v `mod` 10]) with 1; lia].
      change (0 * 10 + (48 + v `mod` 10 - 48) = v). lia.
    + destruct (IH (v `div` 10)) as (H1 & H2 & H3).
      { split; [apply Z.div_pos; lia|]. apply Z.div_lt_upper_bound; [lia|]. rewrite Nat2Z.inj_succ, Z.pow_succ_r in Hv by lia. lia. }
      split_and!; [constructor; [unfold is_digit; lia|done]| |rewrite zlen_cons; lia].
      rewrite reverse_cons, digits_value_snoc, H2. lia.
Qed.

Lemma u64_digits v : 0 <= v < 2 ^ 64 ->
  Forall is_digit (sdsull2str v) /\ digits_value (sdsull2str v) 0 = v /\ zlen (sdsull2str v) <= 20.
Proof.
  intros Hv. unfold sdsull2str. destruct (rev_digits_spec 19 v) as (H1 & H2 & H3); [change (10 ^ Z.of_nat 20) with 100000000000000000000; lia|].
  split_and!; [by apply Forall_reverse|done|]. unfold zlen in *. by rewrite length_reverse.
Qed.

Lemma digits_no_cr ds : Forall is_digit ds -> 13 ∉ ds.
Proof. intros Hds Hin. rewrite Forall_forall in Hds. apply Hds in Hin. unfold is_digit in Hin. lia. Qed.

(** What [sdsll2str] prints: the digits of the absolute value behind a sign. *)
Lemma sdsll2str_shape z : - 2 ^ 63 <= z < 2 ^ 63 ->
  exists ds, sdsll2str z = (if z <? 0 then [45] else []) ++ ds /\ Forall is_digit ds /\ ds <> [] /\ digits_value ds 0 = Z.abs z.
Proof.
  intros Hz. exists (sdsull2str (Z.abs z)). unfold sdsll2str. rewrite reverse_app.
  destruct (u64_digits (Z.abs z)) as (H1 & H2 & H3); [lia|]. split_and!; [|done| |done].
  - destruct (Z.ltb_spec z 0).
    + assert (u64 (- z) = Z.abs z) as -> by mword. done.
    + rewrite Z.abs_eq by done. done.
  - intros E. unfold sdsull2str in E. apply (f_equal length) in E. by rewrite length_reverse in E.
Qed.

Lemma ll_parse_ll2str z k : - 2 ^ 63 <= z < 2 ^ 63 -> ll_parse (sdsll2str z ++ 13 :: k) = z.
Proof.
  intros Hz. destruct (sdsll2str_shape z Hz) as (ds & -> & Hds & Hne & Hv). rewrite <- app_assoc.
  assert (Hi : forall mult, mult * Z.abs z = z -> ll_value (ds ++ 13 :: k) 0 mult = z).
  { intros mult Hm. rewrite ll_value_digits, Hv, Hm by done. mword. }
  destruct (Z.ltb_spec z 0); [apply Hi; lia|].
  cbn [Datatypes.app]. destruct ds as [|c ds]; [done|]. cbn [ll_parse Datatypes.app].
  apply Forall_cons in Hds as [Hc _]. unfold is_digit in Hc.
  rewrite (proj2 (Z.eqb_neq c 45)), (proj2 (Z.eqb_neq c 43)) by lia. apply (Hi 1). lia.
Qed.

Lemma ll2str_no_cr z : - 2 ^ 63 <= z < 2 ^ 63 -> 13 ∉ sdsll2str z.
Proof.
  intros Hz. destruct (sdsll2str_shape z Hz) as (ds & -> & Hds & _). intros [Hin|Hin]%elem_of_app; [|by eapply digits_no_cr].
  destruct (z <? 0); [apply list_elem_of_singleton in Hin; lia|by apply not_elem_of_nil in Hin].
Qed.

(** The line of a number. *)
Lemma number_line z k : - 2 ^ 63 <= z < 2 ^ 63 ->
  find_crlf (sdsll2str z ++ CRLF ++ k) = Some (zlen (sdsll2str z)) /\ ll_parse (sdsll2str z ++ CRLF ++ k) = z.
Proof.
  intros Hz. split; [|by apply (ll_parse_ll2str z (10 :: k))]. rewrite find_crlf_no_cr by (by apply ll2str_no_cr).
  change (find_crlf (CRLF ++ k)) with (Some 0). cbn. f_equal. lia.
Qed.

(** ** Replies on the heap *)

Section reply_induction.
Context (P : reply -> Prop) (HString : forall s, P (RString s)) (HStatus : forall s, P (RStatus s))
  (HError : forall s, P (RError s)) (HInteger : forall z, P (RInteger z)) (HNil : P RNil)
  (HArray : forall l, Forall P l -> P (RArray l)).

Fixpoint reply_nested_ind (v : reply) : P v :=
  match v with
  | RString s => HString s
  | RStatus s => HStatus s
  | RError s => HError s
  | RInteger z => HInteger z
  | RNil => HNil
  | RArray l => HArray l ((fix all (l : list reply) : Forall P l :=
      match l with [] => @List.Forall_nil _ P | v :: l => @List.Forall_cons _ P v l (reply_nested_ind v) (all l) end) l)
  end.
End reply_induction.

(** A reply the protocol can express at depth [d]: arrays at the depths 0 to 7,
    lines without carriage returns, lengths a C int holds. *)
Fixpoint fits (d : Z) (v : reply) : Prop :=
  match v with
  | RString s => zlen s < 2 ^ 31
  | RStatus s | RError s => 13 ∉ s
  | RInteger z => - 2 ^ 63 <= z < 2 ^ 63
  | RNil => True
  | RArray l => d <= 7 /\ zlen l < 2 ^ 31 /\ foldr (fun v P => fits (d + 1) v /\ P) True l
  end.

(** The object at [p] is [v], and its objects are the addresses from [lo] up to
    [hi], in the order of the reply: none is shared. *)
Fixpoint represents (lo hi : Z) (h : gmap Z redisReply) (v : reply) (p : Z) : Prop :=
  p = lo /\
  match v with
  | RString s => hi = lo + 1 /\ h !! p = Some (mkReply REDIS_REPLY_STRING 0 (i32 (zlen s)) (Some (s ++ [0])) 0 None)
  | RStatus s => hi = lo + 1 /\ h !! p = Some (mkReply REDIS_REPLY_STATUS 0 (i32 (zlen s)) (Some (s ++ [0])) 0 None)
  | RError s => hi = lo + 1 /\ h !! p = Some (mkReply REDIS_REPLY_ERROR 0 (i32 (zlen s)) (Some (s ++ [0])) 0 None)
  | RInteger z => hi = lo + 1 /\ h !! p = Some (mkReply REDIS_REPLY_INTEGER z 0 None 0 None)
  | RNil => hi = lo + 1 /\ h !! p = Some (mkReply REDIS_REPLY_NIL 0 0 None 0 None)
  | RArray l => exists ps,
      h !! p = Some (mkReply REDIS_REPLY_ARRAY 0 0 None (zlen l) (if decide (ps = []) then None else Some ps)) /\
      (fix all (lo : Z) (l : list reply) (ps : list Z) : Prop :=
         match l, ps with
         | [], [] => lo = hi
         | v :: l, p :: ps => exists mid, represents lo mid h v p /\ all mid l ps
         | _, _ => False
         end) (lo + 1) l ps
  end.

(** The elements of an array, one behind the other. *)
Fixpoint chain (h : gmap Z redisReply) (lo hi : Z) (l : list reply) (ps : list Z) : Prop :=
  match l, ps with
  | [], [] => lo = hi
  | v :: l, p :: ps => exists mid, represents lo mid h v p /\ chain h mid hi l ps
  | _, _ => False
  end.

Lemma represents_array lo hi h l p :
  represents lo hi h (RArray l) p <-> p = lo /\ exists ps,
    h !! p = Some (mkReply REDIS_REPLY_ARRAY 0 0 None (zlen l) (if decide (ps = []) then None else Some ps)) /\
    chain h (lo + 1) hi l ps.
Proof.
  cbn [represents]. assert (Hall : forall ps lo, (fix all (lo : Z) (l : list reply) (ps : list Z) : Prop :=
         match l, ps with
         | [], [] => lo = hi
         | v :: l, p :: ps => exists mid, represents lo mid h v p /\ all mid l ps
         | _, _ => False
         end) lo l ps <-> chain h lo hi l ps).
  { induction l as [|v l IH]; intros [|q ps] lo'; try done. cbn [chain]. by setoid_rewrite IH. }
  by setoid_rewrite Hall.
Qed.

Lemma represents_lt v : forall lo hi h p, represents lo hi h v p -> lo < hi.
Proof.
  induction v using reply_nested_ind; intros lo hi h p.
  1-5: cbn [represents]; intros (_ & -> & _); lia.
  rewrite represents_array. intros (_ & ps & _ & Hc). cut (lo + 1 <= hi); [lia|].
  revert Hc. generalize (lo + 1). intros lo'. revert ps lo'. induction H as [|v l Hv _ IH]; intros [|q ps] lo'; try done; cbn [chain].
  - lia.
  - intros (mid & Hr & Hc). apply IH in Hc. apply Hv in Hr. lia.
Qed.

Lemma chain_le h l : forall ps lo hi, chain h lo hi l ps -> lo <= hi.
Proof.
  induction l as [|v l IH]; intros [|q ps] lo hi; try done; cbn [chain]; [lia|].
  intros (mid & Hr & Hc). apply IH in Hc. apply represents_lt in Hr. lia.
Qed.

Lemma represents_frame lo hi h h' v p : (forall x, lo <= x < hi -> h' !! x = h !! x) ->
  represents lo hi h v p -> represents lo hi h' v p.
Proof.
  revert lo hi p. induction v using reply_nested_ind; intros lo hi p Hh.
  1-5: cbn [represents]; intros (-> & -> & Ho); rewrite Hh by lia; done.
  rewrite !represents_array. intros (-> & ps & Ho & Hps). split; [done|]. exists ps.
  rewrite Hh by (apply chain_le in Hps; lia). split; [done|].
  assert (Hh' : forall x, lo + 1 <= x < hi -> h' !! x = h !! x) by (intros; apply Hh; lia).
  clear Ho Hh. revert Hh' Hps. generalize (lo + 1). intros lo'. revert ps lo'.
  induction H as [|v l Hv _ IH]; intros [|q ps] lo' Hh; try done; cbn [chain].
  intros (mid & Hr & Hc). exists mid. pose proof (chain_le _ _ _ _ _ Hc). pose proof (represents_lt _ _ _ _ _ Hr). split.
  - apply (Hv lo' mid q); [|done]. intros; apply Hh; lia.
  - apply IH; [|done]. intros; apply Hh; lia.
Qed.

Lemma chain_frame h h' l : forall ps lo hi, (forall x, lo <= x < hi -> h' !! x = h !! x) -> chain h lo hi l ps -> chain h' lo hi l ps.
Proof.
  induction l as [|v l IH]; intros [|q ps] lo hi Hh; try done; cbn [chain].
  intros (mid & Hr & Hc). exists mid. pose proof (chain_le _ _ _ _ _ Hc). pose proof (represents_lt _ _ _ _ _ Hr). split.
  - eapply represents_frame; [|done]. intros; apply Hh; lia.
  - eapply IH; [|done]. intros; apply Hh; lia.
Qed.

Lemma fits_array d l : fits d (RArray l) <-> d <= 7 /\ zlen l < 2 ^ 31 /\ Forall (fits (d + 1)) l.
Proof.
  cbn [fits]. assert (foldr (fun v P => fits (d + 1) v /\ P) True l <-> Forall (fits (d + 1)) l) as ->; [|done].
  induction l as [|v l IH]; cbn; [split; constructor|]. rewrite IH. split; [intros []; by constructor|intros H; by inversion H].
Qed.

(** ** Creating an object

    [q] is the parent object and [j] the index of the element there. *)
Definition linked (h : heap) (q : option Z) (j : Z) : Prop :=
  match q with
  | None => True
  | Some a => exists o l, objects h !! a = Some o /\ rp_type o = REDIS_REPLY_ARRAY /\ rp_element o = Some l /\
      0 <= j < zlen l /\ 0 < a < next h
  end.

(** From [h] to [h'] the parent got [p]; other objects of [h] are as they were. *)
Definition relinked (h h' : heap) (q : option Z) (j p : Z) : Prop :=
  next h <= next h' /\
  (forall x, x < next h \/ next h' <= x -> Some x <> q -> objects h' !! x = objects h !! x) /\
  match q with
  | None => True
  | Some a => forall o l, objects h !! a = Some o -> rp_element o = Some l ->
      objects h' !! a = Some (o <| rp_element := Some (<[Z.to_nat j := p]> l) |>)
  end.

Lemma link_spec task parent h q o :
  (t_obj <$> parent) = q -> 0 < next h -> linked h q (t_idx task) ->
  exists h', link task parent (next h) (mkHeap (<[next h := o]> (objects h)) (next h + 1)) = Ok h' /\
    relinked h h' q (t_idx task) (next h) /\ objects h' !! next h = Some o /\ next h' = next h + 1.
Proof.
  intros <- Hn Hl. destruct parent as [t|]; cbn [fmap option_fmap option_map linked relinked link] in *.
  - destruct Hl as (ob & l & Hob & Ht & Hel & Hj & Ha). unfold deref. cbn [objects].
    rewrite (proj2 (Z.eqb_neq _ _)) by lia. rewrite lookup_insert_ne, Hob by lia. cbn [mbind outcome_bind].
    rewrite Ht. cbn [Z.eqb Pos.eqb c_assert mbind outcome_bind]. rewrite Hel. unfold elem_set.
    rewrite (proj2 (Z.leb_le _ _)), (proj2 (Z.ltb_lt _ _)) by lia. cbn [andb mbind outcome_bind]. eexists. split; [done|].
    unfold store, relinked. cbn [objects next]. split_and!; [lia| | |by rewrite lookup_insert_ne, lookup_insert_eq by lia|done].
    + intros x Hx Hne. cbn [next] in Hx. rewrite !lookup_insert_ne; [done|lia|congruence].
    + intros o' l' Ho' Hl'. rewrite lookup_insert_eq. assert (o' = ob) as -> by congruence. assert (l' = l) as -> by congruence. done.
  - eexists. split; [done|]. unfold relinked. cbn [objects next]. split_and!; [lia| |done|by rewrite lookup_insert_eq|done].
    intros x Hx _. cbn [next] in Hx. rewrite lookup_insert_ne; [done|lia].
Qed.

Lemma store_new h p o o' : store (mkHeap (<[p := o]> (objects h)) (next h + 1)) p o' = mkHeap (<[p := o']> (objects h)) (next h + 1).
Proof. unfold store. cbn [objects next]. by rewrite insert_insert_eq. Qed.

Lemma deref_new h o : 0 < next h -> deref (mkHeap (<[next h := o]> (objects h)) (next h + 1)) (next h) = Ok o.
Proof. intros. unfold deref. cbn [objects]. rewrite (proj2 (Z.eqb_neq _ _)) by lia. by rewrite lookup_insert_eq. Qed.

(** ** Steps of the parser *)

Abbreviation fn := (Some defaultFunctions).

Inductive parses : redisReader -> heap -> list Z -> redisReader -> heap -> list Z -> Prop :=
| parses_refl k h i : parses k h i k h i
| parses_step k h i k1 h1 i1 k2 h2 i2 :
    0 <= r_ridx k -> spec_item fn k h i = Ok (Complete k1 h1 i1) -> parses k1 h1 i1 k2 h2 i2 -> parses k h i k2 h2 i2.

Lemma parses_trans k h i k1 h1 i1 k2 h2 i2 : parses k h i k1 h1 i1 -> parses k1 h1 i1 k2 h2 i2 -> parses k h i k2 h2 i2.
Proof. induction 1; [done|]. intros. eapply parses_step; eauto. Qed.

Lemma parses_items k h i k2 h2 i2 : parses k h i k2 h2 i2 ->
  forall f f', (length i < f)%nat -> (length i2 < f')%nat -> spec_items fn f k h i = spec_items fn f' k2 h2 i2.
Proof.
  induction 1 as [|k h i k1 h1 i1 k2 h2 i2 Hk E _ IH]; intros f f' Hf Hf'; [by apply spec_items_fuel|].
  destruct f as [|f]; [lia|]. cbn [spec_items]. rewrite (proj2 (Z.geb_le _ _)) by lia. cbn [negb]. rewrite E. cbn [mbind outcome_bind].
  apply IH; [|done]. destruct (spec_item_app fn k h i []) as [(k' & i' & E' & _)|[_ Hd]]; [congruence|].
  rewrite E in Hd. cbn in Hd. lia.
Qed.

(** The parser is about to read a value at depth [d]: the task there has index
    [j], and its parent is the object [q]. *)
Record slot (k : redisReader) (d : Z) (j : Z) (q : option Z) (t : redisReadTask) : Prop := {
  slot_depth : 0 <= d <= 8;
  slot_ridx : r_ridx k = d;
  slot_length : length (r_rstack k) = 9%nat;
  slot_task : get_task k d = Ok t;
  slot_idx : t_idx t = j;
  slot_parent : exists parent, parent_of k t = Ok parent /\ t_obj <$> parent = q;
  slot_below : forall i, t_parent t = Some i -> 0 <= i < d
}.

(** The task at depth [d] is done, with the object [p]: the tasks below are those
    of [k]. *)
Record finished (k km : redisReader) (d j p : Z) : Prop := {
  fin_ridx : r_ridx km = d;
  fin_length : length (r_rstack km) = 9%nat;
  fin_task : exists t tm, get_task k d = Ok t /\ get_task km d = Ok tm /\ t_idx tm = t_idx t /\ t_parent tm = t_parent t;
  fin_below : forall e, e < d -> get_task km e = get_task k e;
  fin_reply : r_reply km = if d =? 0 then p else r_reply k;
  fin_err : r_err km = r_err k
}.

Lemma get_task_set k d t k' : set_task k d t = Ok k' ->
  (forall e, get_task k' e = if e =? d then Ok t else get_task k e) /\ r_ridx k' = r_ridx k /\
  length (r_rstack k') = length (r_rstack k) /\ r_reply k' = r_reply k /\ r_err k' = r_err k.
Proof.
  unfold set_task, get_task, elem_set, elem_at. destruct (_ && _) eqn:E; [|done]. intros [= <-]. cbn.
  apply andb_true_iff in E as [E1%Z.leb_le E2%Z.ltb_lt]. rewrite length_insert. split_and!; [|done..].
  intros e. destruct (Z.ltb_spec e 0); [by rewrite (proj2 (Z.eqb_neq e d)) by lia|].
  destruct (Z.eqb_spec e d) as [->|].
  - rewrite list_lookup_insert_eq; [done|]. unfold zlen in E2. lia.
  - by rewrite list_lookup_insert_ne by lia.
Qed.

Lemma set_task_ok k d t : 0 <= d -> d < zlen (r_rstack k) -> exists k', set_task k d t = Ok k'.
Proof. intros. unfold set_task, elem_set. rewrite (proj2 (Z.leb_le _ _)), (proj2 (Z.ltb_lt _ _)) by done. cbn. eauto. Qed.

(** The task gets its type. *)
Lemma slot_typed k d j q t c type i h :
  slot k d j q t -> t_type t = -1 -> reply_type c = Some type ->
  exists k1, spec_item fn k h (c :: i) = spec_typed fn k1 h i /\ slot k1 d j q (t <| t_type := type |>) /\
    (forall e, e <> d -> get_task k1 e = get_task k e) /\ r_reply k1 = r_reply k /\ r_err k1 = r_err k.
Proof.
  intros [Hd Hr Hlen Ht Hj (parent & Hpar & Hq) Hb] Htype Hc.
  destruct (set_task_ok k d (t <| t_type := type |>)) as [k1 E]; [lia|unfold zlen; lia|]. exists k1.
  destruct (get_task_set _ _ _ _ E) as (Hget & Hr1 & Hl1 & Hrep & Herr). split.
  { rewrite (spec_item_untyped fn k h _ t); [|by rewrite Hr|lia]. by rewrite Hc, Hr, E. }
  split; [|split_and!; [|done|done]; intros e He; by rewrite Hget, (proj2 (Z.eqb_neq e d))].
  split; [done|congruence|congruence| |done| |done].
  - by rewrite Hget, Z.eqb_refl.
  - exists parent. split; [|done]. unfold parent_of in *. change (t_parent (t <| t_type := type |>)) with (t_parent t).
    destruct (t_parent t) as [e|] eqn:Ee; [|done]. specialize (Hb e eq_refl). by rewrite Hget, (proj2 (Z.eqb_neq e d)) by lia.
Qed.

Lemma move_finish k obj h rest k' :
  moveToNextTask (if r_ridx k =? 0 then k <| r_reply := obj |> else k) = Ok k' -> obj <> 0 ->
  spec_made fn k (obj, h) rest = Ok (Complete k' h rest).
Proof.
  intros E Hobj. unfold spec_made. cbn [fst snd]. rewrite (proj2 (Z.eqb_neq _ _) Hobj). unfold spec_finish, finish_item. cbv zeta. by rewrite E.
Qed.

(** What is left to show for a value without elements: its item makes the object
    and goes on. *)
Lemma finished_atom k k1 d j q t type p :
  slot k d j q t -> slot k1 d j q (t <| t_type := type |>) -> (forall e, e <> d -> get_task k1 e = get_task k e) ->
  r_reply k1 = r_reply k -> r_err k1 = r_err k ->
  finished k (if r_ridx k1 =? 0 then k1 <| r_reply := p |> else k1) d j p.
Proof.
  intros [Hd Hr Hlen Ht Hj _ _] [_ Hr1 Hlen1 Ht1 _ _ _] Hother Hrep Herr. rewrite Hr1.
  assert (Hg : forall e, get_task (if d =? 0 then k1 <| r_reply := p |> else k1) e = get_task k1 e) by (by destruct (d =? 0)).
  split.
  - by destruct (d =? 0).
  - by destruct (d =? 0).
  - exists t, (t <| t_type := type |>). by rewrite Hg.
  - intros e He. rewrite Hg. apply Hother. lia.
  - destruct (d =? 0); [done|congruence].
  - by destruct (d =? 0).
Qed.

(** The result of parsing a value at depth [d]: it is made at [p], between the
    addresses [next h] and [next h'], and the parser goes on with the next task. *)
Definition value_parsed (v : reply) (k : redisReader) (h : heap) (d j : Z) (q : option Z) (i : list Z) : Prop :=
  exists km h' p, finished k km d j p /\ represents (next h) (next h') (objects h') v p /\ relinked h h' q j p /\
    (forall k', moveToNextTask km = Ok k' -> exists k'', parses k h (encode v ++ i) k'' h' i /\ k'' = k').

(** The objects made for values without elements. *)
Lemma value_atom (v : reply) (c type : Z) (body : list Z) o k h d j q t i :
  slot k d j q t -> t_type t = -1 -> 0 < next h -> linked h q j ->
  encode v = c :: body -> reply_type c = Some type ->
  represents (next h) (next h + 1) (<[next h := o]> (objects h)) v (next h) ->
  (forall k1, slot k1 d j q (t <| t_type := type |>) ->
     spec_typed fn k1 h (body ++ i) =
       (parent ← parent_of k1 (t <| t_type := type |>);
        h' ← link (t <| t_type := type |>) parent (next h) (mkHeap (<[next h := o]> (objects h)) (next h + 1));
        spec_made fn k1 (next h, h') i)) ->
  value_parsed v k h d j q i.
Proof.
  intros Hs Htype Hn Hl Henc Hc Hrep Hspec.
  destruct (slot_typed k d j q t c type (body ++ i) h Hs Htype Hc) as (k1 & E & Hs1 & Hother & Hreply & Herr).
  destruct (slot_parent _ _ _ _ _ Hs1) as (parent & Hpar & Hq). specialize (Hspec k1 Hs1). rewrite Hpar in Hspec. cbn [mbind outcome_bind] in Hspec.
  pose proof (slot_idx _ _ _ _ _ Hs1) as Hj.
  destruct (link_spec (t <| t_type := type |>) parent h q o) as (h' & Elink & Hre & Ho & Hnx); [done|done|by rewrite Hj|].
  rewrite Elink in Hspec. cbn [mbind outcome_bind] in Hspec. rewrite Hj in Hre.
  exists (if r_ridx k1 =? 0 then k1 <| r_reply := next h |> else k1), h', (next h).
  split; [by eapply finished_atom|]. split; [|split; [done|]].
  - rewrite Hnx. eapply represents_frame; [|exact Hrep]. intros x Hx. assert (x = next h) as -> by lia.
    by rewrite Ho, lookup_insert_eq.
  - intros k' Ek'. exists k'. split; [|done]. eapply parses_step; [|..|apply parses_refl].
    + rewrite (slot_ridx _ _ _ _ _ Hs). apply (slot_depth _ _ _ _ _ Hs).
    + rewrite Henc. change ((c :: body) ++ i) with (c :: (body ++ i)). rewrite E, Hspec. apply move_finish; [done|lia].
Qed.

Lemma spec_typed_task k h i d j q t : slot k d j q t ->
  spec_typed fn k h i =
    if (t_type t =? REDIS_REPLY_ERROR) || (t_type t =? REDIS_REPLY_STATUS) || (t_type t =? REDIS_REPLY_INTEGER)
    then spec_line fn k h t i
    else if t_type t =? REDIS_REPLY_STRING then spec_bulk fn k h t i
    else if t_type t =? REDIS_REPLY_ARRAY then spec_multi fn k h t i
    else Crash AssertFailed.
Proof. intros [Hd Hr Hlen Ht _ _ _]. unfold spec_typed. rewrite Hr, Ht. done. Qed.

Lemma create_string_new t parent str h : 0 < next h ->
  (t_type t =? REDIS_REPLY_ERROR) || (t_type t =? REDIS_REPLY_STATUS) || (t_type t =? REDIS_REPLY_STRING) = true ->
  createStringObject t parent str h =
    (h' ← link t parent (next h) (mkHeap (<[next h := mkReply (t_type t) 0 (i32 (zlen str)) (Some (str ++ [0])) 0 None]> (objects h)) (next h + 1));
     Ok (next h, h')).
Proof.
  intros Hn Ht. unfold createStringObject, createReplyObject. rewrite Ht. cbn [c_assert mbind outcome_bind].
  rewrite deref_new by done. cbn [mbind outcome_bind]. by rewrite store_new.
Qed.

(** The default callbacks. *)
Lemma spec_string_default k h cur str default :
  spec_string fn k h cur str default = (parent ← parent_of k cur; createStringObject cur parent str h).
Proof. done. Qed.
Lemma create_nil_default k h cur : create_nil fn k h cur = (parent ← parent_of k cur; createNilObject cur parent h).
Proof. done. Qed.

Lemma line_value (v : reply) (c type : Z) (s : list Z) k h d j q t i :
  slot k d j q t -> t_type t = -1 -> 0 < next h -> linked h q j -> 13 ∉ s ->
  encode v = c :: s ++ CRLF -> reply_type c = Some type -> type = REDIS_REPLY_STATUS \/ type = REDIS_REPLY_ERROR ->
  (forall h p, h !! p = Some (mkReply type 0 (i32 (zlen s)) (Some (s ++ [0])) 0 None) -> represents p (p + 1) h v p) ->
  value_parsed v k h d j q i.
Proof.
  intros Hs Htype Hn Hl Hcr Henc Hc Ht Hrep.
  apply (value_atom v c type (s ++ CRLF) (mkReply type 0 (i32 (zlen s)) (Some (s ++ [0])) 0 None) k h d j q t); try done.
  { apply Hrep. by rewrite lookup_insert_eq. }
  intros k1 Hs1. rewrite (spec_typed_task k1 h _ d j q _ Hs1). change (t_type (t <| t_type := type |>)) with type.
  assert ((type =? REDIS_REPLY_ERROR) || (type =? REDIS_REPLY_STATUS) || (type =? REDIS_REPLY_INTEGER) = true) as -> by (by destruct Ht as [-> | ->]).
  unfold spec_line. rewrite <- app_assoc, find_crlf_no_cr by done. change (find_crlf (CRLF ++ i)) with (Some 0).
  cbn [fmap option_fmap option_map]. change (t_type (t <| t_type := type |>)) with type.
  assert ((type =? REDIS_REPLY_INTEGER) = false) as -> by (by destruct Ht as [-> | ->]).
  rewrite Z.add_0_r. assert (take (Z.to_nat (zlen s)) (s ++ CRLF ++ i) = s) as -> by (unfold zlen; by rewrite Nat2Z.id, take_app_length).
  rewrite spec_string_default.
  assert (drop (Z.to_nat (zlen s + 2)) (s ++ CRLF ++ i) = i) as ->.
  { rewrite app_assoc, drop_app_length'; [done|]. rewrite length_app. unfold zlen, CRLF. cbn [length]. lia. }
  destruct (parent_of k1 _) as [parent|]; cbn [mbind outcome_bind]; [|done].
  rewrite create_string_new; [|done|by destruct Ht as [-> | ->]]. change (t_type (t <| t_type := type |>)) with type.
  by destruct (link _ _ _ _).
Qed.

Lemma integer_value z k h d j q t i :
  slot k d j q t -> t_type t = -1 -> 0 < next h -> linked h q j -> - 2 ^ 63 <= z < 2 ^ 63 ->
  value_parsed (RInteger z) k h d j q i.
Proof.
  intros Hs Htype Hn Hl Hz.
  apply (value_atom (RInteger z) 58 REDIS_REPLY_INTEGER (sdsll2str z ++ CRLF) (mkReply REDIS_REPLY_INTEGER z 0 None 0 None) k h d j q t); try done.
  { split; [done|]. split; [done|]. by rewrite lookup_insert_eq. }
  intros k1 Hs1. rewrite (spec_typed_task k1 h _ d j q _ Hs1). change (t_type (t <| t_type := REDIS_REPLY_INTEGER |>)) with REDIS_REPLY_INTEGER.
  cbn [Z.eqb Pos.eqb orb REDIS_REPLY_INTEGER REDIS_REPLY_ERROR REDIS_REPLY_STATUS]. unfold spec_line. rewrite <- app_assoc.
  destruct (number_line z i Hz) as [-> ->]. change (t_type (t <| t_type := REDIS_REPLY_INTEGER |>) =? REDIS_REPLY_INTEGER) with true.
  change (callback fn createInteger) with (Some createIntegerObject). cbn iota.
  assert (drop (Z.to_nat (zlen (sdsll2str z) + 2)) (sdsll2str z ++ CRLF ++ i) = i) as ->.
  { rewrite app_assoc, drop_app_length'; [done|]. rewrite length_app. unfold zlen, CRLF. cbn [length]. lia. }
  destruct (parent_of k1 _) as [parent|]; cbn [mbind outcome_bind]; [|done].
  unfold createIntegerObject, createReplyObject. rewrite deref_new by done. cbn [mbind outcome_bind]. rewrite store_new.
  by destruct (link _ _ _ _).
Qed.

Lemma nil_value k h d j q t i :
  slot k d j q t -> t_type t = -1 -> 0 < next h -> linked h q j -> value_parsed RNil k h d j q i.
Proof.
  intros Hs Htype Hn Hl.
  apply (value_atom RNil 36 REDIS_REPLY_STRING (sdsll2str (-1) ++ CRLF) (mkReply REDIS_REPLY_NIL 0 0 None 0 None) k h d j q t); try done.
  { split; [done|]. split; [done|]. by rewrite lookup_insert_eq. }
  intros k1 Hs1. rewrite (spec_typed_task k1 h _ d j q _ Hs1). change (t_type (t <| t_type := REDIS_REPLY_STRING |>)) with REDIS_REPLY_STRING.
  cbn [Z.eqb Pos.eqb orb REDIS_REPLY_STRING REDIS_REPLY_INTEGER REDIS_REPLY_ERROR REDIS_REPLY_STATUS]. unfold spec_bulk. rewrite <- app_assoc.
  destruct (number_line (-1) i) as [-> ->]; [done|]. cbn [Z.ltb]. change (-1 <? 0) with true. cbn iota. rewrite create_nil_default.
  change (drop (Z.to_nat (zlen (sdsll2str (-1)) + 2)) (sdsll2str (-1) ++ CRLF ++ i)) with i.
  destruct (parent_of k1 _) as [parent|]; cbn [mbind outcome_bind]; [|done].
  unfold createNilObject, createReplyObject. by destruct (link _ _ _ _).
Qed.

Lemma string_value s k h d j q t i :
  slot k d j q t -> t_type t = -1 -> 0 < next h -> linked h q j -> zlen s < 2 ^ 31 -> value_parsed (RString s) k h d j q i.
Proof.
  intros Hs Htype Hn Hl Hlen. pose proof (zlen_nonneg s).
  apply (value_atom (RString s) 36 REDIS_REPLY_STRING (sdsll2str (zlen s) ++ CRLF ++ s ++ CRLF)
    (mkReply REDIS_REPLY_STRING 0 (i32 (zlen s)) (Some (s ++ [0])) 0 None) k h d j q t); try done.
  { split; [done|]. split; [done|]. by rewrite lookup_insert_eq. }
  intros k1 Hs1. rewrite (spec_typed_task k1 h _ d j q _ Hs1). change (t_type (t <| t_type := REDIS_REPLY_STRING |>)) with REDIS_REPLY_STRING.
  cbn [Z.eqb Pos.eqb orb REDIS_REPLY_STRING REDIS_REPLY_INTEGER REDIS_REPLY_ERROR REDIS_REPLY_STATUS]. unfold spec_bulk. rewrite <- !app_assoc.
  destruct (number_line (zlen s) (s ++ CRLF ++ i)) as [-> ->]; [lia|]. rewrite (proj2 (Z.ltb_ge (zlen s) 0)) by done. cbv zeta.
  set (n := zlen (sdsll2str (zlen s))). assert (Hn2 : 0 <= n) by apply zlen_nonneg.
  assert (Hall : zlen (sdsll2str (zlen s) ++ CRLF ++ s ++ CRLF ++ i) = n + 2 + zlen s + 2 + zlen i).
  { rewrite !zlen_app. change (zlen CRLF) with 2. lia. }
  rewrite Hall, (proj2 (Z.leb_le _ _)) by (pose proof (zlen_nonneg i); lia).
  assert (drop (Z.to_nat (n + 2)) (sdsll2str (zlen s) ++ CRLF ++ s ++ CRLF ++ i) = s ++ CRLF ++ i) as ->.
  { rewrite app_assoc, drop_app_length'; [done|]. rewrite length_app. unfold n, zlen, CRLF. cbn [length]. lia. }
  assert (drop (Z.to_nat (n + 2 + zlen s + 2)) (sdsll2str (zlen s) ++ CRLF ++ s ++ CRLF ++ i) = i) as ->.
  { rewrite !app_assoc, drop_app_length'; [done|]. rewrite !length_app. unfold n, zlen, CRLF. cbn [length]. lia. }
  assert (take (Z.to_nat (zlen s)) (s ++ CRLF ++ i) = s) as -> by (unfold zlen; by rewrite Nat2Z.id, take_app_length).
  rewrite spec_string_default. destruct (parent_of k1 _) as [parent|]; cbn [mbind outcome_bind]; [|done].
  rewrite create_string_new by done. by destruct (link _ _ _ _).
Qed.

(** ** Arrays *)

Lemma next_task_reply x f : forall k,
  next_task_loop f (k <| r_reply := x |>) = (k' ← next_task_loop f k; Ok (k' <| r_reply := x |>)).
Proof.
  induction f as [|f IH]; intros k; cbn [next_task_loop]; change (r_ridx (k <| r_reply := x |>)) with (r_ridx k);
    (destruct (r_ridx k >=? 0); cbn [negb]; [|done]); [done|].
  destruct (r_ridx k =? 0); [done|]. change (get_task (k <| r_reply := x |>)) with (get_task k).
  destruct (get_task k (r_ridx k)) as [cur|]; cbn [mbind outcome_bind]; [|done].
  destruct (get_task k (r_ridx k - 1)) as [prv|]; cbn [mbind outcome_bind]; [|done].
  destruct (c_assert (t_type prv =? REDIS_REPLY_ARRAY)); cbn [mbind outcome_bind]; [|done].
  destruct (t_idx cur =? i32 (t_elements prv - 1)). { exact (IH (k <| r_ridx := r_ridx k - 1 |>)). }
  destruct (c_assert (t_idx cur <? t_elements prv)); cbn [mbind outcome_bind]; [|done].
  unfold set_task. change (r_rstack (k <| r_reply := x |>)) with (r_rstack k). by destruct (elem_set _ _ _).
Qed.

Lemma create_array_new t parent n h : 0 < next h -> 0 <= n < 2 ^ 31 ->
  createArrayObject t parent (i32 n) h =
    (h' ← link t parent (next h) (mkHeap (<[next h := mkReply REDIS_REPLY_ARRAY 0 0 None n
       (if n >? 0 then Some (replicate (Z.to_nat n) 0) else None)]> (objects h)) (next h + 1));
     Ok (next h, h')).
Proof.
  intros Hn Hr. unfold createArrayObject, createReplyObject. rewrite deref_new by done. cbn [mbind outcome_bind]. rewrite store_new.
  assert (i32 n = n) as -> by mword. assert (u64 n = n) as -> by mword. by destruct (n >? 0).
Qed.

(** The header of an array. *)
Lemma array_header l k h d j q t i :
  slot k d j q t -> t_type t = -1 -> 0 < next h -> linked h q j -> d <= 7 -> zlen l < 2 ^ 31 ->
  exists k1 h1, slot k1 d j q (t <| t_type := REDIS_REPLY_ARRAY |>) /\ (forall e, e <> d -> get_task k1 e = get_task k e) /\
    r_reply k1 = r_reply k /\ r_err k1 = r_err k /\ relinked h h1 q j (next h) /\ next h1 = next h + 1 /\
    objects h1 !! next h = Some (mkReply REDIS_REPLY_ARRAY 0 0 None (zlen l) (if zlen l >? 0 then Some (replicate (length l) 0) else None)) /\
    spec_item fn k h (encode (RArray l) ++ i) =
      (k2 ← enter_array k1 (t <| t_type := REDIS_REPLY_ARRAY |>) (next h) (zlen l);
       Ok (Complete (set_root (d =? 0) (next h) k2) h1 (concat (encode <$> l) ++ i))).
Proof.
  intros Hs Htype Hn Hl Hd Hlen. pose proof (zlen_nonneg l). set (c := 42). set (rest := concat (encode <$> l) ++ i).
  destruct (slot_typed k d j q t c REDIS_REPLY_ARRAY (sdsll2str (zlen l) ++ CRLF ++ rest) h Hs Htype eq_refl) as (k1 & E & Hs1 & Hother & Hreply & Herr).
  destruct (slot_parent _ _ _ _ _ Hs1) as (parent & Hpar & Hq). pose proof (slot_idx _ _ _ _ _ Hs1) as Hj.
  destruct (link_spec (t <| t_type := REDIS_REPLY_ARRAY |>) parent h q (mkReply REDIS_REPLY_ARRAY 0 0 None (zlen l)
    (if zlen l >? 0 then Some (replicate (Z.to_nat (zlen l)) 0) else None))) as (h1 & Elink & Hre & Ho & Hnx); [done|done|by rewrite Hj|].
  rewrite Hj in Hre. exists k1, h1. split; [done|]. split; [done|]. split; [done|]. split; [done|]. split; [done|]. split; [done|]. split.
  { rewrite Ho. unfold zlen at 3. by rewrite Nat2Z.id. }
  assert (Henc : encode (RArray l) ++ i = c :: sdsll2str (zlen l) ++ CRLF ++ rest).
  { unfold rest. cbn [encode]. by rewrite <- !app_assoc. }
  rewrite Henc, E, (spec_typed_task k1 h _ d j q _ Hs1). change (t_type (t <| t_type := REDIS_REPLY_ARRAY |>)) with REDIS_REPLY_ARRAY.
  cbn [Z.eqb Pos.eqb orb REDIS_REPLY_ARRAY REDIS_REPLY_STRING REDIS_REPLY_INTEGER REDIS_REPLY_ERROR REDIS_REPLY_STATUS].
  unfold spec_multi. rewrite (slot_ridx _ _ _ _ _ Hs1), (proj2 (Z.eqb_neq d 8)) by lia.
  destruct (number_line (zlen l) rest) as [-> ->]; [lia|]. rewrite (proj2 (Z.eqb_neq (zlen l) (-1))) by lia.
  change (callback fn createArray) with (Some createArrayObject). cbn iota. rewrite Hpar. cbn [mbind outcome_bind].
  rewrite create_array_new by (done || lia). rewrite Elink. cbn [mbind outcome_bind]. rewrite (proj2 (Z.eqb_neq (next h) 0)) by lia.
  assert (drop (Z.to_nat (zlen (sdsll2str (zlen l)) + 2)) (sdsll2str (zlen l) ++ CRLF ++ rest) = rest) as ->; [|done].
  rewrite app_assoc, drop_app_length'; [done|]. rewrite length_app. unfold zlen, CRLF. cbn [length]. lia.
Qed.

Lemma array_empty k h d j q t i :
  slot k d j q t -> t_type t = -1 -> 0 < next h -> linked h q j -> d <= 7 -> value_parsed (RArray []) k h d j q i.
Proof.
  intros Hs Htype Hn Hl Hd. destruct (array_header [] k h d j q t i Hs Htype Hn Hl Hd) as (k1 & h1 & Hs1 & Hother & Hrep & Herr & Hre & Hnx & Ho & E); [done|].
  exists (if r_ridx k1 =? 0 then k1 <| r_reply := next h |> else k1), h1, (next h).
  split; [by eapply finished_atom|]. split; [|split; [done|]].
  - rewrite represents_array. split; [done|]. exists []. rewrite Ho. split; [done|]. cbn. lia.
  - intros k' Ek'. exists k'. split; [|done]. eapply parses_step; [|rewrite E|apply parses_refl].
    { rewrite (slot_ridx _ _ _ _ _ Hs). apply (slot_depth _ _ _ _ _ Hs). }
    unfold enter_array. cbn [zlen length Z.of_nat Z.gtb Z.compare]. change (zlen [] >? 0) with false. cbn iota.
    rewrite (slot_ridx _ _ _ _ _ Hs1) in Ek'. unfold set_root. change (concat (encode <$> []) ++ i) with i.
    destruct (d =? 0).
    + unfold moveToNextTask in *. change (r_ridx (k1 <| r_reply := next h |>)) with (r_ridx k1) in Ek'. rewrite next_task_reply in Ek'.
      destruct (next_task_loop _ k1); cbn in *; [|done]. by injection Ek' as <-.
    + by rewrite Ek'.
Qed.

(** On to the next element. *)
Lemma next_element km d m n pt tm :
  r_ridx km = d + 1 -> 0 <= d -> length (r_rstack km) = 9%nat -> d + 1 <= 8 -> get_task km d = Ok pt -> get_task km (d + 1) = Ok tm ->
  t_type pt = REDIS_REPLY_ARRAY -> t_elements pt = n -> t_idx tm = m -> 0 <= m -> m + 1 < n -> n < 2 ^ 31 ->
  exists k2, moveToNextTask km = Ok k2 /\
    set_task km (d + 1) (tm <| t_type := -1 |> <| t_elements := -1 |> <| t_idx := m + 1 |>) = Ok k2.
Proof.
  intros Hr Hd Hlen Hd8 Hpt Htm Hpty Hpel Hidx Hm Hmn Hn.
  destruct (set_task_ok km (d + 1) (tm <| t_type := -1 |> <| t_elements := -1 |> <| t_idx := m + 1 |>)) as [k2 E]; [lia|unfold zlen; lia|].
  exists k2. split; [|done]. unfold moveToNextTask. cbn [next_task_loop]. rewrite Hr.
  rewrite (proj2 (Z.geb_le _ _)), (proj2 (Z.eqb_neq (d + 1) 0)) by lia. cbn [negb]. rewrite Htm. cbn [mbind outcome_bind].
  replace (d + 1 - 1) with d by lia. rewrite Hpt. cbn [mbind outcome_bind]. rewrite Hpty, Hidx, Hpel. cbn [Z.eqb Pos.eqb REDIS_REPLY_ARRAY c_assert mbind outcome_bind].
  assert (i32 (n - 1) = n - 1) as -> by mword. rewrite (proj2 (Z.eqb_neq m (n - 1))), (proj2 (Z.ltb_lt m n)) by lia.
  cbn [c_assert mbind outcome_bind]. by assert (i32 (m + 1) = m + 1) as -> by mword.
Qed.

(** Behind the last element. *)
Lemma last_element km d m n pt tm :
  r_ridx km = d + 1 -> 0 <= d -> get_task km d = Ok pt -> get_task km (d + 1) = Ok tm ->
  t_type pt = REDIS_REPLY_ARRAY -> t_elements pt = n -> t_idx tm = m -> 0 <= m -> m = n - 1 -> n < 2 ^ 31 ->
  moveToNextTask km = moveToNextTask (km <| r_ridx := d |>).
Proof.
  intros Hr Hd Hpt Htm Hpty Hpel Hidx Hm Hmn Hn. unfold moveToNextTask. change (r_ridx (km <| r_ridx := d |>)) with d.
  rewrite Hr. replace (Z.to_nat (d + 1)) with (S (Z.to_nat d)) by lia. generalize (S (Z.to_nat d)). intros f.
  cbn [next_task_loop]. rewrite Hr. rewrite (proj2 (Z.geb_le (d + 1) 0)), (proj2 (Z.eqb_neq (d + 1) 0)) by lia. cbn [negb].
  rewrite Htm. cbn [mbind outcome_bind]. replace (d + 1 - 1) with d by lia. rewrite Hpt. cbn [mbind outcome_bind].
  rewrite Hpty, Hidx, Hpel. cbn [Z.eqb Pos.eqb REDIS_REPLY_ARRAY c_assert mbind outcome_bind].
  assert (i32 (n - 1) = n - 1) as -> by mword. by rewrite (proj2 (Z.eqb_eq m (n - 1))) by lia.
Qed.

(** What is known about every element. *)
Definition parses_well (v : reply) : Prop := forall k h d j q t i,
  fits d v -> slot k d j q t -> t_type t = -1 -> 0 < next h -> linked h q j -> value_parsed v k h d j q i.

(** The elements [l] of the array [a] at depth [d], the next one with index [m],
    are parsed one after the other. *)
Record elements_parsed (l : list reply) (k : redisReader) (h : heap) (d a n : Z) (ps i : list Z)
    (km : redisReader) (h' : heap) (qs : list Z) : Prop := {
  el_ridx : r_ridx km = d + 1;
  el_length : length (r_rstack km) = 9%nat;
  el_below : forall e, e <= d -> get_task km e = get_task k e;
  el_task : exists tm, get_task km (d + 1) = Ok tm /\ t_idx tm = n - 1;
  el_reply : r_reply km = r_reply k;
  el_err : r_err km = r_err k;
  el_next : next h <= next h';
  el_same : forall x, x < next h \/ next h' <= x -> x <> a -> objects h' !! x = objects h !! x;
  el_array : objects h' !! a = Some (mkReply REDIS_REPLY_ARRAY 0 0 None n (Some (ps ++ qs)));
  el_values : chain (objects h') (next h) (next h') l qs;
  el_parses : forall k', moveToNextTask km = Ok k' -> parses k h (concat (encode <$> l) ++ i) k' h' i
}.

Lemma array_elements l : forall k h d a m n ps t pt i,
  Forall parses_well l -> l <> [] -> Forall (fits (d + 1)) l -> 0 <= d -> m + zlen l = n -> n < 2 ^ 31 -> 0 <= m -> zlen ps = m ->
  0 < a < next h -> slot k (d + 1) m (Some a) t -> t_type t = -1 -> t_parent t = Some d ->
  get_task k d = Ok pt -> t_type pt = REDIS_REPLY_ARRAY -> t_elements pt = n -> t_obj pt = a ->
  objects h !! a = Some (mkReply REDIS_REPLY_ARRAY 0 0 None n (Some (ps ++ replicate (length l) 0))) ->
  exists km h' qs, elements_parsed l k h d a n ps i km h' qs.
Proof.
  induction l as [|v l IH]; intros k h d a m n ps t pt i HP Hne Hfits Hd Hn Hn31 Hm Hps Ha Hslot Htty Htpa Hpt Hpty Hpel Hpob Ho; [done|].
  apply Forall_cons in HP as [HPv HPl]. apply Forall_cons in Hfits as [Hfv Hfl]. rewrite zlen_cons in Hn. pose proof (zlen_nonneg l).
  destruct (HPv k h (d + 1) m (Some a) t (concat (encode <$> l) ++ i) Hfv Hslot Htty) as (km & h' & p & Hfin & Hrep & (Hnx & Hsame & Hpar) & Hgo); [lia| |].
  { eexists _, _. split; [exact Ho|]. split; [done|]. split; [done|]. rewrite zlen_app, Hps. split; [|lia].
    unfold zlen. rewrite length_replicate. cbn [length]. lia. }
  destruct Hfin as [Hfr Hfl2 (t0 & tm & Ht0 & Htm & Hidx & Hpa) Hbelow Hreply Herr].
  rewrite (slot_task _ _ _ _ _ Hslot) in Ht0. injection Ht0 as <-.
  rewrite (proj2 (Z.eqb_neq (d + 1) 0)) in Hreply by lia.
  specialize (Hpar _ _ Ho eq_refl). cbn [length replicate] in Hpar.
  assert (Hins : <[Z.to_nat m := p]> (ps ++ 0 :: replicate (length l) 0) = (ps ++ [p]) ++ replicate (length l) 0).
  { rewrite <- Hps. unfold zlen. rewrite Nat2Z.id, insert_app_r_alt by lia. rewrite Nat.sub_diag. by rewrite <- app_assoc. }
  rewrite Hins in Hpar. cbn in Hpar.
  assert (Hcat : concat (encode <$> v :: l) ++ i = encode v ++ concat (encode <$> l) ++ i) by (csimpl; by rewrite <- app_assoc).
  destruct (decide (l = [])) as [->|Hl].
  - exists km, h', [p]. split; try done.
    + intros e He. apply Hbelow. lia.
    + exists tm. split; [done|]. pose proof (slot_idx _ _ _ _ _ Hslot). change (zlen []) with 0 in Hn. lia.
    + intros x Hx Hxa. apply Hsame; [done|congruence].
    + by rewrite Hpar, app_nil_r.
    + exists (next h'). done.
    + intros k' Ek'. rewrite Hcat. destruct (Hgo k' Ek') as (k2 & Hp2 & ->). exact Hp2.
  - assert (Hpos : 0 < zlen l) by (destruct l; [done|]; rewrite zlen_cons; pose proof (zlen_nonneg l); lia).
    assert (Hd8 : d + 1 <= 8) by apply (slot_depth _ _ _ _ _ Hslot).
    destruct (next_element km d m n pt tm) as (k2 & Emove & Eset);
      [done|done|done|done|by rewrite Hbelow by lia|done|done|done| |done|lia|done|].
    { rewrite Hidx. apply (slot_idx _ _ _ _ _ Hslot). }
    destruct (get_task_set _ _ _ _ Eset) as (Hget & Hr2 & Hl2 & Hrep2 & Herr2).
    destruct (IH k2 h' d a (m + 1) n (ps ++ [p]) (tm <| t_type := -1 |> <| t_elements := -1 |> <| t_idx := m + 1 |>) pt i)
      as (km2 & h2 & qs & [E1 E2 E3 E4 E5 E6 E7 E8 E9 E10 E11]); try done; try lia.
    + rewrite zlen_app. change (zlen [p]) with 1. lia.
    + split; [lia|congruence|congruence|by rewrite Hget, Z.eqb_refl|done| |].
      * exists (Some pt). unfold parent_of. change (t_parent (tm <| t_type := -1 |> <| t_elements := -1 |> <| t_idx := m + 1 |>)) with (t_parent tm).
        rewrite Hpa, Htpa, Hget, (proj2 (Z.eqb_neq d (d + 1))), Hbelow, Hpt by lia. cbn. by rewrite Hpob.
      * change (t_parent (tm <| t_type := -1 |> <| t_elements := -1 |> <| t_idx := m + 1 |>)) with (t_parent tm).
        rewrite Hpa, Htpa. intros ? [= <-]. lia.
    + change (t_parent tm = Some d). by rewrite Hpa.
    + rewrite Hget, (proj2 (Z.eqb_neq d (d + 1))) by lia. by rewrite Hbelow by lia.
    + exists km2, h2, (p :: qs). split; try done; try congruence.
      * intros e He. rewrite E3, Hget, (proj2 (Z.eqb_neq e (d + 1))) by lia. apply Hbelow. lia.
      * lia.
      * intros x Hx Hxa. rewrite E8 by lia. apply Hsame; [lia|congruence].
      * by rewrite E9, <- app_assoc.
      * exists (next h'). split; [|done]. eapply represents_frame; [|exact Hrep]. intros x Hx. apply E8; lia.
      * intros k' Ek'. rewrite Hcat. destruct (Hgo k2 Emove) as (k3 & Hp3 & ->). eapply parses_trans; [exact Hp3|]. by apply E11.
Qed.

Lemma array_value l k h d j q t i :
  Forall parses_well l -> fits d (RArray l) -> slot k d j q t -> t_type t = -1 -> 0 < next h -> linked h q j ->
  value_parsed (RArray l) k h d j q i.
Proof.
  intros HP (Hd & Hlen & Hfl)%fits_array Hs Htype Hn Hl. destruct (decide (l = [])) as [->|Hne]; [by eapply array_empty|].
  destruct (array_header l k h d j q t i Hs Htype Hn Hl Hd Hlen) as (k1 & h1 & Hs1 & Hother & Hrep & Herr & Hre & Hnx & Ho & E).
  assert (Hpos : 0 < zlen l) by (destruct l; [done|]; rewrite zlen_cons; pose proof (zlen_nonneg l); lia).
  rewrite (proj2 (Z.gtb_lt _ _)) in Ho by lia. unfold enter_array in E. rewrite (proj2 (Z.gtb_lt _ _)) in E by lia.
  destruct Hs as [Hd8 Hr0 Hl0 Ht0 Hj0 _ _]. destruct Hs1 as [_ Hr1 Hl1 Ht1 Hj1 Hpar1 Hb1].
  assert (Hi32 : i32 (zlen l) = zlen l) by mword. rewrite Hi32, Hr1 in E.
  set (ta := t <| t_type := REDIS_REPLY_ARRAY |> <| t_elements := zlen l |> <| t_obj := next h |>) in *.
  change (t <| t_type := REDIS_REPLY_ARRAY |> <| t_elements := zlen l |> <| t_obj := next h |>) with ta in E.
  destruct (set_task_ok k1 d ta) as [k2 E2]; [lia|unfold zlen; lia|]. rewrite E2 in E. cbn [mbind outcome_bind] in E.
  destruct (get_task_set _ _ _ _ E2) as (Hg2 & Hr2 & Hl2 & Hrep2 & Herr2). rewrite Hr2, Hr1 in E.
  destruct (set_task_ok (k2 <| r_ridx := d + 1 |>) (d + 1) (mkTask (-1) (-1) 0 0 (Some d))) as [k3 E3].
  { lia. } { change (d + 1 < zlen (r_rstack k2)). unfold zlen. lia. }
  change (r_ridx (k2 <| r_ridx := d + 1 |>)) with (d + 1) in E. rewrite E3 in E. cbn [mbind outcome_bind] in E.
  destruct (get_task_set _ _ _ _ E3) as (Hg3 & Hr3 & Hl3 & Hrep3 & Herr3).
  change (forall e, get_task k3 e = if e =? d + 1 then Ok (mkTask (-1) (-1) 0 0 (Some d)) else get_task k2 e) in Hg3.
  change (r_ridx (k2 <| r_ridx := d + 1 |>)) with (d + 1) in Hr3. change (r_rstack (k2 <| r_ridx := d + 1 |>)) with (r_rstack k2) in Hl3.
  change (r_reply (k2 <| r_ridx := d + 1 |>)) with (r_reply k2) in Hrep3. change (r_err (k2 <| r_ridx := d + 1 |>)) with (r_err k2) in Herr3.
  set (k4 := set_root (d =? 0) (next h) k3) in *.
  assert (Hg4 : forall e, get_task k4 e = get_task k3 e) by (intros; subst k4; unfold set_root; by destruct (d =? 0)).
  assert (H4 : r_ridx k4 = d + 1 /\ length (r_rstack k4) = 9%nat /\ r_err k4 = r_err k /\ r_reply k4 = if d =? 0 then next h else r_reply k).
  { subst k4. unfold set_root. destruct (d =? 0); cbn; split_and!; congruence. }
  destruct H4 as (Hr4 & Hl4 & Herr4 & Hrep4).
  assert (Hgd : get_task k4 d = Ok ta) by (rewrite Hg4, Hg3, (proj2 (Z.eqb_neq d (d + 1))) by lia; by rewrite Hg2, Z.eqb_refl).
  assert (Hgd1 : get_task k4 (d + 1) = Ok (mkTask (-1) (-1) 0 0 (Some d))) by (by rewrite Hg4, Hg3, Z.eqb_refl).
  destruct (array_elements l k4 h1 d (next h) 0 (zlen l) [] (mkTask (-1) (-1) 0 0 (Some d)) ta i) as (km & h' & qs & [X1 X2 X3 X4 X5 X6 X7 X8 X9 X10 X11]);
    try done; try lia.
  { split; [lia|done|done|done|done| |].
    - exists (Some ta). unfold parent_of. cbn [t_parent]. by rewrite Hgd.
    - intros ? [= <-]. lia. }
  destruct X4 as (tm & Htm & Hidxm).
  exists (km <| r_ridx := d |>), h', (next h). split; [|split; [|split]].
  - split; [done|exact X2| | | |].
    + exists t, ta. split; [done|]. split; [|done]. change (get_task km d = Ok ta). rewrite X3 by lia. done.
    + intros e He. change (get_task km e = get_task k e). rewrite X3, Hg4, Hg3, (proj2 (Z.eqb_neq e (d + 1))) by lia.
      rewrite Hg2, (proj2 (Z.eqb_neq e d)) by lia. apply Hother. lia.
    + change (r_reply km = if d =? 0 then next h else r_reply k). congruence.
    + change (r_err km = r_err k). congruence.
  - rewrite represents_array. split; [done|]. exists qs. rewrite X9. cbn [Datatypes.app].
    assert (qs <> []) as Hqs by (intros ->; by destruct l). rewrite decide_False by done. split; [done|].
    by rewrite <- Hnx.
  - destruct Hre as (Hre1 & Hre2 & Hre3). split; [lia|]. split.
    + intros x Hx Hne'. rewrite X8 by lia. apply Hre2; [lia|done].
    + destruct q as [a|]; [|done]. intros o ls Hoa Hls. rewrite X8; [by apply Hre3|..]; destruct Hl as (? & ? & _ & _ & _ & _ & ?); lia.
  - intros k' Ek'. exists k'. split; [|done]. eapply parses_step; [rewrite Hr0; lia|exact E|]. apply X11.
    rewrite <- Ek'. apply (last_element km d (zlen l - 1) (zlen l) ta tm); try done; try lia. by rewrite X3 by lia.
Qed.

Lemma value_ok v : parses_well v.
Proof.
  induction v using reply_nested_ind; intros k h d j q t i Hf Hs Htype Hn Hl.
  - by eapply string_value.
  - eapply (line_value (RStatus s) 43 REDIS_REPLY_STATUS s); try done. by left.
  - eapply (line_value (RError s) 45 REDIS_REPLY_ERROR s); try done. by right.
  - by eapply integer_value.
  - by eapply nil_value.
  - by eapply array_value.
Qed.

(** ** Freeing a reply *)

(** [h'] is [h] without the addresses from [lo] up to [hi]. *)
Definition freed (lo hi : Z) (h h' : heap) : Prop :=
  next h' = next h /\ forall x, objects h' !! x = if decide (lo <= x < hi) then None else objects h !! x.

(** Freeing at depth [d] with the fuel that is left there. *)
Definition frees_well (v : reply) : Prop := forall d fuel lo hi h p,
  0 <= d <= 8 -> 9 - d <= Z.of_nat fuel -> fits d v -> 0 < lo -> represents lo hi (objects h) v p ->
  exists h', freeReplyObject fuel p h = Ok h' /\ freed lo hi h h'.

Lemma free_one lo h o : objects h !! lo = Some o -> exists h', free_object lo h = Ok h' /\ freed lo (lo + 1) h h'.
Proof.
  intros Ho. unfold free_object. rewrite Ho. eexists. split; [done|]. split; [done|]. intros x. cbn [objects].
  destruct (decide (lo <= x < lo + 1)).
  - assert (x = lo) as -> by lia. apply lookup_delete_eq.
  - by rewrite lookup_delete_ne by lia.
Qed.

Lemma free_atom fuel lo h o : 0 < lo -> objects h !! lo = Some o -> (rp_type o =? REDIS_REPLY_ARRAY) = false ->
  exists h', freeReplyObject (S fuel) lo h = Ok h' /\ freed lo (lo + 1) h h'.
Proof.
  intros Hlo Ho Ht. cbn [freeReplyObject]. unfold deref. rewrite (proj2 (Z.eqb_neq lo 0)), Ho by lia. cbn [mbind outcome_bind].
  rewrite Ht. cbn [mbind outcome_bind]. by eapply free_one.
Qed.

Lemma free_chain d fuel l : forall lo hi h pre ps,
  Forall frees_well l -> 0 <= d <= 8 -> 9 - d <= Z.of_nat fuel -> Forall (fits d) l -> 0 < lo -> chain (objects h) lo hi l ps ->
  exists h', free_elements (freeReplyObject fuel) (pre ++ ps) (zlen pre) (length ps) h = Ok h' /\ freed lo hi h h'.
Proof.
  induction l as [|v l IH]; intros lo hi h pre [|p ps] HP Hd Hf Hfits Hlo Hc; try done; cbn [chain] in Hc.
  - exists h. split; [done|]. split; [done|]. intros x. subst hi. by rewrite decide_False by lia.
  - destruct Hc as (mid & Hr & Hc). apply Forall_cons in HP as [HPv HPl]. apply Forall_cons in Hfits as [Hfv Hfl].
    pose proof (represents_lt _ _ _ _ _ Hr). pose proof (chain_le _ _ _ _ _ Hc).
    destruct (HPv d fuel lo mid h p) as (h1 & E1 & Hn1 & Hx1); [done..|]. cbn [free_elements length].
    rewrite (elem_at_app pre) by done. cbn [mbind outcome_bind].
    assert (p <> 0) as Hp by (destruct v; destruct Hr; lia). rewrite (proj2 (Z.eqb_neq p 0) Hp), E1. cbn [mbind outcome_bind].
    destruct (IH mid hi h1 (pre ++ [p]) ps) as (h2 & E2 & Hn2 & Hx2); [done|done|done|done|lia| |].
    { eapply chain_frame; [|exact Hc]. intros x Hx. rewrite Hx1. by rewrite decide_False by lia. }
    exists h2. rewrite <- app_assoc, zlen_app in E2. split; [exact E2|]. split; [congruence|]. intros x. rewrite Hx2, Hx1.
    destruct (decide (mid <= x < hi)), (decide (lo <= x < mid)), (decide (lo <= x < hi)); lia || done.
Qed.

Lemma frees v : frees_well v.
Proof.
  induction v using reply_nested_ind; intros d [|fuel] lo hi h p Hd Hf Hfit Hlo Hr; try lia.
  1-5: destruct Hr as (-> & -> & Ho); by eapply free_atom.
  apply represents_array in Hr as (-> & ps & Ho & Hc). apply fits_array in Hfit as (Hd7 & Hlen & Hfl).
  cbn [freeReplyObject]. unfold deref. rewrite (proj2 (Z.eqb_neq lo 0)), Ho by lia. cbn [mbind outcome_bind rp_type rp_element rp_elements].
  cbn [Z.eqb Pos.eqb REDIS_REPLY_ARRAY].
  assert (Hlps : length l = length ps).
  { clear -Hc. revert Hc. generalize (lo + 1). revert ps. induction l as [|v l IH]; intros [|p ps] lo'; try done; cbn [chain].
    intros (mid & _ & Hc). cbn. f_equal. by eapply IH. }
  destruct (free_chain (d + 1) fuel l (lo + 1) hi h [] ps) as (h1 & E1 & Hn1 & Hx1); [done|lia|lia|done|lia|done|].
  assert (Hel : match (if decide (ps = []) then None else Some ps) with
    | Some l0 => free_elements (freeReplyObject fuel) l0 0 (Z.to_nat (zlen l)) h | None => Ok h end = Ok h1 \/
    (match (if decide (ps = []) then None else Some ps) with
    | Some l0 => free_elements (freeReplyObject fuel) l0 0 (Z.to_nat (zlen l)) h | None => Ok h end = Ok h /\ h1 = h)).
  { destruct (decide (ps = [])) as [->|]; [right; split; [done|]; by injection E1 as <-|left].
    rewrite <- E1. unfold zlen. by rewrite Nat2Z.id, Hlps. }
  assert (Hel' : exists h0, match (if decide (ps = []) then None else Some ps) with
    | Some l0 => free_elements (freeReplyObject fuel) l0 0 (Z.to_nat (zlen l)) h | None => Ok h end = Ok h0 /\ h0 = h1).
  { destruct Hel as [E|[E ->]]; eauto. }
  destruct Hel' as (h0 & -> & ->). cbn [mbind outcome_bind]. pose proof (chain_le _ _ _ _ _ Hc).
  destruct (free_one lo h1 (mkReply REDIS_REPLY_ARRAY 0 0 None (zlen l) (if decide (ps = []) then None else Some ps))) as (h2 & E2 & Hn2 & Hx2).
  { rewrite Hx1. by rewrite decide_False by lia. }
  exists h2. split; [done|]. split; [congruence|]. intros x. rewrite Hx2, Hx1.
  destruct (decide (lo <= x < lo + 1)), (decide (lo + 1 <= x < hi)), (decide (lo <= x < hi)); lia || done.
Qed.

(** ** Claims *)

(** The end of the root: the stack is empty. *)
Lemma root_move k : r_ridx k = 0 -> moveToNextTask k = Ok (k <| r_ridx := -1 |>).
Proof. intros Hr. unfold moveToNextTask. rewrite Hr. cbn [Z.to_nat next_task_loop]. by rewrite Hr. Qed.

Lemma spec_get_value v k h i :
  fits 0 v -> 0 < next h -> r_ridx k = -1 -> length (r_rstack k) = 9%nat ->
  exists k' h' p, spec_get fn k h (encode v ++ i) = Ok (Complete k' h' i) /\ r_reply k' = p /\ r_ridx k' = -1 /\
    length (r_rstack k') = 9%nat /\ r_err k' = r_err k /\
    represents (next h) (next h') (objects h') v p /\ (forall x, x < next h -> objects h' !! x = objects h !! x) /\ next h <= next h' /\
    (forall x, next h <= x -> next h' <= x -> objects h' !! x = objects h !! x).
Proof.
  intros Hf Hn Hr Hlen. destruct (set_task_ok k 0 (mkTask (-1) (-1) (-1) 0 None)) as [k0 E0]; [lia|unfold zlen; lia|].
  destruct (get_task_set _ _ _ _ E0) as (Hg & Hr0 & Hl0 & Hrep0 & Herr0). set (k1 := k0 <| r_ridx := 0 |>).
  assert (Hslot : slot k1 0 (-1) None (mkTask (-1) (-1) (-1) 0 None)).
  { split; [lia|done|by rewrite <- Hlen| |done|by exists None|done]. change (get_task k0 0 = Ok (mkTask (-1) (-1) (-1) 0 None)).
    by rewrite Hg, Z.eqb_refl. }
  destruct (value_ok v k1 h 0 (-1) None _ i Hf Hslot eq_refl Hn I) as (km & h' & p & [F1 F2 F3 F4 F5 F6] & Hrep & (Hnx & Hsame & _) & Hgo).
  destruct (Hgo _ (root_move km F1)) as (k2 & Hp & ->). exists (km <| r_ridx := -1 |>), h', p.
  split; [|split_and!; try done; [by change (r_err km = r_err k); rewrite F6|intros x Hx; apply Hsame; [lia|done]|intros x _ Hx; apply Hsame; [lia|done]]].
  unfold spec_get, start. rewrite Hr. cbn [Z.eqb Pos.eqb]. rewrite E0. cbn [mbind outcome_bind].
  rewrite (parses_items _ _ _ _ _ _ Hp _ (S (length i))) by lia. done.
Qed.

(** A reader between two replies: no error, no task, and the bytes [i] unread. *)
Definition idle (r : redisReader) (i : list Z) : Prop :=
  ready r i /\ r_ridx r = -1 /\ length (r_rstack r) = 9%nat.

Lemma reply_parsed (junk : Z) (r : redisReader) (h : heap) (v : reply) (rest : list Z) :
  idle r [] -> 0 < next h -> fits 0 v -> r_len r + zlen (encode v ++ rest) < 2 ^ 30 ->
  exists r' h' p, feed_get fn junk (encode v ++ rest) r h = Ok (r', h', REDIS_OK, p) /\
    represents (next h) (next h') (objects h') v p /\ (forall x, x < next h -> objects h' !! x = objects h !! x) /\
    idle r' rest /\ (forall x, next h <= x -> next h' <= x -> objects h' !! x = objects h !! x).
Proof.
  intros (Hr & Hidx & Hlen) Hn Hf Hb.
  destruct (spec_get_value v (core r) h rest Hf Hn Hidx Hlen) as (k' & h' & p & E & Hp & Hi & Hl & He & Hrep & Hsame & Hnx & Hnew).
  destruct (feed_ready junk r [] (encode v ++ rest) Hr) as (r1 & Efeed & Hc1 & Hr1 & Hl1); [|done|].
  { by destruct v. }
  pose proof (getreply_agrees fn r1 h (encode v ++ rest) Hr1 Hl1) as H. rewrite Hc1, E in H.
  destruct H as (r2 & Eget & Hc2 & Hr2). { change (-1 <= r_ridx (core r1)). rewrite Hc1. change (-1 <= r_ridx r). lia. }
  exists r2, h', p. unfold feed_get. rewrite Efeed. cbn [mbind outcome_bind]. rewrite Eget, Hp.
  split_and!; try done.
  split; [done|]. change (r_ridx (core r2) = -1 /\ length (r_rstack (core r2)) = 9%nat). by rewrite Hc2.
Qed.

(** C23: round trip of a reply.  Every reply the protocol can express (arrays
    nested at most eight deep, lines without carriage returns), encoded as the
    server sends it and fed to an idle reader with whatever bytes behind it, is
    returned by [redisReaderGetReply] as a tree of objects that represents it
    exactly; the other objects are untouched, the reader is idle again and has
    exactly the bytes behind the reply left.  Freeing the reply frees each of its
    objects once and gives back the heap there was before. *)
Theorem reply_roundtrip (junk : Z) (r : redisReader) (h : heap) (v : reply) (rest : list Z) :
  idle r [] -> 0 < next h -> (forall x, next h <= x -> objects h !! x = None) ->
  fits 0 v -> r_len r + zlen (encode v ++ rest) < 2 ^ 30 ->
  exists r' h' p h'', feed_get fn junk (encode v ++ rest) r h = Ok (r', h', REDIS_OK, p) /\
    represents (next h) (next h') (objects h') v p /\ (forall x, x < next h -> objects h' !! x = objects h !! x) /\
    idle r' rest /\ freeReplyObject 10 p h' = Ok h'' /\ objects h'' = objects h.
Proof.
  intros Hidle Hn Hfresh Hf Hb. destruct (reply_parsed junk r h v rest Hidle Hn Hf Hb) as (r' & h' & p & E & Hrep & Hsame & Hidle' & Hnew).
  destruct (frees v 0 10%nat (next h) (next h') h' p) as (h'' & Efree & Hfn & Hfx); [lia|lia|done|done|done|].
  exists r', h', p, h''. split_and!; try done.
  apply map_eq. intros x. rewrite Hfx. destruct (decide (next h <= x < next h')); [by rewrite Hfresh by lia|].
  destruct (Z.lt_ge_cases x (next h)); [by apply Hsame|]. apply Hnew; [done|lia].
Qed.

Lemma reply_roundtrip_witness :
  exists r, redisReaderCreate 7 = Ok r /\
  exists r' h' p h'', feed_get fn 7 (encode (RArray [RString [104; 105]; RInteger (-5); RArray [RNil; RStatus [79; 75]]; RArray []]) ++ [43]) r (mkHeap ∅ 1)
      = Ok (r', h', REDIS_OK, p) /\
    represents 1 (next h') (objects h') (RArray [RString [104; 105]; RInteger (-5); RArray [RNil; RStatus [79; 75]]; RArray []]) p /\ idle r' [43] /\
    freeReplyObject 10 p h' = Ok h'' /\ objects h'' = ∅.
Proof.
  destruct (created_ready 7) as (r & E & Hready & Hidx & Hlen). exists r. split; [exact E|].
  assert (Hst : length (r_rstack r) = 9%nat) by (by injection E as <-).
  destruct (reply_roundtrip 7 r (mkHeap ∅ 1) (RArray [RString [104; 105]; RInteger (-5); RArray [RNil; RStatus [79; 75]]; RArray []]) [43])
    as (r' & h' & p & h'' & H1 & H2 & _ & H3 & H4 & H5).
  - done.
  - done.
  - intros. apply lookup_empty.
  - cbn [fits foldr]. split_and!; try done. apply not_elem_of_nil || (intros Hin; by repeat (apply elem_of_cons in Hin as [?|Hin]; [lia|]); apply not_elem_of_nil in Hin).
  - rewrite Hlen. by vm_compute.
  - exists r', h', p, h''. exact (conj H1 (conj H2 (conj H3 (conj H4 H5)))).
Defined.

(** An array header with a count of 2^32 takes the program down: the count
    is a [long], but the array and the task get it as an [int], zero, so no
    elements are allocated and the first element is stored through a null
    pointer.  Without callbacks an assertion fails instead.  A count of -2 is
    taken for an array that claims 2^64 - 2 elements and has none. *)
Theorem reader_array_count (junk : Z) :
  (r ← redisReaderCreate junk; feed_get fn junk ([42; 52; 50; 57; 52; 57; 54; 55; 50; 57; 54] ++ CRLF ++ encode (RInteger 1)) r (mkHeap ∅ 1))
    = Crash NullDeref /\
  (r ← redisReaderCreate junk; feed_get (W := unit) None junk ([42; 52; 50; 57; 52; 57; 54; 55; 50; 57; 54] ++ CRLF ++ encode (RInteger 1)) r tt)
    = Crash AssertFailed /\
  (r ← redisReaderCreate junk; '(_, h, _, p) ← feed_get fn junk ([42; 45; 50] ++ CRLF) r (mkHeap ∅ 1); deref h p)
    = Ok (mkReply REDIS_REPLY_ARRAY 0 0 None (2 ^ 64 - 2) None).
Proof. split_and!; by vm_compute. Qed.
