(* ===== verification/RedisFormat.v ===== *)
(** * Redis commands

    The command builders of [hiredis/hiredis.c] that take an argument vector: what
    they build is what the reader of [RedisReader.v] parses back, and the two of
    them build the same bytes. *)

From S2P Require Import Prelude Inet Sds RedisReader RedisParse RedisReply.

(** The loop of [countDigits]. *)
Fixpoint count_digits (fuel : nat) (v result : Z) : outcome Z :=
  match fuel with
  | O => Crash OutOfFuel
  | S fuel =>
      if v <? 10 then Ok result
      else if v <? 100 then Ok (u32 (result + 1))
      else if v <? 1000 then Ok (u32 (result + 2))
      else if v <? 10000 then Ok (u32 (result + 3))
      else count_digits fuel (v / 10000) (u32 (result + 4))
  end.
Definition countDigits (v : Z) : outcome Z := count_digits 6 v 1.

Definition bulklen (len : Z) : outcome Z :=
  n ← countDigits len; Ok (u64 (u32 (u32 (1 + n) + 2) + len + 2)).

(** [argvlen ? argvlen[j] : strlen(argv[j])] *)
Definition arg_len (argv : list (list Z)) (argvlen : option (list Z)) (j : Z) : outcome Z :=
  match argvlen with
  | Some l => elem_at l j
  | None => a ← elem_at argv j; strlen a
  end.

Fixpoint total_loop (n : nat) (argv : list (list Z)) (argvlen : option (list Z)) (j totlen : Z) : outcome Z :=
  match n with
  | O => Ok totlen
  | S n =>
      len ← arg_len argv argvlen j;
      b ← bulklen len;
      total_loop n argv argvlen (j + 1) (u64 (totlen + b))
  end.

(** The size of the command for an [int] [argc]. *)
Definition total_length (argc : Z) (argv : list (list Z)) (argvlen : option (list Z)) : outcome Z :=
  n ← countDigits (u64 argc);
  total_loop (Z.to_nat argc) argv argvlen 0 (u32 (u32 (1 + n) + 2)).

Fixpoint sds_args_loop (junk : Z) (n : nat) (argv : list (list Z)) (argvlen : option (list Z)) (j : Z) (cmd : sds) : outcome sds :=
  match n with
  | O => Ok cmd
  | S n =>
      len ← arg_len argv argvlen j;
      cmd ← sdscatfmt junk cmd [36; 37; 84; 13; 10] [ArgUint len];
      a ← elem_at argv j;
      cmd ← sdscatlen junk cmd a len;
      cmd ← sdscatlen junk cmd [13; 10; 0] 2;
      sds_args_loop junk n argv argvlen (j + 1) cmd
  end.

(** [redisFormatSdsCommandArgv(&cmd, argc, argv, argvlen)]: the return value and
    the command. *)
Definition redisFormatSdsCommandArgv (junk argc : Z) (argv : list (list Z)) (argvlen : option (list Z)) : outcome (Z * sds) :=
  totlen ← total_length argc argv argvlen;
  cmd ← sdsempty junk;
  cmd ← sdsMakeRoomFor junk cmd totlen;
  cmd ← sdscatfmt junk cmd [42; 37; 105; 13; 10] [ArgInt argc];
  cmd ← sds_args_loop junk (Z.to_nat argc) argv argvlen 0 cmd;
  c_assert (sdslen cmd =? totlen) ;;
  Ok (i32 totlen, cmd).

(** [sprintf(cmd + pos, ...)] of a prefix, a number and a line end; the terminating
    NUL is written too. *)
Definition sprintf_line (cmd : list Z) (pos c : Z) (number : list Z) : outcome (list Z * Z) :=
  let s := [c] ++ number ++ [13; 10] in
  cmd ← write_at cmd pos (s ++ [0]);
  Ok (cmd, i32 (pos + zlen s)).

Fixpoint args_buffer_loop (n : nat) (argv : list (list Z)) (argvlen : option (list Z)) (j : Z) (cmd : list Z) (pos : Z)
  : outcome (list Z * Z) :=
  match n with
  | O => Ok (cmd, pos)
  | S n =>
      len ← arg_len argv argvlen j;
      '(cmd, pos) ← sprintf_line cmd pos 36 (sdsull2str len);
      a ← elem_at argv j;
      src ← read_at a 0 len;
      cmd ← write_at cmd pos src;
      let pos := i32 (u64 (pos + len)) in
      cmd ← write_at cmd pos [13];
      cmd ← write_at cmd (pos + 1) [10];
      args_buffer_loop n argv argvlen (j + 1) cmd (pos + 1 + 1)
  end.

(** [redisFormatCommandArgv(&cmd, argc, argv, argvlen)] *)
Definition redisFormatCommandArgv (junk argc : Z) (argv : list (list Z)) (argvlen : option (list Z)) : outcome (Z * list Z) :=
  totlen ← total_length argc argv argvlen;
  let totlen := i32 totlen in
  let cmd := replicate (Z.to_nat (totlen + 1)) junk in
  '(cmd, pos) ← sprintf_line cmd 0 42 (sdsll2str argc);
  '(cmd, pos) ← args_buffer_loop (Z.to_nat argc) argv argvlen 0 cmd pos;
  c_assert (pos =? totlen) ;;
  cmd ← write_at cmd pos [0];
  Ok (totlen, cmd).

Example format_1 :
  ('(n, s) ← redisFormatSdsCommandArgv 7 2 [[71; 69; 84; 0]; [107; 0; 13; 10; 120]] (Some [3; 5]); Ok (n, sds_content s))
  = Ok (24, encode (RArray [RString [71; 69; 84]; RString [107; 0; 13; 10; 120]])).
Proof. vm_compute. reflexivity. Qed.

(** ** The number of digits *)

Lemma rev_digits_fuel f : forall f' v, 0 <= v < 10 ^ Z.of_nat f -> 0 <= v < 10 ^ Z.of_nat f' -> rev_digits f v = rev_digits f' v \/ f = 0%nat \/ f' = 0%nat.
Proof.
  induction f as [|f IH]; intros [|f'] v Hf Hf'; auto. left. cbn [rev_digits]. f_equal. destruct (Z.eqb_spec (v / 10) 0) as [|Hne]; [done|].
  assert (0 <= v / 10) by (apply Z.div_pos; lia).
  rewrite Nat2Z.inj_succ, Z.pow_succ_r in Hf, Hf' by lia.
  assert (v / 10 < 10 ^ Z.of_nat f) by (apply Z.div_lt_upper_bound; lia). assert (v / 10 < 10 ^ Z.of_nat f') by (apply Z.div_lt_upper_bound; lia).
  destruct (IH f' (v / 10)) as [E|[-> | ->]]; [lia|lia|exact E| |]; cbn in *; lia.
Qed.

Lemma rev_digits_pow n : forall f v, 0 <= v -> 10 ^ Z.of_nat n <= v -> (n <= f)%nat -> v < 10 ^ Z.of_nat f ->
  zlen (rev_digits f v) = Z.of_nat n + zlen (rev_digits (f - n) (v / 10 ^ Z.of_nat n)).
Proof.
  induction n as [|n IH]; intros f v Hv Hn Hf Hfv.
  - rewrite Nat.sub_0_r, Z.div_1_r. lia.
  - destruct f as [|f]; [lia|]. rewrite Nat2Z.inj_succ, Z.pow_succ_r in Hn, Hfv by lia. cbn [rev_digits].
    assert (10 ^ Z.of_nat n <= v / 10) by (apply Z.div_le_lower_bound; lia). assert (0 < 10 ^ Z.of_nat n) by (apply Z.pow_pos_nonneg; lia).
    rewrite (proj2 (Z.eqb_neq _ _)), zlen_cons by lia.
    rewrite (IH f (v / 10)); [|lia|done|lia|apply Z.div_lt_upper_bound; lia].
    rewrite Nat2Z.inj_succ, Z.pow_succ_r, Zdiv.Zdiv_Zdiv by lia. cbn [Nat.sub]. lia.
Qed.

Lemma zlen_sdsull2str v : zlen (sdsull2str v) = zlen (rev_digits 20 v).
Proof. unfold sdsull2str, zlen. by rewrite length_reverse. Qed.

Lemma count_digits_spec k : forall f v result, 0 <= v < 10 ^ Z.of_nat (4 * k) -> (k <= f)%nat -> (0 < k)%nat -> 0 <= result -> result + 4 * Z.of_nat k < 2 ^ 32 ->
  count_digits f v result = Ok (result + zlen (rev_digits (4 * k) v) - 1).
Proof.
  induction k as [|k IH]; intros f v result Hv Hf Hk Hr Hb; [lia|]. destruct f as [|f]; [lia|]. cbn [count_digits].
  assert (Hlead : forall n, (n < 4)%nat -> 10 ^ Z.of_nat n <= v -> v < 10 * 10 ^ Z.of_nat n -> zlen (rev_digits (4 * S k) v) = Z.of_nat n + 1).
  { intros n Hn Hlo Hhi. rewrite (rev_digits_pow n) by lia. assert (0 < 10 ^ Z.of_nat n) by (apply Z.pow_pos_nonneg; lia).
    assert (v / 10 ^ Z.of_nat n < 10) by (apply Z.div_lt_upper_bound; lia). assert (0 <= v / 10 ^ Z.of_nat n) by (apply Z.div_pos; lia).
    destruct (4 * S k - n)%nat as [|m] eqn:E; [lia|]. cbn [rev_digits]. rewrite (Z.div_small (v / 10 ^ Z.of_nat n) 10) by lia. done. }
  destruct (Z.ltb_spec v 10).
  { destruct (Z.eq_dec v 0) as [->|]; [replace (4 * S k)%nat with (S (3 + 4 * k)) by lia; change (zlen (rev_digits (S (3 + 4 * k)) 0)) with 1; f_equal; lia|].
    rewrite (Hlead 0%nat) by (cbn; lia). f_equal. lia. }
  destruct (Z.ltb_spec v 100); [rewrite (Hlead 1%nat) by (cbn; lia); f_equal; mword|].
  destruct (Z.ltb_spec v 1000); [rewrite (Hlead 2%nat) by (cbn; lia); f_equal; mword|].
  destruct (Z.ltb_spec v 10000); [rewrite (Hlead 3%nat) by (cbn; lia); f_equal; mword|].
  replace (4 * S k)%nat with (4 + 4 * k)%nat in Hv by lia. rewrite Nat2Z.inj_add, Z.pow_add_r in Hv by lia.
  change (10 ^ Z.of_nat 4) with 10000 in Hv.
  destruct k as [|k]; [cbn in Hv; lia|].
  rewrite (IH f (v / 10000)); [| |lia|lia|mword|mword].
  - rewrite (rev_digits_pow 4 (4 * S (S k))); [|lia|cbn; lia|lia|replace (4 * S (S k))%nat with (4 + 4 * S k)%nat by lia; rewrite Nat2Z.inj_add, Z.pow_add_r by lia; change (10 ^ Z.of_nat 4) with 10000; lia].
    replace (4 * S (S k) - 4)%nat with (4 * S k)%nat by lia. change (10 ^ Z.of_nat 4) with 10000. f_equal. mword.
  - split; [apply Z.div_pos; lia|apply Z.div_lt_upper_bound; lia].
Qed.

Lemma countDigits_spec v : 0 <= v < 2 ^ 64 -> countDigits v = Ok (zlen (sdsull2str v)).
Proof.
  intros Hv. unfold countDigits. rewrite zlen_sdsull2str, (count_digits_spec 5); [|change (10 ^ Z.of_nat (4 * 5)) with 100000000000000000000; lia|lia|lia|lia|by vm_compute].
  f_equal. change (4 * 5)%nat with 20%nat. lia.
Qed.

(** ** The arguments *)

(** The [j]-th argument is the string [a]. *)
Definition arg_at (argv : list (list Z)) (argvlen : option (list Z)) (j : Z) (a : list Z) : Prop :=
  arg_len argv argvlen j = Ok (zlen a) /\ exists b, elem_at argv j = Ok b /\ read_at b 0 (zlen a) = Ok a.

(** The argument vector holds [args] from index [j] on. *)
Definition args_at (argv : list (list Z)) (argvlen : option (list Z)) (j : Z) (args : list (list Z)) : Prop :=
  forall i a, args !! i = Some a -> arg_at argv argvlen (j + Z.of_nat i) a.

Lemma args_at_cons argv argvlen j a args :
  args_at argv argvlen j (a :: args) -> arg_at argv argvlen j a /\ args_at argv argvlen (j + 1) args.
Proof.
  intros H. split; [specialize (H 0%nat a eq_refl); by rewrite Z.add_0_r in H|]. intros i b Hi. specialize (H (S i) b Hi).
  by replace (j + 1 + Z.of_nat i) with (j + Z.of_nat (S i)) by lia.
Qed.

(** What is built: an array of strings. *)
Definition command (args : list (list Z)) : reply := RArray (RString <$> args).
Definition bulks (args : list (list Z)) : list Z := concat (encode <$> (RString <$> args)).

Lemma ll_ull z : 0 <= z -> sdsll2str z = sdsull2str z.
Proof. intros Hz. unfold sdsll2str, sdsull2str. rewrite (proj2 (Z.ltb_ge z 0)) by done. by rewrite app_nil_r. Qed.

Lemma encode_bulk a : encode (RString a) = [36] ++ sdsull2str (zlen a) ++ [13; 10] ++ a ++ [13; 10].
Proof. cbn [encode]. by rewrite ll_ull by apply zlen_nonneg. Qed.
Lemma encode_command args : encode (command args) = [42] ++ sdsull2str (zlen args) ++ [13; 10] ++ bulks args.
Proof.
  unfold command, bulks. cbn [encode]. assert (zlen (RString <$> args) = zlen args) as -> by (unfold zlen; by rewrite length_fmap).
  by rewrite ll_ull by apply zlen_nonneg.
Qed.
Lemma bulks_cons a args : bulks (a :: args) = encode (RString a) ++ bulks args.
Proof. done. Qed.

Lemma zlen_bulk a : zlen (encode (RString a)) = 1 + zlen (sdsull2str (zlen a)) + 2 + zlen a + 2.
Proof. rewrite encode_bulk, !zlen_app. change (zlen [36]) with 1. change (zlen [13; 10]) with 2. lia. Qed.

Lemma bulklen_spec a : zlen a < 2 ^ 30 -> bulklen (zlen a) = Ok (zlen (encode (RString a))).
Proof.
  intros Ha. pose proof (zlen_nonneg a). unfold bulklen. rewrite countDigits_spec by lia. cbn [mbind outcome_bind].
  destruct (u64_digits (zlen a)) as (_ & _ & Hd); [lia|]. pose proof (zlen_nonneg (sdsull2str (zlen a))). rewrite zlen_bulk. f_equal. mword.
Qed.

Lemma total_loop_spec argv argvlen args : forall j totlen,
  args_at argv argvlen j args -> 0 <= totlen -> totlen + zlen (bulks args) < 2 ^ 30 ->
  total_loop (length args) argv argvlen j totlen = Ok (totlen + zlen (bulks args)).
Proof.
  induction args as [|a args IH]; intros j totlen Hat Ht Hb; [by rewrite Z.add_0_r|].
  apply args_at_cons in Hat as [[Hlen _] Hat]. rewrite bulks_cons, zlen_app in *. cbn [length total_loop]. rewrite Hlen. cbn [mbind outcome_bind].
  pose proof (zlen_nonneg (bulks args)). pose proof (zlen_bulk a). pose proof (zlen_nonneg a). pose proof (zlen_nonneg (sdsull2str (zlen a))).
  rewrite bulklen_spec by lia. cbn [mbind outcome_bind].
  assert (u64 (totlen + zlen (encode (RString a))) = totlen + zlen (encode (RString a))) as -> by mword.
  rewrite IH by (done || lia). f_equal. lia.
Qed.

Lemma total_spec argv argvlen args :
  args_at argv argvlen 0 args -> zlen (encode (command args)) < 2 ^ 30 ->
  total_length (zlen args) argv argvlen = Ok (zlen (encode (command args))) /\ zlen args < 2 ^ 30.
Proof.
  intros Hat Hb. rewrite encode_command, !zlen_app in *. change (zlen [42]) with 1 in *. change (zlen [13; 10]) with 2 in *.
  pose proof (zlen_nonneg args). pose proof (zlen_nonneg (bulks args)). pose proof (zlen_nonneg (sdsull2str (zlen args))).
  assert (Hargs : zlen args <= zlen (bulks args)).
  { clear. induction args as [|a args IH]; [done|]. rewrite bulks_cons, zlen_app, zlen_cons, zlen_bulk.
    pose proof (zlen_nonneg a). pose proof (zlen_nonneg (sdsull2str (zlen a))). lia. }
  destruct (u64_digits (zlen args)) as (_ & _ & Hd); [lia|]. split; [|lia]. unfold total_length.
  assert (u64 (zlen args) = zlen args) as -> by mword. rewrite countDigits_spec by lia. cbn [mbind outcome_bind].
  assert (Z.to_nat (zlen args) = length args) as -> by (unfold zlen; lia). rewrite total_loop_spec; [|done|mword|].
  - f_equal. mword.
  - assert (u32 (u32 (1 + zlen (sdsull2str (zlen args))) + 2) = 1 + zlen (sdsull2str (zlen args)) + 2) as -> by mword. lia.
Qed.

(** ** The sds builder *)

Lemma sds_args_spec junk argv argvlen args : forall j cmd c,
  args_at argv argvlen j args -> sds_holds cmd c -> zlen c + zlen (bulks args) < 2 ^ 30 - 1 ->
  exists cmd', sds_args_loop junk (length args) argv argvlen j cmd = Ok cmd' /\ sds_holds cmd' (c ++ bulks args).
Proof.
  induction args as [|a args IH]; intros j cmd c Hat Hc Hb; cbn [length sds_args_loop].
  { exists cmd. split; [done|]. by rewrite app_nil_r. }
  apply args_at_cons in Hat as [(Hlen & b & Hel & Hread) Hat]. rewrite bulks_cons, zlen_app in Hb. rewrite Hlen, Hel. cbn [mbind outcome_bind].
  pose proof (zlen_nonneg (bulks args)). pose proof (zlen_bulk a) as Hza. pose proof (zlen_nonneg a). pose proof (zlen_nonneg (sdsull2str (zlen a))).
  destruct (catfmt_holds junk cmd c [36; 37; 84; 13; 10] [ArgUint (zlen a)] ([36] ++ sdsull2str (zlen a) ++ [13; 10]) Hc)
    as (cmd1 & -> & Hc1); [by_decide|by repeat constructor|done| |].
  { rewrite !zlen_app. change (zlen [36]) with 1. change (zlen [13; 10]) with 2. lia. }
  cbn [mbind outcome_bind]. set (l := [36] ++ sdsull2str (zlen a) ++ [13; 10]) in *.
  assert (Hl : zlen l = 1 + zlen (sdsull2str (zlen a)) + 2) by (subst l; rewrite !zlen_app; change (zlen [36]) with 1; change (zlen [13; 10]) with 2; lia).
  destruct (catlen_holds junk cmd1 (c ++ l) b (zlen a) a Hc1 Hread) as (cmd2 & -> & Hc2); [rewrite zlen_app; lia|]. cbn [mbind outcome_bind].
  destruct (catlen_holds junk cmd2 ((c ++ l) ++ a) [13; 10; 0] 2 [13; 10] Hc2 eq_refl) as (cmd3 & -> & Hc3); [rewrite !zlen_app; lia|]. cbn [mbind outcome_bind].
  assert (Hcat : ((c ++ l) ++ a) ++ [13; 10] = c ++ encode (RString a)).
  { subst l. rewrite encode_bulk, <- !app_assoc. done. }
  rewrite Hcat in Hc3. destruct (IH (j + 1) cmd3 _ Hat Hc3) as (cmd4 & -> & Hc4); [rewrite zlen_app; lia|].
  exists cmd4. split; [done|]. by rewrite bulks_cons, app_assoc.
Qed.

Lemma format_sds_spec junk argv argvlen args :
  args_at argv argvlen 0 args -> zlen (encode (command args)) < 2 ^ 30 - 1 ->
  exists cmd, redisFormatSdsCommandArgv junk (zlen args) argv argvlen = Ok (zlen (encode (command args)), cmd) /\
    sds_holds cmd (encode (command args)).
Proof.
  intros Hat Hb. unfold redisFormatSdsCommandArgv. destruct (total_spec argv argvlen args Hat) as [-> Hargs]; [lia|]. cbn [mbind outcome_bind].
  destruct (sdsempty_holds junk) as (s0 & -> & Hs0). cbn [mbind outcome_bind]. pose proof (zlen_nonneg (encode (command args))). pose proof (zlen_nonneg args).
  destruct (make_room junk s0 [] (zlen (encode (command args))) Hs0) as (rest & -> & _ & Hrest); [lia|rewrite zlen_nil; lia|]. cbn [mbind outcome_bind].
  assert (Hs1 : sds_holds (mkSds (zlen []) (zlen rest) ([] ++ 0 :: rest)) []) by (by exists rest).
  assert (Hhead : zlen (encode (command args)) = zlen ([42] ++ sdsull2str (zlen args) ++ [13; 10]) + zlen (bulks args)).
  { rewrite encode_command, !zlen_app. lia. }
  pose proof (zlen_nonneg (bulks args)).
  destruct (catfmt_holds junk _ [] [42; 37; 105; 13; 10] [ArgInt (zlen args)] ([42] ++ sdsll2str (zlen args) ++ [13; 10]) Hs1)
    as (s2 & -> & Hs2); [by_decide|by repeat constructor|done|rewrite ll_ull, zlen_nil by done; lia|]. cbn [mbind outcome_bind]. cbn [Datatypes.app] in Hs2.
  assert (Z.to_nat (zlen args) = length args) as -> by (unfold zlen; lia). rewrite ll_ull in Hs2 by done.
  destruct (sds_args_spec junk argv argvlen args 0 s2 _ Hat Hs2) as (s3 & -> & Hs3).
  { change (42 :: sdsull2str (zlen args) ++ [13; 10]) with ([42] ++ sdsull2str (zlen args) ++ [13; 10]). lia. }
  cbn [mbind outcome_bind].
  assert (Heq : (42 :: sdsull2str (zlen args) ++ [13; 10]) ++ bulks args = encode (command args)).
  { rewrite encode_command. cbn [Datatypes.app]. by rewrite <- app_assoc. }
  rewrite Heq in Hs3. destruct (sds_holds_len s3 _ Hs3) as [-> _]. rewrite Z.eqb_refl. cbn [c_assert mbind outcome_bind].
  exists s3. split; [|done]. do 2 f_equal. mword.
Qed.

(** ** The builder in a buffer *)

Lemma write_over c rest s : zlen s <= zlen rest ->
  exists rest', write_at (c ++ rest) (zlen c) s = Ok ((c ++ s) ++ rest') /\ zlen rest' = zlen rest - zlen s.
Proof.
  intros Hs. pose proof (zlen_nonneg s). destruct (split_at rest (zlen s)) as (a & b & -> & Ha); [lia|].
  exists b. rewrite (write_at_mid c a s b) by done. rewrite <- app_assoc, !zlen_app. split; [done|lia].
Qed.

Lemma sprintf_line_spec c rest ch number :
  zlen number + 4 <= zlen rest -> zlen c + zlen number + 3 < 2 ^ 31 ->
  exists rest', sprintf_line (c ++ rest) (zlen c) ch number = Ok ((c ++ [ch] ++ number ++ [13; 10]) ++ rest', zlen (c ++ [ch] ++ number ++ [13; 10])) /\
    zlen rest' = zlen rest - (zlen number + 3).
Proof.
  intros Hr Hb. unfold sprintf_line. cbv zeta. pose proof (zlen_nonneg c). pose proof (zlen_nonneg number).
  assert (Hs : zlen ([ch] ++ number ++ [13; 10]) = zlen number + 3) by (rewrite !zlen_app; change (zlen [ch]) with 1; change (zlen [13; 10]) with 2; lia).
  destruct (write_over c rest (([ch] ++ number ++ [13; 10]) ++ [0])) as (rest' & -> & Hl); [rewrite zlen_app, Hs; change (zlen [0]) with 1; lia|].
  cbn [mbind outcome_bind]. exists (0 :: rest'). rewrite zlen_app, Hs in Hl. change (zlen [0]) with 1 in Hl.
  rewrite (zlen_app c), Hs, zlen_cons. split; [|lia]. rewrite <- !app_assoc. do 2 f_equal. mword.
Qed.

Lemma buffer_args_spec argv argvlen args : forall j c rest,
  args_at argv argvlen j args -> zlen rest = zlen (bulks args) + 1 -> zlen c + zlen (bulks args) < 2 ^ 30 ->
  exists x, args_buffer_loop (length args) argv argvlen j (c ++ rest) (zlen c) = Ok ((c ++ bulks args) ++ [x], zlen (c ++ bulks args)).
Proof.
  induction args as [|a args IH]; intros j c rest Hat Hr Hb; cbn [length args_buffer_loop].
  { change (zlen (bulks [])) with 0 in Hr. destruct rest as [|x [|]]; [done| |rewrite !zlen_cons in Hr; pose proof (zlen_nonneg l); lia].
    exists x. change (bulks []) with (@nil Z). by rewrite app_nil_r. }
  apply args_at_cons in Hat as [(Hlen & b & Hel & Hread) Hat]. rewrite bulks_cons, zlen_app in *. rewrite Hlen, Hel. cbn [mbind outcome_bind].
  pose proof (zlen_nonneg (bulks args)). pose proof (zlen_bulk a) as Hza. pose proof (zlen_nonneg a). pose proof (zlen_nonneg c).
  pose proof (zlen_nonneg (sdsull2str (zlen a))).
  destruct (sprintf_line_spec c rest 36 (sdsull2str (zlen a))) as (rest1 & -> & Hr1); [lia|lia|]. cbn [mbind outcome_bind].
  set (c1 := c ++ [36] ++ sdsull2str (zlen a) ++ [13; 10]). rewrite Hread. cbn [mbind outcome_bind].
  assert (Hc1 : zlen c1 = zlen c + zlen (sdsull2str (zlen a)) + 3) by (subst c1; rewrite !zlen_app; change (zlen [36]) with 1; change (zlen [13; 10]) with 2; lia).
  destruct (write_over c1 rest1 a) as (rest2 & -> & Hr2); [lia|]. cbn [mbind outcome_bind].
  assert (i32 (u64 (zlen c1 + zlen a)) = zlen (c1 ++ a)) as -> by (rewrite zlen_app; mword).
  destruct (write_over (c1 ++ a) rest2 [13]) as (rest3 & -> & Hr3); [change (zlen [13]) with 1; lia|]. cbn [mbind outcome_bind]. change (zlen [13]) with 1 in Hr3.
  assert (zlen (c1 ++ a) + 1 = zlen ((c1 ++ a) ++ [13])) as -> by (rewrite (zlen_app (c1 ++ a)); done).
  destruct (write_over ((c1 ++ a) ++ [13]) rest3 [10]) as (rest4 & -> & Hr4); [change (zlen [10]) with 1; lia|]. cbn [mbind outcome_bind]. change (zlen [10]) with 1 in Hr4.
  assert (Hc2 : ((c1 ++ a) ++ [13]) ++ [10] = c ++ encode (RString a)) by (subst c1; rewrite encode_bulk, <- !app_assoc; done).
  assert (zlen ((c1 ++ a) ++ [13]) + 1 = zlen (c ++ encode (RString a))) as -> by (rewrite <- Hc2, (zlen_app ((c1 ++ a) ++ [13])); done).
  rewrite Hc2. destruct (IH (j + 1) (c ++ encode (RString a)) rest4 Hat) as (x & ->); [lia|rewrite zlen_app; lia|].
  exists x. by rewrite <- (zlen_app c), (app_assoc c).
Qed.

Lemma format_buffer_spec junk argv argvlen args :
  args_at argv argvlen 0 args -> zlen (encode (command args)) < 2 ^ 30 - 1 ->
  redisFormatCommandArgv junk (zlen args) argv argvlen = Ok (zlen (encode (command args)), encode (command args) ++ [0]).
Proof.
  intros Hat Hb. unfold redisFormatCommandArgv. destruct (total_spec argv argvlen args Hat) as [-> Hargs]; [lia|]. cbn [mbind outcome_bind].
  pose proof (zlen_nonneg (encode (command args))). pose proof (zlen_nonneg args). pose proof (zlen_nonneg (bulks args)).
  set (total := zlen (encode (command args))) in *. assert (Hi : i32 total = total) by mword. rewrite Hi. cbv zeta.
  assert (Hhead : total = zlen (sdsull2str (zlen args)) + 3 + zlen (bulks args)).
  { subst total. rewrite encode_command, !zlen_app. change (zlen [42]) with 1. change (zlen [13; 10]) with 2. lia. }
  set (buf := replicate _ junk). assert (Hbuf : zlen buf = total + 1) by (subst buf; unfold zlen at 1; rewrite length_replicate; lia).
  rewrite ll_ull by done.
  destruct (sprintf_line_spec [] buf 42 (sdsull2str (zlen args))) as (rest & E & Hr); [lia|rewrite zlen_nil; lia|].
  set (c := [] ++ [42] ++ sdsull2str (zlen args) ++ [13; 10]) in E. change ([] ++ buf) with buf in E. rewrite zlen_nil in E.
  rewrite E. cbn [mbind outcome_bind].
  assert (Z.to_nat (zlen args) = length args) as -> by (unfold zlen; lia).
  assert (Hc : c ++ bulks args = encode (command args)).
  { subst c. rewrite encode_command. cbn [Datatypes.app]. by rewrite <- app_assoc. }
  destruct (buffer_args_spec argv argvlen args 0 c rest Hat) as (x & ->); [lia| |].
  { rewrite <- zlen_app, Hc. lia. }
  cbn [mbind outcome_bind]. rewrite Hc. fold total. rewrite Z.eqb_refl. cbn [c_assert mbind outcome_bind].
  subst total. by rewrite write_at_end.
Qed.

(** ** Claims *)

(** The two command builders agree: for the same argument vector,
    [redisFormatSdsCommandArgv] and [redisFormatCommandArgv] return the same length
    and build the same bytes, the array of the arguments in the redis protocol,
    never write outside of what they allocated, and their assertion that the
    length was computed right (by [countDigits] and [bulklen]) cannot fail. *)
Theorem format_commands_agree (junk : Z) (argv : list (list Z)) (argvlen : option (list Z)) (args : list (list Z)) :
  args_at argv argvlen 0 args -> zlen (encode (command args)) < 2 ^ 30 - 1 ->
  exists cmd, redisFormatSdsCommandArgv junk (zlen args) argv argvlen = Ok (zlen (encode (command args)), cmd) /\
    sds_holds cmd (encode (command args)) /\
    redisFormatCommandArgv junk (zlen args) argv argvlen = Ok (zlen (encode (command args)), encode (command args) ++ [0]).
Proof.
  intros Hat Hb. destruct (format_sds_spec junk argv argvlen args Hat Hb) as (cmd & E & Hcmd). exists cmd.
  split; [done|]. split; [done|]. by apply format_buffer_spec.
Qed.

Lemma get_args_at : args_at [[71; 69; 84; 0]; [107; 0; 13; 10; 120]] (Some [3; 5]) 0 [[71; 69; 84]; [107; 0; 13; 10; 120]].
Proof. intros [|[|[|i]]] a [= <-]; (split; [done|]); eexists; done. Qed.

Lemma format_commands_agree_witness :
  exists cmd, redisFormatSdsCommandArgv 7 2 [[71; 69; 84; 0]; [107; 0; 13; 10; 120]] (Some [3; 5]) = Ok (24, cmd) /\
    sds_holds cmd (encode (command [[71; 69; 84]; [107; 0; 13; 10; 120]])) /\
    redisFormatCommandArgv 7 2 [[71; 69; 84; 0]; [107; 0; 13; 10; 120]] (Some [3; 5]) = Ok (24, encode (command [[71; 69; 84]; [107; 0; 13; 10; 120]]) ++ [0]).
Proof. exact (format_commands_agree 7 _ _ _ get_args_at eq_refl). Defined.

(** C24: round trip of a command.  What [redisFormatSdsCommandArgv] builds for an
    argument vector, fed to an idle reader, is parsed as the array of exactly the
    arguments: their number, their order and all their bytes, NUL and line ends
    included. *)
Theorem command_roundtrip (junk : Z) (argv : list (list Z)) (argvlen : option (list Z)) (args : list (list Z)) (r : redisReader) (h : heap) :
  args_at argv argvlen 0 args -> zlen (encode (command args)) + r_len r < 2 ^ 30 - 1 ->
  idle r [] -> 0 < next h ->
  exists n cmd r' h' p, redisFormatSdsCommandArgv junk (zlen args) argv argvlen = Ok (n, cmd) /\
    feed_get (Some defaultFunctions) junk (sds_content cmd) r h = Ok (r', h', REDIS_OK, p) /\
    represents (next h) (next h') (objects h') (command args) p /\ idle r' [].
Proof.
  intros Hat Hb Hidle Hn. assert (Hl : 0 <= r_len r) by (destruct Hidle as [(s & c & _ & _ & -> & _) _]; apply zlen_nonneg).
  destruct (format_sds_spec junk argv argvlen args Hat) as (cmd & E & Hcmd); [lia|].
  assert (Hfits : fits 0 (command args)).
  { apply fits_array. destruct (total_spec argv argvlen args Hat) as [_ Ha]; [lia|].
    split; [lia|]. split; [unfold zlen in *; rewrite length_fmap; lia|]. apply Forall_fmap, Forall_forall. intros a Hin. cbn.
    assert (zlen a <= zlen (encode (command args))); [|lia]. rewrite encode_command, !zlen_app.
    pose proof (zlen_nonneg [42]). pose proof (zlen_nonneg (sdsull2str (zlen args))). change (zlen [13; 10]) with 2.
    cut (zlen a <= zlen (bulks args)); [lia|]. clear -Hin. induction args as [|b args IH]; [by apply not_elem_of_nil in Hin|].
    rewrite bulks_cons, zlen_app, zlen_bulk. pose proof (zlen_nonneg (sdsull2str (zlen b))). pose proof (zlen_nonneg (bulks args)). pose proof (zlen_nonneg b).
    apply elem_of_cons in Hin as [->|Hin]; [lia|]. apply IH in Hin. lia. }
  destruct (reply_parsed junk r h (command args) [] Hidle Hn Hfits) as (r' & h' & p & Eget & Hrep & _ & Hidle' & _).
  { rewrite app_nil_r. lia. }
  exists (zlen (encode (command args))), cmd, r', h', p. rewrite (sds_holds_content _ _ Hcmd). rewrite app_nil_r in Eget. done.
Qed.

Lemma command_roundtrip_witness :
  exists r, redisReaderCreate 7 = Ok r /\ exists n cmd r' h' p,
    redisFormatSdsCommandArgv 7 2 [[71; 69; 84; 0]; [107; 0; 13; 10; 120]] (Some [3; 5]) = Ok (n, cmd) /\
    feed_get (Some defaultFunctions) 7 (sds_content cmd) r (mkHeap ∅ 1) = Ok (r', h', REDIS_OK, p) /\
    represents 1 (next h') (objects h') (command [[71; 69; 84]; [107; 0; 13; 10; 120]]) p /\ idle r' [].
Proof.
  destruct (created_ready 7) as (r & E & Hready & Hidx & Hlen). exists r. split; [exact E|].
  apply (command_roundtrip 7 _ _ [[71; 69; 84]; [107; 0; 13; 10; 120]] r (mkHeap ∅ 1) get_args_at).
  - rewrite Hlen. by vm_compute.
  - split; [done|]. split; [done|]. by injection E as <-.
  - done.
Defined.
