(* ===== verification/Async.v ===== *)
(** * Asynchronous contexts of hiredis

    [hiredis/async.c]: commands are appended to an output buffer and their callbacks
    to a queue; replies are taken from the reader and given to the callbacks; the
    callbacks of subscriptions are kept in two hash tables.  The nodes of the queues
    are objects of a store, the tables are those of [HiDict], the reader that of
    [RedisReader] with the reply objects of [RedisReply].  What the program's
    callbacks do is an argument; a call of the operating system is represented by
    its result.  This file holds the state and the operations. *)

From Stdlib Require Import String.
From S2P Require Import Prelude Inet Sds RedisReader RedisParse RedisReply RedisFormat HiDict.

(** ** hiredis.h *)

Definition REDIS_ERR_IO : Z := 1.
Definition REDIS_ERR_OTHER : Z := 2.
Definition REDIS_ERR_EOF : Z := 3.
Definition REDIS_CONNECTED : Z := 0x2.
Definition REDIS_DISCONNECTING : Z := 0x4.
Definition REDIS_FREEING : Z := 0x8.
Definition REDIS_IN_CALLBACK : Z := 0x10.
Definition REDIS_SUBSCRIBED : Z := 0x20.
Definition REDIS_MONITORING : Z := 0x40.

(** ** async.h *)

(** [redisCallback] on the heap; a pointer is an address, 0 is null, and a function
    is a number, 0 is null. *)
Record redisCallback := mkCb { cb_next : Z; cb_fn : Z; cb_privdata : Z }.
Record redisCallbackList := mkCbList { cl_head : Z; cl_tail : Z }.

(** A callback without its link: the function and its argument. *)
Abbreviation target := (Z * Z)%type.

(** The nodes that are allocated and the next address. *)
Record cells := mkCells { nodes : gmap Z redisCallback; node_brk : Z }.

(** The hooks of the event library. *)
Inductive event := AddRead | DelRead | AddWrite | DelWrite | Cleanup.

(** ** The tables of subscriptions *)

(** How many key strings and how many copied callbacks are allocated; a key is shorter
    than 2^31 bytes, so that its length is an [int]. *)
Abbreviation blocks := (Z * Z)%type.

Definition callbackHash (key : list Z) : Z := dictGenHashFunction key.
Definition callbackValDup (src : target) (w : blocks) : target * blocks := (src, (w.1, w.2 + 1)).
Definition callbackKeyCompare (key1 key2 : list Z) : bool := if negb (zlen key1 =? zlen key2) then false else memcmp key1 key2 =? 0.
Definition callbackKeyDestructor (key : list Z) (w : blocks) : blocks := (w.1 - 1, w.2).
Definition callbackValDestructor (val : target) (w : blocks) : blocks := (w.1, w.2 - 1).

Definition callbackDict : dictType (K := list Z) (V := target) (W := blocks) :=
  mkType callbackHash None (Some callbackValDup) (Some callbackKeyCompare) (Some callbackKeyDestructor) (Some callbackValDestructor).

(** ** The context *)

(** [redisAsyncContext] with the fields of its [redisContext] that are used; [user] is
    what the callbacks keep of their own. *)
Record redisAsyncContext (U : Type) := mkAsync {
  c_err : Z; c_errstr : list Z; c_flags : Z; c_obuf : sds; c_reader : redisReader; c_objects : heap;
  ac_err : Z;
  ac_cells : cells; replies : redisCallbackList; invalid : redisCallbackList;
  channels : dict (K := list Z) (V := target); patterns : dict (K := list Z) (V := target); ac_blocks : blocks;
  onConnect : Z; onDisconnect : Z;
  has_ev : bool; events : list event;
  released : bool;
  user : U }.
Arguments mkAsync {U} _ _ _ _ _ _ _ _ _ _ _ _ _ _ _ _ _ _ _.
Arguments c_err {U} _.
Arguments c_errstr {U} _.
Arguments c_flags {U} _.
Arguments c_obuf {U} _.
Arguments c_reader {U} _.
Arguments c_objects {U} _.
Arguments ac_err {U} _.
Arguments ac_cells {U} _.
Arguments replies {U} _.
Arguments invalid {U} _.
Arguments channels {U} _.
Arguments patterns {U} _.
Arguments ac_blocks {U} _.
Arguments onConnect {U} _.
Arguments onDisconnect {U} _.
Arguments has_ev {U} _.
Arguments events {U} _.
Arguments released {U} _.
Arguments user {U} _.
#[export] Instance eta_async U : Eta (redisAsyncContext U) := fun a =>
  mkAsync (c_err a) (c_errstr a) (c_flags a) (c_obuf a) (c_reader a) (c_objects a) (ac_err a) (ac_cells a) (replies a) (invalid a)
    (channels a) (patterns a) (ac_blocks a) (onConnect a) (onDisconnect a) (has_ev a) (events a) (released a) (user a).

(** ** Queues of callbacks *)

Definition cell (h : cells) (p : Z) : outcome redisCallback :=
  if p =? 0 then Crash NullDeref else match nodes h !! p with Some c => Ok c | None => Crash UseAfterFree end.

Definition __redisPushCallback (h : cells) (l : redisCallbackList) (source : target) : outcome (cells * redisCallbackList) :=
  let cb := node_brk h in
  let h := mkCells (<[cb := mkCb 0 source.1 source.2]> (nodes h)) (cb + 1) in
  let head := if cl_head l =? 0 then cb else cl_head l in
  h ← (if negb (cl_tail l =? 0) then
         t ← cell h (cl_tail l);
         Ok (mkCells (<[cl_tail l := mkCb cb (cb_fn t) (cb_privdata t)]> (nodes h)) (node_brk h))
       else Ok h);
  Ok (h, mkCbList head cb).

(** The callback is [None] for [REDIS_ERR]. *)
Definition __redisShiftCallback (h : cells) (l : redisCallbackList) : outcome (cells * redisCallbackList * option target) :=
  let cb := cl_head l in
  if negb (cb =? 0) then
    c ← cell h cb;
    Ok (mkCells (delete cb (nodes h)) (node_brk h), mkCbList (cb_next c) (if cb =? cl_tail l then 0 else cl_tail l), Some (cb_fn c, cb_privdata c))
  else Ok (h, l, None).

Section async.
Context {U : Type}.
Abbreviation ctx := (redisAsyncContext U).
Implicit Types (ac : ctx).

(** What the callbacks of the program do: the callback of a reply (function, argument,
    reply), and those of the connection (function, status). *)
Context (call : Z -> Z -> Z -> ctx -> outcome ctx) (call_status : Z -> Z -> ctx -> outcome ctx).
Context (junk : Z).

Definition fns : option (redisReplyObjectFunctions heap) := Some defaultFunctions.

Definition flag ac (f : Z) : bool := negb (Z.land (c_flags ac) f =? 0).
Definition set_flag ac (f : Z) : ctx := ac <| c_flags := Z.lor (c_flags ac) f |>.
Definition clear_flag ac (f : Z) : ctx := ac <| c_flags := Z.land (c_flags ac) (Z.lnot f) |>.

(** The [_EL_] macros. *)
Definition _EL ac (e : event) : ctx := if has_ev ac then ac <| events := events ac ++ [e] |> else ac.

(** An access to a context that was freed. *)
Definition alive ac : outcome unit := if released ac then Crash UseAfterFree else Ok tt.

Definition push_reply ac (cb : target) : outcome ctx :=
  '(h, l) ← __redisPushCallback (ac_cells ac) (replies ac) cb; Ok (ac <| ac_cells := h |> <| replies := l |>).
Definition push_invalid ac (cb : target) : outcome ctx :=
  '(h, l) ← __redisPushCallback (ac_cells ac) (invalid ac) cb; Ok (ac <| ac_cells := h |> <| invalid := l |>).
Definition shift_reply ac : outcome (ctx * option target) :=
  '(h, l, cb) ← __redisShiftCallback (ac_cells ac) (replies ac); Ok (ac <| ac_cells := h |> <| replies := l |>, cb).
Definition shift_invalid ac : outcome (ctx * option target) :=
  '(h, l, cb) ← __redisShiftCallback (ac_cells ac) (invalid ac); Ok (ac <| ac_cells := h |> <| invalid := l |>, cb).

(** ** Creation *)

(** [redisAsyncInitialize] on a context whose socket is connecting. *)
Definition redisAsyncInitialize (err flags : Z) (obuf : sds) (reader : redisReader) (objects : heap) (u : U) : ctx :=
  mkAsync err [] (Z.land flags (Z.lnot REDIS_CONNECTED)) obuf reader objects 0 (mkCells ∅ 1) (mkCbList 0 0) (mkCbList 0 0)
    (dictCreate ∅ 1) (dictCreate ∅ 1) (0, 0) 0 0 false [] false u.

Definition __redisAsyncCopyError ac : ctx := ac <| ac_err := c_err ac |>.

Definition redisAsyncSetConnectCallback ac (fn : Z) : ctx * Z :=
  if onConnect ac =? 0 then (_EL (ac <| onConnect := fn |>) AddWrite, REDIS_OK) else (ac, REDIS_ERR).
Definition redisAsyncSetDisconnectCallback ac (fn : Z) : ctx * Z :=
  if onDisconnect ac =? 0 then (ac <| onDisconnect := fn |>, REDIS_OK) else (ac, REDIS_ERR).

(** ** The end of a context *)

Definition __redisRunCallback ac (cb : target) (reply : Z) : outcome ctx :=
  if negb (cb.1 =? 0) then
    ac ← call cb.1 cb.2 reply (set_flag ac REDIS_IN_CALLBACK);
    Ok (clear_flag ac REDIS_IN_CALLBACK)
  else Ok ac.

(** [while (__redisShiftCallback(...) == REDIS_OK) __redisRunCallback(ac,&cb,NULL);] *)
Fixpoint drain (shift : ctx -> outcome (ctx * option target)) (fuel : nat) ac : outcome ctx :=
  match fuel with
  | O => Crash OutOfFuel
  | S fuel =>
    '(ac, cb) ← shift ac;
    match cb with
    | Some cb => ac ← __redisRunCallback ac cb 0; drain shift fuel ac
    | None => Ok ac
    end
  end.

(** [while ((de = dictNext(it)) != NULL)] *)
Fixpoint run_table (table : ctx -> dict (K := list Z) (V := target)) (fuel : nat) ac (it : dictIterator) : outcome ctx :=
  match fuel with
  | O => Crash OutOfFuel
  | S fuel =>
    '(it, de) ← dictNext (table ac) it;
    if de =? 0 then Ok ac else
    e ← entry (entries (table ac)) de;
    ac ← __redisRunCallback ac (e_val e) 0;
    run_table table fuel ac it
  end.

(** [dictRelease]; the heap of entries that is left belongs to an empty table. *)
Definition release_channels ac : outcome ctx :=
  '(E, w) ← dictRelease callbackDict (channels ac) (ac_blocks ac); Ok (ac <| channels := dictCreate E (brk (channels ac)) |> <| ac_blocks := w |>).
Definition release_patterns ac : outcome ctx :=
  '(E, w) ← dictRelease callbackDict (patterns ac) (ac_blocks ac); Ok (ac <| patterns := dictCreate E (brk (patterns ac)) |> <| ac_blocks := w |>).

(** [redisFree]: of what it frees only the reply the reader holds is on a heap of
    this model. *)
Definition redisFree ac : outcome ctx :=
  h ← redisReaderFree fns (c_reader ac) (c_objects ac);
  Ok (ac <| c_objects := h |> <| released := true |>).

Definition __redisAsyncFree (fuel : nat) ac : outcome ctx :=
  ac ← drain shift_reply fuel ac;
  ac ← drain shift_invalid fuel ac;
  ac ← run_table channels fuel ac dictGetIterator;
  ac ← release_channels ac;
  ac ← run_table patterns fuel ac dictGetIterator;
  ac ← release_patterns ac;
  let ac := _EL ac Cleanup in
  ac ← (if negb (onDisconnect ac =? 0) && flag ac REDIS_CONNECTED then
          call_status (onDisconnect ac) (if flag ac REDIS_FREEING then REDIS_OK else if ac_err ac =? 0 then REDIS_OK else REDIS_ERR) ac
        else Ok ac);
  redisFree ac.

Definition redisAsyncFree (fuel : nat) ac : outcome ctx :=
  alive ac ;;
  let ac := set_flag ac REDIS_FREEING in
  if negb (flag ac REDIS_IN_CALLBACK) then __redisAsyncFree fuel ac else Ok ac.

Definition __redisAsyncDisconnect (fuel : nat) ac : outcome ctx :=
  let ac := __redisAsyncCopyError ac in
  ac ← (if ac_err ac =? 0 then
          '(ac, cb) ← shift_reply ac;
          c_assert (match cb with None => true | Some _ => false end) ;; Ok ac
        else Ok (set_flag ac REDIS_DISCONNECTING));
  __redisAsyncFree fuel ac.

Definition redisAsyncDisconnect (fuel : nat) ac : outcome ctx :=
  alive ac ;;
  let ac := set_flag ac REDIS_DISCONNECTING in
  if negb (flag ac REDIS_IN_CALLBACK) && (cl_head (replies ac) =? 0) then __redisAsyncDisconnect fuel ac else Ok ac.

(** ** Replies *)

(** [strcasecmp] of a string with its NUL and a constant. *)
Fixpoint strcasecmp_eq (s t : list Z) : outcome bool :=
  match s, t with
  | [], _ => Crash OutOfBounds
  | c :: s, [] => Ok (c =? 0)
  | c :: s, d :: t => if (c =? 0) || negb (tolower c =? tolower d) then Ok false else strcasecmp_eq s t
  end.

Definition UNSUBSCRIBE : list Z := [117; 110; 115; 117; 98; 115; 99; 114; 105; 98; 101].

(** The string of a reply object. *)
Definition reply_str (o : redisReply) : outcome (list Z) :=
  match rp_str o with Some s => Ok s | None => Crash NullDeref end.
(** [reply->element[i]] *)
Definition element ac (o : redisReply) (i : Z) : outcome redisReply :=
  match rp_element o with Some l => p ← elem_at l i; deref (c_objects ac) p | None => Crash NullDeref end.

(** [table] tells the patterns ([true]) from the channels. *)
Definition the_table ac (pvariant : bool) : dict (K := list Z) (V := target) := if pvariant then patterns ac else channels ac.
Definition set_table ac (pvariant : bool) (d : dict (K := list Z) (V := target)) : ctx :=
  if pvariant then ac <| patterns := d |> else ac <| channels := d |>.

Definition __redisGetSubscribeCallback ac (reply : Z) (dstcb : target) : outcome (ctx * target) :=
  o ← deref (c_objects ac) reply;
  if rp_type o =? REDIS_REPLY_ARRAY then
    c_assert (rp_elements o >=? 2) ;;
    e0 ← element ac o 0;
    c_assert (rp_type e0 =? REDIS_REPLY_STRING) ;;
    stype ← reply_str e0;
    c0 ← elem_at stype 0;
    let pvariant := tolower c0 =? 112 in
    e1 ← element ac o 1;
    c_assert (rp_type e1 =? REDIS_REPLY_STRING) ;;
    str ← reply_str e1;
    sname ← read_at str 0 (rp_len e1);
    let callbacks := the_table ac pvariant in
    de ← dictFind callbackDict callbacks sname;
    if negb (de =? 0) then
      e ← entry (entries callbacks) de;
      let dstcb := e_val e in
      unsub ← strcasecmp_eq (drop (if pvariant then 1 else 0) stype) UNSUBSCRIBE;
      if (unsub : bool) then
        '(callbacks, w, _) ← dictDelete callbackDict callbacks sname (ac_blocks ac);
        let ac := (set_table ac pvariant callbacks) <| ac_blocks := w |> in
        e2 ← element ac o 2;
        c_assert (rp_type e2 =? REDIS_REPLY_INTEGER) ;;
        Ok (if rp_integer e2 =? 0 then clear_flag ac REDIS_SUBSCRIBED else ac, dstcb)
      else Ok (ac, dstcb)
    else Ok (ac, dstcb)
  else
    '(ac, cb) ← shift_invalid ac;
    Ok (ac, match cb with Some cb => cb | None => dstcb end).

Definition __redisSetError ac (type : Z) (str : list Z) : ctx := ac <| c_err := type |> <| c_errstr := take 127 str |>.

(** [redisGetReply] on a context without [REDIS_BLOCK], which asynchronous contexts
    never have. *)
Definition redisGetReply ac : outcome (ctx * Z * Z) :=
  '(r, h, status, aux) ← redisReaderGetReply fns true (c_reader ac) (c_objects ac);
  let ac := ac <| c_reader := r |> <| c_objects := h |> in
  if status =? REDIS_ERR then Ok (__redisSetError ac (r_err r) (r_errstr r), REDIS_ERR, 0) else Ok (ac, REDIS_OK, aux).

Definition free_reply ac (reply : Z) : outcome ctx := h ← freeReplyObject 10 reply (c_objects ac); Ok (ac <| c_objects := h |>).

(** The callback of a reply, or the end of the context ([inl]) when there is none for
    an error. *)
Definition choose_callback (efuel : nat) ac (cb : target) (reply : Z) : outcome (ctx + ctx * target) :=
  '(ac, shifted) ← shift_reply ac;
  match shifted with
  | Some cb => Ok (inr (ac, cb))
  | None =>
    o ← deref (c_objects ac) reply;
    if rp_type o =? REDIS_REPLY_ERROR then
      str ← reply_str o;
      n ← strlen str;
      let ac := __redisSetError ac REDIS_ERR_OTHER (take (Z.to_nat n) str) in
      ac ← free_reply ac reply;
      ac ← __redisAsyncDisconnect efuel ac;
      Ok (inl ac)
    else
      c_assert (flag ac REDIS_SUBSCRIBED || flag ac REDIS_MONITORING) ;;
      next ← (if flag ac REDIS_SUBSCRIBED then __redisGetSubscribeCallback ac reply cb else Ok (ac, cb));
      Ok (inr next)
  end.

(** The loop of [redisProcessCallbacks]; [cb] is its variable, which keeps the last
    callback from one round to the next.  [efuel] is the fuel of the end of a
    context. *)
Fixpoint process_loop (efuel fuel : nat) ac (cb : target) : outcome ctx :=
  match fuel with
  | O => Crash OutOfFuel
  | S fuel =>
    '(ac, status, reply) ← redisGetReply ac;
    if negb (status =? REDIS_OK) then __redisAsyncDisconnect efuel ac else
    if reply =? 0 then
      if flag ac REDIS_DISCONNECTING && (sdslen (c_obuf ac) =? 0) && (cl_head (replies ac) =? 0) then __redisAsyncDisconnect efuel ac
      else if flag ac REDIS_MONITORING then push_reply ac cb else Ok ac
    else
      next ← choose_callback efuel ac cb reply;
      match next with
      | inl ac => Ok ac
      | inr (ac, cb) =>
        if negb (cb.1 =? 0) then
          ac ← __redisRunCallback ac cb reply;
          ac ← free_reply ac reply;
          if flag ac REDIS_FREEING then __redisAsyncFree efuel ac else process_loop efuel fuel ac cb
        else
          ac ← free_reply ac reply;
          process_loop efuel fuel ac cb
      end
  end.

Definition redisProcessCallbacks (efuel fuel : nat) ac : outcome ctx := alive ac ;; process_loop efuel fuel ac (0, 0).

(** ** Events of the socket *)

(** The result of [getsockopt(SO_ERROR)], of [read] and of [write]. *)
Inductive socket_state := SockReady | SockInProgress | SockFailed.
Inductive read_result := ReadAgain | ReadFailed | ReadBytes (l : list Z).
Inductive write_result := WriteAgain | WriteFailed | Written (n : Z).

Definition redisCheckSocketError ac (s : socket_state) : ctx * Z :=
  match s with SockReady => (ac, REDIS_OK) | _ => (__redisSetError ac REDIS_ERR_IO [], REDIS_ERR) end.

Definition __redisAsyncHandleConnect (efuel : nat) ac (s : socket_state) : outcome (ctx * Z) :=
  let '(ac, r) := redisCheckSocketError ac s in
  if r =? REDIS_ERR then
    match s with
    | SockInProgress => Ok (ac, REDIS_OK)
    | _ =>
      ac ← (if negb (onConnect ac =? 0) then call_status (onConnect ac) REDIS_ERR ac else Ok ac);
      ac ← __redisAsyncDisconnect efuel ac;
      Ok (ac, REDIS_ERR)
    end
  else
    let ac := set_flag ac REDIS_CONNECTED in
    ac ← (if negb (onConnect ac =? 0) then call_status (onConnect ac) REDIS_OK ac else Ok ac);
    Ok (ac, REDIS_OK).

Definition redisBufferRead ac (r : read_result) : outcome (ctx * Z) :=
  if negb (c_err ac =? 0) then Ok (ac, REDIS_ERR) else
  match r with
  | ReadAgain => Ok (ac, REDIS_OK)
  | ReadFailed => Ok (__redisSetError ac REDIS_ERR_IO [], REDIS_ERR)
  | ReadBytes [] => Ok (__redisSetError ac REDIS_ERR_EOF (c_string "Server closed the connection"), REDIS_ERR)
  | ReadBytes l =>
    '(rd, st) ← redisReaderFeed junk (c_reader ac) (Some l);
    let ac := ac <| c_reader := rd |> in
    if negb (st =? REDIS_OK) then Ok (__redisSetError ac (r_err rd) (r_errstr rd), REDIS_ERR) else Ok (ac, REDIS_OK)
  end.

(** [Some done], or [None] for [REDIS_ERR]. *)
Definition redisBufferWrite ac (r : write_result) : outcome (ctx * option bool) :=
  if negb (c_err ac =? 0) then Ok (ac, None) else
  '(ac, ok) ← (if sdslen (c_obuf ac) >? 0 then
                 match r with
                 | WriteAgain => Ok (ac, true)
                 | WriteFailed => Ok (__redisSetError ac REDIS_ERR_IO [], false)
                 | Written n =>
                   if n >? 0 then
                     if n =? i32 (sdslen (c_obuf ac)) then s ← sdsempty junk; Ok (ac <| c_obuf := s |>, true)
                     else s ← sdsrange (c_obuf ac) n (-1); Ok (ac <| c_obuf := s |>, true)
                   else Ok (ac, true)
                 end
               else Ok (ac, true));
  Ok (ac, if (ok : bool) then Some (sdslen (c_obuf ac) =? 0) else None).

(** The part both handlers share: [true] when the handler goes on. *)
Definition handle_connect (efuel : nat) ac (s : socket_state) : outcome (ctx * bool) :=
  if negb (flag ac REDIS_CONNECTED) then
    '(ac, r) ← __redisAsyncHandleConnect efuel ac s;
    if negb (r =? REDIS_OK) then Ok (ac, false)
    else Ok (ac, flag ac REDIS_CONNECTED)
  else Ok (ac, true).

Definition redisAsyncHandleRead (efuel fuel : nat) ac (s : socket_state) (r : read_result) : outcome ctx :=
  alive ac ;;
  '(ac, go) ← handle_connect efuel ac s;
  if negb go then Ok ac else
  '(ac, st) ← redisBufferRead ac r;
  if st =? REDIS_ERR then __redisAsyncDisconnect efuel ac
  else redisProcessCallbacks efuel fuel (_EL ac AddRead).

Definition redisAsyncHandleWrite (efuel : nat) ac (s : socket_state) (r : write_result) : outcome ctx :=
  alive ac ;;
  '(ac, go) ← handle_connect efuel ac s;
  if negb go then Ok ac else
  '(ac, st) ← redisBufferWrite ac r;
  match st with
  | None => __redisAsyncDisconnect efuel ac
  | Some done => Ok (_EL (_EL ac (if (done : bool) then DelWrite else AddWrite)) AddRead)
  end.

(** ** Commands *)

(** [strchr] from an index of a string with its NUL. *)
Fixpoint strchr (l : list Z) (c p : Z) : outcome (option Z) :=
  match l with
  | [] => Crash OutOfBounds
  | x :: l => if x =? c then Ok (Some p) else if x =? 0 then Ok None else strchr l c (p + 1)
  end.

(** [strtol] with base 10: blanks, a sign and digits; a number out of range is the
    bound. *)
Fixpoint strtol_digits (l : list Z) (v : Z) : outcome Z :=
  match l with
  | [] => Crash OutOfBounds
  | c :: l => if (48 <=? c) && (c <=? 57) then strtol_digits l (v * 10 + (c - 48)) else Ok v
  end.
Fixpoint strtol (l : list Z) : outcome Z :=
  match l with
  | [] => Crash OutOfBounds
  | c :: l' =>
    if isspace c then strtol l' else
    let clamp v := Z.max (- 2 ^ 63) (Z.min (2 ^ 63 - 1) v) in
    if c =? 45 then v ← strtol_digits l' 0; Ok (clamp (- v))
    else if c =? 43 then v ← strtol_digits l' 0; Ok (clamp v)
    else v ← strtol_digits l 0; Ok (clamp v)
  end.

(** Pointers into the command are indices; the result is the next position, the
    string and its length. *)
Definition nextArgument (cmd : list Z) (start : Z) : outcome (option (Z * Z * Z)) :=
  c ← elem_at cmd start;
  p ← (if negb (c =? 36) then strchr (drop (Z.to_nat start) cmd) 36 start else Ok (Some start));
  match p with
  | None => Ok None
  | Some p =>
    v ← strtol (drop (Z.to_nat (p + 1)) cmd);
    let len := u64 (i32 v) in
    q ← strchr (drop (Z.to_nat p) cmd) 13 p;
    match q with
    | None => Crash AssertFailed
    | Some p => Ok (Some (u64 (p + 2 + len + 2), p + 2, len))
    end
  end.

(** [strncasecmp(cstr, t, strlen(t)) == 0] *)
Fixpoint strncasecmp_eq (s t : list Z) : outcome bool :=
  match t with
  | [] => Ok true
  | d :: t =>
    match s with
    | [] => Crash OutOfBounds
    | c :: s => if (c =? 0) || negb (tolower c =? tolower d) then Ok false else strncasecmp_eq s t
    end
  end.

Definition SUBSCRIBE_LINE : list Z := [115; 117; 98; 115; 99; 114; 105; 98; 101; 13; 10].
Definition UNSUBSCRIBE_LINE : list Z := [117; 110; 115; 117; 98; 115; 99; 114; 105; 98; 101; 13; 10].
Definition MONITOR_LINE : list Z := [109; 111; 110; 105; 116; 111; 114; 13; 10].

(** One name of a subscription. *)
Definition subscribe_name ac (cb : target) (pvariant : bool) (sname : list Z) : outcome ctx :=
  let w := (ac_blocks ac).1 + 1 in
  '(d, w, ret) ← dictReplace callbackDict (the_table ac pvariant) sname cb (w, (ac_blocks ac).2);
  let w := if ret =? 0 then (w.1 - 1, w.2) else w in
  Ok ((set_table ac pvariant d) <| ac_blocks := w |>).

(** [while ((p = nextArgument(p,&astr,&alen)) != NULL)] *)
Fixpoint subscribe_loop (fuel : nat) ac (cb : target) (pvariant : bool) (cmd : list Z) (p : Z) : outcome ctx :=
  match fuel with
  | O => Crash OutOfFuel
  | S fuel =>
    arg ← nextArgument cmd p;
    match arg with
    | None => Ok ac
    | Some (p, astr, alen) =>
      sname ← read_at cmd astr alen;
      ac ← subscribe_name ac cb pvariant sname;
      subscribe_loop fuel ac cb pvariant cmd p
    end
  end.

Definition __redisAppendCommand ac (cmd : list Z) (len : Z) : outcome ctx :=
  s ← sdscatlen junk (c_obuf ac) cmd len; Ok (ac <| c_obuf := s |>).

(** [cmd] is the command with its NUL. *)
Definition __redisAsyncCommand ac (fn privdata : Z) (cmd : list Z) (len : Z) : outcome (ctx * Z) :=
  alive ac ;;
  if flag ac (Z.lor REDIS_DISCONNECTING REDIS_FREEING) then Ok (ac, REDIS_ERR) else
  let cb := (fn, privdata) in
  arg ← nextArgument cmd 0;
  match arg with
  | None => Crash AssertFailed
  | Some (p, cstr, clen) =>
    c ← elem_at cmd p;
    let hasnext := c =? 36 in
    c0 ← elem_at cmd cstr;
    let pvariant := tolower c0 =? 112 in
    let cstr := drop (Z.to_nat (cstr + (if pvariant then 1 else 0))) cmd in
    sub ← (if hasnext then strncasecmp_eq cstr SUBSCRIBE_LINE else Ok false);
    let finish (o : outcome ctx) : outcome (ctx * Z) :=
      ac ← o;
      ac ← __redisAppendCommand ac cmd len;
      Ok (_EL ac AddWrite, REDIS_OK) in
    if (sub : bool) then finish (subscribe_loop (length cmd) (set_flag ac REDIS_SUBSCRIBED) cb pvariant cmd p)
    else
      unsub ← strncasecmp_eq cstr UNSUBSCRIBE_LINE;
      if (unsub : bool) then
        if negb (flag ac REDIS_SUBSCRIBED) then Ok (ac, REDIS_ERR) else finish (Ok ac)
      else
        mon ← strncasecmp_eq cstr MONITOR_LINE;
        if (mon : bool) then finish (push_reply (set_flag ac REDIS_MONITORING) cb)
        else if flag ac REDIS_SUBSCRIBED then finish (push_invalid ac cb)
        else finish (push_reply ac cb)
  end.

Definition redisAsyncCommandArgv ac (fn privdata argc : Z) (argv : list (list Z)) (argvlen : option (list Z)) : outcome (ctx * Z) :=
  '(len, cmd) ← redisFormatSdsCommandArgv junk argc argv argvlen;
  __redisAsyncCommand ac fn privdata (sh_buf cmd) len.

Definition redisAsyncFormattedCommand ac (fn privdata : Z) (cmd : list Z) (len : Z) : outcome (ctx * Z) :=
  __redisAsyncCommand ac fn privdata cmd len.
End async.
