(* ===== verification/AsyncQueue.v ===== *)
(** * Queues of callbacks and the end of an asynchronous context

    The two queues of [hiredis/async.c] share one store of nodes: pushing appends and
    shifting takes the first, and neither touches the other queue.  On top of it, what
    [redisAsyncFree] does with everything that is still pending. *)

From S2P Require Import Prelude Inet Sds RedisReader RedisParse RedisReply RedisFormat HiDict Async.

(** ** Queues *)

(** A pending callback: its node and what is to be called. *)
Abbreviation pending := (Z * target)%type.

(** The chain of nodes at [p] holds [q]. *)
Fixpoint node_chain (N : gmap Z redisCallback) (p : Z) (q : list pending) : Prop :=
  match q with
  | [] => p = 0
  | (x, cb) :: q => p = x /\ x <> 0 /\ exists n, N !! x = Some (mkCb n cb.1 cb.2) /\ node_chain N n q
  end.

Definition queue_ok (N : gmap Z redisCallback) (l : redisCallbackList) (q : list pending) : Prop :=
  node_chain N (cl_head l) q /\ cl_tail l = default 0 (last q.*1).

(** The store holds the nodes of the two queues and nothing else. *)
Record cells_ok (h : cells) (l1 l2 : redisCallbackList) (q1 q2 : list pending) : Prop := {
  co_first : queue_ok (nodes h) l1 q1;
  co_second : queue_ok (nodes h) l2 q2;
  co_nodup : NoDup (q1 ++ q2).*1;
  co_dom : dom (nodes h) = list_to_set (q1 ++ q2).*1;
  co_fresh : 0 < node_brk h /\ Forall (fun x => x < node_brk h) (q1 ++ q2).*1 }.

Lemma node_chain_ext N N' q : forall p, (forall x, x ∈ q.*1 -> N' !! x = N !! x) -> node_chain N p q -> node_chain N' p q.
Proof.
  induction q as [|[x cb] q IH]; intros p He; cbn; [done|]. intros (-> & Hx & n & E & Hc). split_and!; [done|done|].
  exists n. split; [rewrite He; [done|by left]|]. apply IH; [|done]. intros y Hy. apply He. by right.
Qed.

Lemma node_chain_app N q x cb : forall p, node_chain N p (q ++ [(x, cb)]) -> N !! x = Some (mkCb 0 cb.1 cb.2).
Proof.
  induction q as [|[y c] q IH]; intros p; cbn.
  - intros (_ & _ & n & E & ->). done.
  - intros (_ & _ & n & _ & Hc). by eapply IH.
Qed.

(** Linking a new last node. *)
Lemma node_chain_snoc N q x cb y cb' : forall p, node_chain N p (q ++ [(x, cb)]) -> NoDup (q ++ [(x, cb)]).*1 -> y ∉ (q ++ [(x, cb)]).*1 -> y <> 0 ->
  node_chain (<[x := mkCb y cb.1 cb.2]> (<[y := mkCb 0 cb'.1 cb'.2]> N)) p (q ++ [(x, cb); (y, cb')]).
Proof.
  induction q as [|[z c] q IH]; intros p; cbn; intros (-> & Hz & n & E & Hc) Hnd Hy Hy0; apply NoDup_cons in Hnd as [Hzn Hnd]; apply not_elem_of_cons in Hy as [Hyz Hy].
  - subst n. split_and!; [done|done|]. exists y. rewrite lookup_insert_eq. split_and!; [done|done|done|]. exists 0.
    rewrite lookup_insert_ne, lookup_insert_eq by congruence. done.
  - split_and!; [done|done|]. exists n. rewrite fmap_app in Hzn. cbn in Hzn. rewrite !lookup_insert_ne by set_solver. split; [done|]. by apply IH.
Qed.

Lemma cells_sym h l1 l2 q1 q2 : cells_ok h l1 l2 q1 q2 -> cells_ok h l2 l1 q2 q1.
Proof.
  intros [H1 H2 H3 H4 H5]. assert (Hp : (q2 ++ q1).*1 ≡ₚ (q1 ++ q2).*1) by (by rewrite (Permutation_app_comm q2 q1)).
  split; try done.
  - by rewrite Hp.
  - rewrite H4. apply leibniz_equiv. by rewrite Hp.
  - by rewrite Hp.
Qed.

Lemma queue_frame N N' l q : (forall x, x ∈ q.*1 -> N' !! x = N !! x) -> queue_ok N l q -> queue_ok N' l q.
Proof. intros He [Hc Ht]. split; [by eapply node_chain_ext|done]. Qed.

Lemma queue_elem N l q x : queue_ok N l q -> x ∈ q.*1 -> x <> 0 /\ is_Some (N !! x).
Proof.
  intros [Hc _]. revert Hc. generalize (cl_head l). induction q as [|[y cb] q IH]; intros p; cbn; [by intros _ ?%not_elem_of_nil|].
  intros (_ & Hy & n & E & Hc) [->|Hx]%elem_of_cons; [by eauto|by eapply IH].
Qed.

Lemma last_address (q : list pending) x cb : last (q ++ [(x, cb)]).*1 = Some x.
Proof. rewrite fmap_app. apply last_snoc. Qed.

Lemma push_spec h l1 l2 q1 q2 cb : cells_ok h l1 l2 q1 q2 -> exists h' l' x,
  __redisPushCallback h l1 cb = Ok (h', l') /\ cells_ok h' l' l2 (q1 ++ [(x, cb)]) q2.
Proof.
  intros [H1 H2 H3 H4 [Hb H5]]. set (x := node_brk h). rewrite Forall_forall in H5.
  assert (Hx : x ∉ (q1 ++ q2).*1) by (intros Hx%H5; subst x; lia). assert (Hx1 := Hx). rewrite fmap_app, not_elem_of_app in Hx1. destruct Hx1 as [Hx1 Hx2].
  assert (Hp : ((q1 ++ [(x, cb)]) ++ q2).*1 ≡ₚ x :: (q1 ++ q2).*1) by (rewrite <- app_assoc; cbn; rewrite !fmap_app; cbn; by rewrite Permutation_middle).
  assert (Hrest : forall h' l', queue_ok (nodes h') l' (q1 ++ [(x, cb)]) -> (forall y, y ∈ q2.*1 -> nodes h' !! y = nodes h !! y) ->
    dom (nodes h') = {[x]} ∪ dom (nodes h) -> node_brk h' = x + 1 -> cells_ok h' l' l2 (q1 ++ [(x, cb)]) q2).
  { intros h' l' Hq Hf Hd Eb. split.
    - done.
    - by eapply queue_frame.
    - rewrite Hp. by constructor.
    - rewrite Hd, H4. apply leibniz_equiv. rewrite Hp. set_solver.
    - split; [subst x; lia|]. rewrite Hp. rewrite Eb. constructor; [lia|]. rewrite Forall_forall. intros y Hy%H5. subst x. lia. }
  unfold __redisPushCallback. fold x. destruct H1 as [Hc Ht]. destruct q1 as [|[z c] q _] using rev_ind.
  - cbn in Hc, Ht. rewrite Hc, Ht. cbn [Z.eqb negb mbind outcome_bind]. eexists _, _, x. split; [done|]. apply Hrest.
    + split; [|done]. cbn. split_and!; [done|subst x; lia|]. exists 0. by rewrite lookup_insert_eq.
    + intros y Hy. cbn. apply lookup_insert_ne. intros <-. done.
    + cbn. by rewrite dom_insert_L.
    + done.
  - rewrite last_address in Ht. cbn in Ht. rewrite Ht. assert (Hz : z ∈ (q ++ [(z, c)]).*1) by (rewrite fmap_app; set_solver).
    destruct (queue_elem (nodes h) l1 (q ++ [(z, c)]) z) as [Hz0 Hzs]; [split; [done|by rewrite last_address]|done|].
    rewrite (proj2 (Z.eqb_neq z 0) Hz0). cbn [negb]. pose proof (node_chain_app _ _ _ _ _ Hc) as Ez. unfold cell. rewrite (proj2 (Z.eqb_neq z 0) Hz0). cbn [nodes].
    rewrite lookup_insert_ne, Ez by (intros <-; done). cbn [mbind outcome_bind cb_fn cb_privdata node_brk].
    eexists _, _, x. split; [done|]. rewrite fmap_app in H3. pose proof H3 as (Hnd1 & Hnd & _)%NoDup_app. apply Hrest.
    + split; cbn [nodes cl_head cl_tail]; [|by rewrite last_address]. rewrite (proj2 (Z.eqb_neq (cl_head l1) 0)).
      * rewrite <- app_assoc. apply node_chain_snoc; [done|done|done|subst x; lia].
      * destruct q as [|[w cw] q]; cbn in Hc; destruct Hc as (-> & ? & _); done.
    + intros y Hy. cbn [nodes]. rewrite !lookup_insert_ne; [done| |]; intros <-; [done|]. by apply (Hnd z).
    + cbn [nodes]. rewrite dom_insert_L, dom_insert_L. assert (z ∈ dom (nodes h)) by (by apply elem_of_dom). set_solver.
    + done.
Qed.

Lemma shift_spec h l1 l2 x cb q1 q2 : cells_ok h l1 l2 ((x, cb) :: q1) q2 -> exists h' l',
  __redisShiftCallback h l1 = Ok (h', l', Some cb) /\ cells_ok h' l' l2 q1 q2.
Proof.
  intros [[Hc Ht] H2 H3 H4 [Hb H5]]. cbn in Hc, H3, H5. destruct Hc as (Eh & Hx & n & Ex & Hc). apply NoDup_cons in H3 as [Hxn H3]. apply Forall_cons in H5 as [Hxb H5].
  unfold __redisShiftCallback. rewrite Eh, (proj2 (Z.eqb_neq x 0) Hx). cbn [negb]. unfold cell. rewrite (proj2 (Z.eqb_neq x 0) Hx), Ex. cbn [mbind outcome_bind cb_next cb_fn cb_privdata].
  assert (Hdel : forall y, y ∈ (q1 ++ q2).*1 -> delete x (nodes h) !! y = nodes h !! y) by (intros y Hy; apply lookup_delete_ne; intros <-; done).
  eexists _, _. split; [destruct cb; done|]. split; cbn [nodes].
  - split; cbn [cl_head cl_tail].
    + eapply node_chain_ext; [|exact Hc]. intros y Hy. apply Hdel. rewrite fmap_app. set_solver.
    + rewrite Ht. destruct q1 as [|[z c] q _] using rev_ind; [cbn; by rewrite Z.eqb_refl|].
      change ((x, cb) :: q ++ [(z, c)]) with (((x, cb) :: q) ++ [(z, c)]). rewrite !last_address. cbn.
      rewrite (proj2 (Z.eqb_neq x z)); [done|]. intros ->. apply Hxn. rewrite !fmap_app. set_solver.
  - eapply queue_frame; [|exact H2]. intros y Hy. apply Hdel. rewrite fmap_app. set_solver.
  - done.
  - rewrite dom_delete_L, H4. cbn. set_solver.
  - done.
Qed.

Lemma shift_nil h l1 l2 q2 : cells_ok h l1 l2 [] q2 -> __redisShiftCallback h l1 = Ok (h, l1, None).
Proof. intros [[Hc _] _ _ _ _]. cbn in Hc. unfold __redisShiftCallback. by rewrite Hc. Qed.

(** ** Flags *)

(** A bit that was clear is clear again after a callback has run with it set. *)
Lemma flag_set_clear x f : Z.land x f = 0 -> Z.land (Z.lor x f) (Z.lnot f) = x.
Proof.
  intros H. apply Z.bits_inj'. intros n Hn. apply (f_equal (fun z => Z.testbit z n)) in H. rewrite Z.land_spec, Z.bits_0 in H.
  rewrite Z.land_spec, Z.lor_spec, Z.lnot_spec by done. by destruct (Z.testbit x n), (Z.testbit f n).
Qed.

Lemma land_lor_l x f g : Z.land f g = 0 -> Z.land (Z.lor x f) g = Z.land x g.
Proof. intros H. rewrite Z.land_lor_distr_l, H. apply Z.lor_0_r. Qed.

(** ** Tables *)

#[export] Instance callbackDict_laws : dict_laws callbackDict.
Proof.
  split; [|done]. intros k1 k2. unfold dictCompareHashKeys. cbn [keyCompare callbackDict]. unfold callbackKeyCompare.
  destruct (Z.eqb_spec (zlen k1) (zlen k2)) as [E|E]; cbn [negb].
  - destruct (Z.eqb_spec (memcmp k1 k2) 0) as [E'|E']; symmetry.
    + apply bool_decide_true. by apply memcmp_eq.
    + apply bool_decide_false. intros ->. apply E'. clear. induction k2 as [|x l IH]; [done|]. cbn. by rewrite Z.eqb_refl.
  - symmetry. apply bool_decide_false. by intros ->.
Qed.

(** [dictRelease] frees the key and the value of every entry. *)
Lemma release_spec (d : dict) (mp : gmap (list Z) target) (w : blocks) : holds callbackDict d mp ->
  dictRelease callbackDict d w = Ok (∅, (w.1 - Z.of_nat (size mp), w.2 - Z.of_nat (size mp))).
Proof.
  intros (C & Hd & ->). unfold dictRelease. destruct (_dictClear_spec callbackDict d C w Hd) as (d' & -> & _ & E). cbn [mbind outcome_bind]. rewrite E. f_equal. f_equal.
  unfold map_of. rewrite <- length_map_to_list, map_to_list_to_map, length_fmap by apply Hd. clear. revert w.
  induction (concat C) as [|it l IH]; intros w; cbn [foldl length]; [destruct w; cbn; f_equal; lia|]. rewrite IH. cbn. f_equal; lia.
Qed.

(** A context with the callbacks [q] waiting for a reply, [i] for the error of a
    command that is not allowed, and the subscriptions [mc] and [mp]. *)
Record context_ok {U} (ac : redisAsyncContext U) (q i : list target) (mc mp : gmap (list Z) target) : Prop := {
  cx_cells : exists pq pi, cells_ok (ac_cells ac) (replies ac) (invalid ac) pq pi /\ pq.*2 = q /\ pi.*2 = i;
  cx_channels : holds callbackDict (channels ac) mc;
  cx_patterns : holds callbackDict (patterns ac) mp;
  cx_blocks : ac_blocks ac = (Z.of_nat (size mc) + Z.of_nat (size mp), Z.of_nat (size mc) + Z.of_nat (size mp));
  cx_alive : released ac = false }.

(** No command is accepted any more. *)
Definition CLOSING : Z := Z.lor REDIS_DISCONNECTING REDIS_FREEING.

Section teardown.
Context {U : Type}.
Abbreviation ctx := (redisAsyncContext U).
Context (call : Z -> Z -> Z -> ctx -> outcome ctx) (call_status : Z -> Z -> ctx -> outcome ctx).
Implicit Types (ac : ctx) (q i : list pending).

(** What the callbacks do of their own to a context that is being closed, and what they
    leave alone: all the rest.  A command they send then is refused, so it changes
    nothing either. *)
Context (note : Z -> Z -> U -> U) (closed : Z -> Z -> U -> U).
Context (call_closing : forall fn privdata ac, flag ac CLOSING = true -> call fn privdata 0 ac = Ok (ac <| user := note fn privdata (user ac) |>))
  (status_closing : forall fn status ac, flag ac CLOSING = true -> call_status fn status ac = Ok (ac <| user := closed fn status (user ac) |>)).
#[local] Set Default Proof Using "All".

(** The effect of one callback, and of several in a row. *)
Definition note_one (u : U) (cb : target) : U := if cb.1 =? 0 then u else note cb.1 cb.2 u.
Definition note_all (u : U) (l : list target) : U := foldl note_one u l.

(** A context that is being closed and runs no callback. *)
Definition closing ac : Prop := flag ac CLOSING = true /\ Z.land (c_flags ac) REDIS_IN_CALLBACK = 0.

Lemma run_closing ac cb : closing ac -> __redisRunCallback call ac cb 0 = Ok (ac <| user := note_one (user ac) cb |>).
Proof.
  intros [Hf Hi]. unfold __redisRunCallback, note_one. destruct (cb.1 =? 0); cbn [negb]; [by destruct ac|].
  rewrite call_closing; [|unfold flag, set_flag in *; cbn; by rewrite land_lor_l].
  cbn [mbind outcome_bind]. unfold clear_flag, set_flag. destruct ac; cbn in *. by rewrite flag_set_clear.
Qed.

Lemma closing_user ac u : closing ac -> closing (ac <| user := u |>).
Proof. by destruct ac. Qed.

Lemma drain_reply : forall fuel q ac i, closing ac -> cells_ok (ac_cells ac) (replies ac) (invalid ac) q i -> (length q < fuel)%nat ->
  exists h l, drain call shift_reply fuel ac = Ok (ac <| ac_cells := h |> <| replies := l |> <| user := note_all (user ac) q.*2 |>) /\
    cells_ok h l (invalid ac) [] i.
Proof.
  induction fuel as [|fuel IH]; intros q ac i Hac Hq Hf; [lia|]. cbn [drain]. pose proof (eq_refl : shift_reply ac = '(h, l, cb) ← __redisShiftCallback (ac_cells ac) (replies ac); Ok (ac <| ac_cells := h |> <| replies := l |>, cb)) as ->. destruct q as [|[x cb] q].
  - rewrite (shift_nil _ _ _ _ Hq). cbn [mbind outcome_bind]. exists (ac_cells ac), (replies ac). split; [by destruct ac|done].
  - destruct (shift_spec _ _ _ _ _ _ _ Hq) as (h & l & -> & Hq'). cbn [mbind outcome_bind].
    rewrite run_closing by (by destruct ac). cbn [mbind outcome_bind].
    match goal with |- context [drain call shift_reply fuel ?a] => destruct (IH q a i) as (h' & l' & -> & Hq''); [by destruct ac|by destruct ac|cbn in Hf; lia|] end.
    exists h', l'. split; [by destruct ac|by destruct ac].
Qed.

Lemma drain_invalid : forall fuel i ac q, closing ac -> cells_ok (ac_cells ac) (replies ac) (invalid ac) q i -> (length i < fuel)%nat ->
  exists h l, drain call shift_invalid fuel ac = Ok (ac <| ac_cells := h |> <| invalid := l |> <| user := note_all (user ac) i.*2 |>) /\
    cells_ok h (replies ac) l q [].
Proof.
  induction fuel as [|fuel IH]; intros i ac q Hac Hq Hf; [lia|]. cbn [drain]. pose proof (eq_refl : shift_invalid ac = '(h, l, cb) ← __redisShiftCallback (ac_cells ac) (invalid ac); Ok (ac <| ac_cells := h |> <| invalid := l |>, cb)) as ->. apply cells_sym in Hq. destruct i as [|[x cb] i].
  - rewrite (shift_nil _ _ _ _ Hq). cbn [mbind outcome_bind]. exists (ac_cells ac), (invalid ac). split; [by destruct ac|by apply cells_sym].
  - destruct (shift_spec _ _ _ _ _ _ _ Hq) as (h & l & -> & Hq'%cells_sym). cbn [mbind outcome_bind].
    rewrite run_closing by (by destruct ac). cbn [mbind outcome_bind].
    match goal with |- context [drain call shift_invalid fuel ?a] => destruct (IH i a q) as (h' & l' & -> & Hq''); [by destruct ac|by destruct ac|cbn in Hf; lia|] end.
    exists h', l'. split; [by destruct ac|by destruct ac].
Qed.

(** Every entry of a table is visited once. *)
Lemma run_table_all (table_of : ctx -> dict) (C : list (list (Z * (list Z * target)))) :
  (forall ac u, table_of (ac <| user := u |>) = table_of ac) ->
  forall rest fuel ac it, closing ac -> dict_ok callbackDict (table_of ac) C -> d_size (table_of ac) < 2 ^ 31 -> iter_at (table_of ac) C it rest ->
  (length rest < fuel)%nat -> run_table call table_of fuel ac it = Ok (ac <| user := note_all (user ac) rest.*2.*2 |>).
Proof.
  intros Htab. induction rest as [|[x [k v]] rest IH]; intros [|fuel] ac it Hac Hd Hs Hit Hf; cbn in Hf; try lia; cbn [run_table];
    pose proof (dictNext_spec callbackDict _ C it _ Hd Hs Hit) as Hn.
  { destruct Hn as (it' & ->). cbn. by destruct ac. }
  destruct Hn as (Hx & it' & -> & Hit'). cbn [mbind outcome_bind]. rewrite (proj2 (Z.eqb_neq _ _) Hx).
  destruct (item_entry callbackDict _ C x k v Hd) as (n & Ex); [eapply (iter_incl callbackDict); [exact Hit|by left]|].
  rewrite (entry_ok _ _ _ Ex). cbn [mbind outcome_bind e_val]. rewrite run_closing by done. cbn [mbind outcome_bind].
  rewrite (IH fuel (ac <| user := note_one (user ac) v |>)); [by destruct ac|by apply closing_user|by rewrite Htab..|lia].
Qed.

Lemma run_table_holds (table_of : ctx -> dict) (mp : gmap (list Z) target) (fuel : nat) ac :
  (forall ac u, table_of (ac <| user := u |>) = table_of ac) -> closing ac ->
  holds callbackDict (table_of ac) mp -> d_size (table_of ac) < 2 ^ 31 -> (size mp < fuel)%nat ->
  exists subs, subs ≡ₚ map_to_list mp /\ run_table call table_of fuel ac dictGetIterator = Ok (ac <| user := note_all (user ac) subs.*2 |>).
Proof.
  intros Htab Hac (C & Hd & ->) Hs Hf. assert (Hp : (concat C).*2 ≡ₚ map_to_list (map_of C)) by (unfold map_of; by rewrite map_to_list_to_map by apply Hd).
  exists (concat C).*2. split; [done|]. apply (run_table_all table_of C Htab); [done|done|done|apply (iter_start callbackDict)|].
  by rewrite <- (length_fmap snd), Hp, length_map_to_list.
Qed.

(** The context [ac'] after [ac], with what was pending, has come to its end with a
    status; [h] are the objects that are left. *)
Definition completed ac ac' (q i : list target) (mc mp : gmap (list Z) target) (h : heap) (status : Z) : Prop := exists sc sp,
  sc ≡ₚ map_to_list mc /\ sp ≡ₚ map_to_list mp /\
  (let u := note_all (user ac) (q ++ i ++ sc.*2 ++ sp.*2) in
   user ac' = if negb (onDisconnect ac =? 0) && flag ac REDIS_CONNECTED then closed (onDisconnect ac) status u else u) /\
  released ac' = true /\ c_objects ac' = h /\ nodes (ac_cells ac') = ∅ /\
  entries (channels ac') = ∅ /\ entries (patterns ac') = ∅ /\ ac_blocks ac' = (0, 0).

(** What the fuel and the tables have to do with each other. *)
Record enough (fuel : nat) ac (q i : list target) (mc mp : gmap (list Z) target) : Prop := {
  en_channels : d_size (channels ac) < 2 ^ 31;
  en_patterns : d_size (patterns ac) < 2 ^ 31;
  en_replies : (length q < fuel)%nat;
  en_invalid : (length i < fuel)%nat;
  en_mc : (size mc < fuel)%nat;
  en_mp : (size mp < fuel)%nat }.

Lemma free_spec (fuel : nat) ac (q i : list target) (mc mp : gmap (list Z) target) (h : heap) :
  context_ok ac q i mc mp -> closing ac -> enough fuel ac q i mc mp -> redisReaderFree fns (c_reader ac) (c_objects ac) = Ok h ->
  exists ac', __redisAsyncFree call call_status fuel ac = Ok ac' /\
    completed ac ac' q i mc mp h (if flag ac REDIS_FREEING then REDIS_OK else if ac_err ac =? 0 then REDIS_OK else REDIS_ERR).
Proof.
  intros [(pq & pi & Hc & <- & <-) Hch Hpa Hbl Hal] Hfr [Hs1 Hs2 Hf1 Hf2 Hf3 Hf4] Hr. rewrite length_fmap in Hf1, Hf2. unfold __redisAsyncFree.
  destruct (drain_reply fuel pq ac pi Hfr Hc Hf1) as (h1 & l1 & -> & Hc1). cbn [mbind outcome_bind].
  match goal with |- context [drain call shift_invalid fuel ?a] => set (ac1 := a) end.
  destruct (drain_invalid fuel pi ac1 [] Hfr Hc1 Hf2) as (h2 & l2 & -> & Hc2). cbn [mbind outcome_bind].
  match goal with |- context [run_table call channels fuel ?a _] => set (ac2 := a) end.
  destruct (run_table_holds channels mc fuel ac2) as (sc & Hsc & ->); [done|exact Hfr|done|done|done|]. cbn [mbind outcome_bind].
  match goal with |- context [release_channels ?a] => set (ac3 := a) end. unfold release_channels.
  change (channels ac3) with (channels ac). rewrite (release_spec _ mc _ Hch). cbn [mbind outcome_bind].
  match goal with |- context [run_table call patterns fuel ?a _] => set (ac4 := a) end.
  destruct (run_table_holds patterns mp fuel ac4) as (sp & Hsp & ->); [done|exact Hfr|done|done|done|]. cbn [mbind outcome_bind].
  match goal with |- context [release_patterns ?a] => set (ac5 := a) end. unfold release_patterns.
  change (patterns ac5) with (patterns ac). rewrite (release_spec _ mp _ Hpa). cbn [mbind outcome_bind].
  match goal with |- context [_EL ?a Cleanup] => set (ac6 := a) end. set (ac7 := _EL ac6 Cleanup).
  assert (H7 : user ac7 = note_all (user ac) (pq.*2 ++ pi.*2 ++ sc.*2 ++ sp.*2) /\ onDisconnect ac7 = onDisconnect ac /\ c_flags ac7 = c_flags ac /\ ac_err ac7 = ac_err ac /\
    c_reader ac7 = c_reader ac /\ c_objects ac7 = c_objects ac /\ nodes (ac_cells ac7) = ∅ /\ entries (channels ac7) = ∅ /\ entries (patterns ac7) = ∅ /\ ac_blocks ac7 = (0, 0)).
  { assert (Hb : ac_blocks ac6 = (0, 0)).
    { change (ac_blocks ac6) with ((ac_blocks ac).1 - Z.of_nat (size mc) - Z.of_nat (size mp), (ac_blocks ac).2 - Z.of_nat (size mc) - Z.of_nat (size mp)).
      rewrite Hbl. cbn. f_equal; lia. }
    assert (Hn : nodes (ac_cells ac6) = ∅) by (apply (dom_empty_inv_L (D := gset Z)); exact (co_dom _ _ _ _ _ Hc2)).
    assert (Hu : user ac6 = note_all (user ac) (pq.*2 ++ pi.*2 ++ sc.*2 ++ sp.*2)) by (unfold note_all; rewrite !foldl_app; done).
    unfold ac7, _EL. destruct (has_ev ac6); split_and!; done. }
  clearbody ac7. destruct H7 as (Hu & Hod & Hfl & He7 & Hrd & Hob & Hn & Hch7 & Hpa7 & Hb7).
  assert (Hflag : forall f, flag ac7 f = flag ac f) by (intros f; unfold flag; by rewrite Hfl).
  rewrite Hod, !Hflag, He7. unfold completed. destruct (negb (onDisconnect ac =? 0) && flag ac REDIS_CONNECTED).
  - rewrite status_closing by (rewrite Hflag; exact (proj1 Hfr)). cbn [mbind outcome_bind]. unfold redisFree. change (c_reader (ac7 <| user := ?u |>)) with (c_reader ac7).
    change (c_objects (ac7 <| user := ?u |>)) with (c_objects ac7). rewrite Hrd, Hob, Hr. cbn [mbind outcome_bind]. eexists. split; [done|]. exists sc, sp. rewrite <- Hu. by split_and!.
  - cbn [mbind outcome_bind]. unfold redisFree. rewrite Hrd, Hob, Hr. cbn [mbind outcome_bind]. eexists. split; [done|]. exists sc, sp. rewrite <- Hu. by split_and!.
Qed.

Lemma lor_flag x f g : 0 < f -> Z.land f g = f -> (Z.land (Z.lor x f) g =? 0) = false.
Proof.
  intros Hf Hg. apply Z.eqb_neq. rewrite Z.land_lor_distr_l, Hg. intros [_ E]%Z.lor_eq_0_iff. lia.
Qed.

(** A disconnection that an error has caused. *)
Lemma disconnect_spec (fuel : nat) ac (q i : list target) (mc mp : gmap (list Z) target) (h : heap) :
  context_ok ac q i mc mp -> c_err ac <> 0 -> Z.land (c_flags ac) REDIS_IN_CALLBACK = 0 -> flag ac REDIS_FREEING = false ->
  enough fuel ac q i mc mp -> redisReaderFree fns (c_reader ac) (c_objects ac) = Ok h ->
  exists ac', __redisAsyncDisconnect call call_status fuel ac = Ok ac' /\ completed ac ac' q i mc mp h REDIS_ERR.
Proof.
  intros [H1 H2 H3 H4 H5] He Hin Hfr [E1 E2 E3 E4 E5 E6] Hr. unfold __redisAsyncDisconnect, __redisAsyncCopyError. cbn [mbind outcome_bind].
  change (ac_err (ac <| ac_err := c_err ac |>)) with (c_err ac). rewrite (proj2 (Z.eqb_neq _ _) He). cbn [mbind outcome_bind].
  set (ac1 := set_flag _ _). assert (Hc1 : closing ac1) by (split; [unfold flag, ac1, set_flag; cbn; by rewrite lor_flag|unfold ac1, set_flag; cbn; by rewrite land_lor_l]).
  destruct (free_spec fuel ac1 q i mc mp h) as (ac' & -> & Hc); [by split|done|by split|exact Hr|]. exists ac'. split; [done|].
  assert (Hf : forall f, Z.land REDIS_DISCONNECTING f = 0 -> flag ac1 f = flag ac f) by (intros f Hf; unfold flag, ac1, set_flag; cbn; by rewrite land_lor_l).
  unfold completed in *. rewrite !Hf in Hc by done. rewrite Hfr in Hc. change (ac_err ac1) with (c_err ac) in Hc. rewrite (proj2 (Z.eqb_neq _ _) He) in Hc. exact Hc.
Qed.

(** C27: The end of a context completes every pending request.  When [redisAsyncFree]
    is called outside of a callback, and when a read of a connected socket fails or
    finds the connection closed, the callback of every command that waits for its reply
    is run, in the order of the commands, then those of the commands that were not
    allowed, then the callback of every channel and of every pattern once, all with a
    null reply, then the disconnect callback of a connection that was established, with
    [REDIS_OK] or [REDIS_ERR]; no node of a queue, no entry, no key and no copied
    callback of a table stays allocated, and the context is gone. *)
Theorem async_end_completes (junk : Z) (efuel fuel : nat) ac (q i : list target) (mc mp : gmap (list Z) target) (h : heap) (sock : socket_state) (r : read_result) :
  context_ok ac q i mc mp -> Z.land (c_flags ac) REDIS_IN_CALLBACK = 0 -> enough efuel ac q i mc mp ->
  redisReaderFree fns (c_reader ac) (c_objects ac) = Ok h ->
  (exists ac', redisAsyncFree call call_status efuel ac = Ok ac' /\ completed ac ac' q i mc mp h REDIS_OK) /\
  (c_err ac = 0 -> flag ac REDIS_CONNECTED = true -> flag ac REDIS_FREEING = false -> r = ReadFailed \/ r = ReadBytes [] ->
   exists ac', redisAsyncHandleRead call call_status junk efuel fuel ac sock r = Ok ac' /\ completed ac ac' q i mc mp h REDIS_ERR).
Proof.
  intros Hok Hin Hen Hr. pose proof Hok as [H1 H2 H3 H4 H5]. pose proof Hen as [E1 E2 E3 E4 E5 E6]. split.
  - unfold redisAsyncFree, alive. rewrite H5. cbn [mbind outcome_bind]. set (ac0 := set_flag ac REDIS_FREEING).
    assert (Hcl : closing ac0) by (split; [unfold flag, ac0, set_flag; cbn; by rewrite lor_flag|unfold ac0, set_flag; cbn; by rewrite land_lor_l]).
    assert (flag ac0 REDIS_IN_CALLBACK = false) as -> by (unfold flag; by rewrite (proj2 Hcl)). cbn [negb].
    destruct (free_spec efuel ac0 q i mc mp h) as (ac' & -> & Hc); [by split|done|by split|exact Hr|]. exists ac'. split; [done|].
    assert (Hfr : flag ac0 REDIS_FREEING = true) by (unfold flag, ac0, set_flag; cbn; by rewrite lor_flag).
    assert (Hco : flag ac0 REDIS_CONNECTED = flag ac REDIS_CONNECTED) by (unfold flag, ac0, set_flag; cbn; by rewrite land_lor_l).
    unfold completed in *. by rewrite Hfr, Hco in Hc.
  - intros He Hco Hnf Hrd. unfold redisAsyncHandleRead, alive. rewrite H5. cbn [mbind outcome_bind]. unfold handle_connect. rewrite Hco. cbn [negb mbind outcome_bind].
    assert (exists e m, e <> 0 /\ redisBufferRead junk ac r = Ok (__redisSetError ac e m, REDIS_ERR)) as (e & m & Hne & ->).
    { unfold redisBufferRead. rewrite He. cbn [Z.eqb negb]. destruct Hrd as [-> | ->]; eexists _, _; (split; [|done]; done). }
    cbn [mbind outcome_bind]. change (REDIS_ERR =? REDIS_ERR) with true. cbn iota.
    destruct (disconnect_spec efuel (__redisSetError ac e m) q i mc mp h) as (ac' & -> & Hc); [by split|done|done|done|by split|done|]. by exists ac'.
Qed.
End teardown.
