(* ===== verification/AsyncCommand.v ===== *)
(** * Commands of an asynchronous context

    [__redisAsyncCommand] of [hiredis/async.c] finds out from the formatted command
    which one it is and where its callback belongs: into one of the queues, or under
    every name of a subscription.  This file shows that it reads exactly the arguments
    that were formatted, and what each kind of command does to the context. *)

From S2P Require Import Prelude Inet Sds RedisReader RedisParse RedisReply RedisFormat HiDict Async AsyncQueue.

(** ** Scanning a formatted command *)

Lemma strchr_found c a b : c <> 0 -> forall p, c ∉ a -> 0 ∉ a -> strchr (a ++ c :: b) c p = Ok (Some (p + zlen a)).
Proof.
  intros Hc. induction a as [|x a IH]; intros p Hn Hz; cbn [strchr Datatypes.app].
  - rewrite Z.eqb_refl. do 2 f_equal. rewrite zlen_nil. lia.
  - apply not_elem_of_cons in Hn as [Hx Hn]. apply not_elem_of_cons in Hz as [Hx0 Hz].
    rewrite (proj2 (Z.eqb_neq x c)), (proj2 (Z.eqb_neq x 0)) by congruence. rewrite IH by done. rewrite zlen_cons. do 2 f_equal. lia.
Qed.

Lemma digits_not c ds : (c < 48 \/ 58 <= c) -> Forall is_digit ds -> c ∉ ds.
Proof. intros Hc Hds Hin. rewrite Forall_forall in Hds. apply Hds in Hin. unfold is_digit in Hin. lia. Qed.

Lemma strtol_digits_spec ds c k : (c < 48 \/ 58 <= c) -> Forall is_digit ds -> forall v, strtol_digits (ds ++ c :: k) v = Ok (digits_value ds v).
Proof.
  intros Hc. induction 1 as [|d ds Hd _ IH]; intros v; cbn [strtol_digits Datatypes.app].
  - destruct (Z.leb_spec 48 c), (Z.leb_spec c 57); done || lia.
  - unfold is_digit in Hd. rewrite (proj2 (Z.leb_le 48 d)), (proj2 (Z.leb_le d 57)) by lia. apply IH.
Qed.

Lemma strtol_number n k : 0 <= n < 2 ^ 63 -> strtol (sdsull2str n ++ 13 :: k) = Ok n.
Proof.
  intros Hn. destruct (u64_digits n) as (Hd & Hv & _); [lia|].
  assert (Hne : sdsull2str n <> []) by (intros E; destruct (sdsll2str_shape n) as (ds & E' & _ & Hne & _); [lia|];
    rewrite (proj2 (Z.ltb_ge n 0)), ll_ull, app_nil_l in E' by lia; congruence).
  pose proof (strtol_digits_spec (sdsull2str n) 13 k ltac:(lia) Hd 0) as E. rewrite Hv in E.
  destruct (sdsull2str n) as [|d ds]; [done|]. cbn [Datatypes.app] in *. cbn [strtol]. inversion_clear Hd as [|?? Hd0 _]. unfold is_digit in Hd0.
  assert (isspace d = false) as -> by (unfold isspace; lia). rewrite (proj2 (Z.eqb_neq d 45)), (proj2 (Z.eqb_neq d 43)) by lia.
  rewrite E. cbn [mbind outcome_bind]. f_equal. lia.
Qed.

(** The argument that stands at [zlen pre], or behind bytes that are not a dollar. *)
Lemma nextArgument_spec pre skip a post : 36 ∉ skip -> 0 ∉ skip -> zlen (pre ++ skip ++ encode (RString a) ++ post) < 2 ^ 31 ->
  nextArgument (pre ++ skip ++ encode (RString a) ++ post) (zlen pre) =
    Ok (Some (zlen (pre ++ skip ++ encode (RString a)), zlen (pre ++ skip ++ [36] ++ sdsull2str (zlen a) ++ [13; 10]), zlen a)).
Proof.
  intros Hs Hs0 Hb. pose proof (zlen_nonneg a). pose proof (zlen_nonneg pre). pose proof (zlen_nonneg skip). pose proof (zlen_nonneg post).
  pose proof (zlen_nonneg (sdsull2str (zlen a))). rewrite !zlen_app, zlen_bulk in Hb. destruct (u64_digits (zlen a)) as (Hd & _ & Hdl); [lia|].
  unfold nextArgument. rewrite (elem_at_app pre) by done. rewrite encode_bulk. set (ds := sdsull2str (zlen a)) in *. pose proof (zlen_nonneg ds).
  set (tail := ds ++ [13; 10] ++ a ++ [13; 10]).
  assert (Hp : (c ← match skip ++ ([36] ++ tail) ++ post with x :: _ => Ok x | [] => Crash OutOfBounds end;
    p ← (if negb (c =? 36) then strchr (drop (Z.to_nat (zlen pre)) (pre ++ skip ++ ([36] ++ tail) ++ post)) 36 (zlen pre) else Ok (Some (zlen pre))); Ok p) = Ok (Some (zlen (pre ++ skip)))).
  { assert (E : drop (Z.to_nat (zlen pre)) (pre ++ skip ++ ([36] ++ tail) ++ post) = skip ++ 36 :: tail ++ post) by (unfold zlen; rewrite Nat2Z.id, drop_app_length; done).
    rewrite E, strchr_found by done. rewrite zlen_app. destruct skip as [|x skip]; cbn.
    - rewrite zlen_nil, Z.add_0_r. done.
    - apply not_elem_of_cons in Hs as [Hx _]. rewrite (proj2 (Z.eqb_neq x 36)) by congruence. done. }
  apply bind_Ok in Hp as (c & -> & Hp). cbn [mbind outcome_bind]. apply bind_Ok in Hp as (p & -> & [= ->]). cbn [mbind outcome_bind].
  assert (E1 : pre ++ skip ++ ([36] ++ tail) ++ post = (pre ++ skip ++ [36]) ++ ds ++ 13 :: [10] ++ a ++ [13; 10] ++ post) by (unfold tail; rewrite <- !app_assoc; done).
  assert (E2 : pre ++ skip ++ ([36] ++ tail) ++ post = (pre ++ skip) ++ ([36] ++ ds) ++ 13 :: [10] ++ a ++ [13; 10] ++ post) by (unfold tail; rewrite <- !app_assoc; done).
  assert (Hd1 : drop (Z.to_nat (zlen (pre ++ skip) + 1)) (pre ++ skip ++ ([36] ++ tail) ++ post) = ds ++ 13 :: [10] ++ a ++ [13; 10] ++ post).
  { rewrite E1. apply drop_app_length'. unfold zlen. rewrite !length_app. cbn. lia. }
  rewrite Hd1, (strtol_number (zlen a) _ ltac:(lia) : strtol (ds ++ 13 :: _) = _). cbn [mbind outcome_bind].
  assert (Hd2 : drop (Z.to_nat (zlen (pre ++ skip))) (pre ++ skip ++ ([36] ++ tail) ++ post) = ([36] ++ ds) ++ 13 :: [10] ++ a ++ [13; 10] ++ post).
  { rewrite E2. apply drop_app_length'. unfold zlen. rewrite !length_app. cbn. lia. }
  rewrite Hd2, strchr_found; [|done|cbn; apply not_elem_of_cons; split; [done|apply digits_not; [lia|done]]|cbn; apply not_elem_of_cons; split; [done|apply digits_not; [lia|done]]].
  cbn [mbind outcome_bind]. unfold tail. rewrite !zlen_app. change (zlen [36]) with 1. change (zlen [13; 10]) with 2.
  assert (u64 (i32 (zlen a)) = zlen a) as -> by mword. do 4 f_equal; mword.
Qed.

(** Behind the last argument there is none. *)
Lemma nextArgument_end pre junk : nextArgument (pre ++ 0 :: junk) (zlen pre) = Ok None.
Proof.
  unfold nextArgument. rewrite (elem_at_app pre) by done. cbn [mbind outcome_bind Z.eqb negb].
  assert (drop (Z.to_nat (zlen pre)) (pre ++ 0 :: junk) = 0 :: junk) as -> by (unfold zlen; by rewrite Nat2Z.id, drop_app_length). done.
Qed.

(** ** Names of commands *)

Definition lower (l : list Z) : list Z := tolower <$> l.

(** The name without the letter that says it is about patterns. *)
Definition base_name (name : list Z) : bool * list Z :=
  match name with c :: name' => if tolower c =? 112 then (true, name') else (false, name) | [] => (false, []) end.

Definition subscribe : list Z := [115; 117; 98; 115; 99; 114; 105; 98; 101].
Definition monitor : list Z := [109; 111; 110; 105; 116; 111; 114].

Inductive command_kind := CSubscribe (pattern : bool) | CUnsubscribe | CMonitor | COther.
Definition kind_of (name : list Z) (args : list (list Z)) : command_kind :=
  let '(p, base) := base_name name in
  if bool_decide (args <> []) && bool_decide (lower base = subscribe) then CSubscribe p
  else if bool_decide (lower base = UNSUBSCRIBE) then CUnsubscribe
  else if bool_decide (lower base = monitor) then CMonitor
  else COther.

Lemma strncasecmp_spec t : Forall (fun d => tolower d <> 0) t -> forall s, 0 ∈ s ->
  strncasecmp_eq s t = Ok (bool_decide (take (length t) (lower s) = lower t)).
Proof.
  induction 1 as [|d t Hd _ IH]; intros [|c s] Hz; cbn [strncasecmp_eq length]; try done; try (by apply not_elem_of_nil in Hz).
  cbn. destruct (Z.eqb_spec c 0) as [->|Hc]; cbn [orb].
  { rewrite bool_decide_false; [done|]. intros [= E _]. done. }
  apply elem_of_cons in Hz as [Hz|Hz]; [congruence|]. destruct (Z.eqb_spec (tolower c) (tolower d)) as [E|E]; cbn [negb].
  - rewrite IH by done. f_equal. apply bool_decide_ext. rewrite E. split; [intros E'; f_equal; exact E'|by intros [= ?]].
  - rewrite bool_decide_false; [done|]. by intros [= ? _].
Qed.

(** Up to the first carriage return. *)
Lemma app_cr_inj (a b k k' : list Z) : 13 ∉ a -> 13 ∉ b -> a ++ 13 :: k = b ++ 13 :: k' -> a = b.
Proof.
  revert b. induction a as [|x a IH]; intros [|y b] Ha Hb; cbn; try done.
  - intros [= <- _]. exfalso. apply Hb. by left.
  - intros [= -> _]. exfalso. apply Ha. by left.
  - apply not_elem_of_cons in Ha as [_ Ha]. apply not_elem_of_cons in Hb as [_ Hb]. intros [= -> E]. f_equal. by apply IH.
Qed.

Lemma lower_cr l : 13 ∉ l -> 13 ∉ lower l.
Proof.
  intros Hl (x & E & Hx)%list_elem_of_fmap. apply Hl. assert (x = 13) as <-; [|done]. unfold tolower in E.
  destruct (Z.leb_spec 65 x), (Z.leb_spec x 90); cbn in E; lia.
Qed.

(** The comparison of a line with a word and a line end compares the names. *)
Lemma command_line name word line k : 13 ∉ name -> 13 ∉ word -> line = word ++ [13; 10] -> lower line = line -> Forall (fun d => tolower d <> 0) line -> 0 ∈ k ->
  strncasecmp_eq (name ++ [13; 10] ++ k) line = Ok (bool_decide (lower name = word)).
Proof.
  intros Hn Hw -> Hl Hf Hk. rewrite strncasecmp_spec; [|done|set_solver]. f_equal. apply bool_decide_ext. rewrite Hl. unfold lower. rewrite !fmap_app. split.
  - intros E. apply (app_cr_inj _ _ (10 :: (tolower <$> k)) (10 :: drop (length (word ++ [13; 10])) (lower (name ++ [13; 10] ++ k)))); [by apply lower_cr|done|].
    transitivity ((word ++ [13; 10]) ++ drop (length (word ++ [13; 10])) (lower (name ++ [13; 10] ++ k))); [|by rewrite <- app_assoc].
    unfold lower. rewrite !fmap_app. rewrite <- E at 1. rewrite take_drop. done.
  - intros <-. rewrite app_assoc. apply take_app_length'. rewrite !length_app, !length_fmap. done.
Qed.

(** ** Subscriptions *)

Lemma holds_used (d : dict) (mp : gmap (list Z) target) : holds callbackDict d mp -> used d = Z.of_nat (size mp).
Proof.
  intros (C & Hd & ->). rewrite (dk_used _ _ _ Hd). unfold map_of, zlen. by rewrite <- length_map_to_list, map_to_list_to_map, length_fmap by apply Hd.
Qed.

Section command.
Context {U : Type}.
Abbreviation ctx := (redisAsyncContext U).
Context (junk : Z).
Implicit Types (ac : ctx) (q i : list target) (mc mp : gmap (list Z) target).

(** The same context but for the tables. *)
Definition retabled ac ac' : Prop := ac' = ac <| channels := channels ac' |> <| patterns := patterns ac' |> <| ac_blocks := ac_blocks ac' |>.

Lemma retabled_trans ac1 ac2 ac3 : retabled ac1 ac2 -> retabled ac2 ac3 -> retabled ac1 ac3.
Proof. unfold retabled. intros E1 E2. rewrite E2, E1. by destruct ac1. Qed.

(** The tables after the names [l] were subscribed to. *)
Definition enlist (cb : target) (m : gmap (list Z) target) (l : list (list Z)) : gmap (list Z) target := foldl (fun m n => <[n := cb]> m) m l.

Lemma replace_spec (d : dict) (m : gmap (list Z) target) (cb : target) (name : list Z) (w : blocks) : holds callbackDict d m -> Z.of_nat (size m) < 2 ^ 31 ->
  exists d' w' ret, dictReplace callbackDict d name cb (w.1 + 1, w.2) = Ok (d', w', ret) /\ holds callbackDict d' (<[name := cb]> m) /\
    (let n := Z.of_nat (size (<[name := cb]> m)) - Z.of_nat (size m) in (if ret =? 0 then (w'.1 - 1, w'.2) else w') = (w.1 + n, w.2 + n)).
Proof.
  intros Hd Hs. pose proof (holds_used _ _ Hd) as Hu. destruct Hd as (C & Hd & ->).
  destruct (dictReplace_spec callbackDict d C name cb (w.1 + 1, w.2) Hd) as (d' & C' & Hd' & H); [lia|]. destruct (map_of C !! name) as [v|] eqn:E.
  - destruct H as (old & _ & _ & -> & Em). eexists d', _, _. split; [done|]. split; [by exists C'|]. cbn. rewrite map_size_insert_Some by (by eexists). f_equal; lia.
  - destruct H as (-> & Em). eexists d', _, _. split; [done|]. split; [by exists C'|]. cbn. rewrite map_size_insert_None by done. f_equal; lia.
Qed.

Lemma subscribe_name_spec ac q i mc mp cb (p : bool) name : context_ok ac q i mc mp -> Z.of_nat (size (if p then mp else mc)) < 2 ^ 31 ->
  exists ac', subscribe_name ac cb p name = Ok ac' /\ retabled ac ac' /\
    context_ok ac' q i (if p then mc else <[name := cb]> mc) (if p then <[name := cb]> mp else mp).
Proof.
  intros [H1 H2 H3 H4 H5] Hs. unfold subscribe_name. destruct p; cbn [the_table].
  - destruct (replace_spec (patterns ac) mp cb name (ac_blocks ac) H3 Hs) as (d' & w' & ret & -> & Hd' & Hw). cbn [mbind outcome_bind].
    eexists. split; [done|]. split; [by destruct ac|]. split; try done. cbn. rewrite Hw, H4. cbn. f_equal; lia.
  - destruct (replace_spec (channels ac) mc cb name (ac_blocks ac) H2 Hs) as (d' & w' & ret & -> & Hd' & Hw). cbn [mbind outcome_bind].
    eexists. split; [done|]. split; [by destruct ac|]. split; try done. cbn. rewrite Hw, H4. cbn. f_equal; lia.
Qed.

Lemma size_insert_le (m : gmap (list Z) target) n cb : (size (<[n := cb]> m) <= S (size m))%nat.
Proof. destruct (m !! n) eqn:E; [rewrite map_size_insert_Some by (by eexists)|rewrite map_size_insert_None by done]; lia. Qed.

Lemma subscribe_loop_spec cb (p : bool) rest names : forall fuel ac q i mc mp pre, context_ok ac q i mc mp ->
  zlen (pre ++ bulks names ++ 0 :: rest) < 2 ^ 31 -> Z.of_nat (size (if p then mp else mc)) + zlen names <= 2 ^ 31 -> (length names < fuel)%nat ->
  exists ac', subscribe_loop fuel ac cb p (pre ++ bulks names ++ 0 :: rest) (zlen pre) = Ok ac' /\ retabled ac ac' /\
    context_ok ac' q i (if p then mc else enlist cb mc names) (if p then enlist cb mp names else mp).
Proof.
  induction names as [|a names IH]; intros [|fuel] ac q i mc mp pre Hac Hb Hs Hf; cbn in Hf; try lia; cbn [subscribe_loop].
  { change (bulks [] ++ 0 :: rest) with (0 :: rest). rewrite nextArgument_end. cbn. exists ac. split; [done|]. split; [by destruct ac|]. by destruct p. }
  rewrite bulks_cons, <- app_assoc in *. set (post := bulks names ++ 0 :: rest) in *.
  pose proof (nextArgument_spec pre [] a post) as E. cbn [Datatypes.app] in E. rewrite E; [|apply not_elem_of_nil|apply not_elem_of_nil|done]. clear E. cbn [mbind outcome_bind].
  assert (Hread : read_at (pre ++ encode (RString a) ++ post) (zlen (pre ++ 36 :: sdsull2str (zlen a) ++ [13; 10])) (zlen a) = Ok a).
  { rewrite encode_bulk. change ([36] ++ sdsull2str (zlen a) ++ [13; 10] ++ a ++ [13; 10]) with (36 :: sdsull2str (zlen a) ++ [13; 10] ++ a ++ [13; 10]).
    assert (pre ++ (36 :: sdsull2str (zlen a) ++ [13; 10] ++ a ++ [13; 10]) ++ post = (pre ++ 36 :: sdsull2str (zlen a) ++ [13; 10]) ++ a ++ [13; 10] ++ post) as ->
      by (rewrite <- !app_assoc; cbn [Datatypes.app]; rewrite <- !app_assoc; cbn [Datatypes.app]; by rewrite <- !app_assoc). by apply read_at_mid. }
  rewrite Hread. cbn [mbind outcome_bind]. rewrite zlen_cons in Hs. pose proof (zlen_nonneg names).
  destruct (subscribe_name_spec ac q i mc mp cb p a Hac) as (ac1 & -> & Hr1 & Hac1); [lia|]. cbn [mbind outcome_bind].
  assert (Hpre : pre ++ encode (RString a) ++ post = (pre ++ encode (RString a)) ++ post) by (by rewrite app_assoc). rewrite Hpre in *.
  destruct (IH fuel ac1 q i _ _ (pre ++ encode (RString a)) Hac1) as (ac2 & -> & Hr2 & Hac2); [done| |lia|].
  { pose proof (size_insert_le mp a cb). pose proof (size_insert_le mc a cb). destruct p; lia. }
  exists ac2. split; [done|]. split; [by eapply retabled_trans|]. by destruct p.
Qed.

(** ** Queues *)

Lemma push_reply_spec ac q i mc mp cb : context_ok ac q i mc mp -> exists h l,
  push_reply ac cb = Ok (ac <| ac_cells := h |> <| replies := l |>) /\ context_ok (ac <| ac_cells := h |> <| replies := l |>) (q ++ [cb]) i mc mp.
Proof.
  intros [(pq & pi & Hc & <- & <-) H2 H3 H4 H5]. unfold push_reply. destruct (push_spec _ _ _ _ _ cb Hc) as (h & l & x & -> & Hc'). cbn [mbind outcome_bind].
  exists h, l. split; [done|]. split; try done. exists (pq ++ [(x, cb)]), pi. by rewrite fmap_app.
Qed.

Lemma push_invalid_spec ac q i mc mp cb : context_ok ac q i mc mp -> exists h l,
  push_invalid ac cb = Ok (ac <| ac_cells := h |> <| invalid := l |>) /\ context_ok (ac <| ac_cells := h |> <| invalid := l |>) q (i ++ [cb]) mc mp.
Proof.
  intros [(pq & pi & Hc & <- & <-) H2 H3 H4 H5]. unfold push_invalid. apply cells_sym in Hc.
  destruct (push_spec _ _ _ _ _ cb Hc) as (h & l & x & -> & Hc'%cells_sym). cbn [mbind outcome_bind].
  exists h, l. split; [done|]. split; try done. exists pq, (pi ++ [(x, cb)]). by rewrite fmap_app.
Qed.

(** ** One command *)

(** What no command changes. *)
Definition untouched ac ac' : Prop :=
  c_err ac' = c_err ac /\ c_reader ac' = c_reader ac /\ c_objects ac' = c_objects ac /\ ac_err ac' = ac_err ac /\
  onConnect ac' = onConnect ac /\ onDisconnect ac' = onDisconnect ac /\ has_ev ac' = has_ev ac /\ user ac' = user ac.

(** The context [ac'] after a command was accepted: callbacks and subscriptions, the
    flags, the bytes that wait to be written; a write is scheduled. *)
Definition command_sent ac ac' q i mc mp (flags : Z) (bytes : list Z) : Prop :=
  context_ok ac' q i mc mp /\ c_flags ac' = flags /\ sds_holds (c_obuf ac') bytes /\ untouched ac ac' /\
  events ac' = if has_ev ac then events ac ++ [AddWrite] else events ac.

Lemma finish_spec ac ac1 q i mc mp cmd c bytes : context_ok ac1 q i mc mp -> c_obuf ac1 = c_obuf ac -> events ac1 = events ac -> untouched ac ac1 ->
  sds_holds (c_obuf ac) c -> read_at cmd 0 (zlen bytes) = Ok bytes -> zlen c + zlen bytes < 2 ^ 30 ->
  exists ac', (ac ← __redisAppendCommand junk ac1 cmd (zlen bytes); Ok (_EL ac AddWrite, REDIS_OK)) = Ok (ac', REDIS_OK) /\
    command_sent ac ac' q i mc mp (c_flags ac1) (c ++ bytes).
Proof.
  intros Hac Eb Ee Hu Hc Hr Hb. unfold __redisAppendCommand. rewrite Eb.
  destruct (catlen_holds junk (c_obuf ac) c cmd (zlen bytes) bytes Hc Hr Hb) as (s & -> & Hs). cbn [mbind outcome_bind]. eexists. split; [done|].
  destruct Hu as (U1 & U2 & U3 & U4 & U5 & U6 & U7 & U8). destruct Hac as [H1 H2 H3 H4 H5].
  unfold command_sent, untouched, _EL. change (has_ev (ac1 <| c_obuf := s |>)) with (has_ev ac1). rewrite U7. destruct (has_ev ac).
  - split_and!; try done. cbn. by rewrite Ee.
  - by split_and!.
Qed.

Lemma args_le_bulks (args : list (list Z)) : (length args <= length (bulks args))%nat.
Proof.
  induction args as [|a args IH]; [done|]. rewrite bulks_cons, length_app. pose proof (zlen_bulk a) as H. pose proof (zlen_nonneg a).
  pose proof (zlen_nonneg (sdsull2str (zlen a))). unfold zlen at 1 in H. cbn [length]. lia.
Qed.

(** What is read of a command: where its name is and whether arguments follow. *)
Lemma command_layout name args rest : zlen (encode (command (name :: args))) < 2 ^ 30 -> zlen (encode (command (name :: args)) ++ 0 :: rest) < 2 ^ 31 ->
  exists pre head, encode (command (name :: args)) ++ 0 :: rest = pre ++ bulks args ++ 0 :: rest /\
    encode (command (name :: args)) ++ 0 :: rest = head ++ name ++ [13; 10] ++ bulks args ++ 0 :: rest /\
    nextArgument (encode (command (name :: args)) ++ 0 :: rest) 0 = Ok (Some (zlen pre, zlen head, zlen name)).
Proof.
  intros Hb Hb'. set (skip := [42] ++ sdsull2str (zlen (name :: args)) ++ [13; 10]). set (head := skip ++ [36] ++ sdsull2str (zlen name) ++ [13; 10]).
  exists (skip ++ encode (RString name)), head.
  assert (E : encode (command (name :: args)) ++ 0 :: rest = skip ++ encode (RString name) ++ bulks args ++ 0 :: rest)
    by (rewrite encode_command, bulks_cons; unfold skip; rewrite <- !app_assoc; done).
  split_and!.
  - rewrite E. by rewrite app_assoc.
  - rewrite E, encode_bulk. unfold head. rewrite <- !app_assoc. done.
  - rewrite E in *. assert (Hd : Forall is_digit (sdsull2str (zlen (name :: args)))).
    { destruct (u64_digits (zlen (name :: args))) as (Hd & _ & _); [|done]. pose proof (args_le_bulks (name :: args)).
      rewrite encode_command, !zlen_app in Hb. unfold zlen in *. lia. }
    apply (nextArgument_spec [] skip name (bulks args ++ 0 :: rest)); [| |done].
    + unfold skip. cbn. apply not_elem_of_cons. split; [done|]. rewrite elem_of_app. intros [Hin|Hin]; [revert Hin; apply digits_not; [lia|done]|set_solver].
    + unfold skip. cbn. apply not_elem_of_cons. split; [done|]. rewrite elem_of_app. intros [Hin|Hin]; [revert Hin; apply digits_not; [lia|done]|set_solver].
Qed.

(** The tests of the name, with the word a line is compared to. *)
Lemma name_tests name args rest head (cmd := head ++ name ++ [13; 10] ++ bulks args ++ 0 :: rest) : 13 ∉ name ->
  exists c0, elem_at cmd (zlen head) = Ok c0 /\ (tolower c0 =? 112) = (base_name name).1 /\
    let cstr := drop (Z.to_nat (zlen head + (if (base_name name).1 then 1 else 0))) cmd in let base := lower (base_name name).2 in
    strncasecmp_eq cstr SUBSCRIBE_LINE = Ok (bool_decide (base = subscribe)) /\
    strncasecmp_eq cstr UNSUBSCRIBE_LINE = Ok (bool_decide (base = UNSUBSCRIBE)) /\
    strncasecmp_eq cstr MONITOR_LINE = Ok (bool_decide (base = monitor)).
Proof.
  intros Hn. set (k := bulks args ++ 0 :: rest) in *. assert (Hk : 0 ∈ k) by (unfold k; set_solver).
  assert (Hd : (13 ∉ (base_name name).2) /\ drop (Z.to_nat (zlen head + (if (base_name name).1 then 1 else 0))) cmd = (base_name name).2 ++ [13; 10] ++ k).
  { unfold cmd, base_name. destruct name as [|c name]; [split; [done|]; apply drop_app_length'; unfold zlen; cbn [fst]; lia|]. destruct (tolower c =? 112); cbn [fst snd].
    - split; [set_solver|]. change (head ++ (c :: name) ++ [13; 10] ++ k) with (head ++ [c] ++ name ++ [13; 10] ++ k). rewrite app_assoc.
      apply drop_app_length'. rewrite length_app. unfold zlen. cbn. lia.
    - split; [done|]. apply drop_app_length'. unfold zlen. lia. }
  destruct Hd as [Hb ->]. unfold cmd. rewrite (elem_at_app head) by done. exists (match name with c :: _ => c | [] => 13 end). split; [by destruct name|]. split; [destruct name as [|c name]; cbn; [done|by destruct (tolower c =? 112)]|].
  cbv zeta. split_and!; apply command_line; try done; try by_decide.
Qed.

(** What a command comes to. *)
Definition command_outcome ac q i mc mp (cb : target) (name : list Z) (args : list (list Z)) (bytes : list Z) ac' (st : Z) : Prop :=
  if flag ac (Z.lor REDIS_DISCONNECTING REDIS_FREEING) then ac' = ac /\ st = REDIS_ERR
  else match kind_of name args with
  | CSubscribe p => st = REDIS_OK /\
      command_sent ac ac' q i (if p then mc else enlist cb mc args) (if p then enlist cb mp args else mp) (Z.lor (c_flags ac) REDIS_SUBSCRIBED) bytes
  | CUnsubscribe => if flag ac REDIS_SUBSCRIBED then st = REDIS_OK /\ command_sent ac ac' q i mc mp (c_flags ac) bytes else ac' = ac /\ st = REDIS_ERR
  | CMonitor => st = REDIS_OK /\ command_sent ac ac' (q ++ [cb]) i mc mp (Z.lor (c_flags ac) REDIS_MONITORING) bytes
  | COther => st = REDIS_OK /\ command_sent ac ac' (if flag ac REDIS_SUBSCRIBED then q else q ++ [cb]) (if flag ac REDIS_SUBSCRIBED then i ++ [cb] else i) mc mp (c_flags ac) bytes
  end.

Lemma command_spec ac (fn privdata : Z) (argv : list (list Z)) (argvlen : option (list Z)) (name : list Z) (args : list (list Z)) q i mc mp (c : list Z) :
  context_ok ac q i mc mp -> sds_holds (c_obuf ac) c -> args_at argv argvlen 0 (name :: args) -> 13 ∉ name ->
  zlen c + zlen (encode (command (name :: args))) < 2 ^ 30 - 1 ->
  Z.of_nat (size mc) + zlen args <= 2 ^ 31 -> Z.of_nat (size mp) + zlen args <= 2 ^ 31 ->
  let cb := (fn, privdata) in let bytes := c ++ encode (command (name :: args)) in
  exists ac' st, redisAsyncCommandArgv junk ac fn privdata (zlen (name :: args)) argv argvlen = Ok (ac', st) /\
    command_outcome ac q i mc mp cb name args bytes ac' st.
Proof.
  intros Hac Hc Hat Hn Hb Hs1 Hs2 cb bytes; subst cb bytes. pose proof (zlen_nonneg c). unfold redisAsyncCommandArgv.
  destruct (format_sds_spec junk argv argvlen (name :: args) Hat) as (s & -> & rest & -> & Hrest); [lia|]. cbn [mbind outcome_bind sh_buf].
  unfold __redisAsyncCommand, alive, command_outcome. rewrite (cx_alive _ _ _ _ _ Hac). cbn [mbind outcome_bind].
  destruct (flag ac (Z.lor REDIS_DISCONNECTING REDIS_FREEING)); [by eexists _, _|].
  destruct (command_layout name args rest) as (pre & head & E1 & E2 & ->); [lia|rewrite zlen_app, zlen_cons; lia|]. cbn [mbind outcome_bind].
  destruct (name_tests name args rest head Hn) as (c0 & Hc0 & Hp & T1 & T2 & T3). rewrite <- E2 in Hc0, T1, T2, T3. cbv zeta in T1, T2, T3.
  assert (Hr : read_at (encode (command (name :: args)) ++ 0 :: rest) 0 (zlen (encode (command (name :: args)))) = Ok (encode (command (name :: args)))) by (by apply (read_at_mid [])).
  assert (Hfin := fun ac1 q i mc mp H1 H2 H3 H4 => finish_spec ac ac1 q i mc mp _ c _ H1 H2 H3 H4 Hc Hr ltac:(lia)).
  assert (Hlen : (length args < length (encode (command (name :: args)) ++ 0%Z :: rest))%nat).
  { pose proof (args_le_bulks args). rewrite E1, !length_app. cbn. lia. }
  assert (Hnext : elem_at (encode (command (name :: args)) ++ 0 :: rest) (zlen pre) = Ok (match args with [] => 0 | _ => 36 end)).
  { rewrite E1, (elem_at_app pre) by done. by destruct args. }
  assert (Hbuf : zlen (encode (command (name :: args)) ++ 0 :: rest) < 2 ^ 31) by (rewrite zlen_app, zlen_cons; lia).
  rewrite Hnext. cbn [mbind outcome_bind]. rewrite Hc0. cbn [mbind outcome_bind]. rewrite Hp, T1, T2, T3. unfold kind_of.
  destruct (base_name name) as [p base] eqn:Ebase. cbn [fst snd] in *.
  assert (Hsub : (if match args with [] => 0 | _ => 36 end =? 36 then Ok (bool_decide (lower base = subscribe)) else Ok false) =
    Ok (bool_decide (args <> []) && bool_decide (lower base = subscribe))) by (by destruct args).
  rewrite Hsub. cbn [mbind outcome_bind].
  destruct (bool_decide (args <> []) && bool_decide (lower base = subscribe)).
  { rewrite E1 in Hbuf, Hlen |- *.
    destruct (subscribe_loop_spec (fn, privdata) p rest args (length (pre ++ bulks args ++ 0 :: rest)) (set_flag ac REDIS_SUBSCRIBED) q i mc mp pre) as (ac1 & -> & Hre & Hac1);
      [by destruct Hac|done|by destruct p|done|]. cbn [mbind outcome_bind]. rewrite <- E1.
    destruct (Hfin ac1 _ _ _ _ Hac1) as (ac' & -> & Hsent); [by rewrite Hre..|].
    eexists _, _. split; [done|]. split; [done|]. rewrite Hre in Hsent. exact Hsent. }
  destruct (bool_decide (lower base = UNSUBSCRIBE)).
  { destruct (flag ac REDIS_SUBSCRIBED); cbn [negb]; [|by eexists _, _].
    destruct (Hfin ac _ _ _ _ Hac) as (ac' & -> & Hsent); [done..|]. by eexists _, _. }
  destruct (bool_decide (lower base = monitor)).
  { destruct (push_reply_spec (set_flag ac REDIS_MONITORING) q i mc mp (fn, privdata)) as (h & l & -> & Hac1); [by destruct Hac|]. cbn [mbind outcome_bind].
    destruct (Hfin _ _ _ _ _ Hac1) as (ac' & -> & Hsent); [done..|].
    by eexists _, _. }
  destruct (flag ac REDIS_SUBSCRIBED).
  - destruct (push_invalid_spec ac q i mc mp (fn, privdata) Hac) as (h & l & -> & Hac1). cbn [mbind outcome_bind].
    destruct (Hfin _ _ _ _ _ Hac1) as (ac' & -> & Hsent); [done..|].
    by eexists _, _.
  - destruct (push_reply_spec ac q i mc mp (fn, privdata) Hac) as (h & l & -> & Hac1). cbn [mbind outcome_bind].
    destruct (Hfin _ _ _ _ _ Hac1) as (ac' & -> & Hsent); [done..|].
    by eexists _, _.
Qed.

(** C26: A command goes where it belongs.  For an argument vector whose name has no
    carriage return, [redisAsyncCommandArgv] is refused once the connection is being
    closed; otherwise it recognises the command by its name in any case, from the
    bytes it has formatted: [SUBSCRIBE] and [PSUBSCRIBE] with arguments register the
    callback under every argument as a channel or a pattern, replacing older ones,
    [UNSUBSCRIBE] and [PUNSUBSCRIBE] register nothing and fail outside of a
    subscription, [MONITOR] and every other command append the callback to the replies
    that are waited for, or behind the commands that are not allowed during a
    subscription; what is accepted is appended to the bytes to be written in the redis
    protocol and a write is scheduled.  The reader, the replies and the callbacks
    before it are not touched, no byte outside of the command is read, and the key
    strings and copied callbacks that are allocated stay those of the tables. *)
Theorem async_command_exact ac (fn privdata : Z) (argv : list (list Z)) (argvlen : option (list Z)) (name : list Z) (args : list (list Z)) q i mc mp (c : list Z) :
  context_ok ac q i mc mp -> sds_holds (c_obuf ac) c -> args_at argv argvlen 0 (name :: args) -> 13 ∉ name ->
  zlen c + zlen (encode (command (name :: args))) < 2 ^ 30 - 1 ->
  Z.of_nat (size mc) + zlen args <= 2 ^ 31 -> Z.of_nat (size mp) + zlen args <= 2 ^ 31 ->
  let cb := (fn, privdata) in let bytes := c ++ encode (command (name :: args)) in
  exists ac' st, redisAsyncCommandArgv junk ac fn privdata (zlen (name :: args)) argv argvlen = Ok (ac', st) /\
    if flag ac (Z.lor REDIS_DISCONNECTING REDIS_FREEING) then ac' = ac /\ st = REDIS_ERR
    else match kind_of name args with
    | CSubscribe p => st = REDIS_OK /\
        command_sent ac ac' q i (if p then mc else enlist cb mc args) (if p then enlist cb mp args else mp) (Z.lor (c_flags ac) REDIS_SUBSCRIBED) bytes
    | CUnsubscribe => if flag ac REDIS_SUBSCRIBED then st = REDIS_OK /\ command_sent ac ac' q i mc mp (c_flags ac) bytes else ac' = ac /\ st = REDIS_ERR
    | CMonitor => st = REDIS_OK /\ command_sent ac ac' (q ++ [cb]) i mc mp (Z.lor (c_flags ac) REDIS_MONITORING) bytes
    | COther => st = REDIS_OK /\ command_sent ac ac' (if flag ac REDIS_SUBSCRIBED then q else q ++ [cb]) (if flag ac REDIS_SUBSCRIBED then i ++ [cb] else i) mc mp (c_flags ac) bytes
    end.
Proof. exact (command_spec ac fn privdata argv argvlen name args q i mc mp c). Qed.
End command.

(** ** A new context *)

Lemma initialize_ok {U} err flags obuf reader objects (u : U) : context_ok (redisAsyncInitialize err flags obuf reader objects u) [] [] ∅ ∅.
Proof.
  split; try done.
  - exists [], []. split; [|done]. split; [done|done|apply NoDup_nil_2|apply dom_empty_L|]. split; [done|apply Forall_nil_2].
  - exists []. split; [apply dict_ok_create|done].
  - exists []. split; [apply dict_ok_create|done].
Qed.

(** ** Examples *)

(** A session: a command, a subscription to two channels, and a command that is not
    allowed during it. *)
Definition session {U} (u : U) : outcome (redisAsyncContext U) :=
  obuf ← sdsempty 7;
  r ← redisReaderCreate 7;
  let ac := redisAsyncInitialize 0 0 obuf r (mkHeap ∅ 1) u in
  '(ac, _) ← redisAsyncCommandArgv 7 ac 1 10 1 [[80; 73; 78; 71]] (Some [4]);
  '(ac, _) ← redisAsyncCommandArgv 7 ac 2 20 3 [[83; 117; 98; 115; 99; 114; 105; 98; 101]; [97]; [98]] (Some [9; 1; 1]);
  '(ac, _) ← redisAsyncCommandArgv 7 ac 3 30 2 [[71; 69; 84]; [107]] (Some [3; 1]);
  Ok ac.

Lemma async_command_exact_witness :
  let name := [83; 117; 98; 115; 99; 114; 105; 98; 101] in
  exists obuf ac' st, sdsempty 7 = Ok obuf /\
    redisAsyncCommandArgv 7 (redisAsyncInitialize 0 0 obuf (mkReader 0 [] None 0 0 0 [] (-1) 0) (mkHeap ∅ 1) tt) 2 20 3 [name; [97]; [98]] (Some [9; 1; 1]) = Ok (ac', st) /\
    st = REDIS_OK /\ context_ok ac' [] [] (<[[98] := (2, 20)]> {[ [97] := (2, 20) ]}) ∅ /\ c_flags ac' = REDIS_SUBSCRIBED /\
    sds_holds (c_obuf ac') (encode (command [name; [97]; [98]])).
Proof.
  destruct (sdsempty_holds 7) as (obuf & E & Ho).
  destruct (async_command_exact 7 (redisAsyncInitialize 0 0 obuf (mkReader 0 [] None 0 0 0 [] (-1) 0) (mkHeap ∅ 1) tt) 2 20
    [[83; 117; 98; 115; 99; 114; 105; 98; 101]; [97]; [98]] (Some [9; 1; 1]) [83; 117; 98; 115; 99; 114; 105; 98; 101] [[97]; [98]] [] [] ∅ ∅ [])
    as (ac' & st & Ec & Hc).
  - apply initialize_ok.
  - exact Ho.
  - intros [|[|[|[|i]]]] a [= <-]; (split; [done|]); eexists; done.
  - apply (bool_decide_unpack _). by vm_compute.
  - by vm_compute.
  - by vm_compute.
  - by vm_compute.
  - exists obuf, ac', st. destruct Hc as (-> & Hok & Hf & Hb & _). split_and!; done.
Defined.

Lemma session_ok {U} (u : U) : exists ac, session u = Ok ac /\
  context_ok ac [(1, 10)] [(3, 30)] (<[[98] := (2, 20)]> {[ [97] := (2, 20) ]}) ∅ /\ c_flags ac = REDIS_SUBSCRIBED.
Proof.
  unfold session, redisReaderCreate. destruct (sdsempty_holds 7) as (obuf & -> & Ho). cbn [mbind outcome_bind]. destruct (created_ready 7) as (r & -> & _). cbn [mbind outcome_bind].
  set (ac0 := redisAsyncInitialize 0 0 obuf r (mkHeap ∅ 1) u). assert (H0 : context_ok ac0 [] [] ∅ ∅) by apply initialize_ok.
  destruct (command_spec 7 ac0 1 10 [[80; 73; 78; 71]] (Some [4]) [80; 73; 78; 71] [] [] [] ∅ ∅ []) as (ac1 & st1 & E1 & -> & H1 & F1 & O1 & _);
    [done|done|intros [|i] a [= <-]; (split; [done|]); eexists; done|apply (bool_decide_unpack _); by vm_compute|by vm_compute..|].
  change (zlen [[80; 73; 78; 71]]) with 1 in E1. rewrite E1. cbn [mbind outcome_bind]. clear E1.
  destruct (command_spec 7 ac1 2 20 [[83; 117; 98; 115; 99; 114; 105; 98; 101]; [97]; [98]] (Some [9; 1; 1]) [83; 117; 98; 115; 99; 114; 105; 98; 101] [[97]; [98]] [(1, 10)] [] ∅ ∅ _ H1 O1)
    as (ac2 & st2 & E2 & Hc2); [intros [|[|[|i]]] a [= <-]; (split; [done|]); eexists; done|apply (bool_decide_unpack _); by vm_compute|by vm_compute..|].
  unfold command_outcome, flag in Hc2. rewrite F1 in Hc2. destruct Hc2 as (-> & H2 & F2 & O2 & _).
  change (zlen [[83; 117; 98; 115; 99; 114; 105; 98; 101]; [97]; [98]]) with 3 in E2. rewrite E2. cbn [mbind outcome_bind]. clear E2.
  destruct (command_spec 7 ac2 3 30 [[71; 69; 84]; [107]] (Some [3; 1]) [71; 69; 84] [[107]] [(1, 10)] [] _ ∅ _ H2 O2)
    as (ac3 & st3 & E3 & Hc3); [intros [|[|i]] a [= <-]; (split; [done|]); eexists; done|apply (bool_decide_unpack _); by vm_compute|by vm_compute..|].
  unfold command_outcome, flag in Hc3. rewrite F2 in Hc3. destruct Hc3 as (-> & H3 & F3 & O3 & _).
  change (zlen [[71; 69; 84]; [107]]) with 2 in E3. rewrite E3. cbn [mbind outcome_bind]. exists ac3. by split_and!.
Qed.

Lemma async_end_completes_witness :
  let call fn privdata (reply : Z) (ac : redisAsyncContext (list (Z * Z))) := Ok (ac <| user := user ac ++ [(fn, privdata)] |>) in
  let call_status fn status (ac : redisAsyncContext (list (Z * Z))) := Ok (ac <| user := user ac ++ [(fn, status)] |>) in
  exists ac0 ac ac1 ac2 sc, session [] = Ok ac0 /\ ac = (set_flag ac0 REDIS_CONNECTED) <| onDisconnect := 9 |> /\ sc ≡ₚ [([97], (2, 20)); ([98], (2, 20))] /\
    redisAsyncFree call call_status 8 ac = Ok ac1 /\ user ac1 = [(1, 10); (3, 30)] ++ sc.*2 ++ [(9, REDIS_OK)] /\ released ac1 = true /\ ac_blocks ac1 = (0, 0) /\
    redisAsyncHandleRead call call_status 7 8 8 ac SockReady (ReadBytes []) = Ok ac2 /\ user ac2 = [(1, 10); (3, 30)] ++ sc.*2 ++ [(9, REDIS_ERR)] /\ released ac2 = true.
Proof.
  intros call call_status. destruct (session_ok ([] : list (Z * Z))) as (ac0 & E & Hac0 & Hf).
  assert (Hc : match session ([] : list (Z * Z)) with
    | Ok a => (d_size (channels a) <? 2 ^ 31) && (d_size (patterns a) <? 2 ^ 31) && (r_reply (c_reader a) =? 0) && (c_err a =? 0) && bool_decide (user a = [])
    | Crash _ => false end = true) by (by vm_compute).
  rewrite E in Hc. apply andb_true_iff in Hc as [[[[Hd1%Z.ltb_lt Hd2%Z.ltb_lt]%andb_true_iff Hr%Z.eqb_eq]%andb_true_iff He%Z.eqb_eq]%andb_true_iff Hu%bool_decide_eq_true].
  set (ac := (set_flag ac0 REDIS_CONNECTED) <| onDisconnect := 9 |>).
  assert (Hac : context_ok ac [(1, 10)] [(3, 30)] (<[[98] := (2, 20)]> {[ [97] := (2, 20) ]}) ∅) by (destruct Hac0 as [A1 A2 A3 A4 A5]; split; [exact A1|exact A2|exact A3|exact A4|exact A5]).
  assert (Hfl : c_flags ac = Z.lor REDIS_SUBSCRIBED REDIS_CONNECTED) by (unfold ac, set_flag; cbn; by rewrite Hf).
  destruct (async_end_completes call call_status (fun fn privdata u => u ++ [(fn, privdata)]) (fun fn status u => u ++ [(fn, status)]) ltac:(done) ltac:(done)
    7 8 8 ac [(1, 10)] [(3, 30)] (<[[98] := (2, 20)]> {[ [97] := (2, 20) ]}) ∅ (c_objects ac) SockReady (ReadBytes []) Hac)
    as [(ac1 & E1 & sc & sp & Hsc & Hsp & Hu1 & R1 & _ & _ & _ & _ & B1) Hread].
  - by rewrite Hfl.
  - split; [exact Hd1|exact Hd2|cbn; lia|cbn; lia|by_decide|by_decide].
  - unfold redisReaderFree. cbn. by rewrite Hr.
  - destruct Hread as (ac2 & E2 & sc' & sp' & Hsc' & Hsp' & Hu2 & R2 & _); [exact He|unfold flag; by rewrite Hfl|unfold flag; by rewrite Hfl|by right|].
    exists ac0, ac, ac1, ac2, sc. assert (Hs : sc ≡ₚ [([97], (2, 20)); ([98], (2, 20))]) by (rewrite Hsc; by_decide). assert (Hs' : sc' ≡ₚ [([97], (2, 20)); ([98], (2, 20))]) by (rewrite Hsc'; by_decide).
    assert (sp = []) as -> by (apply Permutation_nil_r; rewrite Hsp; by rewrite map_to_list_empty).
    assert (sp' = []) as -> by (apply Permutation_nil_r; rewrite Hsp'; by rewrite map_to_list_empty).
    assert (Hsnd : forall l : list (list Z * target), l ≡ₚ [([97], (2, 20)); ([98], (2, 20))] -> l.*2 = [(2, 20); (2, 20)]).
    { intros l [-> | ->]%Permutation_sym%Permutation_length_2_inv; done. }
    assert (Hcon : flag ac REDIS_CONNECTED = true) by (unfold flag; by rewrite Hfl). rewrite Hcon in Hu1, Hu2. change (user ac) with (user ac0) in Hu1, Hu2. rewrite Hu in Hu1, Hu2.
    rewrite app_nil_r, (Hsnd sc Hs) in Hu1. rewrite app_nil_r, (Hsnd sc' Hs') in Hu2. rewrite (Hsnd sc Hs).
    exact (conj E (conj eq_refl (conj Hs (conj E1 (conj Hu1 (conj R1 (conj B1 (conj E2 (conj Hu2 R2))))))))).
Defined.
