(* ===== verification/AsyncReply.v ===== *)
(** * Replies of an asynchronous context

    The read events of a connection bring the replies of the server in pieces of any
    size.  This file shows that [redisAsyncHandleRead] of [hiredis/async.c] gives every
    reply to the callback of its command, in the order of the commands, however the
    stream is cut. *)

From S2P Require Import Prelude Inet Sds RedisReader RedisParse RedisReply RedisFormat HiDict Async AsyncQueue AsyncCommand.

(** ** Incomplete replies *)

Section more.
Context {W : Type} (fn : option (redisReplyObjectFunctions W)).

(** A verdict that asks for more leaves at most the bytes it was given. *)
Definition left_over (n : nat) (o : outcome (verdict W)) : Prop := match o with Ok (More _ _ i) => (length i <= n)%nat | _ => True end.

Lemma made_left n k made rest : left_over n (spec_made fn k made rest).
Proof.
  unfold spec_made, spec_oom, spec_finish. destruct (made.1 =? 0).
  - by destruct (out_of_memory fn k made.2) as [[[? ?] ?]|].
  - by destruct (finish_item k made.2 made.1) as [[[? ?] ?]|].
Qed.

Lemma typed_left k w i : left_over (length i) (spec_typed fn k w i).
Proof.
  unfold spec_typed. destruct (get_task k (r_ridx k)) as [cur|]; cbn [mbind outcome_bind]; [|done].
  destruct (_ || _); [|destruct (_ =? _); [|destruct (_ =? _); [|done]]].
  - unfold spec_line. destruct (find_crlf i); [|cbn; lia]. destruct (if t_type cur =? REDIS_REPLY_INTEGER then _ else _); cbn [mbind outcome_bind]; [|done]. apply made_left.
  - unfold spec_bulk. destruct (find_crlf i); [|cbn; lia]. cbv zeta. destruct (ll_parse i <? 0).
    + destruct (create_nil fn k w cur); cbn [mbind outcome_bind]; [|done]. apply made_left.
    + destruct (_ <=? _); [|cbn; lia]. destruct (spec_string fn k w cur _ _); cbn [mbind outcome_bind]; [|done]. apply made_left.
  - unfold spec_multi. destruct (r_ridx k =? 8). { by destruct (__redisReaderSetError fn k w _ _) as [[]|]. }
    destruct (find_crlf i); [|cbn; lia]. cbv zeta. unfold spec_oom. destruct (ll_parse i =? -1).
    + destruct (create_nil fn k w cur) as [[obj w']|]; cbn [mbind outcome_bind]; [|done]. destruct (obj =? 0).
      * by destruct (out_of_memory fn k w') as [[[? ?] ?]|].
      * by destruct (moveToNextTask k).
    + destruct (match callback fn createArray with Some f => _ | None => _ end) as [[obj w']|]; cbn [mbind outcome_bind]; [|done]. destruct (obj =? 0).
      * by destruct (out_of_memory fn k w') as [[[? ?] ?]|].
      * by destruct (enter_array k cur obj _).
Qed.

Lemma item_left k w i : left_over (length i) (spec_item fn k w i).
Proof.
  unfold spec_item. destruct (get_task k (r_ridx k)) as [cur|]; cbn [mbind outcome_bind]; [|done]. destruct (t_type cur <? 0); [|apply typed_left].
  destruct i as [|c i]; [cbn; lia|]. destruct (reply_type c).
  - destruct (set_task k (r_ridx k) _) as [k1|]; cbn [mbind outcome_bind]; [|done]. pose proof (typed_left k1 w i) as H.
    destruct (spec_typed fn k1 w i) as [[]|]; try done. cbn in *. lia.
  - by destruct (__redisReaderSetErrorProtocolByte fn k w c) as [[]|].
Qed.

Lemma items_left f : forall k w i, left_over (length i) (spec_items fn f k w i).
Proof.
  induction f as [|f IH]; intros k w i; cbn [spec_items]; (destruct (negb _); [done|]); [done|].
  pose proof (item_left k w i) as H. destruct (spec_item_app fn k w i []) as [(k' & i' & E & _)|[_ Hd]].
  - rewrite E in *. done.
  - destruct (spec_item fn k w i) as [[k' w' i'| |]|]; cbn [mbind outcome_bind]; try done. specialize (IH k' w' i').
    destruct (spec_items fn f k' w' i') as [[]|]; try done. cbn in *. lia.
Qed.

Lemma get_left k w i k' w' i' : spec_get fn k w i = Ok (More k' w' i') -> (length i' <= length i)%nat.
Proof.
  unfold spec_get. destruct (start k) as [k0|]; cbn [mbind outcome_bind]; [|done]. intros E. pose proof (items_left (S (length i)) k0 w i) as H. by rewrite E in H.
Qed.

(** What the verdict on a prefix says about the whole. *)
Lemma get_extend k w i j : match spec_get fn k w i with Ok (More _ _ _) => True | o => spec_get fn k w (i ++ j) = extend j o end.
Proof.
  unfold spec_get. destruct (start k) as [k0|]; cbn [mbind outcome_bind]; [|done].
  pose proof (spec_items_app fn (S (length i)) k0 w i j (S (length (i ++ j)))) as H. destruct (spec_items fn (S (length i)) k0 w i) as [[]|]; try done; apply H; lia.
Qed.

(** What [redisReaderGetReply] has read it discards. *)
Lemma getreply_compact r w r' w' p : redisReaderGetReply fn true r w = Ok (r', w', REDIS_OK, p) -> r_len r <> 0 -> r_pos r' < 1024.
Proof.
  unfold redisReaderGetReply. intros E Hl. destruct (negb (r_err r =? 0)); [done|]. rewrite (proj2 (Z.eqb_neq _ _) Hl) in E.
  apply bind_Ok in E as (r1 & _ & E). apply bind_Ok in E as ([r2 w2] & _ & E). destruct (negb (r_err r2 =? 0)); [done|].
  apply bind_Ok in E as (r3 & Hd & E). assert (Hr3 : r_pos r3 < 1024).
  { destruct (Z.geb_spec (r_pos r2) 1024); [|injection Hd as <-; lia]. apply bind_Ok in Hd as (s & _ & Hd). apply bind_Ok in Hd as (s' & _ & [= <-]). cbn. lia. }
  destruct (r_ridx r3 =? -1); by injection E as <- _ _.
Qed.
End more.

Lemma encode_nonempty v : encode v <> [].
Proof. by destruct v. Qed.

(** A reply that is not there in full is incomplete. *)
Lemma prefix_more v k h s j : fits 0 v -> 0 < next h -> r_ridx k = -1 -> length (r_rstack k) = 9%nat -> s ++ j = encode v -> j <> [] ->
  exists k' h' i, spec_get fn k h s = Ok (More k' h' i).
Proof.
  intros Hf Hn Hr Hl E Hj. destruct (spec_get_value v k h [] Hf Hn Hr Hl) as (k' & h' & p & Ev & _). rewrite app_nil_r, <- E in Ev.
  pose proof (get_extend fn k h s j) as H. destruct (spec_get fn k h s) as [[k1 w1 i1|k1 w1 i1|k1 w1]|]; [|by eexists _, _, _| |].
  - rewrite Ev in H. cbn in H. injection H as _ _ H. destruct i1; [destruct j; done|done].
  - rewrite Ev in H. done.
  - rewrite Ev in H. done.
Qed.

Lemma empty_more k h : r_ridx k = -1 -> length (r_rstack k) = 9%nat -> exists k', spec_get (W := heap) fn k h [] = Ok (More k' h []).
Proof.
  intros Hr Hl. unfold spec_get, start. rewrite Hr. cbn [Z.eqb Pos.eqb]. destruct (set_task_ok k 0 (mkTask (-1) (-1) (-1) 0 None)) as [k1 E]; [lia|unfold zlen; lia|].
  rewrite E. cbn [mbind outcome_bind]. destruct (get_task_set _ _ _ _ E) as (Hg & _). specialize (Hg 0). cbn [Z.eqb] in Hg. exists (k1 <| r_ridx := 0 |>).
  cbn [length spec_items]. change (r_ridx (k1 <| r_ridx := 0 |>)) with 0. cbn [Z.geb Z.compare negb]. unfold spec_item. change (r_ridx (k1 <| r_ridx := 0 |>)) with 0.
  assert (get_task (k1 <| r_ridx := 0 |>) 0 = Ok (mkTask (-1) (-1) (-1) 0 None)) as -> by exact Hg. done.
Qed.

(** ** The stream of replies *)

(** The reader before a reply: [k] its stack, [h] the heap with the objects [H]. *)
Record between (k : redisReader) (h : heap) (H : gmap Z redisReply) : Prop := {
  bt_ridx : r_ridx k = -1;
  bt_stack : length (r_rstack k) = 9%nat;
  bt_next : 0 < next h;
  bt_objects : objects h = H;
  bt_fresh : forall x, next h <= x -> H !! x = None }.

(** The reader has been fed the bytes [s] since it was as [k] and [h] say. *)
Definition fed (r : redisReader) (h : heap) (s : list Z) (k0 : redisReader) (h0 : heap) : Prop := exists i,
  ready r i /\ -1 <= r_ridx r /\ spec_get fn (core r) h i = spec_get fn k0 h0 s /\ (r_len r = 0 -> s = [] /\ core r = k0 /\ h = h0).

(** It has been asked for a reply and waits for the rest of it. *)
Definition paused (r : redisReader) (h : heap) (s : list Z) (H : gmap Z redisReply) : Prop := exists i k0 h0,
  between k0 h0 H /\ ready r i /\ -1 <= r_ridx r /\ r_pos r < 1024 /\ zlen i <= zlen s /\ (s = [] -> h = h0) /\
  forall j, spec_get fn (core r) h (i ++ j) = spec_get fn k0 h0 (s ++ j).

(** What is asked for when there is no complete reply. *)
Lemma get_incomplete r h s j k0 h0 H v : between k0 h0 H -> fed r h s k0 h0 -> fits 0 v -> s ++ j = encode v -> j <> [] ->
  exists r' h', redisReaderGetReply fn true r h = Ok (r', h', REDIS_OK, 0) /\ paused r' h' s H.
Proof.
  intros Hb (i & Hr & Hidx & Es & H0) Hf Ev Hj. destruct (Z.eq_dec (r_len r) 0) as [El|El].
  - destruct (H0 El) as (-> & <- & ->). exists r, h0. assert (i = []) as ->.
    { destruct Hr as (b & c & _ & _ & Hl & Hp & <- & _). rewrite El in Hl. destruct c; [by rewrite drop_nil|rewrite zlen_cons in Hl; pose proof (zlen_nonneg c); lia]. }
    split; [|exists [], (core r), h0; split_and!; try done; destruct Hr as (b & c & _ & _ & Hl & Hp & _); lia].
    unfold redisReaderGetReply. assert (r_err r = 0) as -> by (by destruct Hr as (? & ? & Hr); apply Hr). cbn [Z.eqb negb]. by rewrite El.
  - destruct (prefix_more v k0 h0 s j Hf) as (k' & h' & i' & Em); [apply Hb|apply Hb|apply Hb|done|done|].
    pose proof (getreply_agrees fn r h i Hr El Hidx) as Hg. rewrite Es, Em in Hg. destruct Hg as (r' & Eg & Ec & Hr'). exists r', h'. split; [done|].
    assert (Hk : -1 <= r_ridx k0) by (rewrite (bt_ridx _ _ _ Hb); lia). exists i', k0, h0. split_and!; try done.
    + change (-1 <= r_ridx (core r')). rewrite Ec. destruct (spec_get_app fn _ _ _ [] _ _ _ Hk Em) as [? _]. lia.
    + by eapply getreply_compact.
    + pose proof (get_left fn _ _ _ _ _ _ Em). unfold zlen. lia.
    + intros ->. destruct (empty_more k0 h0) as (k1 & E1); [apply Hb|apply Hb|]. rewrite E1 in Em. by injection Em as _ <- _.
    + intros t. rewrite Ec. symmetry. by apply spec_get_app.
Qed.

(** And when there is nothing at all. *)
Lemma get_nothing r h k0 h0 H : between k0 h0 H -> fed r h [] k0 h0 ->
  exists r' h', redisReaderGetReply fn true r h = Ok (r', h', REDIS_OK, 0) /\ paused r' h' [] H.
Proof. intros Hb Hf. by apply (get_incomplete r h [] (encode RNil) k0 h0 H RNil). Qed.

(** A complete reply, and how freeing it leaves things for the next one. *)
Lemma get_complete r h s k0 h0 H v : between k0 h0 H -> fed r h (encode v ++ s) k0 h0 -> fits 0 v ->
  exists r' h' p h'', redisReaderGetReply fn true r h = Ok (r', h', REDIS_OK, p) /\ p <> 0 /\ represents (next h0) (next h') (objects h') v p /\
    freeReplyObject 10 p h' = Ok h'' /\ between (core r') h'' H /\ fed r' h'' s (core r') h''.
Proof.
  intros Hb (i & Hr & Hidx & Es & H0) Hf.
  destruct (spec_get_value v k0 h0 s Hf) as (k' & h' & p & Ev & Hp & Hi & Hl & He & Hrep & Hsame & Hnx & Hnew); [apply Hb|apply Hb|apply Hb|].
  assert (El : r_len r <> 0) by (intros El; destruct (H0 El) as [E _]; apply app_eq_nil in E as [E _]; by apply encode_nonempty in E).
  pose proof (getreply_agrees fn r h i Hr El Hidx) as Hg. rewrite Es, Ev in Hg. destruct Hg as (r' & Eg & Ec & Hr').
  pose proof (bt_next _ _ _ Hb) as Hpos. pose proof (represents_lt _ _ _ _ _ Hrep) as Hlt.
  destruct (frees v 0 10%nat (next h0) (next h') h' p) as (h'' & Efree & Hfn & Hfx); [lia|lia|done|done|done|].
  assert (Hobj : objects h'' = H).
  { rewrite <- (bt_objects _ _ _ Hb). apply map_eq. intros x. rewrite Hfx. destruct (decide (next h0 <= x < next h')).
    - rewrite (bt_objects _ _ _ Hb). by rewrite (bt_fresh _ _ _ Hb) by lia.
    - destruct (Z.lt_ge_cases x (next h0)); [by apply Hsame|]. apply Hnew; [done|lia]. }
  assert (Hidx' : r_ridx r' = -1) by (change (r_ridx (core r') = -1); by rewrite Ec).
  exists r', h', p, h''. rewrite Hp in Eg. split_and!; try done.
  - destruct v; destruct Hrep; lia.
  - split; [done|change (length (r_rstack (core r')) = 9%nat); by rewrite Ec|lia|done|]. intros x Hx. apply (bt_fresh _ _ _ Hb). lia.
  - exists s. split_and!; try done; [lia|]. intros E0. split; [|done]. destruct Hr' as (b & c & _ & _ & Hl' & Hp' & <- & _). rewrite E0 in Hl'.
    destruct c; [by rewrite drop_nil|rewrite zlen_cons in Hl'; pose proof (zlen_nonneg c); lia].
Qed.

(** The next piece of the stream. *)
Lemma feed_paused junk r h s H bs : paused r h s H -> bs <> [] -> zlen s + zlen bs < 2 ^ 30 - 1024 ->
  exists r' k0 h0, redisReaderFeed junk r (Some bs) = Ok (r', REDIS_OK) /\ between k0 h0 H /\ fed r' h (s ++ bs) k0 h0.
Proof.
  intros (i & k0 & h0 & Hb & Hr & Hidx & Hpos & Hi & _ & Hj) Hne Hlen.
  assert (Hl : r_len r <= 1024 + zlen s).
  { destruct Hr as (b & c & _ & _ & -> & Hp & <- & _). rewrite zlen_drop in Hi by lia. lia. }
  destruct (feed_ready junk r i bs Hr Hne) as (r' & E & Ec & Hr' & Hl'); [lia|]. exists r', k0, h0. split_and!; try done.
  exists (i ++ bs). split_and!; try done; [change (-1 <= r_ridx (core r')); rewrite Ec; done|]. rewrite Ec. apply Hj.
Qed.

(** ** Delivering replies *)

(** The flags that say in which mode a context is. *)
Definition MODE : Z := 0x7e.
(** Connected, without an error, and neither subscribed nor monitoring nor closing. *)
Definition plain {U} (ac : redisAsyncContext U) : Prop := Z.land (c_flags ac) MODE = REDIS_CONNECTED /\ c_err ac = 0.

Lemma mode_flag {U} (ac : redisAsyncContext U) m f : Z.land (c_flags ac) MODE = m -> Z.land MODE f = f -> flag ac f = negb (Z.land m f =? 0).
Proof. intros <- Hf. unfold flag. by rewrite <- Z.land_assoc, Hf. Qed.

Lemma shift_reply_spec {U} (ac : redisAsyncContext U) cb q i mc mp : context_ok ac (cb :: q) i mc mp -> exists h l,
  shift_reply ac = Ok (ac <| ac_cells := h |> <| replies := l |>, Some cb) /\ context_ok (ac <| ac_cells := h |> <| replies := l |>) q i mc mp.
Proof.
  intros [(pq & pi & Hc & Eq & <-) H2 H3 H4 H5]. destruct pq as [|[x cb'] pq]; [done|]. cbn in Eq. injection Eq as -> <-.
  unfold shift_reply. destruct (shift_spec _ _ _ _ _ _ _ Hc) as (h & l & -> & Hc'). cbn [mbind outcome_bind]. exists h, l. split; [done|]. split; try done. by exists pq, pi.
Qed.

Section deliver.
Context {U : Type}.
Abbreviation ctx := (redisAsyncContext U).
Context (call : Z -> Z -> Z -> ctx -> outcome ctx) (call_status : Z -> Z -> ctx -> outcome ctx) (junk : Z).
Implicit Types (ac : ctx) (q i : list target) (mc mp : gmap (list Z) target) (u : U).

(** What a callback does with a reply: to the state of the program, and which further
    commands it sends. *)
Context (react : Z -> Z -> reply -> U -> U * list target).
(** What the program keeps true of its state and of the bytes it has sent. *)
Context (good : U -> sds -> Prop).

(** What a context relies on: a callback reads the reply it is given and does what
    [react] says; the commands it sends are appended to the queue; it does not free the
    reply, close the connection or change its mode. *)
Class callbacks_react : Prop := react_ok : forall fn privdata v p ac q i mc mp lo hi,
  context_ok ac q i mc mp -> good (user ac) (c_obuf ac) -> Z.land (c_flags ac) MODE = Z.lor REDIS_CONNECTED REDIS_IN_CALLBACK -> c_err ac = 0 ->
  0 < lo -> represents lo hi (objects (c_objects ac)) v p ->
  exists ac', call fn privdata p ac = Ok ac' /\ context_ok ac' (q ++ (react fn privdata v (user ac)).2) i mc mp /\
    user ac' = (react fn privdata v (user ac)).1 /\ good (user ac') (c_obuf ac') /\
    c_flags ac' = c_flags ac /\ c_err ac' = c_err ac /\ c_reader ac' = c_reader ac /\ c_objects ac' = c_objects ac.
Context {reacts : callbacks_react}.
#[local] Set Default Proof Using "All".

(** A reply belongs to the first callback that waits. *)
Definition deliver (st : U * list target) (v : reply) : option (U * list target) :=
  match st.2 with
  | [] => None
  | cb :: q => Some (if cb.1 =? 0 then (st.1, q) else let '(u, new) := react cb.1 cb.2 v st.1 in (u, q ++ new))
  end.
Fixpoint pipeline (st : U * list target) (vs : list reply) : option (U * list target) :=
  match vs with [] => Some st | v :: vs => st ← deliver st v; pipeline st vs end.

(** A context in use. *)
Record serving ac q i mc mp : Prop := {
  sv_context : context_ok ac q i mc mp;
  sv_good : good (user ac) (c_obuf ac);
  sv_plain : plain ac }.

Lemma serving_reader ac q i mc mp r h : serving ac q i mc mp -> serving (ac <| c_reader := r |> <| c_objects := h |>) q i mc mp.
Proof. intros [[H1 H2 H3 H4 H5] H6 H7]. by split. Qed.

(** The callback of a reply runs and the reply is freed. *)
Lemma run_reply ac cb q i mc mp v p lo hi h' : serving ac q i mc mp -> cb.1 <> 0 -> 0 < lo -> represents lo hi (objects (c_objects ac)) v p ->
  freeReplyObject 10 p (c_objects ac) = Ok h' ->
  let un := react cb.1 cb.2 v (user ac) in
  exists ac', (ac ← __redisRunCallback call ac cb p; free_reply ac p) = Ok ac' /\ serving ac' (q ++ un.2) i mc mp /\ user ac' = un.1 /\
    c_reader ac' = c_reader ac /\ c_objects ac' = h'.
Proof.
  intros [Hc Hg [Hm He]] Hcb Hlo Hrep Hfree un. unfold __redisRunCallback. rewrite (proj2 (Z.eqb_neq _ _) Hcb). cbn [negb].
  destruct (react_ok cb.1 cb.2 v p (set_flag ac REDIS_IN_CALLBACK) q i mc mp lo hi) as (ac1 & -> & Hc1 & Hu1 & Hg1 & Hf1 & He1 & Hr1 & Ho1).
  - by destruct Hc.
  - done.
  - cbn. by rewrite Z.land_lor_distr_l, Hm.
  - done.
  - done.
  - done.
  - cbn [mbind outcome_bind]. unfold free_reply. change (c_objects (clear_flag ac1 REDIS_IN_CALLBACK)) with (c_objects ac1). rewrite Ho1.
    change (c_objects (set_flag ac REDIS_IN_CALLBACK)) with (c_objects ac). rewrite Hfree. cbn [mbind outcome_bind]. eexists. split; [done|].
    assert (Hbit : Z.land (c_flags ac) REDIS_IN_CALLBACK = 0) by (change REDIS_IN_CALLBACK with (Z.land MODE REDIS_IN_CALLBACK); by rewrite Z.land_assoc, Hm).
    split_and!; try done. destruct Hc1 as [C1 C2 C3 C4 C5]. split; [by split|done|]. split; [|change (c_err ac1 = 0); by rewrite He1].
    change (Z.land (Z.land (c_flags ac1) (Z.lnot REDIS_IN_CALLBACK)) MODE = REDIS_CONNECTED). rewrite Hf1.
    change (c_flags (set_flag ac REDIS_IN_CALLBACK)) with (Z.lor (c_flags ac) REDIS_IN_CALLBACK). by rewrite flag_set_clear.
Qed.

(** Without a function the reply is freed all the same. *)
Lemma skip_reply ac q i mc mp p h' : serving ac q i mc mp -> freeReplyObject 10 p (c_objects ac) = Ok h' ->
  free_reply ac p = Ok (ac <| c_objects := h' |>) /\ serving (ac <| c_objects := h' |>) q i mc mp.
Proof. intros [[H1 H2 H3 H4 H5] H6 H7] E. unfold free_reply. rewrite E. split; [done|]. by split. Qed.

(** One reply. *)
Lemma process_one efuel fuel ac cb0 cb q i mc mp s k0 h0 H v : serving ac (cb :: q) i mc mp ->
  between k0 h0 H -> fed (c_reader ac) (c_objects ac) (encode v ++ s) k0 h0 -> fits 0 v ->
  exists ac' u' q' k1 h1, deliver (user ac, cb :: q) v = Some (u', q') /\ user ac' = u' /\ serving ac' q' i mc mp /\
    between k1 h1 H /\ fed (c_reader ac') (c_objects ac') s k1 h1 /\
    process_loop call call_status efuel (S fuel) ac cb0 = process_loop call call_status efuel fuel ac' cb.
Proof.
  intros Hs Hb Hf Hfit. destruct (get_complete _ _ _ _ _ _ _ Hb Hf Hfit) as (r' & h' & p & h'' & Eg & Hp & Hrep & Efree & Hb' & Hf').
  cbn [process_loop]. unfold redisGetReply. change fns with (Some defaultFunctions). rewrite Eg. cbn [mbind outcome_bind].
  change (REDIS_OK =? REDIS_ERR) with false. cbn [mbind outcome_bind]. change (REDIS_OK =? REDIS_OK) with true. cbn [negb]. rewrite (proj2 (Z.eqb_neq _ _) Hp).
  apply (serving_reader _ _ _ _ _ r' h') in Hs. set (ac1 := ac <| c_reader := r' |> <| c_objects := h' |>) in *. destruct Hs as [Hc Hg Hpl].
  unfold choose_callback. destruct (shift_reply_spec ac1 cb q i mc mp Hc) as (c & l & -> & Hc2). cbn [mbind outcome_bind].
  set (ac2 := ac1 <| ac_cells := c |> <| replies := l |>) in *. assert (Hs2 : serving ac2 q i mc mp) by (by split).
  unfold deliver. cbn [fst snd]. destruct (Z.eqb_spec cb.1 0) as [E0|E0]; cbn [negb].
  - destruct (skip_reply ac2 q i mc mp p h'' Hs2 Efree) as [-> Hs3]. cbn [mbind outcome_bind]. exists (ac2 <| c_objects := h'' |>), (user ac), q, (core r'), h''. by split_and!.
  - destruct (run_reply ac2 cb q i mc mp v p _ _ h'' Hs2 E0 (bt_next _ _ _ Hb) Hrep Efree) as (ac3 & E3 & Hs3 & Hu3 & Hr3 & Ho3).
    apply bind_Ok in E3 as (a & -> & E3). cbn [mbind outcome_bind]. rewrite E3. cbn [mbind outcome_bind].
    rewrite (mode_flag ac3 REDIS_CONNECTED REDIS_FREEING) by (by apply Hs3 || done). cbn [Z.land Z.eqb REDIS_CONNECTED REDIS_FREEING negb].
    change (user ac2) with (user ac) in *. destruct (react cb.1 cb.2 v (user ac)) as [u' new]. cbn [fst snd] in *.
    exists ac3, u', (q ++ new), (core r'), h''. split_and!; try done. by rewrite Hr3, Ho3.
Qed.

(** No complete reply is left. *)
Lemma process_stop efuel fuel ac cb0 q i mc mp s j v k0 h0 H : serving ac q i mc mp ->
  between k0 h0 H -> fed (c_reader ac) (c_objects ac) s k0 h0 -> (s = [] \/ (fits 0 v /\ s ++ j = encode v /\ j <> [])) ->
  exists ac', process_loop call call_status efuel (S fuel) ac cb0 = Ok ac' /\ user ac' = user ac /\ serving ac' q i mc mp /\
    paused (c_reader ac') (c_objects ac') s H.
Proof.
  intros Hs Hb Hf Hv.
  assert (exists r' h', redisReaderGetReply (Some defaultFunctions) true (c_reader ac) (c_objects ac) = Ok (r', h', REDIS_OK, 0) /\ paused r' h' s H) as (r' & h' & Eg & Hp).
  { destruct Hv as [->|(Hfit & Ev & Hj)]; [by eapply get_nothing|by eapply get_incomplete]. }
  cbn [process_loop]. unfold redisGetReply. change fns with (Some defaultFunctions). rewrite Eg. cbn [mbind outcome_bind].
  change (REDIS_OK =? REDIS_ERR) with false. cbn [mbind outcome_bind]. change (REDIS_OK =? REDIS_OK) with true. cbn [negb Z.eqb].
  apply (serving_reader _ _ _ _ _ r' h') in Hs. pose proof (sv_plain _ _ _ _ _ Hs) as [Hm _].
  rewrite (mode_flag _ _ REDIS_DISCONNECTING Hm), (mode_flag _ _ REDIS_MONITORING Hm) by done. cbn. eexists. by split_and!.
Qed.

Abbreviation stream vs := (concat (encode <$> vs)).

(** [s] is not a complete reply yet. *)
Definition short (s : list Z) (rest : list reply) : Prop := match rest with [] => s = [] | v :: _ => (length s < length (encode v))%nat end.

(** All the complete replies of the bytes [s]. *)
Lemma process_stream efuel i mc mp j vs : forall fuel ac cb0 q s k0 h0 H st', serving ac q i mc mp -> between k0 h0 H ->
  fed (c_reader ac) (c_objects ac) s k0 h0 -> s ++ j = stream vs -> Forall (fits 0) vs -> pipeline (user ac, q) vs = Some st' -> (length vs < fuel)%nat ->
  exists ac' q' dn rest s', process_loop call call_status efuel fuel ac cb0 = Ok ac' /\ vs = dn ++ rest /\ s = stream dn ++ s' /\ s' ++ j = stream rest /\ short s' rest /\
    pipeline (user ac, q) dn = Some (user ac', q') /\ pipeline (user ac', q') rest = Some st' /\ serving ac' q' i mc mp /\ paused (c_reader ac') (c_objects ac') s' H.
Proof.
  induction vs as [|v vs IH]; intros [|fuel] ac cb0 q s k0 h0 H st' Hs Hb Hf Es Hfit Hpipe Hfu; cbn in Hfu; try lia.
  - apply app_eq_nil in Es as [-> ->]. destruct (process_stop efuel fuel ac cb0 q i mc mp [] [] RNil k0 h0 H Hs Hb Hf) as (ac' & E & Hu & Hs' & Hp); [by left|].
    exists ac', q, [], [], []. rewrite Hu. by split_and!.
  - cbn [fmap list_fmap concat] in Es. apply Forall_cons in Hfit as [Hv Hfit]. destruct (decide (length s < length (encode v))%nat) as [Hlt|Hge].
    + assert (exists j', encode v = s ++ j' /\ j' <> []) as (j' & Ej & Hj).
      { apply app_eq_inv in Es as [(k & E1 & E2)|(k & E1 & E2)]; [rewrite E1, length_app in Hlt; lia|]. exists k. split; [done|]. intros ->. rewrite E1, app_nil_r in Hlt. lia. }
      destruct (process_stop efuel fuel ac cb0 q i mc mp s j' v k0 h0 H Hs Hb Hf) as (ac' & E & Hu & Hs' & Hp); [by right|].
      exists ac', q, [], (v :: vs), s. rewrite Hu. by split_and!.
    + assert (exists s1, s = encode v ++ s1 /\ s1 ++ j = stream vs) as (s1 & -> & Es1).
      { apply app_eq_inv in Es as [(k & E1 & E2)|(k & E1 & E2)]; [by exists k|]. assert (k = []) as -> by (destruct k; [done|rewrite E1, length_app in Hge; cbn in Hge; lia]).
        rewrite app_nil_r in E1. exists []. by rewrite app_nil_r. }
      cbn [pipeline] in Hpipe. destruct q as [|cb q]; [done|].
      destruct (process_one efuel fuel ac cb0 cb q i mc mp s1 k0 h0 H v Hs Hb Hf Hv) as (ac1 & u1 & q1 & k1 & h1 & Ed & Hu1 & Hs1 & Hb1 & Hf1 & ->).
      rewrite Ed in Hpipe. cbn in Hpipe. rewrite <- Hu1 in Hpipe.
      destruct (IH fuel ac1 cb q1 s1 k1 h1 H st' Hs1 Hb1 Hf1 Es1 Hfit Hpipe) as (ac' & q' & dn & rest & s' & E & -> & -> & Es' & Hsh & Hp1 & Hp2 & Hs' & Hpa); [lia|].
      exists ac', q', (v :: dn), rest, s'. split_and!; try done.
      * cbn. by rewrite <- app_assoc.
      * cbn [pipeline]. rewrite Ed. cbn. by rewrite <- Hu1.
Qed.

(** One read event. *)
Lemma handle_read efuel fuel ac q i mc mp s j bs vs H st' : serving ac q i mc mp -> paused (c_reader ac) (c_objects ac) s H ->
  s ++ bs ++ j = stream vs -> bs <> [] -> zlen s + zlen bs < 2 ^ 30 - 1024 -> Forall (fits 0) vs -> pipeline (user ac, q) vs = Some st' -> (length vs < fuel)%nat ->
  exists ac' q' dn rest s', redisAsyncHandleRead call call_status junk efuel fuel ac SockReady (ReadBytes bs) = Ok ac' /\ vs = dn ++ rest /\ s ++ bs = stream dn ++ s' /\
    s' ++ j = stream rest /\ short s' rest /\
    pipeline (user ac, q) dn = Some (user ac', q') /\ pipeline (user ac', q') rest = Some st' /\ serving ac' q' i mc mp /\ paused (c_reader ac') (c_objects ac') s' H.
Proof.
  intros Hs Hp Es Hne Hlen Hfit Hpipe Hfu. unfold redisAsyncHandleRead, alive. rewrite (cx_alive _ _ _ _ _ (sv_context _ _ _ _ _ Hs)). cbn [mbind outcome_bind].
  pose proof (sv_plain _ _ _ _ _ Hs) as [Hm He]. unfold handle_connect. rewrite (mode_flag _ _ REDIS_CONNECTED Hm) by done. change (negb (negb (Z.land REDIS_CONNECTED REDIS_CONNECTED =? 0))) with false. cbn [negb mbind outcome_bind].
  unfold redisBufferRead. rewrite He. cbn [Z.eqb negb]. destruct (feed_paused junk _ _ _ _ bs Hp Hne Hlen) as (r & k0 & h0 & Efeed & Hb & Hf).
  destruct bs as [|b bs]; [done|]. rewrite Efeed. cbn [mbind outcome_bind]. change (REDIS_OK =? REDIS_OK) with true. cbn [negb mbind outcome_bind].
  change (REDIS_OK =? REDIS_ERR) with false. cbn iota. unfold redisProcessCallbacks. set (ac1 := _EL (ac <| c_reader := r |>) AddRead).
  assert (H1 : serving ac1 q i mc mp /\ c_reader ac1 = r /\ c_objects ac1 = c_objects ac /\ user ac1 = user ac).
  { destruct Hs as [[C1 C2 C3 C4 C5] C6 C7]. unfold ac1, _EL. destruct (has_ev _); (split; [split; [by split|done|done]|done]). }
  clearbody ac1. destruct H1 as (Hs1 & Hr1 & Ho1 & Hu1). unfold alive. rewrite (cx_alive _ _ _ _ _ (sv_context _ _ _ _ _ Hs1)). cbn [mbind outcome_bind]. rewrite <- Hu1 in Hpipe |- *.
  rewrite <- Hr1, <- Ho1 in Hf. rewrite (app_assoc s) in Es. eapply process_stream; eassumption.
Qed.

(** The read events that bring the pieces [chunks] of the stream. *)
Fixpoint reads (efuel fuel : nat) ac (chunks : list (list Z)) : outcome ctx :=
  match chunks with
  | [] => Ok ac
  | bs :: chunks => ac ← redisAsyncHandleRead call call_status junk efuel fuel ac SockReady (ReadBytes bs); reads efuel fuel ac chunks
  end.

Lemma pipeline_app vs1 vs2 st : pipeline st (vs1 ++ vs2) = st ← pipeline st vs1; pipeline st vs2.
Proof. revert st. induction vs1 as [|v vs1 IH]; intros st; [done|]. cbn. destruct (deliver st v); [apply IH|done]. Qed.

Lemma short_bound s rest : short s rest -> Forall (fun v => zlen (encode v) <= 2 ^ 29) rest -> zlen s <= 2 ^ 29.
Proof.
  destruct rest as [|v rest]; cbn; [by intros ->|]. intros Hl [Hv _]%Forall_cons. unfold zlen in *. lia.
Qed.

Lemma reads_spec efuel fuel i mc mp j H chunks : forall ac q s vs st', serving ac q i mc mp -> paused (c_reader ac) (c_objects ac) s H -> short s vs ->
  s ++ concat chunks ++ j = stream vs -> Forall (fun bs => bs <> [] /\ zlen bs <= 1024 * 16) chunks -> Forall (fits 0) vs -> Forall (fun v => zlen (encode v) <= 2 ^ 29) vs ->
  pipeline (user ac, q) vs = Some st' -> (length vs < fuel)%nat ->
  exists ac' q' dn rest s', reads efuel fuel ac chunks = Ok ac' /\ vs = dn ++ rest /\ s ++ concat chunks = stream dn ++ s' /\ s' ++ j = stream rest /\ short s' rest /\
    pipeline (user ac, q) dn = Some (user ac', q') /\ serving ac' q' i mc mp /\ paused (c_reader ac') (c_objects ac') s' H.
Proof.
  induction chunks as [|bs chunks IH]; intros ac q s vs st' Hs Hp Hsh Es Hch Hfit Hsz Hpipe Hfu.
  { exists ac, q, [], vs, s. cbn. rewrite app_nil_r. by split_and!. }
  apply Forall_cons in Hch as [[Hne Hbs] Hch]. cbn [concat] in Es. rewrite <- app_assoc in Es. pose proof (short_bound _ _ Hsh Hsz).
  destruct (handle_read efuel fuel ac q i mc mp s (concat chunks ++ j) bs vs H st' Hs Hp Es Hne) as (ac1 & q1 & dn & rest & s1 & E1 & -> & E2 & E3 & Hsh1 & P1 & P2 & Hs1 & Hp1); [lia|done|done|done|].
  cbn [reads]. rewrite E1. cbn [mbind outcome_bind]. apply Forall_app in Hfit as [_ Hfit]. apply Forall_app in Hsz as [_ Hsz]. rewrite length_app in Hfu.
  destruct (IH ac1 q1 s1 rest st' Hs1 Hp1 Hsh1 E3 Hch Hfit Hsz P2) as (ac' & q' & dn' & rest' & s' & E4 & -> & E5 & E6 & Hsh' & P3 & Hs' & Hp'); [lia|].
  exists ac', q', (dn ++ dn'), rest', s'. split_and!; try done.
  - by rewrite app_assoc.
  - cbn [concat]. rewrite app_assoc, E2, <- app_assoc, E5, fmap_app, concat_app. by rewrite app_assoc.
  - rewrite pipeline_app, P1. cbn. done.
Qed.

(** C25: Replies reach their callbacks in order.  A connected context whose reader is
    between two replies gets, by read events of at most 16 KB, the first bytes of the
    replies [vs] of the server, cut in any way.  Then every reply that is there in full
    has been given to the callback of its command, the callbacks in the order of the
    commands, those that callbacks send in between included, and each reply is given
    exactly as the server sent it; a command without a callback has its reply ignored.
    The bytes of an unfinished reply wait, and when there are none every object of a
    reply has been freed and nothing else; once all the bytes are there no reply is
    missing.  The handler neither crashes nor closes the connection. *)
Theorem async_replies_in_order (efuel fuel : nat) ac q i mc mp (vs : list reply) (chunks : list (list Z)) (later : list Z) st' :
  serving ac q i mc mp -> idle (c_reader ac) [] -> r_pos (c_reader ac) < 1024 ->
  0 < next (c_objects ac) -> (forall x, next (c_objects ac) <= x -> objects (c_objects ac) !! x = None) ->
  Forall (fits 0) vs -> Forall (fun v => zlen (encode v) <= 2 ^ 29) vs -> Forall (fun bs => bs <> [] /\ zlen bs <= 1024 * 16) chunks ->
  concat chunks ++ later = concat (encode <$> vs) -> pipeline (user ac, q) vs = Some st' -> (length vs < fuel)%nat ->
  exists ac' q' dn rest s, reads efuel fuel ac chunks = Ok ac' /\ vs = dn ++ rest /\ concat chunks = concat (encode <$> dn) ++ s /\ short s rest /\
    pipeline (user ac, q) dn = Some (user ac', q') /\ serving ac' q' i mc mp /\
    (s = [] -> objects (c_objects ac') = objects (c_objects ac)) /\ (later = [] -> rest = []).
Proof.
  intros Hs (Hr & Hidx & Hst) Hpos Hn Hfresh Hfit Hsz Hch Es Hpipe Hfu.
  assert (Hp : paused (c_reader ac) (c_objects ac) [] (objects (c_objects ac))).
  { exists [], (core (c_reader ac)), (c_objects ac). split; [by split|]. split_and!; try done. lia. }
  assert (Hsh : short [] vs) by (destruct vs as [|v vs]; [done|]; cbn; pose proof (encode_nonempty v); destruct (encode v); [done|cbn; lia]).
  destruct (reads_spec efuel fuel i mc mp later _ chunks ac q [] vs st' Hs Hp Hsh Es Hch Hfit Hsz Hpipe Hfu)
    as (ac' & q' & dn & rest & s & E1 & E2 & E3 & E4 & Hsh' & P1 & Hs' & (i' & k0 & h0 & Hb & _ & _ & _ & _ & Hh & _)).
  exists ac', q', dn, rest, s. split_and!; try done.
  - intros Es0. rewrite (Hh Es0). apply Hb.
  - intros ->. rewrite app_nil_r in E4. destruct rest as [|v rest]; [done|]. cbn in E4, Hsh'. rewrite E4, length_app in Hsh'. lia.
Qed.
End deliver.

(** ** Example *)

(** A program that notes of every reply the argument of its callback, the type and the
    number; the callback 2 sends a [PING] as long as it may. *)
Abbreviation diary := (nat * list (Z * Z * Z))%type.

Definition reply_kind (v : reply) : Z * Z :=
  match v with
  | RString _ => (REDIS_REPLY_STRING, 0) | RStatus _ => (REDIS_REPLY_STATUS, 0) | RError _ => (REDIS_REPLY_ERROR, 0)
  | RInteger z => (REDIS_REPLY_INTEGER, z) | RNil => (REDIS_REPLY_NIL, 0) | RArray _ => (REDIS_REPLY_ARRAY, 0)
  end.

Definition diary_call (fn privdata reply : Z) (ac : redisAsyncContext diary) : outcome (redisAsyncContext diary) :=
  o ← deref (c_objects ac) reply;
  let log := (user ac).2 ++ [(privdata, rp_type o, rp_integer o)] in
  match (user ac).1 with
  | S n =>
    if fn =? 2 then '(ac, _) ← redisAsyncCommandArgv 7 (ac <| user := (n, log) |>) 1 (privdata + 100) 1 [[80; 73; 78; 71]] (Some [4]); Ok ac
    else Ok (ac <| user := (S n, log) |>)
  | O => Ok (ac <| user := (0%nat, log) |>)
  end.

Definition diary_react (fn privdata : Z) (v : reply) (u : diary) : diary * list target :=
  let log := u.2 ++ [(privdata, (reply_kind v).1, (reply_kind v).2)] in
  match u.1 with
  | S n => if fn =? 2 then ((n, log), [(1, privdata + 100)]) else ((S n, log), [])
  | O => ((0%nat, log), [])
  end.

Definition diary_good (u : diary) (obuf : sds) : Prop := exists c, sds_holds obuf c /\ zlen c + 14 * Z.of_nat u.1 < 2 ^ 20.

Lemma represents_kind lo hi h v p : represents lo hi h v p -> exists o, h !! p = Some o /\ rp_type o = (reply_kind v).1 /\ rp_integer o = (reply_kind v).2.
Proof.
  destruct v; [intros (_ & _ & E); by eexists..|]. intros (_ & ps & E & _)%represents_array. by eexists.
Qed.

#[local] Instance diary_reacts : callbacks_react diary_call diary_react diary_good.
Proof.
  intros fn privdata v p ac q i mc mp lo hi Hc (c & Hb & Hlen) Hm He Hlo Hrep. destruct (represents_kind _ _ _ _ _ Hrep) as (o & Eo & Et & Ei).
  assert (Hp : p <> 0) by (destruct v; destruct Hrep; lia). unfold diary_call, diary_react, deref. rewrite (proj2 (Z.eqb_neq _ _) Hp), Eo. cbn [mbind outcome_bind]. rewrite Et, Ei.
  set (log := (user ac).2 ++ _). destruct (user ac).1 as [|n] eqn:En; [|destruct (fn =? 2)]; cbn [fst snd]; rewrite ?app_nil_r.
  - eexists. split; [done|]. destruct Hc as [H1 H2 H3 H4 H5]. split; [by split|]. split_and!; try done. by exists c.
  - set (ac0 := ac <| user := (n, log) |>). change (c_flags ac) with (c_flags ac0) in Hm.
    destruct (command_spec 7 ac0 1 (privdata + 100) [[80; 73; 78; 71]] (Some [4]) [80; 73; 78; 71] [] q i mc mp c) as (ac1 & st1 & E1 & Hs).
    + by destruct Hc.
    + done.
    + intros [|j] a [= <-]; (split; [done|]); eexists; done.
    + apply (bool_decide_unpack _). by vm_compute.
    + change (zlen (encode (command [[80; 73; 78; 71]]))) with 14. lia.
    + rewrite zlen_nil. pose proof (holds_used _ _ (cx_channels _ _ _ _ _ Hc)) as Eu. destruct (cx_channels _ _ _ _ _ Hc) as (C & Hd & _). pose proof (dk_small _ _ _ Hd). lia.
    + rewrite zlen_nil. pose proof (holds_used _ _ (cx_patterns _ _ _ _ _ Hc)) as Eu. destruct (cx_patterns _ _ _ _ _ Hc) as (C & Hd & _). pose proof (dk_small _ _ _ Hd). lia.
    + change (zlen [[80; 73; 78; 71]]) with 1 in E1. rewrite E1. cbn [mbind outcome_bind]. unfold command_outcome in Hs.
      rewrite (mode_flag ac0 _ (Z.lor REDIS_DISCONNECTING REDIS_FREEING) Hm), (mode_flag ac0 _ REDIS_SUBSCRIBED Hm) in Hs by done.
      change (negb (Z.land (Z.lor REDIS_CONNECTED REDIS_IN_CALLBACK) (Z.lor REDIS_DISCONNECTING REDIS_FREEING) =? 0)) with false in Hs.
      change (negb (Z.land (Z.lor REDIS_CONNECTED REDIS_IN_CALLBACK) REDIS_SUBSCRIBED =? 0)) with false in Hs. change (kind_of [80; 73; 78; 71] []) with COther in Hs. cbn iota in Hs.
      destruct Hs as (_ & Hc1 & Hf1 & Hb1 & (U1 & U2 & U3 & U4 & U5 & U6 & U7 & U8) & _). exists ac1.
      assert (Hg1 : diary_good (user ac1) (c_obuf ac1)).
      { exists (c ++ encode (command [[80; 73; 78; 71]])). split; [exact Hb1|]. rewrite U8, zlen_app. change (zlen (encode (command [[80; 73; 78; 71]]))) with 14.
        change ((user ac0).1) with n. lia. }
      exact (conj eq_refl (conj Hc1 (conj U8 (conj Hg1 (conj Hf1 (conj U1 (conj U2 U3))))))).
  - eexists. split; [done|]. destruct Hc as [H1 H2 H3 H4 H5]. split; [by split|]. split_and!; try done. exists c. split; [done|]. cbn [user fst]. cbn. lia.
Qed.

(** A connected context with two commands, the second without a callback. *)
Definition two_commands : outcome (redisAsyncContext diary) :=
  obuf ← sdsempty 7;
  r ← redisReaderCreate 7;
  let ac := set_flag (redisAsyncInitialize 0 0 obuf r (mkHeap ∅ 1) (1%nat, [])) REDIS_CONNECTED in
  '(ac, _) ← redisAsyncCommandArgv 7 ac 2 5 2 [[71; 69; 84]; [107]] (Some [3; 1]);
  '(ac, _) ← redisAsyncCommandArgv 7 ac 0 0 1 [[80; 73; 78; 71]] (Some [4]);
  Ok ac.

Lemma two_commands_ok : exists ac, two_commands = Ok ac /\ serving diary_good ac [(2, 5); (0, 0)] [] ∅ ∅ /\ user ac = (1%nat, []) /\
  idle (c_reader ac) [] /\ r_pos (c_reader ac) = 0 /\ c_objects ac = mkHeap ∅ 1.
Proof.
  unfold two_commands, redisReaderCreate. destruct (sdsempty_holds 7) as (obuf & -> & Ho). cbn [mbind outcome_bind].
  destruct (created_ready 7) as (r & Er & Hr & Hidx & Hl). rewrite Er. cbn [mbind outcome_bind].
  assert (Hst : length (r_rstack r) = 9%nat) by (by injection Er as <-). assert (Hpos : r_pos r = 0) by (by injection Er as <-). clear Er.
  set (ac0 := set_flag _ _). assert (H0 : context_ok ac0 [] [] ∅ ∅) by (by destruct (initialize_ok 0 0 obuf r (mkHeap ∅ 1) (1%nat, ([] : list (Z * Z * Z))))).
  destruct (command_spec 7 ac0 2 5 [[71; 69; 84]; [107]] (Some [3; 1]) [71; 69; 84] [[107]] [] [] ∅ ∅ [] H0 Ho) as (ac1 & st1 & E1 & _ & H1 & F1 & O1 & (U1 & U2 & U3 & _ & _ & _ & _ & U8) & _);
    [intros [|[|i]] a [= <-]; (split; [done|]); eexists; done|apply (bool_decide_unpack _); by vm_compute|by vm_compute..|].
  change (zlen [[71; 69; 84]; [107]]) with 2 in E1. rewrite E1. cbn [mbind outcome_bind]. clear E1. change (c_flags ac0) with REDIS_CONNECTED in F1.
  destruct (command_spec 7 ac1 0 0 [[80; 73; 78; 71]] (Some [4]) [80; 73; 78; 71] [] [(2, 5)] [] ∅ ∅ _ H1 O1) as (ac2 & st2 & E2 & Hc2);
    [intros [|i] a [= <-]; (split; [done|]); eexists; done|apply (bool_decide_unpack _); by vm_compute|by vm_compute..|].
  unfold command_outcome, flag in Hc2. rewrite F1 in Hc2. destruct Hc2 as (_ & H2 & F2 & O2 & (V1 & V2 & V3 & _ & _ & _ & _ & V8) & _).
  change (zlen [[80; 73; 78; 71]]) with 1 in E2. rewrite E2. cbn [mbind outcome_bind]. exists ac2. split; [done|].
  rewrite V2, U2, V3, U3, V8, U8. refine (conj _ (conj eq_refl (conj (conj Hr (conj Hidx Hst)) (conj Hpos eq_refl)))).
  split; [exact H2| |split; [rewrite F2; reflexivity|rewrite V1, U1; reflexivity]].
  eexists. split; [exact O2|]. rewrite V8, U8. by vm_compute.
Qed.

Lemma async_replies_in_order_witness :
  exists ac ac' q', two_commands = Ok ac /\
    reads diary_call (fun _ _ ac => Ok ac) 7 9 9 ac [[58]; [55; 13]; [10; 36; 45; 49; 13; 10; 43; 79; 75]; [13; 10]] = Ok ac' /\
    user ac' = (0%nat, [(5, REDIS_REPLY_INTEGER, 7); (105, REDIS_REPLY_STATUS, 0)]) /\ serving diary_good ac' q' [] ∅ ∅ /\ q' = [] /\ objects (c_objects ac') = ∅.
Proof.
  destruct two_commands_ok as (ac & E & Hs & Hu & Hidle & Hpos & Hobj).
  destruct (async_replies_in_order diary_call (fun _ _ ac => Ok ac) 7 diary_react diary_good 9 9 ac [(2, 5); (0, 0)] [] ∅ ∅ [RInteger 7; RNil; RStatus [79; 75]]
    [[58]; [55; 13]; [10; 36; 45; 49; 13; 10; 43; 79; 75]; [13; 10]] [] ((0%nat, [(5, REDIS_REPLY_INTEGER, 7); (105, REDIS_REPLY_STATUS, 0)]), []))
    as (ac' & q' & dn & rest & s & Er & Evs & Ec & Hsh & Hp & Hs' & Ho & Hrest).
  - exact Hs.
  - exact Hidle.
  - rewrite Hpos. by vm_compute.
  - by rewrite Hobj.
  - rewrite Hobj. intros x _. apply lookup_empty.
  - apply Forall_cons_2; [split; by vm_compute|]. apply Forall_cons_2; [exact I|]. apply Forall_cons_2; [by_decide|apply Forall_nil_2].
  - by_decide.
  - by_decide.
  - by vm_compute.
  - rewrite Hu. by vm_compute.
  - cbn. lia.
  - exists ac, ac', q'. specialize (Hrest eq_refl). subst rest. rewrite app_nil_r in Evs. subst dn. cbn in Hsh. subst s. rewrite Hu in Hp.
    change (Some ((0%nat, [(5, REDIS_REPLY_INTEGER, 7); (105, REDIS_REPLY_STATUS, 0)]), []) = Some (user ac', q')) in Hp. injection Hp as Hu' Hq'.
    exact (conj E (conj Er (conj (eq_sym Hu') (conj Hs' (conj (eq_sym Hq') (eq_trans (Ho eq_refl) (f_equal objects Hobj))))))).
Defined.
