(* ===== verification/AsyncSub.v ===== *)
(** * Replies during a subscription

    A subscribed context gets replies that no command waits for: the messages of its
    channels and patterns, which [redisProcessCallbacks] of [hiredis/async.c] gives to
    the callback it finds in a table, and the errors of commands that are not
    allowed. *)

From S2P Require Import Prelude Inet Sds RedisReader RedisParse RedisReply RedisFormat HiDict Async AsyncQueue AsyncCommand AsyncReply.

Lemma strcasecmp_spec t : Forall (fun d => tolower d <> 0) t -> forall s, 0 ∉ s -> strcasecmp_eq (s ++ [0]) t = Ok (bool_decide (lower s = lower t)).
Proof.
  induction 1 as [|d t Hd _ IH]; intros [|c s] Hs; cbn [strcasecmp_eq Datatypes.app].
  - by rewrite bool_decide_true.
  - apply not_elem_of_cons in Hs as [Hc _]. rewrite (proj2 (Z.eqb_neq c 0)) by congruence. by rewrite bool_decide_false.
  - cbn. by rewrite bool_decide_false by done.
  - apply not_elem_of_cons in Hs as [Hc Hs]. rewrite (proj2 (Z.eqb_neq c 0)) by congruence. cbn [orb]. destruct (Z.eqb_spec (tolower c) (tolower d)) as [E|E]; cbn [negb].
    + rewrite IH by done. f_equal. apply bool_decide_ext. cbn. rewrite E. split; [intros E'; f_equal; exact E'|by intros [= ?]].
    + rewrite bool_decide_false; [done|]. cbn. by intros [= ? _].
Qed.

Lemma strlen_spec s rest : 0 ∉ s -> strlen (s ++ 0 :: rest) = Ok (zlen s).
Proof.
  induction s as [|c s IH]; intros Hs; cbn [strlen Datatypes.app]; [done|]. apply not_elem_of_cons in Hs as [Hc Hs].
  rewrite (proj2 (Z.eqb_neq c 0)), IH by (done || congruence). cbn. by rewrite zlen_cons.
Qed.

(** ** Elements of a reply *)

Section elements.
Context {U : Type}.
Implicit Types (ac : redisAsyncContext U).

Lemma chain_element ac h lo hi l ps o k v : c_objects ac = h -> 0 < lo -> chain (objects h) lo hi l ps -> rp_element o = Some ps -> l !! k = Some v ->
  exists q lo' hi', 0 < lo' /\ represents lo' hi' (objects h) v q /\ element ac o (Z.of_nat k) = deref h q.
Proof.
  intros Eh Hlo Hc Eo Hk.
  assert (exists q lo' hi', 0 < lo' /\ represents lo' hi' (objects h) v q /\ ps !! k = Some q) as (q & lo' & hi' & Hlo' & Hr & Hq).
  { clear Eo. revert lo k ps Hlo Hc Hk. induction l as [|w l IH]; intros lo k [|p ps] Hlo Hc Hk; try done. destruct Hc as (mid & Hr & Hc). destruct k as [|k]; cbn in Hk.
    - injection Hk as ->. by exists p, lo, mid.
    - apply represents_lt in Hr. apply (IH mid k ps); [lia|done|done]. }
  exists q, lo', hi'. split_and!; try done. unfold element, elem_at. rewrite Eo, (proj2 (Z.ltb_ge _ 0)), Nat2Z.id, Hq by lia. cbn. by rewrite Eh.
Qed.

Lemma deref_represents lo hi h v p o : 0 < lo -> represents lo hi (objects h) v p -> objects h !! p = Some o -> deref h p = Ok o.
Proof. intros Hlo Hr E. unfold deref. rewrite (proj2 (Z.eqb_neq p 0)), E; [done|]. destruct v; destruct Hr; lia. Qed.
End elements.

Lemma shift_reply_nil {U} (ac : redisAsyncContext U) i mc mp : context_ok ac [] i mc mp -> shift_reply ac = Ok (ac, None).
Proof.
  intros [(pq & pi & Hc & Eq & _) _ _ _ _]. destruct pq; [|done]. unfold shift_reply. rewrite (shift_nil _ _ _ _ Hc). cbn. by destruct ac.
Qed.

Section dispatch.
Context {U : Type}.
Abbreviation ctx := (redisAsyncContext U).
Context (call : Z -> Z -> Z -> ctx -> outcome ctx) (call_status : Z -> Z -> ctx -> outcome ctx).
Implicit Types (ac : ctx) (i : list target) (mc mp : gmap (list Z) target).

(** The search of the tables. *)
Lemma table_find ac i mc mp (p : bool) name : context_ok ac [] i mc mp ->
  exists de, dictFind callbackDict (the_table ac p) name = Ok de /\
    match (if p then mp else mc) !! name with
    | None => de = 0
    | Some cb => de <> 0 /\ exists e, entry (entries (the_table ac p)) de = Ok e /\ e_val e = cb
    end.
Proof.
  intros Hc. assert (Ht : holds callbackDict (the_table ac p) (if p then mp else mc)) by (destruct p; apply Hc). destruct Ht as (C & Hd & ->).
  destruct (dictFind_spec callbackDict (the_table ac p) C name Hd) as (de & E & Hde). exists de. split; [done|].
  destruct Hde as [[-> ->]|(Hne & v & n & Ev & ->)]; [done|]. split; [done|]. eexists. split; [by apply entry_ok|done].
Qed.

Lemma size_delete (m : gmap (list Z) target) name cb : m !! name = Some cb -> Z.of_nat (size (delete name m)) = Z.of_nat (size m) - 1.
Proof. intros E. rewrite map_size_delete_Some by (by eexists). assert (size m <> 0%nat) by (intros E0%map_size_empty_inv; subst; by rewrite lookup_empty in E). lia. Qed.

Lemma table_delete ac i mc mp (p : bool) name cb : context_ok ac [] i mc mp -> (if p then mp else mc) !! name = Some cb ->
  exists d w, dictDelete callbackDict (the_table ac p) name (ac_blocks ac) = Ok (d, w, DICT_OK) /\
    context_ok ((set_table ac p d) <| ac_blocks := w |>) [] i (if p then mc else delete name mc) (if p then delete name mp else mp).
Proof.
  intros [H1 H2 H3 H4 H5] Hl. destruct p; cbn [the_table].
  - destruct H3 as (C & Hd & ->). pose proof (dictDelete_spec callbackDict _ _ name (ac_blocks ac) Hd) as H. rewrite Hl in H.
    destruct H as (d' & C' & old & _ & _ & -> & Hdel). eexists _, _. split; [done|]. split; [done|done| | |done].
    + exists C'. split; [apply Hdel|]. symmetry. apply Hdel.
    + cbn. rewrite H4. cbn. unfold callbackKeyDestructor, callbackValDestructor. cbn. rewrite (size_delete _ _ _ Hl). f_equal; lia.
  - destruct H2 as (C & Hd & ->). pose proof (dictDelete_spec callbackDict _ _ name (ac_blocks ac) Hd) as H. rewrite Hl in H.
    destruct H as (d' & C' & old & _ & _ & -> & Hdel). eexists _, _. split; [done|]. split; [done| |done| |done].
    + exists C'. split; [apply Hdel|]. symmetry. apply Hdel.
    + cbn. rewrite H4. cbn. unfold callbackKeyDestructor, callbackValDestructor. cbn. rewrite (size_delete _ _ _ Hl). f_equal; lia.
Qed.

(** What a message does: which callback it is for, and what becomes of the
    subscription; [cb] is the callback of the reply before it. *)
Definition message_outcome ac i mc mp (cb : target) (stype name : list Z) (rest : list reply) (o : outcome (ctx + ctx * target)) : Prop :=
  let '(p, base) := base_name stype in
  match (if p then mp else mc) !! name with
  | None => o = Ok (inr (ac, cb))
  | Some cb' =>
    if bool_decide (lower base = UNSUBSCRIBE) then
      forall n rest', rest = RInteger n :: rest' -> exists ac', o = Ok (inr (ac', cb')) /\
        context_ok ac' [] i (if p then mc else delete name mc) (if p then delete name mp else mp) /\ untouched ac ac' /\
        c_flags ac' = if n =? 0 then Z.land (c_flags ac) (Z.lnot REDIS_SUBSCRIBED) else c_flags ac
    else o = Ok (inr (ac, cb'))
  end.

Lemma base_name_text stype : (base_name stype).1 = (match stype ++ [0] with x :: _ => tolower x =? 112 | [] => false end) /\
  drop (if (base_name stype).1 then 1 else 0) (stype ++ [0]) = (base_name stype).2 ++ [0].
Proof. destruct stype as [|c s]; [done|]. cbn. destruct (tolower c =? 112) eqn:E; cbn; done. Qed.

Lemma base_name_sub stype x : x ∈ (base_name stype).2 -> x ∈ stype.
Proof. destruct stype as [|c s]; [done|]. cbn. destruct (tolower c =? 112); [by right|done]. Qed.

Lemma get_subscribe_spec ac i mc mp cb stype name rest p lo hi : context_ok ac [] i mc mp -> 0 < lo ->
  represents lo hi (objects (c_objects ac)) (RArray (RString stype :: RString name :: rest)) p -> 0 ∉ stype -> zlen name < 2 ^ 31 ->
  message_outcome ac i mc mp cb stype name rest ('(ac, cb) ← __redisGetSubscribeCallback ac p cb; Ok (inr (ac, cb))).
Proof.
  intros Hc Hlo Hrep Hst Hname. pose proof Hrep as (-> & ps & Eo & Hch)%represents_array. unfold message_outcome, __redisGetSubscribeCallback.
  rewrite (deref_represents _ _ _ _ _ _ Hlo Hrep Eo). cbn [mbind outcome_bind rp_type rp_elements]. change (REDIS_REPLY_ARRAY =? REDIS_REPLY_ARRAY) with true. cbn iota.
  assert ((zlen (RString stype :: RString name :: rest) >=? 2) = true) as -> by (rewrite !zlen_cons; pose proof (zlen_nonneg rest); lia). cbn [c_assert mbind outcome_bind].
  assert (Hps : ps <> []) by (intros ->; done). rewrite decide_False by done. set (o := mkReply _ _ _ _ _ _).
  destruct (chain_element ac (c_objects ac) (lo + 1) hi _ ps o 0 _ eq_refl ltac:(lia) Hch eq_refl eq_refl) as (p0 & l0 & h0 & Hl0 & Hr0 & E0).
  destruct (chain_element ac (c_objects ac) (lo + 1) hi _ ps o 1 _ eq_refl ltac:(lia) Hch eq_refl eq_refl) as (p1 & l1 & h1 & Hl1 & Hr1 & E1).
  change (Z.of_nat 0) with 0 in E0. change (Z.of_nat 1) with 1 in E1.
  assert (D0 := Hr0). destruct D0 as (_ & _ & D0). assert (D1 := Hr1). destruct D1 as (_ & _ & D1).
  rewrite E0, (deref_represents _ _ _ _ _ _ Hl0 Hr0 D0). cbn [mbind outcome_bind rp_type reply_str rp_str]. change (REDIS_REPLY_STRING =? REDIS_REPLY_STRING) with true. cbn [c_assert mbind outcome_bind].
  destruct (base_name_text stype) as [Hp Hdrop]. assert (Hbase : 0 ∉ (base_name stype).2) by (by intros ?%base_name_sub).
  assert (exists c0, elem_at (stype ++ [0]) 0 = Ok c0 /\ (tolower c0 =? 112) = (base_name stype).1) as (c0 & -> & Ec0).
  { rewrite Hp. destruct stype as [|c s]; by eexists. }
  cbn [mbind outcome_bind]. rewrite E1, (deref_represents _ _ _ _ _ _ Hl1 Hr1 D1). cbn [mbind outcome_bind rp_type rp_str rp_len reply_str]. change (REDIS_REPLY_STRING =? REDIS_REPLY_STRING) with true.
  cbn [c_assert mbind outcome_bind]. pose proof (zlen_nonneg name). rewrite i32_small by (unfold is_i32; lia).
  assert (read_at (name ++ [0]) 0 (zlen name) = Ok name) as -> by (by apply (read_at_mid [] name [0])). cbn [mbind outcome_bind]. rewrite Ec0.
  destruct (table_find ac i mc mp (base_name stype).1 name Hc) as (de & -> & Hde). cbn [mbind outcome_bind].
  destruct (base_name stype) as [pv base]. cbn [fst snd] in *. destruct ((if pv then mp else mc) !! name) as [cb'|] eqn:Em; [|by subst de].
  destruct Hde as (Hne & e & -> & <-). rewrite (proj2 (Z.eqb_neq _ _) Hne). cbn [negb mbind outcome_bind]. rewrite Hdrop.
  rewrite strcasecmp_spec by (done || by_decide). cbn [mbind outcome_bind]. change (lower UNSUBSCRIBE) with UNSUBSCRIBE.
  destruct (bool_decide (lower base = UNSUBSCRIBE)); [|done]. intros n rest' ->.
  destruct (table_delete ac i mc mp pv name (e_val e) Hc Em) as (d & w & -> & Hc'). cbn [mbind outcome_bind]. set (ac1 := (set_table ac pv d) <| ac_blocks := w |>) in *.
  assert (Hu : untouched ac ac1 /\ c_flags ac1 = c_flags ac) by (unfold ac1; by destruct pv). clearbody ac1. destruct Hu as [Hu Hf].
  destruct (chain_element ac1 (c_objects ac1) (lo + 1) hi (RString stype :: RString name :: RInteger n :: rest') ps o 2 (RInteger n)) as (p2 & l2 & h2 & Hl2 & Hr2 & E2); [done|lia| |done|done|].
  { destruct Hu as (_ & _ & -> & _). exact Hch. }
  change (Z.of_nat 2) with 2 in E2. assert (D2 := Hr2). destruct D2 as (_ & _ & D2). rewrite E2, (deref_represents _ _ _ _ _ _ Hl2 Hr2 D2).
  cbn [mbind outcome_bind rp_type rp_integer]. change (REDIS_REPLY_INTEGER =? REDIS_REPLY_INTEGER) with true. cbn [c_assert mbind outcome_bind].
  eexists. split; [done|]. destruct Hc' as [C1 C2 C3 C4 C5]. destruct (n =? 0); [|by split_and!]. cbn. rewrite Hf. by split_and!.
Qed.

(** The reply that is no command's: the tables are asked for its callback. *)
Lemma choose_subscribed efuel ac i mc mp cb p o : context_ok ac [] i mc mp -> flag ac REDIS_SUBSCRIBED = true -> deref (c_objects ac) p = Ok o -> rp_type o <> REDIS_REPLY_ERROR ->
  choose_callback call call_status efuel ac cb p = ('(ac, cb) ← __redisGetSubscribeCallback ac p cb; Ok (inr (ac, cb))).
Proof.
  intros Hc Hs Eo Ht. unfold choose_callback. rewrite (shift_reply_nil _ _ _ _ Hc). cbn [mbind outcome_bind]. rewrite Eo. cbn [mbind outcome_bind].
  rewrite (proj2 (Z.eqb_neq _ _) Ht), Hs. cbn [orb c_assert mbind outcome_bind]. by destruct (__redisGetSubscribeCallback ac p cb) as [[]|].
Qed.

(** What the callbacks do of their own while the context is being closed. *)
Context (note : Z -> Z -> U -> U) (closed : Z -> Z -> U -> U).
Context (call_closing : forall fn privdata ac, flag ac CLOSING = true -> call fn privdata 0 ac = Ok (ac <| user := note fn privdata (user ac) |>))
  (status_closing : forall fn status ac, flag ac CLOSING = true -> call_status fn status ac = Ok (ac <| user := closed fn status (user ac) |>)).
#[local] Set Default Proof Using "All".

(** An error that no command waits for is the end of the context. *)
Lemma choose_error efuel ac i mc mp cb s p lo hi : context_ok ac [] i mc mp -> enough efuel ac [] i mc mp -> r_reply (c_reader ac) = 0 ->
  Z.land (c_flags ac) REDIS_IN_CALLBACK = 0 -> flag ac REDIS_FREEING = false -> 0 < lo -> represents lo hi (objects (c_objects ac)) (RError s) p -> 13 ∉ s -> 0 ∉ s ->
  exists ac' h, choose_callback call call_status efuel ac cb p = Ok (inl ac') /\ freed lo hi (c_objects ac) h /\ completed note closed ac ac' [] i mc mp h REDIS_ERR.
Proof.
  intros Hc [E1 E2 E3 E4 E5 E6] Hr Hin Hfr Hlo Hrep Hcr Hz. unfold choose_callback. rewrite (shift_reply_nil _ _ _ _ Hc). cbn [mbind outcome_bind].
  pose proof Hrep as (-> & -> & Eo). rewrite (deref_represents _ _ _ _ _ _ Hlo Hrep Eo). cbn [mbind outcome_bind rp_type]. change (REDIS_REPLY_ERROR =? REDIS_REPLY_ERROR) with true. cbn iota.
  unfold reply_str. cbn [rp_str mbind outcome_bind]. rewrite strlen_spec by done. cbn [mbind outcome_bind]. unfold free_reply.
  match goal with |- context [__redisSetError ac ?e ?m] => set (ac1 := __redisSetError ac e m) end. change (c_objects ac1) with (c_objects ac).
  destruct (frees (RError s) 0 10%nat lo (lo + 1) (c_objects ac) lo) as (h & -> & Hf); [lia|lia|done|done|done|]. cbn [mbind outcome_bind].
  destruct Hc as [C1 C2 C3 C4 C5].
  destruct (disconnect_spec call call_status note closed call_closing status_closing efuel (ac1 <| c_objects := h |>) [] i mc mp h) as (ac' & -> & Hd); [by split|done|done|done|by split| |].
  { unfold redisReaderFree. cbn. by rewrite Hr. }
  exists ac', h. by split_and!.
Qed.

(** C28: Replies during a subscription.  When no command waits for a reply and the
    context is subscribed, an array that names its type and a channel is given to the
    callback that is registered for the channel, or for the pattern when the type starts
    with a p; the end of a subscription removes the callback from its table, freeing key
    and copy, and with the last one the context is no longer subscribed.  A message
    nobody has subscribed to is given to the callback of the reply before it.  An error
    is the end of the connection, also when commands that are not allowed wait for it:
    their callbacks get a null reply, like all others, and the reply is freed. *)
Theorem async_subscribed_reply (efuel : nat) ac i mc mp (cb : target) (v : reply) (p lo hi : Z) :
  context_ok ac [] i mc mp -> flag ac REDIS_SUBSCRIBED = true -> 0 < lo -> represents lo hi (objects (c_objects ac)) v p ->
  (forall stype name rest, v = RArray (RString stype :: RString name :: rest) -> 0 ∉ stype -> zlen name < 2 ^ 31 ->
   let o := choose_callback call call_status efuel ac cb p in
   let '(pat, base) := base_name stype in
   match (if pat then mp else mc) !! name with
   | None => o = Ok (inr (ac, cb))
   | Some cb' =>
     if bool_decide (lower base = UNSUBSCRIBE) then
       forall n rest', rest = RInteger n :: rest' -> exists ac', o = Ok (inr (ac', cb')) /\
         context_ok ac' [] i (if pat then mc else delete name mc) (if pat then delete name mp else mp) /\ untouched ac ac' /\
         c_flags ac' = if n =? 0 then Z.land (c_flags ac) (Z.lnot REDIS_SUBSCRIBED) else c_flags ac
     else o = Ok (inr (ac, cb'))
   end) /\
  (forall s, v = RError s -> 13 ∉ s -> 0 ∉ s -> enough efuel ac [] i mc mp -> r_reply (c_reader ac) = 0 ->
   Z.land (c_flags ac) REDIS_IN_CALLBACK = 0 -> flag ac REDIS_FREEING = false ->
   exists ac' h, choose_callback call call_status efuel ac cb p = Ok (inl ac') /\ freed lo hi (c_objects ac) h /\ completed note closed ac ac' [] i mc mp h REDIS_ERR).
Proof.
  intros Hc Hs Hlo Hrep. split.
  - intros stype name rest -> Hst Hname o. pose proof Hrep as (_ & ps & Eo & _)%represents_array.
    subst o. rewrite (choose_subscribed efuel ac i mc mp cb p _ Hc Hs (deref_represents _ _ _ _ _ _ Hlo Hrep Eo)) by done.
    exact (get_subscribe_spec ac i mc mp cb stype name rest p lo hi Hc Hlo Hrep Hst Hname).
  - intros s -> Hcr Hz Hen Hr Hin Hfr. by eapply choose_error.
Qed.
End dispatch.

(** ** Example *)

(** A context that is subscribed to the channel "a", where a command that is not allowed
    waits, and a heap with a message, or with an error. *)
Definition listening {U} (u : U) : outcome (redisAsyncContext U) :=
  obuf ← sdsempty 7;
  r ← redisReaderCreate 7;
  let ac := redisAsyncInitialize 0 0 obuf r (mkHeap ∅ 1) u in
  '(ac, _) ← redisAsyncCommandArgv 7 ac 2 20 2 [[83; 117; 98; 115; 99; 114; 105; 98; 101]; [97]] (Some [9; 1]);
  '(ac, _) ← redisAsyncCommandArgv 7 ac 3 30 2 [[71; 69; 84]; [107]] (Some [3; 1]);
  Ok ac.

Definition text (s : list Z) : redisReply := mkReply REDIS_REPLY_STRING 0 (zlen s) (Some (s ++ [0])) 0 None.
Definition message_heap : heap :=
  mkHeap {[1 := mkReply REDIS_REPLY_ARRAY 0 0 None 3 (Some [2; 3; 4]); 2 := text [109; 101; 115; 115; 97; 103; 101]; 3 := text [97]; 4 := text [104; 105]]} 5.
Definition error_heap : heap := mkHeap {[1 := mkReply REDIS_REPLY_ERROR 0 3 (Some [69; 82; 82; 0]) 0 None]} 2.

Lemma listening_ok {U} (u : U) : exists ac, listening u = Ok ac /\ context_ok ac [] [(3, 30)] {[ [97] := (2, 20) ]} ∅ /\ c_flags ac = REDIS_SUBSCRIBED.
Proof.
  unfold listening, redisReaderCreate. destruct (sdsempty_holds 7) as (obuf & -> & Ho). cbn [mbind outcome_bind]. destruct (created_ready 7) as (r & -> & _). cbn [mbind outcome_bind].
  set (ac0 := redisAsyncInitialize 0 0 obuf r (mkHeap ∅ 1) u). assert (H0 : context_ok ac0 [] [] ∅ ∅) by apply initialize_ok.
  destruct (command_spec 7 ac0 2 20 [[83; 117; 98; 115; 99; 114; 105; 98; 101]; [97]] (Some [9; 1]) [83; 117; 98; 115; 99; 114; 105; 98; 101] [[97]] [] [] ∅ ∅ [] H0 Ho)
    as (ac1 & st1 & E1 & _ & H1 & F1 & O1 & _); [intros [|[|i]] a [= <-]; (split; [done|]); eexists; done|apply (bool_decide_unpack _); by vm_compute|by vm_compute..|].
  change (zlen [[83; 117; 98; 115; 99; 114; 105; 98; 101]; [97]]) with 2 in E1. rewrite E1. cbn [mbind outcome_bind]. clear E1.
  destruct (command_spec 7 ac1 3 30 [[71; 69; 84]; [107]] (Some [3; 1]) [71; 69; 84] [[107]] [] [] _ ∅ _ H1 O1)
    as (ac2 & st2 & E2 & Hc2); [intros [|[|i]] a [= <-]; (split; [done|]); eexists; done|apply (bool_decide_unpack _); by vm_compute|by vm_compute..|].
  unfold command_outcome, flag in Hc2. rewrite F1 in Hc2. destruct Hc2 as (_ & H2 & F2 & _).
  change (zlen [[71; 69; 84]; [107]]) with 2 in E2. rewrite E2. cbn [mbind outcome_bind]. exists ac2. exact (conj eq_refl (conj H2 F2)).
Qed.

Lemma async_subscribed_reply_witness :
  let call fn privdata (reply : Z) (ac : redisAsyncContext (list (Z * Z))) := Ok (ac <| user := user ac ++ [(fn, privdata)] |>) in
  let call_status fn status (ac : redisAsyncContext (list (Z * Z))) := Ok (ac <| user := user ac ++ [(fn, status)] |>) in
  exists ac, listening [] = Ok ac /\
    (let ac := ac <| c_objects := message_heap |> in choose_callback call call_status 8 ac (7, 7) 1 = Ok (inr (ac, (2, 20)))) /\
    exists ac', choose_callback call call_status 8 (ac <| c_objects := error_heap |>) (7, 7) 1 = Ok (inl ac') /\ user ac' = [(3, 30); (2, 20)] /\ released ac' = true.
Proof.
  intros call call_status. destruct (listening_ok ([] : list (Z * Z))) as (ac & E & Hac & Hf). exists ac. split; [exact E|].
  assert (Hc : match listening ([] : list (Z * Z)) with
    | Ok a => (d_size (channels a) <? 2 ^ 31) && (d_size (patterns a) <? 2 ^ 31) && (r_reply (c_reader a) =? 0) && (onDisconnect a =? 0) && bool_decide (user a = [])
    | Crash _ => false end = true) by (by vm_compute).
  rewrite E in Hc. apply andb_true_iff in Hc as [[[[Hd1%Z.ltb_lt Hd2%Z.ltb_lt]%andb_true_iff Hr%Z.eqb_eq]%andb_true_iff Ho%Z.eqb_eq]%andb_true_iff Hu%bool_decide_eq_true].
  assert (Hheap : forall h, context_ok (ac <| c_objects := h |>) [] [(3, 30)] {[ [97] := (2, 20) ]} ∅) by (intros h; destruct Hac as [A1 A2 A3 A4 A5]; split; [exact A1|exact A2|exact A3|exact A4|exact A5]).
  assert (Hsub : forall h, flag (ac <| c_objects := h |>) REDIS_SUBSCRIBED = true) by (intros h; unfold flag; change (c_flags (ac <| c_objects := h |>)) with (c_flags ac); by rewrite Hf).
  split.
  - destruct (async_subscribed_reply call call_status (fun fn privdata u => u ++ [(fn, privdata)]) (fun fn status u => u ++ [(fn, status)]) ltac:(done) ltac:(done)
      8 (ac <| c_objects := message_heap |>) [(3, 30)] {[ [97] := (2, 20) ]} ∅ (7, 7) (RArray [RString [109; 101; 115; 115; 97; 103; 101]; RString [97]; RString [104; 105]]) 1 1 5
      (Hheap _) (Hsub _) eq_refl) as [Hm _].
    + cbn [represents]. split; [reflexivity|]. exists [2; 3; 4]. split; [reflexivity|].
      exists 3. split; [split; [reflexivity|split; reflexivity]|]. exists 4. split; [split; [reflexivity|split; reflexivity]|]. exists 5. split; [split; [reflexivity|split; reflexivity]|reflexivity].
    + apply (Hm [109; 101; 115; 115; 97; 103; 101] [97] [RString [104; 105]] eq_refl); [apply (bool_decide_unpack _); by vm_compute|by vm_compute].
  - destruct (async_subscribed_reply call call_status (fun fn privdata u => u ++ [(fn, privdata)]) (fun fn status u => u ++ [(fn, status)]) ltac:(done) ltac:(done)
      8 (ac <| c_objects := error_heap |>) [(3, 30)] {[ [97] := (2, 20) ]} ∅ (7, 7) (RError [69; 82; 82]) 1 1 2 (Hheap _) (Hsub _) eq_refl) as [_ He].
    + split; [reflexivity|split; reflexivity].
    + destruct (He [69; 82; 82] eq_refl) as (ac' & h & E' & _ & sc & sp & Hsc & Hsp & Hu' & R & _).
      * apply (bool_decide_unpack _). by vm_compute.
      * apply (bool_decide_unpack _). by vm_compute.
      * split; [exact Hd1|exact Hd2|cbn; lia|cbn; lia|by_decide|by_decide].
      * exact Hr.
      * change (c_flags (ac <| c_objects := error_heap |>)) with (c_flags ac). by rewrite Hf.
      * unfold flag. change (c_flags (ac <| c_objects := error_heap |>)) with (c_flags ac). by rewrite Hf.
      * exists ac'. rewrite map_to_list_empty in Hsp. rewrite map_to_list_singleton in Hsc. apply Permutation_nil_r in Hsp as ->. apply Permutation_singleton_r in Hsc as ->.
        change (onDisconnect (ac <| c_objects := error_heap |>)) with (onDisconnect ac) in Hu'. rewrite Ho in Hu'. change (user (ac <| c_objects := error_heap |>)) with (user ac) in Hu'. rewrite Hu in Hu'.
        exact (conj E' (conj Hu' R)).
Defined.

(** ** Monitor mode *)

(** What a program that monitors notes when the pieces arrive. *)
Definition monitored (chunks : list (list Z)) : outcome diary :=
  obuf ← sdsempty 7;
  r ← redisReaderCreate 7;
  let ac := set_flag (redisAsyncInitialize 0 0 obuf r (mkHeap ∅ 1) (0%nat, [])) REDIS_CONNECTED in
  '(ac, _) ← redisAsyncCommandArgv 7 ac 1 5 1 [[77; 79; 78; 73; 84; 79; 82]] (Some [7]);
  ac ← reads diary_call (fun _ _ ac => Ok ac) 7 9 9 ac chunks;
  Ok (user ac).

(** A line is noted when every line comes in one piece, and lost when the line before it
    came in two: without a complete reply there is no callback to queue again, and a
    null one is queued. *)
Example monitor_loses_lines :
  monitored [[43; 79; 75; 13; 10]; [43; 97; 13; 10]] = Ok (0%nat, [(5, REDIS_REPLY_STATUS, 0); (5, REDIS_REPLY_STATUS, 0)]) /\
  monitored [[43; 79]; [75; 13; 10]; [43; 97; 13; 10]] = Ok (0%nat, [(5, REDIS_REPLY_STATUS, 0)]).
Proof. split; by vm_compute. Qed.
