(* ===== verification/Adler.v ===== *)
(** * The Adler-32 checksum of zlib

    [zip/adler32.c]: the checksum that takes the remainder once for 5552 bytes, and
    the combination of two checksums.  [W] is the width of [unsigned long] (32 bits
    on Windows, 64 elsewhere) and [no_divide] the build option [NO_DIVIDE].  The
    checksum is shown to be the sums modulo 65521 for every buffer; the combination
    is shown to be right up to the representation of zero. *)

From S2P Require Import Prelude.

Definition BASE : Z := 65521.
Definition NMAX : Z := 5552.

Section adler.
Context (W : Z) (no_divide : bool).

(** Conversion to [unsigned long]. *)
Definition ul (z : Z) : Z := wrapu W z.

(** ** Operations *)

(** The remainder by conditional subtractions of [BASE << k]. *)
Definition sub_if (k a : Z) : Z := if a >=? ul (Z.shiftl BASE k) then ul (a - Z.shiftl BASE k) else a.
Definition MOD (a : Z) : Z :=
  if no_divide then foldl (fun a k => sub_if k a) a [16; 15; 14; 13; 12; 11; 10; 9; 8; 7; 6; 5; 4; 3; 2; 1; 0] else a `mod` BASE.
Definition MOD4 (a : Z) : Z :=
  if no_divide then foldl (fun a k => sub_if k a) a [4; 3; 2; 1; 0] else a `mod` BASE.

(** The two sums and what is left of the buffer. *)
Record sums := mkSums { s_adler : Z; s_sum2 : Z; s_buf : list Z }.

(** [adler += *buf++; sum2 += adler;] *)
Definition DO1 (s : sums) : outcome sums :=
  match s_buf s with
  | [] => Crash OutOfBounds
  | b :: buf => let adler := ul (s_adler s + b) in Ok (mkSums adler (ul (s_sum2 s + adler)) buf)
  end.

Fixpoint do_times (n : nat) (s : sums) : outcome sums :=
  match n with O => Ok s | S n => s ← DO1 s; do_times n s end.

Definition DO16 (s : sums) : outcome sums := do_times 16 s.

(** [do DO16(buf); while (--n);] *)
Fixpoint block_loop (n : nat) (s : sums) : outcome sums :=
  match n with O => Ok s | S n => s ← DO16 s; block_loop n s end.

Definition mod_sums (s : sums) : sums := mkSums (MOD (s_adler s)) (MOD (s_sum2 s)) (s_buf s).

(** [while (len >= NMAX)] *)
Fixpoint nmax_loop (fuel : nat) (s : sums) (len : Z) : outcome (sums * Z) :=
  match fuel with
  | O => Crash OutOfFuel
  | S fuel =>
    if len >=? NMAX then
      s ← block_loop (Z.to_nat (NMAX / 16)) s;
      nmax_loop fuel (mod_sums s) (u32 (len - NMAX))
    else Ok (s, len)
  end.

(** [while (len >= 16)] *)
Fixpoint rest_loop (fuel : nat) (s : sums) (len : Z) : outcome (sums * Z) :=
  match fuel with
  | O => Crash OutOfFuel
  | S fuel =>
    if len >=? 16 then
      s ← DO16 s;
      rest_loop fuel s (u32 (len - 16))
    else Ok (s, len)
  end.

(** [adler | (sum2 << 16)] *)
Definition join (adler sum2 : Z) : Z := Z.lor adler (ul (Z.shiftl sum2 16)).

Definition adler32 (adler : Z) (buf : option (list Z)) (len : Z) : outcome Z :=
  let sum2 := Z.land (Z.shiftr adler 16) 65535 in
  let adler := Z.land adler 65535 in
  if len =? 1 then
    match buf with
    | None => Crash NullDeref
    | Some [] => Crash OutOfBounds
    | Some (b :: _) =>
      let adler := ul (adler + b) in
      let adler := if adler >=? BASE then ul (adler - BASE) else adler in
      let sum2 := ul (sum2 + adler) in
      let sum2 := if sum2 >=? BASE then ul (sum2 - BASE) else sum2 in
      Ok (join adler sum2)
    end
  else match buf with
  | None => Ok 1
  | Some buf =>
    if len <? 16 then
      s ← do_times (Z.to_nat len) (mkSums adler sum2 buf);
      let adler := if s_adler s >=? BASE then ul (s_adler s - BASE) else s_adler s in
      Ok (join adler (MOD4 (s_sum2 s)))
    else
      '(s, len) ← nmax_loop (S (Z.to_nat (len / NMAX))) (mkSums adler sum2 buf) len;
      s ← (if negb (len =? 0) then
             '(s, len) ← rest_loop (S (Z.to_nat (len / 16))) s len;
             s ← do_times (Z.to_nat len) s;
             Ok (mod_sums s)
           else Ok s);
      Ok (join (s_adler s) (s_sum2 s))
  end.

Definition adler32_combine (adler1 adler2 len2 : Z) : Z :=
  let rem := u32 (ul len2 `mod` BASE) in
  let sum1 := Z.land adler1 65535 in
  let sum2 := ul (rem * sum1) in
  let sum2 := MOD sum2 in
  let sum1 := ul (sum1 + (Z.land adler2 65535 + BASE - 1)) in
  let sum2 := ul (sum2 + ul (Z.land (Z.shiftr adler1 16) 65535 + Z.land (Z.shiftr adler2 16) 65535 + BASE - rem)) in
  let sum1 := if sum1 >? BASE then ul (sum1 - BASE) else sum1 in
  let sum1 := if sum1 >? BASE then ul (sum1 - BASE) else sum1 in
  let sum2 := if sum2 >? ul (Z.shiftl BASE 1) then ul (sum2 - Z.shiftl BASE 1) else sum2 in
  let sum2 := if sum2 >? BASE then ul (sum2 - BASE) else sum2 in
  join sum1 sum2.
End adler.

(** ** Specification *)

(** The two sums of a sequence of bytes. *)
Fixpoint adler_sums (a b : Z) (l : list Z) : Z * Z :=
  match l with
  | [] => (a, b)
  | x :: l => adler_sums ((a + x) `mod` BASE) ((b + a + x) `mod` BASE) l
  end.

(** The checksum with the halves [a] and [b]. *)
Definition pack (ab : Z * Z) : Z := ab.1 + ab.2 * 65536.

Definition adler_spec (l : list Z) : Z := pack (adler_sums 1 0 l).

(** The sums without remainders. *)
Fixpoint raw_sums (a b : Z) (l : list Z) : Z * Z :=
  match l with [] => (a, b) | x :: l => raw_sums (a + x) (b + a + x) l end.

Definition canonical (z : Z) : Prop := 0 <= z < BASE.

(** ** Sums *)

Lemma raw_sums_app a b l1 l2 : raw_sums a b (l1 ++ l2) = raw_sums (raw_sums a b l1).1 (raw_sums a b l1).2 l2.
Proof. revert a b. induction l1 as [|x l1 IH]; intros a b; cbn; [done|apply IH]. Qed.

Lemma adler_sums_app a b l1 l2 : adler_sums a b (l1 ++ l2) = adler_sums (adler_sums a b l1).1 (adler_sums a b l1).2 l2.
Proof. revert a b. induction l1 as [|x l1 IH]; intros a b; cbn; [done|apply IH]. Qed.

Lemma raw_sums_shift l : forall a b, raw_sums a b l = (a + (raw_sums 0 0 l).1, b + zlen l * a + (raw_sums 0 0 l).2).
Proof.
  induction l as [|x l IH]; intros a b; cbn [raw_sums]; [unfold zlen; cbn; f_equal; lia|].
  rewrite IH, (IH (0 + x)). cbn [fst snd]. rewrite zlen_cons. f_equal; lia.
Qed.

Lemma adler_sums_raw l : forall a b, adler_sums (a `mod` BASE) (b `mod` BASE) l = ((raw_sums a b l).1 `mod` BASE, (raw_sums a b l).2 `mod` BASE).
Proof.
  induction l as [|x l IH]; intros a b; cbn [adler_sums raw_sums]; [done|]. rewrite <- IH. f_equal.
  - by rewrite Zplus_mod_idemp_l.
  - replace (b `mod` BASE + a `mod` BASE + x) with (x + b `mod` BASE + a `mod` BASE) by lia. rewrite Zplus_mod_idemp_r.
    replace (x + b `mod` BASE + a) with (a + x + b `mod` BASE) by lia. rewrite Zplus_mod_idemp_r. f_equal. lia.
Qed.

Lemma adler_sums_canonical a b l : canonical a -> canonical b -> canonical (adler_sums a b l).1 /\ canonical (adler_sums a b l).2.
Proof.
  revert a b. induction l as [|x l IH]; intros a b Ha Hb; cbn; [done|]. apply IH; apply Z.mod_pos_bound; done.
Qed.

(** The sums of [n] bytes stay below [n * 255 + a] and so on. *)
Lemma raw_bounds l : forall a b, Forall is_u8 l -> 0 <= a -> 0 <= b -> let n := zlen l in
  a <= (raw_sums a b l).1 <= a + 255 * n /\ b <= (raw_sums a b l).2 /\ 2 * (raw_sums a b l).2 <= 2 * b + 2 * (n * a) + 255 * (n * (n + 1)).
Proof.
  induction l as [|x l IH]; intros a b Hl Ha Hb n; unfold n; cbn [raw_sums]; [unfold zlen; cbn; lia|]. apply Forall_cons in Hl as [Hx Hl].
  unfold is_u8 in Hx. destruct (IH (a + x) (b + a + x) Hl) as (H1 & H2 & H3); [lia|lia|]. rewrite zlen_cons. pose proof (zlen_nonneg l). split_and!; nia.
Qed.

Section laws.
Context (W : Z) (Hw : 32 <= W) (no_divide : bool).
#[local] Set Default Proof Using "All".

Lemma ul_small z : 0 <= z < 2 ^ 32 -> ul W z = z.
Proof.
  intros Hz. unfold ul, wrapu. apply Z.mod_small. assert (2 ^ 32 <= 2 ^ W) by (apply Z.pow_le_mono_r; lia). lia.
Qed.

(** ** Remainders by subtraction *)

Fixpoint down (n : nat) : list Z := match n with O => [] | S n => Z.of_nat n :: down n end.

Lemma down_mod n : forall a, (n <= 17)%nat -> 0 <= a < 2 ^ 32 -> a < BASE * 2 ^ Z.of_nat n -> foldl (fun a k => sub_if W k a) a (down n) = a `mod` BASE.
Proof.
  induction n as [|n IH]; intros a Hn Ha Hb; cbn [down foldl].
  { symmetry. apply Z.mod_small. change (2 ^ Z.of_nat 0) with 1 in Hb. lia. }
  rewrite Nat2Z.inj_succ, Z.pow_succ_r in Hb by lia. unfold sub_if. rewrite Z.shiftl_mul_pow2 by lia.
  assert (2 ^ Z.of_nat n <= 2 ^ 16) by (apply Z.pow_le_mono_r; lia). assert (0 < 2 ^ Z.of_nat n) by (apply Z.pow_pos_nonneg; lia). unfold BASE in *.
  rewrite (ul_small (65521 * 2 ^ Z.of_nat n)) by lia. destruct (Z.geb_spec a (65521 * 2 ^ Z.of_nat n)).
  - rewrite ul_small by lia. rewrite IH by lia. replace (a - 65521 * 2 ^ Z.of_nat n) with (a + (- 2 ^ Z.of_nat n) * 65521) by lia. apply Z.mod_add. lia.
  - apply IH; lia.
Qed.

Lemma MOD_spec a : 0 <= a < 2 ^ 32 -> MOD W no_divide a = a `mod` BASE.
Proof. intros Ha. unfold MOD. destruct no_divide; [|done]. apply (down_mod 17); [lia|done|]. unfold BASE. change (2 ^ Z.of_nat 17) with 131072. lia. Qed.

Lemma MOD4_spec a : 0 <= a < BASE * 32 -> MOD4 W no_divide a = a `mod` BASE.
Proof. intros Ha. unfold MOD4. destruct no_divide; [|done]. unfold BASE in *. apply (down_mod 5); [lia|lia|]. unfold BASE. change (2 ^ Z.of_nat 5) with 32. lia. Qed.

Lemma sub_once a : 0 <= a < 2 * BASE -> (if a >=? BASE then ul W (a - BASE) else a) = a `mod` BASE.
Proof.
  unfold BASE. intros Ha. destruct (Z.geb_spec a 65521); [rewrite ul_small by lia|by rewrite Z.mod_small by lia].
  replace a with ((a - 65521) + 1 * 65521) at 2 by lia. rewrite Z.mod_add by lia. by rewrite Z.mod_small by lia.
Qed.

Lemma join_wide a b : 0 <= a < 65536 -> 0 <= b < 65536 -> join W a b = pack (a, b).
Proof.
  unfold join, pack. intros Ha Hb. cbn. rewrite ul_small; [by rewrite lor_join by lia|]. rewrite Z.shiftl_mul_pow2 by lia. lia.
Qed.

Lemma join_pack a b : canonical a -> canonical b -> join W a b = pack (a, b).
Proof. unfold canonical, BASE. intros Ha Hb. apply join_wide; lia. Qed.

Lemma split_pack a b : canonical a -> canonical b -> Z.land (pack (a, b)) 65535 = a /\ Z.land (Z.shiftr (pack (a, b)) 16) 65535 = b.
Proof.
  unfold canonical, BASE, pack. cbn. intros Ha Hb. change 65535 with (Z.ones 16). rewrite !Z.land_ones, Z.shiftr_div_pow2 by lia.
  change (2 ^ 16) with 65536. rewrite Z.mod_add, Z.div_add, (Z.div_small a), (Z.mod_small a), Z.add_0_l, (Z.mod_small b) by lia. done.
Qed.

(** ** Loops *)

Lemma do_times_spec l : forall r a b, Forall is_u8 l -> 0 <= a -> 0 <= b -> (raw_sums a b l).1 < 2 ^ 32 -> (raw_sums a b l).2 < 2 ^ 32 ->
  do_times W (length l) (mkSums a b (l ++ r)) = Ok (mkSums (raw_sums a b l).1 (raw_sums a b l).2 r).
Proof.
  induction l as [|x l IH]; intros r a b Hl Ha Hb H1 H2; cbn in *; [done|]. apply Forall_cons in Hl as [Hx Hl]. unfold is_u8 in Hx.
  destruct (raw_bounds l (a + x) (b + a + x) Hl) as (Hr1 & Hr2 & _); [lia|lia|]. cbn in Hr1, Hr2. rewrite (ul_small (a + x)) by lia. rewrite Z.add_assoc. rewrite ul_small by lia.
  apply IH; [done|lia|lia|done|done].
Qed.

Lemma do_times_add m n s : do_times W (m + n) s = (s ← do_times W m s; do_times W n s).
Proof. revert s. induction m as [|m IH]; intros s; cbn; [done|]. destruct (DO1 W s); [apply IH|done]. Qed.

Lemma block_loop_times n s : block_loop W n s = do_times W (16 * n) s.
Proof.
  revert s. induction n as [|n IH]; intros s; [done|]. rewrite Nat.mul_succ_r, Nat.add_comm, do_times_add. cbn [block_loop]. unfold DO16.
  destruct (do_times W 16 s); [apply IH|done].
Qed.

(** A block of at most [NMAX] bytes does not overflow. *)
Lemma block_bounds a b l : canonical a -> canonical b -> Forall is_u8 l -> zlen l <= NMAX ->
  0 <= (raw_sums a b l).1 < 2 ^ 32 /\ 0 <= (raw_sums a b l).2 < 2 ^ 32.
Proof.
  unfold canonical, BASE, NMAX. intros Ha Hb Hl Hn. destruct (raw_bounds l a b Hl) as (H1 & H2 & H3); [lia|lia|]. pose proof (zlen_nonneg l).
  assert (zlen l * a <= 5552 * 65520) by nia. assert (zlen l * (zlen l + 1) <= 5552 * 5553) by nia. lia.
Qed.

Lemma raw_mod a b l : canonical a -> canonical b -> ((raw_sums a b l).1 `mod` BASE, (raw_sums a b l).2 `mod` BASE) = adler_sums a b l.
Proof. intros Ha Hb. rewrite <- adler_sums_raw. rewrite !Z.mod_small by done. done. Qed.


Lemma do_times_zlen n l r a b : zlen l = Z.of_nat n -> Forall is_u8 l -> 0 <= a -> 0 <= b -> (raw_sums a b l).1 < 2 ^ 32 -> (raw_sums a b l).2 < 2 ^ 32 ->
  do_times W n (mkSums a b (l ++ r)) = Ok (mkSums (raw_sums a b l).1 (raw_sums a b l).2 r).
Proof. intros Hn. assert (n = length l) as -> by (unfold zlen in Hn; lia). apply do_times_spec. Qed.

Lemma nmax_loop_spec : forall fuel a b l, canonical a -> canonical b -> Forall is_u8 l -> zlen l < 2 ^ 32 -> (Z.to_nat (zlen l / NMAX) < fuel)%nat ->
  exists l1 l2, l = l1 ++ l2 /\ zlen l2 < NMAX /\
  nmax_loop W no_divide fuel (mkSums a b l) (zlen l) = Ok (mkSums (adler_sums a b l1).1 (adler_sums a b l1).2 l2, zlen l2).
Proof.
  induction fuel as [|fuel IH]; intros a b l Ha Hb Hl Hs Hf; [lia|]. cbn [nmax_loop]. destruct (Z.geb_spec (zlen l) NMAX) as [Hge|Hlt]; [|by exists [], l].
  destruct (zlen_split l NMAX) as (l1 & l2 & -> & E1 & E2); [unfold NMAX in *; lia|]. rewrite block_loop_times. apply Forall_app in Hl as [Hl1 Hl2].
  destruct (block_bounds a b l1 Ha Hb Hl1) as [B1 B2]; [lia|]. rewrite (do_times_zlen _ l1) by (done || lia || unfold canonical in *; lia). cbn [mbind outcome_bind].
  unfold mod_sums. cbn [s_adler s_sum2 s_buf]. rewrite !MOD_spec by done. pose proof (raw_mod a b l1 Ha Hb) as Em.
  destruct (adler_sums_canonical a b l1 Ha Hb) as [C1 C2]. rewrite <- Em in C1, C2. cbn in C1, C2.
  replace (u32 (zlen (l1 ++ l2) - NMAX)) with (zlen l2) by (rewrite E2, u32_small; [done|unfold is_u32, NMAX in *; lia]).
  destruct (IH _ _ l2 C1 C2 Hl2) as (m1 & m2 & -> & Hm & Er); [unfold NMAX in *; lia| |].
  { rewrite E2. replace (zlen (l1 ++ l2) - NMAX) with (zlen (l1 ++ l2) + (-1) * NMAX) by lia. rewrite Z.div_add by done.
    assert (1 <= zlen (l1 ++ l2) / NMAX) by (apply Z.div_le_lower_bound; unfold NMAX in *; lia). lia. }
  exists (l1 ++ m1), m2. split; [by rewrite app_assoc|]. split; [done|]. rewrite Er, adler_sums_app, <- Em. done.
Qed.

Lemma rest_loop_spec : forall fuel a b l, Forall is_u8 l -> 0 <= a -> 0 <= b -> (raw_sums a b l).1 < 2 ^ 32 -> (raw_sums a b l).2 < 2 ^ 32 -> zlen l < 2 ^ 32 ->
  (Z.to_nat (zlen l / 16) < fuel)%nat -> exists l1 l2, l = l1 ++ l2 /\ rest_loop W fuel (mkSums a b l) (zlen l) = Ok (mkSums (raw_sums a b l1).1 (raw_sums a b l1).2 l2, zlen l2).
Proof.
  induction fuel as [|fuel IH]; intros a b l Hl Ha Hb H1 H2 Hs Hf; [lia|]. cbn [rest_loop]. destruct (Z.geb_spec (zlen l) 16) as [Hge|Hlt]; [|by exists [], l].
  destruct (zlen_split l 16) as (l1 & l2 & -> & E1 & E2); [lia|]. apply Forall_app in Hl as [Hl1 Hl2]. rewrite raw_sums_app in H1, H2.
  destruct (raw_bounds l1 a b Hl1 Ha Hb) as (B1 & B2 & _). destruct (raw_bounds l2 (raw_sums a b l1).1 (raw_sums a b l1).2 Hl2) as (B3 & B4 & _); [lia|lia|]. cbn in B1, B2, B3, B4.
  unfold DO16. rewrite (do_times_zlen 16 l1) by (done || lia). cbn [mbind outcome_bind].
  replace (u32 (zlen (l1 ++ l2) - 16)) with (zlen l2) by (rewrite E2, u32_small; [done|unfold is_u32; lia]).
  destruct (IH (raw_sums a b l1).1 (raw_sums a b l1).2 l2 Hl2) as (m1 & m2 & -> & Er); [lia|lia|done|done|lia| |].
  { rewrite E2. replace (zlen (l1 ++ l2) - 16) with (zlen (l1 ++ l2) + (-1) * 16) by lia. rewrite Z.div_add by lia.
    assert (1 <= zlen (l1 ++ l2) / 16) by (apply Z.div_le_lower_bound; lia). lia. }
  exists (l1 ++ m1), m2. split; [by rewrite app_assoc|]. rewrite Er, raw_sums_app. done.
Qed.

(** The bytes behind the last whole block. *)
Lemma rest_spec a b l fuel : canonical a -> canonical b -> Forall is_u8 l -> zlen l <= NMAX -> (Z.to_nat (zlen l / 16) < fuel)%nat ->
  ('(s, len) ← rest_loop W fuel (mkSums a b l) (zlen l); s ← do_times W (Z.to_nat len) s; Ok (mod_sums W no_divide s)) = Ok (mkSums (adler_sums a b l).1 (adler_sums a b l).2 []).
Proof.
  intros Ha Hb Hl Hn Hf. destruct (block_bounds a b l Ha Hb Hl Hn) as [B1 B2]. unfold canonical in *.
  destruct (rest_loop_spec fuel a b l Hl) as (l1 & l2 & -> & ->); [lia|lia|lia|lia|unfold NMAX in *; lia|done|]. cbn [mbind outcome_bind]. apply Forall_app in Hl as [Hl1 Hl2].
  destruct (raw_bounds l1 a b Hl1) as (B3 & B4 & _); [lia|lia|]. rewrite raw_sums_app in B1, B2. rewrite <- (app_nil_r l2) at 2.
  rewrite (do_times_zlen _ l2) by (done || lia || unfold zlen; lia). cbn [mbind outcome_bind]. unfold mod_sums. cbn [s_adler s_sum2 s_buf].
  rewrite <- raw_mod, raw_sums_app by done. cbn [fst snd]. by rewrite !MOD_spec.
Qed.

Lemma adler32_spec a b l : canonical a -> canonical b -> Forall is_u8 l -> zlen l < 2 ^ 32 ->
  adler32 W no_divide (pack (a, b)) (Some l) (zlen l) = Ok (pack (adler_sums a b l)).
Proof.
  intros Ha Hb Hl Hs. destruct (adler_sums_canonical a b l Ha Hb) as [C1 C2]. unfold adler32. destruct (split_pack a b Ha Hb) as [-> ->].
  rewrite (surjective_pairing (adler_sums a b l)), <- join_pack by done. destruct (Z.eqb_spec (zlen l) 1) as [E1|E1]; [|destruct (Z.ltb_spec (zlen l) 16) as [H16|H16]].
  - destruct l as [|x [|? ?]]; [done| |unfold zlen in E1; cbn in E1; lia]. apply Forall_cons in Hl as [Hx _]. unfold canonical, is_u8, BASE in *.
    rewrite (ul_small (a + x)) by lia. rewrite sub_once by (unfold BASE; lia). cbn [adler_sums fst snd]. pose proof (Z.mod_pos_bound (a + x) BASE).
    unfold BASE in *. rewrite ul_small by lia. rewrite sub_once by (unfold BASE; lia). unfold BASE. rewrite Zplus_mod_idemp_r. do 2 f_equal. f_equal. lia.
  - destruct (block_bounds a b l Ha Hb Hl) as [B1 B2]; [unfold NMAX; lia|]. unfold canonical in Ha, Hb. rewrite <- (app_nil_r l) at 2.
    rewrite (do_times_zlen _ l) by (done || lia || unfold zlen; lia). cbn [mbind outcome_bind s_adler s_sum2].
    destruct (raw_bounds l a b Hl) as (B3 & _ & B5); [lia|lia|]. pose proof (zlen_nonneg l). unfold BASE in *. assert (zlen l * a <= 15 * 65520) by nia. assert (zlen l * (zlen l + 1) <= 15 * 16) by nia.
    rewrite sub_once by (unfold BASE; lia). rewrite MOD4_spec by (unfold BASE; lia). rewrite <- (raw_mod a b l) by done. done.
  - destruct (nmax_loop_spec (S (Z.to_nat (zlen l / NMAX))) a b l Ha Hb Hl Hs) as (l1 & l2 & -> & Hn & ->); [lia|]. cbn [mbind outcome_bind].
    destruct (adler_sums_canonical a b l1 Ha Hb) as [D1 D2]. apply Forall_app in Hl as [Hl1 Hl2]. destruct (Z.eqb_spec (zlen l2) 0) as [E0|E0]; cbn [negb].
    + assert (l2 = []) as -> by (destruct l2; [done|unfold zlen in E0; cbn in E0; lia]). cbn [mbind outcome_bind s_adler s_sum2]. by rewrite app_nil_r.
    + rewrite rest_spec by (done || lia). cbn [mbind outcome_bind s_adler s_sum2]. by rewrite adler_sums_app.
Qed.

(** ** Combination *)

(** The representation of a sum that the combination computes: zero is [BASE]. *)
Definition nonzero (z : Z) : Z := if z `mod` BASE =? 0 then BASE else z `mod` BASE.

Lemma nonzero_cong z z' : (BASE | z - z') -> nonzero z = nonzero z'.
Proof. intros [q E]. unfold nonzero. replace z with (z' + q * BASE) by lia. by rewrite Z.mod_add. Qed.

Lemma nonzero_range z : 0 < nonzero z <= BASE.
Proof. unfold nonzero, BASE. pose proof (Z.mod_pos_bound z 65521 ltac:(done)). destruct (Z.eqb_spec (z `mod` 65521) 0); lia. Qed.

Lemma nonzero_unique z r : 0 < r <= BASE -> (BASE | z - r) -> r = nonzero z.
Proof.
  unfold nonzero, BASE. intros Hr [q E]. replace z with (r + q * 65521) by lia. rewrite Z.mod_add by lia.
  destruct (decide (r = 65521)) as [->|Hne]; [done|]. rewrite Z.mod_small by lia. rewrite (proj2 (Z.eqb_neq _ _)) by lia. done.
Qed.

Lemma sub_above m u : 0 <= m -> 0 <= u < 2 ^ 32 -> exists k, (if u >? m then ul W (u - m) else u) = u - k * m /\ ((k = 0 /\ u <= m) \/ (k = 1 /\ m < u)).
Proof.
  intros Hm Hu. destruct (Z.gtb_spec u m).
  - exists 1. rewrite ul_small by lia. lia.
  - exists 0. lia.
Qed.

Lemma adler32_combine_spec a1 b1 a2 b2 len2 : canonical a1 -> canonical b1 -> canonical a2 -> canonical b2 -> 0 <= len2 < 2 ^ 31 ->
  adler32_combine W no_divide (pack (a1, b1)) (pack (a2, b2)) len2 = pack (nonzero (a1 + a2 - 1), nonzero (b1 + b2 + len2 * (a1 - 1))).
Proof.
  intros Ha1 Hb1 Ha2 Hb2 Hlen. unfold adler32_combine. destruct (split_pack a1 b1 Ha1 Hb1) as [-> ->]. destruct (split_pack a2 b2 Ha2 Hb2) as [-> ->].
  unfold canonical in *. rewrite (ul_small len2) by lia. pose proof (Z.mod_pos_bound len2 BASE ltac:(done)) as Hrem. rewrite u32_small by (unfold is_u32, BASE in *; lia).
  set (rem := len2 `mod` BASE) in *. assert (0 <= rem * a1 < 2 ^ 32) by (unfold BASE in *; nia). rewrite (ul_small (rem * a1)), MOD_spec by done.
  pose proof (Z.mod_pos_bound (rem * a1) BASE ltac:(done)) as Hx. set (x := (rem * a1) `mod` BASE) in *.
  assert (Hdiv : (BASE | b1 + b2 + len2 * (a1 - 1) - (x + b1 + b2 - rem))).
  { exists (len2 / BASE * (a1 - 1) + rem * a1 / BASE). pose proof (Z.div_mod len2 BASE ltac:(done)). pose proof (Z.div_mod (rem * a1) BASE ltac:(done)). fold rem in H0. fold x in H1. nia. }
  change (Z.shiftl BASE 1) with 131042. unfold BASE in *. rewrite (ul_small 131042) by lia.
  rewrite (ul_small (a1 + (a2 + 65521 - 1))), (ul_small (b1 + b2 + 65521 - rem)), (ul_small (x + (b1 + b2 + 65521 - rem))) by lia.
  set (u := a1 + (a2 + 65521 - 1)). set (v := x + (b1 + b2 + 65521 - rem)).
  destruct Hdiv as [q Hq].
  destruct (sub_above 65521 u) as (k1 & -> & Hk1); [lia|unfold u; lia|]. destruct (sub_above 65521 (u - k1 * 65521)) as (k2 & -> & Hk2); [lia|unfold u in *; lia|].
  destruct (sub_above 131042 v) as (k3 & -> & Hk3); [lia|unfold v; lia|]. destruct (sub_above 65521 (v - k3 * 131042)) as (k4 & -> & Hk4); [lia|unfold v in *; lia|].
  rewrite (nonzero_unique (a1 + a2 - 1) (u - k1 * 65521 - k2 * 65521)); [|unfold BASE, u in *; lia|exists (k1 + k2 - 1); unfold BASE, u; lia].
  rewrite (nonzero_unique (b1 + b2 + len2 * (a1 - 1)) (v - k3 * 131042 - k4 * 65521)); [|unfold BASE, v in *; lia|exists (q + 2 * k3 + k4 - 1); unfold BASE, v; lia].
  pose proof (nonzero_range (a1 + a2 - 1)). pose proof (nonzero_range (b1 + b2 + len2 * (a1 - 1))). unfold BASE in *. apply join_wide; lia.
Qed.
End laws.

(** ** Properties *)

(** C37: For both widths of [unsigned long] and both builds of the remainder,
    [adler32] continued over a buffer of any length below 2^32 returns the checksum
    of all bytes, although the remainder is only taken every 5552 bytes: neither sum
    overflows, no byte outside of the buffer is read, and the result does not depend
    on how the data is cut into buffers.  A null buffer gives the initial value,
    except with length 1, where it is read. *)
Theorem adler32_exact (W : Z) (no_divide : bool) (l1 l2 : list Z) (adler len : Z)
  (Hw : W = 32 \/ W = 64) (Hb : Forall is_u8 l2) (Hl : zlen l2 < 2 ^ 32) :
  adler32 W no_divide (adler_spec l1) (Some l2) (zlen l2) = Ok (adler_spec (l1 ++ l2)) /\
  adler32 W no_divide adler None len = (if len =? 1 then Crash NullDeref else Ok 1).
Proof.
  assert (Hw' : 32 <= W) by lia. split; [|unfold adler32; by destruct (len =? 1)].
  destruct (adler_sums_canonical 1 0 l1) as [C1 C2]; [done|done|]. unfold adler_spec. rewrite adler_sums_app.
  rewrite (surjective_pairing (adler_sums 1 0 l1)) at 1. by apply adler32_spec.
Qed.

Lemma adler32_exact_witness : adler32 32 true (adler_spec [97]) (Some (replicate 40 255)) 40 = Ok (adler_spec (97 :: replicate 40 255)) /\ adler_spec [97] = 6422626.
Proof.
  split; [|vm_compute; reflexivity].
  refine (proj1 (adler32_exact 32 true [97] (replicate 40 255) 0 0 (or_introl eq_refl) _ _)); [by_decide|vm_compute; reflexivity].
Defined.

(** [adler32_combine] of the checksums of two buffers is the checksum of their
    concatenation, except that a sum that is 0 is returned as 65521: the result is
    right exactly when both sums of the concatenation are different from 0. *)
Theorem adler32_combine_exact (W : Z) (no_divide : bool) (l1 l2 : list Z)
  (Hw : W = 32 \/ W = 64) (Hl : zlen l2 < 2 ^ 31) :
  let ab := adler_sums 1 0 (l1 ++ l2) in
  let r := adler32_combine W no_divide (adler_spec l1) (adler_spec l2) (zlen l2) in
  r = pack (if ab.1 =? 0 then 65521 else ab.1, if ab.2 =? 0 then 65521 else ab.2) /\
  (r = adler_spec (l1 ++ l2) <-> ab.1 <> 0 /\ ab.2 <> 0).
Proof.
  assert (Hw' : 32 <= W) by lia. intros ab r. destruct (adler_sums_canonical 1 0 (l1 ++ l2)) as [C1 C2]; [done|done|]. fold ab in C1, C2. unfold canonical in C1, C2.
  assert (Er : r = pack (nonzero (ab.1), nonzero (ab.2))).
  { destruct (adler_sums_canonical 1 0 l1) as [D1 D2]; [done|done|]. destruct (adler_sums_canonical 1 0 l2) as [D3 D4]; [done|done|].
    pose proof (adler_sums_raw l1 1 0) as E1. pose proof (adler_sums_raw l2 1 0) as E2. pose proof (adler_sums_raw (l1 ++ l2) 1 0) as E12.
    change (1 `mod` BASE) with 1 in *. change (0 `mod` BASE) with 0 in *. rewrite raw_sums_app in E12.
    unfold r, adler_spec. rewrite (surjective_pairing (adler_sums 1 0 l1)), (surjective_pairing (adler_sums 1 0 l2)).
    rewrite adler32_combine_spec by (done || pose proof (zlen_nonneg l2); lia). unfold ab. rewrite E12. cbn [fst snd].
    rewrite E1, E2. cbn [fst snd]. rewrite (raw_sums_shift l2 1 0), (raw_sums_shift l2 (raw_sums 1 0 l1).1). cbn [fst snd].
    set (x := (raw_sums 1 0 l1).1). set (y := (raw_sums 1 0 l1).2). set (s := (raw_sums 0 0 l2).1). set (t := (raw_sums 0 0 l2).2). set (n := zlen l2).
    rewrite !(Z.mod_eq _ BASE) by done. do 2 f_equal; apply (nonzero_cong W Hw' no_divide).
    - exists ((x + s) / BASE - x / BASE - (1 + s) / BASE). ring.
    - exists ((y + n * x + t) / BASE - y / BASE - (0 + n * 1 + t) / BASE - n * (x / BASE)). ring. }
  rewrite Er. unfold nonzero. rewrite !(Z.mod_small _ BASE) by done. split; [done|]. unfold adler_spec, pack. fold ab. unfold BASE in *. cbn [fst snd].
  destruct (Z.eqb_spec ab.1 0), (Z.eqb_spec ab.2 0); split; intros; try lia; try done.
Qed.

Lemma adler32_combine_exact_witness : adler32_combine 64 false (adler_spec [1; 2]) (adler_spec [3]) 1 = adler_spec [1; 2; 3] /\
  adler32_combine 64 false 1 1 0 = 1 + 65521 * 65536.
Proof.
  split.
  - refine (proj2 (proj2 (adler32_combine_exact 64 false [1; 2] [3] (or_intror eq_refl) eq_refl)) _). vm_compute. split; discriminate.
  - exact (proj1 (adler32_combine_exact 64 false [] [] (or_intror eq_refl) eq_refl)).
Defined.
