(* ===== verification/Crc.v ===== *)
(** * The CRC-32 checksum of zlib

    [zip/crc32.c]: the generation of the tables, the checksum byte by byte and four
    bytes at a time on machines of both byte orders, and the combination of two
    checksums by matrices over the field of two elements.  All of them are compared
    with the shift register that processes one bit at a time. *)

From S2P Require Import Prelude CrcTable.

(** ** Tables *)

(** [poly], made of the terms of the polynomial. *)
Definition crc_terms : list Z := [0; 1; 2; 4; 5; 7; 8; 10; 11; 12; 16; 22; 23; 26].
Definition make_poly : Z := foldl (fun poly n => Z.lor poly (Z.shiftl 1 (31 - n))) 0 crc_terms.
Definition poly : Z := Eval vm_compute in make_poly.

(** [c = c & 1 ? poly ^ (c >> 1) : c >> 1] *)
Definition crc_bit (c : Z) : Z := if Z.land c 1 =? 0 then Z.shiftr c 1 else Z.lxor poly (Z.shiftr c 1).
Fixpoint crc_bits (k : nat) (c : Z) : Z := match k with O => c | S k => crc_bits k (crc_bit c) end.

(** [REV]: the bytes of a word in the other order. *)
Definition REV (w : Z) : Z :=
  u32 (u32 (u32 (Z.shiftr w 24 + Z.land (Z.shiftr w 8) 0xff00) + u32 (Z.shiftl (Z.land w 0xff00) 8)) + u32 (Z.shiftl (Z.land w 0xff) 24)).

(** A read of an array. *)
Definition at_index (t : list Z) (i : Z) : outcome Z :=
  if i <? 0 then Crash OutOfBounds else match t !! Z.to_nat i with Some v => Ok v | None => Crash OutOfBounds end.

(** The loop over [k] that fills a column of the eight tables from the first one. *)
Fixpoint column_loop (k : nat) (table0 : list Z) (c : Z) : outcome (list Z) :=
  match k with
  | O => Ok []
  | S k =>
    x ← at_index table0 (Z.land c 0xff);
    let c := Z.lxor x (Z.shiftr c 8) in
    l ← column_loop k table0 c;
    Ok (c :: l)
  end.

Definition column (table0 : list Z) (n : Z) : outcome (list Z) :=
  c ← at_index table0 n;
  l ← column_loop 3 table0 c;
  Ok ((c :: l) ++ map REV (c :: l)).

Fixpoint columns (table0 : list Z) (ns : list Z) : outcome (list (list Z)) :=
  match ns with
  | [] => Ok []
  | n :: ns => x ← column table0 n; l ← columns table0 ns; Ok (x :: l)
  end.

Definition byte_values : list Z := map Z.of_nat (seq 0 256).

(** [make_crc_table]: the eight tables of 256 numbers. *)
Definition make_crc_table : outcome (list (list Z)) :=
  let table0 := map (crc_bits 8) byte_values in
  cols ← columns table0 byte_values;
  Ok (map (fun k => map (fun col : list Z => default 0 (col !! k)) cols) (seq 0 8)).

(** [crc_table[k][i]] *)
Definition crc_get (k : nat) (i : Z) : outcome Z :=
  match crc_table !! k with Some t => at_index t i | None => Crash OutOfBounds end.

(** ** One byte at a time *)

(** [DO1] *)
Definition DO1 (crc b : Z) : outcome Z :=
  x ← crc_get 0 (Z.land (Z.lxor crc b) 0xff);
  Ok (Z.lxor x (Z.shiftr crc 8)).

(** [DO1] for [n] bytes of the buffer. *)
Fixpoint do_bytes (step : Z -> Z -> outcome Z) (n : nat) (c : Z) (buf : list Z) : outcome (Z * list Z) :=
  match n with
  | O => Ok (c, buf)
  | S n => match buf with
           | [] => Crash OutOfBounds
           | b :: buf => c ← step c b; do_bytes step n c buf
           end
  end.

Definition DO8 (crc : Z) (buf : list Z) : outcome (Z * list Z) := do_bytes DO1 8 crc buf.

(** [while (len >= size) { work; len -= size; }] *)
Fixpoint chunk_loop (work : Z -> list Z -> outcome (Z * list Z)) (size : Z) (fuel : nat) (c : Z) (buf : list Z) (len : Z) : outcome (Z * list Z * Z) :=
  match fuel with
  | O => Crash OutOfFuel
  | S fuel =>
    if len >=? size then
      '(c, buf) ← work c buf;
      chunk_loop work size fuel c buf (u32 (len - size))
    else Ok (c, buf, len)
  end.

Definition crc32_bytes (crc : Z) (buf : list Z) (len : Z) : outcome Z :=
  let crc := Z.lxor crc 0xffffffff in
  '(crc, buf, len) ← chunk_loop DO8 8 (S (Z.to_nat (len / 8))) crc buf len;
  '(crc, _) ← do_bytes DO1 (Z.to_nat len) crc buf;
  Ok (Z.lxor crc 0xffffffff).

(** ** Four bytes at a time *)

(** [*buf4++] on a machine of either byte order. *)
Definition word_at (little : bool) (buf : list Z) : outcome (Z * list Z) :=
  match buf with
  | b0 :: b1 :: b2 :: b3 :: buf =>
    Ok (if little then b0 + b1 * 2 ^ 8 + b2 * 2 ^ 16 + b3 * 2 ^ 24 else b3 + b2 * 2 ^ 8 + b1 * 2 ^ 16 + b0 * 2 ^ 24, buf)
  | _ => Crash OutOfBounds
  end.

Definition DOLIT4 (c : Z) (buf : list Z) : outcome (Z * list Z) :=
  '(w, buf) ← word_at true buf;
  let c := Z.lxor c w in
  x3 ← crc_get 3 (Z.land c 0xff);
  x2 ← crc_get 2 (Z.land (Z.shiftr c 8) 0xff);
  x1 ← crc_get 1 (Z.land (Z.shiftr c 16) 0xff);
  x0 ← crc_get 0 (Z.shiftr c 24);
  Ok (Z.lxor (Z.lxor (Z.lxor x3 x2) x1) x0, buf).

Definition DOBIG4 (c : Z) (buf : list Z) : outcome (Z * list Z) :=
  '(w, buf) ← word_at false buf;
  let c := Z.lxor c w in
  x4 ← crc_get 4 (Z.land c 0xff);
  x5 ← crc_get 5 (Z.land (Z.shiftr c 8) 0xff);
  x6 ← crc_get 6 (Z.land (Z.shiftr c 16) 0xff);
  x7 ← crc_get 7 (Z.shiftr c 24);
  Ok (Z.lxor (Z.lxor (Z.lxor x4 x5) x6) x7, buf).

Fixpoint do_words (work : Z -> list Z -> outcome (Z * list Z)) (n : nat) (c : Z) (buf : list Z) : outcome (Z * list Z) :=
  match n with O => Ok (c, buf) | S n => '(c, buf) ← work c buf; do_words work n c buf end.
Definition DOLIT32 : Z -> list Z -> outcome (Z * list Z) := do_words DOLIT4 8.
Definition DOBIG32 : Z -> list Z -> outcome (Z * list Z) := do_words DOBIG4 8.

(** [while (len && ((ptrdiff_t)buf & 3))], [addr] the address of [buf]. *)
Fixpoint align_loop (step : Z -> Z -> outcome Z) (fuel : nat) (c : Z) (addr : Z) (buf : list Z) (len : Z) : outcome (Z * list Z * Z) :=
  match fuel with
  | O => Crash OutOfFuel
  | S fuel =>
    if negb (len =? 0) && negb (Z.land addr 3 =? 0) then
      match buf with
      | [] => Crash OutOfBounds
      | b :: buf => c ← step c b; align_loop step fuel c (addr + 1) buf (u32 (len - 1))
      end
    else Ok (c, buf, len)
  end.

Definition crc32_little (crc addr : Z) (buf : list Z) (len : Z) : outcome Z :=
  let c := u32 crc in
  let c := u32 (Z.lnot c) in
  '(c, buf, len) ← align_loop DO1 (S (Z.to_nat len)) c addr buf len;
  '(c, buf, len) ← chunk_loop DOLIT32 32 (S (Z.to_nat (len / 32))) c buf len;
  '(c, buf, len) ← chunk_loop DOLIT4 4 (S (Z.to_nat (len / 4))) c buf len;
  '(c, _) ← do_bytes DO1 (Z.to_nat len) c buf;
  Ok (u32 (Z.lnot c)).

(** [c = crc_table[4][(c >> 24) ^ *buf++] ^ (c << 8)] *)
Definition step_big (c b : Z) : outcome Z :=
  x ← crc_get 4 (Z.lxor (Z.shiftr c 24) b);
  Ok (u32 (Z.lxor x (u32 (Z.shiftl c 8)))).

Definition crc32_big (crc addr : Z) (buf : list Z) (len : Z) : outcome Z :=
  let c := REV (u32 crc) in
  let c := u32 (Z.lnot c) in
  '(c, buf, len) ← align_loop step_big (S (Z.to_nat len)) c addr buf len;
  '(c, buf, len) ← chunk_loop DOBIG32 32 (S (Z.to_nat (len / 32))) c buf len;
  '(c, buf, len) ← chunk_loop DOBIG4 4 (S (Z.to_nat (len / 4))) c buf len;
  '(c, _) ← do_bytes step_big (Z.to_nat len) c buf;
  Ok (REV (u32 (Z.lnot c))).

(** The ways [crc32] can be compiled. *)
Inductive crc_build := ByOne | ByFour (little : bool).

Definition crc32 (build : crc_build) (crc addr : Z) (buf : option (list Z)) (len : Z) : outcome Z :=
  match buf with
  | None => Ok 0
  | Some buf =>
    match build with
    | ByFour true => crc32_little crc addr buf len
    | ByFour false => crc32_big crc addr buf len
    | ByOne => crc32_bytes crc buf len
    end
  end.

(** ** Combination *)

Definition GF2_DIM : Z := 32.

(** [while (vec)] of [gf2_matrix_times]; [mat] is what is left of the matrix. *)
Fixpoint gf2_times_loop (mat : list Z) (vec sum : Z) : outcome Z :=
  if vec =? 0 then Ok sum else
  match mat with
  | [] => Crash OutOfBounds
  | m :: mat => gf2_times_loop mat (Z.shiftr vec 1) (if Z.land vec 1 =? 0 then sum else Z.lxor sum m)
  end.

Definition gf2_matrix_times (mat : list Z) (vec : Z) : outcome Z := gf2_times_loop mat vec 0.

Fixpoint square_loop (mat rows : list Z) : outcome (list Z) :=
  match rows with
  | [] => Ok []
  | r :: rows => x ← gf2_matrix_times mat r; l ← square_loop mat rows; Ok (x :: l)
  end.

Definition gf2_matrix_square (mat : list Z) : outcome (list Z) := square_loop mat (take (Z.to_nat GF2_DIM) mat).

(** The operator of one zero bit. *)
Definition zero_bit : list Z := 0xedb88320 :: map (fun n => Z.shiftl 1 (Z.of_nat n)) (seq 0 31).

(** The loop of [crc32_combine]. *)
Fixpoint combine_loop (fuel : nat) (odd : list Z) (crc1 len2 : Z) : outcome Z :=
  match fuel with
  | O => Crash OutOfFuel
  | S fuel =>
    even ← gf2_matrix_square odd;
    crc1 ← (if Z.land len2 1 =? 0 then Ok crc1 else gf2_matrix_times even crc1);
    let len2 := Z.shiftr len2 1 in
    if len2 =? 0 then Ok crc1 else
    odd ← gf2_matrix_square even;
    crc1 ← (if Z.land len2 1 =? 0 then Ok crc1 else gf2_matrix_times odd crc1);
    let len2 := Z.shiftr len2 1 in
    if len2 =? 0 then Ok crc1 else combine_loop fuel odd crc1 len2
  end.

Definition crc32_combine (fuel : nat) (crc1 crc2 len2 : Z) : outcome Z :=
  if len2 =? 0 then Ok crc1 else
  even ← gf2_matrix_square zero_bit;
  odd ← gf2_matrix_square even;
  crc1 ← combine_loop fuel odd crc1 len2;
  Ok (Z.lxor crc1 crc2).

(** ** Specification *)

(** The shift register takes a byte, and the checksum of a sequence of bytes. *)
Definition crc_byte (c b : Z) : Z := crc_bits 8 (Z.lxor c b).
Definition crc_update (crc : Z) (l : list Z) : Z := Z.lxor (foldl crc_byte (Z.lxor crc 0xffffffff) l) 0xffffffff.
Definition crc_spec (l : list Z) : Z := crc_update 0 l.

(** ** The register is linear *)

Definition linear (f : Z -> Z) : Prop := forall a b, f (Z.lxor a b) = Z.lxor (f a) (f b).

Lemma land_bit0 c : Z.land c 1 = Z.b2z (Z.odd c).
Proof. change 1 with (Z.ones 1) at 1. rewrite Z.land_ones by lia. change (2 ^ 1) with 2. by rewrite Zmod_odd; destruct (Z.odd c). Qed.

Lemma crc_bit_odd c : crc_bit c = Z.lxor (if Z.odd c then poly else 0) (Z.shiftr c 1).
Proof. unfold crc_bit. rewrite land_bit0. destruct (Z.odd c); [done|by rewrite Z.lxor_0_l]. Qed.

Lemma odd_lxor a b : Z.odd (Z.lxor a b) = xorb (Z.odd a) (Z.odd b).
Proof. by rewrite <- !Z.bit0_odd, Z.lxor_spec. Qed.

Lemma lxor_swap a b c d : Z.lxor (Z.lxor a b) (Z.lxor c d) = Z.lxor (Z.lxor a c) (Z.lxor b d).
Proof. rewrite !Z.lxor_assoc. f_equal. rewrite <- !Z.lxor_assoc. f_equal. apply Z.lxor_comm. Qed.

Lemma lxor_rev4 a b c d : Z.lxor (Z.lxor (Z.lxor a b) c) d = Z.lxor (Z.lxor (Z.lxor d c) b) a.
Proof. apply Z.bits_inj'. intros i _. rewrite !Z.lxor_spec. by destruct (Z.testbit a i), (Z.testbit b i), (Z.testbit c i), (Z.testbit d i). Qed.

Lemma crc_bit_linear : linear crc_bit.
Proof.
  intros a b. rewrite !crc_bit_odd, odd_lxor, Z.shiftr_lxor. rewrite lxor_swap. f_equal.
  destruct (Z.odd a), (Z.odd b); cbn [xorb]; by rewrite ?Z.lxor_nilpotent, ?Z.lxor_0_l, ?Z.lxor_0_r.
Qed.

Lemma crc_bits_linear k : linear (crc_bits k).
Proof. induction k as [|k IH]; intros a b; cbn; [done|]. by rewrite crc_bit_linear, IH. Qed.

Lemma crc_bits_add m n c : crc_bits (m + n) c = crc_bits n (crc_bits m c).
Proof. revert c. induction m as [|m IH]; intros c; cbn; [done|apply IH]. Qed.

(** A bit that is shifted in goes through. *)
Lemma crc_bits_shift n x : crc_bits n (Z.shiftl x (Z.of_nat n)) = x.
Proof.
  induction n as [|n IH]; cbn [crc_bits]; [by rewrite Z.shiftl_0_r|]. rewrite <- IH at 2. f_equal. rewrite crc_bit_odd.
  replace (Z.shiftl x (Z.of_nat (S n))) with (2 * Z.shiftl x (Z.of_nat n)).
  - rewrite Z.odd_mul. cbn [Z.odd andb]. rewrite Z.lxor_0_l, Z.shiftr_div_pow2 by lia. change (2 ^ 1) with 2. rewrite Z.mul_comm. by apply Z.div_mul.
  - rewrite !Z.shiftl_mul_pow2, Nat2Z.inj_succ, Z.pow_succ_r by lia. lia.
Qed.

(** A byte taken after [n] bits is a byte [n] bits higher. *)
Lemma crc_byte_bits n x b : crc_byte (crc_bits n x) b = crc_bits (n + 8) (Z.lxor x (Z.shiftl b (Z.of_nat n))).
Proof. unfold crc_byte. rewrite crc_bits_add. f_equal. by rewrite crc_bits_linear, crc_bits_shift. Qed.

(** ** Bytes of a word *)

Definition byte_at (x i : Z) : Z := Z.land (Z.shiftr x (8 * i)) 0xff.

(** The word of four bytes, the lowest first. *)
Definition cat4 (a b c d : Z) : Z := Z.lxor a (Z.lxor (Z.shiftl b 8) (Z.lxor (Z.shiftl c 16) (Z.shiftl d 24))).

Lemma lxor_disjoint a b k : 0 <= k -> 0 <= a < 2 ^ k -> Z.lxor a (Z.shiftl b k) = a + b * 2 ^ k.
Proof. intros Hk Ha. rewrite Z.shiftl_mul_pow2 by done. rewrite <- Z.add_nocarry_lxor; [done|]. by apply land_disjoint. Qed.

Lemma cat4_sum a b c d : is_u8 a -> is_u8 b -> is_u8 c -> is_u8 d -> cat4 a b c d = a + b * 2 ^ 8 + c * 2 ^ 16 + d * 2 ^ 24.
Proof.
  unfold is_u8, cat4. intros Ha Hb Hc Hd. change 24 with (16 + 8) at 1. change 16 with (8 + 8) at 1 2. rewrite <- !Z.shiftl_shiftl, <- !Z.shiftl_lxor by lia.
  rewrite (lxor_disjoint c d 8), (lxor_disjoint b _ 8), (lxor_disjoint a _ 8) by lia. lia.
Qed.

Lemma byte_at_u8 x i : is_u8 (byte_at x i).
Proof. unfold byte_at, is_u8. change 0xff with (Z.ones 8). rewrite Z.land_ones by lia. apply Z.mod_pos_bound. lia. Qed.

Lemma byte_at_div x i : 0 <= i -> byte_at x i = (x / 2 ^ (8 * i)) `mod` 2 ^ 8.
Proof. intros. unfold byte_at. change 0xff with (Z.ones 8). by rewrite Z.land_ones, Z.shiftr_div_pow2 by lia. Qed.

Lemma cat4_bytes x : is_u32 x -> cat4 (byte_at x 0) (byte_at x 1) (byte_at x 2) (byte_at x 3) = x.
Proof.
  intros Hx. rewrite cat4_sum by apply byte_at_u8. rewrite !byte_at_div by lia. unfold is_u32 in Hx.
  change (2 ^ (8 * 0)) with 1. change (2 ^ (8 * 1)) with 256. change (2 ^ (8 * 2)) with 65536. change (2 ^ (8 * 3)) with 16777216.
  Z.div_mod_to_equations. lia.
Qed.

Lemma REV_cat4 x : is_u32 x -> REV x = cat4 (byte_at x 3) (byte_at x 2) (byte_at x 1) (byte_at x 0).
Proof.
  intros Hx. rewrite cat4_sum by apply byte_at_u8. rewrite !byte_at_div by lia. unfold REV, is_u32 in *.
  assert (Hm : forall w, Z.land w 0xff00 = 256 * ((w / 256) `mod` 256)).
  { intros w. change 0xff00 with (Z.shiftl 0xff 8).
    replace (256 * ((w / 256) `mod` 256)) with (Z.shiftl (Z.land (Z.shiftr w 8) 0xff) 8).
    - rewrite Z.shiftl_land. apply Z.bits_inj'. intros i Hi. rewrite !Z.land_spec. destruct (Z.ltb_spec i 8).
      + rewrite !(Z.shiftl_spec_low _ 8 i) by lia. by rewrite !andb_false_r.
      + rewrite !Z.shiftl_spec, Z.shiftr_spec by lia. do 2 f_equal. lia.
    - change 0xff with (Z.ones 8). rewrite Z.land_ones, Z.shiftl_mul_pow2, Z.shiftr_div_pow2 by lia. change (2 ^ 8) with 256. lia. }
  rewrite !Hm. change (Z.land x 0xff) with (Z.land x (Z.ones 8)). rewrite Z.land_ones, !Z.shiftl_mul_pow2, !Z.shiftr_div_pow2 by lia.
  change (2 ^ (8 * 0)) with 1. change (2 ^ (8 * 1)) with 256. change (2 ^ (8 * 2)) with 65536. change (2 ^ (8 * 3)) with 16777216. unfold u32.
  change (2 ^ 24) with 16777216. change (2 ^ 8) with 256. change (2 ^ 16) with 65536. change (2 ^ 32) with 4294967296 in *.
  Z.div_mod_to_equations. lia.
Qed.

Lemma land_lxor a b m : Z.land (Z.lxor a b) m = Z.lxor (Z.land a m) (Z.land b m).
Proof. apply Z.bits_inj'. intros i _. rewrite !Z.land_spec, !Z.lxor_spec, !Z.land_spec. by destruct (Z.testbit a i), (Z.testbit b i), (Z.testbit m i). Qed.

Lemma byte_at_lxor a b i : byte_at (Z.lxor a b) i = Z.lxor (byte_at a i) (byte_at b i).
Proof. unfold byte_at. by rewrite Z.shiftr_lxor, land_lxor. Qed.

Lemma cat4_lxor a b c d a' b' c' d' :
  cat4 (Z.lxor a a') (Z.lxor b b') (Z.lxor c c') (Z.lxor d d') = Z.lxor (cat4 a b c d) (cat4 a' b' c' d').
Proof. unfold cat4. rewrite !Z.shiftl_lxor. rewrite (lxor_swap (Z.shiftl c 16)), (lxor_swap (Z.shiftl b 8)), (lxor_swap a). done. Qed.

Lemma u32_bits x : is_u32 x <-> 0 <= x /\ Z.shiftr x 32 = 0.
Proof.
  unfold is_u32. rewrite Z.shiftr_div_pow2 by lia. split; [intros; split; [lia|by apply Z.div_small]|].
  intros [H0 H1]. split; [done|]. destruct (Z.lt_ge_cases x (2 ^ 32)) as [?|Hge]; [done|]. apply (Z.div_le_lower_bound _ (2 ^ 32) 1) in Hge; lia.
Qed.

Lemma lxor_u32 a b : is_u32 a -> is_u32 b -> is_u32 (Z.lxor a b).
Proof.
  rewrite !u32_bits. intros [Ha Ea] [Hb Eb]. split; [by apply Z.lxor_nonneg|]. by rewrite Z.shiftr_lxor, Ea, Eb.
Qed.

Lemma REV_lxor a b : is_u32 a -> is_u32 b -> REV (Z.lxor a b) = Z.lxor (REV a) (REV b).
Proof. intros Ha Hb. rewrite !REV_cat4 by auto using lxor_u32. by rewrite !byte_at_lxor, cat4_lxor. Qed.

Lemma cat4_u32 a b c d : is_u8 a -> is_u8 b -> is_u8 c -> is_u8 d -> is_u32 (cat4 a b c d).
Proof. intros. rewrite cat4_sum by done. unfold is_u8, is_u32 in *. lia. Qed.

Lemma REV_u32 x : is_u32 x -> is_u32 (REV x).
Proof. intros. rewrite REV_cat4 by done. apply cat4_u32; apply byte_at_u8. Qed.

Lemma byte_at_cat4 a b c d : is_u8 a -> is_u8 b -> is_u8 c -> is_u8 d ->
  byte_at (cat4 a b c d) 0 = a /\ byte_at (cat4 a b c d) 1 = b /\ byte_at (cat4 a b c d) 2 = c /\ byte_at (cat4 a b c d) 3 = d.
Proof.
  intros. rewrite !byte_at_div, !cat4_sum by (done || lia). unfold is_u8 in *.
  change (2 ^ (8 * 0)) with 1. change (2 ^ (8 * 1)) with 256. change (2 ^ (8 * 2)) with 65536. change (2 ^ (8 * 3)) with 16777216.
  split_and!; Z.div_mod_to_equations; lia.
Qed.

Lemma REV_bytes x : is_u32 x -> byte_at (REV x) 0 = byte_at x 3 /\ byte_at (REV x) 1 = byte_at x 2 /\ byte_at (REV x) 2 = byte_at x 1 /\ byte_at (REV x) 3 = byte_at x 0.
Proof. intros Hx. rewrite REV_cat4 by done. apply byte_at_cat4; apply byte_at_u8. Qed.

Lemma REV_REV x : is_u32 x -> REV (REV x) = x.
Proof. intros Hx. rewrite (REV_cat4 (REV x)) by (by apply REV_u32). destruct (REV_bytes x Hx) as (-> & -> & -> & ->). by apply cat4_bytes. Qed.

Lemma top_byte x : is_u32 x -> Z.shiftr x 24 = byte_at x 3.
Proof.
  intros Hx. unfold is_u32 in Hx. rewrite byte_at_div, Z.shiftr_div_pow2 by lia. change (8 * 3) with 24. rewrite Z.mod_small; [done|].
  change (2 ^ 24) with 16777216. change (2 ^ 8) with 256. change (2 ^ 32) with 4294967296 in Hx. Z.div_mod_to_equations. lia.
Qed.

Lemma crc_bit_u32 c : is_u32 c -> is_u32 (crc_bit c).
Proof.
  intros Hc. rewrite crc_bit_odd. apply lxor_u32; [destruct (Z.odd c); by_decide|]. unfold is_u32 in *. rewrite Z.shiftr_div_pow2 by lia.
  change (2 ^ 1) with 2. Z.div_mod_to_equations. lia.
Qed.

Lemma crc_bits_u32 k c : is_u32 c -> is_u32 (crc_bits k c).
Proof. revert c. induction k as [|k IH]; intros c Hc; cbn; [done|]. by apply IH, crc_bit_u32. Qed.

Lemma u8_u32 b : is_u8 b -> is_u32 b.
Proof. unfold is_u8, is_u32. lia. Qed.

Lemma crc_byte_u32 c b : is_u32 c -> is_u8 b -> is_u32 (crc_byte c b).
Proof. intros. apply crc_bits_u32, lxor_u32; [done|by apply u8_u32]. Qed.

Lemma crc_bytes_u32 l : forall c, is_u32 c -> Forall is_u8 l -> is_u32 (foldl crc_byte c l).
Proof. induction l as [|b l IH]; intros c Hc Hl; [done|]. apply Forall_cons in Hl as [Hb Hl]. cbn. apply IH; [by apply crc_byte_u32|done]. Qed.

(** ** Tables *)

Lemma all_bytes (P : Z -> bool) : forallb P byte_values = true -> forall n, is_u8 n -> P n = true.
Proof.
  intros Hf n Hn. rewrite forallb_forall in Hf. apply Hf. unfold byte_values. apply in_map_iff. exists (Z.to_nat n). unfold is_u8 in Hn.
  split; [lia|]. apply in_seq. lia.
Qed.

Definition table_holds (n : Z) : bool :=
  forallb (fun k => bool_decide (crc_get k n = Ok (crc_bits (8 * (k + 1)) n)) && bool_decide (crc_get (4 + k) n = Ok (REV (crc_bits (8 * (k + 1)) n)))) (seq 0 4).

Lemma crc_get_spec k n : (k < 4)%nat -> is_u8 n -> crc_get k n = Ok (crc_bits (8 * (k + 1)) n) /\ crc_get (4 + k) n = Ok (REV (crc_bits (8 * (k + 1)) n)).
Proof.
  intros Hk Hn. assert (table_holds n = true) as Ht by (apply all_bytes; [vm_compute; reflexivity|done]). unfold table_holds in Ht.
  rewrite forallb_forall in Ht. specialize (Ht k ltac:(apply in_seq; lia)). by apply andb_true_iff in Ht as [?%bool_decide_eq_true ?%bool_decide_eq_true].
Qed.

(** ** Steps *)

Lemma split_low x : x = Z.lxor (Z.land x 0xff) (Z.shiftl (Z.shiftr x 8) 8).
Proof.
  apply Z.bits_inj'. intros i Hi. rewrite Z.lxor_spec, Z.land_spec. change 0xff with (Z.ones 8). destruct (Z.ltb_spec i 8).
  - rewrite Z.ones_spec_low, Z.shiftl_spec_low by lia. by rewrite andb_true_r, xorb_false_r.
  - rewrite Z.ones_spec_high, Z.shiftl_spec, Z.shiftr_spec by lia. rewrite andb_false_r, xorb_false_l. f_equal. lia.
Qed.

Lemma low_byte x : Z.land x 0xff = byte_at x 0.
Proof. unfold byte_at. by rewrite Z.shiftr_0_r. Qed.

Lemma shiftr_u8 b : is_u8 b -> Z.shiftr b 8 = 0.
Proof. unfold is_u8. intros. rewrite Z.shiftr_div_pow2 by lia. by apply Z.div_small. Qed.

(** The register takes a byte with one read of the first table. *)
Lemma crc_byte_table c b : is_u8 b -> crc_byte c b = Z.lxor (crc_bits 8 (byte_at (Z.lxor c b) 0)) (Z.shiftr c 8).
Proof.
  intros Hb. unfold crc_byte. rewrite (split_low (Z.lxor c b)) at 1. rewrite crc_bits_linear. rewrite low_byte. f_equal.
  rewrite (crc_bits_shift 8), Z.shiftr_lxor, (shiftr_u8 b Hb). apply Z.lxor_0_r.
Qed.

Lemma DO1_spec c b : is_u8 b -> DO1 c b = Ok (crc_byte c b).
Proof.
  intros Hb. unfold DO1. rewrite low_byte. destruct (crc_get_spec 0 (byte_at (Z.lxor c b) 0)) as [-> _]; [lia|apply byte_at_u8|]. cbn [mbind outcome_bind].
  by rewrite crc_byte_table.
Qed.

Lemma shiftr_u32 c : is_u32 c -> is_u32 (Z.shiftr c 8).
Proof. unfold is_u32. intros. rewrite Z.shiftr_div_pow2 by lia. change (2 ^ 8) with 256. Z.div_mod_to_equations. lia. Qed.

Lemma REV_shiftr c : is_u32 c -> REV (Z.shiftr c 8) = u32 (Z.shiftl (REV c) 8).
Proof.
  intros Hc. rewrite !REV_cat4 by auto using shiftr_u32. unfold byte_at. rewrite !Z.shiftr_shiftr by lia. change (8 + 8 * 0) with (8 * 1). change (8 + 8 * 1) with (8 * 2).
  change (8 + 8 * 2) with (8 * 3). change (8 + 8 * 3) with 32. rewrite (proj2 (proj1 (u32_bits c) Hc)), Z.land_0_l. fold (byte_at c 1) (byte_at c 2) (byte_at c 3) (byte_at c 0).
  pose proof (byte_at_u8 c 0). pose proof (byte_at_u8 c 1). pose proof (byte_at_u8 c 2). pose proof (byte_at_u8 c 3).
  assert (is_u8 0) by by_decide. rewrite !cat4_sum by done. rewrite Z.shiftl_mul_pow2 by lia. unfold is_u8 in *. unfold u32.
  change (2 ^ 8) with 256. change (2 ^ 16) with 65536. change (2 ^ 24) with 16777216. change (2 ^ 32) with 4294967296. Z.div_mod_to_equations. lia.
Qed.

Lemma step_big_spec c b : is_u32 c -> is_u8 b -> step_big (REV c) b = Ok (REV (crc_byte c b)).
Proof.
  intros Hc Hb. unfold step_big. rewrite top_byte by (by apply REV_u32). destruct (REV_bytes c Hc) as (_ & _ & _ & ->).
  assert (Z.lxor (byte_at c 0) b = byte_at (Z.lxor c b) 0) as ->.
  { rewrite byte_at_lxor. f_equal. rewrite byte_at_div by lia. change (2 ^ (8 * 0)) with 1. rewrite Z.div_1_r. symmetry. by apply Z.mod_small. }
  destruct (crc_get_spec 0 (byte_at (Z.lxor c b) 0)) as [_ E]; [lia|apply byte_at_u8|]. cbn [Nat.add] in E. rewrite E. cbn [mbind outcome_bind].
  rewrite <- REV_shiftr, <- REV_lxor, <- crc_byte_table; try done; [|by apply crc_bits_u32, u8_u32, byte_at_u8|by apply shiftr_u32].
  rewrite u32_small; [done|]. by apply REV_u32, crc_byte_u32.
Qed.

(** Four bytes are 32 bits. *)
Lemma crc_word c b0 b1 b2 b3 : foldl crc_byte c [b0; b1; b2; b3] = crc_bits 32 (Z.lxor c (cat4 b0 b1 b2 b3)).
Proof.
  cbn [foldl]. change (crc_byte c b0) with (crc_bits 8 (Z.lxor c b0)). rewrite !crc_byte_bits. unfold cat4.
  change (Z.of_nat 8) with 8. change (Z.of_nat (8 + 8)) with 16. change (Z.of_nat (8 + 8 + 8)) with 24. by rewrite <- !Z.lxor_assoc.
Qed.

Lemma crc_bits_high m n x : crc_bits (m + n) (Z.shiftl x (Z.of_nat m)) = crc_bits n x.
Proof. by rewrite crc_bits_add, crc_bits_shift. Qed.

Lemma crc_bits_cat4 a b c d : crc_bits 32 (cat4 a b c d) = Z.lxor (Z.lxor (Z.lxor (crc_bits 32 a) (crc_bits 24 b)) (crc_bits 16 c)) (crc_bits 8 d).
Proof.
  unfold cat4. rewrite !crc_bits_linear. change 32%nat with (8 + 24)%nat at 2. change 32%nat with (16 + 16)%nat at 2. change 32%nat with (24 + 8)%nat at 2.
  change 8 with (Z.of_nat 8). change 16 with (Z.of_nat 16). change 24 with (Z.of_nat 24). rewrite !crc_bits_high. by rewrite !Z.lxor_assoc.
Qed.

Lemma word_spec x : is_u32 x ->
  crc_bits 32 x = Z.lxor (Z.lxor (Z.lxor (crc_bits 32 (byte_at x 0)) (crc_bits 24 (byte_at x 1))) (crc_bits 16 (byte_at x 2))) (crc_bits 8 (byte_at x 3)).
Proof. intros Hx. by rewrite <- crc_bits_cat4, cat4_bytes. Qed.

Lemma DOLIT4_spec c b0 b1 b2 b3 buf : is_u32 c -> Forall is_u8 [b0; b1; b2; b3] ->
  DOLIT4 c (b0 :: b1 :: b2 :: b3 :: buf) = Ok (foldl crc_byte c [b0; b1; b2; b3], buf).
Proof.
  intros Hc Hb. rewrite !Forall_cons in Hb. destruct Hb as (H0 & H1 & H2 & H3 & _). unfold DOLIT4, word_at. cbn [mbind outcome_bind]. rewrite <- cat4_sum by done. rewrite crc_word.
  set (x := Z.lxor c (cat4 b0 b1 b2 b3)). assert (Hx : is_u32 x) by (by apply lxor_u32, cat4_u32). rewrite (low_byte x), (top_byte x Hx).
  change (Z.land (Z.shiftr x 8) 0xff) with (byte_at x 1). change (Z.land (Z.shiftr x 16) 0xff) with (byte_at x 2).
  destruct (crc_get_spec 3 (byte_at x 0)) as [-> _]; [lia|apply byte_at_u8|]. destruct (crc_get_spec 2 (byte_at x 1)) as [-> _]; [lia|apply byte_at_u8|].
  destruct (crc_get_spec 1 (byte_at x 2)) as [-> _]; [lia|apply byte_at_u8|]. destruct (crc_get_spec 0 (byte_at x 3)) as [-> _]; [lia|apply byte_at_u8|].
  cbn [mbind outcome_bind]. by rewrite (word_spec x Hx).
Qed.

Lemma DOBIG4_spec c b0 b1 b2 b3 buf : is_u32 c -> Forall is_u8 [b0; b1; b2; b3] ->
  DOBIG4 (REV c) (b0 :: b1 :: b2 :: b3 :: buf) = Ok (REV (foldl crc_byte c [b0; b1; b2; b3]), buf).
Proof.
  intros Hc Hb. rewrite !Forall_cons in Hb. destruct Hb as (H0 & H1 & H2 & H3 & _). unfold DOBIG4, word_at. cbn [mbind outcome_bind]. rewrite <- cat4_sum by done. rewrite crc_word.
  assert (cat4 b3 b2 b1 b0 = REV (cat4 b0 b1 b2 b3)) as ->.
  { rewrite (REV_cat4 (cat4 b0 b1 b2 b3)) by (by apply cat4_u32). by destruct (byte_at_cat4 b0 b1 b2 b3 H0 H1 H2 H3) as (-> & -> & -> & ->). }
  rewrite <- REV_lxor by (done || by apply cat4_u32). set (x := Z.lxor c (cat4 b0 b1 b2 b3)). assert (Hx : is_u32 x) by (by apply lxor_u32, cat4_u32).
  rewrite (low_byte (REV x)), (top_byte (REV x)) by (by apply REV_u32). change (Z.land (Z.shiftr (REV x) 8) 0xff) with (byte_at (REV x) 1). change (Z.land (Z.shiftr (REV x) 16) 0xff) with (byte_at (REV x) 2).
  destruct (REV_bytes x Hx) as (-> & -> & -> & ->).
  destruct (crc_get_spec 0 (byte_at x 3)) as [_ E0]; [lia|apply byte_at_u8|]. destruct (crc_get_spec 1 (byte_at x 2)) as [_ E1]; [lia|apply byte_at_u8|].
  destruct (crc_get_spec 2 (byte_at x 1)) as [_ E2]; [lia|apply byte_at_u8|]. destruct (crc_get_spec 3 (byte_at x 0)) as [_ E3]; [lia|apply byte_at_u8|].
  cbn [Nat.add] in E0, E1, E2, E3. rewrite E0, E1, E2, E3. cbn [mbind outcome_bind]. rewrite (word_spec x Hx).
  assert (Hu : forall k i, is_u32 (crc_bits k (byte_at x i))) by (intros; by apply crc_bits_u32, u8_u32, byte_at_u8).
  rewrite !REV_lxor by auto using lxor_u32. do 2 f_equal. apply lxor_rev4.
Qed.

(** ** Loops

    [rep] is how a machine keeps the register: as it is, or with its bytes reversed. *)

Section loops.
Context (rep : Z -> Z) (step : Z -> Z -> outcome Z).
Context (Hstep : forall c b, is_u32 c -> is_u8 b -> step (rep c) b = Ok (rep (crc_byte c b))).
#[local] Set Default Proof Using "All".

(** [work] processes [size] bytes. *)
Definition processes (work : Z -> list Z -> outcome (Z * list Z)) (size : Z) : Prop :=
  forall c l r, is_u32 c -> Forall is_u8 l -> zlen l = size -> work (rep c) (l ++ r) = Ok (rep (foldl crc_byte c l), r).

Lemma do_bytes_spec n : processes (do_bytes step n) (Z.of_nat n).
Proof.
  induction n as [|n IH]; intros c l r Hc Hl Hn.
  - assert (l = []) as -> by (apply nil_length_inv; unfold zlen in Hn; lia). done.
  - destruct l as [|b l]; [unfold zlen in Hn; cbn in Hn; lia|]. apply Forall_cons in Hl as [Hb Hl]. rewrite zlen_cons in Hn.
    cbn [do_bytes app foldl]. rewrite Hstep by done. cbn [mbind outcome_bind]. apply IH; [by apply crc_byte_u32|done|lia].
Qed.

Lemma do_words_spec work size n : 0 <= size -> processes work size -> processes (do_words work n) (Z.of_nat n * size).
Proof.
  intros Hs Hw. induction n as [|n IH]; intros c l r Hc Hl Hn.
  - assert (l = []) as -> by (apply nil_length_inv; unfold zlen in Hn; lia). done.
  - destruct (zlen_split l size) as (l1 & l2 & -> & E1 & E2); [lia|].
    apply Forall_app in Hl as [Hl1 Hl2]. cbn [do_words]. rewrite <- app_assoc, Hw by done. cbn [mbind outcome_bind]. rewrite foldl_app. apply IH; [by apply crc_bytes_u32|done|lia].
Qed.

Lemma chunk_loop_spec work size : 0 < size -> processes work size -> forall fuel c l, is_u32 c -> Forall is_u8 l -> zlen l < 2 ^ 32 ->
  (Z.to_nat (zlen l / size) < fuel)%nat -> exists l1 l2, l = l1 ++ l2 /\
  chunk_loop work size fuel (rep c) l (zlen l) = Ok (rep (foldl crc_byte c l1), l2, zlen l2).
Proof.
  intros Hs Hw. induction fuel as [|fuel IH]; intros c l Hc Hl Hb Hf; [lia|]. cbn [chunk_loop]. destruct (Z.geb_spec (zlen l) size) as [Hge|Hlt]; [|by exists [], l].
  destruct (zlen_split l size) as (l1 & l2 & -> & E1 & E2); [lia|].
  apply Forall_app in Hl as [Hl1 Hl2]. rewrite Hw by done. cbn [mbind outcome_bind]. pose proof (zlen_nonneg l2).
  replace (u32 (zlen (l1 ++ l2) - size)) with (zlen l2) by (rewrite E2, u32_small; [done|unfold is_u32; lia]).
  destruct (IH (foldl crc_byte c l1) l2) as (m1 & m2 & -> & Er); [by apply crc_bytes_u32|done|lia| |].
  { rewrite E2. replace (zlen (l1 ++ l2) - size) with (zlen (l1 ++ l2) + (-1) * size) by lia. rewrite Z.div_add by lia.
    assert (1 <= zlen (l1 ++ l2) / size) by (apply Z.div_le_lower_bound; lia). lia. }
  exists (l1 ++ m1), m2. split; [by rewrite app_assoc|]. by rewrite Er, foldl_app.
Qed.

Lemma align_loop_spec : forall fuel c addr l, is_u32 c -> Forall is_u8 l -> zlen l < 2 ^ 32 -> (Z.to_nat (zlen l) < fuel)%nat -> exists l1 l2, l = l1 ++ l2 /\
  align_loop step fuel (rep c) addr l (zlen l) = Ok (rep (foldl crc_byte c l1), l2, zlen l2).
Proof.
  induction fuel as [|fuel IH]; intros c addr l Hc Hl Hb Hf; [lia|]. cbn [align_loop]. destruct (negb (zlen l =? 0) && negb (Z.land addr 3 =? 0)) eqn:Ec; [|by exists [], l].
  destruct l as [|b l]; [done|]. apply Forall_cons in Hl as [Hb' Hl]. rewrite Hstep by done. cbn [mbind outcome_bind]. rewrite zlen_cons in *. pose proof (zlen_nonneg l).
  replace (u32 (1 + zlen l - 1)) with (zlen l) by (rewrite u32_small; [lia|unfold is_u32; lia]).
  destruct (IH (crc_byte c b) (addr + 1) l) as (l1 & l2 & -> & Er); [by apply crc_byte_u32|done|lia|lia|]. exists (b :: l1), l2. split; [done|]. by rewrite Er.
Qed.

(** The whole of a buffer: aligned, in two sizes of chunks and the rest. *)
Lemma run_spec work32 work4 c addr l : processes work32 32 -> processes work4 4 -> is_u32 c -> Forall is_u8 l -> zlen l < 2 ^ 32 ->
  ('(c, buf, len) ← align_loop step (S (Z.to_nat (zlen l))) (rep c) addr l (zlen l);
   '(c, buf, len) ← chunk_loop work32 32 (S (Z.to_nat (len / 32))) c buf len;
   '(c, buf, len) ← chunk_loop work4 4 (S (Z.to_nat (len / 4))) c buf len;
   do_bytes step (Z.to_nat len) c buf) = Ok (rep (foldl crc_byte c l), []).
Proof.
  intros H32 H4 Hc Hl Hb. destruct (align_loop_spec (S (Z.to_nat (zlen l))) c addr l Hc Hl Hb) as (l1 & l2 & -> & ->); [lia|]. cbn [mbind outcome_bind].
  apply Forall_app in Hl as [Hl1 Hl2]. rewrite zlen_app in Hb. pose proof (zlen_nonneg l1). pose proof (zlen_nonneg l2). apply (crc_bytes_u32 l1) in Hc; [|done].
  destruct (chunk_loop_spec work32 32 ltac:(done) H32 (S (Z.to_nat (zlen l2 / 32))) _ l2 Hc Hl2) as (l3 & l4 & -> & ->); [lia|lia|]. cbn [mbind outcome_bind].
  apply Forall_app in Hl2 as [Hl3 Hl4]. rewrite zlen_app in Hb. pose proof (zlen_nonneg l3). pose proof (zlen_nonneg l4). apply (crc_bytes_u32 l3) in Hc; [|done].
  destruct (chunk_loop_spec work4 4 ltac:(done) H4 (S (Z.to_nat (zlen l4 / 4))) _ l4 Hc Hl4) as (l5 & l6 & -> & ->); [lia|lia|]. cbn [mbind outcome_bind].
  apply Forall_app in Hl4 as [Hl5 Hl6]. apply (crc_bytes_u32 l5) in Hc; [|done]. rewrite <- (app_nil_r l6) at 2.
  rewrite do_bytes_spec by (done || unfold zlen; lia). by rewrite !foldl_app.
Qed.
End loops.

Lemma processes_four rep work : (forall c b0 b1 b2 b3 buf, is_u32 c -> Forall is_u8 [b0; b1; b2; b3] ->
  work (rep c) (b0 :: b1 :: b2 :: b3 :: buf) = Ok (rep (foldl crc_byte c [b0; b1; b2; b3]), buf)) -> processes rep work 4.
Proof.
  intros Hw c l r Hc Hl Hn. destruct l as [|b0 [|b1 [|b2 [|b3 [|? ?]]]]]; try (unfold zlen in Hn; cbn in Hn; lia). by apply Hw.
Qed.

Lemma lnot_u32 c : is_u32 c -> u32 (Z.lnot c) = Z.lxor c 0xffffffff.
Proof.
  intros Hc. unfold u32. rewrite <- Z.land_ones by lia. apply Z.bits_inj'. intros i Hi. rewrite Z.land_spec, Z.lnot_spec, Z.lxor_spec by done.
  change 0xffffffff with (Z.ones 32). destruct (Z.ltb_spec i 32) as [Hlt|Hge].
  - rewrite Z.ones_spec_low by lia. by rewrite andb_true_r, xorb_true_r.
  - rewrite Z.ones_spec_high by lia. rewrite andb_false_r, xorb_false_r. apply u32_bits in Hc as [_ Hc]. replace i with ((i - 32) + 32) by lia.
    rewrite <- Z.shiftr_spec, Hc by lia. symmetry. apply Z.bits_0.
Qed.

Lemma REV_ones c : is_u32 c -> Z.lxor (REV c) 0xffffffff = REV (Z.lxor c 0xffffffff).
Proof. intros Hc. rewrite REV_lxor by (done || by_decide). done. Qed.

Lemma crc32_spec build crc addr l : is_u32 crc -> Forall is_u8 l -> zlen l < 2 ^ 32 -> crc32 build crc addr (Some l) (zlen l) = Ok (crc_update crc l).
Proof.
  intros Hc Hl Hb. assert (Hc' : is_u32 (Z.lxor crc 0xffffffff)) by (apply lxor_u32; [done|by_decide]). assert (Hr : is_u32 (foldl crc_byte (Z.lxor crc 0xffffffff) l)) by (by apply crc_bytes_u32).
  assert (Hid : forall c b, is_u32 c -> is_u8 b -> DO1 (id c) b = Ok (id (crc_byte c b))) by (intros; by apply DO1_spec).
  destruct build as [|[]]; cbn [crc32].
  - unfold crc32_bytes. destruct (chunk_loop_spec id DO1 Hid DO8 8 ltac:(done) (do_bytes_spec id DO1 Hid 8) (S (Z.to_nat (zlen l / 8))) _ l Hc' Hl Hb) as (l1 & l2 & -> & E); [lia|].
    unfold id in E. rewrite E. cbn [mbind outcome_bind]. apply Forall_app in Hl as [Hl1 Hl2]. apply (crc_bytes_u32 l1) in Hc'; [|done]. rewrite <- (app_nil_r l2) at 2.
    pose proof (do_bytes_spec id DO1 Hid (Z.to_nat (zlen l2)) _ l2 [] Hc' Hl2) as Ed. unfold id in Ed. rewrite Ed by (unfold zlen; lia). cbn [mbind outcome_bind]. unfold crc_update. by rewrite foldl_app.
  - unfold crc32_little. rewrite (u32_small crc), lnot_u32 by done. assert (H4 : processes id DOLIT4 4) by (apply processes_four; intros; by apply DOLIT4_spec).
    pose proof (run_spec id DO1 Hid DOLIT32 DOLIT4 _ addr l (do_words_spec id DO1 Hid DOLIT4 4 8 ltac:(done) H4) H4 Hc' Hl Hb) as Er. unfold id in Er.
    apply bind_Ok in Er as ([[c1 buf1] len1] & -> & Er). cbn [mbind outcome_bind] in *. apply bind_Ok in Er as ([[c2 buf2] len2] & -> & Er). cbn [mbind outcome_bind] in *.
    apply bind_Ok in Er as ([[c3 buf3] len3] & -> & Er). cbn [mbind outcome_bind] in *. rewrite Er. cbn [mbind outcome_bind]. by rewrite lnot_u32.
  - unfold crc32_big. rewrite (u32_small crc), lnot_u32, REV_ones by (done || by apply REV_u32). assert (H4 : processes REV DOBIG4 4) by (apply processes_four; intros; by apply DOBIG4_spec).
    pose proof (run_spec REV step_big step_big_spec DOBIG32 DOBIG4 _ addr l (do_words_spec REV step_big step_big_spec DOBIG4 4 8 ltac:(done) H4) H4 Hc' Hl Hb) as Er.
    apply bind_Ok in Er as ([[c1 buf1] len1] & -> & Er). cbn [mbind outcome_bind] in *. apply bind_Ok in Er as ([[c2 buf2] len2] & -> & Er). cbn [mbind outcome_bind] in *.
    apply bind_Ok in Er as ([[c3 buf3] len3] & -> & Er). cbn [mbind outcome_bind] in *. rewrite Er. cbn [mbind outcome_bind].
    rewrite lnot_u32, REV_ones, REV_REV; [done| | |]; auto using REV_u32. apply lxor_u32; [done|by_decide].
Qed.

(** ** Combination *)

(** The matrix of a linear function of 32 bits. *)
Definition matrix (f : Z -> Z) : list Z := map (fun i => f (2 ^ Z.of_nat i)) (seq 0 32).

Lemma linear_0 f : linear f -> f 0 = 0.
Proof. intros Hf. pose proof (Hf 0 0) as E. by rewrite Z.lxor_nilpotent, Z.lxor_nilpotent in E. Qed.

Lemma split_bit v : 0 <= v -> v = Z.lxor (Z.land v 1) (Z.shiftl (Z.shiftr v 1) 1).
Proof.
  intros Hv. rewrite land_bit0, lxor_disjoint by (lia || destruct (Z.odd v); cbn; lia). rewrite Z.shiftr_div_pow2 by lia. change (2 ^ 1) with 2.
  pose proof (Z.div_mod v 2 ltac:(lia)) as E. rewrite Zmod_odd in E. destruct (Z.odd v); cbn [Z.b2z] in *; lia.
Qed.

Lemma gf2_times_loop_spec f (Hf : linear f) n : forall j v sum, 0 <= v < 2 ^ Z.of_nat n ->
  gf2_times_loop (map (fun i => f (2 ^ Z.of_nat i)) (seq j n)) v sum = Ok (Z.lxor sum (f (Z.shiftl v (Z.of_nat j)))).
Proof.
  induction n as [|n IH]; intros j v sum Hv; cbn [seq map gf2_times_loop]; destruct (Z.eqb_spec v 0) as [->|Hz]; try (by rewrite Z.shiftl_0_l, linear_0, Z.lxor_0_r).
  - cbn in Hv. lia.
  - rewrite Nat2Z.inj_succ, Z.pow_succ_r in Hv by lia. rewrite IH.
    + f_equal. rewrite (split_bit v) at 3 by lia. rewrite Z.shiftl_lxor, Hf, Z.shiftl_shiftl by lia. replace (1 + Z.of_nat j) with (Z.of_nat (S j)) by lia. rewrite land_bit0.
      destruct (Z.odd v); cbn [Z.b2z Z.eqb].
      * rewrite Z.shiftl_1_l. by rewrite Z.lxor_assoc.
      * rewrite Z.shiftl_0_l, (linear_0 f Hf). by rewrite Z.lxor_0_l.
    + rewrite Z.shiftr_div_pow2 by lia. change (2 ^ 1) with 2. Z.div_mod_to_equations. lia.
Qed.

Lemma gf2_matrix_times_spec f v : linear f -> is_u32 v -> gf2_matrix_times (matrix f) v = Ok (f v).
Proof. intros Hf Hv. unfold gf2_matrix_times, matrix. rewrite gf2_times_loop_spec by done. by rewrite Z.shiftl_0_r, Z.lxor_0_l. Qed.

Lemma square_loop_spec f g rows : linear f -> (forall i, is_u32 i -> is_u32 (g i)) -> Forall (fun i => (i < 32)%nat) rows ->
  square_loop (matrix f) (map (fun i => g (2 ^ Z.of_nat i)) rows) = Ok (map (fun i => f (g (2 ^ Z.of_nat i))) rows).
Proof.
  intros Hf Hg Hr. induction Hr as [|i rows Hi Hr IH]; [done|]. cbn [map square_loop]. rewrite gf2_matrix_times_spec; [|done|].
  - cbn [mbind outcome_bind]. rewrite IH. done.
  - apply Hg. unfold is_u32. split; [lia|]. apply Z.pow_lt_mono_r; lia.
Qed.

Lemma gf2_matrix_square_spec k : gf2_matrix_square (matrix (crc_bits k)) = Ok (matrix (crc_bits (k + k))).
Proof.
  unfold gf2_matrix_square. change (Z.to_nat GF2_DIM) with 32%nat. rewrite take_ge by (unfold matrix; rewrite length_map, length_seq; done).
  unfold matrix at 2. rewrite square_loop_spec; [|apply crc_bits_linear|apply crc_bits_u32|apply Forall_forall; intros i [_ Hi]%elem_of_seq; lia].
  f_equal. unfold matrix. apply map_ext. intros i. by rewrite crc_bits_add.
Qed.

Lemma zero_bit_matrix : zero_bit = matrix (crc_bits 1).
Proof. vm_compute. reflexivity. Qed.

Lemma shift_one n : 0 <= n -> n = Z.b2z (Z.odd n) + 2 * Z.shiftr n 1 /\ 0 <= Z.shiftr n 1.
Proof.
  intros Hn. rewrite Z.shiftr_div_pow2 by lia. change (2 ^ 1) with 2. pose proof (Z.div_mod n 2 ltac:(lia)) as E. rewrite Zmod_odd in E.
  split; [destruct (Z.odd n); cbn [Z.b2z]; lia|apply Z.div_pos; lia].
Qed.

(** One bit of the length: the operator is applied or not. *)
Lemma apply_bit k crc len : is_u32 crc -> (if Z.land len 1 =? 0 then Ok crc else gf2_matrix_times (matrix (crc_bits k)) crc) = Ok (crc_bits (k * Z.to_nat (Z.b2z (Z.odd len))) crc).
Proof.
  intros Hc. rewrite land_bit0. destruct (Z.odd len); cbn [Z.b2z Z.eqb].
  - rewrite gf2_matrix_times_spec by (apply crc_bits_linear || done). change (Z.to_nat 1) with 1%nat. by rewrite Nat.mul_1_r.
  - change (Z.to_nat 0) with 0%nat. by rewrite Nat.mul_0_r.
Qed.

Lemma combine_loop_spec : forall fuel k crc len, is_u32 crc -> 0 <= len < 4 ^ Z.of_nat fuel -> (0 < fuel)%nat ->
  combine_loop fuel (matrix (crc_bits k)) crc len = Ok (crc_bits (2 * k * Z.to_nat len) crc).
Proof.
  induction fuel as [|fuel IH]; intros k crc len Hc Hlen Hf; [lia|]. cbn [combine_loop]. rewrite gf2_matrix_square_spec. cbn [mbind outcome_bind].
  rewrite apply_bit by done. cbn [mbind outcome_bind]. destruct (shift_one len) as [E1 H1]; [lia|]. set (h := Z.shiftr len 1) in *.
  set (b := Z.b2z (Z.odd len)) in *. assert (0 <= b <= 1) by (unfold b; destruct (Z.odd len); cbn; lia).
  destruct (Z.eqb_spec h 0) as [E0|E0].
  { do 2 f_equal. replace (Z.to_nat len) with (Z.to_nat b) by lia. lia. }
  rewrite gf2_matrix_square_spec. cbn [mbind outcome_bind]. rewrite apply_bit by (by apply crc_bits_u32). cbn [mbind outcome_bind]. rewrite <- crc_bits_add.
  destruct (shift_one h) as [E2 H2]; [done|]. set (q := Z.shiftr h 1) in *. set (b' := Z.b2z (Z.odd h)) in *. assert (0 <= b' <= 1) by (unfold b'; destruct (Z.odd h); cbn; lia).
  assert (Z.to_nat len = Z.to_nat b + 2 * Z.to_nat b' + 4 * Z.to_nat q)%nat as -> by lia.
  destruct (Z.eqb_spec q 0) as [Eq|Eq].
  { do 2 f_equal. rewrite Eq. cbn [Z.to_nat]. lia. }
  rewrite Nat2Z.inj_succ, Z.pow_succ_r in Hlen by lia. rewrite IH; [|by apply crc_bits_u32|lia|].
  - rewrite <- crc_bits_add. do 2 f_equal. lia.
  - destruct fuel; [cbn in Hlen; lia|lia].
Qed.

(** Zero bytes after a sequence, and the checksum of a concatenation. *)
Lemma crc_bytes_bits l : forall c, foldl crc_byte c l = Z.lxor (crc_bits (8 * length l) c) (foldl crc_byte 0 l).
Proof.
  induction l as [|b l IH] using rev_ind; intros c; [cbn; by rewrite Z.lxor_0_r|]. rewrite !foldl_app. cbn [foldl]. rewrite IH. unfold crc_byte at 1 3.
  rewrite Z.lxor_assoc, crc_bits_linear. rewrite length_app. cbn [length]. replace (8 * (length l + 1))%nat with (8 * length l + 8)%nat by lia. by rewrite crc_bits_add.
Qed.

Lemma crc_concat l1 l2 : Z.lxor (crc_bits (8 * length l2) (crc_spec l1)) (crc_spec l2) = crc_spec (l1 ++ l2).
Proof.
  unfold crc_spec, crc_update. rewrite Z.lxor_0_l, foldl_app. set (m := 0xffffffff). rewrite (crc_bytes_bits l2 m), (crc_bytes_bits l2 (foldl crc_byte m l1)).
  rewrite crc_bits_linear. set (x := crc_bits _ (foldl crc_byte m l1)). set (y := crc_bits (8 * length l2) m). set (z := foldl crc_byte 0 l2).
  apply Z.bits_inj'. intros i _. rewrite !Z.lxor_spec. by destruct (Z.testbit x i), (Z.testbit y i), (Z.testbit z i), (Z.testbit m i).
Qed.

(** A negative length never becomes zero by shifting. *)
Lemma combine_loop_negative : forall fuel k crc len, is_u32 crc -> len < 0 -> combine_loop fuel (matrix (crc_bits k)) crc len = Crash OutOfFuel.
Proof.
  assert (Hneg : forall n, n < 0 -> Z.shiftr n 1 < 0) by (intros n Hn; rewrite Z.shiftr_div_pow2 by lia; change (2 ^ 1) with 2; Z.div_mod_to_equations; lia).
  induction fuel as [|fuel IH]; intros k crc len Hc Hlen; [done|]. cbn [combine_loop]. rewrite gf2_matrix_square_spec. cbn [mbind outcome_bind].
  rewrite apply_bit by done. cbn [mbind outcome_bind]. pose proof (Hneg len Hlen) as H1. rewrite (proj2 (Z.eqb_neq _ _)) by lia. rewrite gf2_matrix_square_spec. cbn [mbind outcome_bind].
  rewrite apply_bit by (by apply crc_bits_u32). cbn [mbind outcome_bind]. pose proof (Hneg _ H1) as H2. rewrite (proj2 (Z.eqb_neq _ _)) by lia. apply IH; [|done]. by do 2 apply crc_bits_u32.
Qed.

Lemma crc_spec_u32 l : Forall is_u8 l -> is_u32 (crc_spec l).
Proof. intros Hl. apply lxor_u32; [|by_decide]. apply crc_bytes_u32; [by_decide|done]. Qed.

Lemma zero_nibble : exists even, gf2_matrix_square zero_bit = Ok even /\ gf2_matrix_square even = Ok (matrix (crc_bits 4)).
Proof.
  exists (matrix (crc_bits 2)). rewrite zero_bit_matrix. split; [exact (gf2_matrix_square_spec 1)|exact (gf2_matrix_square_spec 2)].
Qed.

Lemma crc32_combine_unfold fuel crc1 crc2 len2 : len2 <> 0 ->
  crc32_combine fuel crc1 crc2 len2 = (crc ← combine_loop fuel (matrix (crc_bits 4)) crc1 len2; Ok (Z.lxor crc crc2)).
Proof.
  intros Hn. destruct zero_nibble as (even & Ee & Eo). unfold crc32_combine. rewrite (proj2 (Z.eqb_neq _ _) Hn), Ee. cbn [mbind outcome_bind]. by rewrite Eo.
Qed.

Lemma combine_rounds len crc : is_u32 crc -> 0 <= len < 2 ^ 63 -> combine_loop 32 (matrix (crc_bits 4)) crc len = Ok (crc_bits (8 * Z.to_nat len) crc).
Proof.
  intros Hc Hl. apply (combine_loop_spec 32 4); [done| |lia]. replace (4 ^ Z.of_nat 32) with (2 ^ 64) by reflexivity. lia.
Qed.

Lemma crc32_combine_spec l1 l2 : Forall is_u8 l1 -> zlen l2 < 2 ^ 63 -> crc32_combine 32 (crc_spec l1) (crc_spec l2) (zlen l2) = Ok (crc_spec (l1 ++ l2)).
Proof.
  intros Hb Hl. pose proof (zlen_nonneg l2). destruct (decide (zlen l2 = 0)) as [E0|E0].
  - assert (l2 = []) as -> by (apply nil_length_inv; unfold zlen in E0; lia). by rewrite app_nil_r.
  - rewrite crc32_combine_unfold, combine_rounds by (done || lia || by apply crc_spec_u32). cbn [mbind outcome_bind].
    rewrite <- crc_concat. unfold zlen. by rewrite Nat2Z.id.
Qed.

(** ** Properties *)

(** The tables of the header [crc32.h] are exactly those that [make_crc_table]
    computes from the terms of the polynomial. *)
Theorem crc_tables_generated : make_crc_table = Ok crc_table.
Proof. vm_compute. reflexivity. Qed.

(** C35: [crc32] continued over a buffer of any length and alignment returns the
    checksum that the one-bit shift register gives for all bytes, in the build that
    works byte by byte and in those that work on words of either byte order; no table
    and no byte outside of the buffer is read, and cutting the data into buffers does
    not matter.  A null buffer gives the initial value. *)
Theorem crc32_exact (build : crc_build) (addr : Z) (l1 l2 : list Z) (Hb : Forall is_u8 (l1 ++ l2)) (Hl : zlen l2 < 2 ^ 32) :
  crc32 build (crc_spec l1) addr (Some l2) (zlen l2) = Ok (crc_spec (l1 ++ l2)) /\ crc32 build (crc_spec l1) addr None (zlen l2) = Ok (crc_spec []).
Proof.
  apply Forall_app in Hb as [Hb1 Hb2]. split; [|done]. rewrite crc32_spec by (done || by apply crc_spec_u32). f_equal. unfold crc_spec, crc_update.
  rewrite Z.lxor_assoc, Z.lxor_nilpotent, Z.lxor_0_r, foldl_app. done.
Qed.

Lemma crc32_exact_witness : crc32 (ByFour false) (crc_spec [49; 50]) 3 (Some [51; 52; 53; 54; 55; 56; 57]) 7 = Ok 0xcbf43926.
Proof.
  refine (eq_trans (proj1 (crc32_exact (ByFour false) 3 [49; 50] [51; 52; 53; 54; 55; 56; 57] _ _)) _); [by_decide|vm_compute; reflexivity|vm_compute; reflexivity].
Defined.

(** C36: [crc32_combine] of the checksums of two buffers is the checksum of their
    concatenation, with 32 rounds of its loop for every length of 64 bits; with a
    negative length the loop never ends. *)
Theorem crc32_combine_exact (l1 l2 : list Z) (Hb : Forall is_u8 l1) (Hl : zlen l2 < 2 ^ 63) :
  crc32_combine 32 (crc_spec l1) (crc_spec l2) (zlen l2) = Ok (crc_spec (l1 ++ l2)) /\
  (forall fuel crc2 len2, len2 < 0 -> crc32_combine fuel (crc_spec l1) crc2 len2 = Crash OutOfFuel).
Proof.
  split; [by apply crc32_combine_spec|]. intros fuel crc2 len2 Hneg. rewrite crc32_combine_unfold by lia.
  rewrite combine_loop_negative; [done|by apply crc_spec_u32|done].
Qed.

Lemma crc32_combine_exact_witness : crc32_combine 32 (crc_spec [1; 2; 3]) (crc_spec [4; 5]) 2 = Ok (crc_spec [1; 2; 3; 4; 5]).
Proof. refine (proj1 (crc32_combine_exact [1; 2; 3] [4; 5] _ _)); [by_decide|vm_compute; reflexivity]. Defined.
