(* ===== verification/Inftrees.v ===== *)
(** * Huffman decoding tables of zlib (3rd/zip/inftrees.c, inftrees.h)

    [inflate_table] turns the code lengths of a deflate block into the decoding
    table that [inflate] indexes with the low bits of its input.  This file
    holds its definitions, loop by loop:

    - the length counts, the longest and shortest length, the check for an
      over-subscribed or incomplete set of lengths, the counting sort of the
      symbols into [work];
    - the main loop, one [table_step] per coded symbol: the entry, its copies
      at all indices that end in the code, the backwards increment of the
      code, the next length, and the sub-table that starts when the low [root]
      bits of the code change;
    - the loop that marks the rest of the table invalid.

    The array [*table] points into is the list of its entries, and pointers
    into it are indices; an access outside of an array crashes.  [unsigned]
    values wrap at 32 bits; [left] is an [int] that never leaves
    [- 2 ^ 16, 2 ^ 15] and is kept without wrapping. *)

From S2P Require Import Prelude.

(** ** Data *)

(** [code]: an entry of a decoding table. *)
Record code := mkCode { c_op : Z; c_bits : Z; c_val : Z }.

(** [codetype] *)
Inductive codetype := CODES | LENS | DISTS.

#[export] Instance code_eq_dec : EqDecision code.
Proof. solve_decision. Defined.
#[export] Instance codetype_eq_dec : EqDecision codetype.
Proof. solve_decision. Defined.

Definition MAXBITS : Z := 15.
Definition ENOUGH : Z := 2048.
Definition MAXD : Z := 592.

(** [lbase], [lext]: length codes 257..285; [dbase], [dext]: distance codes 0..29. *)
Definition lbase : list Z :=
  [3; 4; 5; 6; 7; 8; 9; 10; 11; 13; 15; 17; 19; 23; 27; 31;
   35; 43; 51; 59; 67; 83; 99; 115; 131; 163; 195; 227; 258; 0; 0].
Definition lext : list Z :=
  [16; 16; 16; 16; 16; 16; 16; 16; 17; 17; 17; 17; 18; 18; 18; 18;
   19; 19; 19; 19; 20; 20; 20; 20; 21; 21; 21; 21; 16; 201; 196].
Definition dbase : list Z :=
  [1; 2; 3; 4; 5; 7; 9; 13; 17; 25; 33; 49; 65; 97; 129; 193;
   257; 385; 513; 769; 1025; 1537; 2049; 3073; 4097; 6145;
   8193; 12289; 16385; 24577; 0; 0].
Definition dext : list Z :=
  [16; 16; 16; 16; 17; 17; 18; 18; 19; 19; 20; 20; 21; 21; 22; 22;
   23; 23; 24; 24; 25; 25; 26; 26; 27; 27;
   28; 28; 29; 29; 64; 64].

(** What a call leaves: its return value, the table, how far [*table] moved,
    [*bits] and [work]. *)
Record table_result := mkResult {
  res_ret : Z; res_table : list code; res_used : Z; res_bits : Z; res_work : list Z }.

(** ** Code lengths *)

(** [for (sym = 0; sym < codes; sym++) count[lens[sym]]++;] *)
Fixpoint count_lengths (lens : list Z) (syms : list Z) (count : list Z) : outcome (list Z) :=
  match syms with
  | [] => Ok count
  | sym :: syms =>
      l ← elem_at lens sym;
      c ← elem_at count l;
      count ← elem_set count l (u16 (c + 1));
      count_lengths lens syms count
  end.

(** [for (max = MAXBITS; max >= 1; max--) if (count[max] != 0) break;] *)
Fixpoint find_max (max : nat) (count : list Z) : outcome Z :=
  match max with
  | O => Ok 0
  | S m => c ← elem_at count (Z.of_nat max); if c =? 0 then find_max m count else Ok (Z.of_nat max)
  end.

(** [for (min = 1; min <= MAXBITS; min++) if (count[min] != 0) break;] *)
Fixpoint find_min (mins : list Z) (count : list Z) : outcome Z :=
  match mins with
  | [] => Ok (MAXBITS + 1)
  | min :: mins => c ← elem_at count min; if c =? 0 then find_min mins count else Ok min
  end.

(** The check of the lengths: [None] when they are over-subscribed, otherwise
    the number of unused codes of 15 bits. *)
Fixpoint check_left (ls : list Z) (count : list Z) (left : Z) : outcome (option Z) :=
  match ls with
  | [] => Ok (Some left)
  | len :: ls =>
      c ← elem_at count len;
      let left := Z.shiftl left 1 - c in
      if left <? 0 then Ok None else check_left ls count left
  end.

(** [for (len = 1; len < MAXBITS; len++) offs[len + 1] = offs[len] + count[len];] *)
Fixpoint make_offs (ls : list Z) (count offs : list Z) : outcome (list Z) :=
  match ls with
  | [] => Ok offs
  | len :: ls =>
      o ← elem_at offs len;
      c ← elem_at count len;
      offs ← elem_set offs (len + 1) (u16 (o + c));
      make_offs ls count offs
  end.

(** [if (lens[sym] != 0) work[offs[lens[sym]]++] = (unsigned short)sym;] for all symbols *)
Fixpoint sort_symbols (lens : list Z) (syms : list Z) (offs work : list Z) : outcome (list Z) :=
  match syms with
  | [] => Ok work
  | sym :: syms =>
      l ← elem_at lens sym;
      if l =? 0 then sort_symbols lens syms offs work
      else
        o ← elem_at offs l;
        work ← elem_set work o (u16 sym);
        offs ← elem_set offs l (u16 (o + 1));
        sort_symbols lens syms offs work
  end.

(** ** Table entries *)

(** [base], [extra] and [end] for a code type: the array, and what is
    subtracted from an index of it. *)
Definition base_of (type : codetype) (work : list Z) : list Z * Z :=
  match type with CODES => (work, 0) | LENS => (lbase, 257) | DISTS => (dbase, 0) end.
Definition extra_of (type : codetype) (work : list Z) : list Z * Z :=
  match type with CODES => (work, 0) | LENS => (lext, 257) | DISTS => (dext, 0) end.
Definition end_of (type : codetype) : Z :=
  match type with CODES => 19 | LENS => 256 | DISTS => -1 end.

(** The entry [this] for a symbol. *)
Definition make_entry (type : codetype) (work : list Z) (sym bits : Z) : outcome code :=
  w ← elem_at work sym;
  if w <? end_of type then Ok (mkCode 0 (u8 bits) w)
  else if end_of type <? w then
    e ← elem_at (extra_of type work).1 (w - (extra_of type work).2);
    b ← elem_at (base_of type work).1 (w - (base_of type work).2);
    Ok (mkCode (u8 e) (u8 bits) b)
  else Ok (mkCode (32 + 64) (u8 bits) 0).

(** [1U << n] *)
Definition shl1 (n : Z) : Z := u32 (Z.shiftl 1 n).

(** [do { fill -= incr; next[(huff >> drop) + fill] = this; } while (fill != 0);] *)
Fixpoint replicate_entry (fuel : nat) (table : list code) (at_ fill incr : Z) (this : code) : outcome (list code) :=
  match fuel with
  | O => Crash OutOfFuel
  | S fuel =>
      let fill := u32 (fill - incr) in
      table ← elem_set table (at_ + fill) this;
      if fill =? 0 then Ok table else replicate_entry fuel table at_ fill incr this
  end.

(** [while (huff & incr) incr >>= 1;] *)
Fixpoint find_incr (fuel : nat) (huff incr : Z) : outcome Z :=
  match fuel with
  | O => Crash OutOfFuel
  | S fuel => if Z.land huff incr =? 0 then Ok incr else find_incr fuel huff (Z.shiftr incr 1)
  end.

(** The backwards increment of the [len]-bit code [huff]. *)
Definition backwards_incr (len huff : Z) : outcome Z :=
  incr ← find_incr 33 huff (shl1 (len - 1));
  if negb (incr =? 0) then Ok (u32 (Z.land huff (u32 (incr - 1)) + incr)) else Ok 0.

(** [while (curr + drop < max) { left -= count[curr + drop]; if (left <= 0) break; curr++; left <<= 1; }] *)
Fixpoint subtable_bits (fuel : nat) (count : list Z) (max drop curr left : Z) : outcome Z :=
  match fuel with
  | O => Crash OutOfFuel
  | S fuel =>
      if curr + drop <? max then
        c ← elem_at count (curr + drop);
        let left := left - c in
        if left <=? 0 then Ok curr
        else subtable_bits fuel count max drop (curr + 1) (Z.shiftl left 1)
      else Ok curr
  end.

(** ** The main loop *)

(** The locals of the loop. *)
Record fill_state := mkFill {
  f_table : list code; f_count : list Z; f_huff : Z; f_sym : Z; f_len : Z; f_next : Z;
  f_curr : Z; f_drop : Z; f_low : Z; f_used : Z; f_min : Z }.

#[export] Instance eta_fill : Eta fill_state := fun s =>
  mkFill (f_table s) (f_count s) (f_huff s) (f_sym s) (f_len s) (f_next s)
    (f_curr s) (f_drop s) (f_low s) (f_used s) (f_min s).

(** How an iteration ends: in the next one, with [break], or with [return 1]. *)
Inductive fill_exit :=
| Goes (s : fill_state)
| Breaks (s : fill_state)
| NotEnough (s : fill_state).

(** Create the entry of the current code, replicate it, and increment the code. *)
Definition enter_code (type : codetype) (work : list Z) (s : fill_state) : outcome fill_state :=
  this ← make_entry type work (f_sym s) (u32 (f_len s - f_drop s));
  let fill := shl1 (f_curr s) in
  table ← replicate_entry (S (Z.to_nat fill)) (f_table s) (f_next s + Z.shiftr (f_huff s) (f_drop s))
            fill (shl1 (u32 (f_len s - f_drop s))) this;
  huff ← backwards_incr (f_len s) (f_huff s);
  Ok (s <| f_table := table |> <| f_min := fill |> <| f_huff := huff |>).

(** Create a new sub-table. *)
Definition new_subtable (type : codetype) (root max mask : Z) (s : fill_state) : outcome fill_exit :=
  let drop := if f_drop s =? 0 then root else f_drop s in
  let next := f_next s + f_min s in
  let curr0 := u32 (f_len s - drop) in
  curr ← subtable_bits (S (Z.to_nat max)) (f_count s) max drop curr0 (Z.shiftl 1 curr0);
  let used := u32 (f_used s + shl1 curr) in
  let s := s <| f_drop := drop |> <| f_next := next |> <| f_curr := curr |> <| f_used := used |> in
  if bool_decide (type = LENS) && (ENOUGH - MAXD <=? used) then Ok (NotEnough s)
  else
    let low := Z.land (f_huff s) mask in
    table ← elem_set (f_table s) low (mkCode (u8 curr) (u8 root) (u16 next));
    Ok (Goes (s <| f_low := low |> <| f_table := table |>)).

(** One iteration of [for (;;)]. *)
Definition table_step (type : codetype) (lens work : list Z) (root max mask : Z) (s : fill_state) : outcome fill_exit :=
  s ← enter_code type work s;
  let sym := f_sym s + 1 in
  c ← elem_at (f_count s) (f_len s);
  let c := u16 (c - 1) in
  count ← elem_set (f_count s) (f_len s) c;
  let s := s <| f_sym := sym |> <| f_count := count |> in
  if (c =? 0) && (f_len s =? max) then Ok (Breaks s)
  else
    len ← (if c =? 0 then w ← elem_at work sym; elem_at lens w else Ok (f_len s));
    let s := s <| f_len := len |> in
    if (root <? len) && negb (Z.land (f_huff s) mask =? f_low s)
    then new_subtable type root max mask s
    else Ok (Goes s).

(** The loop; [inr] is [return 1]. *)
Fixpoint table_loop (fuel : nat) (type : codetype) (lens work : list Z) (root max mask : Z) (s : fill_state) : outcome (fill_state + fill_state) :=
  match fuel with
  | O => Crash OutOfFuel
  | S fuel =>
      e ← table_step type lens work root max mask s;
      match e with
      | Goes s => table_loop fuel type lens work root max mask s
      | Breaks s => Ok (inl s)
      | NotEnough s => Ok (inr s)
      end
  end.

(** ** The rest of the table *)

(** [while (huff != 0) { ... }] with [this] an invalid code marker of [tbits] bits *)
Fixpoint fill_rest (fuel : nat) (table : list code) (huff len next drop low mask root tbits : Z) : outcome (list code) :=
  match fuel with
  | O => Crash OutOfFuel
  | S fuel =>
      if huff =? 0 then Ok table
      else
        let back := negb (drop =? 0) && negb (Z.land huff mask =? low) in
        let drop := if back then 0 else drop in
        let len := if back then root else len in
        let next := if back then 0 else next in
        let tbits := if back then u8 root else tbits in
        table ← elem_set table (next + Z.shiftr huff drop) (mkCode 64 tbits 0);
        huff ← backwards_incr len huff;
        fill_rest fuel table huff len next drop low mask root tbits
  end.

(** ** The whole function *)

(** From the sorted symbols to the return. *)
Definition build_table (type : codetype) (lens work : list Z) (table : list code) (bits root min max : Z) (count : list Z) : outcome table_result :=
  let used := shl1 root in
  let mask := u32 (used - 1) in
  if bool_decide (type = LENS) && (ENOUGH - MAXD <=? used) then Ok (mkResult 1 table 0 bits work)
  else
    r ← table_loop (S (length work)) type lens work root max mask
          (mkFill table count 0 0 min 0 root 0 (u32 (-1)) used min);
    match r with
    | inr s => Ok (mkResult 1 (f_table s) 0 bits work)
    | inl s =>
        table ← fill_rest (S (Z.to_nat (2 ^ MAXBITS))) (f_table s) (f_huff s) (f_len s) (f_next s)
                  (f_drop s) (f_low s) mask root (u8 (f_len s - f_drop s));
        Ok (mkResult 0 table (f_used s) root work)
    end.

Definition inflate_table (type : codetype) (lens : list Z) (codes : Z) (table : list code) (bits : Z) (work : list Z) : outcome table_result :=
  count ← count_lengths lens (seqZ 0 codes) (replicate 16 0);
  max ← find_max 15 count;
  let root := if max <? bits then max else bits in
  if max =? 0 then
    let this := mkCode 64 1 0 in
    table ← elem_set table 0 this;
    table ← elem_set table 1 this;
    Ok (mkResult 0 table 2 1 work)
  else
    min ← find_min (seqZ 1 15) count;
    let root := if root <? min then min else root in
    checked ← check_left (seqZ 1 15) count 1;
    match checked with
    | None => Ok (mkResult (-1) table 0 bits work)
    | Some unused =>
        if (0 <? unused) && (bool_decide (type = CODES) || negb (max =? 1))
        then Ok (mkResult (-1) table 0 bits work)
        else
          offs ← make_offs (seqZ 1 14) count (replicate 16 0);
          work ← sort_symbols lens (seqZ 0 codes) offs work;
          build_table type lens work table bits root min max count
    end.

(** The table of a small code: lengths 2, 1, 3, 3. *)
Example inflate_table_small :
  inflate_table CODES [2; 1; 3; 3] 4 (replicate 8 (mkCode 0 0 0)) 2 (replicate 4 0) =
  Ok (mkResult 0 [mkCode 0 1 1; mkCode 0 2 0; mkCode 0 1 1; mkCode 1 2 4; mkCode 0 1 2; mkCode 0 1 3; mkCode 0 0 0; mkCode 0 0 0] 6 2 [1; 0; 2; 3]).
Proof. vm_compute. reflexivity. Qed.
