(* ===== verification/BitRev.v ===== *)
(** * Bit reversal

    Deflate stores Huffman codes with their first bit in the lowest place.
    [brev n x] is the number whose [n] bits are the low [n] bits of [x] in
    reverse order.  The lemmas relate it to quotients and remainders of powers
    of two: a code of [l] bits that starts at position [c * 2 ^ (m - l)] of the
    [m]-bit codes is [brev l c], and an input [h] begins with that code exactly
    when [brev m h] lies between the positions of [c] and [c + 1]. *)

From S2P Require Import Prelude Inftrees.

Fixpoint bitrev (n : nat) (x : Z) : Z :=
  match n with
  | O => 0
  | S n => 2 ^ Z.of_nat n * (x `mod` 2) + bitrev n (x `div` 2)
  end.

Definition brev (n x : Z) : Z := bitrev (Z.to_nat n) x.

(** ** Powers of two *)

Lemma pow2_pos n : 0 <= n -> 0 < 2 ^ n.
Proof. intros. apply Z.pow_pos_nonneg; lia. Qed.

Lemma pow2_succ n : 0 <= n -> 2 ^ (n + 1) = 2 * 2 ^ n.
Proof. intros. rewrite Z.pow_add_r by lia. lia. Qed.

Lemma pow2_split m l : 0 <= l <= m -> 2 ^ m = 2 ^ l * 2 ^ (m - l).
Proof. intros. rewrite <- Z.pow_add_r by lia. f_equal. lia. Qed.

Lemma pow2_mono a b : 0 <= a <= b -> 2 ^ a <= 2 ^ b.
Proof. intros. apply Z.pow_le_mono_r; lia. Qed.

#[export] Hint Resolve pow2_pos pow2_mono : zarith.

Lemma mod_split x a b : 0 < a -> 0 < b -> x `mod` (a * b) = x `mod` a + a * ((x `div` a) `mod` b).
Proof. intros. apply Z.rem_mul_r; lia. Qed.

Lemma mod_mod_pow2 x a b : 0 <= a <= b -> (x `mod` 2 ^ b) `mod` 2 ^ a = x `mod` 2 ^ a.
Proof.
  intros H. rewrite (pow2_split b a) by lia. rewrite mod_split by (apply pow2_pos; lia).
  rewrite Z.mul_comm, Z.mod_add by (pose proof (pow2_pos a); lia). apply Z.mod_mod. pose proof (pow2_pos a); lia.
Qed.

Lemma div_mod_pow2 x a b : 0 <= a -> 0 <= b -> (x `mod` 2 ^ (a + b)) `div` 2 ^ a = (x `div` 2 ^ a) `mod` 2 ^ b.
Proof.
  intros Ha Hb. pose proof (pow2_pos a Ha). pose proof (pow2_pos b Hb). rewrite Z.pow_add_r by lia. rewrite mod_split by lia.
  rewrite Z.mul_comm, Z.div_add by lia. rewrite Z.div_small; [lia|apply Z.mod_pos_bound; lia].
Qed.

(** ** Reversal of a number of bits *)

Lemma brev_0 x : brev 0 x = 0.
Proof. reflexivity. Qed.

Lemma brev_succ n x : 0 <= n -> brev (n + 1) x = 2 ^ n * (x `mod` 2) + brev n (x `div` 2).
Proof.
  intros Hn. unfold brev. replace (Z.to_nat (n + 1)) with (S (Z.to_nat n)) by lia. simpl. by rewrite Z2Nat.id by lia.
Qed.

(** Induction on the number of bits. *)
Lemma bits_ind (P : Z -> Prop) : P 0 -> (forall n, 0 <= n -> P n -> P (n + 1)) -> forall n, 0 <= n -> P n.
Proof. intros H0 HS n Hn. revert n Hn. apply natlike_ind; [done|]. intros n Hn. rewrite <- Z.add_1_r. auto. Qed.

Lemma brev_range n x : 0 <= n -> 0 <= brev n x < 2 ^ n.
Proof.
  intros Hn. revert x. pattern n. apply bits_ind; [intros x; rewrite brev_0; simpl; lia| |done]. clear n Hn. intros n Hn IH x.
  rewrite brev_succ, pow2_succ by done. specialize (IH (x `div` 2)). pose proof (Z.mod_pos_bound x 2). nia.
Qed.

Lemma brev_split m n x : 0 <= m -> 0 <= n -> brev (m + n) x = 2 ^ n * brev m x + brev n (x `div` 2 ^ m).
Proof.
  intros Hm Hn. revert x. pattern m. apply bits_ind; [intros x; rewrite brev_0, Z.div_1_r; replace (0 + n) with n; lia| |done].
  clear m Hm. intros m Hm IH x. replace (m + 1 + n) with (m + n + 1) by lia. rewrite !brev_succ, IH, pow2_succ by lia.
  rewrite Z.div_div by (pose proof (pow2_pos m); lia). rewrite Z.pow_add_r by lia. lia.
Qed.

Lemma brev_mod n x : 0 <= n -> brev n (x `mod` 2 ^ n) = brev n x.
Proof.
  intros Hn. revert x. pattern n. apply bits_ind; [done| |done]. clear n Hn. intros n Hn IH x.
  rewrite !brev_succ by done. pose proof (pow2_pos n Hn). f_equal.
  - f_equal. exact (mod_mod_pow2 x 1 (n + 1) ltac:(lia)).
  - rewrite <- (IH (x `div` 2)). rewrite <- (IH (_ `div` _)). f_equal. replace (n + 1) with (1 + n) by lia.
    pose proof (div_mod_pow2 x 1 n ltac:(lia) Hn) as E. change (2 ^ 1) with 2 in E. rewrite E. apply Z.mod_mod. lia.
Qed.

Lemma brev_low n a b : 0 <= n -> brev n (a + 2 ^ n * b) = brev n a.
Proof.
  intros Hn. rewrite <- (brev_mod n (a + _)), <- (brev_mod n a) by done. f_equal. rewrite Z.mul_comm. apply Z.mod_add.
  pose proof (pow2_pos n); lia.
Qed.

Lemma brev_zero n : 0 <= n -> brev n 0 = 0.
Proof. intros Hn. pattern n. apply bits_ind; [done| |done]. intros k Hk IH. rewrite brev_succ by done. change (0 `mod` 2) with 0. change (0 `div` 2) with 0. lia. Qed.

Lemma brev_brev n x : 0 <= n -> brev n (brev n x) = x `mod` 2 ^ n.
Proof.
  intros Hn. revert x. pattern n. apply bits_ind; [intros x; by rewrite Z.mod_1_r| |done]. clear n Hn. intros n Hn IH x.
  rewrite (brev_succ n x) by done. pose proof (pow2_pos n Hn). pose proof (brev_range n (x `div` 2) Hn).
  replace (2 ^ n * (x `mod` 2) + brev n (x `div` 2)) with (brev n (x `div` 2) + 2 ^ n * (x `mod` 2)) by lia.
  rewrite brev_split by lia. rewrite brev_low, IH by done.
  rewrite (Z.mul_comm (2 ^ n) (x `mod` 2)), Z.div_add by lia. rewrite (Z.div_small (brev n (x `div` 2))) by lia.
  replace (n + 1) with (1 + n) by lia. rewrite Z.pow_add_r, mod_split by lia. change (2 ^ 1) with 2.
  unfold brev. simpl. pose proof (Z.mod_pos_bound x 2). rewrite (Z.mod_small (0 + x `mod` 2)) by lia. lia.
Qed.

Lemma brev_involutive n x : 0 <= n -> 0 <= x < 2 ^ n -> brev n (brev n x) = x.
Proof. intros. rewrite brev_brev by done. by apply Z.mod_small. Qed.

(** The position of the code [c] of [l] bits among the [m]-bit codes, reversed. *)
Lemma brev_shift m l c : 0 <= l <= m -> brev m (c * 2 ^ (m - l)) = brev l c.
Proof.
  intros H. replace m with ((m - l) + l) at 1 by lia. rewrite brev_split by lia. pose proof (pow2_pos (m - l)).
  rewrite Z.div_mul by lia. replace (c * 2 ^ (m - l)) with (0 + 2 ^ (m - l) * c) by lia. rewrite brev_low, brev_zero by lia. lia.
Qed.

(** The low [r] bits of a reversed number are its high bits, reversed. *)
Lemma brev_mod_low m r x : 0 <= r <= m -> brev m x `mod` 2 ^ r = brev r (x `div` 2 ^ (m - r)).
Proof.
  intros H. replace m with ((m - r) + r) at 1 by lia. rewrite brev_split by lia. pose proof (pow2_pos r).
  rewrite Z.add_comm, Z.mul_comm, Z.mod_add by lia. apply Z.mod_small, brev_range. lia.
Qed.

Lemma brev_div_high m r x : 0 <= r <= m -> brev m x `div` 2 ^ (m - r) = brev r x.
Proof.
  intros H. replace m with (r + (m - r)) at 1 by lia. rewrite brev_split by lia. pose proof (pow2_pos (m - r)).
  rewrite Z.add_comm, Z.mul_comm, Z.div_add by lia. rewrite Z.div_small; [lia|]. apply brev_range. lia.
Qed.

(** An input begins with a code when its position is among those of the code. *)
Lemma starts_with_code m l c h : 0 <= l <= m -> 0 <= c < 2 ^ l ->
  h `mod` 2 ^ l = brev l c <-> c * 2 ^ (m - l) <= brev m h < (c + 1) * 2 ^ (m - l).
Proof.
  intros H Hc. assert (Heq : h `mod` 2 ^ l = brev l c <-> brev l h = c).
  { split; intros E.
    - rewrite <- brev_mod, E by lia. apply brev_involutive; lia.
    - rewrite <- E, brev_brev by lia. done. }
  rewrite Heq, <- (brev_div_high m l h) by lia. pose proof (pow2_pos (m - l)). split; intros E.
  - pose proof (Z.div_mod (brev m h) (2 ^ (m - l))). pose proof (Z.mod_pos_bound (brev m h) (2 ^ (m - l))). nia.
  - symmetry. apply Z.div_unique_pos with (brev m h - c * 2 ^ (m - l)); nia.
Qed.

(** ** The backwards increment *)

Lemma land_pow2 h n : 0 <= n -> (Z.land h (2 ^ n) =? 0) = ((h `div` 2 ^ n) `mod` 2 =? 0).
Proof.
  intros Hn. rewrite <- Z.testbit_spec' by done.
  destruct (Z.testbit h n) eqn:E; simpl.
  - apply Z.eqb_neq. intros H0. assert (Z.testbit (Z.land h (2 ^ n)) n = true) by (rewrite Z.land_spec, E, Z.pow2_bits_true; done).
    rewrite H0, Z.bits_0 in *. done.
  - apply Z.eqb_eq. apply Z.bits_inj_0. intros i. rewrite Z.land_spec. destruct (decide (i = n)) as [->|Hi]; [by rewrite E|].
    rewrite Z.pow2_bits_false by lia. apply andb_false_r.
Qed.

Lemma land_mask h n : 0 <= n -> Z.land h (2 ^ n - 1) = h `mod` 2 ^ n.
Proof. intros. rewrite <- Z.land_ones, Z.ones_equiv by done. done. Qed.

(** The search for the highest clear bit of the code, from its bit [n - 1]. *)
Lemma find_incr_spec n : 0 <= n -> forall fuel h c, n < Z.of_nat fuel -> 0 <= c < 2 ^ n -> h `mod` 2 ^ n = brev n c ->
  (c + 1 = 2 ^ n /\ find_incr fuel h (2 ^ n `div` 2) = Ok 0)
  \/ exists j, 0 <= j < n /\ find_incr fuel h (2 ^ n `div` 2) = Ok (2 ^ j) /\ c + 1 < 2 ^ n /\ h `mod` 2 ^ j + 2 ^ j = brev n (c + 1).
Proof.
  intros Hn. pattern n. apply bits_ind; [| |done]; clear n Hn.
  - intros [|fuel] h c Hf Hc Hh; [lia|]. left. split; [simpl in *; lia|]. simpl. rewrite Z.land_0_r. done.
  - intros n Hn IH [|fuel] h c Hf Hc Hh; [lia|]. rewrite pow2_succ in * by done. pose proof (pow2_pos n Hn).
    assert (Hhalf : (2 * 2 ^ n) `div` 2 = 2 ^ n) by (rewrite Z.mul_comm, Z.div_mul; lia).
    simpl find_incr. rewrite Hhalf, land_pow2 by done.
    assert (Hlow : h `mod` 2 ^ n = brev n (c `div` 2) /\ (h `div` 2 ^ n) `mod` 2 = c `mod` 2).
    { rewrite (Z.mul_comm 2 (2 ^ n)), mod_split in Hh by lia. rewrite brev_succ in Hh by done.
      pose proof (Z.mod_pos_bound h (2 ^ n)). pose proof (brev_range n (c `div` 2)). pose proof (Z.mod_pos_bound c 2).
      pose proof (Z.mod_pos_bound (h `div` 2 ^ n) 2).
      assert ((h `div` 2 ^ n) `mod` 2 = 0 \/ (h `div` 2 ^ n) `mod` 2 = 1) as [E1|E1] by lia;
      assert (c `mod` 2 = 0 \/ c `mod` 2 = 1) as [E2|E2] by lia; rewrite E1, E2 in *; lia. }
    destruct Hlow as [Hlow Hbit]. rewrite Hbit. destruct (Z.eqb_spec (c `mod` 2) 0) as [Heven|Hodd].
    + right. exists n. split; [lia|]. split; [done|]. pose proof (Z.div_mod c 2).
      assert (Hd : (c + 1) `div` 2 = c `div` 2) by (Z.div_mod_to_equations; lia).
      assert (Hm : (c + 1) `mod` 2 = 1) by (Z.div_mod_to_equations; lia).
      split; [assert (2 ^ n = 1 \/ 2 ^ n `mod` 2 = 0) as [?|?]|rewrite brev_succ, Hd, Hm by done; lia].
      * destruct (Z.eq_dec n 0) as [->|]; [by left|right]. rewrite (pow2_split n 1) by lia. rewrite Z.mul_comm. apply Z.mod_mul. lia.
      * lia.
      * Z.div_mod_to_equations. lia.
    + rewrite Z.shiftr_div_pow2 by lia. change (2 ^ 1) with 2.
      assert (Hd : (c + 1) `div` 2 = c `div` 2 + 1) by (Z.div_mod_to_equations; lia).
      assert (Hm : (c + 1) `mod` 2 = 0) by (Z.div_mod_to_equations; lia).
      destruct (IH fuel h (c `div` 2)) as [[Hc' Hf']|(j & Hj & Hf' & Hc' & Hv)]; [lia|Z.div_mod_to_equations; lia|done| |].
      * left. split; [Z.div_mod_to_equations; lia|done].
      * right. exists j. split; [lia|]. split; [done|]. split; [Z.div_mod_to_equations; lia|].
        rewrite brev_succ, Hd, Hm by done. lia.
Qed.

Lemma shl1_pow2 n : 0 <= n < 32 -> shl1 n = 2 ^ n.
Proof.
  intros Hn. unfold shl1. rewrite Z.shiftl_1_l. apply u32_small. split; [pose proof (pow2_pos n); lia|]. apply Z.pow_lt_mono_r; lia.
Qed.

(** Incrementing a reversed code backwards gives the next code, or zero after the last. *)
Lemma backwards_incr_brev l c : 1 <= l <= 32 -> 0 <= c < 2 ^ l ->
  backwards_incr l (brev l c) = Ok (if c + 1 =? 2 ^ l then 0 else brev l (c + 1)).
Proof.
  intros Hl Hc. unfold backwards_incr. rewrite shl1_pow2 by lia.
  replace (2 ^ (l - 1)) with (2 ^ l `div` 2) by (rewrite (pow2_split l 1), Z.mul_comm, Z.div_mul by lia; done).
  pose proof (brev_range l c ltac:(lia)) as Hr. assert (H32 : 2 ^ l <= 2 ^ 32) by (apply pow2_mono; lia).
  destruct (find_incr_spec l ltac:(lia) 33 (brev l c) c) as [[Hend ->]|(j & Hj & -> & Hlt & Hv)]; [lia|done|by apply Z.mod_small| |].
  - simpl. rewrite (proj2 (Z.eqb_eq _ _)) by done. done.
  - cbn [mbind outcome_bind]. pose proof (pow2_pos j ltac:(lia)).
    rewrite (proj2 (Z.eqb_neq (c + 1) _)) by lia. rewrite (proj2 (Z.eqb_neq (2 ^ j) _)) by lia. simpl negb. cbv iota.
    assert (2 ^ j < 2 ^ 32) by (apply Z.pow_lt_mono_r; lia).
    rewrite (u32_small (2 ^ j - 1)) by (unfold is_u32; lia). rewrite land_mask by lia. rewrite Hv. f_equal. apply u32_small.
    pose proof (brev_range l (c + 1) ltac:(lia)). unfold is_u32. lia.
Qed.
