(* ===== verification/Canon.v ===== *)
(** * Canonical codes

    The arithmetic of a canonical Huffman code given by the sorted list of its
    code lengths: [ksum m ls] is the number of [m]-bit words the codes take,
    [cpos m ls k] the first word of code [k].  Codes of the same prefix of [r]
    bits form a block that ends at an index of its own ([block_end]); the
    number of codes in a block bounds its depth ([ksum_length]), which is what
    the size of a decoding table depends on. *)

From S2P Require Import Prelude Inftrees BitRev.

(** The number of [m]-bit words that begin with one of the codes. *)
Definition ksum (m : Z) (ls : list Z) : Z := foldr (fun l a => 2 ^ (m - l) + a) 0 ls.
Definition cpos (m : Z) (ls : list Z) (k : nat) : Z := ksum m (take k ls).

(** The number of codes of length [l]. *)
Definition occ (l : Z) (ls : list Z) : Z := zlen (filter (fun x => x = l) ls).

Abbreviation lens_in a m := (Forall (fun l => a <= l <= m)).

Lemma lens_lookup a m (ls : list Z) k l : lens_in a m ls -> ls !! k = Some l -> a <= l <= m.
Proof. intros H Hk. exact (Forall_lookup_1 _ _ _ _ H Hk). Qed.

(** ** Sums *)

Lemma ksum_cons m l ls : ksum m (l :: ls) = 2 ^ (m - l) + ksum m ls.
Proof. reflexivity. Qed.

Lemma ksum_app m a b : ksum m (a ++ b) = ksum m a + ksum m b.
Proof. induction a as [|x a IH]; simpl; [done|]. rewrite IH. lia. Qed.

Lemma ksum_pos m a ls : lens_in a m ls -> 0 <= ksum m ls /\ (ls <> [] -> 0 < ksum m ls).
Proof.
  induction 1 as [|x ls Hx _ [IH _]]; [done|]. simpl. pose proof (pow2_pos (m - x) ltac:(lia)). split; intros; lia.
Qed.

Lemma ksum_nonneg m a ls : lens_in a m ls -> 0 <= ksum m ls.
Proof. intros. by eapply (ksum_pos m a). Qed.

Lemma ksum_scale m m' a ls : lens_in a m ls -> m <= m' -> ksum m' ls = 2 ^ (m' - m) * ksum m ls.
Proof.
  intros H Hm. induction H as [|x ls Hx _ IH]; simpl; [lia|]. rewrite IH.
  replace (m' - x) with ((m' - m) + (m - x)) by lia. rewrite Z.pow_add_r by lia. lia.
Qed.

Lemma cpos_0 m ls : cpos m ls 0 = 0.
Proof. reflexivity. Qed.

Lemma cpos_succ m ls k l : ls !! k = Some l -> cpos m ls (S k) = cpos m ls k + 2 ^ (m - l).
Proof. intros Hk. unfold cpos. rewrite (take_S_r _ _ _ Hk), ksum_app. simpl. lia. Qed.

Lemma cpos_all m ls k : (length ls <= k)%nat -> cpos m ls k = ksum m ls.
Proof. intros. unfold cpos. by rewrite take_ge. Qed.

Lemma ksum_drop m ls k : ksum m (drop k ls) = ksum m ls - cpos m ls k.
Proof. unfold cpos. rewrite <- (take_drop k ls) at 2. rewrite ksum_app. lia. Qed.

(** A code of at least [a] bits takes at most one word of length [a]. *)
Lemma ksum_length_le m a l : Forall (fun x => a <= x <= m) l -> ksum m l <= zlen l * 2 ^ (m - a).
Proof.
  induction 1 as [|x l Hx _ IH]; [done|]. rewrite zlen_cons. simpl. pose proof (pow2_mono (m - x) (m - a) ltac:(lia)). lia.
Qed.

Section codes.
Context (m a : Z) (ls : list Z) (Hin : lens_in a m ls).
#[local] Set Default Proof Using "All".

Lemma cpos_mono i j : (i <= j)%nat -> cpos m ls i <= cpos m ls j.
Proof.
  intros Hij. unfold cpos. rewrite <- (take_drop i (take j ls)), ksum_app, take_take, Nat.min_l by done.
  pose proof (ksum_nonneg m a (drop i (take j ls)) ltac:(by apply Forall_drop, Forall_take)). lia.
Qed.

Lemma cpos_mono_lt i j : (i < j <= length ls)%nat -> cpos m ls i < cpos m ls j.
Proof.
  intros Hij. destruct (lookup_lt_is_Some_2 ls i) as [l Hl]; [lia|].
  pose proof (cpos_mono (S i) j ltac:(lia)). rewrite (cpos_succ _ _ _ _ Hl) in *.
  pose proof (lens_lookup _ _ _ _ _ Hin Hl). pose proof (pow2_pos (m - l) ltac:(lia)). lia.
Qed.

Lemma cpos_mono_inv i j : (i <= length ls)%nat -> cpos m ls i < cpos m ls j -> (i < j)%nat.
Proof. intros Hi Hlt. destruct (decide (i < j)%nat) as [|Hn]; [done|]. pose proof (cpos_mono j i ltac:(lia)). lia. Qed.

Lemma cpos_nonneg k : 0 <= cpos m ls k.
Proof. pose proof (cpos_mono 0 k ltac:(lia)). by rewrite cpos_0 in *. Qed.

(** Every word belongs to a code. *)
Lemma word_code w : 0 <= w < ksum m ls -> exists k l, ls !! k = Some l /\ cpos m ls k <= w < cpos m ls (S k).
Proof.
  intros Hw. assert (H : forall n, (n <= length ls)%nat -> w < cpos m ls n -> exists k l, ls !! k = Some l /\ cpos m ls k <= w < cpos m ls (S k)).
  { induction n as [|n IH]; intros Hn Hlt; [rewrite cpos_0 in Hlt; lia|].
    destruct (decide (w < cpos m ls n)); [apply IH; [lia|done]|].
    destruct (lookup_lt_is_Some_2 ls n) as [l Hl]; [lia|]. exists n, l. split; [done|lia]. }
  apply (H (length ls)); [done|]. rewrite cpos_all; lia.
Qed.

End codes.

(** ** Sorted lengths *)

Lemma sorted_le (ls : list Z) i j x y : StronglySorted Z.le ls -> (i <= j)%nat -> ls !! i = Some x -> ls !! j = Some y -> x <= y.
Proof.
  intros Hs. revert i j. induction Hs as [|z ls Hs IH Hf]; intros i j Hij Hi Hj; [done|].
  destruct i as [|i], j as [|j]; simpl in *; simplify_eq; [lia| |lia|eapply (IH i j); [lia|done..]].
  rewrite Forall_forall in Hf. by eapply Hf, list_elem_of_lookup_2.
Qed.

Lemma sorted_drop (ls : list Z) k : StronglySorted Z.le ls -> StronglySorted Z.le (drop k ls).
Proof. intros Hs. rewrite <- (take_drop k ls) in Hs. by apply StronglySorted_app in Hs as (? & ? & ?). Qed.

Lemma sorted_take (ls : list Z) k : StronglySorted Z.le ls -> StronglySorted Z.le (take k ls).
Proof. intros Hs. rewrite <- (take_drop k ls) in Hs. by apply StronglySorted_app in Hs as (? & ? & ?). Qed.

(** A sum of words all longer than [l] is a multiple of the words of [l]. *)
Lemma ksum_divide m l ls : Forall (fun x => x <= l) ls -> l <= m -> (2 ^ (m - l) | ksum m ls).
Proof.
  intros H Hm. induction H as [|x ls Hx _ IH]; simpl; [apply Z.divide_0_r|]. apply Z.divide_add_r; [|done].
  exists (2 ^ (l - x)). rewrite <- Z.pow_add_r by lia. f_equal. lia.
Qed.

Lemma cpos_divide m a ls k l : lens_in a m ls -> StronglySorted Z.le ls -> ls !! k = Some l ->
  exists c, cpos m ls k = c * 2 ^ (m - l) /\ 0 <= c /\ (0 <= l -> ksum m ls <= 2 ^ m -> c < 2 ^ l).
Proof.
  intros Hin Hs Hk. pose proof (lens_lookup _ _ _ _ _ Hin Hk) as Hl.
  destruct (ksum_divide m l (take k ls)) as [c Hc]; [|lia|].
  { apply Forall_lookup_2. intros i x Hi. apply lookup_take_Some in Hi as [Hi Hik]. eapply sorted_le; [done| |done|done]. lia. }
  exists c. pose proof (pow2_pos (m - l) ltac:(lia)). pose proof (cpos_nonneg m a ls Hin k) as Hnn. unfold cpos in Hnn |- *. rewrite Hc in *.
  split; [done|]. split; [nia|]. intros Hl0 Hsum.
  pose proof (cpos_mono_lt m a ls Hin k (length ls)) as Hlt. rewrite (cpos_all _ _ (length ls)) in Hlt by lia.
  pose proof (lookup_lt_Some _ _ _ Hk). unfold cpos in Hlt. rewrite Hc in Hlt. rewrite (pow2_split m l) in Hsum by lia. nia.
Qed.

(** ** Counting *)

Lemma occ_nil l : occ l [] = 0.
Proof. reflexivity. Qed.
Lemma occ_cons l x ls : occ l (x :: ls) = (if decide (x = l) then 1 else 0) + occ l ls.
Proof. unfold occ. rewrite filter_cons. destruct (decide (x = l)); [by rewrite zlen_cons|done]. Qed.
Lemma occ_app l a b : occ l (a ++ b) = occ l a + occ l b.
Proof. unfold occ. by rewrite filter_app, zlen_app. Qed.
Lemma occ_nonneg l ls : 0 <= occ l ls.
Proof. apply zlen_nonneg. Qed.
Lemma occ_le l ls : occ l ls <= zlen ls.
Proof. unfold occ, zlen. pose proof (length_filter (fun x => x = l) ls). lia. Qed.

Lemma occ_pos l ls : 0 < occ l ls <-> l ∈ ls.
Proof.
  unfold occ, zlen. split.
  - intros H. destruct (filter _ ls) as [|x xs] eqn:E; [simpl in H; lia|]. assert (Hx : x ∈ filter (fun x => x = l) ls) by (rewrite E; left).
    apply list_elem_of_filter in Hx as [<- ?]. done.
  - intros H. assert (Hx : l ∈ filter (fun x => x = l) ls) by (by apply list_elem_of_filter). destruct (filter _ ls); [by apply not_elem_of_nil in Hx|simpl; lia].
Qed.

Lemma occ_drop_S l ls k x : ls !! k = Some x -> occ l (drop (S k) ls) = occ l (drop k ls) - (if decide (x = l) then 1 else 0).
Proof. intros Hk. rewrite (drop_S _ _ _ Hk), occ_cons. lia. Qed.

(** Codes up to one more length. *)
Lemma ksum_filter_succ m c ls : ksum m (filter (fun x => x < c + 1) ls) = ksum m (filter (fun x => x < c) ls) + occ c ls * 2 ^ (m - c).
Proof.
  induction ls as [|x ls IH]; [done|]. rewrite occ_cons, !filter_cons.
  destruct (decide (x < c + 1)), (decide (x < c)), (decide (x = c)); try lia; simpl; rewrite ?IH; subst; lia.
Qed.

(** ** Blocks *)

(** A block of sorted codes that takes [y] words of length [a] and ends in a
    code of length [z] has at least [y + (z - a)] codes. *)
Lemma ksum_length m ls : forall a y z, StronglySorted Z.le ls -> lens_in a m ls -> 0 <= y ->
  ksum m ls = y * 2 ^ (m - a) -> last ls = Some z -> y + (z - a) <= zlen ls.
Proof.
  induction ls as [|x ls IH]; intros a y z Hs Hin Hy Hk Hlast; [done|]. rewrite zlen_cons.
  apply StronglySorted_cons in Hs as [Hf Hs]. apply Forall_cons in Hin as [Hx Hin]. simpl in Hk.
  pose proof (pow2_pos (m - x) ltac:(lia)) as Hp. pose proof (pow2_pos (x - a) ltac:(lia)) as Hq.
  assert (Hsplit : 2 ^ (m - a) = 2 ^ (x - a) * 2 ^ (m - x)) by (rewrite <- Z.pow_add_r by lia; f_equal; lia).
  rewrite Hsplit in Hk. assert (Hlin : x - a + 1 <= 2 ^ (x - a)) by (pose proof (Z.pow_gt_lin_r 2 (x - a)); lia).
  pose proof (ksum_nonneg m a ls Hin) as Hnn.
  assert (Hy1 : 1 <= y) by (destruct (decide (y = 0)) as [->|]; [lia|lia]).
  destruct ls as [|x' ls'].
  - simpl in Hlast. simplify_eq. simpl in Hk. assert (E1 : y * 2 ^ (z - a) = 1) by (apply (Z.mul_reg_r _ _ (2 ^ (m - z))); lia).
    assert (y = 1) by nia. subst y. unfold zlen. simpl. lia.
  - rewrite last_cons_cons in Hlast. assert (Hx' : lens_in x m (x' :: ls')).
    { rewrite Forall_forall in *. intros q Hq'. specialize (Hf q Hq'). specialize (Hin q Hq'). lia. }
    assert (Hgrow : y + (x - a) <= y * 2 ^ (x - a)).
    { transitivity (y * (x - a + 1)); [clear - Hy1 Hx; nia|]. apply Z.mul_le_mono_nonneg_l; lia. }
    specialize (IH x (y * 2 ^ (x - a) - 1) z Hs Hx' ltac:(lia) ltac:(lia) Hlast). lia.
Qed.

Lemma ksum_filter_le m a (P : Z -> Prop) `{!forall x, Decision (P x)} ls : lens_in a m ls -> ksum m (filter P ls) <= ksum m ls.
Proof.
  induction 1 as [|x ls Hx _ IH]; [done|]. rewrite filter_cons. pose proof (pow2_pos (m - x) ltac:(lia)).
  destruct (decide (P x)); simpl; lia.
Qed.

Lemma list_filter_none {A} (P : A -> Prop) `{!forall x, Decision (P x)} (l : list A) :
  Forall (fun x => ~ P x) l -> filter P l = [].
Proof. induction 1 as [|x l Hx _ IH]; [done|]. by rewrite filter_cons_False. Qed.

Section blocks.
Context (m r : Z) (ls : list Z) (Hin : lens_in 1 m ls) (Hs : StronglySorted Z.le ls) (Hfull : ksum m ls = 2 ^ m) (Hr : 0 <= r <= m).
#[local] Set Default Proof Using "All".

Lemma block_end R k l : ls !! k = Some l -> r <= l -> 0 <= R -> cpos m ls k = R * 2 ^ (m - r) ->
  exists e z, (k < e <= length ls)%nat /\ cpos m ls e = (R + 1) * 2 ^ (m - r) /\ ls !! (e - 1)%nat = Some z.
Proof.
  intros Hk Hl HR Hpos. pose proof (pow2_pos (m - r) ltac:(lia)) as Hp. pose proof (pow2_split m r ltac:(lia)) as Hsp.
  pose proof (lookup_lt_Some _ _ _ Hk) as Hkn. pose proof (lens_lookup _ _ _ _ _ Hin Hk) as Hlm.
  pose proof (cpos_mono_lt m 1 ls Hin k (length ls) ltac:(lia)) as Hlt. rewrite (cpos_all _ _ (length ls)), Hfull, Hpos in Hlt by lia.
  assert (HRlt : R < 2 ^ r) by nia.
  destruct (word_code m 1 ls Hin ((R + 1) * 2 ^ (m - r) - 1)) as (j & lj & Hj & Hlo & Hhi); [nia|].
  assert (Hkj : (k < S j)%nat) by (apply (cpos_mono_inv m 1 ls Hin); [lia|nia]).
  exists (S j), lj. pose proof (lookup_lt_Some _ _ _ Hj). split; [lia|]. replace (S j - 1)%nat with j by lia. split; [|done].
  destruct (cpos_divide m 1 ls j lj Hin Hs Hj) as (c & Hc & Hc0 & _). rewrite (cpos_succ _ _ _ _ Hj), Hc in *.
  pose proof (sorted_le ls k j l lj Hs ltac:(lia) Hk Hj). pose proof (lens_lookup _ _ _ _ _ Hin Hj).
  pose proof (pow2_pos (m - lj) ltac:(lia)). assert (Hu : 2 ^ (m - r) = 2 ^ (lj - r) * 2 ^ (m - lj)) by (rewrite <- Z.pow_add_r by lia; f_equal; lia).
  rewrite Hu in *. assert (c < (R + 1) * 2 ^ (lj - r)) by nia. assert ((R + 1) * 2 ^ (lj - r) < c + 2) by nia. nia.
Qed.

Lemma block_split k e : (k <= e)%nat -> drop k ls = take (e - k) (drop k ls) ++ drop e ls /\ ksum m (take (e - k) (drop k ls)) = cpos m ls e - cpos m ls k.
Proof.
  intros Hke. assert (E : drop k ls = take (e - k) (drop k ls) ++ drop e ls).
  { rewrite <- (take_drop (e - k) (drop k ls)) at 1. rewrite drop_drop. do 2 f_equal. lia. }
  split; [done|]. pose proof (f_equal (ksum m) E) as Ek. rewrite ksum_app, !ksum_drop in Ek. lia.
Qed.

(** The codes of a block that are shorter than [c] fill it exactly when its last code is. *)
Lemma block_below k e z c : (k < e <= length ls)%nat -> ls !! (e - 1)%nat = Some z ->
  (z < c -> cpos m ls e - cpos m ls k <= ksum m (filter (fun x => x < c) (drop k ls)))
  /\ (c <= z -> ksum m (filter (fun x => x < c) (drop k ls)) < cpos m ls e - cpos m ls k).
Proof.
  intros Hke Hz. destruct (block_split k e ltac:(lia)) as [E HX]. rewrite E, filter_app, ksum_app. split; intros Hc.
  - rewrite list_filter_all.
    + rewrite HX. assert (0 <= ksum m (filter (fun x => x < c) (drop e ls))); [|lia].
      apply (ksum_nonneg m 1), (sublist_Forall _ _ (drop e ls)); [apply sublist_filter|by apply Forall_drop].
    + apply Forall_lookup_2. intros i x Hi. apply lookup_take_Some in Hi as [Hi Hik]. rewrite lookup_drop in Hi.
      pose proof (sorted_le ls (k + i) (e - 1) x z Hs ltac:(lia) Hi Hz). lia.
  - rewrite (list_filter_none _ (drop e ls)); [simpl|].
    + assert (HX' : take (e - k) (drop k ls) = take (e - 1 - k) (drop k ls) ++ [z]).
      { replace (e - k)%nat with (S (e - 1 - k)) by lia. apply take_S_r. rewrite lookup_drop. by replace (k + (e - 1 - k))%nat with (e - 1)%nat by lia. }
      rewrite HX' in *. rewrite filter_app, !ksum_app in *. rewrite filter_cons_False by lia. simpl in *.
      pose proof (ksum_filter_le m 1 (fun x => x < c) (take (e - 1 - k) (drop k ls)) ltac:(by apply Forall_take, Forall_drop)).
      pose proof (lens_lookup _ _ _ _ _ Hin Hz). pose proof (pow2_pos (m - z) ltac:(lia)). lia.
    + apply Forall_lookup_2. intros i x Hi. rewrite lookup_drop in Hi. pose proof (sorted_le ls (e - 1) (e + i) z x Hs ltac:(lia) Hz Hi). lia.
Qed.

(** The number of codes in a block whose codes have at least [a] bits. *)
Lemma block_codes k e l z a : (k < e <= length ls)%nat -> ls !! k = Some l -> ls !! (e - 1)%nat = Some z -> r <= a <= l ->
  cpos m ls e - cpos m ls k = 2 ^ (m - r) -> 2 ^ (a - r) + (z - a) <= Z.of_nat e - Z.of_nat k.
Proof.
  intros Hke Hk Hz Ha HW. destruct (block_split k e ltac:(lia)) as [E HX]. pose proof (lens_lookup _ _ _ _ _ Hin Hk).
  assert (Hlen : length (take (e - k) (drop k ls)) = (e - k)%nat) by (rewrite length_take, length_drop; lia).
  pose proof (ksum_length m (take (e - k) (drop k ls)) a (2 ^ (a - r)) z) as H'. unfold zlen in H'. rewrite Hlen in H'.
  assert (2 ^ (a - r) + (z - a) <= Z.of_nat (e - k)); [apply H'; [by apply sorted_take, sorted_drop|..]|lia].
  - apply Forall_lookup_2. intros i x Hi. apply lookup_take_Some in Hi as [Hi _]. rewrite lookup_drop in Hi.
    pose proof (sorted_le ls k (k + i) l x Hs ltac:(lia) Hk Hi). pose proof (lens_lookup _ _ _ _ _ Hin Hi). lia.
  - pose proof (pow2_pos (a - r) ltac:(lia)). lia.
  - rewrite HX, HW, <- Z.pow_add_r by lia. f_equal. lia.
  - rewrite last_lookup, Hlen. rewrite lookup_take_lt by lia. rewrite lookup_drop. rewrite <- Hz. f_equal. lia.
Qed.

End blocks.
