(* ===== verification/InftreesFill.v ===== *)
(** * The main loop of [inflate_table]

    The loop enters the codes in the order of their positions.  Its invariant
    [fill_inv] says that every input that begins with one of the first [k]
    codes is already decoded by the table, through the root table or through
    one sub-table, and that later writes cannot touch the entries it reads.
    The sub-table in progress is the one of the prefix [R], and holds exactly
    the codes up to index [e].  The number of entries used is bounded by the
    number of codes entered ([sub_phase]), so that [fits] decides whether the
    table has room. *)

From S2P Require Import Prelude Inftrees BitRev Canon.

(** Writing an entry at all indices with the same low bits. *)
Lemma replicate_entry_spec table next g a c this : 0 <= a <= c -> c <= 15 -> 0 <= g < 2 ^ a -> 0 <= next -> next + 2 ^ c <= zlen table ->
  exists table', replicate_entry (S (Z.to_nat (2 ^ c))) table (next + g) (2 ^ c) (2 ^ a) this = Ok table'
    /\ zlen table' = zlen table
    /\ forall i, 0 <= i -> table' !! Z.to_nat i =
         if decide (next <= i < next + 2 ^ c /\ (i - next) `mod` 2 ^ a = g) then Some this else table !! Z.to_nat i.
Proof.
  intros Ha Hc Hg Hnext Hcap. pose proof (pow2_pos a ltac:(lia)) as Hpa. pose proof (pow2_mono c 15 ltac:(lia)) as Hp15. change (2 ^ 15) with 32768 in Hp15.
  assert (Hgen : forall t fuel table, 0 < t -> (Z.to_nat (t * 2 ^ a) < fuel)%nat -> t * 2 ^ a <= 2 ^ c -> next + 2 ^ c <= zlen table ->
    exists table', replicate_entry fuel table (next + g) (t * 2 ^ a) (2 ^ a) this = Ok table'
    /\ zlen table' = zlen table
    /\ forall i, 0 <= i -> table' !! Z.to_nat i =
         if decide (next <= i < next + t * 2 ^ a /\ (i - next) `mod` 2 ^ a = g) then Some this else table !! Z.to_nat i).
  { intros t fuel. revert t. induction fuel as [|fuel IH]; intros t tbl Ht Hfuel Hle Hz; [lia|]. simpl.
    assert (Hfill : u32 (t * 2 ^ a - 2 ^ a) = (t - 1) * 2 ^ a) by (rewrite u32_small; [lia|unfold is_u32; nia]). rewrite Hfill.
    rewrite elem_set_in by nia. simpl. assert (Hidx : forall i, next <= i < next + t * 2 ^ a /\ (i - next) `mod` 2 ^ a = g <->
        i = next + g + (t - 1) * 2 ^ a \/ (next <= i < next + (t - 1) * 2 ^ a /\ (i - next) `mod` 2 ^ a = g)).
    { intros i. split.
      - intros [Hi Hm]. pose proof (Z.div_mod (i - next) (2 ^ a)). rewrite Hm in *.
        destruct (decide (i < next + (t - 1) * 2 ^ a)); [right; lia|left].
        assert ((i - next) `div` 2 ^ a = t - 1) as Hq by nia. rewrite Hq in *. lia.
      - intros [->|[Hi Hm]]; [|split; [nia|done]]. split; [nia|]. replace (_ - next) with (g + (t - 1) * 2 ^ a) by lia.
        rewrite Z.mod_add by lia. apply Z.mod_small. lia. }
    destruct (Z.eqb_spec ((t - 1) * 2 ^ a) 0) as [Hz0|Hnz].
    - eexists. split; [done|]. rewrite zlen_insert. split; [done|]. intros i Hi. rewrite lookup_insert_Z by nia.
      destruct (decide _) as [Hd|Hd], (decide _) as [Hd'|Hd']; try done; exfalso; [apply Hd', Hidx; left; lia|].
      apply Hidx in Hd' as [?|?]; [lia|]. lia.
    - destruct (IH (t - 1) (<[Z.to_nat (next + g + (t - 1) * 2 ^ a):=this]> tbl)) as (table' & Hok & Hlen & Hget); [nia|nia|nia|by rewrite zlen_insert|].
      exists table'. rewrite Hok, Hlen, zlen_insert. split; [done|]. split; [done|]. intros i Hi. rewrite Hget by done. rewrite lookup_insert_Z by nia.
      repeat case_decide; try done; exfalso; naive_solver lia. }
  destruct (Hgen (2 ^ (c - a)) (S (Z.to_nat (2 ^ c))) table) as (table' & Hok & Hlen & Hget).
  - apply pow2_pos. lia.
  - rewrite Z.mul_comm, <- pow2_split by lia. lia.
  - rewrite Z.mul_comm, <- pow2_split by lia. lia.
  - done.
  - rewrite (Z.mul_comm (2 ^ (c - a))), <- pow2_split in * by lia. eauto.
Qed.

(** ** The invariant *)

Section fill.
Context (type : codetype) (lens work : list Z) (root max : Z) (ls : list Z) (ent : nat -> Z -> code) (cap : Z) (short : nat).

(** An input whose first bits are code [j]. *)
Definition code_of (h : Z) (j : nat) : Prop := cpos max ls j <= brev max h < cpos max ls (S j).

(** Input [h] is decoded to code [j], by entries that are settled: those of
    the root table, of the sub-tables before index [next], or of the sub-table
    of [curr] bits in progress there. *)
Definition settled (table : list code) (next curr low h : Z) (j : nat) : Prop :=
  exists l, ls !! j = Some l /\
  ((l <= root /\ table !! Z.to_nat (h `mod` 2 ^ root) = Some (ent j l))
   \/ exists off w, root < l <= root + w /\ w <= max - root /\ 2 ^ root <= off < 2 ^ 16
        /\ (off + 2 ^ w <= next \/ (off = next /\ w = curr /\ h `mod` 2 ^ root = low))
        /\ table !! Z.to_nat (h `mod` 2 ^ root) = Some (mkCode w root off)
        /\ table !! Z.to_nat (off + (h `div` 2 ^ root) `mod` 2 ^ w) = Some (ent j (l - root))).

(** The first prefix of [root] bits that has a sub-table. *)
Definition first_prefix : Z := cpos max ls short `div` 2 ^ (max - root).

(** What is known of the sub-table of [w] bits after [G] entries of earlier
    sub-tables, when its last code has index [e - 1]. *)
Definition sub_size (G w : Z) (e : nat) : Prop :=
  0 <= G /\ Z.even G = true /\ 1 <= w <= max - root /\ (e <= length ls)%nat
  /\ G + w + 1 + Z.of_nat short <= Z.of_nat e
  /\ 2 * (2 ^ root - first_prefix - 1) <= G + zlen ls - Z.of_nat e.

(** A table of [n] entries has room for the root table and every sub-table. *)
Definition fits (n : Z) : Prop :=
  2 ^ root <= n /\ forall G w e, sub_size G w e -> 2 ^ root + G + 2 ^ w <= n.

Definition root_phase (s : fill_state) : Prop :=
  f_drop s = 0 /\ f_next s = 0 /\ f_curr s = root /\ f_low s = u32 (-1) /\ f_used s = 2 ^ root /\ f_len s <= root.

Definition sub_phase (k : nat) (s : fill_state) : Prop :=
  exists R e, f_drop s = root /\ f_low s = brev root R /\ 0 <= R < 2 ^ root
    /\ R * 2 ^ (max - root) <= cpos max ls k /\ (k < e)%nat /\ cpos max ls e = (R + 1) * 2 ^ (max - root)
    /\ ls !! (e - 1)%nat = Some (root + f_curr s) /\ root < f_len s
    /\ sub_size (f_next s - 2 ^ root) (f_curr s) e /\ 2 * (R - first_prefix) <= f_next s - 2 ^ root
    /\ f_used s = f_next s + 2 ^ f_curr s /\ f_used s <= cap
    /\ f_table s !! Z.to_nat (f_low s) = Some (mkCode (f_curr s) root (f_next s)).

(** The counts of the codes from index [k] on. *)
Definition counts (count : list Z) (k : nat) : Prop :=
  length count = 16%nat /\ forall j, 1 <= j <= 15 -> count !! Z.to_nat j = Some (occ j (drop k ls)).

Definition fill_inv (k : nat) (s : fill_state) : Prop :=
  f_sym s = Z.of_nat k /\ ls !! k = Some (f_len s) /\ f_huff s = brev max (cpos max ls k) /\ counts (f_count s) k
  /\ zlen (f_table s) = cap
  /\ (forall h j, (j < k)%nat -> code_of h j -> settled (f_table s) (f_next s) (f_curr s) (f_low s) h j)
  /\ (root_phase s \/ sub_phase k s).

Context (Hin : lens_in 1 max ls) (Hs : StronglySorted Z.le ls) (Hfull : ksum max ls = 2 ^ max) (Hr : 1 <= root <= max) (Hmax : max <= 15).
Context (Hn : zlen ls < 2 ^ 14) (Hlast : last ls = Some max).
Context (Hwork : forall k l, ls !! k = Some l -> exists w, work !! k = Some w /\ elem_at lens w = Ok l).
Context (Hent : forall k l b, ls !! k = Some l -> 0 < b <= 15 -> make_entry type work (Z.of_nat k) b = Ok (ent k b)).
Context (Hshort : forall k l, ls !! k = Some l -> (k < short)%nat <-> l <= root) (Hshortn : (short <= length ls)%nat).
Context (Hcap : (type = LENS /\ ENOUGH - MAXD <= cap) \/ fits cap) (Hroot : 2 ^ root <= cap).
#[local] Set Default Proof Using "All".

(** ** Entering a code *)

Lemma code_of_unique h i j : (i < j)%nat -> code_of h i -> code_of h j -> False.
Proof. intros Hij Hi Hj. unfold code_of in *. pose proof (cpos_mono max 1 ls Hin (S i) j ltac:(lia)). lia. Qed.

(** The code of index [k] as a number of [l] bits. *)
Lemma code_number k l : ls !! k = Some l -> exists c, 0 <= c < 2 ^ l /\ cpos max ls k = c * 2 ^ (max - l) /\ cpos max ls (S k) = (c + 1) * 2 ^ (max - l)
  /\ brev max (cpos max ls k) = brev l c /\ forall h, code_of h k <-> h `mod` 2 ^ l = brev l c.
Proof.
  intros Hk. pose proof (lens_lookup _ _ _ _ _ Hin Hk) as Hl. destruct (cpos_divide max 1 ls k l Hin Hs Hk) as (c & Hc & Hc0 & Hlt).
  specialize (Hlt ltac:(lia) ltac:(lia)). exists c. split; [done|]. split; [done|]. assert (HS : cpos max ls (S k) = (c + 1) * 2 ^ (max - l)) by (rewrite (cpos_succ _ _ _ _ Hk); lia).
  split; [done|]. rewrite Hc. split; [apply brev_shift; lia|]. intros h. unfold code_of. rewrite Hc, HS. symmetry. apply starts_with_code; lia.
Qed.

Lemma next_huff k l : ls !! k = Some l -> backwards_incr l (brev max (cpos max ls k)) = Ok (brev max (cpos max ls (S k))).
Proof.
  intros Hk. pose proof (lens_lookup _ _ _ _ _ Hin Hk) as Hl. destruct (code_number k l Hk) as (c & Hc & Hp & HpS & -> & _).
  rewrite backwards_incr_brev by lia. f_equal. rewrite HpS, brev_shift by lia. destruct (Z.eqb_spec (c + 1) (2 ^ l)) as [->|]; [|done].
  rewrite <- (brev_mod l (2 ^ l)), Z_mod_same_full, brev_zero by lia. done.
Qed.

(** The copies of an entry: all indices of the current table with the low bits of the code. *)
Definition copied (table table' : list code) (next curr bits g : Z) (this : code) : Prop :=
  forall i, 0 <= i -> table' !! Z.to_nat i =
    if decide (next <= i < next + 2 ^ curr /\ (i - next) `mod` 2 ^ bits = g) then Some this else table !! Z.to_nat i.

Lemma copied_root table table' k l h j : ls !! k = Some l -> l <= root -> (j <= k)%nat -> code_of h j ->
  copied table table' 0 root l (brev max (cpos max ls k)) (ent k l) ->
  ((j < k)%nat -> settled table 0 root (u32 (-1)) h j) -> settled table' 0 root (u32 (-1)) h j.
Proof.
  intros Hk Hl Hjk Hh Hc Hold. pose proof (lens_lookup _ _ _ _ _ Hin Hk). destruct (code_number k l Hk) as (c & Hc0 & _ & _ & Hb & Hcode).
  pose proof (pow2_pos root ltac:(lia)) as Hp. pose proof (Z.mod_pos_bound h (2 ^ root) ltac:(lia)) as Hm.
  pose proof (Hc (h `mod` 2 ^ root) ltac:(lia)) as Hget. rewrite Hb, Z.sub_0_r, mod_mod_pow2 in Hget by lia.
  destruct (decide (j = k)) as [->|Hne].
  - exists l. split; [done|]. left. split; [done|]. rewrite Hget. apply decide_True. split; [lia|]. by apply Hcode.
  - destruct (Hold ltac:(lia)) as (lj & Hj & [[Hlj Hcell]|(off & w & Hlw & _ & Ho & [Ho'|[Ho' _]] & _)]); [|pose proof (pow2_pos w); lia|lia].
    exists lj. split; [done|]. left. split; [done|]. rewrite Hget, decide_False; [done|]. intros [_ E]. apply Hcode in E.
    exact (code_of_unique h j k ltac:(lia) Hh E).
Qed.

Lemma copied_sub table table' k l h j next curr R : ls !! k = Some l -> root < l <= root + curr -> curr <= max - root -> (j <= k)%nat -> code_of h j ->
  2 ^ root <= next < 2 ^ 16 -> brev max (cpos max ls k) `mod` 2 ^ root = brev root R ->
  table !! Z.to_nat (brev root R) = Some (mkCode curr root next) ->
  copied table table' next curr (l - root) (brev max (cpos max ls k) `div` 2 ^ root) (ent k (l - root)) ->
  ((j < k)%nat -> settled table next curr (brev root R) h j) -> settled table' next curr (brev root R) h j.
Proof.
  intros Hk Hl Hcurr Hjk Hh Hnext Hlow Hlink Hc Hold. pose proof (lens_lookup _ _ _ _ _ Hin Hk). destruct (code_number k l Hk) as (c & Hc0 & _ & _ & Hb & Hcode).
  pose proof (pow2_pos root ltac:(lia)) as Hp. pose proof (Z.mod_pos_bound h (2 ^ root) ltac:(lia)) as Hm. rewrite Hb in *.
  assert (Hroot_cell : table' !! Z.to_nat (h `mod` 2 ^ root) = table !! Z.to_nat (h `mod` 2 ^ root)) by (rewrite Hc, decide_False by lia; done).
  pose proof (pow2_pos curr ltac:(lia)) as Hpc. pose proof (Z.mod_pos_bound (h `div` 2 ^ root) (2 ^ curr) ltac:(lia)) as Hmc.
  pose proof (Hc (next + (h `div` 2 ^ root) `mod` 2 ^ curr) ltac:(lia)) as Hget.
  replace (next + (h `div` 2 ^ root) `mod` 2 ^ curr - next) with ((h `div` 2 ^ root) `mod` 2 ^ curr) in Hget by lia. rewrite mod_mod_pow2 in Hget by lia.
  assert (Hdiv : (h `div` 2 ^ root) `mod` 2 ^ (l - root) = (h `mod` 2 ^ l) `div` 2 ^ root) by (rewrite <- div_mod_pow2 by lia; by replace (root + (l - root)) with l by lia).
  assert (Hmod : h `mod` 2 ^ root = (h `mod` 2 ^ l) `mod` 2 ^ root) by (rewrite mod_mod_pow2 by lia; done).
  rewrite Hdiv in Hget. destruct (decide (j = k)) as [->|Hne].
  - exists l. split; [done|]. right. exists next, curr. apply Hcode in Hh. rewrite Hh in Hget, Hmod. rewrite Hmod, Hlow in *. rewrite Hroot_cell.
    do 4 (split; [naive_solver lia|]). split; [done|]. rewrite Hget. apply decide_True. split; [lia|done].
  - destruct (Hold ltac:(lia)) as (lj & Hj & [[Hlj Hcell]|(off & w & Hlw & Hw & Ho & Hwhere & Hlk & Hcell)]).
    + exists lj. split; [done|]. left. rewrite Hroot_cell. done.
    + exists lj. split; [done|]. right. exists off, w. rewrite Hroot_cell. do 5 (split; [done|]). rewrite <- Hcell.
      destruct Hwhere as [Hbefore|(-> & -> & Hlow')].
      * pose proof (pow2_pos w ltac:(lia)). pose proof (Z.mod_pos_bound (h `div` 2 ^ root) (2 ^ w) ltac:(lia)). rewrite Hc, decide_False by lia. done.
      * rewrite Hget, decide_False; [done|]. intros [_ E]. apply (code_of_unique h j k ltac:(lia) Hh), Hcode.
        rewrite (Z.div_mod (h `mod` 2 ^ l) (2 ^ root)), (Z.div_mod (brev l c) (2 ^ root)) by lia. rewrite E, <- Hmod, Hlow', Hlow. done.
Qed.

(** The current table and the current code in it. *)
Lemma fill_shape k s : fill_inv k s ->
  (f_drop s = 0 \/ f_drop s = root) /\ 0 < f_len s - f_drop s <= f_curr s /\ f_curr s <= 15 /\ 0 <= f_next s
  /\ f_next s + 2 ^ f_curr s <= cap /\ 1 <= f_len s <= max.
Proof.
  intros (_ & Hlen & _ & _ & _ & _ & Hphase). pose proof (lens_lookup _ _ _ _ _ Hin Hlen) as Hl.
  destruct Hphase as [(Hd & -> & -> & _ & _ & Hle)|(R & e & Hd & _ & _ & _ & Hke & _ & He & Hlr & Hsize & _ & Hu & Huc & _)].
  - rewrite Hd. repeat split; try lia.
  - rewrite Hd. pose proof (sorted_le ls k (e - 1) _ _ Hs ltac:(lia) Hlen He). destruct Hsize as (? & _ & ? & _).
    pose proof (pow2_pos root ltac:(lia)). lia.
Qed.

Lemma enter_code_spec k s : fill_inv k s ->
  exists t, enter_code type work s = Ok (s <| f_table := t |> <| f_min := 2 ^ f_curr s |> <| f_huff := brev max (cpos max ls (S k)) |>)
  /\ zlen t = cap
  /\ (forall h j, (j < S k)%nat -> code_of h j -> settled t (f_next s) (f_curr s) (f_low s) h j)
  /\ (forall i, 0 <= i < f_next s -> t !! Z.to_nat i = f_table s !! Z.to_nat i).
Proof.
  intros HI. destruct (fill_shape k s HI) as (Hd & Hb & Hc15 & Hnx & Hroom & Hl). destruct HI as (Hsym & Hlen & Hhuff & Hcnt & Hz & Hdone & Hphase).
  unfold enter_code. rewrite Hsym. assert (Hu : u32 (f_len s - f_drop s) = f_len s - f_drop s) by (apply u32_small; unfold is_u32; lia).
  rewrite Hu, (Hent k (f_len s)) by (done || lia). cbn [mbind outcome_bind]. rewrite !shl1_pow2 by lia.
  rewrite Z.shiftr_div_pow2 by lia.
  assert (Hg : 0 <= f_huff s `div` 2 ^ f_drop s < 2 ^ (f_len s - f_drop s)).
  { rewrite Hhuff. destruct (code_number k _ Hlen) as (c & _ & _ & _ & -> & _). pose proof (brev_range (f_len s) c ltac:(lia)) as Hbr.
    pose proof (pow2_pos (f_drop s) ltac:(lia)). split; [apply Z.div_pos; lia|]. apply Z.div_lt_upper_bound; [lia|]. rewrite <- pow2_split by lia. lia. }
  destruct (replicate_entry_spec (f_table s) (f_next s) _ (f_len s - f_drop s) (f_curr s) (ent k (f_len s - f_drop s)) ltac:(lia) ltac:(lia) Hg Hnx ltac:(lia)) as (t & -> & Hzt & Hget).
  cbn [mbind outcome_bind]. rewrite Hhuff, next_huff by done. cbn [mbind outcome_bind]. exists t. split; [done|]. split; [lia|].
  split; [|intros i Hi; rewrite Hget, decide_False by lia; done].
  intros h j Hj Hh. destruct Hphase as [(Hdz & Hnz & Hcz & Hlz & _ & Hle)|(R & e & Hdr & HlowR & HR & HRpos & Hke & Hepos & He & Hlr & Hsize & _ & Hu' & Huc & Hlink)].
  - rewrite Hdz, Hnz, Hcz, Hlz, Hhuff, Z.sub_0_r, Z.div_1_r in *. eapply (copied_root (f_table s) t k (f_len s)); [done|done|lia|done|exact Hget|]. intros Hjk. exact (Hdone h j Hjk Hh).
  - rewrite Hdr, HlowR, Hhuff in *. destruct Hsize as (HG & _ & Hw & Hen & Hsz & _). unfold zlen in Hn.
    assert (2 ^ root <= 2 ^ 15) by (apply pow2_mono; lia). change (2 ^ 15) with 32768 in *. change (2 ^ 14) with 16384 in *.
    eapply (copied_sub (f_table s) t k (f_len s)); [done|lia|lia|lia|done|change (2 ^ 16) with 65536; lia| |done|exact Hget|intros Hjk; exact (Hdone h j Hjk Hh)].
    rewrite brev_mod_low by lia. f_equal. symmetry. apply Z.div_unique_pos with (cpos max ls k - R * 2 ^ (max - root)); [|lia].
    pose proof (cpos_mono_lt max 1 ls Hin k e ltac:(lia)). lia.
Qed.

(** ** Starting a sub-table *)

Lemma subtable_bits_spec k e l z count : counts count k -> ls !! k = Some l -> root < l -> (k < e <= length ls)%nat ->
  ls !! (e - 1)%nat = Some z -> cpos max ls e - cpos max ls k = 2 ^ (max - root) ->
  forall fuel curr rest, (Z.to_nat (z - (root + curr)) < fuel)%nat -> l <= root + curr <= z ->
  rest * 2 ^ (max - (root + curr)) = 2 ^ (max - root) - ksum max (filter (fun x => x < root + curr) (drop k ls)) ->
  subtable_bits fuel count max root curr rest = Ok (z - root).
Proof.
  intros [_ Hcnt] Hk Hl Hke Hz HW fuel. pose proof (lens_lookup _ _ _ _ _ Hin Hz) as Hzm.
  induction fuel as [|fuel IH]; intros curr rest Hf Hc Hrest; [lia|]. simpl.
  destruct (Z.ltb_spec (curr + root) max) as [Hlt|Hge]; [|f_equal; lia].
  rewrite (elem_at_lookup count (curr + root) _ ltac:(lia) (Hcnt (curr + root) ltac:(lia))). cbn [mbind outcome_bind].
  pose proof (ksum_filter_succ max (root + curr) (drop k ls)) as Hsucc. replace (curr + root) with (root + curr) by lia.
  destruct (block_below max root ls Hin Hs Hfull ltac:(lia) k e z (root + curr + 1) Hke Hz) as [Hfull' Hnot].
  pose proof (pow2_pos (max - (root + curr)) ltac:(lia)) as Hp. set (o := occ (root + curr) (drop k ls)) in *.
  assert (Hr' : (rest - o) * 2 ^ (max - (root + curr)) = 2 ^ (max - root) - ksum max (filter (fun x => x < root + curr + 1) (drop k ls))) by lia.
  destruct (Z.leb_spec (rest - o) 0) as [Hle|Hgt].
  - assert (~ root + curr + 1 <= z) by (intros Hcz; specialize (Hnot Hcz); nia). f_equal. lia.
  - assert (~ z < root + curr + 1) by (intros Hcz; specialize (Hfull' Hcz); nia).
    apply IH; [lia|lia|]. rewrite Z.shiftl_mul_pow2 by lia. replace (root + (curr + 1)) with (root + curr + 1) by lia. rewrite <- Hr'.
    replace (max - (root + curr)) with (max - (root + curr + 1) + 1) by lia. rewrite pow2_succ by lia. change (2 ^ 1) with 2. lia.
Qed.

(** The codes that are left after the block of prefix [R] number at least two for each prefix. *)
Lemma codes_left k e R l : ls !! k = Some l -> root < l -> (k <= e)%nat -> (e <= length ls)%nat -> cpos max ls e = (R + 1) * 2 ^ (max - root) ->
  2 * (2 ^ root - 1 - R) <= zlen ls - Z.of_nat e.
Proof.
  intros Hk Hl Hke Hen He. pose proof (lens_lookup _ _ _ _ _ Hin Hk). assert (Hf : Forall (fun x => root + 1 <= x <= max) (drop e ls)).
  { apply Forall_lookup_2. intros i x Hi. rewrite lookup_drop in Hi. pose proof (sorted_le ls k (e + i) l x Hs ltac:(lia) Hk Hi).
    pose proof (lens_lookup _ _ _ _ _ Hin Hi). lia. }
  apply ksum_length_le in Hf. rewrite ksum_drop, Hfull, He in Hf. unfold zlen in *. rewrite length_drop in Hf.
  rewrite (pow2_split max root) in Hf by lia. replace (max - root) with (max - (root + 1) + 1) in Hf by lia. rewrite pow2_succ in Hf by lia.
  pose proof (pow2_pos (max - (root + 1)) ltac:(lia)). nia.
Qed.

(** The state before a sub-table is started for the codes from index [k] on. *)
Record block_start (k : nat) (R : Z) (s : fill_state) : Prop := {
  bs_sym : f_sym s = Z.of_nat k;
  bs_len : ls !! k = Some (f_len s);
  bs_huff : f_huff s = brev max (cpos max ls k);
  bs_count : counts (f_count s) k;
  bs_cap : zlen (f_table s) = cap;
  bs_done : forall h j, (j < k)%nat -> code_of h j -> settled (f_table s) (f_next s) (f_curr s) (f_low s) h j;
  bs_drop : f_drop s = 0 \/ f_drop s = root;
  bs_long : root < f_len s;
  bs_shape : 0 <= f_next s /\ 0 <= f_curr s;
  bs_min : f_min s = 2 ^ f_curr s;
  bs_prefix : 0 <= R /\ cpos max ls k = R * 2 ^ (max - root);
  bs_used : f_used s = f_next s + f_min s;
  bs_size : exists a, root <= a <= f_len s /\ f_used s - 2 ^ root + (a - root) + 1 + Z.of_nat short <= Z.of_nat k + 2 ^ (a - root);
  bs_even : 2 ^ root <= f_used s /\ Z.even (f_used s - 2 ^ root) = true /\ 2 * (R - first_prefix) <= f_used s - 2 ^ root }.

Lemma block_size k R s e z : block_start k R s -> (k < e <= length ls)%nat -> cpos max ls e = (R + 1) * 2 ^ (max - root) ->
  ls !! (e - 1)%nat = Some z -> sub_size (f_used s - 2 ^ root) (z - root) e.
Proof.
  intros HB Hke He Hz. destruct HB. destruct bs_size0 as (a & Ha & Hsz). destruct bs_prefix0 as [HR HRp]. destruct bs_even0 as (Hu & Hev & H2).
  pose proof (block_codes max root ls Hin Hs Hfull ltac:(lia) k e _ z a Hke bs_len0 Hz Ha ltac:(lia)) as Hbc.
  pose proof (codes_left k e R _ bs_len0 bs_long0 ltac:(lia) ltac:(lia) He) as Hleft.
  pose proof (lens_lookup _ _ _ _ _ Hin Hz). pose proof (sorted_le ls k (e - 1) _ _ Hs ltac:(lia) bs_len0 Hz).
  unfold sub_size. repeat split; (done || lia).
Qed.

Lemma settled_next table next curr low next' curr' R h j k : settled table next curr low h j -> (j < k)%nat -> code_of h j ->
  0 <= R -> cpos max ls k = R * 2 ^ (max - root) -> next' = next + 2 ^ curr -> 0 <= next -> R < 2 ^ root -> 0 <= curr ->
  2 ^ root <= zlen table ->
  settled (<[Z.to_nat (brev root R) := mkCode curr' root next']> table) next' curr' (brev root R) h j.
Proof.
  intros (l & Hj & Hset) Hjk Hh HR HRp -> Hnx HRlt Hc Hz. pose proof (brev_range root R ltac:(lia)) as Hb.
  pose proof (pow2_pos root ltac:(lia)) as Hp. pose proof (Z.mod_pos_bound h (2 ^ root) ltac:(lia)) as Hm. pose proof (pow2_pos curr Hc).
  assert (Hne : brev root R <> h `mod` 2 ^ root).
  { intros E. symmetry in E. apply (starts_with_code max root R h ltac:(lia) ltac:(lia)) in E. unfold code_of in Hh.
    pose proof (cpos_mono max 1 ls Hin (S j) k ltac:(lia)). lia. }
  exists l. split; [done|]. destruct Hset as [[Hl Hcell]|(off & w & Hlw & Hw & Hoff & Hwhere & Hlk & Hcell)].
  - left. split; [done|]. rewrite lookup_insert_Z, decide_False by lia. done.
  - right. exists off, w. pose proof (pow2_pos w ltac:(lia)). pose proof (Z.mod_pos_bound (h `div` 2 ^ root) (2 ^ w) ltac:(lia)).
    do 3 (split; [done|]). split; [left; destruct Hwhere as [?|(-> & -> & _)]; lia|].
    rewrite !lookup_insert_Z, !decide_False by lia. done.
Qed.

Lemma sub_size_bounds G w e : sub_size G w e -> 0 <= G < 2 ^ 14 /\ 2 <= 2 ^ w <= 2 ^ 15 /\ 2 <= 2 ^ root <= 2 ^ 15.
Proof.
  intros (HG & _ & Hw & He & Hsz & _). unfold zlen in Hn. split; [lia|].
  split; (split; [apply (pow2_mono 1)|apply pow2_mono]; lia).
Qed.

Lemma new_subtable_spec k R s : block_start k R s -> exists e, new_subtable type root max (2 ^ root - 1) s = Ok e /\
  match e with Goes s' => fill_inv k s' | Breaks _ => False | NotEnough _ => type = LENS /\ ~ fits (ENOUGH - MAXD - 1) end.
Proof.
  intros HB. pose proof HB as HB'. destruct HB'. destruct bs_prefix0 as [HR HRp]. pose proof (lens_lookup _ _ _ _ _ Hin bs_len0) as Hl.
  destruct (block_end max root ls Hin Hs Hfull ltac:(lia) R k _ bs_len0 ltac:(lia) HR HRp) as (e & z & Hke & He & Hz).
  pose proof (block_size k R s e z HB Hke He Hz) as Hsize. pose proof (sub_size_bounds _ _ _ Hsize) as (HG & Hw & Hrt).
  change (2 ^ 14) with 16384 in HG. change (2 ^ 15) with 32768 in *.
  assert (Hdrop : (if f_drop s =? 0 then root else f_drop s) = root) by (destruct bs_drop0 as [->| ->]; [done|by destruct (root =? 0)]).
  pose proof (sorted_le ls k (e - 1) _ _ Hs ltac:(lia) bs_len0 Hz) as Hlz. pose proof (lens_lookup _ _ _ _ _ Hin Hz) as Hzm.
  unfold new_subtable. rewrite Hdrop. rewrite (u32_small (f_len s - root)) by (unfold is_u32; lia).
  rewrite (subtable_bits_spec k e (f_len s) z); [|done|done|done|done|done|lia|lia|lia|].
  2:{ rewrite list_filter_none; simpl.
      - rewrite Z.shiftl_1_l, <- Z.pow_add_r by lia. replace (f_len s - root + _) with (max - root) by lia. lia.
      - apply Forall_lookup_2. intros i x Hi. rewrite lookup_drop in Hi. pose proof (sorted_le ls k (k + i) _ _ Hs ltac:(lia) bs_len0 Hi). lia. }
  cbn [mbind outcome_bind]. rewrite shl1_pow2 by lia.
  rewrite u32_small by (unfold is_u32; change (2 ^ 32) with 4294967296; lia).
  rewrite !bs_used0 in *. set (next := f_next s + f_min s) in *.
  pose proof (brev_range root R ltac:(lia)) as Hb. assert (HRlt : R < 2 ^ root).
  { pose proof (cpos_mono_lt max 1 ls Hin k (length ls) ltac:(lia)) as Hlt. rewrite (cpos_all _ _ (length ls)), Hfull, HRp in Hlt by lia.
    rewrite (pow2_split max root) in Hlt by lia. pose proof (pow2_pos (max - root) ltac:(lia)). nia. }
  destruct (bool_decide (type = LENS) && (ENOUGH - MAXD <=? next + 2 ^ (z - root))) eqn:Efull.
  { eexists. split; [done|]. apply andb_true_iff in Efull as [->%bool_decide_eq_true Hle%Z.leb_le]. split; [done|].
    intros [_ Hfit]. specialize (Hfit _ _ _ Hsize). lia. }
  assert (Hroom : next + 2 ^ (z - root) <= cap).
  { destruct Hcap as [[HL HC]|[_ Hfit]]; [|specialize (Hfit _ _ _ Hsize); lia].
    rewrite bool_decide_eq_true_2 in Efull by done. apply Z.leb_gt in Efull. lia. }
  assert (Hlow : Z.land (f_huff s) (2 ^ root - 1) = brev root R).
  { rewrite land_mask, bs_huff0, brev_mod_low by lia. rewrite HRp, Z.div_mul; [done|]. pose proof (pow2_pos (max - root)). lia. }
  cbv beta iota zeta. cbn. rewrite Hlow, elem_set_in by lia. cbn. eexists. split; [done|]. cbn.
  rewrite u8_small, (u8_small root), u16_small by (unfold is_u8, is_u16; change (2 ^ 8) with 256; change (2 ^ 16) with 65536; lia).
  split; [done|]. split; [done|]. split; [done|]. split; [done|]. cbn. split; [by rewrite zlen_insert|]. split.
  - intros h j Hj Hh. destruct bs_shape0. eapply (settled_next _ (f_next s) (f_curr s) (f_low s)); [by apply bs_done0|done|done|done|done|by rewrite <- bs_min0|lia|lia|lia|lia].
  - right. exists R, e. cbn. replace (root + (z - root)) with z by lia.
    do 3 (split; [done || lia|]). split; [lia|]. split; [lia|]. split; [done|]. split; [done|]. split; [done|]. split; [done|].
    split; [lia|]. split; [done|]. split; [done|]. rewrite lookup_insert_Z, decide_True by lia. done.
Qed.

(** ** One iteration *)

(** The state [s'] with the code of [s] entered and the next length chosen. *)
Record advanced (k : nat) (s s' : fill_state) : Prop := {
  ad_sym : f_sym s' = Z.of_nat (S k);
  ad_len : ls !! S k = Some (f_len s');
  ad_huff : f_huff s' = brev max (cpos max ls (S k));
  ad_count : counts (f_count s') (S k);
  ad_cap : zlen (f_table s') = cap;
  ad_done : forall h j, (j < S k)%nat -> code_of h j -> settled (f_table s') (f_next s') (f_curr s') (f_low s') h j;
  ad_same : f_next s' = f_next s /\ f_curr s' = f_curr s /\ f_low s' = f_low s /\ f_drop s' = f_drop s /\ f_used s' = f_used s;
  ad_min : f_min s' = 2 ^ f_curr s';
  ad_cells : forall i, 0 <= i < f_next s -> f_table s' !! Z.to_nat i = f_table s !! Z.to_nat i }.

Lemma long_at_prefix k l l' : ls !! k = Some l -> ls !! S k = Some l' -> l <= root < l' -> S k = short /\ cpos max ls (S k) = first_prefix * 2 ^ (max - root).
Proof.
  intros Hk Hk' Hl. assert (E : S k = short).
  { pose proof (proj2 (Hshort k l Hk) ltac:(lia)). destruct (decide (S k < short)%nat) as [Hlt|]; [|lia]. apply (Hshort (S k) l' Hk') in Hlt. lia. }
  split; [done|]. unfold first_prefix. rewrite <- E. pose proof (lens_lookup _ _ _ _ _ Hin Hk).
  destruct (ksum_divide max root (take (S k) ls)) as [c Hc]; [|lia|].
  - apply Forall_lookup_2. intros i x Hi. apply lookup_take_Some in Hi as [Hi Hik]. pose proof (sorted_le ls i k x l Hs ltac:(lia) Hi Hk). lia.
  - change (ksum max (take (S k) ls)) with (cpos max ls (S k)) in Hc. rewrite Hc, Z.div_mul; [done|]. pose proof (pow2_pos (max - root) ltac:(lia)). lia.
Qed.

Lemma advance_root k s s' : ls !! k = Some (f_len s) -> root_phase s -> advanced k s s' -> root < f_len s' -> block_start (S k) first_prefix s' /\ f_low s' = u32 (-1).
Proof.
  intros Hk (Hd & Hnx & Hc & Hlow & Hu & Hle) HA Hlong. destruct HA. destruct ad_same0 as (E1 & E2 & E3 & E4 & E5).
  destruct (long_at_prefix k _ _ Hk ad_len0 ltac:(lia)) as [Hsh Hpos]. split; [|congruence]. split; try done.
  - left. congruence.
  - lia.
  - split; [|done]. unfold first_prefix. apply Z.div_pos; [apply (cpos_nonneg max 1); done|apply pow2_pos; lia].
  - rewrite ad_min0, E2, E5, E1, Hu, Hnx, Hc. lia.
  - exists root. rewrite E5, Hu, !Z.sub_diag. change (2 ^ 0) with 1. lia.
  - rewrite E5, Hu, Z.sub_diag. repeat split; (done || lia).
Qed.

Lemma advance_sub k s s' : ls !! k = Some (f_len s) -> sub_phase k s -> advanced k s s' ->
  exists R, 0 <= R < 2 ^ root /\ f_low s' = brev root R /\ root < f_len s' /\
  ((fill_inv (S k) s' /\ cpos max ls (S k) `div` 2 ^ (max - root) = R)
   \/ (block_start (S k) (R + 1) s' /\ cpos max ls (S k) `div` 2 ^ (max - root) = R + 1)).
Proof.
  intros Hk (R & e & Hd & Hlow & HR & HRp & Hke & He & Hz & Hl & Hsize & H2 & Hu & Huc & Hlink) HA. destruct HA. destruct ad_same0 as (E1 & E2 & E3 & E4 & E5).
  pose proof (pow2_pos (max - root) ltac:(lia)) as Hp. pose proof (cpos_mono_lt max 1 ls Hin k (S k)) as Hmono.
  pose proof (lookup_lt_Some _ _ _ ad_len0) as Hkn. specialize (Hmono ltac:(lia)). pose proof Hsize as (HG & Hev & Hw & Hen & Hsz & _).
  pose proof (sub_size_bounds _ _ _ Hsize) as (_ & Hw2 & Hrt).
  pose proof (sorted_le ls (e - 1)) as Hsorted. exists R. split; [done|]. split; [congruence|].
  assert (Hlong : root < f_len s').
  { pose proof (sorted_le ls k (S k) _ _ Hs ltac:(lia) Hk ad_len0). lia. }
  split; [done|]. destruct (decide (S k < e)%nat) as [Hlt|Hge].
  - left. pose proof (cpos_mono_lt max 1 ls Hin (S k) e ltac:(lia)) as Hlt'. split.
    + repeat (split; [done|]). right. exists R, e. rewrite E1, E2, E3, E4, E5. repeat (split; [done || lia|]).
      rewrite ad_cells0; [done|]. rewrite Hlow. pose proof (brev_range root R ltac:(lia)). lia.
    + symmetry. apply Z.div_unique_pos with (cpos max ls (S k) - R * 2 ^ (max - root)); lia.
  - right. replace (S k) with e in * by lia. split; [|rewrite He, Z.div_mul; lia]. split; try done.
    + right. congruence.
    + lia.
    + split; [lia|done].
    + rewrite ad_min0, E1, E2, E5. done.
    + exists (root + f_curr s). pose proof (Hsorted e _ _ Hs ltac:(lia) Hz ad_len0). rewrite E5, Hu. replace (root + f_curr s - root) with (f_curr s) by lia. lia.
    + rewrite E5, Hu. split; [lia|]. split; [|lia]. replace (f_next s + 2 ^ f_curr s - 2 ^ root) with ((f_next s - 2 ^ root) + 2 ^ f_curr s) by lia.
      rewrite Z.even_add, Hev, (pow2_split (f_curr s) 1), Z.even_mul by lia. done.
Qed.

(** What the loop leaves: every input that begins with a code is decoded. *)
Definition filled (s : fill_state) : Prop :=
  f_huff s = 0 /\ zlen (f_table s) = cap /\ f_used s <= cap
  /\ (forall h j, (j < length ls)%nat -> code_of h j -> settled (f_table s) (f_next s) (f_curr s) (f_low s) h j)
  /\ (f_used s = 2 ^ root \/ exists G w e, sub_size G w e /\ f_used s = 2 ^ root + G + 2 ^ w)
  /\ f_used s = f_next s + 2 ^ f_curr s.

Lemma counts_step count k l : counts count k -> ls !! k = Some l ->
  exists count', elem_at count l = Ok (occ l (drop k ls)) /\ elem_set count l (u16 (occ l (drop k ls) - 1)) = Ok count' /\ counts count' (S k)
    /\ u16 (occ l (drop k ls) - 1) = occ l (drop (S k) ls).
Proof.
  intros [H16 Hc] Hk. pose proof (lens_lookup _ _ _ _ _ Hin Hk) as Hl. pose proof (occ_drop_S l ls k l Hk) as Hd. rewrite decide_True in Hd by done.
  pose proof (occ_nonneg l (drop (S k) ls)). pose proof (occ_le l (drop (S k) ls)). unfold zlen in *. rewrite length_drop in *. change (2 ^ 14) with 16384 in Hn.
  assert (Hu : u16 (occ l (drop k ls) - 1) = occ l (drop (S k) ls)) by (rewrite Hd; apply u16_small; unfold is_u16; change (2 ^ 16) with 65536; lia).
  assert (Hz : zlen count = 16) by (unfold zlen; lia). eexists. split; [exact (elem_at_lookup count l _ ltac:(lia) (Hc l ltac:(lia)))|].
  split; [apply elem_set_in; lia|]. split; [|done]. split; [by rewrite length_insert|]. intros j Hj.
  rewrite lookup_insert_Z by lia. rewrite (occ_drop_S j ls k l Hk). destruct (decide (l = j)) as [->|]; [by rewrite Hu, Hd|]. rewrite Hc by done. f_equal. lia.
Qed.

Lemma last_code k l : ls !! k = Some l -> (occ l (drop (S k) ls) = 0 /\ l = max) <-> S k = length ls.
Proof.
  intros Hk. pose proof (lookup_lt_Some _ _ _ Hk). rewrite last_lookup in Hlast. split.
  - intros [Ho ->]. destruct (decide (S k = length ls)) as [|Hne]; [done|exfalso].
    assert (0 < occ max (drop (S k) ls)); [|lia]. apply occ_pos, list_elem_of_lookup. exists (pred (length ls) - S k)%nat. rewrite lookup_drop.
    replace (S k + _)%nat with (pred (length ls)) by lia. done.
  - intros E. rewrite drop_ge by lia. split; [done|]. replace (pred (length ls)) with k in Hlast by lia. congruence.
Qed.

Lemma next_len k l : ls !! k = Some l -> (S k < length ls)%nat ->
  exists l', ls !! S k = Some l' /\ (occ l (drop (S k) ls) = 0 -> exists w, work !! S k = Some w /\ elem_at lens w = Ok l')
    /\ (occ l (drop (S k) ls) <> 0 -> l' = l).
Proof.
  intros Hk Hn'. destruct (lookup_lt_is_Some_2 ls (S k) Hn') as [l' Hl']. exists l'. split; [done|]. split; [intros _; by apply Hwork|].
  intros Ho. pose proof (occ_nonneg l (drop (S k) ls)). assert (Hp : 0 < occ l (drop (S k) ls)) by lia. apply occ_pos, list_elem_of_lookup in Hp as [i Hi].
  rewrite lookup_drop in Hi. pose proof (sorted_le ls k (S k) _ _ Hs ltac:(lia) Hk Hl'). pose proof (sorted_le ls (S k) (S k + i) _ _ Hs ltac:(lia) Hl' Hi). lia.
Qed.

#[local] Arguments new_subtable : simpl never.

Lemma table_step_spec k s : fill_inv k s -> exists e, table_step type lens work root max (2 ^ root - 1) s = Ok e /\
  match e with
  | Goes s' => fill_inv (S k) s'
  | Breaks s' => S k = length ls /\ filled s'
  | NotEnough _ => type = LENS /\ ~ fits (ENOUGH - MAXD - 1)
  end.
Proof.
  intros HI. destruct (enter_code_spec k s HI) as (t & Henter & Hzt & Hset & Hcells). destruct (fill_shape k s HI) as (Hd & Hb & Hc15 & Hnx & Hroom & Hl).
  destruct HI as (Hsym & Hlen & Hhuff & Hcnt & Hz & Hdone & Hphase). destruct (counts_step _ k _ Hcnt Hlen) as (count' & Hat & Hput & Hcnt' & Hu16).
  unfold table_step. rewrite Henter. cbn. rewrite Hat. cbn. rewrite Hput. cbn. rewrite Hu16.
  destruct ((occ (f_len s) (drop (S k) ls) =? 0) && (f_len s =? max)) eqn:Eend.
  { apply andb_true_iff in Eend as [Eo%Z.eqb_eq El%Z.eqb_eq]. assert (HSk : S k = length ls) by (by apply (last_code k _ Hlen)).
    eexists. split; [done|]. cbn. split; [done|]. split; cbn.
    - rewrite HSk, cpos_all, Hfull by lia. rewrite <- brev_mod, Z_mod_same_full, brev_zero by lia. done.
    - split; [done|]. rewrite <- HSk. split; [|split; [done|split]].
      + destruct Hphase as [(_ & _ & _ & _ & -> & _)|(R & e & Hp)]; [done|]. by destruct Hp as (_ & _ & _ & _ & _ & _ & _ & _ & _ & _ & _ & ? & _).
      + destruct Hphase as [(_ & _ & _ & _ & -> & _)|(R & e & Hp)]; [by left|right].
        destruct Hp as (_ & _ & _ & _ & _ & _ & _ & _ & Hsz & _ & -> & _). eexists _, _, e. split; [exact Hsz|]. lia.
      + destruct Hphase as [(_ & -> & -> & _ & -> & _)|(R & e & Hp)]; [done|]. by destruct Hp as (_ & _ & _ & _ & _ & _ & _ & _ & _ & _ & ? & _). }
  assert (HSk : (S k < length ls)%nat).
  { pose proof (lookup_lt_Some _ _ _ Hlen). destruct (decide (S k = length ls)) as [E|]; [|lia]. apply (last_code k _ Hlen) in E as [E1 E2].
    rewrite E1, <- E2, !Z.eqb_refl in Eend. done. }
  destruct (next_len k _ Hlen HSk) as (l' & Hl' & Hnew & Hold).
  assert (Hnl : (if occ (f_len s) (drop (S k) ls) =? 0 then w ← elem_at work (f_sym s + 1); elem_at lens w else Ok (f_len s)) = Ok l').
  { destruct (Z.eqb_spec (occ (f_len s) (drop (S k) ls)) 0) as [Eo|Eo]; [|by rewrite Hold]. destruct (Hnew Eo) as (w & Hw & Hlw).
    rewrite (elem_at_lookup work (f_sym s + 1) w) by (rewrite Hsym; first [lia|by replace (Z.to_nat (Z.of_nat k + 1)) with (S k) by lia]). done. }
  cbn [f_sym f_len] in *. rewrite Hnl. cbn. rewrite land_mask by lia. rewrite brev_mod_low by lia.
  match goal with |- context [new_subtable _ _ _ _ ?x] => set (s' := x) end.
  assert (HA : advanced k s s') by (unfold s'; split; cbn; (done || lia)).
  assert (Hlen' : f_len s' = l') by done. clearbody s'.
  assert (Hstart : forall R, block_start (S k) R s' -> exists e, new_subtable type root max (2 ^ root - 1) s' = Ok e /\
    match e with Goes s' => fill_inv (S k) s' | Breaks s' => S k = length ls /\ filled s' | NotEnough _ => type = LENS /\ ~ fits (ENOUGH - MAXD - 1) end).
  { intros R HB. destruct (new_subtable_spec (S k) R s' HB) as (e & He & Hm). exists e. split; [done|]. by destruct e. }
  destruct Hphase as [Hroot_phase|Hsub].
  - pose proof Hroot_phase as (Hdz & Hnz & Hcz & Hlz & Huz & _). rewrite Hlz. rewrite (proj2 (Z.eqb_neq _ _)).
    2:{ pose proof (brev_range root (cpos max ls (S k) `div` 2 ^ (max - root)) ltac:(lia)). pose proof (pow2_mono root 15 ltac:(lia)). change (u32 (-1)) with 4294967295. change (2 ^ 15) with 32768 in *. lia. }
    destruct (Z.ltb_spec root l') as [Hlong|Hshort']; cbn.
    + destruct (advance_root k s s' Hlen Hroot_phase HA ltac:(lia)) as [HB _]. by apply (Hstart first_prefix).
    + eexists. split; [done|]. destruct HA. destruct ad_same0 as (E1 & E2 & E3 & E4 & E5). repeat (split; [done|]). left. unfold root_phase. rewrite E1, E2, E3, E4, E5. repeat split; (done || lia).
  - destruct (advance_sub k s s' Hlen Hsub HA) as (R & HR & Hlow & Hlong & Hcase). destruct HA. destruct ad_same0 as (_ & _ & E3 & _). rewrite <- E3, Hlow.
    rewrite (proj2 (Z.ltb_lt root l')) by lia. destruct Hcase as [[HI' ->]|[HB ->]].
    + rewrite Z.eqb_refl. eexists. split; [done|]. done.
    + rewrite (proj2 (Z.eqb_neq _ _)); [by apply (Hstart (R + 1))|]. intros E. apply (f_equal (brev root)) in E.
      assert (R + 1 < 2 ^ root).
      { destruct HB. pose proof (cpos_mono_lt max 1 ls Hin (S k) (length ls) ltac:(lia)) as Hlt. rewrite (cpos_all _ _ (length ls)), Hfull in Hlt by lia.
        destruct bs_prefix0 as [_ Hp]. rewrite Hp, (pow2_split max root) in Hlt by lia. pose proof (pow2_pos (max - root) ltac:(lia)). nia. }
      rewrite !brev_involutive in E by lia. lia.
Qed.

(** The loop, from any reachable state. *)
Lemma table_loop_spec fuel : forall k s, fill_inv k s -> (length ls - k < fuel)%nat ->
  exists r, table_loop fuel type lens work root max (2 ^ root - 1) s = Ok r /\
  match r with inl s' => filled s' | inr _ => type = LENS /\ ~ fits (ENOUGH - MAXD - 1) end.
Proof.
  induction fuel as [|fuel IH]; intros k s HI Hf; [lia|]. destruct (table_step_spec k s HI) as (e & He & Hspec). simpl. rewrite He. cbn.
  assert (Hk : (k < length ls)%nat) by (destruct HI as (_ & Hk & _); by eapply lookup_lt_Some).
  destruct e as [s'|s'|s'].
  - apply (IH (S k)); [done|lia].
  - eexists. split; [done|]. apply Hspec.
  - eexists. split; [done|]. done.
Qed.

End fill.
