(* ===== verification/InftreesSort.v ===== *)
(** * The counting sort of [inflate_table]

    The loops before the table is built: the counts of the code lengths
    ([count_lengths_spec]), the longest and shortest length ([find_max_spec],
    [find_min_spec]), the check of the Kraft sum ([check_left_spec]) and the
    sort of the symbols by length ([sort_symbols_spec]), which leaves
    [sorted_syms] at the front of [work]. *)

From S2P Require Import Prelude Inftrees BitRev Canon.

(** The code length of a symbol, and the symbols of a length in order. *)
Definition len_of (lens : list Z) (sym : Z) : Z := default 0 (lens !! Z.to_nat sym).
Definition syms_of (lens : list Z) (syms : list Z) (l : Z) : list Z := filter (fun s => len_of lens s = l) syms.
Definition sorted_upto (lens syms : list Z) (m : Z) : list Z := concat (syms_of lens syms <$> seqZ 1 m).

(** The coded symbols by length, then by value. *)
Definition sorted_syms (lens : list Z) (codes : Z) : list Z := sorted_upto lens (seqZ 0 codes) 15.
Definition sorted_lens (lens : list Z) (codes : Z) : list Z := len_of lens <$> sorted_syms lens codes.

(** The number of symbols with a code shorter than [l]. *)
Definition start_of (ls : list Z) (l : Z) : Z := zlen (filter (fun x => 0 < x < l) ls).

Lemma start_1 ls : start_of ls 1 = 0.
Proof. unfold start_of. rewrite list_filter_none; [done|]. apply Forall_forall. lia. Qed.

Lemma start_succ ls l : 0 < l -> start_of ls (l + 1) = start_of ls l + occ l ls.
Proof.
  intros Hl. unfold start_of. induction ls as [|x ls IH]; [done|]. rewrite occ_cons, !filter_cons.
  destruct (decide (0 < x < l + 1)), (decide (0 < x < l)), (decide (x = l)); rewrite ?zlen_cons; lia.
Qed.

Lemma start_mono ls a b : a <= b -> start_of ls a <= start_of ls b.
Proof.
  intros Hab. unfold start_of. induction ls as [|x ls IH]; [done|]. rewrite !filter_cons.
  destruct (decide (0 < x < a)), (decide (0 < x < b)); rewrite ?zlen_cons; lia.
Qed.

Lemma start_le ls l : 0 <= start_of ls l <= zlen ls.
Proof. unfold start_of, zlen. pose proof (length_filter (fun x => 0 < x < l) ls). lia. Qed.

Lemma zlen_syms_of lens syms l : zlen (syms_of lens syms l) = occ l (len_of lens <$> syms).
Proof.
  unfold syms_of. induction syms as [|s syms IH]; [done|]. rewrite fmap_cons, occ_cons, filter_cons.
  destruct (decide (len_of lens s = l)); rewrite ?zlen_cons; lia.
Qed.

Lemma sorted_upto_succ lens syms m : 0 <= m -> sorted_upto lens syms (m + 1) = sorted_upto lens syms m ++ syms_of lens syms (m + 1).
Proof.
  intros Hm. unfold sorted_upto. rewrite seqZ_app by lia. rewrite fmap_app, concat_app. f_equal.
  replace (1 + m) with (m + 1) by lia. rewrite seqZ_cons by lia. simpl. by rewrite app_nil_r.
Qed.

Lemma zlen_sorted_upto lens syms m : 0 <= m -> zlen (sorted_upto lens syms m) = start_of (len_of lens <$> syms) (m + 1).
Proof.
  intros Hm. pattern m. apply bits_ind; [by rewrite start_1| |done]. clear m Hm. intros m Hm IH.
  rewrite sorted_upto_succ, zlen_app, IH, zlen_syms_of by done. rewrite (start_succ _ (m + 1)) by lia. done.
Qed.

(** ** Properties of the sorted lengths *)

Lemma fmap_syms_of lens syms l : Forall (fun x => x = l) (len_of lens <$> syms_of lens syms l).
Proof. apply Forall_fmap, Forall_forall. intros s Hs. by apply list_elem_of_filter in Hs as [? _]. Qed.

Lemma sorted_upto_lens lens syms m : 0 <= m ->
  Forall (fun x => 1 <= x <= m) (len_of lens <$> sorted_upto lens syms m) /\ StronglySorted Z.le (len_of lens <$> sorted_upto lens syms m)
  /\ forall j, occ j (len_of lens <$> sorted_upto lens syms m) = if decide (1 <= j <= m) then occ j (len_of lens <$> syms) else 0.
Proof.
  intros Hm. pattern m. apply bits_ind; [|clear m Hm; intros m Hm (IH1 & IH2 & IH3)|done].
  - split; [constructor|]. split; [constructor|]. intros j. rewrite decide_False by lia. done.
  - rewrite sorted_upto_succ, fmap_app by done. pose proof (fmap_syms_of lens syms (m + 1)) as Hall. split; [|split].
    + apply Forall_app. split; eapply Forall_impl; [exact IH1| |exact Hall|]; simpl; intros; lia.
    + apply StronglySorted_app. split; [|split; [done|]].
      * intros x y Hx Hy. rewrite Forall_forall in IH1, Hall. specialize (IH1 x Hx). specialize (Hall y Hy). simpl in *. lia.
      * clear -Hall. induction Hall as [|x l Hx Hl IH]; constructor; [done|]. eapply Forall_impl; [exact Hl|]. simpl. intros; lia.
    + intros j. rewrite occ_app, IH3. unfold occ at 2. destruct (decide (j = m + 1)) as [->|Hne].
      * rewrite list_filter_all by done. rewrite decide_False, decide_True by lia. unfold zlen. rewrite length_fmap. apply zlen_syms_of.
      * rewrite list_filter_none.
        -- rewrite Z.add_0_r. by destruct (decide (1 <= j <= m)), (decide (1 <= j <= m + 1)); try lia.
        -- eapply Forall_impl; [exact Hall|]. simpl. intros; lia.
Qed.

Lemma sorted_lens_facts lens codes : let ls := sorted_lens lens codes in
  lens_in 1 15 ls /\ StronglySorted Z.le ls /\ forall j, 1 <= j <= 15 -> occ j ls = occ j (len_of lens <$> seqZ 0 codes).
Proof.
  destruct (sorted_upto_lens lens (seqZ 0 codes) 15 ltac:(lia)) as (H1 & H2 & H3). split; [done|]. split; [done|].
  intros j Hj. unfold sorted_lens, sorted_syms. rewrite H3, decide_True by done. done.
Qed.

Lemma elem_sorted_syms lens codes s : s ∈ sorted_syms lens codes <-> 0 <= s < codes /\ 1 <= len_of lens s <= 15.
Proof.
  unfold sorted_syms, sorted_upto. rewrite list_elem_of_In, in_concat. setoid_rewrite <- list_elem_of_In. setoid_rewrite list_elem_of_fmap. split.
  - intros (x & (l & -> & Hl) & Hs). unfold syms_of in Hs. apply list_elem_of_filter in Hs as [<- Hs%elem_of_seqZ]. apply elem_of_seqZ in Hl. lia.
  - intros [Hs Hl]. eexists. split; [exists (len_of lens s); split; [done|apply elem_of_seqZ; lia]|].
    apply list_elem_of_filter. split; [done|apply elem_of_seqZ; lia].
Qed.

Lemma sorted_syms_NoDup lens codes : NoDup (sorted_syms lens codes).
Proof.
  unfold sorted_syms. assert (H : forall m, 0 <= m -> NoDup (sorted_upto lens (seqZ 0 codes) m)); [|apply H; lia].
  intros m Hm. pattern m. apply bits_ind; [constructor|clear m Hm; intros m Hm IH|done]. rewrite sorted_upto_succ by done.
  apply NoDup_app. split; [done|]. split; [|apply NoDup_filter, NoDup_seqZ].
  intros s Hs Hs'. apply list_elem_of_filter in Hs' as [E _]. destruct (sorted_upto_lens lens (seqZ 0 codes) m Hm) as (Hall & _).
  rewrite Forall_forall in Hall. pose proof (Hall (len_of lens s) ltac:(by apply list_elem_of_fmap_2)). simpl in *. lia.
Qed.

(** ** The counts *)

Lemma len_at lens s : 0 <= s < zlen lens -> elem_at lens s = Ok (len_of lens s).
Proof.
  intros Hs. unfold len_of, zlen in *. destruct (lookup_lt_is_Some_2 lens (Z.to_nat s)) as [x Hx]; [lia|].
  rewrite Hx. apply elem_at_lookup; [lia|done].
Qed.

Section lengths.
Context (lens : list Z) (codes : Z).
Context (Hcodes : 0 <= codes <= zlen lens) (Hsmall : codes < 2 ^ 14).
Context (Hlens : forall s, 0 <= s < codes -> 0 <= len_of lens s <= 15).
#[local] Set Default Proof Using "All".

Abbreviation all_syms := (seqZ 0 codes).
Abbreviation all_lens := (len_of lens <$> seqZ 0 codes).
Abbreviation ls := (sorted_lens lens codes).

Lemma zlen_all : zlen all_lens = codes.
Proof. unfold zlen. rewrite length_fmap, length_seqZ. lia. Qed.

Lemma count_lengths_gen syms : (forall s, s ∈ syms -> 0 <= s < codes) -> forall count, length count = 16%nat ->
  (forall j c, 0 <= j <= 15 -> count !! Z.to_nat j = Some c -> 0 <= c /\ c + zlen syms < 2 ^ 16) ->
  exists count', count_lengths lens syms count = Ok count' /\ length count' = 16%nat
    /\ forall j c, 0 <= j <= 15 -> count !! Z.to_nat j = Some c -> count' !! Z.to_nat j = Some (c + occ j (len_of lens <$> syms)).
Proof.
  induction syms as [|s syms IH]; intros Hsyms count H16 Hc.
  - exists count. split; [done|]. split; [done|]. intros j c Hj Hcj. rewrite Hcj. f_equal. unfold occ, zlen. simpl. lia.
  - pose proof (Hsyms s ltac:(by left)) as Hs. pose proof (Hlens s Hs) as Hl. cbn [count_lengths]. rewrite len_at by lia. cbn [mbind outcome_bind].
    destruct (lookup_lt_is_Some_2 count (Z.to_nat (len_of lens s))) as [c0 Hc0]; [lia|]. rewrite (elem_at_lookup _ _ c0) by (done || lia). cbn [mbind outcome_bind].
    assert (H16' : zlen count = 16) by (unfold zlen; lia). rewrite elem_set_in by lia. cbn [mbind outcome_bind].
    pose proof (Hc (len_of lens s) c0 Hl Hc0) as [Hc0p Hc0s]. rewrite zlen_cons in *. pose proof (zlen_nonneg syms).
    assert (Hu : u16 (c0 + 1) = c0 + 1) by (apply u16_small; unfold is_u16; lia). rewrite Hu.
    destruct (IH ltac:(intros x Hx; apply Hsyms; by right) (<[Z.to_nat (len_of lens s):=c0 + 1]> count)) as (count' & Hok & Hlen & Hget).
    + by rewrite length_insert.
    + intros j c Hj. rewrite lookup_insert_Z by lia. destruct (decide (len_of lens s = j)) as [E|Hne]; intros Hcj.
      * injection Hcj as <-. lia.
      * specialize (Hc j c Hj Hcj). lia.
    + exists count'. split; [done|]. split; [done|]. intros j c Hj Hcj. rewrite fmap_cons, occ_cons. specialize (Hget j).
      rewrite lookup_insert_Z in Hget by lia. destruct (decide (len_of lens s = j)) as [<-|Hne].
      * rewrite (Hget (c0 + 1) Hj eq_refl). simplify_eq. f_equal. lia.
      * rewrite (Hget c Hj Hcj). done.
Qed.

Lemma count_lengths_spec : exists count, count_lengths lens all_syms (replicate 16 0) = Ok count /\ length count = 16%nat
  /\ forall j, 0 <= j <= 15 -> count !! Z.to_nat j = Some (occ j all_lens).
Proof.
  destruct (count_lengths_gen all_syms ltac:(intros s Hs%elem_of_seqZ; lia) (replicate 16 0)) as (count & Hok & Hlen & Hget).
  - done.
  - intros j c Hj Hc. apply lookup_replicate in Hc as [-> _]. unfold zlen. rewrite length_seqZ. lia.
  - exists count. split; [done|]. split; [done|]. intros j Hj. apply (Hget j 0 Hj). apply lookup_replicate. split; [done|lia].
Qed.

Context (count : list Z) (H16 : length count = 16%nat) (Hcount : forall j, 0 <= j <= 15 -> count !! Z.to_nat j = Some (occ j all_lens)).

Lemma count_at j : 0 <= j <= 15 -> elem_at count j = Ok (occ j all_lens).
Proof. intros Hj. apply elem_at_lookup; [lia|auto]. Qed.

Lemma find_max_spec m : (m <= 15)%nat -> exists max, find_max m count = Ok max /\ 0 <= max <= Z.of_nat m
  /\ (forall j, max < j <= Z.of_nat m -> occ j all_lens = 0) /\ (0 < max -> 0 < occ max all_lens).
Proof.
  induction m as [|m IH]; intros Hm; cbn [find_max]; [exists 0; repeat split; (done || lia)|].
  rewrite count_at by lia. cbn [mbind outcome_bind]. pose proof (occ_nonneg (Z.of_nat (S m)) all_lens). destruct (Z.eqb_spec (occ (Z.of_nat (S m)) all_lens) 0) as [E|E].
  - destruct (IH ltac:(lia)) as (max & -> & Hmax & Hz & Hp). exists max. split; [done|]. split; [lia|]. split; [|done].
    intros j Hj. destruct (decide (j = Z.of_nat (S m))) as [->|]; [done|]. apply Hz. lia.
  - exists (Z.of_nat (S m)). split; [done|]. repeat split; try lia.
Qed.

Lemma find_min_gen n : forall a, 1 <= a -> a + Z.of_nat n = 16 -> (forall j, 1 <= j < a -> occ j all_lens = 0) ->
  exists min, find_min (seqZ a (Z.of_nat n)) count = Ok min /\ a <= min <= 16
  /\ (forall j, 1 <= j < min -> occ j all_lens = 0) /\ (min < 16 -> 0 < occ min all_lens).
Proof.
  induction n as [|n IH]; intros a Ha Han Hz.
  - exists 16. split; [done|]. split; [lia|]. split; [|lia]. intros j Hj. apply Hz. lia.
  - rewrite seqZ_cons by lia. cbn [find_min]. rewrite count_at by lia. cbn [mbind outcome_bind]. pose proof (occ_nonneg a all_lens).
    destruct (Z.eqb_spec (occ a all_lens) 0) as [E|E].
    + replace (Z.pred (Z.of_nat (S n))) with (Z.of_nat n) by lia. replace (Z.succ a) with (a + 1) by lia.
      destruct (IH (a + 1) ltac:(lia) ltac:(lia)) as (min & -> & Hmin & Hz' & Hp).
      * intros j Hj. destruct (decide (j = a)) as [->|]; [done|]. apply Hz. lia.
      * exists min. repeat split; (done || lia).
    + exists a. split; [done|]. split; [lia|]. split; [done|lia].
Qed.

Lemma find_min_spec : exists min, find_min (seqZ 1 15) count = Ok min /\ 1 <= min <= 16
  /\ (forall j, 1 <= j < min -> occ j all_lens = 0) /\ (min < 16 -> 0 < occ min all_lens).
Proof. apply (find_min_gen 15 1); [lia|done|lia]. Qed.

(** The check: [None] when the code takes more than all 15-bit words, otherwise what it leaves. *)
Lemma check_left_gen n : forall a rest, 1 <= a -> a + Z.of_nat n = 16 -> 0 <= rest ->
  rest * 2 ^ (15 - (a - 1)) = 2 ^ 15 - ksum 15 (filter (fun x => x < a) ls) ->
  check_left (seqZ a (Z.of_nat n)) count rest = Ok (if ksum 15 ls <=? 2 ^ 15 then Some (2 ^ 15 - ksum 15 ls) else None).
Proof.
  destruct (sorted_lens_facts lens codes) as (Hin & _ & Hocc). cbv zeta in *.
  induction n as [|n IH]; intros a rest Ha Han Hrest Hk.
  - rewrite seqZ_nil by lia. cbn [check_left]. rewrite list_filter_all in Hk.
    + replace (15 - (a - 1)) with 0 in Hk by lia. change (2 ^ 0) with 1 in Hk. assert (E : rest = 2 ^ 15 - ksum 15 ls) by lia. rewrite (proj2 (Z.leb_le _ _)) by lia. by rewrite E.
    + eapply Forall_impl; [exact Hin|]. simpl. intros; lia.
  - rewrite seqZ_cons by lia. cbn [check_left]. rewrite count_at by lia. cbn [mbind outcome_bind]. rewrite Z.shiftl_mul_pow2 by lia. change (2 ^ 1) with 2.
    pose proof (ksum_filter_succ 15 a ls) as Hs. rewrite Hocc in Hs by lia. pose proof (pow2_pos (15 - a) ltac:(lia)) as Hp.
    replace (15 - (a - 1)) with (15 - a + 1) in Hk by lia. rewrite pow2_succ in Hk by lia.
    assert (Hk' : (rest * 2 - occ a all_lens) * 2 ^ (15 - a) = 2 ^ 15 - ksum 15 (filter (fun x => x < a + 1) ls)) by lia.
    destruct (Z.ltb_spec (rest * 2 - occ a all_lens) 0) as [Hneg|Hnn].
    + pose proof (ksum_filter_le 15 1 (fun x => x < a + 1) ls Hin). rewrite (proj2 (Z.leb_gt _ _)); [done|].
      assert ((rest * 2 - occ a all_lens) * 2 ^ (15 - a) < 0) by (apply Z.mul_neg_pos; lia). lia.
    + replace (Z.pred (Z.of_nat (S n))) with (Z.of_nat n) by lia. replace (Z.succ a) with (a + 1) by lia.
      apply IH; [lia|lia|lia|]. replace (15 - (a + 1 - 1)) with (15 - a) by lia. done.
Qed.

Lemma check_left_spec : check_left (seqZ 1 15) count 1 = Ok (if ksum 15 ls <=? 2 ^ 15 then Some (2 ^ 15 - ksum 15 ls) else None).
Proof.
  apply (check_left_gen 15 1); [lia|done|lia|]. rewrite list_filter_none; [done|]. destruct (sorted_lens_facts lens codes) as (Hin & _).
  eapply Forall_impl; [exact Hin|]. simpl. intros; lia.
Qed.

(** ** The offsets and the sort *)

Lemma start_small l : 0 <= start_of all_lens l < 2 ^ 14.
Proof. pose proof (start_le all_lens l). rewrite zlen_all in *. lia. Qed.

Lemma make_offs_gen n : forall a offs, 1 <= a -> a + Z.of_nat n = 15 -> length offs = 16%nat ->
  (forall l, 1 <= l <= a -> offs !! Z.to_nat l = Some (start_of all_lens l)) ->
  exists offs', make_offs (seqZ a (Z.of_nat n)) count offs = Ok offs' /\ length offs' = 16%nat
    /\ forall l, 1 <= l <= 15 -> offs' !! Z.to_nat l = Some (start_of all_lens l).
Proof.
  induction n as [|n IH]; intros a offs Ha Han Ho Hl.
  - rewrite seqZ_nil by lia. exists offs. split; [done|]. split; [done|]. intros l Hl'. apply Hl. lia.
  - rewrite seqZ_cons by lia. cbn [make_offs]. rewrite (elem_at_lookup offs a _ ltac:(lia) (Hl a ltac:(lia))). cbn [mbind outcome_bind].
    rewrite count_at by lia. cbn [mbind outcome_bind]. rewrite <- start_succ by lia. pose proof (start_small (a + 1)). change (2 ^ 14) with 16384 in *.
    rewrite u16_small by (unfold is_u16; change (2 ^ 16) with 65536; lia). assert (zlen offs = 16) by (unfold zlen; lia). rewrite elem_set_in by lia. cbn [mbind outcome_bind].
    replace (Z.pred (Z.of_nat (S n))) with (Z.of_nat n) by lia. replace (Z.succ a) with (a + 1) by lia.
    apply IH; [lia|lia|by rewrite length_insert|]. intros l Hl'. rewrite lookup_insert_Z by lia.
    destruct (decide (a + 1 = l)) as [<-|]; [done|]. apply Hl. lia.
Qed.

Lemma make_offs_spec : exists offs, make_offs (seqZ 1 14) count (replicate 16 0) = Ok offs /\ length offs = 16%nat
  /\ forall l, 1 <= l <= 15 -> offs !! Z.to_nat l = Some (start_of all_lens l).
Proof.
  apply (make_offs_gen 14 1); [lia|done|done|]. intros l Hl. assert (l = 1) as -> by lia. by rewrite start_1.
Qed.

(** Blocks of different lengths do not overlap. *)
Lemma blocks_disjoint l l' i i' : 1 <= l <= 15 -> 1 <= l' <= 15 -> l <> l' -> 0 <= i < occ l all_lens -> 0 <= i' < occ l' all_lens ->
  start_of all_lens l + i <> start_of all_lens l' + i'.
Proof.
  intros Hl Hl' Hne Hi Hi'. pose proof (start_succ all_lens l ltac:(lia)). pose proof (start_succ all_lens l' ltac:(lia)).
  assert (l < l' \/ l' < l) as [?|?] by lia.
  - pose proof (start_mono all_lens (l + 1) l' ltac:(lia)). lia.
  - pose proof (start_mono all_lens (l' + 1) l ltac:(lia)). lia.
Qed.

Definition placed (done : list Z) (offs work : list Z) : Prop :=
  forall l, 1 <= l <= 15 -> offs !! Z.to_nat l = Some (start_of all_lens l + zlen (syms_of lens done l))
    /\ forall i x, syms_of lens done l !! i = Some x -> work !! Z.to_nat (start_of all_lens l + Z.of_nat i) = Some x.

Lemma syms_of_app done rest l : syms_of lens (done ++ rest) l = syms_of lens done l ++ syms_of lens rest l.
Proof. unfold syms_of. apply filter_app. Qed.

Lemma sort_symbols_gen rest : forall done offs work, all_syms = done ++ rest -> length offs = 16%nat -> codes <= zlen work -> placed done offs work ->
  exists offs' work', sort_symbols lens rest offs work = Ok work' /\ zlen work' = zlen work /\ placed all_syms offs' work'.
Proof.
  induction rest as [|s rest IH]; intros dn offs work Hall Ho Hw Hp.
  - rewrite app_nil_r in Hall. subst dn. exists offs, work. done.
  - assert (Hs : 0 <= s < codes) by (apply (elem_of_seqZ 0 codes); rewrite Hall; apply elem_of_app; right; left).
    cbn [sort_symbols]. rewrite len_at by lia. cbn [mbind outcome_bind]. pose proof (Hlens s Hs) as Hl.
    assert (Hnext : all_syms = (dn ++ [s]) ++ rest) by (by rewrite <- app_assoc).
    destruct (Z.eqb_spec (len_of lens s) 0) as [E|E].
    { apply (IH (dn ++ [s])); [done|done|done|]. intros l Hl'. rewrite syms_of_app. unfold syms_of at 2 4. rewrite filter_cons_False by lia.
      rewrite filter_nil, app_nil_r. by apply Hp. }
    set (l := len_of lens s) in *. destruct (Hp l ltac:(lia)) as [Hol _]. set (d := syms_of lens dn l) in *.
    assert (Hd : zlen d + 1 <= occ l all_lens).
    { rewrite <- zlen_syms_of, Hall, syms_of_app. unfold syms_of at 2. rewrite filter_cons_True by done. rewrite zlen_app, zlen_cons.
      unfold d. pose proof (zlen_nonneg (filter (fun s0 => len_of lens s0 = l) rest)). lia. }
    pose proof (zlen_nonneg d). pose proof (start_succ all_lens l ltac:(lia)). pose proof (start_small (l + 1)). pose proof (start_small l).
    pose proof (start_le all_lens (l + 1)) as Hsl. rewrite zlen_all in Hsl. change (2 ^ 14) with 16384 in *.
    rewrite (elem_at_lookup offs l _ ltac:(lia) Hol). cbn [mbind outcome_bind]. rewrite (u16_small s) by (unfold is_u16; change (2 ^ 16) with 65536; lia).
    rewrite (elem_set_in work) by lia. cbn [mbind outcome_bind]. assert (zlen offs = 16) by (unfold zlen; lia). rewrite elem_set_in by lia. cbn [mbind outcome_bind].
    rewrite u16_small by (unfold is_u16; change (2 ^ 16) with 65536; lia).
    destruct (IH (dn ++ [s]) (<[Z.to_nat l:=start_of all_lens l + zlen d + 1]> offs) (<[Z.to_nat (start_of all_lens l + zlen d):=s]> work)) as (offs' & work' & Hok & Hz & Hp').
    + done.
    + by rewrite length_insert.
    + by rewrite zlen_insert.
    + intros l' Hl'. rewrite syms_of_app. unfold syms_of at 2 4. destruct (Hp l' Hl') as [Hol' Hwl']. rewrite lookup_insert_Z by lia.
      destruct (decide (l = l')) as [<-|Hne].
      * rewrite filter_cons_True, filter_nil by done. split; [f_equal; rewrite zlen_app; change (zlen [s]) with 1; unfold d; lia|].
        intros i x Hi. rewrite lookup_insert_Z by lia. apply lookup_app_Some in Hi as [Hi|[Hge Hi]].
        -- rewrite decide_False; [by apply Hwl'|]. apply lookup_lt_Some in Hi. unfold d, zlen. lia.
        -- apply list_lookup_singleton_Some in Hi as [Hi <-]. rewrite decide_True; [done|]. unfold d, zlen. lia.
      * rewrite filter_cons_False, filter_nil, app_nil_r by done. split; [done|]. intros i x Hi. rewrite lookup_insert_Z.
        -- rewrite decide_False; [by apply Hwl'|]. pose proof (lookup_lt_Some _ _ _ Hi) as Hilt. apply (blocks_disjoint l l'); [lia|lia|done|lia|].
           rewrite <- zlen_syms_of, Hall, syms_of_app, zlen_app. pose proof (zlen_nonneg (syms_of lens (s :: rest) l')). unfold zlen in *. lia.
        -- lia.
        -- pose proof (start_small l'). lia.
    + exists offs', work'. rewrite Hok, Hz, zlen_insert. done.
Qed.

Lemma placed_sorted offs work m : placed all_syms offs work -> codes <= zlen work -> 0 <= m <= 15 ->
  take (Z.to_nat (start_of all_lens (m + 1))) work = sorted_upto lens all_syms m.
Proof.
  intros Hp Hw [Hm Hm15]. revert Hm15. pattern m. apply bits_ind; [intros _; by rewrite start_1| |done]. clear m Hm. intros m Hm IH Hm15.
  rewrite sorted_upto_succ, <- IH, (start_succ _ (m + 1)) by lia. pose proof (start_small (m + 1)). pose proof (occ_nonneg (m + 1) all_lens).
  pose proof (start_succ all_lens (m + 1) ltac:(lia)). pose proof (start_le all_lens (m + 1 + 1)) as Hsl. rewrite zlen_all in Hsl.
  rewrite Z2Nat.inj_add by lia. rewrite <- (take_drop (Z.to_nat (start_of all_lens (m + 1))) work) at 1.
  assert (Hlt : length (take (Z.to_nat (start_of all_lens (m + 1))) work) = Z.to_nat (start_of all_lens (m + 1))) by (rewrite length_take; unfold zlen in *; lia).
  rewrite <- Hlt at 1. rewrite take_app_add'. 2: done. f_equal. destruct (Hp (m + 1) ltac:(lia)) as [_ Hget]. rewrite <- zlen_syms_of.
  apply list_eq. intros i. destruct (decide (i < Z.to_nat (zlen (syms_of lens all_syms (m + 1))))%nat) as [Hi|Hi].
  - rewrite lookup_take_lt, lookup_drop by done. destruct (lookup_lt_is_Some_2 (syms_of lens all_syms (m + 1)) i) as [x Hx]; [unfold zlen in Hi; lia|].
    rewrite Hx, <- (Hget i x Hx). f_equal. lia.
  - rewrite lookup_take_ge, lookup_ge_None_2 by (unfold zlen in *; lia). done.
Qed.

(** The sort leaves the coded symbols at the front of [work]. *)
Lemma sort_symbols_spec work offs : codes <= zlen work -> length offs = 16%nat ->
  (forall l, 1 <= l <= 15 -> offs !! Z.to_nat l = Some (start_of all_lens l)) ->
  exists work', sort_symbols lens all_syms offs work = Ok work' /\ zlen work' = zlen work
    /\ take (length (sorted_syms lens codes)) work' = sorted_syms lens codes.
Proof.
  intros Hw Ho Hoffs. destruct (sort_symbols_gen all_syms [] offs work eq_refl Ho Hw) as (offs' & work' & Hok & Hz & Hp).
  - intros l Hl. split; [rewrite Hoffs by done; f_equal; unfold zlen; simpl; lia|]. intros i x Hi. done.
  - exists work'. split; [done|]. split; [done|]. rewrite length_zlen. unfold sorted_syms at 1. rewrite zlen_sorted_upto by lia.
    apply (placed_sorted offs'); [done|lia|lia].
Qed.

End lengths.
