(* ===== verification/InftreesSpec.v ===== *)
(** * What [inflate_table] builds

    The codes are the ones of RFC 1951: [code_val] numbers the symbols of a
    length in order, after all shorter codes, and [huff_code] is that number
    with its first bit lowest.  [entry_for] says what the table yields for an
    input: an entry of the root table, or a link and an entry of the sub-table
    it points to.  [table_complete_spec] is the functional correctness of
    [inflate_table] on a complete code, [inflate_table_cases] the outcome on
    any lengths; [fits_codes], [fits_lens] and [fits_dists] bound the size of
    the tables by the number of symbols. *)

From S2P Require Import Prelude Inftrees BitRev Canon InftreesFill InftreesSort.

(** ** The canonical code of a symbol *)

(** Codes of [l] bits that are taken by shorter codes, and the symbols of the
    same length before [s]. *)
Definition code_val (lens : list Z) (codes s : Z) : Z :=
  let l := len_of lens s in
  ksum l (filter (fun x => 0 < x < l) (len_of lens <$> seqZ 0 codes)) + zlen (syms_of lens (seqZ 0 s) l).
Definition huff_code (lens : list Z) (codes s : Z) : Z := brev (len_of lens s) (code_val lens codes s).

Definition coded (lens : list Z) (codes s : Z) : Prop := 0 <= s < codes /\ 1 <= len_of lens s <= 15.

(** The entry of symbol [s]. *)
Definition sym_entry (type : codetype) (s bits : Z) : code :=
  match type with
  | CODES => mkCode 0 bits s
  | LENS => if s <? 256 then mkCode 0 bits s
            else if s =? 256 then mkCode 96 bits 0
            else mkCode (default 0 (lext !! Z.to_nat (s - 257))) bits (default 0 (lbase !! Z.to_nat (s - 257)))
  | DISTS => mkCode (default 0 (dext !! Z.to_nat s)) bits (default 0 (dbase !! Z.to_nat s))
  end.

(** The symbols a code type has entries for. *)
Definition sym_limit (type : codetype) : Z := match type with CODES => 19 | LENS => 288 | DISTS => 32 end.

(** Reading input [h] through the table takes [l] bits and yields the entry
    [e b], with [b] the bits left to drop at the last step. *)
Definition entry_for (table : list code) (root h : Z) (e : Z -> code) (l : Z) : Prop :=
  (l <= root /\ table !! Z.to_nat (h `mod` 2 ^ root) = Some (e l))
  \/ exists off w, root < l <= root + w /\ root + w <= 15 /\ 0 <= off
     /\ table !! Z.to_nat (h `mod` 2 ^ root) = Some (mkCode w root off)
     /\ table !! Z.to_nat (off + (h `div` 2 ^ root) `mod` 2 ^ w) = Some (e (l - root)).

Lemma make_entry_sym type work k s b : work !! k = Some s -> 0 <= s < sym_limit type -> 0 < b <= 15 ->
  make_entry type work (Z.of_nat k) b = Ok (sym_entry type s b).
Proof.
  intros Hk Hs Hb. unfold make_entry. rewrite (elem_at_lookup work _ s) by (lia || by rewrite Nat2Z.id). cbn [mbind outcome_bind].
  assert (Hu : u8 b = b) by (apply u8_small; unfold is_u8; lia). rewrite Hu.
  assert (Hbytes : Forall is_u8 lext /\ Forall is_u8 dext) by by_decide. destruct Hbytes as [HL HD].
  destruct type; cbn [sym_limit end_of extra_of base_of fst snd sym_entry] in *.
  - rewrite (proj2 (Z.ltb_lt s 19)) by lia. done.
  - destruct (Z.ltb_spec s 256); [done|]. destruct (Z.ltb_spec 256 s), (Z.eqb_spec s 256); try lia; [|done].
    destruct (lookup_lt_is_Some_2 lext (Z.to_nat (s - 257))) as [e He]; [change (length lext) with 31%nat; lia|].
    destruct (lookup_lt_is_Some_2 lbase (Z.to_nat (s - 257))) as [d Hd]; [change (length lbase) with 31%nat; lia|].
    rewrite (elem_at_lookup lext _ e), (elem_at_lookup lbase _ d) by (done || lia). cbn. rewrite He, Hd. cbn. rewrite u8_small; [done|].
    exact (Forall_lookup_1 _ _ _ _ HL He).
  - rewrite (proj2 (Z.ltb_ge s (-1))), (proj2 (Z.ltb_lt (-1) s)), Z.sub_0_r by lia.
    destruct (lookup_lt_is_Some_2 dext (Z.to_nat s)) as [e He]; [change (length dext) with 32%nat; lia|].
    destruct (lookup_lt_is_Some_2 dbase (Z.to_nat s)) as [d Hd]; [change (length dbase) with 32%nat; lia|].
    rewrite (elem_at_lookup dext _ e), (elem_at_lookup dbase _ d) by (done || lia). cbn. rewrite He, Hd. cbn. rewrite u8_small; [done|].
    exact (Forall_lookup_1 _ _ _ _ HD He).
Qed.

Lemma sym_entry_bits type s b : c_bits (sym_entry type s b) = b.
Proof. destruct type; simpl; [done| |done]. by repeat case_match. Qed.

(** ** The index of a symbol *)

Lemma sorted_sym_index lens codes s : 0 <= codes -> coded lens codes s ->
  let k := Z.to_nat (start_of (len_of lens <$> seqZ 0 codes) (len_of lens s) + zlen (syms_of lens (seqZ 0 s) (len_of lens s))) in
  sorted_syms lens codes !! k = Some s
  /\ ksum 15 (take k (sorted_lens lens codes)) = code_val lens codes s * 2 ^ (15 - len_of lens s).
Proof.
  intros Hc [Hs Hl]. cbv zeta. set (l := len_of lens s) in *.
  assert (Hseq : seqZ 0 codes = seqZ 0 s ++ s :: seqZ (s + 1) (codes - s - 1)).
  { replace codes with (s + (1 + (codes - s - 1))) at 1 by lia. rewrite !seqZ_app by lia. rewrite Z.add_0_l. done. }
  assert (HD : syms_of lens (seqZ 0 codes) l = syms_of lens (seqZ 0 s) l ++ s :: syms_of lens (seqZ (s + 1) (codes - s - 1)) l).
  { rewrite Hseq. unfold syms_of. rewrite filter_app, filter_cons_True by done. done. }
  assert (Hsplit : sorted_syms lens codes = sorted_upto lens (seqZ 0 codes) (l - 1) ++ syms_of lens (seqZ 0 s) l ++ s :: syms_of lens (seqZ (s + 1) (codes - s - 1)) l
     ++ concat (syms_of lens (seqZ 0 codes) <$> seqZ (l + 1) (15 - l))).
  { unfold sorted_syms, sorted_upto at 1. replace 15 with ((l - 1) + (15 - l + 1)) at 1 by lia. rewrite seqZ_app, fmap_app, concat_app by lia. f_equal.
    replace (1 + (l - 1)) with l by lia. rewrite (seqZ_cons l) by lia. replace (Z.succ l) with (l + 1) by lia. replace (Z.pred (15 - l + 1)) with (15 - l) by lia.
    rewrite fmap_cons. cbn [concat]. rewrite HD, <- app_assoc. done. }
  pose proof (zlen_sorted_upto lens (seqZ 0 codes) (l - 1) ltac:(lia)) as Hz. replace (l - 1 + 1) with l in Hz by lia.
  set (A := sorted_upto lens (seqZ 0 codes) (l - 1)) in *. set (D := syms_of lens (seqZ 0 s) l) in *.
  assert (Hk : Z.to_nat (start_of (len_of lens <$> seqZ 0 codes) l + zlen D) = length (A ++ D)) by (rewrite length_app; unfold zlen in *; lia).
  rewrite Hk. split.
  - rewrite Hsplit, app_assoc. by rewrite list_lookup_middle.
  - unfold sorted_lens. rewrite <- fmap_take, Hsplit, app_assoc, take_app_length, fmap_app, ksum_app. unfold code_val. fold l. fold D.
    rewrite Z.mul_add_distr_r. f_equal.
    + unfold A. clear -Hl. assert (Hgen : forall m, 0 <= m < l -> ksum 15 (len_of lens <$> sorted_upto lens (seqZ 0 codes) m) =
          ksum l (filter (fun x => 0 < x < m + 1) (len_of lens <$> seqZ 0 codes)) * 2 ^ (15 - l)).
      { intros m [Hm Hml]. revert Hml. pattern m. apply bits_ind; [|clear m Hm; intros m Hm IH Hml|done].
        - intros _. rewrite list_filter_none; [done|]. apply Forall_forall. lia.
        - rewrite sorted_upto_succ, fmap_app, ksum_app, IH by lia. clear IH. unfold syms_of. induction (seqZ 0 codes) as [|x syms IH]; [done|].
          rewrite fmap_cons, !filter_cons. assert (Hp : 2 ^ (15 - (m + 1)) = 2 ^ (l - (m + 1)) * 2 ^ (15 - l)) by (rewrite <- Z.pow_add_r by lia; f_equal; lia).
          destruct (decide (0 < len_of lens x < m + 1)), (decide (len_of lens x = m + 1)), (decide (0 < len_of lens x < m + 1 + 1)); try lia;
            rewrite ?fmap_cons, ?ksum_cons, ?e; lia. }
      rewrite Hgen by lia. by replace (l - 1 + 1) with l by lia.
    + pose proof (fmap_syms_of lens (seqZ 0 s) l) as Hall. fold D in Hall. clearbody D. clear -Hall.
      unfold zlen. rewrite <- (length_fmap (len_of lens)). induction Hall as [|x xs -> _ IH]; [done|].
      rewrite ksum_cons, IH. cbn [length]. lia.
Qed.

(** ** Sorted lists *)

Lemma last_sorted (ls : list Z) m : StronglySorted Z.le ls -> m ∈ ls -> Forall (fun x => x <= m) ls -> last ls = Some m.
Proof.
  intros Hs Hm Hall. apply list_elem_of_lookup in Hm as [i Hi]. pose proof (lookup_lt_Some _ _ _ Hi). rewrite last_lookup.
  destruct (lookup_lt_is_Some_2 ls (pred (length ls))) as [y Hy]; [lia|]. rewrite Hy. f_equal.
  pose proof (sorted_le ls i (pred (length ls)) m y Hs ltac:(lia) Hi Hy). pose proof (Forall_lookup_1 _ _ _ _ Hall Hy). simpl in *. lia.
Qed.

Lemma head_sorted (ls : list Z) m : StronglySorted Z.le ls -> m ∈ ls -> Forall (fun x => m <= x) ls -> head ls = Some m.
Proof.
  intros Hs Hm Hall. destruct ls as [|x ls]; [by apply not_elem_of_nil in Hm|]. simpl. f_equal.
  apply Forall_cons in Hall as [Hx _]. apply list_elem_of_lookup in Hm as [i Hi]. pose proof (sorted_le (x :: ls) 0 i x m Hs ltac:(lia) eq_refl Hi). lia.
Qed.

(** The codes of at most [r] bits come first. *)
Definition short_codes (r : Z) (ls : list Z) : nat := length (filter (fun x => x <= r) ls).

Lemma short_codes_spec r (ls : list Z) k l : StronglySorted Z.le ls -> ls !! k = Some l -> (k < short_codes r ls)%nat <-> l <= r.
Proof.
  intros Hs. revert k. unfold short_codes. induction Hs as [|x ls Hs IH Hf]; intros k Hk; [done|]. rewrite filter_cons.
  destruct (decide (x <= r)) as [Hx|Hx].
  - destruct k as [|k]; simpl in *; [simplify_eq; lia|]. rewrite <- (IH k Hk). lia.
  - rewrite list_filter_none by (eapply Forall_impl; [exact Hf|simpl; lia]). simpl. split; [lia|]. intros Hl.
    destruct k as [|k]; simpl in Hk; [simplify_eq; lia|]. pose proof (Forall_lookup_1 _ _ _ _ Hf Hk). simpl in *. lia.
Qed.

(** ** The table of a complete code *)

Section table.
Context (type : codetype) (lens : list Z) (codes : Z) (table : list code) (bits : Z) (work : list Z).
Context (Hcodes : 0 <= codes <= zlen lens) (Hlimit : codes <= sym_limit type) (Hwork : codes <= zlen work) (Hbits : 1 <= bits <= 15).
Context (Hlens : forall s, 0 <= s < codes -> 0 <= len_of lens s <= 15).
#[local] Set Default Proof Using "All".

Abbreviation ls := (sorted_lens lens codes).
Abbreviation all_lens := (len_of lens <$> seqZ 0 codes).

(** The longest and shortest code, and the index bits of the root table. *)
Definition max_len : Z := default 0 (last ls).
Definition min_len : Z := default 0 (head ls).
Definition root_bits : Z := Z.max min_len (Z.min bits max_len).

Lemma codes_small : codes < 2 ^ 14.
Proof. change (2 ^ 14) with 16384. destruct type; simpl in Hlimit; lia. Qed.

Lemma zlen_ls : zlen ls <= codes.
Proof.
  unfold sorted_lens, sorted_syms, zlen at 1. rewrite length_fmap. change (zlen (sorted_upto lens (seqZ 0 codes) 15) <= codes).
  rewrite zlen_sorted_upto by lia. pose proof (start_le all_lens (15 + 1)) as H. rewrite zlen_all in H by (done || apply codes_small). lia.
Qed.

Lemma elem_ls l : l ∈ ls <-> 1 <= l <= 15 /\ 0 < occ l all_lens.
Proof.
  destruct (sorted_lens_facts lens codes) as (Hin & _ & Hocc). cbv zeta in *. rewrite <- occ_pos. split.
  - intros H. assert (1 <= l <= 15) by (apply occ_pos in H; rewrite Forall_forall in Hin; by apply Hin). rewrite <- Hocc by done. done.
  - intros [Hl H]. rewrite Hocc by done. done.
Qed.

(** The loops before the table is built. *)
Lemma inflate_table_start : ls <> [] -> exists work' count,
  zlen work' = zlen work /\ take (length (sorted_syms lens codes)) work' = sorted_syms lens codes
  /\ length count = 16%nat /\ (forall j, 0 <= j <= 15 -> count !! Z.to_nat j = Some (occ j all_lens))
  /\ last ls = Some max_len /\ head ls = Some min_len /\ 1 <= min_len <= max_len /\ max_len <= 15
  /\ inflate_table type lens codes table bits work =
     if (ksum 15 ls <=? 2 ^ 15) && ((ksum 15 ls =? 2 ^ 15) || negb (bool_decide (type = CODES)) && (max_len =? 1))
     then build_table type lens work' table bits root_bits min_len max_len count
     else Ok (mkResult (-1) table 0 bits work).
Proof.
  intros Hne. pose proof codes_small as Hsmall. destruct (sorted_lens_facts lens codes) as (Hin & Hs & Hocc). cbv zeta in *.
  destruct (count_lengths_spec lens codes Hcodes Hsmall Hlens) as (count & Hcl & H16 & Hcount).
  destruct (find_max_spec lens codes Hcodes Hsmall Hlens count H16 Hcount 15 ltac:(lia)) as (max & Hfm & Hmax & Hmaxz & Hmaxp).
  destruct (find_min_spec lens codes Hcodes Hsmall Hlens count H16 Hcount) as (min & Hfi & Hmin & Hminz & Hminp).
  destruct (make_offs_spec lens codes Hcodes Hsmall Hlens count H16 Hcount) as (offs & Hmo & Ho16 & Hoffs).
  destruct (sort_symbols_spec lens codes Hcodes Hsmall Hlens count H16 Hcount work offs Hwork Ho16 Hoffs) as (work' & Hss & Hzw & Htake).
  assert (Hex : exists l, l ∈ ls) by (destruct ls as [|l ?]; [done|exists l; left]). destruct Hex as [l0 Hl0]. pose proof Hl0 as Hl0'. apply elem_ls in Hl0' as [Hl0r Hl0p].
  assert (Hle : Forall (fun x => x <= max) ls).
  { apply Forall_forall. intros x Hx. apply elem_ls in Hx as [Hx1 Hx2]. destruct (decide (x <= max)); [done|]. rewrite Hmaxz in Hx2 by lia. lia. }
  assert (Hge : Forall (fun x => min <= x) ls).
  { apply Forall_forall. intros x Hx. apply elem_ls in Hx as [Hx1 Hx2]. destruct (decide (min <= x)); [done|]. rewrite Hminz in Hx2 by lia. lia. }
  assert (Hl0m : min <= l0 <= max) by (rewrite Forall_forall in Hle, Hge; split; [by apply Hge|by apply Hle]).
  assert (Hlast : last ls = Some max) by (apply last_sorted; [done|apply elem_ls; split; [lia|apply Hmaxp; lia]|done]).
  assert (Hhead : head ls = Some min) by (apply head_sorted; [done|apply elem_ls; split; [lia|apply Hminp; lia]|done]).
  assert (Emax : max_len = max) by (unfold max_len; by rewrite Hlast). assert (Emin : min_len = min) by (unfold min_len; by rewrite Hhead).
  rewrite Emax, Emin. exists work', count. do 6 (split; [done|]). split; [lia|]. split; [lia|].
  unfold inflate_table. rewrite Hcl. cbn [mbind outcome_bind]. rewrite Hfm. cbn [mbind outcome_bind]. rewrite (proj2 (Z.eqb_neq max 0)) by lia.
  rewrite Hfi. cbn [mbind outcome_bind]. rewrite (check_left_spec lens codes Hcodes Hsmall Hlens count H16 Hcount). cbn [mbind outcome_bind].
  assert (Hroot : (if (if max <? bits then max else bits) <? min then min else if max <? bits then max else bits) = root_bits).
  { unfold root_bits. rewrite Emax, Emin. destruct (Z.ltb_spec max bits) as [Hb|Hb]; [destruct (Z.ltb_spec max min)|destruct (Z.ltb_spec bits min)]; lia. }
  destruct (Z.leb_spec (ksum 15 ls) (2 ^ 15)) as [Hk|Hk]; cbn [andb]; [|done].
  destruct (Z.eqb_spec (ksum 15 ls) (2 ^ 15)) as [Hf|Hf]; cbn [orb].
  - rewrite (proj2 (Z.ltb_ge 0 _)) by lia. cbn [andb]. rewrite Hmo. cbn [mbind outcome_bind]. rewrite Hss. cbn [mbind outcome_bind]. by rewrite Hroot.
  - rewrite (proj2 (Z.ltb_lt 0 _)) by lia. cbn [andb]. destruct (bool_decide (type = CODES)), (max =? 1); cbn [orb negb andb]; try done.
    rewrite Hmo. cbn [mbind outcome_bind]. rewrite Hss. cbn [mbind outcome_bind]. by rewrite Hroot.
Qed.

(** The room a table needs: the root table, and sub-tables that the codes can fill. *)
Definition table_fits (n : Z) : Prop := fits root_bits max_len ls (short_codes root_bits ls) n.

Lemma fill_rest_done fuel t len next drop low mask root tbits : fill_rest (S fuel) t 0 len next drop low mask root tbits = Ok t.
Proof. reflexivity. Qed.

Context (Hfull : ksum 15 ls = 2 ^ 15).

Lemma full_nonempty : ls <> [].
Proof. intros E. rewrite E in Hfull. done. Qed.

Lemma lens_max : 1 <= max_len <= 15 /\ last ls = Some max_len /\ lens_in 1 max_len ls /\ ksum max_len ls = 2 ^ max_len.
Proof.
  destruct (inflate_table_start full_nonempty) as (work' & count & _ & _ & _ & _ & Hlast & Hhead & Hmin & Hmax & _).
  destruct (sorted_lens_facts lens codes) as (Hin & Hs & _). cbv zeta in *.
  assert (Hin' : lens_in 1 max_len ls).
  { apply Forall_lookup_2. intros i x Hi. rewrite last_lookup in Hlast. pose proof (lookup_lt_Some _ _ _ Hi).
    pose proof (sorted_le ls i (pred (length ls)) x max_len Hs ltac:(lia) Hi Hlast). pose proof (lens_lookup _ _ _ _ _ Hin Hi). lia. }
  split; [lia|]. split; [done|]. split; [done|]. pose proof (ksum_scale max_len 15 1 ls Hin' ltac:(lia)) as Hk. rewrite Hfull in Hk.
  rewrite (pow2_split 15 (15 - max_len)) in Hk by lia. replace (15 - (15 - max_len)) with max_len in Hk by lia.
  pose proof (pow2_pos (15 - max_len) ltac:(lia)). symmetry. eapply Z.mul_reg_l; [|exact Hk]. lia.
Qed.

Lemma root_range : 1 <= root_bits <= max_len.
Proof.
  destruct (inflate_table_start full_nonempty) as (work' & count & _ & _ & _ & _ & _ & _ & Hmin & Hmax & _). unfold root_bits. lia.
Qed.

(** The index of a coded symbol and the position of its code. *)
Lemma symbol_index s : coded lens codes s -> exists k, sorted_syms lens codes !! k = Some s /\ ls !! k = Some (len_of lens s)
  /\ cpos max_len ls k = code_val lens codes s * 2 ^ (max_len - len_of lens s).
Proof.
  intros Hc. destruct (sorted_sym_index lens codes s ltac:(lia) Hc) as [Hk Hsum]. cbv zeta in *. eexists. split; [exact Hk|].
  assert (Hl : ls !! Z.to_nat (start_of all_lens (len_of lens s) + zlen (syms_of lens (seqZ 0 s) (len_of lens s))) = Some (len_of lens s)).
  { unfold sorted_lens. rewrite list_lookup_fmap, Hk. done. }
  split; [exact Hl|]. destruct lens_max as (Hm & _ & Hin & _). pose proof (lens_lookup _ _ _ _ _ Hin Hl).
  unfold cpos. set (k := Z.to_nat _) in *. pose proof (ksum_scale max_len 15 1 (take k ls) ltac:(by apply Forall_take) ltac:(lia)) as Hsc.
  rewrite Hsum in Hsc. rewrite (pow2_split (15 - len_of lens s) (15 - max_len)) in Hsc by lia.
  replace (15 - len_of lens s - (15 - max_len)) with (max_len - len_of lens s) in Hsc by lia.
  pose proof (pow2_pos (15 - max_len) ltac:(lia)). apply (Z.mul_reg_l _ _ (2 ^ (15 - max_len))); lia.
Qed.

Lemma huff_code_of s : coded lens codes s -> exists k, sorted_syms lens codes !! k = Some s /\ ls !! k = Some (len_of lens s)
  /\ forall h, code_of max_len ls h k <-> h `mod` 2 ^ len_of lens s = huff_code lens codes s.
Proof.
  intros Hc. destruct (symbol_index s Hc) as (k & Hk & Hl & Hp). exists k. split; [done|]. split; [done|].
  destruct lens_max as (Hm & _ & Hin & Hf). destruct (sorted_lens_facts lens codes) as (_ & Hs & _). cbv zeta in *.
  destruct (cpos_divide max_len 1 ls k _ Hin Hs Hl) as (c & Hc' & Hc0 & Hlt). pose proof (lens_lookup _ _ _ _ _ Hin Hl) as Hll. specialize (Hlt ltac:(lia) ltac:(lia)).
  pose proof (pow2_pos (max_len - len_of lens s) ltac:(lia)). assert (c = code_val lens codes s) as -> by nia.
  intros h. unfold code_of, huff_code. rewrite (cpos_succ _ _ _ _ Hl), Hp. rewrite (starts_with_code max_len) by lia. lia.
Qed.

(** The codes are prefix-free and every input begins with one. *)
Lemma some_code h : exists s, coded lens codes s /\ h `mod` 2 ^ len_of lens s = huff_code lens codes s.
Proof.
  destruct lens_max as (Hm & _ & Hin & Hf). destruct (word_code max_len 1 ls Hin (brev max_len h)) as (k & l & Hk & Hw); [rewrite Hf; apply brev_range; lia|].
  unfold sorted_lens in Hk. rewrite list_lookup_fmap in Hk. apply fmap_Some in Hk as (s & Hs & ->).
  assert (Hc : coded lens codes s) by (apply elem_sorted_syms; by eapply list_elem_of_lookup_2). exists s. split; [done|].
  destruct (huff_code_of s Hc) as (k' & Hk' & Hl' & Hiff). apply Hiff.
  assert (k = k') as ->; [|done]. exact (NoDup_lookup (sorted_syms lens codes) k k' s (sorted_syms_NoDup lens codes) Hs Hk').
Qed.

Lemma code_unique h s s' : coded lens codes s -> coded lens codes s' ->
  h `mod` 2 ^ len_of lens s = huff_code lens codes s -> h `mod` 2 ^ len_of lens s' = huff_code lens codes s' -> s = s'.
Proof.
  intros Hc Hc' Hh Hh'. destruct lens_max as (_ & _ & Hin & _). destruct (huff_code_of s Hc) as (k & Hk & _ & Hiff). destruct (huff_code_of s' Hc') as (k' & Hk' & _ & Hiff').
  apply Hiff in Hh. apply Hiff' in Hh'. assert (k < k' \/ k = k' \/ k' < k)%nat as [?|[->|?]] by lia; [|congruence|].
  - exfalso. unfold code_of in *. pose proof (cpos_mono max_len 1 ls Hin (S k) k' ltac:(lia)). lia.
  - exfalso. unfold code_of in *. pose proof (cpos_mono max_len 1 ls Hin (S k') k ltac:(lia)). lia.
Qed.

(** ** [inflate_table] on a complete code *)

Definition decodes (t : list code) : Prop := forall h s, coded lens codes s -> h `mod` 2 ^ len_of lens s = huff_code lens codes s ->
  entry_for t root_bits h (sym_entry type s) (len_of lens s).

(** Only the entries that are used are read. *)
Lemma filled_decodes ent cap short s : (forall k x b, sorted_syms lens codes !! k = Some x -> ent k b = sym_entry type x b) ->
  filled root_bits max_len ls ent cap short s -> decodes (take (Z.to_nat (f_used s)) (f_table s)).
Proof.
  intros Hent (_ & _ & _ & Hset & Hsize & Hused) h x Hx Hh. destruct (huff_code_of x Hx) as (k & Hk & Hl & Hiff). apply Hiff in Hh.
  pose proof (lookup_lt_Some _ _ _ Hl) as Hkn. destruct (Hset h k Hkn Hh) as (l & Hl' & Hcase). rewrite Hl in Hl'. injection Hl' as <-.
  destruct lens_max as (Hm & _). pose proof root_range. pose proof (pow2_pos root_bits ltac:(lia)). pose proof (Z.mod_pos_bound h (2 ^ root_bits) ltac:(lia)).
  assert (Hru : 2 ^ root_bits <= f_used s) by (destruct Hsize as [->|(G & w & e & (? & _ & ? & _) & ->)]; [lia|pose proof (pow2_pos w ltac:(lia)); lia]).
  destruct Hcase as [[Hle Hcell]|(off & w & Hlw & Hw & Hoff & Hwhere & Hlk & Hcell)].
  - left. rewrite <- (Hent k x) by done. rewrite lookup_take_lt by lia. done.
  - right. exists off, w. rewrite <- (Hent k x) by done. pose proof (pow2_pos w ltac:(lia)). pose proof (Z.mod_pos_bound (h `div` 2 ^ root_bits) (2 ^ w) ltac:(lia)).
    assert (off + 2 ^ w <= f_used s) by (destruct Hwhere as [Hle|(-> & -> & _)]; [destruct (decide (0 <= f_curr s)); [pose proof (pow2_pos (f_curr s) ltac:(lia)); lia|rewrite (Z.pow_neg_r 2 (f_curr s)) in Hused by lia; lia]|lia]).
    rewrite !lookup_take_lt by lia. repeat split; (done || lia).
Qed.

Lemma table_complete_spec : (type = LENS /\ ENOUGH - MAXD <= zlen table) \/ table_fits (zlen table) ->
  exists res, inflate_table type lens codes table bits work = Ok res /\
  ((res_ret res = 0 /\ res_bits res = root_bits /\ zlen (res_table res) = zlen table /\ decodes (take (Z.to_nat (res_used res)) (res_table res))
    /\ 0 <= res_used res <= zlen table /\ zlen (res_work res) = zlen work /\ forall n, table_fits n -> res_used res <= n)
   \/ (res_ret res = 1 /\ type = LENS /\ ~ table_fits (ENOUGH - MAXD - 1))).
Proof.
  intros Hcap. destruct (inflate_table_start full_nonempty) as (work' & count & Hzw & Htake & H16 & Hcount & Hlast & Hhead & Hmin & Hmax & ->).
  rewrite Hfull, Z.leb_refl, Z.eqb_refl. cbn [andb orb]. pose proof root_range as Hr. destruct lens_max as (_ & _ & Hin & Hf).
  destruct (sorted_lens_facts lens codes) as (_ & Hs & Hocc). cbv zeta in *. pose proof zlen_ls as Hn. pose proof codes_small as Hcs.
  pose proof (pow2_mono root_bits 15 ltac:(lia)) as Hp15. pose proof (pow2_pos root_bits ltac:(lia)) as Hp. change (2 ^ 15) with 32768 in Hp15.
  unfold build_table. rewrite shl1_pow2 by lia. rewrite (u32_small (2 ^ root_bits - 1)) by (unfold is_u32; change (2 ^ 32) with 4294967296; lia).
  destruct (bool_decide (type = LENS) && (ENOUGH - MAXD <=? 2 ^ root_bits)) eqn:Ebig.
  { apply andb_true_iff in Ebig as [->%bool_decide_eq_true Hle%Z.leb_le]. eexists. split; [done|]. right. split; [done|]. split; [done|]. intros [Hfit _]. lia. }
  assert (Hroot : 2 ^ root_bits <= zlen table).
  { destruct Hcap as [[HL HC]|[Hfit _]]; [|done]. rewrite bool_decide_eq_true_2 in Ebig by done. apply Z.leb_gt in Ebig. lia. }
  set (ent := fun (k : nat) b => sym_entry type (default 0 (sorted_syms lens codes !! k)) b).
  assert (Hsym : forall k l, ls !! k = Some l -> exists x, sorted_syms lens codes !! k = Some x /\ work' !! k = Some x /\ l = len_of lens x /\ 0 <= x < codes).
  { intros k l Hk. unfold sorted_lens in Hk. rewrite list_lookup_fmap in Hk. apply fmap_Some in Hk as (x & Hx & ->). exists x. split; [done|].
    pose proof (lookup_lt_Some _ _ _ Hx) as Hkx. split; [by rewrite <- (lookup_take_lt work' (length (sorted_syms lens codes))), Htake by done|]. split; [done|].
    by apply list_elem_of_lookup_2, elem_sorted_syms in Hx as [? _]. }
  match goal with |- context [table_loop ?f type lens work' root_bits max_len _ ?st] => pose proof (table_loop_spec type lens work' root_bits max_len ls ent (zlen table) (short_codes root_bits ls)
    Hin Hs Hf Hr ltac:(lia) ltac:(lia) Hlast) as Hloop; set (s0 := st) in *; set (fuel := f) in * end.
  destruct (Hloop ltac:(intros k l Hk; destruct (Hsym k l Hk) as (x & _ & Hx & -> & Hxr); exists x; split; [done|apply len_at; lia])
    ltac:(intros k l b Hk Hb; destruct (Hsym k l Hk) as (x & Hx & Hxw & _ & Hxr); unfold ent; rewrite Hx; change (default 0 (Some x)) with x; apply make_entry_sym; [done|lia|done])
    ltac:(intros k l Hk; by apply short_codes_spec) ltac:(apply length_filter) Hcap Hroot fuel 0%nat s0) as (r & Hok & Hr').
  - unfold s0, fill_inv. cbn. split; [done|]. split; [by rewrite <- head_lookup|]. split; [symmetry; apply brev_zero; lia|]. split.
    + split; [done|]. intros j Hj. rewrite drop_0, Hocc by done. apply Hcount. lia.
    + split; [done|]. split; [intros h j Hj; lia|]. left. unfold root_phase. cbn. repeat split. unfold root_bits. lia.
  - unfold fuel, zlen in *. lia.
  - rewrite Hok. cbn [mbind outcome_bind]. destruct r as [s|s].
    + pose proof Hr' as (Hz & Hzt & Hu & _ & Hused & _). rewrite Hz, fill_rest_done. cbn [mbind outcome_bind]. eexists. split; [done|]. left. cbn.
      split; [done|]. split; [done|]. split; [done|]. split; [eapply (filled_decodes ent); [|exact Hr']|].
      * intros k x b Hk. unfold ent. by rewrite Hk.
      * destruct Hused as [->|(G & w & e & Hsz & Eu)].
        -- split; [lia|]. split; [done|]. intros n [Hfit _]. lia.
        -- pose proof Hsz as (HG & _ & Hw & _). rewrite Eu in *. pose proof (pow2_pos w ltac:(lia)). split; [lia|]. split; [done|]. intros n [_ Hfit]. by eapply Hfit.
    + eexists. split; [done|]. right. done.
Qed.

(** ** How large a table gets *)

Lemma codes_of_min : 2 ^ min_len <= zlen ls.
Proof.
  destruct (inflate_table_start full_nonempty) as (work' & count & _ & _ & _ & _ & _ & Hhead & Hmin & Hmax & _).
  destruct lens_max as (_ & _ & Hin & Hf). destruct (sorted_lens_facts lens codes) as (_ & Hs & _). cbv zeta in *.
  assert (Hin' : lens_in min_len max_len ls).
  { apply Forall_lookup_2. intros i x Hi. rewrite head_lookup in Hhead. pose proof (sorted_le ls 0 i _ _ Hs ltac:(lia) Hhead Hi).
    pose proof (lens_lookup _ _ _ _ _ Hin Hi). lia. }
  apply ksum_length_le in Hin'. rewrite Hf, (pow2_split max_len min_len) in Hin' by lia. pose proof (pow2_pos (max_len - min_len) ltac:(lia)). nia.
Qed.

(** A bound for any number of codes: all sub-tables but the last hold no more
    entries than there are codes. *)
Lemma table_fits_any n : 2 ^ root_bits + codes + 2 ^ (max_len - root_bits) <= n -> table_fits n.
Proof.
  pose proof root_range. pose proof zlen_ls. pose proof (pow2_pos (max_len - root_bits) ltac:(lia)). intros Hle. split; [lia|].
  intros G w e (HG & _ & Hw & He & Hsz & _). unfold zlen in *. pose proof (pow2_mono w (max_len - root_bits) ltac:(lia)). lia.
Qed.

Lemma root_bits_small b : bits = b -> 2 ^ b > codes -> 1 <= b -> root_bits = Z.min b max_len.
Proof.
  intros Hb Hc Hb1. pose proof codes_of_min. pose proof zlen_ls. unfold root_bits. rewrite Hb.
  destruct (inflate_table_start full_nonempty) as (work' & count & _ & _ & _ & _ & _ & _ & Hmin & Hmax & _).
  destruct (decide (min_len <= b)); [lia|]. pose proof (pow2_mono b min_len ltac:(lia)). lia.
Qed.

(** Literal/length codes as [inflate] asks for them need at most 860 entries. *)
Lemma fits_lens : bits = 9 -> codes <= 286 -> table_fits 860.
Proof.
  intros Hb Hc. pose proof (root_bits_small 9 Hb ltac:(lia) ltac:(lia)) as Hroot. pose proof root_range as Hr. destruct lens_max as (Hm & _). pose proof zlen_ls.
  pose proof (pow2_mono root_bits 9 ltac:(lia)) as Hp. change (2 ^ 9) with 512 in Hp. split; [lia|].
  intros G w e (HG & _ & Hw & He & Hsz & _). unfold zlen in *. pose proof (pow2_mono w 6 ltac:(lia)) as Hpw. change (2 ^ 6) with 64 in Hpw. lia.
Qed.

(** Code-length codes have at most seven bits: one table of 128 entries. *)
Lemma fits_codes : bits = 7 -> max_len <= 7 -> codes <= 19 -> table_fits 128.
Proof.
  intros Hb Hm7 Hc. pose proof (root_bits_small 7 Hb ltac:(lia) ltac:(lia)) as Hroot. pose proof root_range as Hr.
  pose proof (pow2_mono root_bits 7 ltac:(lia)) as Hp. change (2 ^ 7) with 128 in Hp. split; [lia|].
  intros G w e (HG & _ & Hw & _). lia.
Qed.

(** Two codes of at least one bit and less than all words cover at most three quarters of them. *)
Lemma two_codes_cover l l' m : 1 <= l <= l' -> l' <= m -> 2 ^ (m - l) + 2 ^ (m - l') < 2 ^ m -> 4 * (2 ^ (m - l) + 2 ^ (m - l')) <= 3 * 2 ^ m.
Proof.
  intros Hl Hm Hlt. destruct (decide (l = 1 /\ l' = 1)) as [[-> ->]|Hne].
  - rewrite (pow2_split m 1) in Hlt by lia. change (2 ^ 1) with 2 in Hlt. lia.
  - pose proof (pow2_mono (m - l) (m - 1) ltac:(lia)). pose proof (pow2_mono (m - l') (m - 2) ltac:(lia)).
    rewrite (pow2_split m 2) by lia. change (2 ^ 2) with 4. replace (m - 1) with (m - 2 + 1) in * by lia. rewrite pow2_succ in * by lia. lia.
Qed.

Lemma few_short_codes short : (short <= 2)%nat -> (short < length ls)%nat -> 4 * cpos max_len ls short <= 3 * 2 ^ max_len.
Proof.
  intros Hs2 Hlt. destruct lens_max as (Hm & _ & Hin & Hf). destruct (sorted_lens_facts lens codes) as (_ & Hs & _). cbv zeta in *.
  pose proof (cpos_mono_lt max_len 1 ls Hin short (length ls) ltac:(lia)) as Hlt'. rewrite (cpos_all _ _ (length ls)), Hf in Hlt' by lia.
  pose proof (pow2_pos max_len ltac:(lia)). destruct short as [|[|[|?]]]; [rewrite cpos_0; lia| | |lia].
  - destruct (lookup_lt_is_Some_2 ls 0) as [l Hl]; [lia|]. rewrite (cpos_succ _ _ _ _ Hl), cpos_0 in *. pose proof (lens_lookup _ _ _ _ _ Hin Hl).
    pose proof (pow2_mono (max_len - l) (max_len - 1) ltac:(lia)). rewrite (pow2_split max_len 1) in * by lia. change (2 ^ 1) with 2 in *. lia.
  - destruct (lookup_lt_is_Some_2 ls 0) as [l Hl]; [lia|]. destruct (lookup_lt_is_Some_2 ls 1) as [l' Hl']; [lia|].
    rewrite (cpos_succ _ _ _ _ Hl'), (cpos_succ _ _ _ _ Hl), cpos_0 in *. pose proof (lens_lookup _ _ _ _ _ Hin Hl). pose proof (lens_lookup _ _ _ _ _ Hin Hl').
    pose proof (sorted_le ls 0 1 l l' Hs ltac:(lia) Hl Hl'). rewrite Z.add_0_l in *. apply two_codes_cover; lia.
Qed.

(** Distance codes as [inflate] asks for them need at most [MAXD] entries. *)
Lemma fits_dists : bits = 6 -> codes <= 30 -> table_fits MAXD.
Proof.
  intros Hb Hc. pose proof (root_bits_small 6 Hb ltac:(lia) ltac:(lia)) as Hroot. pose proof root_range as Hr. destruct lens_max as (Hm & Hlast & Hin & Hf). pose proof zlen_ls as Hn.
  destruct (sorted_lens_facts lens codes) as (_ & Hs & _). cbv zeta in *. unfold MAXD.
  pose proof (pow2_mono root_bits 6 ltac:(lia)) as Hp. change (2 ^ 6) with 64 in Hp. split; [lia|].
  intros G w e (HG & Hev & Hw & He & Hsz & Hleft). unfold zlen in *. destruct (decide (w <= 8)) as [Hw8|Hw9].
  { pose proof (pow2_mono w 8 ltac:(lia)) as Hpw. change (2 ^ 8) with 256 in Hpw. lia. }
  assert (w = 9) as -> by lia. assert (root_bits = 6) as E6 by lia. assert (max_len = 15) as E15 by lia. rewrite E6 in *. change (2 ^ 6) with 64 in *. change (2 ^ 9) with 512.
  assert (Hsh : (short_codes 6 ls < length ls)%nat).
  { rewrite last_lookup in Hlast. pose proof (lookup_lt_Some _ _ _ Hlast).
    pose proof (short_codes_spec 6 ls (pred (length ls)) max_len Hs Hlast) as Hiff. lia. }
  destruct (decide (short_codes 6 ls <= 2)%nat) as [Hs2|Hs3].
  - exfalso. pose proof (few_short_codes _ Hs2 Hsh) as Hfew. unfold first_prefix in Hleft. rewrite E15 in *. change (2 ^ 15) with 32768 in Hfew. change (2 ^ (15 - 6)) with 512 in Hleft.
    Z.div_mod_to_equations. lia.
  - assert (G <= 17) by lia. assert (G <> 17) by (intros ->; done). lia.
Qed.

End table.
