(* ===== verification/InftreesThm.v ===== *)
(** * Properties of [inflate_table]

    The decoding tables are correct for every complete code, the other sets of
    lengths are answered as documented, and the table sizes [ENOUGH] and
    [MAXD] are sufficient. *)

From S2P Require Import Prelude Inftrees BitRev Canon InftreesFill InftreesSort InftreesSpec.

Definition invalid_code : code := mkCode 64 1 0.

(** ** Codes that are not complete *)

Section cases.
Context (type : codetype) (lens : list Z) (codes : Z) (table : list code) (bits : Z) (work : list Z).
Context (Hcodes : 0 <= codes <= zlen lens) (Hlimit : codes <= sym_limit type) (Hwork : codes <= zlen work) (Hbits : 1 <= bits <= 15).
Context (Hlens : forall s, 0 <= s < codes -> 0 <= len_of lens s <= 15).
#[local] Set Default Proof Using "All".

Lemma no_codes : sorted_lens lens codes = [] -> 2 <= zlen table ->
  inflate_table type lens codes table bits work = Ok (mkResult 0 (<[1%nat:=invalid_code]> (<[0%nat:=invalid_code]> table)) 2 1 work).
Proof.
  intros Hnil Hz. pose proof (codes_small type lens codes table bits work Hcodes Hlimit Hwork Hbits Hlens) as Hsmall.
  destruct (count_lengths_spec lens codes Hcodes Hsmall Hlens) as (count & Hcl & H16 & Hcount).
  destruct (find_max_spec lens codes Hcodes Hsmall Hlens count H16 Hcount 15 ltac:(lia)) as (max & Hfm & Hmax & Hmaxz & Hmaxp).
  assert (max = 0) as ->.
  { destruct (decide (max = 0)); [done|]. destruct (sorted_lens_facts lens codes) as (_ & _ & Hocc). cbv zeta in *.
    specialize (Hmaxp ltac:(lia)). rewrite <- Hocc, Hnil, occ_nil in Hmaxp by lia. lia. }
  unfold inflate_table. rewrite Hcl. cbn [mbind outcome_bind]. rewrite Hfm. cbn [mbind outcome_bind]. rewrite Z.eqb_refl.
  rewrite elem_set_in by lia. cbn [mbind outcome_bind]. rewrite elem_set_in by (rewrite zlen_insert; lia). done.
Qed.

Lemma bad_codes : sorted_lens lens codes <> [] ->
  2 ^ 15 < ksum 15 (sorted_lens lens codes) \/ (ksum 15 (sorted_lens lens codes) < 2 ^ 15 /\ (type = CODES \/ max_len lens codes <> 1)) ->
  inflate_table type lens codes table bits work = Ok (mkResult (-1) table 0 bits work).
Proof.
  intros Hne Hbad. destruct (inflate_table_start type lens codes table bits work Hcodes Hlimit Hwork Hbits Hlens Hne) as (work' & count & _ & _ & _ & _ & _ & _ & _ & _ & ->).
  destruct Hbad as [Hover|[Hless Hcase]].
  - rewrite (proj2 (Z.leb_gt _ _)) by lia. done.
  - rewrite (proj2 (Z.leb_le _ _)), (proj2 (Z.eqb_neq _ _)) by lia. destruct Hcase as [->|Hm]; [done|]. rewrite (proj2 (Z.eqb_neq (max_len lens codes) 1)) by done.
    by rewrite andb_false_r.
Qed.

(** The loop for the rest of the table, when one of two entries is missing. *)
Lemma fill_one fuel t low mask root : 2 <= zlen t -> fill_rest (S (S fuel)) t 1 1 0 0 low mask root 1 = Ok (<[1%nat:=invalid_code]> t).
Proof.
  intros Hz. remember (S fuel) as n eqn:En. cbn [fill_rest]. change (1 =? 0) with false. change (negb (0 =? 0)) with false. cbn [andb]. cbv iota.
  change (0 + Z.shiftr 1 0) with 1. rewrite elem_set_in by lia. cbn [mbind outcome_bind]. change (backwards_incr 1 1) with (Ok 0). cbn [mbind outcome_bind].
  subst n. done.
Qed.

(** The only iteration of the main loop. *)
Lemma single_step ls t w count e : 2 <= zlen t -> zlen count = 16 -> elem_at count 1 = Ok 1 -> make_entry type w 0 1 = Ok e ->
  table_step type ls w 1 1 1 (mkFill t count 0 0 1 0 1 0 (u32 (-1)) 2 1) =
    Ok (Breaks (mkFill (<[0%nat:=e]> t) (<[1%nat:=0]> count) 1 1 1 0 1 0 (u32 (-1)) 2 2)).
Proof.
  intros Hz H16 Hc1 Hent. unfold table_step, enter_code. cbn [f_sym f_len f_drop f_curr f_huff f_table f_next]. change (u32 (1 - 0)) with 1.
  rewrite Hent. cbn [mbind outcome_bind]. change (shl1 1) with 2. change (S (Z.to_nat 2)) with 3%nat. cbn [replicate_entry]. change (u32 (2 - 2)) with 0.
  change (0 + Z.shiftr 0 0 + 0) with 0. rewrite elem_set_in by lia. cbn [mbind outcome_bind Z.eqb]. change (backwards_incr 1 0) with (Ok 1). cbn [mbind outcome_bind].
  set (s1 := _ <| f_huff := 1 |>). change (f_count s1) with count. change (f_len s1) with 1. change (f_sym s1) with 0. rewrite Hc1. cbn [mbind outcome_bind].
  change (u16 (1 - 1)) with 0. rewrite elem_set_in by lia. cbn [mbind outcome_bind Z.eqb andb]. reflexivity.
Qed.

(** A single code of one bit. *)
Lemma single_code : ksum 15 (sorted_lens lens codes) < 2 ^ 15 -> type <> CODES -> sorted_lens lens codes <> [] -> max_len lens codes = 1 -> 2 <= zlen table ->
  exists s work', coded lens codes s /\ (forall s', coded lens codes s' -> s' = s) /\ len_of lens s = 1 /\ huff_code lens codes s = 0 /\
  inflate_table type lens codes table bits work =
    Ok (mkResult 0 (<[1%nat:=invalid_code]> (<[0%nat:=sym_entry type s 1]> table)) 2 1 work').
Proof.
  intros Hk Ht Hne Hm Hz. destruct (inflate_table_start type lens codes table bits work Hcodes Hlimit Hwork Hbits Hlens Hne)
    as (work' & count & Hzw & Htake & H16 & Hcount & Hlast & Hhead & Hmin & Hmax & ->). rewrite Hm in *. assert (Hmin1 : min_len lens codes = 1) by lia. rewrite Hmin1 in *.
  destruct (sorted_lens_facts lens codes) as (Hin & Hs & Hocc). cbv zeta in *.
  assert (Hls : exists s, sorted_syms lens codes = [s]).
  { assert (Hall : Forall (fun x => x = 1) (sorted_lens lens codes)).
    { apply Forall_lookup_2. intros i x Hi. rewrite last_lookup in Hlast. pose proof (lookup_lt_Some _ _ _ Hi).
      pose proof (sorted_le (sorted_lens lens codes) i (pred (length (sorted_lens lens codes))) x 1 Hs ltac:(lia) Hi Hlast). pose proof (lens_lookup _ _ _ _ _ Hin Hi). lia. }
    unfold sorted_lens in Hall, Hk, Hne. destruct (sorted_syms lens codes) as [|s [|s' r]]; [done|by exists s|exfalso].
    rewrite !fmap_cons in *. apply Forall_cons in Hall as [E1 Hall]. apply Forall_cons in Hall as [E2 Hall]. rewrite !ksum_cons, E1, E2 in Hk. change (2 ^ (15 - 1)) with 16384 in Hk. change (2 ^ 15) with 32768 in Hk.
    pose proof (ksum_nonneg 15 1 (len_of lens <$> r)) as Hnn. assert (lens_in 1 15 (len_of lens <$> r)); [|specialize (Hnn H); lia].
    eapply Forall_impl; [exact Hall|]. simpl. intros; lia. }
  destruct Hls as [s Hls]. assert (Hsc : coded lens codes s) by (apply elem_sorted_syms; rewrite Hls; left).
  assert (Hl1 : len_of lens s = 1) by (unfold sorted_lens in Hlast; rewrite Hls in Hlast; simpl in Hlast; congruence).
  exists s, work'. split; [done|]. split; [intros s' Hs'%elem_sorted_syms; rewrite Hls in Hs'; by apply list_elem_of_singleton in Hs'|]. split; [done|]. split.
  { destruct (sorted_sym_index lens codes s ltac:(lia) Hsc) as [Hidx Hsum]. cbv zeta in *. rewrite Hls in Hidx. apply list_lookup_singleton_Some in Hidx as [Hidx _].
    rewrite Hidx in Hsum. rewrite take_0, Hl1 in Hsum. simpl in Hsum. assert (Hc0 : code_val lens codes s = 0) by (change (15 - 1) with 14 in Hsum; lia).
    unfold huff_code. by rewrite Hc0, Hl1. }
  rewrite (proj2 (Z.leb_le _ _)), (proj2 (Z.eqb_neq _ _)) by lia. rewrite bool_decide_eq_false_2 by done. cbn [andb orb negb].
  assert (Hroot : root_bits lens codes bits = 1) by (unfold root_bits; lia). rewrite Hroot. unfold build_table.
  assert (Hfuel : exists fuel, S (Z.to_nat (2 ^ MAXBITS)) = S (S fuel)) by (exists (Z.to_nat (2 ^ MAXBITS - 1)); unfold MAXBITS; lia).
  generalize dependent (S (Z.to_nat (2 ^ MAXBITS))). intros fuel' Hfuel. change (shl1 1) with 2. change (u32 (2 - 1)) with 1.
  rewrite (proj2 (Z.leb_gt (ENOUGH - MAXD) 2)) by done. rewrite andb_false_r.
  assert (Hw0 : work' !! 0%nat = Some s) by (rewrite <- (lookup_take_lt work' (length (sorted_syms lens codes))), Htake, Hls by (rewrite Hls; simpl; lia); done).
  assert (Hc1 : elem_at count 1 = Ok 1).
  { apply elem_at_lookup; [lia|]. rewrite (Hcount 1) by lia. rewrite <- Hocc by lia. unfold sorted_lens. rewrite Hls. simpl. rewrite occ_cons, Hl1, decide_True by done. by rewrite occ_nil. }
  pose proof (make_entry_sym type work' 0 s 1 Hw0 ltac:(destruct Hsc; lia) ltac:(lia)) as Hent. change (Z.of_nat 0) with 0 in Hent.
  assert (Hz16 : zlen count = 16) by (unfold zlen; lia).
  pose proof (single_step lens table work' count (sym_entry type s 1) ltac:(lia) Hz16 Hc1 Hent) as Hstep.
  cbn [table_loop]. rewrite Hstep. cbn [mbind outcome_bind f_table f_huff f_len f_next f_drop f_low f_used].
  change (u8 (1 - 0)) with 1.
  destruct Hfuel as [fuel ->]. rewrite fill_one by (rewrite zlen_insert; lia). done.
Qed.

End cases.

(** ** The Kraft sum of the lengths *)

(** What the caller has to provide: at most as many symbols as the code type
    knows, lengths of at most 15 bits and room in [work]. *)
Definition valid_args (type : codetype) (lens : list Z) (codes bits : Z) (work : list Z) : Prop :=
  0 <= codes <= zlen lens /\ codes <= sym_limit type /\ codes <= zlen work /\ 1 <= bits <= 15
  /\ Forall (fun l => 0 <= l <= 15) (take (Z.to_nat codes) lens).

(** The 15-bit words taken by the codes of all symbols. *)
Definition kraft_upto (lens : list Z) (m : Z) (syms : list Z) : Z :=
  foldr (fun s a => (if decide (1 <= len_of lens s <= m) then 2 ^ (15 - len_of lens s) else 0) + a) 0 syms.
Definition kraft (lens : list Z) (codes : Z) : Z := kraft_upto lens 15 (seqZ 0 codes).

Lemma kraft_syms_of lens m syms : ksum 15 (len_of lens <$> syms_of lens syms (m + 1)) + kraft_upto lens m syms = kraft_upto lens (m + 1) syms \/ m + 1 < 1.
Proof.
  destruct (decide (m + 1 < 1)); [by right|left]. unfold syms_of. induction syms as [|s syms IH]; [done|]. rewrite filter_cons. simpl.
  destruct (decide (len_of lens s = m + 1)) as [E|E], (decide (1 <= len_of lens s <= m)), (decide (1 <= len_of lens s <= m + 1)); try lia.
  rewrite fmap_cons, ksum_cons. lia.
Qed.

Lemma kraft_sorted lens codes : ksum 15 (sorted_lens lens codes) = kraft lens codes.
Proof.
  unfold sorted_lens, sorted_syms, kraft. assert (H : forall m, 0 <= m -> ksum 15 (len_of lens <$> sorted_upto lens (seqZ 0 codes) m) = kraft_upto lens m (seqZ 0 codes)); [|apply H; lia].
  intros m Hm. pattern m. apply bits_ind; [|clear m Hm; intros m Hm IH|done].
  - unfold sorted_upto. simpl. induction (seqZ 0 codes) as [|s l IH]; [done|]. simpl. rewrite decide_False by lia. done.
  - rewrite sorted_upto_succ, fmap_app, ksum_app, IH by done. destruct (kraft_syms_of lens m (seqZ 0 codes)); lia.
Qed.

Lemma sorted_nonempty lens codes : sorted_lens lens codes <> [] <-> 0 < kraft lens codes.
Proof.
  rewrite <- kraft_sorted. destruct (sorted_lens_facts lens codes) as (Hin & _). cbv zeta in *. split; [by apply (ksum_pos 15 1)|]. intros H E. by rewrite E in H.
Qed.

Lemma valid_lens type lens codes bits work : valid_args type lens codes bits work -> forall s, 0 <= s < codes -> 0 <= len_of lens s <= 15.
Proof.
  intros (Hc & _ & _ & _ & Hall) s Hs. unfold len_of, zlen in *. destruct (lookup_lt_is_Some_2 lens (Z.to_nat s)) as [x Hx]; [lia|]. rewrite Hx. simpl.
  rewrite Forall_forall in Hall. apply Hall. apply list_elem_of_lookup. exists (Z.to_nat s). rewrite lookup_take_lt by lia. done.
Qed.

(** Every input that begins with the code of a symbol is decoded to that symbol. *)
Definition table_decodes (type : codetype) (lens : list Z) (codes root : Z) (t : list code) : Prop :=
  forall h s, coded lens codes s -> h `mod` 2 ^ len_of lens s = huff_code lens codes s -> entry_for t root h (sym_entry type s) (len_of lens s).

Lemma table_ok type lens codes table bits work : valid_args type lens codes bits work -> kraft lens codes = 2 ^ 15 ->
  (type = LENS /\ ENOUGH - MAXD <= zlen table) \/ table_fits lens codes bits (zlen table) ->
  exists res, inflate_table type lens codes table bits work = Ok res /\
  ((res_ret res = 0 /\ res_bits res = root_bits lens codes bits /\ zlen (res_table res) = zlen table
    /\ table_decodes type lens codes (res_bits res) (take (Z.to_nat (res_used res)) (res_table res))
    /\ 0 <= res_used res <= zlen table /\ zlen (res_work res) = zlen work /\ forall n, table_fits lens codes bits n -> res_used res <= n)
   \/ (res_ret res = 1 /\ type = LENS /\ ~ table_fits lens codes bits (ENOUGH - MAXD - 1))).
Proof.
  intros Hv Hk Hcap. pose proof (valid_lens _ _ _ _ _ Hv) as Hlens. destruct Hv as (Hc & Hl & Hw & Hb & _). rewrite <- kraft_sorted in Hk.
  destruct (table_complete_spec type lens codes table bits work Hc Hl Hw Hb Hlens Hk Hcap) as (res & Hok & [(H0 & Hbits & Hz & Hd & Hu & Hw' & Hm)|Hno]).
  - exists res. split; [done|]. left. rewrite Hbits. exact (conj H0 (conj eq_refl (conj Hz (conj Hd (conj Hu (conj Hw' Hm)))))).
  - exists res. split; [done|]. by right.
Qed.

(** C38: For every complete set of code lengths [inflate_table] returns 0 and a
    table that decodes each input beginning with the canonical code of a symbol,
    as RFC 1951 numbers them, to the entry of that symbol and the length of its
    code, through the root table or one sub-table, within the entries it counts as
    used; or it returns 1, only for a
    literal/length code whose table would need [ENOUGH - MAXD] entries. *)
Theorem inflate_table_decodes type lens codes table bits work :
  valid_args type lens codes bits work -> kraft lens codes = 2 ^ 15 ->
  (type = LENS /\ ENOUGH - MAXD <= zlen table) \/ table_fits lens codes bits (zlen table) ->
  exists res, inflate_table type lens codes table bits work = Ok res /\
  ((res_ret res = 0 /\ res_bits res = root_bits lens codes bits /\ zlen (res_table res) = zlen table
    /\ table_decodes type lens codes (res_bits res) (take (Z.to_nat (res_used res)) (res_table res))
    /\ 0 <= res_used res <= zlen table /\ forall n, table_fits lens codes bits n -> res_used res <= n)
   \/ (res_ret res = 1 /\ type = LENS /\ ~ table_fits lens codes bits (ENOUGH - MAXD - 1))).
Proof.
  intros Hv Hk Hcap. destruct (table_ok type lens codes table bits work Hv Hk Hcap) as (res & Hok & [(H1 & H2 & H3 & H4 & H5 & _ & H6)|H]); exists res; (split; [done|]); [left|by right].
  exact (conj H1 (conj H2 (conj H3 (conj H4 (conj H5 H6))))).
Qed.

(** C40: The other sets of lengths: without any code the table forces an error
    at the first input; an over-subscribed set, or an incomplete one that is
    not a single one-bit code, is refused with -1 and nothing written; a single
    one-bit literal/length or distance code decodes the bit 0 and marks the
    bit 1 as invalid. *)
Theorem inflate_table_other type lens codes table bits work :
  valid_args type lens codes bits work -> 2 <= zlen table ->
  (kraft lens codes = 0 ->
     inflate_table type lens codes table bits work = Ok (mkResult 0 (<[1%nat:=invalid_code]> (<[0%nat:=invalid_code]> table)) 2 1 work))
  /\ (2 ^ 15 < kraft lens codes \/ (0 < kraft lens codes < 2 ^ 15 /\ (type = CODES \/ max_len lens codes <> 1)) ->
     inflate_table type lens codes table bits work = Ok (mkResult (-1) table 0 bits work))
  /\ (0 < kraft lens codes < 2 ^ 15 -> type <> CODES -> max_len lens codes = 1 ->
     exists s work', coded lens codes s /\ (forall s', coded lens codes s' -> s' = s) /\ len_of lens s = 1 /\ huff_code lens codes s = 0
     /\ inflate_table type lens codes table bits work = Ok (mkResult 0 (<[1%nat:=invalid_code]> (<[0%nat:=sym_entry type s 1]> table)) 2 1 work')).
Proof.
  intros Hv Hz. pose proof (valid_lens _ _ _ _ _ Hv) as Hlens. destruct Hv as (Hc & Hl & Hw & Hb & _).
  pose proof (sorted_nonempty lens codes) as Hne. pose proof (kraft_sorted lens codes) as Hk. split; [|split].
  - intros H0. apply no_codes; try done. destruct (sorted_lens lens codes) eqn:E; [done|]. assert (0 < kraft lens codes) by (by apply Hne). lia.
  - intros Hbad. apply bad_codes; try done; [apply Hne; lia|]. rewrite Hk. destruct Hbad as [|[? ?]]; [by left|right]. split; [lia|done].
  - intros Hless Ht Hm. apply single_code; try done; [lia|apply Hne; lia].
Qed.

(** The table is built within the entries that [inflate] has for it. *)
Lemma enough_ok type lens codes table bits work n :
  valid_args type lens codes bits work -> kraft lens codes = 2 ^ 15 ->
  (type = LENS /\ bits = 9 /\ codes <= 286 /\ n = 860) \/ (type = DISTS /\ bits = 6 /\ codes <= 30 /\ n = MAXD)
  \/ (type = CODES /\ bits = 7 /\ max_len lens codes <= 7 /\ n = 128) ->
  n <= zlen table ->
  exists res, inflate_table type lens codes table bits work = Ok res /\ res_ret res = 0 /\ 0 <= res_used res <= n
    /\ zlen (res_table res) = zlen table /\ res_bits res = root_bits lens codes bits /\ zlen (res_work res) = zlen work /\ table_decodes type lens codes (res_bits res) (take (Z.to_nat (res_used res)) (res_table res)).
Proof.
  intros Hv Hk Hn Hz. assert (Hfit : table_fits lens codes bits n).
  { pose proof (valid_lens _ _ _ _ _ Hv) as Hlens. destruct Hv as (Hc & Hl & Hw & Hb & _). rewrite <- kraft_sorted in Hk.
    destruct Hn as [(-> & Hb9 & Hc9 & ->)|[(-> & Hb6 & Hc6 & ->)|(-> & Hb7 & Hm & ->)]].
    - by apply (fits_lens LENS lens codes table bits work).
    - by apply (fits_dists DISTS lens codes table bits work).
    - by apply (fits_codes CODES lens codes table bits work). }
  assert (Hmono : forall m, n <= m -> table_fits lens codes bits m).
  { intros m Hm. destruct Hfit as [H1 H2]. split; [lia|]. intros G w e Hs. specialize (H2 G w e Hs). lia. }
  destruct (table_ok type lens codes table bits work Hv Hk (or_intror (Hmono _ Hz))) as (res & Hok & [(H0 & Hbits & Hzt & Hd & Hu & Hzw & Hmin)|(_ & HL & Hnot)]).
  - exists res. specialize (Hmin n Hfit). repeat split; (done || lia).
  - exfalso. apply Hnot, Hmono. destruct Hn as [(_ & _ & _ & ->)|[(HD & _)|(HC & _)]]; [unfold ENOUGH, MAXD; lia|congruence|congruence].
Qed.

(** C39: [ENOUGH] and [MAXD] are enough: the tables [inflate] asks for (286
    literal/length codes with 9 root bits, 30 distance codes with 6, 19
    code-length codes with 7) are always built, within 860, 592 and 128
    entries, so that the return value 1 never occurs and two tables fit in
    [codes\[ENOUGH\]]. *)
Theorem inflate_table_enough type lens codes table bits work n :
  valid_args type lens codes bits work -> kraft lens codes = 2 ^ 15 ->
  (type = LENS /\ bits = 9 /\ codes <= 286 /\ n = 860) \/ (type = DISTS /\ bits = 6 /\ codes <= 30 /\ n = MAXD)
  \/ (type = CODES /\ bits = 7 /\ max_len lens codes <= 7 /\ n = 128) ->
  n <= zlen table ->
  exists res, inflate_table type lens codes table bits work = Ok res /\ res_ret res = 0 /\ 0 <= res_used res <= n
    /\ zlen (res_table res) = zlen table /\ table_decodes type lens codes (res_bits res) (take (Z.to_nat (res_used res)) (res_table res)).
Proof.
  intros Hv Hk Hn Hz. destruct (enough_ok type lens codes table bits work n Hv Hk Hn Hz) as (res & H1 & H2 & H3 & H4 & _ & _ & H5). by exists res.
Qed.

(** ** Concrete codes *)

Lemma inflate_table_decodes_witness : exists res,
  inflate_table LENS [2; 1; 3; 3] 4 (replicate 1456 (mkCode 0 0 0)) 9 (replicate 4 0) = Ok res /\
  ((res_ret res = 0 /\ res_bits res = root_bits [2; 1; 3; 3] 4 9 /\ zlen (res_table res) = zlen (replicate 1456 (mkCode 0 0 0))
    /\ table_decodes LENS [2; 1; 3; 3] 4 (res_bits res) (take (Z.to_nat (res_used res)) (res_table res))
    /\ 0 <= res_used res <= zlen (replicate 1456 (mkCode 0 0 0)) /\ forall n, table_fits [2; 1; 3; 3] 4 9 n -> res_used res <= n)
   \/ (res_ret res = 1 /\ LENS = LENS /\ ~ table_fits [2; 1; 3; 3] 4 9 (ENOUGH - MAXD - 1))).
Proof.
  apply inflate_table_decodes.
  - unfold valid_args. split_and!; try by vm_compute. repeat constructor; lia.
  - reflexivity.
  - left. split; [reflexivity|]. vm_compute. discriminate.
Defined.

Lemma inflate_table_other_witness :
  (valid_args LENS [0; 1; 0] 3 9 [0; 0; 0] /\ 0 < kraft [0; 1; 0] 3 < 2 ^ 15 /\ max_len [0; 1; 0] 3 = 1)
  /\ ((kraft [0; 1; 0] 3 = 0 ->
     inflate_table LENS [0; 1; 0] 3 (replicate 2 (mkCode 0 0 0)) 9 [0; 0; 0] = Ok (mkResult 0 (<[1%nat:=invalid_code]> (<[0%nat:=invalid_code]> (replicate 2 (mkCode 0 0 0)))) 2 1 [0; 0; 0]))
  /\ (2 ^ 15 < kraft [0; 1; 0] 3 \/ (0 < kraft [0; 1; 0] 3 < 2 ^ 15 /\ (LENS = CODES \/ max_len [0; 1; 0] 3 <> 1)) ->
     inflate_table LENS [0; 1; 0] 3 (replicate 2 (mkCode 0 0 0)) 9 [0; 0; 0] = Ok (mkResult (-1) (replicate 2 (mkCode 0 0 0)) 0 9 [0; 0; 0]))
  /\ (0 < kraft [0; 1; 0] 3 < 2 ^ 15 -> LENS <> CODES -> max_len [0; 1; 0] 3 = 1 ->
     exists s work', coded [0; 1; 0] 3 s /\ (forall s', coded [0; 1; 0] 3 s' -> s' = s) /\ len_of [0; 1; 0] s = 1 /\ huff_code [0; 1; 0] 3 s = 0
     /\ inflate_table LENS [0; 1; 0] 3 (replicate 2 (mkCode 0 0 0)) 9 [0; 0; 0]
        = Ok (mkResult 0 (<[1%nat:=invalid_code]> (<[0%nat:=sym_entry LENS s 1]> (replicate 2 (mkCode 0 0 0)))) 2 1 work'))).
Proof.
  assert (Hv : valid_args LENS [0; 1; 0] 3 9 [0; 0; 0]) by (unfold valid_args; split_and!; try (by vm_compute); repeat constructor; lia).
  split; [split; [exact Hv|by vm_compute]|]. apply inflate_table_other; [exact Hv|by vm_compute].
Defined.

Lemma inflate_table_enough_witness : exists res,
  inflate_table CODES [2; 1; 3; 3] 4 (replicate 128 (mkCode 0 0 0)) 7 (replicate 4 0) = Ok res /\ res_ret res = 0 /\ 0 <= res_used res <= 128
    /\ zlen (res_table res) = zlen (replicate 128 (mkCode 0 0 0)) /\ table_decodes CODES [2; 1; 3; 3] 4 (res_bits res) (take (Z.to_nat (res_used res)) (res_table res)).
Proof.
  apply (inflate_table_enough CODES [2; 1; 3; 3] 4 (replicate 128 (mkCode 0 0 0)) 7 (replicate 4 0) 128).
  - unfold valid_args. split_and!; try by vm_compute. repeat constructor; lia.
  - reflexivity.
  - right. right. split_and!; by vm_compute.
  - by vm_compute.
Defined.
