(* ===== verification/Inflate.v ===== *)
(** * The block decoder of zlib (3rd/zip/inflate.c, inflate.h, inffast.c)

    The modes [TYPE] to [LIT] of [inflate] as a state machine, one definition
    per [case], and the fast loop [inflate_fast].  A computation over the state
    returns a value, leaves through [inf_leave] ([Leaves]) or faults; NEEDBITS
    and PULLBYTE leave when the input is exhausted.  A [case] that sets the
    mode and falls through is the same as one that sets the mode and goes
    round the loop again, which is how the steps are written; [TYPE] falls
    into [TYPEDO] without setting it, and [step_type] runs the body of both.

    [inf] holds [struct inflate_state] and the locals of [inflate]: the input
    of the call is [i_in] and [next_in] the index [i_pos], [i_out] holds the
    bytes written since the call began and [i_left] the room that is left.
    [unsigned long] has 32 bits. *)

From stdpp Require Import strings.
From S2P Require Import Prelude Inftrees InfFixed.

(** ** State *)

(** [inflate_mode] *)
Inductive inflate_mode :=
| HEAD | FLAGS | TIME | OS | EXLEN | EXTRA | NAME | COMMENT | HCRC | DICTID | DICT
| TYPE | TYPEDO | STORED | COPY | TABLE | LENLENS | CODELENS
| LEN | LENEXT | DIST | DISTEXT | MATCH | LIT
| CHECK | LENGTH | DONE | BAD | MEM | SYNC.

#[export] Instance inflate_mode_eq_dec : EqDecision inflate_mode.
Proof. solve_decision. Defined.

(** What [lencode] and [distcode] point to. *)
Inductive code_ptr := InCodes (off : Z) | LenFix | DistFix.

Record inf := mkInf {
  i_mode : inflate_mode; i_last : Z; i_msg : option string;
  i_hold : Z; i_bits : Z; i_in : list Z; i_pos : Z; i_out : list Z; i_left : Z;
  i_length : Z; i_offset : Z; i_extra : Z;
  i_lencode : code_ptr; i_distcode : code_ptr; i_lenbits : Z; i_distbits : Z;
  i_ncode : Z; i_nlen : Z; i_ndist : Z; i_have : Z;
  i_lens : list Z; i_work : list Z; i_codes : list code;
  i_wsize : Z; i_whave : Z; i_write : Z; i_window : list Z }.

#[export] Instance eta_inf : Eta inf := fun s =>
  mkInf (i_mode s) (i_last s) (i_msg s) (i_hold s) (i_bits s) (i_in s) (i_pos s) (i_out s) (i_left s)
    (i_length s) (i_offset s) (i_extra s) (i_lencode s) (i_distcode s) (i_lenbits s) (i_distbits s)
    (i_ncode s) (i_nlen s) (i_ndist s) (i_have s) (i_lens s) (i_work s) (i_codes s)
    (i_wsize s) (i_whave s) (i_write s) (i_window s).

(** [have]: the bytes of input that are left. *)
Definition avail_in (s : inf) : Z := zlen (i_in s) - i_pos s.

(** The array behind a code pointer. *)
Definition code_array (s : inf) (p : code_ptr) : list code :=
  match p with InCodes off => drop (Z.to_nat off) (i_codes s) | LenFix => lenfix | DistFix => distfix end.

(** ** Computations *)

Inductive res (A : Type) : Type :=
| Got (a : A) (s : inf)
| Leaves (s : inf)
| Fault (c : crash).
Arguments Got {_} _ _.
Arguments Leaves {_} _.
Arguments Fault {_} _.

Definition M (A : Type) : Type := inf -> res A.
#[export] Instance M_ret : MRet M := fun A a s => Got a s.
#[export] Instance M_bind : MBind M := fun A B f m s =>
  match m s with Got a s => f a s | Leaves s => Leaves s | Fault c => Fault c end.

Definition get : M inf := fun s => Got s s.
Definition upd (f : inf -> inf) : M unit := fun s => Got tt (f s).
Definition inf_leave : M unit := fun s => Leaves s.
Definition lift {A} (m : outcome A) : M A := fun s => match m with Ok a => Got a s | Crash c => Fault c end.
Definition set_mode (m : inflate_mode) : M unit := upd (fun s => s <| i_mode := m |>).
Definition set_bad (msg : string) : M unit := upd (fun s => s <| i_msg := Some msg |> <| i_mode := BAD |>).

(** [hold += (unsigned long) *next++ << bits; bits += 8;] *)
Definition take_byte (s : inf) : outcome inf :=
  b ← elem_at (i_in s) (i_pos s);
  Ok (s <| i_pos := i_pos s + 1 |> <| i_hold := u32 (i_hold s + u32 (Z.shiftl b (i_bits s))) |> <| i_bits := i_bits s + 8 |>).

(** [PULLBYTE()] *)
Definition PULLBYTE : M unit := fun s =>
  if avail_in s =? 0 then Leaves s
  else match take_byte s with Ok s => Got tt s | Crash c => Fault c end.

(** [NEEDBITS(n)] *)
Fixpoint needbits (fuel : nat) (n : Z) : M unit :=
  match fuel with
  | O => lift (Crash OutOfFuel)
  | S fuel => s ← get; if i_bits s <? n then PULLBYTE ;; needbits fuel n else mret tt
  end.
Definition NEEDBITS (n : Z) : M unit := needbits 6 n.

(** [BITS(n)], [DROPBITS(n)], [BYTEBITS()], [INITBITS()] *)
Definition low_bits (s : inf) (n : Z) : Z := Z.land (i_hold s) (u32 (shl1 n - 1)).
Definition BITS (n : Z) : M Z := s ← get; mret (low_bits s n).
Definition DROPBITS (n : Z) : M unit :=
  upd (fun s => s <| i_hold := Z.shiftr (i_hold s) n |> <| i_bits := u32 (i_bits s - n) |>).
Definition BYTEBITS : M unit := s ← get; DROPBITS (Z.land (i_bits s) 7).
Definition INITBITS : M unit := upd (fun s => s <| i_hold := 0 |> <| i_bits := 0 |>).

(** [*put++ = b; left--;] *)
Definition put_out (b : Z) : M unit := fun s =>
  if i_left s <=? 0 then Fault OutOfBounds
  else Got tt (s <| i_out := i_out s ++ [b] |> <| i_left := i_left s - 1 |>).

(** ** Codes *)

(** [for (;;) { this = table\[index\]; if (this.bits + used <= bits) break; PULLBYTE(); }] *)
Fixpoint pull_code (fuel : nat) (table : list code) (index : inf -> Z) (used : Z) : M code :=
  match fuel with
  | O => lift (Crash OutOfFuel)
  | S fuel =>
      s ← get;
      this ← lift (elem_at table (index s));
      if used + c_bits this <=? i_bits s then mret this else PULLBYTE ;; pull_code fuel table index used
  end.

(** The code at the front of the input: the entry of the root table, or through
    a link ([linked] is the test of the code for one) the one of a sub-table;
    its bits are dropped. *)
Definition next_code (table : list code) (root : Z) (linked : code -> bool) : M code :=
  this ← pull_code 6 table (fun s => low_bits s root) 0;
  this ← (if linked this then
            let last := this in
            this ← pull_code 6 table (fun s => c_val last + Z.shiftr (low_bits s (c_bits last + c_op last)) (c_bits last)) (c_bits last);
            DROPBITS (c_bits last) ;; mret this
          else mret this);
  DROPBITS (c_bits this) ;; mret this.

Definition len_link (this : code) : bool := negb (c_op this =? 0) && (Z.land (c_op this) 240 =? 0).
Definition dist_link (this : code) : bool := Z.land (c_op this) 240 =? 0.

(** ** The modes *)

Definition Z_BLOCK : Z := 5.

(** [case TYPEDO:], and [case TYPE:] after its test *)
Definition type_body : M unit :=
  s ← get;
  if negb (i_last s =? 0) then BYTEBITS ;; set_mode CHECK
  else
    NEEDBITS 3 ;;
    l ← BITS 1; upd (fun s => s <| i_last := l |>) ;;
    DROPBITS 1 ;;
    t ← BITS 2;
    (if t =? 0 then set_mode STORED
     else if t =? 1 then
       upd (fun s => s <| i_lencode := LenFix |> <| i_lenbits := 9 |> <| i_distcode := DistFix |> <| i_distbits := 5 |>) ;;
       set_mode LEN
     else if t =? 2 then set_mode TABLE
     else set_bad "invalid block type") ;;
    DROPBITS 2.

Definition step_type (flush : Z) : M unit := if flush =? Z_BLOCK then inf_leave else type_body.

(** [case STORED:] *)
Definition step_stored : M unit :=
  BYTEBITS ;;
  NEEDBITS 32 ;;
  s ← get;
  if negb (Z.land (i_hold s) 65535 =? Z.lxor (Z.shiftr (i_hold s) 16) 65535) then set_bad "invalid stored block lengths"
  else
    upd (fun s => s <| i_length := Z.land (i_hold s) 65535 |>) ;;
    INITBITS ;;
    set_mode COPY.

(** [case COPY:] *)
Definition step_copy : M unit :=
  s ← get;
  let copy := i_length s in
  if negb (copy =? 0) then
    let copy := if avail_in s <? copy then avail_in s else copy in
    let copy := if i_left s <? copy then i_left s else copy in
    if copy =? 0 then inf_leave
    else
      bytes ← lift (read_at (i_in s) (i_pos s) copy);
      upd (fun s => s <| i_pos := i_pos s + copy |> <| i_out := i_out s ++ bytes |> <| i_left := i_left s - copy |>
                      <| i_length := i_length s - copy |>)
  else set_mode TYPE.

(** [case TABLE:] *)
Definition step_table : M unit :=
  NEEDBITS 14 ;;
  n ← BITS 5; upd (fun s => s <| i_nlen := n + 257 |>) ;; DROPBITS 5 ;;
  n ← BITS 5; upd (fun s => s <| i_ndist := n + 1 |>) ;; DROPBITS 5 ;;
  n ← BITS 4; upd (fun s => s <| i_ncode := n + 4 |>) ;; DROPBITS 4 ;;
  s ← get;
  if (286 <? i_nlen s) || (30 <? i_ndist s) then set_bad "too many length or distance symbols"
  else upd (fun s => s <| i_have := 0 |>) ;; set_mode LENLENS.

(** [order\[19\]] *)
Definition order : list Z := [16; 17; 18; 0; 8; 7; 9; 6; 10; 5; 11; 4; 12; 3; 13; 2; 14; 1; 15].

(** [state->lens\[order\[state->have++\]\] = v;] *)
Definition put_order (v : Z) : M unit :=
  s ← get;
  o ← lift (elem_at order (i_have s));
  lens ← lift (elem_set (i_lens s) o v);
  upd (fun s => s <| i_lens := lens |> <| i_have := i_have s + 1 |>).

Fixpoint read_lenlens (fuel : nat) : M unit :=
  match fuel with
  | O => lift (Crash OutOfFuel)
  | S fuel =>
      s ← get;
      if i_have s <? i_ncode s then NEEDBITS 3 ;; v ← BITS 3; put_order v ;; DROPBITS 3 ;; read_lenlens fuel
      else mret tt
  end.
Fixpoint clear_lenlens (fuel : nat) : M unit :=
  match fuel with
  | O => lift (Crash OutOfFuel)
  | S fuel => s ← get; if i_have s <? 19 then put_order 0 ;; clear_lenlens fuel else mret tt
  end.

(** [inflate_table(type, lens, codes, &(state->next), &bits, state->work)] with
    [state->next] at index [off] of [codes]: the result, with the table and
    [work] written back. *)
Definition call_inflate_table (type : codetype) (lens : list Z) (codes off bits : Z) : M table_result :=
  s ← get;
  r ← lift (inflate_table type lens codes (drop (Z.to_nat off) (i_codes s)) bits (i_work s));
  upd (fun s => s <| i_codes := take (Z.to_nat off) (i_codes s) ++ res_table r |> <| i_work := res_work r |>) ;;
  mret r.

(** [case LENLENS:] *)
Definition step_lenlens : M unit :=
  read_lenlens 20 ;;
  clear_lenlens 20 ;;
  upd (fun s => s <| i_lencode := InCodes 0 |>) ;;
  s ← get;
  r ← call_inflate_table CODES (i_lens s) 19 0 7;
  upd (fun s => s <| i_lenbits := res_bits r |>) ;;
  if negb (res_ret r =? 0) then set_bad "invalid code lengths set"
  else upd (fun s => s <| i_have := 0 |>) ;; set_mode CODELENS.

(** [while (copy--) state->lens\[state->have++\] = (unsigned short)len;] *)
Fixpoint put_lens (n : nat) (len : Z) : M unit :=
  match n with
  | O => mret tt
  | S n =>
      s ← get;
      lens ← lift (elem_set (i_lens s) (i_have s) len);
      upd (fun s => s <| i_lens := lens |> <| i_have := i_have s + 1 |>) ;;
      put_lens n len
  end.

(** One code length, or a run of them; [false] is the [break] of an error. *)
Definition read_codelen : M bool :=
  s ← get;
  this ← pull_code 6 (code_array s (i_lencode s)) (fun s => low_bits s (i_lenbits s)) 0;
  if c_val this <? 16 then
    NEEDBITS (c_bits this) ;; DROPBITS (c_bits this) ;; put_lens 1 (c_val this) ;; mret true
  else
    run ← (if c_val this =? 16 then
             NEEDBITS (c_bits this + 2) ;; DROPBITS (c_bits this) ;;
             s ← get;
             if i_have s =? 0 then set_bad "invalid bit length repeat" ;; mret None
             else
               len ← lift (elem_at (i_lens s) (i_have s - 1));
               n ← BITS 2; DROPBITS 2 ;; mret (Some (len, 3 + n))
           else if c_val this =? 17 then
             NEEDBITS (c_bits this + 3) ;; DROPBITS (c_bits this) ;; n ← BITS 3; DROPBITS 3 ;; mret (Some (0, 3 + n))
           else
             NEEDBITS (c_bits this + 7) ;; DROPBITS (c_bits this) ;; n ← BITS 7; DROPBITS 7 ;; mret (Some (0, 11 + n)));
    match run with
    | None => mret false
    | Some (len, copy) =>
        s ← get;
        if i_nlen s + i_ndist s <? i_have s + copy then set_bad "invalid bit length repeat" ;; mret false
        else put_lens (Z.to_nat copy) len ;; mret true
    end.

Fixpoint read_codelens (fuel : nat) : M unit :=
  match fuel with
  | O => lift (Crash OutOfFuel)
  | S fuel =>
      s ← get;
      if i_have s <? i_nlen s + i_ndist s then more ← read_codelen; if (more : bool) then read_codelens fuel else mret tt
      else mret tt
  end.

(** [case CODELENS:] *)
Definition step_codelens : M unit :=
  read_codelens 400 ;;
  s ← get;
  if bool_decide (i_mode s = BAD) then mret tt
  else
    upd (fun s => s <| i_lencode := InCodes 0 |>) ;;
    r ← call_inflate_table LENS (i_lens s) (i_nlen s) 0 9;
    upd (fun s => s <| i_lenbits := res_bits r |>) ;;
    if negb (res_ret r =? 0) then set_bad "invalid literal/lengths set"
    else
      upd (fun s => s <| i_distcode := InCodes (res_used r) |>) ;;
      d ← call_inflate_table DISTS (drop (Z.to_nat (i_nlen s)) (i_lens s)) (i_ndist s) (res_used r) 6;
      upd (fun s => s <| i_distbits := res_bits d |>) ;;
      if negb (res_ret d =? 0) then set_bad "invalid distances set"
      else set_mode LEN.

(** The part of [case LEN:] after the test for the fast loop. *)
Definition slow_len : M unit :=
  s ← get;
  this ← next_code (code_array s (i_lencode s)) (i_lenbits s) len_link;
  upd (fun s => s <| i_length := c_val this |>) ;;
  if c_op this =? 0 then set_mode LIT
  else if negb (Z.land (c_op this) 32 =? 0) then set_mode TYPE
  else if negb (Z.land (c_op this) 64 =? 0) then set_bad "invalid literal/length code"
  else upd (fun s => s <| i_extra := Z.land (c_op this) 15 |>) ;; set_mode LENEXT.

(** [case LENEXT:] *)
Definition step_lenext : M unit :=
  s ← get;
  (if negb (i_extra s =? 0) then
     NEEDBITS (i_extra s) ;; n ← BITS (i_extra s); upd (fun s => s <| i_length := i_length s + n |>) ;; DROPBITS (i_extra s)
   else mret tt) ;;
  set_mode DIST.

(** [case DIST:] *)
Definition step_dist : M unit :=
  s ← get;
  this ← next_code (code_array s (i_distcode s)) (i_distbits s) dist_link;
  if negb (Z.land (c_op this) 64 =? 0) then set_bad "invalid distance code"
  else upd (fun s => s <| i_offset := c_val this |> <| i_extra := Z.land (c_op this) 15 |>) ;; set_mode DISTEXT.

(** [case DISTEXT:]; [out - left] is the number of bytes written. *)
Definition step_distext : M unit :=
  s ← get;
  (if negb (i_extra s =? 0) then
     NEEDBITS (i_extra s) ;; n ← BITS (i_extra s); upd (fun s => s <| i_offset := i_offset s + n |>) ;; DROPBITS (i_extra s)
   else mret tt) ;;
  s ← get;
  if i_whave s + zlen (i_out s) <? i_offset s then set_bad "invalid distance too far back"
  else set_mode MATCH.

(** The source of a copy: the window, or the output at an index. *)
Inductive from_ptr := FromWindow (i : Z) | FromOut (i : Z).
Definition from_read (s : inf) (f : from_ptr) : outcome Z :=
  match f with FromWindow i => elem_at (i_window s) i | FromOut i => elem_at (i_out s) i end.
Definition from_next (f : from_ptr) : from_ptr :=
  match f with FromWindow i => FromWindow (i + 1) | FromOut i => FromOut (i + 1) end.

(** [n] times [*put++ = *from++;], and where [from] ends *)
Fixpoint copy_from (n : nat) (f : from_ptr) : M from_ptr :=
  match n with
  | O => mret f
  | S n => s ← get; b ← lift (from_read s f); put_out b ;; copy_from n (from_next f)
  end.

(** The runs of [do { ... } while (--n);] *)
Definition do_times (n : Z) : nat := Z.to_nat (if n =? 0 then 2 ^ 32 else n).

(** [case MATCH:] *)
Definition step_match : M unit :=
  s ← get;
  if i_left s =? 0 then inf_leave
  else
    let copy := zlen (i_out s) in
    let '(from, copy) :=
      if copy <? i_offset s then
        let copy := i_offset s - copy in
        let '(from, copy) :=
          if i_write s <? copy then (FromWindow (i_wsize s - (copy - i_write s)), copy - i_write s)
          else (FromWindow (i_write s - copy), copy) in
        (from, if i_length s <? copy then i_length s else copy)
      else (FromOut (zlen (i_out s) - i_offset s), i_length s) in
    let copy := if i_left s <? copy then i_left s else copy in
    upd (fun s => s <| i_length := i_length s - copy |>) ;;
    _ ← copy_from (do_times copy) from;
    s ← get;
    if i_length s =? 0 then set_mode LEN else mret tt.

(** [case LIT:] *)
Definition step_lit : M unit :=
  s ← get;
  if i_left s =? 0 then inf_leave
  else put_out (u8 (i_length s)) ;; set_mode LEN.

(** ** The fast loop *)

(** [hold += (unsigned long)(PUP(in)) << bits; bits += 8;] without a test for input *)
Definition fast_byte : M unit := fun s =>
  match take_byte s with Ok s => Got tt s | Crash c => Fault c end.
Definition fast_fill : M unit := s ← get; if i_bits s <? 15 then fast_byte ;; fast_byte else mret tt.

(** The entry for the code at the front of [hold], its bits dropped; [stop]
    says that it is not a link to a sub-table.  The tables have one level of
    sub-tables, so the second [goto] is never taken. *)
Fixpoint fast_links (fuel : nat) (table : list code) (stop : code -> bool) (this : code) : M code :=
  match fuel with
  | O => lift (Crash OutOfFuel)
  | S fuel =>
      DROPBITS (c_bits this) ;;
      if stop this then mret this
      else
        s ← get;
        this ← lift (elem_at table (c_val this + low_bits s (c_op this)));
        fast_links fuel table stop this
  end.
Definition fast_code (table : list code) (root : Z) (stop : code -> bool) : M code :=
  s ← get;
  this ← lift (elem_at table (low_bits s root));
  fast_links 3 table stop this.

Definition len_stop (this : code) : bool :=
  (c_op this =? 0) || negb (Z.land (c_op this) 16 =? 0) || negb (Z.land (c_op this) 64 =? 0).
Definition dist_stop (this : code) : bool :=
  negb (Z.land (c_op this) 16 =? 0) || negb (Z.land (c_op this) 64 =? 0).

(** [if (op < len) { len -= op; do { PUP(out) = PUP(from); } while (--op); ... }]:
    [op] bytes from the window, then what is left of [len] from [rest]. *)
Definition window_part (op len : Z) (from : from_ptr) (rest : Z -> M (Z * from_ptr)) : M (Z * from_ptr) :=
  if op <? len then
    _ ← copy_from (do_times op) from;
    rest (len - op)
  else mret (len, from).

(** [from = out - dist;] *)
Definition rest_from_output (dist len : Z) : M (Z * from_ptr) :=
  s ← get; mret (len, FromOut (zlen (i_out s) - dist)).

(** Copy [len] bytes from [dist] back; [false] is the [break] of an error.  The
    unrolled loops copy [len] bytes in order; the one for a match in the output
    tests [len > 2] after subtracting 3 from it, and so wraps for a shorter one. *)
Definition fast_match (len dist : Z) : M bool :=
  s ← get;
  let op := zlen (i_out s) in
  if op <? dist then
    let op := dist - op in
    if i_whave s <? op then set_bad "invalid distance too far back" ;; mret false
    else
      p ← (if i_write s =? 0 then
             window_part op len (FromWindow (i_wsize s - op)) (rest_from_output dist)
           else if i_write s <? op then
             window_part (op - i_write s) len (FromWindow (i_wsize s + i_write s - op))
               (fun len =>
                  if i_write s <? len then
                    _ ← copy_from (do_times (i_write s)) (FromWindow 0);
                    rest_from_output dist (len - i_write s)
                  else mret (len, FromWindow 0))
           else
             window_part op len (FromWindow (i_write s - op)) (rest_from_output dist));
      _ ← copy_from (Z.to_nat p.1) p.2;
      mret true
  else
    _ ← copy_from (Z.to_nat (if len <? 3 then 2 ^ 32 + len else len)) (FromOut (op - dist));
    mret true.

(** One iteration of the loop; [false] is a [break]. *)
Definition fast_step : M bool :=
  fast_fill ;;
  s ← get;
  this ← fast_code (code_array s (i_lencode s)) (i_lenbits s) len_stop;
  if c_op this =? 0 then put_out (u8 (c_val this)) ;; mret true
  else if negb (Z.land (c_op this) 16 =? 0) then
    let op := Z.land (c_op this) 15 in
    len ← (if negb (op =? 0) then
             s ← get;
             (if i_bits s <? op then fast_byte else mret tt) ;;
             n ← BITS op; DROPBITS op ;; mret (c_val this + n)
           else mret (c_val this));
    fast_fill ;;
    this ← fast_code (code_array s (i_distcode s)) (i_distbits s) dist_stop;
    if negb (Z.land (c_op this) 16 =? 0) then
      let op := Z.land (c_op this) 15 in
      s ← get;
      (if i_bits s <? op then
         fast_byte ;; s ← get; if i_bits s <? op then fast_byte else mret tt
       else mret tt) ;;
      n ← BITS op; DROPBITS op ;;
      fast_match len (c_val this + n)
    else set_bad "invalid distance code" ;; mret false
  else if negb (Z.land (c_op this) 32 =? 0) then set_mode TYPE ;; mret false
  else set_bad "invalid literal/length code" ;; mret false.

(** [do { ... } while (in < last && out < end);] *)
Fixpoint fast_loop (fuel : nat) : M unit :=
  match fuel with
  | O => lift (Crash OutOfFuel)
  | S fuel =>
      more ← fast_step;
      s ← get;
      if (more : bool) && (6 <=? avail_in s) && (258 <=? i_left s) then fast_loop fuel else mret tt
  end.

(** [inflate_fast]: the loop, then the unused bytes are given back.  Each
    iteration writes a byte of output or ends the loop. *)
Definition inflate_fast : M unit :=
  s ← get;
  fast_loop (S (Z.to_nat (i_left s))) ;;
  s ← get;
  let len := Z.shiftr (i_bits s) 3 in
  let bits := i_bits s - Z.shiftl len 3 in
  if i_pos s - len <? 0 then lift (Crash OutOfBounds)
  else upd (fun s => s <| i_pos := i_pos s - len |> <| i_bits := bits |> <| i_hold := Z.land (i_hold s) (u32 (shl1 bits - 1)) |>).

(** [case LEN:] *)
Definition step_len : M unit :=
  s ← get;
  if (6 <=? avail_in s) && (258 <=? i_left s) then inflate_fast else slow_len.

(** ** The loop of [inflate] over the modes of a block *)

(** The modes modelled here. *)
Definition block_mode (m : inflate_mode) : bool :=
  match m with
  | TYPE | TYPEDO | STORED | COPY | TABLE | LENLENS | CODELENS | LEN | LENEXT | DIST | DISTEXT | MATCH | LIT => true
  | _ => false
  end.

Definition block_step (flush : Z) : M unit :=
  s ← get;
  match i_mode s with
  | TYPE => step_type flush
  | TYPEDO => type_body
  | STORED => step_stored
  | COPY => step_copy
  | TABLE => step_table
  | LENLENS => step_lenlens
  | CODELENS => step_codelens
  | LEN => step_len
  | LENEXT => step_lenext
  | DIST => step_dist
  | DISTEXT => step_distext
  | MATCH => step_match
  | LIT => step_lit
  | _ => mret tt
  end.

(** The modes of blocks until another mode is reached or the call has to leave. *)
Fixpoint inflate_blocks (fuel : nat) (flush : Z) (s : inf) : outcome inf :=
  match fuel with
  | O => Crash OutOfFuel
  | S fuel =>
      if block_mode (i_mode s) then
        match block_step flush s with
        | Got _ s => inflate_blocks fuel flush s
        | Leaves s => Ok s
        | Fault c => Crash c
        end
      else Ok s
  end.
