(* ===== verification/Bits.v ===== *)
(** * Bit strings

    The bits of a deflate stream, lowest first: [zbits n v] are the low [n]
    bits of [v], [bytes_bits] the bits of a sequence of bytes.  Concatenation
    is addition at the right place ([zbits_app]), so that a bit buffer and the
    bytes behind it are one string. *)

From S2P Require Import Prelude BitRev.

Definition zbits (n v : Z) : list bool := Z.testbit v <$> seqZ 0 n.
Definition bytes_bits (l : list Z) : list bool := l ≫= zbits 8.

(** The number with the given bits. *)
Definition bval (l : list bool) : Z := foldr (fun b a => Z.b2z b + 2 * a) 0 l.

Lemma zlen_zbits n v : 0 <= n -> zlen (zbits n v) = n.
Proof. intros. unfold zbits, zlen. rewrite length_fmap, length_seqZ. lia. Qed.

Lemma zbits_0 v : zbits 0 v = [].
Proof. reflexivity. Qed.

Lemma seqZ_shift a b n : seqZ (a + b) n = Z.add a <$> seqZ b n.
Proof. by rewrite fmap_add_seqZ. Qed.

Lemma zbits_split a b v : 0 <= a -> 0 <= b -> zbits (a + b) v = zbits a v ++ zbits b (v `div` 2 ^ a).
Proof.
  intros Ha Hb. unfold zbits. rewrite seqZ_app by lia. rewrite fmap_app. f_equal. rewrite Z.add_0_l.
  replace a with (a + 0) at 1 by lia. rewrite seqZ_shift, <- list_fmap_compose. apply list_fmap_ext. intros i x Hx. simpl.
  apply list_elem_of_lookup_2, elem_of_seqZ in Hx. rewrite Z.div_pow2_bits by lia. f_equal. lia.
Qed.

Lemma zbits_mod n v : 0 <= n -> zbits n (v `mod` 2 ^ n) = zbits n v.
Proof.
  intros Hn. unfold zbits. apply list_fmap_ext. intros i x Hx. apply list_elem_of_lookup_2, elem_of_seqZ in Hx.
  by rewrite Z.mod_pow2_bits_low by lia.
Qed.

Lemma zbits_add_high n v w : 0 <= n -> zbits n (v + 2 ^ n * w) = zbits n v.
Proof.
  intros Hn. rewrite <- (zbits_mod n (v + _)), <- (zbits_mod n v) by done. f_equal. rewrite Z.mul_comm. apply Z.mod_add.
  pose proof (pow2_pos n Hn). lia.
Qed.

(** Two strings one behind the other. *)
Lemma zbits_app a b v w : 0 <= a -> 0 <= b -> 0 <= v < 2 ^ a -> zbits a v ++ zbits b w = zbits (a + b) (v + 2 ^ a * w).
Proof.
  intros Ha Hb Hv. rewrite zbits_split, zbits_add_high by done. f_equal. f_equal.
  rewrite Z.mul_comm, Z.div_add by lia. rewrite Z.div_small by done. lia.
Qed.

Lemma bval_zbits n v : 0 <= n -> bval (zbits n v) = v `mod` 2 ^ n.
Proof.
  intros Hn. revert v. pattern n. apply bits_ind; [intros v; by rewrite Z.mod_1_r| |done]. clear n Hn. intros n Hn IH v.
  replace (n + 1) with (1 + n) by lia. rewrite zbits_split by lia. change (zbits 1 v) with [Z.testbit v 0]. simpl. rewrite IH.
  rewrite Z.pow_add_r by lia. rewrite mod_split by (pose proof (pow2_pos n Hn); lia). change (2 ^ 1) with 2. by rewrite <- Z.bit0_mod.
Qed.

Lemma bval_app a b : bval (a ++ b) = bval a + 2 ^ zlen a * bval b.
Proof.
  induction a as [|x a IH]; [simpl; change (2 ^ zlen []) with 1; lia|]. simpl. rewrite IH, zlen_cons.
  rewrite Z.pow_add_r by (pose proof (zlen_nonneg a); lia). lia.
Qed.

Lemma zbits_inj n v w : 0 <= n -> zbits n v = zbits n w -> v `mod` 2 ^ n = w `mod` 2 ^ n.
Proof. intros Hn E. apply (f_equal bval) in E. by rewrite !bval_zbits in E. Qed.

(** A string that begins with [zbits n v]. *)
Lemma bval_prefix n v r : 0 <= n -> 0 <= v < 2 ^ n -> bval (zbits n v ++ r) `mod` 2 ^ n = v.
Proof.
  intros Hn Hv. rewrite bval_app, bval_zbits, zlen_zbits by done. rewrite Z.mul_comm, Z.mod_add by lia. rewrite Z.mod_mod by lia. by apply Z.mod_small.
Qed.

Lemma zbits_bval l : zbits (zlen l) (bval l) = l.
Proof.
  induction l as [|b l IH]; [done|]. rewrite zlen_cons. rewrite zbits_split by (pose proof (zlen_nonneg l); lia).
  simpl bval. change (2 ^ 1) with 2. assert (E : (Z.b2z b + 2 * bval l) `div` 2 = bval l) by (rewrite Z.mul_comm, Z.div_add by lia; destruct b; done).
  rewrite E, IH. match goal with |- zbits 1 ?x ++ _ = _ => change (zbits 1 x) with [Z.testbit x 0] end. cbn [app]. f_equal. rewrite Z.bit0_odd, Z.odd_add, Z.odd_mul. by destruct b.
Qed.

Lemma bytes_bits_app a b : bytes_bits (a ++ b) = bytes_bits a ++ bytes_bits b.
Proof. unfold bytes_bits. apply bind_app. Qed.

Lemma bytes_bits_cons b l : bytes_bits (b :: l) = zbits 8 b ++ bytes_bits l.
Proof. reflexivity. Qed.

Lemma zlen_bytes_bits l : zlen (bytes_bits l) = 8 * zlen l.
Proof. induction l as [|b l IH]; [done|]. rewrite bytes_bits_cons, zlen_app, zlen_zbits, IH, zlen_cons by lia. lia. Qed.

(** The prefix of a string is the prefix of its parts. *)
Lemma zbits_app_inv n v w r r' : 0 <= n -> zbits n v ++ r = zbits n w ++ r' -> v `mod` 2 ^ n = w `mod` 2 ^ n /\ r = r'.
Proof.
  intros Hn E. apply app_inj_1 in E as [E1 E2]; [|unfold zbits; by rewrite !length_fmap, !length_seqZ]. split; [by apply zbits_inj|done].
Qed.
