(* ===== verification/InfDecode.v ===== *)
(** * Reading bits and codes

    The bit buffer of [inflate] and the input behind it are one bit string
    ([rbits]).  PULLBYTE keeps it, DROPBITS removes its front, and a code read
    through a decoding table is the one the string begins with, however many
    of its bits are in the buffer already ([next_code_spec]). A [decoder] is
    what the reader relies on: a table for a complete prefix code. *)

From S2P Require Import Prelude Inftrees BitRev InftreesSpec InfFixed Inflate Bits.

(** ** The buffer *)

Definition set_buf (s : inf) (h b p : Z) : inf := s <| i_hold := h |> <| i_bits := b |> <| i_pos := p |>.

Definition rbits (s : inf) : list bool := zbits (i_bits s) (i_hold s) ++ bytes_bits (drop (Z.to_nat (i_pos s)) (i_in s)).

Record buf_ok (s : inf) : Prop := {
  buf_bits : 0 <= i_bits s;
  buf_hold : 0 <= i_hold s < 2 ^ i_bits s;
  buf_pos : 0 <= i_pos s <= zlen (i_in s);
  buf_bytes : is_bytes (i_in s) }.

(** The state [s'] is [s] with another buffer, holding the string [R]. *)
Definition reads (s s' : inf) (R : list bool) : Prop :=
  (exists h b p, s' = set_buf s h b p) /\ buf_ok s' /\ rbits s' = R.

Lemma reads_refl s : buf_ok s -> reads s s (rbits s).
Proof. intros. split; [|done]. exists (i_hold s), (i_bits s), (i_pos s). by destruct s. Qed.

Lemma reads_trans s s1 s2 R1 R2 : reads s s1 R1 -> reads s1 s2 R2 -> reads s s2 R2.
Proof. intros [(h & b & p & ->) _] [(h' & b' & p' & ->) ?]. split; [by exists h', b', p'|done]. Qed.

Lemma zlen_rbits s : buf_ok s -> zlen (rbits s) = i_bits s + 8 * avail_in s.
Proof.
  intros []. unfold rbits, avail_in. rewrite zlen_app, zlen_zbits, zlen_bytes_bits, zlen_drop by done. done.
Qed.

Lemma take_byte_spec s : buf_ok s -> i_bits s <= 24 -> 0 < avail_in s ->
  exists s', take_byte s = Ok s' /\ reads s s' (rbits s) /\ i_bits s' = i_bits s + 8 /\ i_pos s' = i_pos s + 1.
Proof.
  intros [Hb Hh Hp Hi] H24 Hav. unfold avail_in in Hav. destruct (lookup_lt_is_Some_2 (i_in s) (Z.to_nat (i_pos s))) as [x Hx]; [unfold zlen in *; lia|].
  unfold take_byte. rewrite (elem_at_lookup _ _ x) by (done || lia). cbn [mbind outcome_bind]. eexists. split; [done|].
  pose proof (Forall_lookup_1 _ _ _ _ Hi Hx) as Hxb. unfold is_byte in Hxb. pose proof (pow2_pos (i_bits s) Hb) as Hpp.
  pose proof (pow2_mono (i_bits s) 24 ltac:(lia)) as Hp24. change (2 ^ 24) with 16777216 in Hp24.
  assert (Hu1 : u32 (Z.shiftl x (i_bits s)) = 2 ^ i_bits s * x) by (rewrite Z.shiftl_mul_pow2, u32_small by (unfold is_u32; change (2 ^ 32) with 4294967296; lia || nia); lia).
  assert (Hsum : 0 <= i_hold s + 2 ^ i_bits s * x < 2 ^ (i_bits s + 8)) by (rewrite Z.pow_add_r by lia; change (2 ^ 8) with 256; nia).
  assert (Hu2 : u32 (i_hold s + 2 ^ i_bits s * x) = i_hold s + 2 ^ i_bits s * x).
  { apply u32_small. unfold is_u32. pose proof (pow2_mono (i_bits s + 8) 32 ltac:(lia)). lia. }
  rewrite Hu1, Hu2. split; [|done]. split; [by eexists _, _, _|]. split; [split; simpl; (done || lia)|].
  unfold rbits. cbn. rewrite (drop_S (i_in s) x (Z.to_nat (i_pos s)) Hx), bytes_bits_cons. rewrite app_assoc, zbits_app by lia.
  do 3 f_equal. lia.
Qed.

Lemma PULLBYTE_spec s : buf_ok s -> i_bits s <= 24 -> i_bits s < zlen (rbits s) ->
  exists s', PULLBYTE s = Got tt s' /\ reads s s' (rbits s) /\ i_bits s' = i_bits s + 8.
Proof.
  intros Hok H24 Hz. rewrite zlen_rbits in Hz by done. destruct (take_byte_spec s Hok H24 ltac:(lia)) as (s' & Ht & Hr & Hb & _).
  exists s'. unfold PULLBYTE. rewrite (proj2 (Z.eqb_neq _ _)) by lia. rewrite Ht. done.
Qed.

(** Up to 25 bits, or up to 32 from a whole number of bytes on. *)
Definition needs_fit (s : inf) (n : Z) : Prop := n <= 25 \/ n <= 32 /\ i_bits s `mod` 8 = 0.

Lemma needbits_gen fuel : forall s n, buf_ok s -> needs_fit s n -> n <= zlen (rbits s) -> n - i_bits s <= 8 * (Z.of_nat fuel - 1) -> (0 < fuel)%nat ->
  exists s', needbits fuel n s = Got tt s' /\ reads s s' (rbits s) /\ n <= i_bits s' /\ i_bits s' <= Z.max (i_bits s) (n + 7) /\ i_bits s' `mod` 8 = i_bits s `mod` 8.
Proof.
  induction fuel as [|fuel IH]; intros s n Hok Hn Hz Hf H0; [lia|]. cbn [needbits]. unfold mbind at 1, M_bind, get.
  destruct (Z.ltb_spec (i_bits s) n) as [Hlt|Hge].
  - assert (H24 : i_bits s <= 24) by (destruct Hn as [?|[? ?]]; [lia|Z.div_mod_to_equations; lia]).
    destruct (PULLBYTE_spec s Hok H24 ltac:(lia)) as (s1 & Hp & Hr & Hb). unfold mbind at 1. rewrite Hp.
    assert (Hmod : i_bits s1 `mod` 8 = i_bits s `mod` 8) by (rewrite Hb; Z.div_mod_to_equations; lia).
    pose proof Hr as (_ & Hok1 & Hr1). destruct (IH s1 n Hok1) as (s' & Hs' & Hr' & Hge & Hle & Hm); [unfold needs_fit in *; lia|by rewrite Hr1|lia|lia|].
    exists s'. split; [exact Hs'|]. rewrite Hr1 in Hr'. split; [by eapply reads_trans|]. lia.
  - exists s. split; [done|]. split; [by apply reads_refl|]. lia.
Qed.

Lemma NEEDBITS_spec s n : buf_ok s -> n <= 25 -> n <= zlen (rbits s) ->
  exists s', NEEDBITS n s = Got tt s' /\ reads s s' (rbits s) /\ n <= i_bits s' /\ i_bits s' <= Z.max (i_bits s) (n + 7).
Proof.
  intros Hok Hn Hz. destruct (needbits_gen 6 s n Hok ltac:(by left) Hz) as (s' & H1 & H2 & H3 & H4 & _); [destruct Hok; lia|lia|by exists s'].
Qed.

(** ** The front of the string *)

Lemma low_bits_mod s n : 0 <= n < 32 -> low_bits s n = i_hold s `mod` 2 ^ n.
Proof.
  intros Hn. unfold low_bits. rewrite shl1_pow2 by lia. pose proof (pow2_pos n ltac:(lia)). pose proof (pow2_mono n 31 ltac:(lia)).
  rewrite u32_small by (unfold is_u32; change (2 ^ 32) with 4294967296; change (2 ^ 31) with 2147483648 in *; lia). apply land_mask. lia.
Qed.

(** The buffer is the string up to its length. *)
Lemma hold_prefix s n : buf_ok s -> 0 <= n <= i_bits s -> i_hold s `mod` 2 ^ n = bval (rbits s) `mod` 2 ^ n.
Proof.
  intros [Hb Hh _ _] Hn. unfold rbits. rewrite bval_app, bval_zbits, zlen_zbits by done. rewrite (Z.mod_small (i_hold s) (2 ^ i_bits s)) by done.
  rewrite (pow2_split (i_bits s) n), <- Z.mul_assoc by lia. rewrite (Z.mul_comm (2 ^ n)), Z.mod_add by (pose proof (pow2_pos n); lia). done.
Qed.

Lemma hold_bval s : buf_ok s -> i_hold s = bval (rbits s) `mod` 2 ^ i_bits s.
Proof. intros Hok. rewrite <- hold_prefix by (done || destruct Hok; lia). destruct Hok. by rewrite Z.mod_small. Qed.

Lemma BITS_front s n v R : buf_ok s -> rbits s = zbits n v ++ R -> 0 <= n < 32 -> n <= i_bits s -> 0 <= v < 2 ^ n -> low_bits s n = v.
Proof. intros Hok HR Hn Hb Hv. rewrite low_bits_mod by lia. rewrite (hold_prefix s n Hok) by lia. rewrite HR. apply bval_prefix; lia. Qed.

Definition drop_bits (s : inf) (n : Z) : inf := s <| i_hold := Z.shiftr (i_hold s) n |> <| i_bits := u32 (i_bits s - n) |>.

Lemma drop_front s n v R : buf_ok s -> rbits s = zbits n v ++ R -> 0 <= n <= i_bits s -> i_bits s < 2 ^ 32 ->
  reads s (drop_bits s n) R /\ i_bits (drop_bits s n) = i_bits s - n.
Proof.
  intros Hok HR Hn Hb32. pose proof Hok as [Hb Hh Hp Hi]. assert (Hu : u32 (i_bits s - n) = i_bits s - n) by (apply u32_small; unfold is_u32; lia).
  unfold drop_bits. split; [|by simpl]. rewrite Hu, Z.shiftr_div_pow2 by lia. split; [exists (i_hold s `div` 2 ^ n), (i_bits s - n), (i_pos s); reflexivity|].
  pose proof (pow2_pos n ltac:(lia)). split.
  - split; simpl; [lia| |done|done]. split; [apply Z.div_pos; lia|]. apply Z.div_lt_upper_bound; [lia|]. rewrite <- pow2_split by lia. lia.
  - unfold rbits in *. cbn. replace (i_bits s) with (n + (i_bits s - n)) in HR by lia. rewrite zbits_split in HR by lia. rewrite <- app_assoc in HR.
    replace (n + (i_bits s - n)) with (i_bits s) in HR by lia. apply zbits_app_inv in HR as [_ HR]; [done|lia].
Qed.

(** Bits that are in the buffer: reading and dropping them. *)
Lemma front_of s n : buf_ok s -> 0 <= n <= i_bits s -> exists R, rbits s = zbits n (low_bits s n) ++ R \/ 32 <= n.
Proof.
  intros Hok Hn. destruct (decide (32 <= n)); [by exists []; right|]. rewrite low_bits_mod by lia. rewrite zbits_mod by lia.
  eexists. left. unfold rbits. replace (i_bits s) with (n + (i_bits s - n)) by lia. rewrite zbits_split by lia. by rewrite <- app_assoc.
Qed.

(** Pulling bytes until the entry at an index that depends on the buffer fits. *)
Lemma pull_code_spec table index used target N : N <= 25 -> forall fuel s, buf_ok s -> N <= zlen (rbits s) -> N - i_bits s <= 8 * (Z.of_nat fuel - 1) -> (0 < fuel)%nat ->
  (forall s', reads s s' (rbits s) -> i_bits s <= i_bits s' ->
     exists e, elem_at table (index s') = Ok e /\ (used + c_bits e <= i_bits s' -> e = target) /\ (N <= i_bits s' -> used + c_bits e <= i_bits s')) ->
  exists s', pull_code fuel table index used s = Got target s' /\ reads s s' (rbits s) /\ i_bits s <= i_bits s' /\ used + c_bits target <= i_bits s' <= Z.max (i_bits s) (N + 7).
Proof.
  intros HN fuel. induction fuel as [|fuel IH]; intros s Hok Hz Hf H0 He; [lia|]. destruct (He s (reads_refl s Hok) ltac:(lia)) as (e & Hat & Hfit & Hmust).
  cbn [pull_code]. unfold mbind, M_bind, get, lift. rewrite Hat. destruct (Z.leb_spec (used + c_bits e) (i_bits s)) as [Hle|Hgt].
  - exists s. rewrite <- (Hfit Hle). split; [done|]. split; [by apply reads_refl|]. lia.
  - destruct (PULLBYTE_spec s Hok ltac:(lia) ltac:(lia)) as (s1 & Hp & Hr & Hb). rewrite Hp. pose proof Hr as (_ & Hok1 & Hr1).
    destruct (IH s1 Hok1 ltac:(by rewrite Hr1) ltac:(lia) ltac:(lia)) as (s' & Hs' & Hr' & Hge & Hle).
    + intros s' Hs' Hb'. rewrite Hr1 in Hs'. apply He; [by eapply reads_trans|lia].
    + exists s'. split; [exact Hs'|]. rewrite Hr1 in Hr'. split; [by eapply reads_trans|]. lia.
Qed.

(** ** Decoders *)

(** [table] with [root] index bits decodes the codes [huff x] of [len x] bits
    of the symbols [x] in [dom] to the entries [ent x]; the codes are a
    complete prefix code, and the entries are no links. *)
Record decoder (table : list code) (root : Z) (dom : Z -> Prop) (len huff : Z -> Z) (ent : Z -> Z -> code) (linked : code -> bool) : Prop := {
  dec_root : 1 <= root <= 15;
  dec_len : forall x, dom x -> 1 <= len x <= 15;
  dec_huff : forall x, dom x -> 0 <= huff x < 2 ^ len x;
  dec_some : forall h, exists x, dom x /\ h `mod` 2 ^ len x = huff x;
  dec_unique : forall h x y, dom x -> dom y -> h `mod` 2 ^ len x = huff x -> h `mod` 2 ^ len y = huff y -> x = y;
  dec_entry : forall h x, dom x -> h `mod` 2 ^ len x = huff x -> entry_for table root h (ent x) (len x);
  dec_bits : forall x b, dom x -> c_bits (ent x b) = b;
  dec_nolink : forall x b, dom x -> linked (ent x b) = false;
  dec_link : forall w off, 0 < w <= 15 -> linked (mkCode w root off) = true }.

Section decode.
Context (table : list code) (root : Z) (dom : Z -> Prop) (len huff : Z -> Z) (ent : Z -> Z -> code) (linked : code -> bool).
Context (D : decoder table root dom len huff ent linked).
#[local] Set Default Proof Using "All".

(** The entry of the root table at an index. *)
Definition root_entry (h : Z) (e : code) : Prop := elem_at table (h `mod` 2 ^ root) = Ok e.

Lemma mod_nonneg h n : 0 <= n -> 0 <= h `mod` 2 ^ n.
Proof. intros. apply Z.mod_pos_bound, pow2_pos. done. Qed.

(** The entry of the root table for an input [h] that begins with [x]. *)
Lemma root_cases h x : dom x -> h `mod` 2 ^ len x = huff x ->
  (len x <= root /\ root_entry h (ent x (len x)))
  \/ (root < len x /\ exists off w, 0 < w <= 15 /\ root + w <= 15 /\ len x <= root + w /\ 0 <= off /\ root_entry h (mkCode w root off)
      /\ elem_at table (off + (h `div` 2 ^ root) `mod` 2 ^ w) = Ok (ent x (len x - root))).
Proof.
  intros Hx Hh. pose proof (dec_root _ _ _ _ _ _ _ D). unfold root_entry.
  destruct (dec_entry _ _ _ _ _ _ _ D h x Hx Hh) as [[Hl Hc]|(off & w & Hl & Hw & Ho & Hlk & Hc)].
  - left. split; [done|]. apply elem_at_lookup; [apply mod_nonneg; lia|done].
  - right. split; [lia|]. exists off, w. repeat split; try lia; (apply elem_at_lookup; [|done]).
    + apply mod_nonneg; lia.
    + pose proof (mod_nonneg (h `div` 2 ^ root) w ltac:(lia)). lia.
Qed.

(** With [b] bits of [H] known, an entry that fits in them is the entry of [H]. *)
Lemma root_known H x b : dom x -> H `mod` 2 ^ len x = huff x -> 0 <= b ->
  exists e, root_entry (H `mod` 2 ^ b) e /\ (c_bits e <= b -> root_entry H e) /\ (Z.min (len x) root <= b -> c_bits e <= b).
Proof.
  intros Hx HH Hb. destruct (dec_some _ _ _ _ _ _ _ D (H `mod` 2 ^ b)) as (y & Hy & Hyh). pose proof (dec_root _ _ _ _ _ _ _ D) as Hroot.
  pose proof (dec_len _ _ _ _ _ _ _ D x Hx) as Hlx. pose proof (dec_len _ _ _ _ _ _ _ D y Hy) as Hly.
  assert (Hsame : root <= b -> forall e, root_entry (H `mod` 2 ^ b) e -> root_entry H e).
  { intros Hrb e. unfold root_entry. by rewrite mod_mod_pow2 by lia. }
  assert (Hxy : len x <= b -> y = x).
  { intros Hlb. apply (dec_unique _ _ _ _ _ _ _ D (H `mod` 2 ^ b)); [done|done|done|]. by rewrite mod_mod_pow2 by lia. }
  destruct (root_cases _ y Hy Hyh) as [[Hl He]|(Hl & off & w & Hw & _ & _ & _ & He & _)].
  - exists (ent y (len y)). rewrite (dec_bits _ _ _ _ _ _ _ D) by done. split; [done|]. split.
    + intros Hyb. rewrite mod_mod_pow2 in Hyh by lia. assert (y = x) as -> by by apply (dec_unique _ _ _ _ _ _ _ D H).
      destruct (root_cases H x Hx HH) as [[_ ?]|[? _]]; [done|lia].
    + intros Hmin. destruct (decide (len x <= b)) as [Hlb|Hlb]; [rewrite (Hxy Hlb); lia|].
      assert (root <= b) by lia. lia.
  - exists (mkCode w root off). split; [done|]. cbn. split; [intros Hrb; by apply Hsame|]. intros Hmin.
    destruct (decide (root <= b)); [lia|]. assert (Hlb : len x <= b) by lia. rewrite (Hxy Hlb) in Hl. lia.
Qed.

(** The same for the sub-table a link of [H] points to. *)
Lemma sub_known H x b off w : dom x -> H `mod` 2 ^ len x = huff x -> root <= b -> root < len x -> 0 < w <= 15 ->
  root_entry H (mkCode w root off) ->
  exists e, elem_at table (off + ((H `mod` 2 ^ b) `div` 2 ^ root) `mod` 2 ^ w) = Ok e
    /\ (root + c_bits e <= b -> e = ent x (len x - root)) /\ (len x <= b -> root + c_bits e <= b).
Proof.
  intros Hx HH Hb Hl Hw Hlink. destruct (dec_some _ _ _ _ _ _ _ D (H `mod` 2 ^ b)) as (y & Hy & Hyh). pose proof (dec_root _ _ _ _ _ _ _ D) as Hroot.
  pose proof (dec_len _ _ _ _ _ _ _ D x Hx) as Hlx. pose proof (dec_len _ _ _ _ _ _ _ D y Hy) as Hly.
  assert (Hlink' : root_entry (H `mod` 2 ^ b) (mkCode w root off)) by (unfold root_entry in *; rewrite mod_mod_pow2 by lia; done).
  destruct (root_cases _ y Hy Hyh) as [[Hl' He]|(Hl' & off' & w' & Hw' & _ & _ & _ & He & Hc)]; unfold root_entry in *; rewrite Hlink' in He.
  - injection He as He. exfalso. pose proof (dec_nolink _ _ _ _ _ _ _ D y (len y) Hy) as Hn. rewrite <- He in Hn.
    by rewrite (dec_link _ _ _ _ _ _ _ D) in Hn.
  - injection He as -> ->. exists (ent y (len y - root)). split; [done|]. rewrite (dec_bits _ _ _ _ _ _ _ D) by done. split.
    + intros Hyb. rewrite mod_mod_pow2 in Hyh by lia. assert (y = x) as -> by by apply (dec_unique _ _ _ _ _ _ _ D H). done.
    + intros Hxb. assert (y = x) as ->; [|lia]. apply (dec_unique _ _ _ _ _ _ _ D (H `mod` 2 ^ b)); [done|done|done|]. by rewrite mod_mod_pow2 by lia.
Qed.

Lemma hold_of s' R : buf_ok s' -> rbits s' = R -> forall n, 0 <= n < 32 -> low_bits s' n = (bval R `mod` 2 ^ i_bits s') `mod` 2 ^ n.
Proof. intros Hok HR n Hn. by rewrite low_bits_mod, hold_bval, HR by (done || lia). Qed.

Lemma DROPBITS_eq n s : DROPBITS n s = Got tt (drop_bits s n).
Proof. reflexivity. Qed.

(** The entry of the root table is read, whatever part of the code the buffer holds. *)
Lemma root_code_spec index s x R : (forall s', reads s s' (rbits s) -> index s' = low_bits s' root) -> buf_ok s -> i_bits s <= 24 -> dom x -> rbits s = zbits (len x) (huff x) ++ R ->
  exists e s1, pull_code 6 table index 0 s = Got e s1 /\ reads s s1 (rbits s) /\ root_entry (bval (rbits s)) e
    /\ i_bits s <= i_bits s1 /\ c_bits e <= i_bits s1 <= Z.max (i_bits s) (Z.min (len x) root + 7).
Proof.
  intros Hindex Hok H24 Hx HR. pose proof (dec_root _ _ _ _ _ _ _ D) as Hroot. pose proof (dec_len _ _ _ _ _ _ _ D x Hx) as Hl. pose proof (dec_huff _ _ _ _ _ _ _ D x Hx) as Hhx.
  set (H := bval (rbits s)). assert (HH : H `mod` 2 ^ len x = huff x) by (unfold H; rewrite HR; apply bval_prefix; lia).
  assert (Hz : len x <= zlen (rbits s)) by (rewrite HR, zlen_app, zlen_zbits by lia; pose proof (zlen_nonneg R); lia).
  assert (Hbuf : forall s', reads s s' (rbits s) -> 0 <= i_bits s') by (intros s' (_ & [] & _); done).
  assert (Hex : exists e, root_entry H e) by (destruct (root_cases H x Hx HH) as [[_ ?]|(_ & off & w & _ & _ & _ & _ & ? & _)]; eauto). destruct Hex as [e He]. exists e.
  destruct (pull_code_spec table index 0 e (Z.min (len x) root) ltac:(lia) 6 s Hok ltac:(lia) ltac:(pose proof (Hbuf s (reads_refl s Hok)); lia) ltac:(lia)) as (s1 & Hp & Hr & Hge & Hle).
  - intros s' Hr Hge. destruct (root_known H x (i_bits s') Hx HH (Hbuf s' Hr)) as (e' & He' & Hfit & Hmust). exists e'.
    rewrite (Hindex s' Hr). destruct Hr as (_ & Hok' & Hr'). rewrite (hold_of s' (rbits s) Hok' Hr') by lia. split; [exact He'|]. split; [|rewrite Z.add_0_l; exact Hmust].
    intros Hle. specialize (Hfit ltac:(lia)). unfold root_entry in *. congruence.
  - exists s1. rewrite Z.add_0_l in Hle. done.
Qed.

(** The next code of the input is read, whatever part of it the buffer holds. *)
Lemma next_code_spec s x R : buf_ok s -> i_bits s <= 24 -> dom x -> rbits s = zbits (len x) (huff x) ++ R ->
  exists b s', next_code table root linked s = Got (ent x b) s' /\ reads s s' R /\ i_bits s' <= Z.max (i_bits s - len x) 7 /\ 0 < b <= 15.
Proof.
  intros Hok H24 Hx HR. pose proof (dec_root _ _ _ _ _ _ _ D) as Hroot. pose proof (dec_len _ _ _ _ _ _ _ D x Hx) as Hl. pose proof (dec_huff _ _ _ _ _ _ _ D x Hx) as Hhx.
  set (H := bval (rbits s)). assert (HH : H `mod` 2 ^ len x = huff x) by (unfold H; rewrite HR; apply bval_prefix; lia).
  assert (Hz : len x <= zlen (rbits s)) by (rewrite HR, zlen_app, zlen_zbits by lia; pose proof (zlen_nonneg R); lia).
  assert (Hbuf : forall s', reads s s' (rbits s) -> 0 <= i_bits s') by (intros s' (_ & [] & _); done).
  destruct (root_code_spec (fun s => low_bits s root) s x R ltac:(done) Hok H24 Hx HR) as (e & s1 & Hp1 & Hr1 & He & Hge1 & Hle1). fold H in He. pose proof Hr1 as (_ & Hok1 & HR1). rewrite HR in HR1.
  assert (H32 : i_bits s1 < 2 ^ 32) by (change (2 ^ 32) with 4294967296; lia).
  unfold next_code. unfold mbind at 1, M_bind at 1. rewrite Hp1. cbv beta iota.
  destruct (root_cases H x Hx HH) as [[Hl1 He1]|(Hl1 & off & w & Hw & Hrw & Hlw & Hoff & He1 & Hsub)].
  - assert (e = ent x (len x)) as -> by (unfold root_entry in *; congruence). rewrite (dec_nolink _ _ _ _ _ _ _ D) by done.
    rewrite (dec_bits _ _ _ _ _ _ _ D) in Hle1 by done.
    destruct (drop_front s1 (len x) (huff x) R Hok1 HR1 ltac:(lia) H32) as [Hrd Hbd]. exists (len x), (drop_bits s1 (len x)).
    unfold mbind, M_bind, mret, M_ret. rewrite (dec_bits _ _ _ _ _ _ _ D), DROPBITS_eq by done. split; [done|]. split; [by eapply reads_trans|]. lia.
  - assert (e = mkCode w root off) as -> by (unfold root_entry in *; congruence). rewrite (dec_link _ _ _ _ _ _ _ D) by done. cbn [c_bits c_op c_val] in *.
    destruct (pull_code_spec table (fun s => off + Z.shiftr (low_bits s (root + w)) root) root (ent x (len x - root)) (len x) ltac:(lia) 6 s1 Hok1
      ltac:(rewrite HR1, <- HR; lia) ltac:(lia) ltac:(lia)) as (s2 & Hp2 & Hr2 & Hge2 & Hle2).
    { intros s' Hr' Hge'. destruct (sub_known H x (i_bits s') off w Hx HH ltac:(lia) Hl1 Hw He1) as (e' & He' & Hfit & Hmust). exists e'.
      destruct Hr' as (_ & Hok' & Hr'). rewrite HR1, <- HR in Hr'. rewrite (hold_of s' (rbits s) Hok' Hr') by lia. rewrite Z.shiftr_div_pow2, div_mod_pow2 by lia.
      split; [exact He'|]. split; [exact Hfit|exact Hmust]. }
    pose proof Hr2 as (_ & Hok2 & HR2). rewrite HR1 in HR2, Hr2.
    rewrite (dec_bits _ _ _ _ _ _ _ D) in Hle2 by done. assert (H32' : i_bits s2 < 2 ^ 32) by (change (2 ^ 32) with 4294967296 in *; lia).
    replace (len x) with (root + (len x - root)) in HR2 by lia. rewrite zbits_split, <- app_assoc in HR2 by lia.
    destruct (drop_front s2 root _ _ Hok2 HR2 ltac:(lia) H32') as [Hrd Hbd]. pose proof Hrd as (_ & Hok3 & HR3).
    destruct (drop_front (drop_bits s2 root) (len x - root) _ R Hok3 HR3 ltac:(lia) ltac:(lia)) as [Hrd4 Hbd4].
    exists (len x - root), (drop_bits (drop_bits s2 root) (len x - root)). unfold mbind, M_bind, mret, M_ret. rewrite Hp2. cbv beta iota. rewrite DROPBITS_eq.
    rewrite (dec_bits _ _ _ _ _ _ _ D), DROPBITS_eq by done. split; [done|]. split; [|lia].
    eapply reads_trans; [exact Hr1|]. eapply reads_trans; [exact Hr2|]. eapply reads_trans; [exact Hrd|exact Hrd4].
Qed.

(** The fast loop reads the same code, when all its bits are in the buffer. *)
Lemma fast_code_spec stop s x R : (forall b, stop (ent x b) = true) -> (forall w off, 0 < w <= 15 -> stop (mkCode w root off) = false) ->
  buf_ok s -> len x <= i_bits s < 2 ^ 32 -> dom x -> rbits s = zbits (len x) (huff x) ++ R ->
  exists b s', fast_code table root stop s = Got (ent x b) s' /\ reads s s' R /\ i_bits s' = i_bits s - len x.
Proof.
  intros Hstop Hgo Hok Hbits Hx HR. pose proof (dec_root _ _ _ _ _ _ _ D) as Hroot. pose proof (dec_len _ _ _ _ _ _ _ D x Hx) as Hl. pose proof (dec_huff _ _ _ _ _ _ _ D x Hx) as Hhx.
  assert (HH : i_hold s `mod` 2 ^ len x = huff x) by (rewrite hold_prefix, HR by (done || lia); apply bval_prefix; lia).
  unfold fast_code. unfold mbind at 1, M_bind at 1, get. unfold mbind at 1, M_bind at 1, lift. rewrite low_bits_mod by lia.
  destruct (root_cases _ x Hx HH) as [[Hl1 He1]|(Hl1 & off & w & Hw & Hrw & Hlw & Hoff & He1 & Hsub)]; unfold root_entry in He1; rewrite He1.
  - cbn [fast_links]. unfold mbind, M_bind. rewrite DROPBITS_eq, Hstop, (dec_bits _ _ _ _ _ _ _ D) by done.
    destruct (drop_front s (len x) (huff x) R Hok HR ltac:(lia) ltac:(lia)) as [Hrd Hbd]. exists (len x), (drop_bits s (len x)). done.
  - cbn [fast_links c_bits]. unfold mbind at 1, M_bind at 1. rewrite DROPBITS_eq, Hgo by done. unfold mbind at 1, M_bind at 1, get. unfold mbind at 1, M_bind at 1, lift. cbn [c_val c_op].
    replace (len x) with (root + (len x - root)) in HR by lia. rewrite zbits_split, <- app_assoc in HR by lia.
    destruct (drop_front s root _ _ Hok HR ltac:(lia) ltac:(lia)) as [Hrd Hbd]. pose proof Hrd as (_ & Hok1 & HR1). rewrite low_bits_mod by lia.
    cbn [drop_bits i_hold]. change (i_hold (drop_bits s root)) with (Z.shiftr (i_hold s) root). rewrite Z.shiftr_div_pow2, Hsub by lia.
    unfold mbind, M_bind. rewrite DROPBITS_eq, Hstop, (dec_bits _ _ _ _ _ _ _ D) by done.
    destruct (drop_front (drop_bits s root) (len x - root) _ R Hok1 HR1 ltac:(lia) ltac:(lia)) as [Hrd2 Hbd2].
    eexists _, _. split; [done|]. split; [by eapply reads_trans|]. lia.
Qed.

End decode.

(** ** The tables of a block *)

Lemma sym_entry_ops : (forall s b, 0 <= s < 288 -> len_link (sym_entry LENS s b) = false /\ len_stop (sym_entry LENS s b) = true)
  /\ (forall s b, 0 <= s < 32 -> dist_link (sym_entry DISTS s b) = false /\ dist_stop (sym_entry DISTS s b) = true).
Proof.
  assert (Hl : Forall (fun s => len_link (sym_entry LENS s 0) = false /\ len_stop (sym_entry LENS s 0) = true) (seqZ 0 288)) by by_decide.
  assert (Hd : Forall (fun s => dist_link (sym_entry DISTS s 0) = false /\ dist_stop (sym_entry DISTS s 0) = true) (seqZ 0 32)) by by_decide.
  rewrite Forall_forall in Hl, Hd. split; intros s b Hs.
  - rewrite (proj1 (Hl s ltac:(apply elem_of_seqZ; lia))) || idtac. pose proof (Hl s ltac:(apply elem_of_seqZ; lia)) as H. unfold len_link, len_stop, sym_entry in *.
    destruct (s <? 256), (s =? 256); exact H.
  - exact (Hd s ltac:(apply elem_of_seqZ; lia)).
Qed.

Lemma link_ops w root off : 0 < w <= 15 ->
  len_link (mkCode w root off) = true /\ len_stop (mkCode w root off) = false /\ dist_link (mkCode w root off) = true /\ dist_stop (mkCode w root off) = false.
Proof.
  intros Hw. assert (H : Forall (fun w => len_link (mkCode w 0 0) = true /\ len_stop (mkCode w 0 0) = false /\ dist_link (mkCode w 0 0) = true /\ dist_stop (mkCode w 0 0) = false) (seqZ 1 15)) by by_decide.
  rewrite Forall_forall in H. exact (H w ltac:(apply elem_of_seqZ; lia)).
Qed.
