(* ===== verification/InfCopy.v ===== *)
(** * Copying matches

    The reference for LZ77: a match of [n] bytes at distance [d] appends, one
    after the other, the byte [d] back ([lz_copy]), which also covers matches
    longer than their distance.  What a distance reaches back to is the output
    of the call and before it the sliding window, a ring of [wsize] bytes
    ([hist]).  [step_match] and [fast_match] take the bytes from the window and
    the output in up to three pieces; both append what [lz_copy] says. *)

From S2P Require Import Prelude Inftrees Inflate.

(** ** The reference *)

Definition byte_back (d : Z) (h : list Z) : Z := default 0 (h !! Z.to_nat (zlen h - d)).

Fixpoint lz_copy (n : nat) (d : Z) (h : list Z) : list Z :=
  match n with O => h | S n => lz_copy n d (h ++ [byte_back d h]) end.

Lemma lz_copy_add n m d h : lz_copy (n + m) d h = lz_copy m d (lz_copy n d h).
Proof. revert h. induction n as [|n IH]; intros h; [done|]. apply IH. Qed.

Lemma zlen_lz_copy n d h : zlen (lz_copy n d h) = zlen h + Z.of_nat n.
Proof. revert h. induction n as [|n IH]; intros h; simpl; [lia|]. rewrite IH, zlen_app, zlen_cons, zlen_nil. lia. Qed.

(** ** The window *)

(** The window is not full and begins with its bytes, or it is full and begins
    at [write]. *)
Record win_ok (s : inf) : Prop := {
  win_len : zlen (i_window s) = i_wsize s;
  win_write : 0 <= i_write s;
  win_have : i_whave s = i_wsize s /\ (i_write s < i_wsize s \/ i_wsize s = 0 /\ i_write s = 0) \/ i_whave s = i_write s /\ i_write s < i_wsize s }.

(** The bytes of the window from the oldest to the newest. *)
Definition whist (s : inf) : list Z :=
  drop (Z.to_nat (i_write s + i_wsize s - i_whave s)) (i_window s) ++ take (Z.to_nat (i_write s)) (i_window s).

(** All bytes a distance can reach. *)
Definition hist (s : inf) : list Z := whist s ++ i_out s.

Lemma win_bounds s : win_ok s -> 0 <= i_write s <= i_wsize s /\ 0 <= i_whave s <= i_wsize s /\ i_write s <= i_whave s.
Proof. intros [Hl Hw Hh]. lia. Qed.

Lemma zlen_whist s : win_ok s -> zlen (whist s) = i_whave s.
Proof.
  intros W. pose proof (win_bounds s W). destruct W as [Hl _ _]. unfold whist. rewrite zlen_app, zlen_drop, zlen_take by lia. lia.
Qed.

Lemma zlen_hist s : win_ok s -> zlen (hist s) = i_whave s + zlen (i_out s).
Proof. intros W. unfold hist. by rewrite zlen_app, zlen_whist. Qed.

(** The byte of the window [k] back from its end. *)
Lemma whist_back s k : win_ok s -> 1 <= k <= i_whave s ->
  whist s !! Z.to_nat (i_whave s - k) = i_window s !! Z.to_nat (if i_write s <? k then i_wsize s + i_write s - k else i_write s - k).
Proof.
  intros W Hk. pose proof (win_bounds s W). pose proof W as [Hl _ _]. unfold whist, zlen in *.
  set (o := Z.to_nat (i_write s + i_wsize s - i_whave s)). assert (Hd : length (drop o (i_window s)) = Z.to_nat (i_whave s - i_write s)) by (rewrite length_drop; lia).
  destruct (Z.ltb_spec (i_write s) k) as [Hlt|Hge].
  - rewrite lookup_app_l by lia. rewrite lookup_drop. f_equal. lia.
  - rewrite lookup_app_r by lia. rewrite lookup_take_lt by lia. f_equal. lia.
Qed.

(** ** Output *)

Definition emit (s : inf) (X : list Z) : inf := s <| i_out := i_out s ++ X |> <| i_left := i_left s - zlen X |>.

Lemma emit_nil s : emit s [] = s.
Proof. unfold emit. destruct s. cbn. rewrite app_nil_r, zlen_nil, Z.sub_0_r. done. Qed.

Lemma emit_emit s X Y : emit (emit s X) Y = emit s (X ++ Y).
Proof. unfold emit. destruct s. cbn. rewrite zlen_app, <- app_assoc, Z.sub_add_distr. done. Qed.

Lemma hist_emit s X : hist (emit s X) = hist s ++ X.
Proof. unfold hist. cbn. by rewrite app_assoc. Qed.

Lemma win_emit s X : win_ok (emit s X) <-> win_ok s.
Proof. split; intros [? ? ?]; by split. Qed.

Lemma put_out_spec s b : 0 < i_left s -> put_out b s = Got tt (emit s [b]).
Proof. intros H. unfold put_out. by rewrite (proj2 (Z.leb_gt _ _)) by lia. Qed.

(** The [n] bytes from [f] on are the ones at distance [d]. *)
Definition from_ok (s : inf) (f : from_ptr) (d n : Z) : Prop :=
  match f with
  | FromOut i => i = zlen (i_out s) - d /\ 1 <= d <= zlen (i_out s)
  | FromWindow i => 0 <= i /\ forall k, 0 <= k < n -> zlen (hist s) - d + k < zlen (hist s) /\ 0 <= zlen (hist s) - d + k
      /\ is_Some (hist s !! Z.to_nat (zlen (hist s) - d + k)) /\ i_window s !! Z.to_nat (i + k) = hist s !! Z.to_nat (zlen (hist s) - d + k)
  end.

Lemma from_read_ok s f d n : from_ok s f d n -> 0 < n -> from_read s f = Ok (byte_back d (hist s)).
Proof.
  unfold byte_back. destruct f as [i|i]; simpl.
  - intros [Hi Hk] Hn. destruct (Hk 0 ltac:(lia)) as (_ & _ & [b Hb] & E). rewrite !Z.add_0_r in *. rewrite Hb in *. by apply elem_at_lookup.
  - intros [-> Hd] _. destruct (lookup_lt_is_Some_2 (i_out s) (Z.to_nat (zlen (i_out s) - d))) as [b Hb]; [unfold zlen in *; lia|].
    unfold hist. rewrite (elem_at_lookup _ _ b) by (done || lia). f_equal. rewrite lookup_app_r by (rewrite zlen_app; unfold zlen in *; lia).
    replace (Z.to_nat (zlen (whist s ++ i_out s) - d) - length (whist s))%nat with (Z.to_nat (zlen (i_out s) - d)) by (rewrite zlen_app; unfold zlen in *; lia).
    by rewrite Hb.
Qed.

Lemma from_ok_next s f d n b : from_ok s f d (n + 1) -> from_ok (emit s [b]) (from_next f) d n.
Proof.
  destruct f as [i|i]; simpl.
  - intros [Hi Hk]. split; [lia|]. intros k Hkn. destruct (Hk (k + 1) ltac:(lia)) as (H1 & H2 & H3 & H4). rewrite hist_emit, zlen_app, zlen_cons, zlen_nil.
    replace (i + 1 + k) with (i + (k + 1)) by lia. replace (zlen (hist s) + (1 + 0) - d + k) with (zlen (hist s) - d + (k + 1)) by lia.
    rewrite lookup_app_l by (unfold zlen in *; lia). split_and!; (done || lia).
  - intros [-> Hd]. rewrite zlen_app, zlen_cons, zlen_nil. lia.
Qed.

(** [copy_from] appends what the reference says. *)
Lemma copy_from_spec n : forall s f d, from_ok s f d (Z.of_nat n) -> Z.of_nat n <= i_left s ->
  exists f' X, copy_from n f s = Got f' (emit s X) /\ zlen X = Z.of_nat n /\ hist s ++ X = lz_copy n d (hist s).
Proof.
  induction n as [|n IH]; intros s f d Hf Hl.
  - exists f, []. rewrite emit_nil, app_nil_r. done.
  - cbn [copy_from]. unfold mbind, M_bind, get, lift. rewrite (from_read_ok s f d _ Hf) by lia. rewrite put_out_spec by lia.
    destruct (IH (emit s [byte_back d (hist s)]) (from_next f) d) as (f' & X & HX & Hz & Hh).
    { apply from_ok_next. by replace (Z.of_nat n + 1) with (Z.of_nat (S n)) by lia. }
    { cbn. rewrite zlen_cons, zlen_nil. lia. }
    exists f', (byte_back d (hist s) :: X). rewrite emit_emit in HX. split; [exact HX|]. split; [rewrite zlen_cons; lia|].
    rewrite hist_emit, <- app_assoc in Hh. exact Hh.
Qed.

Lemma from_out_ok s d n : 1 <= d <= zlen (i_out s) -> from_ok s (FromOut (zlen (i_out s) - d)) d n.
Proof. done. Qed.

(** A piece of the window: [op] is the distance back from its end. *)
Lemma from_window_ok s d i n : win_ok s -> let op := d - zlen (i_out s) in 1 <= op <= i_whave s -> 0 <= n ->
  (i_write s < op /\ i = i_wsize s + i_write s - op /\ n <= op - i_write s) \/ (op <= i_write s /\ i = i_write s - op /\ n <= op) ->
  from_ok s (FromWindow i) d n.
Proof.
  intros W op Hop Hn Hc. pose proof (win_bounds s W). pose proof (zlen_whist s W) as Hz. pose proof (zlen_hist s W) as Hzh. pose proof (zlen_nonneg (i_out s)). simpl. split; [lia|]. intros k Hk.
  assert (Hlk : hist s !! Z.to_nat (zlen (hist s) - d + k) = i_window s !! Z.to_nat (i + k)).
  { replace (zlen (hist s) - d + k) with (i_whave s - (op - k)) by lia. unfold hist.
    rewrite lookup_app_l by (unfold zlen in *; lia). rewrite (whist_back s (op - k) W) by lia.
    f_equal. f_equal. destruct (Z.ltb_spec (i_write s) (op - k)); lia. }
  split; [lia|]. split; [lia|]. rewrite Hlk. split; [|done]. apply lookup_lt_is_Some_2. destruct W as [Hl _ _]. unfold zlen in *. lia.
Qed.

(** ** [MATCH] *)

Lemma do_times_pos n : 1 <= n -> do_times n = Z.to_nat n.
Proof. intros. unfold do_times. by rewrite (proj2 (Z.eqb_neq n 0)) by lia. Qed.

Lemma bind_Got {A B} (m : M A) (f : A -> M B) s a s' : m s = Got a s' -> (m ≫= f) s = f a s'.
Proof. intros H. unfold mbind, M_bind. by rewrite H. Qed.

(** A copy of a piece with [do ... while]. *)
Lemma copy_times s f d n : from_ok s f d n -> 1 <= n <= i_left s ->
  exists f' X, copy_from (do_times n) f s = Got f' (emit s X) /\ zlen X = n /\ hist s ++ X = lz_copy (Z.to_nat n) d (hist s).
Proof.
  intros Hf Hn. rewrite do_times_pos by lia. destruct (copy_from_spec (Z.to_nat n) s f d) as (f' & X & H1 & H2 & H3); [by rewrite Z2Nat.id by lia|lia|].
  exists f', X. split_and!; [done|lia|done].
Qed.

(** What a step of [MATCH] does: [c] bytes of the match are copied. *)
Definition matched (s : inf) (X : list Z) (c : Z) : inf :=
  let s := emit (s <| i_length := i_length s - c |>) X in if i_length s =? 0 then s <| i_mode := LEN |> else s.

Lemma step_match_spec s : win_ok s -> 1 <= i_length s <= i_left s -> 1 <= i_offset s <= zlen (hist s) ->
  exists X c, step_match s = Got tt (matched s X c) /\ 1 <= c <= i_length s /\ zlen X = c /\ hist s ++ X = lz_copy (Z.to_nat c) (i_offset s) (hist s).
Proof.
  intros W Hlen Hoff. pose proof (win_bounds s W). rewrite zlen_hist in Hoff by done.
  assert (Hcopy : forall f c, from_ok s f (i_offset s) c -> 1 <= c <= i_length s ->
    exists X, (upd (fun s => s <| i_length := i_length s - c |>) ;; _ ← copy_from (do_times c) f; s ← get; if i_length s =? 0 then set_mode LEN else mret tt) s
      = Got tt (matched s X c) /\ zlen X = c /\ hist s ++ X = lz_copy (Z.to_nat c) (i_offset s) (hist s)).
  { intros f c Hf Hc. destruct (copy_times (s <| i_length := i_length s - c |>) f (i_offset s) c) as (f' & X & HX & Hz & Hh); [destruct f; exact Hf|cbn; lia|].
    exists X. split; [|done]. rewrite (bind_Got _ _ s tt (s <| i_length := i_length s - c |>)) by done. rewrite (bind_Got _ _ _ _ _ HX).
    unfold mbind, M_bind, get, matched, set_mode, upd. by destruct (i_length _ =? 0). }
  unfold step_match. rewrite (bind_Got _ _ s s s) by done. rewrite (proj2 (Z.eqb_neq (i_left s) 0)) by lia. cbv zeta.
  destruct (Z.ltb_spec (zlen (i_out s)) (i_offset s)) as [Hwin|Hout].
  - set (op := i_offset s - zlen (i_out s)). destruct (Z.ltb_spec (i_write s) op) as [Hlt|Hge].
    + set (c := Z.min (op - i_write s) (i_length s)). destruct (Hcopy (FromWindow (i_wsize s - (op - i_write s))) c) as (X & HX & HR); [apply from_window_ok; (done || lia)|lia|].
      exists X, c. split; [|split; [lia|done]]. rewrite <- HX. assert (Ec : (if i_length s <? op - i_write s then i_length s else op - i_write s) = c) by (destruct (Z.ltb_spec (i_length s) (op - i_write s)); lia).
      rewrite Ec. by rewrite (proj2 (Z.ltb_ge (i_left s) c)) by lia.
    + set (c := Z.min op (i_length s)). destruct (Hcopy (FromWindow (i_write s - op)) c) as (X & HX & HR); [apply from_window_ok; (done || lia)|lia|].
      exists X, c. split; [|split; [lia|done]]. rewrite <- HX. assert (Ec : (if i_length s <? op then i_length s else op) = c) by (destruct (Z.ltb_spec (i_length s) op); lia).
      rewrite Ec. by rewrite (proj2 (Z.ltb_ge (i_left s) c)) by lia.
  - destruct (Hcopy (FromOut (zlen (i_out s) - i_offset s)) (i_length s)) as (X & HX & HR); [apply from_out_ok; lia|lia|].
    exists X, (i_length s). split; [|split; [lia|done]]. rewrite <- HX. by rewrite (proj2 (Z.ltb_ge (i_left s) (i_length s))) by lia.
Qed.

(** ** The copies of the fast loop *)

(** [m] copies the first bytes of a match of [len] bytes and says where the rest is. *)
Definition copies_part (m : M (Z * from_ptr)) (s : inf) (d len : Z) : Prop :=
  exists len' f X, m s = Got (len', f) (emit s X) /\ 0 <= len' <= len /\ zlen X = len - len' /\ hist s ++ X = lz_copy (Z.to_nat (len - len')) d (hist s)
    /\ from_ok (emit s X) f d len'.

Lemma window_part_spec s d op len f rest : from_ok s f d (Z.min op len) -> 1 <= op -> 0 <= len <= i_left s ->
  (op < len -> forall X, zlen X = op -> copies_part (rest (len - op)) (emit s X) d (len - op)) ->
  copies_part (window_part op len f rest) s d len.
Proof.
  intros Hf Hop Hlen Hrest. unfold window_part. destruct (Z.ltb_spec op len) as [Hlt|Hge].
  - destruct (copy_times s f d op) as (f' & X & HX & Hz & Hh); [by replace op with (Z.min op len) at 1 by lia|lia|].
    destruct (Hrest Hlt X Hz) as (len' & f2 & Y & HY & Hl' & HzY & HhY & Hf2). unfold copies_part.
    exists len', f2, (X ++ Y). rewrite (bind_Got _ _ _ _ _ HX), HY, emit_emit. split; [done|]. split; [lia|]. split; [rewrite zlen_app; lia|].
    split; [|by rewrite emit_emit in Hf2]. rewrite app_assoc, hist_emit, Hh in *. rewrite HhY, <- lz_copy_add. f_equal. lia.
  - exists len, f, []. rewrite emit_nil, app_nil_r, Z.sub_diag. split; [done|]. split; [lia|]. split; [done|]. split; [done|]. by replace len with (Z.min op len) by lia.
Qed.

Lemma rest_from_output_spec s d len : 1 <= d <= zlen (i_out s) -> 0 <= len -> copies_part (rest_from_output d len) s d len.
Proof.
  intros Hd Hlen. exists len, (FromOut (zlen (i_out s) - d)), []. rewrite emit_nil, app_nil_r, Z.sub_diag. split; [done|]. split; [lia|]. split; [done|]. split; [done|]. by apply from_out_ok.
Qed.

(** A match is copied whole. *)
Lemma fast_match_spec s len d : win_ok s -> 3 <= len <= i_left s -> 1 <= d <= zlen (hist s) ->
  exists X, fast_match len d s = Got true (emit s X) /\ zlen X = len /\ hist s ++ X = lz_copy (Z.to_nat len) d (hist s).
Proof.
  intros W Hlen Hd. pose proof (win_bounds s W) as Hb. rewrite zlen_hist in Hd by done. pose proof (zlen_nonneg (i_out s)). unfold fast_match.
  rewrite (bind_Got _ _ s s s) by done. cbv zeta. destruct (Z.ltb_spec (zlen (i_out s)) d) as [Hwin|Hout].
  - rewrite (proj2 (Z.ltb_ge (i_whave s) _)) by lia. set (op := d - zlen (i_out s)) in *.
    assert (Hout : forall n X, zlen X = n -> op <= n -> 0 <= len - n -> copies_part (rest_from_output d (len - n)) (emit s X) d (len - n)).
    { intros n X HX Hn Hln. apply rest_from_output_spec; [cbn; rewrite zlen_app; lia|lia]. }
    match goal with |- context [@mbind M _ _ _ ?k ?m] => set (K := k); set (P := m) end.
    assert (HP : copies_part P s d len).
    { unfold P. destruct (Z.eqb_spec (i_write s) 0) as [Hw0|Hw0]; [|destruct (Z.ltb_spec (i_write s) op) as [Hlt|Hge]].
      - apply window_part_spec; [apply from_window_ok; [done|lia|lia|left; lia]|lia|lia|]. intros Hop X HX. apply Hout; lia.
      - apply window_part_spec; [apply from_window_ok; [done|lia|lia|left; lia]|lia|lia|]. intros Hop X HX.
        assert (W' : win_ok (emit s X)) by by apply win_emit.
        assert (Hf0 : from_ok (emit s X) (FromWindow 0) d (Z.min (i_write s) (len - (op - i_write s)))).
        { apply (from_window_ok (emit s X)); [done| | |right]; cbn; rewrite ?zlen_app; lia. }
        exact (window_part_spec (emit s X) d (i_write s) (len - (op - i_write s)) (FromWindow 0) (rest_from_output d) Hf0 ltac:(lia) ltac:(cbn; lia)
          ltac:(intros Hw Y HY; apply rest_from_output_spec; [cbn; rewrite !zlen_app; lia|lia])).
      - apply window_part_spec; [apply from_window_ok; [done|lia|lia|right; lia]|lia|lia|]. intros Hop X HX. apply Hout; lia. }
    destruct HP as (len' & f & X & HX & Hl' & HzX & HhX & Hf). rewrite (bind_Got _ _ _ _ _ HX). unfold K. cbn [fst snd].
    destruct (copy_from_spec (Z.to_nat len') (emit s X) f d) as (f' & Y & HY & HzY & HhY); [by rewrite Z2Nat.id by lia|cbn; lia|].
    rewrite (bind_Got _ _ _ _ _ HY), emit_emit. exists (X ++ Y). split; [done|]. split; [rewrite zlen_app; lia|].
    rewrite app_assoc, hist_emit, HhX in *. rewrite HhY, <- lz_copy_add. f_equal. lia.
  - rewrite (proj2 (Z.ltb_ge len 3)) by lia. destruct (copy_from_spec (Z.to_nat len) s (FromOut (zlen (i_out s) - d)) d) as (f' & X & HX & HzX & HhX); [apply from_out_ok; lia|lia|].
    rewrite (bind_Got _ _ _ _ _ HX). exists X. split; [done|]. split; [lia|done].
Qed.
