(* ===== verification/TreesTables.v ===== *)
(** * The static tables of the deflate encoder (3rd/zip/trees.h, trees.c)

    The arrays of trees.h as the header gives them, the extra-bit tables of
    trees.c, and [tr_static_init], the function that fills the arrays when the
    header is not used. *)

From S2P Require Import Prelude Inftrees.

(** [ct_data]: the union [fc] is the frequency or the code, the union [dl] the
    father node or the length. *)
Record ct_data := mkCt { fc : Z; dl : Z }.
#[export] Instance ct_data_eq_dec : EqDecision ct_data.
Proof. solve_decision. Defined.

Definition MAX_BITS : Z := 15.
Definition LENGTH_CODES : Z := 29.
Definition LITERALS : Z := 256.
Definition L_CODES : Z := LITERALS + 1 + LENGTH_CODES.
Definition D_CODES : Z := 30.
Definition BL_CODES : Z := 19.
Definition HEAP_SIZE : Z := 2 * L_CODES + 1.

Definition extra_lbits : list Z := [0; 0; 0; 0; 0; 0; 0; 0; 1; 1; 1; 1; 2; 2; 2; 2; 3; 3; 3; 3; 4; 4; 4; 4; 5; 5; 5; 5; 0].
Definition extra_dbits : list Z := [0; 0; 0; 0; 1; 1; 2; 2; 3; 3; 4; 4; 5; 5; 6; 6; 7; 7; 8; 8; 9; 9; 10; 10; 11; 11; 12; 12; 13; 13].
Definition extra_blbits : list Z := [0; 0; 0; 0; 0; 0; 0; 0; 0; 0; 0; 0; 0; 0; 0; 0; 2; 3; 7].
Definition bl_order : list Z := [16; 17; 18; 0; 8; 7; 9; 6; 10; 5; 11; 4; 12; 3; 13; 2; 14; 1; 15].

Definition static_ltree : list ct_data := [
  mkCt 12 8; mkCt 140 8; mkCt 76 8; mkCt 204 8; mkCt 44 8; mkCt 172 8; mkCt 108 8;
  mkCt 236 8; mkCt 28 8; mkCt 156 8; mkCt 92 8; mkCt 220 8; mkCt 60 8; mkCt 188 8;
  mkCt 124 8; mkCt 252 8; mkCt 2 8; mkCt 130 8; mkCt 66 8; mkCt 194 8; mkCt 34 8;
  mkCt 162 8; mkCt 98 8; mkCt 226 8; mkCt 18 8; mkCt 146 8; mkCt 82 8; mkCt 210 8;
  mkCt 50 8; mkCt 178 8; mkCt 114 8; mkCt 242 8; mkCt 10 8; mkCt 138 8; mkCt 74 8;
  mkCt 202 8; mkCt 42 8; mkCt 170 8; mkCt 106 8; mkCt 234 8; mkCt 26 8; mkCt 154 8;
  mkCt 90 8; mkCt 218 8; mkCt 58 8; mkCt 186 8; mkCt 122 8; mkCt 250 8; mkCt 6 8;
  mkCt 134 8; mkCt 70 8; mkCt 198 8; mkCt 38 8; mkCt 166 8; mkCt 102 8; mkCt 230 8;
  mkCt 22 8; mkCt 150 8; mkCt 86 8; mkCt 214 8; mkCt 54 8; mkCt 182 8; mkCt 118 8;
  mkCt 246 8; mkCt 14 8; mkCt 142 8; mkCt 78 8; mkCt 206 8; mkCt 46 8; mkCt 174 8;
  mkCt 110 8; mkCt 238 8; mkCt 30 8; mkCt 158 8; mkCt 94 8; mkCt 222 8; mkCt 62 8;
  mkCt 190 8; mkCt 126 8; mkCt 254 8; mkCt 1 8; mkCt 129 8; mkCt 65 8; mkCt 193 8;
  mkCt 33 8; mkCt 161 8; mkCt 97 8; mkCt 225 8; mkCt 17 8; mkCt 145 8; mkCt 81 8;
  mkCt 209 8; mkCt 49 8; mkCt 177 8; mkCt 113 8; mkCt 241 8; mkCt 9 8; mkCt 137 8;
  mkCt 73 8; mkCt 201 8; mkCt 41 8; mkCt 169 8; mkCt 105 8; mkCt 233 8; mkCt 25 8;
  mkCt 153 8; mkCt 89 8; mkCt 217 8; mkCt 57 8; mkCt 185 8; mkCt 121 8; mkCt 249 8;
  mkCt 5 8; mkCt 133 8; mkCt 69 8; mkCt 197 8; mkCt 37 8; mkCt 165 8; mkCt 101 8;
  mkCt 229 8; mkCt 21 8; mkCt 149 8; mkCt 85 8; mkCt 213 8; mkCt 53 8; mkCt 181 8;
  mkCt 117 8; mkCt 245 8; mkCt 13 8; mkCt 141 8; mkCt 77 8; mkCt 205 8; mkCt 45 8;
  mkCt 173 8; mkCt 109 8; mkCt 237 8; mkCt 29 8; mkCt 157 8; mkCt 93 8; mkCt 221 8;
  mkCt 61 8; mkCt 189 8; mkCt 125 8; mkCt 253 8; mkCt 19 9; mkCt 275 9; mkCt 147 9;
  mkCt 403 9; mkCt 83 9; mkCt 339 9; mkCt 211 9; mkCt 467 9; mkCt 51 9; mkCt 307 9;
  mkCt 179 9; mkCt 435 9; mkCt 115 9; mkCt 371 9; mkCt 243 9; mkCt 499 9; mkCt 11 9;
  mkCt 267 9; mkCt 139 9; mkCt 395 9; mkCt 75 9; mkCt 331 9; mkCt 203 9; mkCt 459 9;
  mkCt 43 9; mkCt 299 9; mkCt 171 9; mkCt 427 9; mkCt 107 9; mkCt 363 9; mkCt 235 9;
  mkCt 491 9; mkCt 27 9; mkCt 283 9; mkCt 155 9; mkCt 411 9; mkCt 91 9; mkCt 347 9;
  mkCt 219 9; mkCt 475 9; mkCt 59 9; mkCt 315 9; mkCt 187 9; mkCt 443 9; mkCt 123 9;
  mkCt 379 9; mkCt 251 9; mkCt 507 9; mkCt 7 9; mkCt 263 9; mkCt 135 9; mkCt 391 9;
  mkCt 71 9; mkCt 327 9; mkCt 199 9; mkCt 455 9; mkCt 39 9; mkCt 295 9; mkCt 167 9;
  mkCt 423 9; mkCt 103 9; mkCt 359 9; mkCt 231 9; mkCt 487 9; mkCt 23 9; mkCt 279 9;
  mkCt 151 9; mkCt 407 9; mkCt 87 9; mkCt 343 9; mkCt 215 9; mkCt 471 9; mkCt 55 9;
  mkCt 311 9; mkCt 183 9; mkCt 439 9; mkCt 119 9; mkCt 375 9; mkCt 247 9; mkCt 503 9;
  mkCt 15 9; mkCt 271 9; mkCt 143 9; mkCt 399 9; mkCt 79 9; mkCt 335 9; mkCt 207 9;
  mkCt 463 9; mkCt 47 9; mkCt 303 9; mkCt 175 9; mkCt 431 9; mkCt 111 9; mkCt 367 9;
  mkCt 239 9; mkCt 495 9; mkCt 31 9; mkCt 287 9; mkCt 159 9; mkCt 415 9; mkCt 95 9;
  mkCt 351 9; mkCt 223 9; mkCt 479 9; mkCt 63 9; mkCt 319 9; mkCt 191 9; mkCt 447 9;
  mkCt 127 9; mkCt 383 9; mkCt 255 9; mkCt 511 9; mkCt 0 7; mkCt 64 7; mkCt 32 7;
  mkCt 96 7; mkCt 16 7; mkCt 80 7; mkCt 48 7; mkCt 112 7; mkCt 8 7; mkCt 72 7;
  mkCt 40 7; mkCt 104 7; mkCt 24 7; mkCt 88 7; mkCt 56 7; mkCt 120 7; mkCt 4 7;
  mkCt 68 7; mkCt 36 7; mkCt 100 7; mkCt 20 7; mkCt 84 7; mkCt 52 7; mkCt 116 7;
  mkCt 3 8; mkCt 131 8; mkCt 67 8; mkCt 195 8; mkCt 35 8; mkCt 163 8; mkCt 99 8;
  mkCt 227 8].

Definition static_dtree : list ct_data := [
  mkCt 0 5; mkCt 16 5; mkCt 8 5; mkCt 24 5; mkCt 4 5; mkCt 20 5; mkCt 12 5;
  mkCt 28 5; mkCt 2 5; mkCt 18 5; mkCt 10 5; mkCt 26 5; mkCt 6 5; mkCt 22 5;
  mkCt 14 5; mkCt 30 5; mkCt 1 5; mkCt 17 5; mkCt 9 5; mkCt 25 5; mkCt 5 5;
  mkCt 21 5; mkCt 13 5; mkCt 29 5; mkCt 3 5; mkCt 19 5; mkCt 11 5; mkCt 27 5;
  mkCt 7 5; mkCt 23 5].

Definition dist_code_table : list Z := [
  0; 1; 2; 3; 4; 4; 5; 5; 6; 6; 6; 6; 7; 7; 7; 7; 8; 8; 8; 8; 8; 8; 8; 8;
  9; 9; 9; 9; 9; 9; 9; 9; 10; 10; 10; 10; 10; 10; 10; 10; 10; 10; 10; 10; 10; 10; 10; 10;
  11; 11; 11; 11; 11; 11; 11; 11; 11; 11; 11; 11; 11; 11; 11; 11; 12; 12; 12; 12; 12; 12; 12; 12;
  12; 12; 12; 12; 12; 12; 12; 12; 12; 12; 12; 12; 12; 12; 12; 12; 12; 12; 12; 12; 12; 12; 12; 12;
  13; 13; 13; 13; 13; 13; 13; 13; 13; 13; 13; 13; 13; 13; 13; 13; 13; 13; 13; 13; 13; 13; 13; 13;
  13; 13; 13; 13; 13; 13; 13; 13; 14; 14; 14; 14; 14; 14; 14; 14; 14; 14; 14; 14; 14; 14; 14; 14;
  14; 14; 14; 14; 14; 14; 14; 14; 14; 14; 14; 14; 14; 14; 14; 14; 14; 14; 14; 14; 14; 14; 14; 14;
  14; 14; 14; 14; 14; 14; 14; 14; 14; 14; 14; 14; 14; 14; 14; 14; 14; 14; 14; 14; 14; 14; 14; 14;
  15; 15; 15; 15; 15; 15; 15; 15; 15; 15; 15; 15; 15; 15; 15; 15; 15; 15; 15; 15; 15; 15; 15; 15;
  15; 15; 15; 15; 15; 15; 15; 15; 15; 15; 15; 15; 15; 15; 15; 15; 15; 15; 15; 15; 15; 15; 15; 15;
  15; 15; 15; 15; 15; 15; 15; 15; 15; 15; 15; 15; 15; 15; 15; 15; 0; 0; 16; 17; 18; 18; 19; 19;
  20; 20; 20; 20; 21; 21; 21; 21; 22; 22; 22; 22; 22; 22; 22; 22; 23; 23; 23; 23; 23; 23; 23; 23;
  24; 24; 24; 24; 24; 24; 24; 24; 24; 24; 24; 24; 24; 24; 24; 24; 25; 25; 25; 25; 25; 25; 25; 25;
  25; 25; 25; 25; 25; 25; 25; 25; 26; 26; 26; 26; 26; 26; 26; 26; 26; 26; 26; 26; 26; 26; 26; 26;
  26; 26; 26; 26; 26; 26; 26; 26; 26; 26; 26; 26; 26; 26; 26; 26; 27; 27; 27; 27; 27; 27; 27; 27;
  27; 27; 27; 27; 27; 27; 27; 27; 27; 27; 27; 27; 27; 27; 27; 27; 27; 27; 27; 27; 27; 27; 27; 27;
  28; 28; 28; 28; 28; 28; 28; 28; 28; 28; 28; 28; 28; 28; 28; 28; 28; 28; 28; 28; 28; 28; 28; 28;
  28; 28; 28; 28; 28; 28; 28; 28; 28; 28; 28; 28; 28; 28; 28; 28; 28; 28; 28; 28; 28; 28; 28; 28;
  28; 28; 28; 28; 28; 28; 28; 28; 28; 28; 28; 28; 28; 28; 28; 28; 29; 29; 29; 29; 29; 29; 29; 29;
  29; 29; 29; 29; 29; 29; 29; 29; 29; 29; 29; 29; 29; 29; 29; 29; 29; 29; 29; 29; 29; 29; 29; 29;
  29; 29; 29; 29; 29; 29; 29; 29; 29; 29; 29; 29; 29; 29; 29; 29; 29; 29; 29; 29; 29; 29; 29; 29;
  29; 29; 29; 29; 29; 29; 29; 29].

Definition length_code_table : list Z := [
  0; 1; 2; 3; 4; 5; 6; 7; 8; 8; 9; 9; 10; 10; 11; 11; 12; 12; 12; 12; 13; 13; 13; 13;
  14; 14; 14; 14; 15; 15; 15; 15; 16; 16; 16; 16; 16; 16; 16; 16; 17; 17; 17; 17; 17; 17; 17; 17;
  18; 18; 18; 18; 18; 18; 18; 18; 19; 19; 19; 19; 19; 19; 19; 19; 20; 20; 20; 20; 20; 20; 20; 20;
  20; 20; 20; 20; 20; 20; 20; 20; 21; 21; 21; 21; 21; 21; 21; 21; 21; 21; 21; 21; 21; 21; 21; 21;
  22; 22; 22; 22; 22; 22; 22; 22; 22; 22; 22; 22; 22; 22; 22; 22; 23; 23; 23; 23; 23; 23; 23; 23;
  23; 23; 23; 23; 23; 23; 23; 23; 24; 24; 24; 24; 24; 24; 24; 24; 24; 24; 24; 24; 24; 24; 24; 24;
  24; 24; 24; 24; 24; 24; 24; 24; 24; 24; 24; 24; 24; 24; 24; 24; 25; 25; 25; 25; 25; 25; 25; 25;
  25; 25; 25; 25; 25; 25; 25; 25; 25; 25; 25; 25; 25; 25; 25; 25; 25; 25; 25; 25; 25; 25; 25; 25;
  26; 26; 26; 26; 26; 26; 26; 26; 26; 26; 26; 26; 26; 26; 26; 26; 26; 26; 26; 26; 26; 26; 26; 26;
  26; 26; 26; 26; 26; 26; 26; 26; 27; 27; 27; 27; 27; 27; 27; 27; 27; 27; 27; 27; 27; 27; 27; 27;
  27; 27; 27; 27; 27; 27; 27; 27; 27; 27; 27; 27; 27; 27; 27; 28].

Definition base_length : list Z := [
  0; 1; 2; 3; 4; 5; 6; 7; 8; 10; 12; 14; 16; 20; 24; 28; 32; 40; 48; 56; 64; 80; 96; 112;
  128; 160; 192; 224; 0].

Definition base_dist : list Z := [
  0; 1; 2; 3; 4; 6; 8; 12; 16; 24; 32; 48; 64; 96; 128; 192;
  256; 384; 512; 768; 1024; 1536; 2048; 3072; 4096; 6144; 8192; 12288; 16384; 24576].

(** [d_code(dist)] *)
Definition d_code (dist : Z) : outcome Z :=
  if dist <? 256 then elem_at dist_code_table dist else elem_at dist_code_table (256 + Z.shiftr dist 7).

(** ** Codes from lengths *)

(** [do { res |= code & 1; code >>= 1, res <<= 1; } while (--len > 0); return res >> 1;] *)
Fixpoint bi_reverse_loop (fuel : nat) (code len res : Z) : outcome Z :=
  match fuel with
  | O => Crash OutOfFuel
  | S fuel =>
      let res := u32 (Z.shiftl (Z.lor res (Z.land code 1)) 1) in
      let code := Z.shiftr code 1 in
      let len := len - 1 in
      if 0 <? len then bi_reverse_loop fuel code len res else Ok (Z.shiftr res 1)
  end.
Definition bi_reverse (code len : Z) : outcome Z := bi_reverse_loop 32 code len 0.

(** [for (bits = 1; bits <= MAX_BITS; bits++) next_code\[bits\] = code = (code + bl_count\[bits-1\]) << 1;] *)
Fixpoint make_next_code (bs : list Z) (bl_count next_code : list Z) (code : Z) : outcome (list Z) :=
  match bs with
  | [] => Ok next_code
  | bits :: bs =>
      c ← elem_at bl_count (bits - 1);
      let code := u16 (Z.shiftl (code + c) 1) in
      next_code ← elem_set next_code bits code;
      make_next_code bs bl_count next_code code
  end.

(** The loop over the codes [n]. *)
Fixpoint assign_codes (ns : list Z) (next_code : list Z) (tree : list ct_data) : outcome (list ct_data) :=
  match ns with
  | [] => Ok tree
  | n :: ns =>
      e ← elem_at tree n;
      let len := dl e in
      if len =? 0 then assign_codes ns next_code tree
      else
        c ← elem_at next_code len;
        next_code ← elem_set next_code len (u16 (c + 1));
        r ← bi_reverse c len;
        tree ← elem_set tree n (mkCt (u16 r) len);
        assign_codes ns next_code tree
  end.

Definition gen_codes (tree : list ct_data) (max_code : Z) (bl_count : list Z) : outcome (list ct_data) :=
  next_code ← make_next_code (seqZ 1 15) bl_count (replicate 16 0) 0;
  assign_codes (seqZ 0 (max_code + 1)) next_code tree.

(** ** [tr_static_init] *)

(** [for (n = 0; n < (1 << extra); n++) t\[at++\] = (uch)code;] *)
Fixpoint fill_code (n : nat) (t : list Z) (at_ code : Z) : outcome (list Z * Z) :=
  match n with
  | O => Ok (t, at_)
  | S n => t ← elem_set t at_ (u8 code); fill_code n t (at_ + 1) code
  end.

(** A table of bases and a table of codes, filled for the given codes; [at_] is
    [length] or [dist], [shift] the divisor and [off] where the codes go. *)
Fixpoint fill_codes (codes : list Z) (extra : list Z) (shift off : Z) (base t : list Z) (at_ : Z) : outcome (list Z * list Z * Z) :=
  match codes with
  | [] => Ok (base, t, at_)
  | code :: codes =>
      base ← elem_set base code (Z.shiftl at_ shift);
      x ← elem_at extra code;
      r ← fill_code (Z.to_nat (Z.shiftl 1 (x - shift))) t (off + at_) code;
      fill_codes codes extra shift off base r.1 (r.2 - off)
  end.

Record static_tables := mkStatic {
  st_ltree : list ct_data; st_dtree : list ct_data; st_dist_code : list Z; st_length_code : list Z;
  st_base_length : list Z; st_base_dist : list Z }.

(** [n] from [n1] on: [static_ltree\[n++\].Len = len, bl_count\[len\]++] up to [n2] *)
Fixpoint set_lens (n : nat) (tree : list ct_data) (bl_count : list Z) (at_ len : Z) : outcome (list ct_data * list Z * Z) :=
  match n with
  | O => Ok (tree, bl_count, at_)
  | S n =>
      e ← elem_at tree at_;
      tree ← elem_set tree at_ (mkCt (fc e) len);
      c ← elem_at bl_count len;
      bl_count ← elem_set bl_count len (u16 (c + 1));
      set_lens n tree bl_count (at_ + 1) len
  end.

Fixpoint set_dtree (ns : list Z) (tree : list ct_data) : outcome (list ct_data) :=
  match ns with
  | [] => Ok tree
  | n :: ns => r ← bi_reverse n 5; tree ← elem_set tree n (mkCt (u16 r) 5); set_dtree ns tree
  end.

Definition tr_static_init : outcome static_tables :=
  '(bl, lc, length) ← fill_codes (seqZ 0 (LENGTH_CODES - 1)) extra_lbits 0 0 (replicate 29 0) (replicate 256 0) 0;
  lc ← elem_set lc (length - 1) (u8 (LENGTH_CODES - 1));
  '(bd, dc, dist) ← fill_codes (seqZ 0 16) extra_dbits 0 0 (replicate 30 0) (replicate 512 0) 0;
  '(bd, dc, dist) ← fill_codes (seqZ 16 14) extra_dbits 7 256 bd dc (Z.shiftr dist 7);
  '(lt, bc, n) ← set_lens 144 (replicate 288 (mkCt 0 0)) (replicate 16 0) 0 8;
  '(lt, bc, n) ← set_lens 112 lt bc n 9;
  '(lt, bc, n) ← set_lens 24 lt bc n 7;
  '(lt, bc, n) ← set_lens 8 lt bc n 8;
  lt ← gen_codes lt (L_CODES + 1) bc;
  dt ← set_dtree (seqZ 0 D_CODES) (replicate 30 (mkCt 0 0));
  Ok (mkStatic lt dt dc lc bl bd).

(** trees.h holds what [tr_static_init] computes. *)
Lemma static_init_ok : tr_static_init = Ok (mkStatic static_ltree static_dtree dist_code_table length_code_table base_length base_dist).
Proof. vm_compute. reflexivity. Qed.
