(* ===== verification/TreesCodes.v ===== *)
(** * The codes of a tree (3rd/zip/trees.c, gen_codes)

    [gen_codes] numbers the codes from the counts of the lengths and reverses
    their bits ([bi_reverse_spec]); the result is the canonical code of the
    lengths, the one [inflate_table] builds its tables for ([gen_codes_spec]). *)

From S2P Require Import Prelude Inftrees BitRev Canon InftreesSort InftreesSpec InftreesThm TreesTables.

(** ** Reversing bits *)

Lemma bi_reverse_loop_spec fuel : forall code len r, (Z.to_nat len <= fuel)%nat -> 1 <= len -> 0 <= code -> 0 <= r -> (r + 1) * 2 ^ (len + 1) <= 2 ^ 32 ->
  bi_reverse_loop fuel code len (2 * r) = Ok (r * 2 ^ len + brev len code).
Proof.
  induction fuel as [|fuel IH]; intros code len r Hf Hlen Hc Hr Hb; [lia|]. cbn [bi_reverse_loop].
  assert (Hbit : Z.land code 1 = code `mod` 2) by (change 1 with (2 ^ 1 - 1); by rewrite land_mask by lia).
  assert (Hlor : Z.lor (2 * r) (Z.land code 1) = 2 * r + code `mod` 2).
  { rewrite Hbit, Z.lor_comm. pose proof (lor_join (code `mod` 2) r 1 ltac:(lia) ltac:(change (2 ^ 1) with 2; apply Z.mod_pos_bound; lia)) as H.
    rewrite Z.shiftl_mul_pow2 in H by lia. change (2 ^ 1) with 2 in H. rewrite (Z.mul_comm 2 r). lia. }
  pose proof (Z.mod_pos_bound code 2 ltac:(lia)) as Hm. replace len with ((len - 1) + 1) in Hb |- * by lia. set (l := len - 1) in *.
  rewrite brev_succ by lia. rewrite !Z.pow_add_r in * by lia. pose proof (pow2_pos l ltac:(lia)) as Hp. change (2 ^ 1) with 2 in *.
  rewrite Hlor, Z.shiftl_mul_pow2, Z.shiftr_div_pow2 by lia. change (2 ^ 1) with 2. rewrite u32_small by (unfold is_u32; nia).
  replace (l + 1 - 1) with l by lia. destruct (Z.ltb_spec 0 l) as [Hl|Hl].
  - rewrite (Z.mul_comm _ 2). rewrite (IH (code `div` 2) l (2 * r + code `mod` 2)); [f_equal; lia|lia|lia|apply Z.div_pos; lia|lia|].
    rewrite Z.pow_add_r by lia. change (2 ^ 1) with 2. nia.
  - assert (E : l = 0) by lia. rewrite E, brev_0. rewrite Z.shiftr_div_pow2 by lia. change (2 ^ 1) with 2. rewrite Z.div_mul by lia. f_equal. change (2 ^ 0) with 1. lia.
Qed.

Lemma bi_reverse_spec code len : 1 <= len <= 15 -> 0 <= code -> bi_reverse code len = Ok (brev len code).
Proof.
  intros Hl Hc. unfold bi_reverse. change 0 with (2 * 0) at 1. rewrite bi_reverse_loop_spec; [f_equal; lia|lia|lia|done|lia|].
  pose proof (pow2_mono (len + 1) 16 ltac:(lia)). change (2 ^ 32) with 4294967296. change (2 ^ 16) with 65536 in *. lia.
Qed.

(** ** The first code of a length *)

Definition first_code (ls : list Z) (l : Z) : Z := ksum l (filter (fun x => 0 < x < l) ls).

Lemma first_code_succ ls l : 1 <= l -> first_code ls (l + 1) = 2 * (first_code ls l + occ l ls).
Proof.
  intros Hl. unfold first_code. induction ls as [|x ls IH]; [done|]. rewrite occ_cons, !filter_cons.
  destruct (decide (0 < x < l + 1)), (decide (0 < x < l)), (decide (x = l)); try lia; rewrite ?ksum_cons, ?IH.
  - rewrite (Z.pow_sub_r 2 (l + 1) x), (Z.pow_sub_r 2 l x) by lia. replace (l + 1 - x) with (1 + (l - x)) by lia.
    rewrite <- !Z.pow_sub_r by lia. replace (l + 1 - x) with (1 + (l - x)) by lia. rewrite Z.pow_add_r by lia. lia.
  - subst x. replace (l + 1 - l) with 1 by lia. lia.
Qed.

Lemma first_code_1 ls : first_code ls 1 = 0.
Proof. unfold first_code. rewrite list_filter_none; [done|]. apply Forall_forall. lia. Qed.

Lemma first_code_nonneg ls l : 0 <= first_code ls l.
Proof. unfold first_code. apply (ksum_nonneg l 1). apply Forall_forall. intros x Hx. apply list_elem_of_filter in Hx as [Hx _]. lia. Qed.

(** The codes up to a length fit below the words of that length. *)
Lemma first_code_fits ls l : 1 <= l <= 15 -> ksum 15 (filter (fun x => 1 <= x <= 15) ls) <= 2 ^ 15 -> first_code ls l + occ l ls <= 2 ^ l.
Proof.
  intros Hl Hk. assert (Hle : (first_code ls l + occ l ls) * 2 ^ (15 - l) <= ksum 15 (filter (fun x => 1 <= x <= 15) ls)).
  { clear Hk. unfold first_code. induction ls as [|x ls IH]; [done|]. rewrite occ_cons, !filter_cons.
    pose proof (pow2_pos (15 - l) ltac:(lia)). destruct (decide (1 <= x <= 15)) as [Hx|Hx], (decide (0 < x < l)), (decide (x = l)); try lia; rewrite ?ksum_cons.
    - assert (E : 2 ^ (15 - x) = 2 ^ (l - x) * 2 ^ (15 - l)) by (rewrite <- Z.pow_add_r by lia; f_equal; lia). lia.
    - subst x. lia.
    - pose proof (pow2_pos (15 - x) ltac:(lia)). lia. }
  rewrite (pow2_split 15 (15 - l)) in Hk by lia. replace (15 - (15 - l)) with l in Hk by lia. pose proof (pow2_pos (15 - l) ltac:(lia)). nia.
Qed.

(** The sum over the coded lengths. *)
Lemma kraft_filter lens codes : ksum 15 (filter (fun x => 1 <= x <= 15) (len_of lens <$> seqZ 0 codes)) = kraft lens codes.
Proof.
  unfold kraft, kraft_upto. induction (seqZ 0 codes) as [|x xs IH]; [done|]. rewrite fmap_cons, filter_cons. cbn [foldr].
  destruct (decide (1 <= len_of lens x <= 15)); rewrite ?ksum_cons; lia.
Qed.

Section gen.
Context (lens : list Z) (codes : Z) (bl_count : list Z).
Context (H0 : 0 <= codes) (Hlens : forall x, 0 <= x < codes -> 0 <= len_of lens x <= 15) (Hkraft : kraft lens codes <= 2 ^ 15).
Abbreviation all := (len_of lens <$> seqZ 0 codes).
Context (Hbl0 : bl_count !! 0%nat = Some 0) (Hbl : forall l, 1 <= l <= 15 -> bl_count !! Z.to_nat l = Some (occ l all)).
#[local] Set Default Proof Using "All".

Lemma code_fits l : 1 <= l <= 15 -> first_code all l + occ l all <= 2 ^ l.
Proof. intros Hl. apply first_code_fits; [done|]. by rewrite kraft_filter. Qed.

Lemma make_next_code_spec k : forall l nc, (Z.of_nat k = 16 - l) -> 1 <= l -> length nc = 16%nat -> (forall j, 1 <= j < l -> nc !! Z.to_nat j = Some (first_code all j)) ->
  exists nc', make_next_code (seqZ l (Z.of_nat k)) bl_count nc (if l =? 1 then 0 else first_code all (l - 1)) = Ok nc'
    /\ length nc' = 16%nat /\ forall j, 1 <= j <= 15 -> nc' !! Z.to_nat j = Some (first_code all j).
Proof.
  induction k as [|k IH]; intros l nc Hk Hl Hn Hnc; [exists nc; split; [done|]; split; [done|]; intros j Hj; apply Hnc; lia|].
  rewrite seqZ_cons by lia. cbn [make_next_code]. replace (Z.pred (Z.of_nat (S k))) with (Z.of_nat k) by lia. replace (Z.succ l) with (l + 1) by lia.
  assert (Hcode : exists c, elem_at bl_count (l - 1) = Ok c /\ u16 (Z.shiftl ((if l =? 1 then 0 else first_code all (l - 1)) + c) 1) = first_code all l).
  { destruct (Z.eqb_spec l 1) as [->|Hne].
    - exists 0. split; [apply elem_at_lookup; [lia|exact Hbl0]|by rewrite first_code_1].
    - exists (occ (l - 1) all). split; [apply elem_at_lookup; [lia|apply Hbl; lia]|]. pose proof (code_fits (l - 1) ltac:(lia)) as Hf. pose proof (first_code_succ all (l - 1) ltac:(lia)) as Hs.
      replace (l - 1 + 1) with l in Hs by lia. pose proof (first_code_nonneg all l). rewrite Z.shiftl_mul_pow2 by lia. change (2 ^ 1) with 2.
      pose proof (pow2_mono (l - 1) 14 ltac:(lia)). change (2 ^ 14) with 16384 in *. rewrite u16_small by (unfold is_u16; change (2 ^ 16) with 65536; lia). lia. }
  destruct Hcode as (c & Hc1 & Hc2). rewrite Hc1. cbn [mbind outcome_bind]. rewrite Hc2. rewrite elem_set_in by (unfold zlen; lia). cbn [mbind outcome_bind].
  destruct (IH (l + 1) (<[Z.to_nat l := first_code all l]> nc)) as (nc' & H1 & H2); [lia|lia|by rewrite length_insert| |].
  - intros j Hj. destruct (decide (j = l)) as [->|Hne]; [apply list_lookup_insert_eq; lia|]. rewrite list_lookup_insert_ne by lia. apply Hnc. lia.
  - rewrite (proj2 (Z.eqb_neq (l + 1) 1)) in H1 by lia. replace (l + 1 - 1) with l in H1 by lia. by exists nc'.
Qed.

(** ** Assigning the codes *)

Lemma syms_of_snoc n l : 0 <= n -> zlen (syms_of lens (seqZ 0 (n + 1)) l) = zlen (syms_of lens (seqZ 0 n) l) + (if decide (len_of lens n = l) then 1 else 0).
Proof.
  intros Hn. rewrite !zlen_syms_of, seqZ_app, fmap_app by lia. unfold occ. rewrite filter_app, zlen_app. f_equal. rewrite Z.add_0_l.
  change (seqZ n 1) with [n]. cbn [fmap list_fmap]. rewrite filter_cons. by destruct (decide (len_of lens n = l)).
Qed.

Lemma count_upto n l : 0 <= n < codes -> len_of lens n = l -> zlen (syms_of lens (seqZ 0 n) l) + 1 <= occ l all.
Proof.
  intros Hn El. pose proof (syms_of_snoc n l ltac:(lia)) as H. rewrite decide_True in H by done. rewrite <- zlen_syms_of.
  replace codes with ((n + 1) + (codes - n - 1)) by lia. rewrite (seqZ_app 0 (n + 1)) by lia. unfold syms_of in *. rewrite filter_app, zlen_app.
  match goal with |- context [_ + zlen ?x] => pose proof (zlen_nonneg x) end. lia.
Qed.

(** What the loop does to the tree. *)
Definition coded_tree (tree tree' : list ct_data) (n : Z) : Prop :=
  zlen tree' = zlen tree
  /\ forall x e, 0 <= x -> tree !! Z.to_nat x = Some e -> exists e', tree' !! Z.to_nat x = Some e' /\ dl e' = dl e
     /\ (x < n \/ codes <= x -> e' = e) /\ (n <= x < codes -> 1 <= dl e -> fc e' = huff_code lens codes x).

Lemma assign_codes_spec k : forall n nc tree, Z.of_nat k = codes - n -> 0 <= n -> length nc = 16%nat -> codes <= zlen tree ->
  (forall l, 1 <= l <= 15 -> nc !! Z.to_nat l = Some (first_code all l + zlen (syms_of lens (seqZ 0 n) l))) ->
  (forall x, n <= x < codes -> exists e, tree !! Z.to_nat x = Some e /\ dl e = len_of lens x) ->
  exists tree', assign_codes (seqZ n (Z.of_nat k)) nc tree = Ok tree' /\ coded_tree tree tree' n.
Proof.
  induction k as [|k IH]; intros n nc tree Hk Hn Hnc Hz Hcount Htree.
  - exists tree. split; [done|]. split; [done|]. intros x e Hx He. exists e. split; [done|]. split; [done|]. split; [done|lia].
  - rewrite seqZ_cons by lia. cbn [assign_codes]. replace (Z.pred (Z.of_nat (S k))) with (Z.of_nat k) by lia. replace (Z.succ n) with (n + 1) by lia.
    destruct (Htree n ltac:(lia)) as (e & He & Hd). rewrite (elem_at_lookup tree n e) by (done || lia). cbn [mbind outcome_bind]. set (l := len_of lens n) in *. rewrite Hd.
    pose proof (Hlens n ltac:(lia)) as Hl. fold l in Hl. destruct (Z.eqb_spec l 0) as [E0|E0].
    + destruct (IH (n + 1) nc tree) as (tree' & H1 & Hz' & Hx'); [lia|lia|done|done| |intros x Hx; apply Htree; lia|].
      { intros j Hj. rewrite Hcount, syms_of_snoc by lia. fold l. rewrite decide_False by lia. f_equal. lia. }
      exists tree'. split; [exact H1|]. split; [done|]. intros x ex Hx Hex. destruct (Hx' x ex Hx Hex) as (e' & He' & Hd' & Hsame & Hcode). exists e'. split; [done|]. split; [done|]. split.
      * intros Hout. apply Hsame. lia.
      * intros Hin Hpos. destruct (decide (x = n)) as [->|Hne]; [|apply Hcode; [lia|done]]. rewrite He in Hex. injection Hex as <-. lia.
    + rewrite (elem_at_lookup nc l _ ltac:(lia) (Hcount l ltac:(lia))). cbn [mbind outcome_bind]. set (c := first_code all l + _).
      pose proof (code_fits l ltac:(lia)) as Hfit. pose proof (count_upto n l ltac:(lia) eq_refl) as Hup. pose proof (first_code_nonneg all l). pose proof (zlen_nonneg (syms_of lens (seqZ 0 n) l)).
      pose proof (pow2_mono l 15 ltac:(lia)). change (2 ^ 15) with 32768 in *. assert (Hc : 0 <= c < 32768) by (unfold c; lia).
      rewrite elem_set_in by (unfold zlen; lia). cbn [mbind outcome_bind]. rewrite bi_reverse_spec by lia. cbn [mbind outcome_bind]. rewrite elem_set_in by lia. cbn [mbind outcome_bind].
      pose proof (brev_range l c ltac:(lia)) as Hbr. rewrite (u16_small (brev l c)) by (unfold is_u16; change (2 ^ 16) with 65536; lia). rewrite (u16_small (c + 1)) by (unfold is_u16; change (2 ^ 16) with 65536; lia).
      destruct (IH (n + 1) (<[Z.to_nat l := c + 1]> nc) (<[Z.to_nat n := mkCt (brev l c) l]> tree)) as (tree' & Ha & Hz' & Hx'); [lia|lia|by rewrite length_insert|by rewrite zlen_insert| | |].
      { intros j Hj. rewrite syms_of_snoc by lia. fold l. destruct (decide (l = j)) as [<-|Hne]; [rewrite list_lookup_insert_eq by lia; f_equal; unfold c; lia|].
        rewrite list_lookup_insert_ne, Hcount by lia. f_equal. lia. }
      { intros x Hx. rewrite list_lookup_insert_ne by lia. apply Htree. lia. }
      exists tree'. split; [exact Ha|]. rewrite zlen_insert in Hz'. split; [done|]. intros x ex Hx Hex. destruct (decide (x = n)) as [->|Hne].
      * destruct (Hx' n (mkCt (brev l c) l) Hx ltac:(apply list_lookup_insert_eq; apply lookup_lt_Some in Hex; done)) as (e' & He' & Hd' & Hsame & _).
        rewrite He in Hex. injection Hex as <-. rewrite (Hsame ltac:(lia)) in *. eexists. split; [exact He'|]. cbn [dl fc] in *. split; [done|]. split; [lia|]. intros _ _.
        unfold huff_code. fold l. f_equal.
      * destruct (Hx' x ex Hx ltac:(by rewrite list_lookup_insert_ne by lia)) as (e' & He' & Hd' & Hsame & Hcode). exists e'. split; [done|]. split; [done|]. split; [intros ?; apply Hsame; lia|intros ? ?; apply Hcode; lia].
Qed.

(** The canonical codes of the lengths. *)
Lemma gen_codes_spec tree : codes <= zlen tree -> (forall x, 0 <= x < codes -> exists e, tree !! Z.to_nat x = Some e /\ dl e = len_of lens x) ->
  exists tree', gen_codes tree (codes - 1) bl_count = Ok tree' /\ coded_tree tree tree' 0.
Proof.
  intros Hz Htree. unfold gen_codes. destruct (make_next_code_spec 15 1 (replicate 16 0) ltac:(lia) ltac:(lia) ltac:(done) ltac:(lia)) as (nc & H1 & Hn & Hnc). cbn [Z.eqb Pos.eqb] in H1.
  change (Z.of_nat 15) with 15 in H1. rewrite H1. cbn [mbind outcome_bind]. replace (codes - 1 + 1) with (Z.of_nat (Z.to_nat codes)) by lia.
  apply assign_codes_spec; try done; [lia|]. intros l Hl. rewrite Hnc by done. f_equal. change (seqZ 0 0) with (@nil Z). unfold syms_of. rewrite filter_nil. change (zlen (@nil Z)) with 0. lia.
Qed.
End gen.
