(* ===== verification/TreesHuff.v ===== *)
(** * Huffman trees (3rd/zip/trees.c, build_tree)

    The construction of a tree from the frequencies: the heap ([pqdownheap],
    [pqremove]), the code lengths with their limit ([gen_bitlen]) and
    [build_tree] itself, on the arrays of [deflate_state] it works with
    ([huff]).  The field [dl] of a tree element is the length or, while the
    tree is built, the father.  [ulg] has 32 bits. *)

From S2P Require Import Prelude Inftrees TreesTables.

(** [heap], [heap_len], [heap_max], [depth], [bl_count], [opt_len] and [static_len] of [deflate_state] *)
Record huff := mkHuff {
  h_heap : list Z; h_heap_len : Z; h_heap_max : Z; h_depth : list Z; h_bl_count : list Z; h_opt_len : Z; h_static_len : Z }.

#[export] Instance eta_huff : Eta huff := fun h =>
  mkHuff (h_heap h) (h_heap_len h) (h_heap_max h) (h_depth h) (h_bl_count h) (h_opt_len h) (h_static_len h).

(** [static_tree_desc] *)
Record static_desc := mkDesc { sd_tree : option (list ct_data); sd_extra : list Z; sd_base : Z; sd_elems : Z; sd_max_length : Z }.

Definition MAX_BL_BITS : Z := 7.
Definition static_l_desc : static_desc := mkDesc (Some static_ltree) extra_lbits (LITERALS + 1) L_CODES MAX_BITS.
Definition static_d_desc : static_desc := mkDesc (Some static_dtree) extra_dbits 0 D_CODES MAX_BITS.
Definition static_bl_desc : static_desc := mkDesc None extra_blbits 0 BL_CODES MAX_BL_BITS.

(** ** The heap *)

Definition SMALLEST : Z := 1.

(** [smaller(tree, n, m, depth)] *)
Definition smaller (tree : list ct_data) (n m : Z) (depth : list Z) : outcome bool :=
  a ← elem_at tree n; b ← elem_at tree m;
  if fc a <? fc b then Ok true
  else if fc a =? fc b then dn ← elem_at depth n; dm ← elem_at depth m; Ok (dn <=? dm)
  else Ok false.

(** The loop of [pqdownheap]: [v] moves down from [k], [j] is the left son of [k]. *)
Fixpoint sift (fuel : nat) (tree : list ct_data) (depth : list Z) (heap_len v k j : Z) (heap : list Z) : outcome (list Z) :=
  match fuel with
  | O => Crash OutOfFuel
  | S fuel =>
      if j <=? heap_len then
        j ← (if j <? heap_len then
               a ← elem_at heap (j + 1); b ← elem_at heap j;
               sm ← smaller tree a b depth; Ok (if (sm : bool) then j + 1 else j)
             else Ok j);
        x ← elem_at heap j;
        sm ← smaller tree v x depth;
        if (sm : bool) then elem_set heap k v
        else heap ← elem_set heap k x; sift fuel tree depth heap_len v j (Z.shiftl j 1) heap
      else elem_set heap k v
  end.

Definition pqdownheap (h : huff) (tree : list ct_data) (k : Z) : outcome huff :=
  v ← elem_at (h_heap h) k;
  heap ← sift (Z.to_nat HEAP_SIZE) tree (h_depth h) (h_heap_len h) v k (Z.shiftl k 1) (h_heap h);
  Ok (h <| h_heap := heap |>).

(** [pqremove(s, tree, top)]: the element and the state *)
Definition pqremove (h : huff) (tree : list ct_data) : outcome (Z * huff) :=
  top ← elem_at (h_heap h) SMALLEST;
  x ← elem_at (h_heap h) (h_heap_len h);
  heap ← elem_set (h_heap h) SMALLEST x;
  h ← pqdownheap (h <| h_heap := heap |> <| h_heap_len := h_heap_len h - 1 |>) tree SMALLEST;
  Ok (top, h).

(** ** The lengths *)

(** [s->bl_count\[bits\]++], [--], and [+= 2] *)
Definition add_count (h : huff) (bits k : Z) : outcome huff :=
  c ← elem_at (h_bl_count h) bits;
  b ← elem_set (h_bl_count h) bits (u16 (c + k));
  Ok (h <| h_bl_count := b |>).

(** What a leaf [n] with frequency [f] adds to [opt_len] and [static_len]. *)
Definition count_leaf (sd : static_desc) (h : huff) (n bits f : Z) : outcome huff :=
  xbits ← (if sd_base sd <=? n then elem_at (sd_extra sd) (n - sd_base sd) else Ok 0);
  let h := h <| h_opt_len := u32 (h_opt_len h + f * (bits + xbits)) |> in
  match sd_tree sd with
  | Some stree => e ← elem_at stree n; Ok (h <| h_static_len := u32 (h_static_len h + f * (dl e + xbits)) |>)
  | None => Ok h
  end.

(** The first pass of [gen_bitlen]: the lengths, limited to [max_length]. *)
Fixpoint first_lens (sd : static_desc) (max_code : Z) (hs : list Z) (tree : list ct_data) (h : huff) (overflow : Z) : outcome (list ct_data * huff * Z) :=
  match hs with
  | [] => Ok (tree, h, overflow)
  | i :: hs =>
      n ← elem_at (h_heap h) i;
      e ← elem_at tree n;
      d ← elem_at tree (dl e);
      let bits := dl d + 1 in
      let '(bits, overflow) := if sd_max_length sd <? bits then (sd_max_length sd, overflow + 1) else (bits, overflow) in
      tree ← elem_set tree n (mkCt (fc e) (u16 bits));
      if max_code <? n then first_lens sd max_code hs tree h overflow
      else
        h ← add_count h bits 1;
        h ← count_leaf sd h n bits (fc e);
        first_lens sd max_code hs tree h overflow
  end.

(** [while (s->bl_count\[bits\] == 0) bits--;] *)
Fixpoint find_bits (fuel : nat) (bl_count : list Z) (bits : Z) : outcome Z :=
  match fuel with
  | O => Crash OutOfFuel
  | S fuel => c ← elem_at bl_count bits; if c =? 0 then find_bits fuel bl_count (bits - 1) else Ok bits
  end.

(** [do { ... } while (overflow > 0);] *)
Fixpoint fix_overflow (fuel : nat) (max_length : Z) (h : huff) (overflow : Z) : outcome huff :=
  match fuel with
  | O => Crash OutOfFuel
  | S fuel =>
      bits ← find_bits (Z.to_nat max_length) (h_bl_count h) (max_length - 1);
      h ← add_count h bits (-1);
      h ← add_count h (bits + 1) 2;
      h ← add_count h max_length (-1);
      let overflow := overflow - 2 in
      if 0 <? overflow then fix_overflow fuel max_length h overflow else Ok h
  end.

(** [while (n != 0) { m = s->heap\[--h\]; ... n--; }]: the tree, [opt_len] and the index [h] *)
Fixpoint assign_lens (fuel : nat) (heap : list Z) (max_code bits n i : Z) (tree : list ct_data) (opt_len : Z) : outcome (list ct_data * Z * Z) :=
  match fuel with
  | O => Crash OutOfFuel
  | S fuel =>
      if n =? 0 then Ok (tree, opt_len, i)
      else
        let i := i - 1 in
        m ← elem_at heap i;
        if max_code <? m then assign_lens fuel heap max_code bits n i tree opt_len
        else
          e ← elem_at tree m;
          '(tree, opt_len) ← (if negb (dl e =? bits) then
                                t ← elem_set tree m (mkCt (fc e) (u16 bits));
                                Ok (t, u32 (opt_len + (bits - dl e) * fc e))
                              else Ok (tree, opt_len));
          assign_lens fuel heap max_code bits (n - 1) i tree opt_len
  end.

(** [for (bits = max_length; bits != 0; bits--)] *)
Fixpoint second_lens (bs : list Z) (heap bl_count : list Z) (max_code i : Z) (tree : list ct_data) (opt_len : Z) : outcome (list ct_data * Z) :=
  match bs with
  | [] => Ok (tree, opt_len)
  | bits :: bs =>
      n ← elem_at bl_count bits;
      '(tree, opt_len, i) ← assign_lens (Z.to_nat HEAP_SIZE + 1) heap max_code bits n i tree opt_len;
      second_lens bs heap bl_count max_code i tree opt_len
  end.

Definition gen_bitlen (sd : static_desc) (max_code : Z) (tree : list ct_data) (h : huff) : outcome (list ct_data * huff) :=
  let h := h <| h_bl_count := replicate (Z.to_nat (MAX_BITS + 1)) 0 |> in
  r ← elem_at (h_heap h) (h_heap_max h);
  e ← elem_at tree r;
  tree ← elem_set tree r (mkCt (fc e) 0);
  '(tree, h, overflow) ← first_lens sd max_code (seqZ (h_heap_max h + 1) (HEAP_SIZE - (h_heap_max h + 1))) tree h 0;
  if overflow =? 0 then Ok (tree, h)
  else
    h ← fix_overflow (Z.to_nat HEAP_SIZE) (sd_max_length sd) h overflow;
    '(tree, opt_len) ← second_lens (reverse (seqZ 1 (sd_max_length sd))) (h_heap h) (h_bl_count h) max_code HEAP_SIZE tree (h_opt_len h);
    Ok (tree, h <| h_opt_len := opt_len |>).

(** ** [build_tree] *)

(** [s->heap\[++(s->heap_len)\] = n; s->depth\[n\] = 0;] *)
Definition heap_push (h : huff) (n : Z) : outcome huff :=
  heap ← elem_set (h_heap h) (h_heap_len h + 1) n;
  depth ← elem_set (h_depth h) n 0;
  Ok (h <| h_heap := heap |> <| h_heap_len := h_heap_len h + 1 |> <| h_depth := depth |>).

(** The loop over the elements: the tree, the state and [max_code]. *)
Fixpoint init_heap (ns : list Z) (tree : list ct_data) (h : huff) (max_code : Z) : outcome (list ct_data * huff * Z) :=
  match ns with
  | [] => Ok (tree, h, max_code)
  | n :: ns =>
      e ← elem_at tree n;
      if negb (fc e =? 0) then
        h ← heap_push h n;
        init_heap ns tree h n
      else
        tree ← elem_set tree n (mkCt (fc e) 0);
        init_heap ns tree h max_code
  end.

(** [while (s->heap_len < 2) { ... }] *)
Fixpoint force_codes (fuel : nat) (sd : static_desc) (tree : list ct_data) (h : huff) (max_code : Z) : outcome (list ct_data * huff * Z) :=
  match fuel with
  | O => Crash OutOfFuel
  | S fuel =>
      if h_heap_len h <? 2 then
        let '(node, max_code) := if max_code <? 2 then (max_code + 1, max_code + 1) else (0, max_code) in
        h ← heap_push h node;
        e ← elem_at tree node;
        tree ← elem_set tree node (mkCt 1 (dl e));
        let h := h <| h_opt_len := u32 (h_opt_len h - 1) |> in
        h ← match sd_tree sd with
            | Some stree => x ← elem_at stree node; Ok (h <| h_static_len := u32 (h_static_len h - dl x) |>)
            | None => Ok h
            end;
        force_codes fuel sd tree h max_code
      else Ok (tree, h, max_code)
  end.

(** [for (n = s->heap_len/2; n >= 1; n--) pqdownheap(s, tree, n);] *)
Fixpoint heapify (ks : list Z) (tree : list ct_data) (h : huff) : outcome huff :=
  match ks with
  | [] => Ok h
  | k :: ks => h ← pqdownheap h tree k; heapify ks tree h
  end.

(** [s->heap\[--(s->heap_max)\] = n;] *)
Definition push_sorted (h : huff) (n : Z) : outcome huff :=
  heap ← elem_set (h_heap h) (h_heap_max h - 1) n;
  Ok (h <| h_heap := heap |> <| h_heap_max := h_heap_max h - 1 |>).

(** [tree\[n\].Dad = node] *)
Definition set_dad (tree : list ct_data) (n node : Z) : outcome (list ct_data) :=
  e ← elem_at tree n;
  elem_set tree n (mkCt (fc e) (u16 node)).

(** One round of the loop that combines the two least frequent nodes. *)
Definition combine_step (tree : list ct_data) (h : huff) (node : Z) : outcome (list ct_data * huff) :=
  '(n, h) ← pqremove h tree;
  m ← elem_at (h_heap h) SMALLEST;
  h ← push_sorted h n;
  h ← push_sorted h m;
  en ← elem_at tree n; em ← elem_at tree m; e ← elem_at tree node;
  tree ← elem_set tree node (mkCt (u16 (fc en + fc em)) (dl e));
  dn ← elem_at (h_depth h) n; dm ← elem_at (h_depth h) m;
  depth ← elem_set (h_depth h) node (u8 ((if dm <=? dn then dn else dm) + 1));
  tree ← set_dad tree m node;
  tree ← set_dad tree n node;
  heap ← elem_set (h_heap h) SMALLEST node;
  h ← pqdownheap (h <| h_heap := heap |> <| h_depth := depth |>) tree SMALLEST;
  Ok (tree, h).

Fixpoint combine (fuel : nat) (tree : list ct_data) (h : huff) (node : Z) : outcome (list ct_data * huff) :=
  match fuel with
  | O => Crash OutOfFuel
  | S fuel =>
      '(tree, h) ← combine_step tree h node;
      if 2 <=? h_heap_len h then combine fuel tree h (node + 1) else Ok (tree, h)
  end.

(** [build_tree(s, desc)]: the tree, the state and [desc->max_code] *)
Definition build_tree (sd : static_desc) (tree : list ct_data) (h : huff) : outcome (list ct_data * huff * Z) :=
  let h := h <| h_heap_len := 0 |> <| h_heap_max := HEAP_SIZE |> in
  '(tree, h, max_code) ← init_heap (seqZ 0 (sd_elems sd)) tree h (-1);
  '(tree, h, max_code) ← force_codes 3 sd tree h max_code;
  h ← heapify (reverse (seqZ 1 (h_heap_len h / 2))) tree h;
  '(tree, h) ← combine (Z.to_nat HEAP_SIZE) tree h (sd_elems sd);
  r ← elem_at (h_heap h) SMALLEST;
  h ← push_sorted h r;
  '(tree, h) ← gen_bitlen sd max_code tree h;
  tree ← gen_codes tree max_code (h_bl_count h);
  Ok (tree, h, max_code).
