(* ===== verification/TreesHeap.v ===== *)
(** * The heap of [build_tree]

    [pqdownheap] and [pqremove] exchange the elements of the heap and leave the
    rest of the array alone ([pqdownheap_spec], [pqremove_spec]); the shape of
    the tree needs no more than that. *)

From S2P Require Import Prelude Inftrees TreesTables TreesHuff.

(** An exchange, when one of the two elements is held back. *)
Lemma exchange_perm {A} (l : list A) i j x v : l !! j = Some x -> (i < length l)%nat -> <[j := v]> (<[i := x]> l) ≡ₚ <[i := v]> l.
Proof.
  intros Hj Hi. pose proof (lookup_lt_Some _ _ _ Hj) as Hjl. destruct (decide (i = j)) as [<-|Hne]; [by rewrite list_insert_insert_eq|].
  apply Permutation_inj. split; [by rewrite !length_insert|]. exists (fun n => if decide (n = i) then j else if decide (n = j) then i else n). split.
  - intros a b. repeat case_decide; congruence.
  - intros n. repeat case_decide; subst.
    + rewrite (list_lookup_insert_ne _ j i) by done. rewrite list_lookup_insert_eq by done. by rewrite list_lookup_insert_ne.
    + rewrite list_lookup_insert_eq by (by rewrite length_insert). by rewrite list_lookup_insert_eq.
    + by rewrite !list_lookup_insert_ne by done.
Qed.

(** The part of the array that holds the heap, and the sorted part at its end. *)
Definition front (h : huff) : list Z := take (Z.to_nat (h_heap_len h)) (drop 1 (h_heap h)).
Definition back (h : huff) : list Z := drop (Z.to_nat (h_heap_max h)) (h_heap h).

(** Two arrays that differ between 1 and [n] by a permutation. *)
Definition same_heap (n : Z) (heap heap' : list Z) : Prop :=
  heap' ≡ₚ heap /\ forall i, i = 0%nat \/ n < Z.of_nat i -> heap' !! i = heap !! i.

Lemma same_heap_front n heap heap' : 0 <= n < zlen heap -> same_heap n heap heap' -> take (Z.to_nat n) (drop 1 heap') ≡ₚ take (Z.to_nat n) (drop 1 heap).
Proof.
  intros Hn [Hp Ho]. assert (Hlen : length heap' = length heap) by by apply Permutation_length. unfold zlen in Hn.
  assert (Hd : drop (Z.to_nat n) (drop 1 heap') = drop (Z.to_nat n) (drop 1 heap)).
  { apply list_eq. intros i. rewrite !lookup_drop. apply Ho. right. lia. }
  destruct heap as [|x heap]; [cbn in Hn; lia|]. destruct heap' as [|x' heap']; [done|]. pose proof (Ho 0%nat ltac:(by left)) as H0. injection H0 as ->. cbn [drop] in *. rewrite !drop_0 in *.
  apply Permutation_cons_inv in Hp. rewrite <- (take_drop (Z.to_nat n) heap), <- (take_drop (Z.to_nat n) heap'), Hd in Hp. by eapply Permutation_app_inv_r.
Qed.

Lemma same_heap_back n m heap heap' : n < m -> 0 <= m -> same_heap n heap heap' -> drop (Z.to_nat m) heap' = drop (Z.to_nat m) heap.
Proof. intros Hm Hm0 [_ Ho]. apply list_eq. intros i. rewrite !lookup_drop. apply Ho. right. lia. Qed.

Lemma same_heap_refl n heap : same_heap n heap heap.
Proof. by split. Qed.

Section sift.
Context (tree : list ct_data) (depth : list Z) (heap_len : Z).
Context (Hlen : 0 <= heap_len < 573) (Hdepth : zlen depth = 573).
#[local] Set Default Proof Using "All".

Definition node_ok (x : Z) : Prop := 0 <= x < zlen tree /\ x < 573.
Definition nodes_ok (heap : list Z) : Prop := zlen heap = 573 /\ forall i, 1 <= i <= heap_len -> exists x, heap !! Z.to_nat i = Some x /\ node_ok x.

Lemma smaller_ok a b : node_ok a -> node_ok b -> exists r, smaller tree a b depth = Ok r.
Proof.
  intros [Ha Ha'] [Hb Hb']. unfold smaller. destruct (lookup_lt_is_Some_2 tree (Z.to_nat a)) as [x Hx]; [unfold zlen in *; lia|].
  destruct (lookup_lt_is_Some_2 tree (Z.to_nat b)) as [y Hy]; [unfold zlen in *; lia|].
  destruct (lookup_lt_is_Some_2 depth (Z.to_nat a)) as [da Hda]; [unfold zlen in *; lia|]. destruct (lookup_lt_is_Some_2 depth (Z.to_nat b)) as [db Hdb]; [unfold zlen in *; lia|].
  rewrite (elem_at_lookup tree a x), (elem_at_lookup tree b y), (elem_at_lookup depth a da), (elem_at_lookup depth b db) by (done || lia). cbn [mbind outcome_bind].
  destruct (fc x <? fc y), (fc x =? fc y); eauto.
Qed.

(** The smaller of the two sons. *)
Lemma son_ok heap j : nodes_ok heap -> 1 <= j <= heap_len ->
  exists j', (if j <? heap_len then
       a ← elem_at heap (j + 1); b ← elem_at heap j;
       sm ← smaller tree a b depth; Ok (if (sm : bool) then j + 1 else j)
     else Ok j) = Ok j' /\ j <= j' <= heap_len.
Proof.
  intros [Hz Hn] Hj. destruct (Z.ltb_spec j heap_len) as [Hlt|Hge]; [|exists j; split; [done|lia]].
  destruct (Hn (j + 1) ltac:(lia)) as (a & Ha & Hao). destruct (Hn j ltac:(lia)) as (b & Hb & Hbo). rewrite (elem_at_lookup heap (j + 1) a), (elem_at_lookup heap j b) by (done || lia). cbn [mbind outcome_bind].
  destruct (smaller_ok a b Hao Hbo) as [[] ->]; cbn [mbind outcome_bind]; eexists; (split; [done|lia]).
Qed.

Lemma sift_spec fuel : forall v k j heap, Z.max 0 (heap_len - j + 1) < Z.of_nat fuel -> 1 <= k <= heap_len -> k < j -> node_ok v -> nodes_ok heap ->
  exists heap', sift fuel tree depth heap_len v k j heap = Ok heap' /\ same_heap heap_len (<[Z.to_nat k := v]> heap) heap'.
Proof.
  induction fuel as [|fuel IH]; intros v k j heap Hf Hk Hj Hv Hok; [lia|]. pose proof Hok as [Hz Hn]. cbn [sift].
  assert (Hput : elem_set heap k v = Ok (<[Z.to_nat k := v]> heap)) by (apply elem_set_in; lia).
  destruct (Z.leb_spec j heap_len) as [Hle|Hgt]; [|exists (<[Z.to_nat k := v]> heap); split; [exact Hput|apply same_heap_refl]].
  destruct (son_ok heap j Hok ltac:(lia)) as (j' & -> & Hj'). cbn [mbind outcome_bind]. destruct (Hn j' ltac:(lia)) as (x & Hx & Hxo). rewrite (elem_at_lookup heap j' x) by (done || lia). cbn [mbind outcome_bind].
  destruct (smaller_ok v x Hv Hxo) as [[] ->]; cbn [mbind outcome_bind]; [exists (<[Z.to_nat k := v]> heap); split; [exact Hput|apply same_heap_refl]|].
  rewrite elem_set_in by lia. cbn [mbind outcome_bind]. set (heap1 := <[Z.to_nat k := x]> heap).
  destruct (IH v j' (Z.shiftl j' 1) heap1) as (heap' & H1 & [Hp Ho]).
  - rewrite Z.shiftl_mul_pow2 by lia. change (2 ^ 1) with 2. lia.
  - lia.
  - rewrite Z.shiftl_mul_pow2 by lia. change (2 ^ 1) with 2. lia.
  - done.
  - split; [unfold heap1; by rewrite zlen_insert|]. intros i Hi. destruct (decide (i = k)) as [->|Hne]; [exists x; split; [apply list_lookup_insert_eq; unfold zlen in Hz; lia|done]|].
    unfold heap1. rewrite list_lookup_insert_ne by lia. by apply Hn.
  - exists heap'. split; [exact H1|]. split.
    + rewrite Hp. apply exchange_perm; [done|unfold zlen in Hz; lia].
    + intros i Hi. rewrite Ho by done. unfold heap1. rewrite !list_lookup_insert_ne by lia. done.
Qed.
End sift.

(** ** The operations *)

(** The arrays have their sizes, and the heap holds elements of the tree. *)
Record heap_ok (h : huff) (tree : list ct_data) : Prop := {
  ho_len : 0 <= h_heap_len h < 573;
  ho_depth : zlen (h_depth h) = 573;
  ho_nodes : nodes_ok tree (h_heap_len h) (h_heap h) }.

Lemma node_front h tree x : heap_ok h tree -> x ∈ front h -> node_ok tree x.
Proof.
  intros [Hl _ [Hz Hn]] Hx. apply list_elem_of_lookup in Hx as [i Hi]. unfold front in Hi. apply lookup_take_Some in Hi as [Hi Hlt]. rewrite lookup_drop in Hi.
  destruct (Hn (1 + Z.of_nat i) ltac:(lia)) as (y & Hy & Hyo). replace (Z.to_nat (1 + Z.of_nat i)) with (1 + i)%nat in Hy by lia. congruence.
Qed.

Lemma heap_ok_front h tree : 0 <= h_heap_len h < 573 -> zlen (h_depth h) = 573 -> zlen (h_heap h) = 573 -> Forall (node_ok tree) (front h) -> heap_ok h tree.
Proof.
  intros Hl Hd Hz Hall. split; [done|done|]. split; [done|]. intros i Hi. unfold zlen in Hz. destruct (lookup_lt_is_Some_2 (h_heap h) (Z.to_nat i)) as [x Hx]; [lia|]. exists x. split; [done|].
  rewrite Forall_lookup in Hall. apply (Hall (Z.to_nat (i - 1))). unfold front. rewrite lookup_take_lt, lookup_drop by lia. by replace (1 + Z.to_nat (i - 1))%nat with (Z.to_nat i) by lia.
Qed.

Lemma length_front h : 0 <= h_heap_len h < zlen (h_heap h) -> zlen (front h) = h_heap_len h.
Proof. intros H. unfold front, zlen in *. rewrite length_take, length_drop. lia. Qed.

(** [pqdownheap] exchanges elements of the heap. *)
Lemma pqdownheap_spec h tree k : heap_ok h tree -> 1 <= k <= h_heap_len h -> h_heap_len h < h_heap_max h ->
  exists heap', pqdownheap h tree k = Ok (h <| h_heap := heap' |>) /\ zlen heap' = 573 /\ front (h <| h_heap := heap' |>) ≡ₚ front h /\ back (h <| h_heap := heap' |>) = back h
    /\ (h_heap_len h = 1 -> heap' = h_heap h).
Proof.
  intros Hok Hk Hmax. pose proof Hok as [Hl Hd Hn]. pose proof Hn as [Hz Hnodes]. destruct (Hnodes k Hk) as (v & Hv & Hvo). unfold pqdownheap. rewrite (elem_at_lookup _ k v) by (done || lia). cbn [mbind outcome_bind].
  assert (Hs : Z.shiftl k 1 = 2 * k) by (rewrite Z.shiftl_mul_pow2 by lia; change (2 ^ 1) with 2; lia).
  destruct (sift_spec tree (h_depth h) (h_heap_len h) Hl Hd (Z.to_nat HEAP_SIZE) v k (Z.shiftl k 1) (h_heap h)) as (heap' & -> & Hsame); try (done || lia).
  { rewrite Hs. unfold HEAP_SIZE, L_CODES, LITERALS, LENGTH_CODES. lia. }
  rewrite list_insert_id in Hsame by done. cbn [mbind outcome_bind]. exists heap'. split; [done|]. pose proof Hsame as [Hp Ho]. split; [unfold zlen in *; by rewrite (Permutation_length Hp)|].
  split; [apply (same_heap_front (h_heap_len h)); [lia|done]|]. split; [apply (same_heap_back (h_heap_len h)); (done || lia)|]. intros E1.
  assert (Hf : front (h <| h_heap := heap' |>) ≡ₚ front h) by (apply (same_heap_front (h_heap_len h)); [lia|done]).
  apply list_eq. intros i. destruct (decide (i = 1)%nat) as [->|Hne]; [|apply Ho; lia].
  unfold front in Hf. cbn in Hf. rewrite E1 in Hf. destruct (h_heap h) as [|a [|b l]] eqn:E; [discriminate Hz|discriminate Hz|].
  pose proof (Permutation_length Hp) as Hlen. destruct heap' as [|a' [|b' l']]; [done|done|]. change (Z.to_nat 1) with 1%nat in Hf. cbn in Hf. rewrite !take_0 in Hf || idtac. apply Permutation_singleton_r in Hf. by injection Hf as ->.
Qed.

Lemma pqremove_spec h tree : heap_ok h tree -> 2 <= h_heap_len h -> h_heap_len h < h_heap_max h ->
  exists n heap', let h' := h <| h_heap := heap' |> <| h_heap_len := h_heap_len h - 1 |> in
    pqremove h tree = Ok (n, h') /\ heap_ok h' tree /\ front h ≡ₚ n :: front h' /\ back h' = back h.
Proof.
  intros Hok H2 Hmax. pose proof Hok as [Hl Hd [Hz Hnodes]]. destruct (Hnodes 1 ltac:(lia)) as (n & Hn & Hno). destruct (Hnodes (h_heap_len h) ltac:(lia)) as (x & Hx & Hxo).
  unfold pqremove, SMALLEST. rewrite (elem_at_lookup _ 1 n), (elem_at_lookup _ (h_heap_len h) x) by (done || lia). cbn [mbind outcome_bind]. rewrite elem_set_in by lia. cbn [mbind outcome_bind].
  set (heap1 := <[Z.to_nat 1 := x]> (h_heap h)). set (h1 := h <| h_heap := heap1 |> <| h_heap_len := h_heap_len h - 1 |>).
  assert (Hfront : exists m, front h = n :: m ++ [x] /\ front h1 = x :: m).
  { exists (take (Z.to_nat (h_heap_len h) - 2) (drop 2 (h_heap h))). unfold front, h1, heap1. cbn. unfold zlen in Hz. change (Z.to_nat 1) with 1%nat in *.
    destruct (h_heap h) as [|a [|b l]] eqn:E; [discriminate Hz|discriminate Hz|]. cbn in Hn. injection Hn as ->. cbn [drop]. rewrite !drop_0. cbn [insert list_insert drop]. rewrite ?drop_0.
    destruct (Z.to_nat (h_heap_len h)) as [|[|q]] eqn:Eq; [lia|lia|]. replace (Z.to_nat (h_heap_len h - 1)) with (S q) by lia. cbn [take]. replace (S (S q) - 2)%nat with q by lia.
    split; [|done]. f_equal. cbn in Hx. by apply take_S_r. }
  destruct Hfront as (m & Ef & Ef1). assert (Hok1 : heap_ok h1 tree).
  { apply heap_ok_front; [cbn; lia|done|unfold h1, heap1; cbn; by rewrite zlen_insert|]. rewrite Ef1. apply Forall_forall. intros y Hy. apply (node_front h tree y Hok). rewrite Ef. set_solver. }
  destruct (pqdownheap_spec h1 tree 1 Hok1) as (heap' & H1 & Hz' & Hf & Hb & _); [cbn; lia|cbn; lia|]. rewrite H1. cbn [mbind outcome_bind]. exists n, heap'. split; [done|].
  set (h' := h1 <| h_heap := heap' |>) in *. change (heap_ok h' tree /\ front h ≡ₚ n :: front h' /\ back h' = back h). split; [|split].
  - apply heap_ok_front; [cbn; lia|done|done|]. rewrite Hf. apply Forall_forall. intros y Hy. by apply (node_front h1 tree y Hok1).
  - rewrite Hf, Ef1, Ef. constructor. by rewrite (Permutation_app_comm m [x]).
  - rewrite Hb. unfold back, h1, heap1. cbn. apply drop_insert_lt. lia.
Qed.

(** ** Combining nodes *)

(** The lengths or fathers of the elements. *)
Definition dls (tree : list ct_data) : list Z := dl <$> tree.

Lemma dls_insert tree n e : dls (<[n := e]> tree) = <[n := dl e]> (dls tree).
Proof. apply list_fmap_insert. Qed.

Lemma dls_keep tree n e f : tree !! n = Some e -> dls (<[n := mkCt f (dl e)]> tree) = dls tree.
Proof. intros H. rewrite dls_insert. apply list_insert_id. unfold dls. by rewrite list_lookup_fmap, H. Qed.

Lemma zlen_dls tree : zlen (dls tree) = zlen tree.
Proof. unfold zlen, dls. by rewrite length_fmap. Qed.

Lemma node_lookup tree x : node_ok tree x -> exists e, tree !! Z.to_nat x = Some e.
Proof. intros [Hx _]. apply lookup_lt_is_Some_2. unfold zlen in Hx. lia. Qed.

Lemma set_dad_spec tree n node : node_ok tree n -> node_ok tree node -> exists tree', set_dad tree n node = Ok tree' /\ zlen tree' = zlen tree /\ dls tree' = <[Z.to_nat n := node]> (dls tree).
Proof.
  intros Hn [Hnode Hn573]. destruct (node_lookup tree n Hn) as [e He]. destruct Hn as [Hn _]. unfold set_dad. rewrite (elem_at_lookup tree n e) by (done || lia). cbn [mbind outcome_bind].
  rewrite elem_set_in by lia. rewrite u16_small by (unfold is_u16; change (2 ^ 16) with 65536; lia). eexists. split; [done|]. split; [apply zlen_insert|]. apply dls_insert.
Qed.

Lemma push_sorted_spec h x : 0 < h_heap_max h <= zlen (h_heap h) -> h_heap_len h < h_heap_max h - 1 -> 0 <= h_heap_len h ->
  exists heap', let h' := h <| h_heap := heap' |> <| h_heap_max := h_heap_max h - 1 |> in
    push_sorted h x = Ok h' /\ zlen heap' = zlen (h_heap h) /\ front h' = front h /\ back h' = x :: back h.
Proof.
  intros Hm Hl H0. unfold push_sorted. rewrite elem_set_in by lia. cbn [mbind outcome_bind]. eexists. split; [done|]. split; [apply zlen_insert|]. unfold front, back. cbn. split.
  - apply list_eq. intros i. destruct (decide (i < Z.to_nat (h_heap_len h))%nat); [|by rewrite !lookup_take_ge by lia].
    rewrite !lookup_take_lt, !lookup_drop by done. apply list_lookup_insert_ne. lia.
  - set (k := Z.to_nat (h_heap_max h - 1)). replace (Z.to_nat (h_heap_max h)) with (S k) by lia. rewrite (drop_S _ x k) by (apply list_lookup_insert_eq; unfold zlen in Hm; lia).
    f_equal. apply drop_insert_lt. lia.
Qed.

Lemma node_ok_len tree tree' x : zlen tree' = zlen tree -> node_ok tree x -> node_ok tree' x.
Proof. unfold node_ok. by intros ->. Qed.

(** Two nodes leave the heap, and a new one that is their father enters it. *)
Lemma combine_step_spec tree h node : heap_ok h tree -> 2 <= h_heap_len h -> h_heap_len h + 2 <= h_heap_max h <= 573 -> node_ok tree node ->
  exists n m rest tree' h', combine_step tree h node = Ok (tree', h') /\ front h ≡ₚ n :: m :: rest /\ front h' ≡ₚ node :: rest /\ back h' = m :: n :: back h
    /\ h_heap_len h' = h_heap_len h - 1 /\ h_heap_max h' = h_heap_max h - 2 /\ heap_ok h' tree' /\ zlen tree' = zlen tree
    /\ dls tree' = <[Z.to_nat n := node]> (<[Z.to_nat m := node]> (dls tree)) /\ h_bl_count h' = h_bl_count h.
Proof.
  intros Hok H2 Hmax Hnode. destruct (pqremove_spec h tree Hok H2 ltac:(lia)) as (n & heap1 & Hr & Hok1 & Hf1 & Hb1). set (h1 := h <| h_heap := heap1 |> <| h_heap_len := h_heap_len h - 1 |>) in *.
  assert (Hn : node_ok tree n) by (apply (node_front h tree n Hok); rewrite Hf1; set_solver).
  pose proof Hok1 as [Hl1 Hd1 [Hz1 Hnodes1]]. change (h_heap_len h1) with (h_heap_len h - 1) in *. destruct (Hnodes1 1 ltac:(lia)) as (m & Hm & Hmo).
  assert (Ef1 : exists rest, front h1 = m :: rest /\ forall x, take (Z.to_nat (h_heap_len h - 1)) (drop 1 (<[1%nat := x]> (h_heap h1))) = x :: rest).
  { change (Z.to_nat 1) with 1%nat in Hm. unfold front. change (h_heap_len h1) with (h_heap_len h - 1). destruct (h_heap h1) as [|a [|b l]]; [done|done|]. injection Hm as ->. exists (take (Z.to_nat (h_heap_len h - 1) - 1) l).
    destruct (Z.to_nat (h_heap_len h - 1)) as [|q] eqn:Eq; [lia|]. cbn. rewrite ?drop_0, Nat.sub_0_r. done. }
  destruct Ef1 as (rest & Ef1 & Einsert). unfold combine_step. rewrite Hr. cbn [mbind outcome_bind]. unfold SMALLEST. rewrite (elem_at_lookup (h_heap h1) 1 m) by (done || lia). cbn [mbind outcome_bind].
  destruct (push_sorted_spec h1 n) as (heap2 & H2a & Hz2 & Hf2 & Hb2); [rewrite Hz1; cbn; lia|cbn; lia|cbn; lia|]. rewrite H2a. cbn [mbind outcome_bind]. set (h2 := h1 <| h_heap := heap2 |> <| h_heap_max := h_heap_max h1 - 1 |>) in *.
  destruct (push_sorted_spec h2 m) as (heap3 & H3 & Hz3 & Hf3 & Hb3); [change (h_heap h2) with heap2; rewrite Hz2, Hz1; cbn; lia|cbn; lia|cbn; lia|]. rewrite H3. cbn [mbind outcome_bind]. set (h3 := h2 <| h_heap := heap3 |> <| h_heap_max := h_heap_max h2 - 1 |>) in *.
  destruct (node_lookup tree n Hn) as [en Hen]. destruct (node_lookup tree m Hmo) as [em Hem]. destruct (node_lookup tree node Hnode) as [e He].
  rewrite (elem_at_lookup tree n en), (elem_at_lookup tree m em), (elem_at_lookup tree node e) by (done || destruct Hn, Hmo, Hnode; lia). cbn [mbind outcome_bind].
  rewrite (elem_set_in tree) by (destruct Hnode; lia). cbn [mbind outcome_bind]. set (tree1 := <[Z.to_nat node := _]> tree).
  assert (Hzt1 : zlen tree1 = zlen tree) by apply zlen_insert. assert (Hdl1 : dls tree1 = dls tree) by (by apply dls_keep).
  assert (Hdep : forall x, node_ok tree x -> exists d, elem_at (h_depth h3) x = Ok d).
  { intros x [Hx Hx5]. change (h_depth h3) with (h_depth h1). destruct (lookup_lt_is_Some_2 (h_depth h1) (Z.to_nat x)) as [d Hdx]; [unfold zlen in Hd1; lia|]. exists d. apply elem_at_lookup; [lia|done]. }
  destruct (Hdep n Hn) as [dn ->]. destruct (Hdep m Hmo) as [dm ->]. cbn [mbind outcome_bind]. rewrite (elem_set_in (h_depth h3)) by (change (h_depth h3) with (h_depth h1); rewrite Hd1; destruct Hnode; lia). cbn [mbind outcome_bind].
  destruct (set_dad_spec tree1 m node) as (tree2 & -> & Hzt2 & Hdl2); [by apply (node_ok_len tree)|by apply (node_ok_len tree)|]. cbn [mbind outcome_bind].
  destruct (set_dad_spec tree2 n node) as (tree3 & -> & Hzt3 & Hdl3); [apply (node_ok_len tree); [congruence|done]|apply (node_ok_len tree); [congruence|done]|]. cbn [mbind outcome_bind].
  change (h_heap h3) with heap3. change (h_heap h2) with heap2 in Hz3. rewrite (elem_set_in heap3) by lia. cbn [mbind outcome_bind]. set (h4 := h3 <| h_heap := <[Z.to_nat 1 := node]> heap3 |> <| h_depth := _ |>).
  assert (Hf4 : front h4 = node :: rest).
  { rewrite <- (Einsert node). unfold front. change (h_heap_len h4) with (h_heap_len h - 1). change (h_heap h4) with (<[1%nat := node]> heap3).
    assert (Hf : take (Z.to_nat (h_heap_len h - 1)) (drop 1 heap3) = take (Z.to_nat (h_heap_len h - 1)) (drop 1 (h_heap h1))) by (change (front h3 = front h1); by rewrite Hf3, Hf2).
    assert (Hins : forall l, zlen l = 573 -> take (Z.to_nat (h_heap_len h - 1)) (drop 1 (<[1%nat := node]> l)) = <[0%nat := node]> (take (Z.to_nat (h_heap_len h - 1)) (drop 1 l))).
    { intros l Hl. destruct l as [|a [|b l]]; [discriminate Hl|discriminate Hl|]. destruct (Z.to_nat (h_heap_len h - 1)) as [|q] eqn:Eq; [lia|]. cbn. by rewrite ?drop_0. }
    rewrite !Hins, Hf by (congruence || done). done. }
  assert (Hzt : zlen tree3 = zlen tree) by congruence. assert (Hok4 : heap_ok h4 tree3).
  { apply heap_ok_front; [cbn; lia|cbn; rewrite zlen_insert; done|change (h_heap h4) with (<[1%nat := node]> heap3); rewrite zlen_insert; congruence|]. rewrite Hf4. constructor; [by apply (node_ok_len tree)|].
    apply Forall_forall. intros y Hy. apply (node_ok_len tree); [done|]. apply (node_front h1 tree y Hok1). rewrite Ef1. by right. }
  destruct (pqdownheap_spec h4 tree3 1 Hok4) as (heap5 & H5 & Hz5 & Hf5 & Hb5 & _); [cbn; lia|cbn; lia|]. rewrite H5. cbn [mbind outcome_bind].
  eexists n, m, rest, tree3, _. split; [done|]. set (h5 := h4 <| h_heap := heap5 |>) in *. split; [by rewrite Hf1, Ef1|]. split; [by rewrite Hf5, Hf4|]. split.
  { rewrite Hb5. change (back h4) with (drop (Z.to_nat (h_heap_max h3)) (<[1%nat := node]> heap3)). rewrite drop_insert_lt by (cbn; lia). change (back h3 = m :: n :: back h). by rewrite Hb3, Hb2, Hb1. }
  split; [done|]. split; [cbn; lia|]. split; [|split; [done|split; [by rewrite Hdl3, Hdl2, Hdl1|done]]].
  apply heap_ok_front; [cbn; lia|by destruct Hok4|done|]. rewrite Hf5. apply Forall_forall. intros y Hy. by apply (node_front h4 tree3 y Hok4).
Qed.
