(* ===== verification/TreesCombine.v ===== *)
(** * The shape of the tree

    What [init_heap], [force_codes], [heapify] and [combine] leave: the
    sorted part of the array holds the root and the pairs of brothers in the
    order of their fathers ([combined], [combine_spec]). *)

From S2P Require Import Prelude Inftrees TreesTables TreesHuff TreesHeap.

(** The brothers, latest first, as the array holds them. *)
Definition flat (pairs : list (Z * Z)) : list Z := pairs ≫= fun p => [p.1; p.2].

Lemma zlen_flat pairs : zlen (flat pairs) = 2 * zlen pairs.
Proof. induction pairs as [|p pairs IH]; [done|]. unfold flat in *. cbn [mbind list_bind]. rewrite zlen_app, IH, !zlen_cons, zlen_nil. lia. Qed.

(** The pair with [t] pairs behind it has the father [elems + t], and is older than it. *)
Fixpoint fathers (ds : list Z) (elems : Z) (pairs : list (Z * Z)) : Prop :=
  match pairs with
  | [] => True
  | p :: rest =>
      let node := elems + zlen rest in
      (ds !! Z.to_nat p.1 = Some node /\ 0 <= p.1 < node) /\ (ds !! Z.to_nat p.2 = Some node /\ 0 <= p.2 < node) /\ fathers ds elems rest
  end.

Lemma fathers_below ds elems pairs x : fathers ds elems pairs -> x ∈ flat pairs -> 0 <= x < elems + zlen pairs.
Proof.
  induction pairs as [|p rest IH]; intros H Hx; [by apply not_elem_of_nil in Hx|]. destruct H as ((_ & H1) & (_ & H2) & H). rewrite zlen_cons.
  unfold flat in Hx. cbn [mbind list_bind] in Hx. apply elem_of_cons in Hx as [->|Hx]; [lia|]. apply elem_of_cons in Hx as [->|Hx]; [lia|]. specialize (IH H Hx). lia.
Qed.

(** Other elements do not matter. *)
Lemma fathers_insert ds elems pairs x v : 0 <= x -> x ∉ flat pairs -> fathers ds elems pairs -> fathers (<[Z.to_nat x := v]> ds) elems pairs.
Proof.
  intros Hx0. induction pairs as [|p rest IH]; intros Hx H; [done|]. destruct H as ((E1 & H1) & (E2 & H2) & H). unfold flat in Hx. cbn [mbind list_bind] in Hx.
  apply not_elem_of_cons in Hx as [Hx1 Hx]. apply not_elem_of_cons in Hx as [Hx2 Hx]. cbn [fathers]. rewrite !list_lookup_insert_ne by lia. split; [done|]. split; [done|by apply IH].
Qed.

Section tree.
Context (elems : Z) (leaves : list Z).
Context (Helems : 1 <= elems <= 286) (Hleaves : Forall (fun x => 0 <= x < elems) leaves) (Hdup : NoDup leaves).
#[local] Set Default Proof Using "All".

(** The nodes there are after [t] rounds. *)
Definition nodes (t : Z) : list Z := leaves ++ seqZ elems t.

Lemma nodes_nodup t : NoDup (nodes t).
Proof.
  apply NoDup_app. split; [done|]. split; [|apply NoDup_seqZ]. intros x Hx Hs. rewrite Forall_forall in Hleaves. specialize (Hleaves _ Hx). apply elem_of_seqZ in Hs. lia.
Qed.

Lemma nodes_succ t : 0 <= t -> nodes (t + 1) = nodes t ++ [elems + t].
Proof. intros Ht. unfold nodes. rewrite seqZ_app by lia. rewrite app_assoc. f_equal. Qed.

Lemma elem_nodes t x : x ∈ nodes t <-> x ∈ leaves \/ elems <= x < elems + t.
Proof. unfold nodes. by rewrite elem_of_app, elem_of_seqZ. Qed.

Lemma leaves_count : zlen leaves <= elems.
Proof.
  assert (H : leaves ⊆ seqZ 0 elems) by (intros x Hx; apply elem_of_seqZ; rewrite Forall_forall in Hleaves; specialize (Hleaves _ Hx); lia).
  apply NoDup_submseteq, submseteq_length in H; [|done]. rewrite length_seqZ in H. unfold zlen. lia.
Qed.

(** The state after [zlen pairs] rounds. *)
Record combined (tree : list ct_data) (h : huff) (pairs : list (Z * Z)) : Prop := {
  cb_perm : front h ++ flat pairs ≡ₚ nodes (zlen pairs);
  cb_back : back h = flat pairs;
  cb_fathers : fathers (dls tree) elems pairs;
  cb_heap : heap_ok h tree;
  cb_max : h_heap_max h = 573 - 2 * zlen pairs }.

Lemma combined_len tree h pairs : combined tree h pairs -> h_heap_len h + zlen pairs = zlen leaves.
Proof.
  intros [Hp _ _ [Hl _ [Hz _]] _]. pose proof (length_front h ltac:(rewrite Hz; lia)) as Hf. apply Permutation_length in Hp. pose proof (zlen_flat pairs). pose proof (zlen_nonneg pairs).
  unfold nodes in Hp. rewrite !length_app, length_seqZ in Hp. unfold zlen in *. lia.
Qed.

(** The elements of the tree that are not leaves keep their field. *)
Definition others_kept (ds ds' : list Z) : Prop := forall x, 0 <= x < elems -> x ∉ leaves -> ds' !! Z.to_nat x = ds !! Z.to_nat x.

Lemma combine_round tree h pairs : 2 * elems + 1 <= zlen tree -> combined tree h pairs -> 2 <= h_heap_len h ->
  exists tree' h' p rest, combine_step tree h (elems + zlen pairs) = Ok (tree', h') /\ combined tree' h' (p :: pairs) /\ front h' ≡ₚ (elems + zlen pairs) :: rest
    /\ h_heap_len h' = h_heap_len h - 1 /\ zlen tree' = zlen tree /\ others_kept (dls tree) (dls tree').
Proof.
  intros Hz Hc H2. pose proof (combined_len _ _ _ Hc) as Hlen. pose proof leaves_count as Hcount. pose proof (zlen_nonneg pairs) as Hnn. pose proof Hc as [Hp Hb Hf Hok Hmax]. set (node := elems + zlen pairs) in *.
  destruct (combine_step_spec tree h node Hok H2 ltac:(lia) ltac:(split; unfold node; lia)) as (n & m & rest & tree' & h' & Hs & Hfr & Hfr' & Hb' & Hl' & Hm' & Hok' & Hzt & Hd & _).
  exists tree', h', (m, n), rest. split; [done|].
  pose proof (nodes_nodup (zlen pairs)) as Hnd. rewrite <- Hp, Hfr in Hnd. apply NoDup_app in Hnd as (Hnd & Hdis & _). apply NoDup_cons in Hnd as [Hn Hnd]. apply NoDup_cons in Hnd as [Hm Hnd].
  assert (Hin : forall x, x ∈ front h -> 0 <= x < node /\ (x ∈ leaves \/ elems <= x)).
  { intros x Hx. assert (Hx' : x ∈ nodes (zlen pairs)) by (rewrite <- Hp; apply elem_of_app; by left). apply elem_nodes in Hx' as [Hx'|Hx']; [|unfold node; lia].
    rewrite Forall_forall in Hleaves. specialize (Hleaves _ Hx'). unfold node. split; [lia|by left]. }
  assert (Hnin : n ∈ front h) by (rewrite Hfr; set_solver). assert (Hmin : m ∈ front h) by (rewrite Hfr; set_solver).
  pose proof (Hin n Hnin) as [Hnr Hn2]. pose proof (Hin m Hmin) as [Hmr Hm2].
  assert (Hds : forall x, 0 <= x < zlen tree -> exists l, dls tree !! Z.to_nat x = Some l) by (intros x Hx; apply lookup_lt_is_Some_2; unfold dls, zlen in *; rewrite length_fmap; lia).
  assert (Hmn : m <> n) by (intros ->; apply Hn; left).
  split; [|split; [done|split; [done|split; [done|]]]].
  - split.
    + rewrite zlen_cons. replace (1 + zlen pairs) with (zlen pairs + 1) by lia. rewrite nodes_succ, <- Hp, Hfr, Hfr' by lia. fold node. unfold flat. cbn [mbind list_bind fst snd]. fold (flat pairs). solve_Permutation.
    + rewrite Hb', Hb. done.
    + cbn [fathers fst snd]. fold node. rewrite Hd. split; [|split].
      * split; [|done]. rewrite list_lookup_insert_ne by lia. apply list_lookup_insert_eq. unfold dls. rewrite length_fmap. unfold zlen in Hz. lia.
      * split; [|done]. apply list_lookup_insert_eq. rewrite length_insert. unfold dls. rewrite length_fmap. unfold zlen in Hz. lia.
      * apply fathers_insert; [lia|apply Hdis; left|]. apply fathers_insert; [lia|apply Hdis; right; left|done].
    + done.
    + rewrite zlen_cons. lia.
  - intros x Hx Hxl. rewrite Hd. rewrite !list_lookup_insert_ne; [done| |]; intros E; apply Hxl; assert (Ex : x = m \/ x = n) by lia; (destruct Ex as [-> | ->]; [destruct Hm2; [done|lia]|destruct Hn2; [done|lia]]).
Qed.

Lemma others_kept_trans a b c : others_kept a b -> others_kept b c -> others_kept a c.
Proof. intros H1 H2 x Hx Hl. by rewrite H2, H1. Qed.

(** The loop ends with the last node on top of the heap. *)
Lemma combine_spec fuel : forall tree h pairs, h_heap_len h <= Z.of_nat fuel -> 2 * elems + 1 <= zlen tree -> combined tree h pairs -> 2 <= h_heap_len h ->
  exists tree' h' pairs', combine fuel tree h (elems + zlen pairs) = Ok (tree', h') /\ combined tree' h' pairs' /\ zlen pairs' = zlen leaves - 1
    /\ front h' = [elems + zlen leaves - 2] /\ zlen tree' = zlen tree /\ others_kept (dls tree) (dls tree').
Proof.
  induction fuel as [|fuel IH]; intros tree h pairs Hf Hz Hc H2; [lia|]. destruct (combine_round tree h pairs Hz Hc H2) as (t1 & h1 & p & rest & Hs & Hc1 & Hfr & Hl1 & Hz1 & Ho1).
  cbn [combine]. rewrite Hs. cbn [mbind outcome_bind]. pose proof (combined_len _ _ _ Hc) as Hlen. pose proof (combined_len _ _ _ Hc1) as Hlen1.
  destruct (Z.leb_spec 2 (h_heap_len h1)) as [Hge|Hlt].
  - replace (elems + zlen pairs + 1) with (elems + zlen (p :: pairs)) by (rewrite zlen_cons; lia).
    destruct (IH t1 h1 (p :: pairs) ltac:(lia) ltac:(lia) Hc1 Hge) as (t2 & h2 & pairs' & H1 & Hc2 & Hp & Hf2 & Hz2 & Ho2).
    exists t2, h2, pairs'. split; [exact H1|]. split; [done|]. split; [done|]. split; [done|]. split; [congruence|]. by eapply others_kept_trans.
  - exists t1, h1, (p :: pairs). split; [done|]. split; [done|]. split; [lia|]. split; [|done].
    pose proof (length_front h1) as Hlf. destruct Hc1 as [_ _ _ [? _ [Hzh _]] _]. rewrite Hzh in Hlf. specialize (Hlf ltac:(lia)). rewrite zlen_cons in Hlen1.
    pose proof (Permutation_length Hfr) as Hpl. unfold zlen in Hlf. cbn [length] in Hpl. assert (rest = []) as -> by (destruct rest; [done|cbn in Hpl; lia]).
    apply Permutation_singleton_r in Hfr. rewrite Hfr. f_equal. lia.
Qed.

End tree.

(** ** The first heap *)

(** [n] enters the heap. *)
Lemma heap_push_spec h tree n : heap_ok h tree -> h_heap_len h < 572 -> node_ok tree n ->
  exists h', heap_push h n = Ok h' /\ heap_ok h' tree /\ front h' = front h ++ [n] /\ h_heap_len h' = h_heap_len h + 1 /\ h_heap_max h' = h_heap_max h.
Proof.
  intros Hok Hl [Hn Hn5]. pose proof Hok as [Hl0 Hd [Hz Hnodes]]. unfold heap_push. rewrite elem_set_in by lia. cbn [mbind outcome_bind]. rewrite elem_set_in by lia. cbn [mbind outcome_bind].
  eexists. split; [done|]. set (h' := _ <| h_depth := _ |>). assert (Hf : front h' = front h ++ [n]).
  { unfold front. cbn. replace (Z.to_nat (h_heap_len h + 1)) with (S (Z.to_nat (h_heap_len h))) by lia. destruct (h_heap h) as [|a l] eqn:E; [discriminate Hz|].
    change (<[S (Z.to_nat (h_heap_len h)) := n]> (a :: l)) with (a :: <[Z.to_nat (h_heap_len h) := n]> l). cbn [drop]. rewrite !drop_0. rewrite zlen_cons in Hz. rewrite (take_S_r _ _ n) by (apply list_lookup_insert_eq; unfold zlen in Hz; lia). by rewrite take_insert_ge by lia. }
  split; [|split; [done|split; [done|done]]]. apply heap_ok_front; [cbn; lia|cbn; by rewrite zlen_insert|cbn; by rewrite zlen_insert|]. rewrite Hf. apply Forall_app. split.
  - apply Forall_forall. intros x Hx. by apply (node_front h tree x Hok).
  - by constructor.
Qed.

Lemma heapify_spec tree ks : forall h, heap_ok h tree -> Forall (fun k => 1 <= k <= h_heap_len h) ks -> h_heap_len h < h_heap_max h ->
  exists heap', let h' := h <| h_heap := heap' |> in heapify ks tree h = Ok h' /\ heap_ok h' tree /\ front h' ≡ₚ front h /\ back h' = back h.
Proof.
  induction ks as [|k ks IH]; intros h Hok Hks Hm.
  - exists (h_heap h). assert (E : h <| h_heap := h_heap h |> = h) by (by destruct h). cbv zeta. rewrite E. split; [done|]. done.
  - apply Forall_cons in Hks as [Hk Hks]. destruct (pqdownheap_spec h tree k Hok Hk Hm) as (heap1 & H1 & Hz1 & Hf1 & Hb1 & _). set (h1 := h <| h_heap := heap1 |>) in *.
    assert (Hok1 : heap_ok h1 tree).
    { destruct Hok as [Hl Hd Hn]. apply heap_ok_front; [done|done|done|]. rewrite Hf1. apply Forall_forall. intros x Hx. apply (node_front h tree x); [by split|done]. }
    cbn [heapify]. rewrite H1. cbn [mbind outcome_bind]. destruct (IH h1 Hok1 Hks Hm) as (heap2 & H2 & Hok2 & Hf2 & Hb2). exists heap2. cbv zeta in *.
    split; [exact H2|]. split; [exact Hok2|]. split; [by rewrite <- Hf1|by rewrite <- Hb1].
Qed.
