(* ===== verification/TreesStart.v ===== *)
(** * The leaves of the tree

    [init_heap] puts the elements that occur into the heap and gives the
    others the length 0 ([init_heap_spec]); [force_codes] adds elements until
    there are two ([force_codes_spec]). *)

From S2P Require Import Prelude Inftrees TreesTables TreesHuff TreesHeap TreesCombine.

(** The descriptors: at least three elements, no more than codes of [max_length] bits. *)
Record desc_ok (sd : static_desc) : Prop := {
  sk_elems : 3 <= sd_elems sd <= 286;
  sk_max : 1 <= sd_max_length sd <= 15 /\ sd_elems sd <= 2 ^ sd_max_length sd;
  sk_extra : 0 <= sd_base sd /\ sd_elems sd - sd_base sd <= zlen (sd_extra sd);
  sk_tree : forall t, sd_tree sd = Some t -> sd_elems sd <= zlen t }.

Lemma descs_ok : desc_ok static_l_desc /\ desc_ok static_d_desc /\ desc_ok static_bl_desc.
Proof. split; [|split]; split; cbn; unfold L_CODES, D_CODES, BL_CODES, LITERALS, LENGTH_CODES, MAX_BITS, MAX_BL_BITS; try (vm_compute; split; discriminate); try lia; intros t [= <-]; vm_compute; discriminate. Qed.

Definition fcs (tree : list ct_data) : list Z := fc <$> tree.
Definition freq (tree : list ct_data) (x : Z) : Z := default 0 (fcs tree !! Z.to_nat x).
Definition active (tree : list ct_data) (ns : list Z) : list Z := filter (fun n => freq tree n <> 0) ns.

Lemma heap_ok_len h tree tree' : zlen tree' = zlen tree -> heap_ok h tree -> heap_ok h tree'.
Proof. intros E [Hl Hd [Hz Hn]]. split; [done|done|]. split; [done|]. intros i Hi. destruct (Hn i Hi) as (x & Hx & Ho). exists x. split; [done|]. by apply (node_ok_len tree). Qed.

Lemma freq_lookup tree x e : tree !! Z.to_nat x = Some e -> freq tree x = fc e.
Proof. intros H. unfold freq, fcs. by rewrite list_lookup_fmap, H. Qed.

Lemma init_heap_spec ns : forall tree h mc, heap_ok h tree -> NoDup ns -> Forall (fun n => node_ok tree n) ns -> h_heap_len h + zlen ns <= 572 ->
  exists tree' h', init_heap ns tree h mc = Ok (tree', h', default mc (last (active tree ns))) /\ heap_ok h' tree' /\ front h' = front h ++ active tree ns /\ h_heap_max h' = h_heap_max h
    /\ h_heap_len h' = h_heap_len h + zlen (active tree ns) /\ zlen tree' = zlen tree /\ fcs tree' = fcs tree
    /\ forall x, 0 <= x -> dls tree' !! Z.to_nat x = if decide (x ∈ ns /\ freq tree x = 0) then Some 0 else dls tree !! Z.to_nat x.
Proof.
  induction ns as [|n ns IH]; intros tree h mc Hok Hnd Hns Hl.
  - exists tree, h. split; [done|]. cbn. rewrite app_nil_r, zlen_nil. split_and!; try (done || lia).
  - apply NoDup_cons in Hnd as [Hn Hnd]. apply Forall_cons in Hns as [Hno Hns]. rewrite zlen_cons in Hl. pose proof (zlen_nonneg ns). destruct (node_lookup tree n Hno) as [e He]. pose proof Hno as [Hn0 Hn5].
    cbn [init_heap]. rewrite (elem_at_lookup tree n e) by (done || lia). cbn [mbind outcome_bind]. pose proof (freq_lookup tree n e He) as Ef. unfold active in *. rewrite filter_cons, Ef.
    destruct (Z.eqb_spec (fc e) 0) as [E0|E0]; cbn [negb].
    + rewrite elem_set_in by lia. cbn [mbind outcome_bind]. rewrite decide_False by lia. set (tree1 := <[Z.to_nat n := mkCt (fc e) 0]> tree).
      assert (Hz1 : zlen tree1 = zlen tree) by apply zlen_insert.
      assert (Hf1 : fcs tree1 = fcs tree) by (unfold fcs, tree1; rewrite list_fmap_insert; apply list_insert_id; by rewrite list_lookup_fmap, He).
      assert (Hfr : forall x, freq tree1 x = freq tree x) by (intros x; unfold freq; by rewrite Hf1).
      destruct (IH tree1 h mc (heap_ok_len _ _ _ Hz1 Hok) Hnd) as (tree' & h' & H1 & Hok' & Hfro & Hmx & Hlen & Hz' & Hfc & Hdl); [eapply Forall_impl; [exact Hns|]; intros x Hx; by apply (node_ok_len tree)|lia|].
      assert (Eact : filter (fun n => freq tree1 n <> 0) ns = filter (fun n => freq tree n <> 0) ns) by (apply list_filter_iff; intros x; by rewrite Hfr). rewrite Eact in *.
      exists tree', h'. split; [exact H1|]. split; [done|]. split; [done|]. split; [done|]. split; [done|]. split; [congruence|]. split; [congruence|]. intros x Hx. rewrite Hdl, Hfr by done.
      unfold tree1. rewrite dls_insert. destruct (decide (x = n)) as [->|Hne].
      * rewrite decide_False by tauto. rewrite decide_True by (split; [left|by rewrite Ef]). apply list_lookup_insert_eq. unfold dls. rewrite length_fmap. by apply lookup_lt_Some in He.
      * rewrite list_lookup_insert_ne by lia. apply decide_ext. rewrite elem_of_cons. tauto.
    + destruct (heap_push_spec h tree n Hok ltac:(lia) Hno) as (h1 & H1 & Hok1 & Hf1 & Hl1 & Hm1). rewrite H1. cbn [mbind outcome_bind]. rewrite decide_True by done.
      destruct (IH tree h1 n Hok1 Hnd Hns ltac:(lia)) as (tree' & h' & H2 & Hok' & Hfro & Hmx & Hlen & Hz' & Hfc & Hdl). exists tree', h'. split; [|split; [done|split; [|split; [congruence|split; [|split; [done|split; [done|]]]]]]].
      * rewrite H2. destruct (filter (fun n => freq tree n <> 0) ns) as [|y l] eqn:E; [done|]. rewrite last_cons_cons. destruct (last (y :: l)) eqn:El; [done|]. by apply last_None in El.
      * rewrite Hfro, Hf1, <- app_assoc. done.
      * rewrite zlen_cons. lia.
      * intros x Hx. rewrite Hdl by done. destruct (decide (x = n)) as [->|Hne]; [rewrite !decide_False by (rewrite ?elem_of_cons; intuition congruence); done|]. apply decide_ext. rewrite elem_of_cons. tauto.
Qed.

(** ** Two codes at least *)

(** [max_code] is the largest of the leaves. *)
Record leaf_set (leaves : list Z) (max_code : Z) : Prop := {
  ls_nodup : NoDup leaves;
  ls_range : Forall (fun x => 0 <= x <= max_code) leaves;
  ls_last : if decide (leaves = []) then max_code = -1 else max_code ∈ leaves }.

(** The trees of [force_codes] differ in the frequencies of the new leaves only. *)
Lemma force_codes_spec sd fuel : desc_ok sd -> forall tree h mc leaves, heap_ok h tree -> front h = leaves -> leaf_set leaves mc -> mc < sd_elems sd -> sd_elems sd <= zlen tree ->
  Z.max 0 (2 - h_heap_len h) < Z.of_nat fuel -> h_heap_len h <= 286 ->
  exists tree' h' mc' leaves', force_codes fuel sd tree h mc = Ok (tree', h', mc') /\ heap_ok h' tree' /\ front h' = leaves' /\ leaf_set leaves' mc' /\ mc' < sd_elems sd /\ 2 <= h_heap_len h' <= 286
    /\ leaves ⊆ leaves' /\ h_heap_max h' = h_heap_max h /\ zlen tree' = zlen tree /\ dls tree' = dls tree /\ mc <= mc'.
Proof.
  intros [Hel _ _ Hst]. induction fuel as [|fuel IH]; intros tree h mc leaves Hok Hf Hls Hmc Hz Hfuel H286; [lia|]. cbn [force_codes]. destruct (Z.ltb_spec (h_heap_len h) 2) as [Hlt|Hge].
  2:{ exists tree, h, mc, leaves. split; [done|]. split; [done|]. split; [done|]. split; [done|]. split; [done|]. split; [lia|]. split; [done|]. done. }
  pose proof Hok as [Hl Hd [Hzh Hn]]. pose proof (length_front h ltac:(lia)) as Hlf. rewrite Hf in Hlf. pose proof Hls as [Hnd Hr Hlast].
  assert (Hnode : exists node mc', (if mc <? 2 then (mc + 1, mc + 1) else (0, mc)) = (node, mc') /\ 0 <= node <= 2 /\ mc <= mc' /\ mc' < sd_elems sd /\ leaf_set (leaves ++ [node]) mc').
  { destruct (Z.ltb_spec mc 2) as [H2|H2].
    - exists (mc + 1), (mc + 1). assert (Hm1 : -1 <= mc) by (destruct (decide (leaves = [])); [lia|]; rewrite Forall_forall in Hr; specialize (Hr _ Hlast); lia).
      split; [done|]. split; [lia|]. split; [lia|]. split; [lia|]. split.
      + apply NoDup_app. split; [done|]. split; [|apply NoDup_singleton]. intros x Hx Hx'. apply list_elem_of_singleton in Hx'. rewrite Forall_forall in Hr. specialize (Hr _ Hx). lia.
      + apply Forall_app. split; [eapply Forall_impl; [exact Hr|]; intros x Hx; cbv beta in *; lia|]. constructor; [lia|done].
      + rewrite decide_False by (destruct leaves; done). apply elem_of_app. right. by apply list_elem_of_singleton.
    - exists 0, mc. split; [done|]. split; [lia|]. split; [lia|]. split; [done|]. destruct (decide (leaves = [])) as [->|Hne]; [lia|]. destruct leaves as [|a [|b l]]; [done| |unfold zlen in Hlf; cbn in Hlf; lia].
      apply list_elem_of_singleton in Hlast as ->. split.
      + apply NoDup_cons. split; [intros Hx; apply list_elem_of_singleton in Hx; lia|apply NoDup_singleton].
      + repeat constructor; lia.
      + cbn. left. }
  destruct Hnode as (node & mc' & -> & Hnr & Hmc1 & Hmc2 & Hls'). cbv beta iota. assert (Hno : node_ok tree node) by (split; lia).
  destruct (heap_push_spec h tree node Hok ltac:(lia) Hno) as (h1 & H1 & Hok1 & Hf1 & Hl1 & Hm1). rewrite H1. cbn [mbind outcome_bind]. destruct (node_lookup tree node Hno) as [e He].
  rewrite (elem_at_lookup tree node e) by (done || lia). cbn [mbind outcome_bind]. rewrite elem_set_in by lia. cbn [mbind outcome_bind]. set (tree1 := <[Z.to_nat node := mkCt 1 (dl e)]> tree).
  assert (Hz1 : zlen tree1 = zlen tree) by apply zlen_insert. assert (Hdl1 : dls tree1 = dls tree) by (by apply dls_keep).
  set (h2 := h1 <| h_opt_len := u32 (h_opt_len h1 - 1) |>).
  assert (Hcont : forall h3, h_heap h3 = h_heap h1 -> h_heap_len h3 = h_heap_len h1 -> h_heap_max h3 = h_heap_max h1 -> h_depth h3 = h_depth h1 ->
    exists tree' h' mc'' leaves', force_codes fuel sd tree1 h3 mc' = Ok (tree', h', mc'') /\ heap_ok h' tree' /\ front h' = leaves' /\ leaf_set leaves' mc'' /\ mc'' < sd_elems sd /\ 2 <= h_heap_len h' <= 286
      /\ leaves ⊆ leaves' /\ h_heap_max h' = h_heap_max h /\ zlen tree' = zlen tree /\ dls tree' = dls tree /\ mc <= mc'').
  { intros h3 E1 E2 E3 E4. destruct (IH tree1 h3 mc' (leaves ++ [node])) as (tree' & h' & mc'' & leaves' & Hr' & Hok' & Hf' & Hl' & Hmm & Hlen & Hsub & Hx & Hzz & Hdd & Hle); try (done || lia).
    - destruct Hok1 as [? ? [? Hn1]]. split; [by rewrite E2|by rewrite E4|]. split; [by rewrite E1|]. intros i Hi. rewrite E2 in Hi. destruct (Hn1 i Hi) as (x & Hx & Ho). exists x. rewrite E1. split; [done|]. by apply (node_ok_len tree).
    - unfold front. rewrite E1, E2. fold (front h1). by rewrite Hf1, Hf.
    - exists tree', h', mc'', leaves'. split; [exact Hr'|]. split; [done|]. split; [done|]. split; [done|]. split; [done|]. split; [done|]. split; [intros x Hx'; apply Hsub, elem_of_app; by left|].
      split; [congruence|]. split; [congruence|]. split; [congruence|lia]. }
  destruct (sd_tree sd) as [st|] eqn:Est; [|by apply Hcont]. specialize (Hst st eq_refl). destruct (lookup_lt_is_Some_2 st (Z.to_nat node)) as [x Hx]; [unfold zlen in Hst; lia|].
  rewrite (elem_at_lookup st node x) by (done || lia). cbn [mbind outcome_bind]. by apply Hcont.
Qed.

(** The leaves [init_heap] finds. *)
Lemma active_leaves tree n : 0 <= n -> leaf_set (active tree (seqZ 0 n)) (default (-1) (last (active tree (seqZ 0 n)))) /\ (forall x, 0 <= x < n -> freq tree x <> 0 -> x ∈ active tree (seqZ 0 n)).
Proof.
  intros Hn. split; [|intros x Hx Hf; apply list_elem_of_filter; split; [done|apply elem_of_seqZ; lia]].
  assert (Hs : StronglySorted Z.lt (active tree (seqZ 0 n))).
  { assert (H : forall l, StronglySorted Z.lt l -> StronglySorted Z.lt (active tree l)).
    { intros l. induction 1 as [|x l Hl IH Hx]; [constructor|]. unfold active in *. rewrite filter_cons. destruct (decide _); [|done]. constructor; [done|]. apply Forall_forall. intros y Hy. apply list_elem_of_filter in Hy as [_ Hy]. rewrite Forall_forall in Hx. by apply Hx. }
    apply H. pattern n. apply natlike_ind; [constructor| |done]. clear. intros k Hk IH. replace (Z.succ k) with (k + 1) by lia. rewrite seqZ_app by lia. change (seqZ (0 + k) 1) with [0 + k]. apply StronglySorted_snoc; split; [done|]. apply Forall_forall. intros x Hx. apply elem_of_seqZ in Hx. lia. }
  assert (Hpos : Forall (fun x => 0 <= x) (active tree (seqZ 0 n))) by (apply Forall_forall; intros x Hx; apply list_elem_of_filter in Hx as [_ Hx]; apply elem_of_seqZ in Hx; lia).
  generalize dependent (active tree (seqZ 0 n)). intros l Hs Hpos. split.
  - clear Hpos. induction Hs as [|x l Hl IH Hx]; [constructor|]. constructor; [|done]. intros Hin. rewrite Forall_forall in Hx. specialize (Hx _ Hin). lia.
  - destruct (last l) as [m|] eqn:E; [|apply last_None in E as ->; constructor]. simpl. rewrite last_lookup in E. apply Forall_lookup. intros i x Hi. rewrite Forall_lookup in Hpos. split; [by eapply Hpos|].
    pose proof (lookup_lt_Some _ _ _ Hi). destruct (decide (i = pred (length l))) as [->|Hne]; [assert (x = m) by congruence; lia|].
    assert (Hlt : x < m); [|lia]. clear Hpos. revert i Hi Hne E H. induction Hs as [|y l Hl IH Hy]; intros i Hi Hne E H; [done|]. destruct i as [|i].
    + injection Hi as ->. rewrite Forall_lookup in Hy. destruct l as [|z l]; [cbn in Hne; lia|]. apply (Hy (pred (length (z :: l)))). exact E.
    + destruct l as [|z l]; [done|]. apply (IH i); [done|cbn in *; lia|exact E|cbn in *; lia].
  - destruct (decide (l = [])) as [->|Hne]; [done|]. destruct (last l) eqn:E; [by apply last_Some_elem_of in E|by apply last_None in E].
Qed.
