(* ===== verification/TreesLens.v ===== *)
(** * The code lengths (3rd/zip/trees.c, gen_bitlen)

    The first pass gives every element one more than its father, up to the
    limit; [overflow] is twice what the codes exceed the words there are
    ([first_lens_spec]). *)

From S2P Require Import Prelude Inftrees BitRev Canon TreesTables TreesHuff TreesHeap TreesCombine TreesStart.

Lemma ksum_perm m l l' : l ≡ₚ l' -> ksum m l = ksum m l'.
Proof. induction 1; rewrite ?ksum_cons; lia. Qed.

Lemma occ_perm b l l' : l ≡ₚ l' -> occ b l = occ b l'.
Proof. induction 1; rewrite ?occ_cons; lia. Qed.

Lemma occ_range b l : 0 <= occ b l <= zlen l.
Proof. unfold occ, zlen. pose proof (length_filter (fun x => x = b) l). lia. Qed.

(** ** Counters *)

(** [bl_count] holds how often each length occurs. *)
Definition counts (bl : list Z) (ls : list Z) : Prop := length bl = 16%nat /\ forall b, 0 <= b <= 15 -> bl !! Z.to_nat b = Some (occ b ls).

Lemma counts_perm bl ls ls' : ls ≡ₚ ls' -> counts bl ls -> counts bl ls'.
Proof. intros Hp [Hl Hc]. split; [done|]. intros b Hb. by rewrite <- (occ_perm b ls ls' Hp), Hc. Qed.

Lemma add_count_spec h bits k c : h_bl_count h !! Z.to_nat bits = Some c -> 0 <= bits -> 0 <= c + k < 65536 ->
  add_count h bits k = Ok (h <| h_bl_count := <[Z.to_nat bits := c + k]> (h_bl_count h) |>).
Proof.
  intros Hc Hb Hk. unfold add_count. rewrite (elem_at_lookup _ bits c) by done. cbn [mbind outcome_bind].
  rewrite elem_set_in by (pose proof (lookup_lt_Some _ _ _ Hc); unfold zlen; lia). by rewrite u16_small by (unfold is_u16; done).
Qed.

Lemma counts_cons bl ls b : counts bl ls -> 0 <= b <= 15 -> counts (<[Z.to_nat b := occ b ls + 1]> bl) (b :: ls).
Proof.
  intros [Hl Hc] Hb. split; [by rewrite length_insert|]. intros j Hj. rewrite occ_cons. destruct (decide (b = j)) as [<-|Hne].
  - rewrite list_lookup_insert_eq by lia. f_equal; lia.
  - rewrite list_lookup_insert_ne by lia. rewrite Hc by done. f_equal; lia.
Qed.

(** ** The first pass *)

Definition lenat (ds : list Z) (x : Z) : Z := default 0 (ds !! Z.to_nat x).

Lemma lenat_insert (ds : list Z) x v y : 0 <= x -> 0 <= y -> x < zlen ds -> lenat (<[Z.to_nat x := v]> ds) y = if decide (y = x) then v else lenat ds y.
Proof.
  intros Hx Hy Hl. unfold lenat. destruct (decide (y = x)) as [->|Hne]; [by rewrite list_lookup_insert_eq by (unfold zlen in Hl; lia)|]. by rewrite list_lookup_insert_ne by lia.
Qed.

Section pass.
Context (sd : static_desc) (mc : Z) (leaves : list Z).
Context (Hsd : desc_ok sd) (Hmc : mc < sd_elems sd) (Hleaves : Forall (fun x => 0 <= x <= mc) leaves) (Hdup : NoDup leaves) (Htwo : 2 <= zlen leaves).
#[local] Set Default Proof Using "All".

Abbreviation max_length := (sd_max_length sd).
Abbreviation elems := (sd_elems sd).

Lemma count_leaf_spec h n bits f : 0 <= n <= mc -> exists h', count_leaf sd h n bits f = Ok h' /\ h_heap h' = h_heap h /\ h_bl_count h' = h_bl_count h.
Proof.
  intros Hn. destruct Hsd as [_ _ [Hb He] Ht]. unfold count_leaf.
  assert (Hx : exists x, (if sd_base sd <=? n then elem_at (sd_extra sd) (n - sd_base sd) else Ok 0) = Ok x).
  { destruct (Z.leb_spec (sd_base sd) n); [|by eexists]. destruct (lookup_lt_is_Some_2 (sd_extra sd) (Z.to_nat (n - sd_base sd))) as [x Hx]; [unfold zlen in He; lia|]. exists x. apply elem_at_lookup; [lia|done]. }
  destruct Hx as [x ->]. cbn [mbind outcome_bind]. destruct (sd_tree sd) as [t|] eqn:E; [|by eexists]. specialize (Ht t eq_refl).
  destruct (lookup_lt_is_Some_2 t (Z.to_nat n)) as [y Hy]; [unfold zlen in Ht; lia|]. rewrite (elem_at_lookup t n y) by (done || lia). cbn [mbind outcome_bind]. by eexists.
Qed.

(** One element of the array. *)
Lemma first_node i hs tree h ov n d ld ls : 0 <= i -> h_heap h !! Z.to_nat i = Some n -> 0 <= n < zlen tree -> dls tree !! Z.to_nat n = Some d -> 0 <= d -> dls tree !! Z.to_nat d = Some ld ->
  0 <= ld <= max_length -> counts (h_bl_count h) ls -> zlen ls <= 1000 -> let b := Z.min (ld + 1) max_length in
  exists tree' h', first_lens sd mc (i :: hs) tree h ov = first_lens sd mc hs tree' h' (ov + if ld =? max_length then 1 else 0) /\ zlen tree' = zlen tree
    /\ dls tree' = <[Z.to_nat n := b]> (dls tree) /\ h_heap h' = h_heap h /\ counts (h_bl_count h') (if decide (n <= mc) then b :: ls else ls).
Proof.
  intros Hi Hn Hnr Hd Hd0 Hld Hldr Hcounts Hls b. destruct Hsd as [_ [Hmax _] _ _]. unfold dls in Hd, Hld. rewrite list_lookup_fmap in Hd, Hld.
  destruct (tree !! Z.to_nat n) as [e|] eqn:He; [|done]. injection Hd as Hd. destruct (tree !! Z.to_nat d) as [ed|] eqn:Hed; [|done]. injection Hld as Hld.
  cbn [first_lens]. rewrite (elem_at_lookup _ i n) by done. cbn [mbind outcome_bind]. rewrite (elem_at_lookup tree n e) by (done || lia). cbn [mbind outcome_bind]. rewrite Hd, (elem_at_lookup tree d ed) by done. cbn [mbind outcome_bind]. rewrite Hld.
  assert (Hb : (if max_length <? ld + 1 then (max_length, ov + 1) else (ld + 1, ov)) = (b, ov + (if ld =? max_length then 1 else 0))).
  { unfold b. destruct (Z.ltb_spec max_length (ld + 1)), (Z.eqb_spec ld max_length); try lia; f_equal; lia. }
  rewrite Hb. assert (Hbr : 1 <= b <= 15) by (unfold b; lia). rewrite u16_small by (unfold is_u16; change (2 ^ 16) with 65536; lia). rewrite elem_set_in by lia. cbn [mbind outcome_bind].
  set (tree' := <[Z.to_nat n := mkCt (fc e) b]> tree). assert (Hdl : dls tree' = <[Z.to_nat n := b]> (dls tree)) by apply dls_insert. assert (Hz' : zlen tree' = zlen tree) by apply zlen_insert.
  destruct (Z.ltb_spec mc n) as [Hgt|Hle].
  - exists tree', h. rewrite decide_False by lia. done.
  - rewrite decide_True by lia. pose proof Hcounts as [_ Hc]. pose proof (occ_range b ls).
    rewrite (add_count_spec h b 1 (occ b ls)) by (first [lia | apply Hc; lia]). cbn [mbind outcome_bind]. set (h1 := h <| h_bl_count := _ |>).
    destruct (count_leaf_spec h1 n b (fc e) ltac:(lia)) as (h' & -> & Hh & Hbl). cbn [mbind outcome_bind]. exists tree', h'. split; [done|]. split; [done|]. split; [done|]. split; [by rewrite Hh|]. rewrite Hbl. apply counts_cons; [done|lia].
Qed.

(** The lengths of the nodes [open] whose sons are still to come. *)
Record pass_inv (ds bl : list Z) (open : list Z) (ov : Z) : Prop := {
  pi_lens : forall x, x ∈ open -> 0 <= x /\ exists l, ds !! Z.to_nat x = Some l /\ 0 <= l <= max_length /\ (x <= mc -> 1 <= l);
  pi_sum : 2 * ksum max_length (lenat ds <$> open) = 2 * 2 ^ max_length + ov;
  pi_occ : 0 <= ov <= 2 * occ max_length (lenat ds <$> open);
  pi_counts : counts bl (lenat ds <$> filter (fun x => x <= mc) open) }.

Lemma pass_perm ds bl open open' ov : open ≡ₚ open' -> pass_inv ds bl open ov -> pass_inv ds bl open' ov.
Proof.
  intros Hp [H1 H2 H3 H4]. split.
  - intros x Hx. apply H1. by rewrite Hp.
  - rewrite <- (ksum_perm _ (lenat ds <$> open)); [done|by rewrite Hp].
  - rewrite <- (occ_perm _ (lenat ds <$> open)); [done|by rewrite Hp].
  - eapply counts_perm; [|exact H4]. by rewrite Hp.
Qed.

Lemma lenat_others ds m v l : 0 <= m < zlen ds -> m ∉ l -> Forall (fun x => 0 <= x) l -> lenat (<[Z.to_nat m := v]> ds) <$> l = lenat ds <$> l.
Proof.
  intros Hm Hn Hl. apply list_fmap_ext. intros i x Hx. apply list_elem_of_lookup_2 in Hx. rewrite Forall_forall in Hl. specialize (Hl _ Hx). rewrite lenat_insert by lia. rewrite decide_False; [done|congruence].
Qed.

(** The father [d] is replaced by its two sons. *)
Lemma pass_step ds bl bl' d o m n ov : pass_inv ds bl (d :: o) ov -> mc < d -> NoDup (m :: n :: o) -> 0 <= m < zlen ds -> 0 <= n < zlen ds ->
  let ld := lenat ds d in let b := Z.min (ld + 1) max_length in
  let add x ls := if decide (x <= mc) then b :: ls else ls in
  counts bl' (add n (add m (lenat ds <$> filter (fun x => x <= mc) o))) ->
  pass_inv (<[Z.to_nat n := b]> (<[Z.to_nat m := b]> ds)) bl' (m :: n :: o) (ov + 2 * (if ld =? max_length then 1 else 0)).
Proof.
  intros [H1 H2 H3 H4] Hd Hnd Hm Hn ld b add Hc. destruct Hsd as [_ [Hmax _] _ _]. apply NoDup_cons in Hnd as [Hm' Hnd]. apply NoDup_cons in Hnd as [Hn' _]. apply not_elem_of_cons in Hm' as [Hmn Hm'].
  destruct (H1 d ltac:(left)) as (Hd0 & l & Hl & Hlr & _). assert (El : ld = l) by (unfold ld, lenat; by rewrite Hl).
  assert (Ho : Forall (fun x => 0 <= x) o) by (apply Forall_forall; intros x Hx; by destruct (H1 x ltac:(by right)) as (? & _)).
  set (ds' := <[Z.to_nat n := b]> (<[Z.to_nat m := b]> ds)).
  assert (Ez : zlen (<[Z.to_nat m := b]> ds) = zlen ds) by apply zlen_insert.
  assert (Em : lenat ds' m = b) by (unfold ds'; rewrite !lenat_insert by lia; rewrite decide_False, decide_True by done; done).
  assert (En : lenat ds' n = b) by (unfold ds'; rewrite lenat_insert by lia; by rewrite decide_True).
  assert (Eo : lenat ds' <$> o = lenat ds <$> o) by (unfold ds'; rewrite !lenat_others by (done || lia); done).
  rewrite fmap_cons, ksum_cons in H2. rewrite fmap_cons, occ_cons in H3. fold ld in H2, H3.
  assert (Hb : 1 <= b <= max_length) by (unfold b; lia). pose proof (occ_range max_length (lenat ds <$> o)).
  split.
  - intros x Hx. apply elem_of_cons in Hx as [->|Hx]; [|apply elem_of_cons in Hx as [->|Hx]].
    + split; [lia|]. exists b. unfold ds'. rewrite list_lookup_insert_ne by lia. split; [apply list_lookup_insert_eq; unfold zlen in Hm; lia|lia].
    + split; [lia|]. exists b. split; [apply list_lookup_insert_eq; rewrite length_insert; unfold zlen in Hn; lia|lia].
    + destruct (H1 x ltac:(by right)) as (Hx0 & lx & Hlx & Hr & Hp). split; [done|]. exists lx. unfold ds'. rewrite !list_lookup_insert_ne; [done| |]; intros E; [apply Hm'|apply Hn']; [assert (m = x) as -> by lia|assert (n = x) as -> by lia]; done.
  - rewrite !fmap_cons, !ksum_cons, Em, En, Eo. destruct (Z.eqb_spec ld max_length) as [E|E].
    + assert (b = max_length) as -> by (unfold b; lia). rewrite E, Z.sub_diag in *. change (2 ^ 0) with 1 in *. lia.
    + assert (b = ld + 1) as -> by (unfold b; lia). replace (max_length - ld) with ((max_length - (ld + 1)) + 1) in H2 by lia. rewrite Z.pow_add_r in H2 by lia. change (2 ^ 1) with 2 in H2. lia.
  - rewrite !fmap_cons, !occ_cons, Em, En, Eo. destruct (Z.eqb_spec ld max_length) as [E|E].
    + assert (b = max_length) as -> by (unfold b; lia). rewrite decide_True in H3 by done. rewrite !decide_True by done. lia.
    + rewrite decide_False in H3 by done. destruct (decide (b = max_length)); lia.
  - eapply counts_perm; [|exact Hc]. unfold add. assert (Ef : lenat ds' <$> filter (fun x => x <= mc) o = lenat ds <$> filter (fun x => x <= mc) o).
    { unfold ds'. assert (Hf : Forall (fun x => 0 <= x) (filter (fun x => x <= mc) o)) by (apply Forall_forall; intros x Hx; apply list_elem_of_filter in Hx as [_ Hx]; rewrite Forall_forall in Ho; by apply Ho).
      rewrite !lenat_others; try (done || lia); intros Hx; apply list_elem_of_filter in Hx as [_ Hx]; done. }
    rewrite !filter_cons. destruct (decide (n <= mc)), (decide (m <= mc)); rewrite ?fmap_cons, ?Em, ?En, Ef; solve_Permutation || done.
Qed.

Abbreviation nodes := (nodes elems leaves).

Lemma leaves_below : Forall (fun x => 0 <= x < elems) leaves.
Proof. eapply Forall_impl; [exact Hleaves|]. intros x Hx. cbv beta in *. lia. Qed.

Lemma filter_leaves : filter (fun x => x <= mc) leaves = leaves.
Proof. apply list_filter_all. eapply Forall_impl; [exact Hleaves|]. intros x Hx. cbv beta in *. lia. Qed.

Lemma first_lens_spec pairs : forall tree h i open ov, drop (Z.to_nat i) (h_heap h) = flat pairs -> 0 <= i -> i + 2 * zlen pairs = 573 -> open ++ flat pairs ≡ₚ nodes (zlen pairs) ->
  fathers (dls tree) elems pairs -> pass_inv (dls tree) (h_bl_count h) open ov -> 2 * elems <= zlen tree -> zlen pairs < elems ->
  exists tree' h' ov', first_lens sd mc (seqZ i (573 - i)) tree h ov = Ok (tree', h', ov') /\ pass_inv (dls tree') (h_bl_count h') leaves ov' /\ zlen tree' = zlen tree /\ h_heap h' = h_heap h
    /\ others_kept elems leaves (dls tree) (dls tree').
Proof.
  pose proof leaves_below as Hbelow. destruct Hsd as [Hel [Hmax _] _ _]. assert (Hel' : 1 <= elems <= 286) by lia.
  pose proof (nodes_nodup elems leaves Hel' Hbelow Hdup) as HND. pose proof (nodes_succ elems leaves Hel' Hbelow Hdup) as HSU.
  pose proof (elem_nodes elems leaves Hel' Hbelow Hdup) as HEL. pose proof (others_kept_trans elems leaves Hel' Hbelow Hdup) as HOT. induction pairs as [|[m n] rest IH]; intros tree h i open ov Hdrop Hi Hiz Hperm Hfa Hinv Hz Hlen.
  - rewrite zlen_nil in *. assert (i = 573) as -> by lia. exists tree, h, ov. split; [done|]. unfold flat, nodes in Hperm. cbn in Hperm. rewrite app_nil_r in Hperm. change (seqZ elems 0) with (@nil Z) in Hperm. rewrite app_nil_r in Hperm.
    split; [by apply (pass_perm _ _ open)|]. done.
  - rewrite zlen_cons in *. pose proof (zlen_nonneg rest) as Hnn. unfold flat in Hdrop, Hperm. cbn [mbind list_bind fst snd app] in Hdrop, Hperm. fold (flat rest) in Hdrop, Hperm.
    destruct Hfa as ((Hdm & Hmr) & (Hdn & Hnr) & Hfa). cbn [fst snd] in *. set (d := elems + zlen rest) in *.
    replace (1 + zlen rest) with (zlen rest + 1) in Hperm by lia. rewrite HSU in Hperm by lia. fold d in Hperm.
    assert (Hnd : NoDup (nodes (zlen rest) ++ [d])) by (unfold d; rewrite <- HSU by lia; apply HND).
    assert (Hnd' : NoDup (open ++ m :: n :: flat rest)) by (by rewrite Hperm).
    assert (Hdin : d ∈ open).
    { assert (H : d ∈ open ++ m :: n :: flat rest) by (rewrite Hperm; apply elem_of_app; right; left). apply elem_of_app in H as [H|H]; [done|]. apply elem_of_cons in H as [H|H]; [lia|]. apply elem_of_cons in H as [H|H]; [lia|].
      pose proof (fathers_below _ _ _ _ Hfa H). unfold d in *. lia. }
    apply elem_of_Permutation in Hdin as [o Ho]. rewrite Ho in Hperm, Hnd'. apply (pass_perm _ _ _ (d :: o)) in Hinv; [|done].
    assert (Hperm' : (m :: n :: o) ++ flat rest ≡ₚ nodes (zlen rest)).
    { apply (Permutation_app_inv_r [d]). rewrite <- Hperm. solve_Permutation. }
    assert (Hmn : NoDup (m :: n :: o)) by (apply (NoDup_app (m :: n :: o) (flat rest)); rewrite Hperm'; apply HND).
    assert (Hnrest : (m ∉ flat rest) /\ (n ∉ flat rest)).
    { assert (H : NoDup ((m :: n :: o) ++ flat rest)) by (rewrite Hperm'; apply HND). apply NoDup_app in H as (_ & H & _). split; apply H; set_solver. }
    destruct Hnrest as [Hmrest Hnrest]. pose proof (pi_lens _ _ _ _ Hinv d ltac:(left)) as (Hd0 & ld & Hld & Hldr & _). assert (El : lenat (dls tree) d = ld) by (unfold lenat; by rewrite Hld).
    pose proof (pi_counts _ _ _ _ Hinv) as Hcounts. rewrite filter_cons_False in Hcounts by (unfold d; lia).
    assert (Hsize : zlen (lenat (dls tree) <$> filter (fun x => x <= mc) o) <= 900).
    { unfold zlen. rewrite length_fmap. pose proof (length_filter (fun x => x <= mc) o). apply Permutation_length in Hperm'. unfold nodes in Hperm'. rewrite !length_app, length_seqZ in Hperm'. cbn [length] in Hperm'.
      pose proof (leaves_count elems leaves Hel' Hbelow Hdup) as Hcl. unfold zlen in *. lia. }
    assert (Hhm : h_heap h !! Z.to_nat i = Some m) by (rewrite <- (Nat.add_0_r (Z.to_nat i)), <- lookup_drop, Hdrop; done).
    assert (Hhn : h_heap h !! Z.to_nat (i + 1) = Some n) by (replace (Z.to_nat (i + 1)) with (Z.to_nat i + 1)%nat by lia; rewrite <- lookup_drop, Hdrop; done).
    set (b := Z.min (ld + 1) max_length). set (c := if ld =? max_length then 1 else 0).
    destruct (first_node i (seqZ (i + 1) (573 - i - 1)) tree h ov m d ld _ Hi Hhm ltac:(lia) Hdm Hd0 Hld Hldr Hcounts ltac:(lia)) as (tree1 & h1 & H1 & Hz1 & Hd1 & Hh1 & Hc1). fold b c in H1, Hd1, Hc1.
    assert (Hneq : m <> n) by (intros ->; apply NoDup_cons in Hmn as [Hmn _]; apply Hmn; left).
    assert (Hsize1 : zlen (if decide (m <= mc) then b :: (lenat (dls tree) <$> filter (fun x => x <= mc) o) else lenat (dls tree) <$> filter (fun x => x <= mc) o) <= 1000) by (destruct (decide (m <= mc)); rewrite ?zlen_cons; lia).
    destruct (first_node (i + 1) (seqZ (i + 2) (573 - (i + 2))) tree1 h1 (ov + c) n d ld _ ltac:(lia) ltac:(by rewrite Hh1) ltac:(lia)
      ltac:(rewrite Hd1, list_lookup_insert_ne by lia; exact Hdn) Hd0 ltac:(rewrite Hd1, list_lookup_insert_ne by lia; exact Hld) Hldr Hc1 Hsize1) as (tree2 & h2 & H2 & Hz2 & Hd2 & Hh2 & Hc2). fold b c in H2, Hd2, Hc2.
    rewrite Hd1 in Hd2. assert (Hzd : zlen (dls tree) = zlen tree) by apply zlen_dls.
    assert (Hinv2 : pass_inv (dls tree2) (h_bl_count h2) (m :: n :: o) (ov + c + c)).
    { rewrite Hd2. replace (ov + c + c) with (ov + 2 * c) by lia. unfold b, c. rewrite <- El. apply (pass_step (dls tree) (h_bl_count h) (h_bl_count h2) d o m n ov Hinv); [unfold d; lia|done|lia|lia|]. rewrite El. exact Hc2. }
    destruct (IH tree2 h2 (i + 2) (m :: n :: o) (ov + c + c)) as (tree3 & h3 & ov3 & H3 & Hinv3 & Hz3 & Hh3 & Ho3); try done.
    + rewrite Hh2, Hh1. replace (Z.to_nat (i + 2)) with (Z.to_nat i + 2)%nat by lia. rewrite <- drop_drop, Hdrop. done.
    + lia.
    + lia.
    + rewrite Hd2. apply fathers_insert; [lia|done|]. by apply fathers_insert; [lia| |].
    + lia.
    + lia.
    + exists tree3, h3, ov3. split; [|split; [done|split; [congruence|split; [congruence|]]]].
      * rewrite (seqZ_cons i) by lia. replace (Z.succ i) with (i + 1) by lia. replace (Z.pred (573 - i)) with (573 - i - 1) by lia. rewrite H1.
        rewrite (seqZ_cons (i + 1)) by lia. replace (Z.succ (i + 1)) with (i + 2) by lia. replace (Z.pred (573 - i - 1)) with (573 - (i + 2)) by lia. rewrite H2. exact H3.
      * eapply HOT; [|exact Ho3]. intros x Hx Hxl. rewrite Hd2. assert (Hleaf : forall y, y ∈ m :: n :: flat rest ++ o -> y < elems -> y ∈ leaves).
        { intros y Hy Hyl. assert (Hy' : y ∈ nodes (zlen rest)) by (rewrite <- Hperm'; set_solver). apply HEL in Hy' as [?|?]; [done|lia]. }
        rewrite !list_lookup_insert_ne; [done| |]; intros E; apply Hxl; apply Hleaf; try lia; assert (Ex : x = m \/ x = n) by lia; set_solver.
Qed.
End pass.
