(* ===== verification/TreesLimit.v ===== *)
(** * The limit on the code lengths

    When codes were cut to [max_length], leaves are moved down until the
    lengths make a complete code again ([fix_overflow_spec]); the second pass
    hands the lengths out in the order of the frequencies ([second_lens_spec]). *)

From S2P Require Import Prelude Inftrees BitRev Canon TreesTables TreesHuff TreesHeap TreesCombine TreesStart TreesLens.

(** ** The counts *)

Lemma find_bits_spec bl ls fuel : counts bl ls -> forall bits b0, b0 ∈ ls -> 1 <= b0 <= bits -> bits <= 15 -> bits - b0 < Z.of_nat fuel ->
  exists b, find_bits fuel bl bits = Ok b /\ 1 <= b <= bits /\ b ∈ ls.
Proof.
  intros [_ Hc]. induction fuel as [|fuel IH]; intros bits b0 Hb0 Hr H15 Hf; [lia|]. cbn [find_bits]. rewrite (elem_at_lookup bl bits _ ltac:(lia) (Hc bits ltac:(lia))). cbn [mbind outcome_bind].
  destruct (Z.eqb_spec (occ bits ls) 0) as [E|E].
  - assert (b0 <> bits) by (intros ->; apply occ_pos in Hb0; lia). destruct (IH (bits - 1) b0 Hb0 ltac:(lia) ltac:(lia) ltac:(lia)) as (b & Hfb & Hbr & Hb). exists b. split; [done|]. split; [lia|done].
  - exists bits. split; [done|]. split; [lia|]. apply occ_pos. pose proof (occ_range bits ls). lia.
Qed.

(** Removing and adding lengths. *)
Lemma count_remove h ls b : counts (h_bl_count h) (b :: ls) -> 0 <= b <= 15 -> zlen ls <= 1000 -> exists h', add_count h b (-1) = Ok h' /\ counts (h_bl_count h') ls /\ h_heap h' = h_heap h /\ h_opt_len h' = h_opt_len h.
Proof.
  intros [Hl Hc] Hb Hz. pose proof (occ_range b ls). pose proof (Hc b Hb) as Hcb. rewrite occ_cons, decide_True in Hcb by done. rewrite (add_count_spec h b (-1) _ Hcb) by lia. eexists. split; [done|]. split; [|done].
  split; [cbn; by rewrite length_insert|]. intros j Hj. cbn. destruct (decide (b = j)) as [<-|Hne]; [rewrite list_lookup_insert_eq by lia; f_equal; lia|].
  rewrite list_lookup_insert_ne by lia. rewrite Hc, occ_cons, decide_False by done. f_equal; lia.
Qed.

Lemma count_add2 h ls b : counts (h_bl_count h) ls -> 0 <= b <= 15 -> zlen ls <= 1000 -> exists h', add_count h b 2 = Ok h' /\ counts (h_bl_count h') (b :: b :: ls) /\ h_heap h' = h_heap h /\ h_opt_len h' = h_opt_len h.
Proof.
  intros [Hl Hc] Hb Hz. pose proof (occ_range b ls). rewrite (add_count_spec h b 2 _ (Hc b Hb)) by lia. eexists. split; [done|]. split; [|done].
  split; [cbn; by rewrite length_insert|]. intros j Hj. cbn. rewrite !occ_cons. destruct (decide (b = j)) as [<-|Hne]; [rewrite list_lookup_insert_eq by lia; f_equal; lia|].
  rewrite list_lookup_insert_ne by lia. rewrite Hc by done. f_equal; lia.
Qed.

Lemma all_max_ksum m ls : Forall (fun x => x = m) ls -> ksum m ls = zlen ls.
Proof. induction 1 as [|x ls -> _ IH]; [done|]. rewrite ksum_cons, zlen_cons, IH, Z.sub_diag. done. Qed.

(** One leaf moves down and becomes the brother of one that is too long. *)
Lemma fix_overflow_spec m fuel : 1 <= m <= 15 -> forall h ls ov, counts (h_bl_count h) ls -> lens_in 1 m ls -> zlen ls <= 2 ^ m -> zlen ls <= 286 -> 2 * ksum m ls = 2 * 2 ^ m + ov ->
  0 < ov <= 2 * occ m ls -> ov <= 2 * Z.of_nat fuel ->
  exists h' ls', fix_overflow fuel m h ov = Ok h' /\ counts (h_bl_count h') ls' /\ lens_in 1 m ls' /\ ksum m ls' = 2 ^ m /\ zlen ls' = zlen ls /\ h_heap h' = h_heap h.
Proof.
  intros Hm. induction fuel as [|fuel IH]; intros h ls ov Hc Hin H2m H286 Hk Hov Hf; [lia|]. cbn [fix_overflow].
  (* a leaf above the limit, and one at it *)
  assert (Hb0 : exists b0, b0 ∈ ls /\ 1 <= b0 <= m - 1).
  { destruct (decide (Forall (fun x => x = m) ls)) as [Hall|Hnot]; [apply all_max_ksum in Hall; lia|]. apply not_Forall_Exists in Hnot; [|intros; apply _]. apply Exists_exists in Hnot as (b0 & Hb0 & Hne). exists b0. split; [done|].
    change (b0 <> m) in Hne. rewrite Forall_forall in Hin. specialize (Hin _ Hb0). cbv beta in *. lia. }
  destruct Hb0 as (b0 & Hb0 & Hb0r). destruct (find_bits_spec _ ls (Z.to_nat m) Hc (m - 1) b0 Hb0 Hb0r ltac:(lia) ltac:(lia)) as (b & -> & Hbr & Hb). cbn [mbind outcome_bind].
  assert (Hperm : exists rest, ls ≡ₚ b :: m :: rest).
  { apply elem_of_Permutation in Hb as [r Hr]. assert (Hmin : m ∈ b :: r) by (rewrite <- Hr; apply occ_pos; lia). apply elem_of_cons in Hmin as [?|Hmin]; [lia|]. apply elem_of_Permutation in Hmin as [rest Hrest]. exists rest. by rewrite Hr, Hrest. }
  destruct Hperm as [rest Hp]. assert (Hzr : zlen ls = zlen rest + 2) by (unfold zlen; rewrite (Permutation_length Hp); cbn [length]; lia).
  destruct (count_remove h (m :: rest) b (counts_perm _ _ _ Hp Hc) ltac:(lia) ltac:(rewrite zlen_cons; lia)) as (h1 & -> & Hc1 & Hh1 & _). cbn [mbind outcome_bind].
  destruct (count_add2 h1 (m :: rest) (b + 1) Hc1 ltac:(lia) ltac:(rewrite zlen_cons; lia)) as (h2 & -> & Hc2 & Hh2 & _). cbn [mbind outcome_bind].
  destruct (count_remove h2 (b + 1 :: b + 1 :: rest) m) as (h3 & -> & Hc3 & Hh3 & _); [eapply counts_perm; [|exact Hc2]; solve_Permutation|lia|rewrite !zlen_cons; lia|]. cbn [mbind outcome_bind].
  set (ls3 := b + 1 :: b + 1 :: rest) in *. rewrite (ksum_perm m _ _ Hp), !ksum_cons, Z.sub_diag in Hk. change (2 ^ 0) with 1 in Hk. rewrite (occ_perm m _ _ Hp), !occ_cons in Hov. rewrite decide_False, decide_True in Hov by lia.
  assert (Hin3 : lens_in 1 m ls3). { rewrite Hp in Hin. apply Forall_cons in Hin as [_ Hin]. apply Forall_cons in Hin as [_ Hin]. repeat constructor; try lia. done. }
  assert (Hz3 : zlen ls3 = zlen ls) by (unfold ls3; rewrite !zlen_cons; lia).
  assert (Hk3 : 2 * ksum m ls3 = 2 * 2 ^ m + (ov - 2)).
  { unfold ls3. rewrite !ksum_cons. replace (m - b) with ((m - (b + 1)) + 1) in Hk by lia. rewrite Z.pow_add_r in Hk by lia. change (2 ^ 1) with 2 in Hk. lia. }
  destruct (Z.ltb_spec 0 (ov - 2)) as [Hgo|Hstop].
  - destruct (IH h3 ls3 (ov - 2) Hc3 Hin3 ltac:(lia) ltac:(lia) Hk3) as (h' & ls' & H' & Hc' & Hin' & Hk' & Hz' & Hh').
    + split; [lia|]. unfold ls3. rewrite !occ_cons. destruct (decide (b + 1 = m)); lia.
    + lia.
    + exists h', ls'. split; [done|]. split; [done|]. split; [done|]. split; [done|]. split; [lia|congruence].
  - exists h3, ls3. split; [done|]. split; [done|]. split; [done|]. split; [|split; [done|congruence]].
    assert (Hlow : 2 ^ m <= ksum m ls3); [|lia]. assert (ov = 1 \/ ov = 2) as [E|E] by lia; lia.
Qed.

(** ** The second pass *)

Lemma filter_eq_replicate b (ls : list Z) : filter (fun x => x = b) ls = replicate (Z.to_nat (occ b ls)) b.
Proof.
  induction ls as [|x ls IH]; [done|]. rewrite occ_cons, filter_cons. pose proof (occ_range b ls). destruct (decide (x = b)) as [->|Hne].
  - replace (Z.to_nat (1 + occ b ls)) with (S (Z.to_nat (occ b ls))) by lia. cbn [replicate]. by rewrite IH.
  - rewrite IH. do 2 f_equal; lia.
Qed.

Lemma occ_filter_ne b c (ls : list Z) : c <> b -> occ c (filter (fun x => x <> b) ls) = occ c ls.
Proof.
  intros Hc. induction ls as [|x ls IH]; [done|]. rewrite filter_cons, occ_cons. destruct (decide (x <> b)) as [Hx|Hx]; [rewrite occ_cons; lia|]. rewrite decide_False by lia. lia.
Qed.

(** Handing out as many of each length as there are. *)
Definition handed (bs ls : list Z) : list Z := bs ≫= fun b => replicate (Z.to_nat (occ b ls)) b.

Lemma handed_perm bs : forall ls, NoDup bs -> Forall (fun l => l ∈ bs) ls -> handed bs ls ≡ₚ ls.
Proof.
  induction bs as [|b bs IH]; intros ls Hnd Hall; [destruct ls as [|l ls]; [done|apply Forall_cons in Hall as [Hl _]; by apply not_elem_of_nil in Hl]|].
  apply NoDup_cons in Hnd as [Hb Hnd]. etransitivity; [|apply (filter_app_complement (fun x => x = b) ls)]. rewrite filter_eq_replicate. unfold handed. cbn [mbind list_bind]. f_equiv.
  etransitivity; [|apply (IH (filter (fun x => x <> b) ls) Hnd)].
  - unfold handed. rewrite (Forall_bind_ext _ (fun c => replicate (Z.to_nat (occ c (filter (fun x => x <> b) ls))) c)); [done|]; apply Forall_forall; intros c Hc; rewrite occ_filter_ne; [done|congruence].
  - apply Forall_forall. intros x Hx. apply list_elem_of_filter in Hx as [Hx Hl]. rewrite Forall_forall in Hall. specialize (Hall _ Hl). apply elem_of_cons in Hall as [?|?]; done.
Qed.

Section hand.
Context (mc : Z).
#[local] Set Default Proof Using "All".
Abbreviation leafs := (filter (fun x => x <= mc)).

(** The lengths of the elements [xs] are set to [b], the others are kept. *)
Definition lens_set (ds ds' xs : list Z) (b : Z) : Prop := forall x, 0 <= x -> ds' !! Z.to_nat x = if decide (x ∈ xs) then Some b else ds !! Z.to_nat x.

Lemma assign_lens_spec heap b P fuel : 1 <= b <= 15 -> forall R Q n tree opt, heap = P ++ R ++ Q -> 0 <= n <= zlen (leafs R) -> Forall (fun x => 0 <= x < zlen tree) (leafs R) ->
  zlen R < Z.of_nat fuel ->
  exists tree' opt' R1 R2, assign_lens fuel heap mc b n (zlen P + zlen R) tree opt = Ok (tree', opt', zlen P + zlen R1) /\ R = R1 ++ R2 /\ zlen (leafs R2) = n
    /\ zlen tree' = zlen tree /\ lens_set (dls tree) (dls tree') (leafs R2) b.
Proof.
  intros Hb. induction fuel as [|fuel IH]; intros R Q n tree opt Hheap Hn Hr Hf; [pose proof (zlen_nonneg R); lia|]. cbn [assign_lens]. destruct (Z.eqb_spec n 0) as [->|Hne].
  { exists tree, opt, R, []. rewrite app_nil_r. done. }
  destruct R as [|m R _] using rev_ind; [change (zlen (filter (fun x => x <= mc) [])) with 0 in Hn; lia|]. rewrite zlen_app, zlen_cons, zlen_nil in Hf |- *. pose proof (zlen_nonneg R). pose proof (zlen_nonneg P).
  replace (zlen P + (zlen R + (1 + 0)) - 1) with (zlen P + zlen R) by lia.
  assert (Hheap' : heap = P ++ R ++ m :: Q) by (by rewrite Hheap, <- !app_assoc).
  assert (Hm : heap !! Z.to_nat (zlen P + zlen R) = Some m) by (rewrite Hheap', app_assoc; apply list_lookup_middle; rewrite length_app; unfold zlen; lia).
  rewrite (elem_at_lookup heap _ m (Z.add_nonneg_nonneg _ _ (zlen_nonneg P) (zlen_nonneg R)) Hm). cbn [mbind outcome_bind]. rewrite filter_app, filter_cons, filter_nil in Hn, Hr.
  destruct (Z.ltb_spec mc m) as [Hlt|Hge].
  - rewrite decide_False, app_nil_r in Hn, Hr by lia. destruct (IH R (m :: Q) n tree opt Hheap' Hn Hr ltac:(lia)) as (tree' & opt' & R1 & R2 & H1 & -> & Hz2 & Hz & Hset).
    exists tree', opt', R1, (R2 ++ [m]). rewrite app_assoc, filter_app, filter_cons, filter_nil, decide_False, app_nil_r by lia. done.
  - rewrite decide_True in Hn, Hr by lia. rewrite zlen_app, zlen_cons in Hn. change (zlen (@nil Z)) with 0 in Hn. apply Forall_app in Hr as [Hr Hmr]. apply Forall_cons in Hmr as [Hmr _].
    destruct (lookup_lt_is_Some_2 tree (Z.to_nat m)) as [e He]; [unfold zlen in Hmr; lia|]. rewrite (elem_at_lookup tree m e) by (done || lia). cbn [mbind outcome_bind].
    assert (Hset1 : exists tree1 opt1, (if negb (dl e =? b) then t ← elem_set tree m (mkCt (fc e) (u16 b)); Ok (t, u32 (opt + (b - dl e) * fc e)) else Ok (tree, opt)) = Ok (tree1, opt1)
      /\ zlen tree1 = zlen tree /\ dls tree1 = <[Z.to_nat m := b]> (dls tree)).
    { destruct (Z.eqb_spec (dl e) b) as [E|E]; cbn [negb].
      - exists tree, opt. split; [done|]. split; [done|]. symmetry. apply list_insert_id. unfold dls. rewrite list_lookup_fmap, He. cbn. by rewrite E.
      - rewrite elem_set_in by lia. cbn [mbind outcome_bind]. rewrite u16_small by (unfold is_u16; change (2 ^ 16) with 65536; lia). eexists _, _. split; [done|]. split; [apply zlen_insert|apply dls_insert]. }
    destruct Hset1 as (tree1 & opt1 & -> & Hz1 & Hd1). cbn [mbind outcome_bind].
    destruct (IH R (m :: Q) (n - 1) tree1 opt1 Hheap' ltac:(lia) ltac:(by rewrite Hz1) ltac:(lia)) as (tree' & opt' & R1 & R2 & H1 & -> & Hz2 & Hz & Hset).
    exists tree', opt', R1, (R2 ++ [m]). split; [done|]. split; [by rewrite app_assoc|]. rewrite filter_app, filter_cons, filter_nil, decide_True by lia. rewrite zlen_app, zlen_cons, zlen_nil.
    split; [lia|]. split; [congruence|]. intros x Hx. rewrite (Hset x Hx), Hd1. destruct (decide (x ∈ leafs R2)) as [Hin|Hin].
    + rewrite decide_True; [done|]. apply elem_of_app. by left.
    + destruct (decide (x = m)) as [->|Hxm].
      * rewrite decide_True by (apply elem_of_app; right; left). apply list_lookup_insert_eq. rewrite length_zlen, zlen_dls. lia.
      * rewrite list_lookup_insert_ne by lia. rewrite decide_False; [done|]. intros Hin'. apply elem_of_app in Hin' as [?|Hin']; [done|]. by apply list_elem_of_singleton in Hin'.
Qed.

Lemma second_lens_spec heap P bl ls bs : counts bl ls -> forall R Q tree opt, Forall (fun b => 1 <= b <= 15) bs -> heap = P ++ R ++ Q -> zlen (leafs R) = zlen (handed bs ls) ->
  Forall (fun x => 0 <= x < zlen tree) (leafs R) -> NoDup (leafs R) -> zlen R <= HEAP_SIZE ->
  exists tree' opt', second_lens bs heap bl mc (zlen P + zlen R) tree opt = Ok (tree', opt') /\ zlen tree' = zlen tree /\ lenat (dls tree') <$> leafs R ≡ₚ handed bs ls
    /\ (forall x, 0 <= x -> x ∉ leafs R -> dls tree' !! Z.to_nat x = dls tree !! Z.to_nat x).
Proof.
  intros [_ Hc]. induction bs as [|b bs IH]; intros R Q tree opt Hbs Hheap Hz Hr Hnd Hlen.
  - exists tree, opt. split; [done|]. split; [done|]. split; [|done]. change (zlen (handed [] ls)) with 0 in Hz. destruct (leafs R) as [|x l]; [done|]. rewrite zlen_cons in Hz. pose proof (zlen_nonneg l). lia.
  - apply Forall_cons in Hbs as [Hb Hbs]. unfold handed in *. cbn [mbind list_bind] in *. pose proof (occ_range b ls) as Hocc. rewrite zlen_app in Hz. unfold zlen in Hz at 2. rewrite length_replicate in Hz.
    match type of Hz with context [_ + zlen ?y] => pose proof (zlen_nonneg y) end. cbn [second_lens]. rewrite (elem_at_lookup bl b _ ltac:(lia) (Hc b ltac:(lia))). cbn [mbind outcome_bind].
    destruct (assign_lens_spec heap b P (Z.to_nat HEAP_SIZE + 1) Hb R Q (occ b ls) tree opt Hheap ltac:(lia) Hr) as (tree1 & opt1 & R1 & R2 & H1 & -> & Hz2 & Hz1 & Hset); [change HEAP_SIZE with 573 in *; lia|].
    rewrite H1. cbn [mbind outcome_bind]. rewrite filter_app in *. rewrite zlen_app in Hz. apply Forall_app in Hr as [Hr1 Hr2]. apply NoDup_app in Hnd as (Hnd1 & Hdis & Hnd2). rewrite zlen_app in Hlen. pose proof (zlen_nonneg R2).
    destruct (IH R1 (R2 ++ Q) tree1 opt1 Hbs) as (tree' & opt' & H2 & Hz' & Hperm & Hsame); [by rewrite Hheap, <- app_assoc|lia|by rewrite Hz1|done|lia|].
    exists tree', opt'. split; [done|]. split; [congruence|]. split.
    + rewrite fmap_app, Hperm. rewrite Permutation_app_comm. f_equiv. apply Permutation_refl'.
      rewrite <- Hz2. unfold zlen. rewrite Nat2Z.id. rewrite <- (length_fmap (lenat (dls tree'))). symmetry; apply replicate_as_Forall_2; [done|].
      apply Forall_fmap, Forall_forall. intros x Hx. cbn. rewrite Forall_forall in Hr2. specialize (Hr2 _ Hx). cbv beta in Hr2.
      unfold lenat. rewrite Hsame by (try lia; intros Hx1; by apply (Hdis x)). rewrite (Hset x) by lia. by rewrite decide_True by done.
    + intros x Hx Hn. rewrite Hsame by (try lia; intros Hx1; apply Hn, elem_of_app; by left). rewrite (Hset x Hx). rewrite decide_False; [done|]. intros Hx2. apply Hn, elem_of_app. by right.
Qed.
End hand.
