(* ===== verification/Trees.v ===== *)
(** * The block encoder of zlib (3rd/zip/trees.c, deflate.h)

    The output of bits ([send_bits], [bi_flush], [bi_windup]), the tally of
    literals and matches ([_tr_tally]), and the emission of a block: its
    header, the code lengths in run-length form ([send_tree],
    [send_all_trees]), the literals and matches ([compress_block]), stored
    blocks and [_tr_align].

    [dst] holds the fields of [deflate_state] these functions use.  As
    [deflateInit2_] allocates them, [d_buf] and [l_buf] lie inside
    [pending_buf]: a [d_buf] entry is two bytes (low byte first) from offset
    [lit_bufsize] on, an [l_buf] entry one byte from [3 * lit_bufsize] on. *)

From S2P Require Import Prelude Inftrees TreesTables.

Record dst := mkDst {
  d_pending_buf : list Z; d_pending : Z; d_lit_bufsize : Z; d_last_lit : Z; d_matches : Z;
  d_bi_buf : Z; d_bi_valid : Z; d_last_eob_len : Z;
  d_dyn_ltree : list ct_data; d_dyn_dtree : list ct_data; d_bl_tree : list ct_data }.

#[export] Instance eta_dst : Eta dst := fun s =>
  mkDst (d_pending_buf s) (d_pending s) (d_lit_bufsize s) (d_last_lit s) (d_matches s)
    (d_bi_buf s) (d_bi_valid s) (d_last_eob_len s) (d_dyn_ltree s) (d_dyn_dtree s) (d_bl_tree s).

Definition MIN_MATCH : Z := 3.
Definition END_BLOCK : Z := 256.
Definition REP_3_6 : Z := 16.
Definition REPZ_3_10 : Z := 17.
Definition REPZ_11_138 : Z := 18.
Definition Buf_size : Z := 16.
Definition STORED_BLOCK : Z := 0.
Definition STATIC_TREES : Z := 1.
Definition DYN_TREES : Z := 2.

(** ** Bits *)

(** [s->pending_buf\[s->pending++\] = (c);] *)
Definition put_byte (s : dst) (c : Z) : outcome dst :=
  b ← elem_set (d_pending_buf s) (d_pending s) (u8 c);
  Ok (s <| d_pending_buf := b |> <| d_pending := d_pending s + 1 |>).

Definition put_short (s : dst) (w : Z) : outcome dst :=
  s ← put_byte s (Z.land w 255);
  put_byte s (Z.shiftr (u16 w) 8).

Definition send_bits (s : dst) (value length : Z) : outcome dst :=
  if Buf_size - length <? d_bi_valid s then
    let s := s <| d_bi_buf := u16 (Z.lor (d_bi_buf s) (Z.shiftl value (d_bi_valid s))) |> in
    s ← put_short s (d_bi_buf s);
    Ok (s <| d_bi_buf := u16 (Z.shiftr (u16 value) (Buf_size - d_bi_valid s)) |> <| d_bi_valid := d_bi_valid s + (length - Buf_size) |>)
  else
    Ok (s <| d_bi_buf := u16 (Z.lor (d_bi_buf s) (Z.shiftl value (d_bi_valid s))) |> <| d_bi_valid := d_bi_valid s + length |>).

(** [send_code(s, c, tree)] *)
Definition send_code (s : dst) (c : Z) (tree : list ct_data) : outcome dst :=
  e ← elem_at tree c;
  send_bits s (fc e) (dl e).

Definition bi_flush (s : dst) : outcome dst :=
  if d_bi_valid s =? 16 then
    s ← put_short s (d_bi_buf s);
    Ok (s <| d_bi_buf := 0 |> <| d_bi_valid := 0 |>)
  else if 8 <=? d_bi_valid s then
    s ← put_byte s (d_bi_buf s);
    Ok (s <| d_bi_buf := Z.shiftr (d_bi_buf s) 8 |> <| d_bi_valid := d_bi_valid s - 8 |>)
  else Ok s.

Definition bi_windup (s : dst) : outcome dst :=
  s ← (if 8 <? d_bi_valid s then put_short s (d_bi_buf s)
       else if 0 <? d_bi_valid s then put_byte s (d_bi_buf s)
       else Ok s);
  Ok (s <| d_bi_buf := 0 |> <| d_bi_valid := 0 |>).

(** [while (len--) put_byte(s, *buf++);] *)
Fixpoint put_bytes (s : dst) (buf : list Z) : outcome dst :=
  match buf with
  | [] => Ok s
  | b :: buf => s ← put_byte s b; put_bytes s buf
  end.

(** [copy_block(s, buf, len, header)] with [buf] the [len] bytes *)
Definition copy_block (s : dst) (buf : list Z) (header : bool) : outcome dst :=
  s ← bi_windup s;
  let s := s <| d_last_eob_len := 8 |> in
  s ← (if header then
         s ← put_short s (u16 (zlen buf));
         put_short s (u16 (Z.lnot (zlen buf)))
       else Ok s);
  put_bytes s buf.

Definition _tr_stored_block (s : dst) (buf : list Z) (eof : Z) : outcome dst :=
  s ← send_bits s (Z.shiftl STORED_BLOCK 1 + eof) 3;
  copy_block s buf true.

Definition _tr_align (s : dst) : outcome dst :=
  s ← send_bits s (Z.shiftl STATIC_TREES 1) 3;
  s ← send_code s END_BLOCK static_ltree;
  s ← bi_flush s;
  s ← (if 1 + d_last_eob_len s + 10 - d_bi_valid s <? 9 then
         s ← send_bits s (Z.shiftl STATIC_TREES 1) 3;
         s ← send_code s END_BLOCK static_ltree;
         bi_flush s
       else Ok s);
  Ok (s <| d_last_eob_len := 7 |>).

(** ** The tally *)

(** [s->d_buf\[i\]], [s->l_buf\[i\]] *)
Definition d_buf_at (s : dst) (i : Z) : outcome Z :=
  lo ← elem_at (d_pending_buf s) (d_lit_bufsize s + 2 * i);
  hi ← elem_at (d_pending_buf s) (d_lit_bufsize s + 2 * i + 1);
  Ok (lo + 256 * hi).
Definition l_buf_at (s : dst) (i : Z) : outcome Z := elem_at (d_pending_buf s) (3 * d_lit_bufsize s + i).

Definition set_d_buf (s : dst) (i v : Z) : outcome dst :=
  b ← elem_set (d_pending_buf s) (d_lit_bufsize s + 2 * i) (v `mod` 256);
  b ← elem_set b (d_lit_bufsize s + 2 * i + 1) (v `div` 256);
  Ok (s <| d_pending_buf := b |>).
Definition set_l_buf (s : dst) (i v : Z) : outcome dst :=
  b ← elem_set (d_pending_buf s) (3 * d_lit_bufsize s + i) v;
  Ok (s <| d_pending_buf := b |>).

(** [tree\[n\].Freq++] *)
Definition bump_freq (tree : list ct_data) (n : Z) : outcome (list ct_data) :=
  e ← elem_at tree n;
  elem_set tree n (mkCt (u16 (fc e + 1)) (dl e)).

(** [_tr_tally(s, dist, lc)]: the state and whether the block must be flushed *)
Definition _tr_tally (s : dst) (dist lc : Z) : outcome (dst * bool) :=
  s ← set_d_buf s (d_last_lit s) (u16 dist);
  s ← set_l_buf s (d_last_lit s) (u8 lc);
  let s := s <| d_last_lit := d_last_lit s + 1 |> in
  s ← (if dist =? 0 then
         t ← bump_freq (d_dyn_ltree s) lc;
         Ok (s <| d_dyn_ltree := t |>)
       else
         let s := s <| d_matches := d_matches s + 1 |> in
         let dist := dist - 1 in
         c ← elem_at length_code_table lc;
         t ← bump_freq (d_dyn_ltree s) (c + LITERALS + 1);
         dc ← d_code dist;
         t' ← bump_freq (d_dyn_dtree s) dc;
         Ok (s <| d_dyn_ltree := t |> <| d_dyn_dtree := t' |>));
  Ok (s, d_last_lit s =? d_lit_bufsize s - 1).

(** ** The block *)

(** One literal or match of [compress_block]. *)
Definition compress_item (ltree dtree : list ct_data) (s : dst) (lx : Z) : outcome dst :=
  dist ← d_buf_at s lx;
  lc ← l_buf_at s lx;
  if dist =? 0 then send_code s lc ltree
  else
    code ← elem_at length_code_table lc;
    s ← send_code s (code + LITERALS + 1) ltree;
    extra ← elem_at extra_lbits code;
    s ← (if negb (extra =? 0) then b ← elem_at base_length code; send_bits s (lc - b) extra else Ok s);
    let dist := dist - 1 in
    code ← d_code dist;
    s ← send_code s code dtree;
    extra ← elem_at extra_dbits code;
    if negb (extra =? 0) then b ← elem_at base_dist code; send_bits s (dist - b) extra else Ok s.

Fixpoint compress_items (ltree dtree : list ct_data) (lxs : list Z) (s : dst) : outcome dst :=
  match lxs with
  | [] => Ok s
  | lx :: lxs => s ← compress_item ltree dtree s lx; compress_items ltree dtree lxs s
  end.

Definition compress_block (s : dst) (ltree dtree : list ct_data) : outcome dst :=
  s ← compress_items ltree dtree (seqZ 0 (d_last_lit s)) s;
  s ← send_code s END_BLOCK ltree;
  e ← elem_at ltree END_BLOCK;
  Ok (s <| d_last_eob_len := dl e |>).

(** ** The code lengths *)

(** The locals of the loops of [scan_tree] and [send_tree]. *)
Record run := mkRun { r_prevlen : Z; r_nextlen : Z; r_count : Z; r_max : Z; r_min : Z }.

Definition run_start (nextlen : Z) : run :=
  if nextlen =? 0 then mkRun (-1) nextlen 0 138 3 else mkRun (-1) nextlen 0 7 4.
Definition run_reset (curlen nextlen : Z) : run :=
  if nextlen =? 0 then mkRun curlen nextlen 0 138 3
  else if curlen =? nextlen then mkRun curlen nextlen 0 6 3
  else mkRun curlen nextlen 0 7 4.

(** [s->bl_tree\[n\].Freq += k] *)
Definition add_freq (s : dst) (n k : Z) : outcome dst :=
  e ← elem_at (d_bl_tree s) n;
  t ← elem_set (d_bl_tree s) n (mkCt (u16 (fc e + k)) (dl e));
  Ok (s <| d_bl_tree := t |>).

(** A loop over the lengths: [emit] is what is done at the end of a run. *)
Fixpoint run_loop (emit : dst -> Z -> Z -> Z -> Z -> outcome dst) (tree : list ct_data) (ns : list Z) (r : run) (s : dst) : outcome dst :=
  match ns with
  | [] => Ok s
  | n :: ns =>
      let curlen := r_nextlen r in
      e ← elem_at tree (n + 1);
      let nextlen := dl e in
      let count := r_count r + 1 in
      if (count <? r_max r) && (curlen =? nextlen) then
        run_loop emit tree ns (mkRun (r_prevlen r) nextlen count (r_max r) (r_min r)) s
      else
        s ← emit s curlen (r_prevlen r) count (r_min r);
        run_loop emit tree ns (run_reset curlen nextlen) s
  end.

(** The branches of [scan_tree]. *)
Definition scan_emit (s : dst) (curlen prevlen count min_count : Z) : outcome dst :=
  if count <? min_count then add_freq s curlen count
  else if negb (curlen =? 0) then
    s ← (if negb (curlen =? prevlen) then add_freq s curlen 1 else Ok s);
    add_freq s REP_3_6 1
  else if count <=? 10 then add_freq s REPZ_3_10 1
  else add_freq s REPZ_11_138 1.

(** [scan_tree(s, tree, max_code)], which also sets the guard: the new tree and state *)
Definition scan_tree (s : dst) (tree : list ct_data) (max_code : Z) : outcome (list ct_data * dst) :=
  e ← elem_at tree 0;
  g ← elem_at tree (max_code + 1);
  tree ← elem_set tree (max_code + 1) (mkCt (fc g) 65535);
  s ← run_loop scan_emit tree (seqZ 0 (max_code + 1)) (run_start (dl e)) s;
  Ok (tree, s).

(** [do { send_code(s, curlen, s->bl_tree); } while (--count != 0);] *)
Fixpoint send_codes (n : nat) (s : dst) (c : Z) : outcome dst :=
  match n with
  | O => Ok s
  | S n => s ← send_code s c (d_bl_tree s); send_codes n s c
  end.

(** The branches of [send_tree]. *)
Definition send_emit (s : dst) (curlen prevlen count min_count : Z) : outcome dst :=
  if count <? min_count then send_codes (Z.to_nat count) s curlen
  else if negb (curlen =? 0) then
    '(s, count) ← (if negb (curlen =? prevlen) then s ← send_code s curlen (d_bl_tree s); Ok (s, count - 1) else Ok (s, count));
    s ← send_code s REP_3_6 (d_bl_tree s);
    send_bits s (count - 3) 2
  else if count <=? 10 then
    s ← send_code s REPZ_3_10 (d_bl_tree s);
    send_bits s (count - 3) 3
  else
    s ← send_code s REPZ_11_138 (d_bl_tree s);
    send_bits s (count - 11) 7.

Definition send_tree (s : dst) (tree : list ct_data) (max_code : Z) : outcome dst :=
  e ← elem_at tree 0;
  run_loop send_emit tree (seqZ 0 (max_code + 1)) (run_start (dl e)) s.

(** [for (rank = 0; rank < blcodes; rank++) send_bits(s, s->bl_tree\[bl_order\[rank\]\].Len, 3);] *)
Fixpoint send_bl_lens (ranks : list Z) (s : dst) : outcome dst :=
  match ranks with
  | [] => Ok s
  | rank :: ranks =>
      o ← elem_at bl_order rank;
      e ← elem_at (d_bl_tree s) o;
      s ← send_bits s (dl e) 3;
      send_bl_lens ranks s
  end.

Definition send_all_trees (s : dst) (lcodes dcodes blcodes : Z) : outcome dst :=
  s ← send_bits s (lcodes - 257) 5;
  s ← send_bits s (dcodes - 1) 5;
  s ← send_bits s (blcodes - 4) 4;
  s ← send_bl_lens (seqZ 0 blcodes) s;
  s ← send_tree s (d_dyn_ltree s) (lcodes - 1);
  send_tree s (d_dyn_dtree s) (dcodes - 1).

(** ** The choices of [_tr_flush_block] *)

(** A block with the static trees, and one with dynamic trees. *)
Definition send_static_block (s : dst) (eof : Z) : outcome dst :=
  s ← send_bits s (Z.shiftl STATIC_TREES 1 + eof) 3;
  compress_block s static_ltree static_dtree.

Definition send_dynamic_block (s : dst) (eof lcodes dcodes blcodes : Z) : outcome dst :=
  s ← send_bits s (Z.shiftl DYN_TREES 1 + eof) 3;
  s ← send_all_trees s lcodes dcodes blcodes;
  compress_block s (d_dyn_ltree s) (d_dyn_dtree s).

(** [for (n = 0; n < N; n++) tree\[n\].Freq = 0;] *)
Fixpoint zero_freqs (ns : list Z) (tree : list ct_data) : outcome (list ct_data) :=
  match ns with
  | [] => Ok tree
  | n :: ns =>
      e ← elem_at tree n;
      tree ← elem_set tree n (mkCt 0 (dl e));
      zero_freqs ns tree
  end.
