(* ===== verification/TreesEmit.v ===== *)
(** * The output of the encoder as a bit string

    The pending bytes and the bit buffer of [deflate_state] are one bit string
    ([wbits]); [send_bits] appends to it ([send_bits_spec]).  [writes s s' B]
    says that [s'] is [s] with [B] appended and nothing changed behind the
    pending bytes. *)

From S2P Require Import Prelude Inftrees BitRev TreesTables Trees Bits.

Definition set_out (s : dst) (buf : list Z) (p b v : Z) : dst :=
  s <| d_pending_buf := buf |> <| d_pending := p |> <| d_bi_buf := b |> <| d_bi_valid := v |>.

Definition pending_bytes (s : dst) : list Z := take (Z.to_nat (d_pending s)) (d_pending_buf s).
Definition wbits (s : dst) : list bool := bytes_bits (pending_bytes s) ++ zbits (d_bi_valid s) (d_bi_buf s).

(** The number of bits written, and the number there is room for. *)
Definition nbits (s : dst) : Z := 8 * d_pending s + d_bi_valid s.
Definition room (s : dst) : Z := 8 * zlen (d_pending_buf s).

Record out_ok (s : dst) : Prop := {
  out_pending : 0 <= d_pending s <= zlen (d_pending_buf s);
  out_valid : 0 <= d_bi_valid s <= 16;
  out_buf : 0 <= d_bi_buf s < 2 ^ d_bi_valid s;
  out_bytes : is_bytes (d_pending_buf s) }.

Record writes (s s' : dst) (B : list bool) : Prop := {
  wr_set : exists buf p b v, s' = set_out s buf p b v;
  wr_ok : out_ok s';
  wr_bits : wbits s' = wbits s ++ B;
  wr_nbits : nbits s' = nbits s + zlen B;
  wr_len : zlen (d_pending_buf s') = zlen (d_pending_buf s);
  wr_pending : d_pending s <= d_pending s';
  wr_rest : drop (Z.to_nat (d_pending s')) (d_pending_buf s') = drop (Z.to_nat (d_pending s')) (d_pending_buf s) }.

Lemma writes_refl s : out_ok s -> writes s s [].
Proof.
  intros Hok. split; try done; [|by rewrite app_nil_r|rewrite zlen_nil; lia].
  exists (d_pending_buf s), (d_pending s), (d_bi_buf s), (d_bi_valid s). by destruct s.
Qed.

Lemma drop_later {A} (l l' : list A) a b : 0 <= a <= b -> drop (Z.to_nat a) l = drop (Z.to_nat a) l' -> drop (Z.to_nat b) l = drop (Z.to_nat b) l'.
Proof.
  intros Hab E. replace (Z.to_nat b) with (Z.to_nat a + (Z.to_nat b - Z.to_nat a))%nat by lia. rewrite <- !drop_drop. by rewrite E.
Qed.

Lemma writes_trans s s1 s2 B1 B2 : out_ok s -> writes s s1 B1 -> writes s1 s2 B2 -> writes s s2 (B1 ++ B2).
Proof.
  intros Hok [(a & b & c & d & ->) Hok1 Hb1 Hn1 Hl1 Hp1 Hr1] [(a' & b' & c' & d' & ->) Hok2 Hb2 Hn2 Hl2 Hp2 Hr2].
  split; [by exists a', b', c', d'|done| | |by rewrite Hl2|lia|].
  - rewrite Hb2, Hb1. by rewrite app_assoc.
  - rewrite Hn2, Hn1, zlen_app. lia.
  - rewrite Hr2. eapply drop_later; [|exact Hr1]. destruct Hok1, Hok. lia.
Qed.

(** ** Bytes *)

Lemma put_byte_spec s c : 0 <= d_pending s -> is_bytes (d_pending_buf s) -> d_pending s < zlen (d_pending_buf s) ->
  exists buf, put_byte s c = Ok (s <| d_pending_buf := buf |> <| d_pending := d_pending s + 1 |>)
    /\ take (Z.to_nat (d_pending s + 1)) buf = pending_bytes s ++ [u8 c] /\ zlen buf = zlen (d_pending_buf s) /\ is_bytes buf
    /\ drop (Z.to_nat (d_pending s + 1)) buf = drop (Z.to_nat (d_pending s + 1)) (d_pending_buf s).
Proof.
  intros Hp Hb Hlt. unfold put_byte. rewrite elem_set_in by lia. cbn [mbind outcome_bind]. eexists. split; [done|]. unfold zlen in Hlt.
  replace (Z.to_nat (d_pending s + 1)) with (S (Z.to_nat (d_pending s))) by lia. split; [|split; [apply zlen_insert|split]].
  - rewrite (take_S_r _ _ (u8 c)) by (apply list_lookup_insert_eq; lia). rewrite take_insert_ge by lia. done.
  - apply Forall_insert; [done|]. apply u8_range.
  - rewrite drop_insert_lt by lia. done.
Qed.

Lemma put_short_spec s w : 0 <= d_pending s -> is_bytes (d_pending_buf s) -> d_pending s + 2 <= zlen (d_pending_buf s) -> 0 <= w < 2 ^ 16 ->
  exists buf, put_short s w = Ok (s <| d_pending_buf := buf |> <| d_pending := d_pending s + 2 |>)
    /\ bytes_bits (take (Z.to_nat (d_pending s + 2)) buf) = bytes_bits (pending_bytes s) ++ zbits 16 w /\ zlen buf = zlen (d_pending_buf s) /\ is_bytes buf
    /\ drop (Z.to_nat (d_pending s + 2)) buf = drop (Z.to_nat (d_pending s + 2)) (d_pending_buf s).
Proof.
  intros Hp0 Hb0 Hroom Hw. destruct (put_byte_spec s (Z.land w 255) Hp0 Hb0 ltac:(lia)) as (b1 & H1 & Ht1 & Hz1 & Hb1 & Hd1). unfold put_short. rewrite H1. cbn [mbind outcome_bind].
  set (s1 := s <| d_pending_buf := b1 |> <| d_pending := d_pending s + 1 |>).
  destruct (put_byte_spec s1 (Z.shiftr (u16 w) 8) ltac:(change (0 <= d_pending s + 1); lia) Hb1 ltac:(change (d_pending s + 1 < zlen b1); lia)) as (b2 & H2 & Ht2 & Hz2 & Hb2 & Hd2). rewrite H2. exists b2. cbn in *.
  replace (d_pending s + 1 + 1) with (d_pending s + 2) in * by lia. split; [reflexivity|]. split; [|split; [congruence|split; [done|]]].
  - rewrite Ht2. unfold pending_bytes, s1. cbn. rewrite Ht1, !bytes_bits_app, <- app_assoc. f_equal. unfold bytes_bits. cbn [mbind list_bind]. rewrite !app_nil_r.
    change (16) with (8 + 8). rewrite zbits_split by lia. rewrite u16_small by (unfold is_u16; lia). f_equal.
    + rewrite <- (zbits_mod 8 (u8 _)), <- (zbits_mod 8 w) by lia. f_equal. change 255 with (2 ^ 8 - 1). rewrite land_mask by lia. unfold u8. by rewrite !Z.mod_mod.
    + rewrite Z.shiftr_div_pow2 by lia. unfold u8. by rewrite zbits_mod.
  - rewrite Hd2. unfold s1. cbn. eapply drop_later; [|exact Hd1]. lia.
Qed.

(** ** Bits *)

Lemma send_bits_spec s v n : out_ok s -> 0 <= n <= 16 -> 0 <= v < 2 ^ n -> nbits s + n <= room s ->
  exists s', send_bits s v n = Ok s' /\ writes s s' (zbits n v).
Proof.
  intros Hok Hn Hv Hroom. pose proof Hok as [Hp Hval Hbuf Hb]. unfold nbits, room in Hroom. unfold send_bits, Buf_size. rewrite lor_join by lia. rewrite (Z.mul_comm v).
  pose proof (pow2_pos (d_bi_valid s) ltac:(lia)) as Hpv. pose proof (pow2_pos n ltac:(lia)) as Hpn.
  set (X := d_bi_buf s + 2 ^ d_bi_valid s * v). assert (HX : 0 <= X < 2 ^ (d_bi_valid s + n)) by (unfold X; rewrite Z.pow_add_r by lia; nia).
  assert (Hcat : zbits (d_bi_valid s) (d_bi_buf s) ++ zbits n v = zbits (d_bi_valid s + n) X) by (unfold X; apply zbits_app; lia).
  destruct (Z.ltb_spec (16 - n) (d_bi_valid s)) as [Hfull|Hfit].
  - set (s0 := s <| d_bi_buf := u16 X |>). 
    pose proof (put_short_spec s0 (u16 X) (proj1 Hp) Hb ltac:(change (d_pending s + 2 <= zlen (d_pending_buf s)); lia) (u16_range X)) as Hps. cbn in Hps.
    destruct Hps as (buf & Hps & Hbits & Hz & Hbb & Hd). change (d_bi_buf s0) with (u16 X). rewrite Hps. cbn [mbind outcome_bind]. eexists. split; [done|].
    assert (Hv16 : v < 2 ^ 16) by (pose proof (pow2_mono n 16 ltac:(lia)); lia). rewrite (u16_small v) by (unfold is_u16; lia).
    assert (Ev : d_bi_valid (s0 <| d_pending_buf := buf |> <| d_pending := d_pending s + 2 |>) = d_bi_valid s) by reflexivity. rewrite Ev. clear Ev.
    rewrite Z.shiftr_div_pow2 by lia. set (q := v `div` 2 ^ (16 - d_bi_valid s)). pose proof (pow2_pos (16 - d_bi_valid s) ltac:(lia)) as Hp16.
    assert (Hq : 0 <= q < 2 ^ (d_bi_valid s + n - 16)).
    { unfold q. split; [apply Z.div_pos; lia|]. apply Z.div_lt_upper_bound; [lia|]. rewrite <- Z.pow_add_r by lia. replace (16 - d_bi_valid s + _) with n by lia. lia. }
    assert (HqX : X `div` 2 ^ 16 = q).
    { unfold q, X. rewrite (pow2_split 16 (d_bi_valid s)) by lia. rewrite <- Z.div_div by lia. f_equal. rewrite Z.mul_comm, Z.div_add by lia. rewrite Z.div_small by lia. lia. }
    assert (Hu : u16 q = q) by (apply u16_small; unfold is_u16; pose proof (pow2_mono (d_bi_valid s + n - 16) 16 ltac:(lia)); lia). cbn. rewrite Hu.
    replace (d_bi_valid s + (n - 16)) with (d_bi_valid s + n - 16) by lia. split; cbn.
    + by eexists _, _, _, _.
    + split; cbn; (done || lia).
    + unfold wbits. rewrite <- app_assoc, Hcat. unfold pending_bytes at 1. cbn. rewrite Hbits, <- app_assoc. f_equal.
      rewrite <- HqX. replace (d_bi_valid s + n) with (16 + (d_bi_valid s + n - 16)) at 2 by lia. rewrite zbits_split by lia. f_equal. unfold u16. by rewrite zbits_mod.
    + unfold nbits. cbn. rewrite zlen_zbits by lia. lia.
    + done.
    + lia.
    + done.
  - eexists. split; [done|]. assert (Hu : u16 X = X) by (apply u16_small; unfold is_u16; pose proof (pow2_mono (d_bi_valid s + n) 16 ltac:(lia)); lia). rewrite Hu.
    split; cbn; [by exists (d_pending_buf s), (d_pending s), X, (d_bi_valid s + n)|split; cbn; (done || lia)| | |done|lia|done].
    + unfold wbits. cbn. rewrite <- app_assoc, Hcat. done.
    + unfold nbits. cbn. rewrite zlen_zbits by lia. lia.
Qed.
