(* ===== verification/TreesBlock.v ===== *)
(** * The bits of a block

    What [compress_block] emits, as a bit string: the items of the block are
    the pairs of [d_buf] and [l_buf], each coded by [item_bits], and the
    end-of-block code follows ([compress_block_spec]).  The encoder writes over
    [d_buf] and [l_buf] as it goes; [overlay_ok] is the condition under which
    every item is still there when it is read. *)

From S2P Require Import Prelude Inftrees BitRev TreesTables Trees Bits TreesEmit.

(** ** Lengths and distances *)

Definition length_code (lc : Z) : Z := default 0 (length_code_table !! Z.to_nat lc).
Definition dist_code (d : Z) : Z := default 0 (dist_code_table !! Z.to_nat (if d <? 256 then d else 256 + Z.shiftr d 7)).
Definition lextra (code : Z) : Z := default 0 (extra_lbits !! Z.to_nat code).
Definition dextra (code : Z) : Z := default 0 (extra_dbits !! Z.to_nat code).
Definition lbase_of (code : Z) : Z := default 0 (base_length !! Z.to_nat code).
Definition dbase_of (code : Z) : Z := default 0 (base_dist !! Z.to_nat code).

(** The encoder's tables agree with the decoder's [lbase], [lext], [dbase], [dext]. *)
Definition length_ok (lc : Z) : Prop :=
  let code := length_code lc in let extra := lextra code in let base := if extra =? 0 then lc else lbase_of code in
  0 <= code < 29 /\ 0 <= extra <= 5 /\ 0 <= lc - base < 2 ^ extra
  /\ lbase !! Z.to_nat code = Some (lc + 3 - (lc - base)) /\ lext !! Z.to_nat code = Some (16 + extra).
Definition dist_ok (d : Z) : Prop :=
  let code := dist_code d in let extra := dextra code in
  0 <= code < 30 /\ 0 <= extra <= 13 /\ 0 <= d - dbase_of code < 2 ^ extra
  /\ dbase !! Z.to_nat code = Some (d + 1 - (d - dbase_of code)) /\ dext !! Z.to_nat code = Some (16 + extra).

Lemma length_ok_all lc : 0 <= lc < 256 -> length_ok lc.
Proof.
  intros Hlc. assert (H : Forall length_ok (seqZ 0 256)) by by_decide. rewrite Forall_forall in H. apply H, elem_of_seqZ. lia.
Qed.

(** From distance 256 on the code depends on the distance divided by 128 only. *)
Lemma dist_ok_high q r : 2 <= q < 256 -> 0 <= r < 128 -> dist_ok (128 * q + r).
Proof.
  intros Hq Hr. assert (H : Forall (fun q => dist_ok (128 * q) /\ dist_ok (128 * q + 127) /\ dist_code (128 * q + 127) = dist_code (128 * q)) (seqZ 2 254)) by by_decide.
  rewrite Forall_forall in H. destruct (H q ltac:(apply elem_of_seqZ; lia)) as (H0 & H1 & E).
  assert (Ec : dist_code (128 * q + r) = dist_code (128 * q)).
  { unfold dist_code. rewrite (proj2 (Z.ltb_ge (128 * q + r) 256)), (proj2 (Z.ltb_ge (128 * q) 256)) by lia. rewrite !Z.shiftr_div_pow2 by lia.
    change (2 ^ 7) with 128. assert (E7 : (128 * q + r) `div` 128 = (128 * q) `div` 128) by (Z.div_mod_to_equations; lia). by rewrite E7. }
  unfold dist_ok in *. rewrite Ec. rewrite E in H1. cbv zeta in *. destruct H0 as (? & ? & ? & Hb & ?), H1 as (_ & _ & ? & _ & _).
  split_and!; try (done || lia). rewrite Hb. f_equal. lia.
Qed.

Lemma dist_ok_all d : 0 <= d < 32768 -> dist_ok d.
Proof.
  intros Hd. destruct (decide (d < 256)) as [Hlow|Hhigh].
  - assert (H : Forall dist_ok (seqZ 0 256)) by by_decide. rewrite Forall_forall in H. apply H, elem_of_seqZ. lia.
  - rewrite (Z.div_mod d 128) by lia. apply dist_ok_high; Z.div_mod_to_equations; lia.
Qed.

(** A table at an index in its range. *)
Lemma lookup_table (t : list Z) i d : 0 <= i < zlen t -> elem_at t i = Ok (default d (t !! Z.to_nat i)).
Proof.
  intros Hi. unfold zlen in Hi. destruct (lookup_lt_is_Some_2 t (Z.to_nat i)) as [x Hx]; [lia|]. rewrite Hx. apply elem_at_lookup; [lia|done].
Qed.

Lemma d_code_eq d : 0 <= d < 32768 -> d_code d = Ok (dist_code d).
Proof.
  intros Hd. unfold d_code, dist_code. destruct (Z.ltb_spec d 256); apply lookup_table; change (zlen dist_code_table) with 512; [lia|].
  rewrite Z.shiftr_div_pow2 by lia. change (2 ^ 7) with 128. Z.div_mod_to_equations. lia.
Qed.

(** ** Codes *)

(** [tree] holds for every symbol of [dom] its code [huff] of [len] bits. *)
Definition codebook (tree : list ct_data) (dom : Z -> Prop) (len huff : Z -> Z) : Prop :=
  forall c, dom c -> 0 <= c /\ tree !! Z.to_nat c = Some (mkCt (huff c) (len c)) /\ 0 <= len c <= 15 /\ 0 <= huff c < 2 ^ len c.

Lemma send_code_spec tree dom len huff s c : codebook tree dom len huff -> dom c -> out_ok s -> nbits s + len c <= room s ->
  exists s', send_code s c tree = Ok s' /\ writes s s' (zbits (len c) (huff c)).
Proof.
  intros HB Hc Hok Hroom. destruct (HB c Hc) as (H0 & Hl & Hlen & Hh). unfold send_code. rewrite (elem_at_lookup tree c _ H0 Hl). cbn [mbind outcome_bind fc dl].
  apply send_bits_spec; (done || lia).
Qed.

Lemma writes_room s s' B : writes s s' B -> room s' = room s /\ nbits s' = nbits s + zlen B /\ out_ok s'.
Proof. intros H. unfold room. rewrite (wr_len _ _ _ H). split; [done|]. split; [by destruct H|by destruct H]. Qed.

(** Two outputs one after the other, as the code composes them. *)
Lemma send_then s B (m1 : outcome dst) (m2 : dst -> outcome dst) s' :
  out_ok s -> (exists s1, m1 = Ok s1 /\ writes s s1 B) -> (forall s1, writes s s1 B -> exists B', (exists s2, m2 s1 = Ok s2 /\ writes s1 s2 B') /\ s' = B ++ B') ->
  exists s2, (m1 ≫= m2) = Ok s2 /\ writes s s2 s'.
Proof.
  intros Hok (s1 & -> & H1) H2. destruct (H2 s1 H1) as (B' & (s2 & Hm & Hw) & ->). cbn [mbind outcome_bind]. exists s2. split; [done|]. by eapply writes_trans.
Qed.

(** ** The tally and the output *)

(** The first entries of [d_buf] and [l_buf]. *)
Definition tallied (s : dst) (items : list (Z * Z)) : Prop :=
  d_last_lit s = zlen items /\ zlen items <= d_lit_bufsize s
  /\ forall i it, items !! i = Some it -> d_buf_at s (Z.of_nat i) = Ok it.1 /\ l_buf_at s (Z.of_nat i) = Ok it.2.

Lemma elem_at_rest {A} (l l' : list A) p i : 0 <= p <= i -> drop (Z.to_nat p) l' = drop (Z.to_nat p) l -> elem_at l' i = elem_at l i.
Proof.
  intros Hp E. unfold elem_at. destruct (i <? 0); [done|]. replace (Z.to_nat i) with (Z.to_nat p + Z.to_nat (i - p))%nat by lia. by rewrite <- !lookup_drop, E.
Qed.

Lemma tally_kept s s' B i : out_ok s -> writes s s' B -> 0 <= i <= d_lit_bufsize s -> nbits s' <= 8 * (d_lit_bufsize s + 2 * i) ->
  d_buf_at s' i = d_buf_at s i /\ l_buf_at s' i = l_buf_at s i.
Proof.
  intros Hok [(b & p & v & n & ->) Hok' _ _ _ _ Hrest] Hi Hn. unfold nbits in Hn. destruct Hok' as [Hp Hval _ _]. cbn in Hp, Hval, Hrest, Hn.
  unfold d_buf_at, l_buf_at. cbn. rewrite !(elem_at_rest (d_pending_buf s) b p) by (done || lia). done.
Qed.

Section block.
Context (ltree dtree : list ct_data) (domL domD : Z -> Prop) (lenL huffL lenD huffD : Z -> Z).
Context (HL : codebook ltree domL lenL huffL) (HD : codebook dtree domD lenD huffD).
#[local] Set Default Proof Using "All".

(** The bits of a literal, and of a match of [lc + 3] bytes at distance [dist]. *)
Definition match_bits (dist lc : Z) : list bool :=
  let code := length_code lc in let extra := lextra code in
  let dcode := dist_code (dist - 1) in let dex := dextra dcode in
  zbits (lenL (code + 257)) (huffL (code + 257)) ++ zbits extra (lc - lbase_of code)
  ++ zbits (lenD dcode) (huffD dcode) ++ zbits dex (dist - 1 - dbase_of dcode).
Definition item_bits (it : Z * Z) : list bool :=
  if it.1 =? 0 then zbits (lenL it.2) (huffL it.2) else match_bits it.1 it.2.

Definition valid_item (it : Z * Z) : Prop :=
  0 <= it.2 < 256 /\ (it.1 = 0 /\ domL it.2
    \/ 1 <= it.1 <= 32768 /\ domL (length_code it.2 + 257) /\ domD (dist_code (it.1 - 1))).

Lemma extra_bits_spec s extra (b x : Z) : out_ok s -> 0 <= extra <= 13 -> (extra <> 0 -> 0 <= x - b < 2 ^ extra) -> nbits s + extra <= room s ->
  exists s', (if negb (extra =? 0) then send_bits s (x - b) extra else Ok s) = Ok s' /\ writes s s' (zbits extra (x - b)).
Proof.
  intros Hok He Hx Hr. destruct (Z.eqb_spec extra 0) as [->|Hne]; cbn [negb].
  - exists s. split; [done|]. rewrite zbits_0. by apply writes_refl.
  - apply send_bits_spec; (done || lia || by apply Hx).
Qed.

Lemma compress_item_spec s lx it : out_ok s -> d_buf_at s lx = Ok it.1 -> l_buf_at s lx = Ok it.2 -> valid_item it ->
  nbits s + zlen (item_bits it) <= room s ->
  exists s', compress_item ltree dtree s lx = Ok s' /\ writes s s' (item_bits it).
Proof.
  intros Hok Hd Hl [Hlc Hv] Hroom. unfold compress_item. rewrite Hd. cbn [mbind outcome_bind]. rewrite Hl. cbn [mbind outcome_bind]. unfold item_bits in *.
  destruct Hv as [[E Hdom]|(Hdist & HdL & HdD)].
  - rewrite E in *. cbn [Z.eqb] in *. destruct (HL _ Hdom) as (_ & _ & ? & _). eapply send_code_spec; [done|done|done|]. rewrite zlen_zbits in Hroom by lia. lia.
  - rewrite (proj2 (Z.eqb_neq it.1 0)) in * by lia. set (lc := it.2) in *. set (dist := it.1) in *. unfold match_bits in *.
    pose proof (length_ok_all lc Hlc) as (Hc & He & Hx & _). pose proof (dist_ok_all (dist - 1) ltac:(lia)) as (Hdc & Hde & Hdx & _). cbv zeta in *.
    set (code := length_code lc) in *. set (extra := lextra code) in *. set (dcode := dist_code (dist - 1)) in *. set (dex := dextra dcode) in *.
    destruct (HL _ HdL) as (_ & _ & HlL & _). destruct (HD _ HdD) as (_ & _ & HlD & _).
    rewrite !zlen_app, !zlen_zbits in Hroom by lia.
    rewrite (lookup_table length_code_table lc 0) by (change (zlen length_code_table) with 256; lia). cbn [mbind outcome_bind]. fold (length_code lc). fold code. unfold LITERALS.
    replace (code + 256 + 1) with (code + 257) by lia.
    eapply (send_then s (zbits (lenL (code + 257)) (huffL (code + 257)))); [done|eapply send_code_spec; (done || lia)|]. intros s1 Hw1.
    destruct (writes_room _ _ _ Hw1) as (Hr1 & Hn1 & Hok1). rewrite zlen_zbits in Hn1 by lia. eexists. split; [|done].
    rewrite (lookup_table extra_lbits code 0) by (change (zlen extra_lbits) with 29; lia). cbn [mbind outcome_bind]. fold (lextra code). fold extra.
    rewrite (lookup_table base_length code 0) by (change (zlen base_length) with 29; lia). cbn [mbind outcome_bind]. fold (lbase_of code).
    eapply (send_then s1 (zbits extra (lc - lbase_of code))); [done|apply extra_bits_spec; [done|lia| |lia]|].
    { intros Hne. rewrite (proj2 (Z.eqb_neq extra 0)) in Hx by done. done. }
    intros s2 Hw2. destruct (writes_room _ _ _ Hw2) as (Hr2 & Hn2 & Hok2). rewrite zlen_zbits in Hn2 by lia. eexists. split; [|done].
    rewrite d_code_eq by lia. cbn [mbind outcome_bind]. fold dcode.
    eapply (send_then s2 (zbits (lenD dcode) (huffD dcode))); [done|eapply send_code_spec; (done || lia)|]. intros s3 Hw3.
    destruct (writes_room _ _ _ Hw3) as (Hr3 & Hn3 & Hok3). rewrite zlen_zbits in Hn3 by lia. eexists. split; [|done].
    rewrite (lookup_table extra_dbits dcode 0) by (change (zlen extra_dbits) with 30; lia). cbn [mbind outcome_bind]. fold (dextra dcode). fold dex.
    rewrite (lookup_table base_dist dcode 0) by (change (zlen base_dist) with 30; lia). cbn [mbind outcome_bind]. fold (dbase_of dcode).
    apply extra_bits_spec; [done|lia|done|lia].
Qed.

(** ** The overlay of the output on the tally *)

Definition items_bits (items : list (Z * Z)) : list bool := items ≫= item_bits.

(** The bytes written before an item is read stay below its entries. *)
Definition overlay_ok (s : dst) (items : list (Z * Z)) : Prop :=
  forall i, (i < length items)%nat -> nbits s + zlen (items_bits (take i items)) <= 8 * (d_lit_bufsize s + 2 * Z.of_nat i).

Lemma compress_items_spec s items : out_ok s -> tallied s items -> Forall valid_item items -> overlay_ok s items ->
  nbits s + zlen (items_bits items) <= room s ->
  forall k s1, (k <= length items)%nat -> writes s s1 (items_bits (take k items)) ->
  exists s', compress_items ltree dtree (seqZ (Z.of_nat k) (Z.of_nat (length items - k))) s1 = Ok s' /\ writes s1 s' (items_bits (drop k items)).
Proof.
  intros Hok (_ & Hlit & Htal) Hval Hover Hroom k. remember (length items - k)%nat as n eqn:En. revert k En. induction n as [|n IH]; intros k En s1 Hk Hw.
  - rewrite seqZ_nil by lia. rewrite drop_ge by lia. exists s1. split; [done|]. apply writes_refl. by destruct Hw.
  - destruct (writes_room _ _ _ Hw) as (Hr1 & Hn1 & Hok1). destruct (lookup_lt_is_Some_2 items k) as [it Hit]; [lia|].
    rewrite seqZ_cons by lia. cbn [compress_items]. rewrite (drop_S _ _ _ Hit). change (items_bits (it :: drop (S k) items)) with (item_bits it ++ items_bits (drop (S k) items)).
    destruct (Htal k it Hit) as [Hd Hl]. destruct (tally_kept s s1 _ (Z.of_nat k) Hok Hw) as [Hd1 Hl1]; [unfold zlen in *; lia|rewrite Hn1; apply Hover; lia|].
    assert (Hsum : items_bits items = items_bits (take k items) ++ item_bits it ++ items_bits (drop (S k) items)).
    { rewrite <- (take_drop k items) at 1. unfold items_bits. rewrite bind_app, (drop_S _ _ _ Hit). done. }
    rewrite Hsum, !zlen_app in Hroom. pose proof (zlen_nonneg (items_bits (drop (S k) items))).
    eapply (send_then s1 (item_bits it)); [done|apply compress_item_spec; [done|by rewrite Hd1|by rewrite Hl1|exact (Forall_lookup_1 _ _ _ _ Hval Hit)|lia]|].
    intros s2 Hw2. eexists. split; [|done]. replace (Z.succ (Z.of_nat k)) with (Z.of_nat (S k)) by lia. replace (Z.pred (Z.of_nat (S n))) with (Z.of_nat n) by lia.
    apply IH; [lia|lia|]. rewrite (take_S_r _ _ _ Hit). unfold items_bits. rewrite bind_app. cbn [mbind list_bind]. rewrite app_nil_r. by eapply writes_trans.
Qed.

(** [compress_block] emits the items and the end-of-block code. *)
Lemma compress_block_spec s items : out_ok s -> tallied s items -> Forall valid_item items -> overlay_ok s items -> domL END_BLOCK ->
  let B := items_bits items ++ zbits (lenL END_BLOCK) (huffL END_BLOCK) in
  nbits s + zlen B <= room s ->
  exists s', compress_block s ltree dtree = Ok (s' <| d_last_eob_len := lenL END_BLOCK |>) /\ writes s s' B.
Proof.
  intros Hok Ht Hval Hover Heob B Hroom. unfold B in *. destruct (HL _ Heob) as (_ & Hlk & Hle & _). rewrite zlen_app, zlen_zbits in Hroom by lia.
  destruct (compress_items_spec s items Hok Ht Hval Hover ltac:(lia) 0%nat s ltac:(lia) (writes_refl s Hok)) as (s1 & H1 & Hw1).
  rewrite drop_0 in Hw1. destruct (writes_room _ _ _ Hw1) as (Hr1 & Hn1 & Hok1).
  destruct (send_code_spec ltree domL lenL huffL s1 END_BLOCK HL Heob Hok1 ltac:(lia)) as (s2 & H2 & Hw2).
  exists s2. split; [|by eapply writes_trans]. unfold compress_block. destruct Ht as (-> & _). unfold zlen. change (Z.of_nat 0) with 0 in H1. rewrite Nat.sub_0_r in H1. rewrite H1. cbn [mbind outcome_bind].
  rewrite H2. cbn [mbind outcome_bind]. rewrite (elem_at_lookup ltree END_BLOCK _ ltac:(done) Hlk). done.
Qed.

End block.
