(* ===== verification/InfItems.v ===== *)
(** * Decoding literals and matches, byte by byte

    A block is a sequence of items, literals and matches; [expand] is the data
    they stand for.  In the mode [LEN] with an input that begins with the bits
    of an item the machine comes back to [LEN], through [LIT] or through
    [LENEXT], [DIST], [DISTEXT] and [MATCH], with the item expanded behind the
    output and its bits consumed ([slow_literal], [slow_match]). *)

From stdpp Require Import strings.
From S2P Require Import Prelude Inftrees BitRev InftreesSpec Inflate Bits InfDecode InfCopy TreesTables Trees TreesBlock.

(** ** What a block stands for *)

Definition item_len (it : Z * Z) : Z := if it.1 =? 0 then 1 else it.2 + 3.
Definition lz_item (h : list Z) (it : Z * Z) : list Z :=
  if it.1 =? 0 then h ++ [it.2] else lz_copy (Z.to_nat (it.2 + 3)) it.1 h.
Definition expand (h : list Z) (items : list (Z * Z)) : list Z := foldl lz_item h items.
Definition items_len (items : list (Z * Z)) : Z := foldr (fun it n => item_len it + n) 0 items.

(** Every distance reaches back to a byte that is there. *)
Fixpoint reachable (h : list Z) (items : list (Z * Z)) : Prop :=
  match items with [] => True | it :: items => it.1 <= zlen h /\ reachable (lz_item h it) items end.

(** ** Steps of the machine *)

Definition bstep (flush : Z) (s s' : inf) : Prop := block_mode (i_mode s) = true /\ block_step flush s = Got tt s'.

Lemma bstep_run flush s s' : rtc (bstep flush) s s' -> exists n, forall fuel, inflate_blocks (n + fuel) flush s = inflate_blocks fuel flush s'.
Proof.
  intros H. induction H as [s|s s1 s' [Hm Hs] _ [n IH]]; [by exists 0%nat|]. exists (S n). intros fuel. cbn [Nat.add inflate_blocks]. by rewrite Hm, Hs.
Qed.

(** The parts of the state that decoding an item leaves alone. *)
Definition fixed_part (s : inf) : inf :=
  s <| i_mode := LEN |> <| i_hold := 0 |> <| i_bits := 0 |> <| i_pos := 0 |> <| i_out := [] |> <| i_left := 0 |>
    <| i_length := 0 |> <| i_offset := 0 |> <| i_extra := 0 |>.
Definition frame (s s' : inf) : Prop := fixed_part s = fixed_part s'.

Lemma frame_field {A} (f : inf -> A) s s' : (forall s, f (fixed_part s) = f s) -> frame s s' -> f s' = f s.
Proof. intros Hf E. unfold frame in E. rewrite <- (Hf s'), <- (Hf s). by f_equal. Qed.

Lemma reads_frame s s' R : reads s s' R -> frame s s' /\ i_out s' = i_out s /\ i_left s' = i_left s /\ i_mode s' = i_mode s
  /\ i_length s' = i_length s /\ i_offset s' = i_offset s /\ i_extra s' = i_extra s.
Proof. intros [(h & b & p & ->) _]. done. Qed.

Lemma frame_win s s' : frame s s' -> win_ok s -> win_ok s' /\ whist s' = whist s.
Proof.
  intros F [H1 H2 H3]. pose proof (frame_field i_window s s' ltac:(done) F). pose proof (frame_field i_wsize s s' ltac:(done) F).
  pose proof (frame_field i_write s s' ltac:(done) F). pose proof (frame_field i_whave s s' ltac:(done) F).
  split; [split; congruence|]. unfold whist. congruence.
Qed.

Lemma BITS_eq n s : BITS n s = Got (low_bits s n) s.
Proof. reflexivity. Qed.

(** [n] bits at the front are waited for, read and dropped. *)
Lemma needbits_front s n v R : buf_ok s -> i_bits s <= 7 -> 0 <= n <= 16 -> 0 <= v < 2 ^ n -> rbits s = zbits n v ++ R ->
  exists s1, NEEDBITS n s = Got tt s1 /\ (exists h b p, s1 = set_buf s h b p) /\ low_bits s1 n = v /\ reads s (drop_bits s1 n) R /\ i_bits (drop_bits s1 n) <= 7.
Proof.
  intros Hok Hb Hn Hv HR. destruct (NEEDBITS_spec s n Hok ltac:(lia)) as (s1 & H1 & Hr1 & Hge & Hle).
  { rewrite HR, zlen_app, zlen_zbits by lia. pose proof (zlen_nonneg R). lia. }
  pose proof Hr1 as (_ & Hok1 & HR1). rewrite HR in HR1. exists s1. split; [done|]. split; [by destruct Hr1|]. split; [by eapply BITS_front; eauto; lia|].
  destruct (drop_front s1 n v R Hok1 HR1 ltac:(lia) ltac:(change (2 ^ 32) with 4294967296; lia)) as [Hr2 Hb2]. split; [by eapply reads_trans|]. lia.
Qed.

(** ** Matches *)

Lemma extra_ops e : 0 <= e <= 13 ->
  (16 + e =? 0) = false /\ (Z.land (16 + e) 16 =? 0) = false /\ (Z.land (16 + e) 32 =? 0) = true /\ (Z.land (16 + e) 64 =? 0) = true /\ Z.land (16 + e) 15 = e.
Proof.
  intros He. assert (H : Forall (fun e => (16 + e =? 0) = false /\ (Z.land (16 + e) 16 =? 0) = false /\ (Z.land (16 + e) 32 =? 0) = true
    /\ (Z.land (16 + e) 64 =? 0) = true /\ Z.land (16 + e) 15 = e) (seqZ 0 14)) by by_decide.
  rewrite Forall_forall in H. apply H, elem_of_seqZ. lia.
Qed.

(** The part of a length or distance the extra bits hold. *)
Definition len_rest (lc : Z) : Z := if lextra (length_code lc) =? 0 then 0 else lc - lbase_of (length_code lc).
Definition dist_rest (d : Z) : Z := d - dbase_of (dist_code d).

Lemma length_entry lc : 0 <= lc < 256 -> let code := length_code lc in
  0 <= code < 29 /\ 0 <= lextra code <= 5 /\ 0 <= len_rest lc < 2 ^ lextra code
  /\ (forall b, sym_entry LENS (code + 257) b = mkCode (16 + lextra code) b (lc + 3 - len_rest lc))
  /\ zbits (lextra code) (lc - lbase_of code) = zbits (lextra code) (len_rest lc).
Proof.
  intros Hlc. pose proof (length_ok_all lc Hlc) as (Hc & He & Hx & Hb & Hext). cbv zeta in *. unfold len_rest in *. set (code := length_code lc) in *.
  split; [done|]. split; [done|]. destruct (Z.eqb_spec (lextra code) 0) as [E|E].
  - split; [pose proof (pow2_pos (lextra code)); lia|]. split; [|by rewrite E, !zbits_0]. intros b. unfold sym_entry.
    rewrite (proj2 (Z.ltb_ge _ _)), (proj2 (Z.eqb_neq _ _)) by lia. rewrite Z.add_simpl_r, Hext, Hb. simpl. f_equal. lia.
  - split; [lia|]. split; [|done]. intros b. unfold sym_entry.
    rewrite (proj2 (Z.ltb_ge _ _)), (proj2 (Z.eqb_neq _ _)) by lia. rewrite Z.add_simpl_r, Hext, Hb. done.
Qed.

Lemma dist_entry d : 0 <= d < 32768 -> let code := dist_code d in
  0 <= code < 30 /\ 0 <= dextra code <= 13 /\ 0 <= dist_rest d < 2 ^ dextra code
  /\ (forall b, sym_entry DISTS code b = mkCode (16 + dextra code) b (d + 1 - dist_rest d)).
Proof.
  intros Hd. destruct (dist_ok_all d Hd) as (Hc & He & Hx & Hb & Hext). cbv zeta in *. split; [done|]. split; [done|]. unfold dist_rest.
  split; [exact Hx|]. intros b. unfold sym_entry. rewrite Hext, Hb. done.
Qed.

Section items.
Context (tableL tableD : list code) (rootL rootD : Z) (domL domD : Z -> Prop) (lenL huffL lenD huffD : Z -> Z) (entL entD : Z -> Z -> code).

(** The tables decode literal/length and distance codes. *)
Record block_codes : Prop := {
  bc_L : decoder tableL rootL domL lenL huffL entL len_link;
  bc_D : decoder tableD rootD domD lenD huffD entD dist_link;
  bc_entL : forall x b, domL x -> 0 <= x < 286 -> entL x b = sym_entry LENS x b;
  bc_entD : forall x b, domD x -> 0 <= x < 30 -> entD x b = sym_entry DISTS x b;
  bc_stopL : forall x b, domL x -> len_stop (entL x b) = true;
  bc_stopD : forall x b, domD x -> dist_stop (entD x b) = true;
  bc_posL : forall x, domL x -> 0 <= x;
  bc_posD : forall x, domD x -> 0 <= x }.

(** A state in which an item can be decoded, with at most [lim] bits in the buffer. *)
Record at_item (lim : Z) (s : inf) : Prop := {
  at_buf : buf_ok s;
  at_bits : i_bits s <= lim;
  at_win : win_ok s;
  at_tableL : code_array s (i_lencode s) = tableL;
  at_rootL : i_lenbits s = rootL;
  at_tableD : code_array s (i_distcode s) = tableD;
  at_rootD : i_distbits s = rootD }.

Lemma at_item_frame lim lim' s s' : at_item lim s -> frame s s' -> buf_ok s' -> i_bits s' <= lim' -> at_item lim' s'.
Proof.
  intros [] F Hok Hb. destruct (frame_win s s' F at_win0) as [W _].
  split; [done|done|done| | | |].
  - rewrite <- at_tableL0. exact (frame_field (fun s => code_array s (i_lencode s)) s s' ltac:(done) F).
  - rewrite <- at_rootL0. exact (frame_field i_lenbits s s' ltac:(done) F).
  - rewrite <- at_tableD0. exact (frame_field (fun s => code_array s (i_distcode s)) s s' ltac:(done) F).
  - rewrite <- at_rootD0. exact (frame_field i_distbits s s' ltac:(done) F).
Qed.

(** The state [s'] is [s] in mode [m] with the string [R] to read, [n] bytes
    of output added, and [H] the bytes that can be reached. *)
Record arrives (lim : Z) (s s' : inf) (m : inflate_mode) (R : list bool) (H : list Z) (n : Z) : Prop := {
  ar_item : at_item lim s';
  ar_frame : frame s s';
  ar_mode : i_mode s' = m;
  ar_rbits : rbits s' = R;
  ar_hist : hist s' = H;
  ar_left : i_left s' = i_left s - n }.

Lemma arrives_trans lim lim' s s1 s2 m1 m2 R1 R2 H1 H2 n1 n2 :
  arrives lim s s1 m1 R1 H1 n1 -> arrives lim' s1 s2 m2 R2 H2 n2 -> arrives lim' s s2 m2 R2 H2 (n1 + n2).
Proof. intros [] []. split; try done; [by unfold frame in *; congruence|lia]. Qed.

Section steps.
Context (BC : block_codes) (flush : Z).
#[local] Set Default Proof Using "All".

(** The slow path is taken at the ends of input and output. *)
Definition slow (s : inf) : Prop := (6 <=? avail_in s) && (258 <=? i_left s) = false.

Lemma len_step s c R : i_mode s = LEN -> slow s -> at_item 7 s -> domL c -> rbits s = zbits (lenL c) (huffL c) ++ R ->
  exists b s1, reads s s1 R /\ i_bits s1 <= 7 /\ block_step flush s =
    (let this := entL c b in
     upd (fun s => s <| i_length := c_val this |>) ;;
     if c_op this =? 0 then set_mode LIT
     else if negb (Z.land (c_op this) 32 =? 0) then set_mode TYPE
     else if negb (Z.land (c_op this) 64 =? 0) then set_bad "invalid literal/length code"
     else upd (fun s => s <| i_extra := Z.land (c_op this) 15 |>) ;; set_mode LENEXT) s1.
Proof.
  intros Hm Hs [Hok Hb W HtL HrL _ _] Hc HR. destruct (next_code_spec tableL rootL domL lenL huffL entL len_link (bc_L BC) s c R Hok ltac:(lia) Hc HR) as (b & s1 & Hn & Hr & Hb1 & _).
  exists b, s1. split; [done|]. split; [pose proof (dec_len _ _ _ _ _ _ _ (bc_L BC) c Hc); lia|].
  unfold block_step. rewrite (bind_Got _ _ s s s) by done. rewrite Hm. unfold step_len. rewrite (bind_Got _ _ s s s) by done. unfold slow in Hs. rewrite Hs.
  unfold slow_len. rewrite (bind_Got _ _ s s s) by done. rewrite HtL, HrL. rewrite (bind_Got _ _ _ _ _ Hn). done.
Qed.

(** A literal. *)
Lemma slow_literal s c R : i_mode s = LEN -> slow s -> at_item 7 s -> domL c -> 0 <= c < 256 -> rbits s = zbits (lenL c) (huffL c) ++ R -> 1 <= i_left s ->
  exists s', rtc (bstep flush) s s' /\ arrives 7 s s' LEN R (hist s ++ [c]) 1.
Proof.
  intros Hm Hs Hat Hc Hr HR Hl. destruct (len_step s c R Hm Hs Hat Hc HR) as (b & s1 & Hrd & Hb1 & Hstep).
  rewrite (bc_entL BC c b Hc) in Hstep by lia. unfold sym_entry in Hstep. rewrite (proj2 (Z.ltb_lt c 256)) in Hstep by lia. cbn in Hstep.
  set (s2 := s1 <| i_length := c |> <| i_mode := LIT |>). change (block_step flush s = Got tt s2) in Hstep.
  pose proof (reads_frame _ _ _ Hrd) as (HF & Ho & Hlf & _). pose proof Hrd as (_ & Hok1 & HR1).
  exists ((emit s2 [c]) <| i_mode := LEN |>). split.
  - eapply rtc_l; [split; [by rewrite Hm|exact Hstep]|]. apply rtc_once. split; [done|]. unfold block_step. rewrite (bind_Got _ _ s2 s2 s2) by done. cbn [s2 i_mode].
    change (step_lit s2 = Got tt ((emit s2 [c]) <| i_mode := LEN |>)). unfold step_lit. rewrite (bind_Got _ _ s2 s2 s2) by done.
    rewrite (proj2 (Z.eqb_neq (i_left s2) 0)) by (cbn; lia). change (i_length s2) with c. rewrite u8_small by (unfold is_u8; change (2 ^ 8) with 256; lia).
    rewrite (bind_Got _ _ _ _ _ (put_out_spec s2 c ltac:(cbn; lia))). done.
  - assert (HF' : frame s ((emit s2 [c]) <| i_mode := LEN |>)) by exact HF.
    split; [|done|done|done| |cbn; rewrite Hlf; done].
    + apply (at_item_frame 7 7 s); [done|done| |done]. destruct Hok1. by split.
    + destruct (frame_win _ _ HF' (at_win _ s Hat)) as [_ Hw]. unfold hist. rewrite Hw. cbn. rewrite Ho. by rewrite app_assoc.
Qed.

(** The end of the block. *)
Lemma slow_end s R : i_mode s = LEN -> slow s -> at_item 7 s -> domL 256 -> rbits s = zbits (lenL 256) (huffL 256) ++ R ->
  exists s', rtc (bstep flush) s s' /\ arrives 7 s s' TYPE R (hist s) 0.
Proof.
  intros Hm Hs Hat Hc HR. destruct (len_step s 256 R Hm Hs Hat Hc HR) as (b & s1 & Hrd & Hb1 & Hstep).
  rewrite (bc_entL BC 256 b Hc) in Hstep by lia. cbn in Hstep. set (s2 := s1 <| i_length := 0 |> <| i_mode := TYPE |>). change (block_step flush s = Got tt s2) in Hstep.
  pose proof (reads_frame _ _ _ Hrd) as (HF & Ho & Hlf & _). pose proof Hrd as (_ & Hok1 & HR1). exists s2. split; [apply rtc_once; split; [by rewrite Hm|exact Hstep]|].
  assert (HF' : frame s s2) by exact HF. split; [|done|done|done| |cbn; lia].
  - apply (at_item_frame 7 7 s); [done|done| |done]. destruct Hok1. by split.
  - destruct (frame_win _ _ HF' (at_win _ s Hat)) as [_ Hw]. unfold hist. rewrite Hw. cbn. by rewrite Ho.
Qed.

(** *** The modes of a match *)

Lemma lenext_step s e x R : i_mode s = LENEXT -> i_extra s = e -> buf_ok s -> i_bits s <= 7 -> 0 <= e <= 13 -> 0 <= x < 2 ^ e -> rbits s = zbits e x ++ R ->
  exists s', block_step flush s = Got tt s' /\ reads (s <| i_length := i_length s + x |> <| i_mode := DIST |>) s' R /\ i_bits s' <= 7.
Proof.
  intros Hm Hext Hok Hb He Hx HR. unfold block_step. rewrite (bind_Got _ _ s s s) by done. rewrite Hm. unfold step_lenext. rewrite (bind_Got _ _ s s s) by done. rewrite Hext.
  destruct (Z.eqb_spec e 0) as [E|E]; cbn [negb].
  - exists (s <| i_mode := DIST |>). split; [done|]. assert (x = 0) as -> by (rewrite E in Hx; change (2 ^ 0) with 1 in Hx; lia). rewrite E, zbits_0 in HR. rewrite Z.add_0_r.
    split; [|done]. split; [exists (i_hold s), (i_bits s), (i_pos s); by destruct s|]. destruct Hok. split; [by split|exact HR].
  - destruct (needbits_front s e x R Hok Hb ltac:(lia) Hx HR) as (s1 & Hn & (h & b & p & ->) & Hlow & (_ & [] & HR') & Hb').
    eexists. rewrite (bind_Got _ _ _ tt (drop_bits (set_buf (s <| i_length := i_length s + x |>) h b p) e)).
    2: { rewrite (bind_Got _ _ _ _ _ Hn). rewrite (bind_Got _ _ _ _ _ (BITS_eq e _)), Hlow. reflexivity. }
    split; [reflexivity|]. split; [|exact Hb']. split; [by eexists _, _, _|]. split; [by split|exact HR'].
Qed.

Lemma distext_step s e x R : i_mode s = DISTEXT -> i_extra s = e -> buf_ok s -> i_bits s <= 7 -> 0 <= e <= 13 -> 0 <= x < 2 ^ e -> rbits s = zbits e x ++ R ->
  i_offset s + x <= i_whave s + zlen (i_out s) ->
  exists s', block_step flush s = Got tt s' /\ reads (s <| i_offset := i_offset s + x |> <| i_mode := MATCH |>) s' R /\ i_bits s' <= 7.
Proof.
  intros Hm Hext Hok Hb He Hx HR Hfar. unfold block_step. rewrite (bind_Got _ _ s s s) by done. rewrite Hm. unfold step_distext. rewrite (bind_Got _ _ s s s) by done. rewrite Hext.
  destruct (Z.eqb_spec e 0) as [E|E]; cbn [negb].
  - exists (s <| i_mode := MATCH |>). assert (x = 0) as -> by (rewrite E in Hx; change (2 ^ 0) with 1 in Hx; lia). rewrite E, zbits_0 in HR. rewrite Z.add_0_r in *. split.
    { rewrite (bind_Got _ _ s tt s) by done. rewrite (bind_Got _ _ s s s) by done. by rewrite (proj2 (Z.ltb_ge _ _)) by lia. }
    split; [|done]. split; [exists (i_hold s), (i_bits s), (i_pos s); by destruct s|]. destruct Hok. split; [by split|exact HR].
  - destruct (needbits_front s e x R Hok Hb ltac:(lia) Hx HR) as (s1 & Hn & (h & b & p & ->) & Hlow & (_ & [] & HR') & Hb').
    set (s2 := drop_bits (set_buf (s <| i_offset := i_offset s + x |>) h b p) e). exists (s2 <| i_mode := MATCH |>). rewrite (bind_Got _ _ _ tt s2).
    2: { rewrite (bind_Got _ _ _ _ _ Hn). rewrite (bind_Got _ _ _ _ _ (BITS_eq e _)), Hlow. reflexivity. }
    split. { rewrite (bind_Got _ _ s2 s2 s2) by done. by rewrite (proj2 (Z.ltb_ge (i_whave s2 + zlen (i_out s2)) (i_offset s2))) by exact Hfar. }
    split; [|exact Hb']. split; [by eexists _, _, _|]. split; [by split|exact HR'].
Qed.

Lemma dist_step s c R : i_mode s = DIST -> at_item 7 s -> domD c -> 0 <= c < 30 -> rbits s = zbits (lenD c) (huffD c) ++ R ->
  forall e v, 0 <= e <= 13 -> (forall b, sym_entry DISTS c b = mkCode (16 + e) b v) ->
  exists s', block_step flush s = Got tt s' /\ reads (s <| i_offset := v |> <| i_extra := e |> <| i_mode := DISTEXT |>) s' R /\ i_bits s' <= 7.
Proof.
  intros Hm [Hok Hb W _ _ HtD HrD] Hc Hc30 HR e v He Hent. destruct (next_code_spec tableD rootD domD lenD huffD entD dist_link (bc_D BC) s c R Hok ltac:(lia) Hc HR)
    as (b & s1 & Hn & ((h1 & b1 & p1 & ->) & [] & HR') & Hb1 & _).
  pose proof (dec_len _ _ _ _ _ _ _ (bc_D BC) c Hc). destruct (extra_ops e He) as (_ & _ & _ & E64 & E15). eexists.
  unfold block_step. rewrite (bind_Got _ _ s s s) by done. rewrite Hm. unfold step_dist. rewrite (bind_Got _ _ s s s) by done. rewrite HtD, HrD.
  rewrite (bind_Got _ _ _ _ _ Hn), (bc_entD BC) by (done || lia). rewrite Hent. cbn [c_op c_val]. rewrite E64, E15. cbn [negb].
  split; [reflexivity|]. cbn in Hb1. split; [|cbn; lia]. split; [by eexists _, _, _|]. split; [by split|exact HR'].
Qed.

(** The copy of a match takes one to three steps. *)
Lemma match_steps n : forall s, i_mode s = MATCH -> win_ok s -> 1 <= i_length s <= Z.of_nat n -> i_length s <= i_left s -> 1 <= i_offset s <= zlen (hist s) ->
  exists X, rtc (bstep flush) s ((emit (s <| i_length := 0 |>) X) <| i_mode := LEN |>) /\ zlen X = i_length s /\ hist s ++ X = lz_copy (Z.to_nat (i_length s)) (i_offset s) (hist s).
Proof.
  induction n as [|n IH]; intros s Hm W Hn Hl Ho; [lia|]. destruct (step_match_spec s W ltac:(lia) Ho) as (X & c & Hstep & Hc & Hz & Hh).
  assert (Hb : bstep flush s (matched s X c)). { split; [by rewrite Hm|]. unfold block_step. rewrite (bind_Got _ _ s s s) by done. by rewrite Hm. }
  unfold matched in Hb. cbn in Hb. destruct (Z.eqb_spec (i_length s - c) 0) as [E|E].
  - exists X. rewrite E in Hb. split; [by apply rtc_once|]. assert (c = i_length s) as <- by lia. done.
  - set (s1 := emit (s <| i_length := i_length s - c |>) X) in *.
    assert (Hh1 : hist s1 = hist s ++ X) by (unfold s1; by rewrite hist_emit).
    destruct (IH s1) as (Y & Hrun & HzY & HhY); [exact Hm|destruct W; by split|cbn; lia|cbn; lia|rewrite Hh1, zlen_app; cbn; pose proof (zlen_nonneg X); lia|].
    exists (X ++ Y). split; [|split].
    + eapply rtc_l; [exact Hb|]. replace (emit (s <| i_length := 0 |>) (X ++ Y)) with (emit (s1 <| i_length := 0 |>) Y); [exact Hrun|]. symmetry. exact (eq_sym (emit_emit (s <| i_length := 0 |>) X Y)).
    + rewrite zlen_app. cbn in HzY. lia.
    + rewrite Hh1 in HhY. rewrite app_assoc, HhY, Hh, <- lz_copy_add. cbn. f_equal. lia.
Qed.

(** A match. *)
Lemma slow_match s dist lc R : i_mode s = LEN -> slow s -> at_item 7 s -> valid_item domL domD (dist, lc) -> dist <> 0 ->
  rbits s = match_bits lenL huffL lenD huffD dist lc ++ R -> lc + 3 <= i_left s -> dist <= zlen (hist s) ->
  exists s', rtc (bstep flush) s s' /\ arrives 7 s s' LEN R (lz_copy (Z.to_nat (lc + 3)) dist (hist s)) (lc + 3).
Proof.
  intros Hm Hs Hat [Hlc [[? _]|(Hd & HdL & HdD)]] Hne HR Hl Hfar; cbn in *; [done|].
  destruct (length_entry lc Hlc) as (Hc & He & Hx & Hent & Hbits). destruct (dist_entry (dist - 1) ltac:(lia)) as (Hdc & Hde & Hdx & Hdent). cbv zeta in *.
  unfold match_bits in HR. cbv zeta in HR. rewrite Hbits in HR. rewrite <- !app_assoc in HR.
  set (code := length_code lc) in *. set (e := lextra code) in *. set (x := len_rest lc) in *. set (dcode := dist_code (dist - 1)) in *. set (de := dextra dcode) in *.
  (* LEN *)
  destruct (len_step s (code + 257) _ Hm Hs Hat HdL HR) as (b & s1 & ((h1 & b1 & p1 & ->) & [] & HR1) & Hb1 & Hstep).
  rewrite (bc_entL BC _ b HdL), Hent in Hstep by lia. destruct (extra_ops e ltac:(lia)) as (E0 & _ & E32 & E64 & E15). cbv zeta in Hstep. cbn [c_op c_val] in Hstep.
  rewrite E0, E32, E64, E15 in Hstep. cbn [negb] in Hstep. set (s1 := set_buf (s <| i_length := lc + 3 - x |> <| i_extra := e |> <| i_mode := LENEXT |>) h1 b1 p1).
  change (block_step flush s = Got tt s1) in Hstep.
  (* LENEXT *)
  destruct (lenext_step s1 e x _ eq_refl eq_refl ltac:(by split) Hb1 ltac:(lia) Hx HR1) as (s2' & Hstep2 & ((h2 & b2 & p2 & ->) & [] & HR2) & Hb2).
  set (s2 := set_buf (s1 <| i_length := i_length s1 + x |> <| i_mode := DIST |>) h2 b2 p2) in *.
  assert (Hat2 : at_item 7 s2) by (apply (at_item_frame 7 7 s); [done|done|by split|done]).
  (* DIST *)
  destruct (dist_step s2 dcode _ eq_refl Hat2 HdD Hdc HR2 de _ Hde Hdent) as (s3' & Hstep3 & ((h3 & b3 & p3 & ->) & [] & HR3) & Hb3).
  set (s3 := set_buf (s2 <| i_offset := dist - 1 + 1 - dist_rest (dist - 1) |> <| i_extra := de |> <| i_mode := DISTEXT |>) h3 b3 p3) in *.
  (* DISTEXT *)
  destruct (distext_step s3 de (dist_rest (dist - 1)) R eq_refl eq_refl ltac:(by split) Hb3 Hde Hdx HR3) as (s4' & Hstep4 & ((h4 & b4 & p4 & ->) & [] & HR4) & Hb4).
  { cbn. rewrite zlen_hist in Hfar by by destruct Hat. lia. }
  set (s4 := set_buf (s3 <| i_offset := i_offset s3 + dist_rest (dist - 1) |> <| i_mode := MATCH |>) h4 b4 p4) in *.
  assert (Hlen4 : i_length s4 = lc + 3) by (cbn; lia). assert (Hoff4 : i_offset s4 = dist) by (cbn; lia).
  assert (Hh4 : hist s4 = hist s) by done. assert (W4 : win_ok s4) by (destruct Hat as [_ _ [] _ _ _ _]; by split).
  (* MATCH *)
  destruct (match_steps (Z.to_nat (lc + 3)) s4 eq_refl W4 ltac:(lia) ltac:(rewrite Hlen4; exact Hl) ltac:(rewrite Hoff4, Hh4; lia)) as (X & Hrun & HzX & HhX).
  rewrite Hlen4, Hoff4, Hh4 in *. eexists. split.
  - eapply rtc_l; [split; [by rewrite Hm|exact Hstep]|]. eapply rtc_l; [split; [done|exact Hstep2]|]. eapply rtc_l; [split; [done|exact Hstep3]|].
    eapply rtc_l; [split; [done|exact Hstep4]|]. exact Hrun.
  - split; [|done|done|exact HR4| |cbn; lia].
    + apply (at_item_frame 7 7 s); [done|done|by split|done].
    + rewrite <- HhX. unfold hist. cbn. by rewrite app_assoc.
Qed.

End steps.
End items.
