(* ===== verification/InfFast.v ===== *)
(** * The fast loop

    [inflate_fast] reads without looking whether there is input: with six bytes
    of input and room for 258 bytes at the start of an iteration it never goes
    past either ([fast_step]), decodes item after item as the slow path does
    ([fast_loop_spec]), and gives back exactly the bytes it read too many
    ([give_back_spec]). *)

From stdpp Require Import strings.
From S2P Require Import Prelude Inftrees BitRev InftreesSpec Inflate Bits InfDecode InfCopy TreesTables Trees TreesBlock InfItems.

(** ** Reading *)

Lemma fast_byte_spec s : buf_ok s -> i_bits s <= 24 -> i_bits s < zlen (rbits s) ->
  exists s', fast_byte s = Got tt s' /\ reads s s' (rbits s) /\ i_bits s' = i_bits s + 8.
Proof.
  intros Hok H24 Hz. rewrite zlen_rbits in Hz by done. destruct (take_byte_spec s Hok H24 ltac:(lia)) as (s' & Ht & Hr & Hb & _).
  exists s'. unfold fast_byte. by rewrite Ht.
Qed.

Lemma fast_fill_spec s : buf_ok s -> i_bits s <= 30 -> i_bits s + 8 < zlen (rbits s) \/ 15 <= i_bits s ->
  exists s', fast_fill s = Got tt s' /\ reads s s' (rbits s) /\ 15 <= i_bits s' <= 30.
Proof.
  intros Hok H30 Hz. unfold fast_fill. rewrite (bind_Got _ _ s s s) by done. destruct (Z.ltb_spec (i_bits s) 15) as [Hlt|Hge].
  - destruct (fast_byte_spec s Hok ltac:(lia) ltac:(lia)) as (s1 & H1 & Hr1 & Hb1). pose proof Hr1 as (_ & Hok1 & HR1).
    destruct (fast_byte_spec s1 Hok1 ltac:(lia) ltac:(rewrite HR1; lia)) as (s2 & H2 & Hr2 & Hb2). rewrite HR1 in Hr2.
    exists s2. rewrite (bind_Got _ _ _ _ _ H1). split; [done|]. split; [by eapply reads_trans|]. destruct Hok. lia.
  - exists s. split; [done|]. split; [by apply reads_refl|lia].
Qed.

(** Bits that are in the buffer are read and dropped. *)
Lemma take_front s n v R : buf_ok s -> 0 <= n <= 13 -> n <= i_bits s <= 30 -> 0 <= v < 2 ^ n -> rbits s = zbits n v ++ R ->
  low_bits s n = v /\ reads s (drop_bits s n) R /\ i_bits (drop_bits s n) = i_bits s - n.
Proof.
  intros Hok Hn Hb Hv HR. split; [eapply BITS_front; eauto; lia|]. apply (drop_front s n v R); [done|done|lia|]. change (2 ^ 32) with 4294967296. lia.
Qed.

(** Extra bits: [fill] has seen to it that they are in the buffer. *)
Lemma extra_front {A} s s1 (fill : M unit) (k : Z -> M A) e x R : fill s = Got tt s1 -> reads s s1 (rbits s) -> 0 <= e <= 13 -> e <= i_bits s1 <= 30 -> 0 <= x < 2 ^ e ->
  rbits s = zbits e x ++ R ->
  exists s2, (fill ;; n ← BITS e; DROPBITS e ;; k n) s = k x s2 /\ reads s s2 R /\ i_bits s2 = i_bits s1 - e.
Proof.
  intros Hf Hr He Hb Hx HR. pose proof Hr as (_ & Hok1 & HR1). rewrite HR in HR1. destruct (take_front s1 e x R Hok1 He Hb Hx HR1) as (Hlow & Hr2 & Hb2).
  exists (drop_bits s1 e). rewrite (bind_Got _ _ _ _ _ Hf), (bind_Got _ _ _ _ _ (BITS_eq e s1)), Hlow, (bind_Got (DROPBITS e) _ s1 tt (drop_bits s1 e) eq_refl).
  split; [done|]. split; [by eapply reads_trans|done].
Qed.

Lemma len_fill s e : buf_ok s -> 0 <= i_bits s <= 30 -> 0 <= e <= 5 -> e <= zlen (rbits s) ->
  exists s1, (if i_bits s <? e then fast_byte else mret tt) s = Got tt s1 /\ reads s s1 (rbits s) /\ e <= i_bits s1 <= 30.
Proof.
  intros Hok Hb He Hz. destruct (Z.ltb_spec (i_bits s) e) as [Hlt|Hge].
  - destruct (fast_byte_spec s Hok ltac:(lia) ltac:(lia)) as (s1 & H1 & Hr1 & Hb1). exists s1. split; [done|]. split; [done|lia].
  - exists s. split; [done|]. split; [by apply reads_refl|lia].
Qed.

Lemma dist_fill s e : buf_ok s -> 0 <= i_bits s <= 30 -> 0 <= e <= 13 -> e <= zlen (rbits s) ->
  exists s1, (if i_bits s <? e then fast_byte ;; s ← get; if i_bits s <? e then fast_byte else mret tt else mret tt) s = Got tt s1
    /\ reads s s1 (rbits s) /\ e <= i_bits s1 <= 30.
Proof.
  intros Hok Hb He Hz. destruct (Z.ltb_spec (i_bits s) e) as [Hlt|Hge].
  - destruct (fast_byte_spec s Hok ltac:(lia) ltac:(lia)) as (s1 & H1 & Hr1 & Hb1). pose proof Hr1 as (_ & Hok1 & HR1).
    rewrite (bind_Got _ _ _ _ _ H1), (bind_Got _ _ s1 s1 s1) by done. destruct (Z.ltb_spec (i_bits s1) e) as [Hlt1|Hge1].
    + destruct (fast_byte_spec s1 Hok1 ltac:(lia) ltac:(rewrite HR1; lia)) as (s2 & H2 & Hr2 & Hb2). rewrite HR1 in Hr2.
      exists s2. split; [done|]. split; [by eapply reads_trans|lia].
    + exists s1. split; [done|]. split; [done|lia].
  - exists s. split; [done|]. split; [by apply reads_refl|lia].
Qed.

(** ** Giving bytes back *)

Lemma app_same_length {A} (a b c d : list A) : a ++ b = c ++ d -> length a = length c -> a = c /\ b = d.
Proof. intros. by apply app_inj_1. Qed.

Lemma give_back_spec s0 s C : buf_ok s0 -> buf_ok s -> i_in s = i_in s0 -> i_bits s0 <= 7 -> i_bits s <= 30 -> rbits s0 = C ++ rbits s ->
  let len := Z.shiftr (i_bits s) 3 in let bits := i_bits s - Z.shiftl len 3 in
  let s' := set_buf s (Z.land (i_hold s) (u32 (shl1 bits - 1))) bits (i_pos s - len) in
  0 <= i_pos s - len /\ reads s s' (rbits s) /\ i_bits s' <= 7.
Proof.
  intros Hok0 Hok Hin Hb0 Hb HC len bits s'. pose proof (zlen_rbits s0 Hok0) as Hz0. pose proof (zlen_rbits s Hok) as Hz. unfold avail_in in *.
  rewrite Hin in Hz. pose proof Hok0 as [Hb0' _ Hp0 Hi0]. pose proof Hok as [Hbp Hh Hp Hi]. rewrite Hin in Hp.
  assert (Hlen : len = i_bits s `div` 8) by (unfold len; by rewrite Z.shiftr_div_pow2).
  assert (Hbits : bits = i_bits s - 8 * len) by (unfold bits; rewrite Z.shiftl_mul_pow2 by lia; lia).
  assert (Hb7 : 0 <= bits <= 7) by (rewrite Hbits, Hlen; Z.div_mod_to_equations; lia).
  rewrite HC, zlen_app in Hz0. pose proof (zlen_nonneg C).
  assert (Hpos : i_pos s0 <= i_pos s - len) by lia. assert (Hl0 : 0 <= len) by (rewrite Hlen; Z.div_mod_to_equations; lia).
  assert (Hback : rbits s = zbits bits (i_hold s) ++ bytes_bits (drop (Z.to_nat (i_pos s - len)) (i_in s0))).
  { set (D := bytes_bits (drop (Z.to_nat (i_pos s - len)) (i_in s0))). assert (HzD : zlen D = 8 * (zlen (i_in s0) - (i_pos s - len))) by (unfold D; rewrite zlen_bytes_bits, zlen_drop by lia; lia).
    assert (Hsuf : exists P, C ++ rbits s = P ++ D).
    { exists (zbits (i_bits s0) (i_hold s0) ++ bytes_bits (take (Z.to_nat (i_pos s - len - i_pos s0)) (drop (Z.to_nat (i_pos s0)) (i_in s0)))).
      rewrite <- HC. unfold rbits, D. rewrite <- app_assoc, <- bytes_bits_app. do 2 f_equal.
      replace (Z.to_nat (i_pos s - len)) with (Z.to_nat (i_pos s0) + Z.to_nat (i_pos s - len - i_pos s0))%nat by lia. rewrite <- drop_drop. by rewrite take_drop. }
    destruct Hsuf as [P HP]. assert (Hr : rbits s = zbits bits (i_hold s) ++ (zbits (i_bits s - bits) (i_hold s `div` 2 ^ bits) ++ bytes_bits (drop (Z.to_nat (i_pos s)) (i_in s)))).
    { unfold rbits. replace (i_bits s) with (bits + (i_bits s - bits)) at 1 by lia. rewrite zbits_split by lia. by rewrite <- app_assoc. }
    rewrite Hr in HP at 1. rewrite app_assoc in HP. apply app_inj_2 in HP as [_ HD]; [by rewrite Hr, HD|].
    assert (Hz2 : zlen (rbits s) = bits + zlen D) by lia. rewrite Hr, zlen_app, zlen_zbits in Hz2 by lia. unfold zlen in *. lia. }
  assert (Hmask : Z.land (i_hold s) (u32 (shl1 bits - 1)) = i_hold s `mod` 2 ^ bits).
  { rewrite <- low_bits_mod by lia. done. }
  split; [lia|]. split; [|exact (proj2 Hb7)]. split; [by eexists _, _, _|]. unfold s'. rewrite Hmask. split.
  - split; cbn; [lia|apply Z.mod_pos_bound, pow2_pos; lia| |done]. rewrite Hin. lia.
  - rewrite Hback. unfold rbits. cbn. rewrite zbits_mod by lia. by rewrite Hin.
Qed.

(** ** One iteration *)

Section fast.
Context (tableL tableD : list code) (rootL rootD : Z) (domL domD : Z -> Prop) (lenL huffL lenD huffD : Z -> Z) (entL entD : Z -> Z -> code).
Context (BC : block_codes tableL tableD rootL rootD domL domD lenL huffL lenD huffD entL entD) (flush : Z).
#[local] Set Default Proof Using "All".

Abbreviation at_item := (at_item tableL tableD rootL rootD).
Abbreviation arrives := (arrives tableL tableD rootL rootD).

(** Filling the buffer and decoding a literal/length code. *)
Lemma fast_front s c R : at_item 30 s -> i_bits s + 8 < zlen (rbits s) \/ 15 <= i_bits s -> domL c -> rbits s = zbits (lenL c) (huffL c) ++ R ->
  exists b t s', (forall A (K : inf -> code -> M A),
      (fast_fill ;; s ← get; this ← fast_code (code_array s (i_lencode s)) (i_lenbits s) len_stop; K s this) s = K t (entL c b) s')
    /\ frame s t /\ reads s s' R /\ 0 <= i_bits s' <= 30.
Proof.
  intros [Hok Hb _ HtL HrL _ _] Hz Hc HR. destruct (fast_fill_spec s Hok Hb Hz) as (t & Ht & Hr & Hbt). pose proof Hr as (_ & Hokt & HRt). rewrite HR in HRt.
  pose proof (reads_frame _ _ _ Hr) as (HF & _). pose proof (dec_len _ _ _ _ _ _ _ (bc_L _ _ _ _ _ _ _ _ _ _ _ _ BC) c Hc) as Hlen.
  destruct (fast_code_spec tableL rootL domL lenL huffL entL len_link (bc_L _ _ _ _ _ _ _ _ _ _ _ _ BC) len_stop t c R) as (b & s' & Hcode & Hr' & Hb').
  - intros b. by apply (bc_stopL _ _ _ _ _ _ _ _ _ _ _ _ BC).
  - intros w off Hw. by destruct (link_ops w rootL off Hw) as (_ & ? & _).
  - done.
  - change (2 ^ 32) with 4294967296. lia.
  - done.
  - done.
  - exists b, t, s'. split; [|split; [done|split; [by eapply reads_trans|lia]]]. intros A K. rewrite (bind_Got _ _ _ _ _ Ht), (bind_Got _ _ t t t) by done.
    rewrite (frame_field (fun s => code_array s (i_lencode s)) s t ltac:(done) HF), (frame_field i_lenbits s t ltac:(done) HF), HtL, HrL.
    by rewrite (bind_Got _ _ _ _ _ Hcode).
Qed.

(** The same for a distance code. *)
Lemma fast_dist_front s c R : buf_ok s -> i_bits s <= 30 -> i_bits s + 8 < zlen (rbits s) \/ 15 <= i_bits s -> domD c -> rbits s = zbits (lenD c) (huffD c) ++ R ->
  exists b s', (forall A (K : code -> M A), (fast_fill ;; this ← fast_code tableD rootD dist_stop; K this) s = K (entD c b) s')
    /\ reads s s' R /\ 0 <= i_bits s' <= 30.
Proof.
  intros Hok Hb Hz Hc HR. destruct (fast_fill_spec s Hok Hb Hz) as (t & Ht & Hr & Hbt). pose proof Hr as (_ & Hokt & HRt). rewrite HR in HRt.
  pose proof (dec_len _ _ _ _ _ _ _ (bc_D _ _ _ _ _ _ _ _ _ _ _ _ BC) c Hc) as Hlen.
  destruct (fast_code_spec tableD rootD domD lenD huffD entD dist_link (bc_D _ _ _ _ _ _ _ _ _ _ _ _ BC) dist_stop t c R) as (b & s' & Hcode & Hr' & Hb').
  - intros b. by apply (bc_stopD _ _ _ _ _ _ _ _ _ _ _ _ BC).
  - intros w off Hw. by destruct (link_ops w rootD off Hw) as (_ & _ & _ & ?).
  - done.
  - change (2 ^ 32) with 4294967296. lia.
  - done.
  - done.
  - exists b, s'. split; [|split; [by eapply reads_trans|lia]]. intros A K. rewrite (bind_Got _ _ _ _ _ Ht). by rewrite (bind_Got _ _ _ _ _ Hcode).
Qed.

(** Enough input for one iteration. *)
Definition enough_input (s : inf) : Prop := 48 + i_bits s <= zlen (rbits s).

Lemma enough_avail s : buf_ok s -> 6 <= avail_in s -> enough_input s.
Proof. intros Hok Ha. unfold enough_input. rewrite zlen_rbits by done. lia. Qed.

Lemma fast_literal s c R : i_mode s = LEN -> at_item 30 s -> enough_input s -> domL c -> 0 <= c < 256 -> rbits s = zbits (lenL c) (huffL c) ++ R -> 1 <= i_left s ->
  exists s', fast_step s = Got true s' /\ arrives 30 s s' LEN R (hist s ++ [c]) 1.
Proof.
  intros Hm Hat Hz Hc Hr HR Hl. unfold enough_input in Hz. destruct (fast_front s c R Hat ltac:(lia) Hc HR) as (b & t & s1 & HK & HF & Hrd & Hb).
  unfold fast_step. rewrite HK, (bc_entL _ _ _ _ _ _ _ _ _ _ _ _ BC) by (done || lia). unfold sym_entry. rewrite (proj2 (Z.ltb_lt c 256)) by lia. cbn [c_op c_val].
  change (0 =? 0) with true. cbv iota. rewrite u8_small by (unfold is_u8; change (2 ^ 8) with 256; lia).
  pose proof (reads_frame _ _ _ Hrd) as (HF1 & Ho & Hlf & Hm1 & _). pose proof Hrd as (_ & Hok1 & HR1).
  rewrite (bind_Got _ _ _ _ _ (put_out_spec s1 c ltac:(lia))). exists (emit s1 [c]). split; [done|].
  assert (HF' : frame s (emit s1 [c])) by exact HF1. split; [|done|cbn; congruence|done| |cbn; rewrite Hlf; done].
  - apply (at_item_frame _ _ _ _ 30 30 s); [done|done| |exact (proj2 Hb)]. destruct Hok1. by split.
  - destruct (frame_win _ _ HF' (at_win _ _ _ _ _ s Hat)) as [_ Hw]. unfold hist. rewrite Hw. cbn. rewrite Ho. by rewrite app_assoc.
Qed.

Lemma fast_end s R : i_mode s = LEN -> at_item 30 s -> enough_input s -> domL 256 -> rbits s = zbits (lenL 256) (huffL 256) ++ R ->
  exists s', fast_step s = Got false s' /\ arrives 30 s s' TYPE R (hist s) 0.
Proof.
  intros Hm Hat Hz Hc HR. unfold enough_input in Hz. destruct (fast_front s 256 R Hat ltac:(lia) Hc HR) as (b & t & s1 & HK & HF & Hrd & Hb).
  unfold fast_step. rewrite HK, (bc_entL _ _ _ _ _ _ _ _ _ _ _ _ BC) by (done || lia).
  pose proof (reads_frame _ _ _ Hrd) as (HF1 & Ho & Hlf & _). pose proof Hrd as (_ & Hok1 & HR1). exists (s1 <| i_mode := TYPE |>). split; [done|].
  assert (HF' : frame s (s1 <| i_mode := TYPE |>)) by exact HF1. split; [|done|done|done| |cbn; lia].
  - apply (at_item_frame _ _ _ _ 30 30 s); [done|done| |exact (proj2 Hb)]. destruct Hok1. by split.
  - destruct (frame_win _ _ HF' (at_win _ _ _ _ _ s Hat)) as [_ Hw]. unfold hist. rewrite Hw. cbn. by rewrite Ho.
Qed.

(** The length of a match. *)
Lemma fast_length s e x R v : buf_ok s -> 0 <= i_bits s <= 30 -> 0 <= e <= 5 -> 0 <= x < 2 ^ e -> rbits s = zbits e x ++ R ->
  exists s', (if negb (e =? 0) then s ← get; (if i_bits s <? e then fast_byte else mret tt) ;; n ← BITS e; DROPBITS e ;; mret (v + n) else mret v) s = Got (v + x) s'
    /\ reads s s' R /\ 0 <= i_bits s' <= 30.
Proof.
  intros Hok Hb He Hx HR. destruct (Z.eqb_spec e 0) as [E|E]; cbn [negb].
  - exists s. assert (x = 0) as -> by (rewrite E in Hx; change (2 ^ 0) with 1 in Hx; lia). rewrite E, zbits_0 in HR. rewrite Z.add_0_r. split; [done|].
    split; [|done]. cbn [app] in HR. rewrite <- HR. by apply reads_refl.
  - rewrite (bind_Got _ _ s s s) by done. destruct (len_fill s e Hok Hb He) as (s1 & Hf & Hr1 & Hb1).
    { rewrite HR, zlen_app, zlen_zbits by lia. pose proof (zlen_nonneg R). lia. }
    destruct (extra_front s s1 _ (fun n => mret (v + n)) e x R Hf Hr1 ltac:(lia) Hb1 Hx HR) as (s2 & H2 & Hr2 & Hb2). exists s2. split; [exact H2|]. split; [done|lia].
Qed.

Lemma fast_matched s dist lc R : i_mode s = LEN -> at_item 30 s -> enough_input s -> valid_item domL domD (dist, lc) -> dist <> 0 ->
  rbits s = match_bits lenL huffL lenD huffD dist lc ++ R -> 258 <= i_left s -> dist <= zlen (hist s) ->
  exists s', fast_step s = Got true s' /\ arrives 30 s s' LEN R (lz_copy (Z.to_nat (lc + 3)) dist (hist s)) (lc + 3).
Proof.
  intros Hm Hat Hz [Hlc [[? _]|(Hd & HdL & HdD)]] Hne HR Hl Hfar; cbn in *; [done|].
  destruct (length_entry lc Hlc) as (Hc & He & Hx & Hent & Hbits). destruct (dist_entry (dist - 1) ltac:(lia)) as (Hdc & Hde & Hdx & Hdent). cbv zeta in *.
  unfold match_bits in HR. cbv zeta in HR. rewrite Hbits in HR. rewrite <- !app_assoc in HR. unfold enough_input in Hz.
  pose proof (dec_len _ _ _ _ _ _ _ (bc_L _ _ _ _ _ _ _ _ _ _ _ _ BC) _ HdL) as HlenL.
  pose proof (f_equal zlen HR) as HzR. rewrite !zlen_app, !zlen_zbits in HzR by (pose proof (dec_len _ _ _ _ _ _ _ (bc_D _ _ _ _ _ _ _ _ _ _ _ _ BC) _ HdD); lia).
  set (code := length_code lc) in *. set (e := lextra code) in *. set (x := len_rest lc) in *. set (dcode := dist_code (dist - 1)) in *. set (de := dextra dcode) in *.
  destruct (fast_front s (code + 257) _ Hat ltac:(lia) HdL HR) as (b & t & s1 & HK & HF & Hrd1 & Hb1).
  unfold fast_step. rewrite HK, (bc_entL _ _ _ _ _ _ _ _ _ _ _ _ BC), Hent by (done || lia). cbn [c_op c_val]. clear HK.
  destruct (extra_ops e ltac:(lia)) as (E0 & E16 & _ & _ & E15). rewrite E0, E16, E15. cbn [negb]. cbv zeta.
  pose proof Hrd1 as (_ & Hok1 & HR1).
  destruct (fast_length s1 e x _ (lc + 3 - x) Hok1 Hb1 He Hx HR1) as (s2 & H2 & Hrd2 & Hb2). rewrite (bind_Got _ _ _ _ _ H2). pose proof Hrd2 as (_ & Hok2 & HR2).
  rewrite (frame_field (fun s => code_array s (i_distcode s)) s t ltac:(done) HF), (frame_field i_distbits s t ltac:(done) HF), (at_tableD _ _ _ _ _ s Hat), (at_rootD _ _ _ _ _ s Hat).
  destruct (fast_dist_front s2 dcode (zbits de (dist - 1 - dbase_of dcode) ++ R) Hok2 ltac:(lia)) as (b' & s3 & HK3 & Hrd3 & Hb3); [|done|exact HR2|].
  { pose proof (buf_bits _ (at_buf _ _ _ _ _ s Hat)). rewrite HR2, !zlen_app, !zlen_zbits by (pose proof (dec_len _ _ _ _ _ _ _ (bc_D _ _ _ _ _ _ _ _ _ _ _ _ BC) _ HdD); lia). lia. }
  rewrite HK3, (bc_entD _ _ _ _ _ _ _ _ _ _ _ _ BC), Hdent by (done || lia). cbn [c_op c_val]. clear HK3.
  destruct (extra_ops de Hde) as (_ & F16 & _ & _ & F15). rewrite F16, F15. cbn [negb]. cbv zeta. pose proof Hrd3 as (_ & Hok3 & HR3).
  rewrite (bind_Got _ _ s3 s3 s3) by done.
  destruct (dist_fill s3 de Hok3 Hb3 Hde) as (s4 & Hf4 & Hrd4 & Hb4). { rewrite HR3, zlen_app, zlen_zbits by lia. pose proof (zlen_nonneg R). lia. }
  destruct (extra_front s3 s4 _ (fun n => fast_match (lc + 3 - x + x) (dist - 1 + 1 - dist_rest (dist - 1) + n)) de (dist_rest (dist - 1)) R Hf4 Hrd4 Hde Hb4 Hdx HR3) as (s5 & H5 & Hrd5 & Hb5).
  rewrite H5. replace (lc + 3 - x + x) with (lc + 3) by lia. replace (dist - 1 + 1 - dist_rest (dist - 1) + dist_rest (dist - 1)) with dist by lia.
  pose proof (reads_trans _ _ _ _ _ Hrd1 (reads_trans _ _ _ _ _ Hrd2 (reads_trans _ _ _ _ _ Hrd3 Hrd5))) as Hrd.
  pose proof (reads_frame _ _ _ Hrd) as (HF5 & Ho5 & Hl5 & Hm5 & _). destruct (frame_win _ _ HF5 (at_win _ _ _ _ _ s Hat)) as [W5 Hw5].
  assert (Hh5 : hist s5 = hist s) by (unfold hist; by rewrite Hw5, Ho5). pose proof Hrd as (_ & Hok5 & HR5).
  destruct (fast_match_spec s5 (lc + 3) dist W5 ltac:(lia) ltac:(rewrite Hh5; lia)) as (X & HX & HzX & HhX). exists (emit s5 X). split; [exact HX|].
  split; [|exact HF5|cbn; congruence|done| |cbn; lia].
  - apply (at_item_frame _ _ _ _ 30 30 s); [done|exact HF5| |cbn; lia]. destruct Hok5. by split.
  - by rewrite hist_emit, HhX, Hh5.
Qed.

End fast.
