(* ===== verification/InfBlock.v ===== *)
(** * Decoding a block

    The items of a block and its end-of-block code, whatever mixture of the
    fast loop and the byte-by-byte modes reads them ([decode_block]). *)

From stdpp Require Import strings.
From S2P Require Import Prelude Inftrees BitRev InftreesSpec Inflate Bits InfDecode InfCopy TreesTables Trees TreesBlock InfItems InfFast.

Lemma items_len_nonneg domL domD items : Forall (valid_item domL domD) items -> 0 <= items_len items.
Proof.
  induction 1 as [|it items [Hlc Hv] _ IH]; [done|]. unfold items_len in *. simpl. unfold item_len at 1. destruct (it.1 =? 0); lia.
Qed.

Lemma expand_cons h it items : expand h (it :: items) = expand (lz_item h it) items.
Proof. reflexivity. Qed.

Lemma expand_app h a b : expand h (a ++ b) = expand (expand h a) b.
Proof. apply foldl_app. Qed.

Lemma items_len_app a b : items_len (a ++ b) = items_len a + items_len b.
Proof. induction a as [|it a IH]; [done|]. cbn [app items_len foldr]. unfold items_len in *. lia. Qed.

Lemma reachable_app h a b : reachable h (a ++ b) <-> reachable h a /\ reachable (expand h a) b.
Proof. revert h. induction a as [|it a IH]; intros h; [simpl; tauto|]. cbn [app reachable]. rewrite IH, expand_cons. tauto. Qed.

Section block.
Context (tableL tableD : list code) (rootL rootD : Z) (domL domD : Z -> Prop) (lenL huffL lenD huffD : Z -> Z) (entL entD : Z -> Z -> code).
Context (BC : block_codes tableL tableD rootL rootD domL domD lenL huffL lenD huffD entL entD) (flush : Z).
#[local] Set Default Proof Using "All".

Abbreviation at_item := (at_item tableL tableD rootL rootD).
Abbreviation arrives := (arrives tableL tableD rootL rootD).
Abbreviation valid_item := (valid_item domL domD).
Abbreviation item_bits := (item_bits lenL huffL lenD huffD).
Abbreviation items_bits := (items_bits lenL huffL lenD huffD).

(** A literal or a match, on either path. *)
Lemma valid_cases it : valid_item it -> (it.1 = 0 /\ 0 <= it.2 < 256 /\ domL it.2) \/ (1 <= it.1 /\ 0 <= it.2 < 256).
Proof. intros [Hlc [[? ?]|(? & _)]]; [by left|right; lia]. Qed.

Lemma slow_item s it R : i_mode s = LEN -> slow s -> at_item 7 s -> valid_item it -> rbits s = item_bits it ++ R -> item_len it <= i_left s -> it.1 <= zlen (hist s) ->
  exists s', rtc (bstep flush) s s' /\ arrives 7 s s' LEN R (lz_item (hist s) it) (item_len it).
Proof.
  intros Hm Hs Hat Hv HR Hl Hfar. destruct it as [dist lc]. unfold TreesBlock.item_bits, lz_item, item_len in *. cbn [fst snd] in *.
  destruct (valid_cases _ Hv) as [(E & Hr & Hd)|(Hd & Hr)]; cbn [fst snd] in *; [subst dist|].
  - by apply (slow_literal tableL tableD rootL rootD domL domD lenL huffL lenD huffD entL entD BC).
  - rewrite (proj2 (Z.eqb_neq dist 0)) in * by lia. apply (slow_match tableL tableD rootL rootD domL domD lenL huffL lenD huffD entL entD BC); (done || lia).
Qed.

Lemma fast_item s it R : i_mode s = LEN -> at_item 30 s -> enough_input s -> valid_item it -> rbits s = item_bits it ++ R -> 258 <= i_left s -> it.1 <= zlen (hist s) ->
  exists s', fast_step s = Got true s' /\ arrives 30 s s' LEN R (lz_item (hist s) it) (item_len it).
Proof.
  intros Hm Hat Hin Hv HR Hl Hfar. destruct it as [dist lc]. unfold TreesBlock.item_bits, lz_item, item_len in *. cbn [fst snd] in *.
  destruct (valid_cases _ Hv) as [(E & Hr & Hd)|(Hd & Hr)]; cbn [fst snd] in *; [subst dist|].
  - apply (fast_literal tableL tableD rootL rootD domL domD lenL huffL lenD huffD entL entD BC); (done || lia).
  - rewrite (proj2 (Z.eqb_neq dist 0)) in * by lia. apply (fast_matched tableL tableD rootL rootD domL domD lenL huffL lenD huffD entL entD BC); (done || lia).
Qed.

(** The string of a block, from some item on. *)
Definition rest_bits (items : list (Z * Z)) (R : list bool) : list bool := items_bits items ++ zbits (lenL 256) (huffL 256) ++ R.

Lemma rest_bits_cons it items R : rest_bits (it :: items) R = item_bits it ++ rest_bits items R.
Proof. unfold rest_bits, TreesBlock.items_bits. cbn [mbind list_bind]. by rewrite <- app_assoc. Qed.

Lemma rest_bits_app a b R : rest_bits (a ++ b) R = items_bits a ++ rest_bits b R.
Proof. unfold rest_bits, TreesBlock.items_bits. rewrite bind_app. by rewrite <- app_assoc. Qed.

(** What can be decoded from a state. *)
Record decodable (s : inf) (items : list (Z * Z)) (R : list bool) : Prop := {
  de_valid : Forall valid_item items;
  de_reach : reachable (hist s) items;
  de_room : items_len items <= i_left s;
  de_bits : rbits s = rest_bits items R }.

Lemma decodable_next lim s s1 it items R : decodable s (it :: items) R -> arrives lim s s1 LEN (rest_bits items R) (lz_item (hist s) it) (item_len it) -> decodable s1 items R.
Proof.
  intros [Hv [Hf Hr] Hl Hb] [_ _ _ HR HH HL]. apply Forall_cons in Hv as [_ Hv]. change (items_len (it :: items)) with (item_len it + items_len items) in Hl.
  split; [done|by rewrite HH|lia|done].
Qed.

(** Some of the items are decoded, or all of them with the end of the block. *)
Definition decoded (lim : Z) (s s' : inf) (items : list (Z * Z)) (R : list bool) : Prop :=
  (exists a b, items = a ++ b /\ a <> [] /\ arrives lim s s' LEN (rest_bits b R) (expand (hist s) a) (items_len a))
  \/ arrives lim s s' TYPE R (expand (hist s) items) (items_len items).

Lemma decoded_one s s1 it items R : arrives 30 s s1 LEN (rest_bits items R) (lz_item (hist s) it) (item_len it) -> decoded 30 s s1 (it :: items) R.
Proof. intros H. left. exists [it], items. split; [done|]. split; [done|]. unfold items_len. simpl. by rewrite Z.add_0_r. Qed.

Lemma decoded_cons s s1 s' it items R : arrives 30 s s1 LEN (rest_bits items R) (lz_item (hist s) it) (item_len it) -> decoded 30 s1 s' items R -> decoded 30 s s' (it :: items) R.
Proof.
  intros H1 [(a & b & -> & Ha & H2)|H2]; rewrite (ar_hist _ _ _ _ _ _ _ _ _ _ _ H1) in H2.
  - left. exists (it :: a), b. split; [done|]. split; [done|]. exact (arrives_trans _ _ _ _ _ _ _ _ _ _ _ _ _ _ _ _ _ H1 H2).
  - right. exact (arrives_trans _ _ _ _ _ _ _ _ _ _ _ _ _ _ _ _ _ H1 H2).
Qed.

(** The fast loop; every iteration writes a byte or ends the loop. *)
Lemma fast_loop_spec fuel : forall s items R, i_mode s = LEN -> at_item 30 s -> 6 <= avail_in s -> 258 <= i_left s < Z.of_nat fuel -> domL 256 -> decodable s items R ->
  exists s', fast_loop fuel s = Got tt s' /\ decoded 30 s s' items R.
Proof.
  induction fuel as [|fuel IH]; intros s items R Hm Hat Hav Hl H256 Hde; [lia|]. cbn [fast_loop].
  pose proof (enough_avail tableL tableD rootL rootD domL domD lenL huffL lenD huffD entL entD BC flush s (at_buf _ _ _ _ _ s Hat) Hav) as Hin.
  destruct items as [|it items].
  - destruct (fast_end tableL tableD rootL rootD domL domD lenL huffL lenD huffD entL entD BC flush s R Hm Hat Hin H256 (de_bits _ _ _ Hde)) as (s' & Hstep & Har).
    rewrite (bind_Got _ _ _ _ _ Hstep), (bind_Got _ _ s' s' s') by done. cbn [andb]. exists s'. split; [done|]. by right.
  - pose proof Hde as [Hv [Hf Hr] Hroom Hbits]. rewrite rest_bits_cons in Hbits. apply Forall_cons in Hv as [Hv1 Hv].
    destruct (fast_item s it _ Hm Hat Hin Hv1 Hbits ltac:(lia) Hf) as (s1 & Hstep & Har). pose proof (decodable_next _ _ _ _ _ _ Hde Har) as Hde1.
    rewrite (bind_Got _ _ _ _ _ Hstep), (bind_Got _ _ s1 s1 s1) by done. cbn [andb].
    destruct (Z.leb_spec 6 (avail_in s1)) as [Ha1|Ha1], (Z.leb_spec 258 (i_left s1)) as [Hl1|Hl1]; cbn [andb]; try (exists s1; split; [done|]; by apply decoded_one).
    assert (Hpos : 1 <= item_len it) by (destruct (valid_cases it Hv1) as [(E & _)|(? & ?)]; unfold item_len; [by rewrite E|rewrite (proj2 (Z.eqb_neq it.1 0)); lia]).
    destruct (IH s1 items R (ar_mode _ _ _ _ _ _ _ _ _ _ _ Har) (ar_item _ _ _ _ _ _ _ _ _ _ _ Har) Ha1) as (s' & Hrun & Hd); [rewrite (ar_left _ _ _ _ _ _ _ _ _ _ _ Har) in *; lia|done|done|].
    exists s'. split; [done|]. by eapply decoded_cons.
Qed.

Lemma arrives_reads s s1 s2 m R H n : arrives 30 s s1 m R H n -> reads s1 s2 R -> i_bits s2 <= 7 -> arrives 7 s s2 m R H n.
Proof.
  intros [Hat HF Hm HR HH HL] Hrd Hb. pose proof (reads_frame _ _ _ Hrd) as (HF2 & Ho & Hl & Hm2 & _). pose proof Hrd as (_ & Hok & HR2).
  split; [by eapply at_item_frame|unfold frame in *; congruence|congruence|done| |congruence].
  destruct (frame_win _ _ HF2 (at_win _ _ _ _ _ _ Hat)) as [_ Hw]. rewrite <- HH. unfold hist. by rewrite Hw, Ho.
Qed.

(** [inflate_fast]. *)
Lemma inflate_fast_spec s items R : i_mode s = LEN -> at_item 7 s -> 6 <= avail_in s -> 258 <= i_left s -> domL 256 -> decodable s items R ->
  exists s', inflate_fast s = Got tt s' /\ decoded 7 s s' items R.
Proof.
  intros Hm Hat Hav Hl H256 Hde. assert (Hat30 : at_item 30 s) by (eapply at_item_frame; [exact Hat|done|by destruct Hat|destruct Hat; lia]).
  destruct (fast_loop_spec (S (Z.to_nat (i_left s))) s items R Hm Hat30 Hav ltac:(lia) H256 Hde) as (s1 & Hrun & Hd).
  assert (Hgb : exists C m R1 H n, arrives 30 s s1 m R1 H n /\ rbits s = C ++ R1).
  { destruct Hd as [(a & b & E & _ & Har)|Har].
    - exists (items_bits a), LEN, (rest_bits b R), (expand (hist s) a), (items_len a). split; [done|]. rewrite (de_bits _ _ _ Hde), E. apply rest_bits_app.
    - exists (items_bits items ++ zbits (lenL 256) (huffL 256)), TYPE, R, (expand (hist s) items), (items_len items). split; [done|].
      rewrite (de_bits _ _ _ Hde). unfold rest_bits. by rewrite app_assoc. }
  destruct Hgb as (C & m & R1 & H & n & Har & HC). pose proof Har as [Hat1 HF _ HR1 _ _]. rewrite <- HR1 in HC.
  destruct (give_back_spec s s1 C (at_buf _ _ _ _ _ s Hat) (at_buf _ _ _ _ _ s1 Hat1) (frame_field i_in s s1 ltac:(done) HF) (at_bits _ _ _ _ _ s Hat) (at_bits _ _ _ _ _ s1 Hat1) HC) as (Hpos & Hrd & Hb).
  cbv zeta in *. set (s2 := set_buf s1 _ _ _) in *. exists s2. split.
  - unfold inflate_fast. rewrite (bind_Got _ _ s s s) by done. rewrite (bind_Got _ _ _ _ _ Hrun), (bind_Got _ _ s1 s1 s1) by done. cbv zeta.
    rewrite (proj2 (Z.ltb_ge _ 0)) by exact Hpos. unfold upd, s2, set_buf. done.
  - destruct Hd as [(a & b & E & Ha & Har')|Har'].
    + left. exists a, b. split; [done|]. split; [done|]. eapply arrives_reads; [exact Har'| |exact Hb]. by rewrite <- (ar_rbits _ _ _ _ _ _ _ _ _ _ _ Har').
    + right. eapply arrives_reads; [exact Har'| |exact Hb]. by rewrite <- (ar_rbits _ _ _ _ _ _ _ _ _ _ _ Har').
Qed.

(** The block is decoded to its end, and its bits are consumed. *)
Lemma decode_block n : forall s items R, (length items <= n)%nat -> i_mode s = LEN -> at_item 7 s -> domL 256 -> decodable s items R ->
  exists s', rtc (bstep flush) s s' /\ arrives 7 s s' TYPE R (expand (hist s) items) (items_len items).
Proof.
  induction n as [n IH] using lt_wf_ind. intros s items R Hn Hm Hat H256 Hde. destruct (decide ((6 <=? avail_in s) && (258 <=? i_left s) = false)) as [Hslow|Hfast].
  - destruct items as [|it items].
    + by apply (slow_end tableL tableD rootL rootD domL domD lenL huffL lenD huffD entL entD BC flush s R Hm Hslow Hat H256), (de_bits _ _ _ Hde).
    + pose proof Hde as [Hv [Hf Hr] Hroom Hbits]. pose proof (items_len_nonneg domL domD items) as Hnn. rewrite rest_bits_cons in Hbits. apply Forall_cons in Hv as [Hv1 Hv]. specialize (Hnn Hv).
      change (items_len (it :: items)) with (item_len it + items_len items) in Hroom.
      destruct (slow_item s it _ Hm Hslow Hat Hv1 Hbits ltac:(lia) Hf) as (s1 & Hrun & Har). pose proof (decodable_next _ _ _ _ _ _ Hde Har) as Hde1.
      destruct (IH (length items) ltac:(simpl in Hn; lia) s1 items R ltac:(lia) (ar_mode _ _ _ _ _ _ _ _ _ _ _ Har) (ar_item _ _ _ _ _ _ _ _ _ _ _ Har) H256 Hde1) as (s' & Hrun' & Har').
      exists s'. split; [by etransitivity|]. rewrite (ar_hist _ _ _ _ _ _ _ _ _ _ _ Har) in Har'. exact (arrives_trans _ _ _ _ _ _ _ _ _ _ _ _ _ _ _ _ _ Har Har').
  - apply not_false_iff_true in Hfast. pose proof Hfast as Hav. apply andb_true_iff in Hav as [Hav%Z.leb_le Hl%Z.leb_le].
    destruct (inflate_fast_spec s items R Hm Hat Hav Hl H256 Hde) as (s1 & Hstep & Hd).
    assert (Hrun : rtc (bstep flush) s s1).
    { apply rtc_once. split; [by rewrite Hm|]. unfold block_step. rewrite (bind_Got _ _ s s s) by done. rewrite Hm. unfold step_len. rewrite (bind_Got _ _ s s s) by done. by rewrite Hfast. }
    destruct Hd as [(a & b & -> & Ha & Har)|Har]; [|by exists s1].
    assert (Hde1 : decodable s1 b R).
    { destruct Hde as [Hv Hr Hroom _]. apply Forall_app in Hv as [_ Hv]. apply reachable_app in Hr as [_ Hr]. rewrite items_len_app in Hroom.
      destruct Har as [_ _ _ HR HH HL]. split; [done|by rewrite HH|lia|done]. }
    rewrite length_app in Hn. assert (0 < length a)%nat by (destruct a; [done|simpl; lia]).
    destruct (IH (length b) ltac:(lia) s1 b R ltac:(lia) (ar_mode _ _ _ _ _ _ _ _ _ _ _ Har) (ar_item _ _ _ _ _ _ _ _ _ _ _ Har) H256 Hde1) as (s' & Hrun' & Har').
    exists s'. split; [by etransitivity|]. rewrite (ar_hist _ _ _ _ _ _ _ _ _ _ _ Har), <- expand_app in Har'. rewrite items_len_app. exact (arrives_trans _ _ _ _ _ _ _ _ _ _ _ _ _ _ _ _ _ Har Har').
Qed.

End block.
