(* ===== verification/InfCodes.v ===== *)
(** * The codes of blocks

    Decoders for the tables [inflate] uses: the ones [inflate_table] builds for
    complete codes ([table_decoder]), and the fixed ones of inffixed.h, which
    are the ones it builds for the fixed lengths ([fixed_codes]); and the
    static trees of trees.h as the code book of the fixed lengths
    ([static_ltree_book], [static_dtree_book]). *)

From S2P Require Import Prelude Inftrees BitRev InftreesSort InftreesSpec InftreesThm InfFixed Inflate Bits InfDecode TreesTables Trees TreesBlock InfItems.

(** ** Tables of [inflate_table] *)

Lemma huff_code_range lens codes s : coded lens codes s -> 0 <= huff_code lens codes s < 2 ^ len_of lens s.
Proof. intros [_ Hl]. apply brev_range. lia. Qed.

Lemma table_decoder type lens codes bits work t linked : valid_args type lens codes bits work -> kraft lens codes = 2 ^ 15 ->
  table_decodes type lens codes (root_bits lens codes bits) t ->
  (forall x b, 0 <= x < sym_limit type -> linked (sym_entry type x b) = false) ->
  (forall w off, 0 < w <= 15 -> linked (mkCode w (root_bits lens codes bits) off) = true) ->
  decoder t (root_bits lens codes bits) (coded lens codes) (len_of lens) (huff_code lens codes) (sym_entry type) linked.
Proof.
  intros Hv Hk Ht Hsym Hlink. pose proof (valid_lens _ _ _ _ _ Hv) as Hlens. destruct Hv as (Hc & Hl & Hw & Hb & _). rewrite <- kraft_sorted in Hk.
  split; try done.
  - pose proof (root_range type lens codes [] bits work Hc Hl Hw Hb Hlens Hk). destruct (lens_max type lens codes [] bits work Hc Hl Hw Hb Hlens Hk) as (? & _). lia.
  - intros x [_ H]. done.
  - apply huff_code_range.
  - apply (some_code type lens codes [] bits work Hc Hl Hw Hb Hlens Hk).
  - apply (code_unique type lens codes [] bits work Hc Hl Hw Hb Hlens Hk).
  - intros x b _. apply sym_entry_bits.
  - intros x b [Hx _]. apply Hsym. lia.
Qed.

(** ** The fixed tables *)

Lemma kraft_fixed : kraft fixed_lens 288 = 2 ^ 15 /\ kraft fixed_dists 32 = 2 ^ 15.
Proof. split; vm_compute; reflexivity. Qed.

Lemma fixed_lens_args : valid_args LENS fixed_lens 288 9 (replicate 288 0).
Proof. unfold valid_args. split_and!; try by vm_compute. by_decide. Qed.

Lemma fixed_dists_args : valid_args DISTS fixed_dists 32 5 (replicate 288 0).
Proof. unfold valid_args. split_and!; try by vm_compute. by_decide. Qed.

Lemma fixed_roots : root_bits fixed_lens 288 9 = 9 /\ root_bits fixed_dists 32 5 = 5.
Proof. split; vm_compute; reflexivity. Qed.

Lemma fixed_short : (forall x, len_of fixed_lens x <= 9) /\ (forall x, len_of fixed_dists x <= 5).
Proof.
  assert (H : Forall (fun l => l <= 9) fixed_lens /\ Forall (fun l => l <= 5) fixed_dists) by by_decide. destruct H as [HL HD]. rewrite Forall_lookup in HL, HD.
  split; intros x; unfold len_of; [destruct (fixed_lens !! Z.to_nat x) as [l|] eqn:E|destruct (fixed_dists !! Z.to_nat x) as [l|] eqn:E]; simpl; try lia; eauto.
Qed.

Definition fixed_ent (x b : Z) : code := unused_as_invalid (sym_entry LENS x b).

Lemma fixed_ent_ops x b : 0 <= x < 288 -> c_bits (fixed_ent x b) = b /\ len_link (fixed_ent x b) = false /\ len_stop (fixed_ent x b) = true /\ (x < 286 -> fixed_ent x b = sym_entry LENS x b).
Proof.
  intros Hx. assert (H : Forall (fun x => len_link (fixed_ent x 0) = false /\ len_stop (fixed_ent x 0) = true /\ (128 <? c_op (sym_entry LENS x 0)) = (286 <=? x)) (seqZ 0 288)) by by_decide.
  rewrite Forall_forall in H. destruct (H x ltac:(apply elem_of_seqZ; lia)) as (H1 & H2 & H3). clear H.
  assert (Hop : c_op (sym_entry LENS x b) = c_op (sym_entry LENS x 0)) by (unfold sym_entry; by destruct (x <? 256), (x =? 256)).
  unfold fixed_ent, unused_as_invalid in *. rewrite Hop, H3 in *. destruct (Z.leb_spec 286 x); [split; [apply sym_entry_bits|split; [done|split; [done|lia]]]|].
  unfold len_link, len_stop in *. rewrite Hop. split; [apply sym_entry_bits|]. done.
Qed.

Lemma built_decodes type lens codes table bits work t u r w : valid_args type lens codes bits work -> kraft lens codes = 2 ^ 15 -> type = LENS -> ENOUGH - MAXD <= zlen table ->
  inflate_table type lens codes table bits work = Ok (mkResult 0 t u r w) -> table_decodes type lens codes r (take (Z.to_nat u) t).
Proof.
  intros Hv Hk Ht Hz Hb. destruct (table_ok type lens codes table bits work Hv Hk (or_introl (conj Ht Hz))) as (res & Hr & Hres).
  rewrite Hb in Hr. injection Hr as <-. by destruct Hres as [(_ & _ & _ & Hdec & _)|(? & _)].
Qed.

(** The fixed table, before its unused entries are marked. *)
Lemma fixed_table : exists t, table_decodes LENS fixed_lens 288 9 t /\ unused_as_invalid <$> t = lenfix.
Proof.
  destruct lenfix_built as (t & w & Hbuilt & Hfix). exists (take 512 t). split; [|exact Hfix].
  refine (built_decodes LENS fixed_lens 288 _ 9 (replicate 288 0) t 512 9 w fixed_lens_args (proj1 kraft_fixed) eq_refl _ Hbuilt).
  rewrite zlen_app. unfold zlen. rewrite !length_replicate. unfold ENOUGH, MAXD. lia.
Qed.

Lemma fixed_codes : block_codes lenfix distfix 9 5 (coded fixed_lens 288) (coded fixed_dists 32) (len_of fixed_lens) (huff_code fixed_lens 288)
  (len_of fixed_dists) (huff_code fixed_dists 32) fixed_ent (sym_entry DISTS).
Proof.
  destruct kraft_fixed as [KL KD]. destruct fixed_roots as [RL RD]. destruct fixed_short as [SL SD]. destruct sym_entry_ops as [OL OD].
  destruct fixed_table as (t & Hdec & Hfix).
  split.
  - (* literals and lengths *)
    pose proof (table_decoder LENS fixed_lens 288 9 (replicate 288 0) t len_link fixed_lens_args KL) as D. rewrite RL in D.
    destruct (D Hdec ltac:(intros x b Hx; by apply OL) ltac:(intros w' off Hw'; by apply link_ops)) as [D1 D2 D3 D4 D5 _ _ _ D9].
    split; [exact D1|exact D2|exact D3|exact D4|exact D5| |intros x b [Hx _]; by apply fixed_ent_ops|intros x b [Hx _]; by apply fixed_ent_ops|exact D9].
    intros h x Hx Hh. left. split; [apply SL|]. destruct (Hdec h x Hx Hh) as [[_ He]|(off & w' & Hl & _)]; [|pose proof (SL x); lia].
    rewrite <- Hfix. rewrite list_lookup_fmap. by rewrite He.
  - (* distances *)
    assert (Hdist : forall h x, coded fixed_dists 32 x -> h `mod` 2 ^ len_of fixed_dists x = huff_code fixed_dists 32 x -> distfix !! Z.to_nat (h `mod` 2 ^ 5) = Some (sym_entry DISTS x 5)).
    { intros h x [Hx _]. assert (H : Forall (fun x => len_of fixed_dists x = 5 /\ distfix !! Z.to_nat (huff_code fixed_dists 32 x) = Some (sym_entry DISTS x 5)) (seqZ 0 32)) by by_decide.
      rewrite Forall_forall in H. destruct (H x ltac:(apply elem_of_seqZ; lia)) as [-> E]. by intros ->. }
    assert (Hl5 : forall x, coded fixed_dists 32 x -> len_of fixed_dists x = 5).
    { intros x [Hx _]. assert (H : Forall (fun x => len_of fixed_dists x = 5) (seqZ 0 32)) by by_decide. rewrite Forall_forall in H. apply H, elem_of_seqZ. lia. }
    pose proof (table_decoder DISTS fixed_dists 32 5 (replicate 288 0) distfix dist_link fixed_dists_args KD) as D. rewrite RD in D.
    apply D; [|intros x b Hx; by apply OD|intros w' off Hw'; by apply link_ops]. intros h x Hx Hh. left. rewrite (Hl5 x Hx). split; [lia|]. by apply Hdist.
  - intros x b [Hx _] Hx'. apply fixed_ent_ops; lia.
  - intros x b _ _. reflexivity.
  - intros x b [Hx _]. by apply fixed_ent_ops.
  - intros x b [Hx _]. by apply OD.
  - intros x [Hx _]. lia.
  - intros x [Hx _]. lia.
Qed.

(** ** The static trees *)

Lemma static_ltree_book : codebook static_ltree (coded fixed_lens 288) (len_of fixed_lens) (huff_code fixed_lens 288).
Proof.
  intros c Hc. pose proof (huff_code_range _ _ _ Hc). destruct Hc as [Hc Hl]. split; [lia|]. split; [|lia].
  assert (H' : Forall (fun c => static_ltree !! Z.to_nat c = Some (mkCt (huff_code fixed_lens 288 c) (len_of fixed_lens c))) (seqZ 0 288)) by by_decide.
  rewrite Forall_forall in H'. apply H', elem_of_seqZ. lia.
Qed.

(** The tree has the 30 codes that occur. *)
Lemma static_dtree_book : codebook static_dtree (fun c => 0 <= c < 30) (len_of fixed_dists) (huff_code fixed_dists 32).
Proof.
  intros c Hc. assert (H' : Forall (fun c => static_dtree !! Z.to_nat c = Some (mkCt (huff_code fixed_dists 32 c) (len_of fixed_dists c)) /\ len_of fixed_dists c = 5) (seqZ 0 30)) by by_decide.
  rewrite Forall_forall in H'. destruct (H' c ltac:(apply elem_of_seqZ; lia)) as [E El]. pose proof (huff_code_range fixed_dists 32 c) as Hr. rewrite El in *.
  split; [lia|]. split; [by rewrite E|]. split; [lia|]. apply Hr. split; lia.
Qed.
