(* ===== verification/InfHeader.v ===== *)
(** * Block headers and the end of the stream

    The three bits in front of a block choose its kind ([header_step]); fixed
    blocks are decoded with the fixed tables ([decode_fixed]); after the last
    block the rest of its byte is dropped ([last_step]). *)

From stdpp Require Import strings.
From S2P Require Import Prelude Inftrees BitRev InftreesSort InftreesSpec InftreesThm InfFixed Inflate Bits InfDecode InfCopy TreesTables Trees TreesBlock.
From S2P Require Import InfItems InfFast InfBlock InfCodes.

(** The sizes of the arrays in [struct inflate_state]. *)
Record arrays_ok (s : inf) : Prop := { ao_lens : zlen (i_lens s) = 320; ao_work : zlen (i_work s) = 288; ao_codes : zlen (i_codes s) = ENOUGH }.

Lemma frame_arrays s s' : frame s s' -> arrays_ok s -> arrays_ok s'.
Proof.
  intros F [H1 H2 H3]. pose proof (frame_field i_lens s s' ltac:(done) F). pose proof (frame_field i_work s s' ltac:(done) F). pose proof (frame_field i_codes s s' ltac:(done) F).
  split; congruence.
Qed.

(** A state between two blocks: [flush] does not make [inflate] stop there. *)
Record between (flush : Z) (s : inf) : Prop := {
  bw_mode : i_mode s = TYPEDO \/ i_mode s = TYPE /\ flush <> Z_BLOCK;
  bw_buf : buf_ok s;
  bw_bits : i_bits s <= 7;
  bw_win : win_ok s;
  bw_arrays : arrays_ok s }.

(** The state after the header of a block of kind [t]. *)
Definition kind_state (t : Z) (s : inf) : inf :=
  if t =? 0 then s <| i_mode := STORED |>
  else if t =? 1 then
    s <| i_lencode := LenFix |> <| i_lenbits := 9 |> <| i_distcode := DistFix |> <| i_distbits := 5 |> <| i_mode := LEN |>
  else s <| i_mode := TABLE |>.

Lemma header_step flush s last t R : between flush s -> i_last s = 0 -> 0 <= last < 2 -> 0 <= t < 3 -> rbits s = zbits 3 (last + 2 * t) ++ R ->
  exists s', bstep flush s s' /\ reads (kind_state t (s <| i_last := last |>)) s' R /\ i_bits s' <= 7.
Proof.
  intros [Hm Hok Hb W _] Hl Hlast Ht HR.
  destruct (NEEDBITS_spec s 3 Hok ltac:(lia)) as (s1 & H1 & Hr1 & Hge & Hle). { rewrite HR, zlen_app, zlen_zbits by lia. pose proof (zlen_nonneg R). lia. }
  pose proof Hr1 as ((h & b & p & ->) & Hok1 & HR1). rewrite HR in HR1. change 3 with (1 + 2) in HR1. change (2 * t) with (2 ^ 1 * t) in HR1.
  rewrite <- (zbits_app 1 2 last t), <- app_assoc in HR1 by (change (2 ^ 1) with 2; lia).
  pose proof (BITS_front _ 1 last _ Hok1 HR1 ltac:(lia) ltac:(lia) ltac:(change (2 ^ 1) with 2; lia)) as Hlow1.
  destruct (drop_front _ 1 last _ Hok1 HR1 ltac:(lia) ltac:(change (2 ^ 32) with 4294967296; lia)) as [(_ & Hok2 & HR2) Hb2].
  set (s1 := set_buf s h b p) in *. set (s2 := drop_bits s1 1) in *.
  pose proof (BITS_front _ 2 t _ Hok2 HR2 ltac:(lia) ltac:(lia) ltac:(change (2 ^ 2) with 4; lia)) as Hlow2.
  destruct (drop_front _ 2 t _ Hok2 HR2 ltac:(lia) ltac:(change (2 ^ 32) with 4294967296; lia)) as [(_ & Hok3 & HR3) Hb3].
  assert (Hbody : type_body s = (t0 ← BITS 2;
    (if t0 =? 0 then set_mode STORED
     else if t0 =? 1 then
       upd (fun s => s <| i_lencode := LenFix |> <| i_lenbits := 9 |> <| i_distcode := DistFix |> <| i_distbits := 5 |>) ;; set_mode LEN
     else if t0 =? 2 then set_mode TABLE
     else set_bad "invalid block type") ;; DROPBITS 2) (s2 <| i_last := last |>)).
  { unfold type_body. rewrite (bind_Got _ _ s s s) by done. rewrite Hl. change (negb (0 =? 0)) with false. cbv iota.
    rewrite (bind_Got _ _ _ _ _ H1), (bind_Got _ _ _ _ _ (BITS_eq 1 s1)), Hlow1. done. }
  assert (Hlow2' : low_bits (s2 <| i_last := last |>) 2 = t) by exact Hlow2.
  rewrite (bind_Got _ _ _ _ _ (BITS_eq 2 _)), Hlow2' in Hbody.
  assert (Hstep : forall s', type_body s = Got tt s' -> bstep flush s s').
  { intros s' Hs'. split; [by destruct Hm as [->|[-> _]]|]. unfold block_step. rewrite (bind_Got _ _ s s s) by done.
    destruct Hm as [->|[-> Hf]]; [done|]. unfold step_type. by rewrite (proj2 (Z.eqb_neq _ _)) by done. }
  exists (drop_bits (kind_state t (s2 <| i_last := last |>)) 2). split.
  - apply Hstep. rewrite Hbody. unfold kind_state. assert (t = 0 \/ t = 1 \/ t = 2) as [->|[->| ->]] by lia; reflexivity.
  - assert (Hk : forall k, kind_state t (s2 <| i_last := last |>) = k -> drop_bits k 2 = set_buf (kind_state t (s <| i_last := last |>)) (i_hold (drop_bits s2 2)) (i_bits (drop_bits s2 2)) (i_pos (drop_bits s2 2))).
    { intros k <-. unfold kind_state. by destruct (t =? 0), (t =? 1). }
    rewrite (Hk _ eq_refl). split; [|change (i_bits (drop_bits s2 2) <= 7); lia]. split; [by eexists _, _, _|]. destruct Hok3. split; [|rewrite <- HR3].
    + split; cbn; try done; unfold kind_state; by destruct (t =? 0), (t =? 1).
    + unfold rbits. cbn. unfold kind_state. by destruct (t =? 0), (t =? 1).
Qed.

(** ** Blocks with fixed codes *)

Definition fixed_lenL : Z -> Z := len_of fixed_lens.
Definition fixed_huffL : Z -> Z := huff_code fixed_lens 288.
Definition fixed_lenD : Z -> Z := len_of fixed_dists.
Definition fixed_huffD : Z -> Z := huff_code fixed_dists 32.

(** Literals and matches of deflate. *)
Definition lz_ok (it : Z * Z) : Prop := 0 <= it.2 < 256 /\ 0 <= it.1 <= 32768.

Lemma fixed_coded c : 0 <= c < 288 -> coded fixed_lens 288 c.
Proof.
  intros Hc. assert (H : Forall (fun c => 1 <= len_of fixed_lens c <= 15) (seqZ 0 288)) by by_decide.
  rewrite Forall_forall in H. split; [done|]. apply H, elem_of_seqZ. lia.
Qed.

Lemma fixed_dist_coded c : 0 <= c < 32 -> coded fixed_dists 32 c.
Proof.
  intros Hc. assert (H : Forall (fun c => 1 <= len_of fixed_dists c <= 15) (seqZ 0 32)) by by_decide.
  rewrite Forall_forall in H. split; [done|]. apply H, elem_of_seqZ. lia.
Qed.

Lemma lz_codes it : lz_ok it -> it.1 = 0 \/ 1 <= it.1 <= 32768 /\ 0 <= length_code it.2 < 29 /\ 0 <= dist_code (it.1 - 1) < 30.
Proof.
  intros [Hlc Hd]. destruct (decide (it.1 = 0)); [by left|right]. destruct (length_ok_all it.2 Hlc) as [H1 _]. destruct (dist_ok_all (it.1 - 1) ltac:(lia)) as [H2 _]. lia.
Qed.

Lemma lz_valid (domL domD : Z -> Prop) it : (forall c, 0 <= c < 286 -> domL c) -> (forall c, 0 <= c < 30 -> domD c) -> lz_ok it -> valid_item domL domD it.
Proof.
  intros HL HD Hok. pose proof Hok as [Hlc _]. split; [done|]. destruct (lz_codes it Hok) as [E|(Hd & Hc & Hdc)]; [left|right].
  - split; [done|]. apply HL. lia.
  - split; [done|]. split; [apply HL; lia|by apply HD].
Qed.

Lemma lz_fixed it : lz_ok it -> valid_item (coded fixed_lens 288) (coded fixed_dists 32) it.
Proof. apply lz_valid; intros c Hc; [apply fixed_coded|apply fixed_dist_coded]; lia. Qed.

(** The string of a fixed block. *)
Definition fixed_bits (last : Z) (items : list (Z * Z)) : list bool :=
  zbits 3 (last + 2) ++ items_bits fixed_lenL fixed_huffL fixed_lenD fixed_huffD items ++ zbits (fixed_lenL 256) (fixed_huffL 256).

(** A block [B] in front of [R] is decoded: the data [f] makes of what came
    before is behind the output, and the machine is between two blocks again. *)
Definition block_read (flush : Z) (s s' : inf) (last n : Z) (R : list bool) (H : list Z) : Prop :=
  rtc (bstep flush) s s' /\ i_mode s' = TYPE /\ buf_ok s' /\ i_bits s' <= 7 /\ win_ok s' /\ i_last s' = last /\ rbits s' = R /\ hist s' = H
  /\ i_left s' = i_left s - n /\ whist s' = whist s /\ i_in s' = i_in s /\ arrays_ok s'.

Lemma decode_fixed flush s last items R : between flush s -> i_last s = 0 -> 0 <= last < 2 -> Forall lz_ok items -> reachable (hist s) items -> items_len items <= i_left s ->
  rbits s = fixed_bits last items ++ R ->
  exists s', block_read flush s s' last (items_len items) R (expand (hist s) items).
Proof.
  intros Hbw Hl Hlast Hit Hreach Hroom HR. unfold fixed_bits in HR. rewrite <- !app_assoc in HR.
  destruct (header_step flush s last 1 _ Hbw Hl Hlast ltac:(lia) HR) as (s1 & Hstep & ((h & b & p & ->) & Hok1 & HR1) & Hb1).
  set (s1 := set_buf _ h b p) in *. destruct Hbw as [_ _ _ W A]. assert (W1 : win_ok s1) by (destruct W; by split).
  assert (Hat : at_item lenfix distfix 9 5 7 s1) by (split; done). assert (H1 : hist s1 = hist s) by done.
  destruct (decode_block _ _ _ _ _ _ _ _ _ _ _ _ fixed_codes flush (length items) s1 items R ltac:(lia) eq_refl Hat (fixed_coded 256 ltac:(lia))) as (s' & Hrun & Har).
  { split; [|by rewrite H1|exact Hroom|exact HR1]. eapply Forall_impl; [exact Hit|]. exact lz_fixed. }
  destruct Har as [[Hok' Hb' W' _ _ _ _] HF Hm' HR' HH' HL']. exists s'. split; [by eapply rtc_l|]. split_and!; try done.
  - exact (frame_field i_last s1 s' ltac:(done) HF).
  - exact (proj2 (frame_win s1 s' HF W1)).
  - exact (frame_field i_in s1 s' ltac:(done) HF).
  - apply (frame_arrays s1 s' HF). destruct A. by split.
Qed.

(** ** The end of the stream *)

(** After the last block the bits up to the next byte are dropped. *)
Lemma last_step flush s : between flush s -> i_last s <> 0 ->
  exists s', bstep flush s s' /\ i_mode s' = CHECK /\ i_out s' = i_out s /\ i_left s' = i_left s /\ i_bits s' = 0 /\ i_hold s' = 0 /\ i_pos s' = i_pos s
    /\ i_in s' = i_in s /\ whist s' = whist s.
Proof.
  intros [Hm [Hb0 Hh _ _] Hb _ _] Hl. exists ((drop_bits s (i_bits s)) <| i_mode := CHECK |>).
  assert (Hland : Z.land (i_bits s) 7 = i_bits s) by (change 7 with (2 ^ 3 - 1); rewrite land_mask by lia; apply Z.mod_small; change (2 ^ 3) with 8; lia).
  split; [|cbn; rewrite Z.sub_diag, Z.shiftr_div_pow2 by lia; split_and!; try done; by apply Z.div_small].
  assert (Hbody : type_body s = Got tt ((drop_bits s (i_bits s)) <| i_mode := CHECK |>)).
  { unfold type_body. rewrite (bind_Got _ _ s s s) by done. rewrite (proj2 (Z.eqb_neq _ 0)) by done. cbn [negb]. unfold BYTEBITS.
    rewrite (bind_Got (s0 ← get; DROPBITS (Z.land (i_bits s0) 7)) _ s tt (drop_bits s (i_bits s))); [done|]. rewrite (bind_Got _ _ s s s) by done. by rewrite Hland. }
  split; [by destruct Hm as [->|[-> _]]|]. unfold block_step. rewrite (bind_Got _ _ s s s) by done.
  destruct Hm as [->|[-> Hf]]; [done|]. unfold step_type. by rewrite (proj2 (Z.eqb_neq _ _)) by done.
Qed.
