(* ===== verification/TreesTally.v ===== *)
(** * Tallying and sending blocks

    [_tr_tally] stores a literal or match in [d_buf] and [l_buf] and leaves the
    entries before it and the pending bytes alone ([tally_spec],
    [tally_items_spec]); [send_static_block] emits the string of the items
    with the fixed codes ([static_block_spec]), [_tr_stored_block] the bytes
    behind their lengths ([stored_block_spec]), and [bi_windup] fills the last
    byte ([windup_spec]). *)

From S2P Require Import Prelude Inftrees BitRev InftreesSort InftreesSpec InfFixed Bits TreesTables Trees TreesEmit TreesBlock InfItems InfCodes InfHeader.

(** ** The tally *)

(** [_tr_tally] for every literal and match of a block. *)
Fixpoint tally_items (s : dst) (items : list (Z * Z)) : outcome dst :=
  match items with
  | [] => Ok s
  | it :: items => r ← _tr_tally s it.1 it.2; tally_items r.1 items
  end.

(** The buffers and trees have the sizes [deflateInit2_] and [deflate.h] give them. *)
Record tally_ok (s : dst) : Prop := {
  ta_buf : zlen (d_pending_buf s) = 4 * d_lit_bufsize s;
  ta_bytes : is_bytes (d_pending_buf s);
  ta_pending : 0 <= d_pending s <= d_lit_bufsize s;
  ta_ltree : 286 <= zlen (d_dyn_ltree s);
  ta_dtree : 30 <= zlen (d_dyn_dtree s) }.

(** The state [s'] is [s] but for the tally. *)
Record same_output (s s' : dst) : Prop := {
  so_pending : d_pending s' = d_pending s;
  so_bi : d_bi_buf s' = d_bi_buf s /\ d_bi_valid s' = d_bi_valid s;
  so_lit : d_lit_bufsize s' = d_lit_bufsize s;
  so_bytes : take (Z.to_nat (d_pending s)) (d_pending_buf s') = take (Z.to_nat (d_pending s)) (d_pending_buf s) }.

Lemma bump_freq_ok tree n : 0 <= n < zlen tree -> exists t, bump_freq tree n = Ok t /\ zlen t = zlen tree.
Proof.
  intros Hn. unfold bump_freq. destruct (lookup_lt_is_Some_2 tree (Z.to_nat n)) as [e He]; [unfold zlen in *; lia|].
  rewrite (elem_at_lookup _ _ e) by (done || lia). cbn [mbind outcome_bind]. rewrite elem_set_in by done. eexists. split; [done|]. apply zlen_insert.
Qed.

Lemma elem_at_insert (l : list Z) i j x : 0 <= i < zlen l -> 0 <= j -> elem_at (<[Z.to_nat i := x]> l) j = if j =? i then Ok x else elem_at l j.
Proof.
  intros Hi Hj. unfold elem_at. rewrite (proj2 (Z.ltb_ge j 0)) by lia. rewrite lookup_insert_Z by done.
  destruct (Z.eqb_spec j i) as [->|Hne]; [by rewrite decide_True|]. by rewrite decide_False by done.
Qed.

(** The two arrays after an entry is written. *)
Lemma set_bufs_spec s i dist lc : tally_ok s -> 0 <= i < d_lit_bufsize s -> 0 <= dist < 2 ^ 16 -> 0 <= lc < 256 ->
  exists b, (s ← set_d_buf s i dist; set_l_buf s i lc) = Ok (s <| d_pending_buf := b |>)
    /\ zlen b = zlen (d_pending_buf s) /\ is_bytes b /\ take (Z.to_nat (d_pending s)) b = take (Z.to_nat (d_pending s)) (d_pending_buf s)
    /\ (forall j, 0 <= j < d_lit_bufsize s -> let s' := s <| d_pending_buf := b |> in
        d_buf_at s' j = (if j =? i then Ok dist else d_buf_at s j) /\ l_buf_at s' j = (if j =? i then Ok lc else l_buf_at s j)).
Proof.
  intros [Hz Hby Hp _ _] Hi Hd Hl. set (L := d_lit_bufsize s) in *. set (b0 := d_pending_buf s) in *.
  assert (Hlo : 0 <= dist `mod` 256 < 256) by (apply Z.mod_pos_bound; lia). assert (Hhi : 0 <= dist `div` 256 < 256) by (change (2 ^ 16) with 65536 in Hd; Z.div_mod_to_equations; lia).
  set (b1 := <[Z.to_nat (L + 2 * i) := dist `mod` 256]> b0). set (b2 := <[Z.to_nat (L + 2 * i + 1) := dist `div` 256]> b1). set (b3 := <[Z.to_nat (3 * L + i) := lc]> b2).
  assert (Z1 : zlen b1 = zlen b0) by apply zlen_insert. assert (Z2 : zlen b2 = zlen b0) by (unfold b2; rewrite zlen_insert; done).
  exists b3. split; [|split; [|split; [|split]]].
  - unfold set_d_buf, set_l_buf. fold L b0. rewrite elem_set_in by lia. cbn [mbind outcome_bind]. fold b1. rewrite elem_set_in by lia. cbn [mbind outcome_bind]. fold b2.
    change (d_pending_buf (s <| d_pending_buf := b2 |>)) with b2. change (d_lit_bufsize (s <| d_pending_buf := b2 |>)) with L. rewrite elem_set_in by lia. cbn [mbind outcome_bind]. done.
  - unfold b3. rewrite zlen_insert. done.
  - unfold b3, b2, b1. repeat apply Forall_insert; done.
  - unfold b3, b2, b1. rewrite !take_insert_ge by lia. done.
  - intros j Hj s'. unfold d_buf_at, l_buf_at, s'. cbn. fold L b0.
    assert (E3 : forall k, 0 <= k -> elem_at b3 k = if k =? 3 * L + i then Ok lc else if k =? L + 2 * i + 1 then Ok (dist `div` 256) else if k =? L + 2 * i then Ok (dist `mod` 256) else elem_at b0 k).
    { intros k Hk. unfold b3, b2, b1. rewrite !elem_at_insert by (rewrite ?zlen_insert; lia). done. }
    rewrite !E3 by lia. destruct (Z.eqb_spec j i) as [->|Hne].
    + rewrite (proj2 (Z.eqb_neq (L + 2 * i) (3 * L + i))), (proj2 (Z.eqb_neq (L + 2 * i) (L + 2 * i + 1))), (proj2 (Z.eqb_neq (L + 2 * i + 1) (3 * L + i))), !Z.eqb_refl by lia.
      cbn [mbind outcome_bind]. split; [|done]. f_equal. Z.div_mod_to_equations. lia.
    + rewrite (proj2 (Z.eqb_neq (L + 2 * j) (3 * L + i))), (proj2 (Z.eqb_neq (L + 2 * j) (L + 2 * i + 1))), (proj2 (Z.eqb_neq (L + 2 * j) (L + 2 * i))),
        (proj2 (Z.eqb_neq (L + 2 * j + 1) (3 * L + i))), (proj2 (Z.eqb_neq (L + 2 * j + 1) (L + 2 * i + 1))), (proj2 (Z.eqb_neq (L + 2 * j + 1) (L + 2 * i))),
        (proj2 (Z.eqb_neq (3 * L + j) (3 * L + i))), (proj2 (Z.eqb_neq (3 * L + j) (L + 2 * i + 1))), (proj2 (Z.eqb_neq (3 * L + j) (L + 2 * i))) by lia. done.
Qed.

(** What stays of the tally in a state with the same buffers. *)
Lemma tally_spec s items it : tally_ok s -> tallied s items -> zlen items < d_lit_bufsize s -> lz_ok it ->
  exists s', _tr_tally s it.1 it.2 = Ok (s', zlen items + 1 =? d_lit_bufsize s - 1) /\ tallied s' (items ++ [it]) /\ tally_ok s' /\ same_output s s'.
Proof.
  intros Hok (Hlast & Hle & Htal) Hlt Hit. destruct it as [dist lc]. pose proof (lz_codes _ Hit) as Hcodes. destruct Hit as [Hlc Hd]. cbn [fst snd] in *.
  pose proof (zlen_nonneg items) as Hnn. assert (Hd16 : 0 <= dist < 2 ^ 16) by (change (2 ^ 16) with 65536; lia).
  destruct (set_bufs_spec s (d_last_lit s) dist lc Hok ltac:(lia) Hd16 Hlc) as (b & Hset & Hz & Hby & Htake & Hbufs).
  pose proof Hok as [Hzb _ Hp Hlt' Hdt']. set (s1 := s <| d_pending_buf := b |>) in *.
  assert (Hfin : forall lt dt m, zlen lt = zlen (d_dyn_ltree s) -> zlen dt = zlen (d_dyn_dtree s) ->
    let s' := s1 <| d_last_lit := d_last_lit s + 1 |> <| d_matches := m |> <| d_dyn_ltree := lt |> <| d_dyn_dtree := dt |> in
    tallied s' (items ++ [(dist, lc)]) /\ tally_ok s' /\ same_output s s').
  { intros lt dt m Elt Edt s'. split; [|split].
    - split; [cbn; rewrite zlen_app, zlen_cons, zlen_nil; lia|]. split; [cbn; rewrite zlen_app, zlen_cons, zlen_nil; lia|].
      intros i it Hi. assert (Hil : Z.of_nat i < zlen items + 1) by (apply lookup_lt_Some in Hi; rewrite length_app in Hi; simpl in Hi; unfold zlen; lia).
      destruct (Hbufs (Z.of_nat i) ltac:(lia)) as [Hdb Hlb]. change (d_buf_at s' (Z.of_nat i)) with (d_buf_at s1 (Z.of_nat i)). change (l_buf_at s' (Z.of_nat i)) with (l_buf_at s1 (Z.of_nat i)).
      rewrite Hdb, Hlb, Hlast. destruct (Z.eqb_spec (Z.of_nat i) (zlen items)) as [E|E].
      + rewrite lookup_app_r in Hi by (unfold zlen in E; lia). replace (i - length items)%nat with 0%nat in Hi by (unfold zlen in E; lia). injection Hi as <-. done.
      + rewrite lookup_app_l in Hi by (unfold zlen in *; lia). by apply Htal.
    - split; cbn; [rewrite Hz; done|done|done|rewrite Elt; done|rewrite Edt; done].
    - by split. }
  unfold _tr_tally. rewrite u16_small by (unfold is_u16; done). rewrite u8_small by (unfold is_u8; change (2 ^ 8) with 256; done).
  assert (Hset' : forall (B : Type) (k : dst -> outcome B), (s0 ← set_d_buf s (d_last_lit s) dist; s0 ← set_l_buf s0 (d_last_lit s0) lc; k s0) = k s1).
  { intros B k. destruct (set_d_buf s (d_last_lit s) dist) as [t|] eqn:Et; [|discriminate Hset]. cbn [mbind outcome_bind] in *.
    assert (d_last_lit t = d_last_lit s) as -> by (unfold set_d_buf in Et; repeat (destruct (elem_set _ _ _); [cbn [mbind outcome_bind] in Et|discriminate Et]); injection Et as <-; done). by rewrite Hset. }
  rewrite Hset'. destruct (Z.eqb_spec dist 0) as [E0|E0].
  - destruct (bump_freq_ok (d_dyn_ltree s) lc ltac:(lia)) as (t & Ht & Ezt). change (d_dyn_ltree (s1 <| d_last_lit := d_last_lit s1 + 1 |>)) with (d_dyn_ltree s). rewrite Ht. cbn [mbind outcome_bind].
    eexists. split; [|exact (Hfin t (d_dyn_dtree s) (d_matches s) Ezt eq_refl)]. cbn. by rewrite Hlast.
  - destruct Hcodes as [?|(Hd1 & Hc & Hdc)]; [done|]. rewrite (lookup_table length_code_table lc 0) by (change (zlen length_code_table) with 256; lia). cbn [mbind outcome_bind].
    fold (length_code lc). set (s2 := s1 <| d_last_lit := _ |> <| d_matches := _ |>). change (d_dyn_ltree s2) with (d_dyn_ltree s). change (d_dyn_dtree s2) with (d_dyn_dtree s).
    destruct (bump_freq_ok (d_dyn_ltree s) (length_code lc + LITERALS + 1) ltac:(unfold LITERALS; lia)) as (t & Ht & Ezt). rewrite Ht. cbn [mbind outcome_bind].
    rewrite d_code_eq by lia. cbn [mbind outcome_bind].
    destruct (bump_freq_ok (d_dyn_dtree s) (dist_code (dist - 1)) ltac:(lia)) as (t' & Ht' & Ezt'). rewrite Ht'. cbn [mbind outcome_bind].
    eexists. split; [|exact (Hfin t t' (d_matches s + 1) Ezt Ezt')]. unfold s2. cbn. by rewrite Hlast.
Qed.

Lemma same_output_trans s s1 s2 : same_output s s1 -> same_output s1 s2 -> same_output s s2.
Proof.
  intros [P1 [B1 V1] L1 T1] [P2 [B2 V2] L2 T2]. rewrite P1 in T2. split; try congruence. split; congruence.
Qed.

Lemma tally_items_spec todo : forall s items, tally_ok s -> tallied s items -> zlen items + zlen todo <= d_lit_bufsize s -> Forall lz_ok todo ->
  exists s', tally_items s todo = Ok s' /\ tallied s' (items ++ todo) /\ tally_ok s' /\ same_output s s'.
Proof.
  induction todo as [|it todo IH]; intros s items Hok Ht Hz Hall.
  - exists s. rewrite app_nil_r. by split_and!.
  - apply Forall_cons in Hall as [Hit Hall]. rewrite zlen_cons in Hz. pose proof (zlen_nonneg todo).
    destruct (tally_spec s items it Hok Ht ltac:(lia) Hit) as (s1 & H1 & Ht1 & Hok1 & Hs1).
    destruct (IH s1 (items ++ [it]) Hok1 Ht1) as (s' & H2 & Ht2 & Hok2 & Hs2); [rewrite zlen_app, zlen_cons, zlen_nil, (so_lit _ _ Hs1); lia|done|].
    exists s'. cbn [tally_items]. rewrite H1. cbn [mbind outcome_bind fst]. split; [done|]. split; [by rewrite <- app_assoc in Ht2|]. split; [done|by eapply same_output_trans].
Qed.

Lemma same_wbits s s' : same_output s s' -> wbits s' = wbits s /\ nbits s' = nbits s.
Proof.
  intros [P [B V] _ T]. unfold wbits, nbits, pending_bytes. by rewrite P, B, V, T.
Qed.

Lemma same_out_ok s s' : same_output s s' -> tally_ok s' -> out_ok s -> out_ok s'.
Proof.
  intros [P [B V] L _] [Hz Hb Hp _ _] [_ Hv Hbuf _]. split; [|by rewrite V|by rewrite B, V|done]. lia.
Qed.

(** ** Fixed blocks *)

(** [k] bits and then the items: the output stays below the entries that are
    still to be read. *)
Definition overlay_from (s : dst) (k : Z) (item_bits : Z * Z -> list bool) (items : list (Z * Z)) : Prop :=
  forall i, (i < length items)%nat -> nbits s + k + zlen (take i items ≫= item_bits) <= 8 * (d_lit_bufsize s + 2 * Z.of_nat i).

Abbreviation fixed_item_bits := (item_bits fixed_lenL fixed_huffL fixed_lenD fixed_huffD).

Lemma tallied_kept s s' B items : out_ok s -> writes s s' B -> tallied s items -> (items <> [] -> nbits s' <= 8 * d_lit_bufsize s) -> tallied s' items.
Proof.
  intros Hok Hw (Hlast & Hle & Htal) Hn. pose proof Hw as [(b & p & v & n & E) _ _ _ _ _ _]. split; [by rewrite E|]. split; [by rewrite E|].
  intros i it Hi. pose proof (lookup_lt_Some _ _ _ Hi). destruct (tally_kept s s' B (Z.of_nat i) Hok Hw) as [Hd Hl].
  - unfold zlen in Hle. lia.
  - assert (items <> []) by (intros ->; done). specialize (Hn ltac:(done)). lia.
  - rewrite Hd, Hl. by apply Htal.
Qed.

Lemma lz_fixed_static it : lz_ok it -> valid_item (coded fixed_lens 288) (fun c => 0 <= c < 30) it.
Proof. apply lz_valid; intros c Hc; [apply fixed_coded|]; lia. Qed.

(** A header of three bits and the items, with codes of some trees. *)
Lemma tree_block_spec s (hdr : Z) ltree dtree domL domD lenL huffL lenD huffD items :
  codebook ltree domL lenL huffL -> codebook dtree domD lenD huffD -> domL END_BLOCK ->
  out_ok s -> tallied s items -> Forall (valid_item domL domD) items -> 0 <= hdr < 8 -> overlay_from s 3 (item_bits lenL huffL lenD huffD) items ->
  let B := zbits 3 hdr ++ items_bits lenL huffL lenD huffD items ++ zbits (lenL END_BLOCK) (huffL END_BLOCK) in
  nbits s + zlen B <= room s ->
  exists s', (s ← send_bits s hdr 3; compress_block s ltree dtree) = Ok (s' <| d_last_eob_len := lenL END_BLOCK |>) /\ writes s s' B.
Proof.
  intros HL HD Heob Hok Ht Hv Hh Hover B Hroom. unfold B in Hroom. rewrite zlen_app, zlen_zbits in Hroom by lia.
  match type of Hroom with context [zlen ?x] => pose proof (zlen_nonneg x) end.
  destruct (send_bits_spec s hdr 3 Hok ltac:(lia) ltac:(change (2 ^ 3) with 8; lia) ltac:(lia)) as (s1 & H1 & Hw1). rewrite H1. cbn [mbind outcome_bind].
  destruct (writes_room _ _ _ Hw1) as (Hr1 & Hn1 & Hok1). rewrite zlen_zbits in Hn1 by lia.
  assert (Hlit : d_lit_bufsize s1 = d_lit_bufsize s) by (destruct Hw1 as [(a & b & c & d & ->)]; done).
  assert (Ht1 : tallied s1 items).
  { apply (tallied_kept s s1 _ items Hok Hw1 Ht). intros Hne. pose proof (Hover 0%nat ltac:(destruct items; [done|simpl; lia])) as H0. rewrite take_0 in H0. cbn in H0. change (zlen (@nil bool)) with 0 in H0. lia. }
  assert (Hover1 : overlay_ok lenL huffL lenD huffD s1 items).
  { intros i Hi. specialize (Hover i Hi). rewrite Hlit, Hn1. exact Hover. }
  destruct (compress_block_spec ltree dtree domL domD lenL huffL lenD huffD HL HD s1 items Hok1 Ht1 Hv Hover1 Heob ltac:(rewrite Hr1, Hn1; lia)) as (s' & H2 & Hw2).
  exists s'. split; [done|]. by eapply writes_trans.
Qed.

Lemma static_block_spec s items last : out_ok s -> tallied s items -> Forall lz_ok items -> 0 <= last < 2 -> overlay_from s 3 fixed_item_bits items ->
  nbits s + zlen (fixed_bits last items) <= room s ->
  exists s', send_static_block s last = Ok (s' <| d_last_eob_len := 7 |>) /\ writes s s' (fixed_bits last items).
Proof.
  intros Hok Ht Hall Hl Hover Hroom. assert (Hv : Forall (valid_item (coded fixed_lens 288) (fun c => 0 <= c < 30)) items) by (eapply Forall_impl; [exact Hall|exact lz_fixed_static]).
  unfold fixed_bits in *. replace (last + 2) with (Z.shiftl STATIC_TREES 1 + last) in * by (change (Z.shiftl STATIC_TREES 1) with 2; lia).
  exact (tree_block_spec s (Z.shiftl STATIC_TREES 1 + last) static_ltree static_dtree _ _ fixed_lenL fixed_huffL fixed_lenD fixed_huffD items static_ltree_book static_dtree_book
    (fixed_coded END_BLOCK ltac:(unfold END_BLOCK; lia)) Hok Ht Hv ltac:(change (Z.shiftl STATIC_TREES 1) with 2; lia) Hover Hroom).
Qed.

(** Items that are short enough never meet the entries behind them. *)
Lemma overlay_short s k f items n : (forall it, it ∈ items -> zlen (f it) <= 16 + n) -> 0 <= n -> nbits s + k + n * zlen items <= 8 * d_lit_bufsize s -> overlay_from s k f items.
Proof.
  intros Hf Hn Hs i Hi. assert (Hlen : zlen (take i items ≫= f) <= (16 + n) * Z.of_nat i).
  { clear Hs. revert i Hi. induction items as [|it items IH]; intros i Hi; [simpl in Hi; lia|]. destruct i as [|i]; [cbn; rewrite zlen_nil; lia|]. cbn [take mbind list_bind].
    rewrite zlen_app. pose proof (Hf it ltac:(left)). specialize (IH ltac:(intros x Hx; apply Hf; by right) i ltac:(simpl in Hi; lia)). simpl in IH. lia. }
  unfold zlen in *. nia.
Qed.

(** A match takes at most 31 bits with the fixed codes, a literal at most nine. *)
Lemma fixed_item_short it : lz_ok it -> zlen (fixed_item_bits it) <= 31 /\ (it.1 = 0 -> zlen (fixed_item_bits it) <= 9).
Proof.
  intros Hok. pose proof (fixed_short) as [SL SD]. pose proof (lz_codes it Hok) as Hc. destruct Hok as [Hlc Hd].
  assert (H0 : forall x, 0 <= x < 288 -> zlen (zbits (fixed_lenL x) (fixed_huffL x)) <= 9).
  { intros x Hx. destruct (fixed_coded x Hx) as [_ Hl]. unfold fixed_lenL. rewrite zlen_zbits by lia. apply SL. }
  unfold item_bits. destruct (Z.eqb_spec it.1 0) as [E|E]; [specialize (H0 it.2 ltac:(lia)); lia|]. split; [|done]. destruct Hc as [?|(Hd1 & Hc & Hdc)]; [done|].
  destruct (length_ok_all it.2 Hlc) as (_ & He & _). destruct (dist_ok_all (it.1 - 1) ltac:(lia)) as (_ & Hde & _). cbv zeta in *.
  unfold match_bits. rewrite !zlen_app, !(zlen_zbits (lextra _)), !(zlen_zbits (dextra _)) by lia.
  assert (H7 : zlen (zbits (fixed_lenL (length_code it.2 + 257)) (fixed_huffL (length_code it.2 + 257))) <= 8).
  { assert (H : Forall (fun c => len_of fixed_lens (c + 257) <= 8) (seqZ 0 29)) by by_decide. rewrite Forall_forall in H. specialize (H (length_code it.2) ltac:(apply elem_of_seqZ; lia)).
    destruct (fixed_coded (length_code it.2 + 257) ltac:(lia)) as [_ Hl]. unfold fixed_lenL. rewrite zlen_zbits by lia. exact H. }
  assert (H5 : zlen (zbits (fixed_lenD (dist_code (it.1 - 1))) (fixed_huffD (dist_code (it.1 - 1)))) <= 5).
  { destruct (fixed_dist_coded (dist_code (it.1 - 1)) ltac:(lia)) as [_ Hl]. unfold fixed_lenD. rewrite zlen_zbits by lia. apply SD. }
  lia.
Qed.

(** ** The last byte *)

Definition pad (n : Z) : Z := (- n) `mod` 8.

Lemma windup_spec s : out_ok s -> nbits s + pad (d_bi_valid s) <= room s ->
  exists s', bi_windup s = Ok s' /\ writes s s' (zbits (pad (d_bi_valid s)) 0) /\ d_bi_valid s' = 0.
Proof.
  intros Hok Hroom. pose proof Hok as [Hp Hv Hb Hby]. unfold nbits, room, pad in *. unfold bi_windup.
  assert (Hnil : zbits 0 0 = []) by done.
  destruct (Z.ltb_spec 8 (d_bi_valid s)) as [H8|H8]; [|destruct (Z.ltb_spec 0 (d_bi_valid s)) as [H0|H0]].
  - assert (Epad : (- d_bi_valid s) `mod` 8 = 16 - d_bi_valid s) by (Z.div_mod_to_equations; lia). rewrite Epad in *.
    assert (Hw16 : d_bi_buf s < 2 ^ 16) by (pose proof (pow2_mono (d_bi_valid s) 16 ltac:(lia)); lia).
    destruct (put_short_spec s (d_bi_buf s) (proj1 Hp) Hby ltac:(lia) ltac:(lia)) as (buf & Hps & Hbits & Hz & Hbb & Hd). rewrite Hps. cbn [mbind outcome_bind].
    eexists. split; [done|]. split; [|done]. split; cbn; [by eexists _, _, _, _|split; cbn; [lia|lia|change (2 ^ 0) with 1; lia|done]| | |done|lia|done].
    + unfold wbits. cbn. unfold pending_bytes at 1. cbn. rewrite Hbits, zbits_0, app_nil_r, <- app_assoc. f_equal. rewrite zbits_app by lia. rewrite Z.mul_0_r, Z.add_0_r. f_equal. lia.
    + unfold nbits. cbn. rewrite zlen_zbits by lia. lia.
  - assert (Epad : (- d_bi_valid s) `mod` 8 = 8 - d_bi_valid s) by (Z.div_mod_to_equations; lia). rewrite Epad in *.
    assert (Hw8 : d_bi_buf s < 2 ^ 8) by (pose proof (pow2_mono (d_bi_valid s) 8 ltac:(lia)); lia).
    destruct (put_byte_spec s (d_bi_buf s) (proj1 Hp) Hby ltac:(lia)) as (buf & Hps & Ht & Hz & Hbb & Hd). rewrite Hps. cbn [mbind outcome_bind].
    eexists. split; [done|]. split; [|done]. split; cbn; [by eexists _, _, _, _|split; cbn; [lia|lia|change (2 ^ 0) with 1; lia|done]| | |done|lia|done].
    + unfold wbits. cbn. unfold pending_bytes at 1. cbn. rewrite Ht, zbits_0, app_nil_r, bytes_bits_app, <- app_assoc. f_equal. rewrite zbits_app by lia. rewrite Z.mul_0_r, Z.add_0_r.
      rewrite bytes_bits_cons. change (bytes_bits []) with (@nil bool). rewrite app_nil_r, u8_small by (unfold is_u8; lia). f_equal. lia.
    + unfold nbits. cbn. rewrite zlen_zbits by lia. lia.
  - assert (Ev : d_bi_valid s = 0) by lia. rewrite Ev in *. cbn [mbind outcome_bind]. change ((- 0) `mod` 8) with 0. rewrite Hnil.
    assert (Eb : d_bi_buf s = 0) by (change (2 ^ 0) with 1 in Hb; lia). exists s. split; [|split; [by apply writes_refl|done]]. f_equal. destruct s. cbn in *. by subst.
Qed.
