(* ===== verification/InfStored.v ===== *)
(** * Stored blocks

    After the header of a stored block the rest of the byte is dropped, the
    length and its complement are read, and the bytes are copied
    ([decode_stored]). *)

From stdpp Require Import strings.
From S2P Require Import Prelude Inftrees BitRev Inflate Bits InfDecode InfCopy TreesTables Trees TreesBlock InfItems InfHeader.

(** Bytes at the front of a string of whole bytes. *)
Lemma bytes_prefix data : forall l R, is_bytes l -> is_bytes data -> bytes_bits l = bytes_bits data ++ R ->
  take (length data) l = data /\ bytes_bits (drop (length data) l) = R.
Proof.
  induction data as [|d data IH]; intros l R Hl Hd E; [done|]. apply Forall_cons in Hd as [Hd Hds]. rewrite bytes_bits_cons, <- app_assoc in E. destruct l as [|x l].
  - apply (f_equal zlen) in E. rewrite zlen_app, zlen_zbits in E by lia. change (zlen (bytes_bits [])) with 0 in E. match type of E with context [8 + zlen ?y] => pose proof (zlen_nonneg y) end. lia.
  - apply Forall_cons in Hl as [Hx Hl]. rewrite bytes_bits_cons in E. apply zbits_app_inv in E as [Ev E]; [|lia]. unfold is_byte in *. change (2 ^ 8) with 256 in Ev. rewrite !Z.mod_small in Ev by lia.
    subst x. destruct (IH l R Hl Hds E) as [IH1 IH2]. cbn [length take drop]. by rewrite IH1.
Qed.

(** The string of a stored block whose header ends [p] bits before a byte boundary. *)
Definition stored_bits (last p : Z) (data : list Z) : list bool :=
  zbits 3 last ++ zbits p 0 ++ zbits 16 (zlen data) ++ zbits 16 (65535 - zlen data) ++ bytes_bits data.

Lemma stored_lengths len : 0 <= len < 65536 -> let hold := len + 65536 * (65535 - len) in
  Z.land hold 65535 = len /\ Z.lxor (Z.shiftr hold 16) 65535 = len.
Proof.
  intros Hlen hold. assert (Hmod : forall v, Z.land v 65535 = v `mod` 65536) by (intros v; change 65535 with (2 ^ 16 - 1); rewrite land_mask by lia; done).
  split; [rewrite Hmod; unfold hold; rewrite Z.mul_comm, Z.mod_add by lia; by apply Z.mod_small|].
  rewrite Z.shiftr_div_pow2 by lia. change (2 ^ 16) with 65536. unfold hold. rewrite Z.mul_comm, Z.div_add, Z.div_small by lia. rewrite Z.add_0_l.
  replace (65535 - len) with (Z.lxor len 65535); [by rewrite Z.lxor_assoc, Z.lxor_nilpotent, Z.lxor_0_r|].
  apply Z.bits_inj'. intros i Hi. rewrite Z.lxor_spec. change 65535 with (Z.ones 16) at 1 2. rewrite Z.testbit_ones by lia.
  replace (Z.ones 16 - len) with (Z.lnot len + 2 ^ 16) by (rewrite Z.ones_equiv; unfold Z.lnot; lia).
  destruct (Z.ltb_spec i 16) as [Hlt|Hge].
  - rewrite (proj2 (Z.leb_le 0 i)) by lia. cbn [andb]. rewrite xorb_true_r. rewrite <- (Z.mod_pow2_bits_low (_ + _) 16) by lia. rewrite <- (Z.mul_1_l (2 ^ 16)) at 1.
    rewrite Z.mod_add by lia. rewrite Z.mod_pow2_bits_low by lia. by rewrite Z.lnot_spec.
  - rewrite (proj2 (Z.leb_le 0 i)) by lia. cbn [andb]. rewrite xorb_false_r. assert (Hsm : forall v, 0 <= v < 65536 -> Z.testbit v i = false).
    { intros v Hv. destruct (decide (v = 0)) as [->|Hne]; [apply Z.bits_0|]. apply Z.bits_above_log2; [lia|]. assert (Z.log2 v < 16) by (apply Z.log2_lt_pow2; [lia|change (2 ^ 16) with 65536; lia]). lia. }
    rewrite (Hsm len) by lia. symmetry. apply Hsm. unfold Z.lnot. change (2 ^ 16) with 65536. lia.
Qed.

Section stored.
Context (flush : Z).

(** Dropping the rest of the byte. *)
Lemma stored_step s p data R : i_mode s = STORED -> buf_ok s -> i_bits s <= 7 -> 0 <= p < 8 -> zlen R `mod` 8 = 0 -> zlen data < 65536 ->
  rbits s = zbits p 0 ++ zbits 16 (zlen data) ++ zbits 16 (65535 - zlen data) ++ bytes_bits data ++ R ->
  exists s', bstep flush s s' /\ reads (s <| i_length := zlen data |> <| i_mode := COPY |>) s' (bytes_bits data ++ R) /\ i_bits s' = 0.
Proof.
  intros Hm Hok Hb Hp HR8 Hlen HR. pose proof (zlen_nonneg data) as Hnn.
  assert (Hbits : i_bits s = p).
  { pose proof (zlen_rbits s Hok) as Hz. rewrite HR, !zlen_app, !zlen_zbits, zlen_bytes_bits in Hz by lia. destruct Hok as [Hb0 _ _ _]. Z.div_mod_to_equations. lia. }
  assert (Hland : Z.land (i_bits s) 7 = p) by (rewrite Hbits; change 7 with (2 ^ 3 - 1); rewrite land_mask by lia; by apply Z.mod_small).
  destruct (drop_front s p 0 _ Hok HR ltac:(lia) ltac:(change (2 ^ 32) with 4294967296; lia)) as [(_ & Hok1 & HR1) Hb1]. rewrite Hbits, Z.sub_diag in Hb1.
  set (s1 := drop_bits s p) in *. assert (Hbyte : BYTEBITS s = Got tt s1). { unfold BYTEBITS. rewrite (bind_Got _ _ s s s) by done. by rewrite Hland. }
  assert (H16 : 0 <= zlen data < 2 ^ 16) by (change (2 ^ 16) with 65536; lia).
  rewrite app_assoc, zbits_app in HR1 by lia. change (16 + 16) with 32 in HR1.
  destruct (needbits_gen 6 s1 32 Hok1) as (s2 & Hn & ((h & b & q & E2) & Hok2 & HR2) & Hge & Hle & Hmod).
  { right. split; [lia|]. by rewrite Hb1. } { rewrite HR1, zlen_app, zlen_zbits by lia. match goal with |- context [32 + zlen ?y] => pose proof (zlen_nonneg y) end. lia. } { lia. } { lia. }
  rewrite Hb1 in *. assert (Hb2 : i_bits s2 = 32) by (change (0 `mod` 8) with 0 in Hmod; Z.div_mod_to_equations; lia). rewrite HR1 in HR2.
  assert (Hhold : i_hold s2 = zlen data + 65536 * (65535 - zlen data)).
  { rewrite (hold_bval s2 Hok2), HR2, Hb2. rewrite bval_prefix; [done|lia|]. change (2 ^ 32) with 4294967296. change (2 ^ 16) with 65536. lia. }
  destruct (stored_lengths (zlen data) ltac:(lia)) as [HL HX]. cbv zeta in HL, HX. rewrite <- Hhold in HL, HX.
  set (s' := s2 <| i_length := zlen data |> <| i_hold := 0 |> <| i_bits := 0 |> <| i_mode := COPY |>). exists s'. split.
  - split; [by rewrite Hm|]. unfold block_step. rewrite (bind_Got _ _ s s s) by done. rewrite Hm. unfold step_stored. rewrite (bind_Got _ _ _ _ _ Hbyte).
    unfold NEEDBITS. rewrite (bind_Got _ _ _ _ _ Hn), (bind_Got _ _ s2 s2 s2) by done. rewrite HL, HX, Z.eqb_refl. cbn [negb].
    unfold upd, INITBITS, set_mode. rewrite (bind_Got _ _ s2 tt (s2 <| i_length := zlen data |>)); [done|by rewrite HL].
  - split; [|done]. unfold s'. rewrite E2. split; [by eexists _, _, _|]. rewrite <- E2. destruct Hok2 as [? ? Hpos ?]. split; [split; cbn; [lia|change (2 ^ 0) with 1; lia|done|done]|].
    unfold rbits in HR2 |- *. cbn. rewrite Hb2 in HR2. apply zbits_app_inv in HR2 as [_ HR2]; [done|lia].
Qed.

(** Copying the bytes. *)
Lemma copy_steps s data R : i_mode s = COPY -> buf_ok s -> i_bits s = 0 -> is_bytes data -> i_length s = zlen data -> zlen data <= i_left s ->
  rbits s = bytes_bits data ++ R -> exists s', rtc (bstep flush) s s' /\ i_mode s' = TYPE /\ frame s s' /\ buf_ok s' /\ i_bits s' = 0 /\ rbits s' = R
    /\ i_out s' = i_out s ++ data /\ i_left s' = i_left s - zlen data.
Proof.
  intros Hm Hok Hb Hby Hlen Hroom HR. pose proof Hok as [Hb0 Hh Hp Hi].
  assert (Hdone : forall t, i_mode t = COPY -> i_length t = 0 -> bstep flush t (t <| i_mode := TYPE |>)).
  { intros t Ht Hl. split; [by rewrite Ht|]. unfold block_step. rewrite (bind_Got _ _ t t t) by done. rewrite Ht. unfold step_copy. rewrite (bind_Got _ _ t t t) by done. by rewrite Hl. }
  destruct (decide (zlen data = 0)) as [E0|Hne].
  - assert (data = []) as -> by (destruct data; [done|rewrite zlen_cons in E0; pose proof (zlen_nonneg data); lia]).
    exists (s <| i_mode := TYPE |>). split; [apply rtc_once, Hdone; [done|by rewrite Hlen]|].
    split; [done|]. split; [done|]. split; [by split|]. split; [done|]. split; [exact HR|]. cbn. split; [by rewrite app_nil_r|lia].
  - unfold rbits in HR. rewrite Hb, zbits_0 in HR. cbn [app] in HR. pose proof (zlen_nonneg data).
    destruct (bytes_prefix data (drop (Z.to_nat (i_pos s)) (i_in s)) R ltac:(by apply Forall_drop) Hby HR) as [Htake Hdrop].
    assert (Hav : zlen data <= avail_in s).
    { apply (f_equal zlen) in HR. rewrite zlen_app, !zlen_bytes_bits, zlen_drop in HR by lia. pose proof (zlen_nonneg R). unfold avail_in. lia. }
    assert (Hread : read_at (i_in s) (i_pos s) (zlen data) = Ok data).
    { apply read_at_Ok. unfold avail_in in Hav. split; [lia|]. by rewrite <- (length_zlen data), Htake. }
    set (s1 := s <| i_pos := i_pos s + zlen data |> <| i_out := i_out s ++ data |> <| i_left := i_left s - zlen data |> <| i_length := i_length s - zlen data |>).
    assert (Hstep : bstep flush s s1).
    { split; [by rewrite Hm|]. unfold block_step. rewrite (bind_Got _ _ s s s) by done. rewrite Hm. unfold step_copy. rewrite (bind_Got _ _ s s s) by done. cbv zeta. rewrite Hlen.
      rewrite (proj2 (Z.eqb_neq (zlen data) 0)) by done. cbn [negb]. rewrite (proj2 (Z.ltb_ge (avail_in s) (zlen data))), (proj2 (Z.ltb_ge (i_left s) (zlen data))) by lia.
      rewrite (proj2 (Z.eqb_neq (zlen data) 0)) by done. unfold lift. rewrite (bind_Got _ _ s data s) by (by rewrite Hread). unfold upd, s1. by rewrite Hlen. }
    exists (s1 <| i_mode := TYPE |>). split; [eapply rtc_l; [exact Hstep|]; apply rtc_once, Hdone; [exact Hm|cbn; lia]|]. split_and!; try done.
    + split; cbn; [lia|done| |done]. unfold avail_in in Hav. lia.
    + unfold rbits. cbn. rewrite Hb, zbits_0. cbn [app]. rewrite <- Hdrop. f_equal. rewrite drop_drop. f_equal. unfold zlen. lia.
Qed.

Lemma decode_stored s last p data R : between flush s -> i_last s = 0 -> 0 <= last < 2 -> 0 <= p < 8 -> zlen R `mod` 8 = 0 -> is_bytes data -> zlen data < 65536 -> zlen data <= i_left s ->
  rbits s = stored_bits last p data ++ R ->
  exists s', block_read flush s s' last (zlen data) R (hist s ++ data).
Proof.
  intros Hbw Hl Hlast Hp HR8 Hby Hlen Hroom HR. unfold stored_bits in HR. rewrite <- !app_assoc in HR. replace (zbits 3 last) with (zbits 3 (last + 2 * 0)) in HR by (f_equal; lia).
  destruct (header_step flush s last 0 _ Hbw Hl Hlast ltac:(lia) HR) as (s1 & Hstep1 & ((h & b & q & ->) & Hok1 & HR1) & Hb1). set (s1 := set_buf _ h b q) in *.
  destruct (stored_step s1 p data R eq_refl Hok1 Hb1 Hp HR8 Hlen HR1) as (s2 & Hstep2 & ((h2 & b2 & q2 & ->) & Hok2 & HR2) & Hb2). set (s2 := set_buf _ h2 b2 q2) in *.
  destruct (copy_steps s2 data R eq_refl Hok2 Hb2 Hby eq_refl Hroom HR2) as (s3 & Hrun & Hm3 & HF & Hok3 & Hb3 & HR3 & Ho3 & Hl3).
  destruct Hbw as [_ _ _ W A]. assert (W2 : win_ok s2) by (destruct W; by split). destruct (frame_win s2 s3 HF W2) as [W3 Hw3].
  exists s3. split; [eapply rtc_l; [exact Hstep1|]; by eapply rtc_l|]. split_and!; try done; [lia|exact (frame_field i_last s2 s3 ltac:(done) HF)| |exact (frame_field i_in s2 s3 ltac:(done) HF)|apply (frame_arrays s2 s3 HF); destruct A; by split].
  unfold hist. rewrite Hw3, Ho3. by rewrite app_assoc.
Qed.

End stored.
