(* ===== verification/TreesStored.v ===== *)
(** * Sending stored blocks

    [_tr_stored_block] emits a header, the rest of the byte, the length with
    its complement, and the bytes of the block ([stored_block_spec]). *)

From S2P Require Import Prelude Inftrees BitRev Bits TreesTables Trees TreesEmit TreesBlock TreesTally InfStored.

(** Whole bytes, when the bit buffer is empty. *)
Lemma put_byte_writes s c : out_ok s -> d_bi_valid s = 0 -> is_byte c -> nbits s + 8 <= room s ->
  exists s', put_byte s c = Ok s' /\ writes s s' (zbits 8 c) /\ d_bi_valid s' = 0.
Proof.
  intros [Hp Hv Hb Hby] H0 Hc Hroom. unfold nbits, room in Hroom. rewrite H0 in *. destruct (put_byte_spec s c (proj1 Hp) Hby ltac:(lia)) as (buf & Hps & Ht & Hz & Hbb & Hd).
  eexists. split; [exact Hps|]. split; [|exact H0]. assert (Eb : d_bi_buf s = 0) by (change (2 ^ 0) with 1 in Hb; lia).
  split; cbn; [by exists buf, (d_pending s + 1), (d_bi_buf s), (d_bi_valid s)|split; cbn; [lia|lia|by rewrite H0|done]| | |done|lia|done].
  - unfold wbits. cbn. unfold pending_bytes at 1. cbn. rewrite Ht, H0, !zbits_0, !app_nil_r, bytes_bits_app. f_equal. rewrite bytes_bits_cons.
    change (bytes_bits []) with (@nil bool). unfold is_byte in Hc. rewrite app_nil_r, u8_small by (unfold is_u8; change (2 ^ 8) with 256; lia). done.
  - unfold nbits. cbn. rewrite zlen_zbits by lia. lia.
Qed.

Lemma put_short_writes s w : out_ok s -> d_bi_valid s = 0 -> 0 <= w < 2 ^ 16 -> nbits s + 16 <= room s ->
  exists s', put_short s w = Ok s' /\ writes s s' (zbits 16 w) /\ d_bi_valid s' = 0.
Proof.
  intros [Hp Hv Hb Hby] H0 Hw Hroom. unfold nbits, room in Hroom. rewrite H0 in *. destruct (put_short_spec s w (proj1 Hp) Hby ltac:(lia) Hw) as (buf & Hps & Ht & Hz & Hbb & Hd).
  eexists. split; [exact Hps|]. split; [|exact H0].
  split; cbn; [by exists buf, (d_pending s + 2), (d_bi_buf s), (d_bi_valid s)|split; cbn; [lia|lia|by rewrite H0|done]| | |done|lia|done].
  - unfold wbits. cbn. unfold pending_bytes at 1. cbn. by rewrite Ht, H0, !zbits_0, !app_nil_r.
  - unfold nbits. cbn. rewrite zlen_zbits by lia. lia.
Qed.

Lemma put_bytes_writes buf : forall s, out_ok s -> d_bi_valid s = 0 -> is_bytes buf -> nbits s + 8 * zlen buf <= room s ->
  exists s', put_bytes s buf = Ok s' /\ writes s s' (bytes_bits buf) /\ d_bi_valid s' = 0.
Proof.
  induction buf as [|c buf IH]; intros s Hok H0 Hby Hroom; [exists s; split; [done|split; [by apply writes_refl|done]]|].
  apply Forall_cons in Hby as [Hc Hby]. rewrite zlen_cons in Hroom. pose proof (zlen_nonneg buf). destruct (put_byte_writes s c Hok H0 Hc ltac:(lia)) as (s1 & H1 & Hw1 & V1).
  destruct (writes_room _ _ _ Hw1) as (Hr1 & Hn1 & Hok1). rewrite zlen_zbits in Hn1 by lia. destruct (IH s1 Hok1 V1 Hby ltac:(lia)) as (s' & H2 & Hw2 & V2).
  exists s'. cbn [put_bytes]. rewrite H1. cbn [mbind outcome_bind]. split; [done|]. split; [by eapply writes_trans|done].
Qed.

Lemma writes_eob s s' B n : writes s s' B -> writes (s <| d_last_eob_len := n |>) (s' <| d_last_eob_len := n |>) B.
Proof. intros [(b & p & v & m & ->) [? ? ? ?] ? ? ? ? ?]. split; try done. by eexists _, _, _, _. Qed.

Lemma pad_range n : 0 <= pad n < 8.
Proof. unfold pad. apply Z.mod_pos_bound. lia. Qed.

Lemma pad_bi s : out_ok s -> pad (d_bi_valid s) = pad (nbits s).
Proof. intros _. unfold pad, nbits. Z.div_mod_to_equations. lia. Qed.

Lemma stored_block_spec s buf last : out_ok s -> 0 <= last < 2 -> is_bytes buf -> zlen buf < 65536 ->
  let B := stored_bits last (pad (nbits s + 3)) buf in nbits s + zlen B <= room s ->
  exists s', _tr_stored_block s buf last = Ok s' /\ writes (s <| d_last_eob_len := 8 |>) s' B /\ d_bi_valid s' = 0.
Proof.
  intros Hok Hl Hby Hlen B Hroom. pose proof (zlen_nonneg buf). pose proof (pad_range (nbits s + 3)) as Hpad. unfold B, stored_bits in Hroom |- *.
  rewrite !zlen_app, !zlen_zbits, zlen_bytes_bits in Hroom by lia.
  destruct (send_bits_spec s (Z.shiftl STORED_BLOCK 1 + last) 3 Hok ltac:(lia) ltac:(change (Z.shiftl STORED_BLOCK 1) with 0; change (2 ^ 3) with 8; lia) ltac:(lia)) as (s1 & H1 & Hw1).
  unfold _tr_stored_block. rewrite H1. cbn [mbind outcome_bind]. change (Z.shiftl STORED_BLOCK 1 + last) with last in Hw1.
  destruct (writes_room _ _ _ Hw1) as (Hr1 & Hn1 & Hok1). rewrite zlen_zbits in Hn1 by lia.
  assert (Hp1 : pad (d_bi_valid s1) = pad (nbits s + 3)) by (rewrite pad_bi, Hn1 by done; done).
  destruct (windup_spec s1 Hok1 ltac:(lia)) as (s2 & H2 & Hw2 & V2). rewrite Hp1 in Hw2. unfold copy_block. rewrite H2. cbn [mbind outcome_bind].
  destruct (writes_room _ _ _ Hw2) as (Hr2 & Hn2 & Hok2). rewrite zlen_zbits in Hn2 by lia.
  set (s2' := s2 <| d_last_eob_len := 8 |>). assert (Hw12 : writes (s <| d_last_eob_len := 8 |>) s2' (zbits 3 last ++ zbits (pad (nbits s + 3)) 0)) by (apply writes_eob; by eapply writes_trans).
  assert (Hok2' : out_ok s2') by (by destruct Hw12). assert (Hn2' : nbits s2' = nbits s2) by done. assert (Hr2' : room s2' = room s2) by done.
  assert (Hu : u16 (zlen buf) = zlen buf) by (apply u16_small; unfold is_u16; change (2 ^ 16) with 65536; lia). rewrite Hu.
  assert (Hnu : u16 (Z.lnot (zlen buf)) = 65535 - zlen buf) by (unfold u16, Z.lnot; change (2 ^ 16) with 65536; Z.div_mod_to_equations; lia). rewrite Hnu.
  destruct (put_short_writes s2' (zlen buf) Hok2' V2 ltac:(change (2 ^ 16) with 65536; lia) ltac:(lia)) as (s3 & H3 & Hw3 & V3). rewrite H3. cbn [mbind outcome_bind].
  destruct (writes_room _ _ _ Hw3) as (Hr3 & Hn3 & Hok3). rewrite zlen_zbits in Hn3 by lia.
  destruct (put_short_writes s3 (65535 - zlen buf) Hok3 V3 ltac:(change (2 ^ 16) with 65536; lia) ltac:(lia)) as (s4 & H4 & Hw4 & V4). rewrite H4. cbn [mbind outcome_bind].
  destruct (writes_room _ _ _ Hw4) as (Hr4 & Hn4 & Hok4). rewrite zlen_zbits in Hn4 by lia.
  destruct (put_bytes_writes buf s4 Hok4 V4 Hby ltac:(lia)) as (s5 & H5 & Hw5 & V5). exists s5. split; [done|]. split; [|done].
  assert (Hoks : out_ok (s <| d_last_eob_len := 8 |>)) by (destruct Hok; by split).
  pose proof (writes_trans _ _ _ _ _ Hoks Hw12 (writes_trans _ _ _ _ _ Hok2' Hw3 (writes_trans _ _ _ _ _ Hok3 Hw4 Hw5))) as HW. by rewrite <- app_assoc in HW.
Qed.
