(* ===== verification/TreesRuns.v ===== *)
(** * Code lengths as runs

    [send_tree] sends the code lengths of a tree as single lengths, repeats of
    the previous length and runs of zeros ([clop]).  [tree_ops] are the
    operations it chooses; carried out they give the lengths back
    ([tree_ops_expand]), and their bits are what it emits ([send_tree_spec]). *)

From S2P Require Import Prelude Inftrees BitRev Bits TreesTables Trees TreesEmit TreesBlock.

(** ** Operations *)

Inductive clop := Single (l : Z) | Rep (v : Z) | Zeros3 (v : Z) | Zeros11 (v : Z).

Definition cl_sym (op : clop) : Z := match op with Single l => l | Rep _ => 16 | Zeros3 _ => 17 | Zeros11 _ => 18 end.
Definition cl_extra (op : clop) : Z := match op with Single _ => 0 | Rep _ => 2 | Zeros3 _ => 3 | Zeros11 _ => 7 end.
Definition cl_val (op : clop) : Z := match op with Single _ => 0 | Rep v | Zeros3 v | Zeros11 v => v end.

(** What an operation does to the lengths so far. *)
Definition cl_new (acc : list Z) (op : clop) : list Z :=
  match op with
  | Single l => [l]
  | Rep v => replicate (Z.to_nat (3 + v)) (default 0 (last acc))
  | Zeros3 v => replicate (Z.to_nat (3 + v)) 0
  | Zeros11 v => replicate (Z.to_nat (11 + v)) 0
  end.
Definition cl_expand (acc : list Z) (ops : list clop) : list Z := foldl (fun acc op => acc ++ cl_new acc op) acc ops.

Definition cl_ok (op : clop) : Prop :=
  match op with Single l => 0 <= l <= 15 | _ => 0 <= cl_val op < 2 ^ cl_extra op end.

(** A repeat is never the first operation. *)
Fixpoint cl_valid (acc : list Z) (ops : list clop) : Prop :=
  match ops with
  | [] => True
  | op :: ops => cl_ok op /\ (cl_sym op = 16 -> acc <> []) /\ cl_valid (acc ++ cl_new acc op) ops
  end.

Lemma cl_expand_cons acc op ops : cl_expand acc (op :: ops) = cl_expand (acc ++ cl_new acc op) ops.
Proof. reflexivity. Qed.

Lemma cl_expand_app acc a b : cl_expand acc (a ++ b) = cl_expand (cl_expand acc a) b.
Proof. apply foldl_app. Qed.

Lemma cl_valid_app acc a b : cl_valid acc (a ++ b) <-> cl_valid acc a /\ cl_valid (cl_expand acc a) b.
Proof. revert acc. induction a as [|op a IH]; intros acc; [simpl; tauto|]. cbn [app cl_valid]. rewrite IH, cl_expand_cons. tauto. Qed.

Lemma cl_singles n l acc : 0 <= l <= 15 -> cl_expand acc (replicate n (Single l)) = acc ++ replicate n l /\ cl_valid acc (replicate n (Single l)).
Proof.
  intros Hl. revert acc. induction n as [|n IH]; intros acc; [by rewrite app_nil_r|]. cbn [replicate]. rewrite cl_expand_cons. cbn [cl_new cl_valid].
  destruct (IH (acc ++ [l])) as [-> Hv]. rewrite <- app_assoc. split; [done|]. split; [exact Hl|]. split; [cbn; lia|done].
Qed.

(** ** The operations of a run *)

Definition run_ops (curlen prevlen count min_count : Z) : list clop :=
  if count <? min_count then replicate (Z.to_nat count) (Single curlen)
  else if negb (curlen =? 0) then
    if negb (curlen =? prevlen) then [Single curlen; Rep (count - 4)] else [Rep (count - 3)]
  else if count <=? 10 then [Zeros3 (count - 3)]
  else [Zeros11 (count - 11)].

(** The limits of the loop belong to its lengths, and the count is below them. *)
Definition run_ok (r : run) : Prop :=
  r_max r = r_max (run_reset (r_prevlen r) (r_nextlen r)) /\ r_min r = r_min (run_reset (r_prevlen r) (r_nextlen r)) /\ 0 <= r_count r < r_max r.

Lemma run_reset_fields prev next : r_prevlen (run_reset prev next) = prev /\ r_nextlen (run_reset prev next) = next /\ r_count (run_reset prev next) = 0
  /\ 6 <= r_max (run_reset prev next).
Proof. unfold run_reset. destruct (next =? 0), (prev =? next); cbn; lia. Qed.

Lemma run_reset_ok prev next : run_ok (run_reset prev next).
Proof. unfold run_ok. destruct (run_reset_fields prev next) as (-> & -> & -> & H). split; [done|]. split; [done|lia]. Qed.

Lemma replicate_S_end {A} n (x : A) : replicate (S n) x = replicate n x ++ [x].
Proof. induction n as [|n IH]; [done|]. cbn [replicate app]. by rewrite <- IH. Qed.

(** A run of [count] lengths [cur] behind the lengths [acc]. *)
Lemma run_ops_expand acc cur prev count : 0 <= cur <= 15 -> (prev = -1 \/ last acc = Some prev) ->
  let r := run_reset prev cur in 1 <= count <= r_max r ->
  cl_expand acc (run_ops cur prev count (r_min r)) = acc ++ replicate (Z.to_nat count) cur /\ cl_valid acc (run_ops cur prev count (r_min r)).
Proof.
  intros Hcur Hprev r Hc. unfold run_ops. destruct (Z.ltb_spec count (r_min r)) as [Hlt|Hge]; [by apply cl_singles|].
  unfold r, run_reset in *. destruct (Z.eqb_spec cur 0) as [E0|E0]; cbn [r_max r_min negb] in *.
  - subst cur. destruct (Z.leb_spec count 10) as [H10|H10]; unfold cl_expand; cbn [foldl cl_new cl_valid cl_ok cl_val cl_extra cl_sym].
    + split; [do 2 f_equal; lia|]. change (2 ^ 3) with 8. split; [lia|done].
    + split; [do 2 f_equal; lia|]. change (2 ^ 7) with 128. split; [lia|done].
  - destruct (Z.eqb_spec cur prev) as [E|E], (Z.eqb_spec prev cur) as [E'|E']; try congruence; cbn [r_max r_min negb] in *.
    + destruct Hprev as [->|Hlast]; [lia|]. unfold cl_expand. cbn [foldl cl_new cl_valid cl_ok cl_val cl_extra cl_sym]. rewrite Hlast, E. cbn [default].
      split; [do 2 f_equal; lia|]. change (2 ^ 2) with 4. split; [lia|]. split; [|done]. intros _ ->. done.
    + unfold cl_expand. cbn [foldl cl_new cl_valid cl_ok cl_val cl_extra cl_sym]. rewrite last_snoc. cbn [default]. rewrite <- app_assoc.
      split; [f_equal; replace (Z.to_nat count) with (S (Z.to_nat (3 + (count - 4)))) by lia; done|]. change (2 ^ 2) with 4.
      split; [done|]. split; [lia|]. split; [lia|]. split; [|done]. intros _ H. by apply app_nil in H as [_ ?].
Qed.

(** ** The operations of a tree *)

(** [next] are the lengths from the second one on, with the guard. *)
Fixpoint tree_ops (next : list Z) (r : run) : list clop :=
  match next with
  | [] => []
  | nextlen :: next =>
      let curlen := r_nextlen r in let count := r_count r + 1 in
      if (count <? r_max r) && (curlen =? nextlen) then tree_ops next (mkRun (r_prevlen r) nextlen count (r_max r) (r_min r))
      else run_ops curlen (r_prevlen r) count (r_min r) ++ tree_ops next (run_reset curlen nextlen)
  end.

Lemma tree_ops_expand rest guard : forall acc r, run_ok r -> (r_prevlen r = -1 \/ last acc = Some (r_prevlen r)) -> Forall (fun l => 0 <= l <= 15) (r_nextlen r :: rest) ->
  last (r_nextlen r :: rest) <> Some guard ->
  cl_expand acc (tree_ops (rest ++ [guard]) r) = acc ++ replicate (Z.to_nat (r_count r)) (r_nextlen r) ++ r_nextlen r :: rest
  /\ cl_valid acc (tree_ops (rest ++ [guard]) r).
Proof.
  induction rest as [|l rest IH]; intros acc r Hok Hprev Hall Hg; apply Forall_cons in Hall as [Hcur Hall]; pose proof Hok as (Hmax & Hmin & Hc); cbn [app tree_ops].
  - assert (Hne : (r_nextlen r =? guard) = false) by (apply Z.eqb_neq; intros E; apply Hg; by rewrite E). rewrite Hne, andb_false_r, app_nil_r, Hmin.
    destruct (run_ops_expand acc (r_nextlen r) (r_prevlen r) (r_count r + 1) Hcur Hprev ltac:(rewrite <- Hmax; lia)) as [-> Hv]. split; [|done].
    f_equal. replace (Z.to_nat (r_count r + 1)) with (S (Z.to_nat (r_count r))) by lia. apply replicate_S_end.
  - assert (Hcnt : replicate (Z.to_nat (r_count r + 1)) (r_nextlen r) = replicate (Z.to_nat (r_count r)) (r_nextlen r) ++ [r_nextlen r])
      by (replace (Z.to_nat (r_count r + 1)) with (S (Z.to_nat (r_count r))) by lia; apply replicate_S_end).
    destruct ((r_count r + 1 <? r_max r) && (r_nextlen r =? l)) eqn:Egoes.
    + apply andb_true_iff in Egoes as [Hlt%Z.ltb_lt E%Z.eqb_eq]. set (r' := mkRun (r_prevlen r) l (r_count r + 1) (r_max r) (r_min r)).
      destruct (IH acc r') as [IH1 IH2]; [unfold run_ok, r'; cbn; rewrite <- E; split; [done|split; [done|lia]]|done|done|done|]. split; [|exact IH2].
      rewrite IH1. unfold r'. cbn [r_count r_nextlen]. f_equal. rewrite <- E, Hcnt, <- app_assoc. done.
    + destruct (run_ops_expand acc (r_nextlen r) (r_prevlen r) (r_count r + 1) Hcur Hprev ltac:(rewrite <- Hmax; lia)) as [Hrun Hv]. rewrite <- Hmin in Hrun, Hv.
      rewrite cl_expand_app, cl_valid_app, Hrun. destruct (IH (acc ++ replicate (Z.to_nat (r_count r + 1)) (r_nextlen r)) (run_reset (r_nextlen r) l)) as [IH1 IH2].
      * apply run_reset_ok.
      * right. rewrite Hcnt, app_assoc, last_snoc. f_equal. symmetry. apply run_reset_fields.
      * by rewrite (proj1 (proj2 (run_reset_fields _ _))).
      * by rewrite (proj1 (proj2 (run_reset_fields _ _))).
      * destruct (run_reset_fields (r_nextlen r) l) as (_ & En & Ec & _). rewrite En, Ec in IH1. split; [|done]. rewrite IH1, Hcnt, <- !app_assoc. done.
Qed.

(** ** What is emitted *)

Lemma writes_tree s s' B : writes s s' B -> d_bl_tree s' = d_bl_tree s.
Proof. by intros [(b & p & v & n & ->) _ _ _ _ _ _]. Qed.

Section emit.
Context (domB : Z -> Prop) (lenB huffB : Z -> Z).

Definition cl_bits (op : clop) : list bool := zbits (lenB (cl_sym op)) (huffB (cl_sym op)) ++ zbits (cl_extra op) (cl_val op).
Definition ops_bits (ops : list clop) : list bool := ops ≫= cl_bits.
Definition op_ok (op : clop) : Prop := cl_ok op /\ domB (cl_sym op).

Lemma ops_bits_app a b : ops_bits (a ++ b) = ops_bits a ++ ops_bits b.
Proof. apply bind_app. Qed.

(** The state has the codes, and room for the string [B]. *)
Definition can_send (s : dst) (B : list bool) : Prop := out_ok s /\ codebook (d_bl_tree s) domB lenB huffB /\ nbits s + zlen B <= room s.

Lemma can_send_next s s' B B' : can_send s (B ++ B') -> writes s s' B -> can_send s' B'.
Proof.
  intros (Hok & HB & Hr) Hw. destruct (writes_room _ _ _ Hw) as (Hr' & Hn & Hok'). rewrite zlen_app in Hr. unfold can_send. rewrite (writes_tree _ _ _ Hw). split; [done|]. split; [done|]. lia.
Qed.

Lemma can_send_less s B B' : can_send s (B ++ B') -> can_send s B.
Proof. intros (Hok & HB & Hr). rewrite zlen_app in Hr. pose proof (zlen_nonneg B'). split; [done|]. split; [done|lia]. Qed.

Lemma cl_extra_range op : 0 <= cl_extra op <= 7.
Proof. destruct op; cbn; lia. Qed.

(** The code of an operation. *)
Lemma send_sym s c B : domB c -> can_send s (zbits (lenB c) (huffB c) ++ B) ->
  exists s', send_code s c (d_bl_tree s) = Ok s' /\ writes s s' (zbits (lenB c) (huffB c)) /\ can_send s' B.
Proof.
  intros Hd Hcan. pose proof Hcan as (Hok & HB & Hr). destruct (HB _ Hd) as (_ & _ & Hl & _). rewrite zlen_app, zlen_zbits in Hr by lia. pose proof (zlen_nonneg B).
  destruct (send_code_spec _ _ _ _ s c HB Hd Hok ltac:(lia)) as (s' & H1 & Hw). exists s'. split; [done|]. split; [done|]. by eapply can_send_next.
Qed.

(** Its extra bits. *)
Lemma send_extra s op B : cl_ok op -> cl_extra op <> 0 -> can_send s (zbits (cl_extra op) (cl_val op) ++ B) ->
  exists s', send_bits s (cl_val op) (cl_extra op) = Ok s' /\ writes s s' (zbits (cl_extra op) (cl_val op)) /\ can_send s' B.
Proof.
  intros Hcl He Hcan. pose proof Hcan as (Hok & HB & Hr). pose proof (cl_extra_range op). rewrite zlen_app, zlen_zbits in Hr by lia. pose proof (zlen_nonneg B).
  destruct (send_bits_spec s (cl_val op) (cl_extra op) Hok ltac:(lia)) as (s' & H1 & Hw); [by destruct op|lia|]. exists s'. split; [done|]. split; [done|]. by eapply can_send_next.
Qed.

(** An operation with extra bits, as the code sends it. *)
Lemma send_long s op B : op_ok op -> cl_extra op <> 0 -> can_send s (cl_bits op ++ B) ->
  exists s', (s ← send_code s (cl_sym op) (d_bl_tree s); send_bits s (cl_val op) (cl_extra op)) = Ok s' /\ writes s s' (cl_bits op) /\ can_send s' B.
Proof.
  intros [Hcl Hd] He Hcan. unfold cl_bits in Hcan. rewrite <- app_assoc in Hcan. pose proof Hcan as (Hok & _). destruct (send_sym s _ _ Hd Hcan) as (s1 & H1 & Hw1 & Hc1). rewrite H1.
  destruct (send_extra s1 op B Hcl He Hc1) as (s2 & H2 & Hw2 & Hc2). exists s2. split; [done|]. split; [by eapply writes_trans|done].
Qed.

Lemma single_bits l : cl_bits (Single l) = zbits (lenB l) (huffB l).
Proof. unfold cl_bits. cbn [cl_sym cl_extra]. by rewrite zbits_0, app_nil_r. Qed.

Lemma send_codes_spec n : forall s c B, domB c -> can_send s (ops_bits (replicate n (Single c)) ++ B) ->
  exists s', send_codes n s c = Ok s' /\ writes s s' (ops_bits (replicate n (Single c))) /\ can_send s' B.
Proof.
  induction n as [|n IH]; intros s c B Hd Hcan; [exists s; split; [done|split; [by apply writes_refl; destruct Hcan|done]]|].
  unfold ops_bits in *. cbn [replicate mbind list_bind send_codes] in *. rewrite single_bits, <- app_assoc in *. pose proof Hcan as (Hok & _).
  destruct (send_sym s c _ Hd Hcan) as (s1 & H1 & Hw1 & Hc1). rewrite H1. cbn [mbind outcome_bind]. destruct (IH s1 c B Hd Hc1) as (s2 & H2 & Hw2 & Hc2).
  exists s2. split; [done|]. split; [by eapply writes_trans|done].
Qed.

Lemma send_emit_spec s cur prev count min_count B : 1 <= count -> Forall op_ok (run_ops cur prev count min_count) -> can_send s (ops_bits (run_ops cur prev count min_count) ++ B) ->
  exists s', send_emit s cur prev count min_count = Ok s' /\ writes s s' (ops_bits (run_ops cur prev count min_count)) /\ can_send s' B.
Proof.
  intros Hcount Hall Hcan. unfold send_emit, run_ops in *. destruct (count <? min_count).
  - apply send_codes_spec; [|done]. destruct (Z.to_nat count) as [|n] eqn:En; [lia|]. apply Forall_cons in Hall as [[_ Hd] _]. exact Hd.
  - destruct (negb (cur =? 0)); [destruct (negb (cur =? prev))|destruct (count <=? 10)]; unfold ops_bits in *; cbn [mbind list_bind] in *; rewrite ?app_nil_r in *.
    + apply Forall_cons in Hall as [[_ Hd] Hall]. apply Forall_cons in Hall as [Hop _]. rewrite single_bits, <- app_assoc in Hcan. pose proof Hcan as (Hok & _).
      destruct (send_sym s cur _ Hd Hcan) as (s1 & H1 & Hw1 & Hc1). rewrite H1. cbn [mbind outcome_bind].
      destruct (send_long s1 (Rep (count - 4)) B Hop ltac:(done) Hc1) as (s2 & H2 & Hw2 & Hc2). exists s2. replace (count - 1 - 3) with (count - 4) by lia.
      split; [exact H2|]. split; [|done]. rewrite single_bits. by eapply writes_trans.
    + apply Forall_cons in Hall as [Hop _]. exact (send_long s (Rep (count - 3)) B Hop ltac:(done) Hcan).
    + apply Forall_cons in Hall as [Hop _]. exact (send_long s (Zeros3 (count - 3)) B Hop ltac:(done) Hcan).
    + apply Forall_cons in Hall as [Hop _]. exact (send_long s (Zeros11 (count - 11)) B Hop ltac:(done) Hcan).
Qed.

(** The loop over a tree; [next] are the lengths from index [n + 1] on. *)
Lemma run_loop_spec tree next : forall n r s B, 0 <= n -> 0 <= r_count r -> (forall i l, next !! i = Some l -> exists e, tree !! (Z.to_nat (n + 1) + i)%nat = Some e /\ dl e = l) ->
  Forall op_ok (tree_ops next r) -> can_send s (ops_bits (tree_ops next r) ++ B) ->
  exists s', run_loop send_emit tree (seqZ n (zlen next)) r s = Ok s' /\ writes s s' (ops_bits (tree_ops next r)) /\ can_send s' B.
Proof.
  induction next as [|l next IH]; intros n r s B Hn Hc Hl Hall Hcan.
  - exists s. split; [done|]. split; [by apply writes_refl; destruct Hcan|done].
  - rewrite zlen_cons. pose proof (zlen_nonneg next). rewrite seqZ_cons by lia. replace (Z.pred (1 + zlen next)) with (zlen next) by lia.
    destruct (Hl 0%nat l eq_refl) as (e & He & <-). cbn [run_loop]. rewrite Nat.add_0_r in He. rewrite (elem_at_lookup tree (n + 1) e) by (done || lia). cbn [mbind outcome_bind].
    assert (Hl' : forall i l, next !! i = Some l -> exists e, tree !! (Z.to_nat (Z.succ n + 1) + i)%nat = Some e /\ dl e = l).
    { intros i l Hi. replace (Z.to_nat (Z.succ n + 1) + i)%nat with (Z.to_nat (n + 1) + S i)%nat by lia. by apply (Hl (S i)). }
    cbn [tree_ops] in *. destruct ((r_count r + 1 <? r_max r) && (r_nextlen r =? dl e)) eqn:Eg.
    + apply IH; [lia|cbn; lia|done|done|done].
    + apply Forall_app in Hall as [Ha1 Ha2]. rewrite ops_bits_app, <- app_assoc in Hcan. pose proof Hcan as (Hok & _).
      destruct (send_emit_spec s (r_nextlen r) (r_prevlen r) (r_count r + 1) (r_min r) _ ltac:(lia) Ha1 Hcan) as (s1 & H1 & Hw1 & Hc1). rewrite H1. cbn [mbind outcome_bind].
      destruct (IH (Z.succ n) (run_reset (r_nextlen r) (dl e)) s1 B ltac:(lia)) as (s2 & H2 & Hw2 & Hc2); [by rewrite (proj1 (proj2 (proj2 (run_reset_fields _ _))))|done|done|done|].
      exists s2. split; [done|]. rewrite ops_bits_app. split; [by eapply writes_trans|done].
Qed.

(** [send_tree] for a tree with the lengths [l0 :: rest] and the guard. *)
Lemma send_tree_spec s tree l0 rest guard B : (forall i l, (l0 :: rest ++ [guard]) !! i = Some l -> exists e, tree !! i = Some e /\ dl e = l) ->
  0 <= l0 -> let ops := tree_ops (rest ++ [guard]) (run_reset (-1) l0) in Forall op_ok ops -> can_send s (ops_bits ops ++ B) ->
  exists s', send_tree s tree (zlen rest) = Ok s' /\ writes s s' (ops_bits ops) /\ can_send s' B.
Proof.
  intros Hl Hl0 ops Hall Hcan. destruct (Hl 0%nat l0 eq_refl) as (e & He & Hdl). unfold send_tree. rewrite (elem_at_lookup tree 0 e) by done. cbn [mbind outcome_bind].
  rewrite Hdl. assert (Hs : run_start l0 = run_reset (-1) l0).
  { unfold run_start, run_reset. destruct (l0 =? 0); [done|]. by rewrite (proj2 (Z.eqb_neq (-1) l0)) by lia. }
  rewrite Hs. replace (zlen rest + 1) with (zlen (rest ++ [guard])) by (rewrite zlen_app, zlen_cons, zlen_nil; lia).
  apply run_loop_spec; [lia|by rewrite (proj1 (proj2 (proj2 (run_reset_fields _ _))))| |done|done]. intros i l Hi. exact (Hl (S i) l Hi).
Qed.

End emit.
