(* ===== verification/InfLens.v ===== *)
(** * The header of a dynamic block

    The counts ([table_step]), the lengths of the code-length codes
    ([lenlens_step]), and the code lengths themselves, as single lengths,
    repeats and runs of zeros ([codelens_spec]). *)

From stdpp Require Import strings.
From S2P Require Import Prelude Inftrees BitRev Canon InftreesSort InftreesSpec InftreesThm InfFixed Inflate Bits InfDecode InfCopy TreesTables Trees TreesBlock.
From S2P Require Import InfItems InfCodes InfHeader TreesRuns.

(** ** Lists that agree on the symbols of a code *)

Section agree.
Context (lens lens' : list Z) (codes : Z) (Hagree : forall x, 0 <= x < codes -> len_of lens x = len_of lens' x).
#[local] Set Default Proof Using "All".

Lemma agree_fmap n : n <= codes -> len_of lens <$> seqZ 0 n = len_of lens' <$> seqZ 0 n.
Proof. intros Hn. apply list_fmap_ext. intros i x Hx. apply list_elem_of_lookup_2, elem_of_seqZ in Hx. apply Hagree. lia. Qed.

Lemma agree_syms n l : n <= codes -> syms_of lens (seqZ 0 n) l = syms_of lens' (seqZ 0 n) l.
Proof.
  intros Hn. unfold syms_of. assert (H : Forall (fun x => len_of lens x = len_of lens' x) (seqZ 0 n)).
  { apply Forall_forall. intros x Hx. apply elem_of_seqZ in Hx. apply Hagree. lia. }
  induction H as [|x xs E _ IH]; [done|]. rewrite !filter_cons, E, IH. done.
Qed.

Lemma agree_coded x : coded lens codes x <-> coded lens' codes x.
Proof. unfold coded. split; intros [H1 H2]; (split; [done|]); [rewrite <- Hagree|rewrite Hagree]; done. Qed.

Lemma agree_huff x : 0 <= x < codes -> huff_code lens codes x = huff_code lens' codes x.
Proof. intros Hx. unfold huff_code, code_val. cbv zeta. rewrite Hagree by done. rewrite agree_fmap, agree_syms by lia. done. Qed.

Lemma agree_kraft : kraft lens codes = kraft lens' codes.
Proof.
  unfold kraft, kraft_upto. assert (H : Forall (fun x => len_of lens x = len_of lens' x) (seqZ 0 codes)).
  { apply Forall_forall. intros x Hx. apply elem_of_seqZ in Hx. apply Hagree. lia. }
  induction H as [|x xs E _ IH]; [done|]. cbn [foldr]. by rewrite E, IH.
Qed.

Lemma agree_sorted : sorted_lens lens codes = sorted_lens lens' codes.
Proof.
  unfold sorted_lens. assert (E : sorted_syms lens codes = sorted_syms lens' codes).
  { unfold sorted_syms, sorted_upto. f_equal. apply list_fmap_ext. intros _ l _. by apply agree_syms. }
  rewrite <- E. apply list_fmap_ext. intros i x Hx. apply list_elem_of_lookup_2, elem_sorted_syms in Hx as [Hx _]. by apply Hagree.
Qed.

Lemma agree_roots bits : root_bits lens codes bits = root_bits lens' codes bits /\ max_len lens codes = max_len lens' codes.
Proof. unfold root_bits, min_len, max_len. by rewrite agree_sorted. Qed.

Lemma agree_decodes type root t : table_decodes type lens codes root t -> table_decodes type lens' codes root t.
Proof.
  intros H h x Hx Hh. pose proof Hx as [Hr _]. rewrite <- Hagree by done. apply H; [by apply agree_coded|]. by rewrite agree_huff, Hagree.
Qed.
End agree.

(** A longer array has the same table at its front. *)
Lemma decodes_front type lens codes root t e : table_decodes type lens codes root t -> table_decodes type lens codes root (t ++ e).
Proof.
  intros H h x Hx Hh. destruct (H h x Hx Hh) as [[H1 H2]|(off & w & H1 & H2 & H3 & H4 & H5)]; [left|right; exists off, w].
  - split; [done|]. by apply lookup_app_l_Some.
  - repeat split; try lia; by apply lookup_app_l_Some.
Qed.

(** ** The buffer of a state *)

Lemma buf_same s s' : buf_ok s -> i_hold s' = i_hold s -> i_bits s' = i_bits s -> i_pos s' = i_pos s -> i_in s' = i_in s -> buf_ok s' /\ rbits s' = rbits s.
Proof. intros [? ? ? ?] E1 E2 E3 E4. unfold rbits. rewrite E1, E2, E3, E4. split; [|done]. split; rewrite ?E1, ?E2, ?E3, ?E4; done. Qed.

(** A field at the front of the buffer. *)
Lemma field_front s n v R : buf_ok s -> rbits s = zbits n v ++ R -> 0 <= n <= i_bits s -> n < 32 -> i_bits s <= 32 -> 0 <= v < 2 ^ n ->
  BITS n s = Got v s /\ DROPBITS n s = Got tt (drop_bits s n) /\ buf_ok (drop_bits s n) /\ rbits (drop_bits s n) = R /\ i_bits (drop_bits s n) = i_bits s - n.
Proof.
  intros Hok HR Hn H32 Hb Hv. destruct (drop_front s n v R Hok HR Hn ltac:(change (2 ^ 32) with 4294967296; lia)) as [(_ & Hok' & HR') Hb'].
  rewrite BITS_eq, (BITS_front s n v R) by (done || lia). done.
Qed.

(** ** The counts *)

Definition counts_state (s : inf) (nlen ndist ncode : Z) : inf :=
  s <| i_nlen := nlen |> <| i_ndist := ndist |> <| i_ncode := ncode |> <| i_have := 0 |> <| i_mode := LENLENS |>.

Lemma table_step flush s nlen ndist ncode R : i_mode s = TABLE -> buf_ok s -> i_bits s <= 7 -> 257 <= nlen <= 286 -> 1 <= ndist <= 30 -> 4 <= ncode <= 19 ->
  rbits s = zbits 5 (nlen - 257) ++ zbits 5 (ndist - 1) ++ zbits 4 (ncode - 4) ++ R ->
  exists s', bstep flush s s' /\ reads (counts_state s nlen ndist ncode) s' R /\ i_bits s' <= 7.
Proof.
  intros Hm Hok Hb Hnl Hnd Hnc HR. destruct (NEEDBITS_spec s 14 Hok ltac:(lia)) as (s1 & H1 & Hr1 & Hge & Hle).
  { rewrite HR, !zlen_app, !zlen_zbits by lia. pose proof (zlen_nonneg R). lia. }
  destruct Hr1 as ((h & b & p & ->) & Hok1 & HR1). set (s1 := set_buf s h b p) in *. rewrite HR in HR1.
  destruct (field_front s1 5 (nlen - 257) _ Hok1 HR1 ltac:(lia) ltac:(lia) ltac:(lia) ltac:(change (2 ^ 5) with 32; lia)) as (Hv1 & _). set (t1 := s1 <| i_nlen := nlen |>).
  destruct (buf_same s1 t1 Hok1) as [Ho1 E1]; try done. rewrite HR1 in E1.
  destruct (field_front t1 5 (nlen - 257) _ Ho1 E1 ltac:(change (0 <= 5 <= i_bits s1); lia) ltac:(lia) ltac:(change (i_bits s1 <= 32); lia) ltac:(change (2 ^ 5) with 32; lia)) as (_ & Hd1 & Hok2 & HR2 & Hb2).
  set (s2 := drop_bits t1 5) in *. change (i_bits t1) with (i_bits s1) in Hb2.
  destruct (field_front s2 5 (ndist - 1) _ Hok2 HR2 ltac:(lia) ltac:(lia) ltac:(lia) ltac:(change (2 ^ 5) with 32; lia)) as (Hv2 & _). set (t2 := s2 <| i_ndist := ndist |>).
  destruct (buf_same s2 t2 Hok2) as [Ho2 E2]; try done. rewrite HR2 in E2.
  destruct (field_front t2 5 (ndist - 1) _ Ho2 E2 ltac:(change (0 <= 5 <= i_bits s2); lia) ltac:(lia) ltac:(change (i_bits s2 <= 32); lia) ltac:(change (2 ^ 5) with 32; lia)) as (_ & Hd2 & Hok3 & HR3 & Hb3).
  set (s3 := drop_bits t2 5) in *. change (i_bits t2) with (i_bits s2) in Hb3.
  destruct (field_front s3 4 (ncode - 4) _ Hok3 HR3 ltac:(lia) ltac:(lia) ltac:(lia) ltac:(change (2 ^ 4) with 16; lia)) as (Hv3 & _). set (t3 := s3 <| i_ncode := ncode |>).
  destruct (buf_same s3 t3 Hok3) as [Ho3 E3]; try done. rewrite HR3 in E3.
  destruct (field_front t3 4 (ncode - 4) _ Ho3 E3 ltac:(change (0 <= 4 <= i_bits s3); lia) ltac:(lia) ltac:(change (i_bits s3 <= 32); lia) ltac:(change (2 ^ 4) with 16; lia)) as (_ & Hd3 & Hok4 & HR4 & Hb4).
  set (s4 := drop_bits t3 4) in *. change (i_bits t3) with (i_bits s3) in Hb4. set (s' := s4 <| i_have := 0 |> <| i_mode := LENLENS |>).
  exists s'. split; [|split; [|change (i_bits s4 <= 7); lia]].
  - split; [by rewrite Hm|]. unfold block_step. rewrite (bind_Got _ _ s s s) by done. rewrite Hm. unfold step_table. rewrite (bind_Got _ _ _ _ _ H1), (bind_Got _ _ _ _ _ Hv1).
    rewrite (bind_Got _ _ s1 tt t1) by (unfold upd, t1; by rewrite Z.sub_add). rewrite (bind_Got _ _ _ _ _ Hd1), (bind_Got _ _ _ _ _ Hv2).
    rewrite (bind_Got _ _ s2 tt t2) by (unfold upd, t2; by rewrite Z.sub_add). rewrite (bind_Got _ _ _ _ _ Hd2), (bind_Got _ _ _ _ _ Hv3).
    rewrite (bind_Got _ _ s3 tt t3) by (unfold upd, t3; by rewrite Z.sub_add). rewrite (bind_Got _ _ _ _ _ Hd3), (bind_Got _ _ s4 s4 s4) by done.
    change (i_nlen s4) with nlen. change (i_ndist s4) with ndist. rewrite (proj2 (Z.ltb_ge 286 nlen)), (proj2 (Z.ltb_ge 30 ndist)) by lia. done.
  - split; [by eexists _, _, _|]. destruct (buf_same s4 s' Hok4) as [? ->]; done.
Qed.

(** ** The lengths of the code-length codes *)

Definition order_at (i : Z) : Z := default 0 (order !! Z.to_nat i).
Definition with_lens (s : inf) (l : list Z) (n : Z) : inf := s <| i_lens := l |> <| i_have := n |>.

(** [lens] with the entries [order] gives at [ixs] set to [BL]. *)
Definition place (BL : Z -> Z) (ixs l : list Z) : list Z := foldl (fun l i => <[Z.to_nat (order_at i) := BL (order_at i)]> l) l ixs.

Lemma length_place BL ixs : forall l, length (place BL ixs l) = length l.
Proof. induction ixs as [|i ixs IH]; intros l; [done|]. unfold place in *. cbn [foldl]. by rewrite IH, length_insert. Qed.

Lemma place_app BL a b l : place BL (a ++ b) l = place BL b (place BL a l).
Proof. apply foldl_app. Qed.

Lemma place_lookup BL ixs j : 0 <= j -> Forall (fun i => 0 <= order_at i) ixs -> j ∈ order_at <$> ixs -> forall l, j < zlen l -> place BL ixs l !! Z.to_nat j = Some (BL j).
Proof.
  intros Hj. induction ixs as [|i ixs IH] using rev_ind; intros Hpos Hin l Hl; [by apply not_elem_of_nil in Hin|].
  apply Forall_app in Hpos as [Hpos Hi]. apply Forall_cons in Hi as [Hi _]. rewrite place_app. cbn [place foldl]. pose proof (length_place BL ixs l). unfold zlen in Hl.
  destruct (decide (j = order_at i)) as [->|Hne]; [apply list_lookup_insert_eq; lia|]. rewrite list_lookup_insert_ne by lia. apply IH; [done| |done].
  rewrite fmap_app in Hin. apply elem_of_app in Hin as [?|Hin]; [done|]. by apply list_elem_of_singleton in Hin.
Qed.

(** After all 19 of them the front of [lens] is known. *)
Lemma place_all BL l x : 19 <= zlen l -> 0 <= x < 19 -> len_of (place BL (seqZ 0 19) l) x = BL x.
Proof.
  intros Hl Hx. unfold len_of. rewrite (place_lookup BL (seqZ 0 19) x); [done|lia|by_decide| |lia].
  assert (H : Forall (fun x => x ∈ order_at <$> seqZ 0 19) (seqZ 0 19)) by by_decide. rewrite Forall_forall in H. apply H, elem_of_seqZ. lia.
Qed.

Lemma order_range i : 0 <= i < 19 -> order !! Z.to_nat i = Some (order_at i) /\ 0 <= order_at i < 19.
Proof.
  intros Hi. assert (H : Forall (fun i => order !! Z.to_nat i = Some (order_at i) /\ 0 <= order_at i < 19) (seqZ 0 19)) by by_decide.
  rewrite Forall_forall in H. apply H, elem_of_seqZ. lia.
Qed.

Lemma put_order_spec s v : 0 <= i_have s < 19 -> zlen (i_lens s) = 320 ->
  put_order v s = Got tt (with_lens s (<[Z.to_nat (order_at (i_have s)) := v]> (i_lens s)) (i_have s + 1)).
Proof.
  intros Hh Hz. destruct (order_range (i_have s) Hh) as [Ho Hr]. unfold put_order. rewrite (bind_Got _ _ s s s) by done.
  rewrite (bind_Got _ _ s (order_at (i_have s)) s) by (unfold lift; rewrite (elem_at_lookup order (i_have s) _ (proj1 Hh) Ho); done).
  rewrite (bind_Got _ _ s (<[Z.to_nat (order_at (i_have s)) := v]> (i_lens s)) s) by (unfold lift; rewrite elem_set_in by lia; done). done.
Qed.

Lemma clear_lenlens_spec BL k : forall fuel s, (k < fuel)%nat -> 0 <= i_have s -> i_have s + Z.of_nat k = 19 -> zlen (i_lens s) = 320 ->
  (forall i, i_have s <= i < 19 -> BL (order_at i) = 0) ->
  clear_lenlens fuel s = Got tt (with_lens s (place BL (seqZ (i_have s) (Z.of_nat k)) (i_lens s)) 19).
Proof.
  induction k as [|k IH]; intros fuel s Hf H0 Hk Hz Hzero; (destruct fuel as [|fuel]; [lia|]); cbn [clear_lenlens]; rewrite (bind_Got _ _ s s s) by done.
  - rewrite (proj2 (Z.ltb_ge _ _)) by lia. cbn. unfold with_lens. replace 19 with (i_have s) by lia. by destruct s.
  - rewrite (proj2 (Z.ltb_lt _ _)) by lia. rewrite (bind_Got _ _ _ _ _ (put_order_spec s 0 ltac:(lia) Hz)).
    set (s1 := with_lens s _ _). rewrite (IH fuel s1); [|lia|cbn; lia|cbn; lia|cbn; by rewrite zlen_insert|cbn; intros i Hi; apply Hzero; lia].
    rewrite (seqZ_cons (i_have s)) by lia. cbn [place foldl s1 with_lens i_have i_lens]. rewrite Hzero by lia. unfold with_lens. cbn. unfold place.
    replace (Z.pred (Z.of_nat (S k))) with (Z.of_nat k) by lia. replace (Z.succ (i_have s)) with (i_have s + 1) by lia. done.
Qed.

Definition lens_bits (BL : Z -> Z) (ixs : list Z) : list bool := ixs ≫= fun i => zbits 3 (BL (order_at i)).

Lemma read_lenlens_spec BL R k : forall fuel s, (k < fuel)%nat -> 0 <= i_have s -> i_have s + Z.of_nat k = i_ncode s -> i_ncode s <= 19 -> zlen (i_lens s) = 320 ->
  buf_ok s -> i_bits s <= 7 -> (forall x, 0 <= BL x < 8) -> rbits s = lens_bits BL (seqZ (i_have s) (Z.of_nat k)) ++ R ->
  exists s', read_lenlens fuel s = Got tt s' /\ reads (with_lens s (place BL (seqZ (i_have s) (Z.of_nat k)) (i_lens s)) (i_ncode s)) s' R /\ i_bits s' <= 7.
Proof.
  induction k as [|k IH]; intros fuel s Hf H0 Hk Hn Hz Hok Hb HBL HR; (destruct fuel as [|fuel]; [lia|]); cbn [read_lenlens]; rewrite (bind_Got _ _ s s s) by done.
  - rewrite (proj2 (Z.ltb_ge _ _)) by lia. exists s. split; [done|]. split; [|done]. replace (with_lens _ _ _) with s; [change (rbits s = R) in HR; rewrite <- HR; by apply reads_refl|].
    unfold with_lens. cbn. rewrite <- Hk. replace (i_have s + Z.of_nat 0) with (i_have s) by lia. by destruct s.
  - rewrite (proj2 (Z.ltb_lt _ _)) by lia. rewrite seqZ_cons in HR |- * by lia. replace (Z.pred (Z.of_nat (S k))) with (Z.of_nat k) in * by lia. replace (Z.succ (i_have s)) with (i_have s + 1) in * by lia.
    unfold lens_bits in HR. cbn [mbind list_bind] in HR. rewrite <- app_assoc in HR.
    destruct (needbits_front s 3 _ _ Hok Hb ltac:(lia) (HBL _) HR) as (s1 & H1 & (h & b & p & ->) & Hv & ((h2 & b2 & p2 & E2) & Hok2 & HR2) & Hb2).
    rewrite (bind_Got _ _ _ _ _ H1), (bind_Got _ _ _ _ _ (BITS_eq 3 _)), Hv. set (s1 := set_buf s h b p) in *.
    rewrite (bind_Got _ _ _ _ _ (put_order_spec s1 _ ltac:(change (0 <= i_have s < 19); lia) Hz)). set (t1 := with_lens s1 _ _).
    rewrite (bind_Got _ _ t1 tt (drop_bits t1 3)) by done. destruct (buf_same (drop_bits s1 3) (drop_bits t1 3) Hok2) as [Hok3 HR3]; try done. rewrite HR2 in HR3.
    destruct (IH fuel (drop_bits t1 3)) as (s' & H' & Hrd & Hb'); try done; [lia|change (0 <= i_have s + 1); lia|change (i_have s + 1 + Z.of_nat k = i_ncode s); lia|change (zlen (<[Z.to_nat (order_at (i_have s)) := BL (order_at (i_have s))]> (i_lens s)) = 320); by rewrite zlen_insert|].
    exists s'. split; [exact H'|]. split; [|done]. destruct Hrd as ((h' & b' & p' & ->) & Hrest). split; [|exact Hrest]. by exists h', b', p'.
Qed.

(** ** The table of the code-length code *)

Lemma call_table_spec type lens codes off bits s r : inflate_table type lens codes (drop (Z.to_nat off) (i_codes s)) bits (i_work s) = Ok r ->
  call_inflate_table type lens codes off bits s = Got r (s <| i_codes := take (Z.to_nat off) (i_codes s) ++ res_table r |> <| i_work := res_work r |>).
Proof. intros H. unfold call_inflate_table. rewrite (bind_Got _ _ s s s) by done. rewrite (bind_Got _ _ s r s) by (unfold lift; by rewrite H). done. Qed.

(** The parts of the state outside the description of the codes. *)
Definition data_part (s : inf) : inf :=
  s <| i_mode := LEN |> <| i_hold := 0 |> <| i_bits := 0 |> <| i_pos := 0 |> <| i_length := 0 |> <| i_offset := 0 |> <| i_extra := 0 |>
    <| i_lencode := LenFix |> <| i_distcode := DistFix |> <| i_lenbits := 0 |> <| i_distbits := 0 |>
    <| i_ncode := 0 |> <| i_nlen := 0 |> <| i_ndist := 0 |> <| i_have := 0 |> <| i_lens := [] |> <| i_work := [] |> <| i_codes := [] |>.

(** A complete code of 19 lengths below eight. *)
Record cl_code (BL : list Z) : Prop := {
  cc_len : zlen BL = 19;
  cc_range : Forall (fun l => 0 <= l <= 7) BL;
  cc_kraft : kraft BL 19 = 2 ^ 15 }.

Lemma cl_len BL x : cl_code BL -> 0 <= len_of BL x <= 7.
Proof.
  intros [_ Hr _]. unfold len_of. destruct (BL !! Z.to_nat x) as [l|] eqn:E; [|simpl; lia]. exact (Forall_lookup_1 _ _ _ _ Hr E).
Qed.

Lemma valid_args_of type lens codes bits work : 0 <= codes <= zlen lens -> codes <= sym_limit type -> codes <= zlen work -> 1 <= bits <= 15 ->
  (forall x, 0 <= x < codes -> 0 <= len_of lens x <= 15) -> valid_args type lens codes bits work.
Proof.
  intros Hc Hl Hw Hb Hx. split_and!; try lia. apply Forall_lookup. intros i l Hi. apply lookup_take_Some in Hi as [Hi Hlt].
  specialize (Hx (Z.of_nat i) ltac:(lia)). unfold len_of in Hx. rewrite Nat2Z.id, Hi in Hx. exact Hx.
Qed.

Lemma max_len_le lens codes m : 0 <= m -> (forall x, 0 <= x < codes -> len_of lens x <= m) -> max_len lens codes <= m.
Proof.
  intros Hm Hx. unfold max_len. destruct (last (sorted_lens lens codes)) as [l|] eqn:E; [|done]. simpl.
  apply last_Some_elem_of in E. unfold sorted_lens in E. apply list_elem_of_fmap in E as (x & -> & Hin). apply elem_sorted_syms in Hin as [Hin _]. by apply Hx.
Qed.

(** A state in which code lengths are read. *)
Record at_lens (BL : list Z) (s : inf) : Prop := {
  al_buf : buf_ok s;
  al_bits : i_bits s <= 7;
  al_arrays : arrays_ok s;
  al_code : i_lencode s = InCodes 0;
  al_root : i_lenbits s = root_bits BL 19 7;
  al_table : table_decodes CODES BL 19 (root_bits BL 19 7) (i_codes s) }.

Lemma lenlens_step flush BL ncode s R : cl_code BL -> i_mode s = LENLENS -> i_have s = 0 -> i_ncode s = ncode -> 4 <= ncode <= 19 -> arrays_ok s -> buf_ok s -> i_bits s <= 7 ->
  (forall i, ncode <= i < 19 -> len_of BL (order_at i) = 0) -> rbits s = lens_bits (len_of BL) (seqZ 0 ncode) ++ R ->
  exists s', bstep flush s s' /\ at_lens BL s' /\ i_mode s' = CODELENS /\ i_have s' = 0 /\ rbits s' = R /\ i_nlen s' = i_nlen s /\ i_ndist s' = i_ndist s /\ data_part s' = data_part s.
Proof.
  intros HBL Hm Hh Hn Hnc [Hzl Hzw Hzc] Hok Hb Hzero HR. pose proof (fun x => cl_len BL x HBL) as Hlen. set (B := len_of BL) in *.
  destruct (read_lenlens_spec B R (Z.to_nat ncode) 20 s) as (s1 & H1 & ((h & b & p & ->) & Hok1 & HR1) & Hb1); try (done || lia).
  { intros x. specialize (Hlen x). lia. } { rewrite Hh, Z2Nat.id by lia. exact HR. }
  rewrite Hh, Z2Nat.id, Hn in H1, Hok1, HR1, Hb1 by lia. set (l1 := place B (seqZ 0 ncode) (i_lens s)) in *. set (s1 := set_buf _ h b p) in *.
  assert (Hz1 : zlen l1 = 320) by (unfold zlen, l1 in *; rewrite length_place; done).
  pose proof (clear_lenlens_spec B (Z.to_nat (19 - ncode)) 20 s1 ltac:(lia) ltac:(change (0 <= ncode); lia) ltac:(change (ncode + Z.of_nat (Z.to_nat (19 - ncode)) = 19); lia) Hz1 Hzero) as H2.
  change (i_have s1) with ncode in H2. change (i_lens s1) with l1 in H2. rewrite Z2Nat.id in H2 by lia. unfold l1 in H2. rewrite <- place_app in H2.
  assert (Eseq : seqZ 0 ncode ++ seqZ ncode (19 - ncode) = seqZ 0 19) by (rewrite <- (Z.add_0_l ncode) at 2; rewrite <- seqZ_app by lia; f_equal; lia). rewrite Eseq in H2.
  set (l := place B (seqZ 0 19) (i_lens s)) in *. assert (Hz : zlen l = 320) by (unfold zlen, l in *; rewrite length_place; done).
  assert (Hag : forall x, 0 <= x < 19 -> len_of l x = len_of BL x) by (intros x Hx; apply place_all; [lia|done]).
  set (s2 := (with_lens s1 l 19) <| i_lencode := InCodes 0 |>).
  destruct (enough_ok CODES l 19 (i_codes s2) 7 (i_work s2) 128) as (r & Hr & Hret & Hu & Hzt & Hrb & Hzr & Hdec).
  { apply valid_args_of; [lia|done|change (zlen (i_work s2)) with (zlen (i_work s)); lia|lia|]. intros x Hx. rewrite Hag by done. specialize (Hlen x). fold B in Hlen |- *. unfold B in *. lia. }
  { rewrite (agree_kraft _ _ _ Hag). by destruct HBL. }
  { right. right. split_and!; try done. apply max_len_le; [lia|]. intros x Hx. rewrite Hag by done. exact (proj2 (Hlen x)). }
  { change (zlen (i_codes s2)) with (zlen (i_codes s)). rewrite Hzc. unfold ENOUGH. lia. }
  pose proof (call_table_spec CODES l 19 0 7 s2 r Hr) as Hcall. change (take (Z.to_nat 0) (i_codes s2) ++ res_table r) with (res_table r) in Hcall.
  set (s3 := s2 <| i_codes := res_table r |> <| i_work := res_work r |>) in *. set (s' := s3 <| i_lenbits := res_bits r |> <| i_have := 0 |> <| i_mode := CODELENS |>).
  exists s'. destruct (buf_same s1 s' Hok1) as [Hok' HR']; try done. split; [|split; [|split_and!; try done; by rewrite HR']].
  - split; [by rewrite Hm|]. unfold block_step. rewrite (bind_Got _ _ s s s) by done. rewrite Hm. unfold step_lenlens. rewrite (bind_Got _ _ _ _ _ H1), (bind_Got _ _ _ _ _ H2).
    rewrite (bind_Got _ _ _ tt s2) by done. rewrite (bind_Got _ _ s2 s2 s2) by done. change (i_lens s2) with l. rewrite (bind_Got _ _ _ _ _ Hcall). rewrite (bind_Got _ _ _ tt (s3 <| i_lenbits := res_bits r |>)) by done.
    rewrite Hret. done.
  - destruct (agree_roots _ _ _ Hag 7) as [Hroot _]. split; try done.
    + split; [exact Hz|change (zlen (res_work r) = 288); rewrite Hzr; exact Hzw|change (zlen (res_table r) = ENOUGH); rewrite Hzt; exact Hzc].
    + change (res_bits r = root_bits BL 19 7). by rewrite Hrb.
    + change (i_codes s') with (res_table r). rewrite <- (take_drop (Z.to_nat (res_used r)) (res_table r)). apply decodes_front.
      rewrite <- Hroot, <- Hrb. exact (agree_decodes _ _ _ Hag _ _ _ Hdec).
Qed.

(** ** Code lengths *)

Definition cl_work : list Z := replicate 288 0.
Definition cl_link (e : code) : bool := negb (c_op e =? 0).

Lemma cl_args BL : cl_code BL -> valid_args CODES BL 19 7 cl_work.
Proof.
  intros H. apply valid_args_of; [rewrite (cc_len BL H); lia|done|vm_compute; discriminate|lia|]. intros x _. pose proof (cl_len BL x H). lia.
Qed.

Lemma cl_root BL x : cl_code BL -> coded BL 19 x -> 1 <= len_of BL x <= root_bits BL 19 7.
Proof.
  intros H Hx. pose proof (cl_args BL H) as Hv. pose proof (valid_lens _ _ _ _ _ Hv) as Hlens. destruct Hv as (Hc & Hl & Hw & Hb & _).
  pose proof (cc_kraft BL H) as Hk. rewrite <- kraft_sorted in Hk. destruct (lens_max CODES BL 19 [] 7 cl_work Hc Hl Hw Hb Hlens Hk) as (_ & _ & Hin & _).
  assert (He : len_of BL x ∈ sorted_lens BL 19) by (apply list_elem_of_fmap; exists x; split; [done|]; by apply elem_sorted_syms).
  rewrite Forall_forall in Hin. specialize (Hin _ He). pose proof (cl_len BL x H). unfold root_bits. destruct Hx. lia.
Qed.

Lemma cl_decoder BL t : cl_code BL -> table_decodes CODES BL 19 (root_bits BL 19 7) t ->
  decoder t (root_bits BL 19 7) (coded BL 19) (len_of BL) (huff_code BL 19) (sym_entry CODES) cl_link.
Proof.
  intros H Ht. apply (table_decoder CODES BL 19 7 cl_work t cl_link (cl_args BL H) (cc_kraft BL H) Ht); [done|]. intros w off Hw. unfold cl_link. cbn. by rewrite (proj2 (Z.eqb_neq w 0)) by lia.
Qed.

(** An operation in front of the input: its code and its extra bits. *)
Lemma cl_front BL s op R : cl_code BL -> at_lens BL s -> cl_ok op -> coded BL 19 (cl_sym op) -> rbits s = cl_bits (len_of BL) (huff_code BL 19) op ++ R ->
  let l := len_of BL (cl_sym op) in
  exists s1 s2, pull_code 6 (code_array s (i_lencode s)) (fun s => low_bits s (i_lenbits s)) 0 s = Got (mkCode 0 l (cl_sym op)) s1
    /\ NEEDBITS (l + cl_extra op) s1 = Got tt s2 /\ (exists h b p, drop_bits s2 l = set_buf s h b p) /\ low_bits (drop_bits s2 l) (cl_extra op) = cl_val op
    /\ reads s (drop_bits (drop_bits s2 l) (cl_extra op)) R /\ i_bits (drop_bits (drop_bits s2 l) (cl_extra op)) <= 7 /\ (cl_extra op = 0 -> reads s (drop_bits s2 l) R /\ i_bits (drop_bits s2 l) <= 7).
Proof.
  intros HBL [Hok Hb _ Hcode Hroot Ht] Hcl Hc HR l. pose proof (cl_decoder BL (i_codes s) HBL Ht) as D. pose proof (cl_root BL _ HBL Hc) as Hl. pose proof (cl_len BL (cl_sym op) HBL) as Hl7. fold l in Hl, Hl7.
  unfold cl_bits in HR. rewrite <- app_assoc in HR. fold l in HR.
  destruct (root_code_spec (i_codes s) _ _ _ _ _ _ D (fun s => low_bits s (i_lenbits s)) s (cl_sym op) _ ltac:(intros s' ((h & b & p & ->) & _); rewrite <- Hroot; done) Hok ltac:(lia) Hc HR) as (e & s1 & Hp & Hr1 & He & Hge & Hle).
  pose proof (bval_prefix l (huff_code BL 19 (cl_sym op)) (zbits (cl_extra op) (cl_val op) ++ R) ltac:(lia) (huff_code_range BL 19 _ Hc)) as HH. rewrite <- HR in HH.
  destruct (root_cases (i_codes s) _ _ _ _ _ _ D (bval (rbits s)) (cl_sym op) Hc HH) as [[_ He1]|(? & _)]; [|unfold l in *; lia].
  assert (e = mkCode 0 l (cl_sym op)) as -> by (unfold root_entry in *; unfold l in *; cbn in He1; congruence). cbn [c_bits] in Hle.
  pose proof (cl_extra_range op) as He7. destruct Hr1 as ((h & b & p & E1) & Hok1 & HR1).
  assert (Hz : l + cl_extra op <= zlen (rbits s1)) by (rewrite HR1, HR, !zlen_app, !zlen_zbits by lia; pose proof (zlen_nonneg R); lia).
  destruct (NEEDBITS_spec s1 (l + cl_extra op) Hok1 ltac:(lia) Hz) as (s2 & Hn & Hr2 & Hge2 & Hle2).
  assert (Hr12 : reads s s2 (rbits s)) by (eapply reads_trans; [|rewrite <- HR1; exact Hr2]; split; [by exists h, b, p|by split]).
  pose proof Hr12 as (_ & Hok2 & HR2). rewrite HR in HR2.
  destruct (drop_front s2 l _ _ Hok2 HR2 ltac:(lia) ltac:(change (2 ^ 32) with 4294967296; lia)) as [Hr3 Hb3]. set (s3 := drop_bits s2 l) in *. pose proof Hr3 as (_ & Hok3 & HR3).
  assert (Hv : 0 <= cl_val op < 2 ^ cl_extra op) by (destruct op; [cbn; lia|exact Hcl..]).
  destruct (drop_front s3 (cl_extra op) _ _ Hok3 HR3 ltac:(lia) ltac:(change (2 ^ 32) with 4294967296; lia)) as [Hr4 Hb4].
  assert (Hr13 : reads s s3 (zbits (cl_extra op) (cl_val op) ++ R)) by (eapply reads_trans; [exact Hr12|exact Hr3]).
  exists s1, s2. rewrite Hcode. split; [exact Hp|]. split; [done|]. fold s3. split; [by destruct Hr13|]. split; [by apply (BITS_front s3 _ _ R); (done || lia)|].
  split; [by eapply reads_trans|]. split; [lia|]. intros E0. rewrite E0, zbits_0 in Hr13. split; [exact Hr13|lia].
Qed.

(** The lengths that have been read. *)
Record have_lens (acc : list Z) (s : inf) : Prop := {
  hl_have : i_have s = zlen acc;
  hl_size : zlen (i_lens s) = 320;
  hl_take : take (length acc) (i_lens s) = acc }.

(** The state [s'] is [s] with other lengths and another buffer. *)
Definition only_lens (s s' : inf) : Prop := exists l n h b p, s' = set_buf (with_lens s l n) h b p.

Lemma only_lens_trans s s1 s2 : only_lens s s1 -> only_lens s1 s2 -> only_lens s s2.
Proof. intros (l & n & h & b & p & ->) (l' & n' & h' & b' & p' & ->). by exists l', n', h', b', p'. Qed.

Lemma take_insert_end (l : list Z) acc x : take (length acc) l = acc -> zlen acc < zlen l -> take (length (acc ++ [x])) (<[Z.to_nat (zlen acc) := x]> l) = acc ++ [x].
Proof.
  intros Ht Hz. unfold zlen in *. rewrite length_app. cbn [length]. rewrite Nat2Z.id, Nat.add_1_r. rewrite (take_S_r _ _ x) by (apply list_lookup_insert_eq; lia). by rewrite take_insert_ge, Ht by lia.
Qed.

Lemma put_lens_spec len n : forall s acc, have_lens acc s -> zlen acc + Z.of_nat n <= 320 ->
  exists l, put_lens n len s = Got tt (with_lens s l (zlen acc + Z.of_nat n)) /\ have_lens (acc ++ replicate n len) (with_lens s l (zlen acc + Z.of_nat n)).
Proof.
  induction n as [|n IH]; intros s acc Hl Hz; pose proof Hl as [Hh Hs Ht].
  - exists (i_lens s). assert (E : with_lens s (i_lens s) (zlen acc + Z.of_nat 0) = s) by (unfold with_lens; cbn; rewrite Z.add_0_r, <- Hh; by destruct s). rewrite E, app_nil_r. done.
  - pose proof (zlen_nonneg acc). cbn [put_lens]. rewrite (bind_Got _ _ s s s) by done. set (l1 := <[Z.to_nat (zlen acc) := len]> (i_lens s)).
    rewrite (bind_Got _ _ s l1 s) by (unfold lift; rewrite Hh, elem_set_in by lia; done). set (s1 := with_lens s l1 (zlen acc + 1)). rewrite (bind_Got _ _ s tt s1) by (unfold upd; by rewrite Hh).
    assert (Hz1 : zlen (acc ++ [len]) = zlen acc + 1) by (rewrite zlen_app, zlen_cons, zlen_nil; lia).
    destruct (IH s1 (acc ++ [len])) as (l & -> & Hl').
    + split; [by rewrite Hz1|unfold s1, l1; cbn; by rewrite zlen_insert|]. apply take_insert_end; [done|lia].
    + lia.
    + rewrite Hz1, <- app_assoc in *. exists l. replace (zlen acc + Z.of_nat (S n)) with (zlen acc + 1 + Z.of_nat n) by lia. done.
Qed.

(** The lengths an operation adds are written. *)
Lemma lens_written BL s t acc n len R : at_lens BL s -> have_lens acc s -> reads s t R -> i_bits t <= 7 -> zlen acc + Z.of_nat n <= 320 ->
  exists s', put_lens n len t = Got tt s' /\ at_lens BL s' /\ have_lens (acc ++ replicate n len) s' /\ rbits s' = R /\ only_lens s s'.
Proof.
  intros [_ _ [_ Hw Hc] Hcode Hroot Ht] Hl ((h & b & p & E) & Hok & HR) Hb Hz.
  destruct (put_lens_spec len n t acc) as (l & H1 & Hl'); [destruct Hl; by rewrite E|done|].
  eexists. split; [exact H1|]. destruct (buf_same t (with_lens t l (zlen acc + Z.of_nat n)) Hok) as [Hok' HR']; try done.
  split; [|split; [done|split; [by rewrite HR'|rewrite E; by eexists _, _, _, _, _]]]. rewrite E in *. split; try done. split; [by destruct Hl'|done|done].
Qed.

Lemma last_lookup_Z (acc : list Z) : acc <> [] -> acc !! Z.to_nat (zlen acc - 1) = Some (default 0 (last acc)).
Proof.
  intros Hne. rewrite last_lookup. assert (Hpos : (0 < length acc)%nat) by (destruct acc; [done|simpl; lia]). unfold zlen.
  replace (Z.to_nat (Z.of_nat (length acc) - 1)) with (pred (length acc)) by lia. destruct (lookup_lt_is_Some_2 acc (pred (length acc))) as [x ->]; [lia|]. done.
Qed.

(** One operation. *)
Lemma read_codelen_spec BL s acc op R : cl_code BL -> at_lens BL s -> have_lens acc s -> cl_ok op -> (cl_sym op = 16 -> acc <> []) -> coded BL 19 (cl_sym op) ->
  zlen (acc ++ cl_new acc op) <= i_nlen s + i_ndist s <= 320 -> rbits s = cl_bits (len_of BL) (huff_code BL 19) op ++ R ->
  exists s', read_codelen s = Got true s' /\ at_lens BL s' /\ have_lens (acc ++ cl_new acc op) s' /\ rbits s' = R /\ only_lens s s'.
Proof.
  intros HBL Hat Hl Hcl Hrep Hc Hz HR. destruct (cl_front BL s op R HBL Hat Hcl Hc HR) as (s1 & s2 & Hp & Hn & E3 & Hv & Hr & Hb & Hr0).
  cbv zeta in *. set (l := len_of BL (cl_sym op)) in *. set (s3 := drop_bits s2 l) in *. rewrite zlen_app in Hz.
  unfold read_codelen. rewrite (bind_Got _ _ s s s) by done. rewrite (bind_Got _ _ _ _ _ Hp). cbn [c_val c_bits].
  (* what happens after the value of a run *)
  assert (Hrun : forall len n, cl_new acc op = replicate (Z.to_nat n) len -> 0 <= n ->
    exists s', (s0 ← get; (if i_nlen s0 + i_ndist s0 <? i_have s0 + n then set_bad "invalid bit length repeat" ;; mret false else put_lens (Z.to_nat n) len ;; mret true)) (drop_bits s3 (cl_extra op)) = Got true s'
      /\ at_lens BL s' /\ have_lens (acc ++ cl_new acc op) s' /\ rbits s' = R /\ only_lens s s').
  { intros len n En Hn0. rewrite En in Hz |- *. assert (Hrep' : zlen (replicate (Z.to_nat n) len) = n) by (unfold zlen; rewrite length_replicate; lia). rewrite Hrep' in Hz.
    destruct (lens_written BL s _ acc (Z.to_nat n) len R Hat Hl Hr Hb ltac:(lia)) as (s' & H1 & Hrest). exists s'. split; [|done].
    set (s4 := drop_bits s3 (cl_extra op)) in *. rewrite (bind_Got _ _ s4 s4 s4) by done. destruct Hr as ((h & b & p & E4) & _).
    assert (Hf : i_nlen s4 = i_nlen s /\ i_ndist s4 = i_ndist s /\ i_have s4 = i_have s) by (by rewrite E4). destruct Hf as (-> & -> & ->).
    rewrite (hl_have _ _ Hl), (proj2 (Z.ltb_ge _ _)) by lia. by rewrite (bind_Got _ _ _ _ _ H1). }
  destruct op as [x|v|v|v]; cbn [cl_sym cl_extra cl_val cl_new cl_ok] in *.
  - rewrite (proj2 (Z.ltb_lt x 16)) by lia. rewrite Z.add_0_r in Hn. rewrite (bind_Got _ _ _ _ _ Hn), (bind_Got _ _ s2 tt s3) by done. destruct (Hr0 eq_refl) as [Hr3 Hb3].
    change (zlen [x]) with 1 in Hz. destruct (lens_written BL s s3 acc 1 x R Hat Hl Hr3 Hb3 ltac:(lia)) as (s' & H1 & Hrest). exists s'. rewrite (bind_Got _ _ _ _ _ H1). split; [done|exact Hrest].
  - destruct E3 as (h & b & p & E3). assert (Hh3 : i_have s3 = zlen acc /\ i_lens s3 = i_lens s) by (rewrite E3; by destruct Hl). destruct Hh3 as [Hh3 Hl3].
    assert (Hne : acc <> []) by by apply Hrep. assert (Hpos : 0 < zlen acc) by (destruct acc; [done|rewrite zlen_cons; pose proof (zlen_nonneg acc); lia]).
    assert (Hlast : elem_at (i_lens s) (zlen acc - 1) = Ok (default 0 (last acc))).
    { apply elem_at_lookup; [lia|]. rewrite <- (last_lookup_Z acc Hne). rewrite <- (lookup_take_lt (i_lens s) (length acc)) by (unfold zlen in *; lia). by rewrite (hl_take _ _ Hl). }
    change (16 <? 16) with false. cbv iota. rewrite (bind_Got _ _ s1 (Some (default 0 (last acc), 3 + v)) (drop_bits s3 2)); [apply Hrun; [done|change (2 ^ 2) with 4 in Hcl; lia]|].
    cbn. rewrite (bind_Got _ _ _ _ _ Hn), (bind_Got _ _ s2 tt s3), (bind_Got _ _ s3 s3 s3), Hh3 by done. rewrite (proj2 (Z.eqb_neq (zlen acc) 0)) by lia.
    rewrite (bind_Got _ _ s3 (default 0 (last acc)) s3) by (unfold lift; by rewrite Hl3, Hlast). rewrite (bind_Got _ _ _ _ _ (BITS_eq 2 s3)), Hv. done.
  - change (17 <? 16) with false. cbv iota. rewrite (bind_Got _ _ s1 (Some (0, 3 + v)) (drop_bits s3 3)); [apply Hrun; [done|change (2 ^ 3) with 8 in Hcl; lia]|].
    cbn. rewrite (bind_Got _ _ _ _ _ Hn), (bind_Got _ _ s2 tt s3), (bind_Got _ _ _ _ _ (BITS_eq 3 s3)), Hv by done. done.
  - change (18 <? 16) with false. cbv iota. rewrite (bind_Got _ _ s1 (Some (0, 11 + v)) (drop_bits s3 7)); [apply Hrun; [done|change (2 ^ 7) with 128 in Hcl; lia]|].
    cbn. rewrite (bind_Got _ _ _ _ _ Hn), (bind_Got _ _ s2 tt s3), (bind_Got _ _ _ _ _ (BITS_eq 7 s3)), Hv by done. done.
Qed.

Lemma cl_new_pos acc op : cl_ok op -> 1 <= zlen (cl_new acc op).
Proof. intros H. destruct op; cbn in *; unfold zlen; rewrite ?length_replicate; cbn; lia. Qed.

Lemma zlen_cl_expand ops : forall acc, cl_valid acc ops -> zlen acc + Z.of_nat (length ops) <= zlen (cl_expand acc ops).
Proof.
  induction ops as [|op ops IH]; intros acc H; [cbn; lia|]. destruct H as (Hok & _ & H). rewrite cl_expand_cons. specialize (IH _ H). rewrite zlen_app in IH. pose proof (cl_new_pos acc op Hok). cbn [length]. lia.
Qed.

(** All code lengths. *)
Lemma read_codelens_spec BL ops : cl_code BL -> forall fuel s acc R, (length ops < fuel)%nat -> at_lens BL s -> have_lens acc s -> cl_valid acc ops -> Forall (fun op => coded BL 19 (cl_sym op)) ops ->
  zlen (cl_expand acc ops) = i_nlen s + i_ndist s -> i_nlen s + i_ndist s <= 320 -> rbits s = ops_bits (len_of BL) (huff_code BL 19) ops ++ R ->
  exists s', read_codelens fuel s = Got tt s' /\ at_lens BL s' /\ have_lens (cl_expand acc ops) s' /\ rbits s' = R /\ only_lens s s'.
Proof.
  intros HBL. induction ops as [|op ops IH]; intros fuel s acc R Hf Hat Hl Hv Hc Hz H320 HR; (destruct fuel as [|fuel]; [cbn in Hf; lia|]); cbn [read_codelens]; rewrite (bind_Got _ _ s s s) by done.
  - cbn in Hz. rewrite (hl_have _ _ Hl), (proj2 (Z.ltb_ge _ _)) by lia. exists s. split; [done|]. split; [done|]. split; [done|]. split; [done|].
    exists (i_lens s), (i_have s), (i_hold s), (i_bits s), (i_pos s). by destruct s.
  - apply Forall_cons in Hc as [Hc Hcs]. pose proof (zlen_cl_expand (op :: ops) acc Hv) as Hlen. destruct Hv as (Hok & Hrep & Hv). pose proof (zlen_cl_expand ops _ Hv) as Hlen'. rewrite cl_expand_cons in *. cbn [length] in *.
    rewrite (hl_have _ _ Hl), (proj2 (Z.ltb_lt _ _)) by lia. unfold ops_bits in HR. cbn [mbind list_bind] in HR. rewrite <- app_assoc in HR.
    destruct (read_codelen_spec BL s acc op _ HBL Hat Hl Hok Hrep Hc ltac:(lia) HR) as (s1 & H1 & Hat1 & Hl1 & HR1 & E1). rewrite (bind_Got _ _ _ _ _ H1). cbv iota.
    assert (Hsame : i_nlen s1 = i_nlen s /\ i_ndist s1 = i_ndist s) by (by destruct E1 as (? & ? & ? & ? & ? & ->)). destruct Hsame as [En Ed]. rewrite <- En, <- Ed in Hz, H320.
    destruct (IH fuel s1 _ R ltac:(lia) Hat1 Hl1 Hv Hcs Hz H320 HR1) as (s2 & H2 & Hat2 & Hl2 & HR2 & E2). exists s2. split; [exact H2|]. split; [done|]. split; [done|]. split; [done|]. by eapply only_lens_trans.
Qed.
