(* ===== verification/InfDynamic.v ===== *)
(** * Dynamic blocks

    After the code lengths the two tables are built one behind the other in
    [codes] ([codelens_step]), and the block is decoded with them
    ([decode_dynamic]). *)

From stdpp Require Import strings.
From S2P Require Import Prelude Inftrees BitRev Canon InftreesSort InftreesSpec InftreesThm InfFixed Inflate Bits InfDecode InfCopy TreesTables Trees TreesBlock.
From S2P Require Import InfItems InfFast InfBlock InfCodes InfHeader TreesRuns InfLens.

(** A complete code of [n] lengths. *)
Record lens_code (lens : list Z) (n : Z) : Prop := {
  lc_len : zlen lens = n;
  lc_range : Forall (fun l => 0 <= l <= 15) lens;
  lc_kraft : kraft lens n = 2 ^ 15 }.

Lemma lc_len_of lens n x : lens_code lens n -> 0 <= len_of lens x <= 15.
Proof.
  intros [_ Hr _]. unfold len_of. destruct (lens !! Z.to_nat x) as [l|] eqn:E; [|simpl; lia]. exact (Forall_lookup_1 _ _ _ _ Hr E).
Qed.

Lemma lc_args type lens n bits work : lens_code lens n -> n <= sym_limit type -> n <= zlen work -> 1 <= bits <= 15 -> valid_args type lens n bits work.
Proof.
  intros H Hl Hw Hb. apply valid_args_of; try done; [pose proof (lc_len _ _ H); pose proof (zlen_nonneg lens); lia|]. intros x _. by apply (lc_len_of lens n).
Qed.

(** A table for lengths that are found in a larger array. *)
Lemma build_agree type lens arr n codes off bits work size s : lens_code lens n -> (forall x, 0 <= x < n -> len_of arr x = len_of lens x) ->
  (type = LENS /\ bits = 9 /\ n <= 286 /\ size = 860) \/ (type = DISTS /\ bits = 6 /\ n <= 30 /\ size = MAXD) ->
  n <= zlen arr -> n <= zlen work -> 0 <= off -> off + size <= zlen codes -> i_codes s = codes -> i_work s = work ->
  exists r, call_inflate_table type arr n off bits s = Got r (s <| i_codes := take (Z.to_nat off) codes ++ res_table r |> <| i_work := res_work r |>)
    /\ res_ret r = 0 /\ 0 <= res_used r <= size /\ zlen (res_table r) = zlen codes - off /\ zlen (res_work r) = zlen work
    /\ res_bits r = root_bits lens n bits /\ table_decodes type lens n (root_bits lens n bits) (take (Z.to_nat (res_used r)) (res_table r)).
Proof.
  intros HL Hag Hn Harr Hw Hoff Hz Ec Ew. assert (Hsize : 0 <= size) by (destruct Hn as [(_ & _ & _ & ->)|(_ & _ & _ & ->)]; unfold MAXD; lia).
  assert (Hn0 : 0 <= n) by (pose proof (lc_len _ _ HL); pose proof (zlen_nonneg lens); lia).
  destruct (enough_ok type arr n (drop (Z.to_nat off) codes) bits work size) as (r & Hr & Hret & Hu & Hzt & Hrb & Hzr & Hdec).
  - apply valid_args_of; [lia|destruct Hn as [(-> & ?)|(-> & ?)]; cbn; lia|done|lia|]. intros x Hx. rewrite Hag by done. by apply (lc_len_of lens n).
  - rewrite (agree_kraft _ _ _ Hag). by destruct HL.
  - tauto.
  - rewrite zlen_drop by lia. lia.
  - destruct (agree_roots _ _ _ Hag bits) as [Hroot _]. exists r. rewrite zlen_drop in Hzt by lia. subst codes work. rewrite (call_table_spec _ _ _ _ _ _ _ Hr). rewrite <- Hroot, <- Hrb.
    split_and!; try (done || lia). exact (agree_decodes _ _ _ Hag _ _ _ Hdec).
Qed.

Lemma take_app_fmap (arr L D : list Z) : take (length (L ++ D)) arr = L ++ D ->
  (forall x, 0 <= x < zlen L -> len_of arr x = len_of L x) /\ (forall x, 0 <= x < zlen D -> len_of (drop (length L) arr) x = len_of D x) /\ zlen L + zlen D <= zlen arr.
Proof.
  intros Ht. assert (Hk : forall k, (k < length (L ++ D))%nat -> arr !! k = (L ++ D) !! k) by (intros k Hk; by rewrite <- Ht, lookup_take_lt).
  rewrite length_app in Hk. split_and!.
  - intros x Hx. unfold len_of, zlen in *. rewrite Hk, lookup_app_l by lia. done.
  - intros x Hx. unfold len_of, zlen in *. rewrite lookup_drop, Hk, lookup_app_r by lia. do 2 f_equal. lia.
  - apply (f_equal zlen) in Ht. unfold zlen in *. rewrite length_take, !length_app in Ht. lia.
Qed.

Lemma data_win s s' : data_part s' = data_part s -> win_ok s -> win_ok s' /\ hist s' = hist s /\ whist s' = whist s /\ i_out s' = i_out s /\ i_left s' = i_left s /\ i_in s' = i_in s /\ i_last s' = i_last s.
Proof.
  intros E W. assert (Hf : forall A (f : inf -> A), (forall s, f (data_part s) = f s) -> f s' = f s) by (intros A f Hf; rewrite <- (Hf s'), <- (Hf s); by f_equal).
  pose proof (Hf _ i_window ltac:(done)) as E1. pose proof (Hf _ i_wsize ltac:(done)) as E2. pose proof (Hf _ i_write ltac:(done)) as E3. pose proof (Hf _ i_whave ltac:(done)) as E4. pose proof (Hf _ i_out ltac:(done)) as E5.
  pose proof (Hf _ whist ltac:(done)) as E6. split; [destruct W; split; congruence|]. split; [unfold hist; congruence|]. split; [done|]. split; [done|].
  split; [exact (Hf _ i_left ltac:(done))|]. split; [exact (Hf _ i_in ltac:(done))|exact (Hf _ i_last ltac:(done))].
Qed.

Section tables.
Context (flush : Z) (BL L D : list Z) (nlen ndist : Z).
Context (HBL : cl_code BL) (HL : lens_code L nlen) (HD : lens_code D ndist) (Hnl : 257 <= nlen <= 286) (Hnd : 1 <= ndist <= 30).
#[local] Set Default Proof Using "All".

Abbreviation rootL := (root_bits L nlen 9).
Abbreviation rootD := (root_bits D ndist 6).

(** The tables of a block are in place. *)
Record tables_built (s s' : inf) (R : list bool) : Prop := {
  tb_mode : i_mode s' = LEN;
  tb_buf : buf_ok s';
  tb_bits : i_bits s' <= 7;
  tb_rbits : rbits s' = R;
  tb_arrays : arrays_ok s';
  tb_data : data_part s' = data_part s;
  tb_lenbits : i_lenbits s' = rootL;
  tb_distbits : i_distbits s' = rootD;
  tb_lens : table_decodes LENS L nlen rootL (code_array s' (i_lencode s'));
  tb_dists : table_decodes DISTS D ndist rootD (code_array s' (i_distcode s')) }.

Lemma codelens_step s ops R : at_lens BL s -> i_mode s = CODELENS -> i_have s = 0 -> i_nlen s = nlen -> i_ndist s = ndist ->
  cl_valid [] ops -> Forall (fun op => coded BL 19 (cl_sym op)) ops -> cl_expand [] ops = L ++ D -> rbits s = ops_bits (len_of BL) (huff_code BL 19) ops ++ R ->
  exists s', bstep flush s s' /\ tables_built s s' R.
Proof.
  intros Hat Hm Hh En Ed Hv Hc Hexp HR. assert (Hz : zlen (L ++ D) = nlen + ndist) by (rewrite zlen_app; destruct HL, HD; lia).
  pose proof (zlen_cl_expand ops [] Hv) as Hlen. rewrite Hexp, Hz, zlen_nil in Hlen.
  destruct (read_codelens_spec BL ops HBL 400 s [] R ltac:(lia) Hat) as (s1 & H1 & Hat1 & Hl1 & HR1 & E1); try (done || lia).
  { split; [by rewrite zlen_nil|by destruct Hat as [_ _ []]|done]. } { rewrite Hexp, Hz. lia. }
  rewrite Hexp in Hl1. assert (Hs1 : i_mode s1 = CODELENS /\ i_nlen s1 = nlen /\ i_ndist s1 = ndist /\ data_part s1 = data_part s) by (destruct E1 as (? & ? & ? & ? & ? & ->); done). clear E1.
  destruct Hs1 as (Hm1 & En1 & Ed1 & Hd1). destruct Hat1 as [Hok1 Hb1 [Hzl Hzw Hzc] _ _ _]. destruct (take_app_fmap _ _ _ (hl_take _ _ Hl1)) as (HagL & HagD & Htot).
  rewrite (lc_len _ _ HL) in HagL. rewrite (lc_len _ _ HD) in HagD.
  set (t1 := s1 <| i_lencode := InCodes 0 |>).
  destruct (build_agree LENS L (i_lens s1) nlen (i_codes t1) 0 9 (i_work t1) 860 t1 HL HagL) as (r & Hr & Hret & Hu & Hzt & Hzr & Hrb & Hdec); try done; [left; split_and!; (done || lia)|lia|change (nlen <= zlen (i_work s1)); lia|change (0 + 860 <= zlen (i_codes s1)); rewrite Hzc; unfold ENOUGH; lia|].
  change (take (Z.to_nat 0) (i_codes t1) ++ res_table r) with (res_table r) in Hr. set (t2 := t1 <| i_codes := res_table r |> <| i_work := res_work r |>) in *.
  change (zlen (i_codes t1)) with (zlen (i_codes s1)) in Hzt. change (zlen (i_work t1)) with (zlen (i_work s1)) in Hzr. rewrite Z.sub_0_r, Hzc in Hzt.
  set (t3 := t2 <| i_lenbits := res_bits r |> <| i_distcode := InCodes (res_used r) |>).
  assert (Hlenk : Z.to_nat nlen = length L) by (destruct HL as [<- _ _]; unfold zlen; lia).
  destruct (build_agree DISTS D (drop (length L) (i_lens s1)) ndist (res_table r) (res_used r) 6 (res_work r) MAXD t3 HD HagD) as (d & Hd & Hretd & Hud & Hztd & Hzrd & Hrbd & Hdecd); try done; [right; split_and!; (done || lia)| |lia|lia|rewrite Hzt; unfold ENOUGH, MAXD; lia|].
  { unfold zlen in *. rewrite length_drop. rewrite (lc_len _ _ HD) in Htot || idtac. pose proof (lc_len _ _ HL) as E1. pose proof (lc_len _ _ HD) as E2. unfold zlen in E1, E2. lia. }
  set (t4 := t3 <| i_codes := take (Z.to_nat (res_used r)) (res_table r) ++ res_table d |> <| i_work := res_work d |>) in *.
  set (s' := t4 <| i_distbits := res_bits d |> <| i_mode := LEN |>). exists s'. destruct (buf_same s1 s' Hok1) as [Hok' HR']; try done. split.
  - split; [by rewrite Hm|]. unfold block_step. rewrite (bind_Got _ _ s s s) by done. rewrite Hm. unfold step_codelens. rewrite (bind_Got _ _ _ _ _ H1), (bind_Got _ _ s1 s1 s1), Hm1 by done.
    rewrite bool_decide_eq_false_2 by done. rewrite (bind_Got _ _ s1 tt t1), En1 by done. rewrite (bind_Got _ _ _ _ _ Hr). rewrite (bind_Got _ _ t2 tt (t2 <| i_lenbits := res_bits r |>)) by done. rewrite Hret.
    change (negb (0 =? 0)) with false. cbv iota. rewrite (bind_Got _ _ _ tt t3), Hlenk, Ed1 by done. rewrite (bind_Got _ _ _ _ _ Hd), (bind_Got _ _ t4 tt (t4 <| i_distbits := res_bits d |>)) by done. by rewrite Hretd.
  - split; try done.
    + split; [done|change (zlen (res_work d) = 288); lia|]. change (zlen (take (Z.to_nat (res_used r)) (res_table r) ++ res_table d) = ENOUGH). assert (HE : ENOUGH = 2048) by done. rewrite zlen_app, zlen_take, Hztd by lia. lia.
    + exact (decodes_front _ _ _ _ _ _ Hdec).
    + change (code_array s' (i_distcode s')) with (drop (Z.to_nat (res_used r)) (take (Z.to_nat (res_used r)) (res_table r) ++ res_table d)).
      rewrite drop_app_length' by (rewrite length_take; unfold zlen in *; lia). rewrite <- (take_drop (Z.to_nat (res_used d)) (res_table d)). by apply decodes_front.
Qed.

(** They decode the block. *)
Lemma built_codes s s' R : tables_built s s' R -> block_codes (code_array s' (i_lencode s')) (code_array s' (i_distcode s')) rootL rootD (coded L nlen) (coded D ndist)
  (len_of L) (huff_code L nlen) (len_of D) (huff_code D ndist) (sym_entry LENS) (sym_entry DISTS).
Proof.
  intros [_ _ _ _ _ _ _ _ HtL HtD]. destruct sym_entry_ops as [OL OD]. set (w := replicate 288 0).
  assert (HvL : valid_args LENS L nlen 9 w) by (apply lc_args; [done|cbn; lia|change (zlen w) with 288; lia|lia]).
  assert (HvD : valid_args DISTS D ndist 6 w) by (apply lc_args; [done|cbn; lia|change (zlen w) with 288; lia|lia]).
  split.
  - apply (table_decoder LENS L nlen 9 w _ len_link HvL (lc_kraft _ _ HL) HtL); [intros x b Hx; by apply OL|intros w' off Hw'; by apply link_ops].
  - apply (table_decoder DISTS D ndist 6 w _ dist_link HvD (lc_kraft _ _ HD) HtD); [intros x b Hx; by apply OD|intros w' off Hw'; by apply link_ops].
  - done.
  - done.
  - intros x b [Hx _]. apply OL. lia.
  - intros x b [Hx _]. apply OD. lia.
  - intros x [Hx _]. lia.
  - intros x [Hx _]. lia.
Qed.
End tables.

(** ** The block *)

(** What the header of a dynamic block describes. *)
Record dyn := mkDyn { dy_BL : list Z; dy_L : list Z; dy_D : list Z; dy_ncode : Z; dy_ops : list clop }.

Record dyn_ok (d : dyn) : Prop := {
  do_BL : cl_code (dy_BL d);
  do_L : lens_code (dy_L d) (zlen (dy_L d));
  do_D : lens_code (dy_D d) (zlen (dy_D d));
  do_nlen : 257 <= zlen (dy_L d) <= 286;
  do_ndist : 1 <= zlen (dy_D d) <= 30;
  do_ncode : 4 <= dy_ncode d <= 19;
  do_order : forall i, dy_ncode d <= i < 19 -> len_of (dy_BL d) (order_at i) = 0;
  do_valid : cl_valid [] (dy_ops d);
  do_coded : Forall (fun op => coded (dy_BL d) 19 (cl_sym op)) (dy_ops d);
  do_expand : cl_expand [] (dy_ops d) = dy_L d ++ dy_D d;
  do_end : coded (dy_L d) (zlen (dy_L d)) 256 }.

Abbreviation dy_codedL d := (coded (dy_L d) (zlen (dy_L d))).
Abbreviation dy_codedD d := (coded (dy_D d) (zlen (dy_D d))).
Abbreviation dy_huffL d := (huff_code (dy_L d) (zlen (dy_L d))).
Abbreviation dy_huffD d := (huff_code (dy_D d) (zlen (dy_D d))).

(** The counts and lengths, and the whole block. *)
Definition trees_bits (d : dyn) : list bool :=
  zbits 5 (zlen (dy_L d) - 257) ++ zbits 5 (zlen (dy_D d) - 1) ++ zbits 4 (dy_ncode d - 4)
  ++ lens_bits (len_of (dy_BL d)) (seqZ 0 (dy_ncode d)) ++ ops_bits (len_of (dy_BL d)) (huff_code (dy_BL d) 19) (dy_ops d).
Definition dyn_bits (last : Z) (d : dyn) (items : list (Z * Z)) : list bool :=
  zbits 3 (last + 4) ++ trees_bits d ++ items_bits (len_of (dy_L d)) (dy_huffL d) (len_of (dy_D d)) (dy_huffD d) items ++ zbits (len_of (dy_L d) 256) (dy_huffL d 256).

Lemma decode_dynamic flush s last d items R : between flush s -> i_last s = 0 -> 0 <= last < 2 -> dyn_ok d -> Forall (valid_item (dy_codedL d) (dy_codedD d)) items ->
  reachable (hist s) items -> items_len items <= i_left s -> rbits s = dyn_bits last d items ++ R ->
  exists s', block_read flush s s' last (items_len items) R (expand (hist s) items).
Proof.
  intros Hbw Hl Hlast [HBL HL HD Hnl Hnd Hnc Hord Hv Hc Hexp H256] Hit Hreach Hroom HR. unfold dyn_bits, trees_bits in HR. rewrite <- !app_assoc in HR.
  destruct (header_step flush s last 2 _ Hbw Hl Hlast ltac:(lia) HR) as (s1 & Hstep1 & ((h & b & p & ->) & Hok1 & HR1) & Hb1). set (s1 := set_buf _ h b p) in *.
  destruct Hbw as [_ _ _ W A]. assert (W1 : win_ok s1) by (destruct W; by split).
  destruct (table_step flush s1 (zlen (dy_L d)) (zlen (dy_D d)) (dy_ncode d) _ eq_refl Hok1 Hb1 Hnl Hnd Hnc HR1) as (s2 & Hstep2 & ((h2 & b2 & p2 & ->) & Hok2 & HR2) & Hb2).
  set (s2 := set_buf _ h2 b2 p2) in *. assert (A2 : arrays_ok s2) by (destruct A; by split).
  destruct (lenlens_step flush (dy_BL d) (dy_ncode d) s2 _ HBL eq_refl eq_refl eq_refl Hnc A2 Hok2 Hb2 Hord HR2) as (s3 & Hstep3 & Hat3 & Hm3 & Hh3 & HR3 & Hn3 & Hd3 & Hdat3).
  destruct (codelens_step flush (dy_BL d) (dy_L d) (dy_D d) _ _ HBL HL HD Hnl Hnd s3 (dy_ops d) _ Hat3 Hm3 Hh3 Hn3 Hd3 Hv Hc Hexp HR3) as (s4 & Hstep4 & Hbuilt).
  pose proof (built_codes flush (dy_BL d) (dy_L d) (dy_D d) _ _ HBL HL HD Hnl Hnd _ _ _ Hbuilt) as BC. destruct Hbuilt as [Hm4 Hok4 Hb4 HR4 A4 Hdat4 Hlb4 Hdb4 _ _].
  assert (Hdat : data_part s4 = data_part s1) by (rewrite Hdat4, Hdat3; done). destruct (data_win s1 s4 Hdat W1) as (W4 & Hh4 & Hw4 & Ho4 & Hleft4 & Hin4 & Hlast4).
  assert (Hat4 : at_item (code_array s4 (i_lencode s4)) (code_array s4 (i_distcode s4)) (root_bits (dy_L d) (zlen (dy_L d)) 9) (root_bits (dy_D d) (zlen (dy_D d)) 6) 7 s4) by (by split).
  assert (Hh1 : hist s4 = hist s) by (rewrite Hh4; done).
  destruct (decode_block _ _ _ _ _ _ _ _ _ _ _ _ BC flush (length items) s4 items R ltac:(lia) Hm4 Hat4 H256) as (s' & Hrun & Har).
  { split; [exact Hit|by rewrite Hh1|rewrite Hleft4; exact Hroom|rewrite HR4; unfold rest_bits; done]. }
  destruct Har as [[Hok' Hb' W' _ _ _ _] HF Hm' HR' HH' HL']. exists s'.
  split; [eapply rtc_l; [exact Hstep1|]; eapply rtc_l; [exact Hstep2|]; eapply rtc_l; [exact Hstep3|]; by eapply rtc_l|].
  split_and!; try done.
  - rewrite (frame_field i_last s4 s' ltac:(done) HF). exact Hlast4.
  - rewrite HH'. by rewrite Hh1.
  - rewrite HL', Hleft4. done.
  - rewrite (proj2 (frame_win s4 s' HF W4)). exact Hw4.
  - rewrite (frame_field i_in s4 s' ltac:(done) HF). exact Hin4.
  - exact (frame_arrays s4 s' HF A4).
Qed.
