(* ===== verification/TreesDyn.v ===== *)
(** * Sending dynamic blocks

    [send_all_trees] emits the counts and code lengths of the trees
    ([send_all_trees_spec]), as a description [dyn] the decoder accepts
    ([trees_dyn_ok]), and [send_dynamic_block] the whole block
    ([dynamic_block_spec]). *)

From S2P Require Import Prelude Inftrees BitRev InftreesSort InftreesSpec InftreesThm Inflate Bits TreesTables Trees TreesEmit TreesBlock InfItems InfCodes InfHeader.
From S2P Require Import TreesTally TreesRuns InfLens InfDynamic.

(** The tree has the lengths [lens] and their canonical codes. *)
Definition tree_holds (tree : list ct_data) (lens : list Z) : Prop :=
  forall x, 0 <= x < zlen lens -> exists e, tree !! Z.to_nat x = Some e /\ dl e = len_of lens x /\ (coded lens (zlen lens) x -> fc e = huff_code lens (zlen lens) x).

(** The entry behind the last one, as [scan_tree] leaves it. *)
Definition guarded (tree : list ct_data) (lens : list Z) : Prop := exists e, tree !! length lens = Some e /\ dl e = 65535.

Lemma tree_book tree lens : tree_holds tree lens -> codebook tree (coded lens (zlen lens)) (len_of lens) (huff_code lens (zlen lens)).
Proof.
  intros H c Hc. pose proof (huff_code_range _ _ _ Hc) as Hh. pose proof Hc as [Hr Hl]. destruct (H c Hr) as ([f l] & He & Hd & Hf). cbn in *.
  split; [lia|]. split; [|lia]. rewrite He. by rewrite Hd, (Hf Hc).
Qed.

(** The operations [send_tree] chooses for the lengths of a tree. *)
Definition len_ops (lens : list Z) : list clop :=
  match lens with [] => [] | l0 :: rest => tree_ops (rest ++ [65535]) (run_reset (-1) l0) end.

Lemma len_ops_expand lens acc : lens <> [] -> Forall (fun l => 0 <= l <= 15) lens -> cl_expand acc (len_ops lens) = acc ++ lens /\ cl_valid acc (len_ops lens).
Proof.
  destruct lens as [|l0 rest]; [done|]. intros _ Hall. destruct (run_reset_fields (-1) l0) as (Ep & En & Ec & _).
  destruct (tree_ops_expand rest 65535 acc (run_reset (-1) l0)) as [H1 H2]; [apply run_reset_ok|by left|by rewrite En| |].
  - rewrite En. intros H. apply last_Some_elem_of in H. rewrite Forall_forall in Hall. specialize (Hall _ H). lia.
  - rewrite En, Ec in H1. split; [exact H1|exact H2].
Qed.

Lemma tree_lens_guard tree lens : tree_holds tree lens -> guarded tree lens -> forall i l, (lens ++ [65535]) !! i = Some l -> exists e, tree !! i = Some e /\ dl e = l.
Proof.
  intros H (g & Hg & Hdg) i l Hi. destruct (decide (i < length lens)%nat) as [Hlt|Hge].
  - rewrite lookup_app_l in Hi by done. destruct (H (Z.of_nat i)) as (e & He & Hd & _); [unfold zlen; lia|]. rewrite Nat2Z.id in He. exists e. split; [done|]. rewrite Hd. unfold len_of. by rewrite Nat2Z.id, Hi.
  - rewrite lookup_app_r in Hi by lia. destruct (i - length lens)%nat eqn:E; [|done]. injection Hi as <-. assert (i = length lens) as -> by lia. by exists g.
Qed.

Lemma cl_valid_ok ops : forall acc, cl_valid acc ops -> Forall cl_ok ops.
Proof. induction ops as [|op ops IH]; intros acc Hv; [constructor|]. destruct Hv as (Hok & _ & Hv). constructor; [done|by eapply IH]. Qed.

(** [send_tree] for a tree with its guard. *)
Lemma send_lens_spec domB lenB huffB s tree lens B : tree_holds tree lens -> guarded tree lens -> lens <> [] -> Forall (fun l => 0 <= l <= 15) lens ->
  Forall (fun op => domB (cl_sym op)) (len_ops lens) -> can_send domB lenB huffB s (ops_bits lenB huffB (len_ops lens) ++ B) ->
  exists s', send_tree s tree (zlen lens - 1) = Ok s' /\ writes s s' (ops_bits lenB huffB (len_ops lens)) /\ can_send domB lenB huffB s' B.
Proof.
  intros Ht Hg Hne Hall Hdom Hcan. destruct (len_ops_expand lens [] Hne Hall) as [_ Hv]. destruct lens as [|l0 rest]; [done|].
  replace (zlen (l0 :: rest) - 1) with (zlen rest) by (rewrite zlen_cons; lia). apply Forall_cons in Hall as [Hl0 _].
  apply (send_tree_spec domB lenB huffB s tree l0 rest 65535 B (tree_lens_guard _ _ Ht Hg) (proj1 Hl0)); [|exact Hcan].
  apply Forall_and. split; [by eapply cl_valid_ok|exact Hdom].
Qed.

(** ** The lengths of the code-length codes *)

Lemma bl_order_eq : bl_order = order.
Proof. reflexivity. Qed.

Lemma send_bl_lens_spec BL ranks : zlen BL = 19 -> Forall (fun l => 0 <= l <= 7) BL -> forall s, tree_holds (d_bl_tree s) BL -> Forall (fun r => 0 <= r < 19) ranks -> out_ok s ->
  nbits s + zlen (lens_bits (len_of BL) ranks) <= room s ->
  exists s', send_bl_lens ranks s = Ok s' /\ writes s s' (lens_bits (len_of BL) ranks).
Proof.
  intros Hz Hall. induction ranks as [|rank ranks IH]; intros s Ht Hr Hok Hroom; [exists s; split; [done|by apply writes_refl]|].
  apply Forall_cons in Hr as [Hr Hrs]. destruct (order_range rank Hr) as [Ho Hor]. destruct (Ht (order_at rank) ltac:(lia)) as (e & He & Hd & _).
  assert (Hlen : 0 <= len_of BL (order_at rank) <= 7) by (unfold len_of; destruct (BL !! Z.to_nat (order_at rank)) as [l|] eqn:E; [exact (Forall_lookup_1 _ _ _ _ Hall E)|cbn; lia]).
  unfold lens_bits in *. cbn [mbind list_bind send_bl_lens] in *. rewrite zlen_app, zlen_zbits in Hroom by lia. match type of Hroom with context [zlen ?x] => pose proof (zlen_nonneg x) end.
  rewrite bl_order_eq, (elem_at_lookup order rank _ ltac:(lia) Ho). cbn [mbind outcome_bind]. rewrite (elem_at_lookup _ (order_at rank) e ltac:(lia) He). cbn [mbind outcome_bind]. rewrite Hd.
  destruct (send_bits_spec s (len_of BL (order_at rank)) 3 Hok ltac:(lia) ltac:(change (2 ^ 3) with 8; lia) ltac:(lia)) as (s1 & H1 & Hw1). rewrite H1. cbn [mbind outcome_bind].
  destruct (writes_room _ _ _ Hw1) as (Hr1 & Hn1 & Hok1). rewrite zlen_zbits in Hn1 by lia.
  destruct (IH s1) as (s2 & H2 & Hw2); [by rewrite (writes_tree _ _ _ Hw1)|done|done|lia|]. exists s2. split; [done|]. by eapply writes_trans.
Qed.

(** ** The block *)

(** The trees of the state are described by [d]. *)
Record trees_ok (s : dst) (d : dyn) : Prop := {
  to_BL : tree_holds (d_bl_tree s) (dy_BL d);
  to_L : tree_holds (d_dyn_ltree s) (dy_L d);
  to_D : tree_holds (d_dyn_dtree s) (dy_D d);
  to_guardL : guarded (d_dyn_ltree s) (dy_L d);
  to_guardD : guarded (d_dyn_dtree s) (dy_D d);
  to_ops : dy_ops d = len_ops (dy_L d) ++ len_ops (dy_D d) }.

Lemma writes_trees s s' B : writes s s' B -> d_bl_tree s' = d_bl_tree s /\ d_dyn_ltree s' = d_dyn_ltree s /\ d_dyn_dtree s' = d_dyn_dtree s /\ d_lit_bufsize s' = d_lit_bufsize s.
Proof. by intros [(b & p & v & n & ->) _ _ _ _ _ _]. Qed.

Lemma trees_ok_writes s s' B d : writes s s' B -> trees_ok s d -> trees_ok s' d.
Proof. intros Hw []. destruct (writes_trees _ _ _ Hw) as (E1 & E2 & E3 & _). split; by rewrite ?E1, ?E2, ?E3. Qed.

(** One [send_bits] after the other. *)
Lemma send_field s v n B : out_ok s -> 0 <= n <= 16 -> 0 <= v < 2 ^ n -> nbits s + zlen (zbits n v ++ B) <= room s ->
  exists s', send_bits s v n = Ok s' /\ writes s s' (zbits n v) /\ nbits s' + zlen B <= room s'.
Proof.
  intros Hok Hn Hv Hroom. rewrite zlen_app, zlen_zbits in Hroom by lia. pose proof (zlen_nonneg B). destruct (send_bits_spec s v n Hok Hn Hv ltac:(lia)) as (s' & H1 & Hw).
  destruct (writes_room _ _ _ Hw) as (Hr & Hb & _). rewrite zlen_zbits in Hb by lia. exists s'. split; [done|]. split; [done|lia].
Qed.

Lemma send_all_trees_spec s d : dyn_ok d -> trees_ok s d -> out_ok s -> nbits s + zlen (trees_bits d) <= room s ->
  exists s', send_all_trees s (zlen (dy_L d)) (zlen (dy_D d)) (dy_ncode d) = Ok s' /\ writes s s' (trees_bits d).
Proof.
  intros [HBL HL HD Hnl Hnd Hnc _ _ Hc _ _] Ht Hok Hroom. pose proof (to_ops _ _ Ht) as Eops. rewrite Eops in Hc. apply Forall_app in Hc as [HcL HcD].
  unfold trees_bits, send_all_trees in *. rewrite Eops, ops_bits_app in *.
  destruct (send_field s (zlen (dy_L d) - 257) 5 _ Hok ltac:(lia) ltac:(change (2 ^ 5) with 32; lia) Hroom) as (s1 & H1 & Hw1 & Hroom1). rewrite H1. cbn [mbind outcome_bind]. destruct (writes_room _ _ _ Hw1) as (_ & _ & Hok1).
  destruct (send_field s1 (zlen (dy_D d) - 1) 5 _ Hok1 ltac:(lia) ltac:(change (2 ^ 5) with 32; lia) Hroom1) as (s2 & H2 & Hw2 & Hroom2). rewrite H2. cbn [mbind outcome_bind]. destruct (writes_room _ _ _ Hw2) as (_ & _ & Hok2).
  destruct (send_field s2 (dy_ncode d - 4) 4 _ Hok2 ltac:(lia) ltac:(change (2 ^ 4) with 16; lia) Hroom2) as (s3 & H3 & Hw3 & Hroom3). rewrite H3. cbn [mbind outcome_bind]. destruct (writes_room _ _ _ Hw3) as (_ & _ & Hok3).
  pose proof (writes_trans _ _ _ _ _ Hok Hw1 (writes_trans _ _ _ _ _ Hok1 Hw2 Hw3)) as W3. pose proof (trees_ok_writes _ _ _ _ W3 Ht) as Ht3. rewrite zlen_app in Hroom3.
  match type of Hroom3 with context [_ + (_ + zlen ?x)] => pose proof (zlen_nonneg x) end.
  destruct (send_bl_lens_spec (dy_BL d) (seqZ 0 (dy_ncode d)) (cc_len _ HBL) (cc_range _ HBL) s3 (to_BL _ _ Ht3)) as (s4 & H4 & Hw4); [apply Forall_forall; intros x Hx; apply elem_of_seqZ in Hx; lia|done|lia|].
  rewrite H4. cbn [mbind outcome_bind]. destruct (writes_room _ _ _ Hw4) as (Hr4 & Hn4 & Hok4). pose proof (trees_ok_writes _ _ _ _ Hw4 Ht3) as Ht4.
  assert (Hbook : codebook (d_bl_tree s4) (coded (dy_BL d) 19) (len_of (dy_BL d)) (huff_code (dy_BL d) 19)) by (rewrite <- (cc_len _ HBL); apply tree_book, (to_BL _ _ Ht4)).
  set (BL := dy_BL d) in *. assert (HneL : dy_L d <> []) by (intros E; rewrite E, zlen_nil in Hnl; lia). assert (HneD : dy_D d <> []) by (intros E; rewrite E, zlen_nil in Hnd; lia).
  destruct (send_lens_spec (coded BL 19) (len_of BL) (huff_code BL 19) s4 (d_dyn_ltree s4) (dy_L d) (ops_bits (len_of BL) (huff_code BL 19) (len_ops (dy_D d))) (to_L _ _ Ht4) (to_guardL _ _ Ht4) HneL (lc_range _ _ HL) HcL) as (s5 & H5 & Hw5 & Hcan5).
  { split; [done|]. split; [exact Hbook|]. lia. }
  rewrite H5. cbn [mbind outcome_bind]. pose proof (trees_ok_writes _ _ _ _ Hw5 Ht4) as Ht5. rewrite <- (app_nil_r (ops_bits _ _ (len_ops (dy_D d)))) in Hcan5.
  destruct (send_lens_spec (coded BL 19) (len_of BL) (huff_code BL 19) s5 (d_dyn_dtree s5) (dy_D d) [] (to_D _ _ Ht5) (to_guardD _ _ Ht5) HneD (lc_range _ _ HD) HcD Hcan5) as (s6 & H6 & Hw6 & _).
  exists s6. split; [exact H6|]. pose proof (writes_trans _ _ _ _ _ Hok W3 (writes_trans _ _ _ _ _ Hok3 Hw4 (writes_trans _ _ _ _ _ Hok4 Hw5 Hw6))) as W. by rewrite <- !app_assoc in W.
Qed.

(** The description is one the decoder accepts. *)
Lemma trees_dyn_ok s BL L D ncode : cl_code BL -> lens_code L (zlen L) -> lens_code D (zlen D) -> 257 <= zlen L <= 286 -> 1 <= zlen D <= 30 -> 4 <= ncode <= 19 ->
  (forall i, ncode <= i < 19 -> len_of BL (order_at i) = 0) -> coded L (zlen L) 256 -> let d := mkDyn BL L D ncode (len_ops L ++ len_ops D) in
  trees_ok s d -> Forall (fun op => coded BL 19 (cl_sym op)) (dy_ops d) -> dyn_ok d.
Proof.
  intros HBL HL HD Hnl Hnd Hnc Hord H256 d Ht Hc. assert (HneL : L <> []) by (intros ->; rewrite zlen_nil in Hnl; lia). assert (HneD : D <> []) by (intros ->; rewrite zlen_nil in Hnd; lia).
  destruct (len_ops_expand L [] HneL (lc_range _ _ HL)) as [EL VL]. destruct (len_ops_expand D L HneD (lc_range _ _ HD)) as [ED VD].
  split; try done; cbn [dy_ops d].
  - apply cl_valid_app. rewrite EL. done.
  - rewrite cl_expand_app, EL. exact ED.
Qed.

Abbreviation dyn_item_bits d := (item_bits (len_of (dy_L d)) (dy_huffL d) (len_of (dy_D d)) (dy_huffD d)).

Lemma dynamic_block_spec s d items last : dyn_ok d -> trees_ok s d -> out_ok s -> tallied s items -> Forall (valid_item (dy_codedL d) (dy_codedD d)) items -> 0 <= last < 2 ->
  overlay_from s (3 + zlen (trees_bits d)) (dyn_item_bits d) items -> nbits s + zlen (dyn_bits last d items) <= room s ->
  exists s', send_dynamic_block s last (zlen (dy_L d)) (zlen (dy_D d)) (dy_ncode d) = Ok (s' <| d_last_eob_len := len_of (dy_L d) END_BLOCK |>) /\ writes s s' (dyn_bits last d items).
Proof.
  intros Hd Ht Hok Htal Hv Hl Hover Hroom. unfold dyn_bits in *. pose proof Hroom as Hroom'. rewrite !zlen_app, zlen_zbits in Hroom' by lia.
  match type of Hroom' with context [_ + (zlen ?a + zlen ?b)] => pose proof (zlen_nonneg a); pose proof (zlen_nonneg b) end.
  destruct (send_field s (last + 4) 3 _ Hok ltac:(lia) ltac:(change (2 ^ 3) with 8; lia) Hroom) as (s1 & H1 & Hw1 & Hroom1). destruct (writes_room _ _ _ Hw1) as (Hr1 & Hn1 & Hok1). rewrite zlen_zbits in Hn1 by lia.
  destruct (send_all_trees_spec s1 d Hd (trees_ok_writes _ _ _ _ Hw1 Ht) Hok1 ltac:(rewrite zlen_app in Hroom1; match type of Hroom1 with context [_ + (_ + zlen ?x)] => pose proof (zlen_nonneg x) end; lia)) as (s2 & H2 & Hw2).
  destruct (writes_room _ _ _ Hw2) as (Hr2 & Hn2 & Hok2). pose proof (writes_trans _ _ _ _ _ Hok Hw1 Hw2) as W2. pose proof (trees_ok_writes _ _ _ _ W2 Ht) as Ht2.
  assert (Htal2 : tallied s2 items).
  { apply (tallied_kept s s2 _ items Hok W2 Htal). intros Hne. pose proof (Hover 0%nat ltac:(destruct items; [done|simpl; lia])) as Hz0. rewrite take_0 in Hz0. cbn in Hz0. change (zlen (@nil bool)) with 0 in Hz0. lia. }
  assert (Hover2 : overlay_ok (len_of (dy_L d)) (dy_huffL d) (len_of (dy_D d)) (dy_huffD d) s2 items).
  { intros i Hi. specialize (Hover i Hi). destruct (writes_trees _ _ _ W2) as (_ & _ & _ & ->). unfold items_bits. lia. }
  destruct (compress_block_spec (d_dyn_ltree s2) (d_dyn_dtree s2) _ _ _ _ _ _ (tree_book _ _ (to_L _ _ Ht2)) (tree_book _ _ (to_D _ _ Ht2)) s2 items Hok2 Htal2 Hv Hover2 (do_end _ Hd)) as (s' & H3 & Hw3).
  { rewrite zlen_app in Hroom1. rewrite Hr2, Hn2. unfold END_BLOCK. lia. }
  exists s'. split.
  - unfold send_dynamic_block. replace (Z.shiftl DYN_TREES 1 + last) with (last + 4) by (change (Z.shiftl DYN_TREES 1) with 4; lia). rewrite H1. cbn [mbind outcome_bind]. rewrite H2. cbn [mbind outcome_bind]. exact H3.
  - pose proof (writes_trans _ _ _ _ _ Hok W2 Hw3) as W. by rewrite <- app_assoc in W.
Qed.
