(* ===== verification/TreesBuild.v ===== *)
(** * Building a tree (3rd/zip/trees.c, build_tree)

    [build_tree] returns for any frequencies; the lengths it leaves are at
    most [max_length], make a complete code, are nonzero for every element
    with a nonzero frequency, and the codes are the canonical ones
    ([build_tree_spec]). *)

From S2P Require Import Prelude Inftrees BitRev Canon InftreesSort InftreesSpec InftreesThm TreesTables TreesCodes TreesHuff TreesHeap TreesCombine TreesStart TreesLens TreesLimit.
From S2P Require Import Trees TreesEmit TreesBlock InfLens InfDynamic TreesDyn.

Section bitlen.
Context (sd : static_desc) (mc : Z) (leaves : list Z).
Context (Hsd : desc_ok sd) (Hmc : mc < sd_elems sd) (Hleaves : Forall (fun x => 0 <= x <= mc) leaves) (Hdup : NoDup leaves) (Htwo : 2 <= zlen leaves).
#[local] Set Default Proof Using "All".

Abbreviation max_length := (sd_max_length sd).
Abbreviation elems := (sd_elems sd).

Lemma elems_small : 1 <= elems <= 286.
Proof. destruct Hsd as [? _ _ _]. lia. Qed.

Lemma leaves_elems : Forall (fun x => 0 <= x < elems) leaves.
Proof. eapply Forall_impl; [exact Hleaves|]. intros x Hx. cbv beta in *. lia. Qed.

(** The nodes of the tree, the root first. *)
Definition tree_nodes (root : Z) (pairs : list (Z * Z)) : Prop :=
  root :: flat pairs ≡ₚ nodes elems leaves (zlen pairs) /\ root = elems + zlen pairs - 1 /\ zlen leaves = zlen pairs + 1.

Lemma flat_leaves root pairs : tree_nodes root pairs -> filter (fun x => x <= mc) (flat pairs) ≡ₚ leaves.
Proof.
  intros (Hp & Hr & Hl). apply (filter_Permutation (fun x => x <= mc)) in Hp. rewrite filter_cons_False in Hp by lia. rewrite Hp. unfold nodes. rewrite filter_app.
  rewrite (filter_leaves sd mc leaves Hsd Hmc Hleaves Hdup Htwo). rewrite (list_filter_none (fun x => x <= mc) (seqZ _ _)); [by rewrite app_nil_r|]. apply Forall_forall. intros x Hx. apply elem_of_seqZ in Hx. lia.
Qed.

(** The lengths [gen_bitlen] leaves. *)
Record good_lens (bl ds : list Z) : Prop := {
  gl_counts : counts bl (lenat ds <$> leaves);
  gl_range : lens_in 1 max_length (lenat ds <$> leaves);
  gl_sum : ksum max_length (lenat ds <$> leaves) = 2 ^ max_length }.

Lemma gen_bitlen_spec tree h root pairs : 0 <= h_heap_max h <= 573 -> zlen (h_heap h) = 573 -> drop (Z.to_nat (h_heap_max h)) (h_heap h) = root :: flat pairs -> tree_nodes root pairs ->
  fathers (dls tree) elems pairs -> 2 * elems <= zlen tree ->
  exists tree' h', gen_bitlen sd mc tree h = Ok (tree', h') /\ zlen tree' = zlen tree /\ good_lens (h_bl_count h') (dls tree') /\ others_kept elems leaves (dls tree) (dls tree').
Proof.
  intros Hm0 Hzh Hdrop Htn Hfa Hz. pose proof elems_small as Hel. pose proof leaves_elems as Hle. pose proof Hsd as [_ [Hmax H2max] _ _]. pose proof Htn as (Hp & Hr & Hl). pose proof (zlen_nonneg pairs).
  pose proof (leaves_count elems leaves Hel Hle Hdup) as Hcount.
  assert (Hlen : h_heap_max h + 1 + 2 * zlen pairs = 573). { apply (f_equal zlen) in Hdrop. rewrite zlen_drop, zlen_cons, zlen_flat in Hdrop by lia. lia. }
  assert (Hroot : h_heap h !! Z.to_nat (h_heap_max h) = Some root) by (rewrite <- (Nat.add_0_r (Z.to_nat _)), <- lookup_drop, Hdrop; done).
  assert (Hnd : NoDup (root :: flat pairs)) by (rewrite Hp; by apply nodes_nodup). apply NoDup_cons in Hnd as [Hrf _].
  destruct (lookup_lt_is_Some_2 tree (Z.to_nat root)) as [e He]; [unfold zlen in Hz; lia|].
  unfold gen_bitlen. set (h0 := h <| h_bl_count := _ |>). change (h_heap h0) with (h_heap h). change (h_heap_max h0) with (h_heap_max h). rewrite (elem_at_lookup (h_heap h) _ root (proj1 Hm0) Hroot). cbn [mbind outcome_bind].
  rewrite (elem_at_lookup tree root e ltac:(lia) He). cbn [mbind outcome_bind]. rewrite elem_set_in by lia. cbn [mbind outcome_bind]. set (tree1 := <[Z.to_nat root := mkCt (fc e) 0]> tree).
  assert (Hd1 : dls tree1 = <[Z.to_nat root := 0]> (dls tree)) by apply dls_insert. assert (Hz1 : zlen tree1 = zlen tree) by apply zlen_insert.
  assert (Hr1 : dls tree1 !! Z.to_nat root = Some 0). { rewrite Hd1. apply list_lookup_insert_eq. rewrite length_zlen, zlen_dls. lia. }
  assert (Hr0 : lenat (dls tree1) root = 0) by (unfold lenat; by rewrite Hr1).
  change HEAP_SIZE with 573. destruct (first_lens_spec sd mc leaves Hsd Hmc Hleaves Hdup Htwo pairs tree1 h0 (h_heap_max h + 1) [root] 0) as (tree2 & h2 & ov & H2 & Hinv & Hz2 & Hh2 & Ho2).
  - change (h_heap h0) with (h_heap h). replace (Z.to_nat (h_heap_max h + 1)) with (Z.to_nat (h_heap_max h) + 1)%nat by lia. by rewrite <- drop_drop, Hdrop.
  - lia.
  - lia.
  - exact Hp.
  - rewrite Hd1. by apply fathers_insert; [lia| |].
  - split.
    + intros x Hx. apply list_elem_of_singleton in Hx as ->. split; [lia|]. exists 0. split; [done|]. split; [lia|]. intros ?. lia.
    + cbn [fmap list_fmap]. rewrite Hr0, ksum_cons, Z.sub_0_r. change (ksum max_length []) with 0. lia.
    + cbn [fmap list_fmap]. pose proof (occ_range max_length [lenat (dls tree1) root]). lia.
    + rewrite filter_cons_False by lia. split; [done|]. intros b Hb. change (h_bl_count h0) with (replicate (Z.to_nat (MAX_BITS + 1)) 0). apply lookup_replicate_2. unfold MAX_BITS. lia.
  - lia.
  - lia.
  - rewrite H2. cbn [mbind outcome_bind]. destruct Hinv as [Hlens Hsum Hocc Hc]. rewrite (filter_leaves sd mc leaves Hsd Hmc Hleaves Hdup Htwo) in Hc.
    assert (Hkept : others_kept elems leaves (dls tree) (dls tree1)).
    { intros x Hx Hxl. rewrite Hd1. apply list_lookup_insert_ne. lia. }
    assert (Hkept2 : others_kept elems leaves (dls tree) (dls tree2)) by (eapply others_kept_trans; done).
    assert (Hrange : lens_in 1 max_length (lenat (dls tree2) <$> leaves)).
    { apply Forall_fmap, Forall_forall. intros x Hx. cbn. destruct (Hlens x Hx) as (_ & l & Hlx & Hlr & Hpos). unfold lenat. rewrite Hlx. cbn. rewrite Forall_forall in Hleaves. specialize (Hleaves _ Hx). cbv beta in Hleaves. lia. }
    destruct (Z.eqb_spec ov 0) as [->|Hov].
    { exists tree2, h2. split; [done|]. split; [congruence|]. split; [split; [done|done|lia]|done]. }
    set (ls := lenat (dls tree2) <$> leaves) in *. assert (Hzls : zlen ls = zlen leaves) by (unfold zlen, ls; by rewrite length_fmap). pose proof (occ_range max_length ls).
    destruct (fix_overflow_spec max_length (Z.to_nat 573) ltac:(lia) h2 ls ov Hc Hrange ltac:(lia) ltac:(lia) Hsum ltac:(lia) ltac:(lia)) as (h3 & ls3 & H3 & Hc3 & Hr3 & Hk3 & Hz3 & Hh3).
    rewrite H3. cbn [mbind outcome_bind]. set (P := take (Z.to_nat (h_heap_max h + 1)) (h_heap h)).
    assert (Hheap : h_heap h3 = P ++ flat pairs ++ []).
    { rewrite Hh3, Hh2. change (h_heap h0) with (h_heap h). rewrite app_nil_r. rewrite <- (take_drop (Z.to_nat (h_heap_max h + 1)) (h_heap h)) at 1. f_equal.
      replace (Z.to_nat (h_heap_max h + 1)) with (Z.to_nat (h_heap_max h) + 1)%nat by lia. by rewrite <- drop_drop, Hdrop. }
    assert (HzP : zlen P = h_heap_max h + 1) by (unfold P, zlen in *; rewrite length_take; lia).
    pose proof (flat_leaves root pairs Htn) as Hfl. assert (Hin : Forall (fun l => l ∈ reverse (seqZ 1 max_length)) ls3).
    { eapply Forall_impl; [exact Hr3|]. intros l Hlr. apply elem_of_reverse, elem_of_seqZ. cbv beta in *. lia. }
    assert (Hhand : handed (reverse (seqZ 1 max_length)) ls3 ≡ₚ ls3) by (apply handed_perm; [rewrite reverse_Permutation; apply NoDup_seqZ|done]).
    destruct (second_lens_spec mc (h_heap h3) P (h_bl_count h3) ls3 (reverse (seqZ 1 max_length)) Hc3 (flat pairs) [] tree2 (h_opt_len h3)) as (tree4 & opt4 & H4 & Hz4 & Hp4 & Ho4).
    + apply Forall_forall. intros b Hb. apply elem_of_reverse, elem_of_seqZ in Hb. lia.
    + exact Hheap.
    + unfold zlen in *. rewrite Hfl, Hhand. lia.
    + rewrite Hfl, Hz2, Hz1. eapply Forall_impl; [exact Hle|]. intros x Hx. cbv beta in *. lia.
    + by rewrite Hfl.
    + rewrite zlen_flat. change HEAP_SIZE with 573. lia.
    + rewrite HzP, zlen_flat, Hlen in H4. rewrite H4. cbn [mbind outcome_bind]. exists tree4, (h3 <| h_opt_len := opt4 |>). split; [done|]. split; [congruence|].
      assert (Hfin : lenat (dls tree4) <$> leaves ≡ₚ ls3) by (rewrite <- Hfl, Hp4; exact Hhand).
      split; [split; cbn|].
      * by eapply counts_perm.
      * by rewrite Hfin.
      * rewrite <- Hk3. by apply ksum_perm.
      * intros x Hx Hxl. rewrite Ho4 by (try lia; by rewrite Hfl). by apply Hkept2.
Qed.
End bitlen.

(** ** The arrays *)

Definition same_arrays (h h' : huff) : Prop := h_heap h' = h_heap h /\ h_depth h' = h_depth h.

Lemma same_arrays_trans a b c : same_arrays a b -> same_arrays b c -> same_arrays a c.
Proof. intros [H1 H2] [H3 H4]. split; congruence. Qed.

Lemma add_count_arrays h bits k h' : add_count h bits k = Ok h' -> same_arrays h h'.
Proof. unfold add_count. intros (c & _ & H)%bind_Ok. apply bind_Ok in H as (b & _ & [= <-]). done. Qed.

Lemma count_leaf_arrays sd h n bits f h' : count_leaf sd h n bits f = Ok h' -> same_arrays h h'.
Proof. unfold count_leaf. intros (x & _ & H)%bind_Ok. destruct (sd_tree sd); [apply bind_Ok in H as (e & _ & [= <-])|injection H as <-]; done. Qed.

Lemma first_lens_arrays sd mc hs : forall tree h ov r, first_lens sd mc hs tree h ov = Ok r -> same_arrays h r.1.2.
Proof.
  induction hs as [|i hs IH]; intros tree h ov r Hr; [by injection Hr as <-|]. cbn [first_lens] in Hr. apply bind_Ok in Hr as (n & _ & Hr). apply bind_Ok in Hr as (e & _ & Hr). apply bind_Ok in Hr as (d & _ & Hr).
  destruct (if sd_max_length sd <? dl d + 1 then _ else _) as [bits ov']. apply bind_Ok in Hr as (t & _ & Hr). destruct (mc <? n); [by eapply IH|].
  apply bind_Ok in Hr as (h1 & H1 & Hr). apply bind_Ok in Hr as (h2 & H2 & Hr). eapply same_arrays_trans; [by eapply add_count_arrays|]. eapply same_arrays_trans; [by eapply count_leaf_arrays|]. by eapply IH.
Qed.

Lemma fix_overflow_arrays m fuel : forall h ov h', fix_overflow fuel m h ov = Ok h' -> same_arrays h h'.
Proof.
  induction fuel as [|fuel IH]; intros h ov h' H; [done|]. cbn [fix_overflow] in H. apply bind_Ok in H as (b & _ & H). apply bind_Ok in H as (h1 & H1 & H). apply bind_Ok in H as (h2 & H2 & H). apply bind_Ok in H as (h3 & H3 & H).
  apply add_count_arrays in H1, H2, H3. assert (Hs : same_arrays h h3) by (eapply same_arrays_trans; [|done]; by eapply same_arrays_trans).
  destruct (0 <? ov - 2); [|by injection H as <-]. eapply same_arrays_trans; [exact Hs|by eapply IH].
Qed.

Lemma gen_bitlen_arrays sd mc tree h r : gen_bitlen sd mc tree h = Ok r -> same_arrays h r.2.
Proof.
  unfold gen_bitlen. intros (x & _ & H)%bind_Ok. apply bind_Ok in H as (e & _ & H). apply bind_Ok in H as (t & _ & H). apply bind_Ok in H as ([[t1 h1] ov] & H1 & H). apply first_lens_arrays in H1. cbn in H1.
  destruct (ov =? 0); [by injection H as <-|]. apply bind_Ok in H as (h2 & H2 & H). apply fix_overflow_arrays in H2. apply bind_Ok in H as ([t2 o2] & _ & [= <-]). by eapply same_arrays_trans.
Qed.

(** ** The codes *)

(** Elements without a code at the end do not change the codes. *)
Lemma code_more lens m n x : 0 <= m <= n -> (forall y, m <= y < n -> len_of lens y = 0) -> 1 <= len_of lens x -> huff_code lens n x = huff_code lens m x.
Proof.
  intros Hmn Hz Hx. unfold huff_code, code_val. do 2 f_equal. replace n with (m + (n - m)) by lia. rewrite seqZ_app, fmap_app, filter_app, ksum_app by lia.
  rewrite (list_filter_none _ (len_of lens <$> seqZ (0 + m) (n - m))); [change (ksum (len_of lens x) []) with 0; lia|].
  apply Forall_fmap, Forall_forall. intros y Hy. apply elem_of_seqZ in Hy. cbn. rewrite Hz by lia. lia.
Qed.

Lemma kraft_more lens m n : 0 <= m <= n -> (forall y, m <= y < n -> len_of lens y = 0) -> kraft lens n = kraft lens m.
Proof.
  intros Hmn Hz. unfold kraft. replace n with (m + (n - m)) at 1 by lia. rewrite seqZ_app by lia. assert (Hend : kraft_upto lens 15 (seqZ (0 + m) (n - m)) = 0).
  { assert (H : forall syms, Forall (fun y => len_of lens y = 0) syms -> kraft_upto lens 15 syms = 0); [|apply H, Forall_forall; intros y Hy; apply elem_of_seqZ in Hy; apply Hz; lia].
    induction 1 as [|y syms Hy _ IH]; [done|]. unfold kraft_upto in *. cbn [foldr]. rewrite IH, Hy. done. }
  unfold kraft_upto in *. rewrite foldr_app, Hend. done.
Qed.

(** The lengths of a range with the leaves in it. *)
Lemma all_lens_perm lens leaves n : NoDup leaves -> Forall (fun x => 0 <= x < n) leaves -> (forall x, 0 <= x < n -> x ∉ leaves -> len_of lens x = 0) ->
  exists k, len_of lens <$> seqZ 0 n ≡ₚ (len_of lens <$> leaves) ++ replicate k 0.
Proof.
  intros Hnd Hr Hz. assert (Hsub : leaves ⊆+ seqZ 0 n). { apply NoDup_submseteq; [done|]. intros x Hx. rewrite Forall_forall in Hr. specialize (Hr _ Hx). apply elem_of_seqZ. lia. }
  apply submseteq_Permutation in Hsub as [rest Hp]. exists (length rest). rewrite Hp, fmap_app. f_equiv. apply Permutation_refl'.
  pose proof (NoDup_seqZ 0 n) as Hnd2. rewrite Hp in Hnd2. apply NoDup_app in Hnd2 as (_ & Hdis & _). rewrite <- (length_fmap (len_of lens) rest). symmetry. apply replicate_as_Forall_2; [done|]. apply Forall_fmap, Forall_forall. intros x Hx. cbn. symmetry. apply Hz.
  - assert (H : x ∈ seqZ 0 n) by (rewrite Hp; apply elem_of_app; by right). apply elem_of_seqZ in H. lia.
  - intros Hxl. by apply (Hdis x).
Qed.

Lemma occ_zeros b k : b <> 0 -> occ b (replicate k 0) = 0.
Proof. intros Hb. induction k as [|k IH]; [done|]. cbn [replicate]. rewrite occ_cons, IH, decide_False by done. done. Qed.

Lemma filter_zeros k : filter (fun x => 1 <= x <= 15) (replicate k 0) = [].
Proof. apply list_filter_none. apply Forall_replicate. lia. Qed.

Section codes.
Context (sd : static_desc) (mc : Z) (leaves : list Z) (tree : list ct_data) (bl : list Z).
Context (Hsd : desc_ok sd) (Hmc : mc < sd_elems sd) (Hleaves : Forall (fun x => 0 <= x <= mc) leaves) (Hdup : NoDup leaves) (Htwo : 2 <= zlen leaves).
Context (Hz : sd_elems sd <= zlen tree) (Hgood : good_lens sd leaves bl (dls tree)).
Context (Hothers : forall x, 0 <= x < sd_elems sd -> x ∉ leaves -> dls tree !! Z.to_nat x = Some 0).
#[local] Set Default Proof Using "All".

(** The first [n] lengths. *)
Definition lens_of (t : list ct_data) (n : Z) : list Z := take (Z.to_nat n) (dls t).

Lemma mc_nonneg : 0 <= mc.
Proof. destruct leaves as [|x l]; [rewrite zlen_nil in Htwo; lia|]. apply Forall_cons in Hleaves as [Hx _]. lia. Qed.

Lemma lens_of_len n : 0 <= n <= sd_elems sd -> zlen (lens_of tree n) = n.
Proof. intros Hn. unfold lens_of. unfold zlen in *. rewrite length_take. unfold dls. rewrite length_fmap. lia. Qed.

Lemma len_of_lenat n x : 0 <= x < n -> len_of (lens_of tree n) x = lenat (dls tree) x.
Proof. intros Hx. unfold len_of, lens_of, lenat. by rewrite lookup_take_lt by lia. Qed.

Lemma leaf_len x : x ∈ leaves -> 1 <= lenat (dls tree) x <= sd_max_length sd.
Proof. intros Hx. destruct Hgood as [_ Hr _]. rewrite Forall_fmap, Forall_forall in Hr. exact (Hr x Hx). Qed.

Lemma other_len x : 0 <= x < sd_elems sd -> x ∉ leaves -> lenat (dls tree) x = 0.
Proof. intros Hx Hn. unfold lenat. by rewrite Hothers. Qed.

Lemma any_len x : 0 <= x < sd_elems sd -> 0 <= lenat (dls tree) x <= sd_max_length sd.
Proof. intros Hx. destruct Hsd as [_ [Hm _] _ _]. destruct (decide (x ∈ leaves)) as [H|H]; [pose proof (leaf_len x H); lia|rewrite other_len by done; lia]. Qed.

Lemma leaf_range x : x ∈ leaves -> 0 <= x <= mc.
Proof. intros Hx. rewrite Forall_forall in Hleaves. exact (Hleaves x Hx). Qed.

Section upto.
Context (n : Z) (Hn : mc + 1 <= n <= sd_elems sd).
Abbreviation L := (lens_of tree n).

Lemma lens_leaves : len_of L <$> leaves = lenat (dls tree) <$> leaves.
Proof. apply list_fmap_ext. intros i x Hi. apply list_elem_of_lookup_2 in Hi. pose proof (leaf_range x Hi). apply len_of_lenat. lia. Qed.

Lemma lens_perm k : mc + 1 <= k <= n -> exists z, len_of L <$> seqZ 0 k ≡ₚ (lenat (dls tree) <$> leaves) ++ replicate z 0.
Proof.
  intros Hk. rewrite <- lens_leaves. apply all_lens_perm; [done| |].
  - eapply Forall_impl; [exact Hleaves|]. intros x Hx. cbv beta in *. lia.
  - intros x Hx Hxl. rewrite len_of_lenat by lia. apply other_len; [lia|done].
Qed.

Lemma lens_kraft k : mc + 1 <= k <= n -> kraft L k = 2 ^ 15.
Proof.
  intros Hk. destruct (lens_perm k Hk) as [z Hp]. destruct Hgood as [_ Hr Hs]. destruct Hsd as [_ [Hm _] _ _]. rewrite <- kraft_filter.
  rewrite (ksum_perm 15 _ _ (filter_Permutation _ _ _ Hp)), filter_app, filter_zeros, app_nil_r. rewrite list_filter_all by (eapply Forall_impl; [exact Hr|]; intros x Hx; cbv beta in *; lia).
  rewrite (ksum_scale (sd_max_length sd) 15 1) by (done || lia). rewrite Hs, <- Z.pow_add_r by lia. f_equal. lia.
Qed.

Lemma lens_range x : 0 <= x < n -> 0 <= len_of L x <= sd_max_length sd.
Proof. intros Hx. rewrite len_of_lenat by done. apply any_len. lia. Qed.

Lemma lens_lens_code : lens_code L n /\ Forall (fun l => 0 <= l <= sd_max_length sd) L.
Proof.
  pose proof mc_nonneg as Hm0. destruct Hsd as [_ [Hm _] _ _]. assert (Hall : Forall (fun l => 0 <= l <= sd_max_length sd) L).
  { apply Forall_lookup. intros i l Hi. pose proof (lookup_lt_Some _ _ _ Hi) as Hlt. pose proof (lens_of_len n ltac:(lia)) as Hzl. pose proof (lens_range (Z.of_nat i) ltac:(unfold zlen in Hzl; lia)) as H.
    unfold len_of in H. by rewrite Nat2Z.id, Hi in H. }
  split; [|exact Hall]. split; [apply lens_of_len; lia| |apply lens_kraft; lia]. eapply Forall_impl; [exact Hall|]. intros l Hl. cbv beta in *. lia.
Qed.

Lemma lens_coded x : x ∈ leaves -> coded L n x.
Proof. intros Hx. pose proof (leaf_range x Hx). pose proof (leaf_len x Hx). destruct Hsd as [_ [Hm _] _ _]. split; [lia|]. rewrite len_of_lenat by lia. lia. Qed.

Lemma gen_codes_holds : exists tree', gen_codes tree mc bl = Ok tree' /\ zlen tree' = zlen tree /\ dls tree' = dls tree /\ tree_holds tree' L.
Proof.
  pose proof mc_nonneg as Hm0. pose proof Hsd as [_ [Hm _] _ _]. pose proof Hgood as [[Hbl Hc] Hr _]. destruct (lens_perm (mc + 1) ltac:(lia)) as [z Hp].
  assert (Hlook : forall x, 0 <= x < zlen tree -> exists e, tree !! Z.to_nat x = Some e /\ dl e = lenat (dls tree) x).
  { intros x Hx. destruct (lookup_lt_is_Some_2 tree (Z.to_nat x)) as [e He]; [rewrite length_zlen; lia|]. exists e. split; [done|]. unfold lenat, dls. by rewrite list_lookup_fmap, He. }
  destruct (gen_codes_spec L (mc + 1) bl ltac:(lia)) with (tree := tree) as (tree' & H1 & Hz' & Hct).
  - intros x Hx. pose proof (lens_range x ltac:(lia)). lia.
  - rewrite lens_kraft by lia. done.
  - change 0%nat with (Z.to_nat 0). rewrite (Hc 0) by lia. f_equal. assert (H : ~ 0 < occ 0 (lenat (dls tree) <$> leaves)); [|pose proof (occ_range 0 (lenat (dls tree) <$> leaves)); lia].
    rewrite occ_pos. intros Hin. rewrite Forall_forall in Hr. specialize (Hr _ Hin). cbv beta in Hr. lia.
  - intros l Hl. rewrite (Hc l) by lia. f_equal. rewrite (occ_perm l _ _ Hp), occ_app, occ_zeros by lia. lia.
  - lia.
  - intros x Hx. destruct (Hlook x ltac:(lia)) as (e & He & Hd). exists e. split; [done|]. by rewrite len_of_lenat by lia.
  - replace (mc + 1 - 1) with mc in H1 by lia. exists tree'. split; [done|]. split; [done|]. assert (Hdl : dls tree' = dls tree).
    { apply list_eq. intros i. unfold dls. rewrite !list_lookup_fmap. destruct (tree !! i) as [e|] eqn:He.
      - destruct (Hct (Z.of_nat i) e ltac:(lia)) as (e' & He' & Hd' & _); [by rewrite Nat2Z.id|]. rewrite Nat2Z.id in He'. rewrite He'. cbn. by rewrite Hd'.
      - apply lookup_ge_None in He. rewrite (proj2 (lookup_ge_None tree' i)); [done|]. unfold zlen in Hz'. lia. }
    split; [done|]. intros x Hx. rewrite (lens_of_len n ltac:(lia)) in *. destruct (Hlook x ltac:(lia)) as (e & He & Hd). destruct (Hct x e ltac:(lia) He) as (e' & He' & Hd' & _ & Hcode). exists e'. split; [done|].
    rewrite Hd', Hd, len_of_lenat by done. split; [done|]. intros Hcd. destruct Hcd as [_ Hcl]. rewrite (code_more L (mc + 1) n); [|lia|intros y Hy; rewrite len_of_lenat by lia; apply other_len; [lia|]; intros Hyl; apply leaf_range in Hyl; lia|lia].
    rewrite len_of_lenat in Hcl by done. apply Hcode; [|lia]. split; [lia|]. destruct (decide (x < mc + 1)) as [Hlt|Hge]; [done|]. rewrite other_len in Hcl; [lia|lia|]. intros Hxl. apply leaf_range in Hxl. lia.
Qed.
End upto.
End codes.

(** ** [build_tree] *)

(** The arrays have [HEAP_SIZE] elements. *)
Definition huff_ok (h : huff) : Prop := zlen (h_heap h) = 573 /\ zlen (h_depth h) = 573.

(** What [build_tree] makes of [tree]. *)
Record built (sd : static_desc) (tree tree' : list ct_data) (mc : Z) : Prop := {
  bt_len : zlen tree' = zlen tree;
  bt_mc : 0 <= mc < sd_elems sd;
  bt_lens : forall n, mc + 1 <= n <= sd_elems sd -> lens_code (lens_of tree' n) n /\ Forall (fun l => 0 <= l <= sd_max_length sd) (lens_of tree' n) /\ tree_holds tree' (lens_of tree' n);
  bt_coded : forall n x, mc + 1 <= n <= sd_elems sd -> 0 <= x < sd_elems sd -> freq tree x <> 0 \/ x = mc -> coded (lens_of tree' n) n x;
  bt_rest : forall x, mc < x < sd_elems sd -> lenat (dls tree') x = 0 }.

Lemma build_tree_spec sd tree h : desc_ok sd -> huff_ok h -> 2 * sd_elems sd + 1 <= zlen tree ->
  exists tree' h' mc, build_tree sd tree h = Ok (tree', h', mc) /\ huff_ok h' /\ built sd tree tree' mc.
Proof.
  intros Hsd [Hzh Hzd] Hz. assert (Hel : 1 <= sd_elems sd <= 286) by (destruct Hsd; lia). unfold build_tree. set (h0 := h <| h_heap_len := 0 |> <| h_heap_max := HEAP_SIZE |>).
  assert (Hok0 : heap_ok h0 tree) by (apply heap_ok_front; [cbn; lia|done|done|constructor]).
  destruct (init_heap_spec (seqZ 0 (sd_elems sd)) tree h0 (-1) Hok0 (NoDup_seqZ _ _)) as (t1 & h1 & H1 & Hok1 & Hf1 & Hm1 & Hl1 & Hz1 & Hfc1 & Hd1).
  { apply Forall_forall. intros x Hx. apply elem_of_seqZ in Hx. split; lia. } { cbn. unfold zlen. rewrite length_seqZ. lia. }
  rewrite H1. cbn [mbind outcome_bind]. destruct (active_leaves tree (sd_elems sd) ltac:(lia)) as [Hls Hact]. set (lv := active tree (seqZ 0 (sd_elems sd))) in *. set (m1 := default (-1) (last lv)) in *.
  assert (Hlv : zlen lv <= sd_elems sd). { unfold lv, active. pose proof (length_filter (fun n => freq tree n <> 0) (seqZ 0 (sd_elems sd))) as H. rewrite length_seqZ in H. unfold zlen. lia. }
  assert (Hm1r : m1 < sd_elems sd). { unfold m1. destruct (last lv) as [m|] eqn:E; [|cbn; lia]. apply last_Some_elem_of, list_elem_of_filter in E as [_ E]. apply elem_of_seqZ in E. cbn. lia. }
  change (front h0) with (@nil Z) in Hf1. change (h_heap_len h0) with 0 in Hl1. pose proof (zlen_nonneg lv).
  destruct (force_codes_spec sd 3 Hsd t1 h1 m1 lv Hok1 Hf1 Hls Hm1r ltac:(lia) ltac:(lia) ltac:(lia)) as (t2 & h2 & mc & lv2 & H2 & Hok2 & Hf2 & Hls2 & Hmc & Hl2 & Hsub & Hm2 & Hz2 & Hd2 & _).
  rewrite H2. cbn [mbind outcome_bind]. change (h_heap_max h0) with 573 in Hm1.
  destruct (heapify_spec t2 (reverse (seqZ 1 (h_heap_len h2 / 2))) h2 Hok2) as (hp3 & H3 & Hok3 & Hf3 & Hb3); [|lia|].
  { apply Forall_forall. intros k Hk. apply elem_of_reverse, elem_of_seqZ in Hk. Z.div_mod_to_equations. lia. }
  cbv zeta in H3. rewrite H3. cbn [mbind outcome_bind]. set (h3 := h2 <| h_heap := hp3 |>) in *. destruct Hls2 as [Hnd Hr Hlast].
  assert (Hle : Forall (fun x => 0 <= x < sd_elems sd) lv2) by (eapply Forall_impl; [exact Hr|]; intros x Hx; cbv beta in *; lia).
  assert (Hzlv : zlen lv2 = h_heap_len h2). { rewrite <- Hf2. apply length_front. destruct Hok2 as [Hl _ [Hzz _]]. lia. }
  assert (Hcb : combined (sd_elems sd) lv2 t2 h3 []).
  { split; [|rewrite Hb3|done|done|change (h_heap_max h3) with (h_heap_max h2); change (zlen (@nil (Z * Z))) with 0; lia].
    - rewrite Hf3, Hf2. unfold nodes. change (flat []) with (@nil Z). change (seqZ (sd_elems sd) (zlen (@nil (Z * Z)))) with (@nil Z). done.
    - unfold back. rewrite Hm2, Hm1. apply drop_ge. destruct Hok2 as [_ _ [Hzz _]]. unfold zlen in Hzz. change (flat []) with (@nil Z). lia. }
  destruct (combine_spec (sd_elems sd) lv2 Hel Hle Hnd (Z.to_nat HEAP_SIZE) t2 h3 []) as (t4 & h4 & pairs & H4 & Hcb4 & Hp4 & Hf4 & Hz4 & Ho4); [change (h_heap_len h3) with (h_heap_len h2); change HEAP_SIZE with 573; lia|lia|done|change (h_heap_len h3) with (h_heap_len h2); lia|].
  rewrite zlen_nil, Z.add_0_r in H4. rewrite H4. cbn [mbind outcome_bind]. pose proof (combined_len _ _ Hel Hle Hnd _ _ _ Hcb4) as Hlen4. destruct Hcb4 as [Hperm Hback Hfa Hok4 Hmax4].
  pose proof Hok4 as [Hl4 Hdep4 [Hzh4 _]]. set (root := sd_elems sd + zlen lv2 - 2) in *. assert (Hl41 : h_heap_len h4 = 1) by lia.
  assert (Hroot : h_heap h4 !! 1%nat = Some root). { unfold front in Hf4. rewrite Hl41 in Hf4. change (Z.to_nat 1) with 1%nat in Hf4. pose proof (f_equal (lookup 0%nat) Hf4) as E. rewrite lookup_take_lt, lookup_drop in E by lia. exact E. }
  rewrite (elem_at_lookup (h_heap h4) SMALLEST root ltac:(done) Hroot). cbn [mbind outcome_bind].
  destruct (push_sorted_spec h4 root ltac:(lia) ltac:(lia) ltac:(lia)) as (hp5 & H5 & Hzh5 & _ & Hb5). cbv zeta in H5. rewrite H5. cbn [mbind outcome_bind]. set (h5 := h4 <| h_heap := hp5 |> <| h_heap_max := _ |>) in *.
  destruct (gen_bitlen_spec sd mc lv2 Hsd Hmc Hr Hnd ltac:(lia) t4 h5 root pairs) as (t6 & h6 & H6 & Hz6 & Hg6 & Ho6).
  - unfold h5. cbn. lia.
  - unfold h5. cbn. lia.
  - unfold back in Hb5. rewrite Hb5. f_equal. exact Hback.
  - split; [|unfold root; lia]. rewrite Hf4 in Hperm. exact Hperm.
  - done.
  - lia.
  - rewrite H6. cbn [mbind outcome_bind]. pose proof (gen_bitlen_arrays _ _ _ _ _ H6) as [Ha1 Ha2]. cbn [snd] in Ha1, Ha2.
    assert (Hothers : forall x, 0 <= x < sd_elems sd -> x ∉ lv2 -> dls t6 !! Z.to_nat x = Some 0).
    { intros x Hx Hxl. rewrite Ho6, Ho4 by done. rewrite Hd2, Hd1 by lia. rewrite decide_True; [done|]. split; [apply elem_of_seqZ; lia|].
      destruct (decide (freq tree x = 0)) as [E|E]; [done|]. exfalso. by apply Hxl, Hsub, Hact. }
    pose proof (gen_codes_holds sd mc lv2 t6 (h_bl_count h6) Hsd Hmc Hr Hnd ltac:(lia) ltac:(lia) Hg6 Hothers) as Hcodes.
    pose proof (mc_nonneg sd mc lv2 t6 (h_bl_count h6) Hsd Hmc Hr Hnd ltac:(lia) ltac:(lia) Hg6 Hothers) as Hmc0.
    destruct (Hcodes (sd_elems sd) ltac:(lia)) as (t7 & H7 & Hz7 & Hd7 & _). rewrite H7. cbn [mbind outcome_bind].
    exists t7, h6, mc. split; [done|]. split; [split; [rewrite Ha1; unfold h5; cbn; lia|rewrite Ha2; exact Hdep4]|].
    assert (Hlo : forall n, lens_of t7 n = lens_of t6 n) by (intros n; unfold lens_of; by rewrite Hd7).
    split; [lia|lia| | |].
    + intros n Hn. rewrite Hlo. destruct (lens_lens_code sd mc lv2 t6 (h_bl_count h6) Hsd Hmc Hr Hnd ltac:(lia) ltac:(lia) Hg6 Hothers n Hn) as [Hlc Hmx]. split; [done|]. split; [done|].
      destruct (Hcodes n Hn) as (t8 & H8 & _ & _ & Hh8). rewrite H7 in H8. by injection H8 as <-.
    + intros n x Hn Hx Hfx. rewrite Hlo. apply (lens_coded sd mc lv2 t6 (h_bl_count h6) Hsd Hmc Hr Hnd ltac:(lia) ltac:(lia) Hg6 Hothers n Hn). destruct Hfx as [Hfx| ->]; [by apply Hsub, Hact|].
      destruct (decide (lv2 = [])) as [->|_]; [rewrite zlen_nil in Hzlv; lia|done].
    + intros x Hx. rewrite Hd7. unfold lenat. rewrite Hothers; [done|lia|]. intros Hxl. rewrite Forall_forall in Hr. specialize (Hr _ Hxl). cbv beta in Hr. lia.
Qed.
