(* ===== verification/TreesScan.v ===== *)
(** * Scanning the code lengths (3rd/zip/trees.c, scan_tree)

    [scan_tree] leaves a nonzero frequency in [bl_tree] for every symbol
    [send_tree] is going to send ([scan_tree_spec]). *)

From S2P Require Import Prelude Inftrees BitRev InftreesSort InftreesSpec InftreesThm TreesTables Trees TreesEmit TreesBlock TreesRuns TreesHuff TreesHeap TreesStart.
From S2P Require Import InfItems InfHeader TreesTally InfLens InfDynamic TreesDyn.

(** The frequencies of [ops] are counted, at most [m] are added to any of them. *)
Record scanned (s s' : dst) (ops : list clop) (m : Z) : Prop := {
  sc_set : exists t, s' = s <| d_bl_tree := t |>;
  sc_len : zlen (d_bl_tree s') = zlen (d_bl_tree s);
  sc_freq : forall x, 0 <= x < 19 -> freq (d_bl_tree s) x <= freq (d_bl_tree s') x <= freq (d_bl_tree s) x + m;
  sc_used : Forall (fun op => 1 <= freq (d_bl_tree s') (cl_sym op)) ops }.

(** There is room for [m] more. *)
Definition can_scan (s : dst) (m : Z) : Prop := 19 <= zlen (d_bl_tree s) /\ forall x, 0 <= x < 19 -> 0 <= freq (d_bl_tree s) x /\ freq (d_bl_tree s) x + m < 65536.

Lemma scanned_refl s m : 0 <= m -> scanned s s [] m.
Proof. intros Hm. split; [exists (d_bl_tree s); by destruct s|done|intros; lia|constructor]. Qed.

Lemma cl_ok_sym op : cl_ok op -> 0 <= cl_sym op < 19.
Proof. destruct op; cbn; lia. Qed.

Lemma scanned_trans s s1 s2 a b m n : Forall cl_ok a -> scanned s s1 a m -> scanned s1 s2 b n -> scanned s s2 (a ++ b) (m + n).
Proof.
  intros Ha [[t1 ->] L1 F1 U1] [[t2 ->] L2 F2 U2]. cbn in *. split; cbn; [by exists t2|congruence| |].
  - intros x Hx. specialize (F1 x Hx). specialize (F2 x Hx). lia.
  - apply Forall_app. split; [|done]. rewrite Forall_forall in *. intros op Hop. specialize (U1 _ Hop). specialize (F2 _ (cl_ok_sym _ (Ha _ Hop))). lia.
Qed.

Lemma can_scan_next s s' ops m n : can_scan s (m + n) -> scanned s s' ops m -> can_scan s' n.
Proof. intros [Hz Hf] [_ L F _]. split; [lia|]. intros x Hx. specialize (Hf x Hx). specialize (F x Hx). lia. Qed.

Lemma can_scan_less s m n : can_scan s m -> n <= m -> can_scan s n.
Proof. intros [Hz Hf] Hn. split; [done|]. intros x Hx. specialize (Hf x Hx). lia. Qed.

Lemma freq_insert t n e x : 0 <= n < zlen t -> 0 <= x -> freq (<[Z.to_nat n := e]> t) x = if decide (x = n) then fc e else freq t x.
Proof.
  intros Hn Hx. unfold freq, fcs. rewrite list_fmap_insert. destruct (decide (x = n)) as [->|Hne].
  - rewrite list_lookup_insert_eq; [done|]. rewrite length_fmap, length_zlen. lia.
  - by rewrite list_lookup_insert_ne by lia.
Qed.

(** A symbol is counted [k] times. *)
Lemma add_freq_spec s op k : can_scan s k -> cl_ok op -> 1 <= k ->
  exists s', add_freq s (cl_sym op) k = Ok s' /\ scanned s s' [op] k /\ forall x, 0 <= x -> freq (d_bl_tree s') x = if decide (x = cl_sym op) then freq (d_bl_tree s) x + k else freq (d_bl_tree s) x.
Proof.
  intros [Hz Hf] Hop Hk. pose proof (cl_ok_sym _ Hop) as Hn. set (n := cl_sym op) in *. specialize (Hf n Hn) as Hfn. destruct (lookup_lt_is_Some_2 (d_bl_tree s) (Z.to_nat n)) as [e He]; [rewrite length_zlen; lia|].
  rewrite (freq_lookup _ _ _ He) in Hfn. unfold add_freq. rewrite (elem_at_lookup _ n e) by (done || lia). cbn [mbind outcome_bind]. rewrite u16_small by (unfold is_u16; change (2 ^ 16) with 65536; lia).
  rewrite elem_set_in by lia. cbn [mbind outcome_bind]. eexists. split; [done|]. assert (Hfr : forall x, 0 <= x -> freq (<[Z.to_nat n := mkCt (fc e + k) (dl e)]> (d_bl_tree s)) x = if decide (x = n) then freq (d_bl_tree s) x + k else freq (d_bl_tree s) x).
  { intros x Hx. rewrite freq_insert by lia. destruct (decide (x = n)) as [->|]; [|done]. by rewrite (freq_lookup _ _ _ He). }
  split; [|exact Hfr]. split; cbn; [by eexists|apply zlen_insert| |].
  - intros x Hx. rewrite Hfr by lia. destruct (decide (x = n)); lia.
  - constructor; [|constructor]. fold n. rewrite Hfr, decide_True, (freq_lookup _ _ _ He) by (done || lia). lia.
Qed.

Lemma scanned_more s s' ops m n : m <= n -> scanned s s' ops m -> scanned s s' ops n.
Proof. intros Hmn [S L F U]. split; [done|done| |done]. intros x Hx. specialize (F x Hx). lia. Qed.

Lemma scan_one s op m : 1 <= m -> can_scan s m -> cl_ok op -> exists s', add_freq s (cl_sym op) 1 = Ok s' /\ scanned s s' [op] 1.
Proof. intros Hm Hcan Hop. destruct (add_freq_spec s op 1 (can_scan_less _ _ 1 Hcan Hm) Hop ltac:(lia)) as (s' & H1 & Hs & _). by exists s'. Qed.

Lemma scan_emit_spec s cur prev count min_count : 1 <= count -> can_scan s count -> Forall cl_ok (run_ops cur prev count min_count) ->
  exists s', scan_emit s cur prev count min_count = Ok s' /\ scanned s s' (run_ops cur prev count min_count) count.
Proof.
  intros Hc Hcan Hall. unfold scan_emit, run_ops in *. destruct (count <? min_count).
  - destruct (Z.to_nat count) as [|n] eqn:En; [lia|]. apply Forall_cons in Hall as [Hop _]. destruct (add_freq_spec s (Single cur) count Hcan Hop Hc) as (s' & H1 & [S L F U] & _). exists s'. split; [exact H1|].
    apply Forall_cons in U as [U _]. split; [done|done|done|]. by apply Forall_replicate.
  - destruct (negb (cur =? 0)); [destruct (negb (cur =? prev))|destruct (count <=? 10)]; apply Forall_cons in Hall as [Hop Hall].
    + apply Forall_cons in Hall as [Hop2 _]. assert (Hc4 : 4 <= count) by (cbn in Hop2; lia). destruct (scan_one s (Single cur) count Hc Hcan Hop) as (s1 & H1 & Hs1). cbn [cl_sym] in H1. rewrite H1. cbn [mbind outcome_bind].
      pose proof (can_scan_next s s1 [Single cur] 1 (count - 1) ltac:(by replace (1 + (count - 1)) with count by lia) Hs1) as Hcan1.
      destruct (scan_one s1 (Rep (count - 4)) (count - 1) ltac:(lia) Hcan1 Hop2) as (s2 & H2 & Hs2). exists s2. split; [exact H2|]. apply (scanned_more _ _ _ (1 + 1)); [lia|].
      apply (scanned_trans s s1 s2 [Single cur] [Rep (count - 4)]); [by constructor|done|done].
    + destruct (scan_one s (Rep (count - 3)) count Hc Hcan Hop) as (s1 & H1 & Hs1). exists s1. split; [exact H1|]. by apply (scanned_more _ _ _ 1).
    + destruct (scan_one s (Zeros3 (count - 3)) count Hc Hcan Hop) as (s1 & H1 & Hs1). exists s1. split; [exact H1|]. by apply (scanned_more _ _ _ 1).
    + destruct (scan_one s (Zeros11 (count - 11)) count Hc Hcan Hop) as (s1 & H1 & Hs1). exists s1. split; [exact H1|]. by apply (scanned_more _ _ _ 1).
Qed.

(** The loop over a tree. *)
Lemma scan_loop_spec tree next : forall n r s, 0 <= n -> 0 <= r_count r -> (forall i l, next !! i = Some l -> exists e, tree !! (Z.to_nat (n + 1) + i)%nat = Some e /\ dl e = l) ->
  Forall cl_ok (tree_ops next r) -> can_scan s (r_count r + zlen next) ->
  exists s', run_loop scan_emit tree (seqZ n (zlen next)) r s = Ok s' /\ scanned s s' (tree_ops next r) (r_count r + zlen next).
Proof.
  induction next as [|l next IH]; intros n r s Hn Hc Hl Hall Hcan.
  - exists s. split; [done|]. apply scanned_refl. change (zlen (@nil Z)) with 0. lia.
  - rewrite zlen_cons in *. pose proof (zlen_nonneg next). rewrite seqZ_cons by lia. replace (Z.pred (1 + zlen next)) with (zlen next) by lia.
    destruct (Hl 0%nat l eq_refl) as (e & He & <-). cbn [run_loop]. rewrite Nat.add_0_r in He. rewrite (elem_at_lookup tree (n + 1) e) by (done || lia). cbn [mbind outcome_bind].
    assert (Hl' : forall i l, next !! i = Some l -> exists e, tree !! (Z.to_nat (Z.succ n + 1) + i)%nat = Some e /\ dl e = l).
    { intros i l Hi. replace (Z.to_nat (Z.succ n + 1) + i)%nat with (Z.to_nat (n + 1) + S i)%nat by lia. by apply (Hl (S i)). }
    cbn [tree_ops] in *. destruct ((r_count r + 1 <? r_max r) && (r_nextlen r =? dl e)) eqn:Eg.
    + destruct (IH (Z.succ n) (mkRun (r_prevlen r) (dl e) (r_count r + 1) (r_max r) (r_min r)) s ltac:(lia) ltac:(cbn; lia) Hl' Hall) as (s' & H1 & H2); cbn [r_count] in *.
      * by replace (r_count r + 1 + zlen next) with (r_count r + (1 + zlen next)) by lia.
      * exists s'. split; [exact H1|]. by replace (r_count r + (1 + zlen next)) with (r_count r + 1 + zlen next) by lia.
    + apply Forall_app in Hall as [Ha1 Ha2]. replace (r_count r + (1 + zlen next)) with (r_count r + 1 + zlen next) in * by lia.
      destruct (scan_emit_spec s (r_nextlen r) (r_prevlen r) (r_count r + 1) (r_min r) ltac:(lia) (can_scan_less _ _ (r_count r + 1) Hcan ltac:(lia)) Ha1) as (s1 & H1 & Hs1). rewrite H1. cbn [mbind outcome_bind].
      pose proof (proj1 (proj2 (proj2 (run_reset_fields (r_nextlen r) (dl e))))) as E0.
      destruct (IH (Z.succ n) (run_reset (r_nextlen r) (dl e)) s1 ltac:(lia) ltac:(lia) Hl' Ha2) as (s2 & H2 & Hs2); [rewrite E0, Z.add_0_l; by eapply can_scan_next|].
      rewrite E0, Z.add_0_l in Hs2. exists s2. split; [done|]. by eapply scanned_trans.
Qed.

(** [scan_tree] for a tree with the lengths [lens], which sets the guard behind them. *)
Lemma scan_tree_spec s tree lens g : lens <> [] -> Forall (fun l => 0 <= l <= 15) lens -> tree_holds tree lens -> tree !! length lens = Some g -> can_scan s (zlen lens) ->
  let tree' := <[length lens := mkCt (fc g) 65535]> tree in
  exists s', scan_tree s tree (zlen lens - 1) = Ok (tree', s') /\ scanned s s' (len_ops lens) (zlen lens) /\ tree_holds tree' lens /\ guarded tree' lens.
Proof.
  intros Hne Hall Ht Hg Hcan tree'. pose proof (lookup_lt_Some _ _ _ Hg) as Hlt. assert (Hgu : guarded tree' lens) by (eexists; split; [apply list_lookup_insert_eq; done|done]).
  assert (Ht' : tree_holds tree' lens). { intros x Hx. destruct (Ht x Hx) as (e & He & Hd). exists e. split; [|done]. unfold tree'. rewrite list_lookup_insert_ne; [done|]. unfold zlen in Hx. lia. }
  destruct (len_ops_expand lens [] Hne Hall) as [_ Hv]. apply cl_valid_ok in Hv. pose proof (tree_lens_guard tree' lens Ht' Hgu) as Hlens.
  unfold scan_tree. destruct lens as [|l0 rest]; [done|]. rewrite zlen_cons in *. pose proof (zlen_nonneg rest). replace (1 + zlen rest - 1) with (zlen rest) in * by lia.
  destruct (Ht 0 ltac:(rewrite zlen_cons; lia)) as (e0 & He0 & Hd0 & _). rewrite (elem_at_lookup tree 0 e0 ltac:(done) He0). cbn [mbind outcome_bind].
  assert (Ei : Z.to_nat (zlen rest + 1) = length (l0 :: rest)) by (unfold zlen; cbn [length]; lia). rewrite (elem_at_lookup tree (zlen rest + 1) g ltac:(lia) ltac:(by rewrite Ei)). cbn [mbind outcome_bind].
  rewrite elem_set_in by (unfold zlen in *; cbn [length] in Hlt; lia). cbn [mbind outcome_bind]. rewrite Ei. fold tree'.
  assert (Hs : run_start (dl e0) = run_reset (-1) l0).
  { rewrite Hd0. change (len_of (l0 :: rest) 0) with l0. apply Forall_cons in Hall as [Hl0 _]. unfold run_start, run_reset. destruct (l0 =? 0); [done|]. by rewrite (proj2 (Z.eqb_neq (-1) l0)) by lia. }
  rewrite Hs. pose proof (proj1 (proj2 (proj2 (run_reset_fields (-1) l0)))) as E0. replace (zlen rest + 1) with (zlen (rest ++ [65535])) by (rewrite zlen_app, zlen_cons, (@zlen_nil Z); lia).
  destruct (scan_loop_spec tree' (rest ++ [65535]) 0 (run_reset (-1) l0) s ltac:(lia) ltac:(lia)) as (s' & H1 & Hs').
  - intros i l Hi. exact (Hlens (S i) l Hi).
  - exact Hv.
  - rewrite E0, zlen_app, zlen_cons, (@zlen_nil Z). by replace (0 + (zlen rest + (1 + 0))) with (1 + zlen rest) by lia.
  - rewrite H1. cbn [mbind outcome_bind]. exists s'. split; [done|]. split; [|done]. rewrite E0, zlen_app, zlen_cons, (@zlen_nil Z) in Hs'. by replace (0 + (zlen rest + (1 + 0))) with (1 + zlen rest) in Hs' by lia.
Qed.
