(* ===== verification/TreesFlush.v ===== *)
(** * Choosing and sending a block (3rd/zip/trees.c, deflate.c)

    [_tr_flush_block] builds the three trees, estimates the lengths of the
    block with dynamic trees, with static trees and stored, and sends the
    shortest; [flush_pending] hands the bytes to the stream.

    [enc] is the [deflate_state]: the fields of the output and the tally
    ([dst]), those of [build_tree] ([huff]), [max_code] of the three
    [tree_desc], [level] and [strategy], and [data_type] of its stream. *)

From S2P Require Import Prelude Inftrees TreesTables TreesHuff Trees.

Record enc := mkEnc {
  e_dst : dst; e_huff : huff; e_l_max : Z; e_d_max : Z; e_bl_max : Z; e_level : Z; e_strategy : Z; e_data_type : Z }.

#[export] Instance eta_enc : Eta enc := fun s => mkEnc (e_dst s) (e_huff s) (e_l_max s) (e_d_max s) (e_bl_max s) (e_level s) (e_strategy s) (e_data_type s).

Definition Z_FIXED : Z := 4.
Definition Z_BINARY : Z := 0.
Definition Z_TEXT : Z := 1.
Definition Z_UNKNOWN : Z := 2.

(** A step that changes the output and the tally only. *)
Definition on_dst (f : dst -> outcome dst) (s : enc) : outcome enc :=
  d ← f (e_dst s);
  Ok (s <| e_dst := d |>).

(** ** The blocks *)

Definition init_block (s : enc) : outcome enc :=
  let d := e_dst s in
  lt ← zero_freqs (seqZ 0 L_CODES) (d_dyn_ltree d);
  dt ← zero_freqs (seqZ 0 D_CODES) (d_dyn_dtree d);
  bt ← zero_freqs (seqZ 0 BL_CODES) (d_bl_tree d);
  e ← elem_at lt END_BLOCK;
  lt ← elem_set lt END_BLOCK (mkCt 1 (dl e));
  Ok (s <| e_dst := d <| d_dyn_ltree := lt |> <| d_dyn_dtree := dt |> <| d_bl_tree := bt |> <| d_last_lit := 0 |> <| d_matches := 0 |> |>
        <| e_huff := (e_huff s) <| h_opt_len := 0 |> <| h_static_len := 0 |> |>).

Definition _tr_init (s : enc) : outcome enc :=
  init_block (s <| e_dst := (e_dst s) <| d_bi_buf := 0 |> <| d_bi_valid := 0 |> <| d_last_eob_len := 8 |> |>).

(** The first [n] from [n] on with a nonzero frequency, or the end. *)
Fixpoint first_used (tree : list ct_data) (fuel : nat) (n last : Z) : outcome Z :=
  match fuel with
  | O => Crash OutOfFuel
  | S fuel =>
      if n <? last then e ← elem_at tree n; if negb (fc e =? 0) then Ok n else first_used tree fuel (n + 1) last
      else Ok n
  end.

Definition set_data_type (s : enc) : outcome enc :=
  let t := d_dyn_ltree (e_dst s) in
  n ← first_used t 10 0 9;
  n ← (if n =? 9 then first_used t 19 14 32 else Ok n);
  Ok (s <| e_data_type := if n =? 32 then Z_TEXT else Z_BINARY |>).

(** [build_tree(s, &(s->l_desc))] and [build_tree(s, &(s->d_desc))] *)
Definition build_ltree (s : enc) : outcome enc :=
  '(t, h, mc) ← build_tree static_l_desc (d_dyn_ltree (e_dst s)) (e_huff s);
  Ok (s <| e_dst := (e_dst s) <| d_dyn_ltree := t |> |> <| e_huff := h |> <| e_l_max := mc |>).
Definition build_dtree (s : enc) : outcome enc :=
  '(t, h, mc) ← build_tree static_d_desc (d_dyn_dtree (e_dst s)) (e_huff s);
  Ok (s <| e_dst := (e_dst s) <| d_dyn_dtree := t |> |> <| e_huff := h |> <| e_d_max := mc |>).

(** [for (max_blindex = BL_CODES-1; max_blindex >= 3; max_blindex--) ...] *)
Fixpoint last_blindex (fuel : nat) (bl_tree : list ct_data) (i : Z) : outcome Z :=
  match fuel with
  | O => Crash OutOfFuel
  | S fuel =>
      if 3 <=? i then
        o ← elem_at bl_order i;
        e ← elem_at bl_tree o;
        if negb (dl e =? 0) then Ok i else last_blindex fuel bl_tree (i - 1)
      else Ok i
  end.

(** [build_bl_tree(s)]: the state and [max_blindex] *)
Definition build_bl_tree (s : enc) : outcome (enc * Z) :=
  let d := e_dst s in
  '(lt, d) ← scan_tree d (d_dyn_ltree d) (e_l_max s);
  let d := d <| d_dyn_ltree := lt |> in
  '(dt, d) ← scan_tree d (d_dyn_dtree d) (e_d_max s);
  let d := d <| d_dyn_dtree := dt |> in
  '(t, h, mc) ← build_tree static_bl_desc (d_bl_tree d) (e_huff s);
  max_blindex ← last_blindex 20 t (BL_CODES - 1);
  let h := h <| h_opt_len := u32 (h_opt_len h + (3 * (max_blindex + 1) + 5 + 5 + 4)) |> in
  Ok (s <| e_dst := d <| d_bl_tree := t |> |> <| e_huff := h |> <| e_bl_max := mc |>, max_blindex).

(** How a block is sent. *)
Inductive choice := Stored (buf : list Z) | Static | Dynamic (lcodes dcodes blcodes : Z).

(** The first half of [_tr_flush_block]: the trees and the choice.  [buf] is
    the memory from the beginning of the block on, or [NULL]. *)
Definition choose_block (s : enc) (buf : option (list Z)) (stored_len : Z) : outcome (enc * choice) :=
  '(s, max_blindex, opt_lenb, static_lenb) ←
    (if 0 <? e_level s then
       s ← (if (0 <? stored_len) && (e_data_type s =? Z_UNKNOWN) then set_data_type s else Ok s);
       s ← build_ltree s;
       s ← build_dtree s;
       '(s, max_blindex) ← build_bl_tree s;
       let opt_lenb := Z.shiftr (u32 (h_opt_len (e_huff s) + 3 + 7)) 3 in
       let static_lenb := Z.shiftr (u32 (h_static_len (e_huff s) + 3 + 7)) 3 in
       Ok (s, max_blindex, if static_lenb <=? opt_lenb then static_lenb else opt_lenb, static_lenb)
     else Ok (s, 0, u32 (stored_len + 5), u32 (stored_len + 5)));
  match buf with
  | Some buf =>
      if u32 (stored_len + 4) <=? opt_lenb then b ← read_at buf 0 stored_len; Ok (s, Stored b)
      else if (e_strategy s =? Z_FIXED) || (static_lenb =? opt_lenb) then Ok (s, Static)
      else Ok (s, Dynamic (e_l_max s + 1) (e_d_max s + 1) (max_blindex + 1))
  | None =>
      if (e_strategy s =? Z_FIXED) || (static_lenb =? opt_lenb) then Ok (s, Static)
      else Ok (s, Dynamic (e_l_max s + 1) (e_d_max s + 1) (max_blindex + 1))
  end.

(** The second half. *)
Definition send_choice (s : dst) (c : choice) (eof : Z) : outcome dst :=
  match c with
  | Stored buf => _tr_stored_block s buf eof
  | Static => send_static_block s eof
  | Dynamic lcodes dcodes blcodes => send_dynamic_block s eof lcodes dcodes blcodes
  end.

Definition _tr_flush_block (s : enc) (buf : option (list Z)) (stored_len eof : Z) : outcome enc :=
  '(s, c) ← choose_block s buf stored_len;
  s ← on_dst (fun d => send_choice d c eof) s;
  s ← init_block s;
  if negb (eof =? 0) then on_dst bi_windup s else Ok s.

(** ** The stream *)

(** [pending_out] as an index of [pending_buf], the bytes written to [next_out]
    and [avail_out]. *)
Record strm := mkStrm { z_state : enc; z_pending_out : Z; z_out : list Z; z_avail_out : Z }.

#[export] Instance eta_strm : Eta strm := fun z => mkStrm (z_state z) (z_pending_out z) (z_out z) (z_avail_out z).

Definition flush_pending (z : strm) : outcome strm :=
  let d := e_dst (z_state z) in
  let len := d_pending d in
  let len := if z_avail_out z <? len then z_avail_out z else len in
  if len =? 0 then Ok z
  else
    bytes ← read_at (d_pending_buf d) (z_pending_out z) len;
    let z := z <| z_out := z_out z ++ bytes |> <| z_pending_out := z_pending_out z + len |> <| z_avail_out := z_avail_out z - len |>
               <| z_state := (z_state z) <| e_dst := d <| d_pending := d_pending d - len |> |> |> in
    if d_pending (e_dst (z_state z)) =? 0 then Ok (z <| z_pending_out := 0 |>) else Ok z.

(** [FLUSH_BLOCK_ONLY(s, eof)]; the block is [stored_len] bytes of the window,
    [buf] is [NULL] when its beginning has left the window. *)
Definition flush_block_only (z : strm) (buf : option (list Z)) (stored_len eof : Z) : outcome strm :=
  s ← _tr_flush_block (z_state z) buf stored_len eof;
  flush_pending (z <| z_state := s |>).
