(* ===== verification/TreesFreq.v ===== *)
(** * The frequencies of a block (3rd/zip/trees.c, _tr_tally, init_block)

    [init_block] clears the frequencies but for the end-of-block code
    ([init_block_spec]); every literal and match that is tallied then has
    nonzero frequencies ([tally_items_freqs]). *)

From S2P Require Import Prelude Inftrees BitRev InftreesSort InftreesSpec InftreesThm TreesTables TreesHuff TreesHeap TreesStart Trees TreesEmit TreesBlock InfItems InfHeader TreesTally.
From S2P Require Import TreesRuns InfLens InfDynamic TreesDyn TreesScan TreesLimit TreesBuild TreesFlush.

(** The frequencies of the items, and a bound on all of them. *)
Record freqs (s : dst) (items : list (Z * Z)) : Prop := {
  fq_ok : Forall lz_ok items;
  fq_end : 1 <= freq (d_dyn_ltree s) END_BLOCK;
  fq_lit : forall it, it ∈ items -> it.1 = 0 -> 1 <= freq (d_dyn_ltree s) it.2;
  fq_match : forall it, it ∈ items -> it.1 <> 0 -> 1 <= freq (d_dyn_ltree s) (length_code it.2 + 257) /\ 1 <= freq (d_dyn_dtree s) (dist_code (it.1 - 1));
  fq_lbound : forall x, 0 <= x < 286 -> 0 <= freq (d_dyn_ltree s) x <= zlen items + 1;
  fq_dbound : forall x, 0 <= x < 30 -> 0 <= freq (d_dyn_dtree s) x <= zlen items }.

(** ** Tallying *)

Lemma elem_at_inv {X} (l : list X) i x : elem_at l i = Ok x -> 0 <= i /\ l !! Z.to_nat i = Some x.
Proof. unfold elem_at. destruct (Z.ltb_spec i 0); [done|]. destruct (l !! Z.to_nat i); [|done]. intros [= ->]. done. Qed.

Lemma bump_freq_inv t n t' : bump_freq t n = Ok t' -> 0 <= freq t n < 65535 ->
  0 <= n < zlen t /\ zlen t' = zlen t /\ forall x, 0 <= x -> freq t' x = if decide (x = n) then freq t x + 1 else freq t x.
Proof.
  unfold bump_freq. intros (e & He & H)%bind_Ok Hf. apply elem_at_inv in He as [Hn He]. pose proof (lookup_lt_Some _ _ _ He) as Hlt.
  assert (Hnz : 0 <= n < zlen t) by (unfold zlen; lia). rewrite (freq_lookup _ _ _ He) in Hf. rewrite elem_set_in in H by done. injection H as <-. rewrite u16_small by (unfold is_u16; change (2 ^ 16) with 65536; lia).
  split; [done|]. split; [apply zlen_insert|]. intros x Hx. rewrite freq_insert by done. destruct (decide (x = n)) as [->|]; [|done]. by rewrite (freq_lookup _ _ _ He).
Qed.

(** What [_tr_tally] does to the trees. *)
Lemma tally_trees s it s' b : lz_ok it -> _tr_tally s it.1 it.2 = Ok (s', b) ->
  d_bl_tree s' = d_bl_tree s /\
  (it.1 = 0 /\ bump_freq (d_dyn_ltree s) it.2 = Ok (d_dyn_ltree s') /\ d_dyn_dtree s' = d_dyn_dtree s
   \/ it.1 <> 0 /\ bump_freq (d_dyn_ltree s) (length_code it.2 + 257) = Ok (d_dyn_ltree s') /\ bump_freq (d_dyn_dtree s) (dist_code (it.1 - 1)) = Ok (d_dyn_dtree s')).
Proof.
  intros [Hlc Hd] H. unfold _tr_tally in H. apply bind_Ok in H as (s1 & H1 & H). apply bind_Ok in H as (s2 & H2 & H).
  assert (E1 : d_dyn_ltree s2 = d_dyn_ltree s /\ d_dyn_dtree s2 = d_dyn_dtree s /\ d_bl_tree s2 = d_bl_tree s).
  { unfold set_d_buf in H1. apply bind_Ok in H1 as (? & _ & H1). apply bind_Ok in H1 as (? & _ & [= <-]). unfold set_l_buf in H2. by apply bind_Ok in H2 as (? & _ & [= <-]). }
  destruct E1 as (El & Ed & Eb). apply bind_Ok in H as (s3 & H3 & [= <- _]). destruct (Z.eqb_spec it.1 0) as [E0|E0].
  - apply bind_Ok in H3 as (t & Ht & [= <-]). cbn in *. split; [done|]. left. rewrite <- El. done.
  - apply bind_Ok in H3 as (c & Hc & H3). apply bind_Ok in H3 as (t & Ht & H3). apply bind_Ok in H3 as (dc & Hdc & H3). apply bind_Ok in H3 as (t' & Ht' & [= <-]). cbn in *. split; [done|]. right.
    rewrite (lookup_table length_code_table it.2 0) in Hc by (change (zlen length_code_table) with 256; lia). injection Hc as <-. rewrite d_code_eq in Hdc by lia. injection Hdc as <-.
    rewrite <- El, <- Ed. unfold LITERALS in Ht. fold (length_code it.2) in Ht. replace (length_code it.2 + 256 + 1) with (length_code it.2 + 257) in Ht by lia. done.
Qed.

(** A frequency only grows. *)
Lemma bump_freq_mono t n t' : bump_freq t n = Ok t' -> 0 <= freq t n < 65535 -> zlen t' = zlen t /\ 1 <= freq t' n /\ forall x, 0 <= x -> freq t x <= freq t' x <= freq t x + 1.
Proof.
  intros H Hf. destruct (bump_freq_inv _ _ _ H Hf) as (Hn & Hz & Hx). split; [done|]. split; [rewrite Hx, decide_True by (done || lia); lia|]. intros x Hx0. rewrite Hx by done. destruct (decide _); lia.
Qed.

Lemma tally_freqs s items it s' b : lz_ok it -> freqs s items -> zlen items < 65534 -> _tr_tally s it.1 it.2 = Ok (s', b) ->
  freqs s' (items ++ [it]) /\ zlen (d_dyn_ltree s') = zlen (d_dyn_ltree s) /\ zlen (d_dyn_dtree s') = zlen (d_dyn_dtree s) /\ d_bl_tree s' = d_bl_tree s.
Proof.
  intros Hit [Hok He Hl Hm HbL HbD] Hz H. apply (tally_trees _ _ _ _ Hit) in H as [Hb H]. pose proof (lz_codes it Hit) as Hcodes. pose proof (zlen_nonneg items).
  assert (Hz1 : zlen (items ++ [it]) = zlen items + 1) by (rewrite zlen_app, zlen_cons; change (zlen (@nil (Z * Z))) with 0; lia).
  assert (Hgrow : exists cL, (it.1 = 0 -> cL = it.2) /\ (it.1 <> 0 -> cL = length_code it.2 + 257) /\ zlen (d_dyn_ltree s') = zlen (d_dyn_ltree s) /\ 1 <= freq (d_dyn_ltree s') cL
    /\ (forall x, 0 <= x -> freq (d_dyn_ltree s) x <= freq (d_dyn_ltree s') x <= freq (d_dyn_ltree s) x + 1)
    /\ zlen (d_dyn_dtree s') = zlen (d_dyn_dtree s) /\ (it.1 <> 0 -> 1 <= freq (d_dyn_dtree s') (dist_code (it.1 - 1)))
    /\ (forall x, 0 <= x -> freq (d_dyn_dtree s) x <= freq (d_dyn_dtree s') x <= freq (d_dyn_dtree s) x + 1)).
  { destruct H as [(E0 & HL & HD)|(E0 & HL & HD)].
    - pose proof (HbL it.2 ltac:(destruct Hit; lia)). apply bump_freq_mono in HL as (HzL & H1 & HxL); [|lia]. exists it.2. rewrite HD. split_and!; try done; lia.
    - destruct Hcodes as [?|(_ & Hc & Hdc)]; [done|]. pose proof (HbL (length_code it.2 + 257) ltac:(lia)). pose proof (HbD (dist_code (it.1 - 1)) ltac:(lia)).
      apply bump_freq_mono in HL as (HzL & H1L & HxL); [|lia]. apply bump_freq_mono in HD as (HzD & H1D & HxD); [|lia]. exists (length_code it.2 + 257). split_and!; try done; lia. }
  destruct Hgrow as (cL & E1 & E2 & HzL & HcL & HxL & HzD & HcD & HxD). split; [|done]. split.
  - apply Forall_app. split; [done|by constructor].
  - specialize (HxL END_BLOCK ltac:(done)). lia.
  - intros x [Hx|Hx%list_elem_of_singleton]%elem_of_app Hx0; [|subst x; by rewrite <- E1].
    specialize (Hl x Hx Hx0). rewrite Forall_forall in Hok. destruct (Hok x Hx) as [Hr _]. specialize (HxL x.2 ltac:(lia)). lia.
  - intros x [Hx|Hx%list_elem_of_singleton]%elem_of_app Hx0; [|subst x; rewrite <- E2 by done; split; [done|by apply HcD]].
    specialize (Hm x Hx Hx0). rewrite Forall_forall in Hok. destruct (lz_codes x (Hok x Hx)) as [?|(_ & Hc & Hdc)]; [done|]. specialize (HxL (length_code x.2 + 257) ltac:(lia)). specialize (HxD (dist_code (x.1 - 1)) ltac:(lia)). lia.
  - intros x Hx. specialize (HbL x Hx). specialize (HxL x ltac:(lia)). lia.
  - intros x Hx. specialize (HbD x Hx). specialize (HxD x ltac:(lia)). lia.
Qed.

Lemma tally_items_freqs todo : forall s items s', Forall lz_ok todo -> freqs s items -> zlen items + zlen todo < 65535 -> tally_items s todo = Ok s' ->
  freqs s' (items ++ todo) /\ zlen (d_dyn_ltree s') = zlen (d_dyn_ltree s) /\ zlen (d_dyn_dtree s') = zlen (d_dyn_dtree s) /\ d_bl_tree s' = d_bl_tree s.
Proof.
  induction todo as [|it todo IH]; intros s items s' Hall Hf Hz H; [injection H as <-; by rewrite app_nil_r|]. apply Forall_cons in Hall as [Hit Hall]. rewrite zlen_cons in Hz. pose proof (zlen_nonneg todo).
  cbn [tally_items] in H. apply bind_Ok in H as ([s1 b] & H1 & H). destruct (tally_freqs _ _ _ _ _ Hit Hf ltac:(lia) H1) as (Hf1 & HL1 & HD1 & HB1).
  destruct (IH s1 (items ++ [it]) s' Hall Hf1) as (Hf2 & HL2 & HD2 & HB2); [rewrite zlen_app, zlen_cons; change (zlen (@nil (Z * Z))) with 0; lia|done|].
  rewrite <- app_assoc in Hf2. split; [done|]. split_and!; congruence.
Qed.

(** ** A new block *)

Lemma zero_freqs_spec ns : forall tree, Forall (fun n => 0 <= n < zlen tree) ns ->
  exists tree', zero_freqs ns tree = Ok tree' /\ zlen tree' = zlen tree /\ forall x, 0 <= x -> freq tree' x = if decide (x ∈ ns) then 0 else freq tree x.
Proof.
  induction ns as [|n ns IH]; intros tree Hall; [by exists tree|]. apply Forall_cons in Hall as [Hn Hall]. destruct (lookup_lt_is_Some_2 tree (Z.to_nat n)) as [e He]; [rewrite length_zlen; lia|].
  cbn [zero_freqs]. rewrite (elem_at_lookup tree n e) by (done || lia). cbn [mbind outcome_bind]. rewrite elem_set_in by done. cbn [mbind outcome_bind].
  set (t1 := <[Z.to_nat n := mkCt 0 (dl e)]> tree). assert (Hz1 : zlen t1 = zlen tree) by apply zlen_insert. destruct (IH t1) as (tree' & H1 & Hz & Hx); [by rewrite Hz1|].
  exists tree'. split; [done|]. split; [congruence|]. intros x Hx0. rewrite Hx by done. unfold t1. rewrite freq_insert by done.
  destruct (decide (x ∈ ns)), (decide (x = n)), (decide (x ∈ n :: ns)); try done; exfalso; set_solver.
Qed.

(** The trees have their sizes. *)
Definition sizes_ok (s : dst) : Prop := zlen (d_dyn_ltree s) = 573 /\ 61 <= zlen (d_dyn_dtree s) /\ 39 <= zlen (d_bl_tree s).

(** A block is about to begin: nothing is tallied. *)
Record fresh (s : dst) : Prop := {
  fr_freqs : freqs s [];
  fr_bl : forall x, 0 <= x < 19 -> freq (d_bl_tree s) x = 0;
  fr_sizes : sizes_ok s;
  fr_last : d_last_lit s = 0 }.

(** [init_block] clears the trees and the tally and keeps the rest. *)
Lemma init_block_spec s : sizes_ok (e_dst s) ->
  exists lt dt bt, init_block s = Ok (s <| e_dst := (e_dst s) <| d_dyn_ltree := lt |> <| d_dyn_dtree := dt |> <| d_bl_tree := bt |> <| d_last_lit := 0 |> <| d_matches := 0 |> |>
      <| e_huff := (e_huff s) <| h_opt_len := 0 |> <| h_static_len := 0 |> |>)
    /\ fresh ((e_dst s) <| d_dyn_ltree := lt |> <| d_dyn_dtree := dt |> <| d_bl_tree := bt |> <| d_last_lit := 0 |> <| d_matches := 0 |>).
Proof.
  intros (HL & HD & HB). unfold init_block. set (d := e_dst s) in *.
  assert (Hin : forall n (t : list ct_data), n <= zlen t -> Forall (fun x => 0 <= x < zlen t) (seqZ 0 n)) by (intros n t Hn; apply Forall_forall; intros x Hx; apply elem_of_seqZ in Hx; lia).
  destruct (zero_freqs_spec (seqZ 0 L_CODES) (d_dyn_ltree d)) as (lt & -> & HzL & HfL); [apply Hin; change L_CODES with 286; lia|]. cbn [mbind outcome_bind].
  destruct (zero_freqs_spec (seqZ 0 D_CODES) (d_dyn_dtree d)) as (dt & -> & HzD & HfD); [apply Hin; change D_CODES with 30; lia|]. cbn [mbind outcome_bind].
  destruct (zero_freqs_spec (seqZ 0 BL_CODES) (d_bl_tree d)) as (bt & -> & HzB & HfB); [apply Hin; change BL_CODES with 19; lia|]. cbn [mbind outcome_bind].
  destruct (lookup_lt_is_Some_2 lt (Z.to_nat END_BLOCK)) as [e He]; [rewrite length_zlen; change END_BLOCK with 256; lia|]. rewrite (elem_at_lookup lt END_BLOCK e) by done. cbn [mbind outcome_bind].
  rewrite elem_set_in by (change END_BLOCK with 256; lia). cbn [mbind outcome_bind]. eexists _, dt, bt. split; [done|].
  assert (HfL' : forall x, 0 <= x -> freq (<[Z.to_nat END_BLOCK := mkCt 1 (dl e)]> lt) x = if decide (x = END_BLOCK) then 1 else freq lt x) by (intros x Hx; apply freq_insert; [change END_BLOCK with 256; lia|done]).
  split; cbn; [split; cbn| | |done].
  - constructor.
  - rewrite HfL', decide_True by done. lia.
  - intros it Hit. by apply not_elem_of_nil in Hit.
  - intros it Hit. by apply not_elem_of_nil in Hit.
  - intros x Hx. rewrite HfL' by lia. change (zlen (@nil (Z * Z))) with 0. destruct (decide (x = END_BLOCK)); [lia|]. rewrite HfL, decide_True; [lia|apply elem_of_seqZ; change L_CODES with 286; lia|lia].
  - intros x Hx. change (zlen (@nil (Z * Z))) with 0. rewrite HfD, decide_True; [lia|apply elem_of_seqZ; change D_CODES with 30; lia|lia].
  - intros x Hx. rewrite HfB, decide_True; [done|apply elem_of_seqZ; change BL_CODES with 19; lia|lia].
  - split; [cbn; rewrite zlen_insert; lia|cbn; lia].
Qed.
