(* ===== verification/TreesChoose.v ===== *)
(** * The choice of a block (3rd/zip/trees.c, _tr_flush_block)

    After a block is tallied, [choose_block] returns one of its three
    choices, and a choice of dynamic trees leaves complete trees that have a
    code for every item ([choose_block_spec]). *)

From S2P Require Import Prelude Inftrees BitRev InftreesSort InftreesSpec InftreesThm Inflate TreesTables TreesHuff TreesHeap TreesStart Trees TreesEmit TreesBlock InfItems InfHeader TreesTally.
From S2P Require Import TreesRuns InfLens InfDynamic TreesDyn TreesScan TreesLens TreesLimit TreesBuild TreesFlush TreesFreq.

(** ** Code lengths with a nonzero value *)

Lemma zeros_only ops : forall acc, Forall (fun l => l = 0) acc -> (forall l, Single l ∈ ops -> l = 0) -> Forall (fun l => l = 0) (cl_expand acc ops).
Proof.
  induction ops as [|op ops IH]; intros acc Ha Hs; [done|]. rewrite cl_expand_cons. apply IH; [|intros l Hl; apply Hs; by right]. apply Forall_app. split; [done|].
  destruct op as [l|v|v|v]; cbn [cl_new]; [constructor; [apply Hs; left|constructor]| | |]; try (apply Forall_replicate; done).
  apply Forall_replicate. destruct (last acc) as [x|] eqn:E; [|done]. apply last_Some_elem_of in E. rewrite Forall_forall in Ha. exact (Ha x E).
Qed.

Definition nonzero (op : clop) : bool := match op with Single l => negb (l =? 0) | _ => false end.

(** A nonzero length is sent as itself at least once. *)
Lemma single_in L x : L <> [] -> Forall (fun l => 0 <= l <= 15) L -> x ∈ L -> x <> 0 -> exists l, Single l ∈ len_ops L /\ 1 <= l <= 15.
Proof.
  intros Hne Hall Hx Hx0. destruct (len_ops_expand L [] Hne Hall) as [E V]. apply cl_valid_ok in V.
  destruct (decide (Exists (fun op => nonzero op = true) (len_ops L))) as [He|Hn].
  - apply Exists_exists in He as (op & Hop & Hl). destruct op as [l| | |]; try done. exists l. split; [done|]. cbn in Hl. rewrite Forall_forall in V. specialize (V _ Hop). cbn in V. lia.
  - exfalso. assert (Hz : Forall (fun l => l = 0) (cl_expand [] (len_ops L))).
    { apply zeros_only; [constructor|]. intros l Hl. destruct (Z.eqb_spec l 0) as [|Hl0]; [done|]. exfalso. apply Hn, Exists_exists. exists (Single l). split; [done|]. cbn. by rewrite (proj2 (Z.eqb_neq l 0)). }
    rewrite E in Hz. rewrite Forall_forall in Hz. by apply Hx0, Hz.
Qed.

(** ** The last code length that is sent *)

Lemma order_of_length l : 1 <= l <= 15 -> exists i, 3 <= i < 19 /\ order_at i = l.
Proof.
  intros Hl. assert (H : Forall (fun l => Exists (fun i => order_at i = l) (seqZ 3 16)) (seqZ 1 15)) by by_decide.
  rewrite Forall_forall in H. specialize (H l ltac:(apply elem_of_seqZ; lia)). apply Exists_exists in H as (i & Hi & E). apply elem_of_seqZ in Hi. exists i. split; [lia|done].
Qed.

Lemma last_blindex_spec t BL fuel : zlen BL = 19 -> tree_holds t BL -> forall i i0, 3 <= i0 <= i -> i < 19 -> len_of BL (order_at i0) <> 0 -> i - 2 < Z.of_nat fuel ->
  exists j, last_blindex fuel t i = Ok j /\ 3 <= j <= i /\ forall k, j < k <= i -> len_of BL (order_at k) = 0.
Proof.
  intros Hz Ht. induction fuel as [|fuel IH]; intros i i0 Hi0 Hi Hnz Hf; [lia|]. cbn [last_blindex]. rewrite (proj2 (Z.leb_le 3 i)) by lia. destruct (order_range i ltac:(lia)) as [Ho Hor].
  rewrite bl_order_eq, (elem_at_lookup Inflate.order i _ ltac:(lia) Ho). cbn [mbind outcome_bind]. destruct (Ht (order_at i) ltac:(lia)) as (e & He & Hd & _). rewrite (elem_at_lookup t (order_at i) e ltac:(lia) He). cbn [mbind outcome_bind]. rewrite Hd.
  destruct (Z.eqb_spec (len_of BL (order_at i)) 0) as [E|E]; cbn [negb].
  - assert (i0 <> i) by (intros ->; done). destruct (IH (i - 1) i0 ltac:(lia) ltac:(lia) Hnz ltac:(lia)) as (j & -> & Hj & Hk). exists j. split; [done|]. split; [lia|]. intros k Hkr. destruct (decide (k = i)) as [->|]; [done|]. apply Hk. lia.
  - exists i. split; [done|]. split; [lia|]. intros k Hk. lia.
Qed.

(** ** Building the trees *)

(** [build_tree] for one of the three descriptors, with its tree in the state. *)
Definition dyn_of (s : dst) (lcodes dcodes blcodes : Z) : dyn :=
  let L := lens_of (d_dyn_ltree s) lcodes in let D := lens_of (d_dyn_dtree s) dcodes in
  mkDyn (lens_of (d_bl_tree s) 19) L D blcodes (len_ops L ++ len_ops D).

(** What the choice needs to be sent. *)
Inductive sendable (s : dst) (items : list (Z * Z)) (data : option (list Z)) : choice -> Prop :=
  | sendable_stored buf : data = Some buf -> sendable s items data (Stored buf)
  | sendable_static : sendable s items data Static
  | sendable_dynamic lcodes dcodes blcodes : let d := dyn_of s lcodes dcodes blcodes in
      zlen (dy_L d) = lcodes -> zlen (dy_D d) = dcodes -> dyn_ok d -> trees_ok s d -> Forall (valid_item (dy_codedL d) (dy_codedD d)) items ->
      sendable s items data (Dynamic lcodes dcodes blcodes).

Lemma zlen_lens_of t n : 0 <= n <= zlen t -> zlen (lens_of t n) = n.
Proof. intros Hn. unfold lens_of, dls, zlen in *. rewrite length_take, length_fmap. lia. Qed.

(** Setting the guard does not change the lengths before it. *)
Lemma lens_of_guard t g n : 0 <= n -> lens_of (<[Z.to_nat n := g]> t) n = lens_of t n.
Proof. intros Hn. unfold lens_of, dls. rewrite list_fmap_insert. by rewrite take_insert_ge by lia. Qed.

(** The trees of a state whose literal and distance trees are built. *)
Lemma build_bl_tree_spec s items : let d := e_dst s in
  huff_ok (e_huff s) -> sizes_ok d -> (forall x, 0 <= x < 19 -> freq (d_bl_tree d) x = 0) ->
  0 <= e_l_max s < 286 -> 0 <= e_d_max s < 30 ->
  let L := lens_of (d_dyn_ltree d) (e_l_max s + 1) in let D := lens_of (d_dyn_dtree d) (e_d_max s + 1) in
  lens_code L (zlen L) -> lens_code D (zlen D) -> tree_holds (d_dyn_ltree d) L -> tree_holds (d_dyn_dtree d) D -> coded L (zlen L) END_BLOCK ->
  Forall (valid_item (coded L (zlen L)) (coded D (zlen D))) items ->
  exists s' m lt dt bt, build_bl_tree s = Ok (s', m) /\ e_dst s' = d <| d_dyn_ltree := lt |> <| d_dyn_dtree := dt |> <| d_bl_tree := bt |> /\ huff_ok (e_huff s') /\ sizes_ok (e_dst s')
    /\ e_level s' = e_level s /\ e_strategy s' = e_strategy s /\ e_l_max s' = e_l_max s /\ e_d_max s' = e_d_max s
    /\ forall data, sendable (e_dst s') items data (Dynamic (e_l_max s + 1) (e_d_max s + 1) (m + 1)).
Proof.
  intros d Hh (HzL & HzD & HzB) Hbl HlM HdM L D HcL HcD HtL HtD Hend Hitems. pose proof (lc_range _ _ HcL) as HrL. pose proof (lc_range _ _ HcD) as HrD.
  assert (EL : zlen L = e_l_max s + 1) by (apply zlen_lens_of; lia). assert (ED : zlen D = e_d_max s + 1) by (apply zlen_lens_of; lia).
  assert (HneL : L <> []) by (intros E; rewrite E in EL; change (zlen (@nil Z)) with 0 in EL; lia). assert (HneD : D <> []) by (intros E; rewrite E in ED; change (zlen (@nil Z)) with 0 in ED; lia).
  assert (Eln : Z.to_nat (e_l_max s + 1) = length L) by (rewrite length_zlen; lia). assert (Edn : Z.to_nat (e_d_max s + 1) = length D) by (rewrite length_zlen; lia).
  destruct (lookup_lt_is_Some_2 (d_dyn_ltree d) (length L)) as [gL HgL]; [rewrite !length_zlen; lia|]. destruct (lookup_lt_is_Some_2 (d_dyn_dtree d) (length D)) as [gD HgD]; [rewrite !length_zlen; lia|].
  assert (Hcan : can_scan d (zlen L + zlen D)) by (split; [lia|]; intros x Hx; rewrite Hbl by done; lia).
  unfold build_bl_tree. fold d. cbv zeta.
  destruct (scan_tree_spec d (d_dyn_ltree d) L gL HneL HrL HtL HgL (can_scan_less _ _ (zlen L) Hcan ltac:(pose proof (zlen_nonneg D); lia))) as (d1 & H1 & Hs1 & HtL' & HgL').
  replace (zlen L - 1) with (e_l_max s) in H1 by lia. rewrite H1. cbn [mbind outcome_bind]. set (lt := <[length L := _]> (d_dyn_ltree d)) in *. pose proof (can_scan_next _ _ _ _ _ Hcan Hs1) as [Hc1 Hc2]. destruct Hs1 as [[t1 ->] Hl1 Hf1 Hu1]. cbn in Hl1, Hf1, Hu1, Hc1, Hc2.
  set (d1 := d <| d_bl_tree := t1 |> <| d_dyn_ltree := lt |>). change (d_dyn_dtree d1) with (d_dyn_dtree d).
  destruct (scan_tree_spec d1 (d_dyn_dtree d) D gD HneD HrD HtD HgD (conj Hc1 Hc2)) as (d2 & H2 & [[t2 ->] Hl2 Hf2 Hu2] & HtD' & HgD'). replace (zlen D - 1) with (e_d_max s) in H2 by lia. rewrite H2. cbn [mbind outcome_bind]. cbn in Hl2, Hf2, Hu2. set (dt := <[length D := _]> (d_dyn_dtree d)) in *.
  set (d2 := d1 <| d_bl_tree := t2 |> <| d_dyn_dtree := dt |>). change (d_bl_tree d2) with t2. destruct descs_ok as (_ & _ & Hdesc).
  destruct (build_tree_spec static_bl_desc t2 (e_huff s) Hdesc Hh) as (bt & h & mc & H3 & Hh' & [Hzb Hmc Hlens Hcoded _]); [change (sd_elems static_bl_desc) with 19; lia|]. change (sd_elems static_bl_desc) with 19 in *.
  rewrite H3. cbn [mbind outcome_bind]. destruct (Hlens 19 ltac:(lia)) as ([Hz19 Hr15 Hk19] & Hr7 & HtB). set (BL := lens_of bt 19) in *. change (sd_max_length static_bl_desc) with 7 in Hr7. assert (HBL : cl_code BL) by (by split).
  assert (Hops : Forall (fun op => coded BL 19 (cl_sym op)) (len_ops L ++ len_ops D)).
  { apply Forall_app. destruct (len_ops_expand L [] HneL HrL) as [_ VL]. destruct (len_ops_expand D [] HneD HrD) as [_ VD]. apply cl_valid_ok in VL, VD. rewrite Forall_forall in VL, VD, Hu1, Hu2.
    split; apply Forall_forall; intros op Hop.
    - pose proof (cl_ok_sym _ (VL _ Hop)) as Hsym. apply Hcoded; [lia|lia|]. left. specialize (Hu1 _ Hop). specialize (Hf2 _ Hsym). lia.
    - pose proof (cl_ok_sym _ (VD _ Hop)) as Hsym. apply Hcoded; [lia|lia|]. left. specialize (Hu2 _ Hop). lia. }
  assert (Hnz : exists i0, 3 <= i0 < 19 /\ len_of BL (order_at i0) <> 0).
  { destruct Hend as [Hr Hl]. change END_BLOCK with 256 in *. unfold len_of in Hl. destruct (L !! Z.to_nat 256) as [x|] eqn:Ex; [|cbn in Hl; lia]. cbn in Hl.
    destruct (single_in L x HneL HrL) as (l & Hl1' & Hlr); [by eapply list_elem_of_lookup_2|lia|]. destruct (order_of_length l Hlr) as (i0 & Hi0 & E0). exists i0. split; [done|]. rewrite E0.
    rewrite Forall_forall in Hops. destruct (Hops (Single l)) as [_ Hc]; [apply elem_of_app; by left|]. cbn [cl_sym] in Hc. lia. }
  destruct Hnz as (i0 & Hi0 & Hnz). destruct (last_blindex_spec bt BL 20 Hz19 HtB (BL_CODES - 1) i0) as (m & H4 & Hm & Hlast); [change BL_CODES with 19; lia|done|done|done|]. change (BL_CODES - 1) with 18 in Hm, Hlast.
  rewrite H4. cbn [mbind outcome_bind]. eexists _, m, lt, dt, bt. split; [done|]. split; [done|]. split; [exact Hh'|].
  assert (Hsz : sizes_ok (d2 <| d_bl_tree := bt |>)). { unfold sizes_ok. cbn. unfold lt, dt. rewrite !zlen_insert, Hzb. lia. }
  split; [exact Hsz|]. split; [done|]. split; [done|]. split; [done|]. split; [done|]. intros data.
  change (sendable (d2 <| d_bl_tree := bt |>) items data (Dynamic (e_l_max s + 1) (e_d_max s + 1) (m + 1))).
  assert (Edyn : dyn_of (d2 <| d_bl_tree := bt |>) (e_l_max s + 1) (e_d_max s + 1) (m + 1) = mkDyn BL L D (m + 1) (len_ops L ++ len_ops D)).
  { unfold dyn_of. cbn. unfold lt, dt. rewrite <- Eln, <- Edn, !lens_of_guard by lia. done. }
  assert (Htr : trees_ok (d2 <| d_bl_tree := bt |>) (mkDyn BL L D (m + 1) (len_ops L ++ len_ops D))) by (by split).
  assert (Hdo : dyn_ok (mkDyn BL L D (m + 1) (len_ops L ++ len_ops D))).
  { apply (trees_dyn_ok (d2 <| d_bl_tree := bt |>)); try done; try lia; [rewrite EL; destruct Hend; change END_BLOCK with 256 in *; lia|]. intros i Hi. apply Hlast. lia. }
  apply sendable_dynamic; rewrite Edyn; done.
Qed.

Lemma first_used_spec t last fuel : last <= zlen t -> forall n, 0 <= n <= last -> last - n < Z.of_nat fuel -> exists m, first_used t fuel n last = Ok m.
Proof.
  intros Hz. induction fuel as [|fuel IH]; intros n Hn Hf; [lia|]. cbn [first_used].
  destruct (Z.ltb_spec n last) as [Hlt|]; [|by eexists]. destruct (lookup_lt_is_Some_2 t (Z.to_nat n)) as [e He]; [rewrite length_zlen; lia|]. rewrite (elem_at_lookup t n e) by (done || lia). cbn [mbind outcome_bind].
  destruct (negb (fc e =? 0)); [by eexists|]. apply IH; lia.
Qed.

Lemma set_data_type_spec s : sizes_ok (e_dst s) -> exists v, set_data_type s = Ok (s <| e_data_type := v |>).
Proof.
  intros (HzL & _). unfold set_data_type. cbv zeta. set (t := d_dyn_ltree (e_dst s)) in *. destruct (first_used_spec t 9 10 ltac:(lia) 0 ltac:(lia) ltac:(lia)) as [n ->]. cbn [mbind outcome_bind].
  destruct (n =? 9); cbn [mbind outcome_bind]; [|by eexists]. destruct (first_used_spec t 32 19 ltac:(lia) 14 ltac:(lia) ltac:(lia)) as [n' ->]. cbn [mbind outcome_bind]. by eexists.
Qed.

Lemma freqs_valid s items t mc t' mc' : freqs s items -> built static_l_desc (d_dyn_ltree s) t mc -> built static_d_desc (d_dyn_dtree s) t' mc' ->
  Forall (valid_item (coded (lens_of t (mc + 1)) (mc + 1)) (coded (lens_of t' (mc' + 1)) (mc' + 1))) items.
Proof.
  intros [Hok _ Hl Hm _ _] [_ Hmc _ Hc _] [_ Hmc' _ Hc' _]. change (sd_elems static_l_desc) with 286 in *. change (sd_elems static_d_desc) with 30 in *.
  apply Forall_forall. intros it Hit. rewrite Forall_forall in Hok. specialize (Hok it Hit). pose proof (lz_codes it Hok) as Hcodes. destruct Hok as [Hlc Hd]. split; [done|]. destruct (decide (it.1 = 0)) as [E|E].
  - left. split; [done|]. apply Hc; [lia|lia|]. left. specialize (Hl it Hit E). lia.
  - right. destruct Hcodes as [?|(Hd1 & Hlr & Hdr)]; [done|]. destruct (Hm it Hit E) as [HmL HmD]. split; [done|]. split; [apply Hc; [lia|lia|left; lia]|apply Hc'; [lia|lia|left; lia]].
Qed.

(** The bytes of the block. *)
Definition block_data (buf : option (list Z)) (stored_len : Z) : option (list Z) := take (Z.to_nat stored_len) <$> buf.

(** The end of [choose_block]. *)
Lemma pick_choice (s : enc) items buf stored_len m opt stat : 0 <= stored_len -> (forall b, buf = Some b -> stored_len <= zlen b) ->
  (stat <> opt -> sendable (e_dst s) items (block_data buf stored_len) (Dynamic (e_l_max s + 1) (e_d_max s + 1) (m + 1))) ->
  let trees := if (e_strategy s =? Z_FIXED) || (stat =? opt) then Ok (s, Static) else Ok (s, Dynamic (e_l_max s + 1) (e_d_max s + 1) (m + 1)) in
  exists c, match buf with
    | Some buf => if u32 (stored_len + 4) <=? opt then b ← read_at buf 0 stored_len; Ok (s, Stored b) else trees
    | None => trees
    end = Ok (s, c) /\ sendable (e_dst s) items (block_data buf stored_len) c.
Proof.
  intros Hlen Hbuf Hdyn trees. assert (Htail : exists c, trees = Ok (s, c) /\ sendable (e_dst s) items (block_data buf stored_len) c).
  { unfold trees. destruct (e_strategy s =? Z_FIXED); cbn [orb]; [exists Static; split; [done|constructor]|]. destruct (Z.eqb_spec stat opt) as [E|E]; [exists Static; split; [done|constructor]|]. eexists. split; [done|by apply Hdyn]. }
  destruct buf as [b|]; [|exact Htail]. destruct (u32 (stored_len + 4) <=? opt); [|exact Htail]. specialize (Hbuf b eq_refl).
  exists (Stored (take (Z.to_nat stored_len) b)). split; [|by constructor]. rewrite (proj2 (read_at_Ok b 0 stored_len (take (Z.to_nat stored_len) b))); [done|]. split; [lia|]. done.
Qed.

(** [_tr_flush_block] up to the choice. *)
Lemma choose_block_spec s items buf stored_len : freqs (e_dst s) items -> (forall x, 0 <= x < 19 -> freq (d_bl_tree (e_dst s)) x = 0) -> sizes_ok (e_dst s) -> huff_ok (e_huff s) ->
  0 <= stored_len -> (forall b, buf = Some b -> stored_len <= zlen b) ->
  exists s' c lt dt bt, choose_block s buf stored_len = Ok (s', c) /\ e_dst s' = (e_dst s) <| d_dyn_ltree := lt |> <| d_dyn_dtree := dt |> <| d_bl_tree := bt |>
    /\ huff_ok (e_huff s') /\ sizes_ok (e_dst s') /\ e_level s' = e_level s /\ e_strategy s' = e_strategy s /\ sendable (e_dst s') items (block_data buf stored_len) c.
Proof.
  intros Hf Hbl Hsz Hh Hlen Hbuf. unfold choose_block. destruct (0 <? e_level s) eqn:Elev.
  - assert (Hty : exists v, (if (0 <? stored_len) && (e_data_type s =? Z_UNKNOWN) then set_data_type s else Ok s) = Ok (s <| e_data_type := v |>)).
    { destruct ((0 <? stored_len) && (e_data_type s =? Z_UNKNOWN)); [by apply set_data_type_spec|]. exists (e_data_type s). by destruct s. }
    destruct Hty as [v ->]. cbn [mbind outcome_bind]. set (s0 := s <| e_data_type := v |>). set (d := e_dst s) in *. destruct Hsz as (HzL & HzD & HzB). destruct descs_ok as (HdL & HdD & _).
    destruct (build_tree_spec static_l_desc (d_dyn_ltree d) (e_huff s) HdL Hh) as (lt & h1 & lm & H1 & Hh1 & HbL); [change (sd_elems static_l_desc) with 286; lia|].
    set (s1 := s0 <| e_dst := d <| d_dyn_ltree := lt |> |> <| e_huff := h1 |> <| e_l_max := lm |>). assert (E1 : build_ltree s0 = Ok s1) by (unfold build_ltree; change (e_dst s0) with d; change (e_huff s0) with (e_huff s); by rewrite H1).
    rewrite E1. cbn [mbind outcome_bind].
    destruct (build_tree_spec static_d_desc (d_dyn_dtree d) h1 HdD Hh1) as (dt & h2 & dm & H2 & Hh2 & HbD); [change (sd_elems static_d_desc) with 30; lia|].
    set (s2 := s1 <| e_dst := (e_dst s1) <| d_dyn_dtree := dt |> |> <| e_huff := h2 |> <| e_d_max := dm |>). assert (E2 : build_dtree s1 = Ok s2) by (unfold build_dtree; change (d_dyn_dtree (e_dst s1)) with (d_dyn_dtree d); change (e_huff s1) with h1; by rewrite H2).
    rewrite E2. cbn [mbind outcome_bind]. pose proof (freqs_valid _ _ _ _ _ _ Hf HbL HbD) as Hitems. pose proof (fq_end _ _ Hf) as Hend. destruct HbL as [HzLt HmL HlL HcL _], HbD as [HzDt HmD HlD HcD _].
    change (sd_elems static_l_desc) with 286 in *. change (sd_elems static_d_desc) with 30 in *. destruct (HlL (lm + 1) ltac:(lia)) as (HlcL & _ & HtL). destruct (HlD (dm + 1) ltac:(lia)) as (HlcD & _ & HtD).
    assert (EzL : zlen (lens_of lt (lm + 1)) = lm + 1) by (apply zlen_lens_of; lia). assert (EzD : zlen (lens_of dt (dm + 1)) = dm + 1) by (apply zlen_lens_of; lia).
    destruct (build_bl_tree_spec s2 items) as (s3 & m & lt' & dt' & bt & E3 & Ed3 & Hh3 & Hsz3 & Hl3 & Hst3 & Hlm3 & Hdm3 & Hsend); try done.
    + unfold sizes_ok. cbn. lia.
    + change (lens_code (lens_of lt (lm + 1)) (zlen (lens_of lt (lm + 1)))). by rewrite EzL.
    + change (lens_code (lens_of dt (dm + 1)) (zlen (lens_of dt (dm + 1)))). by rewrite EzD.
    + change (coded (lens_of lt (lm + 1)) (zlen (lens_of lt (lm + 1))) END_BLOCK). rewrite EzL. apply HcL; [lia|change END_BLOCK with 256; lia|left; lia].
    + change (Forall (valid_item (coded (lens_of lt (lm + 1)) (zlen (lens_of lt (lm + 1)))) (coded (lens_of dt (dm + 1)) (zlen (lens_of dt (dm + 1))))) items). by rewrite EzL, EzD.
    + rewrite E3. cbn [mbind outcome_bind]. change (e_l_max s2) with lm in *. change (e_d_max s2) with dm in *.
      match goal with |- context [if ?a <=? ?b then ?a else ?b] => set (stat := a) in *; set (opt := if stat <=? b then stat else b) in * end.
      destruct (pick_choice s3 items buf stored_len m opt stat Hlen Hbuf) as (c & Hc & Hs); [intros _; rewrite Hlm3, Hdm3; apply Hsend|].
      exists s3, c, lt', dt', bt. split; [exact Hc|]. split; [exact Ed3|]. by split_and!.
  - cbn [mbind outcome_bind]. set (opt := u32 (stored_len + 5)). destruct (pick_choice s items buf stored_len 0 opt opt Hlen Hbuf ltac:(done)) as (c & Hc & Hs).
    exists s, c, (d_dyn_ltree (e_dst s)), (d_dyn_dtree (e_dst s)), (d_bl_tree (e_dst s)). split; [exact Hc|]. split; [by destruct (e_dst s)|]. by split_and!.
Qed.
