(* ===== verification/DeflateBlock.v ===== *)
(** * One block, sent and read back

    Each choice of [_tr_flush_block] emits a string of bits ([send_choice_spec])
    that [inflate] turns into the data of the block ([choice_decodes]). *)

From stdpp Require Import strings.
From S2P Require Import Prelude Inftrees BitRev InftreesSort InftreesSpec InftreesThm Inflate Bits InfDecode InfCopy TreesTables TreesHuff Trees TreesEmit TreesBlock InfItems InfBlock InfCodes InfHeader TreesTally.
From S2P Require Import InfStored TreesStored TreesRuns InfLens InfDynamic TreesDyn TreesBuild TreesFlush TreesFreq TreesChoose.

(** ** The string of a choice *)

Definition choice_bits (s : dst) (c : choice) (last : Z) (items : list (Z * Z)) : list bool :=
  match c with
  | Stored buf => stored_bits last (pad (nbits s + 3)) buf
  | Static => fixed_bits last items
  | Dynamic lcodes dcodes blcodes => dyn_bits last (dyn_of s lcodes dcodes blcodes) items
  end.

(** The string fits into [pending_buf], and what is written of it never meets
    the entries of [d_buf] and [l_buf] that are still to be read. *)
Definition choice_fits (s : dst) (c : choice) (last : Z) (items : list (Z * Z)) : Prop :=
  nbits s + zlen (choice_bits s c last items) <= room s - 16 /\
  match c with
  | Stored _ => True
  | Static => overlay_from s 3 fixed_item_bits items
  | Dynamic lcodes dcodes blcodes => let d := dyn_of s lcodes dcodes blcodes in overlay_from s (3 + zlen (trees_bits d)) (dyn_item_bits d) items
  end.

(** What [send_choice] leaves as it was. *)
Record sent (s s' : dst) (B : list bool) : Prop := {
  se_ok : out_ok s';
  se_bits : wbits s' = wbits s ++ B;
  se_nbits : nbits s' = nbits s + zlen B;
  se_len : zlen (d_pending_buf s') = zlen (d_pending_buf s);
  se_lit : d_lit_bufsize s' = d_lit_bufsize s;
  se_trees : d_dyn_ltree s' = d_dyn_ltree s /\ d_dyn_dtree s' = d_dyn_dtree s /\ d_bl_tree s' = d_bl_tree s }.

Lemma writes_sent s s' B : writes s s' B -> sent s s' B.
Proof. intros [(b & p & v & n & ->) Hok Hb Hn Hl _ _]. by split. Qed.

Lemma sent_eob_out s s' B n : sent s s' B -> sent s (s' <| d_last_eob_len := n |>) B.
Proof. intros [[? ? ? ?] ? ? ? ? ?]. by split. Qed.

Lemma sent_eob_in s s' B n : sent (s <| d_last_eob_len := n |>) s' B -> sent s s' B.
Proof. intros [? ? ? ? ? ?]. by split. Qed.

Lemma sent_trans s s1 s2 A B : sent s s1 A -> sent s1 s2 B -> sent s s2 (A ++ B).
Proof.
  intros [_ B1 N1 L1 I1 (T1 & T2 & T3)] [O2 B2 N2 L2 I2 (U1 & U2 & U3)]. split; [done|by rewrite B2, B1, app_assoc|rewrite zlen_app; lia|congruence|congruence|split_and!; congruence].
Qed.

Lemma send_choice_spec s items data c last : out_ok s -> tallied s items -> Forall lz_ok items -> sendable s items data c -> 0 <= last < 2 ->
  (forall b, data = Some b -> is_bytes b /\ zlen b < 65536) -> choice_fits s c last items ->
  exists s', send_choice s c last = Ok s' /\ sent s s' (choice_bits s c last items) /\ (forall b, c = Stored b -> d_bi_valid s' = 0).
Proof.
  intros Hok Htal Hall Hs Hl Hdata [Hroom Hover]. destruct Hs as [buf Ed| |lc dc bc d Elc Edc Hd Ht Hv]; cbn [choice_bits send_choice] in *.
  - destruct (Hdata buf Ed) as [Hby Hlen]. destruct (stored_block_spec s buf last Hok Hl Hby Hlen ltac:(lia)) as (s' & H1 & Hw & Hv). exists s'. split; [done|]. split; [|done]. by eapply sent_eob_in, writes_sent.
  - destruct (static_block_spec s items last Hok Htal Hall Hl Hover ltac:(lia)) as (s' & H1 & Hw). eexists. split; [exact H1|]. split; [|done]. by apply sent_eob_out, writes_sent.
  - fold d in Hroom, Hover |- *. destruct (dynamic_block_spec s d items last Hd Ht Hok Htal Hv Hl Hover ltac:(lia)) as (s' & H1 & Hw). rewrite Elc, Edc in H1. eexists. split; [exact H1|]. split; [|done]. by apply sent_eob_out, writes_sent.
Qed.

(** ** Reading it back *)

(** Every reader that stands before the string [B], with [k] bits of the stream
    before it and whole bytes in all, gets the data of the items. *)
Definition decodes (k last : Z) (B : list bool) (items : list (Z * Z)) (h : list Z) : Prop :=
  forall flush r R, between flush r -> i_last r = 0 -> hist r = h -> items_len items <= i_left r -> (k + zlen B + zlen R) `mod` 8 = 0 -> rbits r = B ++ R ->
  exists r', block_read flush r r' last (items_len items) R (expand h items).

Lemma choice_decodes s items data c last h k : sendable s items data c -> Forall lz_ok items -> 0 <= last < 2 -> reachable h items ->
  (forall b, data = Some b -> is_bytes b /\ zlen b < 65536 /\ zlen b = items_len items /\ h ++ b = expand h items) -> k `mod` 8 = nbits s `mod` 8 ->
  decodes k last (choice_bits s c last items) items h.
Proof.
  intros Hs Hall Hl Hreach Hdata Hk flush r R Hbw Hl0 Hh Hroom Hmod HR. subst h. destruct Hs as [buf Ed| |lc dc bc d Elc Edc Hd Ht Hv]; cbn [choice_bits] in *.
  - destruct (Hdata buf Ed) as (Hby & Hlen & Ez & Eh). rewrite <- Eh, <- Ez in *. pose proof (pad_range (nbits s + 3)) as Hp.
    assert (HR8 : zlen R `mod` 8 = 0).
    { unfold stored_bits in Hmod. rewrite !zlen_app, !zlen_zbits, zlen_bytes_bits in Hmod by lia. unfold pad in Hmod, Hp. Z.div_mod_to_equations. lia. }
    exact (decode_stored flush r last (pad (nbits s + 3)) buf R Hbw Hl0 Hl Hp HR8 Hby Hlen Hroom HR).
  - exact (decode_fixed flush r last items R Hbw Hl0 Hl Hall Hreach Hroom HR).
  - exact (decode_dynamic flush r last d items R Hbw Hl0 Hl Hd Hv Hreach Hroom HR).
Qed.
