(* ===== verification/DeflateRound.v ===== *)
(** * Deflate and inflate

    A run of the compressor is a list of blocks, each tallied and flushed
    ([deflate_blocks]).  The bytes it writes are decoded by [inflate]'s block
    machine to the data the literals and matches stand for
    ([deflate_inflate]). *)

From stdpp Require Import strings.
From S2P Require Import Prelude Inftrees BitRev InftreesSort InftreesSpec InftreesThm Inflate Bits InfDecode InfCopy TreesTables TreesHuff TreesHeap TreesStart Trees TreesEmit TreesBlock InfItems InfBlock InfCodes InfHeader TreesTally.
From S2P Require Import InfStored TreesStored TreesRuns InfLens InfDynamic TreesDyn TreesScan TreesBuild TreesFlush TreesFreq TreesChoose DeflateBlock.

(** ** A run of the compressor *)

(** A block: what is tallied, and the memory from its first byte on unless it
    has left the window. *)
Record block := mkBlock { b_items : list (Z * Z); b_buf : option (list Z) }.

Definition tally_block (z : strm) (b : block) : outcome strm :=
  d ← tally_items (e_dst (z_state z)) (b_items b);
  Ok (z <| z_state := (z_state z) <| e_dst := d |> |>).

Definition deflate_block (z : strm) (b : block) (eof : Z) : outcome strm :=
  z ← tally_block z b;
  flush_block_only z (b_buf b) (items_len (b_items b)) eof.

Definition eof_of (bs : list block) : Z := match bs with [] => 1 | _ => 0 end.

Fixpoint deflate_blocks (z : strm) (bs : list block) : outcome strm :=
  match bs with
  | [] => Ok z
  | b :: bs => z ← deflate_block z b (eof_of bs); deflate_blocks z bs
  end.

(** ** What is asked of the blocks *)

(** The items are literals and matches that reach back into the data, and the
    memory holds what they stand for. *)
Definition block_ok (lit_bufsize : Z) (h : list Z) (b : block) : Prop :=
  Forall lz_ok (b_items b) /\ reachable h (b_items b) /\ zlen (b_items b) < lit_bufsize
  /\ forall m, b_buf b = Some m -> let n := items_len (b_items b) in is_bytes m /\ n <= zlen m /\ n < 65536 /\ h ++ take (Z.to_nat n) m = expand h (b_items b).

Fixpoint blocks_ok (lit_bufsize : Z) (h : list Z) (bs : list block) : Prop :=
  match bs with
  | [] => True
  | b :: bs => block_ok lit_bufsize h b /\ blocks_ok lit_bufsize (expand h (b_items b)) bs
  end.

(** The choice that is made fits into the buffers, and the output has room. *)
Definition block_fits (z : strm) (b : block) (eof : Z) : Prop :=
  match tally_block z b with
  | Ok z => match choose_block (z_state z) (b_buf b) (items_len (b_items b)) with
            | Ok (s, c) => choice_fits (e_dst s) c eof (b_items b)
            | Crash _ => True
            end
  | Crash _ => True
  end.

Fixpoint blocks_fit (z : strm) (bs : list block) : Prop :=
  match bs with
  | [] => True
  | b :: bs => block_fits z b (eof_of bs) /\ match deflate_block z b (eof_of bs) with Ok z => 0 < z_avail_out z /\ blocks_fit z bs | Crash _ => True end
  end.

(** The state between two blocks: all whole bytes are written out. *)
Record stream_ok (z : strm) : Prop := {
  so_fresh : fresh (e_dst (z_state z));
  so_huff : huff_ok (e_huff (z_state z));
  so_out : out_ok (e_dst (z_state z));
  so_buf : zlen (d_pending_buf (e_dst (z_state z))) = 4 * d_lit_bufsize (e_dst (z_state z));
  so_size : 0 <= d_lit_bufsize (e_dst (z_state z)) <= 32768;
  so_empty : d_pending (e_dst (z_state z)) = 0 /\ z_pending_out z = 0;
  so_written : is_bytes (z_out z);
  so_avail : 0 <= z_avail_out z }.

(** The stream so far. *)
Definition sbits (z : strm) : list bool := bytes_bits (z_out z) ++ wbits (e_dst (z_state z)).

(** ** A block *)

Lemma items_len_pos items : Forall lz_ok items -> 0 <= items_len items.
Proof. induction 1 as [|it items [Hlc _] _ IH]; [done|]. change (items_len (it :: items)) with (item_len it + items_len items). unfold item_len. destruct (it.1 =? 0); lia. Qed.

(** Flushing writes all whole bytes when there is room. *)
Lemma flush_pending_spec z : out_ok (e_dst (z_state z)) -> z_pending_out z = 0 -> 0 <= z_avail_out z -> is_bytes (z_out z) ->
  exists z', flush_pending z = Ok z' /\ (0 < z_avail_out z' -> exists p : Z, z_state z' = (z_state z) <| e_dst := (e_dst (z_state z)) <| d_pending := p |> |> /\ p = 0
    /\ z_pending_out z' = 0 /\ is_bytes (z_out z') /\ sbits z' = sbits z).
Proof.
  intros [Hp Hv Hb Hby] H0 Hav Hout. unfold flush_pending. cbv zeta. set (d := e_dst (z_state z)) in *.
  set (len := if z_avail_out z <? d_pending d then z_avail_out z else d_pending d). destruct (Z.eqb_spec len 0) as [El|El].
  - exists z. split; [done|]. intros Hpos. assert (Ep : d_pending d = 0) by (unfold len in El; destruct (Z.ltb_spec (z_avail_out z) (d_pending d)); lia). exists 0. split; [|by split_and!].
    destruct z as [s po o a]. cbn in *. f_equal. destruct s as [ds hs ? ? ? ? ? ?]. unfold d in *. cbn in *. f_equal. destruct ds. cbn in *. by rewrite Ep.
  - assert (Hlen : 0 <= len <= d_pending d) by (unfold len; destruct (Z.ltb_spec (z_avail_out z) (d_pending d)); lia).
    rewrite H0. rewrite (proj2 (read_at_Ok (d_pending_buf d) 0 len (take (Z.to_nat len) (d_pending_buf d)))) by (split; [lia|done]). cbn [mbind outcome_bind].
    set (z1 := z <| z_out := _ |> <| z_pending_out := _ |> <| z_avail_out := _ |> <| z_state := _ |>). change (d_pending (e_dst (z_state z1))) with (d_pending d - len).
    destruct (Z.eqb_spec (d_pending d - len) 0) as [E|E]; (eexists; split; [done|]); intros Hpos.
    + assert (Hl : len = d_pending d) by lia. exists 0. split; [cbn; by rewrite E|]. split; [done|]. split; [done|]. cbn. split; [apply Forall_app; split; [done|by apply Forall_take]|].
      unfold sbits. cbn. unfold wbits at 1. cbn. fold d. unfold pending_bytes. cbn. rewrite E, Hl, take_0, bytes_bits_app, <- app_assoc. done.
    + exfalso. change (z_avail_out z1) with (z_avail_out z - len) in Hpos. unfold len in *. destruct (Z.ltb_spec (z_avail_out z) (d_pending d)); lia.
Qed.

Lemma zlen_wbits d : out_ok d -> zlen (wbits d) = nbits d.
Proof.
  intros [Hp Hv _ _]. unfold wbits, nbits, pending_bytes. rewrite zlen_app, zlen_bytes_bits, zlen_zbits by lia. unfold zlen in *. rewrite length_take. lia.
Qed.

Lemma fresh_writes d d' B : writes d d' B -> fresh d -> fresh d'.
Proof. intros [(b & p & v & n & ->) _ _ _ _ _ _] [[? ? ? ? ? ?] ? ? ?]. by split. Qed.

(** The end of [_tr_flush_block]. *)
Lemma end_block_spec (s : enc) eof : out_ok (e_dst s) -> sizes_ok (e_dst s) -> nbits (e_dst s) + 8 <= room (e_dst s) -> eof = 0 \/ eof = 1 ->
  exists s', (s ← init_block s; if negb (eof =? 0) then on_dst bi_windup s else Ok s) = Ok s' /\ fresh (e_dst s') /\ out_ok (e_dst s') /\ (huff_ok (e_huff s) -> huff_ok (e_huff s'))
    /\ zlen (d_pending_buf (e_dst s')) = zlen (d_pending_buf (e_dst s)) /\ d_lit_bufsize (e_dst s') = d_lit_bufsize (e_dst s)
    /\ exists p, 0 <= p < 8 /\ wbits (e_dst s') = wbits (e_dst s) ++ zbits p 0 /\ (eof = 0 -> p = 0) /\ (eof = 1 -> d_bi_valid (e_dst s') = 0).
Proof.
  intros Hok Hsz Hroom Heof. destruct (init_block_spec s Hsz) as (lt & dt & bt & H1 & Hfr). rewrite H1. cbn [mbind outcome_bind]. set (d4 := (e_dst s) <| d_dyn_ltree := lt |> <| d_dyn_dtree := dt |> <| d_bl_tree := bt |> <| d_last_lit := 0 |> <| d_matches := 0 |>) in *.
  assert (Hok4 : out_ok d4) by (destruct Hok; by split). destruct Heof as [-> | ->]; cbn [Z.eqb negb].
  - eexists. split; [done|]. split; [exact Hfr|]. split; [exact Hok4|]. split; [done|]. split; [done|]. split; [done|]. exists 0. rewrite zbits_0, app_nil_r. split; [lia|]. split; [done|]. split; [done|lia].
  - assert (Hp : 0 <= pad (d_bi_valid d4) < 8) by apply pad_range. destruct (windup_spec d4 Hok4) as (d5 & H5 & Hw & Hv); [change (nbits d4) with (nbits (e_dst s)); change (room d4) with (room (e_dst s)); lia|].
    set (s4 := s <| e_dst := d4 |> <| e_huff := (e_huff s) <| h_opt_len := 0 |> <| h_static_len := 0 |> |>) in *. exists (s4 <| e_dst := d5 |>). split; [unfold on_dst; change (e_dst s4) with d4; by rewrite H5|].
    split; [by eapply fresh_writes|]. split; [by destruct Hw|]. split; [done|]. split; [exact (wr_len _ _ _ Hw)|]. split; [by destruct Hw as [(? & ? & ? & ? & ->) _ _ _ _ _ _]|].
    exists (pad (d_bi_valid d4)). split; [done|]. split; [exact (wr_bits _ _ _ Hw)|]. split; [lia|done].
Qed.

(** What a block adds to the stream. *)
Record added (z z' : strm) (b : block) (eof : Z) (h : list Z) : Prop := {
  ad_ok : stream_ok z';
  ad_lit : d_lit_bufsize (e_dst (z_state z')) = d_lit_bufsize (e_dst (z_state z));
  ad_bits : exists B p, sbits z' = sbits z ++ B ++ zbits p 0 /\ 0 <= p < 8 /\ (eof = 0 -> p = 0) /\ decodes (zlen (sbits z)) eof B (b_items b) h;
  ad_end : eof = 1 -> d_bi_valid (e_dst (z_state z')) = 0 }.

Lemma deflate_block_spec z b eof h : stream_ok z -> block_ok (d_lit_bufsize (e_dst (z_state z))) h b -> eof = 0 \/ eof = 1 -> block_fits z b eof ->
  exists z', deflate_block z b eof = Ok z' /\ (0 < z_avail_out z' -> added z z' b eof h).
Proof.
  intros [[Hfq Hbl Hsz Hlast] Hh Hok Hbuf Hsize [Hp0 Hpo] Hwr Hav] (Hitems & Hreach & Hcount & Hmem) Heof Hfits. set (d := e_dst (z_state z)) in *. pose proof Hsz as (HzL & HzD & HzB).
  assert (Hta : tally_ok d) by (destruct Hok; split; try done; lia). pose proof (zlen_nonneg (b_items b)) as Hnn.
  assert (Htl : tallied d []). { split; [exact Hlast|]. split; [change (zlen (@nil (Z * Z))) with 0; lia|]. intros i it Hi. done. }
  destruct (tally_items_spec (b_items b) d [] Hta Htl) as (d1 & H1 & Htal & Hta1 & Hso); [change (zlen (@nil (Z * Z))) with 0; lia|done|]. cbn [app] in Htal.
  destruct (tally_items_freqs (b_items b) d [] d1 Hitems Hfq ltac:(change (zlen (@nil (Z * Z))) with 0; lia) H1) as (Hfq1 & HzL1 & HzD1 & HB1). cbn [app] in Hfq1.
  set (s1 := (z_state z) <| e_dst := d1 |>). assert (Etb : tally_block z b = Ok (z <| z_state := s1 |>)) by (unfold tally_block; fold d; by rewrite H1).
  assert (Hsz1 : sizes_ok d1) by (unfold sizes_ok; rewrite HzL1, HzD1, HB1; done). pose proof (items_len_pos _ Hitems) as Hn.
  destruct (choose_block_spec s1 (b_items b) (b_buf b) (items_len (b_items b)) Hfq1) as (s2 & c & lt & dt & bt & H2 & Ed2 & Hh2 & Hsz2 & _ & _ & Hsend); [change (e_dst s1) with d1; by rewrite HB1|exact Hsz1|exact Hh|done|intros m Hm; apply (Hmem m Hm)|].
  unfold block_fits in Hfits. rewrite Etb in Hfits. change (z_state (z <| z_state := s1 |>)) with s1 in Hfits. rewrite H2 in Hfits. change (e_dst s1) with d1 in Ed2.
  set (d2 := e_dst s2) in *. pose proof (same_wbits _ _ Hso) as [Ewb Enb]. assert (Hok1 : out_ok d1) by (by eapply same_out_ok).
  assert (Hok2 : out_ok d2) by (rewrite Ed2; destruct Hok1; by split). assert (Htal2 : tallied d2 (b_items b)) by (rewrite Ed2; exact Htal).
  assert (Ew2 : wbits d2 = wbits d) by (rewrite Ed2; exact Ewb). assert (En2 : nbits d2 = nbits d) by (rewrite Ed2; exact Enb).
  assert (Hlit2 : d_lit_bufsize d2 = d_lit_bufsize d) by (rewrite Ed2; exact (so_lit _ _ Hso)). assert (Hbz2 : zlen (d_pending_buf d2) = 4 * d_lit_bufsize d) by (rewrite Ed2; change (zlen (d_pending_buf d1) = 4 * d_lit_bufsize d); rewrite (ta_buf _ Hta1), (so_lit _ _ Hso); done).
  assert (Hdata : forall m, block_data (b_buf b) (items_len (b_items b)) = Some m -> is_bytes m /\ zlen m < 65536 /\ zlen m = items_len (b_items b) /\ h ++ m = expand h (b_items b)).
  { intros m Hm. unfold block_data in Hm. destruct (b_buf b) as [w|] eqn:Ew; [|done]. injection Hm as <-. destruct (Hmem w eq_refl) as (Hby & Hle & Hlt & Eh). rewrite zlen_take by lia. split; [by apply Forall_take|]. split; [lia|]. split; [done|exact Eh]. }
  destruct (send_choice_spec d2 (b_items b) _ c eof Hok2 Htal2 Hitems Hsend ltac:(lia)) as (d3 & H3 & Hse & _); [intros m Hm; destruct (Hdata m Hm) as (? & ? & _); done|exact Hfits|].
  set (s3 := s2 <| e_dst := d3 |>). destruct Hse as [Hok3 Ew3 En3 Ez3 El3 (ET1 & ET2 & ET3)]. destruct Hfits as [Hroom _].
  destruct (end_block_spec s3 eof Hok3) as (s4 & H4 & Hfr4 & Hok4 & Hh4 & Hz4 & Hl4 & p & Hp & Ew4 & Hp0' & Hv4); [unfold sizes_ok; change (e_dst s3) with d3; rewrite ET1, ET2, ET3; exact Hsz2|change (e_dst s3) with d3; unfold room in *; lia|done|].
  change (e_dst s3) with d3 in *. change (e_huff s3) with (e_huff s2) in Hh4. set (z4 := z <| z_state := s4 |>).
  destruct (flush_pending_spec z4) as (z5 & H5 & Hz5); [exact Hok4|exact Hpo|exact Hav|exact Hwr|].
  exists z5. split.
  - unfold deflate_block. rewrite Etb. cbn [mbind outcome_bind]. unfold flush_block_only, _tr_flush_block. change (z_state (z <| z_state := s1 |>)) with s1. rewrite H2. cbn [mbind outcome_bind].
    assert (E3 : on_dst (fun d => send_choice d c eof) s2 = Ok s3) by (unfold on_dst; fold d2; by rewrite H3). rewrite E3. cbn [mbind outcome_bind]. rewrite H4. exact H5.
  - intros Hpos. destruct (Hz5 Hpos) as (p0 & Es5 & -> & Hpo5 & Hby5 & Esb). change (z_state z4) with s4 in Es5. set (B := choice_bits d2 c eof (b_items b)) in *.
    assert (Hav5 : 0 <= z_avail_out z5) by lia. assert (Esb4 : sbits z4 = sbits z ++ B ++ zbits p 0) by (unfold sbits; change (z_state z4) with s4; change (z_out z4) with (z_out z); fold d; rewrite Ew4, Ew3, Ew2, <- !app_assoc; done).
    split.
    + rewrite Es5 || idtac. split; rewrite ?Es5; cbn.
      * destruct Hfr4 as [[? ? ? ? ? ?] ? ? ?]. by split.
      * by apply Hh4.
      * destruct Hok4. split; cbn; [lia|done|done|done].
      * rewrite Hz4, Ez3, Hl4, El3, Hlit2. exact Hbz2.
      * rewrite Hl4, El3, Hlit2. exact Hsize.
      * done.
      * exact Hby5.
      * exact Hav5.
    + rewrite Es5. cbn. rewrite Hl4, El3, Hlit2. done.
    + exists B, p. split; [by rewrite Esb|]. split; [done|]. split; [done|]. apply (choice_decodes d2 (b_items b) (block_data (b_buf b) (items_len (b_items b))) c eof h); [done|done|lia|done|done|].
      unfold sbits. rewrite zlen_app, zlen_bytes_bits. fold d. rewrite zlen_wbits by done. rewrite En2. rewrite (Z.mul_comm 8), Z.add_comm. by rewrite Z.mod_add.
    + intros E. rewrite Es5. cbn. by apply Hv4.
Qed.

(** ** The stream *)

(** The data of the blocks, behind [h], and its length. *)
Definition blocks_expand (h : list Z) (bs : list block) : list Z := foldl (fun h b => expand h (b_items b)) h bs.
Definition blocks_len (bs : list block) : Z := foldr (fun b n => items_len (b_items b) + n) 0 bs.

Lemma blocks_len_nonneg L bs : forall h, blocks_ok L h bs -> 0 <= blocks_len bs.
Proof. induction bs as [|b bs IH]; intros h H; [done|]. destruct H as [(Hi & _) H]. pose proof (items_len_pos _ Hi). specialize (IH _ H). cbn [blocks_len foldr]. unfold blocks_len in IH. lia. Qed.

(** The machine stands before [T] and reads the blocks. *)
Definition reads_blocks (T : list bool) (p : Z) (bs : list block) (h : list Z) : Prop :=
  forall flush r R, flush <> Z_BLOCK -> between flush r -> i_last r = 0 -> hist r = h -> blocks_len bs <= i_left r -> zlen R `mod` 8 = 0 -> rbits r = T ++ zbits p 0 ++ R ->
  exists r', rtc (bstep flush) r r' /\ between flush r' /\ i_last r' = 1 /\ rbits r' = zbits p 0 ++ R /\ hist r' = blocks_expand h bs
    /\ i_left r' = i_left r - blocks_len bs /\ whist r' = whist r /\ i_in r' = i_in r.

(** The machine after a block that is not the last one, or is. *)
Lemma block_read_between flush r r' last n R H : flush <> Z_BLOCK -> block_read flush r r' last n R H -> between flush r'.
Proof. intros Hf (_ & Hm & Hok & Hb & Hw & _ & _ & _ & _ & _ & _ & Ha). split; [by right|done|done|done|done]. Qed.

Lemma sbits_done z : stream_ok z -> d_bi_valid (e_dst (z_state z)) = 0 -> sbits z = bytes_bits (z_out z).
Proof.
  intros [_ _ [_ Hv Hb _] _ _ [Hp _] _ _] H0. unfold sbits, wbits, pending_bytes. rewrite Hp, H0, zbits_0. change (Z.to_nat 0) with 0%nat. rewrite take_0. change (bytes_bits []) with (@nil bool). by rewrite !app_nil_r.
Qed.

Lemma deflate_blocks_spec bs : forall b z h, stream_ok z -> blocks_ok (d_lit_bufsize (e_dst (z_state z))) h (b :: bs) -> blocks_fit z (b :: bs) ->
  exists z' T p, deflate_blocks z (b :: bs) = Ok z' /\ is_bytes (z_out z') /\ 0 <= p < 8 /\ bytes_bits (z_out z') = sbits z ++ T ++ zbits p 0 /\ reads_blocks T p (b :: bs) h.
Proof.
  induction bs as [|b2 bs IH]; intros b z h Hz [Hb Hbs] [Hfit Hfits]; cbn [deflate_blocks].
  - destruct (deflate_block_spec z b 1 h Hz Hb ltac:(by right) Hfit) as (z1 & H1 & Hadd). cbn [eof_of] in *. rewrite H1 in Hfits. destruct Hfits as [Hav _]. destruct (Hadd Hav) as [Hz1 _ (B & p & Es & Hp & _ & Hdec) Hend].
    rewrite (sbits_done z1 Hz1 (Hend eq_refl)) in Es. exists z1, B, p. rewrite H1. split; [done|]. split; [apply Hz1|]. split; [done|]. split; [done|].
    intros flush r R Hf Hbw Hl0 Hh Hroom HR8 HR. pose proof (f_equal zlen Es) as Ez. rewrite !zlen_app, zlen_bytes_bits, zlen_zbits in Ez by lia. cbn [blocks_len foldr] in *.
    destruct (Hdec flush r (zbits p 0 ++ R) Hbw Hl0 Hh ltac:(lia)) as (r' & Hrd); [rewrite zlen_app, zlen_zbits by lia; Z.div_mod_to_equations; lia|exact HR|].
    exists r'. pose proof (block_read_between _ _ _ _ _ _ _ Hf Hrd) as Hbw'. destruct Hrd as (Hrun & _ & _ & _ & _ & Hla & Hrb & Hhi & Hle & Hwh & Hin & _). split_and!; try done. lia.
  - destruct (deflate_block_spec z b 0 h Hz Hb ltac:(by left) Hfit) as (z1 & H1 & Hadd). cbn [eof_of] in Hfits. rewrite H1 in Hfits. destruct Hfits as [Hav Hfits]. destruct (Hadd Hav) as [Hz1 El (B & p0 & Es & _ & Hp0 & Hdec) _].
    rewrite (Hp0 eq_refl), zbits_0, app_nil_r in Es. rewrite <- El in Hbs. destruct (IH b2 z1 (expand h (b_items b)) Hz1 Hbs Hfits) as (z' & T & p & H2 & Hby & Hp & Eo & Hrb).
    exists z', (B ++ T), p. cbn [eof_of]. rewrite H1. cbn [mbind outcome_bind]. split; [exact H2|]. split; [done|]. split; [done|]. split; [by rewrite Eo, Es, <- !app_assoc|].
    intros flush r R Hf Hbw Hl0 Hh Hroom HR8 HR. pose proof (f_equal zlen Eo) as Ez. rewrite Es, !zlen_app, zlen_bytes_bits, zlen_zbits in Ez by lia. pose proof (blocks_len_nonneg _ _ _ Hbs) as Hnn.
    change (blocks_len (b :: b2 :: bs)) with (items_len (b_items b) + blocks_len (b2 :: bs)) in *. rewrite <- app_assoc in HR.
    destruct (Hdec flush r (T ++ zbits p 0 ++ R) Hbw Hl0 Hh ltac:(lia)) as (r1 & Hrd); [rewrite !zlen_app, zlen_zbits by lia; Z.div_mod_to_equations; lia|exact HR|].
    pose proof (block_read_between _ _ _ _ _ _ _ Hf Hrd) as Hbw1. destruct Hrd as (Hrun & _ & _ & _ & _ & Hla & Hrb1 & Hhi & Hle & Hwh & Hin & _).
    destruct (Hrb flush r1 R Hf Hbw1 Hla Hhi ltac:(lia) HR8 Hrb1) as (r2 & Hrun2 & Hbw2 & Hla2 & Hrb2 & Hhi2 & Hle2 & Hwh2 & Hin2).
    exists r2. split; [by etransitivity|]. split_and!; try done; [lia|congruence|congruence].
Qed.

(** What [deflate] writes for a list of blocks, followed by any other bytes, is
    read back by [inflate]: from a state between two blocks it reaches [CHECK]
    with the data of the blocks behind the output and exactly these bytes
    consumed. *)
Definition inflates (out : list Z) (bs : list block) (h : list Z) : Prop :=
  forall flush r rest, flush <> Z_BLOCK -> between flush r -> i_last r = 0 -> i_bits r = 0 -> hist r = h -> blocks_len bs <= i_left r -> drop (Z.to_nat (i_pos r)) (i_in r) = out ++ rest ->
  exists n r', (forall fuel, inflate_blocks (n + S fuel) flush r = Ok r') /\ i_mode r' = CHECK /\ hist r' = blocks_expand h bs /\ whist r' = whist r
    /\ i_left r' = i_left r - blocks_len bs /\ i_in r' = i_in r /\ i_pos r' = i_pos r + zlen out /\ i_bits r' = 0.

Lemma reads_inflates T p out bs h : 0 <= p < 8 -> bytes_bits out = T ++ zbits p 0 -> reads_blocks T p bs h -> inflates out bs h.
Proof.
  intros Hp Eo Hrb flush r rest Hf Hbw Hl0 Hb0 Hh Hroom Hin. assert (HR : rbits r = T ++ zbits p 0 ++ bytes_bits rest) by (unfold rbits; rewrite Hb0, zbits_0, Hin, bytes_bits_app, Eo, <- app_assoc; done).
  destruct (Hrb flush r (bytes_bits rest) Hf Hbw Hl0 Hh Hroom) as (r1 & Hrun & Hbw1 & Hla1 & Hrb1 & Hhi1 & Hle1 & Hwh1 & Hin1); [rewrite zlen_bytes_bits, Z.mul_comm; by apply Z.mod_mul|exact HR|].
  destruct (last_step flush r1 Hbw1 ltac:(lia)) as (r2 & Hstep & Hm2 & Ho2 & Hl2 & Hb2 & _ & Hp2 & Hin2 & Hwh2).
  assert (Hall : rtc (bstep flush) r r2) by (etransitivity; [exact Hrun|by apply rtc_once]). destruct (bstep_run flush r r2 Hall) as [n Hn].
  exists n, r2. split; [intros fuel; rewrite Hn; cbn [inflate_blocks]; by rewrite Hm2|]. split; [done|].
  assert (Hh2 : hist r2 = hist r1) by (unfold hist; by rewrite Hwh2, Ho2). split; [congruence|]. split; [congruence|]. split; [lia|]. split; [congruence|]. split; [|done].
  (* the place of the input *)
  pose proof (bw_buf _ _ Hbw1) as Hok1. pose proof (bw_buf _ _ Hbw) as [_ _ Hpos _]. pose proof (bw_bits _ _ Hbw1). pose proof Hok1 as [Hbit1 _ Hpos1 _]. pose proof (zlen_rbits r1 Hok1) as Hz1. rewrite Hrb1, zlen_app, zlen_zbits, zlen_bytes_bits in Hz1 by lia.
  apply (f_equal zlen) in Hin. rewrite zlen_drop, zlen_app in Hin by lia. rewrite Hp2. unfold avail_in in *. rewrite ?Hin1 in *. lia.
Qed.

(** ** The start of a stream *)

Lemma fresh_keeps d d' : d_dyn_ltree d' = d_dyn_ltree d -> d_dyn_dtree d' = d_dyn_dtree d -> d_bl_tree d' = d_bl_tree d -> d_last_lit d' = d_last_lit d -> fresh d -> fresh d'.
Proof. intros E1 E2 E3 E4 [[? ? ? ? ? ?] ? ? ?]. split; [split| | |]; rewrite ?E1, ?E2, ?E3, ?E4; try done. unfold sizes_ok. by rewrite E1, E2, E3. Qed.

(** [_tr_init] on the arrays [deflateInit2_] allocates. *)
Lemma tr_init_ok s avail : sizes_ok (e_dst s) -> huff_ok (e_huff s) -> d_pending (e_dst s) = 0 -> zlen (d_pending_buf (e_dst s)) = 4 * d_lit_bufsize (e_dst s) ->
  0 <= d_lit_bufsize (e_dst s) <= 32768 -> is_bytes (d_pending_buf (e_dst s)) -> 0 <= avail ->
  exists s', _tr_init s = Ok s' /\ let z := mkStrm s' 0 [] avail in stream_ok z /\ d_bi_valid (e_dst (z_state z)) = 0 /\ d_lit_bufsize (e_dst (z_state z)) = d_lit_bufsize (e_dst s).
Proof.
  intros Hsz Hh Hp Hz Hl Hby Hav. unfold _tr_init. match goal with |- context [init_block ?s0] => destruct (init_block_spec s0 Hsz) as (lt & dt & bt & H1 & Hfr) end.
  eexists. split; [exact H1|]. cbv zeta. split; [|done]. split; [exact Hfr|exact Hh| |exact Hz|exact Hl|by split|constructor|exact Hav]. split; cbn; [rewrite Hp; pose proof (zlen_nonneg (d_pending_buf (e_dst s))); lia|lia|change (2 ^ 0) with 1; lia|done].
Qed.

(** ** Checking that the blocks fit *)

Definition overlayb (s : dst) (k : Z) (item_bits : Z * Z -> list bool) (items : list (Z * Z)) : bool :=
  forallb (fun i => nbits s + k + zlen (take i items ≫= item_bits) <=? 8 * (d_lit_bufsize s + 2 * Z.of_nat i)) (seq 0 (length items)).

Lemma overlayb_ok s k f items : overlayb s k f items = true -> overlay_from s k f items.
Proof. unfold overlayb. rewrite forallb_forall. intros H i Hi. apply Z.leb_le, H, in_seq. lia. Qed.

Definition choice_fitsb (s : dst) (c : choice) (last : Z) (items : list (Z * Z)) : bool :=
  (nbits s + zlen (choice_bits s c last items) <=? room s - 16) &&
  match c with
  | Stored _ => true
  | Static => overlayb s 3 fixed_item_bits items
  | Dynamic lcodes dcodes blcodes => let d := dyn_of s lcodes dcodes blcodes in overlayb s (3 + zlen (trees_bits d)) (dyn_item_bits d) items
  end.

Lemma choice_fitsb_ok s c last items : choice_fitsb s c last items = true -> choice_fits s c last items.
Proof.
  unfold choice_fitsb. rewrite andb_true_iff. intros [H1%Z.leb_le H2]. split; [done|]. destruct c; [done|by apply overlayb_ok|by apply overlayb_ok].
Qed.

Fixpoint blocks_fitb (z : strm) (bs : list block) : bool :=
  match bs with
  | [] => true
  | b :: bs =>
      match tally_block z b with
      | Ok z => match choose_block (z_state z) (b_buf b) (items_len (b_items b)) with Ok (s, c) => choice_fitsb (e_dst s) c (eof_of bs) (b_items b) | Crash _ => true end
      | Crash _ => true
      end && match deflate_block z b (eof_of bs) with Ok z => (0 <? z_avail_out z) && blocks_fitb z bs | Crash _ => true end
  end.

Lemma blocks_fitb_ok bs : forall z, blocks_fitb z bs = true -> blocks_fit z bs.
Proof.
  induction bs as [|b bs IH]; intros z H; [done|]. cbn [blocks_fitb] in H. apply andb_true_iff in H as [H1 H2]. split.
  - unfold block_fits. destruct (tally_block z b); [|done]. destruct (choose_block _ _ _) as [[s c]|]; [|done]. by apply choice_fitsb_ok.
  - destruct (deflate_block z b (eof_of bs)); [|done]. apply andb_true_iff in H2 as [H2%Z.ltb_lt H3]. split; [done|by apply IH].
Qed.

(** ** An example *)

Definition demo_enc : enc :=
  mkEnc (mkDst (replicate 512 0) 0 128 0 0 0 0 0 (replicate 573 (mkCt 0 0)) (replicate 61 (mkCt 0 0)) (replicate 39 (mkCt 0 0)))
    (mkHuff (replicate 573 0) 0 0 (replicate 573 0) (replicate 16 0) 0 0) 0 0 0 6 0 Z_UNKNOWN.
Definition demo_start : strm := match _tr_init demo_enc with Ok s => mkStrm s 0 [] 1000 | Crash _ => mkStrm demo_enc 0 [] 0 end.

(** A block for dynamic trees, one for static trees and one to be stored. *)
Definition demo_blocks : list block :=
  [mkBlock (((fun c => (0, c)) <$> (replicate 60 97 ++ replicate 20 98)) ++ [(80, 77)]) None;
   mkBlock [(0, 120); (1, 5)] None;
   mkBlock ((fun c => (0, c)) <$> seqZ 196 60) (Some (seqZ 196 60))].

(** The decompressor at the beginning of the bytes [out], without a window. *)
Definition demo_reader (out : list Z) : inf :=
  mkInf TYPE 0 None 0 0 out 0 [] 1000 0 0 0 LenFix DistFix 0 0 0 0 0 0 (replicate 320 0) (replicate 288 0) (replicate 2048 (mkCode 0 0 0)) 0 0 0 [].

Definition demo_data : list Z := blocks_expand [] demo_blocks.

Lemma demo_start_ok : stream_ok demo_start /\ d_bi_valid (e_dst (z_state demo_start)) = 0 /\ d_lit_bufsize (e_dst (z_state demo_start)) = 128.
Proof.
  destruct (tr_init_ok demo_enc 1000) as (s' & E & H); [by vm_compute|by vm_compute|done|by vm_compute|by vm_compute|apply Forall_replicate; unfold is_byte; lia|lia|]. unfold demo_start. rewrite E. exact H.
Qed.

Fixpoint reachableb (h : list Z) (items : list (Z * Z)) : bool :=
  match items with [] => true | it :: items => (it.1 <=? zlen h) && reachableb (lz_item h it) items end.

Lemma reachableb_ok items : forall h, reachableb h items = true -> reachable h items.
Proof. induction items as [|it items IH]; intros h H; [done|]. cbn [reachableb] in H. apply andb_true_iff in H as [H1%Z.leb_le H2]. split; [done|by apply IH]. Qed.

Definition lz_okb (it : Z * Z) : bool := (0 <=? it.2) && (it.2 <? 256) && (0 <=? it.1) && (it.1 <=? 32768).

(** [block_ok] as a check. *)
Definition block_okb (lit_bufsize : Z) (h : list Z) (b : block) : bool :=
  forallb lz_okb (b_items b) && reachableb h (b_items b) && (zlen (b_items b) <? lit_bufsize) &&
  match b_buf b with
  | Some m => let n := items_len (b_items b) in forallb (fun x => (0 <=? x) && (x <? 256)) m && (n <=? zlen m) && (n <? 65536) && bool_decide (h ++ take (Z.to_nat n) m = expand h (b_items b))
  | None => true
  end.

Lemma block_okb_ok L h b : block_okb L h b = true -> block_ok L h b.
Proof.
  unfold block_okb. rewrite !andb_true_iff. intros (((H1 & H2) & H3) & H4). split.
  { apply Forall_forall. intros it Hit. rewrite forallb_forall in H1. specialize (H1 it ltac:(by apply list_elem_of_In)). unfold lz_okb in H1. rewrite !andb_true_iff in H1. unfold lz_ok. lia. }
  split; [by apply reachableb_ok|]. split; [lia|]. intros m Hm. rewrite Hm in H4. cbv zeta in H4 |- *. rewrite !andb_true_iff in H4. destruct H4 as (((H4 & H5) & H6) & H7). split; [|split; [lia|split; [lia|by apply bool_decide_eq_true in H7]]].
  apply Forall_forall. intros x Hx. rewrite forallb_forall in H4. specialize (H4 x ltac:(by apply list_elem_of_In)). unfold is_byte. lia.
Qed.

Lemma demo_blocks_ok : blocks_ok 128 [] demo_blocks.
Proof. split; [|split; [|split; [|exact I]]]; apply block_okb_ok; by vm_compute. Qed.

Lemma demo_between out : is_bytes out -> between 0 (demo_reader out).
Proof.
  intros Hby. split; cbn.
  - by right.
  - split; cbn; [lia|change (2 ^ 0) with 1; lia|pose proof (zlen_nonneg out); lia|done].
  - lia.
  - split; cbn; [done|lia|lia].
  - by split.
Qed.

(** C34: the compressor and the decompressor are inverse. Take any literals and
    matches of any blocks for which the buffers suffice ([blocks_fit]: what is
    written of a block ends inside of [pending_buf] and never overtakes the part of
    the tally in it that is still to be read, and the stream has room). Then
    [_tr_flush_block] returns for every block, whatever trees the frequencies lead
    to and whichever of its three kinds it chooses, and the block machine of
    [inflate] reads exactly the bytes that were written and makes the data of the
    blocks of them. *)
Theorem deflate_inflate z b bs h :
  stream_ok z -> d_bi_valid (e_dst (z_state z)) = 0 -> blocks_ok (d_lit_bufsize (e_dst (z_state z))) h (b :: bs) -> blocks_fit z (b :: bs) ->
  exists z' out, deflate_blocks z (b :: bs) = Ok z' /\ z_out z' = z_out z ++ out /\ is_bytes out /\ inflates out (b :: bs) h.
Proof.
  intros Hz Hv Hbs Hfit. destruct (deflate_blocks_spec bs b z h Hz Hbs Hfit) as (z' & T & p & H & Hby & Hp & Eo & Hrb). rewrite (sbits_done z Hz Hv) in Eo.
  destruct (bytes_prefix (z_out z) (z_out z') _ Hby (so_written _ Hz) Eo) as [Ht Hd]. exists z', (drop (length (z_out z)) (z_out z')). split; [done|]. split; [by rewrite <- Ht at 1; rewrite take_drop|].
  split; [by apply Forall_drop|]. by eapply reads_inflates.
Qed.

Lemma deflate_inflate_witness : exists z' out n r', deflate_blocks demo_start demo_blocks = Ok z' /\ z_out z' = out
  /\ inflate_blocks n 0 (demo_reader out) = Ok r' /\ i_mode r' = CHECK /\ i_out r' = demo_data.
Proof.
  destruct demo_start_ok as (Hz & Hv & Hl). destruct (deflate_inflate demo_start (mkBlock (b_items (default (mkBlock [] None) (demo_blocks !! 0%nat))) None) (drop 1 demo_blocks) [] Hz Hv) as (z' & out & H1 & Ho & Hby & Hinf).
  - rewrite Hl. exact demo_blocks_ok.
  - apply blocks_fitb_ok. by vm_compute.
  - assert (E : z_out demo_start = []) by (unfold demo_start; destruct (_tr_init demo_enc); done). rewrite E in Ho. cbn [app] in Ho. exists z', out.
    destruct (Hinf 0 (demo_reader out) [] ltac:(done) (demo_between out Hby) eq_refl eq_refl eq_refl) as (n & r' & Hn & Hm & Hh & Hw & _); [by vm_compute|cbn; by rewrite drop_0, app_nil_r|].
    exists (n + 1)%nat, r'. split; [exact H1|]. split; [done|]. split; [apply (Hn 0%nat)|]. split; [done|]. unfold hist in Hh. rewrite Hw in Hh. exact Hh.
Defined.
