(* ===== verification/UvNet.v ===== *)
(** * uv_packet, uv_session, uv_service, uv_tcp_server

    The TCP side of [src/libs/network]: the framing state machine of
    [uv_packet.cpp], the session table of [uv_service.cpp], accepting and closing
    of [uv_tcp_server.cpp] and [uv_session.cpp], driven by the read requests of
    the bundled libuv on Windows ([win/stream.c], [win/tcp.c], [win/handle.c]).
    Every call is a function of the whole state, so a callback that frees its
    session is followed by a use after free where the code has one. *)

From S2P Require Import Prelude Inet.

(** ** uv_packet *)

(** A pointer to an owned buffer: null, never initialised, or a live block. *)
Inductive pointer :=
| Null
| Wild
| Block (bytes : list Z).

#[export] Instance pointer_eq_dec : EqDecision pointer.
Proof. solve_decision. Defined.

Record uv_buf := mkBuf { base : pointer; len : Z }.
Record uv_packet := mkUvPacket { m_head : uv_buf; m_body : uv_buf; m_length : Z }.
#[export] Instance eta_uv_buf : Eta uv_buf := fun b => mkBuf (base b) (len b).
#[export] Instance eta_uv_packet : Eta uv_packet := fun p => mkUvPacket (m_head p) (m_body p) (m_length p).

Definition PACKET_BUFFER_SIZE : Z := 1024.
Definition UV_PACKET_HEAD_LENGTH : Z := 24.
Definition UV_EOF : Z := -4095.
Definition UV_EALREADY : Z := -4084.
Definition UV_ECONNRESET : Z := -4077.
Definition UV_ENOBUFS : Z := -4060.
Definition UV_ENOTCONN : Z := -4053.

(** [malloc(n)]: the contents are unspecified, [junk] stands for them. *)
Definition malloc (junk n : Z) : pointer := Block (replicate (Z.to_nat n) junk).

(** [SAFE_FREE]: the pointer becomes null. *)
Definition safe_free (p : pointer) : outcome pointer :=
  match p with Wild => Crash InvalidFree | _ => Ok Null end.

(** [if (b.base != nullptr) memset(b.base, 0, b.len)] *)
Definition buf_clear (b : uv_buf) : outcome uv_buf :=
  match base b with
  | Null => Ok b
  | Wild => Crash OutOfBounds
  | Block l => l ← write_at l 0 (replicate (Z.to_nat (len b)) 0); Ok (mkBuf (Block l) (len b))
  end.

(** The first [n] bytes behind a pointer. *)
Definition buf_bytes (p : pointer) (off n : Z) : outcome (list Z) :=
  match p with Null => Crash NullDeref | Wild => Crash OutOfBounds | Block l => read_at l off n end.

(** The constructor assigns [m_head] twice (the first block leaks) and leaves
    [m_body] and [m_length] to what the memory held. *)
Definition uv_packet_new (junk : Z) (body0 : uv_buf) (length0 : Z) : uv_packet :=
  let m_head := mkBuf (malloc junk UV_PACKET_HEAD_LENGTH) UV_PACKET_HEAD_LENGTH in
  let m_head := mkBuf (malloc junk PACKET_BUFFER_SIZE) PACKET_BUFFER_SIZE in
  mkUvPacket m_head body0 length0.

Definition uv_packet_clear (p : uv_packet) : outcome uv_packet :=
  h ← buf_clear (m_head p);
  b ← buf_clear (m_body p);
  Ok (mkUvPacket h b (m_length p)).

(** [bodylength()] reads at [PACKET_HEAD_LENGTH], behind the head. *)
Definition uv_bodylength (p : uv_packet) : outcome Z :=
  b ← buf_bytes (base (m_head p)) UV_PACKET_HEAD_LENGTH 4; Ok (u32 (le_decode b)).

(** The allocation callbacks: the packet afterwards and [*buf], which libuv has
    set to [(NULL, 0)]. *)
Definition on_alloc_head (p : uv_packet) : outcome (uv_packet * uv_buf) := Ok (p, m_head p).

Definition on_alloc_body (junk : Z) (p : uv_packet) : outcome (uv_packet * uv_buf) :=
  b ← safe_free (base (m_body p));
  let p := p <| m_body := mkBuf b 0 |> in
  if m_length p =? UV_PACKET_HEAD_LENGTH then
    n ← uv_bodylength p;
    if n >? 0 then
      let body := mkBuf (malloc junk n) n in
      Ok (p <| m_body := body |>, body)
    else Ok (p, mkBuf Null 0)
  else Ok (p, mkBuf Null 0).

(** ** State

    A session is a heap object.  [uv_tcp] holds what the code uses of its embedded
    [uv_tcp_t], as libuv has it on Windows, the only platform these files compile
    on: the flags [ACTIVE], [READING], [READABLE], [READ_PENDING], [CLOSING] and
    [ENDGAME_QUEUED], the counters [activecnt] and [reqs_pending], whether the
    socket is open, and the read and close callbacks. *)
Inductive read_callback := CbHead | CbBody.

Record uv_tcp := mkUvTcp {
  t_active : bool; t_reading : bool; t_readable : bool; t_read_pending : bool; t_closing : bool; t_endgame : bool;
  t_activecnt : Z; t_reqs_pending : Z; t_open : bool; t_cb : option read_callback; t_close_cb : bool }.
#[export] Instance eta_uv_tcp : Eta uv_tcp := fun t =>
  mkUvTcp (t_active t) (t_reading t) (t_readable t) (t_read_pending t) (t_closing t) (t_endgame t)
    (t_activecnt t) (t_reqs_pending t) (t_open t) (t_cb t) (t_close_cb t).

Record session := mkSession {
  s_id : Z; s_tcp : uv_tcp; s_packet : uv_packet; s_readbuf : uv_buf; s_writebuf : uv_buf; s_ipv6 : bool }.
#[export] Instance eta_session : Eta session := fun s =>
  mkSession (s_id s) (s_tcp s) (s_packet s) (s_readbuf s) (s_writebuf s) (s_ipv6 s).

(** The service and the loop: the live sessions by address, [m_sessions] (id to
    address), the static counter of [generateid], the loop's [endgame_handles],
    the sockets whose session object is gone without a [uv_close], and the
    application's state. *)
Record world (A : Type) := mkWorld {
  objects : gmap Z session; m_sessions : gmap Z Z; next_id : Z;
  endgame_handles : list Z; lost_sockets : list Z; app : A }.
Arguments mkWorld {A} _ _ _ _ _ _.
Arguments objects {A} _.
Arguments m_sessions {A} _.
Arguments next_id {A} _.
Arguments endgame_handles {A} _.
Arguments lost_sockets {A} _.
Arguments app {A} _.
#[export] Instance eta_world A : Eta (world A) := fun w =>
  mkWorld (objects w) (m_sessions w) (next_id w) (endgame_handles w) (lost_sockets w) (app w).

(** [uv_service_handler]: what the application does in the callbacks. *)
Class handler (A : Type) := {
  h_newsession : Z -> A -> outcome A;
  h_closesession : Z -> A -> outcome A;
  h_tcpreceive : Z -> list Z -> A -> outcome A }.

Section service.
Context {A : Type} `{handler A} (junk : Z).

(** Whether the zero-byte [WSARecv] that waits for data can be submitted. *)
Context (submit : bool).

Definition get_object (p : Z) (w : world A) : outcome session :=
  match objects w !! p with Some s => Ok s | None => Crash UseAfterFree end.
Definition put_object (p : Z) (s : session) (w : world A) : world A := w <| objects := <[p := s]> (objects w) |>.

(** *** libuv: the handle *)

Definition uv_is_active (t : uv_tcp) : bool := t_active t && negb (t_closing t).

(** [INCREASE_ACTIVE_COUNT] and [DECREASE_ACTIVE_COUNT] *)
Definition increase_active_count (t : uv_tcp) : uv_tcp :=
  let t' := if t_activecnt t =? 0 then t <| t_active := true |> else t in
  t' <| t_activecnt := t_activecnt t + 1 |>.
Definition decrease_active_count (t : uv_tcp) : outcome uv_tcp :=
  let n := t_activecnt t - 1 in
  let t' := if (n =? 0) && negb (t_closing t) then t <| t_active := false |> else t in
  _ ← c_assert (n >=? 0); Ok (t' <| t_activecnt := n |>).

(** [uv_want_endgame] *)
Definition uv_want_endgame (p : Z) (w : world A) : outcome (world A) :=
  s ← get_object p w;
  if t_endgame (s_tcp s) then Ok w
  else
    let w := w <| endgame_handles := p :: endgame_handles w |> in
    Ok (put_object p (s <| s_tcp := (s_tcp s) <| t_endgame := true |> |>) w).

(** [DECREASE_PENDING_REQ_COUNT] *)
Definition decrease_pending_req_count (p : Z) (w : world A) : outcome (world A) :=
  s ← get_object p w;
  let n := t_reqs_pending (s_tcp s) - 1 in
  _ ← c_assert (t_reqs_pending (s_tcp s) >? 0);
  let w := put_object p (s <| s_tcp := (s_tcp s) <| t_reqs_pending := n |> |>) w in
  if t_closing (s_tcp s) && (n =? 0) then uv_want_endgame p w else Ok w.

(** [uv_read_stop]: the callback stays, the flag and the active count go. *)
Definition uv_read_stop (p : Z) (w : world A) : outcome (world A) :=
  s ← get_object p w;
  if negb (t_reading (s_tcp s)) then Ok w
  else
    t ← decrease_active_count ((s_tcp s) <| t_reading := false |>);
    Ok (put_object p (s <| s_tcp := t |>) w).

(** [uv_close] and [uv_tcp_close]; [cb] says whether there is a close callback,
    which runs in the endgame, once no request is pending. *)
Definition uv_close (cb : bool) (p : Z) (w : world A) : outcome (world A) :=
  s ← get_object p w;
  _ ← c_assert (negb (t_closing (s_tcp s)));
  let t := (s_tcp s) <| t_close_cb := cb |> in
  t ← (if t_reading t then decrease_active_count (t <| t_reading := false |>) else Ok t);
  let t := t <| t_open := false |> <| t_readable := false |> <| t_closing := true |> <| t_active := false |> in
  let w := put_object p (s <| s_tcp := t |>) w in
  if t_reqs_pending t =? 0 then uv_want_endgame p w else Ok w.

(** *** uv_session *)

Definition generateid (w : world A) : Z * world A :=
  let id := i32 (next_id w + 1) in (id, w <| next_id := id |>).

(** [new uv_session(service, ipv6)] at address [p]; [body0] and [length0] are the
    parts of the packet its constructor does not initialise. *)
Definition uv_tcp_zero : uv_tcp := mkUvTcp false false false false false false 0 0 false None false.
Definition uv_session_new (p : Z) (ipv6 : bool) (body0 : uv_buf) (length0 : Z) (w : world A) : world A :=
  let '(id, w) := generateid w in
  let readbuf := mkBuf (malloc junk PACKET_BUFFER_SIZE) PACKET_BUFFER_SIZE in
  let writebuf := mkBuf (malloc junk PACKET_BUFFER_SIZE) PACKET_BUFFER_SIZE in
  put_object p (mkSession id uv_tcp_zero (uv_packet_new junk body0 length0) readbuf writebuf ipv6) w.

(** [uv_session::close] *)
Definition session_close (p : Z) (w : world A) : outcome (world A) :=
  s ← get_object p w;
  if uv_is_active (s_tcp s) then w ← uv_read_stop p w; uv_close true p w else Ok w.

(** [~uv_packet] *)
Definition uv_packet_delete (pk : uv_packet) : outcome unit :=
  _ ← safe_free (base (m_head pk)); _ ← safe_free (base (m_body pk)); Ok tt.

(** [SAFE_DELETE(session)]: the destructor closes an active handle and frees the
    session's buffers, then the packet's destructor frees its own. *)
Definition session_delete (p : Z) (w : world A) : outcome (world A) :=
  s ← get_object p w;
  w ← (if uv_is_active (s_tcp s) then session_close p w else Ok w);
  s ← get_object p w;
  _ ← safe_free (base (s_readbuf s));
  _ ← safe_free (base (s_writebuf s));
  _ ← uv_packet_delete (s_packet s);
  Ok (w <| objects := delete p (objects w) |>
        <| lost_sockets := if t_open (s_tcp s) then p :: lost_sockets w else lost_sockets w |>).

(** The endgame of a closing handle: the close callback,
    [uv_session::on_close], frees the handle, which is a member of the session. *)
Definition on_close (p : Z) (w : world A) : outcome (world A) := Crash InvalidFree.

Definition uv_tcp_endgame (p : Z) (w : world A) : outcome (world A) :=
  s ← get_object p w;
  let t := (s_tcp s) <| t_endgame := false |> in
  let w := put_object p (s <| s_tcp := t |>) w in
  if t_closing t && (t_reqs_pending t =? 0) then if t_close_cb t then on_close p w else Ok w
  else Ok w.

Fixpoint process_endgames (handles : list Z) (w : world A) : outcome (world A) :=
  match handles with
  | [] => Ok w
  | p :: handles => w ← uv_tcp_endgame p (w <| endgame_handles := handles |>); process_endgames handles w
  end.
Definition uv_process_endgames (w : world A) : outcome (world A) := process_endgames (endgame_handles w) w.

(** *** uv_service *)

(** [getsession]: scan [m_sessions] in key order for a session whose id matches. *)
Fixpoint find_session (id : Z) (l : list (Z * Z)) (w : world A) : outcome (option Z) :=
  match l with
  | [] => Ok None
  | (_, p) :: l => s ← get_object p w; if s_id s =? id then Ok (Some p) else find_session id l w
  end.
Definition getsession (id : Z) (w : world A) : outcome (option Z) :=
  find_session id (map_to_list (m_sessions w)) w.

Definition closesession (id : Z) (w : world A) : outcome (world A) :=
  r ← getsession id w;
  match r with
  | None => Ok w
  | Some p =>
      w ← session_close p w;
      let w := w <| m_sessions := delete id (m_sessions w) |> in
      a ← h_closesession p (app w);
      session_delete p (w <| app := a |>)
  end.

Definition on_newsession (p : Z) (w : world A) : outcome (world A) :=
  s ← get_object p w;
  let w := match m_sessions w !! s_id s with
           | None => w <| m_sessions := <[s_id s := p]> (m_sessions w) |>
           | Some _ => w
           end in
  a ← h_newsession p (app w);
  Ok (w <| app := a |>).

Definition on_tcpreceive (p : Z) (data : list Z) (w : world A) : outcome (world A) :=
  a ← h_tcpreceive p data (app w); Ok (w <| app := a |>).

(** *** libuv: starting to read *)

(** [uv_tcp_queue_read].  [uv_active_tcp_streams_threshold] is 0, so the branch
    that preallocates a buffer is never taken: the request is a read of zero
    bytes ([UV_HANDLE_ZERO_READ]); one that cannot be submitted is inserted as a
    failed request. *)
Definition uv_tcp_queue_read (p : Z) (w : world A) : outcome (world A) :=
  s ← get_object p w;
  let t := s_tcp s in
  _ ← c_assert (t_reading t);
  _ ← c_assert (negb (t_read_pending t));
  let t := if submit then t <| t_read_pending := true |> else t in
  Ok (put_object p (s <| s_tcp := t <| t_reqs_pending := t_reqs_pending t + 1 |> |>) w).

(** [uv_read_start] and [uv_tcp_read_start]: a handle that is reading keeps its
    callbacks. *)
Definition uv_read_start (p : Z) (cb : read_callback) (w : world A) : outcome (Z * world A) :=
  s ← get_object p w;
  if t_reading (s_tcp s) then Ok (UV_EALREADY, w)
  else if negb (t_readable (s_tcp s)) then Ok (UV_ENOTCONN, w)
  else
    let t := increase_active_count ((s_tcp s) <| t_reading := true |> <| t_cb := Some cb |>) in
    let w := put_object p (s <| s_tcp := t |>) w in
    if negb (t_read_pending t) then w ← uv_tcp_queue_read p w; Ok (0, w) else Ok (0, w).

(** *** The framing state machine *)

Definition clear_packet (p : Z) (w : world A) : outcome (world A) :=
  s ← get_object p w; pk ← uv_packet_clear (s_packet s);
  Ok (put_object p (s <| s_packet := pk |>) w).

Definition receive_head (p : Z) (w : world A) : outcome (Z * world A) :=
  w ← clear_packet p w; uv_read_start p CbHead w.
Definition receive_body (p : Z) (w : world A) : outcome (Z * world A) := uv_read_start p CbBody w.

(** What both callbacks do with a length they do not expect. *)
Definition receive_failed (p nread : Z) (w : world A) : outcome (world A) :=
  w ← clear_packet p w;
  if nread <? 0 then
    s ← get_object p w;
    w ← closesession (s_id s) w;
    if (nread =? UV_EOF) || (nread =? UV_ECONNRESET) then Ok w else Crash Aborted
  else Ok w.

Definition on_receive_head (p nread : Z) (w : world A) : outcome (world A) :=
  s ← get_object p w;
  let pk := s_packet s in
  if u64 nread =? len (m_head pk) then
    let pk := pk <| m_length := u64 nread |> in
    let w := put_object p (s <| s_packet := pk |>) w in
    n ← uv_bodylength pk;
    if i32 n >? 0 then '(_, w) ← receive_body p w; Ok w
    else
      data ← buf_bytes (base (m_head pk)) 0 (len (m_head pk));
      w ← on_tcpreceive p data w;
      w ← clear_packet p w;
      '(_, w) ← receive_head p w; Ok w
  else receive_failed p nread w.

Definition on_receive_body (p nread : Z) (w : world A) : outcome (world A) :=
  s ← get_object p w;
  let pk := s_packet s in
  n ← (if nread >? 0 then uv_bodylength pk else Ok 0);
  if (nread >? 0) && (u64 nread =? n) then
    let pk := pk <| m_length := u64 (m_length pk + n) |> in
    let w := put_object p (s <| s_packet := pk |>) w in
    head ← buf_bytes (base (m_head pk)) 0 (len (m_head pk));
    body ← buf_bytes (base (m_body pk)) 0 n;
    w ← on_tcpreceive p (head ++ body) w;
    w ← clear_packet p w;
    '(_, w) ← receive_head p w; Ok w
  else receive_failed p nread w.

(** *** libuv: a read request completes *)

Definition run_alloc (cb : read_callback) (p : Z) (w : world A) : outcome (world A * uv_buf) :=
  s ← get_object p w;
  '(pk, b) ← match cb with CbHead => on_alloc_head (s_packet s) | CbBody => on_alloc_body junk (s_packet s) end;
  Ok (put_object p (s <| s_packet := pk |>) w, b).

(** [WSARecv] fills the buffer that was allocated, [m_head] or [m_body]. *)
Definition fill_block (b : uv_buf) (d : list Z) : outcome uv_buf :=
  match base b with
  | Block l => l ← write_at l 0 d; Ok (mkBuf (Block l) (len b))
  | Null => Crash NullDeref
  | Wild => Crash OutOfBounds
  end.
Definition fill_buffer (cb : read_callback) (d : list Z) (p : Z) (w : world A) : outcome (world A) :=
  s ← get_object p w;
  let pk := s_packet s in
  pk ← match cb with
       | CbHead => b ← fill_block (m_head pk) d; Ok (pk <| m_head := b |>)
       | CbBody => b ← fill_block (m_body pk) d; Ok (pk <| m_body := b |>)
       end;
  Ok (put_object p (s <| s_packet := pk |>) w).

Definition read_cb (cb : option read_callback) : Z -> Z -> world A -> outcome (world A) :=
  match cb with
  | Some CbHead => on_receive_head
  | Some CbBody => on_receive_body
  | None => fun _ _ _ => Crash NullDeref
  end.

(** The end of the stream and an error stop the handle before the callback; the
    end of the stream also makes it unreadable. *)
Definition stop_reading (eof : bool) (p : Z) (w : world A) : outcome (world A) :=
  s ← get_object p w;
  let t := (s_tcp s) <| t_reading := false |> <| t_readable := t_readable (s_tcp s) && negb eof |> in
  t ← decrease_active_count t;
  Ok (put_object p (s <| s_tcp := t |>) w).

(** What the non-blocking reads find behind the bytes that have arrived. *)
Inductive recv_end := WouldBlock | Closed | Failed (err : Z).

(** The loop of [uv_process_tcp_read_req]: each [WSARecv] takes what has arrived,
    at most the size of the buffer; [fuel] is at least the number of rounds. *)
Fixpoint uv_read (fuel : nat) (p : Z) (arrived : list Z) (last : recv_end) (w : world A) : outcome (world A) :=
  match fuel with
  | O => Crash OutOfFuel
  | S fuel =>
      s ← get_object p w;
      if negb (t_reading (s_tcp s)) then Ok w else
      match t_cb (s_tcp s) with
      | None => Crash NullDeref
      | Some cb =>
          '(w, buf) ← run_alloc cb p w;
          if bool_decide (base buf = Null) || (len buf =? 0) then read_cb (Some cb) p UV_ENOBUFS w
          else if bool_decide (arrived = []) then
            match last with
            | WouldBlock => read_cb (Some cb) p 0 w
            | Closed => w ← stop_reading true p w; read_cb (Some cb) p UV_EOF w
            | Failed err => w ← stop_reading false p w; read_cb (Some cb) p err w
            end
          else
            let d := take (Z.to_nat (len buf)) arrived in
            w ← fill_buffer cb d p w;
            w ← read_cb (Some cb) p (zlen d) w;
            if zlen d <? len buf then Ok w
            else uv_read fuel p (drop (Z.to_nat (len buf)) arrived) last w
      end
  end.

(** The request failed, or there is something to read. *)
Inductive read_req := ReqError (err : Z) | ReqReady (arrived : list Z) (last : recv_end).

Definition uv_process_tcp_read_req (p : Z) (req : read_req) (w : world A) : outcome (world A) :=
  s ← get_object p w;
  let w := put_object p (s <| s_tcp := (s_tcp s) <| t_read_pending := false |> |>) w in
  w ← match req with
      | ReqError err =>
          if t_reading (s_tcp s) then w ← stop_reading false p w; read_cb (t_cb (s_tcp s)) p err w
          else Ok w
      | ReqReady arrived last =>
          w ← uv_read (S (length arrived)) p arrived last w;
          s ← get_object p w;
          if t_reading (s_tcp s) && negb (t_read_pending (s_tcp s)) then uv_tcp_queue_read p w else Ok w
      end;
  decrease_pending_req_count p w.

(** *** uv_tcp_server *)

(** [on_accept(handle, status)]; [r_init] and [r_accept] are what [uv_tcp_init]
    and [uv_accept] return, [p] is the address [new] returns, [ipv6] the server's
    flag.  An accepted handle is readable. *)
Definition on_accept (ipv6 : bool) (status r_init r_accept p : Z) (body0 : uv_buf) (length0 : Z) (w : world A)
  : outcome (world A) :=
  if negb (status =? 0) then Crash Aborted else
  let w := uv_session_new p ipv6 body0 length0 w in
  if negb (r_init =? 0) then w ← session_delete p w; Crash Aborted else
  if negb (r_accept =? 0) then w ← uv_close false p w; session_delete p w else
  s ← get_object p w;
  let w := put_object p (s <| s_tcp := (s_tcp s) <| t_open := true |> <| t_readable := true |> |>) w in
  w ← on_newsession p w;
  '(r, w) ← receive_head p w;
  if r =? 0 then Ok w else Crash Aborted.

(** [on_send(req, status)]: libuv passes 0 when the write succeeded. *)
Definition on_send (status : Z) (w : world A) : outcome (world A) :=
  if negb (status =? 0) then Ok w else Crash Aborted.
End service.

(** ** Invariants *)

(** A packet whose buffers libuv and the callbacks can use. *)
Record packet_ready (pk : uv_packet) : Prop := {
  ready_head : exists l, m_head pk = mkBuf (Block l) PACKET_BUFFER_SIZE /\ zlen l = PACKET_BUFFER_SIZE;
  ready_body : base (m_body pk) = Null \/ exists l, m_body pk = mkBuf (Block l) (zlen l) }.

(** A session that waits for a head: libuv reads for it, with a request under way. *)
Record head_ready (s : session) : Prop := {
  hr_packet : packet_ready (s_packet s);
  hr_active : t_active (s_tcp s) = true;
  hr_reading : t_reading (s_tcp s) = true;
  hr_closing : t_closing (s_tcp s) = false;
  hr_endgame : t_endgame (s_tcp s) = false;
  hr_activecnt : 0 < t_activecnt (s_tcp s);
  hr_reqs : 0 < t_reqs_pending (s_tcp s);
  hr_cb : t_cb (s_tcp s) = Some CbHead }.

(** The handle counts a read as activity and is queued for the endgame only when
    it is closing. *)
Definition tcp_wf (t : uv_tcp) : Prop :=
  (t_reading t = true -> 0 < t_activecnt t) /\ (t_endgame t = true -> t_closing t = true).

(** What the destructors free is null or a live block. *)
Definition owned (b : uv_buf) : Prop := base b <> Wild.
#[export] Instance owned_dec b : Decision (owned b).
Proof. unfold owned. apply _. Defined.
Definition session_owned (s : session) : Prop :=
  (owned (s_readbuf s) /\ owned (s_writebuf s)) /\ owned (m_head (s_packet s)) /\ owned (m_body (s_packet s)).
#[export] Instance session_owned_dec s : Decision (session_owned s).
Proof. unfold session_owned. apply _. Defined.

(** The table maps the id of a live session to its address. *)
Record table_wf {A} (w : world A) : Prop := {
  table_live : forall id p, m_sessions w !! id = Some p -> exists s, objects w !! p = Some s /\ s_id s = id;
  table_ids : forall p s, objects w !! p = Some s -> 0 < s_id s <= next_id w;
  table_tcp : forall p s, objects w !! p = Some s -> tcp_wf (s_tcp s) }.

Lemma write_at_all l n x : 0 <= n -> zlen l = n ->
  write_at l 0 (replicate (Z.to_nat n) x) = Ok (replicate (Z.to_nat n) x).
Proof.
  intros Hn Hl. unfold write_at. assert (zlen (replicate (Z.to_nat n) x) = n) as E
    by (unfold zlen; rewrite length_replicate; lia).
  rewrite bool_decide_eq_true_2 by lia. rewrite E. cbn [Z.to_nat take app].
  rewrite drop_ge by (unfold zlen in *; lia). by rewrite app_nil_r.
Qed.

Lemma uv_packet_clear_ready pk : packet_ready pk ->
  exists pk', uv_packet_clear pk = Ok pk' /\ packet_ready pk' /\ m_length pk' = m_length pk.
Proof.
  intros [(l & Hh & Hl) Hb]. unfold uv_packet_clear, buf_clear. rewrite Hh. cbn [base len].
  rewrite write_at_all by (done || lia). cbn [mbind outcome_bind].
  assert (E : zlen (replicate (Z.to_nat PACKET_BUFFER_SIZE) 0) = PACKET_BUFFER_SIZE) by by_decide.
  destruct Hb as [Hb|(k & Hb)].
  - rewrite Hb. eexists. split; [done|]. split; [|done]. split; [by eexists|by left].
  - rewrite Hb. cbn [base len]. rewrite write_at_all by (done || apply zlen_nonneg).
    eexists. split; [done|]. split; [|done]. split; [by eexists|]. right. cbn. eexists. f_equal.
    unfold zlen. rewrite length_replicate. lia.
Qed.

Lemma packet_ready_owned pk : packet_ready pk -> owned (m_head pk) /\ owned (m_body pk).
Proof.
  intros [(l & -> & _) Hb]. split; [done|]. unfold owned. by destruct Hb as [-> |(k & ->)].
Qed.

Lemma safe_free_owned b : safe_free (base b) = if bool_decide (owned b) then Ok Null else Crash InvalidFree.
Proof. by destruct b as [[] ?]. Qed.

Section proofs.
Context {A : Type} `{handler A} (junk : Z).

Lemma get_put p s (w : world A) : get_object p (put_object p s w) = Ok s.
Proof. unfold get_object, put_object. cbn. by rewrite lookup_insert_eq. Qed.

Lemma get_ok p s (w : world A) : objects w !! p = Some s -> get_object p w = Ok s.
Proof. unfold get_object. by intros ->. Qed.

Lemma get_gone p (w : world A) : objects w !! p = None -> get_object p w = Crash UseAfterFree.
Proof. unfold get_object. by intros ->. Qed.

Lemma put_put p s s' (w : world A) : put_object p s' (put_object p s w) = put_object p s' w.
Proof. unfold put_object. cbn. by rewrite insert_insert_eq. Qed.

Lemma put_same p s (w : world A) : objects w !! p = Some s -> put_object p s w = w.
Proof. intros Hs. unfold put_object, set_field. cbn. rewrite insert_id by done. by destruct w. Qed.

Lemma lookup_put p s (w : world A) : objects (put_object p s w) !! p = Some s.
Proof. apply lookup_insert_eq. Qed.

Lemma app_put p s (w : world A) : app (put_object p s w) = app w.
Proof. done. Qed.

Lemma put_app p s (w : world A) a : (put_object p s w) <| app := a |> = put_object p s (w <| app := a |>).
Proof. done. Qed.

Lemma put_endgame p s (w : world A) l :
  put_object p s (w <| endgame_handles := l |>) = (put_object p s w) <| endgame_handles := l |>.
Proof. done. Qed.

Lemma app_app (w : world A) a b : (w <| app := a |>) <| app := b |> = w <| app := b |>.
Proof. done. Qed.

Lemma app_same (w : world A) : w <| app := app w |> = w.
Proof. by destruct w. Qed.

Lemma put_packet s pk pk' : (s <| s_packet := pk |>) <| s_packet := pk' |> = s <| s_packet := pk' |>.
Proof. done. Qed.

Lemma head_ready_packet s pk : head_ready s -> packet_ready pk -> head_ready (s <| s_packet := pk |>).
Proof. intros [] Hpk. by split. Qed.

Lemma clear_packet_ready p s (w : world A) :
  objects w !! p = Some s -> packet_ready (s_packet s) ->
  exists pk, clear_packet p w = Ok (put_object p (s <| s_packet := pk |>) w) /\ packet_ready pk.
Proof.
  intros Hs Hpk. unfold clear_packet. rewrite (get_ok p s w Hs). cbn [mbind outcome_bind].
  destruct (uv_packet_clear_ready _ Hpk) as (pk & -> & Hr & _). by eexists.
Qed.

Lemma find_session_spec (w : world A) id l :
  NoDup l.*1 -> (forall k p, (k, p) ∈ l -> exists s, objects w !! p = Some s /\ s_id s = k) ->
  find_session id l w = Ok (list_to_map (M := gmap Z Z) l !! id).
Proof.
  induction l as [|[k p] l IH]; intros Hnd Hl; [done|]. cbn [find_session].
  csimpl in Hnd. apply NoDup_cons in Hnd as [Hk Hnd].
  destruct (Hl k p) as (s & Hs & Hid); [by left|]. unfold get_object. rewrite Hs. cbn [mbind outcome_bind].
  cbn [list_to_map foldr]. cbn. destruct (Z.eqb_spec (s_id s) id) as [E|E].
  - subst. by rewrite lookup_insert_eq.
  - rewrite lookup_insert_ne by congruence. apply IH; [done|]. intros ???. apply Hl. by right.
Qed.

(** [getsession] is a lookup. *)
Lemma getsession_lookup (w : world A) id : table_wf w -> getsession id w = Ok (m_sessions w !! id).
Proof.
  intros Hw. unfold getsession. rewrite find_session_spec.
  - by rewrite list_to_map_to_list.
  - apply NoDup_fst_map_to_list.
  - intros k p Hin%elem_of_map_to_list. by apply (table_live w Hw).
Qed.

Lemma put_table_wf p s s' (w : world A) :
  table_wf w -> objects w !! p = Some s -> s_id s' = s_id s -> tcp_wf (s_tcp s') -> table_wf (put_object p s' w).
Proof.
  intros [T1 T2 T3] Hs Hid Htcp. split; cbn.
  - intros id q Hq. destruct (T1 id q Hq) as (t & Ht & Htid). destruct (decide (q = p)) as [->|Hne].
    + exists s'. rewrite lookup_insert_eq. split; [done|]. congruence.
    + exists t. by rewrite lookup_insert_ne.
  - intros q t [[<- <-]|[Hne Ht]]%lookup_insert_Some; [rewrite Hid|]; eauto.
  - intros q t [[<- <-]|[Hne Ht]]%lookup_insert_Some; eauto.
Qed.

(** ** Closing *)

(** Closing an active handle leaves a session with the same buffers, closed,
    queued for the endgame when no request is pending. *)
Lemma session_close_spec p s (w : world A) :
  objects w !! p = Some s -> tcp_wf (s_tcp s) ->
  exists t, session_close p w = Ok ((put_object p (s <| s_tcp := t |>) w) <| endgame_handles :=
      if uv_is_active (s_tcp s) && (t_reqs_pending (s_tcp s) =? 0) then p :: endgame_handles w else endgame_handles w |>) /\
    uv_is_active t = false /\ t_open t = negb (uv_is_active (s_tcp s)) && t_open (s_tcp s) /\ tcp_wf t.
Proof.
  intros Hs Ht. unfold session_close. rewrite (get_ok p s w Hs). cbn [mbind outcome_bind].
  destruct (uv_is_active (s_tcp s)) eqn:Ea; cbn [andb negb].
  2: { exists (s_tcp s). split; [|done]. f_equal. replace (s <| s_tcp := s_tcp s |>) with s by (by destruct s).
       rewrite put_same by done. by destruct w. }
  unfold uv_is_active in Ea. apply andb_true_iff in Ea as [_ Hc]. apply negb_true_iff in Hc.
  destruct Ht as [Hr He]. assert (He' : t_endgame (s_tcp s) = false) by (destruct (t_endgame (s_tcp s)); [specialize (He eq_refl); congruence|done]).
  assert (Hstop : exists t, uv_read_stop p w = Ok (put_object p (s <| s_tcp := t |>) w) /\ t_reading t = false /\
    t_closing t = false /\ t_endgame t = false /\ t_reqs_pending t = t_reqs_pending (s_tcp s)).
  { unfold uv_read_stop. rewrite (get_ok p s w Hs). cbn [mbind outcome_bind].
    destruct (t_reading (s_tcp s)) eqn:Er; cbn [negb].
    - unfold decrease_active_count. cbn [t_activecnt set_field t_closing]. specialize (Hr eq_refl).
      unfold c_assert. rewrite (proj2 (Z.geb_le _ _)) by lia. cbn [mbind outcome_bind]. eexists. split; [done|].
      by destruct (_ && _).
    - exists (s_tcp s). split; [|done]. f_equal. symmetry. replace (s <| s_tcp := s_tcp s |>) with s by (by destruct s).
      by apply put_same. }
  destruct Hstop as (t & -> & Ht1 & Ht2 & Ht3 & Ht4). cbn [mbind outcome_bind].
  unfold uv_close. rewrite get_put. cbn [mbind outcome_bind s_tcp set_field]. rewrite Ht2. unfold c_assert.
  cbn [negb mbind outcome_bind t_reading set_field]. rewrite Ht1. cbn [mbind outcome_bind]. rewrite put_put.
  cbn [t_reqs_pending set_field]. rewrite Ht4. destruct (t_reqs_pending (s_tcp s) =? 0).
  - unfold uv_want_endgame. rewrite get_put. cbn [mbind outcome_bind s_tcp t_endgame set_field]. rewrite Ht3. rewrite put_endgame, put_put.
    eexists. split; [done|]. split; [done|]. split; [done|]. split; cbn; [by rewrite Ht1|done].
  - eexists. split; [by destruct w|]. split; [done|]. split; [done|]. split; cbn; [by rewrite Ht1|done].
Qed.

(** Deleting a session whose handle is not active. *)
Lemma session_delete_spec p s (w : world A) :
  objects w !! p = Some s -> uv_is_active (s_tcp s) = false ->
  session_delete p w =
    if bool_decide (session_owned s)
    then Ok (w <| objects := delete p (objects w) |>
               <| lost_sockets := if t_open (s_tcp s) then p :: lost_sockets w else lost_sockets w |>)
    else Crash InvalidFree.
Proof.
  intros Hs Ha. unfold session_delete. rewrite (get_ok p s w Hs). cbn [mbind outcome_bind]. rewrite Ha.
  cbn [mbind outcome_bind]. rewrite (get_ok p s w Hs). cbn [mbind outcome_bind].
  unfold uv_packet_delete. rewrite !safe_free_owned.
  assert (E : bool_decide (session_owned s) =
    (bool_decide (owned (s_readbuf s)) && bool_decide (owned (s_writebuf s))) &&
    (bool_decide (owned (m_head (s_packet s))) && bool_decide (owned (m_body (s_packet s))))).
  { by rewrite <- !bool_decide_and. }
  rewrite E. by repeat destruct (bool_decide (owned _)).
Qed.

(** [closesession] of a registered session, handler included. *)
Lemma closesession_registered id p s (w : world A) a :
  table_wf w -> m_sessions w !! id = Some p -> objects w !! p = Some s ->
  h_closesession p (app w) = Ok a ->
  closesession id w =
    if bool_decide (session_owned s) then
      Ok (mkWorld (delete p (objects w)) (delete id (m_sessions w)) (next_id w)
        (if uv_is_active (s_tcp s) && (t_reqs_pending (s_tcp s) =? 0) then p :: endgame_handles w else endgame_handles w)
        (if negb (uv_is_active (s_tcp s)) && t_open (s_tcp s) then p :: lost_sockets w else lost_sockets w) a)
    else Crash InvalidFree.
Proof.
  intros Hw Hid Hs Ha. unfold closesession. rewrite getsession_lookup by done. rewrite Hid.
  cbn [mbind outcome_bind].
  destruct (session_close_spec p s w Hs) as (t & -> & Hact & Hopen & _); [by eapply table_tcp|]. cbn [mbind outcome_bind].
  match goal with |- context [h_closesession p ?x] => change x with (app w) end. rewrite Ha. cbn [mbind outcome_bind].
  rewrite (session_delete_spec p (s <| s_tcp := t |>)); [|cbn; apply lookup_insert_eq|done].
  change (session_owned (s <| s_tcp := t |>)) with (session_owned s). destruct (bool_decide _); [|done].
  cbn. rewrite Hopen. by rewrite delete_insert_eq.
Qed.

(** C13: [closesession] removes exactly the session with that id, and only it: on
    a well-formed table an id that is not registered changes nothing; a registered
    one is erased from the table and its object deleted, every other session and
    entry kept and the table well-formed again, provided the four buffers its
    destructors free are null or live; with a stray pointer among them, such as a
    body that was never initialised, the deletion is an invalid [free]. *)
Theorem closesession_exact (id : Z) (w : world A) :
  table_wf w -> (forall q a, exists a', h_closesession q a = Ok a') ->
  match m_sessions w !! id with
  | None => closesession id w = Ok w
  | Some p =>
      exists s, objects w !! p = Some s /\ s_id s = id /\
        (session_owned s -> exists w', closesession id w = Ok w' /\ table_wf w' /\
          m_sessions w' = delete id (m_sessions w) /\ objects w' = delete p (objects w) /\ next_id w' = next_id w) /\
        (~ session_owned s -> closesession id w = Crash InvalidFree)
  end.
Proof.
  intros Hw Hclose. destruct (m_sessions w !! id) as [p|] eqn:E.
  - destruct (table_live w Hw _ _ E) as (s & Hs & Hid). destruct (Hclose p (app w)) as [a' Ha'].
    exists s. split; [done|]. split; [done|].
    rewrite (closesession_registered _ _ _ _ _ Hw E Hs Ha'). split; intros Ho.
    2: { by rewrite bool_decide_eq_false_2. }
    rewrite bool_decide_eq_true_2 by done. eexists. split; [done|].
    split; [|done]. destruct Hw as [T1 T2 T3]. split; cbn.
    + intros id' q [Hne Hq]%lookup_delete_Some. destruct (T1 id' q Hq) as (t & Ht & Htid).
      exists t. rewrite lookup_delete_ne; [done|]. intros ->. congruence.
    + intros q t [_ Ht]%lookup_delete_Some. eauto.
    + intros q t [_ Ht]%lookup_delete_Some. eauto.
  - unfold closesession. by rewrite getsession_lookup, E by done.
Qed.

(** ** Receiving *)

(** The failure branch on a live session with good buffers. *)
Lemma receive_failed_short p s (w : world A) nread :
  objects w !! p = Some s -> packet_ready (s_packet s) -> 0 <= nread ->
  exists pk, packet_ready pk /\ receive_failed p nread w = Ok (put_object p (s <| s_packet := pk |>) w).
Proof.
  intros Hs Hpk Hn. unfold receive_failed.
  destruct (clear_packet_ready p s w Hs Hpk) as (pk & -> & Hr). cbn [mbind outcome_bind].
  rewrite (proj2 (Z.ltb_ge nread 0)) by done. by exists pk.
Qed.

(** The failure branch with an error: the session is closed. *)
Lemma receive_failed_close p s (w : world A) nread a :
  objects w !! p = Some s -> packet_ready (s_packet s) -> session_owned s -> table_wf w ->
  m_sessions w !! s_id s = Some p -> h_closesession p (app w) = Ok a -> nread < 0 ->
  receive_failed p nread w =
    if (nread =? UV_EOF) || (nread =? UV_ECONNRESET) then
      Ok (mkWorld (delete p (objects w)) (delete (s_id s) (m_sessions w)) (next_id w)
        (if uv_is_active (s_tcp s) && (t_reqs_pending (s_tcp s) =? 0) then p :: endgame_handles w else endgame_handles w)
        (if negb (uv_is_active (s_tcp s)) && t_open (s_tcp s) then p :: lost_sockets w else lost_sockets w) a)
    else Crash Aborted.
Proof.
  intros Hs Hpk [Ho1 Ho2] Hw Hreg Ha Hn. unfold receive_failed.
  destruct (clear_packet_ready p s w Hs Hpk) as (pk & -> & Hr). cbn [mbind outcome_bind].
  rewrite (proj2 (Z.ltb_lt nread 0)) by done. rewrite get_put. cbn [mbind outcome_bind].
  change (s_id (s <| s_packet := pk |>)) with (s_id s).
  rewrite (closesession_registered (s_id s) p (s <| s_packet := pk |>) (put_object p (s <| s_packet := pk |>) w) a);
    [|apply (put_table_wf p s _ w Hw Hs); [done|exact (table_tcp w Hw p s Hs)]|done|apply lookup_put|done].
  rewrite bool_decide_eq_true_2 by (split; [done|by apply packet_ready_owned]).
  cbn. by rewrite delete_insert_eq.
Qed.

Lemma fill_head p s (w : world A) d :
  objects w !! p = Some s -> packet_ready (s_packet s) -> zlen d <= PACKET_BUFFER_SIZE ->
  exists l pk, fill_buffer CbHead d p w = Ok (put_object p (s <| s_packet := pk |>) w) /\
    packet_ready pk /\ m_head pk = mkBuf (Block l) PACKET_BUFFER_SIZE /\ zlen l = PACKET_BUFFER_SIZE /\
    (zlen d = PACKET_BUFFER_SIZE -> l = d).
Proof.
  intros Hs [(l & Hh & Hl) Hb] Hd. unfold fill_buffer, get_object. rewrite Hs. cbn [mbind outcome_bind].
  rewrite Hh. unfold fill_block. cbn [base len]. unfold write_at. pose proof (zlen_nonneg d).
  rewrite bool_decide_eq_true_2 by (split; [lia|unfold PACKET_BUFFER_SIZE in *; lia]).
  cbn [mbind outcome_bind Z.to_nat take app]. set (l' := d ++ _).
  assert (El : zlen l' = PACKET_BUFFER_SIZE).
  { subst l'. rewrite zlen_app, zlen_drop; unfold PACKET_BUFFER_SIZE in *; lia. }
  eexists l', _. split; [done|]. split; [split; [by exists l'|done]|]. split; [done|]. split; [done|].
  intros E. subst l'. rewrite Z.add_0_l, drop_ge by (unfold zlen, PACKET_BUFFER_SIZE in *; lia). apply app_nil_r.
Qed.

(** The read loop on a session that waits for a head: the head buffer is offered. *)
Lemma uv_read_head n p s (w : world A) submit arrived last :
  objects w !! p = Some s -> head_ready s ->
  uv_read junk submit (S n) p arrived last w =
    if bool_decide (arrived = []) then
      match last with
      | WouldBlock => on_receive_head submit p 0 w
      | Closed => w ← stop_reading true p w; on_receive_head submit p UV_EOF w
      | Failed err => w ← stop_reading false p w; on_receive_head submit p err w
      end
    else
      let d := take (Z.to_nat PACKET_BUFFER_SIZE) arrived in
      w ← fill_buffer CbHead d p w;
      w ← on_receive_head submit p (zlen d) w;
      if zlen d <? PACKET_BUFFER_SIZE then Ok w
      else uv_read junk submit n p (drop (Z.to_nat PACKET_BUFFER_SIZE) arrived) last w.
Proof.
  intros Hs Hr. destruct (ready_head _ (hr_packet s Hr)) as (l & Hh & Hl).
  cbn [uv_read]. rewrite (get_ok p s w Hs). cbn [mbind outcome_bind].
  rewrite (hr_cb s Hr), (hr_reading s Hr). cbn [negb]. unfold run_alloc. rewrite (get_ok p s w Hs).
  cbn [mbind outcome_bind on_alloc_head]. replace (s <| s_packet := s_packet s |>) with s by (by destruct s).
  rewrite put_same by done. rewrite Hh. cbn [base len]. by rewrite bool_decide_eq_false_2 by done.
Qed.

Lemma head_bodylength pk head :
  m_head pk = mkBuf (Block head) PACKET_BUFFER_SIZE -> zlen head = PACKET_BUFFER_SIZE ->
  uv_bodylength pk = Ok (u32 (le_decode (take 4 (drop 24 head)))).
Proof.
  intros Hh Hl. unfold uv_bodylength, buf_bytes. rewrite Hh. cbn [base]. unfold read_at.
  rewrite bool_decide_eq_true_2 by (rewrite Hl; unfold UV_PACKET_HEAD_LENGTH, PACKET_BUFFER_SIZE; lia). done.
Qed.

(** A session that is reading stays as it is: [uv_read_start] refuses. *)
Lemma read_start_refused p s cb submit (w : world A) :
  objects w !! p = Some s -> t_reading (s_tcp s) = true -> uv_read_start submit p cb w = Ok (UV_EALREADY, w).
Proof. intros Hs Hr. unfold uv_read_start. rewrite (get_ok p s w Hs). cbn [mbind outcome_bind]. by rewrite Hr. Qed.

(** The chunks [on_receive_head] delivers, and the application that gets one. *)
Definition delivered (c : list Z) : bool := i32 (le_decode (take 4 (drop 24 c))) <=? 0.
Definition deliver (f : list Z -> A -> A) (a : A) (c : list Z) : A := if delivered c then f c a else a.

(** [on_receive_head] with a read that does not fill the buffer. *)
Lemma on_receive_head_short p s (w : world A) submit nread :
  objects w !! p = Some s -> packet_ready (s_packet s) -> 0 <= nread < PACKET_BUFFER_SIZE ->
  exists pk, packet_ready pk /\ on_receive_head submit p nread w = Ok (put_object p (s <| s_packet := pk |>) w).
Proof.
  intros Hs Hpk Hn. destruct (ready_head _ Hpk) as (l & Hh & Hl). unfold on_receive_head. rewrite (get_ok p s w Hs).
  cbn [mbind outcome_bind]. rewrite Hh. cbn [len].
  rewrite (proj2 (Z.eqb_neq (u64 nread) PACKET_BUFFER_SIZE)) by (unfold PACKET_BUFFER_SIZE in *; mword).
  apply receive_failed_short; [done|done|lia].
Qed.

(** [on_receive_head] with a full buffer: the body callback is never installed. *)
Lemma on_receive_head_full p s (w : world A) submit head f :
  objects w !! p = Some s -> t_reading (s_tcp s) = true -> packet_ready (s_packet s) ->
  m_head (s_packet s) = mkBuf (Block head) PACKET_BUFFER_SIZE -> zlen head = PACKET_BUFFER_SIZE ->
  (forall a, h_tcpreceive p head a = Ok (f head a)) ->
  exists pk, packet_ready pk /\ on_receive_head submit p PACKET_BUFFER_SIZE w =
    Ok (put_object p (s <| s_packet := pk |>) (w <| app := deliver f (app w) head |>)).
Proof.
  intros Hs Hread Hpk Hh Hhl Hf. unfold on_receive_head. rewrite (get_ok p s w Hs). cbn [mbind outcome_bind].
  rewrite Hh. cbn [len]. change (u64 PACKET_BUFFER_SIZE =? PACKET_BUFFER_SIZE) with true. cbv iota.
  rewrite (head_bodylength _ head) by done. cbn [mbind outcome_bind]. rewrite i32_u32.
  set (pk1 := _ <| m_length := _ |>).
  assert (Hpk1 : packet_ready pk1) by (destruct Hpk; by split).
  unfold deliver, delivered. rewrite Z.gtb_ltb, Z.ltb_antisym. destruct (i32 _ <=? 0); cbn [negb].
  - assert (Hb : buf_bytes (base (m_head pk1)) 0 (len (m_head pk1)) = Ok head).
    { change (m_head pk1) with (m_head (s_packet s)). rewrite Hh. cbn [base len]. unfold buf_bytes, read_at.
      rewrite bool_decide_eq_true_2 by (rewrite Hhl; unfold PACKET_BUFFER_SIZE; lia).
      f_equal. cbn [Z.to_nat drop]. apply take_ge. unfold zlen, PACKET_BUFFER_SIZE in *. lia. }
    rewrite Hb. cbn [mbind outcome_bind]. unfold on_tcpreceive. rewrite Hf. cbn [mbind outcome_bind].
    rewrite app_put, put_app.
    edestruct (clear_packet_ready p (s <| s_packet := pk1 |>)) as (pk2 & -> & Hpk2); [apply lookup_put|done|].
    cbn [mbind outcome_bind]. rewrite put_put, put_packet. unfold receive_head.
    edestruct (clear_packet_ready p (s <| s_packet := pk2 |>)) as (pk3 & -> & Hpk3); [apply lookup_put|done|].
    cbn [mbind outcome_bind]. rewrite put_put, put_packet.
    erewrite read_start_refused; [|apply lookup_put|done]. cbn [mbind outcome_bind]. by exists pk3.
  - unfold receive_body. erewrite read_start_refused; [|apply lookup_put|done]. cbn [mbind outcome_bind].
    rewrite app_same. by exists pk1.
Qed.

(** The full chunks of the bytes that have arrived. *)
Fixpoint chunks (fuel : nat) (d : list Z) : list (list Z) :=
  match fuel with
  | O => []
  | S fuel =>
      if zlen d <? PACKET_BUFFER_SIZE then []
      else take (Z.to_nat PACKET_BUFFER_SIZE) d :: chunks fuel (drop (Z.to_nat PACKET_BUFFER_SIZE) d)
  end.
Definition full_chunks (d : list Z) : list (list Z) := chunks (length d) d.

Lemma chunks_fuel n m d : (length d <= n)%nat -> (length d <= m)%nat -> chunks n d = chunks m d.
Proof.
  revert m d. induction n as [|n IH]; intros m d Hn Hm.
  - destruct m; [done|]. cbn. destruct d; [done|cbn in Hn; lia].
  - destruct m as [|m]; [cbn; destruct d; [done|cbn in Hm; lia]|]. cbn [chunks].
    destruct (Z.ltb_spec (zlen d) PACKET_BUFFER_SIZE); [done|]. f_equal. apply IH;
      rewrite length_drop; unfold zlen, PACKET_BUFFER_SIZE in *; lia.
Qed.

Lemma full_chunks_cons d : PACKET_BUFFER_SIZE <= zlen d ->
  full_chunks d = take (Z.to_nat PACKET_BUFFER_SIZE) d :: full_chunks (drop (Z.to_nat PACKET_BUFFER_SIZE) d).
Proof.
  intros Hd. unfold full_chunks. destruct (length d) as [|n] eqn:E; [unfold zlen, PACKET_BUFFER_SIZE in *; lia|].
  cbn [chunks]. rewrite (proj2 (Z.ltb_ge _ _)) by done. f_equal.
  apply chunks_fuel; rewrite length_drop; unfold zlen, PACKET_BUFFER_SIZE in *; lia.
Qed.

Lemma full_chunks_short d : zlen d < PACKET_BUFFER_SIZE -> full_chunks d = [].
Proof. intros Hd. unfold full_chunks. destruct (length d); [done|]. cbn [chunks]. by rewrite (proj2 (Z.ltb_lt _ _)). Qed.

(** The loop reads all that has arrived, and touches nothing but the packet and
    the application. *)
Lemma uv_read_all fuel p s (w : world A) submit arrived f :
  (length arrived < fuel)%nat -> objects w !! p = Some s -> head_ready s ->
  (forall c a, c ∈ full_chunks arrived -> h_tcpreceive p c a = Ok (f c a)) ->
  exists pk, packet_ready pk /\ uv_read junk submit fuel p arrived WouldBlock w =
    Ok (put_object p (s <| s_packet := pk |>) (w <| app := foldl (deliver f) (app w) (full_chunks arrived) |>)).
Proof.
  revert s w arrived. induction fuel as [|fuel IH]; intros s w arrived Hf Hs Hr Happ; [lia|].
  rewrite (uv_read_head fuel p s w submit arrived WouldBlock Hs Hr). cbv zeta. pose proof (zlen_nonneg arrived).
  destruct (bool_decide_reflect (arrived = [])) as [->|Hne].
  { change (full_chunks []) with (@nil (list Z)). cbn [foldl]. rewrite app_same.
    apply on_receive_head_short; [done|apply (hr_packet s Hr)|by_decide]. }
  set (d := take _ arrived).
  assert (Hd : zlen d = Z.min PACKET_BUFFER_SIZE (zlen arrived)).
  { subst d. unfold zlen, PACKET_BUFFER_SIZE. rewrite length_take. lia. }
  destruct (fill_head p s w d Hs (hr_packet s Hr)) as (l & pk & -> & Hpk & Hh & Hl & Hld); [lia|].
  cbn [mbind outcome_bind]. destruct (Z.ltb_spec (zlen arrived) PACKET_BUFFER_SIZE) as [Hlt|Hge].
  - rewrite full_chunks_short by done. cbn [foldl]. rewrite app_same.
    edestruct (on_receive_head_short p) as (pk2 & Hpk2 & ->); [apply lookup_put|done|split; [apply zlen_nonneg|lia]|].
    cbn [mbind outcome_bind]. rewrite (proj2 (Z.ltb_lt (zlen d) _)) by lia. rewrite put_put, put_packet. by exists pk2.
  - rewrite full_chunks_cons in * by done. fold d in Happ |- *. cbn [foldl].
    assert (Ed : zlen d = PACKET_BUFFER_SIZE) by lia. rewrite (Hld Ed) in Hh. rewrite Ed.
    edestruct (on_receive_head_full p) as (pk2 & Hpk2 & ->);
      [apply lookup_put|exact (hr_reading s Hr)|exact Hpk|exact Hh|exact Ed|intros a; apply Happ; by left|].
    cbn [mbind outcome_bind]. rewrite Z.ltb_irrefl, put_packet.
    edestruct IH as (pk3 & Hpk3 & ->); [| apply lookup_put | by apply head_ready_packet | intros c a Hc; apply Happ; by right | ].
    { rewrite length_drop. unfold zlen, PACKET_BUFFER_SIZE in *. lia. }
    exists pk3. split; [done|]. rewrite put_packet. f_equal.
    unfold put_object, set_field. cbn. by rewrite !insert_insert_eq.
Qed.
(** One read request, from its completion to the next one under way. *)
Lemma read_req_step p s (w : world A) submit arrived f :
  objects w !! p = Some s -> head_ready s ->
  (forall c a, c ∈ full_chunks arrived -> h_tcpreceive p c a = Ok (f c a)) ->
  exists s', head_ready s' /\ s_id s' = s_id s /\
    uv_process_tcp_read_req junk submit p (ReqReady arrived WouldBlock) w =
      Ok (put_object p s' (w <| app := foldl (deliver f) (app w) (full_chunks arrived) |>)).
Proof.
  intros Hs Hr Hf. unfold uv_process_tcp_read_req. rewrite (get_ok p s w Hs). cbn [mbind outcome_bind].
  set (s1 := s <| s_tcp := _ |>). assert (Hr1 : head_ready s1) by (destruct Hr; by split).
  destruct (uv_read_all (S (length arrived)) p s1 (put_object p s1 w) submit arrived f) as (pk & Hpk & ->);
    [lia|apply lookup_put|done|done|].
  cbn [mbind outcome_bind]. rewrite app_put, put_app, put_put, get_put. cbn [mbind outcome_bind].
  set (w1 := w <| app := _ |>). set (s2 := s1 <| s_packet := pk |>).
  assert (Hr2 : head_ready s2) by (by apply head_ready_packet).
  rewrite (hr_reading s2 Hr2). change (t_read_pending (s_tcp s2)) with false. cbn [andb negb].
  unfold uv_tcp_queue_read. rewrite get_put. cbn [mbind outcome_bind]. rewrite (hr_reading s2 Hr2).
  change (t_read_pending (s_tcp s2)) with false. cbn [c_assert negb mbind outcome_bind]. rewrite put_put.
  set (s3 := s2 <| s_tcp := _ |>).
  assert (Ht3 : t_reqs_pending (s_tcp s3) = t_reqs_pending (s_tcp s) + 1 /\ t_closing (s_tcp s3) = false /\
    t_active (s_tcp s3) = true /\ t_reading (s_tcp s3) = true /\ t_endgame (s_tcp s3) = false /\
    0 < t_activecnt (s_tcp s3) /\ t_cb (s_tcp s3) = Some CbHead)
    by (subst s3 s2 s1; destruct Hr; destruct submit; done).
  destruct Ht3 as (Q1 & Q2 & Q3 & Q4 & Q5 & Q6 & Q7). pose proof (hr_reqs s Hr).
  unfold decrease_pending_req_count. rewrite get_put. cbn [mbind outcome_bind]. rewrite Q1, Q2.
  unfold c_assert. rewrite (proj2 (Z.gtb_lt _ _)) by lia. cbn [mbind outcome_bind andb]. rewrite put_put.
  eexists. split; [|split; [|done]]; [|done]. split; cbn; try done. lia.
Qed.

(** C11: what a connection delivers, exactly: whatever a peer sends and however
    it is cut into reads, every read request is processed without a crash, the
    session waits for a head again with a new request under way, no other session
    and no table changes, and the application gets, in order, precisely those
    reads that fill the 1024-byte head buffer and whose length field, at offset
    24, is not positive. So a message with a body is never delivered, although
    [on_receive_head] asks for it: the callbacks of a handle that is reading do
    not change. *)
Theorem receive_exact (p : Z) (s : session) (w : world A) (f : list Z -> A -> A) (reads : list (bool * list Z)) :
  objects w !! p = Some s -> head_ready s -> (forall d a, h_tcpreceive p d a = Ok (f d a)) ->
  exists s', head_ready s' /\ s_id s' = s_id s /\
    foldl (fun o r => w ← o; uv_process_tcp_read_req junk r.1 p (ReqReady r.2 WouldBlock) w) (Ok w) reads =
    Ok (put_object p s' (w <| app := foldl (fun a c => f c a) (app w)
      (filter (fun c => i32 (le_decode (take 4 (drop 24 c))) <= 0) (reads ≫= fun r => full_chunks r.2)) |>)).
Proof.
  intros Hs Hr Hf.
  assert (Hfold : forall l a, foldl (deliver f) a l =
    foldl (fun a c => f c a) a (filter (fun c => i32 (le_decode (take 4 (drop 24 c))) <= 0) l)).
  { induction l as [|c l IH]; intros a; [done|]. cbn [foldl]. rewrite IH. unfold deliver, delivered.
    destruct (Z.leb_spec (i32 (le_decode (take 4 (drop 24 c)))) 0).
    - by rewrite filter_cons_True.
    - by rewrite filter_cons_False by lia. }
  rewrite <- Hfold. clear Hfold. revert s w Hs Hr. induction reads as [|[b d] reads IH]; intros s w Hs Hr.
  - exists s. split; [done|]. split; [done|]. cbn. by rewrite app_same, put_same.
  - destruct (read_req_step p s w b d f Hs Hr (fun c a _ => Hf c a)) as (s1 & Hr1 & Hid1 & E).
    destruct (IH s1 (put_object p s1 (w <| app := foldl (deliver f) (app w) (full_chunks d) |>)))
      as (s2 & Hr2 & Hid2 & E2); [apply lookup_put|done|].
    exists s2. split; [done|]. split; [congruence|]. cbn [foldl fst snd]. cbn [mbind outcome_bind]. rewrite E, E2.
    f_equal. cbn [mbind list_bind]. rewrite foldl_app. unfold put_object, set_field. cbn. by rewrite !insert_insert_eq.
Qed.

(** C12: no message shorter than the head buffer is ever delivered: a connection
    whose reads return less than 1024 bytes each (every ordinary message: a head
    is 24 bytes) leaves the application's state, the session table and every
    other session as they were, and the session waits for a head again. *)
Theorem short_chunks_dropped (p : Z) (s : session) (w : world A) (reads : list (bool * list Z)) :
  objects w !! p = Some s -> head_ready s ->
  Forall (fun r => 0 < zlen r.2 < PACKET_BUFFER_SIZE) reads ->
  exists s', head_ready s' /\ s_id s' = s_id s /\
    foldl (fun o r => w ← o; uv_process_tcp_read_req junk r.1 p (ReqReady r.2 WouldBlock) w) (Ok w) reads =
    Ok (put_object p s' w).
Proof.
  intros Hs Hr Hc. revert s w Hs Hr. induction Hc as [|[b d] reads Hd _ IH]; intros s w Hs Hr.
  - exists s. split; [done|]. split; [done|]. cbn. by rewrite put_same.
  - cbn [snd] in Hd. destruct (read_req_step p s w b d (fun _ a => a) Hs Hr) as (s1 & Hr1 & Hid1 & E).
    { rewrite full_chunks_short by lia. by intros c a ?%not_elem_of_nil. }
    rewrite full_chunks_short in E by lia. cbn [foldl] in E. rewrite app_same in E.
    destruct (IH s1 (put_object p s1 w)) as (s2 & Hr2 & Hid2 & E2); [apply lookup_put|done|].
    exists s2. split; [done|]. split; [congruence|]. cbn [foldl fst snd]. cbn [mbind outcome_bind]. by rewrite E, E2, put_put.
Qed.


(** An error reaches the callback: the session is deleted or the process aborts. *)
Lemma on_receive_head_error p s (w : world A) submit err {B} (k : world A -> outcome B) :
  objects w !! p = Some s -> packet_ready (s_packet s) -> session_owned s -> table_wf w ->
  m_sessions w !! s_id s = Some p -> (forall q a, exists a', h_closesession q a = Ok a') -> - 2 ^ 31 <= err < 0 ->
  (forall w', objects w' !! p = None -> k w' = Crash UseAfterFree) ->
  (w' ← on_receive_head submit p err w; k w') =
    Crash (if (err =? UV_EOF) || (err =? UV_ECONNRESET) then UseAfterFree else Aborted).
Proof.
  intros Hs Hpk Ho Hw Hreg Hclose He Hk. destruct (ready_head _ Hpk) as (l & Hh & Hl). destruct (Hclose p (app w)) as [a' Ha'].
  unfold on_receive_head. rewrite (get_ok p s w Hs). cbn [mbind outcome_bind]. rewrite Hh. cbn [len].
  rewrite (proj2 (Z.eqb_neq (u64 err) PACKET_BUFFER_SIZE)) by (unfold PACKET_BUFFER_SIZE; mword).
  rewrite (receive_failed_close p s w err a') by (done || lia).
  destruct (_ || _); [|done]. cbn [mbind outcome_bind]. apply Hk. cbn. apply lookup_delete_eq.
Qed.

Lemma stop_reading_ready p s eof (w : world A) :
  objects w !! p = Some s -> head_ready s ->
  exists t, stop_reading eof p w = Ok (put_object p (s <| s_tcp := t |>) w) /\ tcp_wf t.
Proof.
  intros Hs Hr. unfold stop_reading. rewrite (get_ok p s w Hs). cbn [mbind outcome_bind].
  unfold decrease_active_count. cbn [t_activecnt t_closing set_field]. pose proof (hr_activecnt s Hr).
  unfold c_assert. rewrite (proj2 (Z.geb_le _ _)) by lia. cbn [mbind outcome_bind]. eexists. split; [done|].
  pose proof (hr_endgame s Hr). destruct (_ && _); split; cbn; done || congruence.
Qed.

(** A connection that ends takes the server with it: when the peer closes or
    resets a connection that waits for a head, or the read request fails with the
    reset, [on_receive_head] closes and deletes the session, and when it returns
    libuv updates the handle that was part of it, a use after free; every other
    error is an [abort]. *)
Theorem connection_end_crashes (p : Z) (s : session) (w : world A) (submit : bool) (err : Z) :
  objects w !! p = Some s -> head_ready s -> session_owned s -> table_wf w -> m_sessions w !! s_id s = Some p ->
  (forall q a, exists a', h_closesession q a = Ok a') -> - 2 ^ 31 <= err < 0 ->
  let crash e := Crash (if (e =? UV_EOF) || (e =? UV_ECONNRESET) then UseAfterFree else Aborted) in
  uv_process_tcp_read_req junk submit p (ReqReady [] Closed) w = crash UV_EOF /\
  uv_process_tcp_read_req junk submit p (ReqReady [] (Failed err)) w = crash err /\
  uv_process_tcp_read_req junk submit p (ReqError err) w = crash err.
Proof.
  intros Hs Hr Ho Hw Hreg Hclose He crash. unfold uv_process_tcp_read_req.
  rewrite (get_ok p s w Hs). cbn [mbind outcome_bind]. set (s1 := s <| s_tcp := _ |>).
  assert (Hr1 : head_ready s1) by (destruct Hr; by split).
  assert (Hend : forall e eof (k : world A -> outcome (world A)), - 2 ^ 31 <= e < 0 ->
    (forall w', objects w' !! p = None -> k w' = Crash UseAfterFree) ->
    (w' ← (w ← stop_reading eof p (put_object p s1 w); on_receive_head submit p e w); k w') = crash e).
  { intros e eof k Hrange Hk. destruct (stop_reading_ready p s1 eof (put_object p s1 w)) as (t & -> & Ht);
      [apply lookup_put|done|]. cbn [mbind outcome_bind]. rewrite put_put.
    apply (on_receive_head_error p (s1 <| s_tcp := t |>)); try done.
    - apply lookup_put.
    - apply (hr_packet s Hr).
    - by apply (put_table_wf p s). }
  assert (Hgone : forall (w' : world A), objects w' !! p = None ->
    (w ← (s ← get_object p w';
       if t_reading (s_tcp s) && negb (t_read_pending (s_tcp s)) then uv_tcp_queue_read submit p w' else Ok w');
     decrease_pending_req_count p w) = Crash UseAfterFree).
  { intros w' Hg. by rewrite get_gone. }
  assert (Hloop : forall e last eof, - 2 ^ 31 <= e < 0 ->
    uv_read junk submit 1 p [] last (put_object p s1 w) =
      (w ← stop_reading eof p (put_object p s1 w); on_receive_head submit p e w) ->
    (w1 ← (w2 ← uv_read junk submit (S (length (@nil Z))) p [] last (put_object p s1 w);
       s ← get_object p w2;
       if t_reading (s_tcp s) && negb (t_read_pending (s_tcp s)) then uv_tcp_queue_read submit p w2 else Ok w2);
     decrease_pending_req_count p w1) = crash e).
  { intros e last eof Hrange E. cbn [length]. rewrite E. rewrite <- (Hend e eof (fun w' =>
      (w ← (s ← get_object p w';
       if t_reading (s_tcp s) && negb (t_read_pending (s_tcp s)) then uv_tcp_queue_read submit p w' else Ok w');
       decrease_pending_req_count p w))) by done.
    by destruct (w ← stop_reading eof p (put_object p s1 w); on_receive_head submit p e w). }
  split; [|split].
  - apply (Hloop UV_EOF Closed true); [done|]. by rewrite (uv_read_head 0 p s1) by (apply lookup_put || done).
  - apply (Hloop err (Failed err) false); [done|]. by rewrite (uv_read_head 0 p s1) by (apply lookup_put || done).
  - rewrite (hr_reading s Hr). rewrite (hr_cb s Hr). apply Hend; [done|].
    intros w' Hg. unfold decrease_pending_req_count. by rewrite get_gone.
Qed.

(** Closing an active session from the application is no safer: [closesession]
    returns, but the session it deleted contains the handle, and when the read
    request that is under way completes libuv works on freed memory. *)
Theorem close_active_dangles (p : Z) (s : session) (w : world A) (submit : bool) (req : read_req) :
  table_wf w -> objects w !! p = Some s -> head_ready s -> session_owned s -> m_sessions w !! s_id s = Some p ->
  (forall q a, exists a', h_closesession q a = Ok a') ->
  exists w', closesession (s_id s) w = Ok w' /\ uv_process_tcp_read_req junk submit p req w' = Crash UseAfterFree.
Proof.
  intros Hw Hs Hr Ho Hreg Hclose. destruct (Hclose p (app w)) as [a' Ha'].
  rewrite (closesession_registered _ _ _ _ _ Hw Hreg Hs Ha'). rewrite bool_decide_eq_true_2 by done.
  eexists. split; [done|]. unfold uv_process_tcp_read_req. rewrite get_gone; [done|]. cbn. apply lookup_delete_eq.
Qed.

(** ** Accepting *)

(** Accepting, up to the first [receive_head]. *)
Lemma on_accept_unfold ipv6 p body0 length0 (w : world A) submit a :
  table_wf w -> 0 <= next_id w < 2 ^ 31 - 1 ->
  h_newsession p (app w) = Ok a ->
  let id := next_id w + 1 in
  let tcp := uv_tcp_zero <| t_open := true |> <| t_readable := true |> in
  let buf := mkBuf (malloc junk PACKET_BUFFER_SIZE) PACKET_BUFFER_SIZE in
  let s := mkSession id tcp (uv_packet_new junk body0 length0) buf buf ipv6 in
  on_accept junk submit ipv6 0 0 0 p body0 length0 w =
    ('(r, w) ← receive_head submit p (put_object p s (mkWorld (objects w) (<[id := p]> (m_sessions w)) id
                  (endgame_handles w) (lost_sockets w) a));
     if r =? 0 then Ok w else Crash Aborted).
Proof.
  intros Hw Hn Ha id tcp buf s. unfold on_accept, uv_session_new, generateid. cbn [Z.eqb negb].
  assert (i32 (next_id w + 1) = id) as -> by (subst id; mword).
  rewrite get_put. cbn [mbind outcome_bind]. rewrite put_put. unfold on_newsession. rewrite get_put.
  cbn [mbind outcome_bind s_id set_field].
  assert (Hid : m_sessions w !! id = None).
  { destruct (m_sessions w !! id) as [q|] eqn:E; [|done].
    destruct (table_live w Hw _ _ E) as (t & Ht & Htid). pose proof (table_ids w Hw _ _ Ht). subst id. lia. }
  match goal with |- context [match m_sessions ?x !! ?k with _ => _ end] =>
    change (m_sessions x !! k) with (m_sessions w !! id) end.
  rewrite Hid. match goal with |- context [h_newsession p ?x] => change x with (app w) end. by rewrite Ha.
Qed.

(** Accepting a connection registers it: a new id, the session at its
    address and in the table, waiting for a head, the application told, and no
    other session changed - provided the memory of the session happens to hold a
    null pointer where [m_body] is. *)
Theorem on_accept_registers (ipv6 : bool) (p : Z) (blen length0 : Z) (w : world A) (submit : bool) (a : A) :
  table_wf w -> objects w !! p = None -> 0 <= next_id w < 2 ^ 31 - 1 ->
  h_newsession p (app w) = Ok a ->
  exists s, on_accept junk submit ipv6 0 0 0 p (mkBuf Null blen) length0 w =
      Ok (mkWorld (<[p := s]> (objects w)) (<[next_id w + 1 := p]> (m_sessions w)) (next_id w + 1)
            (endgame_handles w) (lost_sockets w) a) /\
    head_ready s /\ session_owned s /\ s_id s = next_id w + 1 /\ t_open (s_tcp s) = true /\
    table_wf (mkWorld (<[p := s]> (objects w)) (<[next_id w + 1 := p]> (m_sessions w)) (next_id w + 1)
            (endgame_handles w) (lost_sockets w) a).
Proof.
  intros Hw Hp Hn Ha. rewrite (on_accept_unfold ipv6 p _ length0 w submit a Hw Hn Ha).
  set (s := mkSession _ _ _ _ _ _). set (w1 := mkWorld _ _ _ _ _ _). unfold receive_head.
  destruct (clear_packet_ready p s (put_object p s w1)) as (pk & -> & Hpk); [apply lookup_put| |].
  { split; [|by left]. cbn. eexists. split; [done|]. unfold zlen, PACKET_BUFFER_SIZE. by rewrite length_replicate. }
  cbn [mbind outcome_bind]. rewrite put_put. unfold uv_read_start. rewrite get_put. cbn [mbind outcome_bind].
  change (t_reading (s_tcp (s <| s_packet := pk |>))) with false.
  change (t_readable (s_tcp (s <| s_packet := pk |>))) with true. cbn [negb]. rewrite put_put.
  match goal with |- context [put_object p ?x w1] => set (s1 := x) end.
  match goal with |- context [negb (t_read_pending ?t)] => change (t_read_pending t) with false end.
  cbn [negb]. unfold uv_tcp_queue_read. rewrite get_put. cbn [mbind outcome_bind].
  change (t_reading (s_tcp s1)) with true. change (t_read_pending (s_tcp s1)) with false.
  cbn [c_assert negb mbind outcome_bind]. rewrite put_put. cbn [Z.eqb].
  match goal with |- context [put_object p ?x w1] => set (s2 := x) end.
  assert (Hs2 : head_ready s2 /\ session_owned s2 /\ s_id s2 = next_id w + 1 /\ t_open (s_tcp s2) = true /\ tcp_wf (s_tcp s2)).
  { subst s2 s1. split; [destruct submit; split; done|]. split; [|by destruct submit].
    split; [done|]. by apply packet_ready_owned. }
  destruct Hs2 as (H1 & H2 & H3 & H4 & H5). exists s2. split; [done|]. repeat (split; [done|]).
  destruct Hw as [T1 T2 T3]. split; cbn.
  - intros id q [[<- <-]|[Hne Hq]]%lookup_insert_Some.
    + exists s2. by rewrite lookup_insert_eq.
    + destruct (T1 id q Hq) as (t & Ht & Htid). exists t. rewrite lookup_insert_ne; [done|]. congruence.
  - intros q t [[<- <-]|[Hne Ht]]%lookup_insert_Some; [rewrite H3; lia|]. specialize (T2 q t Ht). lia.
  - intros q t [[<- <-]|[Hne Ht]]%lookup_insert_Some; eauto.
Qed.

(** Otherwise the first thing a connection does is undefined: the
    constructor of [uv_packet] assigns [m_head] twice and [m_body] never, and
    [receive_head] clears the memory the stray pointer points to. *)
Theorem on_accept_wild_body (ipv6 : bool) (p : Z) (blen length0 : Z) (w : world A) (submit : bool) (a : A) :
  table_wf w -> 0 <= next_id w < 2 ^ 31 - 1 -> h_newsession p (app w) = Ok a ->
  on_accept junk submit ipv6 0 0 0 p (mkBuf Wild blen) length0 w = Crash OutOfBounds.
Proof.
  intros Hw Hn Ha. rewrite (on_accept_unfold ipv6 p _ length0 w submit a Hw Hn Ha).
  unfold receive_head, clear_packet. rewrite get_put. cbn [mbind outcome_bind s_packet].
  assert (E : buf_clear (mkBuf (malloc junk PACKET_BUFFER_SIZE) PACKET_BUFFER_SIZE) =
    Ok (mkBuf (Block (replicate (Z.to_nat PACKET_BUFFER_SIZE) 0)) PACKET_BUFFER_SIZE)).
  { unfold buf_clear, malloc. cbn [base len]. rewrite write_at_all; [done|done|].
    unfold zlen. by rewrite length_replicate. }
  unfold uv_packet_clear, uv_packet_new. cbn [UvNet.m_head UvNet.m_body]. by rewrite E.
Qed.
End proofs.

(** ** Witnesses

    An application that logs what it receives, and a service with one session. *)

#[export] Instance log_handler : handler (list (Z * list Z)) := {|
  h_newsession p a := Ok a;
  h_closesession p a := Ok a;
  h_tcpreceive p d a := Ok (a ++ [(p, d)]) |}.

Definition tcp1 : uv_tcp := mkUvTcp true true true true false false 1 1 true (Some CbHead) false.
Definition buffer1 : uv_buf := mkBuf (Block (replicate 1024 0)) 1024.
Definition session1 : session := mkSession 1 tcp1 (mkUvPacket buffer1 (mkBuf Null 0) 0) buffer1 buffer1 false.
Definition world1 : world (list (Z * list Z)) := mkWorld {[ 16 := session1 ]} {[ 1 := 16 ]} 1 [] [] [].

(** A chunk of 1024 bytes whose length field at offset 24 is [n]. *)
Definition chunk (n : Z) : list Z := replicate 24 7 ++ le_encode 4 n ++ replicate 996 7.

Lemma session1_ready : head_ready session1.
Proof. split; try done. split; [by eexists|by left]. Qed.
Lemma session1_owned : session_owned session1.
Proof. done. Qed.
Lemma world1_wf : table_wf world1.
Proof.
  split; cbn.
  - intros id p [<- <-]%lookup_singleton_Some. exists session1. by rewrite lookup_singleton_eq.
  - intros p s [<- <-]%lookup_singleton_Some. done.
  - intros p s [<- <-]%lookup_singleton_Some. done.
Qed.
Lemma log_closes (q : Z) (a : list (Z * list Z)) : exists a', h_closesession q a = Ok a'.
Proof. by exists a. Qed.

Lemma receive_exact_witness : exists s', head_ready s' /\ s_id s' = 1 /\
  foldl (fun o r => w ← o; uv_process_tcp_read_req 0 r.1 16 (ReqReady r.2 WouldBlock) w) (Ok world1)
    [(true, [1; 2; 3]); (true, chunk 0 ++ chunk 5 ++ [9]); (false, chunk (-1))] =
  Ok (put_object 16 s' (world1 <| app := [(16, chunk 0); (16, chunk (-1))] |>)).
Proof.
  destruct (receive_exact 0 16 session1 world1 (fun d a => a ++ [(16, d)])
    [(true, [1; 2; 3]); (true, chunk 0 ++ chunk 5 ++ [9]); (false, chunk (-1))]) as (s' & H1 & H2 & H3);
    [done|apply session1_ready|done|].
  exists s'. split; [exact H1|]. split; [exact H2|]. rewrite H3. vm_compute. reflexivity.
Defined.

Lemma short_chunks_dropped_witness : exists s', head_ready s' /\ s_id s' = 1 /\
  foldl (fun o r => w ← o; uv_process_tcp_read_req 0 r.1 16 (ReqReady r.2 WouldBlock) w) (Ok world1)
    [(true, [1; 2; 3]); (true, replicate 30 5)] = Ok (put_object 16 s' world1).
Proof.
  apply (short_chunks_dropped 0 16 session1 world1); [done|apply session1_ready|].
  repeat constructor; by vm_compute.
Defined.

Lemma connection_end_crashes_witness :
  uv_process_tcp_read_req 0 true 16 (ReqReady [] Closed) world1 = Crash UseAfterFree /\
  uv_process_tcp_read_req 0 true 16 (ReqReady [] (Failed UV_ECONNRESET)) world1 = Crash UseAfterFree /\
  uv_process_tcp_read_req 0 true 16 (ReqError UV_ECONNRESET) world1 = Crash UseAfterFree.
Proof.
  apply (connection_end_crashes 0 16 session1 world1 true UV_ECONNRESET); [done|apply session1_ready|apply session1_owned
    |apply world1_wf|done|apply log_closes|by vm_compute].
Defined.

Lemma on_accept_registers_witness : exists s,
  on_accept 0 true false 0 0 0 32 (mkBuf Null 5) 9 world1 =
    Ok (mkWorld (<[32 := s]> (objects world1)) (<[2 := 32]> (m_sessions world1)) 2 [] [] []) /\
  head_ready s /\ session_owned s /\ s_id s = 2 /\ t_open (s_tcp s) = true /\
  table_wf (mkWorld (<[32 := s]> (objects world1)) (<[2 := 32]> (m_sessions world1)) 2 [] [] ([] : list (Z * list Z))).
Proof. apply (on_accept_registers 0 false 32 5 9 world1 true []); [apply world1_wf|done|done|done]. Defined.

Lemma on_accept_wild_body_witness : on_accept 0 true false 0 0 0 32 (mkBuf Wild 5) 9 world1 = Crash OutOfBounds.
Proof. apply (on_accept_wild_body 0 false 32 5 9 world1 true []); [apply world1_wf|done|done]. Defined.

Lemma closesession_exact_witness : exists s, objects world1 !! 16 = Some s /\ s_id s = 1 /\
  (session_owned s -> exists w', closesession 1 world1 = Ok w' /\ table_wf w' /\
    m_sessions w' = delete 1 (m_sessions world1) /\ objects w' = delete 16 (objects world1) /\ next_id w' = 1) /\
  (~ session_owned s -> closesession 1 world1 = Crash InvalidFree).
Proof. apply (closesession_exact 1 world1); [apply world1_wf|apply log_closes]. Defined.

Lemma close_active_dangles_witness : exists w', closesession 1 world1 = Ok w' /\
  uv_process_tcp_read_req 0 true 16 (ReqReady [7] WouldBlock) w' = Crash UseAfterFree.
Proof.
  apply (close_active_dangles 0 16 session1 world1 true); [apply world1_wf|done|apply session1_ready|apply session1_owned
    |done|apply log_closes].
Defined.
