(* ===== verification/UvServer.v ===== *)
(** * uv_service connections, uv_tcp_server and uv_udp_server

    The outgoing side of [src/libs/network/src/uv_service.cpp] ([connect],
    [on_connect], the connection table), the start-up of the servers, and the
    write buffers of [uv_tcp_server::send] and [uv_udp_server::send].  What a
    libuv call returns is an argument where libuv asks the operating system. *)

From S2P Require Import Prelude Inet UvNet.

(** ** Connections *)

Class connection_handler (A : Type) := {
  h_newconnection : Z -> A -> outcome A;
  h_closeconnection : Z -> A -> outcome A;
  h_initialize : A -> outcome (bool * A);
  h_shutdown : A -> outcome A }.

(** [uv_service]: the part of UvNet and the members of the outgoing side. *)
Record service (A : Type) := mkService {
  sv_world : world A; m_connections : gmap Z Z; m_shutdown : bool; m_init : bool }.
Arguments mkService {A} _ _ _ _.
Arguments sv_world {A} _.
Arguments m_connections {A} _.
Arguments m_shutdown {A} _.
Arguments m_init {A} _.
#[export] Instance eta_service A : Eta (service A) := fun s =>
  mkService (sv_world s) (m_connections s) (m_shutdown s) (m_init s).

Section connections.
Context {A : Type} `{handler A} `{connection_handler A} (junk : Z) (submit : bool).
Context (if_nametoindex : list Z -> Z).

(** What [uv_tcp_getsockname] reports for a session: the code, address, port. *)
Context (getsockname : Z -> Z * list Z * Z).

Definition getconnection (id : Z) (sv : service A) : option Z := m_connections sv !! id.

(** The search of [getconnection(ip, port)]; the first bytes of the addresses are
    compared as an [unsigned long] (32 bits on Windows, whose field names the
    code uses). *)
Fixpoint find_connection (a4 : sockaddr_in) (a6 : sockaddr_in6) (l : list (Z * Z)) (w : world A) : outcome (option Z) :=
  match l with
  | [] => Ok None
  | (_, p) :: l =>
      s ← get_object p w;
      let '(r, addr, port) := getsockname p in
      let same := if s_ipv6 s
        then (le_decode (take 4 (sin6_addr a6)) =? le_decode (take 4 addr)) && (sin6_port a6 =? port)
        else (le_decode (sin_addr a4) =? le_decode addr) && (sin_port a4 =? port) in
      if (r =? 0) && same then Ok (Some p) else find_connection a4 a6 l w
  end.

Definition getconnection_at (ip : list Z) (port : Z) (sv : service A) : outcome (option Z) :=
  '(r, addr6) ← uv_ip6_addr junk if_nametoindex ip port;
  if negb (r =? 0) then Ok None else
  '(r, addr4) ← uv_ip4_addr junk ip port;
  if negb (r =? 0) then Ok None else
  find_connection addr4 addr6 (map_to_list (m_connections sv)) (sv_world sv).

Definition closeconnection (id : Z) (sv : service A) : outcome (service A) :=
  match getconnection id sv with
  | None => Ok sv
  | Some p =>
      w ← session_close p (sv_world sv);
      let sv := sv <| sv_world := w |> <| m_connections := delete id (m_connections sv) |> in
      a ← h_closeconnection p (app w);
      w ← session_delete p (w <| app := a |>);
      Ok (sv <| sv_world := w |>)
  end.

Definition on_newconnection (p : Z) (sv : service A) : outcome (service A) :=
  s ← get_object p (sv_world sv);
  let sv := match m_connections sv !! s_id s with
            | None => sv <| m_connections := <[s_id s := p]> (m_connections sv) |>
            | Some _ => sv
            end in
  a ← h_newconnection p (app (sv_world sv));
  Ok (sv <| sv_world := (sv_world sv) <| app := a |> |>).

(** libuv: [uv_tcp_connect] checks the family of the address it is given; [r] is
    what the system-specific part returns. *)
Definition uv_tcp_connect (family r : Z) : Z :=
  if family =? AF_INET then r else if family =? AF_INET6 then r else UV_EINVAL.

(** The failure path of [connect]: close, delete, [ASSERT(r == 0)]. *)
Definition connect_failed (p : Z) (sv : service A) : outcome (bool * service A) :=
  w ← session_close p (sv_world sv);
  w ← session_delete p w;
  Crash Aborted.

(** [connect(ip, port, ipv6)]: [p] is the new session's address, [addr] the value
    of the local pointer [addr] (the address of [addr4] or [addr6]); the call
    passes [&addr], so libuv reads a family from the bytes of the pointer.  The
    two branches parse with the other family's function. *)
Definition connect (p : Z) (body0 : uv_buf) (length0 r_init addr r_connect : Z)
    (ip : list Z) (port : Z) (ipv6 : bool) (sv : service A) : outcome (bool * service A) :=
  let sv := sv <| sv_world := uv_session_new junk p ipv6 body0 length0 (sv_world sv) |> in
  if negb (r_init =? 0) then Crash Aborted else
  r ← (if ipv6 then '(r, _) ← uv_ip4_addr junk ip port; Ok r
       else '(r, _) ← uv_ip6_addr junk if_nametoindex ip port; Ok r);
  if negb (r =? 0) then connect_failed p sv else
  let family := u16 addr in
  let r := uv_tcp_connect family r_connect in
  if negb (r =? 0) then connect_failed p sv
  else Ok (true, sv).

(** [on_connect(req, status)] *)
Definition on_connect (p status : Z) (sv : service A) : outcome (service A) :=
  if status =? 0 then
    sv ← on_newconnection p sv;
    '(r, w) ← receive_head submit p (sv_world sv);
    let sv := sv <| sv_world := w |> in
    if negb (r =? 0) then
      s ← get_object p w;
      sv ← closeconnection (s_id s) sv;
      Crash Aborted
    else Ok sv
  else
    w ← session_close p (sv_world sv);
    w ← session_delete p w;
    Crash Aborted.

Definition service_shutdown (sv : service A) : outcome (service A) :=
  a ← h_shutdown (app (sv_world sv));
  Ok (sv <| sv_world := (sv_world sv) <| app := a |> |> <| m_shutdown := true |>).
End connections.

(** ** Server start-up *)

(** The servers' own members: initialised, IPv6, and whether [m_handle.data] has
    been set. *)
Record tcp_server := mkTcp { tcp_init : bool; tcp_ipv6 : bool; tcp_data : bool; tcp_active : bool }.
Record udp_server := mkUdp { udp_init : bool; udp_ipv6 : bool; udp_active : bool }.

Section startup.
Context (junk : Z) (if_nametoindex : list Z -> Z).

Definition bind_ipv4 (r_bind : Z) (ip : list Z) (port : Z) : outcome Z :=
  '(r, _) ← uv_ip4_addr junk ip port; if negb (r =? 0) then Ok r else Ok r_bind.
Definition bind_ipv6 (r_bind : Z) (ip : list Z) (port : Z) : outcome Z :=
  '(r, _) ← uv_ip6_addr junk if_nametoindex ip port; if negb (r =? 0) then Ok r else Ok r_bind.

(** [uv_tcp_server::initialize]: [m_init] is never set, and a failed listen is
    asserted to have failed. *)
Definition tcp_initialize (r_init r_bind r_listen : Z) (ip : list Z) (port : Z) (ipv6 : bool) (t : tcp_server)
  : outcome (bool * tcp_server) :=
  if tcp_init t then Ok (true, t) else
  let t := mkTcp (tcp_init t) ipv6 (tcp_data t) (tcp_active t) in
  if negb (r_init =? 0) then Crash Aborted else
  r ← (if ipv6 then bind_ipv6 r_bind ip port else bind_ipv4 r_bind ip port);
  if negb (r =? 0) then Crash Aborted else
  if negb (r_listen =? 0) then Ok (false, t)
  else Ok (true, mkTcp (tcp_init t) ipv6 true true).

(** [uv_udp_server::initialize]; its [bind_ipv4] and [bind_ipv6] assert. *)
Definition udp_bind (r_bind : Z) (ip : list Z) (port : Z) (ipv6 : bool) : outcome Z :=
  r ← (if ipv6 then bind_ipv6 r_bind ip port else bind_ipv4 r_bind ip port);
  if negb (r =? 0) then Crash Aborted else Ok r.
Definition udp_initialize (r_init r_bind r_listen : Z) (ip : list Z) (port : Z) (ipv6 : bool) (u : udp_server)
  : outcome (bool * udp_server) :=
  if udp_init u then Ok (true, u) else
  if negb (r_init =? 0) then Crash Aborted else
  r ← udp_bind r_bind ip port ipv6;
  if negb (r =? 0) then Crash Aborted else
  if negb (r_listen =? 0) then Crash Aborted
  else Ok (true, mkUdp true ipv6 true).

(** [uv_service::initialize] with a handler. *)
Definition service_initialize {A} `{connection_handler A} (r : Z * Z * Z) (ru : Z * Z * Z)
    (ip : list Z) (tcp_port udp_port : Z) (ipv6 : bool) (sv : service A)
  : outcome (bool * service A * option (tcp_server * udp_server)) :=
  if m_init sv then Ok (true, sv, None) else
  '(ok, a) ← h_initialize (app (sv_world sv));
  if negb ok then Crash Aborted else
  let sv := sv <| sv_world := (sv_world sv) <| app := a |> |> in
  '(ok, t) ← tcp_initialize r.1.1 r.1.2 r.2 ip tcp_port ipv6 (mkTcp false false false false);
  if negb ok then Crash Aborted else
  '(ok, u) ← udp_initialize ru.1.1 ru.1.2 ru.2 ip udp_port ipv6 (mkUdp false false false);
  if negb ok then Crash Aborted else
  Ok (true, sv <| m_init := true |>, Some (t, u)).
End startup.

(** ** Write buffers

    The blocks [malloc] and [realloc] returned and a [uv_buf_t] (address, length). *)
Record write_state := mkWs { blocks : gmap Z (list Z); buf_base : Z; buf_len : Z }.

(** [realloc(p, n)]: [fresh] is the address it returns, possibly [p]. *)
Definition realloc (junk : Z) (fresh p n : Z) (bl : gmap Z (list Z)) : outcome (gmap Z (list Z)) :=
  match bl !! p with
  | None => Crash UseAfterFree
  | Some l => Ok (<[fresh := take (Z.to_nat n) (l ++ replicate (Z.to_nat n) junk)]> (delete p bl))
  end.

(** [memcpy(p, src, n)] into a block. *)
Definition block_write (p : Z) (src : list Z) (bl : gmap Z (list Z)) : outcome (gmap Z (list Z)) :=
  match bl !! p with
  | None => Crash UseAfterFree
  | Some l => l ← write_at l 0 src; Ok (<[p := l]> bl)
  end.

(** [uv_tcp_server::send]: [auto buffer = session->writebuf()] copies the
    [uv_buf_t]; the session keeps the old address.  The result is the buffer
    given to [uv_write]. *)
Definition tcp_send (junk fresh r_write : Z) (data : list Z) (st : write_state) : outcome (Z * Z * write_state) :=
  let length := zlen data in
  '(bl, b, n) ← (if buf_len st <? length
                 then bl ← realloc junk fresh (buf_base st) length (blocks st); Ok (bl, fresh, length)
                 else Ok (blocks st, buf_base st, buf_len st));
  bl ← block_write b (replicate (Z.to_nat n) 0) bl;
  bl ← block_write b data bl;
  if r_write =? 0 then Ok (b, length, mkWs bl (buf_base st) (buf_len st)) else Crash Aborted.

(** [uv_udp_server::send(addr, data, length)]: the member itself is updated. *)
Definition udp_send (junk fresh r_send : Z) (data : list Z) (st : write_state) : outcome (Z * Z * write_state) :=
  let length := zlen data in
  st ← (if buf_len st <? length
        then bl ← realloc junk fresh (buf_base st) length (blocks st); Ok (mkWs bl fresh length)
        else bl ← block_write (buf_base st) (replicate (Z.to_nat (buf_len st)) 0) (blocks st);
             Ok (mkWs bl (buf_base st) (buf_len st)));
  bl ← block_write (buf_base st) data (blocks st);
  if r_send =? 0 then Ok (buf_base st, length, mkWs bl (buf_base st) length) else Crash Aborted.

(** [uv_udp_server::on_receive]: what reaches the service, and whether the server
    closes itself. *)
Definition udp_on_receive (nread : Z) (buf : list Z) : option (list Z) * bool :=
  if nread >? 0 then (Some (take (Z.to_nat nread) buf), false)
  else if nread =? 0 then (None, false)
  else (None, true).

(** ** Address parsing never crashes *)

Lemma uv_ip4_addr_total junk ip port : exists r a, uv_ip4_addr junk ip port = Ok (r, a).
Proof.
  unfold uv_ip4_addr, uv_inet_pton. change (AF_INET =? AF_INET) with true. cbn iota.
  destruct (inet_pton4_total junk ip) as (r & b & -> & _). by eexists _, _.
Qed.

Lemma pton_ip6_total junk ip : exists r b, uv_inet_pton junk AF_INET6 (Some ip) = Ok (r, b).
Proof.
  unfold uv_inet_pton. change (AF_INET6 =? AF_INET) with false. change (AF_INET6 =? AF_INET6) with true. cbn iota.
  destruct (strchr ip PERCENT) as [n|].
  - destruct (Z.of_nat n >? _); [by eexists _, _|]. destruct (inet_pton6_total junk (take n ip)) as (r & b & -> & _). by eexists _, _.
  - destruct (inet_pton6_total junk ip) as (r & b & -> & _). by eexists _, _.
Qed.

Lemma uv_ip6_addr_total junk ifn ip port : exists r a, uv_ip6_addr junk ifn ip port = Ok (r, a).
Proof.
  unfold uv_ip6_addr. destruct (strchr ip PERCENT) as [n|].
  - destruct (pton_ip6_total junk (take (Nat.min n 39) ip)) as (r & b & ->). by eexists _, _.
  - destruct (pton_ip6_total junk ip) as (r & b & ->). by eexists _, _.
Qed.

(** A string [uv_ip4_addr] accepts is rejected by [uv_ip6_addr]. *)
Lemma ip4_rejects_ip6 junk ifn ip port a :
  uv_ip4_addr junk ip port = Ok (0, a) -> exists r a6, uv_ip6_addr junk ifn ip port = Ok (r, a6) /\ r <> 0.
Proof.
  unfold uv_ip4_addr, uv_inet_pton at 1. change (AF_INET =? AF_INET) with true. cbn iota. intros H4.
  destruct (inet_pton4_total junk ip) as (r & b & E & Hr). rewrite E in H4. cbn in H4. injection H4 as -> _.
  destruct Hr as [Hr|(_ & _ & _ & Hs)]; [done|]. unfold uv_ip6_addr.
  rewrite (strchr_none ip PERCENT PERCENT) by done. rewrite (ip4_not_ip6 junk junk ip b E). by eexists _, _.
Qed.

(** libuv reads the family from the bytes of an aligned pointer. *)
Lemma aligned_not_family addr : addr `mod` 4 = 0 -> u16 addr <> AF_INET /\ u16 addr <> AF_INET6.
Proof. unfold AF_INET, AF_INET6. intros Ha. split; mword. Qed.

Section connection_proofs.
Context {A : Type} `{handler A} `{connection_handler A} (junk : Z).
Context (if_nametoindex : list Z -> Z) (getsockname : Z -> Z * list Z * Z).

(** Deleting a connection that was never active: its packet's body is whatever
    the memory held. *)
Lemma connect_failed_new p ipv6 body0 length0 (sv : service A) :
  connect_failed p (sv <| sv_world := uv_session_new junk p ipv6 body0 length0 (sv_world sv) |>) =
    Crash (if bool_decide (base body0 = Wild) then InvalidFree else Aborted).
Proof.
  unfold connect_failed. set (w := sv_world _).
  assert (Hs : exists s, objects w !! p = Some s /\ uv_is_active (s_tcp s) = false /\
    (session_owned s <-> base body0 <> Wild)).
  { subst w. unfold uv_session_new, generateid. cbn. eexists. split; [apply lookup_insert_eq|]. split; [done|].
    unfold session_owned, owned. cbn. by split; [intros (_ & _ & ?)|]. }
  destruct Hs as (s & Hs & Ha & Ho). unfold session_close. rewrite (get_ok p s w Hs). cbn [mbind outcome_bind]. rewrite Ha.
  cbn [mbind outcome_bind]. rewrite (session_delete_spec p s w Hs Ha).
  destruct (bool_decide_reflect (base body0 = Wild)).
  - by rewrite bool_decide_eq_false_2 by naive_solver.
  - by rewrite bool_decide_eq_true_2 by naive_solver.
Qed.

Lemma connect_crashes p body0 length0 r_init addr r_connect ip port ipv6 (sv : service A) :
  addr `mod` 4 = 0 ->
  connect junk if_nametoindex p body0 length0 r_init addr r_connect ip port ipv6 sv =
    Crash (if (r_init =? 0) && bool_decide (base body0 = Wild) then InvalidFree else Aborted).
Proof.
  intros Ha. unfold connect. destruct (r_init =? 0); [|done]. cbn [negb andb].
  set (sv' := set_field _ _ sv).
  assert (Hr : exists r, (if ipv6 then '(r, _) ← uv_ip4_addr junk ip port; Ok r
       else '(r, _) ← uv_ip6_addr junk if_nametoindex ip port; Ok r) = Ok r).
  { destruct ipv6; [destruct (uv_ip4_addr_total junk ip port) as (r & a & ->)
      |destruct (uv_ip6_addr_total junk if_nametoindex ip port) as (r & a & ->)]; by exists r. }
  destruct Hr as [r ->]. cbn [mbind outcome_bind]. destruct (negb (r =? 0)); [apply connect_failed_new|].
  destruct (aligned_not_family addr Ha) as [H2 H10]. unfold uv_tcp_connect.
  rewrite (proj2 (Z.eqb_neq _ _) H2), (proj2 (Z.eqb_neq _ _) H10). apply connect_failed_new.
Qed.

Lemma getconnection_at_none' ip port (sv : service A) :
  getconnection_at junk if_nametoindex getsockname ip port sv = Ok None.
Proof.
  unfold getconnection_at. destruct (uv_ip6_addr_total junk if_nametoindex ip port) as (r6 & a6 & E6). rewrite E6.
  cbn [mbind outcome_bind]. destruct (Z.eqb_spec r6 0) as [->|]; [|done]. cbn [negb].
  destruct (uv_ip4_addr_total junk ip port) as (r4 & a4 & E4). rewrite E4. cbn [mbind outcome_bind].
  destruct (Z.eqb_spec r4 0) as [->|]; [|done].
  destruct (ip4_rejects_ip6 junk if_nametoindex ip port a4 E4) as (r & a & E & Hr). congruence.
Qed.

(** Connecting to another server never works: for every address, port and
    family, and whatever the operating system would answer, [connect] stops the
    process. It parses the address with the other family's function, and hands
    libuv the address of its local pointer, so the family libuv reads is the low
    half of an aligned pointer, which is neither [AF_INET] nor [AF_INET6]. The
    [ASSERT] that follows aborts, unless deleting the session comes to an invalid
    [free] first: the body of its packet was never initialised. *)
Theorem connect_never_works (p : Z) (body0 : uv_buf) (length0 r_init addr r_connect : Z) (ip : list Z) (port : Z)
    (ipv6 : bool) (sv : service A) :
  addr `mod` 4 = 0 ->
  connect junk if_nametoindex p body0 length0 r_init addr r_connect ip port ipv6 sv =
    Crash (if (r_init =? 0) && bool_decide (base body0 = Wild) then InvalidFree else Aborted).
Proof. apply connect_crashes. Qed.

(** [getconnection(ip, port)] finds nothing, whatever the connections are: it
    asks for a string that is both an IPv6 and an IPv4 address, and there is
    none. *)
Theorem getconnection_finds_nothing (ip : list Z) (port : Z) (sv : service A) :
  getconnection_at junk if_nametoindex getsockname ip port sv = Ok None.
Proof. apply getconnection_at_none'. Qed.
End connection_proofs.

(** ** Start-up *)

Lemma bind_ok_iff junk ifn r_bind ip port ipv6 :
  exists r, (if ipv6 : bool then bind_ipv6 junk ifn r_bind ip port else bind_ipv4 junk r_bind ip port) = Ok r.
Proof.
  destruct ipv6; [unfold bind_ipv6; destruct (uv_ip6_addr_total junk ifn ip port) as (r & a & ->)
    |unfold bind_ipv4; destruct (uv_ip4_addr_total junk ip port) as (r & a & ->)]; cbn [mbind outcome_bind];
    destruct (negb (r =? 0)); by eexists.
Qed.

(** The address a bind parses. *)
Definition bind_result (junk : Z) (ifn : list Z -> Z) (r_bind : Z) (ip : list Z) (port : Z) (ipv6 : bool) : Z :=
  match (if ipv6 then bind_ipv6 junk ifn r_bind ip port else bind_ipv4 junk r_bind ip port) with
  | Ok r => r | Crash _ => -1 end.

(** C14: start-up is all or nothing: [uv_service::initialize] either returns
    [true] with both servers listening, the TCP handle's [data] set and [m_init]
    set, which it does exactly when every libuv call of both servers returned 0,
    or it aborts the process; it never returns [false]. *)
Theorem service_initialize_all_or_abort {A} `{connection_handler A} (junk : Z) (ifn : list Z -> Z)
    (r ru : Z * Z * Z) (ip : list Z) (tcp_port udp_port : Z) (ipv6 : bool) (sv : service A) (a : A) :
  m_init sv = false -> h_initialize (app (sv_world sv)) = Ok (true, a) ->
  let ok := [r.1.1; bind_result junk ifn r.1.2 ip tcp_port ipv6; r.2;
             ru.1.1; bind_result junk ifn ru.1.2 ip udp_port ipv6; ru.2] in
  service_initialize junk ifn r ru ip tcp_port udp_port ipv6 sv =
    if forallb (fun x => x =? 0) ok
    then Ok (true, sv <| sv_world := (sv_world sv) <| app := a |> |> <| m_init := true |>,
             Some (mkTcp false ipv6 true true, mkUdp true ipv6 true))
    else Crash Aborted.
Proof.
  intros Hi Ha ok. unfold service_initialize. rewrite Hi, Ha. cbn [mbind outcome_bind negb].
  unfold tcp_initialize. cbn [tcp_init tcp_data tcp_active].
  destruct (bind_ok_iff junk ifn r.1.2 ip tcp_port ipv6) as [b1 Hb1].
  destruct (bind_ok_iff junk ifn ru.1.2 ip udp_port ipv6) as [b2 Hb2].
  subst ok. unfold bind_result. rewrite Hb1, Hb2. cbn [forallb].
  destruct (r.1.1 =? 0); [|done]. cbn [negb mbind outcome_bind andb].
  destruct (b1 =? 0); [|done]. cbn [negb mbind outcome_bind andb].
  destruct (r.2 =? 0); [|done]. cbn [negb mbind outcome_bind andb].
  unfold udp_initialize, udp_bind. cbn [udp_init].
  destruct (ru.1.1 =? 0); [|done]. cbn [negb mbind outcome_bind andb].
  rewrite Hb2. cbn [mbind outcome_bind]. destruct (b2 =? 0) eqn:E2; [|done]. cbn [negb mbind outcome_bind andb].
  rewrite E2. cbn [negb]. destruct (ru.2 =? 0); [|done]. done.
Qed.

(** ** Sending *)

(** The buffer is a live block of at least its length. *)
Definition write_wf (st : write_state) : Prop :=
  0 <= buf_len st /\ exists l, blocks st !! buf_base st = Some l /\ buf_len st <= zlen l.

Lemma block_write_ok p src (bl : gmap Z (list Z)) l :
  bl !! p = Some l -> zlen src <= zlen l ->
  block_write p src bl = Ok (<[p := src ++ drop (length src) l]> bl).
Proof.
  intros Hp Hl. unfold block_write. rewrite Hp. unfold write_at.
  rewrite bool_decide_eq_true_2 by lia. cbn [mbind outcome_bind Z.to_nat take app].
  by rewrite Z.add_0_l, length_zlen.
Qed.

Lemma zlen_replicate {X} n (x : X) : 0 <= n -> zlen (replicate (Z.to_nat n) x) = n.
Proof. intros Hn. unfold zlen. rewrite length_replicate. lia. Qed.

Lemma zlen_app_drop {X} (a b : list X) : zlen a <= zlen b -> zlen (a ++ drop (length a) b) = zlen b.
Proof. intros Hl. rewrite zlen_app. unfold zlen in *. rewrite length_drop. lia. Qed.

(** A UDP datagram is sent as it is: [uv_udp_server::send] gives libuv a
    buffer that holds exactly the [length] bytes of [data], growing the buffer when
    the last datagram was shorter, never writes outside of it, and keeps the
    buffer usable for the next call. *)
Theorem udp_send_exact (junk fresh : Z) (data : list Z) (st : write_state) :
  write_wf st ->
  exists b bl l, udp_send junk fresh 0 data st = Ok (b, zlen data, mkWs bl b (zlen data)) /\
    bl !! b = Some l /\ take (length data) l = data /\ write_wf (mkWs bl b (zlen data)).
Proof.
  intros (Hn & l & Hl & Hlen). unfold udp_send. pose proof (zlen_nonneg data).
  assert (Hfin : forall (bl : gmap Z (list Z)) b l', bl !! b = Some l' -> zlen data <= zlen l' ->
    exists b' bl' l, (bl2 ← block_write b data bl;
       if 0 =? 0 then Ok (b, zlen data, mkWs bl2 b (zlen data)) else Crash Aborted) =
         Ok (b', zlen data, mkWs bl' b' (zlen data)) /\
    bl' !! b' = Some l /\ take (length data) l = data /\ write_wf (mkWs bl' b' (zlen data))).
  { intros bl b l' Hb Hl'. rewrite (block_write_ok _ _ _ _ Hb Hl'). eexists _, _, _. split; [done|].
    split; [apply lookup_insert_eq|]. split; [by rewrite take_app_length|].
    split; [done|]. cbn. eexists. split; [apply lookup_insert_eq|]. by rewrite zlen_app_drop. }
  destruct (Z.ltb_spec (buf_len st) (zlen data)).
  - unfold realloc. rewrite Hl. cbn [mbind outcome_bind blocks buf_base buf_len].
    eapply Hfin; [apply lookup_insert_eq|].
    rewrite zlen_take; [done|]. rewrite zlen_app, zlen_replicate by done. pose proof (zlen_nonneg l). lia.
  - rewrite (block_write_ok _ _ _ l) by (done || rewrite zlen_replicate; done). cbn [mbind outcome_bind blocks buf_base buf_len].
    eapply Hfin; [apply lookup_insert_eq|].
    rewrite zlen_app_drop; rewrite ?zlen_replicate; lia.
Qed.

(** A TCP message longer than the write buffer poisons the connection: [send]
    works on a copy of the [uv_buf_t], so when [realloc] moves the block the
    session keeps the freed address, and the next [send], whatever its length,
    writes to freed memory. *)
Theorem tcp_send_long_dangles (junk fresh fresh' r_write : Z) (data data' : list Z) (st : write_state) :
  write_wf st -> buf_len st < zlen data -> fresh <> buf_base st ->
  exists st', tcp_send junk fresh 0 data st = Ok (fresh, zlen data, st') /\
    blocks st' !! fresh = Some data /\
    tcp_send junk fresh' r_write data' st' = Crash UseAfterFree.
Proof.
  intros (Hn & l & Hl & Hlen) Hd Hf. unfold tcp_send at 1. rewrite (proj2 (Z.ltb_lt _ _)) by done.
  unfold realloc. rewrite Hl. cbn [mbind outcome_bind].
  set (l1 := take _ _). assert (Hl1 : zlen l1 = zlen data).
  { subst l1. rewrite zlen_take; [done|]. rewrite zlen_app, zlen_replicate by apply zlen_nonneg.
    pose proof (zlen_nonneg l). pose proof (zlen_nonneg data). lia. }
  rewrite (block_write_ok fresh (replicate (Z.to_nat (zlen data)) 0) _ l1);
    [|apply lookup_insert_eq|rewrite zlen_replicate by apply zlen_nonneg; lia].
  cbn [mbind outcome_bind].
  erewrite block_write_ok; [|apply lookup_insert_eq|rewrite zlen_app_drop; rewrite ?zlen_replicate by apply zlen_nonneg; lia].
  cbn [mbind outcome_bind Z.eqb]. eexists. split; [done|]. cbn [blocks]. split.
  - rewrite lookup_insert_eq. f_equal. rewrite drop_ge; [apply app_nil_r|].
    rewrite length_app, length_drop, length_replicate. unfold zlen in *. lia.
  - assert (Hgone : forall x y, <[fresh := x]> (<[fresh := y]> (<[fresh := l1]> (delete (buf_base st) (blocks st)))) !! buf_base st = None).
    { intros x y. rewrite !lookup_insert_ne by done. apply lookup_delete_eq. }
    unfold tcp_send. cbn [buf_len buf_base blocks]. destruct (_ <? _).
    + unfold realloc. by rewrite Hgone.
    + cbn [mbind outcome_bind]. unfold block_write. by rewrite Hgone.
Qed.

(** ** Witnesses *)

#[export] Instance log_connection_handler : connection_handler (list (Z * list Z)) := {|
  h_newconnection p a := Ok a;
  h_closeconnection p a := Ok a;
  h_initialize a := Ok (true, a);
  h_shutdown a := Ok a |}.

Definition service1 : service (list (Z * list Z)) := mkService world1 {[ 5 := 64 ]} false false.
Definition no_interface : list Z -> Z := fun _ => 0.

(** "127.0.0.1" *)
Definition localhost : list Z := [49; 50; 55; 46; 48; 46; 48; 46; 49].

Lemma connect_never_works_witness :
  connect 0 no_interface 48 (mkBuf Null 0) 0 0 8192 0 localhost 7000 true service1 = Crash Aborted.
Proof. apply (connect_never_works 0 no_interface 48 (mkBuf Null 0) 0 0 8192 0 localhost 7000 true service1). done. Defined.

Lemma service_initialize_all_or_abort_witness :
  service_initialize 0 no_interface (0, 0, 0) (0, 0, 0) localhost 7000 8000 false service1 =
    Ok (true, service1 <| sv_world := world1 <| UvNet.app := [] |> |> <| m_init := true |>,
        Some (mkTcp false false true true, mkUdp true false true)).
Proof.
  apply (service_initialize_all_or_abort 0 no_interface (0, 0, 0) (0, 0, 0) localhost 7000 8000 false service1 []); done.
Defined.

Definition ws1 : write_state := mkWs {[ 16 := [1; 2; 3; 4] ]} 16 4.
Lemma ws1_wf : write_wf ws1.
Proof. split; [done|]. exists [1; 2; 3; 4]. by split; vm_compute. Qed.

Lemma udp_send_exact_witness : exists b bl l,
  udp_send 0 32 0 [9; 8; 7; 6; 5] ws1 = Ok (b, 5, mkWs bl b 5) /\
  bl !! b = Some l /\ take 5 l = [9; 8; 7; 6; 5] /\ write_wf (mkWs bl b 5).
Proof. apply (udp_send_exact 0 32 [9; 8; 7; 6; 5] ws1 ws1_wf). Defined.

Lemma tcp_send_long_dangles_witness : exists st',
  tcp_send 0 32 0 [9; 8; 7; 6; 5] ws1 = Ok (32, 5, st') /\ blocks st' !! 32 = Some [9; 8; 7; 6; 5] /\
  tcp_send 0 48 0 [1] st' = Crash UseAfterFree.
Proof. apply (tcp_send_long_dangles 0 32 48 0 [9; 8; 7; 6; 5] [1] ws1 ws1_wf); by vm_compute. Defined.
