(* ===== verification/ServerApp.v ===== *)
(** * serverapp

    The application base class of [src/libs/server/src/serverapp.cpp], where the
    parts meet: a message that [uv_service] delivers becomes a [packet], and
    [networkinterface] hands it to the receivers registered for its id. *)

From S2P Require Import Prelude MemoryStream Dispatcher Inet UvNet UvServer.

(** ** serverappinfo.h *)

Definition APP_NONE : Z := 0.
Definition APP_MAX : Z := 6.
Definition SERVERAPP_NAME_LENGTH : Z := 16.

(** The bytes of the names; each row is padded to 16 bytes with NULs. *)
Definition name_row (s : list Z) : list Z := s ++ replicate (16 - length s) 0.
Definition serverappname : list (list Z) := name_row <$>
  [ [110; 111; 110; 101; 9];           (* none *)
    [108; 111; 103; 105; 110; 9];      (* login *)
    [103; 97; 116; 101; 119; 97; 121]; (* gateway *)
    [108; 111; 103; 105; 99; 9];       (* logic *)
    [103; 97; 109; 101; 9];            (* game *)
    [100; 98; 9; 9] ].                 (* db *)

Definition SS_REGISTER_REQUEST : Z := 1.
Definition SS_REGISTER_RETURN : Z := 2.

(** ** serverapp *)

Record serverapp := mkApp { m_id : Z; m_type : Z }.

(** The constructor and [name()]: both let [APP_MAX] pass. *)
Definition serverapp_new (id type : Z) : serverapp :=
  mkApp id (if (type <? 0) || (type >? APP_MAX) then APP_NONE else type).

Definition serverapp_name (app : serverapp) : outcome (list Z * serverapp) :=
  let app := if (m_type app <? 0) || (m_type app >? APP_MAX) then mkApp (m_id app) APP_NONE else app in
  match serverappname !! Z.to_nat (m_type app) with
  | Some row => Ok (row, app)
  | None => Crash OutOfBounds
  end.

Section serverapp.
Context {S : Type}.

(** The member functions registered as receivers: the call on a session and a
    packet, on the registry and the application's own state. *)
Context (call : network_receiver -> Z -> Z -> packet ->
  dispatcher network_receiver * S -> outcome (dispatcher network_receiver * S)).

(** [on_tcpreceive(session, data, length)]; [fuel] bounds the dispatch loop. *)
Definition app_on_tcpreceive (fuel : nat) (session : Z) (data : list Z)
    (a : dispatcher network_receiver * S) : outcome (dispatcher network_receiver * S) :=
  pack ← packet_of_data (Some data) (zlen data);
  if negb (is_valid pack) then Ok a
  else
    id ← packet_id pack;
    dispatch (fun r id a => call r session id pack a) fuel id a.

(** [initialize] and [shutdown]: the receivers of the application object [this]
    ([tid] is its typeid, [f1] and [f2] its two member functions, [p1] and [p2]
    the addresses [new] returns). *)
Definition register_receiver (tid this id f : Z) : network_receiver := mkNetwork tid this id f.

Definition app_initialize (tid this f1 f2 p1 p2 : Z) (a : dispatcher network_receiver * S)
  : outcome (bool * (dispatcher network_receiver * S)) :=
  '(d, _) ← interface_listen p1 a.1 SS_REGISTER_REQUEST (register_receiver tid this SS_REGISTER_REQUEST f1);
  '(d, _) ← interface_listen p2 d SS_REGISTER_RETURN (register_receiver tid this SS_REGISTER_RETURN f2);
  Ok (true, (d, a.2)).

Definition app_shutdown (tid this f1 f2 : Z) (a : dispatcher network_receiver * S)
  : outcome (dispatcher network_receiver * S) :=
  d ← interface_unlisten a.1 SS_REGISTER_REQUEST (register_receiver tid this SS_REGISTER_REQUEST f1);
  d ← interface_unlisten d SS_REGISTER_RETURN (register_receiver tid this SS_REGISTER_RETURN f2);
  Ok (d, a.2).
End serverapp.


(** ** Connecting to another server *)

Section connectserver.
Context {A : Type} `{handler A} `{connection_handler A} (junk : Z) (if_nametoindex : list Z -> Z).
Context (getsockname : Z -> Z * list Z * Z).

(** [connectserver(ip, port, ipv6)]; the arguments in the middle are those of
    [connect]. *)
Definition connectserver (p : Z) (body0 : uv_buf) (length0 r_init addr r_connect : Z)
    (ip : list Z) (port : Z) (ipv6 : bool) (sv : service A) : outcome (bool * service A) :=
  c ← getconnection_at junk if_nametoindex getsockname ip port sv;
  match c with
  | Some q =>
      s ← get_object q (sv_world sv);
      if uv_is_active (s_tcp s) then Ok (true, sv)
      else
        sv ← closeconnection (s_id s) sv;
        connect junk if_nametoindex p body0 length0 r_init addr r_connect ip port ipv6 sv
  | None => connect junk if_nametoindex p body0 length0 r_init addr r_connect ip port ipv6 sv
  end.

(** An application can never connect to another server: [connectserver] stops the
    process for every address, port and family, whatever connections exist and
    whatever the operating system would answer: with [ASSERT], or before it with
    the invalid [free] of the new session's uninitialised packet body. *)
Theorem connectserver_never_works (p : Z) (body0 : uv_buf) (length0 r_init addr r_connect : Z)
    (ip : list Z) (port : Z) (ipv6 : bool) (sv : service A) :
  addr `mod` 4 = 0 ->
  connectserver p body0 length0 r_init addr r_connect ip port ipv6 sv =
    Crash (if (r_init =? 0) && bool_decide (base body0 = Wild) then InvalidFree else Aborted).
Proof.
  intros Ha. unfold connectserver. rewrite getconnection_at_none'. cbn [mbind outcome_bind].
  by apply connect_crashes.
Qed.
End connectserver.

(** ** From bytes to receivers *)

(** A packet built from received bytes holds them. *)
Lemma packet_of_data_holds now id extra body :
  zlen body < 2 ^ 31 ->
  exists p, packet_of_data (Some (packet_head now id (zlen body) extra ++ body))
      (zlen (packet_head now id (zlen body) extra ++ body)) = Ok p /\
    holds p now id extra body /\ m_index p = 0.
Proof.
  intros Hb. unfold packet_of_data. set (data := _ ++ body).
  assert (Hd : zlen data = 24 + zlen body) by (subst data; by rewrite zlen_app, zlen_head).
  pose proof (zlen_nonneg body).
  destruct (append_spec (ms_clear (memorystream_new (zlen data))) data (zlen data))
    as (m & -> & W & L & C & D); [split; by_decide|lia|change (MemoryStream.m_length _) with 0; lia|].
  cbn [mbind outcome_bind]. eexists. split; [done|]. split; [|done]. split; [done|].
  cbn [stream_of]. rewrite C. rewrite take_ge by (unfold zlen; lia). done.
Qed.

Lemma packet_of_data_short data :
  zlen data < 24 ->
  exists p, packet_of_data (Some data) (zlen data) = Ok p /\ is_valid p = false.
Proof.
  intros Hs. unfold packet_of_data. pose proof (zlen_nonneg data).
  destruct (append_spec (ms_clear (memorystream_new (zlen data))) data (zlen data))
    as (m & -> & W & L & C & D); [split; by_decide|lia|change (MemoryStream.m_length _) with 0; lia|].
  cbn [mbind outcome_bind]. eexists. split; [done|]. unfold is_valid, ms_length. cbn [stream_of].
  rewrite L. cbn. unfold PACKET_HEAD_LENGTH. rewrite Z.geb_leb. apply Z.leb_gt. lia.
Qed.

Section delivery.
Context {S : Type}.
Context (call : network_receiver -> Z -> Z -> packet ->
  dispatcher network_receiver * S -> outcome (dispatcher network_receiver * S)).

(** C10: a message reaches exactly the receivers registered for its id: when
    [on_tcpreceive] gets the bytes of a packet (head and body) and the receivers
    leave the registry alone, each receiver registered under the packet's id is
    called once, in order of registration, with a packet whose accessors return
    the fields the sender wrote; bytes too short for a head are dropped. *)
Theorem on_tcpreceive_delivers (f : network_receiver -> Z -> packet -> S -> S) (d : dispatcher network_receiver)
    (s : S) (session now id extra : Z) (body : list Z) :
  dispatcher_wf d ->
  (forall r i p s, call r session i p (d, s) = Ok (d, f r session p s)) ->
  is_i32 id -> is_i32 extra -> - 2 ^ 63 <= now < 2 ^ 63 -> zlen body < 2 ^ 31 ->
  let data := packet_head now id (zlen body) extra ++ body in
  let fuel := length (default [] (m_receivers d !! id)) in
  (exists p, app_on_tcpreceive call fuel session data (d, s)
      = Ok (d, foldl (invoke_on (fun r s => f r session p s) id) s (default [] (registry d !! id))) /\
    packet_id p = Ok id /\ packet_time p = Ok now /\ packet_extra p = Ok extra /\
    packet_bodylength p = Ok (zlen body) /\ ms_content (stream_of p) = data) /\
  (forall fuel short, zlen short < 24 -> app_on_tcpreceive call fuel session short (d, s) = Ok (d, s)).
Proof.
  intros Hd Hcall Hid Hex Hnow Hb data fuel. split.
  - destruct (packet_of_data_holds now id extra body Hb) as (p & E & Hp & _).
    destruct (holds_accessors _ _ _ _ _ Hp Hid Hex Hnow Hb) as (Hv & Hi & _ & Ht & Hl & Hx).
    exists p. split; [|by rewrite (holds_content _ _ _ _ _ Hp)].
    unfold app_on_tcpreceive. subst data. rewrite E. cbn [mbind outcome_bind]. rewrite Hv. cbn [negb].
    rewrite Hi. cbn [mbind outcome_bind].
    apply (dispatch_spec (fun r i a => call r session i p a) (fun r s => f r session p s)); [done|]. intros. apply Hcall.
  - intros fu short Hs. unfold app_on_tcpreceive.
    destruct (packet_of_data_short short Hs) as (p & -> & Hv). cbn [mbind outcome_bind]. by rewrite Hv.
Qed.

(** Removing what was appended last. *)
Lemma remove_equal_snoc (r : network_receiver) l :
  existsb (fun x => equals x r) l = false -> remove_equal r (l ++ [r]) = l.
Proof.
  induction l as [|x l IH]; cbn [existsb Datatypes.app remove_equal]; [by rewrite (equals_refl r)|].
  intros [-> Hl]%orb_false_iff. by rewrite IH.
Qed.

(** [shutdown] undoes [initialize]: on a well-formed registry in which the
    application is not registered, [initialize] adds its two receivers, and
    [shutdown] removes them and frees them, leaving every id's receivers as they
    were and the registry well-formed. *)
Theorem initialize_shutdown (tid this f1 f2 p1 p2 : Z) (d : dispatcher network_receiver) (s : S) :
  let r1 := register_receiver tid this SS_REGISTER_REQUEST f1 in
  let r2 := register_receiver tid this SS_REGISTER_RETURN f2 in
  let receivers d id := default [] (registry d !! id) in
  dispatcher_wf d -> p1 <> 0 -> p2 <> 0 -> p1 <> p2 -> heap d !! p1 = None -> heap d !! p2 = None ->
  existsb (fun x => equals x r1) (receivers d SS_REGISTER_REQUEST) = false ->
  existsb (fun x => equals x r2) (receivers d SS_REGISTER_RETURN) = false ->
  exists d1, app_initialize tid this f1 f2 p1 p2 (d, s) = Ok (true, (d1, s)) /\
    receivers d1 SS_REGISTER_REQUEST = receivers d SS_REGISTER_REQUEST ++ [r1] /\
    receivers d1 SS_REGISTER_RETURN = receivers d SS_REGISTER_RETURN ++ [r2] /\
  exists d2, app_shutdown tid this f1 f2 (d1, s) = Ok (d2, s) /\ dispatcher_wf d2 /\
    forall id, receivers d2 id = receivers d id.
Proof.
  intros r1 r2 receivers Hd Hp1 Hp2 Hp Hf1 Hf2 Hn1 Hn2. unfold app_initialize. cbn [fst]. fold r1 r2.
  destruct (interface_listen_spec p1 d SS_REGISTER_REQUEST r1 Hd Hf1 Hp1) as (d1 & -> & Hd1 & Hr1 & Ho1 & Hh1).
  fold (receivers d SS_REGISTER_REQUEST) in *. rewrite Hn1 in *. cbn [mbind outcome_bind].
  destruct (interface_listen_spec p2 d1 SS_REGISTER_RETURN r2 Hd1) as (d2 & -> & Hd2 & Hr2 & Ho2 & _); [|done|].
  { rewrite Hh1. by rewrite lookup_insert_ne. }
  rewrite (Ho1 SS_REGISTER_RETURN) in Hr2 by done. fold (receivers d SS_REGISTER_RETURN) in Hr2. rewrite Hn2 in Hr2.
  cbn [mbind outcome_bind snd]. exists d2. split; [done|].
  assert (E1 : receivers d2 SS_REGISTER_REQUEST = receivers d SS_REGISTER_REQUEST ++ [r1]).
  { unfold receivers at 1. by rewrite (Ho2 SS_REGISTER_REQUEST). }
  split; [done|]. split; [done|]. unfold app_shutdown. cbn [fst]. fold r1 r2.
  destruct (interface_unlisten_spec d2 SS_REGISTER_REQUEST r1 Hd2) as (d3 & -> & Hd3 & Hr3). cbn [mbind outcome_bind].
  destruct (interface_unlisten_spec d3 SS_REGISTER_RETURN r2 Hd3) as (d4 & -> & Hd4 & Hr4). cbn [mbind outcome_bind snd].
  exists d4. split; [done|]. split; [done|]. intros id. unfold receivers. rewrite Hr4, Hr3.
  destruct (decide (id = SS_REGISTER_RETURN)) as [->|Hne2].
  - rewrite lookup_alter_eq, lookup_alter_ne by done. unfold receivers in Hr2, Hn2.
    destruct (registry d2 !! SS_REGISTER_RETURN) as [l|]; cbn in Hr2 |- *; [|by destruct (default [] _)].
    rewrite Hr2. by apply remove_equal_snoc.
  - rewrite lookup_alter_ne by done. destruct (decide (id = SS_REGISTER_REQUEST)) as [->|Hne1].
    + rewrite lookup_alter_eq. unfold receivers in E1, Hn1.
      destruct (registry d2 !! SS_REGISTER_REQUEST) as [l|]; cbn in E1 |- *; [|by destruct (default [] _)].
      rewrite E1. by apply remove_equal_snoc.
    + rewrite lookup_alter_ne by done. by rewrite Ho2, Ho1.
Qed.
End delivery.

(** The name of an application is a row of the table for every type the enum
    has, but [APP_MAX], which the constructor and [name()] both accept, reads
    behind the table. *)
Theorem serverapp_name_bounds (id type : Z) :
  (APP_NONE <= type < APP_MAX ->
    exists row, serverapp_name (serverapp_new id type) = Ok (row, mkApp id type) /\ zlen row = SERVERAPP_NAME_LENGTH) /\
  (type < APP_NONE \/ APP_MAX < type -> serverapp_name (serverapp_new id type) = serverapp_name (serverapp_new id APP_NONE)) /\
  (type = APP_MAX -> serverapp_name (serverapp_new id type) = Crash OutOfBounds).
Proof.
  unfold APP_NONE, APP_MAX, serverapp_new. split; [|split].
  - intros Ht. assert (Hc : type = 0 \/ type = 1 \/ type = 2 \/ type = 3 \/ type = 4 \/ type = 5) by lia.
    destruct Hc as [->|[->|[->|[->|[->| ->]]]]]; eexists; (split; [reflexivity|by vm_compute]).
  - intros Ht. assert (E : (type <? 0) || (type >? APP_MAX) = true).
    { unfold APP_MAX. destruct Ht; [rewrite (proj2 (Z.ltb_lt type 0)) by done|rewrite (proj2 (Z.gtb_lt type 6)) by lia];
        [done|apply orb_true_r]. }
    by rewrite E.
  - by intros ->.
Qed.

(** ** Witnesses *)

Lemma connectserver_never_works_witness :
  connectserver 0 no_interface (fun _ => (0, [], 0)) 48 (mkBuf Null 0) 0 0 8192 0 localhost 7000 false service1 = Crash Aborted.
Proof.
  apply (connectserver_never_works 0 no_interface (fun _ => (0, [], 0)) 48 (mkBuf Null 0) 0 0 8192 0 localhost 7000 false service1).
  done.
Defined.

Definition net1 : network_receiver := mkNetwork 1 100 7 5.
Definition registry1 : dispatcher network_receiver := mkDispatcher {[ 16 := net1 ]} {[ 7 := [(0, 16)] ]} 1.
Lemma net_empty_wf : dispatcher_wf (dispatcher_new : dispatcher network_receiver).
Proof.
  split; cbn; [intros * H; by rewrite lookup_empty in H..|]. intros p [x Hx]. by rewrite lookup_empty in Hx.
Qed.
Lemma registry1_wf : dispatcher_wf registry1.
Proof. apply (wf_append dispatcher_new 7 [] 16 net1); [apply net_empty_wf|done..]. Qed.

(** Receivers that log the object they belong to and the packet's bytes. *)
Definition log_call (r : network_receiver) (session i : Z) (p : packet) (a : dispatcher network_receiver * list (Z * list Z))
  : outcome (dispatcher network_receiver * list (Z * list Z)) :=
  Ok (a.1, a.2 ++ [(nr_object r, ms_content (stream_of p))]).
Definition log_fun (r : network_receiver) (session : Z) (p : packet) (s : list (Z * list Z)) : list (Z * list Z) :=
  s ++ [(nr_object r, ms_content (stream_of p))].

Lemma on_tcpreceive_delivers_witness :
  let data := packet_head 1000 7 2 3 ++ [65; 66] in
  (exists p, app_on_tcpreceive log_call 1 9 data (registry1, [])
      = Ok (registry1, foldl (invoke_on (fun r s => log_fun r 9 p s) 7) [] [net1]) /\
    packet_id p = Ok 7 /\ packet_time p = Ok 1000 /\ packet_extra p = Ok 3 /\
    packet_bodylength p = Ok 2 /\ ms_content (stream_of p) = data) /\
  (forall fuel short, zlen short < 24 -> app_on_tcpreceive log_call fuel 9 short (registry1, []) = Ok (registry1, [])).
Proof.
  assert (E : default [] (registry registry1 !! 7) = [net1]) by (vm_compute; reflexivity).
  assert (E' : default [] (m_receivers registry1 !! 7) = [(0, 16)]) by (vm_compute; reflexivity).
  pose proof (on_tcpreceive_delivers log_call log_fun registry1 [] 9 1000 7 3 [65; 66] registry1_wf) as H.
  cbv zeta in H. rewrite E, E' in H. apply H; by_decide || done.
Defined.

Lemma initialize_shutdown_witness :
  let receivers (d : dispatcher network_receiver) id := default [] (registry d !! id) in
  exists d1, app_initialize 1 100 5 6 32 48 (registry1, tt) = Ok (true, (d1, tt)) /\
    receivers d1 SS_REGISTER_REQUEST = receivers registry1 SS_REGISTER_REQUEST ++ [mkNetwork 1 100 1 5] /\
    receivers d1 SS_REGISTER_RETURN = receivers registry1 SS_REGISTER_RETURN ++ [mkNetwork 1 100 2 6] /\
  exists d2, app_shutdown 1 100 5 6 (d1, tt) = Ok (d2, tt) /\ dispatcher_wf d2 /\
    forall id, receivers d2 id = receivers registry1 id.
Proof.
  apply (initialize_shutdown 1 100 5 6 32 48 registry1 tt registry1_wf); by vm_compute.
Defined.
